(* ===== verification/_CoqProject ===== *)
-Q . S2P
Prelude.v
Safety.v
Decimal.v
GoString.v
Money.v
LedgerTypes.v
LedgerFacts.v
Ledger.v
LedgerInv.v
LedgerOps.v
LedgerProgress.v
LedgerThms.v
LedgerSettle.v
LedgerWitness.v
GoTime.v
Promo.v
PromoThms.v
Period.v
OrderAmounts.v
Proration.v
ProrationThms.v
SubTypes.v
SubStore.v
SubFacts.v
Subscription.v
SubAdmin.v
Sweep.v
Charge.v
Roll.v
SubHistory.v
SubExact.v
SubQuota.v
SubThms.v
SubTraffic.v
ChargeThms.v
SweepThms.v
CloseThms.v
SubLife.v
SubWitness.v
OrderStore.v
OrderFlow.v
OrderInv.v
OrderLife.v
Frame.v
OrderHistory.v
OrderThms.v
PayStore.v
PayFlow.v
PayInv.v
PayOps.v
PayRecord.v
PayTrades.v
PayQuery.v
PayHistory.v
PayThms.v
PayWitness.v
PayFrame.v
CommStore.v
CommFlow.v
CommInv.v
CommOps.v
CommSteps.v
CommAccrue.v
CommHistory.v
CommThms.v
CommWitness.v
Idem.v
IdemFacts.v
IdemHistory.v
IdemThms.v
IdemWitness.v
Gift.v
GiftCodes.v
GiftStore.v
GiftFlow.v
GiftRedeem.v
GiftInv.v
GiftHistory.v
GiftThms.v
GiftWitness.v
