(* ===== verification/Prelude.v ===== *)
(** * Pandora: a verified model of the panel's money and subscription core

    Pandora is a subscription panel (src/panel, Go) with a node daemon
    (src/pdnd).  This development models the part of the panel that moves money
    and decides who is served, and proves what makes it correct.

    ** The program's parts and how they interact

    - [panel/internal/pkg/money] and the decimal library it wraps: two-place
      amounts, shares rounded once.
    - [panel/internal/module/ledger]: double-entry postings over accounts,
      transactions, entries and holds; orders hold balance, settle or release
      it, administrators adjust it.
    - [panel/internal/module/promo]: discount codes with a capacity and a limit
      per user; an order reserves a use, and settles or gives it back.
    - [panel/internal/module/order]: totals, balance plans, quotes, the value of
      what is left of a subscription when a plan is changed, and the flow of an
      order: placed with a reservation of its discount code and balance, then
      paid and fulfilled, cancelled or expired.  One transaction of the flow
      writes the order tables, the ledger, the codes and the subscriptions.
    - [panel/internal/module/payment]: a user opens a checkout at a channel for
      an order (an intent); callbacks, queries and a patrol report what the
      channel received.  A payment settles its order in the same transaction;
      money the order cannot take any more becomes a late payment, a case that
      an administrator turns into balance.
    - [panel/internal/module/commission]: when an order is paid, the people who
      referred its buyer earn a share; it is frozen, then settles to an account
      from which they withdraw or transfer to their balance; reviews, and the
      closing of an account, void what is left.
    - [panel/internal/module/idempotency]: a request with a key is executed once;
      a handler completes its key in the transaction of its own writes, and the
      request that comes again gets the recorded response.
    - [panel/internal/module/giftcard]: templates of gift cards, batches of codes
      generated from them and exported once; a user redeems a code, which
      credits balance, extends, resets or fills up a subscription, or grants a
      plan, in one transaction with the ledger and the subscriptions.
    - [panel/internal/module/subscription]: subscriptions with their period,
      quotas, links, events and reset logs.  Orders and gift cards provision,
      renew, extend, stack and change them; a scheduler expires and closes them
      and rolls their quotas; owners and administrators change links, ends,
      limits and names; nodes report traffic, which is charged to the
      quotas; the list of subscriptions the nodes serve is read from the same
      rows.

    ** Files

    - [Prelude]: results, the state-and-error monad [M], [int64] arithmetic,
      lemmas on lists shared by the components, hint databases.
    - [Decimal]: the interface [DecimalLib] of the decimal library
      (shopspring/decimal is not part of the sources), its laws, and an
      instance [scaled_decimal] by coefficient and exponent.  [GoString]: Go
      strings, runes and trimming.  [Money]: pkg/money.
    - [LedgerTypes], [Ledger]: the ledger's data and every writing operation of
      service/posting.go, post.go, holds.go, adjust.go with the statements of
      repo/ and the constraints and deferred trigger of the migrations.
      [LedgerFacts], [LedgerInv], [LedgerOps], [LedgerProgress]: the invariant,
      that each operation keeps it, and when operations succeed.
      [LedgerThms], [LedgerSettle]: the theorems.  [LedgerWitness]: runs.
    - [GoTime]: the calendar arithmetic of package time.  [Period]:
      service/period.go, state.go and the window computations of quota_roll.go.
    - [Safety]: invariants kept by steps that commit, and histories of them.
      [Promo]: promo/service/rules.go, redeem.go, admin.go with the statements
      of promo/repo.  [PromoThms]: its theorems and runs.
    - [OrderAmounts]: order/service/amounts.go.  [Proration]: proration.go,
      change_basis.go, valuer.go.  [ProrationThms]: its theorems.
    - [SubTypes], [SubStore]: the subscription rows, their constraints, the
      repository statements and shared helpers (internal.go, service.go).
      [Subscription]: provision.go, trial.go, renew.go, extend.go, stack.go,
      plan_change.go, bonus.go, reset.go.  [SubAdmin]: rotate.go, admin.go,
      admin_edit.go and the naming of portal.go, with repo/credentials.go.
      [Sweep]: expire.go, close.go.  [Charge]: charge.go, charge_plan.go,
      serving.go.  [Roll]: quota_roll.go.
    - [SubFacts], [SubHistory]: the invariant of the tables over every history
      of calls.  [SubExact], [SubQuota]: what statements and helpers do when
      they succeed.  [SubThms], [SubTraffic], [ChargeThms], [SweepThms],
      [CloseThms]: the operations' theorems.  [SubLife]: the life of a
      subscription as its event log tells it, and that the tables follow it.
      [SubWitness]: runs.
    - [OrderStore]: the order tables (order/model, order/repo and migration 00013
      with its amendments) and the world of all tables a transaction writes.
      [OrderFlow]: checkout.go, reserve.go, limits.go, settle.go, fulfil.go,
      archived.go, cancel.go.  [OrderInv]: what the tables say about one order
      (its view), the invariant, and what each statement does to them.
      [OrderLife]: what each operation does to the view of its order.  [OrderHistory]: every
      history of the shop.  [OrderThms]: the theorems and runs.
    - [PayStore]: the payment tables (payment/model, payment/repo, migrations
      00012, 00042 and 00058).  [PayFlow]: surcharge.go, providers.go,
      callback.go, intent.go, record.go, webhook.go, offline.go, archived.go,
      late.go and order/service/payops.go; [wired] puts the tables where the
      order flow calls for them.  [PayQuery]: query.go.  [PayInv], [PayOps],
      [PayRecord], [PayTrades]: what the order flow leaves alone, the invariant
      and that every operation keeps it.
      [PayHistory]: every history of the shop, with any neighbours that keep to
      their own accounts (class [GoodNeighbours]).  [PayThms]: the theorems.
      [PayWitness]: runs.
    - [Frame]: what the order flow leaves alone in the ledger and in other
      modules' tables, walked once for any invariant it cannot break.
      [PayFrame]: the same for the payment flow and the steps of the shop.
    - [CommStore]: the commission tables (commission/model, commission/repo,
      migrations 00014, 00016, 00040 and 00041).  [CommFlow]: levels.go,
      accrue.go, settle.go, autotransfer.go, review.go, withdraw.go,
      payout_methods.go, transfer.go, deleted.go, overrides.go and the decoding
      of the settings.  [CommInv]: the rows' life and constraints, and
      what the two accounts of a user must hold.  [CommOps], [CommSteps],
      [CommAccrue]: that every call keeps both.  [CommHistory]: the
      shop with this module's hook of a paid order and its calls in between;
      the module is a [GoodNeighbours] of orders and payments.  [CommThms]: the
      theorems.  [CommWitness]: runs.
    - [Idem]: idempotency/service, repo, model, handler and task.  [IdemFacts]:
      the table's invariant and what each call does to the row of a key.
      [IdemHistory]: interleaved requests, a log of what happened to each key,
      and the life of a key it follows.  [IdemThms]: the theorems.
      [IdemWitness]: runs, with the order flow as the handler.
    - [Gift]: giftcard/service/rules.go and placement.go.  [GiftCodes]: codes as
      text and the draw of a prize.  [GiftStore]: the tables (giftcard/model,
      giftcard/repo, migrations 00015, 00051, 00055 and 00066).  [GiftFlow]:
      templates.go, batches.go, codes.go.  [GiftRedeem]: redeem.go, grant.go and
      the reads of the user's subscriptions.  [GiftInv]: the rows' life, the
      invariant, and the calls that redeem nothing.  [GiftHistory]: what a
      redemption does, and every history of the module with the ledger and the
      subscriptions changing in between.  [GiftThms]: what generating stores and
      exporting returns, and the theorems.  [GiftWitness]: runs.

    ** How code corresponds to definitions

    A definition has the name of the Go function it models.  A method that
    reads or writes the database is a function in the monad [M store error]:
    the store is a record of tables (lists of rows in identifier order, or
    finite maps), errors are values, and [tx.Do] ([Do]) runs its body and rolls
    the store back on an error unless it is nested in another transaction.
    Statements check the constraints of the migrations in the order the
    database does.  What the sources cannot determine is an argument: the clock
    ([now], and [wall] for time.Now), random bytes, generated identifiers, the
    rows other transactions hold locked, and the catalogue, settings, sealing
    and hashing services (record [Env]).  Machine integers are [Z] with the
    wrap written out ([wrap64]); times are nanoseconds since 1970 in UTC.

    ** What the theorems show

    - Payments (C1, C2, C8-C11): over every history of the shop
      money is recorded once, settles exactly the order it was due for or is
      kept as a case, and the account of late payments is the open cases; the
      tables follow their state machines; replays and forgeries change nothing;
      a case is decided once.
    - Commissions (C3, C12-C16): over the same histories the accounts of every
      user agree with the tables to the cent and always cover what is owed; an
      order pays its line of referrals once; withdrawals are granted exactly on
      their grounds; closing an account leaves nothing behind.
    - Order flow (C4, C5): over every history, orders, reservations, redemptions
      and holds agree, the balance on hold and the counters of a code are those
      of the pending and fulfilled orders, the integrity queries find nothing;
      and the tables refine the abstract life cycle [OrderInv.life] of an order.
    - Ledger (C6, C7, C28, C29): every reachable ledger is balanced and free of
      drift, no user is overdrawn, a hold is decided by the balance and the
      order, and holds and settlements are exact.
    - Idempotency keys (C17-C20): however requests interleave and crash, the log
      of a key is a run of the abstract life [IdemHistory.life] of a key, at
      most one execution succeeds, every later request is answered with its
      response or refused, and the response is repeated exactly and is what was
      sent.
    - Gift cards (C21-C27): over every history codes and redemptions agree, codes
      follow their transition table, and what was given out is the ledger's
      expense to the cent; a redemption does exactly what its card says or
      nothing, and once; a batch's codes come out once and can be typed back;
      prizes are drawn by their weights.
    - Subscriptions (C30, C31, C36-C40): over every history the event log of a
      subscription replays to its status, its end and its valid links, and
      closing is final; the exact effect of a plan change, of the credit for
      what it replaces, of a new link and of bonus traffic, and quota windows
      that always catch up with the present.
    - Discount codes (C32): counters always equal the uses they count and stay
      within the limits.
    - Traffic and time (C33-C35): node reports are charged exactly; the expiry
      job, at one instant and within its batches, settles all due rows that no
      other transaction holds; closing an account ends all of its subscriptions
      and no others.
    Further theorems (the surcharge of a channel, releasing holds and
    reservations, the ledger's history only growing, payouts made once, nodes
    told of everyone who ran out, keys never left locked, quotes, balance plans, shares and discounts, renewals,
    extensions, resets, adjustments, posting once, the rows of the commission
    tables, the patrol's schedule, retention, fingerprints) are proved beside
    them.

    ** Bounds and fuel

    The only fuel is in [cycle_loop] (as many steps as days between the old end
    and the subscription's end, proved enough in C40), [step_back] (the count
    it counts down from), [draw_codes] (more than the random reads there are,
    proved enough in [GiftThms]) and the batch loops, whose bounds are the program's
    own constants (expireMaxBatches, rollQuotaMaxBatches, maxLabelTries, the
    patrol's BatchLimit, the retention task's maxBatches, maxCollisionRounds of
    a batch of gift codes).

    ** Not modelled

    Cancellation of a request's context, realtime notifications to browsers,
    timestamps of rows, and the text of error messages.  The requests that
    assemble the draft of an order from the catalogue (order/service/create.go,
    change.go, stack.go, manual.go) are not modelled: the flow takes any draft.
    Of the payment module the adapters' protocols (provider/epay, btcpay,
    coinpayments) are a parameter, the administration of channels and the
    listings are left out, and the advisory lock on a payment's reference is the
    absence of interleaving inside a transaction.  Of the commission module the
    listings and the writing of its settings are left out; of idempotency the
    HMAC and the detection of a content type are parameters.  Of gift
    cards the preview, the listings and the report are left out, the keyed hash,
    the sealer and the random source are parameters, and the advisory lock on a
    user's template is the absence of interleaving.  Of subscriptions the pulls
    of a link (their log, the mark on the credential, the rendering), the groups
    of domains and the listings are left out.  Authentication, node management,
    notification, settings and the HTTP layer are glue over the database and
    outside services; the node daemon's protocol code is adapted from third parties, and
    src/nodeapi is generated. *)
From Stdlib Require Import ZArith QArith Qround Lqa Lia.
From stdpp Require Import base tactics list gmap strings.
#[local] Open Scope Z_scope.

(** * Results and transactions *)

(** Go functions return a value and an error; a [result] is the pair seen by
    a caller that tests [err != nil] first. *)
Inductive result (E A : Type) : Type :=
| Ok (a : A)
| Err (e : E).
Arguments Ok {E A} a.
Arguments Err {E A} e.

#[global] Instance result_ret E : MRet (result E) := λ A a, Ok a.
#[global] Instance result_bind E : MBind (result E) := λ A B f m,
  match m with Ok a => f a | Err e => Err e end.
#[global] Instance result_fmap E : FMap (result E) := λ A B f m,
  match m with Ok a => Ok (f a) | Err e => Err e end.

(** Guard of the shape [if cond { return err }]. *)
Definition reject {E} (cond : bool) (e : E) : result E () :=
  if cond then Err e else Ok ().

(** A database step: it sees the tables [S] and returns a result together
    with the tables it leaves, also when it fails. *)
Definition M (S E A : Type) : Type := S → result E A * S.

#[global] Instance M_ret S E : MRet (M S E) := λ A a s, (Ok a, s).
#[global] Instance M_bind S E : MBind (M S E) := λ A B f m s,
  match m s with
  | (Ok a, s') => f a s'
  | (Err e, s') => (Err e, s')
  end.

Definition fail {S E A} (e : E) : M S E A := λ s, (Err e, s).
Definition lift {S E A} (r : result E A) : M S E A := λ s, (r, s).
Definition gets {S E A} (f : S → A) : M S E A := λ s, (Ok (f s), s).
(** Translates the error of a step, as [if errors.Is(err, a) { return b }]. *)
Definition map_err {S E A} (f : E → E) (m : M S E A) : M S E A := λ s,
  match m s with
  | (Err e, s') => (Err (f e), s')
  | (Ok a, s') => (Ok a, s')
  end.
Definition modify {S E} (f : S → S) : M S E () := λ s, (Ok (), f s).

(** * Transactions (panel/internal/pkg/tx/tx.go)

    [Do inTx deferred fn] runs [fn] in a transaction.  When the context already
    carries a transaction ([inTx]) the body just joins it.  Otherwise a new one
    is opened: an error of the body, or of a constraint deferred to the commit
    ([deferred]), rolls every write back. *)
Definition Do {S E A} (inTx : bool) (deferred : S → result E ()) (fn : M S E A) : M S E A :=
  λ s,
    if inTx then fn s
    else match fn s with
         | (Ok a, s') =>
             match deferred s' with
             | Ok _ => (Ok a, s')
             | Err e => (Err e, s)
             end
         | (Err e, _) => (Err e, s)
         end.

(** * The caller (panel/internal/pkg/authn) *)

Record Principal := mkPrincipal { pr_UserID : N; pr_Audience : string }.
Definition AudienceAdmin : string := "admin".

(** * Machine integers *)

Definition MaxInt64 : Z := 2 ^ 63 - 1.
Definition MinInt64 : Z := - 2 ^ 63.

(** Two's complement wrap-around of Go's [int64] (and of [int] and
    [time.Duration], which are 64 bits wide on the supported platforms). *)
Definition wrap64 (z : Z) : Z := (z + 2 ^ 63) mod 2 ^ 64 - 2 ^ 63.

Definition is_int64 (z : Z) : bool := (MinInt64 <=? z) && (z <=? MaxInt64).

Definition in64 (z : Z) : Prop := MinInt64 ≤ z ≤ MaxInt64.

Lemma is_int64_spec z : is_int64 z = true ↔ in64 z.
Proof. unfold is_int64, in64. rewrite andb_true_iff, !Z.leb_le. tauto. Qed.

Lemma wrap64_id z : in64 z → wrap64 z = z.
Proof.
  unfold in64, wrap64, MinInt64, MaxInt64. intros H.
  rewrite Z.mod_small; lia.
Qed.

Lemma wrap64_range z : in64 (wrap64 z).
Proof.
  unfold in64, wrap64, MinInt64, MaxInt64.
  pose proof (Z.mod_pos_bound (z + 2 ^ 63) (2 ^ 64)). lia.
Qed.

(** * Lists as tables *)

Lemma elem_of_filter_bool {A} (p : A → bool) l x : x ∈ List.filter p l ↔ p x = true ∧ x ∈ l.
Proof. rewrite !list_elem_of_In, List.filter_In. naive_solver. Qed.

Lemma filter_sublist {A} (p : A → bool) l : sublist (List.filter p l) l.
Proof.
  induction l as [|x l IH]; simpl; [done|]. destruct (p x); [by apply sublist_skip|by apply sublist_cons].
Qed.
Lemma NoDup_filter_map {A B} (f : A → B) (p : A → bool) l : NoDup (map f l) → NoDup (map f (List.filter p l)).
Proof. intros H. eapply sublist_NoDup; [exact H|]. apply (fmap_sublist f), filter_sublist. Qed.

Lemma existsb_false {A} (p : A → bool) l : existsb p l = false ↔ ∀ x, x ∈ l → p x = false.
Proof.
  induction l as [|y l IH]; simpl; [by split; [intros _ x Hx%elem_of_nil|]|].
  rewrite orb_false_iff, IH. setoid_rewrite elem_of_cons. naive_solver.
Qed.

Lemma existsb_true {A} (p : A → bool) l : existsb p l = true ↔ ∃ x, x ∈ l ∧ p x = true.
Proof. rewrite existsb_exists. setoid_rewrite list_elem_of_In. done. Qed.

Lemma find_app {A} (p : A → bool) l1 l2 :
  List.find p (l1 ++ l2)%list = match List.find p l1 with Some x => Some x | None => List.find p l2 end.
Proof. induction l1 as [|x l1 IH]; simpl; [done|]. by destruct (p x). Qed.
Lemma NoDup_map_inj {A B} (g : A → B) l x y : NoDup (map g l) → x ∈ l → y ∈ l → g x = g y → x = y.
Proof.
  intros Hn (i & Hi)%list_elem_of_lookup (j & Hj)%list_elem_of_lookup E.
  assert (i = j) as ->; [|congruence]. eapply (NoDup_lookup (map g l)); [done| |].
  - rewrite list_lookup_fmap, Hi. done.
  - rewrite list_lookup_fmap, Hj. simpl. by rewrite E.
Qed.

(** [UPDATE … WHERE hit], and how many rows it changed. *)
Definition upd {A} (hit : A → bool) (f : A → A) (l : list A) : list A := map (λ r, if hit r then f r else r) l.
Definition hits {A} (hit : A → bool) (l : list A) : Z := Z.of_nat (length (List.filter hit l)).
Lemma upd_in {A} hit (f : A → A) l x : x ∈ upd hit f l ↔ ∃ y, y ∈ l ∧ x = if hit y then f y else y.
Proof. unfold upd. rewrite list_elem_of_fmap. naive_solver. Qed.

Lemma hits_one {A} (hit : A → bool) l : hits hit l = 1 → ∃ x, x ∈ l ∧ hit x = true.
Proof.
  unfold hits. intros H. destruct (List.filter hit l) as [|x r] eqn:E; [done|]. exists x.
  assert (Hx : x ∈ List.filter hit l) by (rewrite E; constructor). by apply elem_of_filter_bool in Hx as [? ?].
Qed.

(** Nullable columns. *)
Definition opt_ok {A} (f : A → bool) (o : option A) : bool := match o with Some x => f x | None => true end.
Definition is_none {A} (o : option A) : bool := match o with None => true | Some _ => false end.

(** * Proof automation *)

Create HintDb pandora.
Create Rewrite HintDb int64.
#[export] Hint Resolve wrap64_range : pandora.
#[export] Hint Rewrite wrap64_id using (unfold in64, MinInt64, MaxInt64 in *; lia) : int64.

(** Case analysis on the innermost [match] or [if] of the goal or of a
    hypothesis, remembering the equation. *)
Ltac split_match :=
  match goal with
  | |- context [match ?x with _ => _ end] =>
      lazymatch x with context [match _ with _ => _ end] => fail | _ => idtac end;
      destruct x eqn:?
  end.
Ltac split_match_in H :=
  match type of H with
  | context [match ?x with _ => _ end] =>
      lazymatch x with context [match _ with _ => _ end] => fail | _ => idtac end;
      destruct x eqn:?
  end.
Ltac invert_ok H := repeat (split_match_in H; try discriminate H); simplify_eq H.

(** Turns the boolean tests of the context into propositions. *)
Ltac reflect_bools :=
  repeat match goal with
  | H : (_ && _) = true |- _ => apply andb_true_iff in H as [? ?]
  | H : (_ || _) = false |- _ => apply orb_false_iff in H as [? ?]
  | H : negb _ = true |- _ => apply negb_true_iff in H
  | H : negb _ = false |- _ => apply negb_false_iff in H
  | H : (_ <? _) = true |- _ => apply Z.ltb_lt in H
  | H : (_ <? _) = false |- _ => apply Z.ltb_ge in H
  | H : (_ <=? _) = true |- _ => apply Z.leb_le in H
  | H : (_ <=? _) = false |- _ => apply Z.leb_gt in H
  | H : (_ =? _) = true |- _ => apply Z.eqb_eq in H
  | H : (_ =? _) = false |- _ => apply Z.eqb_neq in H
  | H : bool_decide _ = true |- _ => apply bool_decide_eq_true in H
  | H : bool_decide _ = false |- _ => apply bool_decide_eq_false in H
  end.

(** Splits every integer comparison of the goal and lets [lia] finish. *)
Ltac cases_lia :=
  repeat match goal with
  | |- context [?a <? ?b] => destruct (Z.ltb_spec a b)
  | |- context [?a <=? ?b] => destruct (Z.leb_spec a b)
  | |- context [?a =? ?b] => destruct (Z.eqb_spec a b)
  end; simpl; try lia.

(** * Monad laws used to take a step apart *)

Lemma M_bind_ok {S E A B} (m : M S E A) (f : A → M S E B) s b s' :
  (m ≫= f) s = (Ok b, s') ↔ ∃ a s1, m s = (Ok a, s1) ∧ f a s1 = (Ok b, s').
Proof.
  unfold mbind, M_bind. destruct (m s) as [[a|e] s1] eqn:Hm; split.
  - eauto.
  - intros (a' & s1' & ? & ?). by simplify_eq.
  - intros ?; simplify_eq.
  - intros (a' & s1' & ? & ?). by simplify_eq.
Qed.

Lemma map_err_ok {S E A} (f : E → E) (m : M S E A) s a s' :
  map_err f m s = (Ok a, s') ↔ m s = (Ok a, s').
Proof. unfold map_err. destruct (m s) as [[?|?] ?]; naive_solver. Qed.

Lemma result_bind_ok {E A B} (m : result E A) (f : A → result E B) b :
  (m ≫= f) = Ok b ↔ ∃ a, m = Ok a ∧ f a = Ok b.
Proof. destruct m as [a|e]; naive_solver. Qed.

Lemma reject_ok {E} (c : bool) (e : E) u : reject c e = Ok u ↔ c = false.
Proof. destruct c, u; naive_solver. Qed.

(** A failed outermost transaction leaves the tables as they were. *)
Lemma Do_err_rollback {S E A} (deferred : S → result E ()) (fn : M S E A) s e s' :
  Do false deferred fn s = (Err e, s') → s' = s.
Proof.
  unfold Do. destruct (fn s) as [[a|e'] s1]; [|congruence].
  destruct (deferred s1); congruence.
Qed.

Lemma Do_ok {S E A} b (deferred : S → result E ()) (fn : M S E A) s a s' :
  Do b deferred fn s = (Ok a, s') → fn s = (Ok a, s').
Proof.
  unfold Do. destruct b; [done|]. destruct (fn s) as [[x|e] s1]; [|done].
  destruct (deferred s1); congruence.
Qed.

(** An invariant that successful bodies preserve is preserved by the whole
    transaction, failed or not. *)
Lemma Do_invariant {S E A} (P : S → Prop) (deferred : S → result E ()) (fn : M S E A) s r s' :
  P s → (∀ a s1, fn s = (Ok a, s1) → P s1) → Do false deferred fn s = (r, s') → P s'.
Proof.
  intros Hs Hfn H. destruct r as [a|e].
  - eapply Hfn. by eapply Do_ok.
  - by apply Do_err_rollback in H as ->.
Qed.

(** * Sums of rationals *)

Definition Qsum (l : list Q) : Q := foldr Qplus 0%Q l.

Lemma Qsum_app l1 l2 : (Qsum (l1 ++ l2) == Qsum l1 + Qsum l2)%Q.
Proof. induction l1 as [|x l1 IH]; simpl; [lra|]. rewrite IH. lra. Qed.

(** Truncation toward zero, as [big.Int.Quo] on a fraction. *)
Definition Qtrunc (q : Q) : Z := Z.quot (Qnum q) (Zpos (Qden q)).

Lemma Qtrunc_quot (a : Z) (b : positive) : Qtrunc (a # b) = Z.quot a (Zpos b).
Proof. done. Qed.

Lemma quot_cross a b c d : 0 < b → 0 < d → a * d = c * b → Z.quot a b = Z.quot c d.
Proof.
  intros Hb Hd Heq.
  rewrite <- (Z.quot_mul_cancel_r a b d), <- (Z.quot_mul_cancel_r c d b) by lia.
  rewrite Heq. f_equal. lia.
Qed.

#[global] Instance Qtrunc_proper : Proper (Qeq ==> eq) Qtrunc.
Proof.
  intros [a b] [c d] H. unfold Qtrunc, Qeq in *; simpl in *.
  apply quot_cross; lia.
Qed.

Lemma Qtrunc_inject z : Qtrunc (inject_Z z) = z.
Proof. unfold Qtrunc; simpl. apply Z.quot_1_r. Qed.

(** Truncation never moves away from zero. *)
Lemma Qtrunc_nonneg_bounds q :
  (0 <= q)%Q → (inject_Z (Qtrunc q) <= q)%Q ∧ (q < inject_Z (Qtrunc q + 1))%Q ∧ 0 ≤ Qtrunc q.
Proof.
  destruct q as [a b]. unfold Qtrunc, Qle, Qlt, inject_Z; simpl. intros H.
  assert (Ha : 0 ≤ a) by lia.
  rewrite Z.quot_div_nonneg by lia.
  pose proof (Z.div_mod a (Zpos b)). pose proof (Z.mod_pos_bound a (Zpos b)).
  pose proof (Z.div_pos a (Zpos b)). nia.
Qed.

(** * Rows by position *)

Section Rows.
Context {A : Type}.
(** Rows stay where they are and change by [R]; new ones follow. *)
Definition rows_life (R : relation A) (l l' : list A) : Prop := ∀ n x, l !! n = Some x → ∃ y, l' !! n = Some y ∧ R x y.
#[global] Instance rows_life_preorder R `{!PreOrder R} : PreOrder (rows_life R).
Proof.
  split; [intros l n x Hx; by exists x|]. intros a b c H1 H2 n x Hx. destruct (H1 _ _ Hx) as (y & Hy & L1).
  destruct (H2 _ _ Hy) as (z & Hz & L2). exists z. split; [done|by etrans].
Qed.
Lemma rows_life_app R `{!Reflexive R} l new : rows_life R l (l ++ new).
Proof. intros n x Hx. exists x. by rewrite lookup_app_l by by eapply lookup_lt_Some. Qed.
Lemma rows_life_upd (R : relation A) `{!Reflexive R} hit f l : (∀ x, x ∈ l → hit x = true → R x (f x)) → rows_life R l (upd hit f l).
Proof.
  intros Hf n x Hx. unfold upd. eexists. split; [by rewrite list_lookup_fmap, Hx|]. simpl.
  destruct (hit x) eqn:E; [|done]. apply Hf; [by eapply list_elem_of_lookup_2|done].
Qed.

(** An update that changes the one row [x]. *)
Lemma no_hit_upd (hit : A → bool) f l : List.filter hit l = [] → upd hit f l = l.
Proof.
  unfold upd. induction l as [|y l IH]; simpl; [done|]. destruct (hit y) eqn:E; [done|]. intros H. by rewrite IH.
Qed.
Lemma one_hit (hit : A → bool) (f : A → A) l x : hits hit l = 1 → x ∈ l → hit x = true →
  ∃ a b, l = (a ++ x :: b)%list ∧ upd hit f l = (a ++ f x :: b)%list.
Proof.
  unfold hits. intros H1 Hx Hh. apply list_elem_of_split in Hx as (a & b & ->). exists a, b. split; [done|].
  rewrite List.filter_app in H1. simpl in H1. rewrite Hh, length_app in H1. simpl in H1.
  assert (Ea : List.filter hit a = []) by (apply nil_length_inv; lia).
  assert (Eb : List.filter hit b = []) by (apply nil_length_inv; lia).
  unfold upd. rewrite map_app. simpl. rewrite Hh. f_equal; [exact (no_hit_upd _ f _ Ea)|]. f_equal. exact (no_hit_upd _ f _ Eb).
Qed.

(** Sums over the rows. *)
Definition over (q : A → Q) (l : list A) : Q := Qsum (map q l).
Lemma over_app q l l' : (over q (l ++ l') == over q l + over q l')%Q.
Proof. unfold over. by rewrite map_app, Qsum_app. Qed.
Lemma over_add q l x : (over q (l ++ [x]) == over q l + q x)%Q.
Proof. rewrite over_app. unfold over. simpl. lra. Qed.
Lemma over_swap q a b x y : (over q (a ++ y :: b) == over q (a ++ x :: b) + q y - q x)%Q.
Proof. rewrite !over_app. unfold over. simpl. lra. Qed.
Lemma over_upd q (hit : A → bool) f l : (∀ x, x ∈ l → hit x = true → q (f x) == q x)%Q → (over q (upd hit f l) == over q l)%Q.
Proof.
  unfold over, upd. induction l as [|x l IH]; intros H; simpl; [done|]. rewrite IH by (intros; apply H; [by constructor|done]).
  destruct (hit x) eqn:E; [|lra]. rewrite H; [lra|constructor|done].
Qed.
Lemma over_none q l : (∀ x, x ∈ l → q x == 0)%Q → (over q l == 0)%Q.
Proof.
  unfold over. induction l as [|x l IH]; intros H; simpl; [done|]. rewrite IH by (intros; apply H; by constructor).
  rewrite H by constructor. lra.
Qed.
End Rows.
