(* ===== verification/Safety.v ===== *)
(** Steps that keep an invariant and relate the states before and after by a
    preorder whenever they succeed.  A failed step may leave a half-written
    state behind, which the enclosing transaction rolls back: [safe_commit]
    turns such a step into one that is safe whatever it answers.  Shared by the
    components whose invariants hold over every history of calls. *)
From stdpp Require Import base tactics list gmap strings relations.
From S2P Require Import Prelude.

Section Safety.
Context {S E : Type} (I : S → Prop) (R : relation S) `{!PreOrder R}.

Definition keeps {A} (m : M S E A) : Prop := ∀ s a s', I s → m s = (Ok a, s') → I s' ∧ R s s'.

Lemma keeps_pure {A} (f : S → result E A) : keeps (λ s, (f s, s)).
Proof. intros s a s' Hs H. injection H as _ <-. by split. Qed.
Lemma keeps_reads {A} (m : M S E A) : (∀ s, (m s).2 = s) → keeps m.
Proof. intros Hm s a s' Hs H. specialize (Hm s). rewrite H in Hm. simpl in Hm. by subst. Qed.
Lemma keeps_ret {A} (a : A) : keeps (mret a).
Proof. exact (keeps_pure (λ _, Ok a)). Qed.
Lemma keeps_fail {A} (e : E) : keeps (fail e : M S E A).
Proof. exact (keeps_pure (λ _, Err e)). Qed.
Lemma keeps_lift {A} (x : result E A) : keeps (lift x).
Proof. exact (keeps_pure (λ _, x)). Qed.
Lemma keeps_gets {A} (f : S → A) : keeps (gets f).
Proof. exact (keeps_pure (λ s, Ok (f s))). Qed.

Lemma keeps_bind {A B} (m : M S E A) (f : A → M S E B) : keeps m → (∀ a, keeps (f a)) → keeps (m ≫= f).
Proof.
  intros Hm Hf s b s' Hs H. unfold mbind, M_bind in H. destruct (m s) as [[a|e] s1] eqn:Em; [|done].
  destruct (Hm _ _ _ Hs Em) as [Hs1 He]. destruct (Hf a _ _ _ Hs1 H) as [Hs2 He2]. split; [done|by etrans].
Qed.

(** With what is known of the first step's answer. *)
Lemma keeps_bind_post {A B} (Q : A → Prop) (m : M S E A) (f : A → M S E B) :
  keeps m → (∀ s a s', I s → m s = (Ok a, s') → Q a) → (∀ a, Q a → keeps (f a)) → keeps (m ≫= f).
Proof.
  intros Hm HQ Hf s b s' Hs H. unfold mbind, M_bind in H. destruct (m s) as [[a|e] s1] eqn:Em; [|done].
  destruct (Hm _ _ _ Hs Em) as [Hs1 He]. destruct (Hf a (HQ _ _ _ Hs Em) _ _ _ Hs1 H) as [Hs2 He2]. split; [done|by etrans].
Qed.

Lemma keeps_map_err {A} f (m : M S E A) : keeps m → keeps (map_err f m).
Proof.
  intros Hm s a s' Hs H. unfold map_err in H. destruct (m s) as [[b|e] s1] eqn:Em; simplify_eq. by eapply Hm.
Qed.

Lemma keeps_Do {A} b d (m : M S E A) : keeps m → keeps (Do b d m).
Proof.
  intros Hm s a s' Hs H. unfold Do in H. destruct b; [by eapply Hm|].
  destruct (m s) as [[x|e] s1] eqn:Em; [destruct (d s1)|]; simplify_eq. by eapply Hm.
Qed.

Lemma keeps_modify (f : S → S) : (∀ s, I s → I (f s) ∧ R s (f s)) → keeps (modify f).
Proof. intros Hf s a s' Hs H. injection H as _ <-. by apply Hf. Qed.

(** A transaction of its own either commits such a step or changes nothing. *)
Lemma safe_commit {A} d (m : M S E A) s r s' : keeps m → I s → Do false d m s = (r, s') → I s' ∧ R s s'.
Proof.
  intros Hm Hs H. unfold Do in H. destruct (m s) as [[x|e] s1] eqn:Em; [destruct (d s1)|]; simplify_eq; [|by split..].
  by eapply Hm.
Qed.

(** Over every history of safe steps. *)
Lemma history_keeps (step : relation S) s0 s :
  (∀ s s', I s → step s s' → I s' ∧ R s s') → I s0 → rtc step s0 s → I s ∧ R s0 s.
Proof.
  intros Hstep H0 Hr. induction Hr as [x|x y z Hxy _ IH]; [by split|].
  destruct (Hstep _ _ H0 Hxy) as [Hy Hxy']. destruct (IH Hy) as [Hz ?]. split; [done|by etrans].
Qed.
End Safety.

(** Walks a step made of these constructs. *)
Ltac keeps_walk :=
  repeat first
    [ progress intros
    | apply keeps_bind; [apply _| |] | apply keeps_map_err | apply keeps_Do
    | apply keeps_ret, _ | apply keeps_fail, _ | apply keeps_lift, _ | apply keeps_gets, _
    | progress cbv zeta
    | match goal with |- keeps _ _ (match ?x with _ => _ end) => destruct x end ].

(** Inverts a step that succeeded. *)
Lemma bind_Ok {S E A B} (m : M S E A) (f : A → M S E B) s b s' :
  (m ≫= f) s = (Ok b, s') → ∃ a s1, m s = (Ok a, s1) ∧ f a s1 = (Ok b, s').
Proof. unfold mbind, M_bind. destruct (m s) as [[a|e] s1] eqn:E1; [eauto|done]. Qed.
Lemma lift_Ok {S E A} (r : result E A) (s : S) a s' : lift r s = (Ok a, s') → r = Ok a ∧ s' = s.
Proof. unfold lift. by intros [= -> ->]. Qed.
Lemma gets_Ok {S E A} (f : S → A) (s : S) a s' : gets (E := E) f s = (Ok a, s') → a = f s ∧ s' = s.
Proof. unfold gets. by intros [= <- <-]. Qed.
Lemma map_err_Ok {S E A} f (m : M S E A) s a s' : map_err f m s = (Ok a, s') → m s = (Ok a, s').
Proof. unfold map_err. destruct (m s) as [[b|e] s1]; [done|done]. Qed.
Lemma Do_Ok {S E A} b d (m : M S E A) s a s' : Do b d m s = (Ok a, s') → m s = (Ok a, s').
Proof. unfold Do. destruct b; [done|]. destruct (m s) as [[x|e] s1]; [|done]. destruct (d s1); [done|done]. Qed.

Lemma Do_Err {S E A} d (m : M S E A) s e s' : Do false d m s = (Err e, s') → s' = s.
Proof. unfold Do. destruct (m s) as [[x|x] s1]; [|by intros [= _ <-]]. destruct (d s1); [done|by intros [= _ <-]]. Qed.

Ltac step_ok H :=
  first
    [ apply bind_Ok in H as (? & ? & ? & H)
    | apply lift_Ok in H as [? ->]
    | apply gets_Ok in H as [-> ->]
    | apply map_err_Ok in H
    | apply Do_Ok in H ].

(** * Components of a larger state

    A step on one component, as a step of the whole: [zoom get put f m] runs
    [m] on the component, writes it back and translates its error. *)
Definition zoom {S T E F A} (get : S → T) (put : T → S → S) (f : E → F) (m : M T E A) : M S F A := λ s,
  match m (get s) with
  | (Ok a, t) => (Ok a, put t s)
  | (Err e, t) => (Err (f e), put t s)
  end.

Lemma zoom_Ok {S T E F A} (get : S → T) put (f : E → F) (m : M T E A) s a s' :
  zoom get put f m s = (Ok a, s') → ∃ t, m (get s) = (Ok a, t) ∧ s' = put t s.
Proof. unfold zoom. destruct (m (get s)) as [[b|e] t]; [|done]. intros [= -> <-]. eauto. Qed.
