(* ===== verification/Decimal.v ===== *)
(** The decimal numbers of github.com/shopspring/decimal as an interface.

    The package is a dependency of the program, so its code is not translated:
    [DecimalLib] lists the operations the program calls, the number [val d]
    that a value stands for, and the documented meaning of each operation as
    laws about [val].  Every amount of the development is an element of
    [dec]; [scaled_decimal] shows that the laws can be met, by the
    coefficient-and-exponent representation the package documents. *)
From Stdlib Require Import ZArith QArith Qpower Qabs Qminmax Qround Lqa Lia.
From stdpp Require Import base tactics strings.
From S2P Require Import Prelude.
#[local] Open Scope Z_scope.

(** Ten to the power [e], for positive and negative exponents. *)
Definition p10 (e : Z) : Q := Qpower 10 e.

Class DecimalLib : Type := {
  dec : Type;
  val : dec → Q;
  dec_new : Z → Z → dec;                (* New, NewFromBigInt *)
  dec_add : dec → dec → dec;
  dec_sub : dec → dec → dec;
  dec_neg : dec → dec;
  dec_abs : dec → dec;
  dec_max : dec → dec → dec;
  dec_cmp : dec → dec → comparison;
  dec_truncate : dec → Z → dec;
  dec_shift : dec → Z → dec;
  dec_BigInt : dec → Z;
  dec_mul : dec → dec → dec;
  dec_round_ceil : dec → Z → dec;
  dec_NewFromString : string → option dec;

  dec_new_val c e : (val (dec_new c e) == inject_Z c * p10 e)%Q;
  dec_add_val a b : (val (dec_add a b) == val a + val b)%Q;
  dec_sub_val a b : (val (dec_sub a b) == val a - val b)%Q;
  dec_neg_val a : (val (dec_neg a) == - val a)%Q;
  dec_abs_val a : (val (dec_abs a) == Qabs.Qabs (val a))%Q;
  dec_max_val a b : (val (dec_max a b) == Qminmax.Qmax (val a) (val b))%Q;
  dec_cmp_val a b : dec_cmp a b = Qcompare (val a) (val b);
  (* "Truncate truncates off digits from the number, without rounding." *)
  dec_truncate_val d p :
    0 ≤ p → (val (dec_truncate d p) == inject_Z (Qtrunc (val d * p10 p)) * p10 (- p))%Q;
  (* "Shift shifts the decimal in base 10." *)
  dec_shift_val d k : (val (dec_shift d k) == val d * p10 k)%Q;
  (* "BigInt returns integer component of the decimal as a BigInt." *)
  dec_BigInt_val d : dec_BigInt d = Qtrunc (val d);
  dec_mul_val a b : (val (dec_mul a b) == val a * val b)%Q;
  (* "RoundCeil rounds the decimal towards +infinity." *)
  dec_round_ceil_val d p :
    0 ≤ p → (val (dec_round_ceil d p) == inject_Z (Qceiling (val d * p10 p)) * p10 (- p))%Q;
}.

Section Derived.
Context `{DL : DecimalLib}.

(** The package's predicates, by the comparison they document. *)
Definition dec_zero : dec := dec_new 0 0.
Definition IsNegative (d : dec) : bool := match dec_cmp d dec_zero with Lt => true | _ => false end.
Definition IsPositive (d : dec) : bool := match dec_cmp d dec_zero with Gt => true | _ => false end.
Definition IsZero (d : dec) : bool := match dec_cmp d dec_zero with Eq => true | _ => false end.
Definition Equal (a b : dec) : bool := match dec_cmp a b with Eq => true | _ => false end.
Definition LessThan (a b : dec) : bool := match dec_cmp a b with Lt => true | _ => false end.
Definition GreaterThan (a b : dec) : bool := match dec_cmp a b with Gt => true | _ => false end.
Definition LessThanOrEqual (a b : dec) : bool := match dec_cmp a b with Gt => false | _ => true end.

Lemma dec_zero_val : (val dec_zero == 0)%Q.
Proof. unfold dec_zero. rewrite dec_new_val. ring. Qed.

Lemma dec_cmp_spec a b :
  match dec_cmp a b with
  | Lt => (val a < val b)%Q
  | Eq => (val a == val b)%Q
  | Gt => (val b < val a)%Q
  end.
Proof.
  rewrite dec_cmp_val. destruct (Qcompare_spec (val a) (val b)); done.
Qed.

Lemma Equal_spec a b : reflect (val a == val b)%Q (Equal a b).
Proof.
  unfold Equal. pose proof (dec_cmp_spec a b).
  destruct (dec_cmp a b); constructor; lra.
Qed.
Lemma LessThan_spec a b : BoolSpec (val a < val b)%Q (val b <= val a)%Q (LessThan a b).
Proof.
  unfold LessThan. pose proof (dec_cmp_spec a b).
  destruct (dec_cmp a b); constructor; lra.
Qed.
Lemma GreaterThan_spec a b : BoolSpec (val b < val a)%Q (val a <= val b)%Q (GreaterThan a b).
Proof.
  unfold GreaterThan. pose proof (dec_cmp_spec a b).
  destruct (dec_cmp a b); constructor; lra.
Qed.
Lemma LessThanOrEqual_spec a b :
  BoolSpec (val a <= val b)%Q (val b < val a)%Q (LessThanOrEqual a b).
Proof.
  unfold LessThanOrEqual. pose proof (dec_cmp_spec a b).
  destruct (dec_cmp a b); constructor; lra.
Qed.
Lemma IsNegative_spec a : BoolSpec (val a < 0)%Q (0 <= val a)%Q (IsNegative a).
Proof.
  unfold IsNegative. pose proof (dec_cmp_spec a dec_zero). pose proof dec_zero_val.
  destruct (dec_cmp a dec_zero); constructor; lra.
Qed.
Lemma IsPositive_spec a : BoolSpec (0 < val a)%Q (val a <= 0)%Q (IsPositive a).
Proof.
  unfold IsPositive. pose proof (dec_cmp_spec a dec_zero). pose proof dec_zero_val.
  destruct (dec_cmp a dec_zero); constructor; lra.
Qed.
Lemma IsZero_spec a : reflect (val a == 0)%Q (IsZero a).
Proof.
  unfold IsZero. pose proof (dec_cmp_spec a dec_zero). pose proof dec_zero_val.
  destruct (dec_cmp a dec_zero); constructor; lra.
Qed.

Lemma dec_max_cases a b :
  (val (dec_max a b) == val a ∧ val b <= val a ∨
   val (dec_max a b) == val b ∧ val a <= val b)%Q.
Proof.
  rewrite dec_max_val.
  destruct (Qminmax.Q.max_spec (val a) (val b)) as [[? H]|[? H]]; rewrite H; lra.
Qed.

Lemma dec_abs_cases a :
  (val (dec_abs a) == val a ∧ 0 <= val a ∨ val (dec_abs a) == - val a ∧ val a < 0)%Q.
Proof.
  rewrite dec_abs_val.
  destruct (Qlt_le_dec (val a) 0).
  - right. split; [rewrite Qabs.Qabs_neg; lra|lra].
  - left. split; [by rewrite Qabs.Qabs_pos|done].
Qed.
End Derived.

Create Rewrite HintDb decval.
#[export] Hint Rewrite @dec_add_val @dec_sub_val @dec_neg_val @dec_zero_val : decval.

(** Cases on every decimal test of the goal. *)
Ltac dec_cases :=
  repeat match goal with
  | |- context [Equal ?a ?b] => destruct (Equal_spec a b)
  | |- context [LessThan ?a ?b] => destruct (LessThan_spec a b)
  | |- context [GreaterThan ?a ?b] => destruct (GreaterThan_spec a b)
  | |- context [LessThanOrEqual ?a ?b] => destruct (LessThanOrEqual_spec a b)
  | |- context [IsNegative ?a] => destruct (IsNegative_spec a)
  | |- context [IsPositive ?a] => destruct (IsPositive_spec a)
  | |- context [IsZero ?a] => destruct (IsZero_spec a)
  end.

(** The same on the hypotheses. *)
Ltac dec_reflect :=
  repeat match goal with
  | H : Equal ?a ?b = _ |- _ => destruct (Equal_spec a b); try discriminate H; clear H
  | H : LessThan ?a ?b = _ |- _ => destruct (LessThan_spec a b); try discriminate H; clear H
  | H : GreaterThan ?a ?b = _ |- _ => destruct (GreaterThan_spec a b); try discriminate H; clear H
  | H : LessThanOrEqual ?a ?b = _ |- _ => destruct (LessThanOrEqual_spec a b); try discriminate H; clear H
  | H : IsNegative ?a = _ |- _ => destruct (IsNegative_spec a); try discriminate H; clear H
  | H : IsPositive ?a = _ |- _ => destruct (IsPositive_spec a); try discriminate H; clear H
  | H : IsZero ?a = _ |- _ => destruct (IsZero_spec a); try discriminate H; clear H
  end.

(** Rewrites the numbers denoted by decimal expressions and closes the goal by
    linear arithmetic. *)
Ltac dec_lra :=
  simpl in *;
  repeat match goal with
  | |- context [val (dec_max ?a ?b)] => destruct (dec_max_cases a b) as [[-> ?]|[-> ?]]
  | |- context [val (dec_abs ?a)] => destruct (dec_abs_cases a) as [[-> ?]|[-> ?]]
  end;
  autorewrite with decval in *; try lra.

(** * A representation that meets the laws *)

Section Scaled.

Definition sval (d : Z * Z) : Q := (inject_Z d.1 * p10 d.2)%Q.

Lemma p10_add a b : (p10 (a + b) == p10 a * p10 b)%Q.
Proof. apply Qpower_plus. discriminate. Qed.

Lemma p10_pos a : (0 < p10 a)%Q.
Proof. apply Qpower_0_lt. reflexivity. Qed.

Lemma p10_nat e : 0 ≤ e → (p10 e == inject_Z (10 ^ e))%Q.
Proof. intros He. unfold p10. rewrite <- (Zpower_Qpower 10 e He). done. Qed.

(** The coefficient of [d] at the exponent [e], which is not above its own. *)
Definition rescale (d : Z * Z) (e : Z) : Z := d.1 * 10 ^ (d.2 - e).

Lemma rescale_val d e : e ≤ d.2 → (inject_Z (rescale d e) * p10 e == sval d)%Q.
Proof.
  intros He. unfold rescale, sval. rewrite inject_Z_mult, <- p10_nat by lia.
  rewrite <- Qmult_assoc, <- p10_add. replace (d.2 - e + e) with d.2 by lia. reflexivity.
Qed.

Definition sexp (a b : Z * Z) : Z := Z.min a.2 b.2.

Definition sadd (a b : Z * Z) : Z * Z :=
  (rescale a (sexp a b) + rescale b (sexp a b), sexp a b).

Lemma sadd_val a b : (sval (sadd a b) == sval a + sval b)%Q.
Proof.
  unfold sadd. unfold sval at 1. cbn [fst snd]. rewrite inject_Z_plus, Qmult_plus_distr_l.
  rewrite !rescale_val by (unfold sexp; lia). reflexivity.
Qed.

Definition sneg (a : Z * Z) : Z * Z := (- a.1, a.2).

Lemma sneg_val a : (sval (sneg a) == - sval a)%Q.
Proof. unfold sneg, sval. cbn [fst snd]. rewrite inject_Z_opp. ring. Qed.

Definition scmp (a b : Z * Z) : comparison :=
  (rescale a (sexp a b) ?= rescale b (sexp a b))%Z.

Lemma scmp_val a b : scmp a b = Qcompare (sval a) (sval b).
Proof.
  unfold scmp. set (e := sexp a b).
  rewrite <- (rescale_val a e), <- (rescale_val b e) by (unfold e, sexp; lia).
  pose proof (p10_pos e) as Hp.
  set (x := rescale a e). set (y := rescale b e).
  destruct (Z.compare_spec x y) as [->|Hlt|Hgt]; symmetry.
  - apply Qeq_alt. reflexivity.
  - apply Qlt_alt. apply Qmult_lt_r; [done|]. by rewrite <- Zlt_Qlt.
  - apply Qgt_alt. apply Qmult_lt_r; [done|]. by rewrite <- Zlt_Qlt.
Qed.

Definition strunc_int (d : Z * Z) : Z :=
  if d.2 <? 0 then Z.quot d.1 (10 ^ (- d.2)) else d.1 * 10 ^ d.2.

Lemma strunc_int_val d : strunc_int d = Qtrunc (sval d).
Proof.
  destruct d as [c e]. unfold strunc_int, sval. cbn [fst snd].
  destruct (Z.ltb_spec e 0).
  - assert (Hp : 0 < 10 ^ (- e)) by (apply Z.pow_pos_nonneg; lia).
    assert (Heq : (inject_Z c * p10 e == c # Z.to_pos (10 ^ (- e)))%Q).
    { rewrite (Qmake_Qdiv c), Z2Pos.id by done. unfold Qdiv.
      rewrite <- p10_nat by lia. unfold p10.
      rewrite Qpower_opp, Qinv_involutive. reflexivity. }
    rewrite Heq, Qtrunc_quot, Z2Pos.id by done. reflexivity.
  - rewrite p10_nat, <- inject_Z_mult, Qtrunc_inject by lia. reflexivity.
Qed.

Definition smax (a b : Z * Z) : Z * Z := match scmp a b with Lt => b | _ => a end.

Lemma smax_val a b : (sval (smax a b) == Qmax (sval a) (sval b))%Q.
Proof.
  unfold smax. rewrite scmp_val. destruct (Qcompare_spec (sval a) (sval b)) as [H|H|H].
  - rewrite Q.max_l by lra. reflexivity.
  - rewrite Q.max_r by lra. reflexivity.
  - rewrite Q.max_l by lra. reflexivity.
Qed.

Definition sabs (a : Z * Z) : Z * Z := (Z.abs a.1, a.2).

Lemma sabs_val a : (sval (sabs a) == Qabs (sval a))%Q.
Proof.
  unfold sabs, sval. cbn [fst snd]. rewrite Qabs_Qmult.
  rewrite (Qabs_pos (p10 _)) by (apply Qlt_le_weak, p10_pos). reflexivity.
Qed.

Lemma sshift_val (d : Z * Z) (k : Z) : (sval (d.1, (d.2 + k)%Z) == sval d * p10 k)%Q.
Proof. unfold sval. cbn [fst snd]. rewrite p10_add. ring. Qed.

Lemma strunc_val (d : Z * Z) (p : Z) :
  (sval (strunc_int (d.1, (d.2 + p)%Z), (- p)%Z) == inject_Z (Qtrunc (sval d * p10 p)) * p10 (- p))%Q.
Proof.
  rewrite strunc_int_val. unfold sval at 1. cbn [fst snd].
  rewrite (sshift_val d p). reflexivity.
Qed.

Definition sceil_int (d : Z * Z) : Z := - ((- d.1 * 10 ^ (Z.max 0 d.2)) / 10 ^ (Z.max 0 (- d.2))).
Lemma sceil_int_val d : sceil_int d = Qceiling (sval d).
Proof.
  assert (E : (sval d == Qmake (d.1 * 10 ^ (Z.max 0 d.2)) (Z.to_pos (10 ^ (Z.max 0 (- d.2)))))%Q).
  { assert (Hp : 0 < 10 ^ Z.max 0 (- d.2)) by (apply Z.pow_pos_nonneg; lia). rewrite Qmake_Qdiv, Z2Pos.id by done. unfold sval.
    destruct (Z.le_gt_cases 0 d.2) as [H|H].
    - rewrite (Z.max_r 0 d.2), (Z.max_l 0 (- d.2)) by lia. rewrite p10_nat by done. rewrite inject_Z_mult. change (inject_Z (10 ^ 0)) with 1%Q. field.
    - rewrite (Z.max_l 0 d.2), (Z.max_r 0 (- d.2)) by lia. rewrite Z.pow_0_r, Z.mul_1_r.
      rewrite <- (p10_nat (- d.2)) by lia. assert (N : ¬ (p10 (- d.2) == 0)%Q) by (pose proof (p10_pos (- d.2)); intros X; rewrite X in *; discriminate).
      field_simplify_eq; [|done]. rewrite <- Qmult_assoc, <- p10_add, Z.add_opp_diag_r. change (p10 0) with 1%Q. ring. }
  rewrite E. unfold sceil_int, Qceiling, Qfloor. simpl. rewrite Z2Pos.id by (apply Z.pow_pos_nonneg; lia). f_equal. f_equal. lia.
Qed.
Definition smul (a b : Z * Z) : Z * Z := (a.1 * b.1, a.2 + b.2).
Lemma smul_val a b : (sval (smul a b) == sval a * sval b)%Q.
Proof. unfold smul, sval. cbn [fst snd]. rewrite p10_add, inject_Z_mult. ring. Qed.
Lemma sceil_val (d : Z * Z) (p : Z) :
  (sval (sceil_int (d.1, (d.2 + p)%Z), (- p)%Z) == inject_Z (Qceiling (sval d * p10 p)) * p10 (- p))%Q.
Proof. rewrite sceil_int_val. unfold sval at 1. cbn [fst snd]. rewrite (sshift_val d p). reflexivity. Qed.

Lemma ssub_val a b : (sval (sadd a (sneg b)) == sval a - sval b)%Q.
Proof. rewrite sadd_val, sneg_val. ring. Qed.

(** Decimal strings of digits with at most one point are read by the
    coefficient of all digits and the number of digits after the point. *)
Definition sdigit (a : Ascii.ascii) : option Z :=
  let n := Z.of_N (Ascii.N_of_ascii a) in
  if (48 <=? n) && (n <=? 57) then Some (n - 48) else None.

Fixpoint sparse (s : string) (seen : bool) (acc : Z) (e : Z) : option (Z * Z) :=
  match s with
  | EmptyString => Some (acc, e)
  | String a s' =>
      match sdigit a with
      | Some v => sparse s' seen (acc * 10 + v) (if seen then e - 1 else e)
      | None => if Ascii.eqb a (Ascii.ascii_of_nat 46) && negb seen then sparse s' true acc e else None
      end
  end.

Definition scaled_decimal : DecimalLib := {|
  dec := Z * Z;
  val := sval;
  dec_new c e := (c, e);
  dec_add := sadd;
  dec_sub a b := sadd a (sneg b);
  dec_neg := sneg;
  dec_abs := sabs;
  dec_max := smax;
  dec_cmp := scmp;
  dec_truncate d p := (strunc_int (d.1, d.2 + p), - p);
  dec_shift d k := (d.1, d.2 + k);
  dec_BigInt := strunc_int;
  dec_mul := smul;
  dec_round_ceil d p := (sceil_int (d.1, d.2 + p), - p);
  dec_NewFromString s := sparse s false 0 0;
  dec_new_val c e := Qeq_refl _;
  dec_add_val := sadd_val;
  dec_sub_val := ssub_val;
  dec_neg_val := sneg_val;
  dec_abs_val := sabs_val;
  dec_max_val := smax_val;
  dec_cmp_val := scmp_val;
  dec_truncate_val d p _ := strunc_val d p;
  dec_shift_val := sshift_val;
  dec_BigInt_val := strunc_int_val;
  dec_mul_val := smul_val;
  dec_round_ceil_val d p _ := sceil_val d p;
|}.

End Scaled.
