(* ===== verification/GoString.v ===== *)
(** The parts of Go's [strings], [unicode] and [unicode/utf8] packages the
    program uses on user text: UTF-8 decoding as [utf8.DecodeRune] does it,
    [utf8.ValidString], [utf8.RuneCountInString], [strings.TrimSpace] and
    [strings.ContainsRune] of NUL.  A Go string is a sequence of bytes that
    need not be valid UTF-8. *)
From Stdlib Require Import ZArith Lia Ascii String.
From stdpp Require Import base tactics list strings.
From S2P Require Import Prelude.
#[local] Open Scope Z_scope.

Fixpoint bytes_of (s : string) : list Z :=
  match s with
  | EmptyString => []
  | String a s' => Z.of_N (N_of_ascii a) :: bytes_of s'
  end.

Fixpoint string_of (l : list Z) : string :=
  match l with
  | [] => EmptyString
  | b :: l' => String (ascii_of_N (Z.to_N b)) (string_of l')
  end.

Lemma string_of_bytes_of s : string_of (bytes_of s) = s.
Proof.
  induction s as [|a s IH]; simpl; [done|].
  by rewrite N2Z.id, ascii_N_embedding, IH.
Qed.

(** One step of decoding: the rune, the bytes it was read from, and whether
    the encoding was valid.  An invalid byte is [RuneError] of width one. *)
Record chunk := Chunk { rune : Z; enc : list Z; good : bool }.

Definition RuneError : Z := 65533.

Definition between (lo b hi : Z) : bool := (lo <=? b) && (b <=? hi).
Definition cont (b : Z) : bool := between 128 b 191.

Definition bad (b0 : Z) : chunk := Chunk RuneError [b0] false.

Definition decode2 (b0 : Z) (l : list Z) : chunk :=
  match l with
  | b1 :: _ => if cont b1 then Chunk ((b0 - 192) * 64 + (b1 - 128)) [b0; b1] true else bad b0
  | _ => bad b0
  end.

Definition decode3 (b0 : Z) (l : list Z) : chunk :=
  let lo := if b0 =? 224 then 160 else 128 in
  let hi := if b0 =? 237 then 159 else 191 in
  match l with
  | b1 :: b2 :: _ =>
      if between lo b1 hi && cont b2
      then Chunk ((b0 - 224) * 4096 + (b1 - 128) * 64 + (b2 - 128)) [b0; b1; b2] true
      else bad b0
  | _ => bad b0
  end.

Definition decode4 (b0 : Z) (l : list Z) : chunk :=
  let lo := if b0 =? 240 then 144 else 128 in
  let hi := if b0 =? 244 then 143 else 191 in
  match l with
  | b1 :: b2 :: b3 :: _ =>
      if between lo b1 hi && cont b2 && cont b3
      then Chunk ((b0 - 240) * 262144 + (b1 - 128) * 4096 + (b2 - 128) * 64 + (b3 - 128))
                 [b0; b1; b2; b3] true
      else bad b0
  | _ => bad b0
  end.

Definition DecodeRune (b0 : Z) (l : list Z) : chunk :=
  if b0 <? 128 then Chunk b0 [b0] true
  else if between 194 b0 223 then decode2 b0 l
  else if between 224 b0 239 then decode3 b0 l
  else if between 240 b0 244 then decode4 b0 l
  else bad b0.

(** Decoding a whole string; [skip] counts the bytes of the current rune that
    were already consumed. *)
Fixpoint decode (l : list Z) (skip : nat) : list chunk :=
  match l with
  | [] => []
  | b :: l' =>
      match skip with
      | S k => decode l' k
      | O => let c := DecodeRune b l' in c :: decode l' (pred (length (enc c)))
      end
  end.

Definition runes (s : string) : list chunk := decode (bytes_of s) 0.

Definition ValidString (s : string) : bool := forallb good (runes s).
Definition RuneCountInString (s : string) : Z := Z.of_nat (length (runes s)).
Definition ContainsNUL (s : string) : bool := existsb (λ c, rune c =? 0) (runes s).

(** [unicode.IsSpace]: the White_Space property. *)
Definition IsSpace (r : Z) : bool :=
  between 9 r 13 || (r =? 32) || (r =? 133) || (r =? 160) || (r =? 5760) ||
  between 8192 r 8202 || (r =? 8232) || (r =? 8233) || (r =? 8239) || (r =? 8287) || (r =? 12288).

Fixpoint drop_spaces (l : list chunk) : list chunk :=
  match l with
  | [] => []
  | c :: l' => if IsSpace (rune c) then drop_spaces l' else l
  end.

Definition encode (l : list chunk) : list Z := concat (map enc l).

Definition trim_chunks (l : list chunk) : list chunk :=
  rev (drop_spaces (rev (drop_spaces l))).

Definition TrimSpace (s : string) : string := string_of (encode (trim_chunks (runes s))).

(** PostgreSQL's [btrim]: spaces only, from both ends. *)
Fixpoint drop_blanks (l : list chunk) : list chunk :=
  match l with
  | [] => []
  | c :: l' => if rune c =? 32 then drop_blanks l' else l
  end.
Definition btrim_chunks (l : list chunk) : list chunk := rev (drop_blanks (rev (drop_blanks l))).
(** [char_length(btrim(s))]. *)
Definition btrim_length (s : string) : Z := Z.of_nat (length (btrim_chunks (runes s))).

(** [strings.TrimRight(s, "/")]. *)
Fixpoint drop_slashes (l : list Z) : list Z :=
  match l with b :: l' => if b =? 47 then drop_slashes l' else l | [] => [] end.
Definition trimSlashes (s : string) : string := string_of (rev (drop_slashes (rev (bytes_of s)))).

(** Byte length, Go's [len]. *)
Definition blen (s : string) : Z := Z.of_nat (String.length s).

(** Every byte of [s] satisfies [p]. *)
Definition all_bytes (p : Z → bool) (s : string) : bool := forallb p (bytes_of s).

Lemma length_bytes_of s : length (bytes_of s) = String.length s.
Proof. induction s; simpl; congruence. Qed.

Lemma DecodeRune_enc_pos b l : (1 ≤ length (enc (DecodeRune b l)) ≤ 4)%nat.
Proof.
  unfold DecodeRune, decode2, decode3, decode4, bad.
  repeat (split_match; try (simpl; lia)).
Qed.

Lemma decode_length l k : (length (decode l k) ≤ length l)%nat.
Proof.
  revert k. induction l as [|b l IH]; intros [|k]; simpl; try lia.
  - specialize (IH (pred (length (enc (DecodeRune b l))))). lia.
  - specialize (IH k). lia.
Qed.

(** A string never has more runes than bytes. *)
Lemma RuneCountInString_le s : 0 ≤ RuneCountInString s ≤ blen s.
Proof.
  unfold RuneCountInString, blen, runes.
  pose proof (decode_length (bytes_of s) 0). rewrite length_bytes_of in H. lia.
Qed.

(** * Decoding what was encoded *)

Definition byte_range (b : Z) : Prop := 0 ≤ b < 256.

Lemma bytes_of_range s : Forall byte_range (bytes_of s).
Proof.
  induction s as [|a s IH]; simpl; constructor; [|done]. unfold byte_range. pose proof (N_ascii_bounded a). lia.
Qed.

Lemma bytes_of_string_of l : Forall byte_range l → bytes_of (string_of l) = l.
Proof.
  induction 1 as [|b l Hb _ IH]; simpl; [done|]. unfold byte_range in Hb. rewrite IH, N_ascii_embedding by lia. f_equal. lia.
Qed.

(** A chunk that decodes to itself whatever follows it. *)
Definition stable (c : chunk) : Prop :=
  ∃ b tl, enc c = b :: tl ∧ ∀ rest, DecodeRune b (tl ++ rest) = c.

Lemma DecodeRune_stable b l : good (DecodeRune b l) = true → stable (DecodeRune b l).
Proof.
  unfold stable, DecodeRune, decode2, decode3, decode4, bad.
  repeat (split_match; simpl; try done); intros _; do 2 eexists; (split; [done|]); intros rest; simpl;
    repeat match goal with H : ?x = true |- context [?x] => rewrite H | H : ?x = false |- context [?x] => rewrite H end; done.
Qed.

Lemma decode_stable l k : Forall (λ c, good c = true → stable c) (decode l k).
Proof.
  revert k. induction l as [|b l IH]; intros [|k]; simpl; [done..| |done].
  constructor; [apply DecodeRune_stable|apply IH].
Qed.

Lemma decode_skip tl l : decode (tl ++ l) (length tl) = decode l 0.
Proof. induction tl; simpl; [done|done]. Qed.

Lemma decode_encode cs : Forall stable cs → decode (encode cs) 0 = cs.
Proof.
  induction 1 as [|c cs (b & tl & E & Hs) _ IH]; [done|]. unfold encode in *. simpl. rewrite E. simpl. rewrite Hs, E. simpl.
  by rewrite decode_skip, IH.
Qed.

Lemma decode_range l k : Forall byte_range l → Forall (λ c, Forall byte_range (enc c)) (decode l k).
Proof.
  intros Hl. revert k. induction Hl as [|b l Hb Hl IH]; intros [|k]; simpl; [done..| |done].
  constructor; [|apply IH]. unfold DecodeRune, decode2, decode3, decode4, bad.
  repeat (split_match; simpl); repeat match goal with H : Forall _ (_ :: _) |- _ => apply Forall_cons in H as [? H] end;
    repeat (constructor; try done).
Qed.

(** The runes of a string built from runes of strings are these runes. *)
Lemma runes_string_of cs :
  Forall stable cs → Forall (λ c, Forall byte_range (enc c)) cs → runes (string_of (encode cs)) = cs.
Proof.
  intros Hs Hr. unfold runes. rewrite bytes_of_string_of; [by apply decode_encode|].
  unfold encode. induction Hr; simpl; [done|]. apply Forall_cons in Hs as [_ Hs]. apply Forall_app. auto.
Qed.

(** * Trimming *)

Lemma drop_spaces_blanks p t : (length (drop_spaces p) ≤ length (drop_blanks (p ++ t)))%nat.
Proof.
  induction p as [|c p IH]; simpl; [lia|]. destruct (Z.eqb_spec (rune c) 32) as [E|E]; [by rewrite E|].
  assert (H : (length (drop_spaces p) ≤ length p)%nat) by (clear; induction p as [|x p IH]; simpl; [done|]; split_match; simpl; lia).
  simpl. rewrite length_app. split_match; simpl; lia.
Qed.
Lemma drop_spaces_suffix l : ∃ t, drop_blanks l = t ++ drop_spaces l.
Proof.
  induction l as [|c l [t IH]]; simpl; [by exists []|]. destruct (Z.eqb_spec (rune c) 32) as [E|E]; [rewrite E; by exists t|].
  destruct (IsSpace (rune c)); [|by exists []].
  assert (H : ∃ u, l = u ++ drop_spaces l).
  { clear. induction l as [|x l [u H]]; simpl; [by exists []|]. destruct (IsSpace _); [exists (x :: u); simpl; by f_equal|by exists []]. }
  destruct H as [u H]. exists (c :: u). simpl. by f_equal.
Qed.
(** [strings.TrimSpace] leaves no more than [btrim] does. *)
Lemma TrimSpace_btrim s : ValidString s = true → RuneCountInString (TrimSpace s) ≤ btrim_length s.
Proof.
  intros Hv. unfold RuneCountInString, TrimSpace, btrim_length.
  assert (Hin : ∀ c, In c (trim_chunks (runes s)) → In c (runes s)).
  { assert (Hd : ∀ l c, In c (drop_spaces l) → In c l) by (intros l c; induction l as [|x l IH]; simpl; [done|]; split_match; simpl; auto).
    intros c. unfold trim_chunks. rewrite <- in_rev. intros H%Hd. rewrite <- in_rev in H. by apply Hd. }
  rewrite runes_string_of.
  - unfold trim_chunks, btrim_chunks. rewrite !length_rev. destruct (drop_spaces_suffix (runes s)) as [t ->]. rewrite rev_app_distr.
    pose proof (drop_spaces_blanks (rev (drop_spaces (runes s))) (rev t)). lia.
  - apply Forall_forall. intros c Hc%list_elem_of_In%Hin. unfold ValidString in Hv. rewrite forallb_forall in Hv.
    pose proof (decode_stable (bytes_of s) 0) as Hs. rewrite Forall_forall in Hs. apply Hs; [by apply list_elem_of_In|by apply Hv].
  - apply Forall_forall. intros c Hc%list_elem_of_In%Hin. pose proof (decode_range (bytes_of s) 0 (bytes_of_range s)) as Hs.
    rewrite Forall_forall in Hs. by apply Hs, list_elem_of_In.
Qed.
