(* ===== verification/Money.v ===== *)
(** Amounts of money (panel/internal/pkg/money/money.go).

    An amount is a decimal number of yuan.  The package admits at most two
    decimal places ([Check]), converts to and from integer cents, and takes a
    ratio of an amount with a single truncation toward zero ([MulRatio]). *)
From Stdlib Require Import ZArith QArith Qpower Lqa Lia.
From stdpp Require Import base tactics strings.
From S2P Require Import Prelude Decimal GoString.
#[local] Open Scope Z_scope.

Section Money.
Context `{DL : DecimalLib}.

Definition Scale : Z := 2.

Inductive money_err := ErrPrecision | ErrBadAmount | ErrNegative | MoneyPanic.

Definition Check (d : dec) : result money_err () :=
  if Equal d (dec_truncate d Scale) then Ok () else Err ErrPrecision.

Definition CheckNonNegative (d : dec) : result money_err () :=
  if IsNegative d then Err ErrNegative else Check d.

Definition FromCents (cents : Z) : dec := dec_new cents (- Scale).

Definition ToCents (d : dec) : result money_err Z :=
  _ ← Check d;
  let s := dec_shift d Scale in
  if is_int64 (dec_BigInt s) then Ok (dec_BigInt s) else Err ErrBadAmount.

Definition MustCents (d : dec) : result money_err Z :=
  match ToCents d with Ok n => Ok n | Err _ => Err MoneyPanic end.

(** [strings.ContainsAny(s, "eE")]. *)
Definition has_exponent (s : string) : bool :=
  existsb (λ b, (b =? 101) || (b =? 69)) (bytes_of s).

Definition ParseProvider (s0 : string) : result money_err dec :=
  let s := TrimSpace s0 in
  if (blen s =? 0) || has_exponent s then Err ErrBadAmount
  else match dec_NewFromString s with
       | None => Err ErrBadAmount
       | Some d => match CheckNonNegative d with
                   | Ok _ => Ok d
                   | Err e => Err e
                   end
       end.

Definition MulRatio (d : dec) (num den : Z) : result money_err dec :=
  if den <=? 0 then Err MoneyPanic
  else
    let cents := dec_shift d Scale in
    if negb (Equal cents (dec_truncate cents 0)) then Err MoneyPanic
    else
      let r := (inject_Z (dec_BigInt cents) * (num # Z.to_pos den))%Q in
      Ok (dec_new (Qtrunc r) (- Scale)).

Definition BasisPoints : Z := 10000.

Definition ApplyBP (d : dec) (bp : Z) : result money_err dec := MulRatio d bp BasisPoints.

(** * What the checks mean *)

(** The amount in cents, when it has no finer part. *)
Definition cents_of (d : dec) : Z := Qtrunc (val d * 100).

(** [d] has at most two decimal places. *)
Definition two_places (d : dec) : Prop := (val d == inject_Z (cents_of d) * (1 # 100))%Q.

Lemma p10_2 : (p10 2 == 100)%Q. Proof. reflexivity. Qed.
Lemma p10_m2 : (p10 (-2) == 1 # 100)%Q. Proof. reflexivity. Qed.

Lemma truncate2_val d : (val (dec_truncate d Scale) == inject_Z (cents_of d) * (1 # 100))%Q.
Proof.
  unfold Scale, cents_of. rewrite dec_truncate_val by lia.
  change (- (2)) with (-2). rewrite p10_m2, p10_2. reflexivity.
Qed.

Lemma Check_ok d u : Check d = Ok u ↔ two_places d.
Proof.
  unfold Check, two_places. rewrite <- truncate2_val.
  destruct (Equal_spec d (dec_truncate d Scale)) as [H|H], u; naive_solver.
Qed.

Lemma CheckNonNegative_ok d u : CheckNonNegative d = Ok u ↔ (0 <= val d)%Q ∧ two_places d.
Proof.
  unfold CheckNonNegative. destruct (IsNegative_spec d) as [H|H].
  - split; [done|]. intros [? ?]. lra.
  - rewrite Check_ok. tauto.
Qed.

Lemma two_places_intro d z : (val d == inject_Z z * (1 # 100))%Q → two_places d ∧ cents_of d = z.
Proof.
  intros H. assert (Hc : cents_of d = z).
  { unfold cents_of. assert (E : (val d * 100 == inject_Z z)%Q) by (rewrite H; field).
    rewrite E. apply Qtrunc_inject. }
  split; [|done]. unfold two_places. by rewrite Hc.
Qed.

Lemma two_places_zero : two_places dec_zero.
Proof. apply (two_places_intro _ 0). rewrite dec_zero_val. reflexivity. Qed.

Lemma FromCents_val c : (val (FromCents c) == inject_Z c * (1 # 100))%Q.
Proof. unfold FromCents, Scale. rewrite dec_new_val, p10_m2. reflexivity. Qed.

Lemma shift2_int d : dec_BigInt (dec_shift d Scale) = cents_of d.
Proof. unfold Scale, cents_of. by rewrite dec_BigInt_val, dec_shift_val, p10_2. Qed.

Lemma ToCents_ok d n :
  ToCents d = Ok n ↔ two_places d ∧ cents_of d = n ∧ in64 n.
Proof.
  unfold ToCents. rewrite shift2_int. destruct (Check d) as [[]|e] eqn:HC; simpl.
  - apply Check_ok in HC. destruct (is_int64 (cents_of d)) eqn:H64.
    + apply is_int64_spec in H64. naive_solver.
    + split; [done|]. intros (_ & <- & H). apply is_int64_spec in H. congruence.
  - split; [done|]. intros (H & _). apply (Check_ok d ()) in H. congruence.
Qed.

Lemma two_places_add a b c :
  two_places a → two_places b → (val c == val a + val b)%Q →
  two_places c ∧ cents_of c = cents_of a + cents_of b.
Proof.
  unfold two_places. intros Ha Hb Hc. apply two_places_intro.
  rewrite Hc, Ha, Hb, inject_Z_plus. field.
Qed.

Lemma two_places_sub a b c :
  two_places a → two_places b → (val c == val a - val b)%Q →
  two_places c ∧ cents_of c = cents_of a - cents_of b.
Proof.
  unfold two_places. intros Ha Hb Hc. apply two_places_intro.
  unfold Z.sub. rewrite Hc, Ha, Hb, inject_Z_plus, inject_Z_opp. field.
Qed.

Lemma MulRatio_ok d num den r :
  MulRatio d num den = Ok r →
  0 < den ∧ two_places d ∧ two_places r ∧ cents_of r = Z.quot (cents_of d * num) den.
Proof.
  unfold MulRatio. destruct (Z.leb_spec den 0) as [|Hden]; [done|].
  destruct (Equal_spec (dec_shift d Scale) (dec_truncate (dec_shift d Scale) 0)) as [He|]; [|done].
  cbn [negb]. intros Hr. simplify_eq. rewrite shift2_int.
  assert (Hd : two_places d).
  { unfold two_places, cents_of. rewrite dec_truncate_val in He by lia.
    unfold Scale in He. rewrite dec_shift_val, p10_2 in He.
    change (p10 0) with 1%Q in He. change (p10 (- 0)) with 1%Q in He.
    rewrite !Qmult_1_r in He. rewrite <- He. field. }
  split; [done|]. split; [done|].
  apply two_places_intro. unfold Scale. rewrite dec_new_val, p10_m2.
  unfold Qdiv. apply Qmult_comp; [|reflexivity]. f_equiv.
  unfold Qtrunc. cbn. by rewrite Pos.mul_1_l, Z2Pos.id.
Qed.

(** The two panics of [MulRatio] are its only failures. *)
Lemma MulRatio_total d num den :
  0 < den → two_places d → ∃ r, MulRatio d num den = Ok r.
Proof.
  intros Hden Hd. unfold MulRatio. destruct (Z.leb_spec den 0); [lia|].
  destruct (Equal_spec (dec_shift d Scale) (dec_truncate (dec_shift d Scale) 0)) as [He|He].
  - cbn [negb]. eauto.
  - exfalso. apply He. rewrite dec_truncate_val by lia. unfold Scale.
    rewrite dec_shift_val, p10_2. change (p10 0) with 1%Q. change (p10 (- 0)) with 1%Q.
    rewrite !Qmult_1_r. fold (cents_of d). unfold two_places in Hd.
    rewrite Hd at 1. field.
Qed.

Lemma val_cents d : two_places d → (val d * 100 == inject_Z (cents_of d))%Q.
Proof. unfold two_places. intros H. rewrite H at 1. field. Qed.

Lemma cents_of_le a b : two_places a → two_places b → (val a <= val b)%Q ↔ cents_of a ≤ cents_of b.
Proof.
  intros Ha Hb. apply val_cents in Ha, Hb. rewrite Zle_Qle.
  split; intros; lra.
Qed.

Lemma cents_of_proper a b : (val a == val b)%Q → cents_of a = cents_of b.
Proof. unfold cents_of. intros ->. reflexivity. Qed.

(** ** Properties *)

(** Taking a share [num / den] of an amount never panics on an amount with
    two places, rounds once and toward zero, and loses less than one cent. *)
Theorem MulRatio_exact d num den :
  0 < den → 0 ≤ num → two_places d → (0 <= val d)%Q →
  ∃ r, MulRatio d num den = Ok r ∧ two_places r ∧
       (val r <= val d * inject_Z num / inject_Z den < val r + (1 # 100))%Q.
Proof.
  intros Hden Hnum Hd Hpos. destruct (MulRatio_total d num den Hden Hd) as [r Hr].
  exists r. split; [done|]. destruct (MulRatio_ok _ _ _ _ Hr) as (_ & _ & Hr2 & Hc).
  split; [done|]. apply val_cents in Hd, Hr2. rewrite Hc in Hr2.
  assert (Hcd : 0 ≤ cents_of d) by (rewrite Zle_Qle; change (inject_Z 0) with 0%Q; lra).
  rewrite Z.quot_div_nonneg in Hr2 by nia.
  set (q := cents_of d * num / den) in *.
  assert (Hq : den * q ≤ cents_of d * num < den * q + den).
  { pose proof (Z.div_mod (cents_of d * num) den). pose proof (Z.mod_pos_bound (cents_of d * num) den).
    unfold q. lia. }
  destruct Hq as [H1 H2]. rewrite Zle_Qle, !inject_Z_mult in H1.
  rewrite Zlt_Qlt, inject_Z_plus, !inject_Z_mult in H2.
  assert (Hdq : (0 < inject_Z den)%Q) by (rewrite Zlt_Qlt in Hden; exact Hden).
  assert (Hvd : (val d == inject_Z (cents_of d) * (1 # 100))%Q) by (rewrite <- Hd; field).
  assert (Hvr : (val r == inject_Z q * (1 # 100))%Q) by (rewrite <- Hr2; field).
  rewrite Hvd, Hvr. clear - H1 H2 Hdq.
  revert H1 H2 Hdq. generalize (inject_Z (cents_of d)) (inject_Z num) (inject_Z den) (inject_Z q).
  intros c n m x H1 H2 Hm. split.
  - apply Qle_shift_div_l; [done|]. lra.
  - apply Qlt_shift_div_r; [done|]. lra.
Qed.

(** Amounts and integer cents convert back and forth without loss: cents
    that fit an [int64] come back unchanged, an amount read as cents denotes
    the same amount, and the two ways to fail are exactly a third decimal place
    and a number of cents outside [int64]. *)
Theorem cents_roundtrip (n : Z) (d : dec) :
  (in64 n → ToCents (FromCents n) = Ok n) ∧
  (∀ m, ToCents d = Ok m → Equal (FromCents m) d = true) ∧
  (ToCents d = Err ErrPrecision ↔ ¬ two_places d) ∧
  (ToCents d = Err ErrBadAmount ↔ two_places d ∧ ¬ in64 (cents_of d)).
Proof.
  split; [|split; [|split]].
  - intros H. apply ToCents_ok. destruct (two_places_intro _ _ (FromCents_val n)). by subst.
  - intros m (Hp & <- & _)%ToCents_ok. destruct (Equal_spec (FromCents (cents_of d)) d) as [|Hne]; [done|].
    exfalso. apply Hne. rewrite FromCents_val. symmetry. exact Hp.
  - rewrite <- (Check_ok d ()). unfold ToCents, Check. destruct (Equal _ _); simpl.
    + destruct (is_int64 _); split; try done; intros H; by exfalso; apply H.
    + naive_solver.
  - rewrite <- is_int64_spec, <- (Check_ok d ()). unfold ToCents. rewrite shift2_int. unfold Check.
    destruct (Equal _ _); simpl; [|naive_solver]. destruct (is_int64 _); naive_solver.
Qed.
End Money.

(** A third of 10.00 is 3.33, at coefficient-and-exponent decimals. *)
Lemma MulRatio_exact_witness :
  ∃ r : @dec scaled_decimal, MulRatio (DL := scaled_decimal) (1000, -2) 1 3 = Ok r ∧ (@val scaled_decimal r == 333 # 100)%Q.
Proof.
  destruct (MulRatio_exact (DL := scaled_decimal) (1000, -2) 1 3) as (r & Hr & _);
    [lia|lia|vm_compute; reflexivity|vm_compute; discriminate|].
  exists r. split; [exact Hr|]. vm_compute in Hr. injection Hr as <-. vm_compute. reflexivity.
Defined.

Lemma cents_roundtrip_witness :
  ToCents (DL := scaled_decimal) (FromCents (DL := scaled_decimal) 990) = Ok 990 ∧
  ToCents (DL := scaled_decimal) (9995, -3) = Err ErrPrecision.
Proof.
  destruct (cents_roundtrip (DL := scaled_decimal) 990 (9995, -3)) as (H1 & _ & H2 & _).
  split; [apply H1; vm_compute; split; discriminate|]. apply H2. vm_compute. discriminate.
Defined.
