(* ===== verification/LedgerTypes.v ===== *)
(** The ledger's vocabulary and its pure core
    (panel/internal/module/ledger/service/types.go and posting.go): account
    types, transaction kinds, postings, their validation, and the balances
    that follow from applying legs to locked accounts. *)
From Stdlib Require Import ZArith QArith Lqa Lia.
From stdpp Require Import base tactics list gmap strings sorting.
From S2P Require Import Prelude Decimal GoString Money.
#[local] Open Scope string_scope.
#[local] Open Scope Z_scope.

(** A [uuid.UUID] is its 128-bit value; the order of its string form is the
    order of the value.  [uuid.Nil] is zero. *)
Abbreviation uuid := N (only parsing).
Definition uuid_Nil : uuid := 0%N.

(** * Account types and kinds: Go string types with named constants *)

Definition UserBalance := "user_balance".
Definition UserBalanceHold := "user_balance_hold".
Definition UserCommissionPending := "user_commission_pending".
Definition UserCommissionAvailable := "user_commission_available".
Definition ChannelCash := "channel_cash".
Definition PlatformRevenue := "platform_revenue".
Definition PlatformFeeExpense := "platform_fee_expense".
Definition PlatformPromoExpense := "platform_promo_expense".
Definition Suspense := "suspense".
Definition LatePaymentSuspense := "late_payment_suspense".

(** A [switch] on string constants. *)
Definition one_of (s : string) (l : list string) : bool := bool_decide (s ∈ l).

Definition AccountType_Valid (t : string) : bool :=
  one_of t [UserBalance; UserBalanceHold; UserCommissionPending; UserCommissionAvailable;
            ChannelCash; PlatformRevenue; PlatformFeeExpense; PlatformPromoExpense;
            Suspense; LatePaymentSuspense].

Definition UserOwned (t : string) : bool :=
  one_of t [UserBalance; UserBalanceHold; UserCommissionPending; UserCommissionAvailable].

Definition DebitNormal (t : string) : bool :=
  one_of t [ChannelCash; PlatformFeeExpense; PlatformPromoExpense; Suspense].

Definition RefMain := "main".
Definition RefManualAdjust := "manual_adjust".
Definition RefGift := "gift".
Definition RefPayout := "payout".
Definition RefSurcharge := "payment_surcharge".

Definition KindBalanceTopup := "balance_topup".
Definition KindBalanceAdjusted := "balance_adjusted".
Definition KindBalanceHold := "balance_hold".
Definition KindBalanceRelease := "balance_release".
Definition KindOrderPaid := "order_paid".
Definition KindPlanChangeRefund := "plan_change_refund".
Definition KindLatePaymentSuspense := "late_payment_suspense".
Definition KindLatePaymentApplied := "late_payment_applied".
Definition KindGiftCardBalance := "gift_card_balance".
Definition KindCommissionAccrued := "commission_accrued".
Definition KindCommissionSettled := "commission_settled".
Definition KindCommissionPaid := "commission_paid".
Definition KindCommissionToBalance := "commission_to_balance".
Definition KindCommissionVoided := "commission_voided".

Definition Kind_Valid (k : string) : bool :=
  one_of k [KindBalanceTopup; KindBalanceAdjusted; KindBalanceHold; KindBalanceRelease;
            KindOrderPaid; KindPlanChangeRefund; KindLatePaymentSuspense; KindLatePaymentApplied;
            KindGiftCardBalance; KindCommissionAccrued; KindCommissionSettled;
            KindCommissionPaid; KindCommissionToBalance; KindCommissionVoided].

Definition Dedicated (k : string) : bool :=
  one_of k [KindBalanceHold; KindBalanceRelease; KindOrderPaid; KindBalanceAdjusted].

Definition OnePerSource (k : string) : bool :=
  one_of k [KindBalanceTopup; KindBalanceHold; KindBalanceRelease; KindOrderPaid;
            KindLatePaymentSuspense; KindPlanChangeRefund; KindCommissionSettled;
            KindCommissionPaid; KindGiftCardBalance; KindCommissionVoided].

Definition Debit := "debit".
Definition Credit := "credit".

Definition SourceOrder := "order".
Definition SourceUser := "user".
Definition SourcePayment := "payment".
Definition SourceGiftCardCode := "gift_card_code".

Definition HoldHeld := "held".
Definition HoldCaptured := "captured".
Definition HoldReleased := "released".

(** * References, legs, postings *)

Record AccountRef := mkRef { ref_Type : string; ref_UserID : uuid; ref_Ref : string }.

#[global] Instance AccountRef_eq_dec : EqDecision AccountRef.
Proof. solve_decision. Defined.
#[global] Instance AccountRef_countable : Countable AccountRef.
Proof.
  refine (inj_countable' (λ r, (ref_Type r, ref_UserID r, ref_Ref r))
            (λ p, mkRef p.1.1 p.1.2 p.2) _).
  by intros [].
Defined.

Definition UserAccount (t : string) (userID : uuid) : AccountRef := mkRef t userID "".
Definition PlatformAccount (t : string) (ref : string) : AccountRef := mkRef t uuid_Nil ref.

(** Errors of the ledger service.  [ErrBalanceConstraint] wraps
    [ErrInsufficientBalance] in the program; [is_insufficient] is
    [errors.Is(err, ErrInsufficientBalance)]. *)
Inductive db_err := DBUnique | DBForeignKey | DBCheck | DBOther.
Inductive lerr :=
| ErrInvalidPosting | ErrInsufficientBalance | ErrBalanceConstraint | ErrDuplicatePosting
| ErrHoldExists | ErrHoldCaptured | ErrHoldReleased | ErrUserNotFound
| ErrAccountDeleted | ErrUnauthorized | ErrForbidden | ErrValidation
| ErrConflictInsufficient | ErrInternal | ErrDB (e : db_err).

Definition is_insufficient (e : lerr) : bool :=
  match e with ErrInsufficientBalance | ErrBalanceConstraint => true | _ => false end.
Definition is_duplicate (e : lerr) : bool :=
  match e with ErrDuplicatePosting => true | _ => false end.

Section Posting.
Context `{DL : DecimalLib}.

Record Leg := mkLeg { leg_Account : AccountRef; leg_Direction : string; leg_Amount : dec }.

Record Posting := mkPosting {
  p_Kind : string; p_SourceType : string; p_SourceID : uuid; p_Memo : string; p_Legs : list Leg }.

Record lockedAccount := mkLocked { la_ID : uuid; la_Type : string; la_Balance : dec }.

(** * Validation *)

(** [^[a-z_]{1,32}$]. *)
Definition sourceTypePattern (s : string) : bool :=
  (1 <=? blen s) && (blen s <=? 32) && all_bytes (λ b, between 97 b 122 || (b =? 95)) s.

Definition validateLeg (leg : Leg) : bool :=
  let ref := leg_Account leg in
  AccountType_Valid (ref_Type ref) &&
  (if UserOwned (ref_Type ref)
   then negb (ref_UserID ref =? uuid_Nil)%N && String.eqb (ref_Ref ref) ""
   else (ref_UserID ref =? uuid_Nil)%N && negb (String.eqb (ref_Ref ref) "") &&
        (blen (ref_Ref ref) <=? 64)) &&
  one_of (leg_Direction leg) [Debit; Credit] &&
  IsPositive (leg_Amount leg) &&
  match Check (leg_Amount leg) with Ok _ => true | Err _ => false end.

(** The loop over the legs: the first bad leg stops it, the others are added
    to the debit or the credit sum. *)
Fixpoint sumLegs (legs : list Leg) (debitSum creditSum : dec) : option (dec * dec) :=
  match legs with
  | [] => Some (debitSum, creditSum)
  | leg :: legs' =>
      if validateLeg leg then
        if String.eqb (leg_Direction leg) Debit
        then sumLegs legs' (dec_add debitSum (leg_Amount leg)) creditSum
        else if String.eqb (leg_Direction leg) Credit
             then sumLegs legs' debitSum (dec_add creditSum (leg_Amount leg))
             else sumLegs legs' debitSum creditSum
      else None
  end.

Definition validatePosting (p : Posting) : result lerr () :=
  let sourceTypeEmpty := String.eqb (p_SourceType p) "" in
  let sourceIDEmpty := (p_SourceID p =? uuid_Nil)%N in
  _ ← reject (negb (Kind_Valid (p_Kind p))) ErrInvalidPosting;
  _ ← reject (negb (Bool.eqb sourceTypeEmpty sourceIDEmpty)) ErrInvalidPosting;
  _ ← reject (negb sourceTypeEmpty && negb (sourceTypePattern (p_SourceType p))) ErrInvalidPosting;
  _ ← reject (negb (ValidString (p_Memo p))) ErrInvalidPosting;
  _ ← reject (ContainsNUL (p_Memo p)) ErrInvalidPosting;
  _ ← reject (500 <? RuneCountInString (p_Memo p)) ErrInvalidPosting;
  _ ← reject (String.eqb (p_Kind p) KindBalanceAdjusted &&
              (RuneCountInString (TrimSpace (p_Memo p)) <? 5)) ErrInvalidPosting;
  _ ← reject (Z.of_nat (length (p_Legs p)) <? 2) ErrInvalidPosting;
  match sumLegs (p_Legs p) dec_zero dec_zero with
  | None => Err ErrInvalidPosting
  | Some (debitSum, creditSum) => reject (negb (Equal debitSum creditSum)) ErrInvalidPosting
  end.

(** * Balances *)

Definition signedDelta (t d : string) (amount : dec) : dec :=
  if DebitNormal t
  then if String.eqb d Debit then amount else dec_neg amount
  else if String.eqb d Credit then amount else dec_neg amount.

(** First loop of [nextBalances]: the working balances after every leg; a leg
    on an account that is not locked is refused. *)
Fixpoint applyLegs (accounts : gmap AccountRef lockedAccount) (work : gmap AccountRef dec)
    (legs : list Leg) : result lerr (gmap AccountRef dec) :=
  match legs with
  | [] => Ok work
  | leg :: legs' =>
      let ref := leg_Account leg in
      match accounts !! ref with
      | None => Err ErrInvalidPosting
      | Some acc =>
          let cur := default dec_zero (work !! ref) in
          applyLegs accounts
            (<[ref := dec_add cur (signedDelta (la_Type acc) (leg_Direction leg) (leg_Amount leg))]> work)
            legs'
      end
  end.

(** Second loop: each touched account once, in the order of the legs; a
    user-owned account must not go below zero. *)
Fixpoint collect (accounts : gmap AccountRef lockedAccount) (work : gmap AccountRef dec)
    (seen : gset AccountRef) (out : gmap uuid dec) (legs : list Leg) : result lerr (gmap uuid dec) :=
  match legs with
  | [] => Ok out
  | leg :: legs' =>
      let ref := leg_Account leg in
      if decide (ref ∈ seen) then collect accounts work seen out legs'
      else
        let acc := default (mkLocked uuid_Nil "" dec_zero) (accounts !! ref) in
        let bal := default dec_zero (work !! ref) in
        if UserOwned (la_Type acc) && IsNegative bal then Err ErrInsufficientBalance
        else collect accounts work ({[ref]} ∪ seen) (<[la_ID acc := bal]> out) legs'
  end.

Definition nextBalances (accounts : gmap AccountRef lockedAccount) (legs : list Leg)
    : result lerr (gmap uuid dec) :=
  work ← applyLegs accounts (la_Balance <$> accounts) legs;
  collect accounts work ∅ ∅ legs.

(** * Lock order *)

Definition ref_le (a b : AccountRef) : Prop :=
  if decide (ref_Type a = ref_Type b) then
    if decide (ref_UserID a = ref_UserID b) then String.leb (ref_Ref a) (ref_Ref b) = true
    else (ref_UserID a ≤ ref_UserID b)%N
  else String.leb (ref_Type a) (ref_Type b) = true.

#[global] Instance ref_le_dec : RelDecision ref_le.
Proof. intros a b. unfold ref_le. repeat case_decide; apply _. Defined.

(** Keeps the first occurrence of every reference. *)
Fixpoint dedup (seen : gset AccountRef) (refs : list AccountRef) : list AccountRef :=
  match refs with
  | [] => []
  | r :: rs => if decide (r ∈ seen) then dedup seen rs else r :: dedup ({[r]} ∪ seen) rs
  end.

Definition sortedRefs (refs : list AccountRef) : list AccountRef := merge_sort ref_le (dedup ∅ refs).

Definition accountKeys (legs : list Leg) : list AccountRef := sortedRefs (map leg_Account legs).

End Posting.
