(* ===== verification/LedgerFacts.v ===== *)
(** Lemmas about the pure core of the ledger: what a validated posting looks
    like, what [nextBalances] computes, and which accounts a lock covers. *)
From Stdlib Require Import ZArith QArith Lqa Lia Sorting.Permutation.
From stdpp Require Import base tactics list gmap strings sorting.
From S2P Require Import Prelude Decimal GoString Money LedgerTypes.
#[local] Open Scope string_scope.
#[local] Open Scope Z_scope.

Lemma one_of_true s l : one_of s l = true ↔ s ∈ l.
Proof. unfold one_of. apply bool_decide_eq_true. Qed.

Lemma Qsum_Permutation l1 l2 : l1 ≡ₚ l2 → (Qsum l1 == Qsum l2)%Q.
Proof. induction 1; simpl; lra. Qed.

Lemma Qsum_nonneg l : Forall (λ q, (0 <= q)%Q) l → (0 <= Qsum l)%Q.
Proof. induction 1; simpl; [lra|]. lra. Qed.

Lemma Qsum_map_add {A} (f g h : A → Q) l :
  (∀ x, x ∈ l → (f x == g x + h x)%Q) → (Qsum (map f l) == Qsum (map g l) + Qsum (map h l))%Q.
Proof.
  induction l as [|x l IH]; simpl; intros H; [lra|].
  rewrite IH by (intros; apply H; by constructor). rewrite (H x) by constructor. lra.
Qed.

Lemma Qsum_map_ext {A} (f g : A → Q) l :
  (∀ x, x ∈ l → (f x == g x)%Q) → (Qsum (map f l) == Qsum (map g l))%Q.
Proof.
  induction l as [|x l IH]; simpl; intros H; [reflexivity|].
  rewrite IH by (intros; apply H; by constructor). rewrite (H x) by constructor. reflexivity.
Qed.

(** Building a map from a list of rows by successive assignment. *)
Definition assign {A K V} `{Countable K} (f : A → K) (g : A → V) (l : list A) (m : gmap K V) : gmap K V :=
  foldl (λ m x, <[f x := g x]> m) m l.

Lemma assign_lookup {A K V} `{Countable K} (f : A → K) (g : A → V) l m k v :
  assign f g l m !! k = Some v → m !! k = Some v ∨ ∃ x, x ∈ l ∧ f x = k ∧ g x = v.
Proof.
  revert m. induction l as [|x l IH]; simpl; intros m Hk; [by left|].
  apply IH in Hk as [Hk|(y & ? & ? & ?)].
  - rewrite lookup_insert in Hk. case_decide; simplify_eq.
    + right. exists x. repeat split; [constructor|done..].
    + by left.
  - right. exists y. repeat split; [by constructor|done..].
Qed.

Lemma assign_other {A K V} `{Countable K} (f : A → K) (g : A → V) l m k :
  k ∉ map f l → assign f g l m !! k = m !! k.
Proof.
  revert m. induction l as [|x l IH]; simpl; intros m Hk; [done|].
  rewrite IH by (intros ?; apply Hk; by constructor).
  apply lookup_insert_ne. intros <-. apply Hk. constructor.
Qed.

Lemma assign_mem {A K V} `{Countable K} (f : A → K) (g : A → V) l m x :
  NoDup (map f l) → x ∈ l → assign f g l m !! f x = Some (g x).
Proof.
  revert m. induction l as [|y l IH]; simpl; intros m Hnd Hx; [by apply not_elem_of_nil in Hx|].
  apply NoDup_cons in Hnd as [Hy Hnd].
  apply elem_of_cons in Hx as [->|Hx]; [|by apply IH].
  fold (assign f g l (<[f y:=g y]> m)).
  rewrite assign_other by done. apply lookup_insert_eq.
Qed.

Section Facts.
Context `{DL : DecimalLib}.

(** * Validated postings *)

Definition leg_debit (l : Leg) : Q := if String.eqb (leg_Direction l) Debit then val (leg_Amount l) else 0.
Definition leg_credit (l : Leg) : Q := if String.eqb (leg_Direction l) Credit then val (leg_Amount l) else 0.

(** The shape [validateLeg] enforces on an account reference. *)
Definition ref_shape (r : AccountRef) : Prop :=
  AccountType_Valid (ref_Type r) = true ∧
  if UserOwned (ref_Type r)
  then ref_UserID r ≠ uuid_Nil ∧ ref_Ref r = ""
  else ref_UserID r = uuid_Nil ∧ ref_Ref r ≠ "" ∧ blen (ref_Ref r) ≤ 64.

Definition leg_ok (l : Leg) : Prop :=
  ref_shape (leg_Account l) ∧ (leg_Direction l = Debit ∨ leg_Direction l = Credit) ∧
  (0 < val (leg_Amount l))%Q ∧ two_places (leg_Amount l).

Lemma validateLeg_ok l : validateLeg l = true ↔ leg_ok l.
Proof.
  unfold validateLeg, leg_ok, ref_shape. rewrite !andb_true_iff, one_of_true.
  assert (HP : IsPositive (leg_Amount l) = true ↔ (0 < val (leg_Amount l))%Q).
  { destruct (IsPositive_spec (leg_Amount l)) as [h|h]; split; intros; try done; lra. }
  assert (HC : match Check (leg_Amount l) with Ok _ => true | Err _ => false end = true ↔
               two_places (leg_Amount l)).
  { rewrite <- (Check_ok _ ()). destruct (Check (leg_Amount l)) as [[]|]; naive_solver. }
  rewrite HP, HC, elem_of_cons, list_elem_of_singleton.
  destruct (UserOwned _); rewrite !andb_true_iff, ?negb_true_iff, ?N.eqb_eq, ?N.eqb_neq,
    ?String.eqb_eq, ?String.eqb_neq, ?Z.leb_le; tauto.
Qed.

Lemma sumLegs_spec legs d c d' c' :
  sumLegs legs d c = Some (d', c') →
  Forall leg_ok legs ∧
  (val d' == val d + Qsum (map leg_debit legs))%Q ∧ (val c' == val c + Qsum (map leg_credit legs))%Q.
Proof.
  revert d c. induction legs as [|l legs IH]; simpl; intros d c H.
  - simplify_eq. repeat split; [constructor|lra|lra].
  - destruct (validateLeg l) eqn:Hl; [|done]. apply validateLeg_ok in Hl.
    destruct Hl as (Hs & Hdir & Hrest). unfold leg_debit at 1, leg_credit at 1.
    destruct Hdir as [Hd|Hd]; rewrite Hd in *; simpl in H;
      apply IH in H as (HF & H1 & H2); rewrite dec_add_val in *;
      (split; [constructor; [unfold leg_ok; rewrite Hd; tauto|done]|]); simpl; split; lra.
Qed.

Definition balanced_legs (legs : list Leg) : Prop :=
  (Qsum (map leg_debit legs) == Qsum (map leg_credit legs))%Q.

(** Everything a caller may rely on after [validatePosting]. *)
Definition posting_ok (p : Posting) : Prop :=
  Forall leg_ok (p_Legs p) ∧ balanced_legs (p_Legs p) ∧ (2 ≤ length (p_Legs p))%nat.

Lemma validatePosting_ok p u : validatePosting p = Ok u → posting_ok p.
Proof.
  unfold validatePosting. intros Hv.
  do 8 apply result_bind_ok in Hv as (? & ?Hr & Hv).
  repeat match goal with Hr : reject _ _ = Ok _ |- _ => apply reject_ok in Hr end.
  destruct (sumLegs _ _ _) as [[d c]|] eqn:Hs; [|done].
  apply sumLegs_spec in Hs as (HF & Hd & Hc).
  apply reject_ok in Hv. apply negb_false_iff in Hv. reflect_bools. dec_reflect.
  rewrite dec_zero_val in *. split; [done|]. split; [unfold balanced_legs; lra|lia].
Qed.

(** The converse: which postings pass. *)
Lemma sumLegs_total legs d c : Forall leg_ok legs → ∃ d' c', sumLegs legs d c = Some (d', c').
Proof.
  intros HF. revert d c. induction HF as [|l legs Hl HF IH]; intros d c; simpl; [eauto|].
  apply validateLeg_ok in Hl as ->. repeat case_match; eauto.
Qed.

(** * nextBalances *)

Definition leg_delta (l : Leg) : Q :=
  val (signedDelta (ref_Type (leg_Account l)) (leg_Direction l) (leg_Amount l)).

Definition on_ref (r : AccountRef) (l : Leg) : bool := bool_decide (leg_Account l = r).

Definition delta_on (r : AccountRef) (legs : list Leg) : Q := Qsum (map leg_delta (List.filter (on_ref r) legs)).

Definition typed (A : gmap AccountRef lockedAccount) : Prop :=
  ∀ r la, A !! r = Some la → la_Type la = ref_Type r.

Lemma applyLegs_spec A W legs W' :
  typed A → applyLegs A W legs = Ok W' →
  (∀ l, l ∈ legs → is_Some (A !! leg_Account l)) ∧
  ∀ r, (val (default dec_zero (W' !! r)) == val (default dec_zero (W !! r)) + delta_on r legs)%Q.
Proof.
  intros HT. revert W. induction legs as [|l legs IH]; simpl; intros W H.
  - simplify_eq. split; [intros l Hl; by apply not_elem_of_nil in Hl|].
    intros r. unfold delta_on; simpl. lra.
  - destruct (A !! leg_Account l) as [la|] eqn:Hl; [|done].
    apply IH in H as [H1 H2]. split.
    + intros l' [->|?]%elem_of_cons; eauto.
    + intros r. rewrite H2. unfold delta_on; simpl. unfold on_ref at 2.
      destruct (decide (leg_Account l = r)) as [<-|Hne].
      * rewrite bool_decide_eq_true_2, lookup_insert_eq by done. simpl.
        rewrite dec_add_val. unfold leg_delta at 2. rewrite (HT _ _ Hl). lra.
      * rewrite bool_decide_eq_false_2, lookup_insert_ne by done. reflexivity.
Qed.

(** Accounts with distinct references have distinct identifiers. *)
Definition ids_injective (A : gmap AccountRef lockedAccount) : Prop :=
  ∀ r1 r2 a1 a2, A !! r1 = Some a1 → A !! r2 = Some a2 → la_ID a1 = la_ID a2 → r1 = r2.

Lemma collect_spec A W seen out legs out' :
  ids_injective A → (∀ l, l ∈ legs → is_Some (A !! leg_Account l)) →
  collect A W seen out legs = Ok out' →
  (∀ r la, A !! r = Some la → r ∉ seen → r ∈ map leg_Account legs →
     out' !! la_ID la = Some (default dec_zero (W !! r)) ∧
     (UserOwned (la_Type la) = true → (0 <= val (default dec_zero (W !! r)))%Q)) ∧
  (∀ id, (∀ r la, A !! r = Some la → r ∉ seen → r ∈ map leg_Account legs → la_ID la ≠ id) →
     out' !! id = out !! id).
Proof.
  intros HI. revert seen out. induction legs as [|l legs IH]; simpl; intros seen out HA H.
  - simplify_eq. split; [|done]. intros r la _ _ Hr. by apply not_elem_of_nil in Hr.
  - assert (HA' : ∀ l', l' ∈ legs → is_Some (A !! leg_Account l')) by (intros; apply HA; by constructor).
    case_decide as Hseen.
    + apply IH in H as [H1 H2]; [|done]. split.
      * intros r la Hr Hns [->|Hin]%elem_of_cons; [done|eauto].
      * intros id Hid. apply H2. intros r la ?? Hin. apply (Hid r la); [done..|by constructor].
    + destruct (HA l) as [la0 Hla0]; [constructor|]. rewrite Hla0 in H. simpl in H.
      destruct (UserOwned (la_Type la0) && IsNegative (default dec_zero (W !! leg_Account l))) eqn:Hneg; [done|].
      apply IH in H as [H1 H2]; [|done].
      assert (Hkeep : out' !! la_ID la0 = Some (default dec_zero (W !! leg_Account l))).
      { rewrite H2; [apply lookup_insert_eq|].
        intros r la Hr Hns Hin Heq. apply Hns.
        rewrite (HI _ _ _ _ Hr Hla0 Heq). by apply elem_of_union_l, elem_of_singleton. }
      split.
      * intros r la Hr Hns Hin.
        destruct (decide (r = leg_Account l)) as [->|Hne].
        -- rewrite Hla0 in Hr. simplify_eq. split; [done|]. intros Huo. rewrite Huo in Hneg.
           simpl in Hneg. by dec_reflect.
        -- apply elem_of_cons in Hin as [?|Hin]; [done|]. apply H1; [done| |done].
           by rewrite not_elem_of_union, not_elem_of_singleton.
      * intros id Hid. rewrite H2.
        -- apply lookup_insert_ne. apply (Hid (leg_Account l) la0); [done..|constructor].
        -- intros r la Hr Hns Hin. apply not_elem_of_union in Hns as [_ Hns].
           apply (Hid r la); [done..|by constructor].
Qed.

(** What a successful [nextBalances] returns: for every account the legs touch
    the old balance plus the legs' deltas, not negative for user accounts, and
    nothing else. *)
Lemma nextBalances_spec A legs out :
  typed A → ids_injective A → nextBalances A legs = Ok out →
  (∀ l, l ∈ legs → is_Some (A !! leg_Account l)) ∧
  (∀ r la, A !! r = Some la → r ∈ map leg_Account legs →
     ∃ b, out !! la_ID la = Some b ∧ (val b == val (la_Balance la) + delta_on r legs)%Q ∧
          (UserOwned (ref_Type r) = true → (0 <= val b)%Q)) ∧
  (∀ id, (∀ r la, A !! r = Some la → r ∈ map leg_Account legs → la_ID la ≠ id) → out !! id = None).
Proof.
  intros HT HI H. unfold nextBalances in H. apply result_bind_ok in H as (W & HW & H).
  apply applyLegs_spec in HW as [HA HW]; [|done].
  apply collect_spec in H as [H1 H2]; [|done..].
  split; [done|]. split.
  - intros r la Hr Hin. destruct (H1 r la Hr) as [Ho Hn]; [apply not_elem_of_empty|done|].
    eexists. split; [done|]. split.
    + rewrite HW, lookup_fmap, Hr. reflexivity.
    + rewrite <- (HT _ _ Hr). done.
  - intros id Hid. rewrite H2; [done|]. intros r la Hr _ Hin. eauto.
Qed.

Lemma delta_on_none r legs : r ∉ map leg_Account legs → (delta_on r legs == 0)%Q.
Proof.
  unfold delta_on. induction legs as [|l legs IH]; simpl; intros H; [reflexivity|].
  unfold on_ref at 1. rewrite bool_decide_eq_false_2.
  - apply IH. intros ?. apply H. by constructor.
  - intros <-. apply H. constructor.
Qed.

(** * The lock set *)

Lemma dedup_spec seen refs r : r ∈ dedup seen refs ↔ r ∈ refs ∧ r ∉ seen.
Proof.
  revert seen. induction refs as [|x refs IH]; simpl; intros seen.
  - split; [intros ?%not_elem_of_nil; done|intros [?%not_elem_of_nil ?]; done].
  - case_decide; rewrite ?elem_of_cons, IH, ?not_elem_of_union, ?not_elem_of_singleton.
    + split; [naive_solver|]. intros [[->|?] ?]; done.
    + destruct (decide (r = x)) as [->|]; naive_solver.
Qed.

Lemma dedup_NoDup seen refs : NoDup (dedup seen refs).
Proof.
  revert seen. induction refs as [|x refs IH]; simpl; intros seen; [constructor|].
  case_decide; [done|]. constructor; [|done].
  rewrite dedup_spec, not_elem_of_union, not_elem_of_singleton. naive_solver.
Qed.

Lemma sortedRefs_mem refs r : r ∈ sortedRefs refs ↔ r ∈ refs.
Proof. unfold sortedRefs. rewrite merge_sort_Permutation, dedup_spec.
  pose proof (not_elem_of_empty (C:=gset AccountRef) r). tauto. Qed.

Lemma sortedRefs_NoDup refs : NoDup (sortedRefs refs).
Proof. unfold sortedRefs. rewrite merge_sort_Permutation. apply dedup_NoDup. Qed.
End Facts.
