(* ===== verification/Ledger.v ===== *)
(** The ledger service on its tables (panel/internal/module/ledger).

    [ledger] is the database: the account table under its unique business
    key, the append-only transaction and entry tables, the balance holds under
    their unique order, the users the foreign keys point at, the audit log and
    the next identifier [uuidv7()] hands out.  The repository functions are
    the SQL statements of repo/accounts.go, repo/postings.go and repo/holds.go
    with the constraints of db/migrations/00009_ledger.sql and the foreign key
    of the holds that 00013_order.sql adds; the service
    functions above them are service/post.go, holds.go, adjust.go and
    balance.go. *)
From Stdlib Require Import ZArith QArith Qabs Lqa Lia.
From stdpp Require Import base tactics list gmap strings sorting.
From S2P Require Import Prelude Decimal GoString Money LedgerTypes.
#[local] Open Scope string_scope.
#[local] Open Scope Z_scope.

(** Business key of an account: user accounts have an owner and no reference,
    platform accounts a reference and no owner. *)
Record AccountKey := mkKey { k_Type : string; k_OwnerUserID : option uuid; k_OwnerRef : string }.

#[global] Instance AccountKey_eq_dec : EqDecision AccountKey.
Proof. solve_decision. Defined.
#[global] Instance AccountKey_countable : Countable AccountKey.
Proof.
  refine (inj_countable' (λ r, (k_Type r, k_OwnerUserID r, k_OwnerRef r))
            (λ p, mkKey p.1.1 p.1.2 p.2) _).
  by intros [].
Defined.

(** What a [context.Context] carries here: whether a transaction is open, and
    the authenticated principal. *)
Record ctx := mkCtx { inTx : bool; who : option Principal }.

(** Rows of a table that satisfy [p], and the table with [f] applied to them. *)
Definition update_where {K V} `{Countable K} (p : V → bool) (f : V → V) (m : gmap K V) : gmap K V :=
  (λ v, if p v then f v else v) <$> m.
Definition rows_affected {K V} `{Countable K} (p : V → bool) (m : gmap K V) : nat :=
  length (List.filter p (map snd (map_to_list m))).

Section Ledger.
Context `{DL : DecimalLib}.

Record account_row := mkAccount { acc_id : uuid; acc_balance : dec }.

Record txn_row := mkTxn {
  t_id : uuid; t_kind : string; t_source_type : option string; t_source_id : option uuid;
  t_memo : string; t_actor_kind : string; t_actor_id : option uuid }.

Record entry_row := mkEntry { e_txn : uuid; e_account : uuid; e_direction : string; e_amount : dec }.

Record hold_row := mkHold {
  h_id : uuid; h_user : uuid; h_amount : dec; h_status : string;
  h_hold_txn : uuid; h_capture_txn : option uuid; h_release_txn : option uuid }.

Record audit_event := mkAudit {
  a_action : string; a_resource : uuid; a_amount : dec; a_reason : string;
  a_balance_after : dec; a_ledger_txn : uuid }.

Record ledger := mkLedger {
  accounts : gmap AccountKey account_row;
  txns : list txn_row;
  entries : list entry_row;
  holds : gmap uuid hold_row;
  audits : list audit_event;
  users : gset uuid;
  next_id : uuid }.

Definition set_accounts (f : gmap AccountKey account_row → gmap AccountKey account_row) (s : ledger) : ledger :=
  mkLedger (f (accounts s)) (txns s) (entries s) (holds s) (audits s) (users s) (next_id s).
Definition set_holds (f : gmap uuid hold_row → gmap uuid hold_row) (s : ledger) : ledger :=
  mkLedger (accounts s) (txns s) (entries s) (f (holds s)) (audits s) (users s) (next_id s).
Definition bump_id (s : ledger) : ledger :=
  mkLedger (accounts s) (txns s) (entries s) (holds s) (audits s) (users s) (N.succ (next_id s)).
Definition add_txn (t : txn_row) (es : list entry_row) (s : ledger) : ledger :=
  mkLedger (accounts s) (txns s ++ [t]) (entries s ++ es) (holds s) (audits s) (users s) (next_id s).
Definition add_audit (a : audit_event) (s : ledger) : ledger :=
  mkLedger (accounts s) (txns s) (entries s) (holds s) (audits s ++ [a]) (users s) (next_id s).

Abbreviation LM := (M ledger lerr).

(** * Column types and constraints *)

(** PostgreSQL [text] holds valid UTF-8 without NUL. *)
Definition pg_text (s : string) : bool := ValidString s && negb (ContainsNUL s).

(** [numeric(20,2)]: at most 18 digits before the point. *)
Definition numeric_fits (d : dec) : bool :=
  LessThan (dec_abs d) (dec_new 1 18).

(** [ledger_accounts] CHECKs: account type, owner shape, reference length. *)
Definition account_check (k : AccountKey) : bool :=
  AccountType_Valid (k_Type k) &&
  Bool.eqb (UserOwned (k_Type k)) (bool_decide (is_Some (k_OwnerUserID k))) &&
  Bool.eqb (bool_decide (k_OwnerUserID k = None)) (negb (String.eqb (k_OwnerRef k) "")) &&
  (RuneCountInString (k_OwnerRef k) <=? 64).

(** * Repository *)

(** One row of [INSERT … ON CONFLICT … DO NOTHING]: the CHECKs come first, a
    present key is left alone, and a new row's owner must exist. *)
Definition ensure1 (k : AccountKey) : LM () := λ s,
  if negb (pg_text (k_OwnerRef k)) then (Err (ErrDB DBOther), s)
  else if negb (account_check k) then (Err (ErrDB DBCheck), s)
  else match accounts s !! k with
       | Some _ => (Ok (), s)
       | None =>
           if match k_OwnerUserID k with Some u => bool_decide (u ∈ users s) | None => true end
           then (Ok (), bump_id (set_accounts (<[k := mkAccount (next_id s) dec_zero]>) s))
           else (Err (ErrDB DBForeignKey), s)
       end.

Fixpoint EnsureAccounts (keys : list AccountKey) : LM () :=
  match keys with
  | [] => mret ()
  | k :: ks => _ ← ensure1 k; EnsureAccounts ks
  end.

(** The key a [SELECT … FOR UPDATE] disjunct matches. *)
Definition select_key (k : AccountKey) : AccountKey :=
  match k_OwnerUserID k with
  | Some u => mkKey (k_Type k) (Some u) ""
  | None => mkKey (k_Type k) None (k_OwnerRef k)
  end.

(** Rows are returned once even when two keys select the same one. *)
Definition LockAccounts (keys : list AccountKey) : LM (list (AccountKey * account_row)) :=
  gets (λ s, omap (λ k, (λ r, (k, r)) <$> accounts s !! k) (remove_dups (map select_key keys))).

(** [UPDATE ledger_accounts SET balance = … WHERE id = …] with the
    non-negativity CHECK on user-owned rows. *)
Definition update_balance (id : uuid) (bal : dec) : LM () := λ s,
  match Check bal with
  | Err _ => (Err (ErrDB DBOther), s)
  | Ok _ =>
      if negb (numeric_fits bal) then (Err (ErrDB DBOther), s)
      else if existsb (λ kr, (acc_id kr.2 =? id)%N && bool_decide (is_Some (k_OwnerUserID kr.1)) &&
                             IsNegative bal) (map_to_list (accounts s))
      then (Err (ErrDB DBCheck), s)
      else if Nat.eqb (rows_affected (λ r, (acc_id r =? id)%N) (accounts s)) 1
           then (Ok (), set_accounts (update_where (λ r, (acc_id r =? id)%N)
                                        (λ r, mkAccount (acc_id r) bal)) s)
           else (Err (ErrDB DBOther), s)
  end.

Fixpoint set_balances_loop (ids : list (uuid * dec)) : LM () :=
  match ids with
  | [] => mret ()
  | (id, bal) :: ids' => _ ← update_balance id bal; set_balances_loop ids'
  end.

Definition id_le (a b : uuid * dec) : Prop := (a.1 ≤ b.1)%N.
#[global] Instance id_le_dec : RelDecision id_le.
Proof. intros a b. unfold id_le. apply _. Defined.

Definition SetBalances (balances : gmap uuid dec) : LM () :=
  set_balances_loop (merge_sort id_le (map_to_list balances)).

Definition UserBalances (accountType : string) (userIDs : list uuid) : LM (gmap uuid dec) :=
  gets (λ s, list_to_map (omap (λ u,
    (λ r, (u, acc_balance r)) <$> accounts s !! mkKey accountType (Some u) "") userIDs)).

Definition same_source (k st : string) (sid : uuid) (t : txn_row) : bool :=
  String.eqb (t_kind t) k &&
  bool_decide (t_source_type t = Some st) && bool_decide (t_source_id t = Some sid).

Definition TransactionExists (kind sourceType : string) (sourceID : uuid) : LM bool :=
  gets (λ s, existsb (same_source kind sourceType sourceID) (txns s)).

(** [ledger_transactions] CHECKs. *)
Definition txn_check (t : txn_row) : bool :=
  Kind_Valid (t_kind t) &&
  match t_source_type t with Some st => sourceTypePattern st | None => true end &&
  Bool.eqb (bool_decide (t_source_type t = None)) (bool_decide (t_source_id t = None)) &&
  (RuneCountInString (t_memo t) <=? 500) &&
  (negb (String.eqb (t_kind t) KindBalanceAdjusted) || (5 <=? btrim_length (t_memo t))) &&
  one_of (t_actor_kind t) ["system"; "user"; "admin"] &&
  Bool.eqb (String.eqb (t_actor_kind t) "system") (bool_decide (t_actor_id t = None)).

(** The partial unique index [ledger_transactions_source_once_key]. *)
Definition source_once_conflict (t : txn_row) (l : list txn_row) : bool :=
  match t_source_type t, t_source_id t with
  | Some st, Some sid => OnePerSource (t_kind t) && existsb (same_source (t_kind t) st sid) l
  | _, _ => false
  end.

Definition entry_check (s : ledger) (e : entry_row) : bool :=
  one_of (e_direction e) [Debit; Credit] && IsPositive (e_amount e) && numeric_fits (e_amount e) &&
  existsb (λ kr, (acc_id kr.2 =? e_account e)%N) (map_to_list (accounts s)).

Definition InsertTransaction (t : txn_row) (es : list entry_row) : LM uuid := λ s,
  if Nat.eqb (length es) 0 then (Err (ErrDB DBOther), s)
  else if negb (forallb (λ e, match Check (e_amount e) with Ok _ => true | Err _ => false end) es)
  then (Err (ErrDB DBOther), s)
  else
    let id := next_id s in
    let t := mkTxn id (t_kind t) (t_source_type t) (t_source_id t) (t_memo t) (t_actor_kind t) (t_actor_id t) in
    if negb (pg_text (t_memo t)) then (Err (ErrDB DBOther), s)
    else if negb (txn_check t) then (Err (ErrDB DBCheck), s)
    else if source_once_conflict t (txns s) then (Err (ErrDB DBUnique), s)
    else if negb (forallb (entry_check s) es) then (Err (ErrDB DBCheck), add_txn t [] (bump_id s))
    else (Ok id, add_txn t (map (λ e, mkEntry id (e_account e) (e_direction e) (e_amount e)) es) (bump_id s)).

Definition HoldByOrder (orderID : uuid) : LM (option hold_row) := gets (λ s, holds s !! orderID).

Definition LockHoldByOrder (orderID : uuid) : LM (option hold_row) := gets (λ s, holds s !! orderID).

(** [orders] are the rows [order_id] may point at: the foreign key that
    00013_order.sql adds.  The unique index comes before the foreign keys. *)
Definition InsertHold (orders : uuid → bool) (orderID : uuid) (h : hold_row) : LM hold_row := λ s,
  match Check (h_amount h) with
  | Err _ => (Err (ErrDB DBOther), s)
  | Ok _ =>
      if negb (IsPositive (h_amount h) && numeric_fits (h_amount h)) then (Err (ErrDB DBCheck), s)
      else if bool_decide (is_Some (holds s !! orderID)) then (Err (ErrDB DBUnique), s)
      else if negb (bool_decide (h_user h ∈ users s) && orders orderID) then (Err (ErrDB DBForeignKey), s)
      else
        let h' := mkHold (next_id s) (h_user h) (h_amount h) (h_status h)
                    (h_hold_txn h) (h_capture_txn h) (h_release_txn h) in
        (Ok h', bump_id (set_holds (<[orderID := h']>) s))
  end.

Definition is_held (id : uuid) (h : hold_row) : bool :=
  (h_id h =? id)%N && String.eqb (h_status h) HoldHeld.

Definition MarkHoldCaptured (id txnID : uuid) : LM bool := λ s,
  (Ok (Nat.eqb (rows_affected (is_held id) (holds s)) 1),
   set_holds (update_where (is_held id) (λ h,
     mkHold (h_id h) (h_user h) (h_amount h) HoldCaptured (h_hold_txn h) (Some txnID) (h_release_txn h))) s).

Definition MarkHoldReleased (id txnID : uuid) : LM bool := λ s,
  (Ok (Nat.eqb (rows_affected (is_held id) (holds s)) 1),
   set_holds (update_where (is_held id) (λ h,
     mkHold (h_id h) (h_user h) (h_amount h) HoldReleased (h_hold_txn h) (h_capture_txn h) (Some txnID))) s).

(** The constraint trigger run at commit: every transaction has at least two
    entries whose debits and credits agree. *)
Definition entries_of (id : uuid) (l : list entry_row) : list entry_row :=
  List.filter (λ e, (e_txn e =? id)%N) l.
Definition sum_direction (d : string) (l : list entry_row) : dec :=
  foldr (λ e acc, if String.eqb (e_direction e) d then dec_add (e_amount e) acc else acc) dec_zero l.
Definition assert_ledger_balanced (s : ledger) : result lerr () :=
  if forallb (λ t,
       let es := entries_of (t_id t) (entries s) in
       (2 <=? Z.of_nat (length es)) && Equal (sum_direction Debit es) (sum_direction Credit es)) (txns s)
  then Ok () else Err (ErrDB DBCheck).

(** * Service: posting (service/post.go) *)

Definition keyOf (ref : AccountRef) : AccountKey :=
  if UserOwned (ref_Type ref)
  then mkKey (ref_Type ref) (Some (ref_UserID ref)) ""
  else mkKey (ref_Type ref) None (ref_Ref ref).

Definition refOf (k : AccountKey) : AccountRef :=
  match k_OwnerUserID k with
  | Some u => UserAccount (k_Type k) u
  | None => PlatformAccount (k_Type k) (k_OwnerRef k)
  end.

Definition lockAccounts (refs0 : list AccountRef) : LM (gmap AccountRef lockedAccount) :=
  let refs := sortedRefs refs0 in
  let keys := map keyOf refs in
  _ ← map_err (λ e, match e with ErrDB DBForeignKey => ErrUserNotFound | _ => e end)
        (EnsureAccounts keys);
  rows ← LockAccounts keys;
  if Nat.eqb (length rows) (length keys)
  then mret (foldl (λ m kr, <[refOf kr.1 := mkLocked (acc_id kr.2) (k_Type kr.1) (acc_balance kr.2)]> m)
               ∅ rows)
  else fail ErrInternal.

Definition setBalancesErr (e : lerr) : lerr :=
  match e with ErrDB DBCheck => ErrBalanceConstraint | _ => e end.

Definition actorOf (c : ctx) : string * option uuid :=
  match who c with
  | None => ("system", None)
  | Some p =>
      if (pr_UserID p =? uuid_Nil)%N then ("system", None)
      else if String.eqb (pr_Audience p) AudienceAdmin then ("admin", Some (pr_UserID p))
      else ("user", Some (pr_UserID p))
  end.

(** The row inserted for a posting; its identifier is assigned on insert. *)
Definition txn_of (c : ctx) (p : Posting) : txn_row :=
  let '(ak, ai) := actorOf c in
  let st := if String.eqb (p_SourceType p) "" then None else Some (p_SourceType p) in
  let sid := if String.eqb (p_SourceType p) "" then None
             else if (p_SourceID p =? uuid_Nil)%N then None else Some (p_SourceID p) in
  mkTxn uuid_Nil (p_Kind p) st sid (p_Memo p) ak ai.

Definition entry_of (accs : gmap AccountRef lockedAccount) (leg : Leg) : entry_row :=
  let acc := default (mkLocked uuid_Nil "" dec_zero) (accs !! leg_Account leg) in
  mkEntry uuid_Nil (la_ID acc) (leg_Direction leg) (leg_Amount leg).

Definition post (c : ctx) (p : Posting) : LM uuid :=
  exists_ ← (if OnePerSource (p_Kind p) && negb (p_SourceID p =? uuid_Nil)%N
             then TransactionExists (p_Kind p) (p_SourceType p) (p_SourceID p)
             else mret false);
  if exists_ : bool then fail ErrDuplicatePosting
  else
    accs ← lockAccounts (accountKeys (p_Legs p));
    newBal ← lift (nextBalances accs (p_Legs p));
    _ ← map_err setBalancesErr (SetBalances newBal);
    map_err (λ e, match e with ErrDB DBUnique => ErrDuplicatePosting | _ => e end)
      (InsertTransaction (txn_of c p) (map (entry_of accs) (p_Legs p))).

Definition postChecked (c : ctx) (p : Posting) : LM uuid :=
  _ ← lift (validatePosting p);
  post c p.

Definition in_tx (c : ctx) : ctx := mkCtx true (who c).

(** [Service.tx.Do] with the commit-time trigger of this schema. *)
Definition DoL {A} (c : ctx) (fn : ctx → LM A) : LM A :=
  Do (inTx c) assert_ledger_balanced (fn (in_tx c)).

Definition Post (c : ctx) (p : Posting) : LM uuid :=
  if Dedicated (p_Kind p) then fail ErrInvalidPosting
  else DoL c (λ c, postChecked c p).

(** * Service: order holds (service/holds.go) *)

Record HoldInput := mkHoldInput { hi_OrderID : uuid; hi_UserID : uuid; hi_Amount : dec }.

Record OrderPaid := mkOrderPaid {
  op_OrderID : uuid; op_UserID : uuid; op_Total : dec; op_Paid : dec; op_Fee : dec;
  op_Surcharge : dec; op_Provider : string }.

Definition validateHoldInput (i : HoldInput) : result lerr () :=
  _ ← reject ((hi_OrderID i =? uuid_Nil)%N || (hi_UserID i =? uuid_Nil)%N) ErrInvalidPosting;
  _ ← reject (negb (IsPositive (hi_Amount i))) ErrInvalidPosting;
  match Check (hi_Amount i) with Ok _ => Ok () | Err _ => Err ErrInvalidPosting end.

Definition hold_posting (i : HoldInput) : Posting :=
  mkPosting KindBalanceHold SourceOrder (hi_OrderID i) ""
    [mkLeg (UserAccount UserBalance (hi_UserID i)) Debit (hi_Amount i);
     mkLeg (UserAccount UserBalanceHold (hi_UserID i)) Credit (hi_Amount i)].

Definition holdForOrder (orders : uuid → bool) (c : ctx) (i : HoldInput) : LM hold_row :=
  found ← HoldByOrder (hi_OrderID i);
  match found with
  | Some _ => fail ErrHoldExists
  | None =>
      txnID ← map_err (λ e, if is_duplicate e then ErrHoldExists else e)
                (postChecked c (hold_posting i));
      map_err (λ e, match e with ErrDB DBUnique => ErrHoldExists | _ => e end)
        (InsertHold orders (hi_OrderID i)
           (mkHold uuid_Nil (hi_UserID i) (hi_Amount i) HoldHeld txnID None None))
  end.

Definition HoldForOrder (orders : uuid → bool) (c : ctx) (i : HoldInput) : LM hold_row :=
  _ ← lift (validateHoldInput i);
  DoL c (λ c, holdForOrder orders c i).

Definition OrderHold (orderID : uuid) : LM (option hold_row) := HoldByOrder orderID.

Definition release_posting (orderID : uuid) (memo : string) (h : hold_row) : Posting :=
  mkPosting KindBalanceRelease SourceOrder orderID memo
    [mkLeg (UserAccount UserBalanceHold (h_user h)) Debit (h_amount h);
     mkLeg (UserAccount UserBalance (h_user h)) Credit (h_amount h)].

Definition releaseOrderHold (c : ctx) (orderID : uuid) (memo : string) : LM bool :=
  found ← LockHoldByOrder orderID;
  match found with
  | None => mret false
  | Some h =>
      if String.eqb (h_status h) HoldReleased then mret false
      else if String.eqb (h_status h) HoldCaptured then fail ErrHoldCaptured
      else if negb (String.eqb (h_status h) HoldHeld) then mret false
      else
        txnID ← postChecked c (release_posting orderID memo h);
        ok ← MarkHoldReleased (h_id h) txnID;
        if ok : bool then mret true else fail ErrInternal
  end.

Definition ReleaseOrderHold (c : ctx) (orderID : uuid) (memo : string) : LM bool :=
  DoL c (λ c, releaseOrderHold c orderID memo).

Definition nonneg_amounts (l : list dec) : result lerr () :=
  if forallb (λ d, match CheckNonNegative d with Ok _ => true | Err _ => false end) l
  then Ok () else Err ErrInvalidPosting.

Definition validateOrderPaid (p : OrderPaid) : result lerr () :=
  _ ← reject ((op_OrderID p =? uuid_Nil)%N || (op_UserID p =? uuid_Nil)%N) ErrInvalidPosting;
  _ ← nonneg_amounts [op_Total p; op_Paid p; op_Fee p; op_Surcharge p];
  _ ← reject (GreaterThan (op_Paid p) (op_Total p)) ErrInvalidPosting;
  let channelGross := dec_add (op_Paid p) (op_Surcharge p) in
  _ ← reject (GreaterThan (op_Fee p) channelGross) ErrInvalidPosting;
  _ ← reject (IsPositive (op_Surcharge p) && negb (IsPositive (op_Paid p))) ErrInvalidPosting;
  reject (IsPositive channelGross &&
          (String.eqb (op_Provider p) "" || (64 <? blen (op_Provider p)))) ErrInvalidPosting.

Definition orderPaidLegs (p : OrderPaid) (applied : dec) : list Leg :=
  let channelNet := dec_sub (dec_add (op_Paid p) (op_Surcharge p)) (op_Fee p) in
  (if IsPositive channelNet
   then [mkLeg (PlatformAccount ChannelCash (op_Provider p)) Debit channelNet] else []) ++
  (if IsPositive (op_Fee p)
   then [mkLeg (PlatformAccount PlatformFeeExpense (op_Provider p)) Debit (op_Fee p)] else []) ++
  (if IsPositive applied
   then [mkLeg (UserAccount UserBalanceHold (op_UserID p)) Debit applied] else []) ++
  [mkLeg (PlatformAccount PlatformRevenue RefMain) Credit (op_Total p)] ++
  (if IsPositive (op_Surcharge p)
   then [mkLeg (PlatformAccount PlatformRevenue RefSurcharge) Credit (op_Surcharge p)] else []).

(** The checks of [postOrderPaid] on the order's hold. *)
Definition check_hold (p : OrderPaid) (applied : dec) (found : option hold_row) : result lerr () :=
  match found with
  | Some h =>
      if String.eqb (h_status h) HoldCaptured then Err ErrDuplicatePosting
      else if IsPositive applied then
        _ ← reject (String.eqb (h_status h) HoldReleased) ErrHoldReleased;
        _ ← reject (negb (String.eqb (h_status h) HoldHeld)) ErrInvalidPosting;
        _ ← reject (negb (Equal (h_amount h) applied)) ErrInvalidPosting;
        reject (negb (h_user h =? op_UserID p)%N) ErrInvalidPosting
      else reject (String.eqb (h_status h) HoldHeld) ErrInvalidPosting
  | None => reject (IsPositive applied) ErrInvalidPosting
  end.

Definition paid_posting (p : OrderPaid) (applied : dec) : Posting :=
  mkPosting KindOrderPaid SourceOrder (op_OrderID p) "" (orderPaidLegs p applied).

Definition postOrderPaid (c : ctx) (p : OrderPaid) : LM uuid :=
  let applied := dec_sub (op_Total p) (op_Paid p) in
  found ← LockHoldByOrder (op_OrderID p);
  _ ← lift (check_hold p applied found);
  if IsZero (op_Total p) then mret uuid_Nil
  else
    txnID ← postChecked c (paid_posting p applied);
    if IsPositive applied then
      ok ← MarkHoldCaptured (match found with Some h => h_id h | None => uuid_Nil end) txnID;
      if ok : bool then mret txnID else fail ErrInternal
    else mret txnID.

Definition PostOrderPaid (c : ctx) (p : OrderPaid) : LM uuid :=
  _ ← lift (validateOrderPaid p);
  DoL c (λ c, postOrderPaid c p).

Definition CaptureFromBalance (orders : uuid → bool) (c : ctx) (i : HoldInput) : LM (hold_row * uuid) :=
  _ ← lift (validateHoldInput i);
  DoL c (λ c,
    _ ← lockAccounts [UserAccount UserBalance (hi_UserID i);
                      UserAccount UserBalanceHold (hi_UserID i);
                      PlatformAccount PlatformRevenue RefMain];
    h ← holdForOrder orders c i;
    txnID ← postOrderPaid c (mkOrderPaid (hi_OrderID i) (hi_UserID i) (hi_Amount i)
                               dec_zero dec_zero dec_zero "");
    mret (mkHold (h_id h) (h_user h) (h_amount h) HoldCaptured (h_hold_txn h) (Some txnID)
            (h_release_txn h), txnID)).

(** * Service: balances and manual adjustment (balance.go, adjust.go) *)

Definition Balances (userIDs : list uuid) : LM (gmap uuid dec) :=
  got ← UserBalances UserBalance userIDs;
  mret (got ∪ list_to_map (map (λ u, (u, dec_zero)) userIDs)).

Definition Balance (userID : uuid) : LM dec :=
  m ← Balances [userID];
  mret (default dec_zero (m !! userID)).

Record Adjustment := mkAdjustment { adj_UserID : uuid; adj_Amount : dec; adj_Reason : string }.

Definition adjustReasonMin : Z := 5.
Definition adjustReasonMax : Z := 500.

Definition normalizeAdjustment (a : Adjustment) : result lerr string :=
  _ ← reject (IsZero (adj_Amount a)) ErrValidation;
  _ ← reject (match Check (adj_Amount a) with Ok _ => false | Err _ => true end) ErrValidation;
  let reason := TrimSpace (adj_Reason a) in
  _ ← reject (negb (ValidString reason)) ErrValidation;
  _ ← reject (ContainsNUL reason) ErrValidation;
  let n := RuneCountInString reason in
  _ ← reject ((n <? adjustReasonMin) || (adjustReasonMax <? n)) ErrValidation;
  Ok reason.

Definition adjust_legs (a : Adjustment) : list Leg :=
  let abs := dec_abs (adj_Amount a) in
  if IsPositive (adj_Amount a)
  then [mkLeg (PlatformAccount Suspense RefManualAdjust) Debit abs;
        mkLeg (UserAccount UserBalance (adj_UserID a)) Credit abs]
  else [mkLeg (UserAccount UserBalance (adj_UserID a)) Debit abs;
        mkLeg (PlatformAccount Suspense RefManualAdjust) Credit abs].

(** The audit log and the account states belong to other modules; they come in
    through the interfaces [auditWriter] and [AccountStates]. *)
Variable audit_Write : audit_event → result lerr ().
Variable IsDeleted : uuid → result lerr bool.

Definition adjustBalance (c : ctx) (a : Adjustment) (reason : string) : LM (dec * uuid) :=
  txnID ← map_err (λ e, if is_insufficient e then ErrConflictInsufficient else e)
            (postChecked c (mkPosting KindBalanceAdjusted SourceUser (adj_UserID a) reason
                              (adjust_legs a)));
  after ← Balance (adj_UserID a);
  let ev := mkAudit "balance.adjusted" (adj_UserID a) (adj_Amount a) reason after txnID in
  _ ← lift (audit_Write ev);
  _ ← modify (add_audit ev);
  mret (after, txnID).

Definition principal (c : ctx) : result lerr Principal :=
  match who c with
  | Some p => if (pr_UserID p =? uuid_Nil)%N then Err ErrUnauthorized else Ok p
  | None => Err ErrUnauthorized
  end.

Definition AdjustBalance (c : ctx) (a : Adjustment) : LM (dec * uuid) :=
  p ← lift (principal c);
  if negb (String.eqb (pr_Audience p) AudienceAdmin) then fail ErrForbidden
  else if (adj_UserID a =? uuid_Nil)%N then fail ErrUserNotFound
  else
    reason ← lift (normalizeAdjustment a);
    DoL c (λ c,
      deleted ← (if IsPositive (adj_Amount a) then lift (IsDeleted (adj_UserID a)) else mret false);
      if deleted : bool then fail ErrAccountDeleted
      else adjustBalance c a reason).

(** * Balance entries and drift (balance_entries.go, integrity.go) *)

Definition runningBalance (t : string) (credits debits : dec) : dec :=
  if DebitNormal t then dec_sub debits credits else dec_sub credits debits.

(** The rows [DriftRows] selects (before ORDER BY and LIMIT): accounts whose
    cached balance differs from the sum of their entries, debits minus credits
    for debit-normal types and the reverse for the others. *)
Definition account_entries (id : uuid) (s : ledger) : list entry_row :=
  List.filter (λ e, (e_account e =? id)%N) (entries s).

Definition drifted (s : ledger) (kr : AccountKey * account_row) : bool :=
  let es := account_entries (acc_id kr.2) s in
  negb (Equal (acc_balance kr.2)
          (runningBalance (k_Type kr.1) (sum_direction Credit es) (sum_direction Debit es))).

Definition DriftRows (s : ledger) : list (AccountKey * account_row) :=
  List.filter (drifted s) (map_to_list (accounts s)).

(** The rows [HoldMismatchRows] selects: hold accounts whose balance is not the
    sum of the owner's held holds. *)
Definition held_amounts (u : uuid) (s : ledger) : list dec :=
  map (λ oh, h_amount oh.2)
    (List.filter (λ oh, (h_user oh.2 =? u)%N && String.eqb (h_status oh.2) HoldHeld)
       (map_to_list (holds s))).

Definition hold_mismatch (s : ledger) (kr : AccountKey * account_row) : bool :=
  String.eqb (k_Type kr.1) UserBalanceHold &&
  match k_OwnerUserID kr.1 with
  | Some u => negb (Equal (acc_balance kr.2) (foldr dec_add dec_zero (held_amounts u s)))
  | None => false
  end.

Definition HoldMismatchRows (s : ledger) : list (AccountKey * account_row) :=
  List.filter (hold_mismatch s) (map_to_list (accounts s)).

End Ledger.
