(* ===== verification/LedgerInv.v ===== *)
(** The ledger's invariant and its preservation by every operation.

    [ledger_ok] collects what the tables promise: unique account identifiers,
    well-shaped keys, user accounts not overdrawn, every cached balance equal
    to the sum of its entries, every transaction balanced, and at most one
    transaction per source for the kinds that demand it. *)
From Stdlib Require Import ZArith QArith Lqa Lia Sorting.Permutation.
From stdpp Require Import base tactics list gmap strings sorting.
From S2P Require Import Prelude Decimal GoString Money LedgerTypes LedgerFacts Ledger.
#[local] Open Scope string_scope.
#[local] Open Scope Z_scope.

Section Inv.
Context `{DL : DecimalLib}.

(** Effect of an entry on the balance of an account of type [t]. *)
Definition entry_delta (t : string) (e : entry_row) : Q :=
  val (signedDelta t (e_direction e) (e_amount e)).

Definition on_account (id : uuid) (e : entry_row) : bool := (e_account e =? id)%N.

(** The balance an account of type [t] should have after the entries [es]. *)
Definition entry_balance (t : string) (id : uuid) (es : list entry_row) : Q :=
  Qsum (map (entry_delta t) (List.filter (on_account id) es)).

Definition txn_balanced (es : list entry_row) (t : txn_row) : Prop :=
  let l := entries_of (t_id t) es in
  (2 ≤ length l)%nat ∧ (val (sum_direction Debit l) == val (sum_direction Credit l))%Q.

(** Two transactions that the partial unique index would put in conflict. *)
Definition once_conflict (t1 t2 : txn_row) : Prop :=
  ∃ st sid, t_kind t1 = t_kind t2 ∧ OnePerSource (t_kind t1) = true ∧
    t_source_type t1 = Some st ∧ t_source_id t1 = Some sid ∧
    t_source_type t2 = Some st ∧ t_source_id t2 = Some sid.

(** Trial balance: debit-normal balances count positive, the others negative. *)
Definition tsign (t : string) : Q := if DebitNormal t then 1%Q else (-1)%Q.
Definition trial_of (m : gmap AccountKey account_row) : Q :=
  Qsum (map (λ kr, tsign (k_Type kr.1) * val (acc_balance kr.2))%Q (map_to_list m)).

Record ledger_ok (s : ledger) : Prop := {
  ok_ids : ∀ k1 k2 r1 r2, accounts s !! k1 = Some r1 → accounts s !! k2 = Some r2 →
             acc_id r1 = acc_id r2 → k1 = k2;
  ok_fresh : ∀ k r, accounts s !! k = Some r → (acc_id r < next_id s)%N;
  ok_keys : ∀ k r, accounts s !! k = Some r → account_check k = true;
  ok_nonneg : ∀ k r, accounts s !! k = Some r → UserOwned (k_Type k) = true →
                (0 <= val (acc_balance r))%Q;
  ok_drift : ∀ k r, accounts s !! k = Some r →
               (val (acc_balance r) == entry_balance (k_Type k) (acc_id r) (entries s))%Q;
  ok_txn_fresh : ∀ t, t ∈ txns s → (t_id t < next_id s)%N;
  ok_entry_fresh : ∀ e, e ∈ entries s → (e_txn e < next_id s)%N ∧ (e_account e < next_id s)%N;
  ok_entry_dir : ∀ e, e ∈ entries s → e_direction e = Debit ∨ e_direction e = Credit;
  ok_balanced : ∀ t, t ∈ txns s → txn_balanced (entries s) t;
  ok_once : ∀ i j t1 t2, txns s !! i = Some t1 → txns s !! j = Some t2 →
              once_conflict t1 t2 → i = j;
  ok_trial : (trial_of (accounts s) == 0)%Q;
  ok_places : ∀ k r, accounts s !! k = Some r → two_places (acc_balance r);
}.

(** * Creating and locking accounts *)

(** [s1] is [s] with zero accounts added. *)
Record grows (s s1 : ledger) : Prop := {
  gr_keep : ∀ k r, accounts s !! k = Some r → accounts s1 !! k = Some r;
  gr_new : ∀ k r, accounts s1 !! k = Some r → accounts s !! k = None → acc_balance r = dec_zero;
  gr_txns : txns s1 = txns s;
  gr_entries : entries s1 = entries s;
  gr_holds : holds s1 = holds s;
  gr_users : users s1 = users s;
  gr_audits : audits s1 = audits s;
  gr_next : (next_id s ≤ next_id s1)%N;
}.

Lemma grows_refl s : grows s s.
Proof. split; try done; congruence. Qed.

Lemma grows_trans s1 s2 s3 : grows s1 s2 → grows s2 s3 → grows s1 s3.
Proof.
  intros [K N T E Ho U Au X] [K' N' T' E' Ho' U' Au' X']. split; try congruence; eauto; [|lia].
  intros k r H3 H1. destruct (accounts s2 !! k) as [r2|] eqn:H2; [|eauto].
  rewrite (K' _ _ H2) in H3. simplify_eq. eauto.
Qed.

Lemma entry_balance_fresh t id es :
  (∀ e, e ∈ es → (e_account e < id)%N) → (entry_balance t id es == 0)%Q.
Proof.
  unfold entry_balance. induction es as [|e es IH]; simpl; intros H; [reflexivity|].
  unfold on_account at 1. destruct (N.eqb_spec (e_account e) id) as [He|He].
  - specialize (H e ltac:(constructor)). lia.
  - apply IH. intros. apply H. by constructor.
Qed.

Lemma trial_of_insert_zero m k id :
  m !! k = None → (trial_of (<[k := mkAccount id dec_zero]> m) == trial_of m)%Q.
Proof.
  intros Hm. unfold trial_of.
  rewrite (Qsum_Permutation _ _ (Permutation_map _ (map_to_list_insert m k _ Hm))). simpl.
  rewrite dec_zero_val. lra.
Qed.

Lemma ensure1_spec k s s1 :
  ledger_ok s → ensure1 k s = (Ok (), s1) →
  ledger_ok s1 ∧ grows s s1 ∧ is_Some (accounts s1 !! k) ∧ account_check k = true.
Proof.
  intros Hok. unfold ensure1.
  destruct (negb (pg_text _)); [done|].
  destruct (account_check k) eqn:Hk; simpl; [|done].
  destruct (accounts s !! k) as [r|] eqn:Hr.
  - intros ?; simplify_eq. split_and!; eauto using grows_refl.
  - destruct (match k_OwnerUserID k with Some u => bool_decide (u ∈ users s) | None => true end); [|done].
    intros ?; simplify_eq.
    set (s1 := bump_id _).
    assert (Hacc : accounts s1 = <[k:=mkAccount (next_id s) dec_zero]> (accounts s)) by done.
    assert (Hnx : next_id s1 = N.succ (next_id s)) by done.
    split_and!; [| |rewrite Hacc, lookup_insert_eq; eauto|done].
    + split; rewrite ?Hacc, ?Hnx; try apply Hok.
      * intros k1 k2 r1 r2 H1 H2 Heq.
        apply lookup_insert_Some in H1 as [[? ?]|[? H1]], H2 as [[? ?]|[? H2]]; simplify_eq/=; try done.
        -- apply (ok_fresh _ Hok) in H2. lia.
        -- apply (ok_fresh _ Hok) in H1. lia.
        -- by eapply (ok_ids _ Hok).
      * intros k1 r1 [[? ?]|[? H1]]%lookup_insert_Some; simplify_eq/=; [lia|].
        apply (ok_fresh _ Hok) in H1. lia.
      * intros k1 r1 [[? ?]|[? H1]]%lookup_insert_Some; simplify_eq/=; [done|].
        by eapply (ok_keys _ Hok).
      * intros k1 r1 [[? ?]|[? H1]]%lookup_insert_Some Hu; simplify_eq/=.
        -- rewrite dec_zero_val. lra.
        -- by eapply (ok_nonneg _ Hok).
      * intros k1 r1 [[? ?]|[? H1]]%lookup_insert_Some; simplify_eq/=.
        -- rewrite dec_zero_val, entry_balance_fresh; [reflexivity|].
           intros e He. by apply (ok_entry_fresh _ Hok).
        -- by apply (ok_drift _ Hok).
      * intros t Ht. apply (ok_txn_fresh _ Hok) in Ht. lia.
      * intros e He. apply (ok_entry_fresh _ Hok) in He. lia.
      * rewrite trial_of_insert_zero by done. apply (ok_trial _ Hok).
      * intros k1 r1 [[? ?]|[? H1]]%lookup_insert_Some; simplify_eq/=; [apply two_places_zero|].
        by eapply (ok_places _ Hok).
    + split; try done; rewrite ?Hacc, ?Hnx.
      * intros k1 r1 H1. rewrite lookup_insert_ne; [done|]. congruence.
      * intros k1 r1 [[? ?]|[? H1]]%lookup_insert_Some Hnone; simplify_eq/=; done.
      * lia.
Qed.

Lemma EnsureAccounts_spec keys s s1 :
  ledger_ok s → EnsureAccounts keys s = (Ok (), s1) →
  ledger_ok s1 ∧ grows s s1 ∧ Forall (λ k, is_Some (accounts s1 !! k) ∧ account_check k = true) keys.
Proof.
  revert s. induction keys as [|k keys IH]; simpl; intros s Hok H.
  - unfold mret, M_ret in H. simplify_eq. split_and!; eauto using grows_refl.
  - apply M_bind_ok in H as ([] & s2 & Hk & H).
    apply ensure1_spec in Hk as (Hok2 & Hg & [r Hr] & Hc); [|done].
    apply IH in H as (Hok1 & Hg' & HF); [|done].
    split_and!; [done|by eapply grows_trans|]. constructor; [|done].
    split; [|done]. exists r. by apply (gr_keep _ _ Hg').
Qed.

(** A reference of the right shape and its key determine each other. *)
Lemma refOf_keyOf r : ref_shape r → refOf (keyOf r) = r.
Proof.
  destruct r as [t u rf]. unfold ref_shape, refOf, keyOf; simpl. intros [_ H].
  destruct (UserOwned t); simpl; unfold UserAccount, PlatformAccount.
  - destruct H as [_ ->]. done.
  - destruct H as [-> _]. done.
Qed.

Lemma select_key_keyOf r : select_key (keyOf r) = keyOf r.
Proof. unfold select_key, keyOf. destruct (UserOwned _); done. Qed.

Lemma account_check_owner k : account_check k = true →
  (UserOwned (k_Type k) = true ∧ (∃ u, k_OwnerUserID k = Some u) ∧ k_OwnerRef k = "") ∨
  (UserOwned (k_Type k) = false ∧ k_OwnerUserID k = None ∧ k_OwnerRef k ≠ "").
Proof.
  unfold account_check. rewrite !andb_true_iff, !eqb_true_iff. intros [[[_ H1] H2] _].
  destruct (k_OwnerUserID k) as [u|].
  - left. rewrite (bool_decide_eq_true_2 (is_Some (Some u))) in H1 by eauto.
    rewrite (bool_decide_eq_false_2 (Some u = None)) in H2 by done.
    symmetry in H2. apply negb_false_iff, String.eqb_eq in H2. eauto.
  - right. rewrite (bool_decide_eq_false_2 (is_Some None)) in H1 by (intros [? ?]; done).
    rewrite (bool_decide_eq_true_2 (None = None)) in H2 by done.
    symmetry in H2. apply negb_true_iff, String.eqb_neq in H2. eauto.
Qed.

Lemma keyOf_refOf k : account_check k = true → keyOf (refOf k) = k.
Proof.
  intros H. apply account_check_owner in H. destruct k as [t o rf]. unfold refOf, keyOf; simpl in *.
  destruct H as [(H1 & [u ->] & ->)|(H1 & -> & H2)]; simpl; rewrite H1; done.
Qed.

Lemma refOf_type k : ref_Type (refOf k) = k_Type k.
Proof. unfold refOf. destruct (k_OwnerUserID k); done. Qed.

(** The map handed to [nextBalances] lists exactly the locked rows. *)
Record locked_in (s : ledger) (A : gmap AccountRef lockedAccount) : Prop := {
  lk_row : ∀ r la, A !! r = Some la →
    ∃ row, accounts s !! keyOf r = Some row ∧ refOf (keyOf r) = r ∧
           la = mkLocked (acc_id row) (ref_Type r) (acc_balance row) }.

Lemma locked_typed s A : locked_in s A → typed A.
Proof. intros [H] r la Hr. apply H in Hr as (row & _ & _ & ->). done. Qed.

Lemma locked_injective s A : ledger_ok s → locked_in s A → ids_injective A.
Proof.
  intros Hok [H] r1 r2 a1 a2 H1 H2 Heq.
  apply H in H1 as (row1 & Hr1 & Hk1 & ->), H2 as (row2 & Hr2 & Hk2 & ->). simpl in Heq.
  rewrite <- Hk1, <- Hk2. f_equal. by eapply (ok_ids _ Hok).
Qed.

Lemma lockAccounts_spec refs s A s1 :
  ledger_ok s → lockAccounts refs s = (Ok A, s1) →
  ledger_ok s1 ∧ grows s s1 ∧ locked_in s1 A.
Proof.
  intros Hok H. unfold lockAccounts in H.
  apply M_bind_ok in H as ([] & s2 & He & H). apply map_err_ok in He.
  apply EnsureAccounts_spec in He as (Hok2 & Hg & HF); [|done].
  apply M_bind_ok in H as (rows & s3 & Hl & H).
  unfold LockAccounts, gets in Hl. simplify_eq.
  destruct (Nat.eqb _ _); [|done]. unfold mret, M_ret in H. simplify_eq.
  split_and!; [done..|]. split. intros r la Hr.
  apply (assign_lookup (λ kr, refOf kr.1)
    (λ kr, mkLocked (acc_id kr.2) (k_Type kr.1) (acc_balance kr.2))) in Hr
    as [Hr|((k & row) & Hin & Hk & Hla)]; [done|]. simpl in *. subst.
  apply list_elem_of_omap in Hin as (k' & _ & Hk').
  apply fmap_Some in Hk' as (row' & Hrow & ?). simplify_eq.
  pose proof (ok_keys _ Hok2 _ _ Hrow) as Hc.
  exists row'. rewrite keyOf_refOf, refOf_type by done. done.
Qed.

(** * Writing balances *)

Definition new_row (m : gmap uuid dec) (r : account_row) : account_row :=
  match m !! acc_id r with Some b => mkAccount (acc_id r) b | None => r end.

Lemma set_accounts_compose f g s : set_accounts f (set_accounts g s) = set_accounts (λ m, f (g m)) s.
Proof. done. Qed.

Lemma new_row_insert id b m r :
  m !! id = None →
  new_row (<[id:=b]> m) r = new_row m (if (acc_id r =? id)%N then mkAccount (acc_id r) b else r).
Proof.
  intros Hm. unfold new_row. destruct (N.eqb_spec (acc_id r) id) as [->|Hne]; simpl.
  - by rewrite lookup_insert_eq, Hm.
  - by rewrite lookup_insert_ne by done.
Qed.

Lemma set_balances_loop_spec l s s1 :
  NoDup l.*1 → set_balances_loop l s = (Ok (), s1) →
  s1 = set_accounts (fmap (new_row (list_to_map l))) s.
Proof.
  revert s. induction l as [|[id b] l IH]; simpl; intros s Hnd H.
  - unfold mret, M_ret in H. simplify_eq. destruct s1 as [a ? ? ? ? ? ?]. unfold set_accounts; simpl.
    f_equal. rewrite <- (map_fmap_id a) at 1. apply map_fmap_ext. intros k r _.
    unfold new_row. by rewrite lookup_empty.
  - apply NoDup_cons in Hnd as [Hid Hnd].
    apply M_bind_ok in H as ([] & s2 & Hu & H). apply IH in H as ->; [|done].
    unfold update_balance in Hu. repeat case_match; simplify_eq.
    rewrite set_accounts_compose. unfold set_accounts. f_equal.
    unfold update_where. rewrite <- map_fmap_compose. apply map_fmap_ext. intros k r _. simpl.
    rewrite new_row_insert; [done|]. by apply not_elem_of_list_to_map_1.
Qed.

Lemma SetBalances_spec m s s1 :
  SetBalances m s = (Ok (), s1) → s1 = set_accounts (fmap (new_row m)) s.
Proof.
  unfold SetBalances. intros H.
  assert (HP : merge_sort id_le (map_to_list m) ≡ₚ map_to_list m) by apply merge_sort_Permutation.
  assert (Hnd : NoDup (merge_sort id_le (map_to_list m)).*1).
  { rewrite HP. apply NoDup_fst_map_to_list. }
  apply set_balances_loop_spec in H as ->; [|done].
  by rewrite (list_to_map_proper _ _ Hnd HP), list_to_map_to_list.
Qed.

(** * Posting *)

(** Cached balance under a key; an account not yet created counts as zero. *)
Definition bal (s : ledger) (k : AccountKey) : Q :=
  match accounts s !! k with Some r => val (acc_balance r) | None => 0 end.

Definition stored_entry (id : uuid) (A : gmap AccountRef lockedAccount) (l : Leg) : entry_row :=
  let e := entry_of A l in mkEntry id (e_account e) (e_direction e) (e_amount e).

Lemma InsertTransaction_spec t es s id s1 :
  InsertTransaction t es s = (Ok id, s1) →
  let t' := mkTxn id (t_kind t) (t_source_type t) (t_source_id t) (t_memo t) (t_actor_kind t) (t_actor_id t) in
  id = next_id s ∧
  s1 = add_txn t' (map (λ e, mkEntry id (e_account e) (e_direction e) (e_amount e)) es) (bump_id s) ∧
  source_once_conflict t' (txns s) = false.
Proof.
  unfold InsertTransaction. intros H. repeat case_match; simplify_eq. done.
Qed.

(** The deltas of the entries a posting stores on a locked account are the
    deltas of the legs on its reference. *)
Lemma stored_entries_balance s A legs id k row :
  ledger_ok s → locked_in s A → (∀ l, l ∈ legs → is_Some (A !! leg_Account l)) →
  accounts s !! k = Some row →
  (entry_balance (k_Type k) (acc_id row) (map (stored_entry id A) legs) == delta_on (refOf k) legs)%Q.
Proof.
  intros Hok HL HA Hk. pose proof (ok_keys _ Hok _ _ Hk) as Hc.
  unfold entry_balance, delta_on.
  induction legs as [|l legs IH]; simpl; [reflexivity|].
  assert (HA' : ∀ l', l' ∈ legs → is_Some (A !! leg_Account l')) by (intros; apply HA; by constructor).
  specialize (IH HA'). destruct (HA l) as [la Hla]; [constructor|].
  assert (Hacc : e_account (stored_entry id A l) = la_ID la).
  { unfold stored_entry, entry_of. by rewrite Hla. }
  unfold on_account at 1, on_ref at 1. rewrite Hacc.
  destruct (lk_row _ _ HL _ _ Hla) as (row' & Hrow' & Hrk & ->). simpl.
  destruct (decide (leg_Account l = refOf k)) as [Heq|Hne].
  - rewrite bool_decide_eq_true_2 by done.
    rewrite Heq, keyOf_refOf, Hk in Hrow' by done. simplify_eq. rewrite N.eqb_refl. simpl.
    rewrite IH. unfold entry_delta at 1, leg_delta at 2. rewrite Heq, refOf_type. reflexivity.
  - rewrite bool_decide_eq_false_2 by done.
    destruct (N.eqb_spec (acc_id row') (acc_id row)) as [He|He]; [|exact IH].
    exfalso. apply Hne. rewrite <- Hrk. f_equal. by eapply (ok_ids _ Hok).
Qed.

(** What a successful posting did. *)
Record posted (c : ctx) (p : Posting) (s s' : ledger) (id : uuid) : Prop := {
  po_ok : ledger_ok s';
  po_txns : txns s' = (txns s ++ [mkTxn id (p_Kind p) (t_source_type (txn_of c p))
                         (t_source_id (txn_of c p)) (p_Memo p)
                         (t_actor_kind (txn_of c p)) (t_actor_id (txn_of c p))])%list;
  po_bal : ∀ k, account_check k = true → (bal s' k == bal s k + delta_on (refOf k) (p_Legs p))%Q;
  po_entries : ∃ es, entries s' = (entries s ++ es)%list;
  po_keep : ∀ k, is_Some (accounts s !! k) → is_Some (accounts s' !! k);
  po_holds : holds s' = holds s;
  po_users : users s' = users s;
  po_audits : audits s' = audits s;
  po_next : (next_id s < next_id s')%N;
  po_id : (next_id s ≤ id < next_id s')%N;
}.

Lemma sum_direction_val d es :
  (val (sum_direction d es) ==
   Qsum (map (λ e, if String.eqb (e_direction e) d then val (e_amount e) else 0) es))%Q.
Proof.
  induction es as [|e es IH]; simpl; [apply dec_zero_val|].
  destruct (String.eqb _ d); [rewrite dec_add_val, IH; lra|rewrite IH; lra].
Qed.

Lemma entries_of_fresh id es : (∀ e, e ∈ es → (e_txn e < id)%N) → entries_of id es = [].
Proof.
  unfold entries_of. induction es as [|e es IH]; simpl; intros H; [done|].
  destruct (N.eqb_spec (e_txn e) id) as [He|He].
  - specialize (H e ltac:(constructor)). lia.
  - apply IH. intros. apply H. by constructor.
Qed.

Lemma entries_of_stored id A legs : entries_of id (map (stored_entry id A) legs) = map (stored_entry id A) legs.
Proof.
  unfold entries_of. induction legs as [|l legs IH]; simpl; [done|].
  rewrite N.eqb_refl. by rewrite IH.
Qed.

Lemma entries_of_stored_other id id' A legs :
  id ≠ id' → entries_of id (map (stored_entry id' A) legs) = [].
Proof.
  intros Hne. unfold entries_of. induction legs as [|l legs IH]; simpl; [done|].
  destruct (N.eqb_spec id' id); [congruence|done].
Qed.

Lemma stored_balanced id A legs :
  balanced_legs legs →
  (val (sum_direction Debit (map (stored_entry id A) legs)) ==
   val (sum_direction Credit (map (stored_entry id A) legs)))%Q.
Proof.
  unfold balanced_legs. rewrite !sum_direction_val, !map_map. intros H.
  transitivity (Qsum (map leg_debit legs)); [|rewrite H]; apply Qsum_map_ext; intros l _;
    unfold leg_debit, leg_credit, stored_entry, entry_of; simpl; reflexivity.
Qed.

Lemma new_row_id out r : acc_id (new_row out r) = acc_id r.
Proof. unfold new_row. destruct (out !! _); done. Qed.

(** Each locked row gets its old balance plus the legs on it. *)
Lemma new_row_balance s A legs out k r :
  ledger_ok s → locked_in s A → nextBalances A legs = Ok out → accounts s !! k = Some r →
  (val (acc_balance (new_row out r)) == val (acc_balance r) + delta_on (refOf k) legs)%Q ∧
  (UserOwned (k_Type k) = true → (0 <= val (acc_balance (new_row out r)))%Q).
Proof.
  intros Hok HL Hn Hk. pose proof (ok_keys _ Hok _ _ Hk) as Hc.
  apply nextBalances_spec in Hn as (HA & H1 & H2);
    [|by eapply locked_typed|by eapply locked_injective].
  unfold new_row. destruct (decide (refOf k ∈ map leg_Account legs)) as [Hin|Hnin].
  - pose proof Hin as (l & Hl & Hlin)%list_elem_of_fmap.
    destruct (HA l Hlin) as [la Hla]. rewrite <- Hl in Hla.
    destruct (H1 _ _ Hla Hin) as (b & Hb & Hv & Hu).
    destruct (lk_row _ _ HL _ _ Hla) as (row & Hrow & _ & ->).
    rewrite keyOf_refOf in Hrow by done. simplify_eq/=. rewrite Hb. simpl.
    split; [done|]. by rewrite refOf_type in Hu.
  - rewrite H2.
    + rewrite delta_on_none by done. split; [lra|]. intros. by eapply (ok_nonneg _ Hok).
    + intros r' la Hla Hin Heq. apply Hnin.
      destruct (lk_row _ _ HL _ _ Hla) as (row & Hrow & Hrk & ->). simpl in Heq.
      assert (keyOf r' = k) as <- by (by eapply (ok_ids _ Hok)). by rewrite Hrk.
Qed.

Lemma entry_balance_app t id es1 es2 :
  (entry_balance t id (es1 ++ es2) == entry_balance t id es1 + entry_balance t id es2)%Q.
Proof. unfold entry_balance. rewrite List.filter_app, map_app. apply Qsum_app. Qed.

Lemma once_conflict_detect t l i t1 :
  source_once_conflict t l = false → l !! i = Some t1 → once_conflict t1 t → False.
Proof.
  intros Hs Hi (st & sid & Hk & Ho & H1 & H2 & H3 & H4). unfold source_once_conflict in Hs.
  rewrite H3, H4, <- Hk, Ho in Hs. simpl in Hs.
  assert (existsb (same_source (t_kind t1) st sid) l = true); [|congruence].
  apply existsb_exists. exists t1. split.
  - apply list_elem_of_In, list_elem_of_lookup. eauto.
  - unfold same_source. rewrite H1, H2, String.eqb_refl, !bool_decide_eq_true_2 by done. done.
Qed.

Lemma once_conflict_sym t1 t2 : once_conflict t1 t2 → once_conflict t2 t1.
Proof. intros (st & sid & Hk & Ho & ?). exists st, sid. rewrite <- Hk. tauto. Qed.

(** A sum over a table in which only the row under [k] contributes. *)
Lemma Qsum_single {V} (m : gmap AccountKey V) (f : AccountKey → Q) k v q :
  m !! k = Some v → (f k == q)%Q → (∀ k', k' ≠ k → is_Some (m !! k') → (f k' == 0)%Q) →
  (Qsum (map (λ kr, f kr.1) (map_to_list m)) == q)%Q.
Proof.
  intros Hk Hq H0. rewrite <- (insert_delete_id m k v Hk).
  rewrite (Qsum_Permutation _ _ (Permutation_map _
    (map_to_list_insert (delete k m) k v (lookup_delete_eq m k)))). simpl.
  rewrite Hq, (Qsum_map_ext _ (λ _, 0%Q)).
  - assert (Hz : ∀ l : list (AccountKey * V), (Qsum (map (λ _, 0%Q) l) == 0)%Q).
    { induction l; simpl; lra. }
    rewrite Hz. lra.
  - intros [k' v'] Hin. simpl. apply elem_of_map_to_list, lookup_delete_Some in Hin as [? Hin].
    apply H0; eauto.
Qed.

(** Summed over the table, the signed deltas of the legs are debits minus
    credits. *)
Lemma trial_delta s A legs :
  ledger_ok s → locked_in s A → Forall leg_ok legs →
  (∀ l, l ∈ legs → is_Some (A !! leg_Account l)) →
  (Qsum (map (λ kr, tsign (k_Type kr.1) * delta_on (refOf kr.1) legs)%Q (map_to_list (accounts s))) ==
   Qsum (map leg_debit legs) - Qsum (map leg_credit legs))%Q.
Proof.
  intros Hok HL HF. induction HF as [|l legs Hl HF IH]; intros HA.
  - simpl. rewrite (Qsum_map_ext _ (λ _, 0%Q)).
    + induction (map_to_list (accounts s)); simpl; lra.
    + intros kr _. unfold delta_on. simpl. lra.
  - destruct (HA l) as [la Hla]; [constructor|].
    destruct (lk_row _ _ HL _ _ Hla) as (row & Hrow & Hrk & _).
    rewrite (Qsum_map_add _ (λ kr, tsign (k_Type kr.1) * (if on_ref (refOf kr.1) l then leg_delta l else 0%Q))%Q
               (λ kr, tsign (k_Type kr.1) * delta_on (refOf kr.1) legs)%Q).
    + rewrite IH by (intros; apply HA; by constructor).
      rewrite (Qsum_single (accounts s)
        (λ k, tsign (k_Type k) * (if on_ref (refOf k) l then leg_delta l else 0%Q))%Q
        (keyOf (leg_Account l)) row (leg_debit l - leg_credit l)).
      * simpl. lra.
      * done.
      * rewrite Hrk. unfold on_ref. rewrite bool_decide_eq_true_2 by done.
        destruct Hl as (_ & Hdir & _). unfold leg_delta, leg_debit, leg_credit, signedDelta, tsign.
        rewrite <- (refOf_type (keyOf _)), Hrk.
        destruct (DebitNormal _), Hdir as [->| ->]; simpl; rewrite ?dec_neg_val; lra.
      * intros k Hne [r Hr]. unfold on_ref. rewrite bool_decide_eq_false_2; [lra|].
        intros Heq. apply Hne. rewrite Heq, keyOf_refOf; [done|]. by eapply (ok_keys _ Hok).
    + intros kr _. unfold delta_on. simpl. destruct (on_ref _ l); simpl; lra.
Qed.

Lemma trial_post s A legs out :
  ledger_ok s → locked_in s A → nextBalances A legs = Ok out → Forall leg_ok legs → balanced_legs legs →
  (trial_of (new_row out <$> accounts s) == 0)%Q.
Proof.
  intros Hok HL Hn HF Hb. unfold trial_of. rewrite map_to_list_fmap.
  pose proof (proj1 (nextBalances_spec A legs out (locked_typed _ _ HL)
                       (locked_injective _ _ Hok HL) Hn)) as HA.
  rewrite <- list_fmap_compose.
  rewrite (Qsum_map_add _ (λ kr, tsign (k_Type kr.1) * val (acc_balance kr.2))%Q
             (λ kr, tsign (k_Type kr.1) * delta_on (refOf kr.1) legs)%Q).
  - rewrite (trial_delta s A) by done. pose proof (ok_trial _ Hok) as Ht. unfold trial_of in Ht.
    rewrite Ht. unfold balanced_legs in Hb. lra.
  - intros [k r] Hin. apply elem_of_map_to_list in Hin. simpl.
    rewrite (proj1 (new_row_balance s A legs out k r Hok HL Hn Hin)). lra.
Qed.

(** Legs of whole cents keep balances in whole cents. *)
Lemma delta_on_places r legs :
  Forall leg_ok legs → ∃ z, (delta_on r legs == inject_Z z * (1 # 100))%Q.
Proof.
  unfold delta_on. induction 1 as [|l legs (_ & _ & _ & Hl) HF [z IH]]; simpl; [by exists 0|].
  destruct (on_ref r l); simpl; [|by exists z]. unfold two_places in Hl.
  assert (Hd : (leg_delta l == val (leg_Amount l))%Q ∨ (leg_delta l == - val (leg_Amount l))%Q).
  { unfold leg_delta, signedDelta. repeat case_match; rewrite ?dec_neg_val; [left|right|left|right]; reflexivity. }
  destruct Hd as [Hd|Hd];
    [exists (cents_of (leg_Amount l) + z)|exists (- cents_of (leg_Amount l) + z)];
    rewrite IH, Hd, Hl, inject_Z_plus, ?inject_Z_opp; ring.
Qed.

Lemma new_row_places s A legs out k r :
  ledger_ok s → locked_in s A → Forall leg_ok legs → nextBalances A legs = Ok out →
  accounts s !! k = Some r → two_places (acc_balance (new_row out r)).
Proof.
  intros Hok HL HF Hn Hr. destruct (delta_on_places (refOf k) legs HF) as [z Hz].
  destruct (new_row_balance s A legs out k r Hok HL Hn Hr) as [Hb _].
  pose proof (ok_places _ Hok _ _ Hr) as Hp. unfold two_places in Hp.
  apply (two_places_intro _ (cents_of (acc_balance r) + z)).
  rewrite Hb, Hz, Hp, inject_Z_plus. ring.
Qed.

(** Writing the balances of a validated posting and storing its transaction
    keeps the invariant. *)
Lemma post_state_ok s A legs out t :
  ledger_ok s → locked_in s A → nextBalances A legs = Ok out →
  Forall leg_ok legs → balanced_legs legs → (2 ≤ length legs)%nat →
  t_id t = next_id s → source_once_conflict t (txns s) = false →
  ledger_ok (add_txn t (map (stored_entry (next_id s) A) legs)
               (bump_id (set_accounts (fmap (new_row out)) s))).
Proof.
  intros Hok HL Hn HF Hb Hlen Hid Honce.
  pose proof (proj1 (nextBalances_spec A legs out (locked_typed _ _ HL)
                       (locked_injective _ _ Hok HL) Hn)) as HA.
  set (id := next_id s) in *. set (es := map (stored_entry id A) legs).
  assert (Hold : ∀ e, e ∈ entries s → (e_txn e < id)%N) by (intros e He; by apply (ok_entry_fresh _ Hok)).
  assert (Hlk : ∀ k r, (new_row out <$> accounts s) !! k = Some r →
                  ∃ r0, accounts s !! k = Some r0 ∧ r = new_row out r0).
  { intros k r Hk. rewrite lookup_fmap in Hk. apply fmap_Some in Hk as (r0 & ? & ?). eauto. }
  split; simpl.
  - intros k1 k2 r1 r2 (r1' & H1 & ->)%Hlk (r2' & H2 & ->)%Hlk. rewrite !new_row_id.
    by eapply (ok_ids _ Hok).
  - intros k r (r0 & Hr & ->)%Hlk. rewrite new_row_id. apply (ok_fresh _ Hok) in Hr. lia.
  - intros k r (r0 & Hr & ->)%Hlk. by eapply (ok_keys _ Hok).
  - intros k r (r0 & Hr & ->)%Hlk. by eapply (new_row_balance s A).
  - intros k r (r0 & Hr & ->)%Hlk. rewrite new_row_id, entry_balance_app.
    rewrite (proj1 (new_row_balance s A legs out k r0 Hok HL Hn Hr)).
    unfold es. rewrite (stored_entries_balance s A) by done.
    rewrite (ok_drift _ Hok _ _ Hr). reflexivity.
  - intros t' [Ht|Ht%list_elem_of_singleton]%elem_of_app; [|subst; unfold id in *; lia].
    apply (ok_txn_fresh _ Hok) in Ht. unfold id in *. lia.
  - intros e [He|He]%elem_of_app.
    + apply (ok_entry_fresh _ Hok) in He. unfold id in *. lia.
    + apply list_elem_of_fmap in He as (l & -> & Hl). simpl. split; [unfold id; lia|].
      destruct (HA l Hl) as [la Hla]. unfold entry_of. rewrite Hla. simpl.
      destruct (lk_row _ _ HL _ _ Hla) as (row & Hrow & _ & ->). simpl.
      apply (ok_fresh _ Hok) in Hrow. unfold id in *. lia.
  - intros e [He|He]%elem_of_app; [by apply (ok_entry_dir _ Hok)|].
    apply list_elem_of_fmap in He as (l & -> & Hl). simpl.
    rewrite Forall_forall in HF. by destruct (HF l Hl) as (_ & ? & _).
  - intros t' Ht. unfold txn_balanced.
    assert (Happ : entries_of (t_id t') (entries s ++ es) =
                   (entries_of (t_id t') (entries s) ++ entries_of (t_id t') es)%list).
    { unfold entries_of. apply List.filter_app. }
    rewrite Happ. apply elem_of_app in Ht as [Ht|Ht%list_elem_of_singleton]; [|subst t'].
    + unfold es. rewrite (entries_of_stored_other (t_id t') id).
      * rewrite app_nil_r. by apply (ok_balanced _ Hok).
      * apply (ok_txn_fresh _ Hok) in Ht. unfold id. lia.
    + rewrite Hid, (entries_of_fresh id (entries s)), app_nil_l by done.
      unfold es. rewrite entries_of_stored, length_map. split; [done|]. by apply stored_balanced.
  - intros i j t1 t2 H1 H2 Hc.
    apply lookup_app_Some in H1 as [H1|[Hi H1]], H2 as [H2|[Hj H2]].
    + by eapply (ok_once _ Hok).
    + apply list_lookup_singleton_Some in H2 as [Hj' <-].
      by eapply once_conflict_detect in Hc.
    + apply list_lookup_singleton_Some in H1 as [Hi' <-].
      apply once_conflict_sym in Hc. by eapply once_conflict_detect in Hc.
    + apply list_lookup_singleton_Some in H1 as [Hi' _], H2 as [Hj' _]. lia.
  - by eapply (trial_post s A).
  - intros k r (r0 & Hr & ->)%Hlk. by eapply (new_row_places s A).
Qed.

Lemma post_spec c p s id s' :
  ledger_ok s → posting_ok p → post c p s = (Ok id, s') → posted c p s s' id.
Proof.
  intros Hok (HF & Hb & Hlen) H. unfold post in H.
  apply M_bind_ok in H as (ex & s0 & Hex & H).
  assert (s0 = s) as ->.
  { destruct (_ && _); unfold TransactionExists, gets, mret, M_ret in Hex; congruence. }
  destruct ex; [done|].
  apply M_bind_ok in H as (A & s1 & HA & H).
  apply lockAccounts_spec in HA as (Hok1 & Hg & HL); [|done].
  apply M_bind_ok in H as (out & s2 & Hn & H). unfold lift in Hn. simplify_eq.
  apply M_bind_ok in H as ([] & s3 & Hs & H). apply map_err_ok, SetBalances_spec in Hs as ->.
  apply map_err_ok, InsertTransaction_spec in H as (-> & -> & Honce). simpl in Honce.
  rename s2 into s1. rename H0 into Hn. rewrite map_map.
  pose proof (gr_next _ _ Hg).
  split; simpl; try (rewrite ?(gr_txns _ _ Hg), ?(gr_holds _ _ Hg), ?(gr_users _ _ Hg), ?(gr_audits _ _ Hg); done || lia).
  - apply (post_state_ok s1); try done.
  - rewrite (gr_txns _ _ Hg). unfold txn_of. destruct (actorOf c). done.
  - intros k Hc. unfold bal at 1. simpl. rewrite lookup_fmap.
    destruct (accounts s1 !! k) as [r|] eqn:Hr; simpl.
    + rewrite (proj1 (new_row_balance s1 A _ _ _ _ Hok1 HL Hn Hr)).
      unfold bal. destruct (accounts s !! k) as [r0|] eqn:Hr0.
      * rewrite (gr_keep _ _ Hg _ _ Hr0) in Hr. by simplify_eq.
      * rewrite (gr_new _ _ Hg _ _ Hr Hr0), dec_zero_val. reflexivity.
    + unfold bal. destruct (accounts s !! k) as [r0|] eqn:Hr0.
      { apply (gr_keep _ _ Hg) in Hr0. congruence. }
      rewrite delta_on_none; [lra|]. intros (l & Hl & Hin)%list_elem_of_fmap.
      destruct (proj1 (nextBalances_spec A _ _ (locked_typed _ _ HL)
                  (locked_injective _ _ Hok1 HL) Hn) l Hin) as [la Hla].
      rewrite <- Hl in Hla. destruct (lk_row _ _ HL _ _ Hla) as (row & Hrow & _).
      rewrite keyOf_refOf in Hrow by done. congruence.
  - rewrite (gr_entries _ _ Hg). eauto.
  - intros k [r Hr]. apply (gr_keep _ _ Hg) in Hr. rewrite lookup_fmap, Hr. simpl. eauto.
Qed.
End Inv.
