(* ===== verification/LedgerOps.v ===== *)
(** Theorems about the ledger's operations: holding, releasing and capturing
    balance for an order, settling an order, manual adjustment, and the
    invariants of every reachable ledger. *)
From Stdlib Require Import ZArith QArith Qabs Lqa Lia Sorting.Permutation.
From stdpp Require Import base tactics list gmap strings sorting.
From S2P Require Import Prelude Decimal GoString Money LedgerTypes LedgerFacts Ledger LedgerInv.
#[local] Open Scope string_scope.
#[local] Open Scope Z_scope.

Section Ops.
Context `{DL : DecimalLib}.

Lemma postChecked_spec c p s id s' :
  ledger_ok s → postChecked c p s = (Ok id, s') → posted c p s s' id.
Proof.
  intros Hok H. unfold postChecked in H. apply M_bind_ok in H as (u & s1 & Hv & H).
  unfold lift in Hv. simplify_eq. apply validatePosting_ok in H0 as Hp. by apply post_spec.
Qed.

(** * Held amounts *)

Definition held_part (u : uuid) (h : hold_row) : Q :=
  if (h_user h =? u)%N && String.eqb (h_status h) HoldHeld then val (h_amount h) else 0%Q.

Definition held_sum (u : uuid) (m : gmap uuid hold_row) : Q :=
  Qsum (map (λ oh, held_part u oh.2) (map_to_list m)).

Lemma held_sum_insert u m o h :
  m !! o = None → (held_sum u (<[o:=h]> m) == held_part u h + held_sum u m)%Q.
Proof.
  intros Hm. unfold held_sum.
  rewrite (Qsum_Permutation _ _ (Permutation_map _ (map_to_list_insert m o h Hm))). reflexivity.
Qed.

Lemma held_sum_update u m o h h' :
  m !! o = Some h → (held_sum u (<[o:=h']> m) + held_part u h == held_part u h' + held_sum u m)%Q.
Proof.
  intros Hm. rewrite <- (insert_delete_id m o h Hm) at 2.
  rewrite <- insert_delete_eq.
  rewrite !held_sum_insert by apply lookup_delete_eq. lra.
Qed.

Lemma held_amounts_sum u s :
  (val (foldr dec_add dec_zero (held_amounts u s)) == held_sum u (holds s))%Q.
Proof.
  unfold held_amounts, held_sum. induction (map_to_list (holds s)) as [|oh l IH]; simpl.
  - apply dec_zero_val.
  - unfold held_part at 1. destruct (_ && _); simpl; [rewrite dec_add_val, IH; lra|rewrite IH; lra].
Qed.

Definition hold_key (u : uuid) : AccountKey := mkKey UserBalanceHold (Some u) "".
Definition balance_key (u : uuid) : AccountKey := mkKey UserBalance (Some u) "".

Lemma hold_key_check u : account_check (hold_key u) = true.
Proof. reflexivity. Qed.
Lemma balance_key_check u : account_check (balance_key u) = true.
Proof. reflexivity. Qed.

(** What the CHECKs on [balance_holds] and the posting of the hold guarantee of
    a row. *)
Definition hold_row_ok (h : hold_row) : Prop :=
  h_user h ≠ uuid_Nil ∧ (0 < val (h_amount h))%Q ∧ two_places (h_amount h) ∧
  numeric_fits (h_amount h) = true.

(** The hold table agrees with the hold accounts. *)
Record holds_ok (s : ledger) : Prop := {
  ho_ids : ∀ o1 o2 h1 h2, holds s !! o1 = Some h1 → holds s !! o2 = Some h2 → h_id h1 = h_id h2 → o1 = o2;
  ho_fresh : ∀ o h, holds s !! o = Some h → (h_id h < next_id s)%N;
  ho_sum : ∀ u, (bal s (hold_key u) == held_sum u (holds s))%Q;
  ho_row : ∀ o h, holds s !! o = Some h → o ≠ uuid_Nil ∧ hold_row_ok h;
}.

Lemma posted_holds_ok c p s s' id :
  posted c p s s' id → holds_ok s →
  (∀ u, (delta_on (UserAccount UserBalanceHold u) (p_Legs p) == 0)%Q) → holds_ok s'.
Proof.
  intros HP [HI HFr HS HR] Hd. split; rewrite ?(po_holds _ _ _ _ _ HP); [done| | |done].
  - intros o h Hh. apply HFr in Hh. pose proof (po_next _ _ _ _ _ HP). lia.
  - intros u. rewrite (po_bal _ _ _ _ _ HP) by apply hold_key_check.
    change (refOf (hold_key u)) with (UserAccount UserBalanceHold u).
    rewrite Hd, HS. lra.
Qed.

(** Delta of a two-leg transfer between two accounts of the same user. *)
Lemma delta_on_cons r l legs :
  (delta_on r (l :: legs) == (if on_ref r l then leg_delta l else 0%Q) + delta_on r legs)%Q.
Proof. unfold delta_on. simpl. destruct (on_ref r l); simpl; lra. Qed.

Lemma delta_on_nil r : (delta_on r [] == 0)%Q.
Proof. reflexivity. Qed.

Lemma on_ref_true r l : leg_Account l = r → on_ref r l = true.
Proof. intros <-. unfold on_ref. by rewrite bool_decide_eq_true_2. Qed.
Lemma on_ref_false r l : leg_Account l ≠ r → on_ref r l = false.
Proof. intros H. unfold on_ref. by rewrite bool_decide_eq_false_2. Qed.

(** Change of user [v]'s account [t] when user [u] moves an amount from
    account [a] (debited) to account [b] (credited). *)
Lemma transfer_delta a b u amt t v :
  DebitNormal a = false → DebitNormal b = false → a ≠ b →
  (delta_on (UserAccount t v)
     [mkLeg (UserAccount a u) Debit amt; mkLeg (UserAccount b u) Credit amt] ==
   (if decide (u = v) then (if decide (t = a) then - val amt else if decide (t = b) then val amt else 0) else 0)%Q)%Q.
Proof.
  intros Ha Hb Hab. rewrite !delta_on_cons, delta_on_nil.
  assert (D1 : (leg_delta (mkLeg (UserAccount a u) Debit amt) == - val amt)%Q).
  { unfold leg_delta, signedDelta. simpl. rewrite Ha. apply dec_neg_val. }
  assert (D2 : (leg_delta (mkLeg (UserAccount b u) Credit amt) == val amt)%Q).
  { unfold leg_delta, signedDelta. simpl. rewrite Hb. reflexivity. }
  assert (F1 : on_ref (UserAccount t v) (mkLeg (UserAccount a u) Debit amt) = bool_decide (u = v ∧ t = a)).
  { unfold on_ref, UserAccount; simpl. apply bool_decide_ext. split; [by intros [=]|by intros [-> ->]]. }
  assert (F2 : on_ref (UserAccount t v) (mkLeg (UserAccount b u) Credit amt) = bool_decide (u = v ∧ t = b)).
  { unfold on_ref, UserAccount; simpl. apply bool_decide_ext. split; [by intros [=]|by intros [-> ->]]. }
  rewrite F1, F2.
  repeat case_decide; subst; repeat case_bool_decide; first [lra | naive_solver].
Qed.

(** * Holding balance for an order *)

Lemma InsertHold_spec orders o h s h' s' :
  InsertHold orders o h s = (Ok h', s') →
  holds s !! o = None ∧
  ((0 < val (h_amount h))%Q ∧ two_places (h_amount h) ∧ numeric_fits (h_amount h) = true) ∧
  h' = mkHold (next_id s) (h_user h) (h_amount h) (h_status h) (h_hold_txn h) (h_capture_txn h) (h_release_txn h) ∧
  s' = bump_id (set_holds (<[o := h']>) s).
Proof.
  unfold InsertHold. destruct (Check _) eqn:HC; [|done]. apply Check_ok in HC.
  destruct (negb (_ && _)) eqn:Ha; [done|].
  destruct (bool_decide (is_Some (holds s !! o))) eqn:Hb; [done|]. destruct (negb (bool_decide _ && _)); [done|]. intros ?; simplify_eq.
  apply bool_decide_eq_false in Hb. split; [destruct (holds s !! o); [exfalso; eauto|done]|].
  split; [|done]. reflect_bools. by dec_reflect.
Qed.

Lemma ledger_ok_holds f s : ledger_ok s → ledger_ok (set_holds f s).
Proof. intros []. by split. Qed.

Lemma ledger_ok_bump s : ledger_ok s → ledger_ok (bump_id s).
Proof.
  intros [? Hf ? ? ? Ht He ? ? ? ? ?]. split; try done; simpl.
  - intros k r Hr. apply Hf in Hr. lia.
  - intros t Hin. apply Ht in Hin. lia.
  - intros e Hin. apply He in Hin. lia.
Qed.

(** Effect of a successful hold. *)
Record held (i : HoldInput) (h : hold_row) (s s' : ledger) : Prop := {
  hd_ok : ledger_ok s';
  hd_hok : holds_ok s';
  hd_new : holds s !! hi_OrderID i = None;
  hd_row : holds s' = <[hi_OrderID i := h]> (holds s);
  hd_h : h_user h = hi_UserID i ∧ h_amount h = hi_Amount i ∧ h_status h = HoldHeld;
  hd_bal : ∀ k, account_check k = true →
    (bal s' k == bal s k + delta_on (refOf k) (p_Legs (hold_posting i)))%Q;
}.

Lemma hold_posting_ids c i s id s' :
  postChecked c (hold_posting i) s = (Ok id, s') → hi_OrderID i ≠ uuid_Nil ∧ hi_UserID i ≠ uuid_Nil.
Proof.
  unfold postChecked. intros (u & s1 & Hv & _)%M_bind_ok. unfold lift in Hv. injection Hv as Hv _.
  pose proof (validatePosting_ok _ _ Hv) as (HF & _). simpl in HF. split.
  - unfold validatePosting in Hv. apply result_bind_ok in Hv as (? & _ & Hv).
    apply result_bind_ok in Hv as (? & Hr & _). apply reject_ok in Hr. simpl in Hr.
    by destruct (N.eqb_spec (hi_OrderID i) uuid_Nil).
  - apply Forall_cons in HF as [((_ & Hs) & _) _]. by destruct Hs.
Qed.

Lemma holdForOrder_spec orders c i s h s' :
  ledger_ok s → holds_ok s → holdForOrder orders c i s = (Ok h, s') → held i h s s'.
Proof.
  intros Hok Hho H. unfold holdForOrder in H. apply M_bind_ok in H as (f & s1 & Hf & H).
  unfold HoldByOrder, gets in Hf. simplify_eq.
  destruct (holds s1 !! hi_OrderID i) as [?|] eqn:Ho; [done|].
  apply M_bind_ok in H as (id & s2 & Hp & H). apply map_err_ok in Hp, H.
  apply postChecked_spec in Hp as HP; [|done].
  apply InsertHold_spec in H as (Hn & Hamt & Hh & ->).
  assert (Hids : hi_OrderID i ≠ uuid_Nil ∧ hi_UserID i ≠ uuid_Nil) by (by eapply hold_posting_ids).
  assert (Hholds : holds s2 = holds s1) by apply HP.
  split; simpl; try done; rewrite ?Hholds; try done.
  - apply ledger_ok_bump, ledger_ok_holds, HP.
  - destruct Hho as [HI HFr HS HR]. pose proof (po_next _ _ _ _ _ HP) as Hnx.
    split; simpl; rewrite ?Hholds.
    + intros o1 o2 h1 h2 H1 H2 Heq.
      apply lookup_insert_Some in H1 as [[? ?]|[? H1]], H2 as [[? ?]|[? H2]]; simplify_eq/=; try done.
      * apply HFr in H2. lia.
      * apply HFr in H1. lia.
      * by eapply HI.
    + intros o1 h1 [[? ?]|[? H1]]%lookup_insert_Some; simplify_eq/=; [lia|]. apply HFr in H1. lia.
    + intros u. rewrite held_sum_insert by done. rewrite <- HS.
      change (bal s2 (hold_key u) == held_part u h + bal s1 (hold_key u))%Q.
      rewrite (po_bal _ _ _ _ _ HP) by apply hold_key_check.
      change (refOf (hold_key u)) with (UserAccount UserBalanceHold u).
      unfold hold_posting; cbn [p_Legs]. rewrite transfer_delta by done.
      unfold held_part. subst h; simpl. destruct (N.eqb_spec (hi_UserID i) u).
      * rewrite decide_True by done. simpl. lra.
      * rewrite decide_False by done. simpl. lra.
    + intros o1 h1 [[? ?]|[? H1]]%lookup_insert_Some; [|by apply HR]. subst.
      split; [apply Hids|]. split; [apply Hids|done].
  - subst h. done.
  - intros k Hk. change (bal s2 k == bal s1 k + delta_on (refOf k) (p_Legs (hold_posting i)))%Q.
    by apply HP.
Qed.

(** * Releasing and capturing a hold *)

Lemma update_one f s o h :
  holds_ok s → holds s !! o = Some h → h_status h = HoldHeld →
  update_where (is_held (h_id h)) f (holds s) = <[o := f h]> (holds s).
Proof.
  intros Hho Ho Hst. apply map_eq. intros o'. unfold update_where. rewrite lookup_fmap.
  destruct (decide (o = o')) as [<-|Hne].
  - rewrite lookup_insert_eq, Ho. simpl. unfold is_held. by rewrite N.eqb_refl, Hst.
  - rewrite lookup_insert_ne by done. destruct (holds s !! o') as [h'|] eqn:Ho'; simpl; [|done].
    unfold is_held. destruct (N.eqb_spec (h_id h') (h_id h)) as [He|]; simpl; [|done].
    exfalso. apply Hne. by eapply (ho_ids _ Hho).
Qed.

(** Closing a held hold: the table row changes to a row [h'] that is no longer
    held, and the hold account has lost its amount. *)
Lemma close_hold s s' o h h' :
  holds_ok s → holds s !! o = Some h → h_status h = HoldHeld →
  h_id h' = h_id h → h_user h' = h_user h → h_amount h' = h_amount h → h_status h' ≠ HoldHeld →
  holds s' = <[o := h']> (holds s) → (next_id s ≤ next_id s')%N →
  (∀ u, bal s' (hold_key u) == bal s (hold_key u) + (if decide (h_user h = u) then - val (h_amount h) else 0))%Q →
  holds_ok s'.
Proof.
  intros [HI HFr HS HR] Ho Hst Hid Hus Ham Hcl Hh Hnx Hb. split; rewrite ?Hh.
  - intros o1 o2 h1 h2 H1 H2 Heq.
    apply lookup_insert_Some in H1 as [[? ?]|[? H1]], H2 as [[? ?]|[? H2]]; subst; try done.
    + rewrite Hid in Heq. by eapply HI.
    + rewrite Hid in Heq. by eapply HI.
    + by eapply HI.
  - intros o1 h1 [[? ?]|[? H1]]%lookup_insert_Some; subst.
    + rewrite Hid. apply HFr in Ho. lia.
    + apply HFr in H1. lia.
  - intros u. pose proof (held_sum_update u _ _ _ h' Ho) as Hsum.
    rewrite Hb, HS. unfold held_part in Hsum. rewrite Hus, Hst in Hsum. simpl in Hsum.
    apply String.eqb_neq in Hcl. rewrite Hcl, andb_false_r, andb_true_r in Hsum.
    destruct (N.eqb_spec (h_user h) u); [rewrite decide_True by done|rewrite decide_False by done];
      lra.
  - intros o1 h1 [[? ?]|[? H1]]%lookup_insert_Some; [|by apply HR]. subst.
    unfold hold_row_ok. rewrite Hus, Ham. by apply HR.
Qed.

Definition released_row (id : uuid) (h : hold_row) : hold_row :=
  mkHold (h_id h) (h_user h) (h_amount h) HoldReleased (h_hold_txn h) (h_capture_txn h) (Some id).
Definition captured_row (id : uuid) (h : hold_row) : hold_row :=
  mkHold (h_id h) (h_user h) (h_amount h) HoldCaptured (h_hold_txn h) (Some id) (h_release_txn h).

(** Effect of a release that returned true. *)
Record released (o : uuid) (h : hold_row) (s s' : ledger) : Prop := {
  rl_ok : ledger_ok s';
  rl_hok : holds_ok s';
  rl_held : holds s !! o = Some h ∧ h_status h = HoldHeld;
  rl_row : ∃ id, holds s' = <[o := released_row id h]> (holds s);
  rl_bal : ∀ k, account_check k = true →
    (bal s' k == bal s k + delta_on (refOf k) (p_Legs (release_posting o "" h)))%Q;
}.

Lemma releaseOrderHold_spec c o memo s b s' :
  ledger_ok s → holds_ok s → releaseOrderHold c o memo s = (Ok b, s') →
  if b then ∃ h, released o h s s' else s' = s.
Proof.
  intros Hok Hho H. unfold releaseOrderHold in H. apply M_bind_ok in H as (f & s1 & Hf & H).
  unfold LockHoldByOrder, gets in Hf. simplify_eq.
  destruct (holds s1 !! o) as [h|] eqn:Ho; [|by unfold mret, M_ret in H; simplify_eq].
  destruct (String.eqb (h_status h) HoldReleased); [by unfold mret, M_ret in H; simplify_eq|].
  destruct (String.eqb (h_status h) HoldCaptured); [done|].
  destruct (String.eqb (h_status h) HoldHeld) eqn:Hst; simpl in H;
    [|by unfold mret, M_ret in H; simplify_eq].
  apply String.eqb_eq in Hst.
  apply M_bind_ok in H as (id & s2 & Hp & H). apply postChecked_spec in Hp as HP; [|done].
  apply M_bind_ok in H as (ok & s3 & Hm & H). unfold MarkHoldReleased in Hm. simplify_eq.
  destruct (Nat.eqb _ _); [|done]. unfold mret, M_ret in H. simplify_eq.
  exists h. pose proof (po_holds _ _ _ _ _ HP) as Hh2. pose proof (po_next _ _ _ _ _ HP) as Hnx.
  assert (Hup : update_where (is_held (h_id h)) (released_row id) (holds s2) = <[o := released_row id h]> (holds s1)).
  { rewrite Hh2. by apply update_one. }
  set (s' := set_holds _ s2).
  assert (Hbal : ∀ k, account_check k = true →
            (bal s' k == bal s1 k + delta_on (refOf k) (p_Legs (release_posting o "" h)))%Q).
  { intros k Hk. exact (po_bal _ _ _ _ _ HP k Hk). }
  assert (Hrow : holds s' = <[o := released_row id h]> (holds s1)) by exact Hup.
  split; [by apply ledger_ok_holds, HP| |done|by exists id|done].
  eapply (close_hold s1 s' o h (released_row id h)); try done; [simpl; lia|].
  intros u. rewrite Hbal by apply hold_key_check.
  change (refOf (hold_key u)) with (UserAccount UserBalanceHold u).
  unfold release_posting; cbn [p_Legs]. rewrite transfer_delta by done.
  repeat case_decide; simplify_eq; lra.
Qed.

(** * Settling an order *)

Lemma delta_on_app r l1 l2 : (delta_on r (l1 ++ l2) == delta_on r l1 + delta_on r l2)%Q.
Proof. unfold delta_on. rewrite List.filter_app, map_app. apply Qsum_app. Qed.

(** A settlement touches no user account but the payer's hold account. *)
Lemma paid_hold_delta p applied u :
  (delta_on (UserAccount UserBalanceHold u) (orderPaidLegs p applied) ==
   (if IsPositive applied then (if decide (op_UserID p = u) then - val applied else 0) else 0)%Q)%Q.
Proof.
  assert (Hplat : ∀ t rf d a, t ≠ UserBalanceHold →
            on_ref (UserAccount UserBalanceHold u) (mkLeg (PlatformAccount t rf) d a) = false).
  { intros t rf d a Ht. apply on_ref_false. simpl. intros [=]. done. }
  unfold orderPaidLegs. rewrite !delta_on_app.
  assert (Hz : ∀ (b : bool) t rf d a, t ≠ UserBalanceHold →
            (delta_on (UserAccount UserBalanceHold u)
               (if b then [mkLeg (PlatformAccount t rf) d a] else []) == 0)%Q).
  { intros [] t rf d a Ht; [|reflexivity]. rewrite delta_on_cons, Hplat by done. reflexivity. }
  rewrite !Hz by done. rewrite (Hz true) by done.
  destruct (IsPositive applied); [|rewrite delta_on_nil; lra].
  rewrite delta_on_cons, delta_on_nil.
  case_decide as Hu.
  - rewrite on_ref_true by (simpl; by rewrite Hu).
    unfold leg_delta, signedDelta; simpl. rewrite dec_neg_val. lra.
  - rewrite on_ref_false; [lra|]. simpl. intros [=]. done.
Qed.

(** Effect of a settlement. *)
Record settled (c : ctx) (p : OrderPaid) (s s' : ledger) (id : uuid) : Prop := {
  st_ok : ledger_ok s';
  st_hok : holds_ok s';
  st_zero : (val (op_Total p) == 0)%Q → s' = s ∧ id = uuid_Nil;
  st_bal : ¬ (val (op_Total p) == 0)%Q → ∀ k, account_check k = true →
    (bal s' k == bal s k + delta_on (refOf k) (orderPaidLegs p (dec_sub (op_Total p) (op_Paid p))))%Q;
  st_hold : (val (op_Paid p) < val (op_Total p))%Q →
    ¬ (val (op_Total p) == 0)%Q →
    ∃ h, holds s !! op_OrderID p = Some h ∧ h_status h = HoldHeld ∧ h_user h = op_UserID p ∧
         (val (h_amount h) == val (op_Total p) - val (op_Paid p))%Q ∧
         holds s' = <[op_OrderID p := captured_row id h]> (holds s);
  st_nohold : (val (op_Total p) <= val (op_Paid p))%Q → holds s' = holds s;
}.

Lemma check_hold_ok p applied found u :
  check_hold p applied found = Ok u → IsPositive applied = true →
  ∃ h, found = Some h ∧ h_status h = HoldHeld ∧ h_user h = op_UserID p ∧ (val (h_amount h) == val applied)%Q.
Proof.
  unfold check_hold. intros H Hp. rewrite Hp in H. destruct found as [h|]; [|done].
  destruct (String.eqb (h_status h) HoldCaptured); [done|].
  do 3 apply result_bind_ok in H as (? & ?Hr & H).
  repeat match goal with Hr : reject _ _ = Ok _ |- _ => apply reject_ok in Hr end.
  reflect_bools. dec_reflect. exists h.
  repeat match goal with Hs : String.eqb _ _ = true |- _ => apply String.eqb_eq in Hs end.
  repeat match goal with Hs : N.eqb _ _ = true |- _ => apply N.eqb_eq in Hs end. done.
Qed.

Lemma postOrderPaid_spec c p s id s' :
  ledger_ok s → holds_ok s → postOrderPaid c p s = (Ok id, s') → settled c p s s' id.
Proof.
  intros Hok Hho H. unfold postOrderPaid in H. set (applied := dec_sub _ _) in *.
  assert (Hav : (val applied == val (op_Total p) - val (op_Paid p))%Q) by apply dec_sub_val.
  apply M_bind_ok in H as (f & s1 & Hf & H). unfold LockHoldByOrder, gets in Hf. simplify_eq.
  apply M_bind_ok in H as (u & s2 & Hc & H). unfold lift in Hc.
  injection Hc as Hc <-.
  destruct (IsZero_spec (op_Total p)) as [Hz|Hz].
  { unfold mret, M_ret in H. simplify_eq. split; done. }
  apply M_bind_ok in H as (id' & s2 & Hp & H). apply postChecked_spec in Hp as HP; [|done].
  pose proof (po_holds _ _ _ _ _ HP) as Hh2. pose proof (po_next _ _ _ _ _ HP) as Hnx.
  destruct (IsPositive applied) eqn:Hpos.
  - apply (check_hold_ok p applied) in Hc as (h & Hfh & Hst & Hus & Ham); [|done].
    rewrite Hfh in H. apply M_bind_ok in H as (ok & s3 & Hm & H).
    unfold MarkHoldCaptured in Hm. simplify_eq.
    destruct (Nat.eqb _ _); [|done]. unfold mret, M_ret in H. simplify_eq.
    set (s' := set_holds _ s2).
    assert (Hrow : holds s' = <[op_OrderID p := captured_row id h]> (holds s1)).
    { change (update_where (is_held (h_id h)) (captured_row id) (holds s2) =
              <[op_OrderID p := captured_row id h]> (holds s1)).
      rewrite Hh2. by apply update_one. }
    assert (Hbal : ∀ k, account_check k = true →
       (bal s' k == bal s1 k + delta_on (refOf k) (orderPaidLegs p applied))%Q).
    { intros k Hk. exact (po_bal _ _ _ _ _ HP k Hk). }
    dec_reflect.
    split; try done; [by apply ledger_ok_holds, HP| | |lra].
    + eapply (close_hold s1 s' (op_OrderID p) h (captured_row id h)); try done; [simpl; lia|].
      intros v. rewrite Hbal by apply hold_key_check.
      change (refOf (hold_key v)) with (UserAccount UserBalanceHold v).
      rewrite paid_hold_delta. destruct (IsPositive_spec applied); [|lra].
      rewrite Hus. case_decide; lra.
    + intros _ _. exists h. rewrite Ham, Hav. done.
  - unfold mret, M_ret in H. simplify_eq.
    assert (Hbal : ∀ k, account_check k = true →
       (bal s' k == bal s1 k + delta_on (refOf k) (orderPaidLegs p applied))%Q).
    { intros k Hk. exact (po_bal _ _ _ _ _ HP k Hk). }
    split; try done; [apply HP| |dec_reflect; intros; lra].
    eapply posted_holds_ok; [done..|]. intros v. cbn [p_Legs paid_posting].
    rewrite paid_hold_delta, Hpos. reflexivity.
Qed.

(** * Capture and adjustment *)

Lemma grows_bal s s1 k : grows s s1 → (bal s1 k == bal s k)%Q.
Proof.
  intros Hg. unfold bal. destruct (accounts s !! k) as [r|] eqn:Hr.
  - by rewrite (gr_keep _ _ Hg _ _ Hr).
  - destruct (accounts s1 !! k) as [r1|] eqn:Hr1; [|done].
    rewrite (gr_new _ _ Hg _ _ Hr1 Hr). apply dec_zero_val.
Qed.

Lemma grows_holds_ok s s1 : grows s s1 → holds_ok s → holds_ok s1.
Proof.
  intros Hg [HI HF HS HR]. split; rewrite ?(gr_holds _ _ Hg); [done| | |done].
  - intros o h Hh. apply HF in Hh. pose proof (gr_next _ _ Hg). lia.
  - intros u. by rewrite (grows_bal s s1).
Qed.

Definition capture_body (orders : uuid → bool) (c : ctx) (i : HoldInput) : M ledger lerr (hold_row * uuid) :=
  _ ← lockAccounts [UserAccount UserBalance (hi_UserID i);
                    UserAccount UserBalanceHold (hi_UserID i);
                    PlatformAccount PlatformRevenue RefMain];
  h ← holdForOrder orders c i;
  txnID ← postOrderPaid c (mkOrderPaid (hi_OrderID i) (hi_UserID i) (hi_Amount i)
                             dec_zero dec_zero dec_zero "");
  mret (mkHold (h_id h) (h_user h) (h_amount h) HoldCaptured (h_hold_txn h) (Some txnID)
          (h_release_txn h), txnID).

Lemma capture_steps orders c i s r s' :
  ledger_ok s → holds_ok s → capture_body orders c i s = (Ok r, s') →
  ∃ s1 h s2, grows s s1 ∧ held i h s1 s2 ∧
    settled c (mkOrderPaid (hi_OrderID i) (hi_UserID i) (hi_Amount i) dec_zero dec_zero dec_zero "") s2 s' r.2.
Proof.
  intros Hok Hho H. unfold capture_body in H.
  apply M_bind_ok in H as (A & s1 & HA & H).
  apply lockAccounts_spec in HA as (Hok1 & Hg & _); [|done].
  apply M_bind_ok in H as (h & s2 & Hh & H).
  apply holdForOrder_spec in Hh as Hheld; [|done|by eapply grows_holds_ok].
  apply M_bind_ok in H as (id & s3 & Hp & H). unfold mret, M_ret in H. simplify_eq.
  exists s1, h, s2. split_and!; [done..|]. simpl.
  apply postOrderPaid_spec; [apply Hheld|apply Hheld|done].
Qed.

Lemma Balance_spec u s b s' : Balance u s = (Ok b, s') → s' = s ∧ (val b == bal s (balance_key u))%Q.
Proof.
  unfold Balance, Balances, UserBalances. intros H.
  apply M_bind_ok in H as (m & s1 & Hm & H). apply M_bind_ok in Hm as (g & s2 & Hg & Hm).
  unfold gets in Hg. simplify_eq. unfold mret, M_ret in *. simplify_eq. split; [done|].
  change (mkKey UserBalance (Some u) "") with (balance_key u). unfold bal.
  destruct (accounts s' !! balance_key u) as [r|]; simpl.
  - rewrite lookup_union, !lookup_insert_eq. reflexivity.
  - rewrite lookup_union, lookup_empty, lookup_insert_eq. apply dec_zero_val.
Qed.

Lemma ledger_ok_audit a s : ledger_ok s → ledger_ok (add_audit a s).
Proof. intros []. by split. Qed.
Lemma holds_ok_audit a s : holds_ok s → holds_ok (add_audit a s).
Proof. intros []. by split. Qed.

(** The adjustment moves the user's balance by exactly its amount and no hold
    account. *)
Lemma adjust_delta a t u :
  ¬ (val (adj_Amount a) == 0)%Q →
  (delta_on (UserAccount t u) (adjust_legs a) ==
   (if decide (t = UserBalance ∧ u = adj_UserID a) then val (adj_Amount a) else 0)%Q)%Q.
Proof.
  intros Hnz. unfold adjust_legs.
  assert (Hplat : ∀ d x, on_ref (UserAccount t u) (mkLeg (PlatformAccount Suspense RefManualAdjust) d x) = false).
  { intros d x. apply on_ref_false. simpl. intros [=]. }
  assert (Hus : ∀ d x, on_ref (UserAccount t u) (mkLeg (UserAccount UserBalance (adj_UserID a)) d x) =
                       bool_decide (t = UserBalance ∧ u = adj_UserID a)).
  { intros d x. unfold on_ref. apply bool_decide_ext. simpl. split; [by intros [=]|by intros [-> ->]]. }
  destruct (IsPositive_spec (adj_Amount a)); rewrite !delta_on_cons, delta_on_nil, Hplat, Hus;
    (destruct (decide (t = UserBalance ∧ u = adj_UserID a)) as [Hd|Hd];
     [rewrite (bool_decide_eq_true_2 _ Hd)|rewrite (bool_decide_eq_false_2 _ Hd); lra]);
    unfold leg_delta, signedDelta; simpl; rewrite ?dec_neg_val;
    destruct (dec_abs_cases (adj_Amount a)) as [[-> ?]|[-> ?]]; lra.
Qed.

Record adjusted (a : Adjustment) (after : dec) (s s' : ledger) : Prop := {
  ad_ok : ledger_ok s';
  ad_hok : holds_ok s → holds_ok s';
  ad_bal : (bal s' (balance_key (adj_UserID a)) == bal s (balance_key (adj_UserID a)) + val (adj_Amount a))%Q;
  ad_after : (val after == bal s' (balance_key (adj_UserID a)))%Q;
  ad_holds : holds s' = holds s;
  ad_keys : ∀ k, account_check k = true → (bal s' k == bal s k + delta_on (refOf k) (adjust_legs a))%Q;
  ad_audit : ∃ ev, audits s' = (audits s ++ [ev])%list ∧ a_balance_after ev = after ∧
               a_amount ev = adj_Amount a ∧ a_resource ev = adj_UserID a;
}.

Section Adjust.
Context (audit_Write : audit_event → result lerr ()) (IsDeleted : uuid → result lerr bool).

Definition adjust_body (a : Adjustment) (reason : string) (c : ctx) : M ledger lerr (dec * uuid) :=
  deleted ← (if IsPositive (adj_Amount a) then lift (IsDeleted (adj_UserID a)) else mret false);
  if deleted : bool then fail ErrAccountDeleted
  else adjustBalance audit_Write c a reason.

Lemma adjustBalance_spec c a reason s r s' :
  ledger_ok s → ¬ (val (adj_Amount a) == 0)%Q →
  adjustBalance audit_Write c a reason s = (Ok r, s') → adjusted a r.1 s s'.
Proof.
  intros Hok Hnz H. unfold adjustBalance in H.
  apply M_bind_ok in H as (id & s1 & Hp & H). apply map_err_ok in Hp.
  apply postChecked_spec in Hp as HP; [|done].
  apply M_bind_ok in H as (after & s2 & Hb & H). apply Balance_spec in Hb as [-> Hb].
  apply M_bind_ok in H as (u & s3 & Ha & H). unfold lift in Ha. simplify_eq.
  apply M_bind_ok in H as (u' & s4 & Hm & H). unfold modify in Hm. simplify_eq.
  unfold mret, M_ret in H. simplify_eq. simpl.
  split.
  - apply ledger_ok_audit, HP.
  - intros Hho. apply holds_ok_audit. eapply posted_holds_ok; [done..|].
    intros v. cbn [p_Legs]. rewrite adjust_delta by done. case_decide as Hd; [|reflexivity].
    by destruct Hd as [? _].
  - change (bal s3 (balance_key (adj_UserID a)) == bal s (balance_key (adj_UserID a)) + val (adj_Amount a))%Q.
    rewrite (po_bal _ _ _ _ _ HP) by apply balance_key_check. cbn [p_Legs].
    change (refOf (balance_key (adj_UserID a))) with (UserAccount UserBalance (adj_UserID a)).
    rewrite adjust_delta by done. rewrite decide_True by done. reflexivity.
  - exact Hb.
  - exact (po_holds _ _ _ _ _ HP).
  - intros k Hk. exact (po_bal _ _ _ _ _ HP k Hk).
  - eexists. simpl. rewrite (po_audits _ _ _ _ _ HP). done.
Qed.

Lemma adjust_body_spec a reason c s r s' :
  ledger_ok s → ¬ (val (adj_Amount a) == 0)%Q →
  adjust_body a reason c s = (Ok r, s') → adjusted a r.1 s s'.
Proof.
  intros Hok Hnz H. unfold adjust_body in H. apply M_bind_ok in H as (d & s1 & Hd & H).
  assert (s1 = s) as -> by (destruct (IsPositive _); unfold lift, mret, M_ret in Hd; congruence).
  destruct d; [done|]. by eapply adjustBalance_spec.
Qed.

Lemma normalize_nonzero a reason : normalizeAdjustment a = Ok reason → ¬ (val (adj_Amount a) == 0)%Q.
Proof.
  unfold normalizeAdjustment. intros H. apply result_bind_ok in H as (u & Hr & _).
  apply reject_ok in Hr. by dec_reflect.
Qed.

Lemma AdjustBalance_ok c a s r s' :
  ledger_ok s → AdjustBalance audit_Write IsDeleted c a s = (Ok r, s') → adjusted a r.1 s s'.
Proof.
  intros Hok H. unfold AdjustBalance in H. apply M_bind_ok in H as (p & s1 & Hp & H).
  unfold lift in Hp. simplify_eq.
  destruct (negb _); [done|]. destruct (N.eqb _ _); [done|].
  apply M_bind_ok in H as (reason & s2 & Hr & H). unfold lift in Hr. simplify_eq.
  apply Do_ok in H. eapply adjust_body_spec; [done|by eapply normalize_nonzero|exact H].
Qed.

(** * Every reachable ledger *)

(** A request that reaches the service, each in a transaction of its own;
    [orders] are the orders that exist when a hold is inserted. *)
Inductive op :=
| OpPost (w : option Principal) (p : Posting)
| OpHold (orders : uuid → bool) (w : option Principal) (i : HoldInput)
| OpRelease (w : option Principal) (o : uuid) (memo : string)
| OpCapture (orders : uuid → bool) (w : option Principal) (i : HoldInput)
| OpPaid (w : option Principal) (p : OrderPaid)
| OpAdjust (w : option Principal) (a : Adjustment).

Definition run (o : op) (s : ledger) : ledger :=
  match o with
  | OpPost w p => (Post (mkCtx false w) p s).2
  | OpHold orders w i => (HoldForOrder orders (mkCtx false w) i s).2
  | OpRelease w o memo => (ReleaseOrderHold (mkCtx false w) o memo s).2
  | OpCapture orders w i => (CaptureFromBalance orders (mkCtx false w) i s).2
  | OpPaid w p => (PostOrderPaid (mkCtx false w) p s).2
  | OpAdjust w a => (AdjustBalance audit_Write IsDeleted (mkCtx false w) a s).2
  end.

(** Only the hold operations write to hold accounts: no other module posts to
    one. *)
Definition leaves_holds (o : op) : Prop :=
  match o with
  | OpPost _ p => Forall (λ l, ref_Type (leg_Account l) ≠ UserBalanceHold) (p_Legs p)
  | _ => True
  end.

Definition with_users (us : gset uuid) (s : ledger) : ledger :=
  mkLedger (accounts s) (txns s) (entries s) (holds s) (audits s) us (next_id s).

Inductive reachable : ledger → Prop :=
| reach_init us n : reachable (mkLedger ∅ [] [] ∅ [] us n)
| reach_users s us : reachable s → users s ⊆ us → reachable (with_users us s)
| reach_op s o : reachable s → leaves_holds o → reachable (run o s).

Lemma delta_on_other_type t u legs :
  Forall (λ l, ref_Type (leg_Account l) ≠ t) legs → (delta_on (UserAccount t u) legs == 0)%Q.
Proof.
  intros HF. apply delta_on_none. intros (l & Hl & Hin)%list_elem_of_fmap.
  rewrite Forall_forall in HF. apply (HF l Hin). by rewrite <- Hl.
Qed.

Definition good (s : ledger) : Prop := ledger_ok s ∧ holds_ok s.

(** A [DoL] whose body keeps [good] keeps it, also when it rolls back. *)
Lemma DoL_good {A} w (fn : ctx → M ledger lerr A) s :
  good s → (∀ c a s1, fn c s = (Ok a, s1) → good s1) → good (DoL (mkCtx false w) fn s).2.
Proof.
  intros Hg Hfn. unfold DoL. destruct (Do _ _ _ s) as [r s'] eqn:HD. simpl.
  eapply (Do_invariant good); [done| |exact HD]. intros a s1 H. by eapply Hfn.
Qed.

Lemma lift_bind_snd {A B} (r : result lerr A) (f : A → M ledger lerr B) s (P : ledger → Prop) :
  P s → (∀ a, r = Ok a → P (f a s).2) → P ((lift r ≫= f) s).2.
Proof. intros Hs Hf. unfold mbind, M_bind, lift. destruct r; [by apply Hf|done]. Qed.

Lemma run_good o s : good s → leaves_holds o → good (run o s).
Proof.
  intros Hg Hl. pose proof Hg as [Hok Hho]. destruct o as [w p|orders w i|w o memo|orders w i|w p|w a]; simpl in *.
  - unfold Post. destruct (Dedicated _); [done|]. apply DoL_good; [done|].
    intros c id s1 H. apply postChecked_spec in H as HP; [|done].
    split; [apply HP|]. eapply posted_holds_ok; [done..|]. intros u. by apply delta_on_other_type.
  - unfold HoldForOrder. apply lift_bind_snd; [done|]. intros _ _. apply DoL_good; [done|].
    intros c h s1 H. apply holdForOrder_spec in H as [? ? _ _ _ _]; done.
  - unfold ReleaseOrderHold. apply DoL_good; [done|].
    intros c b s1 H. apply releaseOrderHold_spec in H; [|done..].
    destruct b; [by destruct H as (h & [])|by subst].
  - unfold CaptureFromBalance. apply lift_bind_snd; [done|]. intros _ _. apply DoL_good; [done|].
    intros c r s1 H. apply (capture_steps orders c i) in H as (s2 & h & s3 & _ & _ & []); done.
  - unfold PostOrderPaid. apply lift_bind_snd; [done|]. intros _ _. apply DoL_good; [done|].
    intros c id s1 H. apply postOrderPaid_spec in H as []; done.
  - unfold AdjustBalance. apply lift_bind_snd; [done|]. intros p _.
    destruct (negb _); [done|]. destruct (N.eqb _ _); [done|].
    apply lift_bind_snd; [done|]. intros reason Hr. apply DoL_good; [done|].
    intros c r s1 H. apply (adjust_body_spec a reason) in H as []; [|done|by eapply normalize_nonzero].
    split; [done|]. auto.
Qed.

Lemma reachable_good s : reachable s → good s.
Proof.
  induction 1 as [us n|s us _ [Hok Hho] _|s o _ IH Hl].
  - split; split; simpl; intros; try (by apply not_elem_of_nil in H); try done.
  - split; [destruct Hok|destruct Hho]; by split.
  - by apply run_good.
Qed.
End Adjust.
End Ops.
