(* ===== verification/LedgerProgress.v ===== *)
(** Progress of the ledger: when a posting goes through.  The lemmas of
    [LedgerInv] say what a successful step did; the ones here say that a valid
    posting with enough balance succeeds, and that one without is refused. *)
From Stdlib Require Import ZArith QArith Qabs Lqa Lia Sorting.Permutation.
From stdpp Require Import base tactics list gmap strings sorting.
From S2P Require Import Prelude Decimal GoString Money LedgerTypes LedgerFacts Ledger LedgerInv LedgerOps.
#[local] Open Scope string_scope.
#[local] Open Scope Z_scope.

Lemma M_bind_eq {S E A B} (m : M S E A) (f : A → M S E B) s a s1 :
  m s = (Ok a, s1) → (m ≫= f) s = f a s1.
Proof. intros H. unfold mbind, M_bind. by rewrite H. Qed.

Lemma M_bind_err {S E A B} (m : M S E A) (f : A → M S E B) s e s1 :
  m s = (Err e, s1) → (m ≫= f) s = (Err e, s1).
Proof. intros H. unfold mbind, M_bind. by rewrite H. Qed.

Lemma map_err_eq {S E A} (f : E → E) (m : M S E A) s a s1 :
  m s = (Ok a, s1) → map_err f m s = (Ok a, s1).
Proof. apply map_err_ok. Qed.

Section Progress.
Context `{DL : DecimalLib}.

(** * Creating and locking accounts *)

Definition owner_known (us : gset uuid) (k : AccountKey) : Prop :=
  ∀ u, k_OwnerUserID k = Some u → u ∈ us.

Lemma ensure1_progress k s :
  pg_text (k_OwnerRef k) = true → account_check k = true → owner_known (users s) k →
  ∃ s1, ensure1 k s = (Ok (), s1).
Proof.
  intros Ht Hc Hu. unfold ensure1. rewrite Ht, Hc. simpl.
  destruct (accounts s !! k); [eauto|].
  assert (match k_OwnerUserID k with Some u => bool_decide (u ∈ users s) | None => true end = true) as ->; [|eauto].
  destruct (k_OwnerUserID k) as [u|] eqn:Hk; [|done]. apply bool_decide_eq_true. by apply Hu.
Qed.

Lemma EnsureAccounts_progress keys s :
  ledger_ok s →
  Forall (λ k, pg_text (k_OwnerRef k) = true ∧ account_check k = true ∧ owner_known (users s) k) keys →
  ∃ s1, EnsureAccounts keys s = (Ok (), s1).
Proof.
  revert s. induction keys as [|k keys IH]; simpl; intros s Hok HF; [by eexists|].
  apply Forall_cons in HF as [(Ht & Hc & Hu) HF].
  destruct (ensure1_progress k s Ht Hc Hu) as [s1 H1].
  rewrite (M_bind_eq _ _ _ _ _ H1). apply ensure1_spec in H1 as (Hok1 & Hg & _); [|done].
  apply IH; [done|]. by rewrite (gr_users _ _ Hg).
Qed.

(** What a leg's reference needs for its account to be created. *)
Definition ref_ready (us : gset uuid) (r : AccountRef) : Prop :=
  ref_shape r ∧ pg_text (ref_Ref r) = true ∧ (UserOwned (ref_Type r) = true → ref_UserID r ∈ us).

Lemma keyOf_ready us r :
  ref_ready us r →
  pg_text (k_OwnerRef (keyOf r)) = true ∧ account_check (keyOf r) = true ∧ owner_known us (keyOf r).
Proof.
  intros ((Hv & Hs) & Ht & Hu). unfold keyOf, account_check, owner_known.
  destruct (UserOwned (ref_Type r)) eqn:Ho; simpl; rewrite Hv, Ho; simpl.
  - split_and!; [done|done|]. intros u [= <-]. by apply Hu.
  - destruct Hs as (_ & Hne & Hl). split_and!; [done| |done].
    apply String.eqb_neq in Hne. rewrite Hne. simpl. apply Z.leb_le.
    pose proof (RuneCountInString_le (ref_Ref r)). lia.
Qed.

Lemma map_keyOf_NoDup refs :
  Forall ref_shape refs → NoDup refs → NoDup (map keyOf refs).
Proof.
  intros HF Hnd. induction Hnd as [|r refs Hr Hnd IH]; simpl; [constructor|].
  apply Forall_cons in HF as [Hs HF]. constructor; [|by apply IH].
  intros (r' & Hk & Hin)%list_elem_of_fmap. apply Hr.
  rewrite Forall_forall in HF.
  rewrite <- (refOf_keyOf r Hs), Hk, (refOf_keyOf r') by auto. done.
Qed.

Lemma remove_dups_id {A} `{EqDecision A} (l : list A) : NoDup l → remove_dups l = l.
Proof.
  induction 1 as [|x l Hx Hnd IH]; simpl; [done|]. case_decide; [done|]. by rewrite IH.
Qed.

Lemma omap_all {A B} (f : A → option B) (g : A → B) l :
  (∀ x, x ∈ l → f x = Some (g x)) → omap f l = map g l.
Proof.
  induction l as [|x l IH]; simpl; intros H; [done|].
  rewrite (H x) by constructor. f_equal. apply IH. intros. apply H. by constructor.
Qed.

Lemma select_keys refs : map select_key (map keyOf refs) = map keyOf refs.
Proof. rewrite map_map. apply map_ext. intros r. apply select_key_keyOf. Qed.

(** Locking succeeds and covers every reference. *)
Lemma lockAccounts_progress refs s :
  ledger_ok s → (∀ r, r ∈ refs → ref_ready (users s) r) →
  ∃ A s1, lockAccounts refs s = (Ok A, s1) ∧ ∀ r, r ∈ refs → is_Some (A !! r).
Proof.
  intros Hok HR. unfold lockAccounts.
  assert (HF : Forall (λ k, pg_text (k_OwnerRef k) = true ∧ account_check k = true ∧
                            owner_known (users s) k) (map keyOf (sortedRefs refs))).
  { apply Forall_forall. intros k (r & -> & Hr)%list_elem_of_fmap.
    apply keyOf_ready, HR. by apply sortedRefs_mem. }
  assert (Hsh : Forall ref_shape (sortedRefs refs)).
  { apply Forall_forall. intros r Hr. apply HR. by apply sortedRefs_mem. }
  destruct (EnsureAccounts_progress _ s Hok HF) as [s1 He].
  pose proof (EnsureAccounts_spec _ _ _ Hok He) as (Hok1 & Hg & HF1).
  assert (He' : map_err (λ e, match e with ErrDB DBForeignKey => ErrUserNotFound | _ => e end)
            (EnsureAccounts (map keyOf (sortedRefs refs))) s = (Ok (), s1)) by (by apply map_err_ok).
  rewrite (M_bind_eq _ _ _ _ _ He').
  set (row k := default (mkAccount 0%N dec_zero) (accounts s1 !! k)).
  assert (Hrows : omap (λ k, (λ r, (k, r)) <$> accounts s1 !! k)
            (remove_dups (map select_key (map keyOf (sortedRefs refs)))) =
          map (λ k, (k, row k)) (map keyOf (sortedRefs refs))).
  { rewrite select_keys, remove_dups_id by (apply map_keyOf_NoDup, sortedRefs_NoDup; done).
    apply omap_all. intros k Hk. rewrite Forall_forall in HF1. apply HF1 in Hk as ([r Hr] & _).
    unfold row. by rewrite Hr. }
  unfold LockAccounts. erewrite (M_bind_eq (gets _) _ s1 _ s1) by reflexivity.
  rewrite Hrows, !length_map, Nat.eqb_refl.
  eexists _, s1. split; [reflexivity|]. intros r Hr.
  fold (assign (λ kr : AccountKey * account_row, refOf kr.1)
          (λ kr, mkLocked (acc_id kr.2) (k_Type kr.1) (acc_balance kr.2))
          (map (λ k, (k, row k)) (map keyOf (sortedRefs refs))) ∅).
  assert (Hs : ref_shape r) by (by apply HR).
  exists (mkLocked (acc_id (row (keyOf r))) (k_Type (keyOf r)) (acc_balance (row (keyOf r)))).
  rewrite <- (refOf_keyOf r Hs) at 1.
  apply (assign_mem (λ kr : AccountKey * account_row, refOf kr.1)
           (λ kr, mkLocked (acc_id kr.2) (k_Type kr.1) (acc_balance kr.2)) _ _ (keyOf r, row (keyOf r))).
  - rewrite !map_map. simpl.
    assert (map (λ x, refOf (keyOf x)) (sortedRefs refs) = sortedRefs refs) as ->; [|apply sortedRefs_NoDup].
    clear -Hsh. induction Hsh as [|x l Hx HF IH]; simpl; [done|]. by rewrite refOf_keyOf, IH.
  - apply list_elem_of_fmap. exists (keyOf r). split; [done|]. apply list_elem_of_fmap.
    exists r. split; [done|]. by apply sortedRefs_mem.
Qed.

(** * Computing the balances *)

Lemma applyLegs_progress A W legs :
  (∀ l, l ∈ legs → is_Some (A !! leg_Account l)) → ∃ W', applyLegs A W legs = Ok W'.
Proof.
  revert W. induction legs as [|l legs IH]; simpl; intros W H; [eauto|].
  destruct (H l) as [la Hla]; [constructor|]. rewrite Hla. apply IH. intros. apply H. by constructor.
Qed.

Lemma collect_progress A W seen out legs :
  (∃ out', collect A W seen out legs = Ok out') ∨ collect A W seen out legs = Err ErrInsufficientBalance.
Proof.
  revert seen out. induction legs as [|l legs IH]; simpl; intros seen out; [eauto|].
  repeat case_match; eauto.
Qed.

Lemma collect_nonneg A W seen out legs :
  (∀ l, l ∈ legs → UserOwned (la_Type (default (mkLocked uuid_Nil "" dec_zero) (A !! leg_Account l))) = true →
     (0 <= val (default dec_zero (W !! leg_Account l)))%Q) →
  ∃ out', collect A W seen out legs = Ok out'.
Proof.
  revert seen out. induction legs as [|l legs IH]; simpl; intros seen out H; [eauto|].
  assert (H' : ∀ l', l' ∈ legs → UserOwned (la_Type (default (mkLocked uuid_Nil "" dec_zero) (A !! leg_Account l'))) = true →
     (0 <= val (default dec_zero (W !! leg_Account l')))%Q) by (intros; apply H; [by constructor|done]).
  case_decide; [by apply IH|].
  destruct (UserOwned (la_Type _)) eqn:Ho; simpl; [|by apply IH].
  specialize (H l ltac:(constructor) Ho).
  destruct (IsNegative_spec (default dec_zero (W !! leg_Account l))); [lra|by apply IH].
Qed.

(** The test of the second loop, decided: the posting is refused exactly when
    some user account it touches would go below zero. *)
Lemma nextBalances_decided s A legs :
  ledger_ok s → locked_in s A → (∀ l, l ∈ legs → is_Some (A !! leg_Account l)) →
  if forallb (λ l, negb (UserOwned (ref_Type (leg_Account l))) ||
                   Qle_bool 0 (bal s (keyOf (leg_Account l)) + delta_on (leg_Account l) legs)) legs
  then ∃ out, nextBalances A legs = Ok out
  else nextBalances A legs = Err ErrInsufficientBalance.
Proof.
  intros Hok HL HA. unfold nextBalances.
  destruct (applyLegs_progress A (la_Balance <$> A) legs HA) as [W HW].
  rewrite HW. simpl. pose proof (applyLegs_spec _ _ _ _ (locked_typed _ _ HL) HW) as [_ HV].
  assert (Hnew : ∀ l, l ∈ legs → (val (default dec_zero (W !! leg_Account l)) ==
            bal s (keyOf (leg_Account l)) + delta_on (leg_Account l) legs)%Q).
  { intros l Hl. rewrite HV, lookup_fmap. destruct (HA l Hl) as [la Hla]. rewrite Hla. simpl.
    destruct (lk_row _ _ HL _ _ Hla) as (row & Hrow & _ & ->). unfold bal. rewrite Hrow. reflexivity. }
  assert (Hty : ∀ l, l ∈ legs → la_Type (default (mkLocked uuid_Nil "" dec_zero) (A !! leg_Account l)) = ref_Type (leg_Account l)).
  { intros l Hl. destruct (HA l Hl) as [la Hla]. rewrite Hla. by apply (locked_typed _ _ HL). }
  destruct (forallb _ legs) eqn:HF.
  - apply collect_nonneg. intros l Hl Ho. rewrite Hty in Ho by done. rewrite Hnew by done.
    rewrite forallb_forall in HF. specialize (HF l ltac:(by apply list_elem_of_In)).
    rewrite Ho in HF. simpl in HF. by apply Qle_bool_iff.
  - destruct (collect_progress A W ∅ ∅ legs) as [[out Hc]|]; [exfalso|done].
    apply not_true_iff_false in HF. apply HF, forallb_forall. intros l Hl%list_elem_of_In.
    destruct (UserOwned (ref_Type (leg_Account l))) eqn:Ho; simpl; [|done].
    apply Qle_bool_iff. rewrite <- Hnew by done. destruct (HA l Hl) as [la Hla].
    pose proof (collect_spec A W ∅ ∅ legs out (locked_injective _ _ Hok HL) HA Hc) as [H1 _].
    apply (H1 _ la); [done|apply not_elem_of_empty|by apply list_elem_of_fmap_2|].
    by rewrite (locked_typed _ _ HL _ _ Hla).
Qed.

(** * Writing the balances *)

Lemma rows_affected_one {K V} `{Countable K} (p : V → bool) (m : gmap K V) k v :
  m !! k = Some v → p v = true → (∀ k' v', m !! k' = Some v' → p v' = true → k' = k) →
  rows_affected p m = 1%nat.
Proof.
  intros Hk Hp Hu. unfold rows_affected.
  rewrite <- (insert_delete_id m k v Hk).
  assert (HP : map snd (map_to_list (<[k:=v]> (delete k m))) ≡ₚ v :: map snd (map_to_list (delete k m))).
  { rewrite map_to_list_insert by apply lookup_delete_eq. reflexivity. }
  assert (Hlen : ∀ l1 l2 : list V, l1 ≡ₚ l2 → length (List.filter p l1) = length (List.filter p l2)).
  { induction 1; simpl; repeat case_match; simpl; congruence. }
  rewrite (Hlen _ _ HP). simpl. rewrite Hp. simpl. f_equal.
  assert (HN : ∀ x, x ∈ map snd (map_to_list (delete k m)) → p x = false).
  { intros x ([k' x'] & -> & Hx)%list_elem_of_fmap. apply elem_of_map_to_list in Hx.
    apply lookup_delete_Some in Hx as [Hne Hx]. simpl. apply not_true_iff_false. intros Hpx.
    apply Hne. symmetry. by eapply Hu. }
  revert HN. clear. generalize (map snd (map_to_list (delete k m))) as l.
  induction l as [|x l IH]; simpl; intros HN; [reflexivity|].
  rewrite HN by constructor. apply IH. intros. apply HN. by constructor.
Qed.

(** The row of account [id] may take balance [b]. *)
Definition writable (m : gmap AccountKey account_row) (id : uuid) (b : dec) : Prop :=
  two_places b ∧ numeric_fits b = true ∧
  ∃ k r, m !! k = Some r ∧ acc_id r = id ∧ (is_Some (k_OwnerUserID k) → (0 <= val b)%Q).

Definition ids_unique (m : gmap AccountKey account_row) : Prop :=
  ∀ k1 k2 r1 r2, m !! k1 = Some r1 → m !! k2 = Some r2 → acc_id r1 = acc_id r2 → k1 = k2.

Lemma update_balance_progress id b s :
  ids_unique (accounts s) → writable (accounts s) id b →
  update_balance id b s = (Ok (), set_accounts (update_where (λ r, (acc_id r =? id)%N)
                                        (λ r, mkAccount (acc_id r) b)) s).
Proof.
  intros Hids (Hp & Hf & k & r & Hk & Hid & Hnn). unfold update_balance.
  apply (Check_ok b ()) in Hp. rewrite Hp, Hf. simpl.
  assert (Huni : ∀ k' r', accounts s !! k' = Some r' → (acc_id r' =? id)%N = true → k' = k).
  { intros k' r' Hk' He%N.eqb_eq. eapply Hids; [done..|]. congruence. }
  assert (existsb (λ kr : AccountKey * account_row, (acc_id kr.2 =? id)%N && bool_decide (is_Some (k_OwnerUserID kr.1)) &&
                             IsNegative b) (map_to_list (accounts s)) = false) as ->.
  { apply not_true_iff_false. intros ([k' r'] & Hin & Hb)%existsb_exists. simpl in Hb.
    apply list_elem_of_In, elem_of_map_to_list in Hin.
    apply andb_true_iff in Hb as [[Hi Ho]%andb_true_iff Hneg].
    assert (k' = k) as -> by (by eapply Huni). apply bool_decide_eq_true in Ho.
    apply Hnn in Ho. dec_reflect. lra. }
  rewrite (rows_affected_one _ _ k r) by (done || (by apply N.eqb_eq)). done.
Qed.

Lemma update_where_id_lookup (m : gmap AccountKey account_row) id b k r :
  update_where (λ r, (acc_id r =? id)%N) (λ r, mkAccount (acc_id r) b) m !! k = Some r →
  ∃ r0, m !! k = Some r0 ∧ acc_id r = acc_id r0.
Proof.
  unfold update_where. rewrite lookup_fmap. intros (r0 & ? & ->)%fmap_Some. exists r0.
  split; [done|]. by destruct (acc_id r0 =? id)%N.
Qed.

Lemma set_balances_loop_progress l s :
  ids_unique (accounts s) → Forall (λ ib, writable (accounts s) ib.1 ib.2) l →
  ∃ s1, set_balances_loop l s = (Ok (), s1).
Proof.
  revert s. induction l as [|[id b] l IH]; simpl; intros s Hids HF; [by eexists|].
  apply Forall_cons in HF as [Hw HF].
  rewrite (M_bind_eq _ _ _ _ _ (update_balance_progress id b s Hids Hw)). apply IH.
  - intros k1 k2 r1 r2 (r1' & H1 & E1)%update_where_id_lookup (r2' & H2 & E2)%update_where_id_lookup He.
    eapply Hids; [done..|congruence].
  - eapply Forall_impl; [exact HF|]. intros [id' b'] (Hp & Hf & k & r & Hk & Hid & Hnn).
    split_and!; [done..|]. simpl in *. unfold update_where. exists k.
    eexists. rewrite lookup_fmap, Hk. split; [reflexivity|]. split; [|done].
    by destruct (acc_id r =? id)%N.
Qed.

Lemma SetBalances_progress m s :
  ids_unique (accounts s) → (∀ id b, m !! id = Some b → writable (accounts s) id b) →
  ∃ s1, SetBalances m s = (Ok (), s1).
Proof.
  intros Hids Hw. apply set_balances_loop_progress; [done|].
  apply Forall_forall. intros [id b] Hin. rewrite merge_sort_Permutation in Hin.
  apply elem_of_map_to_list in Hin. by apply Hw.
Qed.

(** * Storing the transaction *)

Lemma actorOf_check c :
  one_of (actorOf c).1 ["system"; "user"; "admin"] = true ∧
  Bool.eqb (String.eqb (actorOf c).1 "system") (bool_decide ((actorOf c).2 = None)) = true.
Proof. unfold actorOf. repeat case_match; done. Qed.

(** The stored row of a validated posting satisfies the table's CHECKs. *)
Lemma validatePosting_txn c p id :
  validatePosting p = Ok () →
  pg_text (p_Memo p) = true ∧
  txn_check (mkTxn id (p_Kind p) (t_source_type (txn_of c p)) (t_source_id (txn_of c p)) (p_Memo p)
               (t_actor_kind (txn_of c p)) (t_actor_id (txn_of c p))) = true.
Proof.
  unfold validatePosting. intros Hv. do 8 apply result_bind_ok in Hv as (? & ?Hr & Hv).
  repeat match goal with Hr : reject _ _ = Ok _ |- _ => apply reject_ok in Hr end. clear Hv.
  destruct (actorOf_check c) as [Ha1 Ha2].
  reflect_bools. split.
  - unfold pg_text. by rewrite Hr2, Hr3.
  - unfold txn_check, txn_of. destruct (actorOf c) as [ak ai]. simpl in *. rewrite Hr, Ha1, Ha2.
    assert (RuneCountInString (p_Memo p) <=? 500 = true) as -> by (by apply Z.leb_le).
    assert (negb (String.eqb (p_Kind p) KindBalanceAdjusted) || (5 <=? btrim_length (p_Memo p)) = true) as ->.
    { pose proof (TrimSpace_btrim (p_Memo p) ltac:(done)).
      destruct (String.eqb (p_Kind p) KindBalanceAdjusted); [|done]. simpl in *. apply Z.leb_le. lia. }
    rewrite !andb_true_r. simpl.
    destruct (String.eqb (p_SourceType p) "") eqn:He; simpl; [done|].
    destruct (p_SourceID p =? uuid_Nil)%N eqn:Hi; simpl in *; [done|].
    rewrite andb_true_r. by destruct (sourceTypePattern (p_SourceType p)).
Qed.

Definition not_posted (p : Posting) (s : ledger) : Prop :=
  OnePerSource (p_Kind p) = true → p_SourceID p ≠ uuid_Nil →
  existsb (same_source (p_Kind p) (p_SourceType p) (p_SourceID p)) (txns s) = false.

Lemma not_posted_once c p id l s :
  not_posted p s → l = txns s →
  source_once_conflict (mkTxn id (p_Kind p) (t_source_type (txn_of c p)) (t_source_id (txn_of c p))
    (p_Memo p) (t_actor_kind (txn_of c p)) (t_actor_id (txn_of c p))) l = false.
Proof.
  intros Hn ->. unfold source_once_conflict, txn_of. destruct (actorOf c). simpl.
  destruct (String.eqb _ _); [done|]. destruct (N.eqb_spec (p_SourceID p) uuid_Nil); [done|].
  destruct (OnePerSource _) eqn:Ho; simpl; [by apply Hn|done].
Qed.

Lemma InsertTransaction_progress c p A s :
  validatePosting p = Ok () → not_posted p s →
  (∀ l, l ∈ p_Legs p → numeric_fits (leg_Amount l) = true ∧
     ∃ la k row, A !! leg_Account l = Some la ∧ accounts s !! k = Some row ∧ acc_id row = la_ID la) →
  ∃ id s1, InsertTransaction (txn_of c p) (map (entry_of A) (p_Legs p)) s = (Ok id, s1).
Proof.
  intros Hv Hn HA. pose proof (validatePosting_ok _ _ Hv) as (HF & _ & Hlen).
  rewrite Forall_forall in HF.
  destruct (validatePosting_txn c p (next_id s) Hv) as [Ht Hc].
  assert (Hk : t_kind (txn_of c p) = p_Kind p ∧ t_memo (txn_of c p) = p_Memo p)
    by (unfold txn_of; destruct (actorOf c); done).
  destruct Hk as [Hk Hm].
  unfold InsertTransaction. rewrite length_map.
  assert ((length (p_Legs p) =? 0)%nat = false) as -> by (apply Nat.eqb_neq; lia).
  rewrite Hk, Hm.
  assert (forallb (λ e, match Check (e_amount e) with Ok _ => true | Err _ => false end)
            (map (entry_of A) (p_Legs p)) = true) as ->.
  { apply forallb_forall. intros e (l & <- & Hl)%in_map_iff. apply list_elem_of_In in Hl.
    destruct (HF l Hl) as (_ & _ & _ & Hp). apply (Check_ok _ ()) in Hp. simpl. by rewrite Hp. }
  simpl. rewrite Ht, Hc, (not_posted_once c p _ _ s) by done. simpl.
  assert (forallb (entry_check s) (map (entry_of A) (p_Legs p)) = true) as ->; [|eauto].
  apply forallb_forall. intros e (l & <- & Hl)%in_map_iff. apply list_elem_of_In in Hl.
  destruct (HF l Hl) as (_ & Hd & Hp & _). destruct (HA l Hl) as (Hfit & la & k & row & Hla & Hrow & Hid).
  unfold entry_check, entry_of. rewrite Hla. simpl. rewrite Hfit.
  assert (one_of (leg_Direction l) [Debit; Credit] = true) as -> by (destruct Hd as [-> | ->]; done).
  destruct (IsPositive_spec (leg_Amount l)); [|lra]. simpl. apply existsb_exists.
  exists (k, row). split; [by apply list_elem_of_In, elem_of_map_to_list|]. by apply N.eqb_eq.
Qed.

(** * A whole posting *)

Definition big : Q := p10 18.

Lemma numeric_fits_iff b : numeric_fits b = true ↔ (Qabs (val b) < big)%Q.
Proof.
  unfold numeric_fits, big.
  assert (Hn : (val (dec_new 1 18) == p10 18)%Q) by (rewrite dec_new_val; ring).
  destruct (LessThan_spec (dec_abs b) (dec_new 1 18)) as [H|H]; rewrite dec_abs_val, Hn in H;
    split; intros; try done. lra.
Qed.

(** Everything but the balance is in order for posting [p]. *)
Record post_ready (p : Posting) (s : ledger) : Prop := {
  pr_valid : validatePosting p = Ok ();
  pr_new : not_posted p s;
  pr_refs : ∀ l, l ∈ p_Legs p → pg_text (ref_Ref (leg_Account l)) = true ∧
              (UserOwned (ref_Type (leg_Account l)) = true → ref_UserID (leg_Account l) ∈ users s);
  pr_fits : ∀ l, l ∈ p_Legs p → (val (leg_Amount l) < big)%Q ∧
              (Qabs (bal s (keyOf (leg_Account l)) + delta_on (leg_Account l) (p_Legs p)) < big)%Q;
}.

(** Every user account the posting touches stays at or above zero. *)
Definition sufficient (p : Posting) (s : ledger) : bool :=
  forallb (λ l, negb (UserOwned (ref_Type (leg_Account l))) ||
                Qle_bool 0 (bal s (keyOf (leg_Account l)) + delta_on (leg_Account l) (p_Legs p))) (p_Legs p).

Lemma sufficient_ext p s s1 : (∀ k, bal s1 k == bal s k)%Q → sufficient p s1 = sufficient p s.
Proof.
  intros H. unfold sufficient. generalize (p_Legs p) at 2 4 as legs.
  induction legs as [|l legs IH]; simpl; [done|]. rewrite IH. f_equal. f_equal. by rewrite H.
Qed.

Lemma out_writable p A s out id b :
  ledger_ok s → locked_in s A → Forall leg_ok (p_Legs p) → nextBalances A (p_Legs p) = Ok out →
  (∀ l, l ∈ p_Legs p →
     (Qabs (bal s (keyOf (leg_Account l)) + delta_on (leg_Account l) (p_Legs p)) < big)%Q) →
  out !! id = Some b → writable (accounts s) id b.
Proof.
  intros Hok HL HF Hn Hfit Hb.
  pose proof (nextBalances_spec A _ out (locked_typed _ _ HL) (locked_injective _ _ Hok HL) Hn)
    as (HA & H1 & H2).
  destruct (decide (Exists (λ l, la_ID <$> A !! leg_Account l = Some id) (p_Legs p))) as [HE|HE].
  - apply Exists_exists in HE as (l & Hl & Hid). apply fmap_Some in Hid as (la & Hla & ->).
    destruct (H1 _ la Hla) as (b' & Hb' & Hv & Hu); [by apply list_elem_of_fmap_2|]. simplify_eq.
    destruct (lk_row _ _ HL _ _ Hla) as (row & Hrow & _ & ->). simpl in *.
    pose proof (new_row_places s A _ out _ _ Hok HL HF Hn Hrow) as Hp.
    unfold new_row in Hp. rewrite Hb in Hp. split; [done|]. split.
    + apply numeric_fits_iff. rewrite Hv. specialize (Hfit l Hl). unfold bal in Hfit.
      by rewrite Hrow in Hfit.
    + exists (keyOf (leg_Account l)), row. split_and!; [done..|].
      unfold keyOf. destruct (UserOwned (ref_Type (leg_Account l))) eqn:Ho; [by intros _; apply Hu|].
      by intros [? ?].
  - rewrite H2 in Hb; [done|]. intros r la Hr (l & -> & Hl)%list_elem_of_fmap Heq.
    apply HE, Exists_exists. exists l. split; [done|]. rewrite Hr. simpl. by rewrite Heq.
Qed.

Lemma post_decided c p s :
  ledger_ok s → post_ready p s →
  if sufficient p s then ∃ id s', post c p s = (Ok id, s')
  else ∃ s', post c p s = (Err ErrInsufficientBalance, s').
Proof.
  intros Hok [Hv Hnew Hrefs Hfits]. pose proof (validatePosting_ok _ _ Hv) as (HF & _ & _).
  unfold post.
  assert (Hex : (if OnePerSource (p_Kind p) && negb (p_SourceID p =? uuid_Nil)%N
             then TransactionExists (p_Kind p) (p_SourceType p) (p_SourceID p)
             else mret false) s = (Ok false, s)).
  { destruct (OnePerSource (p_Kind p)) eqn:Ho; simpl; [|done].
    destruct (N.eqb_spec (p_SourceID p) uuid_Nil); simpl; [done|].
    unfold TransactionExists, gets. by rewrite Hnew. }
  rewrite (M_bind_eq _ _ _ _ _ Hex).
  assert (Hin : ∀ r, r ∈ accountKeys (p_Legs p) ↔ ∃ l, r = leg_Account l ∧ l ∈ p_Legs p).
  { intros r. unfold accountKeys. rewrite sortedRefs_mem. apply list_elem_of_fmap. }
  destruct (lockAccounts_progress (accountKeys (p_Legs p)) s Hok) as (A & s1 & HA & Hcov).
  { intros r (l & -> & Hl)%Hin. rewrite Forall_forall in HF. destruct (HF l Hl) as (Hs & _).
    destruct (Hrefs l Hl). done. }
  rewrite (M_bind_eq _ _ _ _ _ HA).
  pose proof (lockAccounts_spec _ _ _ _ Hok HA) as (Hok1 & Hg & HL).
  assert (Hb1 : ∀ k, (bal s1 k == bal s k)%Q) by (intros; by apply grows_bal).
  assert (Hcov' : ∀ l, l ∈ p_Legs p → is_Some (A !! leg_Account l)).
  { intros l Hl. apply Hcov, Hin. eauto. }
  pose proof (nextBalances_decided s1 A (p_Legs p) Hok1 HL Hcov') as HD.
  fold (sufficient p s1) in HD. rewrite (sufficient_ext p s s1 Hb1) in HD.
  destruct (sufficient p s).
  - destruct HD as [out Hn]. erewrite (M_bind_eq (lift _)) by (unfold lift; by rewrite Hn).
    destruct (SetBalances_progress out s1) as [s2 Hs].
    { exact (ok_ids _ Hok1). }
    { intros id b Hb. eapply (out_writable p A); [done..| |done].
      intros l Hl. rewrite Hb1. by apply Hfits. }
    pose proof (SetBalances_spec _ _ _ Hs) as Hs2.
    erewrite (M_bind_eq (map_err _ _)) by (by apply map_err_ok).
    destruct (InsertTransaction_progress c p A s2) as (id & s3 & Hi); [done| | |].
    + unfold not_posted. rewrite Hs2. simpl. by rewrite (gr_txns _ _ Hg).
    + intros l Hl. destruct (Hfits l Hl) as [Hf _].
      rewrite Forall_forall in HF. destruct (HF l Hl) as (_ & _ & Hpos & _). split.
      { apply numeric_fits_iff. rewrite Qabs_pos by lra. done. }
      destruct (Hcov' l Hl) as [la Hla]. destruct (lk_row _ _ HL _ _ Hla) as (row & Hrow & _ & ->).
      exists (mkLocked (acc_id row) (ref_Type (leg_Account l)) (acc_balance row)), (keyOf (leg_Account l)), (new_row out row).
      rewrite Hs2. simpl. rewrite lookup_fmap, Hrow, new_row_id. done.
    + exists id, s3. by apply map_err_ok.
  - exists s1. apply M_bind_err. unfold lift. by rewrite HD.
Qed.

Lemma postChecked_decided c p s :
  ledger_ok s → post_ready p s →
  if sufficient p s then ∃ id s', postChecked c p s = (Ok id, s')
  else ∃ s', postChecked c p s = (Err ErrInsufficientBalance, s').
Proof.
  intros Hok Hr. unfold postChecked.
  erewrite (M_bind_eq (lift _)) by (unfold lift; by rewrite (pr_valid _ _ Hr)). by apply post_decided.
Qed.
End Progress.
