(* ===== verification/LedgerThms.v ===== *)
(** The ledger's guarantees: consistency of every reachable ledger, and the
    effect of holding, releasing, settling and adjusting. *)
From Stdlib Require Import ZArith QArith Qabs Lqa Lia Sorting.Permutation.
From stdpp Require Import base tactics list gmap strings sorting.
From S2P Require Import Prelude Decimal GoString Money LedgerTypes LedgerFacts Ledger LedgerInv LedgerOps LedgerProgress.
#[local] Open Scope string_scope.
#[local] Open Scope Z_scope.

Section Thms.
Context `{DL : DecimalLib}.
Context (audit_Write : audit_event → result lerr ()) (IsDeleted : uuid → result lerr bool).

(** * Consistency *)

Lemma entry_balance_running t id s :
  ledger_ok s →
  (val (runningBalance t (sum_direction Credit (account_entries id s)) (sum_direction Debit (account_entries id s)))
   == entry_balance t id (entries s))%Q.
Proof.
  intros Hok. unfold entry_balance, account_entries. fold (on_account id).
  assert (HD : Forall (λ e, e_direction e = Debit ∨ e_direction e = Credit)
                 (List.filter (on_account id) (entries s))).
  { apply Forall_forall. intros e He. apply (ok_entry_dir _ Hok).
    apply list_elem_of_In, filter_In in He as [? _]. by apply list_elem_of_In. }
  change (λ e, (e_account e =? id)%N) with (on_account id).
  induction HD as [|e es He HD IH]; simpl.
  - unfold runningBalance. destruct (DebitNormal t); rewrite dec_sub_val, !dec_zero_val; reflexivity.
  - rewrite <- IH. unfold runningBalance, entry_delta, signedDelta.
    destruct He as [-> | ->]; destruct (DebitNormal t); simpl;
      rewrite ?dec_sub_val, ?dec_add_val, ?dec_neg_val; lra.
Qed.

Lemma ledger_ok_no_drift s : ledger_ok s → DriftRows s = [].
Proof.
  intros Hok. unfold DriftRows.
  assert (HF : ∀ kr, kr ∈ map_to_list (accounts s) → drifted s kr = false).
  { intros [k r] Hin. apply elem_of_map_to_list in Hin. unfold drifted. simpl.
    destruct (Equal_spec (acc_balance r) (runningBalance (k_Type k)
      (sum_direction Credit (account_entries (acc_id r) s)) (sum_direction Debit (account_entries (acc_id r) s))))
      as [|Hne]; [done|].
    exfalso. apply Hne. rewrite entry_balance_running by done. by apply (ok_drift _ Hok). }
  induction (map_to_list (accounts s)) as [|kr l IH]; simpl; [done|].
  rewrite HF by constructor. apply IH. intros. apply HF. by constructor.
Qed.

Lemma good_no_mismatch s : good s → HoldMismatchRows s = [].
Proof.
  intros [Hok Hho]. unfold HoldMismatchRows.
  assert (HF : ∀ kr, kr ∈ map_to_list (accounts s) → hold_mismatch s kr = false).
  { intros [k r] Hin. apply elem_of_map_to_list in Hin. unfold hold_mismatch. simpl.
    destruct (String.eqb_spec (k_Type k) UserBalanceHold) as [Ht|]; simpl; [|done].
    destruct (k_OwnerUserID k) as [u|] eqn:Hu; [|done].
    assert (k = hold_key u) as ->.
    { pose proof (ok_keys _ Hok _ _ Hin) as Hc. apply account_check_owner in Hc as [(? & _ & Hr)|(? & ? & _)]; [|congruence].
      destruct k; simpl in *; subst. done. }
    destruct (Equal_spec (acc_balance r) (foldr dec_add dec_zero (held_amounts u s))) as [|Hne]; [done|].
    exfalso. apply Hne. rewrite held_amounts_sum, <- (ho_sum _ Hho). unfold bal. by rewrite Hin. }
  induction (map_to_list (accounts s)) as [|kr l IH]; simpl; [done|].
  rewrite HF by constructor. apply IH. intros. apply HF. by constructor.
Qed.

Lemma ledger_ok_commit s : ledger_ok s → assert_ledger_balanced s = Ok ().
Proof.
  intros Hok. unfold assert_ledger_balanced.
  match goal with |- context [forallb ?f (txns s)] => assert (forallb f (txns s) = true) as -> end; [|done].
  apply forallb_forall. intros t Ht. apply list_elem_of_In in Ht.
  destruct (ok_balanced _ Hok _ Ht) as [Hl Hs]. apply andb_true_iff. split; [apply Z.leb_le; lia|].
  destruct (Equal_spec (sum_direction Debit (entries_of (t_id t) (entries s)))
              (sum_direction Credit (entries_of (t_id t) (entries s)))); done.
Qed.

(** * Postings of the order flow are valid *)

Definition memo_ok (memo : string) : Prop :=
  ValidString memo = true ∧ ContainsNUL memo = false ∧ RuneCountInString memo ≤ 500.

Lemma memo_empty : memo_ok "".
Proof. done. Qed.

Lemma validatePosting_intro kind o memo legs :
  Kind_Valid kind = true → kind ≠ KindBalanceAdjusted → o ≠ uuid_Nil → memo_ok memo →
  Forall leg_ok legs → balanced_legs legs → (2 ≤ length legs)%nat →
  validatePosting (mkPosting kind SourceOrder o memo legs) = Ok ().
Proof.
  intros Hk Hna Ho (Hv & Hc & Hr) HF Hb Hl. unfold validatePosting. simpl.
  apply N.eqb_neq in Ho. rewrite Hk, Ho, Hv, Hc. simpl.
  apply String.eqb_neq in Hna. rewrite Hna. simpl.
  assert (500 <? RuneCountInString memo = false) as -> by (apply Z.ltb_ge; lia).
  assert (Z.of_nat (length legs) <? 2 = false) as -> by (apply Z.ltb_ge; lia). simpl.
  destruct (sumLegs_total legs dec_zero dec_zero HF) as (d & c & Hs). rewrite Hs.
  apply sumLegs_spec in Hs as (_ & Hd & Hcr). unfold balanced_legs in Hb.
  destruct (Equal_spec d c) as [|Hne]; [done|]. exfalso. apply Hne. rewrite Hd, Hcr, Hb. reflexivity.
Qed.

(** Two user accounts of one user, debited and credited the same amount. *)
Lemma transfer_legs_ok a b u amt :
  AccountType_Valid a = true → UserOwned a = true → AccountType_Valid b = true → UserOwned b = true →
  u ≠ uuid_Nil → (0 < val amt)%Q → two_places amt →
  Forall leg_ok [mkLeg (UserAccount a u) Debit amt; mkLeg (UserAccount b u) Credit amt] ∧
  balanced_legs [mkLeg (UserAccount a u) Debit amt; mkLeg (UserAccount b u) Credit amt].
Proof.
  intros. split; [|unfold balanced_legs, leg_debit, leg_credit; simpl; lra].
  assert (Hl : ∀ t d, AccountType_Valid t = true → UserOwned t = true → d = Debit ∨ d = Credit →
            leg_ok (mkLeg (UserAccount t u) d amt)).
  { intros t d Hv Hu Hd. unfold leg_ok, ref_shape. simpl. rewrite Hv, Hu. done. }
  repeat constructor; apply Hl; auto.
Qed.

Lemma validateHoldInput_ok i :
  validateHoldInput i = Ok () →
  hi_OrderID i ≠ uuid_Nil ∧ hi_UserID i ≠ uuid_Nil ∧ (0 < val (hi_Amount i))%Q ∧ two_places (hi_Amount i).
Proof.
  unfold validateHoldInput. intros H. apply result_bind_ok in H as (? & Hr & H).
  apply result_bind_ok in H as (? & Hr2 & H). apply reject_ok in Hr, Hr2.
  apply orb_false_iff in Hr as [H1%N.eqb_neq H2%N.eqb_neq]. reflect_bools. dec_reflect.
  destruct (Check (hi_Amount i)) eqn:HC; [|done]. apply Check_ok in HC. done.
Qed.

(** C6: whatever sequence of postings, holds, releases, captures, settlements
    and adjustments (successful or refused) led to a ledger, the integrity
    checks find nothing: no cached balance drifts from its entries, no hold
    account differs from the sum of the held holds, and every transaction has
    at least two entries with equal debits and credits. *)
Theorem ledger_consistent s :
  reachable audit_Write IsDeleted s →
  DriftRows s = [] ∧ HoldMismatchRows s = [] ∧ assert_ledger_balanced s = Ok ().
Proof.
  intros H%reachable_good. split_and!.
  - by apply ledger_ok_no_drift, H.
  - by apply good_no_mismatch.
  - by apply ledger_ok_commit, H.
Qed.

(** C7: in every reachable ledger no user account is overdrawn and the books
    balance: debit-normal balances equal credit-normal balances in total. *)
Theorem ledger_solvent s :
  reachable audit_Write IsDeleted s →
  (∀ k, UserOwned (k_Type k) = true → (0 <= bal s k)%Q) ∧ (trial_of (accounts s) == 0)%Q.
Proof.
  intros [Hok _]%reachable_good. split; [|apply (ok_trial _ Hok)].
  intros k Hk. unfold bal. destruct (accounts s !! k) as [r|] eqn:Hr; [|lra].
  by eapply (ok_nonneg _ Hok).
Qed.

(** * Holding *)

(** Readiness and sufficiency of a transfer between two accounts of a user. *)
Lemma transfer_ready kind o memo a b u amt s :
  ledger_ok s → Kind_Valid kind = true → kind ≠ KindBalanceAdjusted → o ≠ uuid_Nil → memo_ok memo →
  AccountType_Valid a = true → UserOwned a = true → AccountType_Valid b = true → UserOwned b = true →
  DebitNormal a = false → DebitNormal b = false → a ≠ b →
  u ∈ users s → u ≠ uuid_Nil → (0 < val amt)%Q → two_places amt →
  (OnePerSource kind = true → existsb (same_source kind SourceOrder o) (txns s) = false) →
  (val amt < big)%Q → (bal s (mkKey a (Some u) "") < big)%Q → (bal s (mkKey b (Some u) "") + val amt < big)%Q →
  let p := mkPosting kind SourceOrder o memo
             [mkLeg (UserAccount a u) Debit amt; mkLeg (UserAccount b u) Credit amt] in
  post_ready p s ∧ sufficient p s = Qle_bool (val amt) (bal s (mkKey a (Some u) "")).
Proof.
  intros Hok Hk Hna Ho Hm Hva Hua Hvb Hub Hda Hdb Hab Hus Hun Hpos Hp2 Hnew Hab1 Hfa Hfb p.
  destruct (transfer_legs_ok a b u amt) as [HF Hb]; [done..|].
  assert (Hka : keyOf (UserAccount a u) = mkKey a (Some u) "") by (unfold keyOf; simpl; by rewrite Hua).
  assert (Hkb : keyOf (UserAccount b u) = mkKey b (Some u) "") by (unfold keyOf; simpl; by rewrite Hub).
  assert (HA : (delta_on (UserAccount a u) (p_Legs p) == - val amt)%Q).
  { unfold p; cbn [p_Legs]. rewrite transfer_delta by done. by rewrite !decide_True. }
  assert (HB : (delta_on (UserAccount b u) (p_Legs p) == val amt)%Q).
  { unfold p; cbn [p_Legs]. rewrite transfer_delta by done. rewrite decide_True, decide_False, decide_True by done. reflexivity. }
  assert (Hnn : ∀ t, UserOwned t = true → (0 <= bal s (mkKey t (Some u) ""))%Q).
  { intros t Ht. unfold bal. destruct (accounts s !! _) as [r|] eqn:Hr; [|lra].
    by eapply (ok_nonneg _ Hok). }
  pose proof (Hnn a Hua). pose proof (Hnn b Hub).
  assert (Hin : ∀ (P : Leg → Prop), P (mkLeg (UserAccount a u) Debit amt) → P (mkLeg (UserAccount b u) Credit amt) →
            ∀ l, l ∈ p_Legs p → P l).
  { intros P Pa Pb l [->|[->|?%not_elem_of_nil]%elem_of_cons]%elem_of_cons; done. }
  split.
  - split.
    + by apply validatePosting_intro.
    + intros Hone _. by apply Hnew.
    + apply Hin; done.
    + apply Hin; cbn [leg_Account leg_Amount]; rewrite ?Hka, ?Hkb, ?HA, ?HB; (split; [done|]); apply Qabs_Qlt_condition; lra.
  - unfold sufficient. cbn [forallb p_Legs p leg_Account ref_Type UserAccount]. rewrite Hua, Hub. simpl.
    rewrite Hka, Hkb. fold (p_Legs p). change [mkLeg (UserAccount a u) Debit amt; mkLeg (UserAccount b u) Credit amt] with (p_Legs p).
    rewrite HA, HB, andb_true_r.
    assert (Hle : Qle_bool 0 (bal s (mkKey b (Some u) "") + val amt) = true) by (apply Qle_bool_iff; lra).
    rewrite Hle, andb_true_r. apply eq_true_iff_eq. rewrite !Qle_bool_iff. split; lra.
Qed.

Lemma InsertHold_decided (orders : uuid → bool) o h s :
  (0 < val (h_amount h))%Q → two_places (h_amount h) → (val (h_amount h) < big)%Q →
  h_user h ∈ users s → holds s !! o = None →
  if orders o then ∃ h' s', InsertHold orders o h s = (Ok h', s') else InsertHold orders o h s = (Err (ErrDB DBForeignKey), s).
Proof.
  intros Hpos Hp Hf Hu Ho. unfold InsertHold. apply (Check_ok _ ()) in Hp. rewrite Hp.
  destruct (IsPositive_spec (h_amount h)); [|lra].
  assert (numeric_fits (h_amount h) = true) as -> by (apply numeric_fits_iff; rewrite Qabs_pos; lra).
  simpl. rewrite Ho. simpl. rewrite bool_decide_eq_true_2 by done. simpl. destruct (orders o); simpl; eauto.
Qed.

(** A body that succeeds and keeps the invariant commits. *)
Lemma DoL_commit {A} w (fn : ctx → M ledger lerr A) s a s' :
  fn (mkCtx true w) s = (Ok a, s') → ledger_ok s' → DoL (mkCtx false w) fn s = (Ok a, s').
Proof.
  intros Hf Hok. unfold DoL, Do. simpl. change (in_tx (mkCtx false w)) with (mkCtx true w).
  rewrite Hf. by rewrite ledger_ok_commit.
Qed.

Lemma DoL_rollback {A} w (fn : ctx → M ledger lerr A) s e s' :
  fn (mkCtx true w) s = (Err e, s') → DoL (mkCtx false w) fn s = (Err e, s).
Proof.
  intros Hf. unfold DoL, Do. simpl. change (in_tx (mkCtx false w)) with (mkCtx true w). by rewrite Hf.
Qed.

Lemma hold_ready i s :
  good s → validateHoldInput i = Ok () → hi_UserID i ∈ users s →
  existsb (same_source KindBalanceHold SourceOrder (hi_OrderID i)) (txns s) = false →
  (val (hi_Amount i) < big)%Q → (bal s (balance_key (hi_UserID i)) < big)%Q →
  (bal s (hold_key (hi_UserID i)) + val (hi_Amount i) < big)%Q →
  post_ready (hold_posting i) s ∧
  sufficient (hold_posting i) s = Qle_bool (val (hi_Amount i)) (bal s (balance_key (hi_UserID i))).
Proof.
  intros [Hok _] (Ho & Hu & Hpos & Hp)%validateHoldInput_ok ?????.
  apply transfer_ready; (done || apply memo_empty).
Qed.

(** A platform account is not touched by a transfer between user accounts. *)
Lemma transfer_delta_key a b u amt k :
  account_check k = true → UserOwned a = true → UserOwned b = true →
  DebitNormal a = false → DebitNormal b = false → a ≠ b →
  (delta_on (refOf k) [mkLeg (UserAccount a u) Debit amt; mkLeg (UserAccount b u) Credit amt] ==
   if decide (k = mkKey a (Some u) "") then - val amt
   else if decide (k = mkKey b (Some u) "") then val amt else 0)%Q.
Proof.
  intros Hk Hua Hub Hda Hdb Hab.
  destruct (account_check_owner k Hk) as [(Hu & [v Hv] & Hr)|(Hu & Hv & Hr)].
  - destruct k as [t ow rf]; simpl in *; subst. unfold refOf; simpl.
    rewrite transfer_delta by done. repeat case_decide; naive_solver.
  - rewrite delta_on_none.
    + rewrite !decide_False by (intros ->; simpl in *; congruence). reflexivity.
    + unfold refOf. rewrite Hv. simpl.
      intros [Heq|[Heq|?%not_elem_of_nil]%elem_of_cons]%elem_of_cons; [| |done];
        unfold PlatformAccount, UserAccount in Heq; simplify_eq; congruence.
Qed.

Lemma hold_posting_delta i k :
  account_check k = true →
  (delta_on (refOf k) (p_Legs (hold_posting i)) ==
   if decide (k = balance_key (hi_UserID i)) then - val (hi_Amount i)
   else if decide (k = hold_key (hi_UserID i)) then val (hi_Amount i) else 0)%Q.
Proof. intros Hk. by apply transfer_delta_key. Qed.

(** C28: holding balance for an order is decided by the balance and by whether
    the order exists.  With a valid request for an existing user and an order
    that has no hold yet, the hold succeeds exactly when the amount does not
    exceed the balance and the order is there: the amount moves from the user's
    balance to the user's hold account, no other account changes, and the hold
    row is stored as held.  Otherwise the request is refused, for insufficient
    balance or by the foreign key to the orders, and nothing is written. *)
Theorem hold_decided (orders : uuid → bool) w i s :
  reachable audit_Write IsDeleted s → validateHoldInput i = Ok () →
  hi_UserID i ∈ users s → holds s !! hi_OrderID i = None →
  existsb (same_source KindBalanceHold SourceOrder (hi_OrderID i)) (txns s) = false →
  (val (hi_Amount i) < big)%Q → (bal s (balance_key (hi_UserID i)) < big)%Q →
  (bal s (hold_key (hi_UserID i)) + val (hi_Amount i) < big)%Q →
  if Qle_bool (val (hi_Amount i)) (bal s (balance_key (hi_UserID i)))
  then if orders (hi_OrderID i)
       then ∃ h s', HoldForOrder orders (mkCtx false w) i s = (Ok h, s') ∧
         holds s' = <[hi_OrderID i := h]> (holds s) ∧
         h_user h = hi_UserID i ∧ h_amount h = hi_Amount i ∧ h_status h = HoldHeld ∧
         ∀ k, account_check k = true →
           (bal s' k == bal s k + if decide (k = balance_key (hi_UserID i)) then - val (hi_Amount i)
                                  else if decide (k = hold_key (hi_UserID i)) then val (hi_Amount i) else 0)%Q
       else HoldForOrder orders (mkCtx false w) i s = (Err (ErrDB DBForeignKey), s)
  else HoldForOrder orders (mkCtx false w) i s = (Err ErrInsufficientBalance, s).
Proof.
  intros Hg%reachable_good Hv Hus Ho Hnew Hf1 Hf2 Hf3. pose proof Hg as [Hok Hho].
  destruct (hold_ready i s) as [Hr Hs]; [done..|].
  pose proof (postChecked_decided (mkCtx true w) _ s Hok Hr) as HD. rewrite Hs in HD.
  assert (HH : HoldForOrder orders (mkCtx false w) i s = DoL (mkCtx false w) (λ c, holdForOrder orders c i) s).
  { unfold HoldForOrder. erewrite (M_bind_eq (lift _)) by (unfold lift; by rewrite Hv). done. }
  assert (Hbody : holdForOrder orders (mkCtx true w) i s =
     (txnID ← map_err (λ e, if is_duplicate e then ErrHoldExists else e)
                (postChecked (mkCtx true w) (hold_posting i));
      map_err (λ e, match e with ErrDB DBUnique => ErrHoldExists | _ => e end)
        (InsertHold orders (hi_OrderID i)
           (mkHold uuid_Nil (hi_UserID i) (hi_Amount i) HoldHeld txnID None None))) s).
  { unfold holdForOrder, HoldByOrder. erewrite (M_bind_eq (gets _)) by reflexivity. by rewrite Ho. }
  destruct (validateHoldInput_ok _ Hv) as (Hon & Hun & Hpos & Hp).
  destruct (Qle_bool _ _).
  - destruct HD as (id & s1 & Hp1).
    pose proof (postChecked_spec _ _ _ _ _ Hok Hp1) as HP.
    pose proof (InsertHold_decided orders (hi_OrderID i) (mkHold uuid_Nil (hi_UserID i) (hi_Amount i) HoldHeld id None None) s1
      Hpos Hp Hf1 ltac:(by rewrite (po_users _ _ _ _ _ HP)) ltac:(by rewrite (po_holds _ _ _ _ _ HP))) as HI.
    destruct (orders (hi_OrderID i)).
    2: { rewrite HH. apply (DoL_rollback _ _ _ _ s1). rewrite Hbody, (M_bind_eq _ _ _ _ _ (map_err_eq _ _ _ _ _ Hp1)).
         unfold map_err. by rewrite HI. }
    destruct HI as (h & s2 & Hi).
    assert (Hres : holdForOrder orders (mkCtx true w) i s = (Ok h, s2)).
    { rewrite Hbody, (M_bind_eq _ _ _ _ _ (map_err_eq _ _ _ _ _ Hp1)). by apply map_err_ok. }
    pose proof (holdForOrder_spec _ _ _ _ _ _ Hok Hho Hres) as Hheld.
    exists h, s2. split; [rewrite HH; apply DoL_commit; [done|apply Hheld]|].
    split; [apply Hheld|]. destruct (hd_h _ _ _ _ Hheld) as (? & ? & ?).
    split_and!; [done..|]. intros k Hk. by rewrite (hd_bal _ _ _ _ Hheld k Hk), hold_posting_delta.
  - destruct HD as (s1 & Hp1). rewrite HH. apply (DoL_rollback _ _ _ _ s1).
    rewrite Hbody. apply M_bind_err. unfold map_err. by rewrite Hp1.
Qed.

(** * Releasing *)

Lemma held_part_le u h m o :
  (∀ o' h', m !! o' = Some h' → (0 <= val (h_amount h'))%Q) →
  m !! o = Some h → (held_part u h <= held_sum u m)%Q.
Proof.
  intros Hnn Ho. rewrite <- (insert_delete_id m o h Ho), held_sum_insert by apply lookup_delete_eq.
  assert (0 <= held_sum u (delete o m))%Q; [|lra].
  apply Qsum_nonneg. apply Forall_forall. intros q ([o' h'] & -> & Hin)%list_elem_of_fmap.
  apply elem_of_map_to_list, lookup_delete_Some in Hin as [_ Hin]. simpl. unfold held_part.
  destruct (_ && _); [by eapply Hnn|lra].
Qed.

(** The hold account covers every held hold of its owner. *)
Lemma hold_covered s o h :
  holds_ok s → holds s !! o = Some h → h_status h = HoldHeld →
  (val (h_amount h) <= bal s (hold_key (h_user h)))%Q.
Proof.
  intros Hho Ho Hst. rewrite (ho_sum _ Hho).
  pose proof (held_part_le (h_user h) h (holds s) o) as H. unfold held_part in H at 1.
  rewrite N.eqb_refl, Hst in H. simpl in H. apply H; [|done].
  intros o' h' Ho'. apply (ho_row _ Hho) in Ho' as (_ & _ & ? & _). lra.
Qed.

Lemma held_one s o h :
  holds_ok s → holds s !! o = Some h → h_status h = HoldHeld →
  rows_affected (is_held (h_id h)) (holds s) = 1%nat.
Proof.
  intros Hho Ho Hst. apply (rows_affected_one _ _ o h); [done| |].
  - unfold is_held. by rewrite N.eqb_refl, Hst.
  - intros o' h' Ho' [Hi%N.eqb_eq _]%andb_true_iff. by eapply (ho_ids _ Hho).
Qed.

Lemma release_progress w o memo h s :
  good s → holds s !! o = Some h → h_status h = HoldHeld → h_user h ∈ users s → memo_ok memo →
  existsb (same_source KindBalanceRelease SourceOrder o) (txns s) = false →
  (bal s (hold_key (h_user h)) < big)%Q →
  (bal s (balance_key (h_user h)) + val (h_amount h) < big)%Q →
  ∃ s', ReleaseOrderHold (mkCtx false w) o memo s = (Ok true, s') ∧ released o h s s'.
Proof.
  intros [Hok Hho] Ho Hst Hus Hm Hnew Hf1 Hf2.
  destruct (ho_row _ Hho _ _ Ho) as (Hon & Hun & Hpos & Hp & _).
  pose proof (hold_covered s o h Hho Ho Hst) as Hcov.
  destruct (transfer_ready KindBalanceRelease o memo UserBalanceHold UserBalance (h_user h) (h_amount h) s)
    as [Hr Hs]; try done.
  { change (mkKey UserBalanceHold (Some (h_user h)) "") with (hold_key (h_user h)) in *. lra. }
  pose proof (postChecked_decided (mkCtx true w) _ s Hok Hr) as HD. rewrite Hs in HD.
  assert (Qle_bool (val (h_amount h)) (bal s (mkKey UserBalanceHold (Some (h_user h)) "")) = true) as Hle
    by (by apply Qle_bool_iff). rewrite Hle in HD.
  destruct HD as (id & s1 & Hp1). pose proof (postChecked_spec _ _ _ _ _ Hok Hp1) as HP.
  assert (Hres : ∃ s', releaseOrderHold (mkCtx true w) o memo s = (Ok true, s')).
  { unfold releaseOrderHold, LockHoldByOrder. erewrite (M_bind_eq (gets _)) by reflexivity.
    rewrite Ho, Hst. simpl. rewrite (M_bind_eq _ _ _ _ _ Hp1).
    unfold MarkHoldReleased. erewrite M_bind_eq by reflexivity.
    rewrite (po_holds _ _ _ _ _ HP), (held_one s o h) by done. by eexists. }
  destruct Hres as [s' Hres]. exists s'.
  pose proof (releaseOrderHold_spec _ _ _ _ _ _ Hok Hho Hres) as (h' & HR).
  assert (h' = h) as -> by (destruct (rl_held _ _ _ _ HR); congruence).
  split; [|done]. apply DoL_commit; [done|apply HR].
Qed.

(** Releasing undoes holding.  After a successful hold, releasing it (with
    an acceptable memo, no earlier release of that order, and a balance that
    fits its column) succeeds, puts every account back to the balance it had
    before the hold, and leaves the hold released; releasing again reports
    that nothing was released and changes nothing. *)
Theorem hold_release_roundtrip orders w w' i memo h s s1 :
  reachable audit_Write IsDeleted s →
  HoldForOrder orders (mkCtx false w) i s = (Ok h, s1) →
  hi_UserID i ∈ users s1 → memo_ok memo →
  existsb (same_source KindBalanceRelease SourceOrder (hi_OrderID i)) (txns s1) = false →
  (bal s1 (hold_key (hi_UserID i)) < big)%Q → (bal s (balance_key (hi_UserID i)) < big)%Q →
  ∃ s2 h', ReleaseOrderHold (mkCtx false w') (hi_OrderID i) memo s1 = (Ok true, s2) ∧
    (∀ k, account_check k = true → (bal s2 k == bal s k)%Q) ∧
    holds s2 = <[hi_OrderID i := h']> (holds s) ∧ h_status h' = HoldReleased ∧
    h_amount h' = hi_Amount i ∧ h_user h' = hi_UserID i ∧
    ReleaseOrderHold (mkCtx false w') (hi_OrderID i) memo s2 = (Ok false, s2).
Proof.
  intros [Hok Hho]%reachable_good HH Hus Hm Hnew Hf1 Hf2.
  unfold HoldForOrder in HH. apply M_bind_ok in HH as (u & s0 & Hv & HH). unfold lift in Hv.
  injection Hv as Hv <-. apply Do_ok, holdForOrder_spec in HH as Hheld; [|done..].
  destruct (hd_h _ _ _ _ Hheld) as (Eu & Ea & Est).
  assert (Ho1 : holds s1 !! hi_OrderID i = Some h) by (rewrite (hd_row _ _ _ _ Hheld); apply lookup_insert_eq).
  assert (Hbal1 : (bal s1 (balance_key (hi_UserID i)) == bal s (balance_key (hi_UserID i)) - val (hi_Amount i))%Q).
  { rewrite (hd_bal _ _ _ _ Hheld), hold_posting_delta by done. rewrite decide_True by done. reflexivity. }
  destruct (release_progress w' (hi_OrderID i) memo h s1) as (s2 & Hrel & HR); try done.
  { split; apply Hheld. } { by rewrite Eu. } { by rewrite Eu. } { rewrite Eu, Ea, Hbal1. lra. }
  destruct (rl_row _ _ _ _ HR) as [id Hrow]. exists s2, (released_row id h).
  split; [done|]. split_and!; try done.
  - intros k Hk. rewrite (rl_bal _ _ _ _ HR k Hk), (hd_bal _ _ _ _ Hheld k Hk), hold_posting_delta by done.
    unfold release_posting; cbn [p_Legs]. rewrite transfer_delta_key by done.
    rewrite Eu, Ea. fold (hold_key (hi_UserID i)) (balance_key (hi_UserID i)).
    repeat case_decide; subst; try done; lra.
  - rewrite Hrow, (hd_row _ _ _ _ Hheld). apply insert_insert_eq.
  - apply DoL_commit; [|apply HR]. unfold releaseOrderHold, LockHoldByOrder.
    erewrite (M_bind_eq (gets _)) by reflexivity. by rewrite Hrow, lookup_insert_eq.
Qed.
End Thms.
