(* ===== verification/LedgerSettle.v ===== *)
(** Settling an order in the ledger: what a settlement posts, that a valid one
    goes through, that an order is settled at most once; and the properties of
    the whole history: the journal is append-only, a closed hold is final, a
    once-per-source posting happens once, adjustments are exact and audited. *)
From Stdlib Require Import ZArith QArith Qabs Lqa Lia Sorting.Permutation.
From stdpp Require Import base tactics list gmap strings sorting.
From S2P Require Import Prelude Safety Decimal GoString Money LedgerTypes LedgerFacts Ledger LedgerInv LedgerOps.
From S2P Require Import LedgerProgress LedgerThms.
#[local] Open Scope string_scope.
#[local] Open Scope Z_scope.

Section Settle.
Context `{DL : DecimalLib}.
Context (audit_Write : audit_event → result lerr ()) (IsDeleted : uuid → result lerr bool).

(** * The legs of a settlement *)

Definition platform_key (t ref : string) : AccountKey := mkKey t None ref.

(** How much each account gains when order [p] is settled: the channel gets
    what was collected less its fee, the fee account the fee, revenue the
    order's total and, apart, the surcharge; the part paid from balance leaves
    the payer's hold account. *)
Definition paid_change (p : OrderPaid) (k : AccountKey) : Q :=
  (if decide (k = platform_key ChannelCash (op_Provider p))
   then val (op_Paid p) + val (op_Surcharge p) - val (op_Fee p)
   else if decide (k = platform_key PlatformFeeExpense (op_Provider p)) then val (op_Fee p)
   else if decide (k = platform_key PlatformRevenue RefMain) then val (op_Total p)
   else if decide (k = platform_key PlatformRevenue RefSurcharge) then val (op_Surcharge p)
   else if decide (k = hold_key (op_UserID p)) then - (val (op_Total p) - val (op_Paid p))
   else 0)%Q.

(** What [validateOrderPaid] guarantees. *)
Record paid_valid (p : OrderPaid) : Prop := {
  pv_order : op_OrderID p ≠ uuid_Nil;
  pv_user : op_UserID p ≠ uuid_Nil;
  pv_total : (0 <= val (op_Total p))%Q ∧ two_places (op_Total p);
  pv_paid : (0 <= val (op_Paid p))%Q ∧ two_places (op_Paid p);
  pv_fee : (0 <= val (op_Fee p))%Q ∧ two_places (op_Fee p);
  pv_surcharge : (0 <= val (op_Surcharge p))%Q ∧ two_places (op_Surcharge p);
  pv_le : (val (op_Paid p) <= val (op_Total p))%Q;
  pv_fee_le : (val (op_Fee p) <= val (op_Paid p) + val (op_Surcharge p))%Q;
  pv_sur : (0 < val (op_Surcharge p))%Q → (0 < val (op_Paid p))%Q;
  pv_provider : (0 < val (op_Paid p) + val (op_Surcharge p))%Q →
    op_Provider p ≠ "" ∧ blen (op_Provider p) ≤ 64;
}.

Lemma validateOrderPaid_ok p : validateOrderPaid p = Ok () → paid_valid p.
Proof.
  unfold validateOrderPaid, nonneg_amounts. intros H.
  do 5 apply result_bind_ok in H as (? & ?Hr & H). apply reject_ok in H.
  destruct (forallb _ _) eqn:HF in Hr0; [clear Hr0|done].
  repeat match goal with Hr : reject _ _ = Ok _ |- _ => apply reject_ok in Hr end.
  apply orb_false_iff in Hr as [Ho%N.eqb_neq Hu%N.eqb_neq]. simpl in HF.
  assert (HN : ∀ d, match CheckNonNegative d with Ok _ => true | Err _ => false end = true →
             (0 <= val d)%Q ∧ two_places d).
  { intros d Hd. destruct (CheckNonNegative d) eqn:E; [|done]. by apply CheckNonNegative_ok in E. }
  apply andb_true_iff in HF as [HT%HN [HP%HN [HFe%HN [HS%HN _]%andb_true_iff]%andb_true_iff]%andb_true_iff].
  dec_reflect. rewrite dec_add_val in *.
  split; try done.
  - intros Hs. destruct (IsPositive_spec (op_Surcharge p)); [|lra].
    destruct (IsPositive_spec (op_Paid p)); done.
  - intros Hg. destruct (IsPositive_spec (dec_add (op_Paid p) (op_Surcharge p))) as [_|Hn];
      [|rewrite dec_add_val in Hn; lra].
    simpl in H. apply orb_false_iff in H as [?%String.eqb_neq ?%Z.ltb_ge]. done.
Qed.

(** A leg that is present when its amount is positive counts as its amount. *)
Lemma opt_leg_delta r ref d a :
  (0 <= val a)%Q →
  (delta_on r (if IsPositive a then [mkLeg ref d a] else []) ==
   if decide (r = ref) then leg_delta (mkLeg ref d a) else 0)%Q.
Proof.
  intros Ha. destruct (IsPositive_spec a) as [Hp|Hp].
  - rewrite delta_on_cons, delta_on_nil. case_decide; subst.
    + rewrite on_ref_true by done. lra.
    + rewrite on_ref_false by (simpl; congruence). lra.
  - rewrite delta_on_nil. case_decide; [|done]. unfold leg_delta, signedDelta; simpl.
    repeat case_match; rewrite ?dec_neg_val; lra.
Qed.

Lemma opt_leg_sum ref d a :
  (0 <= val a)%Q →
  (Qsum (map leg_debit (if IsPositive a then [mkLeg ref d a] else [])) ==
   if String.eqb d Debit then val a else 0)%Q ∧
  (Qsum (map leg_credit (if IsPositive a then [mkLeg ref d a] else [])) ==
   if String.eqb d Credit then val a else 0)%Q.
Proof.
  intros Ha. destruct (IsPositive_spec a) as [Hp|Hp]; unfold leg_debit, leg_credit; simpl;
    repeat case_match; split; lra.
Qed.

Lemma refOf_eq_iff k r : account_check k = true → ref_shape r → refOf k = r ↔ k = keyOf r.
Proof.
  intros Hk Hr. split; [intros <-; by rewrite keyOf_refOf|intros ->; by apply refOf_keyOf].
Qed.

Lemma platform_shape t ref :
  AccountType_Valid t = true → UserOwned t = false → ref ≠ "" → blen ref ≤ 64 →
  ref_shape (PlatformAccount t ref).
Proof. intros Hv Hu. unfold ref_shape. simpl. by rewrite Hv, Hu. Qed.

Lemma refOf_platform k t ref :
  account_check k = true → UserOwned t = false → refOf k = PlatformAccount t ref ↔ k = platform_key t ref.
Proof.
  intros Hk Hu. destruct (account_check_owner k Hk) as [(H1 & [v Hv] & Hr)|(H1 & Hv & Hr)];
    destruct k as [kt ow rf]; simpl in *; subst; unfold refOf, PlatformAccount, UserAccount, platform_key; simpl;
    split; intros; simplify_eq; congruence.
Qed.

Lemma refOf_user k t u :
  account_check k = true → UserOwned t = true → refOf k = UserAccount t u ↔ k = mkKey t (Some u) "".
Proof.
  intros Hk Hu. destruct (account_check_owner k Hk) as [(H1 & [v Hv] & Hr)|(H1 & Hv & Hr)];
    destruct k as [kt ow rf]; simpl in *; subst; unfold refOf, PlatformAccount, UserAccount; simpl;
    split; intros; simplify_eq; congruence.
Qed.

Lemma paid_legs_delta p k :
  paid_valid p → account_check k = true →
  (delta_on (refOf k) (orderPaidLegs p (dec_sub (op_Total p) (op_Paid p))) == paid_change p k)%Q.
Proof.
  intros [_ _ [HT _] [HP _] [HFe _] [HS _] Hle Hfl _ _] Hk. unfold orderPaidLegs.
  rewrite !delta_on_app.
  rewrite !opt_leg_delta by (rewrite ?dec_sub_val, ?dec_add_val; lra).
  assert (Hrev : (delta_on (refOf k) [mkLeg (PlatformAccount PlatformRevenue RefMain) Credit (op_Total p)] ==
                  if decide (refOf k = PlatformAccount PlatformRevenue RefMain) then val (op_Total p) else 0)%Q).
  { rewrite delta_on_cons, delta_on_nil. case_decide as He.
    - rewrite on_ref_true by done. unfold leg_delta, signedDelta; simpl. lra.
    - rewrite on_ref_false by (simpl; congruence). lra. }
  rewrite Hrev. unfold leg_delta, signedDelta; simpl.
  unfold paid_change. unfold hold_key.
  assert (EP : ∀ t r (x y : Q), UserOwned t = false →
    (if decide (refOf k = PlatformAccount t r) then x else y) = (if decide (k = platform_key t r) then x else y)).
  { intros t r x y Ht. apply decide_ext. by apply refOf_platform. }
  assert (EU : ∀ t u (x y : Q), UserOwned t = true →
    (if decide (refOf k = UserAccount t u) then x else y) = (if decide (k = mkKey t (Some u) "") then x else y)).
  { intros t u x y Ht. apply decide_ext. by apply refOf_user. }
  rewrite !EP, EU by done. clear Hrev EP EU.
  repeat case_decide; subst; simplify_eq;
    rewrite ?dec_neg_val, ?dec_sub_val, ?dec_add_val; try lra.
Qed.

Definition channel_net (p : OrderPaid) : dec := dec_sub (dec_add (op_Paid p) (op_Surcharge p)) (op_Fee p).
Definition from_balance (p : OrderPaid) : dec := dec_sub (op_Total p) (op_Paid p).

Lemma opt_leg_in l ref d a :
  l ∈ (if IsPositive a then [mkLeg ref d a] else []) → l = mkLeg ref d a ∧ (0 < val a)%Q.
Proof.
  destruct (IsPositive_spec a); [|by intros ?%not_elem_of_nil]. by intros ->%list_elem_of_singleton.
Qed.

(** Each leg that is posted, with its amount positive. *)
Lemma paid_legs_in p l :
  l ∈ orderPaidLegs p (from_balance p) →
  (l = mkLeg (PlatformAccount ChannelCash (op_Provider p)) Debit (channel_net p) ∧ (0 < val (channel_net p))%Q) ∨
  (l = mkLeg (PlatformAccount PlatformFeeExpense (op_Provider p)) Debit (op_Fee p) ∧ (0 < val (op_Fee p))%Q) ∨
  (l = mkLeg (UserAccount UserBalanceHold (op_UserID p)) Debit (from_balance p) ∧ (0 < val (from_balance p))%Q) ∨
  l = mkLeg (PlatformAccount PlatformRevenue RefMain) Credit (op_Total p) ∨
  (l = mkLeg (PlatformAccount PlatformRevenue RefSurcharge) Credit (op_Surcharge p) ∧ (0 < val (op_Surcharge p))%Q).
Proof.
  unfold orderPaidLegs. rewrite !elem_of_app.
  intros [?%opt_leg_in|[?%opt_leg_in|[?%opt_leg_in|[?%list_elem_of_singleton|?%opt_leg_in]]]]; tauto.
Qed.

Lemma paid_places p : paid_valid p → two_places (channel_net p) ∧ two_places (from_balance p).
Proof.
  intros [_ _ [_ HT] [_ HP] [_ HF] [_ HS] _ _ _ _]. split.
  - assert (Ha : two_places (dec_add (op_Paid p) (op_Surcharge p)))
      by (eapply two_places_add; [exact HP|exact HS|apply dec_add_val]).
    eapply two_places_sub; [exact Ha|exact HF|apply dec_sub_val].
  - eapply two_places_sub; [exact HT|exact HP|apply dec_sub_val].
Qed.

Lemma channel_net_val p : (val (channel_net p) == val (op_Paid p) + val (op_Surcharge p) - val (op_Fee p))%Q.
Proof. unfold channel_net. rewrite dec_sub_val, dec_add_val. reflexivity. Qed.
Lemma from_balance_val p : (val (from_balance p) == val (op_Total p) - val (op_Paid p))%Q.
Proof. unfold from_balance. by rewrite dec_sub_val. Qed.

Lemma paid_legs_ok p :
  paid_valid p → (0 < val (op_Total p))%Q → Forall leg_ok (orderPaidLegs p (from_balance p)).
Proof.
  intros Hv Ht. destruct (paid_places p Hv) as [Hn Ha].
  pose proof (channel_net_val p) as En. pose proof (from_balance_val p) as Ea.
  destruct Hv as [_ Hu [_ HT] [HP HP2] [HF HF2] [HS HS2] Hle Hfl _ Hprov].
  assert (Hplat : ∀ t r d a, AccountType_Valid t = true → UserOwned t = false → r ≠ "" → blen r ≤ 64 →
            d = Debit ∨ d = Credit → (0 < val a)%Q → two_places a → leg_ok (mkLeg (PlatformAccount t r) d a)).
  { intros. unfold leg_ok. split; [by apply platform_shape|done]. }
  apply Forall_forall. intros l [[-> ?]|[[-> ?]|[[-> ?]|[->|[-> ?]]]]]%paid_legs_in.
  - destruct Hprov as [? ?]; [lra|]. apply Hplat; auto.
  - destruct Hprov as [? ?]; [lra|]. apply Hplat; auto.
  - unfold leg_ok, ref_shape. simpl. auto.
  - apply Hplat; auto. done.
  - apply Hplat; auto. done.
Qed.

Lemma paid_legs_balanced p :
  paid_valid p → balanced_legs (orderPaidLegs p (from_balance p)).
Proof.
  intros [_ _ [HT _] [HP _] [HF _] [HS _] Hle Hfl _ _]. unfold balanced_legs, orderPaidLegs.
  fold (channel_net p). rewrite !map_app, !Qsum_app.
  assert (0 <= val (channel_net p))%Q by (rewrite channel_net_val; lra).
  assert (0 <= val (from_balance p))%Q by (rewrite from_balance_val; lra).
  repeat match goal with
  | |- context [IsPositive ?a] =>
      match goal with |- context [if IsPositive a then [mkLeg ?r ?d a] else []] =>
        let H1 := fresh in let H2 := fresh in
        destruct (opt_leg_sum r d a) as [H1 H2]; [done|rewrite H1, H2; clear H1 H2] end
  end.
  simpl. unfold leg_debit, leg_credit; simpl. rewrite channel_net_val, from_balance_val. lra.
Qed.

Lemma paid_legs_two p :
  paid_valid p → (0 < val (op_Total p))%Q → (2 ≤ length (orderPaidLegs p (from_balance p)))%nat.
Proof.
  intros [_ _ [HT _] [HP _] [HF _] [HS _] Hle Hfl _ _] Ht. unfold orderPaidLegs. fold (channel_net p).
  pose proof (channel_net_val p). pose proof (from_balance_val p). rewrite !length_app.
  destruct (IsPositive_spec (channel_net p)), (IsPositive_spec (op_Fee p)),
    (IsPositive_spec (from_balance p)); simpl; lia || lra.
Qed.

(** A settlement that passes [validateOrderPaid] always passes
    [validatePosting]. *)
Lemma paid_posting_valid p :
  paid_valid p → (0 < val (op_Total p))%Q → validatePosting (paid_posting p (from_balance p)) = Ok ().
Proof.
  intros Hv Ht. apply validatePosting_intro; try done.
  - apply Hv.
  - by apply paid_legs_ok.
  - by apply paid_legs_balanced.
  - by apply paid_legs_two.
Qed.

(** * Settling succeeds *)

(** The accounts a settlement may touch. *)
Definition paid_keys (p : OrderPaid) : list AccountKey :=
  [platform_key ChannelCash (op_Provider p); platform_key PlatformFeeExpense (op_Provider p);
   hold_key (op_UserID p); platform_key PlatformRevenue RefMain; platform_key PlatformRevenue RefSurcharge].

(** The hold the settlement expects: the part not paid through the channel is
    held by the payer, and nothing is held when the channel paid it all. *)
Definition hold_matches (p : OrderPaid) (found : option hold_row) : Prop :=
  match found with
  | Some h => if Qlt_le_dec (val (op_Paid p)) (val (op_Total p))
              then h_status h = HoldHeld ∧ h_user h = op_UserID p ∧
                   (val (h_amount h) == val (op_Total p) - val (op_Paid p))%Q
              else h_status h = HoldReleased
  | None => (val (op_Total p) <= val (op_Paid p))%Q
  end.

Lemma hold_matches_check p found :
  hold_matches p found → check_hold p (from_balance p) found = Ok ().
Proof.
  pose proof (from_balance_val p) as Ea. unfold hold_matches, check_hold.
  destruct found as [h|]; destruct (IsPositive_spec (from_balance p)) as [Hp|Hp].
  - destruct (Qlt_le_dec _ _) as [?|?]; [|lra]. intros (-> & -> & Hamt). simpl. rewrite N.eqb_refl.
    destruct (Equal_spec (h_amount h) (from_balance p)) as [|Hne]; [done|].
    exfalso. apply Hne. by rewrite Ea.
  - destruct (Qlt_le_dec _ _) as [?|?]; [lra|]. by intros ->.
  - intros. lra.
  - done.
Qed.

Lemma paid_ready p s :
  ledger_ok s → paid_valid p → (0 < val (op_Total p))%Q → op_UserID p ∈ users s →
  pg_text (op_Provider p) = true →
  existsb (same_source KindOrderPaid SourceOrder (op_OrderID p)) (txns s) = false →
  (val (op_Total p) + val (op_Surcharge p) < big)%Q →
  Forall (λ k, (Qabs (bal s k + paid_change p k) < big)%Q) (paid_keys p) →
  post_ready (paid_posting p (from_balance p)) s.
Proof.
  intros Hok Hv Ht Hus Htx Hnew Hbig Hfit.
  pose proof (paid_legs_ok p Hv Ht) as HF. rewrite Forall_forall in HF.
  assert (Hrefs : ∀ l, l ∈ orderPaidLegs p (from_balance p) → pg_text (ref_Ref (leg_Account l)) = true ∧
              (UserOwned (ref_Type (leg_Account l)) = true → ref_UserID (leg_Account l) ∈ users s)).
  { intros l [[-> ?]|[[-> ?]|[[-> ?]|[->|[-> ?]]]]]%paid_legs_in; done. }
  split; [by apply paid_posting_valid|by intros _ _|exact Hrefs|].
  cbn [p_Legs paid_posting]. intros l Hl. destruct (HF l Hl) as (Hsh & _).
  assert (Hck : account_check (keyOf (leg_Account l)) = true).
  { apply (keyOf_ready (users s)). split; [done|]. by apply Hrefs. }
  pose proof (paid_legs_delta p _ Hv Hck) as Hd. rewrite refOf_keyOf in Hd by done.
  fold (from_balance p) in Hd. rewrite Hd. rewrite Forall_forall in Hfit. split.
  - pose proof (channel_net_val p). pose proof (from_balance_val p).
    destruct Hv as [_ _ [HT _] [HP _] [HFe _] [HS _] Hle Hfl _ _].
    apply paid_legs_in in Hl as [[-> ?]|[[-> ?]|[[-> ?]|[->|[-> ?]]]]]; simpl; lra.
  - apply Hfit. unfold paid_keys.
    apply paid_legs_in in Hl as [[-> ?]|[[-> ?]|[[-> ?]|[->|[-> ?]]]]]; simpl;
      rewrite !elem_of_cons; auto 6.
Qed.

Lemma paid_sufficient p s :
  good s → paid_valid p → (0 < val (op_Total p))%Q → hold_matches p (holds s !! op_OrderID p) →
  sufficient (paid_posting p (from_balance p)) s = true.
Proof.
  intros [Hok Hho] Hv Ht Hm. pose proof (from_balance_val p) as Ea.
  unfold sufficient. apply forallb_forall. intros l Hl%list_elem_of_In. cbn [p_Legs paid_posting] in *.
  pose proof Hl as [[-> ?]|[[-> ?]|[[-> ?]|[->|[-> ?]]]]]%paid_legs_in; try done.
  cbn [leg_Account ref_Type UserAccount]. apply orb_true_iff. right. apply Qle_bool_iff.
  change (keyOf (mkRef UserBalanceHold (op_UserID p) "")) with (hold_key (op_UserID p)).
  change (mkRef UserBalanceHold (op_UserID p) "") with (UserAccount UserBalanceHold (op_UserID p)).
  rewrite paid_hold_delta. destruct (IsPositive_spec (from_balance p)); [|lra].
  rewrite decide_True by done.
  unfold hold_matches in Hm. destruct (holds s !! op_OrderID p) as [h|] eqn:Ho; [|exfalso; lra].
  destruct (Qlt_le_dec _ _); [|exfalso; lra]. destruct Hm as (Hst & Hu & Ham).
  pose proof (hold_covered s _ h Hho Ho Hst) as Hc. rewrite Hu in Hc.
  change (keyOf (UserAccount UserBalanceHold (op_UserID p))) with (hold_key (op_UserID p)). lra.
Qed.

Lemma PostOrderPaid_body w p s :
  validateOrderPaid p = Ok () →
  PostOrderPaid (mkCtx false w) p s = DoL (mkCtx false w) (λ c, postOrderPaid c p) s.
Proof.
  intros Hv. unfold PostOrderPaid. erewrite (M_bind_eq (lift _)) by (unfold lift; by rewrite Hv). done.
Qed.

Lemma postOrderPaid_progress c p s :
  good s → paid_valid p → (0 < val (op_Total p))%Q → op_UserID p ∈ users s →
  pg_text (op_Provider p) = true →
  existsb (same_source KindOrderPaid SourceOrder (op_OrderID p)) (txns s) = false →
  hold_matches p (holds s !! op_OrderID p) →
  (val (op_Total p) + val (op_Surcharge p) < big)%Q →
  Forall (λ k, (Qabs (bal s k + paid_change p k) < big)%Q) (paid_keys p) →
  ∃ id s', postOrderPaid c p s = (Ok id, s').
Proof.
  intros Hg Hv Ht Hus Htx Hnew Hm Hbig Hfit. pose proof Hg as [Hok Hho].
  pose proof (paid_ready p s Hok Hv Ht Hus Htx Hnew Hbig Hfit) as Hr.
  pose proof (postChecked_decided c _ s Hok Hr) as HD. rewrite paid_sufficient in HD by done.
  destruct HD as (id & s1 & Hp1). pose proof (postChecked_spec _ _ _ _ _ Hok Hp1) as HP.
  unfold postOrderPaid. fold (from_balance p). unfold LockHoldByOrder.
  erewrite (M_bind_eq (gets _)) by reflexivity.
  erewrite (M_bind_eq (lift _)) by (unfold lift; by rewrite hold_matches_check).
  destruct (IsZero_spec (op_Total p)) as [Hz|_]; [lra|]. rewrite (M_bind_eq _ _ _ _ _ Hp1).
  destruct (IsPositive_spec (from_balance p)) as [Hpos|]; [|by eexists _, _].
  pose proof (from_balance_val p) as Ea. unfold hold_matches in Hm.
  destruct (holds s !! op_OrderID p) as [h|] eqn:Ho; [|lra].
  destruct (Qlt_le_dec _ _); [|lra]. destruct Hm as (Hst & _).
  unfold MarkHoldCaptured. erewrite M_bind_eq by reflexivity.
  rewrite (po_holds _ _ _ _ _ HP), (held_one s (op_OrderID p) h) by done. by eexists _, _.
Qed.

(** C29: settling a valid order succeeds and is exact.  With a paid order whose
    amounts pass the checks, a payer with the matching hold, no earlier
    settlement and sums that fit their column, the settlement commits: the
    channel account gains what was collected minus the fee, the fee account the
    fee, revenue the order total, the surcharge account the surcharge, the
    payer's hold account loses the part paid from balance, every other account
    is untouched, and the hold becomes captured. *)
Theorem settle_exact w p s :
  reachable audit_Write IsDeleted s → validateOrderPaid p = Ok () → (0 < val (op_Total p))%Q →
  op_UserID p ∈ users s → pg_text (op_Provider p) = true →
  existsb (same_source KindOrderPaid SourceOrder (op_OrderID p)) (txns s) = false →
  hold_matches p (holds s !! op_OrderID p) →
  (val (op_Total p) + val (op_Surcharge p) < big)%Q →
  Forall (λ k, (Qabs (bal s k + paid_change p k) < big)%Q) (paid_keys p) →
  ∃ id s', PostOrderPaid (mkCtx false w) p s = (Ok id, s') ∧
    (∀ k, account_check k = true → (bal s' k == bal s k + paid_change p k)%Q) ∧
    ((val (op_Paid p) < val (op_Total p))%Q →
       ∃ h, holds s !! op_OrderID p = Some h ∧ holds s' = <[op_OrderID p := captured_row id h]> (holds s)).
Proof.
  intros Hg%reachable_good Hv Ht Hus Htx Hnew Hm Hbig Hfit.
  pose proof (validateOrderPaid_ok p Hv) as Hpv.
  destruct (postOrderPaid_progress (mkCtx true w) p s) as (id & s' & Hp); [done..|].
  pose proof (postOrderPaid_spec _ _ _ _ _ (proj1 Hg) (proj2 Hg) Hp) as Hst.
  assert (Hnz : ¬ (val (op_Total p) == 0)%Q) by lra.
  exists id, s'. split; [|split].
  - rewrite PostOrderPaid_body by done. apply DoL_commit; [done|apply Hst].
  - intros k Hk. by rewrite (st_bal _ _ _ _ _ Hst Hnz k Hk), paid_legs_delta.
  - intros Hlt. destruct (st_hold _ _ _ _ _ Hst Hlt Hnz) as (h & ? & _ & _ & _ & ?). eauto.
Qed.

(** * Once only *)

Lemma post_duplicate c p s :
  OnePerSource (p_Kind p) = true → p_SourceID p ≠ uuid_Nil →
  existsb (same_source (p_Kind p) (p_SourceType p) (p_SourceID p)) (txns s) = true →
  post c p s = (Err ErrDuplicatePosting, s).
Proof.
  intros Ho Hi He. unfold post. apply N.eqb_neq in Hi. rewrite Ho, Hi. simpl.
  unfold TransactionExists. erewrite (M_bind_eq (gets _)) by reflexivity. by rewrite He.
Qed.

(** The stored row of a posting with a source names that source. *)
Lemma posted_source c p s s' id :
  posted c p s s' id → validatePosting p = Ok () → p_SourceID p ≠ uuid_Nil →
  existsb (same_source (p_Kind p) (p_SourceType p) (p_SourceID p)) (txns s') = true.
Proof.
  intros HP Hv Hi. rewrite (po_txns _ _ _ _ _ HP), existsb_app. apply orb_true_iff. right. simpl.
  rewrite orb_false_r. unfold validatePosting in Hv. apply result_bind_ok in Hv as (? & _ & Hv).
  apply result_bind_ok in Hv as (? & Hr & _). apply reject_ok, negb_false_iff, eqb_prop in Hr.
  apply N.eqb_neq in Hi. rewrite Hi in Hr. unfold same_source, txn_of. destruct (actorOf c). simpl.
  rewrite Hr, Hi. rewrite String.eqb_refl, !bool_decide_eq_true_2 by done. done.
Qed.

(** A posting of a once-per-source kind is made at most once: after a
    successful one, any posting of the same kind for the same source is
    refused, with whatever legs and by whomever, and nothing is written. *)
Theorem post_once w w' p p' id s s1 :
  reachable audit_Write IsDeleted s → Post (mkCtx false w) p s = (Ok id, s1) →
  OnePerSource (p_Kind p) = true → p_SourceID p ≠ uuid_Nil →
  p_Kind p' = p_Kind p → p_SourceType p' = p_SourceType p → p_SourceID p' = p_SourceID p →
  validatePosting p' = Ok () →
  Post (mkCtx false w') p' s1 = (Err ErrDuplicatePosting, s1).
Proof.
  intros [Hok _]%reachable_good HP Hone Hi Ek Et Ei Hv'. unfold Post in *. rewrite Ek.
  destruct (Dedicated (p_Kind p)); [done|]. apply Do_ok in HP.
  assert (Hv : validatePosting p = Ok ()).
  { unfold postChecked in HP. apply M_bind_ok in HP as ([] & s0 & Hv & _). unfold lift in Hv. congruence. }
  apply postChecked_spec in HP; [|done]. pose proof (posted_source _ _ _ _ _ HP Hv Hi) as Hex.
  apply (DoL_rollback _ _ _ _ s1). unfold postChecked.
  erewrite (M_bind_eq (lift _)) by (unfold lift; by rewrite Hv').
  apply post_duplicate; by rewrite ?Ek, ?Et, ?Ei.
Qed.

Lemma settled_source c p s s' id :
  good s → postOrderPaid c p s = (Ok id, s') → (0 < val (op_Total p))%Q → op_OrderID p ≠ uuid_Nil →
  existsb (same_source KindOrderPaid SourceOrder (op_OrderID p)) (txns s') = true.
Proof.
  intros [Hok _] H Ht Ho. unfold postOrderPaid in H. fold (from_balance p) in H.
  apply M_bind_ok in H as (f & s1 & Hf & H). unfold LockHoldByOrder, gets in Hf. injection Hf as _ <-.
  apply M_bind_ok in H as (u & s2 & Hc & H). unfold lift in Hc. injection Hc as _ <-.
  destruct (IsZero_spec (op_Total p)); [lra|].
  apply M_bind_ok in H as (id' & s2 & Hp & H).
  assert (Hv : validatePosting (paid_posting p (from_balance p)) = Ok ()).
  { unfold postChecked in Hp. apply M_bind_ok in Hp as ([] & s0 & Hv & _). unfold lift in Hv. congruence. }
  apply postChecked_spec in Hp as HP; [|done].
  pose proof (posted_source _ _ _ _ _ HP Hv Ho) as Hex.
  destruct (IsPositive _); [|unfold mret, M_ret in H; by simplify_eq].
  apply M_bind_ok in H as (ok & s3 & Hm & H). unfold MarkHoldCaptured in Hm. injection Hm as Hok' <-.
  destruct ok; [|done]. unfold mret, M_ret in H. by simplify_eq.
Qed.

(** An order is settled at most once.  After a settlement, no further
    settlement request for that order, whatever amounts, provider or caller it
    carries, changes the ledger. *)
Theorem settle_once w w' p p' id s s1 :
  reachable audit_Write IsDeleted s → PostOrderPaid (mkCtx false w) p s = (Ok id, s1) →
  (0 < val (op_Total p))%Q → op_OrderID p' = op_OrderID p →
  (PostOrderPaid (mkCtx false w') p' s1).2 = s1.
Proof.
  intros Hg%reachable_good HP Ht Eo. unfold PostOrderPaid in HP.
  apply M_bind_ok in HP as ([] & s0 & Hv & HP). unfold lift in Hv. injection Hv as Hv <-.
  pose proof (validateOrderPaid_ok _ Hv) as Hpv. apply Do_ok in HP.
  pose proof (settled_source _ _ _ _ _ Hg HP Ht (pv_order _ Hpv)) as Hex.
  destruct (validateOrderPaid p') as [[]|e] eqn:Hv';
    [|unfold PostOrderPaid; by erewrite M_bind_err by (unfold lift; by rewrite Hv')].
  rewrite PostOrderPaid_body by done.
  destruct (postOrderPaid (mkCtx true w') p' s1) as [[id'|e] s2] eqn:Hb;
    [|by erewrite DoL_rollback].
  enough (s2 = s1) as ->.
  { unfold DoL, Do. simpl. change (in_tx (mkCtx false w')) with (mkCtx true w'). rewrite Hb.
    by destruct (assert_ledger_balanced s1). }
  unfold postOrderPaid in Hb. apply M_bind_ok in Hb as (f & s3 & Hf & Hb).
  unfold LockHoldByOrder, gets in Hf. injection Hf as _ <-.
  apply M_bind_ok in Hb as (u & s4 & Hc & Hb). unfold lift in Hc. injection Hc as _ <-.
  destruct (IsZero (op_Total p')); [unfold mret, M_ret in Hb; by simplify_eq|].
  apply M_bind_ok in Hb as (id2 & s4 & Hp & _). exfalso. unfold postChecked in Hp.
  apply M_bind_ok in Hp as (u' & s5 & Hvp & Hp). unfold lift in Hvp. injection Hvp as _ <-.
  rewrite post_duplicate in Hp; [done|done| |]; cbn [p_SourceID p_Kind p_SourceType paid_posting]; rewrite Eo; [apply Hpv|done].
Qed.

(** * History *)

(** [h'] is [h] later: same identity and amount, and unchanged once closed. *)
Definition hold_evolves (h h' : hold_row) : Prop :=
  h_id h' = h_id h ∧ h_user h' = h_user h ∧ h_amount h' = h_amount h ∧ h_hold_txn h' = h_hold_txn h ∧
  (h_status h ≠ HoldHeld → h' = h).

Record extends (s s' : ledger) : Prop := {
  ex_txns : txns s `prefix_of` txns s';
  ex_entries : entries s `prefix_of` entries s';
  ex_audits : audits s `prefix_of` audits s';
  ex_holds : ∀ o h, holds s !! o = Some h → ∃ h', holds s' !! o = Some h' ∧ hold_evolves h h';
}.

#[global] Instance extends_preorder : PreOrder extends.
Proof.
  split.
  - intros s. split; try done. intros o h Ho. by exists h.
  - intros s1 s2 s3 [T1 E1 A1 H1] [T2 E2 A2 H2]. split; [by etrans..|].
    intros o h (h1 & Ho1 & (? & ? & ? & ? & Hc1))%H1.
    destruct (H2 _ _ Ho1) as (h2 & Ho2 & (? & ? & ? & ? & Hc2)). exists h2. split; [done|].
    split_and!; try congruence. intros Hst. rewrite <- (Hc1 Hst). apply Hc2. by rewrite (Hc1 Hst).
Qed.

(** A step that preserves the invariant and only extends the history. *)
Abbreviation appends := (keeps (E := lerr) ledger_ok extends).

Lemma appends_lockAccounts refs : appends (lockAccounts refs).
Proof.
  intros s A s' Hok (Hok1 & Hg & _)%lockAccounts_spec; [|done]. split; [done|].
  split; rewrite ?(gr_txns _ _ Hg), ?(gr_entries _ _ Hg), ?(gr_audits _ _ Hg), ?(gr_holds _ _ Hg); try done.
  intros o h Ho. by exists h.
Qed.

Lemma appends_postChecked c p : appends (postChecked c p).
Proof.
  intros s id s' Hok HP%postChecked_spec; [|done]. split; [apply HP|].
  destruct (po_entries _ _ _ _ _ HP) as [es He].
  split; rewrite ?(po_txns _ _ _ _ _ HP), ?He, ?(po_audits _ _ _ _ _ HP), ?(po_holds _ _ _ _ _ HP);
    try done; try by apply prefix_app_r. intros o h Ho. by exists h.
Qed.

Lemma appends_InsertHold orders o h : appends (InsertHold orders o h).
Proof.
  intros s h' s' Hok (Hn & _ & _ & ->)%InsertHold_spec.
  split; [by apply ledger_ok_bump, ledger_ok_holds|]. split; try done. simpl. intros o1 h1 Ho1.
  rewrite lookup_insert_ne by congruence. by exists h1.
Qed.

(** Marking held rows leaves closed ones alone. *)
Lemma appends_mark id (f : hold_row → hold_row) :
  (∀ h, h_id (f h) = h_id h ∧ h_user (f h) = h_user h ∧ h_amount (f h) = h_amount h ∧ h_hold_txn (f h) = h_hold_txn h) →
  ∀ b, appends (λ s, (Ok (b s : bool), set_holds (update_where (is_held id) f) s)).
Proof.
  intros Hf b s r s' Hok ?. simplify_eq. split; [by apply ledger_ok_holds|]. split; try done. simpl.
  intros o h Ho. unfold update_where. rewrite lookup_fmap, Ho. simpl. eexists. split; [done|].
  unfold is_held. destruct (h_id h =? id)%N; [|done]. simpl. destruct (String.eqb_spec (h_status h) HoldHeld); [|done].
  destruct (Hf h) as (? & ? & ? & ?). by split_and!.
Qed.

Lemma appends_MarkHoldCaptured id t : appends (MarkHoldCaptured id t).
Proof. by apply appends_mark. Qed.
Lemma appends_MarkHoldReleased id t : appends (MarkHoldReleased id t).
Proof. by apply appends_mark. Qed.

Lemma appends_audit a : appends (modify (add_audit a)).
Proof.
  intros s r s' Hok H. unfold modify in H. simplify_eq. split; [by apply ledger_ok_audit|].
  split; try done; simpl; [by apply prefix_app_r|]. intros o h Ho. by exists h.
Qed.

Create HintDb history.
#[local] Hint Resolve keeps_map_err appends_lockAccounts appends_postChecked appends_InsertHold
  appends_MarkHoldCaptured appends_MarkHoldReleased appends_audit : history.
#[local] Hint Extern 1 (appends _) => apply (keeps_reads _ _); done : history.

Ltac history :=
  repeat first
    [ progress intros
    | match goal with
      | |- appends (_ ≫= _) => apply (keeps_bind _ _)
      | |- appends (match ?x with _ => _ end) => destruct x
      end
    | solve [eauto 2 with history] ].

Lemma appends_holdForOrder orders c i : appends (holdForOrder orders c i).
Proof. unfold holdForOrder. history. Qed.
Lemma appends_releaseOrderHold c o memo : appends (releaseOrderHold c o memo).
Proof. unfold releaseOrderHold. history. Qed.
Lemma appends_postOrderPaid c p : appends (postOrderPaid c p).
Proof. unfold postOrderPaid. history. Qed.
Lemma appends_adjustBalance c a reason : appends (adjustBalance audit_Write c a reason).
Proof. unfold adjustBalance, Balance, Balances. history. Qed.
#[local] Hint Resolve appends_holdForOrder appends_releaseOrderHold appends_postOrderPaid appends_adjustBalance : history.

Lemma DoL_extends {A} w (fn : ctx → M ledger lerr A) s :
  ledger_ok s → (∀ c, appends (fn c)) → extends s (DoL (mkCtx false w) fn s).2.
Proof.
  intros Hok Hf. unfold DoL. destruct (Do _ _ _ s) as [[a|e] s'] eqn:HD; simpl.
  - apply Do_ok in HD. by eapply Hf.
  - by apply Do_err_rollback in HD as ->.
Qed.

Lemma run_extends o s : ledger_ok s → extends s (run audit_Write IsDeleted o s).
Proof.
  intros Hok. destruct o as [w p|w i|w o memo|w i|w p|w a]; simpl.
  - unfold Post. destruct (Dedicated _); [done|]. apply DoL_extends; [done|]. history.
  - unfold HoldForOrder. apply lift_bind_snd; [done|]. intros _ _. apply DoL_extends; [done|]. history.
  - apply DoL_extends; [done|]. history.
  - unfold CaptureFromBalance. apply lift_bind_snd; [done|]. intros _ _. apply DoL_extends; [done|]. history.
  - unfold PostOrderPaid. apply lift_bind_snd; [done|]. intros _ _. apply DoL_extends; [done|]. history.
  - unfold AdjustBalance. apply lift_bind_snd; [done|]. intros p _.
    destruct (negb _); [done|]. destruct (N.eqb _ _); [done|].
    apply lift_bind_snd; [done|]. intros reason _. apply DoL_extends; [done|]. history.
Qed.

(** The ledger's history only grows.  No request removes or rewrites a
    transaction, an entry or an audit event; a hold keeps its user, amount and
    hold transaction for ever, and once captured or released never changes
    again. *)
Theorem ledger_append_only o s :
  reachable audit_Write IsDeleted s → extends s (run audit_Write IsDeleted o s).
Proof. intros [Hok _]%reachable_good. by apply run_extends. Qed.

(** A manual adjustment is exact and leaves a trace.  A successful one
    changes the user's balance by exactly the signed amount, the balance it
    returns is the new one, and one audit event with the amount, the user and
    that balance is appended. *)
Theorem adjust_exact c a r s s' :
  reachable audit_Write IsDeleted s →
  AdjustBalance audit_Write IsDeleted c a s = (Ok r, s') →
  (bal s' (balance_key (adj_UserID a)) == bal s (balance_key (adj_UserID a)) + val (adj_Amount a))%Q ∧
  (val r.1 == bal s' (balance_key (adj_UserID a)))%Q ∧
  ∃ ev, audits s' = (audits s ++ [ev])%list ∧ a_balance_after ev = r.1 ∧
        a_amount ev = adj_Amount a ∧ a_resource ev = adj_UserID a.
Proof. intros [Hok _]%reachable_good [_ _ ? ? ?]%AdjustBalance_ok; done. Qed.
End Settle.
