(* ===== verification/LedgerWitness.v ===== *)
(** Concrete runs of the ledger: an administrator credits a user, the user's
    order is held, released, or settled.  Each lemma applies a theorem of
    [LedgerThms] or [LedgerSettle] to such a run, with decimals represented as
    coefficient and exponent, so the hypotheses hold by evaluation. *)
From Stdlib Require Import ZArith QArith Qabs Lqa Lia.
From stdpp Require Import base tactics list gmap strings sorting.
From S2P Require Import Prelude Decimal GoString Money LedgerTypes LedgerFacts Ledger LedgerInv LedgerOps.
From S2P Require Import LedgerProgress LedgerThms LedgerSettle.
#[local] Open Scope string_scope.
#[local] Open Scope Z_scope.
#[local] Existing Instance scaled_decimal.

Definition audit_all : audit_event → result lerr () := λ _, Ok ().
Definition nobody_deleted : uuid → result lerr bool := λ _, Ok false.
Definition demo_admin : option Principal := Some (mkPrincipal 3 AudienceAdmin).
Definition cents (n : Z) : @dec scaled_decimal := (n, -2).

Abbreviation demo_run := (run audit_all nobody_deleted).
Abbreviation demo_reachable := (reachable audit_all nobody_deleted).

(** User 7 exists; every table is empty. *)
Definition demo0 : ledger := mkLedger ∅ [] [] ∅ [] {[7%N]} 100%N.
Definition demo_credit : Adjustment := mkAdjustment 7 (cents 10000) "initial credit".
Definition demo_hold : HoldInput := mkHoldInput 55 7 (cents 3000).
Definition demo_overdraft : HoldInput := mkHoldInput 56 7 (cents 30000).
Definition demo_stray : HoldInput := mkHoldInput 57 7 (cents 3000).
(** 50.00 in total, 20.00 of it through the channel with a 1.00 surcharge and a
    fee of 0.50, the other 30.00 from the held balance. *)
Definition demo_paid : OrderPaid :=
  mkOrderPaid 55 7 (cents 5000) (cents 2000) (cents 50) (cents 100) "epay".
Definition demo_topup : Posting :=
  mkPosting KindBalanceTopup SourcePayment 77 ""
    [mkLeg (PlatformAccount ChannelCash "epay") Debit (cents 500);
     mkLeg (UserAccount UserBalance 7) Credit (cents 500)].

Definition demo1 : ledger :=
  (AdjustBalance audit_all nobody_deleted (mkCtx false demo_admin) demo_credit demo0).2.
(** The orders that exist. *)
Definition demo_orders (o : uuid) : bool := existsb (N.eqb o) [55; 56]%N.
Definition demo2 : ledger := (HoldForOrder demo_orders (mkCtx false None) demo_hold demo1).2.
Definition demo3 : ledger := (PostOrderPaid (mkCtx false None) demo_paid demo2).2.

(** A run known by its result ends in the state it ends in. *)
Lemma ran {A B} (p : A * B) (a : A) : p.1 = a → p = (a, p.2).
Proof. destruct p. by intros <-. Qed.

Lemma demo0_reachable : demo_reachable demo0.
Proof. apply reach_init. Qed.
Lemma demo1_reachable : demo_reachable demo1.
Proof. exact (reach_op _ _ demo0 (OpAdjust demo_admin demo_credit) demo0_reachable I). Qed.
Lemma demo2_reachable : demo_reachable demo2.
Proof. exact (reach_op _ _ demo1 (OpHold demo_orders None demo_hold) demo1_reachable I). Qed.
Lemma demo3_reachable : demo_reachable demo3.
Proof. exact (reach_op _ _ demo2 (OpPaid None demo_paid) demo2_reachable I). Qed.

Lemma ledger_consistent_witness :
  length (txns demo3) = 3%nat ∧
  DriftRows demo3 = [] ∧ HoldMismatchRows demo3 = [] ∧ assert_ledger_balanced demo3 = Ok ().
Proof.
  split; [vm_compute; reflexivity|]. exact (ledger_consistent _ _ demo3 demo3_reachable).
Defined.

Lemma ledger_solvent_witness :
  (bal demo3 (balance_key 7) == 70)%Q ∧
  (∀ k, UserOwned (k_Type k) = true → (0 <= bal demo3 k)%Q) ∧ (trial_of (accounts demo3) == 0)%Q.
Proof.
  split; [vm_compute; reflexivity|]. exact (ledger_solvent _ _ demo3 demo3_reachable).
Defined.

(** The balance covers the first request; the second asks for more than there
    is; the third names an order nobody placed. *)
Lemma hold_decided_witness :
  (∃ h s', HoldForOrder demo_orders (mkCtx false None) demo_hold demo1 = (Ok h, s') ∧ h_status h = HoldHeld) ∧
  HoldForOrder demo_orders (mkCtx false None) demo_overdraft demo1 = (Err ErrInsufficientBalance, demo1) ∧
  HoldForOrder demo_orders (mkCtx false None) demo_stray demo1 = (Err (ErrDB DBForeignKey), demo1).
Proof.
  assert (HD := λ i, hold_decided audit_all nobody_deleted demo_orders None i demo1 demo1_reachable).
  split; [|split].
  - specialize (HD demo_hold). assert (E : Qle_bool (val (hi_Amount demo_hold)) (bal demo1 (balance_key (hi_UserID demo_hold))) = true)
      by (vm_compute; reflexivity). rewrite E in HD. change (demo_orders (hi_OrderID demo_hold)) with true in HD.
    destruct HD as (h & s' & H & _ & _ & _ & Hst & _); [vm_compute; reflexivity|apply (bool_decide_unpack _); vm_compute; exact I|vm_compute; reflexivity..|].
    exists h, s'. exact (conj H Hst).
  - specialize (HD demo_overdraft). assert (E : Qle_bool (val (hi_Amount demo_overdraft)) (bal demo1 (balance_key (hi_UserID demo_overdraft))) = false)
      by (vm_compute; reflexivity). rewrite E in HD.
    apply HD; [vm_compute; reflexivity|apply (bool_decide_unpack _); vm_compute; exact I|vm_compute; reflexivity..].
  - specialize (HD demo_stray). assert (E : Qle_bool (val (hi_Amount demo_stray)) (bal demo1 (balance_key (hi_UserID demo_stray))) = true)
      by (vm_compute; reflexivity). rewrite E in HD. change (demo_orders (hi_OrderID demo_stray)) with false in HD.
    apply HD; [vm_compute; reflexivity|apply (bool_decide_unpack _); vm_compute; exact I|vm_compute; reflexivity..].
Defined.

Lemma demo2_eq : ∃ h, HoldForOrder demo_orders (mkCtx false None) demo_hold demo1 = (Ok h, demo2).
Proof. eexists. unfold demo2. apply ran. vm_compute. reflexivity. Defined.

Lemma hold_release_roundtrip_witness :
  ∃ s2, ReleaseOrderHold (mkCtx false None) 55 "cancelled" demo2 = (Ok true, s2) ∧
        ∀ k, account_check k = true → (bal s2 k == bal demo1 k)%Q.
Proof.
  destruct demo2_eq as [h Hh].
  destruct (hold_release_roundtrip audit_all nobody_deleted demo_orders None None demo_hold "cancelled" h demo1 demo2
    demo1_reachable Hh) as (s2 & h' & H1 & H2 & _); [apply (bool_decide_unpack _); vm_compute; exact I| | | | |exists s2; exact (conj H1 H2)].
  - split_and!; [vm_compute; reflexivity..|]. by vm_compute.
  - vm_compute; reflexivity.
  - vm_compute; reflexivity.
  - vm_compute; reflexivity.
Defined.

Lemma settle_exact_witness :
  ∃ id s', PostOrderPaid (mkCtx false None) demo_paid demo2 = (Ok id, s') ∧
    ∀ k, account_check k = true → (bal s' k == bal demo2 k + paid_change demo_paid k)%Q.
Proof.
  destruct (settle_exact audit_all nobody_deleted None demo_paid demo2 demo2_reachable)
    as (id & s' & H1 & H2 & _); [vm_compute; reflexivity..|apply (bool_decide_unpack _); vm_compute; exact I| | | | | |exists id, s'; exact (conj H1 H2)].
  - vm_compute; reflexivity.
  - vm_compute; reflexivity.
  - vm_compute. done.
  - vm_compute; reflexivity.
  - repeat constructor; vm_compute; reflexivity.
Defined.

Definition demo_topup_done : ledger := (Post (mkCtx false None) demo_topup demo0).2.
Lemma demo_topup_eq : ∃ id, Post (mkCtx false None) demo_topup demo0 = (Ok id, demo_topup_done).
Proof. eexists. unfold demo_topup_done. apply ran. vm_compute. reflexivity. Defined.

Lemma post_once_witness :
  Post (mkCtx false demo_admin) demo_topup demo_topup_done = (Err ErrDuplicatePosting, demo_topup_done).
Proof.
  destruct demo_topup_eq as [id Hid].
  apply (post_once audit_all nobody_deleted None demo_admin demo_topup demo_topup id demo0 demo_topup_done
    demo0_reachable Hid); done || (vm_compute; reflexivity).
Defined.

Lemma demo3_eq : ∃ id, PostOrderPaid (mkCtx false None) demo_paid demo2 = (Ok id, demo3).
Proof. eexists. unfold demo3. apply ran. vm_compute. reflexivity. Defined.

Lemma settle_once_witness : (PostOrderPaid (mkCtx false demo_admin) demo_paid demo3).2 = demo3.
Proof.
  destruct demo3_eq as [id Hid].
  exact (settle_once audit_all nobody_deleted None demo_admin demo_paid demo_paid id demo2 demo3
    demo2_reachable Hid ltac:(vm_compute; reflexivity) eq_refl).
Defined.

Lemma ledger_append_only_witness :
  length (txns demo2) = 2%nat ∧ extends demo2 (demo_run (OpRelease None 55 "cancelled") demo2).
Proof.
  split; [vm_compute; reflexivity|].
  exact (ledger_append_only audit_all nobody_deleted (OpRelease None 55 "cancelled") demo2 demo2_reachable).
Defined.

Lemma demo1_eq : ∃ r, AdjustBalance audit_all nobody_deleted (mkCtx false demo_admin) demo_credit demo0 = (Ok r, demo1).
Proof. eexists. unfold demo1. apply ran. vm_compute. reflexivity. Defined.

Lemma adjust_exact_witness : (bal demo1 (balance_key 7) == bal demo0 (balance_key 7) + 100)%Q.
Proof.
  destruct demo1_eq as [r Hr].
  destruct (adjust_exact audit_all nobody_deleted (mkCtx false demo_admin) demo_credit r demo0 demo1
    demo0_reachable Hr) as [H _].
  change (adj_UserID demo_credit) with 7%N in H. rewrite H. vm_compute. reflexivity.
Defined.
