(* ===== verification/GoTime.v ===== *)
(** Go's [time] package as far as the panel uses it, on UTC times.

    A [Time] is the number of nanoseconds since 1970-01-01T00:00:00Z, a
    [Duration] an [int64] number of nanoseconds.  [AddDate] goes through the
    civil date of the proleptic Gregorian calendar and normalises the way
    [time.Date] does: months carry into years, and a day past the end of its
    month runs over into the following one. *)
From Stdlib Require Import ZArith Lia.
From stdpp Require Import base tactics list.
From S2P Require Import Prelude.
#[local] Open Scope Z_scope.

Definition Time := Z.
Definition Duration := Z.

Definition Microsecond : Duration := 1000.
Definition Second : Duration := 1000000000.
Definition Minute : Duration := 60 * Second.
Definition Hour : Duration := 60 * Minute.
(** The order module's [day]. *)
Definition Day : Duration := 24 * Hour.

(** The zero [time.Time]: midnight of January 1 of year 1. *)
Definition zeroTime : Time := - 62135596800 * Second.
Definition IsZeroTime (t : Time) : bool := t =? zeroTime.

Definition After (t u : Time) : bool := u <? t.
Definition Before (t u : Time) : bool := t <? u.

(** [t.Sub(u)] saturates at the ends of [Duration]. *)
Definition Sub (t u : Time) : Duration := Z.max MinInt64 (Z.min (t - u) MaxInt64).
(** [t.Truncate(d)] rounds down to a multiple of [d]. *)
Definition Truncate (t : Time) (d : Duration) : Time := t - t mod d.

(** * Civil calendar *)

(** Day number (0 is 1970-01-01) of a date, and the month's first day counted
    in months since year 0. *)
Definition days_from_civil (y m d : Z) : Z :=
  let y' := if m <=? 2 then y - 1 else y in
  let yoe := y' mod 400 in
  let doy := (153 * ((m + 9) mod 12) + 2) / 5 + d - 1 in
  y' / 400 * 146097 + (yoe * 365 + yoe / 4 - yoe / 100 + doy) - 719468.

Definition month_start (n : Z) : Z := days_from_civil (n / 12) (n mod 12 + 1) 1.

(** The month a day number falls in: 4800 months are 146097 days, and the month
    the average length predicts is at most one off. *)
Definition month_of_day (z : Z) : Z :=
  let e := (z + 719528) * 4800 / 146097 in
  if month_start (e + 1) <=? z then e + 1
  else if month_start e <=? z then e else e - 1.

(** Months since year 0 of the month [t] is in; the civil date of [t]. *)
Definition month_of (t : Time) : Z := month_of_day (t / Day).
Definition Year (t : Time) : Z := month_of t / 12.
Definition Month (t : Time) : Z := month_of t mod 12 + 1.
Definition DayOfMonth (t : Time) : Z := t / Day - month_start (month_of t) + 1.

(** [t.AddDate(years, months, days)]. *)
Definition AddDate (t : Time) (years months days : Z) : Time :=
  (month_start (month_of t + 12 * years + months) + DayOfMonth t + days - 1) * Day + t mod Day.

#[global] Arguments days_from_civil : simpl never.
#[global] Arguments month_start : simpl never.
#[global] Arguments month_of_day : simpl never.
#[global] Arguments AddDate : simpl never.

(** * The calendar is regular *)

Definition month_len (n : Z) : Z := month_start (n + 1) - month_start n.

Lemma month_start_era n q : month_start (n + 4800 * q) = month_start n + 146097 * q.
Proof.
  unfold month_start.
  assert (H12 : (n + 4800 * q) / 12 = n / 12 + 400 * q).
  { replace (n + 4800 * q) with (n + (400 * q) * 12) by lia. apply Z.div_add. lia. }
  assert (Hm : (n + 4800 * q) mod 12 = n mod 12).
  { replace (n + 4800 * q) with (n + (400 * q) * 12) by lia. apply Z.mod_add. lia. }
  rewrite H12, Hm. unfold days_from_civil.
  set (m := n mod 12 + 1). set (y := n / 12).
  replace (if m <=? 2 then y + 400 * q - 1 else y + 400 * q) with ((if m <=? 2 then y - 1 else y) + q * 400)
    by (destruct (m <=? 2); lia).
  rewrite Z.div_add, Z.mod_add by lia. lia.
Qed.

Lemma month_len_era n q : month_len (n + 4800 * q) = month_len n.
Proof.
  unfold month_len. replace (n + 4800 * q + 1) with (n + 1 + 4800 * q) by lia.
  rewrite !month_start_era. lia.
Qed.

(** [p] holds from [z] on for [n] numbers. *)
Fixpoint check_from (p : Z → bool) (z : Z) (n : nat) : bool :=
  match n with
  | O => true
  | S n' => p z && check_from p (z + 1) n'
  end.

Lemma check_from_all p lo n z :
  check_from p lo n = true → lo ≤ z < lo + Z.of_nat n → p z = true.
Proof.
  revert lo. induction n as [|n IH]; intros lo H Hz; simpl in *; [lia|].
  apply andb_true_iff in H as [H1 H2].
  destruct (Z.eq_dec z lo) as [->|]; [done|]. apply (IH (lo + 1)); [done|lia].
Qed.

Definition month_regular (n : Z) : bool :=
  let l := month_len n in
  (28 <=? l) && (l <=? 31) && ((31 <=? l) || (l <=? month_len (n + 1))).

Lemma months_regular : check_from month_regular 0 4800 = true.
Proof. vm_compute. reflexivity. Qed.

(** A month has 28 to 31 days, and the one after a shorter month is no
    shorter. *)
Lemma month_len_spec n :
  28 ≤ month_len n ≤ 31 ∧ (month_len n ≤ 30 → month_len n ≤ month_len (n + 1)).
Proof.
  assert (Hn : n = n mod 4800 + 4800 * (n / 4800)) by (pose proof (Z.div_mod n 4800); lia).
  pose proof (Z.mod_pos_bound n 4800).
  assert (Hr : month_regular (n mod 4800) = true) by (apply (check_from_all _ 0 4800); [apply months_regular|lia]).
  rewrite Hn. replace (n mod 4800 + 4800 * (n / 4800) + 1) with (n mod 4800 + 1 + 4800 * (n / 4800)) by lia.
  rewrite !month_len_era. unfold month_regular in Hr.
  apply andb_true_iff in Hr as [[H1%Z.leb_le H2%Z.leb_le]%andb_true_iff H3%orb_true_iff].
  split; [lia|]. intros. destruct H3 as [?%Z.leb_le|?%Z.leb_le]; lia.
Qed.

Lemma month_start_step n k : 0 ≤ k → 28 * k ≤ month_start (n + k) - month_start n ≤ 31 * k.
Proof.
  intros Hk. revert k Hk. apply natlike_ind.
  - replace (n + 0) with n by lia. lia.
  - intros k Hk IH. replace (n + Z.succ k) with (n + k + 1) by lia.
    destruct (month_len_spec (n + k)) as [? _]. unfold month_len in *. lia.
Qed.

Lemma month_start_lt n1 n2 : n1 < n2 → month_start n1 < month_start n2.
Proof. intros H. pose proof (month_start_step n1 (n2 - n1)). replace (n1 + (n2 - n1)) with n2 in * by lia. lia. Qed.

Definition month_drift (n : Z) : Z := 4800 * (month_start n + 719528) - 146097 * n.

Lemma months_drift : check_from (λ n, Z.abs (month_drift n) <=? 146097) 0 4800 = true.
Proof. vm_compute. reflexivity. Qed.

Lemma month_drift_bound n : Z.abs (month_drift n) ≤ 146097.
Proof.
  assert (Hn : n = n mod 4800 + 4800 * (n / 4800)) by (pose proof (Z.div_mod n 4800); lia).
  pose proof (Z.mod_pos_bound n 4800).
  pose proof (check_from_all _ 0 4800 (n mod 4800) months_drift ltac:(lia)) as Hr. apply Z.leb_le in Hr.
  unfold month_drift in *. rewrite Hn, month_start_era. lia.
Qed.

(** Every day number falls in its month. *)
Lemma month_of_day_spec z : month_start (month_of_day z) ≤ z < month_start (month_of_day z + 1).
Proof.
  unfold month_of_day. set (e := (z + 719528) * 4800 / 146097).
  pose proof (Z.div_mod ((z + 719528) * 4800) 146097 ltac:(discriminate)) as Hd. fold e in Hd.
  pose proof (Z.mod_pos_bound ((z + 719528) * 4800) 146097 ltac:(lia)).
  pose proof (month_drift_bound (e - 1)) as H1. pose proof (month_drift_bound (e + 2)) as H2.
  unfold month_drift in *.
  destruct (Z.leb_spec (month_start (e + 1)) z); [replace (e + 1 + 1) with (e + 2) by lia; lia|].
  destruct (Z.leb_spec (month_start e) z); [lia|].
  replace (e - 1 + 1) with e by lia. lia.
Qed.

Lemma Day_pos : 0 < Day. Proof. reflexivity. Qed.

Lemma month_of_spec t :
  1 ≤ DayOfMonth t ≤ month_len (month_of t) ∧ t / Day = month_start (month_of t) + DayOfMonth t - 1.
Proof.
  unfold DayOfMonth, month_len, month_of. pose proof (month_of_day_spec (t / Day)). lia.
Qed.

(** [AddDate] moves a time by whole days: by the distance between the two
    months' first days plus the days asked for. *)
Lemma AddDate_eq t y m d :
  AddDate t y m d = t + (month_start (month_of t + 12 * y + m) - month_start (month_of t) + d) * Day.
Proof.
  unfold AddDate. destruct (month_of_spec t) as [_ H]. pose proof (Z.div_mod t Day ltac:(discriminate)). nia.
Qed.

Lemma AddDate_days t d : AddDate t 0 0 d = t + d * Day.
Proof. rewrite AddDate_eq. replace (month_of t + 12 * 0 + 0) with (month_of t) by lia. lia. Qed.

(** The civil date determines the day number: a date read off a day is that
    day again. *)
Lemma civil_date_roundtrip t : days_from_civil (Year t) (Month t) 1 + DayOfMonth t - 1 = t / Day.
Proof. destruct (month_of_spec t) as [_ H]. unfold Year, Month. fold (month_start (month_of t)). lia. Qed.

(** The month is the one whose span contains the day. *)
Lemma month_of_unique z n : month_start n ≤ z < month_start (n + 1) → month_of_day z = n.
Proof.
  intros Hz. pose proof (month_of_day_spec z).
  destruct (Z.lt_trichotomy (month_of_day z) n) as [Hl|[->|Hl]]; [exfalso|done|exfalso].
  - destruct (Z.eq_dec (month_of_day z + 1) n) as [He|]; [rewrite <- He in *; lia|].
    pose proof (month_start_lt (month_of_day z + 1) n). lia.
  - destruct (Z.eq_dec (n + 1) (month_of_day z)) as [He|]; [rewrite <- He in *; lia|].
    pose proof (month_start_lt (n + 1) (month_of_day z)). lia.
Qed.

Lemma month_of_mono t u : t ≤ u → month_of t ≤ month_of u.
Proof.
  intros H. pose proof (Z.div_le_mono t u Day Day_pos H).
  pose proof (month_of_day_spec (t / Day)). pose proof (month_of_day_spec (u / Day)). unfold month_of.
  destruct (Z.le_gt_cases (month_of_day (t / Day)) (month_of_day (u / Day))); [done|].
  destruct (Z.eq_dec (month_of_day (u / Day) + 1) (month_of_day (t / Day))) as [He|]; [rewrite <- He in *; lia|].
  pose proof (month_start_lt (month_of_day (u / Day) + 1) (month_of_day (t / Day))). lia.
Qed.

Lemma Sub_exact t u : in64 (t - u) → Sub t u = t - u.
Proof. unfold in64, Sub. lia. Qed.
Lemma Sub_range t u : in64 (Sub t u).
Proof. unfold in64, Sub, MinInt64, MaxInt64. lia. Qed.
Lemma Sub_mono t u v : t ≤ u → Sub t v ≤ Sub u v ∧ Sub v u ≤ Sub v t.
Proof. unfold Sub. lia. Qed.
Lemma Truncate_bounds t d : 0 < d → t - d < Truncate t d ≤ t.
Proof. intros H. unfold Truncate. pose proof (Z.mod_pos_bound t d H). lia. Qed.

#[export] Hint Resolve Sub_range : pandora.
#[export] Hint Rewrite AddDate_days : int64.

(** 2024-01-31 plus one month is 2024-03-02; plus a year of a leap day is
    March 1. *)
Example AddDate_overflow :
  AddDate (days_from_civil 2024 1 31 * Day) 0 1 0 = days_from_civil 2024 3 2 * Day ∧
  AddDate (days_from_civil 2024 2 29 * Day + 5) 1 0 0 = days_from_civil 2025 3 1 * Day + 5.
Proof. split; vm_compute; reflexivity. Qed.
