(* ===== verification/Promo.v ===== *)
(** Discount codes (panel/internal/module/promo): the rules of a code
    (service/rules.go), the statements on coupons and redemptions (repo/, with
    the constraints of db/migrations/00010), the three steps of a redemption
    (service/redeem.go) and the creation of coupons (service/admin.go). *)
From Stdlib Require Import ZArith QArith Lqa Lia.
From stdpp Require Import base tactics list gmap strings sorting.
From S2P Require Import Prelude Decimal GoString Money GoTime LedgerTypes Ledger.
#[local] Open Scope string_scope.
#[local] Open Scope Z_scope.

(** * Vocabulary (types.go) *)

Definition KindPercent := "percent".
Definition KindFixed := "fixed".
Definition CouponActive := "active".
Definition CouponPaused := "paused".
Definition RedemptionHeld := "held".
Definition RedemptionCaptured := "captured".
Definition RedemptionReleased := "released".
Definition ActionCouponCreated := "coupon.created".
Definition ActionBatchGenerated := "coupon.batch_generated".
Definition ActionStatusChange := "coupon.status_change".
Definition BatchMax : Z := 1000.

Inductive perr :=
| ErrCouponNotFound | ErrCouponExpired | ErrCouponUsedUp | ErrCouponUserLimit | ErrCouponMinAmount
| ErrCouponNotForPlan | ErrCouponNotForReset | ErrCouponNotForUser
| ErrCodeExists | ErrOrderHasCoupon | ErrNotHeld
| PromoInvalid (fields : list string) | PromoInternal | PromoNotFound | PromoConflict | PromoMoney
| PromoPlanGone | PromoForeignKey | PromoDB | PromoExternal.
#[global] Instance perr_eq_dec : EqDecision perr.
Proof. solve_decision. Defined.

(** [IsRejection]: the code cannot be used for this order. *)
Definition IsRejection (e : perr) : bool :=
  bool_decide (e ∈ [ErrCouponNotFound; ErrCouponExpired; ErrCouponUsedUp; ErrCouponUserLimit; ErrCouponMinAmount;
                    ErrCouponNotForPlan; ErrCouponNotForUser; ErrCouponNotForReset]).

(** * Codes (rules.go) *)

Definition upper_byte (c : Z) : Z := if between 97 c 122 then c - 32 else c.
Definition upperASCII (s : string) : string := string_of (map upper_byte (bytes_of s)).
Definition NormalizeCode (code : string) : string := upperASCII (TrimSpace code).

(** The character class [[A-Z0-9_-]]. *)
Definition code_byte (c : Z) : bool := between 65 c 90 || between 48 c 57 || (c =? 95) || (c =? 45).
Definition code_pattern (lo hi : Z) (s : string) : bool :=
  between lo (blen s) hi && forallb code_byte (bytes_of s).
Definition validCode (code : string) : bool := code_pattern 1 64 code.
Definition validateCode (code : string) : result perr () := reject (negb (validCode code)) (PromoInvalid ["code"]).
Definition normalizePrefix (prefix : string) : result perr string :=
  let p := upperASCII (TrimSpace prefix) in
  if negb (code_pattern 0 8 p) then Err (PromoInvalid ["prefix"]) else Ok p.

Definition couponAlphabet := "ABCDEFGHJKMNPQRSTUVWXYZ23456789".

(** [newCode]: [draws] are the ten numbers [rand.Int] returned, each below the
    length of the alphabet; fewer is a failure of the random source. *)
Definition newCode (prefix : string) (draws : list Z) : result perr string :=
  if Nat.ltb (length draws) 10 then Err PromoInternal
  else Ok (prefix ++ string_of (map (λ n, nth (Z.to_nat n) (bytes_of couponAlphabet) 0) (take 10 draws))).

Section Promo.
Context `{DL : DecimalLib}.

(** * Rows (model.go) *)

Record Face := mkFace { f_Kind : string; f_PercentBP : Z; f_AmountOff : dec }.

Record Spec := mkSpec {
  sp_Name : string; sp_Face : Face; sp_MaxDiscount : option dec; sp_MinOrder : dec;
  sp_MaxRedemptions : option Z; sp_MaxPerUser : Z; sp_PlanIDs : list uuid; sp_UserGroupID : option uuid;
  sp_ValidFrom : option Time; sp_ValidUntil : option Time }.

Record Coupon := mkCoupon {
  cp_ID : uuid; cp_Code : string; cp_Name : string; cp_AmountOff : option dec; cp_PercentOffBP : option Z;
  cp_MaxDiscount : option dec; cp_MinOrderAmount : dec; cp_MaxRedemptions : option Z; cp_MaxPerUser : Z;
  cp_RedeemedCount : Z; cp_ReservedCount : Z; cp_UserGroupID : option uuid;
  cp_ValidFrom : option Time; cp_ValidUntil : option Time; cp_Status : string; cp_CreatedBy : option uuid }.

Record Redemption := mkRedemption {
  rd_ID : uuid; rd_CouponID : uuid; rd_UserID : uuid; rd_OrderID : uuid; rd_OrderNo : string; rd_Discount : dec;
  rd_Status : string; rd_ReleaseReason : option string; rd_CapturedAt : option Time; rd_ReleasedAt : option Time }.

Record Target := mkTarget { t_UserID : uuid; t_PlanID : option uuid; t_Subtotal : dec }.
Record Applied := mkApplied { ap_CouponID : uuid; ap_Code : string; ap_Face : Face; ap_Discount : dec }.
Record OrderRef := mkOrderRef { or_ID : uuid; or_No : string }.

Record promo := mkPromo {
  coupons : list Coupon; coupon_plans : list (uuid * uuid); redemptions : list Redemption;
  promo_audits : list string; promo_next : uuid }.
Definition empty_promo : promo := mkPromo [] [] [] [] 1.

(** What the module reads outside its own tables: the rows its foreign keys
    point at, the user's group and the catalogue's missing plans. *)
Record PromoEnv := mkPromoEnv {
  pe_users : gset uuid; pe_groups : gset uuid; pe_plans : gset uuid;
  UserGroupID : uuid → result perr (option uuid); MissingPlans : list uuid → result perr (list uuid) }.

Abbreviation PM := (M promo perr).
Definition promo_tx {A} (inTx : bool) (m : PM A) : PM A := Do inTx (λ _, Ok ()) m.

(** * Rules (rules.go) *)

(** A row has one of the two columns (a constraint of the table). *)
Definition faceOf (c : Coupon) : Face :=
  match cp_PercentOffBP c with
  | Some bp => mkFace KindPercent bp dec_zero
  | None => mkFace KindFixed 0 (default dec_zero (cp_AmountOff c))
  end.

Definition checkBasics (c : Coupon) (t : Target) (now : Time) : result perr () :=
  if negb (String.eqb (cp_Status c) CouponActive) then Err ErrCouponNotFound
  else if match cp_ValidFrom c with Some f => now <? f | None => false end then Err ErrCouponNotFound
  else if match cp_ValidUntil c with Some u => u <? now | None => false end then Err ErrCouponExpired
  else if match cp_MaxRedemptions c with
          | Some m => m <=? wrap64 (cp_RedeemedCount c + cp_ReservedCount c) | None => false end then Err ErrCouponUsedUp
  else reject (LessThan (t_Subtotal t) (cp_MinOrderAmount c)) ErrCouponMinAmount.

Definition checkPlan (planIDs : list uuid) (planID : option uuid) : result perr () :=
  match planIDs with
  | [] => Ok ()
  | _ => match planID with
         | None => Err ErrCouponNotForPlan
         | Some p => reject (negb (existsb (N.eqb p) planIDs)) ErrCouponNotForPlan
         end
  end.

(** [ApplyBP] panics on an amount with more than two places; that is its error. *)
Definition discountFor (f : Face) (maxDiscount : option dec) (subtotal : dec) : result money_err dec :=
  d ← (if String.eqb (f_Kind f) KindPercent then
         d ← ApplyBP subtotal (f_PercentBP f);
         Ok (match maxDiscount with Some m => if GreaterThan d m then m else d | None => d end)
       else Ok (f_AmountOff f));
  let d := if GreaterThan d subtotal then subtotal else d in
  Ok (if IsNegative d then dec_zero else d).

Definition redemptionTransitions (from : string) : list string :=
  if String.eqb from RedemptionHeld then [RedemptionCaptured; RedemptionReleased] else [].
Definition CanTransition (from to : string) : bool := existsb (String.eqb to) (redemptionTransitions from).

Definition checkTarget (t : Target) : result perr () :=
  match CheckNonNegative (t_Subtotal t) with
  | Err _ => Err PromoInternal
  | Ok _ => reject (t_UserID t =? uuid_Nil)%N PromoInternal
  end.

(** Plan identifiers without repetitions, in order of first occurrence. *)
Fixpoint dedup (seen l : list uuid) : list uuid :=
  match l with
  | [] => []
  | x :: l' => if existsb (N.eqb x) seen then dedup seen l' else x :: dedup (x :: seen) l'
  end.

(** The fields [validateSpec] refuses, and the spec it returns. *)
Definition spec_problems (sp : Spec) : list string :=
  let name := TrimSpace (sp_Name sp) in
  let f := sp_Face sp in
  (if (RuneCountInString name <? 1) || (100 <? RuneCountInString name) || ContainsNUL name then ["name"] else []) ++
  (if String.eqb (f_Kind f) KindPercent then
     (if (f_PercentBP f <? 1) || (10000 <? f_PercentBP f) then ["discount_value"] else [])
   else if String.eqb (f_Kind f) KindFixed then
     (if negb (IsPositive (f_AmountOff f)) || match Check (f_AmountOff f) with Ok _ => false | Err _ => true end
      then ["discount_value"] else [])
   else ["discount_type"]) ++
  (match sp_MaxDiscount sp with
   | Some m => if negb (String.eqb (f_Kind f) KindPercent) then ["max_discount"]
               else if negb (IsPositive m) || match Check m with Ok _ => false | Err _ => true end then ["max_discount"] else []
   | None => []
   end) ++
  (match CheckNonNegative (sp_MinOrder sp) with Ok _ => [] | Err _ => ["min_order_amount"] end) ++
  (match sp_MaxRedemptions sp with Some n => if n <=? 0 then ["max_redemptions"] else [] | None => [] end) ++
  (if sp_MaxPerUser sp <? 1 then ["max_redemptions_per_user"] else []) ++
  (match sp_ValidFrom sp, sp_ValidUntil sp with
   | Some f, Some u => if negb (f <? u) then ["valid_until"] else []
   | _, _ => []
   end) ++
  (if Nat.ltb 200 (length (dedup [] (sp_PlanIDs sp))) then ["applicable_plan_ids"] else []).

Definition clean_face (f : Face) : Face :=
  if String.eqb (f_Kind f) KindPercent then mkFace KindPercent (f_PercentBP f) dec_zero
  else if String.eqb (f_Kind f) KindFixed then mkFace KindFixed 0 (f_AmountOff f) else f.

Definition validateSpec (sp : Spec) : result perr Spec :=
  match spec_problems sp with
  | [] => Ok (mkSpec (TrimSpace (sp_Name sp)) (clean_face (sp_Face sp)) (sp_MaxDiscount sp) (sp_MinOrder sp)
                (sp_MaxRedemptions sp) (sp_MaxPerUser sp) (dedup [] (sp_PlanIDs sp)) (sp_UserGroupID sp)
                (sp_ValidFrom sp) (sp_ValidUntil sp))
  | fields => Err (PromoInvalid fields)
  end.

(** * Statements (repo/coupons.go, repo/redemptions.go) *)

Definition int4 (z : Z) : bool := between (- 2 ^ 31) z (2 ^ 31 - 1).
Definition money_ok (d : dec) : bool := match Check d with Ok _ => true | Err _ => false end.

(** [btrim]: spaces only. *)
Definition btrim (s : string) : list chunk :=
  let go := fix go l := match l with [] => [] | c :: l' => if rune c =? 32 then go l' else l end in
  rev (go (rev (go (runes s)))).

(** The columns hold the values, and the table's constraints. *)
Definition coupon_fits (c : Coupon) : bool :=
  pg_text (cp_Code c) && pg_text (cp_Name c) && opt_ok numeric_fits (cp_AmountOff c) && opt_ok int4 (cp_PercentOffBP c) &&
  opt_ok numeric_fits (cp_MaxDiscount c) && numeric_fits (cp_MinOrderAmount c) && opt_ok int4 (cp_MaxRedemptions c) &&
  int4 (cp_MaxPerUser c) && int4 (cp_RedeemedCount c) && int4 (cp_ReservedCount c).
Definition coupon_check (c : Coupon) : bool :=
  validCode (cp_Code c) && between 1 (Z.of_nat (length (btrim (cp_Name c)))) 100 &&
  opt_ok IsPositive (cp_AmountOff c) && opt_ok (λ bp, between 1 bp 10000) (cp_PercentOffBP c) &&
  opt_ok IsPositive (cp_MaxDiscount c) && negb (IsNegative (cp_MinOrderAmount c)) &&
  opt_ok (λ n, 0 <? n) (cp_MaxRedemptions c) && (0 <? cp_MaxPerUser c) &&
  (0 <=? cp_RedeemedCount c) && (0 <=? cp_ReservedCount c) && one_of (cp_Status c) [CouponActive; CouponPaused] &&
  negb (Bool.eqb (bool_decide (cp_AmountOff c = None)) (bool_decide (cp_PercentOffBP c = None))) &&
  (bool_decide (cp_MaxDiscount c = None) || negb (bool_decide (cp_PercentOffBP c = None))) &&
  opt_ok (λ n, cp_RedeemedCount c + cp_ReservedCount c <=? n) (cp_MaxRedemptions c) &&
  match cp_ValidFrom c, cp_ValidUntil c with Some f, Some u => f <? u | _, _ => true end.
Definition write_coupon (c : Coupon) : result perr () :=
  if coupon_fits c && coupon_check c then Ok () else Err PromoDB.

Definition checkCouponMoney (c : Coupon) : bool :=
  money_ok (cp_MinOrderAmount c) && opt_ok money_ok (cp_AmountOff c) && opt_ok money_ok (cp_MaxDiscount c).

Definition set_coupons (f : list Coupon → list Coupon) (s : promo) : promo :=
  mkPromo (f (coupons s)) (coupon_plans s) (redemptions s) (promo_audits s) (promo_next s).
Definition set_redemptions (f : list Redemption → list Redemption) (s : promo) : promo :=
  mkPromo (coupons s) (coupon_plans s) (f (redemptions s)) (promo_audits s) (promo_next s).
Definition promo_audit (a : string) : PM () := modify (λ s,
  mkPromo (coupons s) (coupon_plans s) (redemptions s) (promo_audits s ++ [a])%list (promo_next s)).

(** One row of the insert with its plans; [false] when the code exists. *)
Definition insert_coupon (W : PromoEnv) (mk : uuid → Coupon) (planIDs : list uuid) : PM bool := λ s,
  let c := mk (promo_next s) in
  match write_coupon c with
  | Err e => (Err e, s)
  | Ok _ =>
      if existsb (λ x, String.eqb (cp_Code x) (cp_Code c)) (coupons s) then (Ok false, s)
      else if negb (opt_ok (λ g, bool_decide (g ∈ pe_groups W)) (cp_UserGroupID c) &&
                    opt_ok (λ u, bool_decide (u ∈ pe_users W)) (cp_CreatedBy c)) then (Err PromoForeignKey, s)
      else if negb (bool_decide (NoDup planIDs)) then (Err PromoDB, s)
      else if negb (forallb (λ p, bool_decide (p ∈ pe_plans W)) planIDs) then (Err PromoPlanGone, s)
      else (Ok true, mkPromo (coupons s ++ [c])%list (coupon_plans s ++ map (λ p, (cp_ID c, p)) planIDs)%list
                       (redemptions s) (promo_audits s) (N.succ (promo_next s)))
  end.

Definition InsertCouponIfAbsent (W : PromoEnv) (mk : uuid → Coupon) (planIDs : list uuid) : PM bool :=
  if negb (checkCouponMoney (mk uuid_Nil)) then fail PromoMoney else insert_coupon W mk planIDs.

(** One statement for a batch of codes; the codes inserted. *)
Fixpoint insert_batch (W : PromoEnv) (mk : string → uuid → Coupon) (codes : list string) (planIDs : list uuid)
    : PM (list string) :=
  match codes with
  | [] => mret []
  | c :: codes' =>
      ok ← insert_coupon W (mk c) planIDs;
      rest ← insert_batch W mk codes' planIDs;
      mret (if ok : bool then c :: rest else rest)
  end.
Definition InsertCouponsIfAbsent (W : PromoEnv) (mk : string → uuid → Coupon) (codes : list string)
    (planIDs : list uuid) : PM (list string) :=
  match codes with
  | [] => mret []
  | _ => if negb (checkCouponMoney (mk "" uuid_Nil)) then fail PromoMoney
         else λ s, match insert_batch W mk codes planIDs s with (Err e, _) => (Err e, s) | r => r end
  end.

Definition PlanIDsByCoupon (id : uuid) (s : promo) : list uuid :=
  map snd (List.filter (λ cp, (cp.1 =? id)%N) (coupon_plans s)).
Definition CouponByCode (code : string) : PM (option Coupon) :=
  gets (λ s, List.find (λ c, String.eqb (cp_Code c) code) (coupons s)).
Definition LockCouponByCode := CouponByCode.

Definition with_counts (redeemed reserved : Z) (c : Coupon) : Coupon :=
  mkCoupon (cp_ID c) (cp_Code c) (cp_Name c) (cp_AmountOff c) (cp_PercentOffBP c) (cp_MaxDiscount c)
    (cp_MinOrderAmount c) (cp_MaxRedemptions c) (cp_MaxPerUser c) redeemed reserved (cp_UserGroupID c)
    (cp_ValidFrom c) (cp_ValidUntil c) (cp_Status c) (cp_CreatedBy c).
Definition with_status (st : string) (c : Coupon) : Coupon :=
  mkCoupon (cp_ID c) (cp_Code c) (cp_Name c) (cp_AmountOff c) (cp_PercentOffBP c) (cp_MaxDiscount c)
    (cp_MinOrderAmount c) (cp_MaxRedemptions c) (cp_MaxPerUser c) (cp_RedeemedCount c) (cp_ReservedCount c)
    (cp_UserGroupID c) (cp_ValidFrom c) (cp_ValidUntil c) st (cp_CreatedBy c).

(** [UPDATE coupons SET … WHERE id = ? AND …]: whether exactly one row matched. *)
Definition update_coupon (id : uuid) (guard : Coupon → bool) (f : Coupon → Coupon) : PM bool := λ s,
  let hit c := (cp_ID c =? id)%N && guard c in
  let rows := List.filter hit (coupons s) in
  if forallb (λ c, coupon_fits (f c) && coupon_check (f c)) rows
  then (Ok (Nat.eqb (length rows) 1), set_coupons (map (λ c, if hit c then f c else c)) s)
  else (Err PromoDB, s).

Definition SetCouponStatus (id : uuid) (status : string) : PM bool :=
  update_coupon id (λ _, true) (with_status status).
Definition IncrementReserved (id : uuid) : PM bool :=
  update_coupon id (λ c, String.eqb (cp_Status c) CouponActive &&
                         opt_ok (λ n, cp_RedeemedCount c + cp_ReservedCount c <? n) (cp_MaxRedemptions c))
    (λ c, with_counts (cp_RedeemedCount c) (cp_ReservedCount c + 1) c).
Definition DecrementReserved (id : uuid) : PM bool :=
  update_coupon id (λ c, 0 <? cp_ReservedCount c) (λ c, with_counts (cp_RedeemedCount c) (cp_ReservedCount c - 1) c).
Definition MoveReservedToRedeemed (id : uuid) : PM bool :=
  update_coupon id (λ c, 0 <? cp_ReservedCount c)
    (λ c, with_counts (cp_RedeemedCount c + 1) (cp_ReservedCount c - 1) c).

(** [orders] are the rows [order_id] may point at. *)
Definition InsertRedemptionIfAbsent (W : PromoEnv) (orders : uuid → bool) (mk : uuid → Redemption) : PM bool := λ s,
  let r := mk (promo_next s) in
  if negb (money_ok (rd_Discount r)) then (Err PromoMoney, s)
  else if negb (pg_text (rd_OrderNo r) && numeric_fits (rd_Discount r) && between 1 (RuneCountInString (rd_OrderNo r)) 64 &&
                negb (IsNegative (rd_Discount r)) && String.eqb (rd_Status r) RedemptionHeld) then (Err PromoDB, s)
  else if existsb (λ x, (rd_OrderID x =? rd_OrderID r)%N) (redemptions s) then (Ok false, s)
  else if negb (existsb (λ c, (cp_ID c =? rd_CouponID r)%N) (coupons s) && bool_decide (rd_UserID r ∈ pe_users W) &&
                orders (rd_OrderID r)) then (Err PromoForeignKey, s)
  else (Ok true, mkPromo (coupons s) (coupon_plans s) (redemptions s ++ [r])%list (promo_audits s) (N.succ (promo_next s))).

Definition counts_for (couponID userID : uuid) (r : Redemption) : bool :=
  (rd_CouponID r =? couponID)%N && (rd_UserID r =? userID)%N && one_of (rd_Status r) [RedemptionHeld; RedemptionCaptured].
Definition CountActiveByUser (couponID userID : uuid) : PM Z :=
  gets (λ s, Z.of_nat (length (List.filter (counts_for couponID userID) (redemptions s)))).

(** [FinishHeld]; [now] is the database's clock. *)
Definition finish (now : Time) (to : string) (reason : option string) (r : Redemption) : Redemption :=
  if String.eqb to RedemptionCaptured
  then mkRedemption (rd_ID r) (rd_CouponID r) (rd_UserID r) (rd_OrderID r) (rd_OrderNo r) (rd_Discount r)
         RedemptionCaptured (rd_ReleaseReason r) (Some now) (rd_ReleasedAt r)
  else mkRedemption (rd_ID r) (rd_CouponID r) (rd_UserID r) (rd_OrderID r) (rd_OrderNo r) (rd_Discount r)
         RedemptionReleased reason (rd_CapturedAt r) (Some now).
Definition held_on (orderID : uuid) (r : Redemption) : bool :=
  (rd_OrderID r =? orderID)%N && String.eqb (rd_Status r) RedemptionHeld.
(** [coupon_redemptions_state_times]. *)
Definition redemption_check (r : Redemption) : bool :=
  let c := bool_decide (rd_CapturedAt r = None) in
  let l := bool_decide (rd_ReleasedAt r = None) in
  (String.eqb (rd_Status r) RedemptionHeld && c && l) || (String.eqb (rd_Status r) RedemptionCaptured && negb c && l) ||
  (String.eqb (rd_Status r) RedemptionReleased && negb l && c).
Definition FinishHeld (now : Time) (orderID : uuid) (to : string) (reason : option string) : PM (option uuid) := λ s,
  if negb (one_of to [RedemptionCaptured; RedemptionReleased]) then (Err PromoInternal, s)
  else if negb (opt_ok (λ r, RuneCountInString r <=? 200) reason) then (Err PromoDB, s)
  else
    let rows := List.filter (held_on orderID) (redemptions s) in
    if negb (forallb (λ r, redemption_check (finish now to reason r)) rows) then (Err PromoDB, s)
    else
    (Ok (last (map rd_CouponID rows)),
     set_redemptions (map (λ r, if held_on orderID r then finish now to reason r else r)) s).

(** * Redemption (service/redeem.go) *)

Definition apply (W : PromoEnv) (now : Time) (c : Coupon) (t : Target) : PM Applied :=
  _ ← lift (checkBasics c t now);
  _ ← (match cp_UserGroupID c with
       | None => mret ()
       | Some g =>
           gid ← lift (UserGroupID W (t_UserID t));
           lift (reject (negb (bool_decide (gid = Some g))) ErrCouponNotForUser)
       end);
  plans ← gets (PlanIDsByCoupon (cp_ID c));
  _ ← lift (checkPlan plans (t_PlanID t));
  n ← CountActiveByUser (cp_ID c) (t_UserID t);
  if cp_MaxPerUser c <=? n then fail ErrCouponUserLimit
  else
    let face := faceOf c in
    match discountFor face (cp_MaxDiscount c) (t_Subtotal t) with
    | Err _ => fail PromoInternal
    | Ok d => mret (mkApplied (cp_ID c) (cp_Code c) face d)
    end.

Definition Evaluate (W : PromoEnv) (now : Time) (code0 : string) (t : Target) : PM (option Applied) :=
  let code := NormalizeCode code0 in
  if String.eqb code "" then mret None
  else
    _ ← lift (checkTarget t);
    if negb (validCode code) then fail ErrCouponNotFound
    else
      c ← CouponByCode code;
      match c with
      | None => fail ErrCouponNotFound
      | Some c => a ← apply W now c t; mret (Some a)
      end.

(** [Lock]: the row lock itself has no effect on the rows. *)
Definition PromoLock (code0 : string) : PM () :=
  let code := NormalizeCode code0 in
  if String.eqb code "" then mret ()
  else if negb (validCode code) then fail ErrCouponNotFound
  else
    c ← LockCouponByCode code;
    match c with None => fail ErrCouponNotFound | Some _ => mret () end.

Definition validateOrderRef (o : OrderRef) : result perr () :=
  if (or_ID o =? uuid_Nil)%N then Err PromoInternal
  else
    let no := TrimSpace (or_No o) in
    if String.eqb no "" then Err PromoInternal
    else reject (64 <? RuneCountInString no) PromoInternal.

Definition Reserve (W : PromoEnv) (orders : uuid → bool) (inTx : bool) (now : Time) (code0 : string) (t : Target)
    (o : OrderRef) : PM (option Applied) :=
  let code := NormalizeCode code0 in
  if String.eqb code "" then mret None
  else
    _ ← lift (checkTarget t);
    _ ← lift (validateOrderRef o);
    if negb (validCode code) then fail ErrCouponNotFound
    else promo_tx inTx (
      c ← LockCouponByCode code;
      match c with
      | None => fail ErrCouponNotFound
      | Some c =>
          a ← apply W now c t;
          inserted ← InsertRedemptionIfAbsent W orders (λ id,
            mkRedemption id (cp_ID c) (t_UserID t) (or_ID o) (TrimSpace (or_No o)) (ap_Discount a) RedemptionHeld None None None);
          if negb inserted then fail ErrOrderHasCoupon
          else
            inc ← IncrementReserved (cp_ID c);
            if negb inc then fail PromoInternal else mret (Some a)
      end).

(** [normalizeReleaseReason]: invalid UTF-8 and NUL dropped, at most 200 runes. *)
Definition normalizeReleaseReason (reason : string) : option string :=
  let rs := List.filter (λ c, good c && negb (rune c =? 0)) (runes (TrimSpace reason)) in
  match rs with
  | [] => None
  | _ => Some (string_of (encode (take 200 rs)))
  end.

Definition PromoRelease (inTx : bool) (now : Time) (orderID : uuid) (reason : string) : PM () :=
  let reason := normalizeReleaseReason reason in
  promo_tx inTx (
    if negb (CanTransition RedemptionHeld RedemptionReleased) then fail PromoInternal
    else
      id ← FinishHeld now orderID RedemptionReleased reason;
      match id with
      | None => fail ErrNotHeld
      | Some id =>
          dec ← DecrementReserved id;
          if negb dec then fail PromoInternal else mret ()
      end).

Definition PromoCapture (inTx : bool) (now : Time) (orderID : uuid) : PM () :=
  promo_tx inTx (
    if negb (CanTransition RedemptionHeld RedemptionCaptured) then fail PromoInternal
    else
      id ← FinishHeld now orderID RedemptionCaptured None;
      match id with
      | None => fail ErrNotHeld
      | Some id =>
          moved ← MoveReservedToRedeemed id;
          if negb moved then fail PromoInternal else mret ()
      end).

(** * Creation (service/admin.go) *)

Definition couponFromSpec (createdBy : option uuid) (sp : Spec) (code : string) (id : uuid) : Coupon :=
  let k := f_Kind (sp_Face sp) in
  mkCoupon id code (sp_Name sp)
    (if String.eqb k KindPercent then None
     else if String.eqb k KindFixed then Some (f_AmountOff (sp_Face sp)) else None)
    (if String.eqb k KindPercent then Some (f_PercentBP (sp_Face sp)) else None)
    (sp_MaxDiscount sp) (sp_MinOrder sp) (sp_MaxRedemptions sp) (sp_MaxPerUser sp) 0 0 (sp_UserGroupID sp)
    (sp_ValidFrom sp) (sp_ValidUntil sp) CouponActive createdBy.

Definition checkPlans (W : PromoEnv) (ids : list uuid) : result perr () :=
  match ids with
  | [] => Ok ()
  | _ =>
      missing ← MissingPlans W ids;
      reject (negb (bool_decide (missing = []))) (PromoInvalid ["applicable_plan_ids"])
  end.

(** The translation of insert errors. *)
Definition insert_err (e : perr) : perr :=
  match e with
  | PromoPlanGone => PromoConflict
  | PromoForeignKey => PromoInvalid ["user_group_id"]
  | e => e
  end.

Definition CreateCoupon (W : PromoEnv) (inTx : bool) (actor : option uuid) (code0 : string) (sp0 : Spec)
    : PM (uuid * string) :=
  let code := NormalizeCode code0 in
  _ ← lift (validateCode code);
  sp ← lift (validateSpec sp0);
  _ ← lift (checkPlans W (sp_PlanIDs sp));
  promo_tx inTx (
    id ← gets promo_next;
    inserted ← map_err insert_err (InsertCouponIfAbsent W (couponFromSpec actor sp code) (sp_PlanIDs sp));
    if negb inserted then fail ErrCodeExists
    else _ ← promo_audit ActionCouponCreated; mret (id, code)).

(** The inner loop: new codes that were not drawn before, until [need] of them. *)
Fixpoint draw_batch (prefix : string) (draws : list (list Z)) (need : nat) (used batch : list string)
    : result perr (list string * list string * list (list Z)) :=
  match need with
  | O => Ok (batch, used, draws)
  | S need' =>
      match draws with
      | [] => Err PromoInternal
      | d :: draws' =>
          gen ← newCode prefix d;
          if existsb (String.eqb gen) used then draw_batch prefix draws' need used batch
          else draw_batch prefix draws' need' (gen :: used) (batch ++ [gen])%list
      end
  end.

(** At most ten rounds. *)
Fixpoint generate_rounds (W : PromoEnv) (mk : string → uuid → Coupon) (plans : list uuid) (prefix : string)
    (k : nat) (count : nat) (draws : list (list Z)) (used codes : list string) : PM (list string) :=
  match k with
  | O => mret codes
  | S k' =>
      if Nat.ltb (length codes) count then
        bud ← lift (draw_batch prefix draws (count - length codes) used []);
        inserted ← map_err insert_err (InsertCouponsIfAbsent W mk bud.1.1 plans);
        generate_rounds W mk plans prefix k' count bud.2 bud.1.2 (codes ++ inserted)%list
      else mret codes
  end.

Definition GenerateCoupons (W : PromoEnv) (inTx : bool) (actor : option uuid) (draws : list (list Z)) (prefix0 : string)
    (count : Z) (sp0 : Spec) : PM (list string) :=
  if (count <? 1) || (BatchMax <? count) then fail (PromoInvalid ["count"])
  else
    prefix ← lift (normalizePrefix prefix0);
    if String.eqb (TrimSpace (sp_Name sp0)) "" then fail (PromoInvalid ["name"])
    else
      sp ← lift (validateSpec sp0);
      _ ← lift (checkPlans W (sp_PlanIDs sp));
      promo_tx inTx (
        codes ← generate_rounds W (couponFromSpec actor sp) (sp_PlanIDs sp) prefix 10 (Z.to_nat count) draws [] [];
        if Z.of_nat (length codes) <? count then fail PromoInternal
        else _ ← promo_audit ActionBatchGenerated; mret codes).

Definition SetStatus (inTx : bool) (id : uuid) (status : string) : PM () :=
  if negb (one_of status [CouponActive; CouponPaused]) then fail (PromoInvalid ["status"])
  else promo_tx inTx (
    ok ← SetCouponStatus id status;
    if negb ok then fail PromoNotFound else promo_audit ActionStatusChange).
End Promo.
