(* ===== verification/PromoThms.v ===== *)
(** What discount codes promise: the counters of a coupon are the numbers of
    its redemptions, no coupon is used more often than it allows, in total or
    by one user, a redemption ends once, and a discount is exact and never more
    than the price. *)
From Stdlib Require Import ZArith QArith Lqa Lia.
From stdpp Require Import base tactics list gmap strings sorting relations.
From S2P Require Import Prelude Decimal GoString Money GoTime LedgerTypes Ledger Promo Safety.
#[local] Open Scope string_scope.
#[local] Open Scope Z_scope.

Section PromoThms.
Context `{DL : DecimalLib}.
Abbreviation PM := (M promo perr).

(** * The invariant *)

Definition in_state (st : string) (id : uuid) (r : Redemption) : bool :=
  (rd_CouponID r =? id)%N && String.eqb (rd_Status r) st.
Definition count_in (st : string) (id : uuid) (l : list Redemption) : Z := Z.of_nat (length (List.filter (in_state st id) l)).
Definition count_user (id user : uuid) (l : list Redemption) : Z :=
  Z.of_nat (length (List.filter (counts_for id user) l)).

Record promo_ok (s : promo) : Prop := {
  pk_ids : NoDup (map cp_ID (coupons s));
  pk_fresh : Forall (λ c, (cp_ID c < promo_next s)%N) (coupons s);
  pk_codes : NoDup (map cp_Code (coupons s));
  pk_rows : Forall (λ c, write_coupon c = Ok ()) (coupons s);
  pk_counts : Forall (λ c, cp_ReservedCount c = count_in RedemptionHeld (cp_ID c) (redemptions s) ∧
                           cp_RedeemedCount c = count_in RedemptionCaptured (cp_ID c) (redemptions s)) (coupons s);
  pk_user : Forall (λ c, ∀ u, count_user (cp_ID c) u (redemptions s) ≤ cp_MaxPerUser c) (coupons s);
  pk_orders : NoDup (map rd_OrderID (redemptions s));
  pk_rcoupon : Forall (λ r, rd_CouponID r ∈ map cp_ID (coupons s)) (redemptions s);
  pk_rcheck : Forall (λ r, redemption_check r = true ∧ two_places (rd_Discount r) ∧ (0 <= val (rd_Discount r))%Q) (redemptions s);
}.

(** A redemption keeps its coupon, user, order and discount, and never changes
    again once it has left the state held. *)
Record redemption_evolves (r r' : Redemption) : Prop := {
  rv_row : (rd_ID r', rd_CouponID r', rd_UserID r', rd_OrderID r', rd_OrderNo r', rd_Discount r') =
           (rd_ID r, rd_CouponID r, rd_UserID r, rd_OrderID r, rd_OrderNo r, rd_Discount r);
  rv_final : rd_Status r ≠ RedemptionHeld → r' = r;
}.
(** A coupon keeps everything but its status and counters. *)
Definition coupon_evolves (c c' : Coupon) : Prop := ∃ st a b, c' = with_status st (with_counts a b c).

Record promo_evolves (s s' : promo) : Prop := {
  pv_red : ∀ i r, redemptions s !! i = Some r → ∃ r', redemptions s' !! i = Some r' ∧ redemption_evolves r r';
  pv_coupon : ∀ i c, coupons s !! i = Some c → ∃ c', coupons s' !! i = Some c' ∧ coupon_evolves c c';
}.

#[global] Instance promo_evolves_preorder : PreOrder promo_evolves.
Proof.
  split.
  - intros s. split.
    + intros i r H. exists r. by split; [|split].
    + intros i c H. exists c. split; [done|]. exists (cp_Status c), (cp_RedeemedCount c), (cp_ReservedCount c). by destruct c.
  - intros a b c [A1 A2] [B1 B2]. split.
    + intros i r H. destruct (A1 i r H) as (r1 & H1 & E1 & F1). destruct (B1 i r1 H1) as (r2 & H2 & E2 & F2).
      exists r2. split; [done|]. split; [congruence|]. intros Hn. rewrite F2, F1; [done|done|]. by rewrite F1.
    + intros i x H. destruct (A2 i x H) as (x1 & H1 & st1 & a1 & b1 & ->). destruct (B2 i _ H1) as (x2 & H2 & st2 & a2 & b2 & ->).
      exists (with_status st2 (with_counts a2 b2 (with_status st1 (with_counts a1 b1 x)))). split; [done|].
      exists st2, a2, b2. done.
Qed.

Lemma evolves_same_red s s' : redemptions s' = redemptions s →
  (∀ i c, coupons s !! i = Some c → ∃ c', coupons s' !! i = Some c' ∧ coupon_evolves c c') → promo_evolves s s'.
Proof. intros E H. split; [|done]. intros i r Hr. exists r. rewrite E. by split; [|split]. Qed.

Lemma coupon_evolves_refl c : coupon_evolves c c.
Proof. exists (cp_Status c), (cp_RedeemedCount c), (cp_ReservedCount c). by destruct c. Qed.

(** * Updating one coupon *)

Definition upd_coupon (id : uuid) (f : Coupon → Coupon) (l : list Coupon) : list Coupon :=
  map (λ c, if (cp_ID c =? id)%N then f c else c) l.

(** The row of an identifier, and how many rows match a guarded update. *)
Lemma one_coupon s c (guard : Coupon → bool) :
  NoDup (map cp_ID (coupons s)) → c ∈ coupons s →
  List.filter (λ x, (cp_ID x =? cp_ID c)%N && guard x) (coupons s) = if guard c then [c] else [].
Proof.
  intros Hn Hc. induction (coupons s) as [|x l IH]; [by apply elem_of_nil in Hc|].
  simpl in *. apply NoDup_cons in Hn as [Hx Hn]. apply elem_of_cons in Hc as [-> | Hc].
  - rewrite N.eqb_refl. simpl.
    assert (List.filter (λ y, (cp_ID y =? cp_ID x)%N && guard y) l = []) as ->.
    { clear IH Hn. induction l as [|y l IH]; simpl; [done|]. simpl in Hx. apply not_elem_of_cons in Hx as [Hxy Hx].
      destruct (N.eqb_spec (cp_ID y) (cp_ID x)); [congruence|]. by apply IH. }
    by destruct (guard x).
  - destruct (N.eqb_spec (cp_ID x) (cp_ID c)) as [E|E]; [|by apply IH].
    exfalso. apply Hx. rewrite E. by apply list_elem_of_fmap_2.
Qed.

Lemma update_coupon_eq s c guard f :
  NoDup (map cp_ID (coupons s)) → c ∈ coupons s → guard c = true →
  update_coupon (cp_ID c) guard f s =
    if coupon_fits (f c) && coupon_check (f c)
    then (Ok true, set_coupons (upd_coupon (cp_ID c) f) s) else (Err PromoDB, s).
Proof.
  intros Hs Hc Hg. unfold update_coupon. rewrite (one_coupon s c) by done. rewrite Hg. simpl. rewrite andb_true_r.
  destruct (coupon_fits (f c) && coupon_check (f c)); [|done]. f_equal. unfold set_coupons, upd_coupon. f_equal.
  apply map_ext_in. intros x Hx%list_elem_of_In. destruct (N.eqb_spec (cp_ID x) (cp_ID c)) as [E|]; [|done].
  rewrite (NoDup_map_inj cp_ID (coupons s) x c Hs Hx Hc E). by rewrite Hg.
Qed.

(** * Counting redemptions *)

Lemma count_in_app st id l1 l2 : count_in st id (l1 ++ l2) = count_in st id l1 + count_in st id l2.
Proof. unfold count_in. rewrite List.filter_app, length_app. lia. Qed.
Lemma count_in_cons st id r l : count_in st id (r :: l) = (if in_state st id r then 1 else 0) + count_in st id l.
Proof. unfold count_in. simpl. destruct (in_state st id r); simpl; lia. Qed.
Lemma count_user_app id u l1 l2 : count_user id u (l1 ++ l2) = count_user id u l1 + count_user id u l2.
Proof. unfold count_user. rewrite List.filter_app, length_app. lia. Qed.
Lemma count_user_cons id u r l : count_user id u (r :: l) = (if counts_for id u r then 1 else 0) + count_user id u l.
Proof. unfold count_user. simpl. destruct (counts_for id u r); simpl; lia. Qed.

Lemma held_none o l : o ∉ map rd_OrderID l → List.filter (held_on o) l = [].
Proof.
  induction l as [|r l IH]; simpl; [done|]. intros [Hr Hl]%not_elem_of_cons. unfold held_on at 1.
  destruct (N.eqb_spec (rd_OrderID r) o); [congruence|]. by apply IH.
Qed.
Lemma finish_none now o to reason l : o ∉ map rd_OrderID l →
  map (λ r, if held_on o r then finish now to reason r else r) l = l.
Proof.
  induction l as [|r l IH]; simpl; [done|]. intros [Hr Hl]%not_elem_of_cons. rewrite IH by done. unfold held_on.
  by destruct (N.eqb_spec (rd_OrderID r) o); [congruence|].
Qed.

(** An order has one redemption, so the update touches one row. *)
Lemma held_split now o to reason l r :
  NoDup (map rd_OrderID l) → r ∈ l → held_on o r = true →
  ∃ l1 l2, l = (l1 ++ r :: l2)%list ∧ List.filter (held_on o) l = [r] ∧
    map (λ r, if held_on o r then finish now to reason r else r) l = (l1 ++ finish now to reason r :: l2)%list.
Proof.
  intros Hn Hr Hh. apply list_elem_of_split in Hr as (l1 & l2 & ->). exists l1, l2. split; [done|].
  rewrite map_app in Hn. simpl in Hn. apply NoDup_app in Hn as (_ & H1 & H2). apply NoDup_cons in H2 as [H2 _].
  assert (Eo : rd_OrderID r = o) by (unfold held_on in Hh; reflect_bools; by apply N.eqb_eq).
  assert (N1 : o ∉ map rd_OrderID l1) by (intros Hin; apply (H1 _ Hin); rewrite Eo; constructor).
  rewrite Eo in H2. split.
  - rewrite List.filter_app, held_none by done. simpl. by rewrite Hh, held_none.
  - rewrite map_app. simpl. by rewrite Hh, !finish_none.
Qed.

Lemma FinishHeld_eq s now o to reason r :
  promo_ok s → r ∈ redemptions s → held_on o r = true → to = RedemptionCaptured ∨ to = RedemptionReleased →
  opt_ok (λ x, RuneCountInString x <=? 200) reason = true →
  FinishHeld now o to reason s =
    (Ok (Some (rd_CouponID r)), set_redemptions (map (λ r, if held_on o r then finish now to reason r else r)) s).
Proof.
  intros Hs Hr Hh Hto Hrs. destruct (held_split now o to reason _ r (pk_orders _ Hs) Hr Hh) as (l1 & l2 & _ & Hf & _).
  unfold FinishHeld. rewrite Hrs, Hf. simpl negb.
  assert (one_of to [RedemptionCaptured; RedemptionReleased] = true) as -> by (by destruct Hto as [-> | ->]).
  cbn [forallb map last negb]. destruct (proj1 (Forall_forall _ _) (pk_rcheck _ Hs) r Hr) as (Hc & _).
  assert (Ht : rd_CapturedAt r = None ∧ rd_ReleasedAt r = None).
  { unfold held_on in Hh. apply andb_true_iff in Hh as [_ Hst%String.eqb_eq]. unfold redemption_check in Hc. rewrite Hst in Hc.
    destruct (rd_CapturedAt r), (rd_ReleasedAt r); done. }
  destruct Ht as [E1 E2].
  assert (redemption_check (finish now to reason r) = true) as ->; [|done].
  unfold finish, redemption_check. destruct Hto as [-> | ->]; simpl; rewrite ?E1, ?E2; done.
Qed.

Lemma FinishHeld_none s now o to reason :
  (∀ r, r ∈ redemptions s → held_on o r = false) → to = RedemptionCaptured ∨ to = RedemptionReleased →
  opt_ok (λ x, RuneCountInString x <=? 200) reason = true →
  FinishHeld now o to reason s = (Ok None, s).
Proof.
  intros Hr Hto Hrs. unfold FinishHeld. rewrite Hrs.
  assert (one_of to [RedemptionCaptured; RedemptionReleased] = true) as -> by (by destruct Hto as [-> | ->]).
  assert (List.filter (held_on o) (redemptions s) = []) as ->.
  { clear Hto. induction (redemptions s) as [|r l IH]; simpl; [done|]. rewrite (Hr r) by constructor.
    apply IH. intros x Hx. apply Hr. by constructor. }
  simpl. f_equal. unfold set_redemptions. destruct s as [c p rs a n]. simpl in *. f_equal.
  rewrite <- (map_id rs) at 2. apply map_ext_in. intros r H%list_elem_of_In. by rewrite (Hr r).
Qed.

(** * The three steps keep the invariant *)

Lemma upd_coupon_map {B} (g : Coupon → B) id f l : (∀ c, g (f c) = g c) → map g (upd_coupon id f l) = map g l.
Proof. intros H. unfold upd_coupon. rewrite map_map. apply map_ext. intros c. by destruct (_ =? _)%N. Qed.

Lemma upd_coupon_Forall (P : Coupon → Prop) s c f :
  promo_ok s → c ∈ coupons s → P (f c) → (∀ x, x ∈ coupons s → cp_ID x ≠ cp_ID c → P x) →
  Forall P (upd_coupon (cp_ID c) f (coupons s)).
Proof.
  intros Hs Hc Hf Ho. apply Forall_forall. intros y (x & -> & Hx)%list_elem_of_fmap.
  destruct (N.eqb_spec (cp_ID x) (cp_ID c)) as [E|E]; [|by apply Ho].
  by rewrite (NoDup_map_inj cp_ID (coupons s) x c (pk_ids _ Hs) Hx Hc E).
Qed.

(** One coupon's counters and the redemptions change together. *)
Lemma promo_ok_counts s c a b reds audits next :
  promo_ok s → c ∈ coupons s → write_coupon (with_counts a b c) = Ok () → (promo_next s ≤ next)%N →
  b = count_in RedemptionHeld (cp_ID c) reds → a = count_in RedemptionCaptured (cp_ID c) reds →
  (∀ st id, id ≠ cp_ID c → count_in st id reds = count_in st id (redemptions s)) →
  (∀ x u, x ∈ coupons s → count_user (cp_ID x) u reds ≤ cp_MaxPerUser x) →
  NoDup (map rd_OrderID reds) → Forall (λ r, rd_CouponID r ∈ map cp_ID (coupons s)) reds →
  Forall (λ r, redemption_check r = true ∧ two_places (rd_Discount r) ∧ (0 <= val (rd_Discount r))%Q) reds →
  promo_ok (mkPromo (upd_coupon (cp_ID c) (with_counts a b) (coupons s)) (coupon_plans s) reds audits next).
Proof.
  intros Hs Hc Hw Hn Eb Ea Ho Hu Hro Hrc Hrk.
  assert (Hids : map cp_ID (upd_coupon (cp_ID c) (with_counts a b) (coupons s)) = map cp_ID (coupons s)) by (by apply upd_coupon_map).
  split; simpl; rewrite ?Hids; try done.
  - apply Hs.
  - apply upd_coupon_Forall; [done..| |]; simpl.
    + pose proof (proj1 (Forall_forall _ _) (pk_fresh _ Hs) c Hc). simpl in *. lia.
    + intros x Hx _. pose proof (proj1 (Forall_forall _ _) (pk_fresh _ Hs) x Hx). simpl in *. lia.
  - rewrite (upd_coupon_map cp_Code) by done. apply Hs.
  - apply upd_coupon_Forall; [done..|]. intros x Hx _. exact (proj1 (Forall_forall _ _) (pk_rows _ Hs) x Hx).
  - apply upd_coupon_Forall; [done..|]. intros x Hx E. rewrite !Ho by done. exact (proj1 (Forall_forall _ _) (pk_counts _ Hs) x Hx).
  - apply upd_coupon_Forall; [done..| |].
    + intros u. by apply (Hu c).
    + intros x Hx _ u. by apply Hu.
Qed.

Lemma coupon_of_redemption s r : promo_ok s → r ∈ redemptions s → ∃ c, c ∈ coupons s ∧ cp_ID c = rd_CouponID r.
Proof.
  intros Hs Hr. pose proof (proj1 (Forall_forall _ _) (pk_rcoupon _ Hs) r Hr) as H. simpl in H.
  apply list_elem_of_fmap in H as (c & E & Hc). eauto.
Qed.

Lemma held_positive s r c :
  promo_ok s → r ∈ redemptions s → rd_Status r = RedemptionHeld → c ∈ coupons s → cp_ID c = rd_CouponID r → 0 < cp_ReservedCount c.
Proof.
  intros Hs Hr Hst Hc E. destruct (proj1 (Forall_forall _ _) (pk_counts _ Hs) c Hc) as [-> _].
  apply list_elem_of_split in Hr as (l1 & l2 & ->). rewrite count_in_app, count_in_cons.
  assert (in_state RedemptionHeld (cp_ID c) r = true) as -> by (unfold in_state; by rewrite E, N.eqb_refl, Hst).
  unfold count_in. lia.
Qed.

(** Moving a held redemption to its final state. *)
Definition finished_state (now : Time) (o : uuid) (to : string) (reason : option string) (c : Coupon) (s : promo) : promo :=
  let a := if String.eqb to RedemptionCaptured then cp_RedeemedCount c + 1 else cp_RedeemedCount c in
  mkPromo (upd_coupon (cp_ID c) (with_counts a (cp_ReservedCount c - 1)) (coupons s)) (coupon_plans s)
    (map (λ r, if held_on o r then finish now to reason r else r) (redemptions s)) (promo_audits s) (promo_next s).

Lemma write_coupon_spec c : write_coupon c = Ok () ↔ coupon_fits c && coupon_check c = true.
Proof. unfold write_coupon. by destruct (_ && _). Qed.

(** The new counters pass the table's checks. *)
Lemma counts_write c a b :
  write_coupon c = Ok () → 0 ≤ a → 0 ≤ b → int4 a = true → int4 b = true →
  opt_ok (λ n, a + b <=? n) (cp_MaxRedemptions c) = true → write_coupon (with_counts a b c) = Ok ().
Proof.
  rewrite !write_coupon_spec. unfold coupon_fits, coupon_check. intros Hw Ha Hb Ia Ib Hm. simpl.
  rewrite !andb_true_iff in *. rewrite !Z.leb_le in *. tauto.
Qed.

Lemma write_facts c : write_coupon c = Ok () →
  0 ≤ cp_RedeemedCount c ∧ 0 ≤ cp_ReservedCount c ∧ int4 (cp_RedeemedCount c) = true ∧ int4 (cp_ReservedCount c) = true ∧
  opt_ok (λ n, cp_RedeemedCount c + cp_ReservedCount c <=? n) (cp_MaxRedemptions c) = true.
Proof.
  rewrite write_coupon_spec. unfold coupon_fits, coupon_check. rewrite !andb_true_iff, !Z.leb_le. tauto.
Qed.

Lemma opt_le_mono (m : option Z) x y : y ≤ x → opt_ok (λ n, x <=? n) m = true → opt_ok (λ n, y <=? n) m = true.
Proof. destruct m; simpl; rewrite ?Z.leb_le; lia. Qed.

Lemma int4_spec z : int4 z = true ↔ - 2 ^ 31 ≤ z ≤ 2 ^ 31 - 1.
Proof. unfold int4, between. rewrite andb_true_iff, !Z.leb_le. tauto. Qed.

Lemma finish_row now to reason r : to = RedemptionCaptured ∨ to = RedemptionReleased →
  rd_Status (finish now to reason r) = to ∧ rd_CouponID (finish now to reason r) = rd_CouponID r ∧
  rd_UserID (finish now to reason r) = rd_UserID r ∧ rd_OrderID (finish now to reason r) = rd_OrderID r ∧
  rd_Discount (finish now to reason r) = rd_Discount r.
Proof. by intros [-> | ->]. Qed.

Lemma finish_check now to reason r : redemption_check r = true → rd_Status r = RedemptionHeld →
  to = RedemptionCaptured ∨ to = RedemptionReleased → redemption_check (finish now to reason r) = true.
Proof.
  intros Hc Hst Hto. unfold redemption_check in Hc. rewrite Hst in Hc. unfold redemption_check, finish.
  destruct (rd_CapturedAt r) eqn:E1, (rd_ReleasedAt r) eqn:E2; try done. destruct Hto as [-> | ->]; simpl; by rewrite ?E1, ?E2.
Qed.

Lemma count_finish st id now to reason l1 r l2 :
  to = RedemptionCaptured ∨ to = RedemptionReleased → rd_Status r = RedemptionHeld →
  count_in st id (l1 ++ finish now to reason r :: l2) =
    count_in st id (l1 ++ r :: l2)
    + (if (rd_CouponID r =? id)%N then (if String.eqb to st then 1 else 0) - (if String.eqb RedemptionHeld st then 1 else 0) else 0).
Proof.
  intros Hto Hst. rewrite !count_in_app, !count_in_cons. destruct (finish_row now to reason r Hto) as (E1 & E2 & _).
  unfold in_state. rewrite E1, E2, Hst. destruct (rd_CouponID r =? id)%N; simpl; [|lia].
  destruct (String.eqb to st), (String.eqb RedemptionHeld st); lia.
Qed.

Lemma count_user_finish id u now to reason l1 r l2 :
  to = RedemptionCaptured ∨ to = RedemptionReleased → rd_Status r = RedemptionHeld →
  count_user id u (l1 ++ finish now to reason r :: l2) ≤ count_user id u (l1 ++ r :: l2).
Proof.
  intros Hto Hst. rewrite !count_user_app, !count_user_cons. destruct (finish_row now to reason r Hto) as (E1 & E2 & E3 & _).
  unfold counts_for. rewrite E1, E2, E3, Hst.
  change (one_of RedemptionHeld [RedemptionHeld; RedemptionCaptured]) with true.
  destruct ((rd_CouponID r =? id)%N && (rd_UserID r =? u)%N); simpl; [|lia]. destruct (one_of to _); simpl; lia.
Qed.

Lemma finished_ok s now o to reason r c :
  promo_ok s → r ∈ redemptions s → held_on o r = true → c ∈ coupons s → cp_ID c = rd_CouponID r →
  to = RedemptionCaptured ∧ cp_RedeemedCount c < 2 ^ 31 - 1 ∨ to = RedemptionReleased →
  write_coupon (with_counts (if String.eqb to RedemptionCaptured then cp_RedeemedCount c + 1 else cp_RedeemedCount c)
                  (cp_ReservedCount c - 1) c) = Ok () ∧
  promo_ok (finished_state now o to reason c s) ∧ promo_evolves s (finished_state now o to reason c s).
Proof.
  intros Hs Hr Hh Hc Ec Hto.
  assert (Hst : rd_Status r = RedemptionHeld) by (unfold held_on in Hh; apply andb_true_iff in Hh as [_ H]; by apply String.eqb_eq).
  assert (Hto' : to = RedemptionCaptured ∨ to = RedemptionReleased) by tauto.
  pose proof (held_positive s r c Hs Hr Hst Hc Ec) as Hpos.
  destruct (write_facts c (proj1 (Forall_forall _ _) (pk_rows _ Hs) c Hc)) as (F1 & F2 & F3 & F4 & F5).
  apply int4_spec in F3, F4.
  assert (Hw : write_coupon (with_counts (if String.eqb to RedemptionCaptured then cp_RedeemedCount c + 1 else cp_RedeemedCount c)
                  (cp_ReservedCount c - 1) c) = Ok ()).
  { destruct Hto as [[-> Hlt] | ->]; simpl; apply counts_write; rewrite ?int4_spec; try lia;
      try exact (proj1 (Forall_forall _ _) (pk_rows _ Hs) c Hc); (eapply opt_le_mono; [|exact F5]; lia). }
  destruct (proj1 (Forall_forall _ _) (pk_counts _ Hs) c Hc) as [K1 K2].
  destruct (held_split now o to reason _ r (pk_orders _ Hs) Hr Hh) as (l1 & l2 & El & _ & Em).
  split; [exact Hw|]. unfold finished_state. rewrite Em. split.
  - apply promo_ok_counts; try done.
    + rewrite count_finish, <- El, <- K1 by done. rewrite <- Ec, N.eqb_refl. destruct Hto' as [-> | ->]; simpl; lia.
    + rewrite count_finish, <- El, <- K2 by done. rewrite <- Ec, N.eqb_refl. destruct Hto' as [-> | ->]; simpl; lia.
    + intros st id Hid. rewrite count_finish, <- El by done. destruct (N.eqb_spec (rd_CouponID r) id); [congruence|lia].
    + intros x u Hx. etrans; [by apply count_user_finish|]. rewrite <- El. by apply (proj1 (Forall_forall _ _) (pk_user _ Hs) x Hx).
    + pose proof (pk_orders _ Hs) as Hn. rewrite El, map_app in Hn. rewrite map_app. simpl in *.
      by destruct (finish_row now to reason r Hto') as (_ & _ & _ & -> & _).
    + pose proof (pk_rcoupon _ Hs) as Hn. rewrite El in Hn. apply Forall_app in Hn as [H1 [H2 H3]%Forall_cons]. apply Forall_app.
      split; [done|]. constructor; [|done]. by destruct (finish_row now to reason r Hto') as (_ & -> & _).
    + pose proof (pk_rcheck _ Hs) as Hn. rewrite El in Hn. apply Forall_app in Hn as [H1 [(H2 & H4 & H5) H3]%Forall_cons]. apply Forall_app.
      split; [done|]. constructor; [|done]. destruct (finish_row now to reason r Hto') as (_ & _ & _ & _ & ->).
      split; [|done]. by apply finish_check.
  - split; simpl.
    + intros i x Hx. rewrite <- Em, list_lookup_fmap, Hx. simpl. eexists. split; [done|]. destruct (held_on o x) eqn:Hho; [|by split].
      split; [by destruct Hto' as [-> | ->]|]. intros Hne. unfold held_on in Hho. apply andb_true_iff in Hho as [_ H%String.eqb_eq]. done.
    + intros i x Hx. unfold upd_coupon. rewrite list_lookup_fmap, Hx. simpl. eexists. split; [done|].
      destruct (_ =? _)%N; [|apply coupon_evolves_refl]. eexists (cp_Status x), _, _. reflexivity.
Qed.

Lemma bind_run {S E A B} (m : M S E A) (f : A → M S E B) s a s1 : m s = (Ok a, s1) → (m ≫= f) s = f a s1.
Proof. intros H. unfold mbind, M_bind. by rewrite H. Qed.

Lemma promo_tx_run {A} b (m : PM A) s a s1 : m s = (Ok a, s1) → promo_tx b m s = (Ok a, s1).
Proof. intros H. unfold promo_tx, Do. rewrite H. by destruct b. Qed.


(** * Release and capture *)

Lemma reason_ok reason : opt_ok (λ x, RuneCountInString x <=? 200) (normalizeReleaseReason reason) = true.
Proof.
  unfold normalizeReleaseReason. set (rs := List.filter _ _).
  assert (H : Forall stable rs ∧ Forall (λ c, Forall byte_range (enc c)) rs).
  { split; apply Forall_forall; intros c Hc; apply elem_of_filter_bool in Hc as [Hg Hc].
    - apply andb_true_iff in Hg as [Hg _]. by apply (proj1 (Forall_forall _ _) (decode_stable _ 0) c Hc).
    - by apply (proj1 (Forall_forall _ _) (decode_range _ 0 (bytes_of_range _)) c Hc). }
  destruct rs as [|x rs0] eqn:E; [done|]. rewrite <- E in *. simpl. destruct H as [H1 H2]. unfold RuneCountInString.
  rewrite runes_string_of by (apply Forall_take; done). rewrite length_take. apply Z.leb_le. lia.
Qed.

(** Only the row itself matters to an update by identifier. *)
Lemma upd_coupon_same l c f g : NoDup (map cp_ID l) → c ∈ l → f c = g c → upd_coupon (cp_ID c) f l = upd_coupon (cp_ID c) g l.
Proof.
  intros Hn Hc E. apply map_ext_in. intros x Hx%list_elem_of_In. destruct (N.eqb_spec (cp_ID x) (cp_ID c)) as [Ex|]; [|done].
  by rewrite (NoDup_map_inj cp_ID l x c Hn Hx Hc Ex).
Qed.

Lemma held_status o r : held_on o r = true → rd_Status r = RedemptionHeld ∧ rd_OrderID r = o.
Proof. unfold held_on. intros [H1%N.eqb_eq H2%String.eqb_eq]%andb_true_iff. done. Qed.

Lemma promo_release_eq s inTx now o reason r c :
  promo_ok s → r ∈ redemptions s → held_on o r = true → c ∈ coupons s → cp_ID c = rd_CouponID r →
  PromoRelease inTx now o reason s =
    (Ok (), finished_state now o RedemptionReleased (normalizeReleaseReason reason) c s).
Proof.
  intros Hs Hr Hh Hc Ec. destruct (held_status _ _ Hh) as [Hst _].
  pose proof (held_positive s r c Hs Hr Hst Hc Ec) as Hpos.
  destruct (finished_ok s now o RedemptionReleased (normalizeReleaseReason reason) r c Hs Hr Hh Hc Ec) as (Hw & _); [by right|].
  apply promo_tx_run. change (negb (CanTransition RedemptionHeld RedemptionReleased)) with false. cbv iota.
  erewrite bind_run by (apply (FinishHeld_eq s now o _ _ r); [done|done|done|by right|apply reason_ok]).
  rewrite <- Ec. set (s1 := set_redemptions _ s).
  rewrite (bind_run _ _ s1 true (finished_state now o RedemptionReleased (normalizeReleaseReason reason) c s)); [done|].
  unfold DecrementReserved. rewrite (update_coupon_eq s1 c) by (done || apply Hs || (by apply Z.ltb_lt)).
  apply write_coupon_spec in Hw. change (String.eqb RedemptionReleased RedemptionCaptured) with false in Hw. cbv iota in Hw.
  rewrite Hw. f_equal. unfold finished_state, set_coupons. simpl. f_equal. apply upd_coupon_same; [apply Hs|done|done].
Qed.

Lemma promo_capture_eq s inTx now o r c :
  promo_ok s → r ∈ redemptions s → held_on o r = true → c ∈ coupons s → cp_ID c = rd_CouponID r →
  cp_RedeemedCount c < 2 ^ 31 - 1 →
  PromoCapture inTx now o s = (Ok (), finished_state now o RedemptionCaptured None c s).
Proof.
  intros Hs Hr Hh Hc Ec Hlt. destruct (held_status _ _ Hh) as [Hst _].
  pose proof (held_positive s r c Hs Hr Hst Hc Ec) as Hpos.
  destruct (finished_ok s now o RedemptionCaptured None r c Hs Hr Hh Hc Ec) as (Hw & _); [by left|].
  apply promo_tx_run. change (negb (CanTransition RedemptionHeld RedemptionCaptured)) with false. cbv iota.
  erewrite bind_run by (apply (FinishHeld_eq s now o _ _ r); [done|done|done|by left|done]).
  rewrite <- Ec. set (s1 := set_redemptions _ s).
  rewrite (bind_run _ _ s1 true (finished_state now o RedemptionCaptured None c s)); [done|].
  unfold MoveReservedToRedeemed. rewrite (update_coupon_eq s1 c) by (done || apply Hs || (by apply Z.ltb_lt)).
  apply write_coupon_spec in Hw. change (String.eqb RedemptionCaptured RedemptionCaptured) with true in Hw. cbv iota in Hw.
  rewrite Hw. f_equal. unfold finished_state, set_coupons. simpl. f_equal. apply upd_coupon_same; [apply Hs|done|done].
Qed.

(** With nothing held on the order both refuse and change nothing. *)
Lemma promo_finish_refused s inTx now o reason :
  (∀ r, r ∈ redemptions s → held_on o r = false) →
  PromoRelease inTx now o reason s = (Err ErrNotHeld, s) ∧ PromoCapture inTx now o s = (Err ErrNotHeld, s).
Proof.
  intros Hr. split; unfold PromoRelease, PromoCapture, promo_tx, Do.
  - change (negb (CanTransition RedemptionHeld RedemptionReleased)) with false. cbv iota.
    rewrite (bind_run _ _ s None s) by (apply FinishHeld_none; [done|by right|apply reason_ok]). by destruct inTx.
  - change (negb (CanTransition RedemptionHeld RedemptionCaptured)) with false. cbv iota.
    rewrite (bind_run _ _ s None s) by (apply FinishHeld_none; [done|by left|done]). by destruct inTx.
Qed.

(** * Reservation *)

Lemma find_coupon s code c : List.find (λ c, String.eqb (cp_Code c) code) (coupons s) = Some c → c ∈ coupons s ∧ cp_Code c = code.
Proof. intros [H1 H2]%find_some. split; [by apply list_elem_of_In|by apply String.eqb_eq]. Qed.

Lemma apply_Ok W now c t s a s' :
  apply W now c t s = (Ok a, s') →
  s' = s ∧ checkBasics c t now = Ok () ∧ checkPlan (PlanIDsByCoupon (cp_ID c) s) (t_PlanID t) = Ok () ∧
  count_user (cp_ID c) (t_UserID t) (redemptions s) < cp_MaxPerUser c ∧
  discountFor (faceOf c) (cp_MaxDiscount c) (t_Subtotal t) = Ok (ap_Discount a) ∧
  a = mkApplied (cp_ID c) (cp_Code c) (faceOf c) (ap_Discount a) ∧
  (∀ g, cp_UserGroupID c = Some g → UserGroupID W (t_UserID t) = Ok (Some g)).
Proof.
  unfold apply. intros H. step_ok H. apply lift_Ok in H0 as [H0 ->]. destruct x. step_ok H. destruct x.
  assert (Hg : x0 = s ∧ ∀ g, cp_UserGroupID c = Some g → UserGroupID W (t_UserID t) = Ok (Some g)).
  { destruct (cp_UserGroupID c) as [g|]; [|by simplify_eq H1]. step_ok H1. apply lift_Ok in H2 as [H2 ->].
    apply lift_Ok in H1 as [H1 ->]. split; [done|]. intros g' [= <-]. unfold reject in H1. destruct (negb _) eqn:E; [done|].
    apply negb_false_iff, bool_decide_eq_true in E. congruence. }
  destruct Hg as [-> Hg]. clear H1. step_ok H. apply gets_Ok in H1 as [-> ->]. step_ok H. apply lift_Ok in H1 as [H1 ->]. destruct x.
  step_ok H. apply gets_Ok in H2 as [-> ->]. destruct (cp_MaxPerUser c <=? _) eqn:E; [done|]. apply Z.leb_gt in E.
  destruct (discountFor _ _ _) as [d|] eqn:Ed; [|done]. injection H as <- <-. by split_and!.
Qed.

Definition held_row (id : uuid) (c : Coupon) (t : Target) (o : OrderRef) (d : dec) : Redemption :=
  mkRedemption id (cp_ID c) (t_UserID t) (or_ID o) (TrimSpace (or_No o)) d RedemptionHeld None None None.
Definition reserved_state (c : Coupon) (r : Redemption) (s : promo) : promo :=
  mkPromo (upd_coupon (cp_ID c) (with_counts (cp_RedeemedCount c) (cp_ReservedCount c + 1)) (coupons s)) (coupon_plans s)
    (redemptions s ++ [r])%list (promo_audits s) (N.succ (promo_next s)).

Lemma InsertRedemption_Ok W orders mk s s' :
  InsertRedemptionIfAbsent W orders mk s = (Ok true, s') →
  let r := mk (promo_next s) in
  two_places (rd_Discount r) ∧ (0 <= val (rd_Discount r))%Q ∧ rd_OrderID r ∉ map rd_OrderID (redemptions s) ∧
  s' = mkPromo (coupons s) (coupon_plans s) (redemptions s ++ [r])%list (promo_audits s) (N.succ (promo_next s)).
Proof.
  unfold InsertRedemptionIfAbsent. cbv zeta. set (r := mk (promo_next s)). destruct (negb (money_ok (rd_Discount r))) eqn:E1; [done|].
  destruct (negb (pg_text (rd_OrderNo r) && _ && _ && _ && _)) eqn:E2; [done|].
  destruct (existsb _ (redemptions s)) eqn:E3; [done|]. destruct (negb (existsb _ (coupons s) && _ && _)) eqn:E4; [done|].
  intros H. injection H as <-. apply negb_false_iff in E2. rewrite !andb_true_iff in E2. destruct E2 as [[[[_ _] _] E2] _].
  assert (E5 : IsNegative (rd_Discount r) = false) by (by apply negb_true_iff in E2).
  split_and!; try done.
  - apply negb_false_iff in E1. unfold money_ok in E1. destruct (Check (rd_Discount r)) as [[]|] eqn:E; [|done]. by eapply Check_ok.
  - by destruct (IsNegative_spec (rd_Discount r)).
  - intros (x & Ex & Hx)%list_elem_of_fmap. eapply existsb_false in E3; [|done]. simpl in E3. by rewrite Ex, N.eqb_refl in E3.
Qed.

Lemma find_in_coupons s c : promo_ok s → c ∈ coupons s → ∃ i, coupons s !! i = Some c.
Proof. intros _. apply list_elem_of_lookup. Qed.

Lemma reserved_ok s c r :
  promo_ok s → c ∈ coupons s → rd_CouponID r = cp_ID c → rd_Status r = RedemptionHeld → redemption_check r = true →
  two_places (rd_Discount r) → (0 <= val (rd_Discount r))%Q → rd_OrderID r ∉ map rd_OrderID (redemptions s) →
  count_user (cp_ID c) (rd_UserID r) (redemptions s) < cp_MaxPerUser c →
  write_coupon (with_counts (cp_RedeemedCount c) (cp_ReservedCount c + 1) c) = Ok () →
  promo_ok (reserved_state c r s) ∧ promo_evolves s (reserved_state c r s).
Proof.
  intros Hs Hc Ec Hst Hck Hd1 Hd2 Ho Hu Hw. destruct (proj1 (Forall_forall _ _) (pk_counts _ Hs) c Hc) as [K1 K2].
  assert (Hin : ∀ st id, in_state st id r = (cp_ID c =? id)%N && String.eqb RedemptionHeld st).
  { intros st id. unfold in_state. by rewrite Ec, Hst. }
  split.
  - apply promo_ok_counts; try done; try lia.
    + rewrite count_in_app, count_in_cons, Hin, N.eqb_refl. simpl. unfold count_in at 2. simpl. lia.
    + rewrite count_in_app, count_in_cons, Hin, N.eqb_refl. simpl. unfold count_in at 2. simpl. lia.
    + intros st id Hid. rewrite count_in_app, count_in_cons, Hin. destruct (N.eqb_spec (cp_ID c) id); [congruence|]. simpl.
      unfold count_in at 2. simpl. lia.
    + intros x u Hx. rewrite count_user_app, count_user_cons. unfold count_user at 2. simpl.
      pose proof (proj1 (Forall_forall _ _) (pk_user _ Hs) x Hx u) as Hxu. simpl in Hxu. unfold counts_for at 1. rewrite Ec, Hst.
      destruct (N.eqb_spec (cp_ID c) (cp_ID x)) as [E|]; [|simpl; lia].
      rewrite <- (NoDup_map_inj cp_ID _ c x (pk_ids _ Hs) Hc Hx E) in *. destruct (N.eqb_spec (rd_UserID r) u) as [<-|]; [|simpl; lia].
      simpl. lia.
    + rewrite map_app. apply NoDup_app. split_and!; [apply Hs| |apply NoDup_singleton].
      intros y Hy Hyr. simpl in Hyr. apply list_elem_of_singleton in Hyr as ->. done.
    + apply Forall_app. split; [apply Hs|]. constructor; [|done]. rewrite Ec. by apply list_elem_of_fmap_2.
    + apply Forall_app. split; [apply Hs|]. by constructor.
  - split; simpl.
    + intros i x Hx. exists x. split; [by apply lookup_app_l_Some|by split].
    + intros i x Hx. unfold upd_coupon. rewrite list_lookup_fmap, Hx. simpl. eexists. split; [done|].
      destruct (_ =? _)%N; [|apply coupon_evolves_refl]. eexists (cp_Status x), _, _. reflexivity.
Qed.

Lemma Reserve_Ok W orders inTx now code t o s a s' :
  promo_ok s → Reserve W orders inTx now code t o s = (Ok (Some a), s') →
  ∃ c, c ∈ coupons s ∧ cp_Code c = NormalizeCode code ∧ checkTarget t = Ok () ∧ checkBasics c t now = Ok () ∧
    checkPlan (PlanIDsByCoupon (cp_ID c) s) (t_PlanID t) = Ok () ∧
    (∀ g, cp_UserGroupID c = Some g → UserGroupID W (t_UserID t) = Ok (Some g)) ∧
    count_user (cp_ID c) (t_UserID t) (redemptions s) < cp_MaxPerUser c ∧
    discountFor (faceOf c) (cp_MaxDiscount c) (t_Subtotal t) = Ok (ap_Discount a) ∧
    a = mkApplied (cp_ID c) (cp_Code c) (faceOf c) (ap_Discount a) ∧
    let r := held_row (promo_next s) c t o (ap_Discount a) in
    or_ID o ∉ map rd_OrderID (redemptions s) ∧ s' = reserved_state c r s ∧ promo_ok s' ∧ promo_evolves s s'.
Proof.
  intros Hs H. unfold Reserve in H. destruct (String.eqb _ ""); [done|]. step_ok H. apply lift_Ok in H0 as [Ht ->]. destruct x.
  step_ok H. apply lift_Ok in H0 as [_ ->]. destruct (negb (validCode _)); [done|].
  unfold promo_tx in H. step_ok H. step_ok H.
  apply gets_Ok in H0 as [-> ->]. destruct (List.find _ _) as [c|] eqn:Ef; [|done]. apply find_coupon in Ef as [Hc Ecode].
  apply bind_Ok in H as (ap & s0 & H0 & H). apply apply_Ok in H0 as (-> & A1 & A2 & A3 & A4 & A5 & A6).
  apply bind_Ok in H as (ins & s0 & H0 & H). destruct ins; [|done].
  apply InsertRedemption_Ok in H0 as (I1 & I2 & I3 & ->). simpl in I1, I2, I3. cbn [negb] in H.
  apply bind_Ok in H as (inc & s2 & H0 & H). destruct inc; [|done]. injection H as <- <-.
  set (s1 := mkPromo (coupons s) _ _ _ _) in H0.
  set (f := λ x, with_counts (cp_RedeemedCount x) (cp_ReservedCount x + 1) x).
  set (g := λ x, String.eqb (cp_Status x) CouponActive && opt_ok (λ n, cp_RedeemedCount x + cp_ReservedCount x <? n) (cp_MaxRedemptions x)).
  change (IncrementReserved (cp_ID c)) with (update_coupon (cp_ID c) g f) in H0.
  assert (Hg : g c = true).
  { destruct (g c) eqn:Eg; [done|]. unfold update_coupon in H0.
    rewrite (one_coupon s1 c g) in H0 by (done || apply Hs). by rewrite Eg in H0. }
  rewrite (update_coupon_eq s1 c g f) in H0 by (done || apply Hs).
  destruct (coupon_fits (f c) && coupon_check (f c)) eqn:Ew; [|done]. injection H0 as <-. apply write_coupon_spec in Ew.
  set (r := held_row (promo_next s) c t o (ap_Discount ap)).
  assert (Es : set_coupons (upd_coupon (cp_ID c) f) s1 = reserved_state c r s).
  { unfold set_coupons, reserved_state, s1. simpl. f_equal. apply upd_coupon_same; [apply Hs|done|done]. }
  rewrite Es. destruct (reserved_ok s c r Hs Hc) as [P1 P2]; try done.
  exists c. split_and!; done.
Qed.

(** * Every operation keeps the invariant *)

Abbreviation promo_keeps := (keeps (E := perr) promo_ok promo_evolves).

Lemma no_redemptions s id : promo_ok s → (promo_next s ≤ id)%N → ∀ r, r ∈ redemptions s → rd_CouponID r ≠ id.
Proof.
  intros Hs Hid r Hr E. destruct (coupon_of_redemption s r Hs Hr) as (c & Hc & Ec).
  pose proof (proj1 (Forall_forall _ _) (pk_fresh _ Hs) c Hc). simpl in *. lia.
Qed.

Lemma count_zero {A} (p : A → bool) l : (∀ x, x ∈ l → p x = false) → length (List.filter p l) = 0%nat.
Proof.
  induction l as [|x l IH]; simpl; [done|]. intros H. rewrite (H x) by constructor. apply IH. intros y Hy. apply H. by constructor.
Qed.

Lemma write_per_user c : write_coupon c = Ok () → 0 < cp_MaxPerUser c.
Proof. rewrite write_coupon_spec. unfold coupon_check. rewrite !andb_true_iff, !Z.ltb_lt. tauto. Qed.

Lemma insert_coupon_keeps W mk plans :
  (∀ id, cp_ID (mk id) = id ∧ cp_RedeemedCount (mk id) = 0 ∧ cp_ReservedCount (mk id) = 0) → promo_keeps (insert_coupon W mk plans).
Proof.
  intros Hmk s a s' Hs H. unfold insert_coupon in H. set (c := mk (promo_next s)) in *.
  destruct (Hmk (promo_next s)) as (E1 & E2 & E3). fold c in E1, E2, E3.
  destruct (write_coupon c) as [[]|] eqn:Hw; [|done]. destruct (existsb _ _) eqn:Hcode; [injection H as _ <-; by split|].
  repeat (destruct (negb _); [done|]). injection H as _ <-.
  assert (Hno : ∀ st, count_in st (cp_ID c) (redemptions s) = 0).
  { intros st. unfold count_in. rewrite count_zero; [done|]. intros r Hr. unfold in_state.
    destruct (N.eqb_spec (rd_CouponID r) (cp_ID c)) as [E|]; [|done]. exfalso. by apply (no_redemptions s (cp_ID c) Hs ltac:(lia) r Hr). }
  assert (Hnu : ∀ u, count_user (cp_ID c) u (redemptions s) = 0).
  { intros u. unfold count_user. rewrite count_zero; [done|]. intros r Hr. unfold counts_for.
    destruct (N.eqb_spec (rd_CouponID r) (cp_ID c)) as [E|]; [|done]. exfalso. by apply (no_redemptions s (cp_ID c) Hs ltac:(lia) r Hr). }
  split.
  - split; simpl; rewrite ?map_app; try apply Hs.
    + apply NoDup_app. split_and!; [apply Hs| |apply NoDup_singleton]. intros i (x & -> & Hx)%list_elem_of_fmap.
      simpl. rewrite list_elem_of_singleton, E1. pose proof (proj1 (Forall_forall _ _) (pk_fresh _ Hs) x Hx). simpl in *. lia.
    + apply Forall_app. split; [|constructor; [rewrite E1; lia|done]]. eapply Forall_impl; [apply (pk_fresh _ Hs)|]. simpl. lia.
    + apply NoDup_app. split_and!; [apply Hs| |apply NoDup_singleton]. intros i (x & -> & Hx)%list_elem_of_fmap.
      simpl. rewrite list_elem_of_singleton. intros E. eapply existsb_false in Hcode; [|done]. simpl in Hcode. by rewrite E, String.eqb_refl in Hcode.
    + apply Forall_app. split; [apply Hs|by constructor].
    + apply Forall_app. split; [apply Hs|]. constructor; [|done]. by rewrite !Hno, E2, E3.
    + apply Forall_app. split; [apply Hs|]. constructor; [|done]. intros u. rewrite Hnu. apply write_per_user in Hw. lia.
    + eapply Forall_impl; [apply (pk_rcoupon _ Hs)|]. simpl. intros r Hr. apply elem_of_app. by left.
  - apply evolves_same_red; [done|]. simpl. intros i x Hx. exists x. split; [by apply lookup_app_l_Some|apply coupon_evolves_refl].
Qed.

Lemma couponFromSpec_new actor sp code : ∀ id, cp_ID (couponFromSpec actor sp code id) = id ∧
  cp_RedeemedCount (couponFromSpec actor sp code id) = 0 ∧ cp_ReservedCount (couponFromSpec actor sp code id) = 0.
Proof. done. Qed.

Lemma insert_batch_keeps W mk codes plans :
  (∀ code id, cp_ID (mk code id) = id ∧ cp_RedeemedCount (mk code id) = 0 ∧ cp_ReservedCount (mk code id) = 0) →
  promo_keeps (insert_batch W mk codes plans).
Proof. intros Hmk. induction codes as [|c codes IH]; simpl; keeps_walk; [by apply insert_coupon_keeps|done]. Qed.

Lemma InsertCouponsIfAbsent_keeps W mk codes plans :
  (∀ code id, cp_ID (mk code id) = id ∧ cp_RedeemedCount (mk code id) = 0 ∧ cp_ReservedCount (mk code id) = 0) →
  promo_keeps (InsertCouponsIfAbsent W mk codes plans).
Proof.
  intros Hmk. unfold InsertCouponsIfAbsent. destruct codes as [|c codes]; [apply keeps_ret, _|].
  destruct (negb _); [apply keeps_fail, _|]. intros s a s' Hs H.
  destruct (insert_batch W mk (c :: codes) plans s) as [[x|e] s1] eqn:E; [|done]. injection H as <- <-.
  by apply (insert_batch_keeps W mk (c :: codes) plans Hmk s x s1).
Qed.

Lemma promo_audit_keeps a : promo_keeps (promo_audit a).
Proof.
  apply keeps_modify. intros s [H1 H2 H3 H4 H5 H6 H7 H8 H9]. split; [by split|]. apply evolves_same_red; [done|].
  intros i c Hc. exists c. split; [done|apply coupon_evolves_refl].
Qed.

Lemma write_status c st : write_coupon c = Ok () → one_of st [CouponActive; CouponPaused] = true → write_coupon (with_status st c) = Ok ().
Proof.
  rewrite !write_coupon_spec. unfold coupon_fits, coupon_check. intros Hw Hst. simpl. rewrite !andb_true_iff in *. tauto.
Qed.

Lemma SetCouponStatus_keeps id st : promo_keeps (SetCouponStatus id st).
Proof.
  intros s a s' Hs H. unfold SetCouponStatus, update_coupon in H. destruct (forallb _ _) eqn:Hw; [|done]. injection H as _ <-.
  set (g := λ c, if (cp_ID c =? id)%N && true then with_status st c else c).
  assert (Hg : ∀ c, c ∈ coupons s → write_coupon (g c) = Ok ()).
  { intros c Hc. unfold g. destruct ((cp_ID c =? id)%N && true) eqn:E; [|exact (proj1 (Forall_forall _ _) (pk_rows _ Hs) c Hc)].
    apply write_coupon_spec. rewrite forallb_forall in Hw. apply Hw. apply list_elem_of_In, elem_of_filter_bool. done. }
  assert (Hk : ∀ c, cp_ID (g c) = cp_ID c ∧ cp_Code (g c) = cp_Code c ∧ cp_MaxPerUser (g c) = cp_MaxPerUser c ∧
                    cp_ReservedCount (g c) = cp_ReservedCount c ∧ cp_RedeemedCount (g c) = cp_RedeemedCount c).
  { intros c. unfold g. by destruct (_ && _). }
  assert (Hids : map cp_ID (map g (coupons s)) = map cp_ID (coupons s)).
  { rewrite map_map. apply map_ext. intros c. apply Hk. }
  split.
  - split; simpl; fold g; rewrite ?Hids; try apply Hs.
    + apply Forall_fmap. eapply Forall_impl; [apply (pk_fresh _ Hs)|]. intros c. simpl. by destruct (Hk c) as (-> & _).
    + rewrite map_map, (map_ext _ cp_Code) by (intros c; apply Hk). apply Hs.
    + apply Forall_fmap, Forall_forall. intros c Hc. by apply Hg.
    + apply Forall_fmap. eapply Forall_impl; [apply (pk_counts _ Hs)|]. intros c. simpl. by destruct (Hk c) as (-> & _ & _ & -> & ->).
    + apply Forall_fmap. eapply Forall_impl; [apply (pk_user _ Hs)|]. intros c. simpl. by destruct (Hk c) as (-> & _ & -> & _).
  - apply evolves_same_red; [done|]. simpl. intros i c Hc. rewrite list_lookup_fmap, Hc. simpl. eexists. split; [done|].
    unfold g. destruct (_ && _); [|apply coupon_evolves_refl]. exists st, (cp_RedeemedCount c), (cp_ReservedCount c). by destruct c.
Qed.

(** Whether the order has a held redemption. *)
Lemma held_dec s o : (∃ r, r ∈ redemptions s ∧ held_on o r = true) ∨ (∀ r, r ∈ redemptions s → held_on o r = false).
Proof.
  destruct (existsb (held_on o) (redemptions s)) eqn:E.
  - left. by apply existsb_true in E.
  - right. by apply existsb_false.
Qed.

Lemma PromoRelease_keeps inTx now o reason : promo_keeps (PromoRelease inTx now o reason).
Proof.
  intros s [] s' Hs H. destruct (held_dec s o) as [(r & Hr & Hh)|Hno].
  - destruct (coupon_of_redemption s r Hs Hr) as (c & Hc & Ec).
    rewrite (promo_release_eq s inTx now o reason r c) in H by done. injection H as <-.
    apply (finished_ok s now o RedemptionReleased _ r c); try done. by right.
  - destruct (promo_finish_refused s inTx now o reason Hno) as [H1 _]. by rewrite H1 in H.
Qed.

(** A capture fails only when the number of redemptions would overflow. *)
Lemma promo_capture_cases s inTx now o r c :
  promo_ok s → r ∈ redemptions s → held_on o r = true → c ∈ coupons s → cp_ID c = rd_CouponID r →
  cp_RedeemedCount c < 2 ^ 31 - 1 ∨ ∃ s', PromoCapture inTx now o s = (Err PromoDB, s').
Proof.
  intros Hs Hr Hh Hc Ec. destruct (Z.lt_ge_cases (cp_RedeemedCount c) (2 ^ 31 - 1)) as [|Hge]; [by left|]. right.
  destruct (held_status _ _ Hh) as [Hst _]. pose proof (held_positive s r c Hs Hr Hst Hc Ec) as Hpos.
  set (s1 := set_redemptions (map (λ r, if held_on o r then finish now RedemptionCaptured None r else r)) s).
  assert (HF : FinishHeld now o RedemptionCaptured None s = (Ok (Some (cp_ID c)), s1)).
  { rewrite Ec. apply (FinishHeld_eq s now o RedemptionCaptured None r); [done..|by left|done]. }
  assert (HM : MoveReservedToRedeemed (cp_ID c) s1 = (Err PromoDB, s1)).
  { unfold MoveReservedToRedeemed. rewrite (update_coupon_eq s1 c) by (done || apply Hs || (by apply Z.ltb_lt)).
    assert (coupon_fits (with_counts (cp_RedeemedCount c + 1) (cp_ReservedCount c - 1) c) = false) as ->; [|done].
    unfold coupon_fits. simpl. assert (int4 (cp_RedeemedCount c + 1) = false) as ->.
    { apply not_true_iff_false. rewrite int4_spec. lia. }
    by rewrite andb_false_r. }
  exists (if inTx then s1 else s). unfold PromoCapture, promo_tx, Do.
  change (negb (CanTransition RedemptionHeld RedemptionCaptured)) with false. cbv iota.
  rewrite (bind_run _ _ s _ s1 HF). unfold mbind, M_bind. rewrite HM. by destruct inTx.
Qed.

Lemma PromoCapture_keeps inTx now o : promo_keeps (PromoCapture inTx now o).
Proof.
  intros s [] s' Hs H. destruct (held_dec s o) as [(r & Hr & Hh)|Hno].
  - destruct (coupon_of_redemption s r Hs Hr) as (c & Hc & Ec).
    destruct (promo_capture_cases s inTx now o r c Hs Hr Hh Hc Ec) as [Hlt|(s2 & E)]; [|congruence].
    rewrite (promo_capture_eq s inTx now o r c) in H by done. injection H as <-.
    apply (finished_ok s now o RedemptionCaptured _ r c); try done. by left.
  - destruct (promo_finish_refused s inTx now o "" Hno) as [_ H1]. by rewrite H1 in H.
Qed.

Lemma Reserve_keeps W orders inTx now code t o : promo_keeps (Reserve W orders inTx now code t o).
Proof.
  intros s [a|] s' Hs H.
  - destruct (Reserve_Ok _ _ _ _ _ _ _ _ _ _ Hs H) as (c & _ & _ & _ & _ & _ & _ & _ & _ & _ & _ & _ & ? & ?). done.
  - unfold Reserve in H. destruct (String.eqb _ ""); [injection H as <-; by split|]. step_ok H. apply lift_Ok in H0 as [_ ->].
    step_ok H. apply lift_Ok in H0 as [_ ->]. destruct (negb (validCode _)); [done|]. unfold promo_tx in H. step_ok H. step_ok H.
    apply gets_Ok in H0 as [-> ->]. destruct (List.find _ _) as [c|]; [|done].
    step_ok H. step_ok H. destruct (negb _); [done|]. step_ok H. by destruct (negb _).
Qed.

Lemma CreateCoupon_keeps W inTx actor code sp : promo_keeps (CreateCoupon W inTx actor code sp).
Proof.
  unfold CreateCoupon, promo_tx, InsertCouponIfAbsent. keeps_walk; first [by apply insert_coupon_keeps | apply promo_audit_keeps].
Qed.

Lemma GenerateCoupons_keeps W inTx actor draws prefix n sp : promo_keeps (GenerateCoupons W inTx actor draws prefix n sp).
Proof.
  assert (Hr : ∀ mk plans p k count ds used codes,
    (∀ code id, cp_ID (mk code id) = id ∧ cp_RedeemedCount (mk code id) = 0 ∧ cp_ReservedCount (mk code id) = 0) →
    promo_keeps (generate_rounds W mk plans p k count ds used codes)).
  { intros mk plans p k. induction k as [|k IH]; intros count ds used codes Hmk; simpl; keeps_walk; [by apply InsertCouponsIfAbsent_keeps|by apply IH]. }
  unfold GenerateCoupons, promo_tx. keeps_walk; first [by apply Hr | apply promo_audit_keeps].
Qed.

Lemma SetStatus_keeps inTx id st : promo_keeps (SetStatus inTx id st).
Proof. unfold SetStatus, promo_tx. keeps_walk; [apply SetCouponStatus_keeps|apply promo_audit_keeps]. Qed.

(** * Histories *)

(** The module's writers, each in a transaction of its own. *)
Inductive promo_step (W : PromoEnv) (s : promo) : promo → Prop :=
| pstep_create actor code sp : promo_step W s (promo_tx false (CreateCoupon W true actor code sp) s).2
| pstep_generate actor draws prefix n sp : promo_step W s (promo_tx false (GenerateCoupons W true actor draws prefix n sp) s).2
| pstep_status id st : promo_step W s (promo_tx false (SetStatus true id st) s).2
| pstep_reserve orders now code t o : promo_step W s (promo_tx false (Reserve W orders true now code t o) s).2
| pstep_release now o reason : promo_step W s (promo_tx false (PromoRelease true now o reason) s).2
| pstep_capture now o : promo_step W s (promo_tx false (PromoCapture true now o) s).2.

Lemma promo_step_safe W s s' : promo_ok s → promo_step W s s' → promo_ok s' ∧ promo_evolves s s'.
Proof.
  intros Hs H. destruct H; (eapply safe_commit; [apply _| |exact Hs|apply surjective_pairing]);
    auto using CreateCoupon_keeps, GenerateCoupons_keeps, SetStatus_keeps, Reserve_keeps, PromoRelease_keeps, PromoCapture_keeps.
Qed.

Lemma empty_promo_ok : promo_ok empty_promo.
Proof. by split; simpl; try constructor. Qed.

(** C32: discount codes are never oversold.  Over every history of creations,
    reservations, releases and captures, a coupon's two counters are exactly the
    numbers of its held and captured redemptions, their sum stays within the
    coupon's limit, no user has more of them than the limit per user, an order
    has at most one redemption, and one that was captured or released never
    changes again. *)
Theorem coupons_never_oversold W s :
  rtc (promo_step W) empty_promo s →
  (∀ c, c ∈ coupons s →
     cp_ReservedCount c = count_in RedemptionHeld (cp_ID c) (redemptions s) ∧
     cp_RedeemedCount c = count_in RedemptionCaptured (cp_ID c) (redemptions s) ∧
     (∀ n, cp_MaxRedemptions c = Some n →
        count_in RedemptionHeld (cp_ID c) (redemptions s) + count_in RedemptionCaptured (cp_ID c) (redemptions s) ≤ n) ∧
     ∀ u, count_user (cp_ID c) u (redemptions s) ≤ cp_MaxPerUser c) ∧
  NoDup (map rd_OrderID (redemptions s)) ∧ NoDup (map cp_Code (coupons s)) ∧
  (∀ s' i r, rtc (promo_step W) s s' → redemptions s !! i = Some r → rd_Status r ≠ RedemptionHeld → redemptions s' !! i = Some r).
Proof.
  intros Hr. pose proof (history_keeps _ _ _ _ _ (promo_step_safe W) empty_promo_ok Hr) as [Hs _]. split_and!.
  - intros c Hc. destruct (proj1 (Forall_forall _ _) (pk_counts _ Hs) c Hc) as [K1 K2].
    destruct (write_facts c (proj1 (Forall_forall _ _) (pk_rows _ Hs) c Hc)) as (_ & _ & _ & _ & F5).
    split_and!; [done|done| |exact (proj1 (Forall_forall _ _) (pk_user _ Hs) c Hc)].
    intros n En. rewrite En in F5. simpl in F5. apply Z.leb_le in F5. lia.
  - apply Hs.
  - apply Hs.
  - intros s' i r Hr' Hi Hne. destruct (history_keeps _ _ _ _ _ (promo_step_safe W) Hs Hr') as [_ [He _]].
    destruct (He i r Hi) as (r' & Hr1 & _ & Hf). by rewrite (Hf Hne) in Hr1.
Qed.

Lemma with_counts_back c a b a' b' :
  a = cp_RedeemedCount c → b = cp_ReservedCount c → with_counts a b (with_counts a' b' c) = c.
Proof. intros -> ->. by destruct c. Qed.

(** A reservation is undone by a release and made final by a capture.  When
    a code was reserved for an order, the order had no redemption before, its
    coupon was active, within its time, its limits, its minimum and its plans,
    and one more use is reserved.  Releasing it gives every coupon back as it
    was; capturing it (while the number of uses fits the column) turns the
    reserved use into a redeemed one; either way a second release or capture
    is refused and changes nothing. *)
Theorem reserve_roundtrip W orders inTx now code t o s a s' now' reason :
  promo_ok s → Reserve W orders inTx now code t o s = (Ok (Some a), s') →
  ∃ c, c ∈ coupons s ∧ cp_Code c = NormalizeCode code ∧ ap_CouponID a = cp_ID c ∧ checkBasics c t now = Ok () ∧
    checkPlan (PlanIDsByCoupon (cp_ID c) s) (t_PlanID t) = Ok () ∧ or_ID o ∉ map rd_OrderID (redemptions s) ∧
    coupons s' = upd_coupon (cp_ID c) (with_counts (cp_RedeemedCount c) (cp_ReservedCount c + 1)) (coupons s) ∧
    (∃ s2, PromoRelease inTx now' (or_ID o) reason s' = (Ok (), s2) ∧ coupons s2 = coupons s ∧
       PromoRelease inTx now' (or_ID o) reason s2 = (Err ErrNotHeld, s2) ∧ PromoCapture inTx now' (or_ID o) s2 = (Err ErrNotHeld, s2)) ∧
    (cp_RedeemedCount c < 2 ^ 31 - 1 →
     ∃ s3, PromoCapture inTx now' (or_ID o) s' = (Ok (), s3) ∧
       coupons s3 = upd_coupon (cp_ID c) (with_counts (cp_RedeemedCount c + 1) (cp_ReservedCount c)) (coupons s) ∧
       PromoRelease inTx now' (or_ID o) reason s3 = (Err ErrNotHeld, s3) ∧ PromoCapture inTx now' (or_ID o) s3 = (Err ErrNotHeld, s3)).
Proof.
  intros Hs H. destruct (Reserve_Ok _ _ _ _ _ _ _ _ _ _ Hs H) as (c & Hc & Ecode & _ & Hb & Hp & _ & _ & _ & Ea & Ho & -> & Hs' & _).
  set (r := held_row (promo_next s) c t o (ap_Discount a)) in *.
  set (c1 := with_counts (cp_RedeemedCount c) (cp_ReservedCount c + 1) c).
  assert (Hr : r ∈ redemptions (reserved_state c r s)) by (apply elem_of_app; right; constructor).
  assert (Hh : held_on (or_ID o) r = true) by (unfold held_on; simpl; by rewrite N.eqb_refl).
  assert (Hc1 : c1 ∈ coupons (reserved_state c r s)).
  { apply list_elem_of_fmap. exists c. by rewrite N.eqb_refl. }
  assert (Hupd : ∀ f g : Coupon → Coupon, g (f c) = c → (∀ x, cp_ID (f x) = cp_ID x) →
    upd_coupon (cp_ID c) g (upd_coupon (cp_ID c) f (coupons s)) = coupons s).
  { intros f g E Hf. unfold upd_coupon. rewrite map_map. rewrite <- (map_id (coupons s)) at 2. apply map_ext_in.
    intros x Hx%list_elem_of_In. destruct (N.eqb_spec (cp_ID x) (cp_ID c)) as [Ex|]; [|by destruct (N.eqb_spec (cp_ID x) (cp_ID c))].
    rewrite Hf, (proj2 (N.eqb_eq _ _) Ex). by rewrite (NoDup_map_inj cp_ID _ x c (pk_ids _ Hs) Hx Hc Ex). }
  assert (Hdone : ∀ now to reason, to = RedemptionCaptured ∨ to = RedemptionReleased →
    ∀ x, x ∈ redemptions (finished_state now (or_ID o) to reason c1 (reserved_state c r s)) → held_on (or_ID o) x = false).
  { intros n to rs Hto x (y & -> & _)%list_elem_of_fmap. destruct (held_on (or_ID o) y) eqn:E; [|done].
    unfold held_on. destruct (finish_row n to rs y Hto) as (-> & _). rewrite andb_comm. by destruct Hto as [-> | ->]. }
  exists c. split_and!; try done.
  - by rewrite Ea.
  - eexists. split; [by apply (promo_release_eq _ inTx now' (or_ID o) reason r c1)|]. split.
    + simpl. apply Hupd; [apply with_counts_back; simpl; lia|done].
    + apply promo_finish_refused. apply Hdone. by right.
  - intros Hlt. eexists. split; [by apply (promo_capture_eq _ inTx now' (or_ID o) r c1)|]. split.
    + simpl. unfold upd_coupon. rewrite map_map. apply map_ext. intros x. destruct (N.eqb_spec (cp_ID x) (cp_ID c)) as [Ex|Ex]; simpl.
      * rewrite (proj2 (N.eqb_eq _ _) Ex). unfold with_counts. simpl. f_equal. lia.
      * by rewrite (proj2 (N.eqb_neq _ _) Ex).
    + apply promo_finish_refused. apply Hdone. by left.
Qed.

Lemma cents_of_nonneg d : two_places d → (0 <= val d)%Q ↔ 0 ≤ cents_of d.
Proof. intros H%val_cents. rewrite Zle_Qle. change (inject_Z 0) with 0%Q. split; intros; lra. Qed.

(** The smaller of two amounts, as the code picks it. *)
Lemma pick_min a b : two_places a → two_places b →
  two_places (if GreaterThan a b then b else a) ∧ cents_of (if GreaterThan a b then b else a) = Z.min (cents_of a) (cents_of b).
Proof.
  intros Ha Hb. destruct (GreaterThan_spec a b) as [H|H]; (split; [done|]).
  - assert (Hl : (val b <= val a)%Q) by lra. apply cents_of_le in Hl; [lia|done..].
  - apply cents_of_le in H; [lia|done..].
Qed.

(** The last two steps of [discountFor]. *)
Lemma clamp_discount d subtotal : two_places d → two_places subtotal → 0 ≤ cents_of d → 0 ≤ cents_of subtotal →
  let d1 := if GreaterThan d subtotal then subtotal else d in
  let d2 := if IsNegative d1 then dec_zero else d1 in
  two_places d2 ∧ (0 <= val d2)%Q ∧ (val d2 <= val subtotal)%Q ∧ cents_of d2 = Z.min (cents_of d) (cents_of subtotal).
Proof.
  intros Hd Hs H1 H2 d1 d2. destruct (pick_min d subtotal Hd Hs) as [P1 P2]. fold d1 in P1, P2.
  assert (P3 : (0 <= val d1)%Q) by (apply cents_of_nonneg; [done|lia]).
  unfold d2. destruct (IsNegative_spec d1); [lra|]. split_and!; [done|done| |done].
  apply cents_of_le; [done..|lia].
Qed.

(** A face the creation of coupons accepts. *)
Definition face_ok (f : Face) (cap : option dec) : Prop :=
  (f_Kind f = KindPercent ∧ 1 ≤ f_PercentBP f ≤ 10000 ∧ (∀ m, cap = Some m → two_places m ∧ (0 < val m)%Q)) ∨
  (f_Kind f = KindFixed ∧ two_places (f_AmountOff f) ∧ (0 < val (f_AmountOff f))%Q ∧ cap = None).

(** A discount is exact.  For a subtotal in whole cents it is, in cents,
    the percentage rounded down and capped, or the fixed amount, and in both
    cases at most the subtotal; it is never negative and never fails. *)
Theorem discount_exact f cap subtotal :
  face_ok f cap → two_places subtotal → (0 <= val subtotal)%Q →
  ∃ d, discountFor f cap subtotal = Ok d ∧ two_places d ∧ (0 <= val d)%Q ∧ (val d <= val subtotal)%Q ∧
    cents_of d = if String.eqb (f_Kind f) KindPercent
                 then match cap with
                      | Some m => Z.min (cents_of subtotal) (Z.min (cents_of m) (cents_of subtotal * f_PercentBP f / 10000))
                      | None => cents_of subtotal * f_PercentBP f / 10000
                      end
                 else Z.min (cents_of (f_AmountOff f)) (cents_of subtotal).
Proof.
  intros Hf Hsub Hpos. pose proof (proj1 (cents_of_nonneg _ Hsub) Hpos) as Hc.
  unfold discountFor. destruct Hf as [(Hk & Hbp & Hcap)|(Hk & Ha & Hap & ->)]; rewrite Hk; simpl.
  - destruct (MulRatio_total subtotal (f_PercentBP f) BasisPoints) as [d Hd]; [done|done|].
    destruct (MulRatio_ok _ _ _ _ Hd) as (_ & _ & Hd2 & Hdc). unfold ApplyBP. rewrite Hd. simpl.
    rewrite Z.quot_div_nonneg in Hdc by (unfold BasisPoints; nia). unfold BasisPoints in Hdc.
    assert (Hq : 0 ≤ cents_of subtotal * f_PercentBP f / 10000 ≤ cents_of subtotal).
    { split; [apply Z.div_pos; nia|]. apply Z.div_le_upper_bound; nia. }
    destruct cap as [m|].
    + destruct (Hcap m eq_refl) as [Hm Hmp]. destruct (pick_min d m Hd2 Hm) as [P1 P2].
      assert (Hmc : 0 ≤ cents_of m) by (apply cents_of_nonneg; [done|lra]).
      destruct (clamp_discount _ subtotal P1 Hsub ltac:(lia) Hc) as (C1 & C2 & C3 & C4).
      eexists. split; [done|]. split_and!; try done. rewrite C4, P2, Hdc. lia.
    + destruct (clamp_discount _ subtotal Hd2 Hsub ltac:(lia) Hc) as (C1 & C2 & C3 & C4).
      eexists. split; [done|]. split_and!; try done. rewrite C4, Hdc. lia.
  - assert (Hac : 0 ≤ cents_of (f_AmountOff f)) by (apply cents_of_nonneg; [done|lra]).
    destruct (clamp_discount _ subtotal Ha Hsub Hac Hc) as (C1 & C2 & C3 & C4). eexists. split; [done|]. by split_and!.
Qed.
End PromoThms.

(** * A concrete code

    A concrete discount code: ten percent off, one use in total, created,
    reserved by an order, released and captured. *)
#[local] Existing Instance scaled_decimal.

Ltac ev := match goal with |- _ = ?x => vm_cast_no_check (eq_refl x) end.

Definition shop_env : PromoEnv := mkPromoEnv {[7%N; 8%N]} ∅ {[50%N]} (λ _, Ok None) (λ _, Ok []).
Definition five : dec := (500, -2).
Definition price : dec := (1999, -2).
Definition tenth : Face := mkFace KindPercent 1000 dec_zero.
Definition ten_percent : Spec :=
  mkSpec "Spring sale" tenth (Some five) (1000, -2) (Some 1) 1 [50%N] None None None.

Definition shop1 : promo := (promo_tx false (CreateCoupon shop_env true (Some 7%N) " save-10 " ten_percent) empty_promo).2.
Definition cart : Target := mkTarget 8 (Some 50%N) price.
Definition order_ref : OrderRef := mkOrderRef 80 "O-1".
Definition known_order (id : N) : bool := (id =? 80)%N.
Definition shop2 : promo := (promo_tx false (Reserve shop_env known_order true 0 "Save-10" cart order_ref) shop1).2.

Lemma shop1_history : rtc (promo_step shop_env) empty_promo shop1.
Proof. apply rtc_once. apply (pstep_create shop_env empty_promo (Some 7%N) " save-10 " ten_percent). Qed.
Lemma shop2_history : rtc (promo_step shop_env) empty_promo shop2.
Proof. eapply rtc_r; [exact shop1_history|]. apply (pstep_reserve shop_env shop1 known_order 0 "Save-10" cart order_ref). Qed.
Lemma shop1_ok : promo_ok shop1.
Proof. exact (proj1 (history_keeps _ _ _ _ _ (promo_step_safe shop_env) empty_promo_ok shop1_history)). Qed.

Definition no_coupon : Coupon := mkCoupon 0 "" "" None None None dec_zero None 0 0 0 None None None "" None.
Definition sale : Coupon := nth 0 (coupons shop2) no_coupon.

(** The one use is reserved: the counters say so, and the limit is reached. *)
Lemma coupons_never_oversold_witness :
  cp_ReservedCount sale = 1 ∧ count_in RedemptionHeld (cp_ID sale) (redemptions shop2) + count_in RedemptionCaptured (cp_ID sale) (redemptions shop2) ≤ 1.
Proof.
  split; [ev|]. destruct (coupons_never_oversold shop_env shop2 shop2_history) as (H & _).
  assert (Hin : sale ∈ coupons shop2) by (apply (list_elem_of_lookup_2 _ 0%nat); ev).
  destruct (H sale Hin) as (_ & _ & Hn & _). apply Hn. ev.
Defined.

Definition applied : Applied := mkApplied 1 "SAVE-10" tenth (199, -2).

Lemma reserve_roundtrip_witness :
  Reserve shop_env known_order false 0 "Save-10" cart order_ref shop1 = (Ok (Some applied), shop2) ∧
  ∃ s2, PromoRelease false 60 80 "cancelled" shop2 = (Ok (), s2) ∧ coupons s2 = coupons shop1.
Proof.
  assert (Hrun : Reserve shop_env known_order false 0 "Save-10" cart order_ref shop1 = (Ok (Some applied), shop2)) by ev.
  split; [exact Hrun|].
  destruct (reserve_roundtrip shop_env known_order false 0 "Save-10" cart order_ref shop1 applied shop2 60 "cancelled" shop1_ok Hrun)
    as (c & _ & _ & _ & _ & _ & _ & _ & (s2 & H1 & H2 & _) & _).
  exists s2. exact (conj H1 H2).
Defined.

Lemma discount_exact_witness : ∃ d, discountFor tenth (Some five) price = Ok d ∧ cents_of d = 199.
Proof.
  assert (E1 : cents_of price = 1999) by ev. assert (E2 : cents_of five = 500) by ev.
  destruct (discount_exact tenth (Some five) price) as (d & H1 & _ & _ & _ & H2).
  - left. split; [ev|]. split; [simpl; lia|]. intros m [= <-]. split; [reflexivity|]. reflexivity.
  - reflexivity.
  - discriminate.
  - exists d. split; [exact H1|]. rewrite H2, E1, E2. ev.
Defined.
