(* ===== verification/Period.v ===== *)
(** Subscription periods and states: the pure functions of
    panel/internal/module/subscription/service/period.go and state.go, and the
    window computations of quota_roll.go.  [wall] stands for the clock
    [IsPermanent] reads with [time.Now()]. *)
From Stdlib Require Import ZArith Lia.
From stdpp Require Import base tactics list strings gmap.
From S2P Require Import Prelude GoTime.
#[local] Open Scope string_scope.
#[local] Open Scope Z_scope.

Definition PeriodTotal := "total".
Definition PeriodCycle := "cycle".
Definition PeriodDay := "day".
Definition PeriodMonth := "month".
Definition StatusActive := "active".
Definition StatusExpired := "expired".

(** * period.go *)

Definition ValidInterval (interval : string) : bool :=
  bool_decide (interval ∈ ["day"; "week"; "month"; "quarter"; "year"; "one_time"]).

Definition AddInterval (from : Time) (interval : string) (count0 : Z) : Time :=
  let count := if count0 <=? 0 then 1 else count0 in
  if String.eqb interval "day" then AddDate from 0 0 count
  else if String.eqb interval "week" then AddDate from 0 0 (wrap64 (7 * count))
  else if String.eqb interval "month" then AddDate from 0 count 0
  else if String.eqb interval "quarter" then AddDate from 0 (wrap64 (3 * count)) 0
  else if String.eqb interval "year" then AddDate from count 0 0
  else if String.eqb interval "one_time" then AddDate from 100 0 0
  else AddDate from 0 count 0.

Definition permanentHorizon : Z := 50.

Definition IsPermanent (wall : Time) (end_ : Time) : bool :=
  After end_ (AddDate wall permanentHorizon 0 0).

(** The price fields the period computations read. *)
Record PriceSnapshot := mkPrice { Interval : string; IntervalCount : Z; ValidityDays : option Z }.

Definition validity (p : PriceSnapshot) : option Z :=
  match ValidityDays p with Some n => if 0 <? n then Some n else None | None => None end.

Definition PeriodEndFor (start : Time) (p : PriceSnapshot) : Time :=
  match validity p with
  | Some n => if String.eqb (Interval p) "one_time"
              then Truncate (AddDate start 0 0 n) Microsecond
              else Truncate (AddInterval start (Interval p) (IntervalCount p)) Microsecond
  | None => Truncate (AddInterval start (Interval p) (IntervalCount p)) Microsecond
  end.

Definition StackEnd (wall : Time) (oldEnd now : Time) (p : PriceSnapshot) : Time :=
  match validity p with
  | None => if IsPermanent wall oldEnd then oldEnd
            else Truncate (AddInterval now "one_time" 1) Microsecond
  | Some n =>
      if IsPermanent wall oldEnd then oldEnd
      else
        let base := if After now oldEnd then now else oldEnd in
        Truncate (AddDate base 0 0 n) Microsecond
  end.

Definition CycleLength (from : Time) (interval : string) (count : Z) : Duration :=
  Sub (AddInterval from interval count) from.

Definition QuotaPeriodEnd (period : string) (start cycleEnd : Time) : option Time :=
  if String.eqb period PeriodTotal then None
  else if String.eqb period PeriodDay then Some (AddDate start 0 0 1)
  else if String.eqb period PeriodMonth then Some (AddDate start 0 1 0)
  else Some cycleEnd.

Definition RenewalBase (oldEnd paidAt : Time) (orderCreatedAt : option Time) : Time * bool :=
  if After oldEnd paidAt then (oldEnd, false)
  else match orderCreatedAt with
       | Some created => if Before created oldEnd then (oldEnd, false) else (paidAt, true)
       | None => (paidAt, true)
       end.

Definition ExtendBase (oldEnd now : Time) : Time * bool :=
  if After oldEnd now then (oldEnd, false) else (now, true).

Definition ProratedQuota (limit days : Z) (cycle : Duration) : Z :=
  if (limit <=? 0) || (days <=? 0) || (cycle <=? 0) then 0
  else
    let n := Z.quot (limit * (days * Day)) cycle in
    if is_int64 n then n else 0.

Definition NextCycleEnd (start subEnd : Time) (interval : string) (count : Z) : Time :=
  let next := AddInterval start interval count in
  if After (AddInterval next interval count) subEnd then subEnd else next.

Definition RenewUntil (periodEnd now : Time) (interval : string) (count : Z) : Time :=
  let base := if After periodEnd now then periodEnd else now in
  Truncate (AddInterval base interval count) Microsecond.

(** * state.go *)

Inductive State := StateLive | StateRevivable | StateEnded.
#[global] Instance State_eq_dec : EqDecision State.
Proof. solve_decision. Defined.

Definition StateAt (status : string) (periodEnd : Time) (renewalClosedAt : option Time) (now : Time) : State :=
  match renewalClosedAt with
  | Some _ => StateEnded
  | None => if String.eqb status StatusActive && After periodEnd now then StateLive else StateRevivable
  end.

Definition AcceptsChange (st : State) : bool := negb (bool_decide (st = StateEnded)).

Definition transitions (from : string) : list string :=
  if String.eqb from StatusActive then [StatusActive; StatusExpired]
  else if String.eqb from StatusExpired then [StatusActive] else [].

Definition CanTransition (from to : string) : bool := existsb (String.eqb to) (transitions from).

(** The fields of a [Summary] the choice of the current subscription reads. *)
Record Summary := mkSummary { sm_State : State; sm_PeriodEnd : Time; sm_CreatedAt : Time }.

Definition betterCurrent (a b : Summary) : bool :=
  let al := bool_decide (sm_State a = StateLive) in
  let bl := bool_decide (sm_State b = StateLive) in
  if negb (Bool.eqb al bl) then al
  else if negb (sm_PeriodEnd a =? sm_PeriodEnd b) then After (sm_PeriodEnd a) (sm_PeriodEnd b)
  else After (sm_CreatedAt a) (sm_CreatedAt b).

Definition currentIndex (subs : list Summary) : Z :=
  let step (acc : Z * option (Z * Summary)) (x : Summary) :=
    let '(i, best) := acc in
    (i + 1, match best with
            | None => Some (i, x)
            | Some (_, b) => if betterCurrent x b then Some (i, x) else best
            end) in
  match (foldl step (0, None) subs).2 with Some (i, _) => i | None => -1 end.

(** * quota_roll.go *)

Definition overlongPeriod (period : string) (start end_ : Time) : bool :=
  if String.eqb period PeriodDay then After end_ (start + 25 * Hour)
  else if String.eqb period PeriodMonth then After end_ (AddDate start 0 1 4)
  else false.

(** [for k > 0 && step(k).After(now) { k-- }]. *)
Fixpoint step_back (step : Z → Time) (now : Time) (k : nat) : nat :=
  match k with
  | O => O
  | S k' => if After (step (Z.of_nat k)) now then step_back step now k' else k
  end.

Definition natural_step (period : string) (anchor : Time) (k : Z) : Time :=
  if String.eqb period PeriodDay then AddDate anchor 0 0 k else AddDate anchor 0 k 0.

Definition naturalRollStart (period : string) (start end_ now : Time) : option Time :=
  let overlong := overlongPeriod period start end_ in
  let anchor := if overlong then start else end_ in
  if After anchor now then None
  else if negb (String.eqb period PeriodDay || String.eqb period PeriodMonth) then None
  else
    let k0 := if String.eqb period PeriodDay then Z.quot (Sub now anchor) Day
              else (Year now - Year anchor) * 12 + Month now - Month anchor in
    let k := if 0 <? k0 then Z.of_nat (step_back (natural_step period anchor) now (Z.to_nat k0)) else k0 in
    if overlong && (k =? 0) then None
    else Some (natural_step period anchor k).

(** [for !end.After(now) && end.Before(subEnd)]: each turn moves the window one
    billing period on.  Every period is at least a day long, so the days between
    the old end and the subscription's end bound the number of turns. *)
Fixpoint cycle_loop (fuel : nat) (subEnd now : Time) (interval : string) (count : Z)
    (start end_ : Time) : Time * Time :=
  match fuel with
  | O => (start, end_)
  | S fuel' =>
      if negb (After end_ now) && Before end_ subEnd
      then cycle_loop fuel' subEnd now interval count end_ (NextCycleEnd end_ subEnd interval count)
      else (start, end_)
  end.

Definition cycleRollWindow (oldEnd subEnd now : Time) (interval : string) (count : Z) : Time * Time :=
  cycle_loop (Z.to_nat ((subEnd - oldEnd) / Day + 1)) subEnd now interval count
    oldEnd (NextCycleEnd oldEnd subEnd interval count).

(** * Properties of the billing period *)

(** Counts whose multiples do not overflow; a stored count is a positive
    [smallint] (00011_subscription.sql) and far below. *)
Definition count_ok (count : Z) : Prop := count ≤ 2 ^ 59.

(** A billing period is at least a day long. *)
Lemma AddInterval_grows from interval count :
  count_ok count → from + Day ≤ AddInterval from interval count.
Proof.
  unfold count_ok. intros Hc. unfold AddInterval. pose proof Day_pos.
  set (c := if count <=? 0 then 1 else count).
  assert (Hc1 : 1 ≤ c ≤ 2 ^ 59) by (unfold c; destruct (Z.leb_spec count 0); lia).
  assert (Hd : ∀ n, 1 ≤ n → from + Day ≤ AddDate from 0 0 n) by (intros; rewrite AddDate_days; nia).
  assert (Hm : ∀ y n, 1 ≤ 12 * y + n → from + Day ≤ AddDate from y n 0).
  { intros y n Hn. rewrite AddDate_eq. pose proof (month_start_step (month_of from) (12 * y + n)).
    replace (month_of from + (12 * y + n)) with (month_of from + 12 * y + n) in * by lia. nia. }
  rewrite !wrap64_id by (unfold in64, MinInt64, MaxInt64; lia).
  repeat case_match; first [apply Hd; lia | apply Hm; lia].
Qed.

(** Roll windows: what each step and the whole loop give. *)
Record window_ok (oldEnd subEnd now : Time) (interval : string) (count : Z) (w : Time * Time) : Prop := {
  w_from : oldEnd ≤ w.1;
  w_reached : w.1 = oldEnd ∨ w.1 ≤ now;
  w_end : w.2 ≤ subEnd;
  w_len : oldEnd < subEnd → w.1 < w.2;
  w_period : w.2 = subEnd ∨
    (w.2 = AddInterval w.1 interval count ∧ AddInterval w.2 interval count ≤ subEnd);
}.

Lemma NextCycleEnd_cases start subEnd interval count :
  (NextCycleEnd start subEnd interval count = subEnd) ∨
  (NextCycleEnd start subEnd interval count = AddInterval start interval count ∧
   AddInterval (AddInterval start interval count) interval count ≤ subEnd).
Proof. unfold NextCycleEnd, After. destruct (Z.ltb_spec subEnd (AddInterval (AddInterval start interval count) interval count)); auto. Qed.

Lemma NextCycleEnd_window start subEnd interval count :
  count_ok count →
  NextCycleEnd start subEnd interval count ≤ subEnd ∧
  (start < subEnd → start < NextCycleEnd start subEnd interval count) ∧
  (start + Day ≤ NextCycleEnd start subEnd interval count ∨ NextCycleEnd start subEnd interval count = subEnd).
Proof.
  intros Hc. pose proof Day_pos. pose proof (AddInterval_grows start interval count Hc).
  pose proof (AddInterval_grows (AddInterval start interval count) interval count Hc).
  destruct (NextCycleEnd_cases start subEnd interval count) as [->|[-> ?]]; lia.
Qed.

Lemma cycle_loop_ok fuel oldEnd subEnd now interval count s e :
  count_ok count → window_ok oldEnd subEnd now interval count (s, e) →
  e = subEnd ∨ (subEnd - e) / Day + 1 ≤ Z.of_nat fuel →
  window_ok oldEnd subEnd now interval count (cycle_loop fuel subEnd now interval count s e) ∧
  (let e' := (cycle_loop fuel subEnd now interval count s e).2 in now < e' ∨ e' = subEnd).
Proof.
  intros Hc. pose proof Day_pos as HD. revert s e. induction fuel as [|fuel IH]; intros s e Hw Hf; simpl.
  - split; [done|]. right. destruct Hf as [|Hf]; [done|]. pose proof (w_end _ _ _ _ _ _ Hw). simpl in *.
    assert (0 ≤ (subEnd - e) / Day) by (apply Z.div_pos; lia). lia.
  - change (After e now) with (now <? e). change (Before e subEnd) with (e <? subEnd).
    destruct (Z.ltb_spec now e); simpl; [auto|].
    destruct (Z.ltb_spec e subEnd) as [Hb|Hb].
    2: { pose proof (w_end _ _ _ _ _ _ Hw). simpl in *. split; [done|]. right. lia. }
    destruct (NextCycleEnd_window e subEnd interval count Hc) as (H1 & H2 & H3).
    pose proof (AddInterval_grows s interval count Hc).
    destruct Hw as [W1 W2 W3 W4 W5]. simpl in *. apply IH.
    + split; simpl; try lia.
      destruct (NextCycleEnd_cases e subEnd interval count) as [?|[-> ?]]; auto.
    + destruct H3 as [H3|H3]; [right|by left].
      assert ((subEnd - NextCycleEnd e subEnd interval count) / Day ≤ (subEnd - e) / Day - 1); [|lia].
      replace ((subEnd - e) / Day - 1) with ((subEnd - e + (-1) * Day) / Day) by (rewrite Z.div_add by lia; lia).
      apply Z.div_le_mono; lia.
Qed.

(** C40: rolling a billing-cycle quota terminates with the right window.  The
    loop ends because every period is at least a day long; the window starts
    where the old period ended or at a later boundary already passed, never
    ends after the subscription, has positive length while the subscription
    has any left, and either is a full billing period with another one fitting
    behind it or runs to the end of the subscription; and it covers the
    present, or is the subscription's last one. *)
Theorem cycleRollWindow_spec oldEnd subEnd now interval count :
  count_ok count →
  let w := cycleRollWindow oldEnd subEnd now interval count in
  window_ok oldEnd subEnd now interval count w ∧ (now < w.2 ∨ w.2 = subEnd).
Proof.
  intros Hc. pose proof Day_pos as HD. unfold cycleRollWindow.
  destruct (NextCycleEnd_window oldEnd subEnd interval count Hc) as (H1 & H2 & H3).
  apply cycle_loop_ok; [done| |].
  - split; simpl; try lia. destruct (NextCycleEnd_cases oldEnd subEnd interval count) as [?|[? ?]]; [by left|].
    right. split; congruence.
  - destruct H3 as [H3|H3]; [right|by left].
    assert ((subEnd - NextCycleEnd oldEnd subEnd interval count) / Day ≤ (subEnd - oldEnd) / Day - 1); [|lia].
    replace ((subEnd - oldEnd) / Day - 1) with ((subEnd - oldEnd + (-1) * Day) / Day) by (rewrite Z.div_add by lia; lia).
    apply Z.div_le_mono; lia.
Qed.

(** A monthly plan whose quota was due on 2026-03-31 with the subscription
    running to 2026-12-31, looked at after a long pause. *)
Lemma cycleRollWindow_witness :
  let w := cycleRollWindow (days_from_civil 2026 3 31 * Day) (days_from_civil 2026 12 31 * Day)
             (days_from_civil 2026 8 20 * Day) "month" 1 in
  w = (days_from_civil 2026 8 1 * Day, days_from_civil 2026 9 1 * Day) ∧
  (days_from_civil 2026 8 20 * Day < w.2 ∨ w.2 = days_from_civil 2026 12 31 * Day).
Proof.
  split; [vm_compute; reflexivity|].
  exact (proj2 (cycleRollWindow_spec (days_from_civil 2026 3 31 * Day) (days_from_civil 2026 12 31 * Day)
           (days_from_civil 2026 8 20 * Day) "month" 1 ltac:(unfold count_ok; lia))).
Defined.

(** * Natural periods *)

Lemma natural_day anchor k : natural_step PeriodDay anchor k = AddDate anchor 0 0 k.
Proof. reflexivity. Qed.
Lemma natural_month anchor k : natural_step PeriodMonth anchor k = AddDate anchor 0 k 0.
Proof. reflexivity. Qed.

Lemma natural_step_0 period anchor : natural_step period anchor 0 = anchor.
Proof.
  unfold natural_step. rewrite !AddDate_eq. replace (month_of anchor + 12 * 0 + 0) with (month_of anchor) by lia.
  destruct (String.eqb _ _); lia.
Qed.

Lemma natural_step_lt period anchor k : natural_step period anchor k < natural_step period anchor (k + 1).
Proof.
  unfold natural_step. pose proof Day_pos. destruct (String.eqb _ _); [rewrite !AddDate_days; lia|].
  rewrite !AddDate_eq. pose proof (month_start_lt (month_of anchor + 12 * 0 + k) (month_of anchor + 12 * 0 + (k + 1))).
  nia.
Qed.

Lemma natural_step_ge period anchor k : 0 ≤ k → anchor ≤ natural_step period anchor k.
Proof.
  intros Hk. revert k Hk. apply natlike_ind; [by rewrite natural_step_0|].
  intros k _ IH. pose proof (natural_step_lt period anchor k). unfold Z.succ. lia.
Qed.

(** The loop finds the last step not after [now]. *)
Lemma step_back_spec step now k :
  step 0 ≤ now → now < step (Z.of_nat k + 1) →
  let j := Z.of_nat (step_back step now k) in step j ≤ now < step (j + 1).
Proof.
  induction k as [|k IH]; intros H0 Hk; simpl step_back; [done|].
  unfold After. destruct (Z.ltb_spec now (step (Z.of_nat (S k)))); [|done].
  apply IH; [done|]. replace (Z.of_nat k + 1) with (Z.of_nat (S k)) by lia. done.
Qed.

Lemma month_len_eq n : month_len n = month_start (n + 1) - month_start n.
Proof. reflexivity. Qed.

Lemma month_of_civil t : 12 * Year t + Month t - 1 = month_of t.
Proof. unfold Year, Month. pose proof (Z.div_mod (month_of t) 12). lia. Qed.

(** A month's step from an overflowing day lands no earlier than the step
    counted from the anchor. *)
Lemma AddDate_month_again t k : AddDate t 0 (k + 1) 0 ≤ AddDate (AddDate t 0 k 0) 0 1 0.
Proof.
  set (s := AddDate t 0 k 0). pose proof Day_pos as HD. set (n := month_of t + k).
  assert (Hs : s / Day = month_start n + DayOfMonth t - 1).
  { unfold s, AddDate. replace (month_of t + 12 * 0 + k) with n by (unfold n; lia).
    rewrite Z.div_add_l by lia. rewrite (Z.div_small (t mod Day)) by (apply Z.mod_pos_bound; lia). lia. }
  destruct (month_of_spec t) as [Hd _]. destruct (month_len_spec (month_of t)) as [Hl _].
  destruct (month_len_spec n) as [Hn Hn1]. destruct (month_len_spec (n + 1)) as [Hn2 _].
  rewrite (AddDate_eq s). unfold s at 1. rewrite !AddDate_eq.
  replace (month_of t + 12 * 0 + (k + 1)) with (n + 1) by (unfold n; lia).
  replace (month_of t + 12 * 0 + k) with n by (unfold n; lia).
  replace (month_of s + 12 * 0 + 1) with (month_of s + 1) by lia.
  assert (Hm : month_len n ≤ month_start (month_of s + 1) - month_start (month_of s)).
  { destruct (Z.le_gt_cases (DayOfMonth t) (month_len n)) as [Hle|Hgt].
    - assert (month_of s = n) as -> by (apply month_of_unique; rewrite month_len_eq in *; lia).
      rewrite month_len_eq in *. lia.
    - assert (month_of s = n + 1) as -> by (apply month_of_unique; rewrite !month_len_eq in *; lia).
      rewrite !month_len_eq in *. lia. }
  rewrite month_len_eq in Hm. nia.
Qed.

Definition natural_period (period : string) : Prop := period = PeriodDay ∨ period = PeriodMonth.

Lemma natural_first_step period anchor now :
  natural_period period → anchor ≤ now → now - anchor ≤ MaxInt64 →
  let k0 := if String.eqb period PeriodDay then Z.quot (Sub now anchor) Day
            else (Year now - Year anchor) * 12 + Month now - Month anchor in
  0 ≤ k0 ∧ now < natural_step period anchor (k0 + 1).
Proof.
  intros Hp Ha H64. pose proof Day_pos as HD. unfold natural_step.
  destruct Hp as [-> | ->]; simpl.
  - rewrite Sub_exact by (unfold in64, MinInt64; lia). rewrite Z.quot_div_nonneg by lia.
    rewrite AddDate_days. split; [apply Z.div_pos; lia|].
    pose proof (Z.div_mod (now - anchor) Day). pose proof (Z.mod_pos_bound (now - anchor) Day). nia.
  - replace ((Year now - Year anchor) * 12 + Month now - Month anchor) with (month_of now - month_of anchor)
      by (rewrite <- !month_of_civil; lia).
    pose proof (month_of_mono anchor now Ha). split; [lia|].
    unfold AddDate. replace (month_of anchor + 12 * 0 + (month_of now - month_of anchor + 1)) with (month_of now + 1) by lia.
    destruct (month_of_spec anchor) as [? _]. pose proof (month_of_day_spec (now / Day)) as Hn.
    fold (month_of now) in Hn. pose proof (Z.div_mod now Day). pose proof (Z.mod_pos_bound now Day).
    pose proof (Z.mod_pos_bound anchor Day). nia.
Qed.

Definition roll_anchor (period : string) (start end_ : Time) : Time :=
  if overlongPeriod period start end_ then start else end_.

(** Rolling a daily or monthly quota lands on the right boundary.  The new
    period starts at the last natural boundary not after the present, counted
    from the old end (from the old start for a row written too long), and the
    present falls inside the new period, so one step catches up any number of
    missed periods; no roll happens exactly when no boundary has passed. *)
Theorem naturalRollStart_spec period start end_ now :
  natural_period period → now - roll_anchor period start end_ ≤ MaxInt64 →
  let anchor := roll_anchor period start end_ in
  match naturalRollStart period start end_ now with
  | Some s =>
      ∃ k e, 0 ≤ k ∧ s = natural_step period anchor k ∧ s ≤ now < natural_step period anchor (k + 1) ∧
             QuotaPeriodEnd period s zeroTime = Some e ∧ now < e
  | None => now < anchor ∨ (overlongPeriod period start end_ = true ∧ now < natural_step period anchor 1)
  end.
Proof.
  intros Hp H64. cbv zeta. unfold naturalRollStart. fold (roll_anchor period start end_).
  set (anchor := roll_anchor period start end_) in *.
  unfold After at 1. destruct (Z.ltb_spec now anchor); [by left|].
  assert (negb (String.eqb period PeriodDay || String.eqb period PeriodMonth) = false) as ->
    by (destruct Hp as [-> | ->]; done).
  destruct (natural_first_step period anchor now Hp ltac:(lia) H64) as [Hk0 Hnext].
  set (k0 := if String.eqb period PeriodDay then _ else _) in *.
  set (k := if 0 <? k0 then _ else _).
  assert (Hk : 0 ≤ k ∧ natural_step period anchor k ≤ now < natural_step period anchor (k + 1)).
  { unfold k. destruct (Z.ltb_spec 0 k0).
    - split; [lia|]. apply step_back_spec; [by rewrite natural_step_0|]. by rewrite Z2Nat.id by lia.
    - replace k0 with 0 in * by lia. rewrite natural_step_0. auto. }
  destruct (overlongPeriod period start end_ && (k =? 0)) eqn:Ho.
  - apply andb_true_iff in Ho as [Ho Hz%Z.eqb_eq]. right. split; [done|]. rewrite Hz in Hk. apply Hk.
  - clearbody k k0 anchor. destruct Hk as (Hk1 & Hk2 & Hk3).
    destruct Hp as [-> | ->]; eexists k, _; (split_and!; [done..|reflexivity|]).
    + rewrite !natural_day, !AddDate_days in *. lia.
    + rewrite !natural_month in *. pose proof (AddDate_month_again anchor k). lia.
Qed.

(** A monthly row that ended on 2026-01-31, rolled on 2026-04-10: the boundary
    of February overflowed to March 3, the last one passed is March 31. *)
Lemma naturalRollStart_witness :
  let d y m x := days_from_civil y m x * Day in
  naturalRollStart PeriodMonth (d 2025 12 31) (d 2026 1 31) (d 2026 4 10) = Some (d 2026 3 31) ∧
  match naturalRollStart PeriodMonth (d 2025 12 31) (d 2026 1 31) (d 2026 4 10) with
  | Some s => ∃ e, QuotaPeriodEnd PeriodMonth s zeroTime = Some e ∧ d 2026 4 10 < e
  | None => False
  end.
Proof.
  cbv zeta. split; [vm_compute; reflexivity|].
  pose proof (naturalRollStart_spec PeriodMonth (days_from_civil 2025 12 31 * Day)
    (days_from_civil 2026 1 31 * Day) (days_from_civil 2026 4 10 * Day)
    (or_intror eq_refl) ltac:(vm_compute; discriminate)) as H.
  assert (E : naturalRollStart PeriodMonth (days_from_civil 2025 12 31 * Day) (days_from_civil 2026 1 31 * Day)
    (days_from_civil 2026 4 10 * Day) = Some (days_from_civil 2026 3 31 * Day)) by (vm_compute; reflexivity).
  cbv zeta in H. rewrite E in H |- *. destruct H as (k & e & _ & _ & _ & H1 & H2). exists e. exact (conj H1 H2).
Defined.

(** * The current subscription *)

Definition live_rank (a : Summary) : Z := if bool_decide (sm_State a = StateLive) then 1 else 0.

(** The order [betterCurrent] decides: live first, then the later end, then the
    later creation. *)
Definition outranks (a b : Summary) : Prop :=
  live_rank b < live_rank a ∨ live_rank b = live_rank a ∧
  (sm_PeriodEnd b < sm_PeriodEnd a ∨ sm_PeriodEnd b = sm_PeriodEnd a ∧ sm_CreatedAt b < sm_CreatedAt a).

Lemma betterCurrent_spec a b : betterCurrent a b = true ↔ outranks a b.
Proof.
  unfold betterCurrent, outranks, live_rank, After.
  repeat case_bool_decide; simpl; destruct (Z.eqb_spec (sm_PeriodEnd a) (sm_PeriodEnd b)); simpl;
    rewrite ?Z.ltb_lt; split; intros; lia || done.
Qed.

Lemma betterCurrent_false a b : betterCurrent a b = false ↔ ¬ outranks a b.
Proof. rewrite <- betterCurrent_spec. destruct (betterCurrent a b); naive_solver. Qed.

Definition current_step (acc : Z * option (Z * Summary)) (x : Summary) : Z * option (Z * Summary) :=
  (acc.1 + 1, match acc.2 with
              | None => Some (acc.1, x)
              | Some (_, b) => if betterCurrent x b then Some (acc.1, x) else acc.2
              end).

Lemma current_fold subs :
  (foldl current_step (0, None) subs).1 = Z.of_nat (length subs) ∧
  match (foldl current_step (0, None) subs).2 with
  | None => subs = []
  | Some (z, b) => ∃ i, z = Z.of_nat i ∧ subs !! i = Some b ∧
      (∀ j x, subs !! j = Some x → ¬ outranks x b) ∧
      (∀ j x, (j < i)%nat → subs !! j = Some x → outranks b x)
  end.
Proof.
  induction subs as [|y subs IH] using rev_ind; [done|].
  rewrite foldl_app, length_app. simpl. destruct IH as [E IH].
  destruct (foldl current_step (0, None) subs) as [z best]. simpl in *. subst z. split; [lia|].
  assert (Hy : (subs ++ [y])%list !! length subs = Some y).
  { rewrite lookup_app_r by lia. by rewrite Nat.sub_diag. }
  assert (Hold : ∀ j x, (subs ++ [y])%list !! j = Some x →
            subs !! j = Some x ∧ (j < length subs)%nat ∨ j = length subs ∧ x = y).
  { intros j x [H|[Hj H]]%lookup_app_Some.
    - left. split; [done|]. by eapply lookup_lt_Some.
    - right. apply list_lookup_singleton_Some in H as [? ?]. split; [lia|done]. }
  destruct best as [[z b]|].
  - destruct IH as (i & -> & Hi & Hbest & Hfirst). destruct (betterCurrent y b) eqn:Hb.
    + apply betterCurrent_spec in Hb. exists (length subs). split_and!; [done|done| |].
      * intros j x [[H _]|[_ ->]]%Hold; [apply Hbest in H|]; unfold outranks in *; lia.
      * intros j x Hj [[H _]|[? _]]%Hold; [|lia]. apply Hbest in H. unfold outranks in *. lia.
    + apply betterCurrent_false in Hb. exists i. split_and!; [done|by apply lookup_app_l_Some| |].
      * intros j x [[H _]|[_ ->]]%Hold; [by eapply Hbest|done].
      * intros j x Hj [[H _]|[? _]]%Hold; [by eapply Hfirst|]. apply lookup_lt_Some in Hi. lia.
  - subst subs. exists 0%nat. split_and!; [done..| |].
    + intros j x [[H _]|[_ ->]]%Hold; [by rewrite lookup_nil in H|]. unfold outranks. lia.
    + intros. lia.
Qed.

(** The current subscription is the best one: live before not live, then
    the latest end, then the latest creation, and of equals the first; with no
    subscription the index is -1. *)
Theorem currentIndex_best subs :
  match currentIndex subs with
  | -1 => subs = []
  | z => ∃ i b, z = Z.of_nat i ∧ subs !! i = Some b ∧
      (∀ j x, subs !! j = Some x → ¬ outranks x b) ∧
      (∀ j x, (j < i)%nat → subs !! j = Some x → outranks b x)
  end.
Proof.
  unfold currentIndex. pose proof (current_fold subs) as [_ H].
  assert (Ef : foldl (λ (acc : Z * option (Z * Summary)) x, let '(i, best) := acc in
     (i + 1, match best with None => Some (i, x) | Some (_, b) => if betterCurrent x b then Some (i, x) else best end))
     (0, None) subs = foldl current_step (0, None) subs).
  { generalize ((0, None) : Z * option (Z * Summary)). induction subs as [|y l IH]; simpl; [done|].
    intros [i best]. rewrite IH; [done|]. apply current_fold. }
  rewrite Ef. destruct (foldl current_step (0, None) subs).2 as [[z b]|]; [|done].
  destruct H as (i & -> & H). destruct i as [|i]; simpl; [by exists 0%nat, b|by exists (S i), b].
Qed.
