(* ===== verification/OrderAmounts.v ===== *)
(** Order amounts (panel/internal/module/order/service/amounts.go): the total,
    how much of it balance pays, the waived remainder of a plan change, the
    check of a confirmed quote, and the random part of an order number. *)
From Stdlib Require Import ZArith QArith Lqa Lia Ascii.
From stdpp Require Import base tactics list strings.
From S2P Require Import Prelude Decimal GoString Money GoTime.
#[local] Open Scope string_scope.
#[local] Open Scope Z_scope.

Definition MaxSmallDueCents : Z := 99.
Definition QuoteAsOfWindow : Duration := 10 * Minute.

Inductive order_err := ErrQuoteChanged | ErrRandom.

Section Amounts.
Context `{DL : DecimalLib}.

Definition OrderTotal (subtotal discount prorationCredit : dec) : dec :=
  let t := dec_sub (dec_sub subtotal discount) prorationCredit in
  if IsNegative t then dec_zero else t.

Record BalancePlan := mkBalancePlan {
  Applied : dec; Payable : dec; Kept : dec; Forced : bool; BelowMinimum : bool;
  SmallDue : bool; Waived : dec }.

Definition oneCent : dec := dec_new 1 (-2).

Definition PlanBalance (due0 available0 requested0 minPay : dec) : BalancePlan :=
  let due := if IsNegative due0 then dec_zero else due0 in
  let available := if IsNegative available0 then dec_zero else available0 in
  let limit := if LessThan available due then available else due in
  let requested := if IsNegative requested0 then dec_zero else requested0 in
  let requested := if GreaterThan requested limit then limit else requested in
  let payable := dec_sub due requested in
  if negb (IsPositive payable) then
    mkBalancePlan requested payable dec_zero
      (IsPositive due && GreaterThan minPay oneCent && LessThan due minPay) false false dec_zero
  else if LessThanOrEqual minPay oneCent || negb (LessThan payable minPay) then
    mkBalancePlan requested payable dec_zero false false false dec_zero
  else if negb (LessThan due minPay) then
    let applied := dec_sub due minPay in
    mkBalancePlan applied minPay (dec_sub requested applied) false false false dec_zero
  else if negb (LessThan available due) then
    mkBalancePlan due dec_zero dec_zero true false false dec_zero
  else
    mkBalancePlan available (dec_sub due available) dec_zero false true false dec_zero.

Definition WaiveSmallDue (b : BalancePlan) (allowed : bool) : BalancePlan :=
  let ceiling := FromCents MaxSmallDueCents in
  if negb allowed || negb (BelowMinimum b) || negb (IsPositive (Payable b)) || GreaterThan (Payable b) ceiling
  then b
  else mkBalancePlan (Applied b) dec_zero (Kept b) (Forced b) false true (Payable b).

Definition manualDueBelowMinimum (due minPay : dec) : bool :=
  IsPositive due && GreaterThan minPay oneCent && LessThan due minPay.

Record Expect := mkExpect { AsOf : Time; ex_Total : dec; ex_BalanceApplied : dec; ex_Payable : dec }.

Definition quoteTime (exp : option Expect) (now : Time) : result order_err Time :=
  match exp with
  | None => Ok now
  | Some e =>
      if IsZeroTime (AsOf e) then Ok now
      else if After (AsOf e) now || (QuoteAsOfWindow <? Sub now (AsOf e)) then Err ErrQuoteChanged
      else Ok (AsOf e)
  end.

Definition checkExpect (exp : option Expect) (total : dec) (b : BalancePlan) (now : Time) : result order_err () :=
  match exp with
  | None => Ok ()
  | Some e =>
      _ ← quoteTime exp now;
      reject (negb (Equal (ex_Total e) total) || negb (Equal (ex_BalanceApplied e) (Applied b)) ||
              negb (Equal (ex_Payable e) (Payable b))) ErrQuoteChanged
  end.

(** * Totals *)

(** The balance plan of an order adds up and keeps the promises of its
    flags.  Balance used, amount to pay online and waived remainder sum to the
    amount due; balance use never exceeds what is available or due; what is
    left to pay is nothing or at least the minimum, unless the plan says it is
    below it; that happens only when the due amount itself is below the minimum
    and balance does not cover it; and at most 0.99 is waived, and only where
    waiving is allowed. *)
Theorem balance_plan_sound due available requested minPay allowed :
  let b := WaiveSmallDue (PlanBalance due available requested minPay) allowed in
  let d := Qminmax.Qmax (val due) 0 in
  let a := Qminmax.Qmax (val available) 0 in
  (val (Applied b) + val (Payable b) + val (Waived b) == d)%Q ∧
  (0 <= val (Applied b) <= d)%Q ∧ (val (Applied b) <= a)%Q ∧ (0 <= val (Payable b))%Q ∧
  ((val (Payable b) == 0)%Q ∨ (val minPay <= 1 # 100)%Q ∨ (val minPay <= val (Payable b))%Q ∨ BelowMinimum b = true) ∧
  (BelowMinimum b = true → (val (Applied b) == a ∧ a < d ∧ d < val minPay)%Q) ∧
  (Forced b = true → (val (Applied b) == d ∧ 0 < d ∧ d < val minPay)%Q) ∧
  (0 <= val (Waived b) <= 99 # 100)%Q ∧ ((0 < val (Waived b))%Q → allowed = true ∧ (val (Payable b) == 0)%Q).
Proof.
  cbv zeta.
  assert (Hz := dec_zero_val). assert (H1 : (val oneCent == 1 # 100)%Q) by (unfold oneCent; rewrite dec_new_val; reflexivity).
  assert (HM : (val (FromCents MaxSmallDueCents) == 99 # 100)%Q) by (rewrite FromCents_val; reflexivity).
  unfold PlanBalance.
  set (du := if IsNegative due then _ else _). set (av := if IsNegative available then _ else _).
  assert (Hd : (val du == Qminmax.Qmax (val due) 0)%Q ∧ (0 <= val du)%Q).
  { unfold du. destruct (IsNegative_spec due);
      [rewrite Qminmax.Q.max_r by lra|rewrite Qminmax.Q.max_l by lra]; rewrite ?dec_zero_val; lra. }
  assert (Ha : (val av == Qminmax.Qmax (val available) 0)%Q ∧ (0 <= val av)%Q).
  { unfold av. destruct (IsNegative_spec available);
      [rewrite Qminmax.Q.max_r by lra|rewrite Qminmax.Q.max_l by lra]; rewrite ?dec_zero_val; lra. }
  destruct Hd as [<- Hd], Ha as [<- Ha].
  set (rq := if IsNegative requested then _ else _).
  assert (Hr : (0 <= val rq)%Q) by (unfold rq; destruct (IsNegative_spec requested); rewrite ?dec_zero_val; lra).
  set (lim := if LessThan av du then _ else _).
  assert (Hl : (0 <= val lim)%Q ∧ (val lim <= val av)%Q ∧ (val lim <= val du)%Q)
    by (unfold lim; destruct (LessThan_spec av du); lra).
  set (ap := if GreaterThan rq lim then _ else _).
  assert (Hap : (0 <= val ap)%Q ∧ (val ap <= val lim)%Q) by (unfold ap; destruct (GreaterThan_spec rq lim); lra).
  clearbody du av rq lim ap. assert (Hs := dec_sub_val du ap).
  unfold WaiveSmallDue.
  destruct (IsPositive_spec (dec_sub du ap)); simpl.
  - destruct (LessThanOrEqual_spec minPay oneCent); simpl.
    { rewrite ?orb_true_r. simpl. repeat split; intros; try lra; try done; right; left; lra. }
    destruct (LessThan_spec (dec_sub du ap) minPay); simpl.
    2: { rewrite ?orb_true_r. simpl. repeat split; intros; try lra; try done; right; right; left; lra. }
    destruct (LessThan_spec du minPay); simpl.
    2: { assert (Hs2 := dec_sub_val du minPay). rewrite ?orb_true_r. simpl.
         repeat split; intros; try lra; try done; right; right; left; lra. }
    destruct (LessThan_spec av du); simpl.
    2: { rewrite ?orb_true_r. simpl. repeat split; intros; try lra; try done; left; lra. }
    assert (Hs3 := dec_sub_val du av).
    destruct allowed; simpl; [|repeat split; intros; try lra; try done; auto].
    destruct (IsPositive_spec (dec_sub du av)); simpl; [|repeat split; intros; try lra; try done; auto].
    destruct (GreaterThan_spec (dec_sub du av) (FromCents MaxSmallDueCents)); simpl;
      repeat split; intros; try lra; try done; auto; left; lra.
  - rewrite ?orb_true_r. simpl. destruct (IsPositive_spec du); simpl;
      [|repeat split; intros; try lra; try done; left; lra].
    destruct (GreaterThan_spec minPay oneCent); simpl; [|repeat split; intros; try lra; try done; left; lra].
    destruct (LessThan_spec du minPay); simpl; repeat split; intros; try lra; try done; left; lra.
Qed.

(** A confirmed quote is honoured only if it still holds.  A quote is
    accepted exactly when its three amounts equal the recomputed ones and its
    time is unset or lies within the last ten minutes, not in the future. *)
Theorem checkExpect_iff e total b now :
  checkExpect (Some e) total b now = Ok () ↔
  (AsOf e = zeroTime ∨ now - QuoteAsOfWindow ≤ AsOf e ≤ now) ∧
  (val (ex_Total e) == val total)%Q ∧ (val (ex_BalanceApplied e) == val (Applied b))%Q ∧
  (val (ex_Payable e) == val (Payable b))%Q.
Proof.
  assert (HQ : (∃ t, quoteTime (Some e) now = Ok t) ↔ (AsOf e = zeroTime ∨ now - QuoteAsOfWindow ≤ AsOf e ≤ now)).
  { unfold quoteTime, IsZeroTime, After. destruct (Z.eqb_spec (AsOf e) zeroTime) as [Hz|Hz]; [naive_solver|].
    assert (Hw : 0 < QuoteAsOfWindow < MaxInt64) by (vm_compute; split; reflexivity).
    destruct (Z.ltb_spec now (AsOf e)); simpl.
    { split; [by intros (? & ?)|]. intros [?|?]; [done|lia]. }
    assert (Hs : QuoteAsOfWindow <? Sub now (AsOf e) = (QuoteAsOfWindow <? now - AsOf e)).
    { unfold Sub, MinInt64. destruct (Z.ltb_spec QuoteAsOfWindow (now - AsOf e)),
        (Z.ltb_spec QuoteAsOfWindow (Z.max (- 2 ^ 63) (Z.min (now - AsOf e) MaxInt64))); lia. }
    rewrite Hs. destruct (Z.ltb_spec QuoteAsOfWindow (now - AsOf e)).
    - split; [by intros (? & ?)|]. intros [?|?]; [done|lia].
    - split; [|eauto]. intros _. right. lia. }
  unfold checkExpect. rewrite <- HQ. destruct (quoteTime (Some e) now) as [t|er]; simpl.
  - destruct (Equal_spec (ex_Total e) total), (Equal_spec (ex_BalanceApplied e) (Applied b)),
      (Equal_spec (ex_Payable e) (Payable b)); simpl; unfold reject; naive_solver.
  - split; [done|]. intros [[? ?] _]. done.
Qed.
End Amounts.

(** 50.00 due, 30.00 of balance offered, minimum online payment 25.00: balance
    gives 25.00 and keeps 5.00. *)
Lemma balance_plan_sound_witness :
  let c n : @dec scaled_decimal := (n, -2) in
  let b := WaiveSmallDue (DL := scaled_decimal) (PlanBalance (DL := scaled_decimal) (c 5000) (c 3000) (c 3000) (c 2500)) false in
  (@val scaled_decimal (Applied b) == 25)%Q ∧ (@val scaled_decimal (Kept b) == 5)%Q ∧
  (@val scaled_decimal (Applied b) + @val scaled_decimal (Payable b) + @val scaled_decimal (Waived b) ==
   Qminmax.Qmax (@val scaled_decimal (c 5000%Z)) 0)%Q.
Proof.
  cbv zeta. split; [vm_compute; reflexivity|]. split; [vm_compute; reflexivity|].
  exact (proj1 (balance_plan_sound (DL := scaled_decimal) (5000, -2) (3000, -2) (3000, -2) (2500, -2) false)).
Defined.

Lemma checkExpect_iff_witness :
  let c n : @dec scaled_decimal := (n, -2) in
  let b := PlanBalance (DL := scaled_decimal) (c 5000) (c 3000) (c 3000) (c 100) in
  checkExpect (DL := scaled_decimal) (Some (mkExpect (1000 * Second) (c 5000) (c 3000) (c 2000))) (c 5000) b (1300 * Second) = Ok () ∧
  checkExpect (DL := scaled_decimal) (Some (mkExpect (1000 * Second) (c 5000) (c 3000) (c 2000))) (c 5000) b (1601 * Second) ≠ Ok ().
Proof.
  cbv zeta. split.
  - apply (checkExpect_iff (DL := scaled_decimal)). split; [right; vm_compute; split; discriminate|].
    split; [vm_compute; reflexivity|]. split; vm_compute; reflexivity.
  - intros H. apply (checkExpect_iff (DL := scaled_decimal)) in H as [[H|[H _]] _]; [vm_compute in H; discriminate|].
    vm_compute in H. contradiction (H eq_refl).
Defined.

(** * Order numbers *)

Definition orderNoAlphabet : string := "ABCDEFGHJKLMNPQRSTUVWXYZ23456789".
Definition alphabetLen : Z := blen orderNoAlphabet.
(** The largest multiple of the alphabet's length that is at most 256. *)
Definition sampleLimit : Z := 256 - 256 mod alphabetLen.

Definition alphabet_char (b : Z) : Z := nth (Z.to_nat (b mod alphabetLen)) (bytes_of orderNoAlphabet) 0.

(** The inner loop over one buffer of random bytes: [need] characters are still
    missing. *)
Fixpoint sample (buf : list Z) (need : nat) (out : list Z) : nat * list Z :=
  match buf, need with
  | _, O => (O, out)
  | [], _ => (need, out)
  | b :: buf', S need' =>
      if sampleLimit <=? b then sample buf' need out
      else sample buf' need' (out ++ [alphabet_char b])%list
  end.

(** [reads] are the buffers successive calls of [rand.Read] fill; the call
    after the last of them fails. *)
Fixpoint randomOrderSuffix (reads : list (list Z)) (n : nat) (out : list Z) : result order_err string :=
  match n with
  | O => Ok (string_of out)
  | _ => match reads with
         | [] => Err ErrRandom
         | buf :: reads' => let '(n', out') := sample buf n out in randomOrderSuffix reads' n' out'
         end
  end.

Definition byte_ok (b : Z) : Prop := 0 ≤ b < 256.

Lemma sample_all buf need out :
  Forall byte_ok buf →
  sample buf need out = ((need - length buf)%nat, (out ++ map alphabet_char (take need buf))%list).
Proof.
  intros HF. revert need out. induction HF as [|b buf Hb HF IH]; intros [|need] out; simpl;
    rewrite ?app_nil_r; try done.
  assert (sampleLimit <=? b = false) as -> by (apply Z.leb_gt; change sampleLimit with 256; unfold byte_ok in Hb; lia).
  rewrite IH. f_equal. by rewrite <- app_assoc.
Qed.

Lemma randomOrderSuffix_all reads n out :
  Forall (Forall byte_ok) reads → (n ≤ length (concat reads))%nat →
  randomOrderSuffix reads n out = Ok (string_of (out ++ map alphabet_char (take n (concat reads)))%list).
Proof.
  intros HF. revert n out. induction HF as [|buf reads Hb HF IH]; intros [|n] out Hn; simpl in *;
    rewrite ?app_nil_r; try done; try lia.
  rewrite sample_all by done. rewrite length_app in Hn. rewrite IH by lia.
  f_equal. f_equal. rewrite <- app_assoc, <- map_app. f_equal. f_equal. rewrite take_app. done.
Qed.

Definition count_bytes (ch : Z) : nat := length (List.filter (λ b, alphabet_char b =? ch) (map Z.of_nat (seq 0 256))).

(** The order-number suffix is unbiased and takes as many random bytes as
    characters.  No byte is rejected, each random byte gives one character of
    the alphabet, and each of the 32 characters comes from exactly 8 of the 256
    byte values. *)
Theorem randomOrderSuffix_uniform reads n :
  Forall (Forall byte_ok) reads → (n ≤ length (concat reads))%nat →
  randomOrderSuffix reads n [] = Ok (string_of (map alphabet_char (take n (concat reads)))) ∧
  Forall (λ ch, count_bytes ch = 8%nat) (bytes_of orderNoAlphabet) ∧
  NoDup (bytes_of orderNoAlphabet).
Proof.
  intros HF Hn. split; [by rewrite randomOrderSuffix_all|]. split.
  - apply Forall_forall. intros ch Hch.
    assert (Ha : forallb (λ ch, (count_bytes ch =? 8)%nat) (bytes_of orderNoAlphabet) = true) by (vm_compute; reflexivity).
    rewrite forallb_forall in Ha. apply Nat.eqb_eq, Ha. by apply list_elem_of_In.
  - apply (bool_decide_unpack _). vm_compute. exact I.
Qed.

Lemma randomOrderSuffix_uniform_witness :
  randomOrderSuffix [map Z.of_nat (seq 0 16)] 8 [] = Ok "ABCDEFGH".
Proof.
  destruct (randomOrderSuffix_uniform [map Z.of_nat (seq 0 16)] 8) as [H _].
  - repeat constructor; vm_compute; try discriminate; reflexivity.
  - vm_compute. lia.
  - rewrite H. vm_compute. reflexivity.
Defined.
