(* ===== verification/Proration.v ===== *)
(** The remaining value of a subscription when its plan changes
    (panel/internal/module/order/service/proration.go, change_basis.go,
    valuer.go): how the basis is put together from the period's paid orders and
    how much of it is credited at a point in time. *)
From Stdlib Require Import ZArith QArith Qminmax Lqa Lia.
From stdpp Require Import base tactics list gmap strings.
From S2P Require Import Prelude Decimal GoString Money GoTime Period OrderAmounts.
#[local] Open Scope string_scope.
#[local] Open Scope Z_scope.

Abbreviation uuid := N (only parsing).

Record trafficAllowance := mkAllowance { Cap : Z; Consumed : Z }.

Section Proration.
Context `{DL : DecimalLib}.

Record prorationBasis := mkBasis {
  Value : dec; OneTime : bool; Permanent : bool; PaidSpan : Duration;
  PeriodStart : Time; PeriodEnd : Time; Traffic : list trafficAllowance }.

Record CreditDetail := mkDetail {
  Paid : dec; DaysLeft : Z; DaysTotal : Z; TrafficLeft : Z; TrafficTotal : Z; RatioPPM : Z }.

Definition set_days (l t : Z) (d : CreditDetail) : CreditDetail :=
  mkDetail (Paid d) l t (TrafficLeft d) (TrafficTotal d) (RatioPPM d).
Definition set_traffic (l t : Z) (d : CreditDetail) : CreditDetail :=
  mkDetail (Paid d) (DaysLeft d) (DaysTotal d) l t (RatioPPM d).
Definition set_ppm (p : Z) (d : CreditDetail) : CreditDetail :=
  mkDetail (Paid d) (DaysLeft d) (DaysTotal d) (TrafficLeft d) (TrafficTotal d) p.

(** [max(min(t.Cap-t.Consumed, t.Cap), 0)]. *)
Definition traffic_left (t : trafficAllowance) : Z :=
  Z.max (Z.min (wrap64 (Cap t - Consumed t)) (Cap t)) 0.

Definition paidRemaining (b : prorationBasis) (now : Time) : Duration :=
  Z.min (Z.min (wrap64 (PaidSpan b - Sub now (PeriodStart b))) (Sub (PeriodEnd b) now)) (PaidSpan b).

Definition oneTimeTimeRatio (b : prorationBasis) (now : Time) : option (Z * Z) :=
  if Permanent b then Some (1, 1)
  else if PaidSpan b <=? 0 then None
  else
    let rem := paidRemaining b now in
    if rem <=? 0 then None else Some (rem, PaidSpan b).

Fixpoint applyTrafficRatio (traffic : list trafficAllowance) (num den : Z) (d : CreditDetail)
    : Z * Z * CreditDetail :=
  match traffic with
  | [] => (num, den, d)
  | t :: traffic' =>
      let left := traffic_left t in
      if (Cap t <=? 0) || (left =? 0) then (0, 1, set_traffic left (Z.max (Cap t) 0) d)
      else if left * den <? num * Cap t
           then applyTrafficRatio traffic' left (Cap t) (set_traffic left (Cap t) d)
           else applyTrafficRatio traffic' num den d
  end.

(** The detail before any ratio is taken. *)
Definition credit_detail0 (b : prorationBasis) (now : Time) : CreditDetail :=
  let d := mkDetail (dec_max (Value b) dec_zero) 0 0 0 0 0 in
  if OneTime b then
    let d := foldl (λ d t, set_traffic (wrap64 (TrafficLeft d + traffic_left t))
                             (wrap64 (TrafficTotal d + Z.max (Cap t) 0)) d) d (Traffic b) in
    if Permanent b then d
    else
      let rem := paidRemaining b now in
      set_days (if 0 <? rem then Z.quot rem Day else 0) (Z.quot (PaidSpan b) Day) d
  else set_days 0 (Z.quot (PaidSpan b) Day) d.

Definition prorationCredit (b : prorationBasis) (now : Time) : dec * CreditDetail :=
  let d := credit_detail0 b now in
  if negb (IsPositive (Value b)) then (dec_zero, d)
  else
    let finish (num den : Z) (d : CreditDetail) :=
      let cents := dec_BigInt (dec_shift (Value b) Scale) in
      (dec_new (Z.quot (cents * num) den) (- Scale), set_ppm (wrap64 (Z.quot (num * 1000000) den)) d) in
    if OneTime b then
      match oneTimeTimeRatio b now with
      | None => (dec_zero, d)
      | Some (num, den) => let '(num, den, d) := applyTrafficRatio (Traffic b) num den d in finish num den d
      end
    else if PaidSpan b <=? 0 then (dec_zero, d)
    else
      let remaining := paidRemaining b now in
      if remaining <=? 0 then (dec_zero, d)
      else finish remaining (PaidSpan b) (set_days (Z.quot remaining Day) (DaysTotal d) d).

Definition giftedDaysLeft (wall : Time) (b : prorationBasis) (now : Time) : Z :=
  if Permanent b || IsPermanent wall (PeriodEnd b) then 0
  else
    let from := PeriodStart b + Z.max (PaidSpan b) 0 in
    let from := if After now from then now else from in
    let left := Sub (PeriodEnd b) from in
    if left <=? 0 then 0 else Z.quot left Day.

Definition planChangeRefund (credit subtotal discount : dec) : dec :=
  dec_max (dec_sub credit (dec_sub subtotal discount)) dec_zero.

(** * The basis (change_basis.go) *)

Definition KindNew := "new".
Definition KindRenewal := "renewal".
Definition KindUpgrade := "upgrade".
Definition KindStack := "stack".
Definition StatusFulfilled := "fulfilled".
Definition KindOneTime := "one_time".
Definition MetricTraffic := "traffic.bytes".

Definition paidKinds (k : string) : bool := bool_decide (k ∈ [KindNew; KindRenewal; KindUpgrade; KindStack]).

Record Order := mkOrder {
  o_ID : uuid; o_Kind : string; o_Status : string;
  SubtotalAmount : dec; DiscountAmount : dec; WaivedAmount : dec }.

(** One entry of an order line's quota snapshot. *)
Record SnapQuota := mkSnapQuota { sq_Metric : string; sq_Limit : option Z; sq_Period : string }.

(** An order line.  [SnapshotQuotas] is the decoded form of the JSON column,
    [None] when it does not decode. *)
Record Item := mkItem {
  it_OrderID : uuid; it_PlanID : option uuid; it_PriceID : option uuid; SnapshotInterval : option string;
  SnapshotIntervalCount : option Z; SnapshotQuotas : option (list SnapQuota) }.

(** A subscription's quota row as the order module reads it. *)
Record Quota := mkQuota { q_Metric : string; q_Period : string; q_Limit : option Z; q_Consumed : Z }.

Record Subscription := mkSub { sub_ID : uuid; sub_PlanID : uuid; sub_PeriodStart : Time; sub_PeriodEnd : Time }.

Record basisSource := mkSource { src_Sub : Subscription; src_Kind : string; src_Quotas : list Quota }.

(** [prices] gives the validity days of the one-time prices that were read. *)
Record periodOrders := mkPeriodOrders {
  po_ids : gmap uuid (list uuid); po_orders : gmap uuid Order; po_items : gmap uuid Item;
  po_prices : gmap uuid (option Z) }.

Definition saturatingAdd (a b : Z) : Z :=
  if (0 <? b) && (wrap64 (MaxInt64 - b) <? a) then MaxInt64 else wrap64 (a + b).

Record paidOneTime := mkPaidOneTime { span : Duration; permanent : bool; traffic : Z; unlimited : bool }.

Definition derefID (id : option uuid) : uuid := default 0%N id.

Definition add_quota (p : paidOneTime) (q : SnapQuota) : paidOneTime :=
  if negb (String.eqb (sq_Metric q) MetricTraffic) || negb (String.eqb (sq_Period q) PeriodTotal) then p
  else match sq_Limit q with
       | None => mkPaidOneTime (span p) (permanent p) (traffic p) true
       | Some l => mkPaidOneTime (span p) (permanent p) (saturatingAdd (traffic p) l) (unlimited p)
       end.

Definition paidOneTime_add (p : paidOneTime) (it : Item) (po : periodOrders) : paidOneTime :=
  let p := match po_prices po !! derefID (it_PriceID it) with
           | Some (Some days) =>
               mkPaidOneTime (wrap64 (span p + wrap64 (days * Day))) (permanent p) (traffic p) (unlimited p)
           | _ => mkPaidOneTime (span p) true (traffic p) (unlimited p)
           end in
  match SnapshotQuotas it with
  | None => p
  | Some quotas => foldl add_quota p quotas
  end.

(** What an order of the period counts for. *)
Definition order_value (o : Order) : dec :=
  dec_max (dec_sub (dec_sub (SubtotalAmount o) (DiscountAmount o)) (WaivedAmount o)) dec_zero.

(** The orders of the period that count, with their lines. *)
Definition counted (orderIDs : list uuid) (po : periodOrders) : list (Order * Item) :=
  omap (λ id,
    match po_orders po !! id with
    | Some o =>
        if negb (paidKinds (o_Kind o)) || negb (String.eqb (o_Status o) StatusFulfilled) then None
        else match po_items po !! id with Some it => Some (o, it) | None => None end
    | None => None
    end) orderIDs.

(** The loop of [basisOf] over the counted orders. *)
Definition basis_step (oneTime : bool) (po : periodOrders) (acc : dec * Time * paidOneTime) (oi : Order * Item)
    : dec * Time * paidOneTime :=
  let '(value, paidUntil, paid) := acc in
  let '(o, it) := oi in
  let value := dec_add value (order_value o) in
  if oneTime then (value, paidUntil, paidOneTime_add paid it po)
  else match SnapshotInterval it, SnapshotIntervalCount it with
       | Some i, Some c => (value, AddInterval paidUntil i c, paid)
       | _, _ => (value, paidUntil, paid)
       end.

Definition quota_allowance (paid : paidOneTime) (q : Quota) : option trafficAllowance :=
  match q_Limit q with
  | Some l =>
      if negb (String.eqb (q_Metric q) MetricTraffic) || negb (String.eqb (q_Period q) PeriodTotal) then None
      else Some (mkAllowance (if unlimited paid then l else Z.min l (traffic paid)) (q_Consumed q))
  | None => None
  end.

Definition basisOf (wall : Time) (src : basisSource) (orderIDs : list uuid) (po : periodOrders) : prorationBasis :=
  let sub := src_Sub src in
  let oneTime := String.eqb (src_Kind src) KindOneTime in
  let '(value, paidUntil, paid) :=
    foldl (basis_step oneTime po) (dec_zero, sub_PeriodStart sub, mkPaidOneTime 0 false 0 false)
      (counted orderIDs po) in
  if oneTime then
    let perm := permanent paid && IsPermanent wall (sub_PeriodEnd sub) in
    mkBasis value true perm
      (if perm then Sub (sub_PeriodEnd sub) (sub_PeriodStart sub) else span paid)
      (sub_PeriodStart sub) (sub_PeriodEnd sub) (omap (quota_allowance paid) (src_Quotas src))
  else
    mkBasis value false false (Sub paidUntil (sub_PeriodStart sub))
      (sub_PeriodStart sub) (sub_PeriodEnd sub) [].

(** * Reading the basis *)

Inductive basis_err := ErrBasisRead | ErrPlanNotFound | ErrOpenChange | ErrSubNotFound.

Section Read.
(** The reads this part makes: the subscription module's period events, the
    order tables, the catalogue's prices and plans, and a subscription with its
    quotas. *)
Variable PeriodOrderIDsBySubscriptions : list uuid → result basis_err (gmap uuid (list uuid)).
Variable OrdersByIDs : list uuid → result basis_err (list Order).
Variable ItemsByOrders : list uuid → result basis_err (list Item).
Variable PricesByIDs : list uuid → result basis_err (gmap uuid (option Z)).
Variable Quotas : uuid → result basis_err (list Quota).
Variable PlanKinds : list uuid → result basis_err (gmap uuid string).
Variable GetSubscription : uuid → result basis_err Subscription.
Variable OpenChangeOrder : uuid → result basis_err bool.

(** The first line with a plan of each order. *)
Definition first_items (items : list Item) : gmap uuid Item :=
  foldl (λ m it, match it_PlanID it with
                 | None => m
                 | Some _ => if decide (is_Some (m !! it_OrderID it)) then m else <[it_OrderID it := it]> m
                 end) ∅ items.

Definition one_time_prices (items : gmap uuid Item) : list uuid :=
  omap (λ oi, match it_PriceID oi.2, SnapshotInterval oi.2 with
              | Some p, Some i => if String.eqb i "one_time" then Some p else None
              | _, _ => None
              end) (map_to_list items).

Definition loadPeriodOrders (subIDs : list uuid) : result basis_err periodOrders :=
  ids ← PeriodOrderIDsBySubscriptions subIDs;
  let all := concat (map (λ id, default [] (ids !! id)) subIDs) in
  orders ← OrdersByIDs all;
  items ← ItemsByOrders all;
  let its := first_items items in
  let priceIDs := one_time_prices its in
  prices ← (match priceIDs with [] => Ok ∅ | _ => PricesByIDs priceIDs end);
  Ok (mkPeriodOrders ids (foldl (λ m o, <[o_ID o := o]> m) ∅ orders) its prices).

Definition loadBases (wall : Time) (srcs : list basisSource) : result basis_err (gmap uuid prorationBasis) :=
  match srcs with
  | [] => Ok ∅
  | _ =>
      po ← loadPeriodOrders (map (λ s, sub_ID (src_Sub s)) srcs);
      Ok (foldl (λ m s, let id := sub_ID (src_Sub s) in
                        <[id := basisOf wall s (default [] (po_ids po !! id)) po]> m) ∅ srcs)
  end.

Definition zero_basis : prorationBasis := mkBasis dec_zero false false 0 zeroTime zeroTime [].

Definition loadBasis (wall : Time) (sub : Subscription) : result basis_err prorationBasis :=
  quotas ← Quotas (sub_ID sub);
  plans ← PlanKinds [sub_PlanID sub];
  match plans !! sub_PlanID sub with
  | None => Err ErrPlanNotFound
  | Some kind =>
      bases ← loadBases wall [mkSource sub kind quotas];
      Ok (default zero_basis (bases !! sub_ID sub))
  end.

(** valuer.go: the value a gift card's plan replacement refunds. *)
Definition RemainingValue (wall : Time) (subscriptionID : uuid) (now : Time) : result basis_err (dec * Z) :=
  sub ← GetSubscription subscriptionID;
  open ← OpenChangeOrder (sub_ID sub);
  if open : bool then Err ErrOpenChange
  else
    b ← loadBasis wall sub;
    Ok ((prorationCredit b now).1, giftedDaysLeft wall b now).
End Read.
End Proration.
