(* ===== verification/ProrationThms.v ===== *)
(** What a plan change credits: exactly the rounded-down share of what was paid
    that is still unused, never more than was paid, and never more when asked
    later. *)
From Stdlib Require Import ZArith QArith Qminmax Qround Lqa Lia.
From stdpp Require Import base tactics list gmap strings.
From S2P Require Import Prelude Decimal GoString Money GoTime Period OrderAmounts Proration.
#[local] Open Scope string_scope.
#[local] Open Scope Z_scope.

Section Thms.
Context `{DL : DecimalLib}.

(** * The share that remains *)

Definition time_ratio (b : prorationBasis) (now : Time) : Q :=
  if OneTime b && Permanent b then 1
  else if PaidSpan b <=? 0 then 0
  else Z.max (paidRemaining b now) 0 # Z.to_pos (PaidSpan b).

Definition traffic_ratio (t : trafficAllowance) : Q :=
  if Cap t <=? 0 then 0 else traffic_left t # Z.to_pos (Cap t).

(** The smaller of the unused paid time and, for a one-time plan, the unused
    share of every traffic allowance. *)
Definition remaining_ratio (b : prorationBasis) (now : Time) : Q :=
  if OneTime b then foldl Qmin (time_ratio b now) (map traffic_ratio (Traffic b)) else time_ratio b now.

Lemma frac_bounds n d : 0 ≤ n → n ≤ d → 0 < d → (0 <= n # Z.to_pos d <= 1)%Q.
Proof. intros. unfold Qle; simpl. rewrite Z2Pos.id by lia. lia. Qed.

Lemma traffic_ratio_bounds t : (0 <= traffic_ratio t <= 1)%Q.
Proof.
  unfold traffic_ratio. destruct (Z.leb_spec (Cap t) 0); [lra|].
  apply frac_bounds; unfold traffic_left; lia.
Qed.

Lemma paidRemaining_le b now : paidRemaining b now ≤ PaidSpan b.
Proof. unfold paidRemaining. lia. Qed.

Lemma time_ratio_bounds b now : (0 <= time_ratio b now <= 1)%Q.
Proof.
  unfold time_ratio. destruct (_ && _); [lra|]. destruct (Z.leb_spec (PaidSpan b) 0); [lra|].
  pose proof (paidRemaining_le b now). apply frac_bounds; lia.
Qed.

Lemma foldl_Qmin_le x y l : (x <= y)%Q → (foldl Qmin x l <= foldl Qmin y l)%Q.
Proof.
  revert x y. induction l as [|a l IH]; simpl; intros x y H; [done|].
  apply IH. apply Q.min_le_compat_r. done.
Qed.

Lemma foldl_Qmin_eq x y l : (x == y)%Q → (foldl Qmin x l == foldl Qmin y l)%Q.
Proof. intros H. apply Qle_antisym; apply foldl_Qmin_le; lra. Qed.

Lemma foldl_Qmin_bounds x l :
  (0 <= x)%Q → Forall (λ q, (0 <= q)%Q) l → (0 <= foldl Qmin x l <= x)%Q.
Proof.
  intros Hx HF. revert x Hx. induction HF as [|a l Ha HF IH]; simpl; intros x Hx; [lra|].
  assert (Hm : (0 <= Qmin x a)%Q) by (by apply Q.min_glb).
  pose proof (Q.le_min_l x a). specialize (IH (Qmin x a) Hm). lra.
Qed.

Lemma traffic_ratios_nonneg l : Forall (λ q, (0 <= q)%Q) (map traffic_ratio l).
Proof. apply Forall_forall. intros q (t & -> & _)%list_elem_of_fmap. apply traffic_ratio_bounds. Qed.

Lemma remaining_ratio_bounds b now : (0 <= remaining_ratio b now <= 1)%Q.
Proof.
  unfold remaining_ratio. pose proof (time_ratio_bounds b now). destruct (OneTime b); [|done].
  pose proof (foldl_Qmin_bounds (time_ratio b now) (map traffic_ratio (Traffic b)) ltac:(lra) (traffic_ratios_nonneg _)).
  lra.
Qed.

Lemma frac_lt a b c d : 0 < b → 0 < d → (a * d <? c * b) = true ↔ (a # Z.to_pos b < c # Z.to_pos d)%Q.
Proof. intros. rewrite Z.ltb_lt. unfold Qlt; simpl. rewrite !Z2Pos.id by lia. done. Qed.

(** The cross-multiplied comparison of the loop computes the minimum. *)
Lemma applyTrafficRatio_spec ts num den d :
  0 ≤ num → 0 < den →
  let '(n, m, _) := applyTrafficRatio ts num den d in
  0 ≤ n ∧ 0 < m ∧ (n # Z.to_pos m == foldl Qmin (num # Z.to_pos den) (map traffic_ratio ts))%Q.
Proof.
  revert num den d. induction ts as [|t ts IH]; simpl; intros num den d Hn Hd; [repeat split; auto; reflexivity|].
  assert (Hq : (0 <= num # Z.to_pos den)%Q) by (unfold Qle; simpl; lia).
  assert (Hl : 0 ≤ traffic_left t) by (unfold traffic_left; lia).
  destruct ((Cap t <=? 0) || (traffic_left t =? 0)) eqn:Hz.
  - split; [lia|]. split; [lia|].
    assert (Hr : (traffic_ratio t == 0)%Q).
    { unfold traffic_ratio. destruct (Z.leb_spec (Cap t) 0); [reflexivity|]. simpl in Hz.
      apply Z.eqb_eq in Hz. rewrite Hz. reflexivity. }
    assert (Hm : (Qmin (num # Z.to_pos den) (traffic_ratio t) == 0)%Q) by (rewrite Q.min_r; lra).
    rewrite (foldl_Qmin_eq _ _ _ Hm).
    pose proof (foldl_Qmin_bounds 0 (map traffic_ratio ts) ltac:(lra) (traffic_ratios_nonneg _)).
    change (Z.to_pos 1) with 1%positive. change (0 # 1)%Q with 0%Q. lra.
  - apply orb_false_iff in Hz as [Hc%Z.leb_gt Hz%Z.eqb_neq].
    assert (Hr : traffic_ratio t = (traffic_left t # Z.to_pos (Cap t))%Q).
    { unfold traffic_ratio. destruct (Z.leb_spec (Cap t) 0); [lia|done]. }
    destruct (traffic_left t * den <? num * Cap t) eqn:Hlt.
    + apply frac_lt in Hlt; [|lia..]. specialize (IH (traffic_left t) (Cap t) (set_traffic (traffic_left t) (Cap t) d) Hl Hc).
      destruct (applyTrafficRatio ts _ _ _) as [[n m] d']. destruct IH as (? & ? & IH). repeat split; auto.
      rewrite IH. apply foldl_Qmin_eq. rewrite Q.min_r; [by rewrite Hr|]. rewrite Hr. lra.
    + assert (Hge : (num # Z.to_pos den <= traffic_left t # Z.to_pos (Cap t))%Q).
      { apply Qnot_lt_le. intros Hlt'. apply frac_lt in Hlt'; [congruence|lia..]. }
      specialize (IH num den d Hn Hd).
      destruct (applyTrafficRatio ts _ _ _) as [[n m] d']. destruct IH as (? & ? & IH). repeat split; auto.
      rewrite IH. apply foldl_Qmin_eq. rewrite Q.min_l; [reflexivity|]. by rewrite Hr.
Qed.

(** * The credit *)

(** The rounded-down share [r] of [v] in cents. *)
Definition share (v : dec) (r : Q) : Z := Qfloor (inject_Z (Z.max (cents_of v) 0) * r).

Lemma share_frac v n d :
  0 ≤ cents_of v → 0 ≤ n → 0 < d → share v (n # Z.to_pos d) = Z.quot (cents_of v * n) d.
Proof.
  intros Hv Hn Hd. unfold share. rewrite Z.max_l by lia. rewrite Z.quot_div_nonneg by nia.
  change (cents_of v * n / Z.pos (Z.to_pos d) = cents_of v * n / d). by rewrite Z2Pos.id by lia.
Qed.

Lemma share_zero v r : (r == 0)%Q → share v r = 0.
Proof. intros H. unfold share. rewrite (Qfloor_comp _ 0%Q); [done|]. rewrite H. ring. Qed.

Lemma share_bounds v r : (0 <= r <= 1)%Q → 0 ≤ share v r ≤ Z.max (cents_of v) 0.
Proof.
  intros [H0 H1]. unfold share. set (c := Z.max (cents_of v) 0).
  assert (Hc : (0 <= inject_Z c)%Q) by (change 0%Q with (inject_Z 0); rewrite <- Zle_Qle; lia).
  split.
  - rewrite <- (Qfloor_Z 0). apply Qfloor_resp_le. change (inject_Z 0) with 0%Q. nra.
  - rewrite <- (Qfloor_Z c) at 2. apply Qfloor_resp_le. nra.
Qed.

Lemma dec_zero_cents : cents_of dec_zero = 0.
Proof. apply (two_places_intro _ 0). rewrite dec_zero_val. reflexivity. Qed.

Lemma dec_new_cents c : two_places (dec_new c (- Scale)) ∧ cents_of (dec_new c (- Scale)) = c.
Proof. apply two_places_intro, FromCents_val. Qed.

Lemma cents_nonneg v : two_places v → (0 < val v)%Q → 0 ≤ cents_of v.
Proof.
  intros H Hp. apply val_cents in H. rewrite Zle_Qle. change (inject_Z 0) with 0%Q. lra.
Qed.

(** The share credited, in cents. *)
Lemma prorationCredit_share b now :
  two_places (Value b) →
  two_places (prorationCredit b now).1 ∧
  cents_of (prorationCredit b now).1 = share (Value b) (remaining_ratio b now).
Proof.
  intros Hv. unfold prorationCredit.
  assert (Hzero : ∀ r, (r == 0)%Q ∨ cents_of (Value b) ≤ 0 →
            two_places dec_zero ∧ cents_of dec_zero = share (Value b) r).
  { intros r Hr. split; [apply two_places_zero|]. rewrite dec_zero_cents. symmetry.
    destruct Hr as [Hr|Hr]; [by apply share_zero|]. unfold share. rewrite Z.max_r by lia.
    rewrite (Qfloor_comp _ 0%Q) by ring. done. }
  destruct (IsPositive_spec (Value b)) as [Hp|Hp]; simpl.
  2: { apply Hzero. right. apply val_cents in Hv. rewrite Zle_Qle. change (inject_Z 0) with 0%Q. lra. }
  pose proof (cents_nonneg _ Hv Hp) as Hc. rewrite shift2_int.
  unfold remaining_ratio, oneTimeTimeRatio, time_ratio.
  destruct (OneTime b); simpl.
  - assert (Hnone : ∀ q, (q == 0)%Q → (foldl Qmin q (map traffic_ratio (Traffic b)) == 0)%Q).
    { intros q Hq. rewrite (foldl_Qmin_eq _ _ _ Hq).
      pose proof (foldl_Qmin_bounds 0 _ ltac:(lra) (traffic_ratios_nonneg (Traffic b))). lra. }
    assert (Hfin : ∀ n m d, 0 ≤ n → 0 < m →
      let '(num, den, d') := applyTrafficRatio (Traffic b) n m d in
      two_places (dec_new (Z.quot (cents_of (Value b) * num) den) (- Scale)) ∧
      cents_of (dec_new (Z.quot (cents_of (Value b) * num) den) (- Scale)) =
      share (Value b) (foldl Qmin (n # Z.to_pos m) (map traffic_ratio (Traffic b)))).
    { intros n m d Hn Hm. pose proof (applyTrafficRatio_spec (Traffic b) n m d Hn Hm) as HA.
      destruct (applyTrafficRatio (Traffic b) n m d) as [[num den] d']. destruct HA as (H1 & H2 & H3).
      destruct (dec_new_cents (Z.quot (cents_of (Value b) * num) den)) as [? ->]. split; [done|].
      rewrite <- share_frac by lia. unfold share. apply Qfloor_comp. by rewrite H3. }
    destruct (Permanent b).
    + specialize (Hfin 1 1 (credit_detail0 b now) ltac:(lia) ltac:(lia)).
      destruct (applyTrafficRatio _ _ _ _) as [[num den] d']. done.
    + destruct (Z.leb_spec (PaidSpan b) 0); simpl; [apply Hzero; left; by apply Hnone|].
      destruct (Z.leb_spec (paidRemaining b now) 0); simpl.
      { apply Hzero. left. apply Hnone. rewrite Z.max_r by lia. reflexivity. }
      rewrite Z.max_l by lia.
      specialize (Hfin (paidRemaining b now) (PaidSpan b) (credit_detail0 b now) ltac:(lia) ltac:(lia)).
      destruct (applyTrafficRatio _ _ _ _) as [[num den] d']. done.
  - destruct (Z.leb_spec (PaidSpan b) 0); simpl; [by apply Hzero; left|].
    destruct (Z.leb_spec (paidRemaining b now) 0); simpl.
    { apply Hzero. left. rewrite Z.max_r by lia. reflexivity. }
    destruct (dec_new_cents (Z.quot (cents_of (Value b) * paidRemaining b now) (PaidSpan b))) as [? ->].
    split; [done|]. rewrite Z.max_l by lia. by rewrite share_frac by lia.
Qed.

(** * What is unused, from the period and the quotas themselves *)

(** How many instants of [a, b) lie in [c, d). *)
Definition overlap (a b c d : Z) : Z := Z.max 0 (Z.min b d - Z.max a c).

(** The paid stretch begins with the period; what lies after now and before the
    period's end is unused.  A permanent one-time plan keeps all of it. *)
Definition unused_time (b : prorationBasis) (now : Time) : Q :=
  if OneTime b && Permanent b then 1
  else overlap (PeriodStart b) (PeriodStart b + PaidSpan b) now (PeriodEnd b) # Z.to_pos (PaidSpan b).
(** What an allowance has left: all of it less what was consumed. *)
Definition unused_traffic (t : trafficAllowance) : Q :=
  if Cap t <=? 0 then 0 else 1 - (Z.min (Consumed t) (Cap t) # Z.to_pos (Cap t)).
Definition unused_share (b : prorationBasis) (now : Time) : Q :=
  if OneTime b then foldl Qmin (unused_time b now) (map unused_traffic (Traffic b)) else unused_time b now.

(** Values of the Go types: a [time.Duration], and quota columns that are not
    negative. *)
Record basis_typed (b : prorationBasis) : Prop := {
  bt_value : two_places (Value b);
  bt_span : PaidSpan b ≤ MaxInt64;
  bt_traffic : Forall (λ t, Cap t ≤ MaxInt64 ∧ 0 ≤ Consumed t ≤ MaxInt64) (Traffic b);
}.

Lemma time_ratio_unused b now : basis_typed b → PeriodStart b ≤ now → (time_ratio b now == unused_time b now)%Q.
Proof.
  intros [_ Hs _] Hn. unfold time_ratio, unused_time, overlap. destruct (_ && _); [reflexivity|].
  destruct (Z.leb_spec (PaidSpan b) 0).
  - rewrite Z.max_l by lia. reflexivity.
  - assert (E : Z.max (paidRemaining b now) 0 = Z.max 0 (Z.min (PeriodStart b + PaidSpan b) (PeriodEnd b) - Z.max (PeriodStart b) now)); [|by rewrite E].
    unfold paidRemaining, Sub. rewrite wrap64_id by (unfold in64, MinInt64, MaxInt64 in *; lia). unfold MinInt64, MaxInt64 in *. lia.
Qed.
Lemma traffic_ratio_unused t : Cap t ≤ MaxInt64 ∧ 0 ≤ Consumed t ≤ MaxInt64 → (traffic_ratio t == unused_traffic t)%Q.
Proof.
  intros (H1 & H2 & H3). unfold traffic_ratio, unused_traffic, traffic_left. destruct (Z.leb_spec (Cap t) 0); [reflexivity|].
  rewrite wrap64_id by (unfold in64, MinInt64, MaxInt64 in *; lia). rewrite (Z.min_l (Cap t - Consumed t)) by lia.
  assert (E : Z.max (Cap t - Consumed t) 0 = Cap t - Z.min (Consumed t) (Cap t)) by lia. rewrite E. unfold Qeq; simpl. rewrite !Z2Pos.id by lia. nia.
Qed.
Lemma foldl_Qmin_map {A} (f g : A → Q) l x y : (x == y)%Q → Forall (λ a, (f a == g a)%Q) l →
  (foldl Qmin x (map f l) == foldl Qmin y (map g l))%Q.
Proof.
  intros Hx HF. revert x y Hx. induction HF as [|a l Ha _ IH]; simpl; intros x y Hx; [done|]. apply IH. by rewrite Hx, Ha.
Qed.
Lemma remaining_unused b now : basis_typed b → PeriodStart b ≤ now → (remaining_ratio b now == unused_share b now)%Q.
Proof.
  intros Hb Hn. unfold remaining_ratio, unused_share. destruct (OneTime b); [|by apply time_ratio_unused].
  apply foldl_Qmin_map; [by apply time_ratio_unused|]. eapply Forall_impl; [apply (bt_traffic _ Hb)|]. apply traffic_ratio_unused.
Qed.

(** C37: the credit of a plan change is exact.  From the start of the period on it
    is what was paid this period times the unused share, rounded down to the
    cent once.  The share is the part of the paid stretch, which begins with the
    period, that lies after now and before the end of the period; for a one-time
    plan it is at most the unconsumed part of every traffic allowance.  The
    credit is never negative and never more than was paid. *)
Theorem prorationCredit_exact b now :
  basis_typed b → PeriodStart b ≤ now →
  let c := (prorationCredit b now).1 in
  two_places c ∧ cents_of c = Qfloor (inject_Z (Z.max (cents_of (Value b)) 0) * unused_share b now) ∧
  (0 <= unused_share b now <= 1)%Q ∧ (0 <= val c <= Qmax (val (Value b)) 0)%Q.
Proof.
  intros Hb Hn. pose proof (remaining_unused b now Hb Hn) as Hu. pose proof (bt_value _ Hb) as Hv.
  destruct (prorationCredit_share b now Hv) as [H1 H2]. pose proof (remaining_ratio_bounds b now) as Hr.
  pose proof (share_bounds (Value b) _ Hr) as Hs.
  cbv zeta. split; [done|]. split; [rewrite H2; unfold share; apply Qfloor_comp; by rewrite Hu|]. rewrite <- Hu. split; [done|].
  rewrite <- H2 in Hs. destruct Hs as [Hs0 Hs1].
  apply val_cents in H1. rewrite Zle_Qle in Hs0, Hs1. change (inject_Z 0) with 0%Q in *.
  split; [lra|].
  assert (Hm : (val (Value b) * 100 == inject_Z (cents_of (Value b)))%Q) by (by apply val_cents).
  destruct (Z.max_spec (cents_of (Value b)) 0) as [[? Em]|[? Em]]; rewrite Em in Hs1.
  - change (inject_Z 0) with 0%Q in Hs1. pose proof (Q.le_max_r (val (Value b)) 0). lra.
  - pose proof (Q.le_max_l (val (Value b)) 0). lra.
Qed.

(** Waiting never raises the credit.  Within a period the credit of the
    same basis at a later time is at most the credit at an earlier one. *)
Theorem prorationCredit_antitone b now1 now2 :
  two_places (Value b) → 0 ≤ PaidSpan b ≤ MaxInt64 → PeriodStart b ≤ now1 → now1 ≤ now2 →
  (val (prorationCredit b now2).1 <= val (prorationCredit b now1).1)%Q.
Proof.
  intros Hv Hspan Hs Hle.
  destruct (prorationCredit_share b now1 Hv) as [P1 C1], (prorationCredit_share b now2 Hv) as [P2 C2].
  apply cents_of_le; [done..|]. rewrite C1, C2.
  assert (Hrem : paidRemaining b now2 ≤ paidRemaining b now1).
  { unfold paidRemaining, Sub. rewrite !wrap64_id by (unfold in64, MinInt64, MaxInt64 in *; lia). lia. }
  assert (Ht : (time_ratio b now2 <= time_ratio b now1)%Q).
  { unfold time_ratio. destruct (_ && _); [lra|]. destruct (Z.leb_spec (PaidSpan b) 0); [lra|].
    unfold Qle; simpl. nia. }
  assert (Hr : (remaining_ratio b now2 <= remaining_ratio b now1)%Q).
  { unfold remaining_ratio. destruct (OneTime b); [by apply foldl_Qmin_le|done]. }
  unfold share. apply Qfloor_resp_le.
  assert (Hc : (0 <= inject_Z (Z.max (cents_of (Value b)) 0))%Q).
  { change 0%Q with (inject_Z 0). rewrite <- Zle_Qle. lia. }
  nra.
Qed.

(** A plan change neither creates nor loses money.  The new order's total
    and the refund to balance are never negative, at most one of them is
    positive, and their difference is exactly the new price after discount
    minus the credit. *)
Theorem plan_change_conserves subtotal discount credit :
  let total := val (OrderTotal subtotal discount credit) in
  let refund := val (planChangeRefund credit subtotal discount) in
  (total - refund == val subtotal - val discount - val credit)%Q ∧
  (0 <= total)%Q ∧ (0 <= refund)%Q ∧ (total == 0 ∨ refund == 0)%Q.
Proof.
  cbv zeta. unfold OrderTotal, planChangeRefund.
  assert (H1 := dec_sub_val (dec_sub subtotal discount) credit). assert (H2 := dec_sub_val subtotal discount).
  assert (H3 := dec_sub_val credit (dec_sub subtotal discount)). assert (H0 := dec_zero_val).
  destruct (dec_max_cases (dec_sub credit (dec_sub subtotal discount)) dec_zero) as [[E ?]|[E ?]];
    destruct (IsNegative_spec (dec_sub (dec_sub subtotal discount) credit)); rewrite E;
    repeat split; try lra; (left; lra) || (right; lra).
Qed.

(** * The basis *)

Lemma order_value_nonneg o : (0 <= val (order_value o))%Q.
Proof. unfold order_value. destruct (dec_max_cases (dec_sub (dec_sub (SubtotalAmount o) (DiscountAmount o)) (WaivedAmount o)) dec_zero) as [[-> ?]|[-> ?]]; pose proof dec_zero_val; lra. Qed.

Definition amounts_ok (o : Order) : Prop :=
  two_places (SubtotalAmount o) ∧ two_places (DiscountAmount o) ∧ two_places (WaivedAmount o).

Lemma order_value_places o : amounts_ok o → two_places (order_value o).
Proof.
  intros (H1 & H2 & H3). unfold order_value.
  assert (Ha : two_places (dec_sub (SubtotalAmount o) (DiscountAmount o)))
    by (eapply two_places_sub; [exact H1|exact H2|apply dec_sub_val]).
  assert (Hb : two_places (dec_sub (dec_sub (SubtotalAmount o) (DiscountAmount o)) (WaivedAmount o)))
    by (eapply two_places_sub; [exact Ha|exact H3|apply dec_sub_val]).
  destruct (dec_max_cases (dec_sub (dec_sub (SubtotalAmount o) (DiscountAmount o)) (WaivedAmount o)) dec_zero) as [[E ?]|[E ?]];
    unfold two_places in *; rewrite (cents_of_proper _ _ E), E; [done|apply two_places_zero].
Qed.

Lemma basis_fold oneTime po l value until paid :
  let '(value', until', _) := foldl (basis_step oneTime po) (value, until, paid) l in
  (val value' == val value + Qsum (map (λ oi, val (order_value oi.1)) l))%Q ∧
  (two_places value → Forall (λ oi, amounts_ok oi.1) l → two_places value').
Proof.
  revert value until paid. induction l as [|[o it] l IH]; simpl; intros value until paid; [split; [lra|done]|].
  set (acc := if oneTime then _ else _).
  assert (Ha : ∃ u p, acc = (dec_add value (order_value o), u, p)).
  { unfold acc. destruct oneTime; [eauto|]. destruct (SnapshotInterval it), (SnapshotIntervalCount it); eauto. }
  destruct Ha as (u & p & ->). specialize (IH (dec_add value (order_value o)) u p).
  destruct (foldl (basis_step oneTime po) (dec_add value (order_value o), u, p) l) as [[v' u'] p'].
  destruct IH as [IH1 IH2]. split; [rewrite IH1, dec_add_val; lra|].
  intros Hv HF. apply Forall_cons in HF as [Ho HF]. apply IH2; [|done].
  eapply two_places_add; [exact Hv|exact (order_value_places o Ho)|apply dec_add_val].
Qed.

(** What the period's counted orders paid. *)
Definition paid_total (orderIDs : list uuid) (po : periodOrders) : Q :=
  Qsum (map (λ oi, val (order_value oi.1)) (counted orderIDs po)).

Lemma basisOf_value wall src orderIDs po :
  (val (Value (basisOf wall src orderIDs po)) == paid_total orderIDs po)%Q ∧
  (Forall (λ oi, amounts_ok oi.1) (counted orderIDs po) → two_places (Value (basisOf wall src orderIDs po))).
Proof.
  unfold basisOf, paid_total.
  pose proof (basis_fold (String.eqb (src_Kind src) KindOneTime) po (counted orderIDs po) dec_zero
    (sub_PeriodStart (src_Sub src)) (mkPaidOneTime 0 false 0 false)) as H.
  destruct (foldl _ _ (counted orderIDs po)) as [[v u] p]. destruct H as [H1 H2].
  destruct (String.eqb (src_Kind src) KindOneTime); simpl; (split; [rewrite H1, dec_zero_val; lra|]);
    intros HF; apply H2; auto using two_places_zero.
Qed.

Lemma paid_total_nonneg orderIDs po : (0 <= paid_total orderIDs po)%Q.
Proof.
  unfold paid_total. induction (counted orderIDs po) as [|oi l IH]; simpl; [lra|].
  pose proof (order_value_nonneg oi.1). lra.
Qed.

(** What a plan change credits is covered by what was paid.  For the basis
    read from any set of the period's orders, the credit is at most the sum the
    counted orders (fulfilled purchases, renewals, changes and stackings) paid
    after discounts and waivers, whatever the traffic, gifts or dates; orders
    of other kinds or states contribute nothing. *)
Theorem credit_within_paid wall src orderIDs po now :
  Forall (λ oi, amounts_ok oi.1) (counted orderIDs po) →
  let c := (prorationCredit (basisOf wall src orderIDs po) now).1 in
  two_places c ∧ (0 <= val c <= paid_total orderIDs po)%Q.
Proof.
  intros HF. destruct (basisOf_value wall src orderIDs po) as [Hv Hp]. specialize (Hp HF).
  destruct (prorationCredit_share (basisOf wall src orderIDs po) now Hp) as [H1 H2].
  pose proof (share_bounds (Value (basisOf wall src orderIDs po)) _ (remaining_ratio_bounds (basisOf wall src orderIDs po) now)) as Hs.
  cbv zeta. split; [done|]. rewrite <- H2 in Hs. apply val_cents in H1, Hp. destruct Hs as [Hs0 Hs1].
  pose proof (paid_total_nonneg orderIDs po).
  assert (Hm : Z.max (cents_of (Value (basisOf wall src orderIDs po))) 0 = cents_of (Value (basisOf wall src orderIDs po))).
  { apply Z.max_l. rewrite Zle_Qle. change (inject_Z 0) with 0%Q. lra. }
  rewrite Hm in Hs1. rewrite Zle_Qle in Hs0, Hs1. change (inject_Z 0) with 0%Q in Hs0. split; lra.
Qed.
End Thms.

(** * A worked example: 30.00 paid for a month, asked after ten days. *)

Section Example.
#[local] Existing Instance scaled_decimal.

Definition ex_start : Time := days_from_civil 2026 4 1 * Day.
Definition ex_order : Order := mkOrder 55 KindNew StatusFulfilled (3500, -2) (500, -2) (0, 0).
Definition ex_item : Item := mkItem 55 (Some 9%N) (Some 8%N) (Some "month") (Some 1) None.
Definition ex_po : periodOrders :=
  mkPeriodOrders {[1%N := [55%N]]} {[55%N := ex_order]} {[55%N := ex_item]} ∅.
Definition ex_source : basisSource :=
  mkSource (mkSub 1 9 ex_start (days_from_civil 2026 5 1 * Day)) "subscription" [].
Definition ex_basis : prorationBasis := basisOf ex_start ex_source [55%N] ex_po.
Definition ex_now : Time := days_from_civil 2026 4 11 * Day.

(** Ten days into a month of thirty: two thirds of 30.00 are unused.  The same
    month with five gifted days behind it, 27 days in: three days are unused.
    A package of 90 days with 400 of 1000 bytes left after 30 days: the traffic
    decides. *)
Definition ex_gifted : prorationBasis := mkBasis (3000, -2) false false (30 * Day) ex_start (ex_start + 35 * Day) [].
Definition ex_package : prorationBasis :=
  mkBasis (3000, -2) true false (90 * Day) ex_start (ex_start + 90 * Day) [mkAllowance 1000 600].
Lemma prorationCredit_exact_witness :
  (unused_share ex_basis ex_now == 2 # 3)%Q ∧ cents_of (prorationCredit ex_basis ex_now).1 = 2000 ∧
  (unused_share ex_gifted (ex_start + 27 * Day)%Z == 1 # 10)%Q ∧ cents_of (prorationCredit ex_gifted (ex_start + 27 * Day)%Z).1 = 300 ∧
  (unused_share ex_package (ex_start + 30 * Day)%Z == 2 # 5)%Q ∧ cents_of (prorationCredit ex_package (ex_start + 30 * Day)%Z).1 = 1200.
Proof.
  assert (T : ∀ b, two_places (Value b) → (PaidSpan b <=? MaxInt64) = true →
    forallb (λ t, (Cap t <=? MaxInt64) && (0 <=? Consumed t) && (Consumed t <=? MaxInt64)) (Traffic b) = true → basis_typed b).
  { intros b H1 H2 H3. split; [exact H1|by apply Z.leb_le|]. apply Forall_forall. intros t Ht%list_elem_of_In.
    rewrite forallb_forall in H3. specialize (H3 t Ht). apply andb_true_iff in H3 as [[? ?]%andb_true_iff ?]. lia. }
  destruct (prorationCredit_exact ex_basis ex_now) as (_ & E1 & _); [apply T; vm_compute; reflexivity|vm_compute; discriminate|].
  destruct (prorationCredit_exact ex_gifted (ex_start + 27 * Day)) as (_ & E2 & _); [apply T; vm_compute; reflexivity|vm_compute; discriminate|].
  destruct (prorationCredit_exact ex_package (ex_start + 30 * Day)) as (_ & E3 & _); [apply T; vm_compute; reflexivity|vm_compute; discriminate|].
  rewrite E1, E2, E3. split_and!; vm_compute; reflexivity.
Defined.

Lemma prorationCredit_antitone_witness :
  (val (prorationCredit ex_basis (ex_now + Hour)%Z).1 <= val (prorationCredit ex_basis ex_now).1)%Q.
Proof.
  apply (prorationCredit_antitone ex_basis ex_now (ex_now + Hour)); vm_compute; (reflexivity || (split; discriminate) || discriminate).
Defined.

Lemma plan_change_conserves_witness :
  let c n : dec := (n, -2) in
  (val (OrderTotal (c 1500%Z) (c 0%Z) (c 2000%Z)) - val (planChangeRefund (c 2000%Z) (c 1500%Z) (c 0%Z)) == -5)%Q.
Proof.
  cbv zeta. destruct (plan_change_conserves (DL := scaled_decimal) (1500, -2) (0, -2) (2000, -2)) as [H _]. rewrite H. vm_compute. reflexivity.
Defined.

Lemma credit_within_paid_witness :
  (paid_total [55%N] ex_po == 30)%Q ∧ (0 <= val (prorationCredit ex_basis ex_now).1 <= paid_total [55%N] ex_po)%Q.
Proof.
  split; [vm_compute; reflexivity|].
  apply (credit_within_paid ex_start ex_source [55%N] ex_po ex_now).
  repeat constructor; vm_compute; reflexivity.
Defined.
End Example.
