(* ===== verification/SubTypes.v ===== *)
(** The subscription module's vocabulary and pure functions
    (panel/internal/module/subscription: model/model.go, service/types.go and
    the functions of service/internal.go, provision.go, renew.go, stack.go and
    resets_used.go that touch no table).

    A table is the list of its rows in the order of their identifiers:
    [uuidv7()] hands out increasing identifiers, so an insert appends.  The
    columns [created_at] and [updated_at] that nothing here reads are left out. *)
From Stdlib Require Import ZArith Lia Ascii String.
From stdpp Require Import base tactics list gmap strings.
From S2P Require Import Prelude Decimal GoString Money GoTime Period.
#[local] Open Scope string_scope.
#[local] Open Scope Z_scope.

(** A [uuid.UUID] is its 128-bit value. *)
Abbreviation uuid := N (only parsing).
Definition uuid_Nil : uuid := 0%N.

(** * Constants (types.go) *)

Definition RenewalWindow : Duration := 30 * Day.

Definition ActorUser := "user".
Definition ActorAdmin := "admin".
Definition ActorSystem := "system".
Definition ActorPayment := "payment".
Definition ActorScheduler := "scheduler".

Definition EventActivated := "activated".
Definition EventRenewed := "renewed".
Definition EventExtended := "extended".
Definition EventPlanChanged := "plan_changed".
Definition EventExpired := "expired".
Definition EventRenewalClosed := "renewal_closed".
Definition EventLinkRotated := "link_rotated".
Definition EventPeriodEndSet := "period_end_set".
Definition EventQuotaLimitSet := "quota_limit_set".

Definition ResetRenewal := "renewal".
Definition ResetCycleRoll := "cycle_roll".
Definition ResetManual := "manual".
Definition ResetGiftCard := "gift_card".
Definition ResetPlanChange := "plan_change".
Definition ResetOrder := "order".

Definition BonusGiftCard := "gift_card".
Definition BonusAdmin := "admin".
Definition ExtendSourceGiftCard := "gift_card".
Definition ExtendSourceAdmin := "admin".
Definition MetricTraffic := "traffic.bytes".

Definition KindSubscription := "subscription".
Definition KindOneTime := "one_time".
Definition VersionPublished := "published".
Definition PlanArchived := "archived".

Definition maxExtendDays : Z := 3650.
Definition maxNoteRunes : Z := 500.
Definition maxLabelTries : nat := 20.
Definition MaxLabelRunes : Z := 16.

(** * Errors *)

(** What a statement can report: a constraint by its class, or anything else. *)
Inductive db_err := DBUnique | DBForeignKey | DBCheck | DBOther.

Inductive serr :=
| ErrNotFound | ErrRenewalWindowClosed | ErrExtendWindowClosed | ErrNotLive | ErrNoTrafficQuota
| ErrNotActive | ErrUnlimited | ErrBonusPeriodSwitching | ErrRenewOneTime | ErrStackNotOneTime
| ErrVersionUnavailable | ErrStateChanged | ErrAccountDeleted | ErrUnauthorized | ErrForbidden
| ErrInternal | ErrInvalid (field : string) | ErrConflict | ErrExists | ErrReference | ErrCheckFailed
| ErrRotateWhileExpired | ErrDeliveryUnavailable | ErrMoney | ErrRepo (e : db_err) | ErrExternal.
#[global] Instance db_err_eq_dec : EqDecision db_err.
Proof. solve_decision. Defined.
#[global] Instance serr_eq_dec : EqDecision serr.
Proof. solve_decision. Defined.

(** [subErr]: constraint sentinels of the repository become outward errors. *)
Definition subErr (e : serr) : serr :=
  match e with
  | ErrRepo DBUnique => ErrExists
  | ErrRepo DBForeignKey => ErrReference
  | ErrRepo DBCheck => ErrCheckFailed
  | e => e
  end.

(** * Rows *)

Record quota_row := mkQuotaRow {
  q_ID : uuid; q_SubscriptionID : uuid; q_Metric : string; q_Period : string;
  q_PeriodStart : Time; q_PeriodEnd : option Time; q_LimitValue : option Z;
  q_BonusValue : Z; q_Consumed : Z }.

(** The generated column [limit_value + bonus_value - consumed]. *)
Definition q_Remaining (q : quota_row) : option Z :=
  (λ l, l + q_BonusValue q - q_Consumed q) <$> q_LimitValue q.

Record reset_row := mkReset {
  r_SubscriptionID : uuid; r_UserID : uuid; r_Metric : string; r_Reason : string;
  r_ConsumedBefore : Z; r_ConsumedAfter : Z; r_ActorID : option uuid; r_Note : option string }.

(** A value of an event's payload. *)
Inductive pval :=
| PStr (s : string) | PBool (b : bool) | PInt (z : Z) | POptInt (z : option Z)
| PTime (t : Time) | PID (u : uuid) | PCounts (m : list (string * Z)).

Record event_row := mkEvent {
  ev_SubscriptionID : uuid; ev_Type : string; ev_From : option string; ev_To : string;
  ev_ActorKind : string; ev_ActorID : option uuid; ev_OrderID : option uuid;
  ev_Payload : list (string * pval) }.

Record cred_row := mkCred {
  c_ID : uuid; c_SubscriptionID : uuid; c_UserID : uuid; c_TokenHash : list Z; c_TokenPrefix : string;
  c_TokenEncrypted : list Z; c_Status : string; c_RevokedAt : option Time; c_RevokedReason : option string;
  c_GraceUntil : option Time; c_RotatedCount : Z }.

Record Actor := mkActor { act_Kind : string; act_ID : option uuid }.

(** * The catalogue's data, as this module reads it *)

Record QuotaDef := mkQuotaDef { qd_Metric : string; qd_Limit : option Z; qd_Period : string }.
Record Plan := mkPlan { pl_Name : string; pl_Kind : string; pl_Status : string; pl_CurrentVersionID : option uuid }.
Record Version := mkVersion { v_ID : uuid; v_PlanID : uuid; v_Status : string; v_Quotas : list QuotaDef }.

Section Types.
Context `{DL : DecimalLib}.

Record sub_row := mkSubRow {
  s_ID : uuid; s_UserID : uuid; s_PlanID : uuid; s_PlanVersionID : uuid; s_PriceID : option uuid;
  s_Status : string; s_PeriodStart : Time; s_PeriodEnd : Time; s_RenewalClosedAt : option Time;
  s_Amount : dec; s_Interval : string; s_IntervalCount : Z; s_DeviceLimit : option Z;
  s_Label : option string; s_ProxyUUID : uuid; s_NodeUID : Z; s_SourceOrderID : option uuid }.

(** [PriceSnapshot]: the price, and the period fields [Period] computes with. *)
Record Price := mkPriceSnap { p_PriceID : option uuid; p_Amount : dec; p_Snap : PriceSnapshot }.

(** * Column assignments *)

Definition set_status (v : string) (r : sub_row) : sub_row :=
  mkSubRow (s_ID r) (s_UserID r) (s_PlanID r) (s_PlanVersionID r) (s_PriceID r) v (s_PeriodStart r)
    (s_PeriodEnd r) (s_RenewalClosedAt r) (s_Amount r) (s_Interval r) (s_IntervalCount r) (s_DeviceLimit r)
    (s_Label r) (s_ProxyUUID r) (s_NodeUID r) (s_SourceOrderID r).
Definition set_start (v : Time) (r : sub_row) : sub_row :=
  mkSubRow (s_ID r) (s_UserID r) (s_PlanID r) (s_PlanVersionID r) (s_PriceID r) (s_Status r) v
    (s_PeriodEnd r) (s_RenewalClosedAt r) (s_Amount r) (s_Interval r) (s_IntervalCount r) (s_DeviceLimit r)
    (s_Label r) (s_ProxyUUID r) (s_NodeUID r) (s_SourceOrderID r).
Definition set_end (v : Time) (r : sub_row) : sub_row :=
  mkSubRow (s_ID r) (s_UserID r) (s_PlanID r) (s_PlanVersionID r) (s_PriceID r) (s_Status r) (s_PeriodStart r)
    v (s_RenewalClosedAt r) (s_Amount r) (s_Interval r) (s_IntervalCount r) (s_DeviceLimit r)
    (s_Label r) (s_ProxyUUID r) (s_NodeUID r) (s_SourceOrderID r).
Definition set_closed (v : option Time) (r : sub_row) : sub_row :=
  mkSubRow (s_ID r) (s_UserID r) (s_PlanID r) (s_PlanVersionID r) (s_PriceID r) (s_Status r) (s_PeriodStart r)
    (s_PeriodEnd r) v (s_Amount r) (s_Interval r) (s_IntervalCount r) (s_DeviceLimit r)
    (s_Label r) (s_ProxyUUID r) (s_NodeUID r) (s_SourceOrderID r).
Definition set_plan (p v : uuid) (r : sub_row) : sub_row :=
  mkSubRow (s_ID r) (s_UserID r) p v (s_PriceID r) (s_Status r) (s_PeriodStart r)
    (s_PeriodEnd r) (s_RenewalClosedAt r) (s_Amount r) (s_Interval r) (s_IntervalCount r) (s_DeviceLimit r)
    (s_Label r) (s_ProxyUUID r) (s_NodeUID r) (s_SourceOrderID r).
Definition set_version (v : uuid) (r : sub_row) : sub_row := set_plan (s_PlanID r) v r.
Definition set_label (v : option string) (r : sub_row) : sub_row :=
  mkSubRow (s_ID r) (s_UserID r) (s_PlanID r) (s_PlanVersionID r) (s_PriceID r) (s_Status r) (s_PeriodStart r)
    (s_PeriodEnd r) (s_RenewalClosedAt r) (s_Amount r) (s_Interval r) (s_IntervalCount r) (s_DeviceLimit r)
    v (s_ProxyUUID r) (s_NodeUID r) (s_SourceOrderID r).

Definition set_proxy (v : uuid) (r : sub_row) : sub_row :=
  mkSubRow (s_ID r) (s_UserID r) (s_PlanID r) (s_PlanVersionID r) (s_PriceID r) (s_Status r) (s_PeriodStart r)
    (s_PeriodEnd r) (s_RenewalClosedAt r) (s_Amount r) (s_Interval r) (s_IntervalCount r) (s_DeviceLimit r)
    (s_Label r) v (s_NodeUID r) (s_SourceOrderID r).
Definition set_devices (v : option Z) (r : sub_row) : sub_row :=
  mkSubRow (s_ID r) (s_UserID r) (s_PlanID r) (s_PlanVersionID r) (s_PriceID r) (s_Status r) (s_PeriodStart r)
    (s_PeriodEnd r) (s_RenewalClosedAt r) (s_Amount r) (s_Interval r) (s_IntervalCount r) v
    (s_Label r) (s_ProxyUUID r) (s_NodeUID r) (s_SourceOrderID r).

(** [snapshotCols]: the price snapshot; an absent price keeps the old one. *)
Definition snapshotCols (p : Price) (oldPriceID : option uuid) (r : sub_row) : sub_row :=
  mkSubRow (s_ID r) (s_UserID r) (s_PlanID r) (s_PlanVersionID r)
    (match p_PriceID p with Some id => Some id | None => oldPriceID end)
    (s_Status r) (s_PeriodStart r) (s_PeriodEnd r) (s_RenewalClosedAt r)
    (p_Amount p) (Interval (p_Snap p)) (IntervalCount (p_Snap p)) (s_DeviceLimit r)
    (s_Label r) (s_ProxyUUID r) (s_NodeUID r) (s_SourceOrderID r).

(** * Input validation (internal.go) *)

Definition validatePrice (p : Price) : result serr () :=
  let s := p_Snap p in
  if match ValidityDays s with
     | Some n => negb (String.eqb (Interval s) "one_time") || (n <? 1) || (36500 <? n)
     | None => false
     end then Err ErrInternal
  else match CheckNonNegative (p_Amount p) with
       | Err _ => Err ErrInternal
       | Ok _ => reject (negb (ValidInterval (Interval s)) || (IntervalCount s <? 1) || (32767 <? IntervalCount s))
                   ErrInternal
       end.

Definition validateActor (a : Actor) : result serr () :=
  if bool_decide (act_Kind a ∈ [ActorUser; ActorAdmin])
  then reject (match act_ID a with Some id => (id =? uuid_Nil)%N | None => true end) ErrInternal
  else if bool_decide (act_Kind a ∈ [ActorSystem; ActorPayment; ActorScheduler])
       then reject (bool_decide (is_Some (act_ID a))) ErrInternal
       else Err ErrInternal.

Definition cleanText (s0 : string) (minRunes maxRunes : Z) (field : string) : result serr string :=
  let s := TrimSpace s0 in
  let n := RuneCountInString s in
  if negb (ValidString s) || ContainsNUL s || (n <? minRunes) || (maxRunes <? n)
  then Err (ErrInvalid field) else Ok s.

(** * Quota definitions (internal.go, provision.go) *)

Definition trafficPeriod (kind : string) : string :=
  if String.eqb kind KindOneTime then PeriodTotal else PeriodCycle.

Definition withKind (v : Version) (kind : string) : Version :=
  mkVersion (v_ID v) (v_PlanID v) (v_Status v)
    (map (λ q, if String.eqb (qd_Metric q) MetricTraffic &&
                  (String.eqb (qd_Period q) PeriodCycle || String.eqb (qd_Period q) PeriodTotal)
               then mkQuotaDef (qd_Metric q) (qd_Limit q) (trafficPeriod kind) else q) (v_Quotas v)).

Fixpoint find_def (defs : list QuotaDef) (metric period : string) : option QuotaDef :=
  match defs with
  | [] => None
  | q :: defs' => if String.eqb (qd_Metric q) metric && String.eqb (qd_Period q) period then Some q
                  else find_def defs' metric period
  end.
Definition quotaDef (v : Version) (metric period : string) : option QuotaDef := find_def (v_Quotas v) metric period.

(** Rows to insert; the database assigns the identifier. *)
Definition quotaRows (subID : uuid) (defs : list QuotaDef) (start cycleEnd : Time) : list quota_row :=
  map (λ q, mkQuotaRow uuid_Nil subID (qd_Metric q) (qd_Period q) start
              (QuotaPeriodEnd (qd_Period q) start cycleEnd) (qd_Limit q) 0 0) defs.

(** [saturatedAdd] (stack.go). *)
Definition saturatedAdd (a b : Z) : Z :=
  if (0 <? b) && (wrap64 (MaxInt64 - b) <? a) then MaxInt64 else wrap64 (a + b).

(** [resetSince] (resets_used.go): the latest start among the plan kind's
    traffic rows, else the subscription's period start. *)
Definition resetSince (kind : string) (sub : sub_row) (qs : list quota_row) : Time :=
  let best := foldl (λ best q,
    if negb (String.eqb (q_Metric q) MetricTraffic) || negb (String.eqb (q_Period q) (trafficPeriod kind)) then best
    else match best with
         | None => Some (q_PeriodStart q)
         | Some b => if After (q_PeriodStart q) b then Some (q_PeriodStart q) else best
         end) None qs in
  match best with Some t => t | None => s_PeriodStart sub end.

(** [StateAt] on a row. *)
Definition state_of (m : sub_row) (now : Time) : State :=
  StateAt (s_Status m) (s_PeriodEnd m) (s_RenewalClosedAt m) now.

End Types.

(** * Labels (label.go) *)

(** [unicode.IsControl] and the format characters [unicode.Cf]. *)
Definition IsControl (r : Z) : bool := between 0 r 31 || between 127 r 159.
Definition Cf (r : Z) : bool :=
  (r =? 0xAD) || between 0x600 r 0x605 || (r =? 0x61C) || (r =? 0x6DD) || (r =? 0x70F) ||
  between 0x890 r 0x891 || (r =? 0x8E2) || (r =? 0x180E) || between 0x200B r 0x200F ||
  between 0x202A r 0x202E || between 0x2060 r 0x2064 || between 0x2066 r 0x206F || (r =? 0xFEFF) ||
  between 0xFFF9 r 0xFFFB || (r =? 0x110BD) || (r =? 0x110CD) || between 0x13430 r 0x1343F ||
  between 0x1BCA0 r 0x1BCA3 || between 0x1D173 r 0x1D17A || (r =? 0xE0001) || between 0xE0020 r 0xE007F.

Definition NormalizeLabel (s0 : string) : result serr string :=
  let s := TrimSpace s0 in
  if String.eqb s "" then Ok ""
  else if negb (ValidString s) then Err (ErrInvalid "label")
  else if MaxLabelRunes <? RuneCountInString s then Err (ErrInvalid "label")
  else if existsb (λ c, let r := rune c in
            IsControl r || (Cf r && negb (r =? 0x200D)) || (r =? 0x2028) || (r =? 0x2029)) (runes s)
       then Err (ErrInvalid "label")
       else Ok s.

(** [strconv.Itoa] of a number below 100. *)
Definition digit (n : Z) : string := String (ascii_of_N (Z.to_N (48 + n))) "".
Definition itoa2 (n : Z) : string := if n <? 10 then digit n else digit (n / 10) ++ digit (n mod 10).

(** The UTF-8 encoding of decoded runes: Go re-encodes an invalid byte as
    [RuneError]. *)
Definition encode_rune (c : chunk) : list Z := if good c then enc c else [239; 191; 189].
Definition trim_right_space (l : list chunk) : list chunk :=
  rev ((fix go l := match l with [] => [] | c :: l' => if rune c =? 32 then go l' else l end) (rev l)).

Definition LabelWithSuffix (label : string) (n : Z) : string :=
  if n <=? 1 then label
  else
    let suffix := " " ++ itoa2 n in
    let rs := runes label in
    let keep := MaxLabelRunes - RuneCountInString suffix in
    let rs := if keep <? Z.of_nat (length rs) then take (Z.to_nat keep) rs else rs in
    string_of (concat (map encode_rune (trim_right_space rs))) ++ suffix.

(** * Link tokens (internal.go) *)

Definition b64char (n : Z) : ascii :=
  ascii_of_N (Z.to_N (if n <? 26 then 65 + n else if n <? 52 then 71 + n else if n <? 62 then n - 4
                      else if n =? 62 then 45 else 95)).

(** [base64.RawURLEncoding.EncodeToString]. *)
Fixpoint b64url (l : list Z) : string :=
  match l with
  | [] => ""
  | [a] => String (b64char (a / 4)) (String (b64char ((a mod 4) * 16)) "")
  | [a; b] => String (b64char (a / 4)) (String (b64char ((a mod 4) * 16 + b / 16))
                (String (b64char ((b mod 16) * 4)) ""))
  | a :: b :: c :: l' =>
      String (b64char (a / 4)) (String (b64char ((a mod 4) * 16 + b / 16))
        (String (b64char ((b mod 16) * 4 + c / 64)) (String (b64char (c mod 64)) (b64url l'))))
  end.

Definition tokenBytes : nat := 32.

(** [uuid.UUID.String]: 32 hexadecimal digits in groups of 8-4-4-4-12. *)
Definition hexdigit (n : N) : ascii := ascii_of_N (if (n <? 10)%N then 48 + n else 87 + n).
Fixpoint hex (k : nat) (n : N) : string :=
  match k with
  | O => ""
  | S k' => hex k' (n / 16)%N ++ String (hexdigit (n mod 16)%N) ""
  end.
Definition uuid_String (u : uuid) : string :=
  hex 8 (N.shiftr u 96) ++ "-" ++ hex 4 (N.shiftr u 80) ++ "-" ++ hex 4 (N.shiftr u 64) ++ "-" ++
  hex 4 (N.shiftr u 48) ++ "-" ++ hex 12 u.
