(* ===== verification/SubStore.v ===== *)
(** The subscription tables and the statements on them
    (panel/internal/module/subscription/repo, with the constraints of
    db/migrations/00011, 00017, 00040, 00046, 00051 and 00053), and the
    helpers of service/internal.go and service/service.go every writer uses. *)
From Stdlib Require Import ZArith Lia.
From stdpp Require Import base tactics list gmap strings sorting.
From S2P Require Import Prelude Decimal GoString Money GoTime Period SubTypes.
#[local] Open Scope string_scope.
#[local] Open Scope Z_scope.

(** [UPDATE … SET f WHERE p] on a table. *)
Definition update_where {A} (p : A → bool) (f : A → A) (l : list A) : list A :=
  map (λ r, if p r then f r else r) l.
Definition mem (id : uuid) (ids : list uuid) : bool := existsb (N.eqb id) ids.

(** Every element satisfies a fallible check; the first failure counts. *)
Fixpoint check_all {A E} (f : A → result E ()) (l : list A) : result E () :=
  match l with
  | [] => Ok ()
  | x :: l' => match f x with Ok _ => check_all f l' | Err e => Err e end
  end.

(** * Surroundings

    What this module reads from outside its own tables: the rows its foreign
    keys point at, the catalogue service, the database's text functions, the
    token sealer and hash, the site's calendar and the plugin outlet. *)
Record Env := mkEnv {
  env_users : gset uuid;
  env_versions : gset (uuid * uuid);
  env_prices : gset uuid;
  env_orders : gset uuid;
  PlansByIDs : list uuid → result serr (gmap uuid Plan);
  VersionsByIDs : list uuid → result serr (gmap uuid Version);
  pg_lower : string → string;
  pg_label_ok : string → bool;
  pg_plus : string → Time → Time;       (* timestamptz + interval, in the session's time zone *)
  Seal : option (list Z → list Z → option (list Z));
  Sum256 : list Z → list Z;
  Site : result serr (Time → Z);        (* the site's calendar: instant to day number *)
  Emit : uuid → string → Time → result serr () (* plugin event: subscription, plan name, expiry *)
}.

Section Store.
Context `{DL : DecimalLib}.

Record store := mkStore {
  subs : list sub_row; quotas : list quota_row; creds : list cred_row; events : list event_row;
  resets : list reset_row; usage : gmap (uuid * Z) Z; trials : gmap uuid uuid;
  audits : list (string * uuid); roster : gset uuid; next_id : uuid; next_uid : Z }.

Definition set_subs (f : list sub_row → list sub_row) (s : store) : store :=
  mkStore (f (subs s)) (quotas s) (creds s) (events s) (resets s) (usage s) (trials s) (audits s) (roster s) (next_id s) (next_uid s).
Definition set_quotas (f : list quota_row → list quota_row) (s : store) : store :=
  mkStore (subs s) (f (quotas s)) (creds s) (events s) (resets s) (usage s) (trials s) (audits s) (roster s) (next_id s) (next_uid s).
Definition set_creds (f : list cred_row → list cred_row) (s : store) : store :=
  mkStore (subs s) (quotas s) (f (creds s)) (events s) (resets s) (usage s) (trials s) (audits s) (roster s) (next_id s) (next_uid s).
Definition set_usage (f : gmap (uuid * Z) Z → gmap (uuid * Z) Z) (s : store) : store :=
  mkStore (subs s) (quotas s) (creds s) (events s) (resets s) (f (usage s)) (trials s) (audits s) (roster s) (next_id s) (next_uid s).
Definition add_event (e : event_row) (s : store) : store :=
  mkStore (subs s) (quotas s) (creds s) (events s ++ [e]) (resets s) (usage s) (trials s) (audits s) (roster s) (next_id s) (next_uid s).
Definition add_resets (l : list reset_row) (s : store) : store :=
  mkStore (subs s) (quotas s) (creds s) (events s) (resets s ++ l) (usage s) (trials s) (audits s) (roster s) (next_id s) (next_uid s).
Definition add_trial (user sub : uuid) (s : store) : store :=
  mkStore (subs s) (quotas s) (creds s) (events s) (resets s) (usage s) (<[user := sub]> (trials s)) (audits s) (roster s) (next_id s) (next_uid s).
Definition add_audit (a : string * uuid) (s : store) : store :=
  mkStore (subs s) (quotas s) (creds s) (events s) (resets s) (usage s) (trials s) (audits s ++ [a]) (roster s) (next_id s) (next_uid s).
Definition set_roster (f : gset uuid → gset uuid) (s : store) : store :=
  mkStore (subs s) (quotas s) (creds s) (events s) (resets s) (usage s) (trials s) (audits s) (f (roster s)) (next_id s) (next_uid s).
Definition bump_id (s : store) : store :=
  mkStore (subs s) (quotas s) (creds s) (events s) (resets s) (usage s) (trials s) (audits s) (roster s) (N.succ (next_id s)) (next_uid s).
Definition bump_uid (s : store) : store :=
  mkStore (subs s) (quotas s) (creds s) (events s) (resets s) (usage s) (trials s) (audits s) (roster s) (next_id s) (next_uid s + 1).

Abbreviation SM := (M store serr).
Definition db_fail {A} (e : db_err) : SM A := fail (ErrRepo e).

(** No constraint of these tables is deferred. *)
Definition no_deferred (s : store) : result serr () := Ok ().
Definition tx {A} (inTx : bool) (fn : SM A) : SM A := Do inTx no_deferred fn.

(** * Constraints *)

(** [subscriptions]: the CHECKs of the table. *)
Definition sub_check (r : sub_row) : bool :=
  bool_decide (s_Status r ∈ [StatusActive; StatusExpired]) &&
  (s_PeriodStart r <? s_PeriodEnd r) &&
  match s_RenewalClosedAt r with None => true | Some _ => String.eqb (s_Status r) StatusExpired end &&
  negb (IsNegative (s_Amount r)) && ValidInterval (s_Interval r) &&
  (0 <? s_IntervalCount r) && (s_IntervalCount r <=? 32767) &&
  match s_DeviceLimit r with None => true | Some n => (0 <=? n) && (n <=? 1000) end.

(** [numeric(20,2)] holds at most 18 digits before the point. *)
Definition amount_fits (d : dec) : bool := LessThan (dec_abs d) (dec_new 1 18).

Definition mem_opt (o : option uuid) (t : gset uuid) : bool :=
  match o with None => true | Some id => bool_decide (id ∈ t) end.

Definition sub_fk (W : Env) (r : sub_row) : bool :=
  bool_decide (s_UserID r ∈ env_users W) && bool_decide ((s_PlanID r, s_PlanVersionID r) ∈ env_versions W) &&
  mem_opt (s_PriceID r) (env_prices W) && mem_opt (s_SourceOrderID r) (env_orders W).

Definition write_sub (W : Env) (r : sub_row) : result serr () :=
  if negb (amount_fits (s_Amount r)) then Err (ErrRepo DBOther)
  else if negb (sub_check r) then Err (ErrRepo DBCheck)
  else if negb (sub_fk W r) then Err (ErrRepo DBForeignKey) else Ok ().

(** [char_length(btrim(metric)) BETWEEN 1 AND 64]. *)
Definition metric_ok (s : string) : bool :=
  let n := Z.of_nat (length (trim_right_space (rev (trim_right_space (rev (runes s)))))) in
  (1 <=? n) && (n <=? 64).

(** [quota_balances]: the CHECKs, and the generated column [remaining], which
    must be a [bigint] (as must be the sum it is computed from). *)
Definition quota_check (q : quota_row) : bool :=
  metric_ok (q_Metric q) &&
  bool_decide (q_Period q ∈ [PeriodTotal; PeriodCycle; PeriodDay; PeriodMonth]) &&
  Bool.eqb (String.eqb (q_Period q) PeriodTotal) (bool_decide (q_PeriodEnd q = None)) &&
  match q_PeriodEnd q with None => true | Some e => q_PeriodStart q <? e end &&
  match q_LimitValue q with None => true | Some l => 0 <=? l end &&
  (0 <=? q_Consumed q) && (0 <=? q_BonusValue q).

Definition quota_range (q : quota_row) : bool :=
  is_int64 (q_Consumed q) && is_int64 (q_BonusValue q) &&
  match q_LimitValue q with
  | None => true
  | Some l => is_int64 l && is_int64 (l + q_BonusValue q) && is_int64 (l + q_BonusValue q - q_Consumed q)
  end.

Definition write_quota (q : quota_row) : result serr () :=
  if negb (quota_range q) then Err (ErrRepo DBOther)
  else if negb (quota_check q) then Err (ErrRepo DBCheck) else Ok ().

Definition event_types : list string :=
  [EventActivated; EventRenewed; EventExtended; EventPlanChanged; EventExpired; EventRenewalClosed;
   EventLinkRotated; EventPeriodEndSet; EventQuotaLimitSet].
Definition status_ok (s : string) : bool := bool_decide (s ∈ [StatusActive; StatusExpired]).

Definition event_check (e : event_row) : bool :=
  bool_decide (ev_Type e ∈ event_types) &&
  match ev_From e with None => true | Some f => status_ok f end && status_ok (ev_To e) &&
  bool_decide (ev_ActorKind e ∈ [ActorUser; ActorAdmin; ActorSystem; ActorPayment; ActorScheduler]) &&
  Bool.eqb (bool_decide (ev_ActorKind e ∈ [ActorUser; ActorAdmin])) (bool_decide (is_Some (ev_ActorID e))).

Definition reset_reasons : list string :=
  [ResetRenewal; ResetCycleRoll; ResetManual; ResetGiftCard; ResetPlanChange; ResetOrder].

Definition reset_check (r : reset_row) : bool :=
  metric_ok (r_Metric r) && bool_decide (r_Reason r ∈ reset_reasons) &&
  (0 <=? r_ConsumedBefore r) && (0 <=? r_ConsumedAfter r) &&
  match r_Note r with None => true | Some n => between 1 (RuneCountInString n) 500 end &&
  (negb (String.eqb (r_Reason r) ResetManual) || bool_decide (is_Some (r_ActorID r))).

(** * Subscriptions (repo/subscriptions.go, repo/expire.go, repo/quota_roll.go) *)

Definition find_sub (id : uuid) (l : list sub_row) : option sub_row := List.find (λ r, (s_ID r =? id)%N) l.

Definition SubscriptionByID (id : uuid) : SM (option sub_row) := gets (λ s, find_sub id (subs s)).

(** [UpdateSubscription]: guarded by the old status; [amount] is given when the
    columns include the snapshot amount.  The unique columns are not touched. *)
Definition UpdateSubscription (W : Env) (id : uuid) (fromStatus : string) (amount : option dec)
    (cols : sub_row → sub_row) : SM bool := λ s,
  match match amount with Some d => Check d | None => Ok () end with
  | Err _ => (Err ErrMoney, s)
  | Ok _ =>
      let hit r := (s_ID r =? id)%N && String.eqb (s_Status r) fromStatus in
      let rows := List.filter hit (subs s) in
      match check_all (write_sub W) (map cols rows) with
      | Err e => (Err e, s)
      | Ok _ => (Ok (Nat.eqb (length rows) 1), set_subs (update_where hit cols) s)
      end
  end.

(** [CreateSubscription]: [proxy] is what [gen_random_uuid()] drew. *)
Definition CreateSubscription (W : Env) (proxy : uuid) (mk : uuid → Z → sub_row) : SM sub_row := λ s,
  let r := mk (next_id s) (next_uid s) in
  match Check (s_Amount r) with
  | Err _ => (Err ErrMoney, s)
  | Ok _ =>
      match write_sub W r with
      | Err e => (Err e, s)
      | Ok _ =>
          if existsb (λ x, (s_ProxyUUID x =? proxy)%N ||
                           match s_SourceOrderID r with
                           | Some o => bool_decide (s_SourceOrderID x = Some o) | None => false end) (subs s)
          then (Err (ErrRepo DBUnique), s)
          else (Ok r, bump_uid (bump_id (set_subs (λ l, l ++ [r])%list s)))
      end
  end.

Definition label_taken (W : Env) (id user : uuid) (label : string) (l : list sub_row) : bool :=
  existsb (λ r, negb (s_ID r =? id)%N && (s_UserID r =? user)%N &&
                match s_Label r with
                | Some x => String.eqb (pg_lower W x) (pg_lower W label) | None => false end) l.

(** [SetLabel]: a name taken by another subscription of the user rolls back to
    the savepoint and reports [false]. *)
Definition SetLabel (W : Env) (id user : uuid) (label : option string) : SM bool := λ s,
  let hit r := (s_ID r =? id)%N && (s_UserID r =? user)%N in
  if negb (existsb hit (subs s)) then (Ok false, s)
  else match label with
       | None => (Ok true, set_subs (update_where hit (set_label None)) s)
       | Some l =>
           if negb (pg_label_ok W l) then (Err (ErrRepo DBCheck), s)
           else if label_taken W id user l (subs s) then (Ok false, s)
           else (Ok true, set_subs (update_where hit (set_label (Some l))) s)
       end.

Definition SubscriptionsByUsers (users : list uuid) : SM (list sub_row) :=
  gets (λ s, List.filter (λ r, mem (s_UserID r) users) (subs s)).

(** [ORDER BY current_period_end, id]. *)
Definition due_le (a b : sub_row) : Prop :=
  s_PeriodEnd a < s_PeriodEnd b ∨ s_PeriodEnd a = s_PeriodEnd b ∧ (s_ID a ≤ s_ID b)%N.
#[global] Instance due_le_dec : RelDecision due_le.
Proof. intros a b. unfold due_le. apply _. Defined.

(** [LIMIT n … SKIP LOCKED]: [locked] are the rows other transactions hold. *)
Definition select_due (p : sub_row → bool) (locked : uuid → bool) (limit : nat) (l : list sub_row) : list sub_row :=
  take limit (List.filter (λ r, negb (locked (s_ID r))) (merge_sort due_le (List.filter p l))).

Definition expiry_due (now : Time) (r : sub_row) : bool :=
  String.eqb (s_Status r) StatusActive && (s_PeriodEnd r <=? now).
Definition LockDueExpiries (locked : uuid → bool) (now : Time) (limit : nat) : SM (list sub_row) :=
  gets (λ s, select_due (expiry_due now) locked limit (subs s)).

Definition close_due (cutoff : Time) (r : sub_row) : bool :=
  String.eqb (s_Status r) StatusExpired && bool_decide (s_RenewalClosedAt r = None) && (s_PeriodEnd r <=? cutoff).
Definition LockDueRenewalCloses (locked : uuid → bool) (cutoff : Time) (limit : nat) : SM (list sub_row) :=
  gets (λ s, select_due (close_due cutoff) locked limit (subs s)).

(** An [UPDATE … RETURNING id] on the rows that satisfy [p]. *)
Definition update_returning (W : Env) (p : sub_row → bool) (f : sub_row → sub_row) : SM (list uuid) := λ s,
  let rows := List.filter p (subs s) in
  match check_all (write_sub W) (map f rows) with
  | Err e => (Err e, s)
  | Ok _ => (Ok (map s_ID rows), set_subs (update_where p f) s)
  end.

Definition TransitionStatus (W : Env) (ids : list uuid) (from to : string) : SM (list uuid) :=
  update_returning W (λ r, mem (s_ID r) ids && String.eqb (s_Status r) from) (set_status to).

Definition CloseRenewalWindows (W : Env) (ids : list uuid) (at_ : Time) : SM (list uuid) :=
  update_returning W (λ r, mem (s_ID r) ids && String.eqb (s_Status r) StatusExpired &&
                           bool_decide (s_RenewalClosedAt r = None)) (set_closed (Some at_)).

Definition RevokeCredentialsOnClose (ids : list uuid) (at_ : Time) (reason : string) : SM (list cred_row) := λ s,
  let hit c := mem (c_SubscriptionID c) ids && String.eqb (c_Status c) "active" in
  (Ok (List.filter hit (creds s)),
   set_creds (update_where hit (λ c,
     mkCred (c_ID c) (c_SubscriptionID c) (c_UserID c) (c_TokenHash c) (c_TokenPrefix c) (c_TokenEncrypted c)
       "revoked" (Some at_) (Some reason) (c_GraceUntil c) (c_RotatedCount c))) s).

(** * Quotas (repo/quotas.go) *)

Definition QuotasBySubscriptions (ids : list uuid) : SM (list quota_row) :=
  gets (λ s, List.filter (λ q, mem (q_SubscriptionID q) ids) (quotas s)).

Definition DeleteQuotas (ids : list uuid) : SM () :=
  modify (set_quotas (List.filter (λ q, negb (mem (q_ID q) ids)))).

Definition same_key (a b : quota_row) : bool :=
  (q_SubscriptionID a =? q_SubscriptionID b)%N && String.eqb (q_Metric a) (q_Metric b) &&
  String.eqb (q_Period a) (q_Period b).

Definition with_id (id : uuid) (q : quota_row) : quota_row :=
  mkQuotaRow id (q_SubscriptionID q) (q_Metric q) (q_Period q) (q_PeriodStart q) (q_PeriodEnd q)
    (q_LimitValue q) (q_BonusValue q) (q_Consumed q).

Definition insert_quota (q0 : quota_row) : SM () := λ s,
  let q := with_id (next_id s) q0 in
  match write_quota q with
  | Err e => (Err e, s)
  | Ok _ =>
      if existsb (same_key q) (quotas s) then (Err (ErrRepo DBUnique), s)
      else if negb (existsb (λ r, (s_ID r =? q_SubscriptionID q)%N) (subs s)) then (Err (ErrRepo DBForeignKey), s)
      else (Ok (), bump_id (set_quotas (λ l, l ++ [q])%list s))
  end.

Fixpoint InsertQuotas (rows : list quota_row) : SM () :=
  match rows with
  | [] => mret ()
  | q :: rows' => _ ← insert_quota q; InsertQuotas rows'
  end.

Definition find_quota (id : uuid) (l : list quota_row) : option quota_row := List.find (λ q, (q_ID q =? id)%N) l.

(** A missing row is an error that names no constraint. *)
Definition UpdateQuota (id : uuid) (cols : quota_row → quota_row) : SM () := λ s,
  match find_quota id (quotas s) with
  | None => (Err (ErrRepo DBOther), s)
  | Some q =>
      match write_quota (cols q) with
      | Err e => (Err e, s)
      | Ok _ => (Ok (), set_quotas (update_where (λ r, (q_ID r =? id)%N) cols) s)
      end
  end.

(** The columns the writers assign. *)
Definition set_qlimit (l : option Z) (q : quota_row) : quota_row :=
  mkQuotaRow (q_ID q) (q_SubscriptionID q) (q_Metric q) (q_Period q) (q_PeriodStart q) (q_PeriodEnd q)
    l (q_BonusValue q) (q_Consumed q).
Definition set_qconsumed (c : Z) (q : quota_row) : quota_row :=
  mkQuotaRow (q_ID q) (q_SubscriptionID q) (q_Metric q) (q_Period q) (q_PeriodStart q) (q_PeriodEnd q)
    (q_LimitValue q) (q_BonusValue q) c.
Definition set_qbonus (b : Z) (q : quota_row) : quota_row :=
  mkQuotaRow (q_ID q) (q_SubscriptionID q) (q_Metric q) (q_Period q) (q_PeriodStart q) (q_PeriodEnd q)
    (q_LimitValue q) b (q_Consumed q).
Definition set_qperiod (start : Time) (e : option Time) (q : quota_row) : quota_row :=
  mkQuotaRow (q_ID q) (q_SubscriptionID q) (q_Metric q) (q_Period q) start e
    (q_LimitValue q) (q_BonusValue q) (q_Consumed q).
Definition set_qend (e : option Time) (q : quota_row) : quota_row := set_qperiod (q_PeriodStart q) e q.

(** The statements' saturating addition. *)
Definition pg_sat_add (a b : Z) : Z := if MaxInt64 - b <? a then MaxInt64 else a + b.

Definition AddQuotaBonus (id : uuid) (bytes : Z) : SM Z := λ s,
  match find_quota id (quotas s) with
  | None => (Err (ErrRepo DBOther), s)
  | Some q =>
      let b := pg_sat_add (q_BonusValue q) bytes in
      match UpdateQuota id (λ q, set_qbonus (pg_sat_add (q_BonusValue q) bytes) q) s with
      | (Ok _, s') => (Ok b, s')
      | (Err e, s') => (Err e, s')
      end
  end.

(** * Logs and credentials *)

Definition InsertEvent (W : Env) (e : event_row) : SM () := λ s,
  if negb (event_check e) then (Err (ErrRepo DBCheck), s)
  else if negb (existsb (λ r, (s_ID r =? ev_SubscriptionID e)%N) (subs s) &&
                mem_opt (ev_ActorID e) (env_users W) && mem_opt (ev_OrderID e) (env_orders W))
       then (Err (ErrRepo DBForeignKey), s)
       else (Ok (), add_event e s).

Definition write_reset (W : Env) (l : list sub_row) (r : reset_row) : result serr () :=
  if negb (is_int64 (r_ConsumedBefore r)) then Err (ErrRepo DBOther)
  else if negb (reset_check r) then Err (ErrRepo DBCheck)
  else if negb (existsb (λ x, (s_ID x =? r_SubscriptionID r)%N && (s_UserID x =? r_UserID r)%N) l &&
                mem_opt (r_ActorID r) (env_users W)) then Err (ErrRepo DBForeignKey) else Ok ().

Definition InsertResetLogs (W : Env) (rows : list reset_row) : SM () := λ s,
  match check_all (write_reset W (subs s)) rows with
  | Err e => (Err e, s)
  | Ok _ => (Ok (), add_resets rows s)
  end.

Definition InsertCredential (c0 : uuid → cred_row) : SM () := λ s,
  let c := c0 (next_id s) in
  if negb (Nat.eqb (length (c_TokenHash c)) 32 && between 1 (RuneCountInString (c_TokenPrefix c)) 16)
  then (Err (ErrRepo DBCheck), s)
  else if existsb (λ x, bool_decide (c_TokenHash x = c_TokenHash c) ||
                   ((c_SubscriptionID x =? c_SubscriptionID c)%N && String.eqb (c_Status x) "active")) (creds s)
  then (Err (ErrRepo DBUnique), s)
  else if negb (existsb (λ r, (s_ID r =? c_SubscriptionID c)%N && (s_UserID r =? c_UserID c)%N) (subs s))
       then (Err (ErrRepo DBForeignKey), s)
       else (Ok (), bump_id (set_creds (λ l, l ++ [c])%list s)).

(** * Shared helpers (service/internal.go, service/service.go) *)

(** [notifyRoster]: registered to run after the commit, so a rollback drops it. *)
Definition notifyRoster (ids : list uuid) : SM () :=
  modify (set_roster (λ r, list_to_set (List.filter (λ i, negb (i =? uuid_Nil)%N) ids) ∪ r)).

Definition writeEvent (W : Env) (subID : uuid) (typ : string) (from : option string) (to : string) (actor : Actor)
    (orderID : option uuid) (payload : list (string * pval)) : SM () :=
  map_err subErr (InsertEvent W (mkEvent subID typ from to (act_Kind actor) (act_ID actor) orderID payload)).

Definition writeAudit (action : string) (subID : uuid) : SM () := modify (add_audit (action, subID)).

Definition loadSub (id : uuid) (owner : option uuid) : SM sub_row :=
  if (id =? uuid_Nil)%N then fail ErrNotFound
  else
    m ← map_err subErr (SubscriptionByID id);
    match m with
    | None => fail ErrNotFound
    | Some m => if match owner with Some o => negb (s_UserID m =? o)%N | None => false end
                then fail ErrNotFound else mret m
    end.
Definition lockOwned := loadSub.

Definition versionFor (W : Env) (planID versionID : uuid) : result serr Version :=
  vs ← VersionsByIDs W [versionID];
  match vs !! versionID with
  | None => Err ErrVersionUnavailable
  | Some v => if negb (v_PlanID v =? planID)%N || negb (String.eqb (v_Status v) VersionPublished)
              then Err ErrVersionUnavailable else Ok v
  end.

Definition planOf (W : Env) (planID : uuid) : result serr Plan :=
  plans ← PlansByIDs W [planID];
  match plans !! planID with None => Err ErrVersionUnavailable | Some p => Ok p end.

Definition transition (W : Env) (sub : sub_row) (to : string) (amount : option dec) (cols : sub_row → sub_row) : SM () :=
  if negb (CanTransition (s_Status sub) to) then fail ErrInternal
  else
    ok ← map_err subErr (UpdateSubscription W (s_ID sub) (s_Status sub) amount (λ r, set_status to (cols r)));
    if ok : bool then mret () else fail ErrStateChanged.

Definition reset_of (sub : sub_row) (reason : string) (actorID : option uuid) (note : string) (q : quota_row) : reset_row :=
  mkReset (s_ID sub) (s_UserID sub) (q_Metric q) reason (q_Consumed q) 0 actorID
    (if String.eqb note "" then None else Some note).

Definition logResets (W : Env) (sub : sub_row) (before : list quota_row) (reason : string) (actorID : option uuid)
    (note : string) : SM () :=
  match before with
  | [] => mret ()
  | _ => map_err subErr (InsertResetLogs W (map (reset_of sub reason actorID note) before))
  end.

(** [issueCredential]: [b] are the random bytes; the sealer's failure and its
    absence are internal errors. *)
Definition CredentialAAD (subID : uuid) : list Z := bytes_of ("sub-credential:" ++ uuid_String subID).

Definition issueCredential (W : Env) (sub : sub_row) (b : list Z) : SM () :=
  match Seal W with
  | None => fail ErrInternal
  | Some seal =>
      let token := b64url b in
      let sum := Sum256 W (bytes_of token) in
      match seal (bytes_of token) (CredentialAAD (s_ID sub)) with
      | None => fail ErrInternal
      | Some sealed =>
          map_err subErr (InsertCredential (λ id,
            mkCred id (s_ID sub) (s_UserID sub) sum (String.substring 0 8 token) sealed "active" None None None 0))
      end
  end.

(** [rebuildQuotas] (plan_change.go): rows of the version are rewritten, rows it
    does not define are deleted, rows it adds are inserted. *)
Definition fresh_cols (start cycleEnd : Time) (def : QuotaDef) (q : quota_row) : quota_row :=
  set_qperiod start (QuotaPeriodEnd (q_Period q) start cycleEnd)
    (set_qbonus 0 (set_qconsumed 0 (set_qlimit (qd_Limit def) q))).

Fixpoint rebuild_loop (v : Version) (start cycleEnd : Time) (rows : list quota_row)
    (have : list (string * string)) (stale : list uuid) : SM (list (string * string) * list uuid) :=
  match rows with
  | [] => mret (have, stale)
  | q :: rows' =>
      match quotaDef v (q_Metric q) (q_Period q) with
      | None => rebuild_loop v start cycleEnd rows' have (stale ++ [q_ID q])%list
      | Some def =>
          _ ← map_err subErr (UpdateQuota (q_ID q) (fresh_cols start cycleEnd def));
          rebuild_loop v start cycleEnd rows' ((q_Metric q, q_Period q) :: have) stale
      end
  end.

Definition has_key (have : list (string * string)) (q : quota_row) : bool :=
  existsb (λ k, String.eqb k.1 (q_Metric q) && String.eqb k.2 (q_Period q)) have.

Definition rebuildQuotas (W : Env) (m : sub_row) (v : Version) (start cycleEnd : Time) : SM (list quota_row) :=
  rows ← map_err subErr (QuotasBySubscriptions [s_ID m]);
  hs ← rebuild_loop v start cycleEnd rows [] [];
  _ ← map_err subErr (DeleteQuotas hs.2);
  _ ← map_err subErr (InsertQuotas
        (List.filter (λ q, negb (has_key hs.1 q)) (quotaRows (s_ID m) (v_Quotas v) start cycleEnd)));
  mret rows.

End Store.
