(* ===== verification/SubFacts.v ===== *)
(** The invariant of the subscription tables, what may change over time, and
    that every statement and helper keeps both ([safe]). *)
From Stdlib Require Import ZArith Lia.
From stdpp Require Import base tactics list gmap strings sorting.
From S2P Require Import Prelude Decimal GoString Money GoTime Period SubTypes SubStore.
#[local] Open Scope string_scope.
#[local] Open Scope Z_scope.

(** * Lists as tables *)

Lemma update_where_id {A B} (g : A → B) p (f : A → A) l :
  (∀ x, g (f x) = g x) → map g (update_where p f l) = map g l.
Proof.
  intros H. unfold update_where. rewrite map_map. apply map_ext. intros x. by destruct (p x).
Qed.

Lemma update_where_lookup {A} p (f : A → A) l i :
  update_where p f l !! i = (λ r, if p r then f r else r) <$> l !! i.
Proof. unfold update_where. apply list_lookup_fmap. Qed.

Lemma elem_of_update_where {A} p (f : A → A) l x :
  x ∈ update_where p f l ↔ ∃ y, y ∈ l ∧ x = if p y then f y else y.
Proof. unfold update_where. rewrite list_elem_of_fmap. naive_solver. Qed.

Lemma check_all_ok {A E} (f : A → result E ()) l u :
  check_all f l = Ok u ↔ Forall (λ x, f x = Ok ()) l.
Proof.
  destruct u. induction l as [|x l IH]; simpl; [naive_solver|].
  rewrite Forall_cons. destruct (f x) as [[]|e]; naive_solver.
Qed.

Lemma Forall_update_where {A} (P : A → Prop) p f l :
  Forall P l → Forall P (map f (List.filter p l)) → Forall P (update_where p f l).
Proof.
  induction l as [|x l IH]; simpl; intros H1 H2; [done|].
  apply Forall_cons in H1 as [Hx H1]. unfold update_where in *. simpl in *.
  destruct (p x); simpl in *; [apply Forall_cons in H2 as [? ?]|]; constructor; auto.
Qed.

Lemma mem_spec id ids : mem id ids = true ↔ id ∈ ids.
Proof.
  unfold mem. rewrite existsb_exists. setoid_rewrite N.eqb_eq. rewrite list_elem_of_In. naive_solver.
Qed.
Lemma mem_false id ids : mem id ids = false ↔ id ∉ ids.
Proof. rewrite <- mem_spec. destruct (mem id ids); naive_solver. Qed.




Section Facts.
Context `{DL : DecimalLib}.
Abbreviation SM := (M store serr).

Definition quota_key (q : quota_row) : uuid * string * string := (q_SubscriptionID q, q_Metric q, q_Period q).

Lemma same_key_spec a b : same_key a b = true ↔ quota_key a = quota_key b.
Proof.
  unfold same_key, quota_key. rewrite !andb_true_iff, N.eqb_eq, !String.eqb_eq.
  split; [intros [[-> ->] ->]; done|]. intros H. injection H. auto.
Qed.

(** The subscriptions of the active credentials. *)
Definition active_of (c : cred_row) : option uuid :=
  if String.eqb (c_Status c) "active" then Some (c_SubscriptionID c) else None.

(** * The invariant *)

Record store_ok (W : Env) (s : store) : Prop := {
  so_ids : NoDup (map s_ID (subs s));
  so_fresh : Forall (λ r, (0 < s_ID r)%N ∧ (s_ID r < next_id s)%N) (subs s);
  so_uids : NoDup (map s_NodeUID (subs s));
  so_ufresh : Forall (λ r, s_NodeUID r < next_uid s) (subs s);
  so_rows : Forall (λ r, write_sub W r = Ok ()) (subs s);
  so_qids : NoDup (map q_ID (quotas s));
  so_qfresh : Forall (λ q, (q_ID q < next_id s)%N) (quotas s);
  so_qkeys : NoDup (map quota_key (quotas s));
  so_qrows : Forall (λ q, write_quota q = Ok ()) (quotas s);
  so_qsub : Forall (λ q, q_SubscriptionID q ∈ map s_ID (subs s)) (quotas s);
  so_creds : NoDup (omap active_of (creds s));
  so_next : (0 < next_id s)%N;
}.

(** * What may change *)

(** A row keeps its identity, its owner and its node number; once its renewal
    window is closed it also keeps its plan, its period and its end. *)
Record row_evolves (r r' : sub_row) : Prop := {
  re_id : s_ID r' = s_ID r;
  re_user : s_UserID r' = s_UserID r;
  re_uid : s_NodeUID r' = s_NodeUID r;
  re_closed : ∀ t, s_RenewalClosedAt r = Some t →
    s_RenewalClosedAt r' = Some t ∧ s_Status r' = s_Status r ∧ s_PeriodStart r' = s_PeriodStart r ∧
    s_PeriodEnd r' = s_PeriodEnd r ∧ s_PlanID r' = s_PlanID r ∧ s_PlanVersionID r' = s_PlanVersionID r;
}.

(** Rows are never deleted, the logs only grow. *)
Record evolves (s s' : store) : Prop := {
  ev_rows : ∀ i r, subs s !! i = Some r → ∃ r', subs s' !! i = Some r' ∧ row_evolves r r';
  ev_events : events s `prefix_of` events s';
  ev_resets : resets s `prefix_of` resets s';
  ev_audits : audits s `prefix_of` audits s';
}.

Lemma row_evolves_refl r : row_evolves r r.
Proof. split; naive_solver. Qed.
Lemma row_evolves_trans a b c : row_evolves a b → row_evolves b c → row_evolves a c.
Proof.
  intros [A1 A2 A3 A4] [B1 B2 B3 B4]. split; [congruence..|].
  intros t Ht. destruct (A4 t Ht) as (H & ? & ? & ? & ? & ?). destruct (B4 t H) as (? & ? & ? & ? & ? & ?).
  split_and!; congruence.
Qed.

#[global] Instance evolves_preorder : PreOrder evolves.
Proof.
  split.
  - intros s. split; [|done..]. intros i r H. exists r. split; [done|]. apply row_evolves_refl.
  - intros a b c [A1 A2 A3 A4] [B1 B2 B3 B4]. split; [|by etrans..].
    intros i r H. destruct (A1 i r H) as (r1 & H1 & ?). destruct (B1 i r1 H1) as (r2 & ? & ?).
    exists r2. split; [done|]. by eapply row_evolves_trans.
Qed.

Lemma evolves_logs s s' :
  subs s' = subs s → events s `prefix_of` events s' → resets s `prefix_of` resets s' →
  audits s `prefix_of` audits s' → evolves s s'.
Proof. intros H ? ? ?. split; [|done..]. intros i r Hr. exists r. rewrite H. split; [done|apply row_evolves_refl]. Qed.

(** A step keeps the invariant and only evolves the tables, failed or not. *)
Definition safe {A} (W : Env) (m : SM A) : Prop :=
  ∀ s r s', store_ok W s → m s = (r, s') → store_ok W s' ∧ evolves s s'.

Lemma same_state W s : store_ok W s → store_ok W s ∧ evolves s s.
Proof. done. Qed.

Lemma safe_pure {A} W (f : store → result serr A) : safe W (λ s, (f s, s)).
Proof. intros s r s' Hs H. injection H as _ <-. by apply same_state. Qed.
Lemma safe_ret {A} W (a : A) : safe W (mret a : SM A).
Proof. exact (safe_pure W (λ _, Ok a)). Qed.
Lemma safe_fail {A} W e : safe W (fail e : SM A).
Proof. exact (safe_pure W (λ _, Err e)). Qed.
Lemma safe_lift {A} W (x : result serr A) : safe W (lift x).
Proof. exact (safe_pure W (λ _, x)). Qed.
Lemma safe_gets {A} W (f : store → A) : safe W (gets f).
Proof. exact (safe_pure W (λ s, Ok (f s))). Qed.
Lemma safe_bind {A B} W (m : SM A) (f : A → SM B) :
  safe W m → (∀ a, safe W (f a)) → safe W (m ≫= f).
Proof.
  intros Hm Hf s r s' Hs H. unfold mbind, M_bind in H. destruct (m s) as [[a|e] s1] eqn:E.
  - destruct (Hm _ _ _ Hs E) as [Hs1 He]. destruct (Hf a _ _ _ Hs1 H) as [Hs2 He2].
    split; [done|]. by etrans.
  - simplify_eq. by eapply Hm.
Qed.
Lemma safe_map_err {A} W f (m : SM A) : safe W m → safe W (map_err f m).
Proof.
  intros Hm s r s' Hs H. unfold map_err in H. destruct (m s) as [[a|e] s1] eqn:E; simplify_eq; by eapply Hm.
Qed.
Lemma safe_tx {A} W b (m : SM A) : safe W m → safe W (tx b m).
Proof.
  intros Hm s r s' Hs H. unfold tx, Do in H. destruct b; [by eapply Hm|].
  destruct (m s) as [[a|e] s1] eqn:E; simpl in H; simplify_eq; [by eapply Hm|by split].
Qed.
Lemma safe_if {A} W (b : bool) (m1 m2 : SM A) : safe W m1 → safe W m2 → safe W (if b then m1 else m2).
Proof. by destruct b. Qed.

(** * The statements *)

Lemma write_sub_check W r u : write_sub W r = Ok u → sub_check r = true.
Proof. unfold write_sub. destruct (negb (amount_fits _)); [done|]. by destruct (sub_check r). Qed.

Lemma row_ok W s r : store_ok W s → r ∈ subs s → write_sub W r = Ok ().
Proof. intros Hs. apply (proj1 (Forall_forall _ _) (so_rows _ _ Hs)). Qed.
Lemma row_check W s r : store_ok W s → r ∈ subs s → sub_check r = true.
Proof. intros Hs Hr. by eapply write_sub_check, row_ok. Qed.

Lemma sub_check_closed r t :
  sub_check r = true → s_RenewalClosedAt r = Some t → s_Status r = StatusExpired.
Proof. unfold sub_check. intros H E. rewrite E in H. reflect_bools. by apply String.eqb_eq. Qed.

Lemma sub_check_period r : sub_check r = true → s_PeriodStart r < s_PeriodEnd r.
Proof. unfold sub_check. intros H. reflect_bools. lia. Qed.

Lemma sub_check_status r : sub_check r = true → s_Status r = StatusActive ∨ s_Status r = StatusExpired.
Proof. unfold sub_check. intros H. reflect_bools. set_solver. Qed.

(** The part of a row the writers leave alone. *)
Definition keeps_row (f : sub_row → sub_row) : Prop :=
  ∀ r, s_ID (f r) = s_ID r ∧ s_UserID (f r) = s_UserID r ∧ s_NodeUID (f r) = s_NodeUID r.

Lemma update_subs_ok W s (p : sub_row → bool) f :
  store_ok W s → keeps_row f → Forall (λ r, write_sub W r = Ok ()) (map f (List.filter p (subs s))) →
  (∀ r t, r ∈ subs s → p r = true → s_RenewalClosedAt r = Some t → row_evolves r (f r)) →
  store_ok W (set_subs (update_where p f) s) ∧ evolves s (set_subs (update_where p f) s).
Proof.
  intros [] Hk Hw Hc.
  assert (Hid : map s_ID (update_where p f (subs s)) = map s_ID (subs s)) by (apply update_where_id, Hk).
  split.
  - split; simpl; try done.
    + by rewrite Hid.
    + apply Forall_update_where; [done|]. apply Forall_forall. intros x [y [-> Hy]]%list_elem_of_fmap.
      apply elem_of_filter_bool in Hy as [_ Hy]. destruct (Hk y) as (-> & _). by eapply Forall_forall in so_fresh0.
    + rewrite (update_where_id s_NodeUID) by apply Hk. done.
    + apply Forall_update_where; [done|]. apply Forall_forall. intros x [y [-> Hy]]%list_elem_of_fmap.
      apply elem_of_filter_bool in Hy as [_ Hy]. destruct (Hk y) as (_ & _ & ->). by eapply Forall_forall in so_ufresh0.
    + by apply Forall_update_where.
    + by rewrite Hid.
  - split; simpl; try done. intros i r Hr. rewrite update_where_lookup, Hr. simpl. eexists. split; [done|].
    destruct (p r) eqn:Hp; [|apply row_evolves_refl]. destruct (s_RenewalClosedAt r) as [t|] eqn:Ht.
    + eapply Hc; [|done..]. by eapply list_elem_of_lookup_2.
    + destruct (Hk r) as (? & ? & ?). split; [done..|]. by rewrite Ht.
Qed.

Lemma UpdateSubscription_safe W id from amount cols :
  keeps_row cols →
  (∀ r t, s_Status r = from → s_RenewalClosedAt r = Some t → sub_check r = true → sub_check (cols r) = true →
     row_evolves r (cols r)) →
  safe W (UpdateSubscription W id from amount cols).
Proof.
  intros Hk Hc s r s' Hs H. unfold UpdateSubscription in H.
  destruct (match amount with Some d => Check d | None => Ok () end); [|simplify_eq; by apply same_state].
  destruct (check_all _ _) as [u|e] eqn:E; simplify_eq; [|by apply same_state].
  apply check_all_ok in E. apply update_subs_ok; [done..|].
  intros x t Hx Hp Ht.
  assert (Hin : write_sub W (cols x) = Ok ()).
  { eapply Forall_forall in E; [done|]. by apply list_elem_of_fmap_2, elem_of_filter_bool. }
  apply write_sub_check in Hin. apply (Hc x t); [|done| |done].
  - apply andb_true_iff in Hp as [_ Hp]. by apply String.eqb_eq.
  - by eapply row_check.
Qed.

Lemma update_returning_safe W p f :
  keeps_row f → (∀ r t, p r = true → s_RenewalClosedAt r = Some t → sub_check r = true → False) →
  safe W (update_returning W p f).
Proof.
  intros Hk Hc s r s' Hs H. unfold update_returning in H.
  destruct (check_all _ _) as [u|e] eqn:E; simplify_eq; [|by apply same_state].
  apply check_all_ok in E. apply update_subs_ok; [done..|]. intros x t Hx Hp Ht. exfalso.
  apply (Hc x t); [done..|]. by eapply row_check.
Qed.

Lemma TransitionStatus_safe W ids to : safe W (TransitionStatus W ids StatusActive to).
Proof.
  apply update_returning_safe; [done|]. intros r t H Ht Hc.
  apply (sub_check_closed _ _ Hc) in Ht. apply andb_true_iff in H as [_ H]. by rewrite Ht in H.
Qed.

Lemma CloseRenewalWindows_safe W ids at_ : safe W (CloseRenewalWindows W ids at_).
Proof. apply update_returning_safe; [done|]. intros r t H Ht Hc. reflect_bools. congruence. Qed.

Lemma SetLabel_safe W id user label : safe W (SetLabel W id user label).
Proof.
  assert (Hu : ∀ (s : store) l, store_ok W s →
    let s' := set_subs (update_where (λ r, (s_ID r =? id)%N && (s_UserID r =? user)%N) (set_label l)) s in
    store_ok W s' ∧ evolves s s').
  { intros s l Hs. apply update_subs_ok; [done|done| |].
    - apply Forall_forall. intros x [y [-> Hy]]%list_elem_of_fmap. apply elem_of_filter_bool in Hy as [_ Hy].
      exact (row_ok W s y Hs Hy).
    - intros r t _ _ Ht. by split. }
  intros s r s' Hs H. unfold SetLabel in H. destruct (negb _); [simplify_eq; by apply same_state|].
  destruct label as [l|]; [|simplify_eq; by apply Hu].
  destruct (negb _); [simplify_eq; by apply same_state|]. destruct (label_taken _ _ _ _ _); simplify_eq; [by apply same_state|by apply Hu].
Qed.
Lemma CreateSubscription_safe W proxy mk :
  (∀ id uid, s_ID (mk id uid) = id ∧ s_NodeUID (mk id uid) = uid) → safe W (CreateSubscription W proxy mk).
Proof.
  intros Hmk s r s' Hs H. unfold CreateSubscription in H. set (x := mk (next_id s) (next_uid s)) in *.
  destruct (Check _); [|simplify_eq; by apply same_state].
  destruct (write_sub W x) as [[]|] eqn:Hw; [|simplify_eq; by apply same_state].
  destruct (existsb _ _); simplify_eq; [by apply same_state|].
  destruct (Hmk (next_id s) (next_uid s)) as [Hi Hu]. fold x in Hi, Hu. destruct Hs. split.
  - split; simpl; rewrite ?map_app; simpl; rewrite ?Hi, ?Hu; try done.
    + apply NoDup_app. split_and!; [done| |apply NoDup_singleton]. intros i [y [-> Hy]]%list_elem_of_fmap.
      eapply Forall_forall in so_fresh0 as [_ ?]; [|done]. rewrite list_elem_of_singleton. lia.
    + apply Forall_app. split; [eapply Forall_impl; [exact so_fresh0|]; simpl; intros; lia|]. constructor; [rewrite ?Hi, ?Hu; lia|done].
    + apply NoDup_app. split_and!; [done| |apply NoDup_singleton]. intros i [y [-> Hy]]%list_elem_of_fmap.
      eapply Forall_forall in so_ufresh0; [|done]. simpl in *. rewrite list_elem_of_singleton. lia.
    + apply Forall_app. split; [eapply Forall_impl; [exact so_ufresh0|]; simpl; intros; lia|]. constructor; [rewrite ?Hi, ?Hu; lia|done].
    + apply Forall_app. split; [done|]. by constructor.
    + eapply Forall_impl; [exact so_qfresh0|]. simpl. intros. lia.
    + eapply Forall_impl; [exact so_qsub0|]. simpl. intros. apply elem_of_app. by left.
    + lia.
  - split; simpl; try done. intros i y Hy. exists y. split; [by apply lookup_app_l_Some|apply row_evolves_refl].
Qed.

Lemma omap_update_None {A B} (g : A → option B) p f l :
  (∀ x, p x = true → g (f x) = None) → sublist (omap g (update_where p f l)) (omap g l).
Proof.
  intros H. induction l as [|x l IH]; simpl; [done|]. unfold update_where in *. simpl.
  destruct (p x) eqn:Hp.
  - rewrite (H _ Hp). destruct (g x); [by apply sublist_cons|done].
  - destruct (g x); [by apply sublist_skip|done].
Qed.

Lemma RevokeCredentialsOnClose_safe W ids at_ reason : safe W (RevokeCredentialsOnClose ids at_ reason).
Proof.
  intros s r s' Hs H. unfold RevokeCredentialsOnClose in H. simplify_eq. destruct Hs. split; [|by apply evolves_logs].
  split; simpl; try done. eapply sublist_NoDup; [exact so_creds0|]. by apply omap_update_None.
Qed.

(** ** Quotas *)

Lemma quota_row_ok W s q : store_ok W s → q ∈ quotas s → write_quota q = Ok ().
Proof. intros Hs. apply (proj1 (Forall_forall _ _) (so_qrows _ _ Hs)). Qed.

Lemma quota_ok_facts q :
  write_quota q = Ok () →
  0 ≤ q_Consumed q ∧ 0 ≤ q_BonusValue q ∧ (∀ e, q_PeriodEnd q = Some e → q_PeriodStart q < e) ∧
  (∀ r, q_Remaining q = Some r → in64 r).
Proof.
  unfold write_quota. destruct (quota_range q) eqn:Hr; [|done]. destruct (quota_check q) eqn:Hc; [|done]. intros _.
  unfold quota_range, quota_check, q_Remaining in *. reflect_bools. split_and!; [lia|lia| |].
  - intros e E. rewrite E in *. lia.
  - intros r E. destruct (q_LimitValue q); [|done]. simpl in E. injection E as <-. reflect_bools. by apply is_int64_spec.
Qed.

Lemma Forall_filter {A} (P : A → Prop) p l : Forall P l → Forall P (List.filter p l).
Proof. rewrite !Forall_forall. intros H x [_ Hx]%elem_of_filter_bool. auto. Qed.

Lemma DeleteQuotas_safe W ids : safe W (DeleteQuotas ids).
Proof.
  intros s r s' Hs H. unfold DeleteQuotas, modify in H. simplify_eq. destruct Hs. split; [|by apply evolves_logs].
  split; simpl; try done; try (by apply Forall_filter).
  - eapply sublist_NoDup; [exact so_qids0|apply (fmap_sublist _), filter_sublist].
  - eapply sublist_NoDup; [exact so_qkeys0|apply (fmap_sublist _), filter_sublist].
Qed.

Lemma insert_quota_safe W q0 : safe W (insert_quota q0).
Proof.
  intros s r s' Hs H. unfold insert_quota in H. set (q := with_id (next_id s) q0) in *.
  destruct (write_quota q) as [[]|] eqn:Hw; [|simplify_eq; by apply same_state].
  destruct (existsb _ _) eqn:Hk; [simplify_eq; by apply same_state|].
  destruct (negb _) eqn:Hf; simplify_eq; [by apply same_state|]. destruct Hs. split; [|by apply evolves_logs].
  apply negb_false_iff, existsb_true in Hf as (x & Hx & Hid). apply N.eqb_eq in Hid.
  split; simpl; rewrite ?map_app; simpl; try done.
  - eapply Forall_impl; [exact so_fresh0|]. simpl. intros. lia.
  - apply NoDup_app. split_and!; [done| |apply NoDup_singleton]. intros i [y [-> Hy]]%list_elem_of_fmap.
    eapply Forall_forall in so_qfresh0; [|done]. simpl in *. rewrite list_elem_of_singleton. lia.
  - apply Forall_app. split; [eapply Forall_impl; [exact so_qfresh0|]; simpl; intros; lia|]. constructor; [simpl; lia|done].
  - apply NoDup_app. split_and!; [done| |apply NoDup_singleton]. intros i [y [-> Hy]]%list_elem_of_fmap.
    rewrite list_elem_of_singleton. intros E. rewrite existsb_false in Hk. specialize (Hk y Hy).
    by rewrite (proj2 (same_key_spec q y) (eq_sym E)) in Hk.
  - apply Forall_app. split; [done|]. by constructor.
  - apply Forall_app. split; [done|]. constructor; [|done]. apply list_elem_of_fmap. by exists x.
  - lia.
Qed.

Lemma InsertQuotas_safe W rows : safe W (InsertQuotas rows).
Proof.
  induction rows as [|q rows IH]; [apply safe_ret|]. apply safe_bind; [apply insert_quota_safe|by intros].
Qed.

Definition keeps_quota (f : quota_row → quota_row) : Prop :=
  ∀ q, q_ID (f q) = q_ID q ∧ quota_key (f q) = quota_key q.

Lemma find_quota_in id l q : find_quota id l = Some q → q ∈ l ∧ q_ID q = id.
Proof. intros [Hin Hid]%find_some. split; [by apply list_elem_of_In|by apply N.eqb_eq]. Qed.

(** Rewriting rows to rows that pass the checks. *)
Lemma update_quotas_ok W s (p : quota_row → bool) f :
  store_ok W s → keeps_quota f → Forall (λ q, write_quota q = Ok ()) (map f (List.filter p (quotas s))) →
  store_ok W (set_quotas (update_where p f) s) ∧ evolves s (set_quotas (update_where p f) s).
Proof.
  intros [] Hk Hw. split; [|by apply evolves_logs].
  assert (Hin : ∀ P : quota_row → Prop, (∀ q, P q → P (f q)) → Forall P (quotas s) →
             Forall P (update_where p f (quotas s))).
  { intros P HP HF. apply Forall_update_where; [done|]. rewrite Forall_forall. rewrite Forall_forall in HF.
    intros x [y [-> Hy]]%list_elem_of_fmap. apply elem_of_filter_bool in Hy as [_ Hy]. auto. }
  split; simpl; try done.
  - rewrite (update_where_id q_ID); [done|]. intros x. apply Hk.
  - apply Hin; [|done]. intros q. by destruct (Hk q) as [-> _].
  - rewrite (update_where_id quota_key); [done|]. intros x. apply Hk.
  - by apply Forall_update_where.
  - apply Hin; [|done]. intros q. destruct (Hk q) as [_ E]. injection E as -> _ _. done.
Qed.

Lemma UpdateQuota_safe W id cols : keeps_quota cols → safe W (UpdateQuota id cols).
Proof.
  intros Hk s r s' Hs H. unfold UpdateQuota in H.
  destruct (find_quota id (quotas s)) as [q|] eqn:Hf; [|simplify_eq; by apply same_state].
  destruct (write_quota (cols q)) as [[]|] eqn:Hw; simplify_eq; [|by apply same_state].
  apply update_quotas_ok; [done..|]. apply find_quota_in in Hf as [Hq Hid].
  apply Forall_forall. intros x [y [-> Hy]]%list_elem_of_fmap. apply elem_of_filter_bool in Hy as [Ey Hy].
  apply N.eqb_eq in Ey. assert (y = q) as ->; [|done]. eapply NoDup_map_inj; [apply Hs|done..|congruence].
Qed.

Lemma AddQuotaBonus_safe W id bytes : safe W (AddQuotaBonus id bytes).
Proof.
  intros s r s' Hs H. unfold AddQuotaBonus in H.
  destruct (find_quota id (quotas s)) as [q|]; [|simplify_eq; by apply same_state].
  destruct (UpdateQuota _ _ s) as [[u|e] s1] eqn:E; simplify_eq; (eapply UpdateQuota_safe; [|done|done]); done.
Qed.

(** ** Logs, credentials, notifications *)

(** A step that leaves the subscription, quota and credential tables alone. *)
Lemma logs_ok W s s' :
  store_ok W s → subs s' = subs s → quotas s' = quotas s → creds s' = creds s → next_id s' = next_id s →
  next_uid s' = next_uid s → store_ok W s'.
Proof. intros [] E1 E2 E3 E4 E5. split; by rewrite ?E1, ?E2, ?E3, ?E4, ?E5. Qed.

Lemma InsertEvent_safe W e : safe W (InsertEvent W e).
Proof.
  intros s r s' Hs H. unfold InsertEvent in H. repeat (destruct (negb _); [simplify_eq; by apply same_state|]).
  simplify_eq. split; [by eapply logs_ok|]. apply evolves_logs; [done| |done..]. by apply prefix_app_r.
Qed.

Lemma InsertResetLogs_safe W rows : safe W (InsertResetLogs W rows).
Proof.
  intros s r s' Hs H. unfold InsertResetLogs in H. destruct (check_all _ _); simplify_eq; [|by apply same_state].
  split; [by eapply logs_ok|]. apply evolves_logs; [done|done| |done]. by apply prefix_app_r.
Qed.

Lemma InsertCredential_safe W c0 :
  (∀ id, c_Status (c0 id) = "active") → safe W (InsertCredential c0).
Proof.
  intros Ha s r s' Hs H. unfold InsertCredential in H. specialize (Ha (next_id s)).
  set (c := c0 (next_id s)) in *. destruct (negb _); [simplify_eq; by apply same_state|].
  destruct (existsb _ _) eqn:Hx; [simplify_eq; by apply same_state|].
  destruct (negb _); simplify_eq; [by apply same_state|]. destruct Hs. split; [|by apply evolves_logs].
  split; simpl; try done.
  - eapply Forall_impl; [exact so_fresh0|]. simpl. intros. lia.
  - eapply Forall_impl; [exact so_qfresh0|]. simpl. intros. lia.
  - rewrite omap_app. simpl. unfold active_of at 2. rewrite Ha. simpl.
    apply NoDup_app. split_and!; [done| |apply NoDup_singleton].
    intros i (y & Hy & Ey)%list_elem_of_omap. rewrite list_elem_of_singleton. intros ->.
    rewrite existsb_false in Hx. specialize (Hx y Hy). unfold active_of in Ey.
    destruct (String.eqb (c_Status y) "active"); [|done]. injection Ey as E. rewrite E, N.eqb_refl in Hx.
    by rewrite orb_true_r in Hx.
  - lia.
Qed.

Lemma notifyRoster_safe W ids : safe W (notifyRoster ids).
Proof.
  intros s r s' Hs H. unfold notifyRoster, modify in H. simplify_eq.
  split; [by eapply logs_ok|by apply evolves_logs].
Qed.
Lemma writeAudit_safe W a id : safe W (writeAudit a id).
Proof.
  intros s r s' Hs H. unfold writeAudit, modify in H. simplify_eq.
  split; [by eapply logs_ok|]. apply evolves_logs; [done|done|done|]. by apply prefix_app_r.
Qed.
Lemma writeEvent_safe W i t f to a o p : safe W (writeEvent W i t f to a o p).
Proof. apply safe_map_err, InsertEvent_safe. Qed.

(** * The shared helpers *)

Lemma loadSub_safe W id owner : safe W (loadSub id owner).
Proof.
  unfold loadSub. apply safe_if; [apply safe_fail|]. apply safe_bind; [apply safe_map_err, safe_gets|].
  intros [m|]; [|apply safe_fail]. apply safe_if; [apply safe_fail|apply safe_ret].
Qed.

Lemma transition_safe W sub to amount cols :
  (∀ r, s_ID (cols r) = s_ID r ∧ s_UserID (cols r) = s_UserID r ∧ s_NodeUID (cols r) = s_NodeUID r ∧
        s_RenewalClosedAt (cols r) = s_RenewalClosedAt r) →
  safe W (transition W sub to amount cols).
Proof.
  intros Hk. unfold transition. destruct (negb (CanTransition _ _)) eqn:Hc; [apply safe_fail|].
  apply negb_false_iff in Hc.
  apply safe_bind; [|intros []; [apply safe_ret|apply safe_fail]].
  apply safe_map_err, UpdateSubscription_safe.
  - intros r. destruct (Hk r) as (? & ? & ? & ?). by repeat split.
  - intros r t Hst Ht Hr E. exfalso.
    pose proof (sub_check_closed _ t Hr Ht) as He.
    pose proof (sub_check_closed _ t E ltac:(simpl; destruct (Hk r) as (_ & _ & _ & ->); done)) as He2.
    simpl in He2. subst to. rewrite <- Hst, He in Hc. done.
Qed.

Lemma logResets_safe W sub before reason actor note : safe W (logResets W sub before reason actor note).
Proof. unfold logResets. destruct before; [apply safe_ret|]. apply safe_map_err, InsertResetLogs_safe. Qed.

Lemma issueCredential_safe W sub b : safe W (issueCredential W sub b).
Proof.
  unfold issueCredential. destruct (Seal W) as [seal|]; [|apply safe_fail].
  destruct (seal _ _); [|apply safe_fail]. by apply safe_map_err, InsertCredential_safe.
Qed.

Lemma QuotasBySubscriptions_safe W ids : safe W (QuotasBySubscriptions ids).
Proof. apply safe_gets. Qed.

Lemma rebuild_loop_safe W v start cycleEnd rows have stale : safe W (rebuild_loop v start cycleEnd rows have stale).
Proof.
  revert have stale. induction rows as [|q rows IH]; intros have stale; simpl; [apply safe_ret|].
  destruct (quotaDef _ _ _); [|apply IH]. apply safe_bind; [|by intros]. by apply safe_map_err, UpdateQuota_safe.
Qed.

Lemma rebuildQuotas_safe W m v start cycleEnd : safe W (rebuildQuotas W m v start cycleEnd).
Proof.
  apply safe_bind; [apply safe_map_err, safe_gets|intros rows].
  apply safe_bind; [apply rebuild_loop_safe|intros hs].
  apply safe_bind; [apply safe_map_err, DeleteQuotas_safe|intros _].
  apply safe_bind; [apply safe_map_err, InsertQuotas_safe|intros _]. apply safe_ret.
Qed.
End Facts.

(** Walks a step down to its statements. *)
Create HintDb sub_safe discriminated.
#[export] Hint Constants Opaque : sub_safe.
#[export] Hint Resolve safe_ret safe_fail safe_lift safe_gets SetLabel_safe DeleteQuotas_safe InsertQuotas_safe
  AddQuotaBonus_safe InsertEvent_safe InsertResetLogs_safe notifyRoster_safe writeAudit_safe writeEvent_safe
  QuotasBySubscriptions_safe loadSub_safe logResets_safe issueCredential_safe rebuildQuotas_safe TransitionStatus_safe
  CloseRenewalWindows_safe RevokeCredentialsOnClose_safe : sub_safe.

Ltac safe_walk :=
  repeat match goal with
    | |- ∀ _, _ => intro
    | |- safe _ _ => solve [eauto with sub_safe]
    | |- safe _ (tx _ _) => apply safe_tx
    | |- safe _ (map_err _ _) => apply safe_map_err
    | |- safe _ (mbind _ _) => apply safe_bind
    | |- safe _ (gets _) => apply safe_gets
    | |- safe _ (UpdateQuota _ _) => apply UpdateQuota_safe; done
    | |- safe _ (transition _ _ _ _ _) => apply transition_safe; intros; by repeat split_match
    | |- safe _ (let '(_, _) := ?x in _) => destruct x eqn:?
    | |- safe _ (match ?x with _ => _ end) => destruct x eqn:?
    end.
