(* ===== verification/Subscription.v ===== *)
(** The subscription service's writers: provisioning, renewal, extension,
    stacking, plan change, bonus traffic and traffic reset
    (panel/internal/module/subscription/service: provision.go, renew.go,
    extend.go, stack.go, plan_change.go, bonus.go, reset.go, trial.go), and the
    paid orders of the current period (repo/subscriptions.go).  [inTx] tells
    whether the context already carries a transaction; [now] is what the
    service's clock returns, [wall] what [time.Now] returns inside
    [IsPermanent]. *)
From Stdlib Require Import ZArith Lia.
From stdpp Require Import base tactics list gmap strings sorting.
From S2P Require Import Prelude Decimal GoString Money GoTime Period SubTypes SubStore.
#[local] Open Scope string_scope.
#[local] Open Scope Z_scope.

Section Service.
Context `{DL : DecimalLib}.
Abbreviation SM := (M store serr).

(** * Results *)

Record RenewalResult := mkRenewalResult {
  rr_SubscriptionID : uuid; rr_FromStatus : string; rr_Restarted : bool; rr_PreviousEnd : Time; rr_PeriodEnd : Time }.

Record ExtensionResult := mkExtensionResult {
  er_SubscriptionID : uuid; er_UserID : uuid; er_FromStatus : string; er_Rescued : bool; er_Restarted : bool;
  er_PreviousEnd : Time; er_PeriodEnd : Time; er_Prorated : gmap string Z }.

Record PlanChangeResult := mkPlanChangeResult {
  pr_SubscriptionID : uuid; pr_FromPlanID : uuid; pr_FromPlanVersionID : uuid; pr_FromStatus : string;
  pr_PreviousEnd : Time; pr_PeriodEnd : Time }.

(** * Provision (provision.go) *)

Record Provision_in := mkProvision {
  pv_UserID : uuid; pv_PlanID : uuid; pv_PlanVersionID : uuid; pv_Price : Price;
  pv_SourceOrderID : option uuid; pv_Label : string; pv_Actor : Actor }.

(** The tries [n], [n+1], … of the label loop, [k] of them left. *)
Fixpoint label_loop (W : Env) (id user : uuid) (label : string) (n : Z) (k : nat) : SM (option string) :=
  match k with
  | O => mret None
  | S k' =>
      let candidate := LabelWithSuffix label n in
      ok ← map_err subErr (SetLabel W id user (Some candidate));
      if ok : bool then mret (Some candidate) else label_loop W id user label (n + 1) k'
  end.

Definition provisionLabel (W : Env) (m : sub_row) (label : string) : SM sub_row :=
  l ← label_loop W (s_ID m) (s_UserID m) label 1 maxLabelTries;
  mret (match l with Some c => set_label (Some c) m | None => m end).

(** [proxy] and [token] are the random values the database and the service draw. *)
Definition provisionAt (W : Env) (inTx : bool) (proxy : uuid) (token : list Z) (in_ : Provision_in) (v : Version)
    (label : string) (start end_ : Time) (extra : list (string * pval)) : SM sub_row :=
  tx inTx (
    m ← map_err subErr (CreateSubscription W proxy (λ id uid,
          mkSubRow id (pv_UserID in_) (pv_PlanID in_) (pv_PlanVersionID in_) (p_PriceID (pv_Price in_))
            StatusActive start end_ None (p_Amount (pv_Price in_)) (Interval (p_Snap (pv_Price in_)))
            (IntervalCount (p_Snap (pv_Price in_))) None None proxy uid (pv_SourceOrderID in_)));
    _ ← map_err subErr (InsertQuotas (quotaRows (s_ID m) (v_Quotas v) start end_));
    m ← (if String.eqb label "" then mret m else provisionLabel W m label);
    _ ← issueCredential W m token;
    _ ← writeEvent W (s_ID m) EventActivated None StatusActive (pv_Actor in_) (pv_SourceOrderID in_)
          ([("plan_version_id", PID (pv_PlanVersionID in_)); ("period_start", PTime start); ("period_end", PTime end_)]
           ++ extra)%list;
    _ ← notifyRoster [s_ID m];
    mret m).

Definition Provision (W : Env) (inTx : bool) (now : Time) (proxy : uuid) (token : list Z) (in_ : Provision_in) : SM sub_row :=
  if (pv_UserID in_ =? uuid_Nil)%N then fail ErrInternal
  else
    _ ← lift (validatePrice (pv_Price in_));
    _ ← lift (validateActor (pv_Actor in_));
    label ← lift (NormalizeLabel (pv_Label in_));
    v ← lift (versionFor W (pv_PlanID in_) (pv_PlanVersionID in_));
    plan ← lift (planOf W (pv_PlanID in_));
    provisionAt W inTx proxy token in_ (withKind v (pl_Kind plan)) label now
      (PeriodEndFor now (p_Snap (pv_Price in_))) [].

(** [GrantSignupTrial] (trial.go): a plan that cannot be used is skipped, not an
    error; a user gets at most one. *)
Definition GrantSignupTrial (W : Env) (inTx : bool) (now : Time) (proxy : uuid) (token : list Z)
    (userID planID : uuid) (hours : Z) : SM () :=
  tx inTx (
    if (hours <? 1) || (8760 <? hours) then mret ()
    else
      exists_ ← gets (λ s, bool_decide (is_Some (trials s !! userID)));
      if exists_ : bool then mret ()
      else
        plans ← lift (PlansByIDs W [planID]);
        match plans !! planID with
        | Some plan =>
            match pl_CurrentVersionID plan with
            | Some vid =>
                if String.eqb (pl_Status plan) PlanArchived then mret ()
                else
                  match versionFor W planID vid with
                  | Err ErrVersionUnavailable => mret ()
                  | Err e => fail e
                  | Ok v =>
                      let count := Z.max (Z.quot (hours + 23) 24) 1 in
                      let snap := mkPriceSnap None dec_zero (mkPrice "day" count None) in
                      let label := match NormalizeLabel (pl_Name plan) with Ok l => l | Err _ => "" end in
                      let end_ := Truncate (now + hours * Hour) Microsecond in
                      m ← provisionAt W true proxy token
                            (mkProvision userID planID (v_ID v) snap None "" (mkActor ActorSystem None))
                            (withKind v (pl_Kind plan)) label now end_
                            [("source", PStr "signup_trial"); ("hours", PInt hours)];
                      _ ← map_err subErr (modify (add_trial userID (s_ID m)));
                      writeAudit "subscription.trial_granted" (s_ID m)
                  end
            | None => mret ()
            end
        | None => mret ()
        end).

(** * Renewal (renew.go) *)

Record Renewal := mkRenewal {
  rn_SubscriptionID : uuid; rn_UserID : uuid; rn_Price : Price; rn_PaidAt : Time;
  rn_OrderCreatedAt : option Time; rn_OrderID : option uuid; rn_Actor : Actor; rn_Source : string }.

Definition restartQuotas (W : Env) (m : sub_row) (versionID : uuid) (start cycleEnd : Time) (kind : string) : SM () :=
  v ← lift (versionFor W (s_PlanID m) versionID);
  before ← rebuildQuotas W m (withKind v kind) start cycleEnd;
  logResets W m before ResetRenewal None "".

Definition Renew (W : Env) (inTx : bool) (now : Time) (in_ : Renewal) : SM RenewalResult :=
  _ ← lift (validatePrice (rn_Price in_));
  _ ← lift (validateActor (rn_Actor in_));
  if IsZeroTime (rn_PaidAt in_) then fail ErrInternal
  else
  tx inTx (
    m ← lockOwned (rn_SubscriptionID in_) (Some (rn_UserID in_));
    if bool_decide (state_of m now = StateEnded) then fail ErrRenewalWindowClosed
    else
      plan ← lift (planOf W (s_PlanID m));
      if String.eqb (pl_Kind plan) KindOneTime then fail ErrRenewOneTime
      else
        let paidAt := Truncate (rn_PaidAt in_) Microsecond in
        let '(base, restart) := RenewalBase (s_PeriodEnd m) paidAt (rn_OrderCreatedAt in_) in
        let end_ := PeriodEndFor base (p_Snap (rn_Price in_)) in
        let from := if restart then StatusExpired else s_Status m in
        let versionID := if restart then default (s_PlanVersionID m) (pl_CurrentVersionID plan)
                         else s_PlanVersionID m in
        let cols r :=
          let r := set_end end_ (snapshotCols (rn_Price in_) (s_PriceID m) r) in
          if restart then set_version (default (s_PlanVersionID r) (pl_CurrentVersionID plan)) (set_start paidAt r)
          else r in
        _ ← transition W m StatusActive (Some (p_Amount (rn_Price in_))) cols;
        _ ← (if restart then restartQuotas W m versionID paidAt end_ (pl_Kind plan) else mret ());
        _ ← writeEvent W (s_ID m) EventRenewed (Some from) StatusActive (rn_Actor in_) (rn_OrderID in_)
              [("source", PStr (rn_Source in_)); ("restart", PBool restart);
               ("previous_end", PTime (s_PeriodEnd m)); ("period_end", PTime end_)];
        _ ← notifyRoster [s_ID m];
        mret (mkRenewalResult (s_ID m) from restart (s_PeriodEnd m) end_)).

(** * Extension (extend.go) *)

Record Extension := mkExtension {
  ex_SubscriptionID : uuid; ex_UserID : option uuid; ex_Days : Z; ex_Actor : Actor; ex_Source : string; ex_Reason : string }.

(** The note of a rescue's reset log. *)
Definition rescueResetNote : string :=
  "救回已过期订阅，日 / 月配额从今天重新起算".

(** One quota row of the loop: what happens to it. *)
Inductive extend_action := ExtendCycle (limit : option Z) (add : Z) | ExtendRestart | ExtendKeep.

Definition extend_case (prev : Time) (rescued lapsed : bool) (days : Z) (cycle : Duration) (q : quota_row) : extend_action :=
  if String.eqb (q_Period q) PeriodCycle && bool_decide (q_PeriodEnd q = Some prev) then
    match q_LimitValue q with
    | Some l =>
        if rescued then
          let add := ProratedQuota l days cycle in
          if (0 <? add) && (add <=? MaxInt64 - l) then ExtendCycle (Some (l + add)) add else ExtendCycle None 0
        else ExtendCycle None 0
    | None => ExtendCycle None 0
    end
  else if lapsed && (String.eqb (q_Period q) PeriodDay || String.eqb (q_Period q) PeriodMonth) then ExtendRestart
  else ExtendKeep.

Definition extend_cols (now end_ : Time) (a : extend_action) (q : quota_row) : quota_row :=
  match a with
  | ExtendCycle (Some l) _ => set_qlimit (Some l) (set_qend (Some end_) q)
  | ExtendCycle None _ => set_qend (Some end_) q
  | ExtendRestart => set_qconsumed 0 (set_qperiod now (QuotaPeriodEnd (q_Period q) now end_) q)
  | ExtendKeep => q
  end.

Fixpoint extend_loop (prev now end_ : Time) (rescued lapsed : bool) (days : Z) (cycle : Duration)
    (rows : list quota_row) (prorated : gmap string Z) (reset : list quota_row) : SM (gmap string Z * list quota_row) :=
  match rows with
  | [] => mret (prorated, reset)
  | q :: rows' =>
      let a := extend_case prev rescued lapsed days cycle q in
      match a with
      | ExtendKeep => extend_loop prev now end_ rescued lapsed days cycle rows' prorated reset
      | ExtendRestart =>
          _ ← map_err subErr (UpdateQuota (q_ID q) (extend_cols now end_ a));
          extend_loop prev now end_ rescued lapsed days cycle rows' prorated (reset ++ [q])%list
      | ExtendCycle l add =>
          _ ← map_err subErr (UpdateQuota (q_ID q) (extend_cols now end_ a));
          extend_loop prev now end_ rescued lapsed days cycle rows'
            (match l with
             | Some _ => <[q_Metric q := wrap64 (default 0 (prorated !! q_Metric q) + add)]> prorated
             | None => prorated
             end) reset
      end
  end.

Definition Extend (W : Env) (inTx : bool) (now : Time) (in_ : Extension) : SM ExtensionResult :=
  if (ex_Days in_ <? 1) || (maxExtendDays <? ex_Days in_) then fail (ErrInvalid "days")
  else
  _ ← lift (validateActor (ex_Actor in_));
  ra ← (if String.eqb (ex_Source in_) ExtendSourceGiftCard then mret (ResetGiftCard, None)
        else if String.eqb (ex_Source in_) ExtendSourceAdmin then
          if negb (String.eqb (act_Kind (ex_Actor in_)) ActorAdmin) then fail ErrInternal
          else mret (ResetManual, act_ID (ex_Actor in_))
        else fail ErrInternal);
  tx inTx (
    m ← lockOwned (ex_SubscriptionID in_) (ex_UserID in_);
    if bool_decide (state_of m now = StateEnded) then fail ErrExtendWindowClosed
    else
      let prev := s_PeriodEnd m in
      let '(base, lapsed) := ExtendBase prev now in
      let rescued := lapsed || String.eqb (s_Status m) StatusExpired in
      let end_ := Truncate (AddDate base 0 0 (ex_Days in_)) Microsecond in
      let cols r := let r := set_end end_ r in if lapsed then set_start now r else r in
      _ ← transition W m StatusActive None cols;
      rows ← map_err subErr (QuotasBySubscriptions [s_ID m]);
      let cycle := CycleLength now (s_Interval m) (s_IntervalCount m) in
      pr ← extend_loop prev now end_ rescued lapsed (ex_Days in_) cycle rows ∅ [];
      _ ← logResets W m pr.2 ra.1 ra.2 rescueResetNote;
      _ ← writeEvent W (s_ID m) EventExtended (Some (s_Status m)) StatusActive (ex_Actor in_) None
            ([("source", PStr (ex_Source in_)); ("days", PInt (ex_Days in_)); ("previous_end", PTime prev);
              ("period_end", PTime end_); ("rescued", PBool rescued); ("restart", PBool lapsed)] ++
             (if bool_decide (pr.1 = ∅) then [] else [("prorated", PCounts (map_to_list pr.1))]) ++
             (if String.eqb (ex_Reason in_) "" then [] else [("reason", PStr (ex_Reason in_))]))%list;
      _ ← notifyRoster [s_ID m];
      mret (mkExtensionResult (s_ID m) (s_UserID m) (s_Status m) rescued lapsed prev end_ pr.1)).

(** * Stacking (stack.go) *)

Record Stacking := mkStacking {
  sk_SubscriptionID : uuid; sk_UserID : uuid; sk_PlanVersionID : uuid; sk_Price : Price; sk_PaidAt : Time;
  sk_OrderID : option uuid; sk_GiftCodeID : option uuid; sk_Actor : Actor; sk_Source : string }.

(** The first traffic row of the [total] period. *)
Definition total_traffic (q : quota_row) : bool :=
  String.eqb (q_Metric q) MetricTraffic && String.eqb (q_Period q) PeriodTotal.

Definition stack_quota (now : Time) (m : sub_row) (def : option QuotaDef) (found : option quota_row) : SM () :=
  match found with
  | Some q =>
      match q_LimitValue q with
      | None => mret ()
      | Some l =>
          match def ≫= qd_Limit with
          | Some d => map_err subErr (UpdateQuota (q_ID q) (set_qlimit (Some (saturatedAdd l d))))
          | None => map_err subErr (UpdateQuota (q_ID q) (set_qlimit None))
          end
      end
  | None =>
      match def with
      | None => mret ()
      | Some d => map_err subErr (InsertQuotas
                    [mkQuotaRow uuid_Nil (s_ID m) MetricTraffic PeriodTotal now None (qd_Limit d) 0 0])
      end
  end.

Definition exactly_one (a b : option uuid) : bool := negb (Bool.eqb (bool_decide (a = None)) (bool_decide (b = None))).

Definition Stack (W : Env) (inTx : bool) (wall now : Time) (in_ : Stacking) : SM RenewalResult :=
  _ ← lift (validatePrice (sk_Price in_));
  _ ← lift (validateActor (sk_Actor in_));
  if IsZeroTime (sk_PaidAt in_) then fail ErrInternal
  else if negb (exactly_one (sk_OrderID in_) (sk_GiftCodeID in_)) then fail ErrInternal
  else if negb (String.eqb (Interval (p_Snap (sk_Price in_))) "one_time") then fail ErrStackNotOneTime
  else
  tx inTx (
    m ← lockOwned (sk_SubscriptionID in_) (Some (sk_UserID in_));
    if bool_decide (state_of m now = StateEnded) then fail ErrRenewalWindowClosed
    else
      plan ← lift (planOf W (s_PlanID m));
      if negb (String.eqb (pl_Kind plan) KindOneTime) then fail ErrStackNotOneTime
      else
        v0 ← lift (versionFor W (s_PlanID m) (sk_PlanVersionID in_));
        let v := withKind v0 (pl_Kind plan) in
        let end_ := StackEnd wall (s_PeriodEnd m) now (p_Snap (sk_Price in_)) in
        let cols r := set_version (sk_PlanVersionID in_) (set_end end_ (snapshotCols (sk_Price in_) (s_PriceID m) r)) in
        _ ← transition W m StatusActive (Some (p_Amount (sk_Price in_))) cols;
        rows ← map_err subErr (QuotasBySubscriptions [s_ID m]);
        _ ← stack_quota now m (quotaDef v MetricTraffic PeriodTotal) (List.find total_traffic rows);
        _ ← writeEvent W (s_ID m) EventRenewed (Some (s_Status m)) StatusActive (sk_Actor in_) (sk_OrderID in_)
              ([("mode", PStr "stack"); ("source", PStr (sk_Source in_)); ("restart", PBool false);
                ("previous_end", PTime (s_PeriodEnd m)); ("period_end", PTime end_);
                ("plan_version_id", PID (sk_PlanVersionID in_))] ++
               match sk_GiftCodeID in_ with Some g => [("gift_card_code_id", PID g)] | None => [] end)%list;
        _ ← notifyRoster [s_ID m];
        mret (mkRenewalResult (s_ID m) (s_Status m) false (s_PeriodEnd m) end_)).

(** * Plan change (plan_change.go) *)

Record PlanChange := mkPlanChange {
  pc_SubscriptionID : uuid; pc_UserID : uuid; pc_PlanID : uuid; pc_PlanVersionID : uuid; pc_Price : Price;
  pc_OrderID : option uuid; pc_GiftCodeID : option uuid; pc_Actor : Actor }.

Definition ChangePlan (W : Env) (inTx : bool) (now : Time) (in_ : PlanChange) : SM PlanChangeResult :=
  _ ← lift (validatePrice (pc_Price in_));
  _ ← lift (validateActor (pc_Actor in_));
  if negb (exactly_one (pc_OrderID in_) (pc_GiftCodeID in_)) then fail ErrInternal
  else
  v0 ← lift (versionFor W (pc_PlanID in_) (pc_PlanVersionID in_));
  plan ← lift (planOf W (pc_PlanID in_));
  let v := withKind v0 (pl_Kind plan) in
  tx inTx (
    m ← lockOwned (pc_SubscriptionID in_) (Some (pc_UserID in_));
    if bool_decide (state_of m now = StateEnded) then fail ErrRenewalWindowClosed
    else
      let end_ := PeriodEndFor now (p_Snap (pc_Price in_)) in
      let cols r := set_end end_ (set_start now (set_plan (pc_PlanID in_) (pc_PlanVersionID in_)
                      (snapshotCols (pc_Price in_) None r))) in
      _ ← transition W m StatusActive (Some (p_Amount (pc_Price in_))) cols;
      before ← rebuildQuotas W m v now end_;
      _ ← logResets W m before ResetPlanChange None "";
      _ ← writeEvent W (s_ID m) EventPlanChanged (Some (s_Status m)) StatusActive (pc_Actor in_) (pc_OrderID in_)
            ([("from_plan_id", PID (s_PlanID m)); ("from_plan_version_id", PID (s_PlanVersionID m));
              ("to_plan_id", PID (pc_PlanID in_)); ("to_plan_version_id", PID (pc_PlanVersionID in_));
              ("previous_end", PTime (s_PeriodEnd m)); ("period_end", PTime end_)] ++
             match pc_GiftCodeID in_ with
             | Some g => [("source", PStr "gift_card"); ("gift_card_code_id", PID g)]
             | None => [("source", PStr "order")]
             end)%list;
      _ ← notifyRoster [s_ID m];
      mret (mkPlanChangeResult (s_ID m) (s_PlanID m) (s_PlanVersionID m) (s_Status m) (s_PeriodEnd m) end_)).

(** * Bonus traffic (bonus.go) *)

Record BonusGrant := mkBonus {
  bg_SubscriptionID : uuid; bg_UserID : option uuid; bg_Bytes : Z; bg_Source : string;
  bg_ActorID : option uuid; bg_Note : string }.

Definition some_id (o : option uuid) : bool := match o with Some id => negb (id =? uuid_Nil)%N | None => false end.

(** The limited traffic row of the plan kind with the latest start. *)
Definition bonus_target (period : string) (rows : list quota_row) : option quota_row :=
  foldl (λ target q,
    if negb (String.eqb (q_Metric q) MetricTraffic) || negb (String.eqb (q_Period q) period) ||
       bool_decide (q_LimitValue q = None) then target
    else match target with
         | None => Some q
         | Some t => if After (q_PeriodStart q) (q_PeriodStart t) then Some q else target
         end) None rows.

(** The clock is read twice, before ([now1]) and after ([now2]) the rows. *)
Definition GrantBonus (W : Env) (inTx : bool) (now1 now2 : Time) (in_ : BonusGrant) : SM Z :=
  if (bg_SubscriptionID in_ =? uuid_Nil)%N then fail ErrInternal
  else if bg_Bytes in_ <=? 0 then fail (ErrInvalid "bytes")
  else
  _ ← (if String.eqb (bg_Source in_) BonusGiftCard then mret ()
       else if String.eqb (bg_Source in_) BonusAdmin then
         if some_id (bg_ActorID in_) then mret () else fail ErrInternal
       else fail ErrInternal);
  _ ← (if String.eqb (bg_Note in_) "" then mret ""
       else lift (cleanText (bg_Note in_) 1 maxNoteRunes "note"));
  tx inTx (
    m ← lockOwned (bg_SubscriptionID in_) (bg_UserID in_);
    if negb (bool_decide (state_of m now1 = StateLive)) then fail ErrNotActive
    else
      plan ← lift (planOf W (s_PlanID m));
      let period := trafficPeriod (pl_Kind plan) in
      rows ← map_err subErr (QuotasBySubscriptions [s_ID m]);
      match bonus_target period rows with
      | None => fail ErrUnlimited
      | Some t =>
          if String.eqb period PeriodCycle &&
             match q_PeriodEnd t with Some e => negb (After e now2) | None => false end
          then fail ErrBonusPeriodSwitching
          else
            bonus ← map_err subErr (AddQuotaBonus (q_ID t) (bg_Bytes in_));
            _ ← notifyRoster [s_ID m];
            mret bonus
      end).

(** * Traffic reset (reset.go) *)

Record TrafficReset := mkTrafficReset {
  tr_SubscriptionID : uuid; tr_UserID : option uuid; tr_Reason : string; tr_ActorID : option uuid;
  tr_Note : string; tr_At : Time }.

Fixpoint reset_loop (rows : list quota_row) (traffic : list quota_row) (freed : Z) : SM (list quota_row * Z) :=
  match rows with
  | [] => mret (traffic, freed)
  | q :: rows' =>
      if negb (String.eqb (q_Metric q) MetricTraffic) then reset_loop rows' traffic freed
      else
        _ ← map_err subErr (UpdateQuota (q_ID q) (set_qconsumed 0));
        reset_loop rows' (traffic ++ [q])%list (wrap64 (freed + q_Consumed q))
  end.

Definition ResetTraffic (W : Env) (inTx : bool) (now : Time) (in_ : TrafficReset) : SM Z :=
  _ ← (if String.eqb (tr_Reason in_) ResetManual then
         if some_id (tr_ActorID in_) then mret () else fail ErrInternal
       else if String.eqb (tr_Reason in_) ResetGiftCard then mret ()
       else if String.eqb (tr_Reason in_) ResetOrder then
         if some_id (tr_UserID in_) then mret () else fail ErrInternal
       else fail ErrInternal);
  note ← (if String.eqb (tr_Note in_) "" then mret ""
          else lift (cleanText (tr_Note in_) 1 maxNoteRunes "note"));
  tx inTx (
    m ← lockOwned (tr_SubscriptionID in_) (tr_UserID in_);
    let at_ := if IsZeroTime (tr_At in_) then now else tr_At in_ in
    if negb (bool_decide (state_of m at_ = StateLive)) then fail ErrNotLive
    else
      rows ← map_err subErr (QuotasBySubscriptions [s_ID m]);
      tf ← reset_loop rows [] 0;
      match tf.1 with
      | [] => fail ErrNoTrafficQuota
      | traffic =>
          _ ← logResets W m traffic (tr_Reason in_) (tr_ActorID in_) note;
          _ ← notifyRoster [s_ID m];
          mret tf.2
      end).

(** * Paid orders of the current period (repo/subscriptions.go) *)

(** Events that start the period over. *)
Definition restarts (e : event_row) : bool :=
  bool_decide (ev_Type e ∈ [EventActivated; EventPlanChanged]) ||
  (bool_decide (ev_Type e ∈ [EventRenewed; EventExtended]) && existsb (λ kv, String.eqb kv.1 "restart" &&
     match kv.2 with PBool true => true | _ => false end) (ev_Payload e)).

(** The events of a subscription from its last restart on (none when it has
    none: the join drops it). *)
Fixpoint since_restart (es : list event_row) : list event_row :=
  match es with
  | [] => []
  | e :: es' =>
      match since_restart es' with
      | [] => if restarts e then e :: es' else []
      | l => l
      end
  end.

Definition period_orders (id : uuid) (es : list event_row) : list uuid :=
  omap (λ e, if bool_decide (ev_Type e ∈ [EventActivated; EventRenewed; EventPlanChanged]) then ev_OrderID e else None)
    (since_restart (List.filter (λ e, (ev_SubscriptionID e =? id)%N) es)).

Definition PeriodOrderIDsBySubscriptions (ids : list uuid) : SM (gmap uuid (list uuid)) :=
  gets (λ s, list_to_map (omap (λ id, match period_orders id (events s) with [] => None | l => Some (id, l) end) ids)).

End Service.
