(* ===== verification/SubAdmin.v ===== *)
(** What an administrator and the owner change on a subscription by hand: its
    link, its end, its quota limits, its device limit, its name, extra time
    and traffic (panel/internal/module/subscription/service: rotate.go,
    admin.go, admin_edit.go, portal.go, with repo/credentials.go and
    render/profile.go).  [inTx], [now] and the random values are as in
    [Subscription]. *)
From Stdlib Require Import ZArith Lia.
From stdpp Require Import base tactics list gmap strings sorting.
From S2P Require Import Prelude Decimal GoString Money GoTime Period SubTypes SubStore Subscription.
#[local] Open Scope string_scope.
#[local] Open Scope Z_scope.

Definition minReasonRunes : Z := 5.
Definition maxReasonRunes : Z := 500.
Definition maxDeviceLimit : Z := 1000.
Definition maxAdminGrantBytes : Z := Z.shiftl 10 40.
Definition maxQuotaLimitBytes : Z := Z.shiftl 10 40.
Definition ActionExtended := "subscription.extended".
Definition ActionTrafficGranted := "subscription.traffic_granted".
Definition ActionManualReset := "traffic.manual_reset".
Definition ActionDeviceLimitChanged := "subscription.device_limit_changed".
Definition ActionLabelChanged := "subscription.label_changed".
Definition ActionLinkRotated := "subscription.link_rotated".
Definition ActionLinkRotatedByAdmin := "subscription.link_rotated_by_admin".
Definition ActionPeriodEndSet := "subscription.period_end_set".
Definition ActionQuotaLimitSet := "subscription.quota_limit_set".
Definition rotateReason := "rotated".

(** [LinkRotatedNotice] (link_notify.go). *)
Record LinkRotatedNotice := mkNotice {
  ln_UserID : uuid; ln_SubscriptionID : uuid; ln_PlanID : uuid; ln_Label : string; ln_RotatedAt : Time }.

(** What these operations read from outside: the users' service, the notifier
    (absent or not), the sealer, the site's name, the delivery settings (absent
    or not; the path prefix they give) and the link's address for a user, which
    [linkBase] draws at random from the user's domain group. *)
Record Desk := mkDesk {
  dk_IsDeleted : uuid → result serr bool;
  dk_Emails : list uuid → result serr (gmap uuid string);
  dk_Notify : option (LinkRotatedNotice → result serr ());
  dk_Open : list Z → list Z → option (list Z);
  dk_SiteName : result serr string;
  dk_Delivery : option (result serr string);
  dk_linkBase : uuid → result serr string }.

(** [principal], [adminPrincipal], [actorFrom] (service.go). *)
Definition sub_principal (who : option Principal) : result serr Principal :=
  match who with
  | None => Err ErrUnauthorized
  | Some p => if (pr_UserID p =? uuid_Nil)%N then Err ErrUnauthorized else Ok p
  end.
Definition sub_admin (who : option Principal) : result serr Principal :=
  p ← sub_principal who;
  if negb (String.eqb (pr_Audience p) AudienceAdmin) then Err ErrForbidden else Ok p.
Definition sub_actor (p : Principal) : Actor :=
  if String.eqb (pr_Audience p) AudienceAdmin then mkActor ActorAdmin (Some (pr_UserID p))
  else mkActor ActorUser (Some (pr_UserID p)).

(** [linkURL] (pull.go). *)
Definition linkURL (base prefix token : string) : string := trimSlashes base ++ "/" ++ prefix ++ "/" ++ token.

(** [ProfileName] (render/profile.go). *)
Definition ProfileName (site label planName : string) : string :=
  let site := TrimSpace site in
  let site := if String.eqb site "" then "Pandora" else site in
  let name := TrimSpace label in
  let name := if String.eqb name "" then TrimSpace planName else name in
  if String.eqb name "" then site else site ++ " · " ++ name.

Section Admin.
Context `{DL : DecimalLib}.
Abbreviation SM := (M store serr).

(** * Locking for the back office (internal.go) *)

Definition rejectDeletedOwner (D : Desk) (subID : uuid) : SM () :=
  m ← loadSub subID None;
  deleted ← lift (dk_IsDeleted D (s_UserID m));
  if deleted : bool then fail ErrAccountDeleted else mret ().

Definition lockForAdmin (D : Desk) (subID : uuid) : SM sub_row :=
  _ ← rejectDeletedOwner D subID;
  lockOwned subID None.

Definition email_of (emails : gmap uuid string) (user : uuid) : string := default "" (emails !! user).

(** * Links (repo/credentials.go, rotate.go) *)

Definition active_link (id : uuid) (c : cred_row) : bool :=
  (c_SubscriptionID c =? id)%N && String.eqb (c_Status c) "active".

Definition ActiveCredential (subID : uuid) : SM (option cred_row) :=
  gets (λ s, List.find (active_link subID) (creds s)).

(** [rotated_at], the same instant as [revoked_at], is not kept. *)
Definition RevokeActiveCredentials (subID : uuid) (reason : string) (at_ : Time) (grace : option Time) : SM (list uuid) := λ s,
  (Ok (map c_ID (List.filter (active_link subID) (creds s))),
   set_creds (update_where (active_link subID) (λ c,
     mkCred (c_ID c) (c_SubscriptionID c) (c_UserID c) (c_TokenHash c) (c_TokenPrefix c) (c_TokenEncrypted c)
       "revoked" (Some at_) (Some reason) grace (c_RotatedCount c + 1))) s).

(** [proxy] is what [gen_random_uuid()] drew. *)
Definition RotateProxyUUID (proxy subID : uuid) : SM uuid := λ s,
  if negb (existsb (λ r, (s_ID r =? subID)%N) (subs s)) then (Ok uuid_Nil, s)
  else if existsb (λ r, negb (s_ID r =? subID)%N && (s_ProxyUUID r =? proxy)%N) (subs s) then (Err (ErrRepo DBUnique), s)
  else (Ok proxy, set_subs (update_where (λ r, (s_ID r =? subID)%N) (set_proxy proxy)) s).

Definition rotateLocked (W : Env) (now : Time) (proxy : uuid) (token : list Z) (sub : sub_row) (actor : Actor)
    (source : string) : SM () :=
  _ ← map_err subErr (RevokeActiveCredentials (s_ID sub) rotateReason now None);
  _ ← issueCredential W sub token;
  id ← map_err subErr (RotateProxyUUID proxy (s_ID sub));
  if (id =? uuid_Nil)%N then fail ErrNotFound
  else
    _ ← writeEvent W (s_ID sub) EventLinkRotated (Some (s_Status sub)) (s_Status sub) actor None
          [("source", PStr source)];
    notifyRoster [s_ID sub].

(** The address is drawn after the commit: when that fails the link has been
    changed all the same. *)
Definition MyRotate (W : Env) (D : Desk) (inTx : bool) (who : option Principal) (now1 now2 : Time) (proxy : uuid)
    (token : list Z) (subID : uuid) : SM string :=
  p ← lift (sub_principal who);
  prefix ← lift (match dk_Delivery D with None => Err ErrDeliveryUnavailable | Some r => r end);
  plain ← tx inTx (
    sub ← lockOwned subID (Some (pr_UserID p));
    if negb (bool_decide (state_of sub now1 = StateLive)) then fail ErrRotateWhileExpired
    else
      _ ← rotateLocked W now2 proxy token sub (sub_actor p) "user";
      _ ← writeAudit ActionLinkRotated (s_ID sub);
      cred ← map_err subErr (ActiveCredential (s_ID sub));
      match cred with
      | None => fail ErrInternal
      | Some c =>
          match dk_Open D (c_TokenEncrypted c) (CredentialAAD (s_ID sub)) with
          | None => fail ErrInternal
          | Some plain => mret plain
          end
      end);
  base ← lift (dk_linkBase D (pr_UserID p));
  mret (linkURL base prefix (string_of plain)).

Record AdminRotateResult := mkAdminRotate { ar_SubscriptionID : uuid; ar_UserEmail : string }.

Definition AdminRotate (W : Env) (D : Desk) (inTx : bool) (who : option Principal) (now1 now2 : Time) (proxy : uuid)
    (token : list Z) (subID : uuid) (reason0 : string) : SM AdminRotateResult :=
  p ← lift (sub_admin who);
  _ ← lift (cleanText reason0 5 200 "reason");
  email ← tx inTx (
    sub ← lockForAdmin D subID;
    emails ← lift (dk_Emails D [s_UserID sub]);
    _ ← rotateLocked W now1 proxy token sub (sub_actor p) "admin";
    _ ← writeAudit ActionLinkRotatedByAdmin (s_ID sub);
    _ ← lift (match dk_Notify D with
              | None => Ok ()
              | Some f => f (mkNotice (s_UserID sub) (s_ID sub) (s_PlanID sub) (default "" (s_Label sub)) now2)
              end);
    mret (email_of emails (s_UserID sub)));
  mret (mkAdminRotate subID email).

(** * The period's end and the quota limits (admin_edit.go) *)

Record AdminSetPeriodEndResult := mkAdminEnd {
  pe_SubscriptionID : uuid; pe_UserID : uuid; pe_PreviousEnd : Time; pe_PeriodEnd : Time }.

(** Does the row's end move with the subscription's? *)
Definition end_moves (prev end_ : Time) (q : quota_row) : bool :=
  (String.eqb (q_Period q) PeriodCycle && bool_decide (q_PeriodEnd q = Some prev)) ||
  ((String.eqb (q_Period q) PeriodDay || String.eqb (q_Period q) PeriodMonth) &&
   match q_PeriodEnd q with Some e => After e end_ | None => false end).

Fixpoint end_loop (prev end_ : Time) (rows : list quota_row) : SM () :=
  match rows with
  | [] => mret ()
  | q :: rows' =>
      _ ← (if end_moves prev end_ q then map_err subErr (UpdateQuota (q_ID q) (set_qend (Some end_))) else mret ());
      end_loop prev end_ rows'
  end.

Definition AdminSetPeriodEnd (W : Env) (D : Desk) (inTx : bool) (who : option Principal) (now : Time) (subID : uuid)
    (end0 : Time) (reason0 : string) : SM AdminSetPeriodEndResult :=
  p ← lift (sub_admin who);
  reason ← lift (cleanText reason0 minReasonRunes maxReasonRunes "reason");
  let end_ := Truncate end0 Microsecond in
  tx inTx (
    m ← lockForAdmin D subID;
    if negb (bool_decide (state_of m now = StateLive)) then fail ErrConflict
    else if negb (After end_ now) || negb (After end_ (s_PeriodStart m)) || After end_ (AddDate now 10 0 0)
    then fail (ErrInvalid "period_end")
    else
      let prev := s_PeriodEnd m in
      ok ← map_err subErr (UpdateSubscription W (s_ID m) (s_Status m) None (set_end end_));
      if negb ok then fail ErrStateChanged
      else
        rows ← map_err subErr (QuotasBySubscriptions [s_ID m]);
        _ ← end_loop prev end_ rows;
        _ ← notifyRoster [s_ID m];
        _ ← writeEvent W (s_ID m) EventPeriodEndSet (Some (s_Status m)) (s_Status m) (sub_actor p) None
              [("previous_end", PTime prev); ("period_end", PTime end_); ("reason", PStr reason)];
        _ ← writeAudit ActionPeriodEndSet (s_ID m);
        mret (mkAdminEnd (s_ID m) (s_UserID m) prev end_)).

Definition valid_period (period : string) : bool :=
  bool_decide (period ∈ [PeriodTotal; PeriodCycle; PeriodDay; PeriodMonth]).

Definition AdminSetQuotaLimit (W : Env) (D : Desk) (inTx : bool) (who : option Principal) (now : Time) (subID : uuid)
    (metric period : string) (limit : option Z) (reason0 : string) : SM () :=
  p ← lift (sub_admin who);
  reason ← lift (cleanText reason0 minReasonRunes maxReasonRunes "reason");
  if match limit with Some l => (l <? 0) || (maxQuotaLimitBytes <? l) | None => false end then fail (ErrInvalid "limit_bytes")
  else if negb (valid_period period) then fail (ErrInvalid "period")
  else
  tx inTx (
    m ← lockForAdmin D subID;
    if bool_decide (state_of m now = StateEnded) then fail ErrConflict
    else
      rows ← map_err subErr (QuotasBySubscriptions [s_ID m]);
      match List.find (λ q, String.eqb (q_Metric q) metric && String.eqb (q_Period q) period) rows with
      | None => fail (ErrInvalid "metric")
      | Some q =>
          _ ← map_err subErr (UpdateQuota (q_ID q) (set_qlimit limit));
          _ ← notifyRoster [s_ID m];
          _ ← writeEvent W (s_ID m) EventQuotaLimitSet (Some (s_Status m)) (s_Status m) (sub_actor p) None
                [("metric", PStr metric); ("period", PStr period); ("before", POptInt (q_LimitValue q));
                 ("after", POptInt limit); ("reason", PStr reason)];
          writeAudit ActionQuotaLimitSet (s_ID m)
      end).

(** * Time, traffic and devices (admin.go) *)

Record AdminExtendResult := mkAdminExtend {
  ax_SubscriptionID : uuid; ax_UserEmail : string; ax_Days : Z; ax_PreviousEnd : Time; ax_PeriodEnd : Time }.

Definition AdminExtend (W : Env) (D : Desk) (inTx : bool) (who : option Principal) (now : Time) (subID : uuid) (days : Z)
    (reason0 : string) : SM AdminExtendResult :=
  p ← lift (sub_admin who);
  reason ← lift (cleanText reason0 minReasonRunes maxReasonRunes "reason");
  tx inTx (
    _ ← rejectDeletedOwner D subID;
    res ← Extend W true now (mkExtension subID None days (sub_actor p) ExtendSourceAdmin reason);
    emails ← lift (dk_Emails D [er_UserID res]);
    _ ← writeAudit ActionExtended subID;
    mret (mkAdminExtend (er_SubscriptionID res) (email_of emails (er_UserID res)) days (er_PreviousEnd res) (er_PeriodEnd res))).

Record AdminTrafficGrantResult := mkAdminGrant {
  ag_SubscriptionID : uuid; ag_UserID : uuid; ag_UserEmail : string; ag_GrantedBytes : Z; ag_BonusBytes : Z }.

Definition AdminGrantTraffic (W : Env) (D : Desk) (inTx : bool) (who : option Principal) (now1 now2 : Time) (subID : uuid)
    (bytes : Z) (reason0 : string) : SM AdminTrafficGrantResult :=
  p ← lift (sub_admin who);
  if (bytes <? 1) || (maxAdminGrantBytes <? bytes) then fail (ErrInvalid "bytes")
  else
  reason ← lift (cleanText reason0 minReasonRunes maxReasonRunes "reason");
  tx inTx (
    m ← lockForAdmin D subID;
    bonus ← GrantBonus W true now1 now2 (mkBonus (s_ID m) None bytes BonusAdmin (Some (pr_UserID p)) reason);
    emails ← lift (dk_Emails D [s_UserID m]);
    _ ← writeAudit ActionTrafficGranted (s_ID m);
    mret (mkAdminGrant (s_ID m) (s_UserID m) (email_of emails (s_UserID m)) bytes bonus)).

Definition AdminResetTraffic (W : Env) (D : Desk) (inTx : bool) (who : option Principal) (now : Time) (subID : uuid)
    (note0 : string) : SM Z :=
  p ← lift (sub_admin who);
  note ← lift (cleanText note0 minReasonRunes maxReasonRunes "note");
  tx inTx (
    _ ← lockForAdmin D subID;
    n ← ResetTraffic W true now (mkTrafficReset subID None ResetManual (Some (pr_UserID p)) note zeroTime);
    _ ← writeAudit ActionManualReset subID;
    mret n).

Definition AdminSetDeviceLimit (W : Env) (D : Desk) (inTx : bool) (who : option Principal) (subID : uuid)
    (limit : option Z) : SM () :=
  _ ← lift (sub_admin who);
  if match limit with Some n => (n <? 0) || (maxDeviceLimit <? n) | None => false end then fail (ErrInvalid "limit")
  else
  tx inTx (
    m ← lockForAdmin D subID;
    ok ← map_err subErr (UpdateSubscription W (s_ID m) (s_Status m) None (set_devices limit));
    if negb ok then fail ErrStateChanged
    else
      _ ← notifyRoster [s_ID m];
      writeAudit ActionDeviceLimitChanged (s_ID m)).

(** * Names (portal.go) *)

Record LabelResult := mkLabelResult { lr_Label : option string; lr_ClientName : string }.

(** [labelTaken] only words the conflict. *)
Definition SetMyLabel (W : Env) (D : Desk) (inTx : bool) (who : option Principal) (subID : uuid) (label : option string)
    : SM LabelResult :=
  p ← lift (sub_principal who);
  norm ← lift (match label with None => Ok "" | Some l => NormalizeLabel l end);
  let newLabel := if String.eqb norm "" then None else Some norm in
  tx inTx (
    m ← lockOwned subID (Some (pr_UserID p));
    ok ← map_err subErr (SetLabel W (s_ID m) (pr_UserID p) newLabel);
    if negb ok then fail ErrConflict
    else
      plans ← lift (PlansByIDs W [s_PlanID m]);
      site ← lift (dk_SiteName D);
      _ ← writeAudit ActionLabelChanged (s_ID m);
      mret (mkLabelResult newLabel
        (ProfileName site norm (match plans !! s_PlanID m with Some pl => pl_Name pl | None => "" end)))).
End Admin.
