(* ===== verification/Sweep.v ===== *)
(** The expiry sweep and the closing of subscriptions
    (panel/internal/module/subscription/service/expire.go, close.go and
    plugin_events.go).  [clock n] is what the service's clock returns in the
    [n]-th batch, [locked n] the rows other transactions hold then.  The
    context's cancellation, tested before every batch, is not modelled. *)
From Stdlib Require Import ZArith Lia.
From stdpp Require Import base tactics list gmap strings sorting.
From S2P Require Import Prelude Decimal GoString Money GoTime Period SubTypes SubStore.
#[local] Open Scope string_scope.
#[local] Open Scope Z_scope.

Definition expireBatchSize : nat := 200.
Definition expireMaxBatches : nat := 50.
Definition ActionExpired := "subscription.expired".
Definition ActionRenewalClosed := "subscription.renewal_closed".
Definition ActionClosedByAccountDeletion := "subscription.closed_by_account_deletion".
Definition RevokedRenewalClosed := "renewal_window_closed".
Definition RevokedAccountDeleted := "account_deleted".

Record ExpireStats := mkExpireStats { st_Expired : nat; st_Closed : nat; st_RevokedCredentials : nat }.

Section Sweep.
Context `{DL : DecimalLib}.
Abbreviation SM := (M store serr).

(** A loop over rows that stops at the first error. *)
Fixpoint for_each {A} (f : A → SM ()) (l : list A) : SM () :=
  match l with
  | [] => mret ()
  | x :: l' => _ ← f x; for_each f l'
  end.

(** [emitExpired] (plugin_events.go). *)
Definition emitExpired (W : Env) (rows : list sub_row) (changed : list uuid) : SM () :=
  match changed with
  | [] => mret ()
  | _ =>
      let hit := List.filter (λ m, mem (s_ID m) changed) rows in
      plans ← lift (PlansByIDs W (remove_dups (map s_PlanID hit)));
      for_each (λ m, lift (Emit W (s_ID m)
        (match plans !! s_PlanID m with Some p => pl_Name p | None => "" end) (s_PeriodEnd m))) hit
  end.

Definition expire_one (W : Env) (changed : list uuid) (m : sub_row) : SM () :=
  if negb (mem (s_ID m) changed) then mret ()
  else
    _ ← writeEvent W (s_ID m) EventExpired (Some StatusActive) StatusExpired (mkActor ActorScheduler None) None
          [("period_end", PTime (s_PeriodEnd m))];
    writeAudit ActionExpired (s_ID m).

(** One batch: how many rows it selected and how many it changed. *)
Definition expireBatch (W : Env) (locked : uuid → bool) (now : Time) : SM (nat * nat) :=
  tx false (
    rows ← map_err subErr (LockDueExpiries locked now expireBatchSize);
    match rows with
    | [] => mret (0%nat, 0%nat)
    | _ =>
        if negb (CanTransition StatusActive StatusExpired) then fail ErrInternal
        else
          changed ← map_err subErr (TransitionStatus W (map s_ID rows) StatusActive StatusExpired);
          _ ← for_each (expire_one W changed) rows;
          _ ← emitExpired W rows changed;
          _ ← notifyRoster changed;
          mret (length rows, length changed)
    end).

Definition close_one (W : Env) (closedIDs : list uuid) (revoked : list cred_row) (m : sub_row) : SM () :=
  if negb (mem (s_ID m) closedIDs) then mret ()
  else
    let n := Z.of_nat (length (List.filter (λ c, (c_SubscriptionID c =? s_ID m)%N) revoked)) in
    _ ← writeEvent W (s_ID m) EventRenewalClosed (Some StatusExpired) StatusExpired (mkActor ActorScheduler None) None
          [("window_days", PInt (RenewalWindow / Day)); ("revoked_credentials", PInt n)];
    writeAudit ActionRenewalClosed (s_ID m).

Definition closeBatch (W : Env) (locked : uuid → bool) (now : Time) : SM (nat * nat * nat) :=
  tx false (
    rows ← map_err subErr (LockDueRenewalCloses locked (now - RenewalWindow) expireBatchSize);
    match rows with
    | [] => mret (0%nat, 0%nat, 0%nat)
    | _ =>
        closedIDs ← map_err subErr (CloseRenewalWindows W (map s_ID rows) now);
        revoked ← map_err subErr (RevokeCredentialsOnClose closedIDs now RevokedRenewalClosed);
        _ ← for_each (close_one W closedIDs revoked) rows;
        mret (length rows, length closedIDs,
              length (List.filter (λ c, existsb (λ m, (s_ID m =? c_SubscriptionID c)%N && mem (s_ID m) closedIDs) rows) revoked))
    end).

(** The two loops of [ExpireDue]: a batch that was not full ends them. *)
Fixpoint expire_loop (W : Env) (locked : nat → uuid → bool) (clock : nat → Time) (k : nat) (n : nat) (expired : nat)
    : SM nat :=
  match k with
  | O => mret expired
  | S k' =>
      se ← expireBatch W (locked n) (clock n);
      let expired := (expired + se.2)%nat in
      if Nat.ltb se.1 expireBatchSize then mret expired
      else expire_loop W locked clock k' (S n) expired
  end.

Fixpoint close_loop (W : Env) (locked : nat → uuid → bool) (clock : nat → Time) (k : nat) (n : nat)
    (closed revoked : nat) : SM (nat * nat) :=
  match k with
  | O => mret (closed, revoked)
  | S k' =>
      scr ← closeBatch W (locked n) (clock n);
      let closed := (closed + scr.1.2)%nat in
      let revoked := (revoked + scr.2)%nat in
      if Nat.ltb scr.1.1 expireBatchSize then mret (closed, revoked)
      else close_loop W locked clock k' (S n) closed revoked
  end.

Definition ExpireDue (W : Env) (locked1 locked2 : nat → uuid → bool) (clock1 clock2 : nat → Time) : SM ExpireStats :=
  expired ← expire_loop W locked1 clock1 expireMaxBatches 0 0;
  cr ← close_loop W locked2 clock2 expireMaxBatches 0 0 0;
  mret (mkExpireStats expired cr.1 cr.2).

(** * Closing an account's subscriptions (close.go) *)

Fixpoint lock_all (userID : uuid) (rows : list sub_row) : SM (list sub_row) :=
  match rows with
  | [] => mret []
  | r :: rows' =>
      m ← lockOwned (s_ID r) (Some userID);
      ms ← lock_all userID rows';
      mret (m :: ms)
  end.

Definition close_active (W : Env) (actor : Actor) (now : Time) (m : sub_row) : SM () :=
  if String.eqb (s_Status m) StatusActive then
    let cols r := if After (s_PeriodEnd m) now && After now (s_PeriodStart m) then set_end now r else r in
    _ ← transition W m StatusExpired None cols;
    writeEvent W (s_ID m) EventExpired (Some StatusActive) StatusExpired actor None
      [("reason", PStr "account_deleted"); ("previous_end", PTime (s_PeriodEnd m))]
  else mret ().

(** The service sorts what it read by identifier before it locks the rows.  The
    table holds its rows in the order of their identifiers, so here the sort
    changes nothing. *)
Definition CloseUserSubscriptions (W : Env) (inTx : bool) (actor : Actor) (now : Time) (userID : uuid) : SM nat :=
  tx inTx (
    rows ← map_err subErr (SubscriptionsByUsers [userID]);
    match rows with
    | [] => mret 0%nat
    | _ =>
        locked ← lock_all userID rows;
        _ ← for_each (close_active W actor now) locked;
        let expiredIDs := map s_ID (List.filter (λ m, String.eqb (s_Status m) StatusActive) locked) in
        let openIDs := map s_ID (List.filter (λ m, bool_decide (s_RenewalClosedAt m = None)) locked) in
        closedIDs ← map_err subErr (CloseRenewalWindows W openIDs now);
        _ ← for_each (λ id, writeEvent W id EventRenewalClosed (Some StatusExpired) StatusExpired actor None
                              [("reason", PStr "account_deleted")]) closedIDs;
        revoked ← map_err subErr (RevokeCredentialsOnClose (map s_ID locked) now RevokedAccountDeleted);
        let n := length (remove_dups (expiredIDs ++ closedIDs)%list) in
        _ ← (if Nat.ltb 0 n then writeAudit ActionClosedByAccountDeletion userID else mret ());
        _ ← notifyRoster expiredIDs;
        mret n
    end).
End Sweep.
