(* ===== verification/Charge.v ===== *)
(** Charging node traffic to quotas
    (panel/internal/module/subscription/service/charge_plan.go and charge.go,
    repo/charge.go, repo/quota_window.go, repo/serving.go). *)
From Stdlib Require Import ZArith Lia.
From stdpp Require Import base tactics list gmap strings sorting.
From S2P Require Import Prelude Decimal GoString Money GoTime Period SubTypes SubStore.
#[local] Open Scope string_scope.
#[local] Open Scope Z_scope.

(** * charge_plan.go *)

Definition satAdd (a b : Z) : Z := if MaxInt64 - b <? a then MaxInt64 else a + b.
Definition max64 (a b : Z) : Z := if b <? a then a else b.

Record chargeItem := mkItem { ci_SubID : uuid; ci_Bytes : Z }.
Record TrafficQuotaRow := mkTQ { tq_ID : uuid; tq_SubscriptionID : uuid; tq_Period : string; tq_Room : option Z }.
Record QuotaAdd := mkQuotaAdd { qa_ID : uuid; qa_Amount : Z }.
Record UsageAdd := mkUsageAdd { ua_SubscriptionID : uuid; ua_Bytes : Z }.
Record chargePlan := mkChargePlan { QuotaAdds : list QuotaAdd; Usage : list UsageAdd; Exhausted : list uuid }.

(** The tightest limited row of every subscription; [None] when none is limited. *)
Definition quotaRooms (rows : list TrafficQuotaRow) : gmap uuid (option Z) :=
  foldl (λ out row,
    let cur := out !! tq_SubscriptionID row in
    let out := match cur with None => <[tq_SubscriptionID row := None]> out | Some _ => out end in
    match tq_Room row with
    | None => out
    | Some r =>
        match cur with
        | Some (Some c) => if r <? c then <[tq_SubscriptionID row := Some r]> out else out
        | _ => <[tq_SubscriptionID row := Some r]> out
        end
    end) ∅ rows.

Definition usage_le (a b : UsageAdd) : Prop := (ua_SubscriptionID a ≤ ua_SubscriptionID b)%N.
#[global] Instance usage_le_dec : RelDecision usage_le.
Proof. intros a b. unfold usage_le. apply _. Defined.
Definition sortUsageBySubID (l : list UsageAdd) : list UsageAdd := merge_sort usage_le l.

#[local] Instance N_le_dec : RelDecision N.le := N.le_dec.
Definition sortedUniqueIDs (l : list uuid) : list uuid := merge_sort N.le (remove_dups l).

(** The loop over the items: rooms left, charges by subscription, usage, and
    the subscriptions this batch exhausted. *)
Record plan_state := mkPlanState {
  ps_rooms : gmap uuid (option Z); ps_charges : gmap uuid Z; ps_usage : list UsageAdd; ps_exhausted : list uuid }.

Definition plan_item (st : plan_state) (it : chargeItem) : plan_state :=
  if ci_Bytes it <=? 0 then st
  else
    let room := default None (ps_rooms st !! ci_SubID it) in
    let hadRoom := match room with Some r => 0 <? r | None => false end in
    let charges := <[ci_SubID it := satAdd (default 0 (ps_charges st !! ci_SubID it)) (ci_Bytes it)]> (ps_charges st) in
    let usage := (ps_usage st ++ [mkUsageAdd (ci_SubID it) (ci_Bytes it)])%list in
    match room with
    | Some r =>
        let roomAfter := wrap64 (r - ci_Bytes it) in
        mkPlanState (<[ci_SubID it := Some roomAfter]> (ps_rooms st)) charges usage
          (if hadRoom && (roomAfter <=? 0) then (ps_exhausted st ++ [ci_SubID it])%list else ps_exhausted st)
    | None => mkPlanState (ps_rooms st) charges usage (ps_exhausted st)
    end.

Definition planTrafficCharges (items : list chargeItem) (rows : list TrafficQuotaRow) : chargePlan :=
  let st := foldl plan_item (mkPlanState (quotaRooms rows) ∅ [] []) items in
  mkChargePlan
    (omap (λ row, let amt := default 0 (ps_charges st !! tq_SubscriptionID row) in
                  if 0 <? amt then Some (mkQuotaAdd (tq_ID row) amt) else None) rows)
    (sortUsageBySubID (ps_usage st)) (ps_exhausted st).

(** * quota_window.go *)

Definition TrafficQuotaGrace : Duration := 24 * Hour.

(** The traffic rows that count at [now]: the current period, and a day of grace
    for a period that ended and was not rolled yet. *)
Definition in_traffic_window (now : Time) (q : quota_row) : bool :=
  String.eqb (q_Metric q) MetricTraffic && (q_PeriodStart q <=? now) &&
  match q_PeriodEnd q with None => true | Some e => now - TrafficQuotaGrace <? e end.

Section Charge.
Context `{DL : DecimalLib}.
Abbreviation SM := (M store serr).

(** * repo/charge.go *)

Definition SubscriptionIDsByNodeUIDs (uids : list Z) : SM (gmap Z uuid) :=
  gets (λ s, foldl (λ out r, <[s_NodeUID r := s_ID r]> out) ∅
               (List.filter (λ r, existsb (Z.eqb (s_NodeUID r)) uids) (subs s))).

Definition LockTrafficQuotas (ids : list uuid) (now : Time) : SM (list TrafficQuotaRow) :=
  gets (λ s, map (λ q, mkTQ (q_ID q) (q_SubscriptionID q) (q_Period q) (q_Remaining q))
               (List.filter (λ q, mem (q_SubscriptionID q) ids && in_traffic_window now q) (quotas s))).

(** [UPDATE … FROM jsonb_to_recordset]: the amount joined to a row, if any. *)
Definition amount_for (adds : list QuotaAdd) (id : uuid) : option Z :=
  qa_Amount <$> List.find (λ a, (qa_ID a =? id)%N) adds.

Definition add_consumed (adds : list QuotaAdd) (q : quota_row) : quota_row :=
  match amount_for adds (q_ID q) with
  | Some a => set_qconsumed (pg_sat_add (q_Consumed q) a) q
  | None => q
  end.

Definition AddQuotaConsumed (adds : list QuotaAdd) : SM () := λ s,
  match adds with
  | [] => (Ok (), s)
  | _ =>
      let hit q := bool_decide (is_Some (amount_for adds (q_ID q))) in
      let rows := List.filter hit (quotas s) in
      match check_all write_quota (map (add_consumed adds) rows) with
      | Err e => (Err e, s)
      | Ok _ =>
          if Nat.eqb (length rows) (length adds)
          then (Ok (), set_quotas (update_where hit (add_consumed adds)) s)
          else (Err (ErrRepo DBOther), s)
      end
  end.

(** [ON CONFLICT DO UPDATE]: a statement cannot touch the same row twice. *)
Definition AddUsageDaily (day : Z) (adds : list UsageAdd) : SM () := λ s,
  if negb (bool_decide (NoDup (map ua_SubscriptionID adds))) then (Err (ErrRepo DBOther), s)
  else if negb (forallb (λ a, existsb (λ r, (s_ID r =? ua_SubscriptionID a)%N) (subs s)) adds)
       then (Err (ErrRepo DBForeignKey), s)
       else (Ok (), set_usage (λ u, foldl (λ u a,
              <[(ua_SubscriptionID a, day) :=
                  match u !! (ua_SubscriptionID a, day) with
                  | Some old => pg_sat_add old (ua_Bytes a)
                  | None => ua_Bytes a
                  end]> u) u adds) s).

(** * charge.go *)

Record TrafficCharge := mkCharge { tc_UID : Z; tc_Bytes : Z }.

(** Reports merged by node user number, non-positive numbers dropped. *)
Definition merge_charges (charges : list TrafficCharge) : gmap Z Z :=
  foldl (λ m c, if tc_UID c <=? 0 then m
                else <[tc_UID c := satAdd (default 0 (m !! tc_UID c)) (max64 (tc_Bytes c) 0)]> m) ∅ charges.

#[local] Instance Z_le_dec : RelDecision Z.le := Z_le_dec.
Definition sorted_uids (m : gmap Z Z) : list Z := merge_sort Z.le (map fst (map_to_list m)).

Definition charge_items (merged : gmap Z Z) (subs : gmap Z uuid) (uids : list Z) : list chargeItem :=
  omap (λ uid, match subs !! uid with
               | Some id => let b := default 0 (merged !! uid) in
                            if 0 <? b then Some (mkItem id b) else None
               | None => None
               end) uids.

(** [notifyRosterBatch] (service.go): one notification for the whole batch. *)
Definition notifyRosterBatch (ids : list uuid) : SM () := notifyRoster ids.

Definition ChargeTraffic (W : Env) (inTx : bool) (now : Time) (charges : list TrafficCharge) : SM (gmap Z uuid) :=
  let merged := merge_charges charges in
  if bool_decide (merged = ∅) then mret ∅
  else
    let uids := sorted_uids merged in
    tx inTx (
      ids ← map_err subErr (SubscriptionIDsByNodeUIDs uids);
      match charge_items merged ids uids with
      | [] => mret ids
      | items =>
          dayOf ← lift (Site W);
          rows ← map_err subErr (LockTrafficQuotas (sortedUniqueIDs (map ci_SubID items)) now);
          let plan := planTrafficCharges items rows in
          _ ← map_err subErr (AddQuotaConsumed (QuotaAdds plan));
          _ ← map_err subErr (AddUsageDaily (dayOf now) (Usage plan));
          _ ← notifyRosterBatch (Exhausted plan);
          mret ids
      end).

(** * repo/serving.go *)

Definition exhausted_row (now : Time) (id : uuid) (q : quota_row) : bool :=
  (q_SubscriptionID q =? id)%N && in_traffic_window now q &&
  match q_Remaining q with Some r => r <=? 0 | None => false end.

Definition serving (now : Time) (qs : list quota_row) (r : sub_row) : bool :=
  String.eqb (s_Status r) StatusActive && (now <? s_PeriodEnd r) && negb (existsb (exhausted_row now (s_ID r)) qs).

Definition uid_le (a b : sub_row) : Prop := s_NodeUID a ≤ s_NodeUID b.
#[global] Instance uid_le_dec : RelDecision uid_le.
Proof. intros a b. unfold uid_le. apply _. Defined.

Definition ServingSubscriptions (now : Time) : SM (list sub_row) :=
  gets (λ s, merge_sort uid_le (List.filter (serving now (quotas s)) (subs s))).
End Charge.
