(* ===== verification/Roll.v ===== *)
(** Rolling quotas into their next period
    (panel/internal/module/subscription/service/quota_roll.go,
    repo/quota_roll.go).  Where the program ranges over a Go map (the versions
    to read, the switches to write) the model takes one order; the reads return
    a map and the statement updates each row by its own identifier, so the
    order does not matter.  [lockedQ]/[lockedS] are the quota and subscription
    rows other transactions hold. *)
From Stdlib Require Import ZArith Lia.
From stdpp Require Import base tactics list gmap strings sorting.
From S2P Require Import Prelude Decimal GoString Money GoTime Period SubTypes SubStore.
#[local] Open Scope string_scope.
#[local] Open Scope Z_scope.

Definition rollQuotaBatch : nat := 500.
Definition rollQuotaMaxBatches : nat := 100.

Record QuotaRollCandidate := mkCand {
  rc_ID : uuid; rc_SubscriptionID : uuid; rc_UserID : uuid; rc_PlanID : uuid; rc_PlanVersionID : uuid;
  rc_Metric : string; rc_Period : string; rc_PeriodStart : Time; rc_PeriodEnd : Time; rc_SubPeriodEnd : Time;
  rc_Interval : string; rc_IntervalCount : Z }.

(** [SetLimit] and [Limit] as one field: [Some l] assigns the limit [l]. *)
Record QuotaRoll := mkRoll { ro_ID : uuid; ro_Start : Time; ro_End : Time; ro_Limit : option (option Z) }.
Record RolledQuota := mkRolled { rq_ID : uuid; rq_SubscriptionID : uuid; rq_Metric : string; rq_ConsumedBefore : Z }.
Record VersionSwitch := mkSwitch { vs_SubscriptionID : uuid; vs_From : uuid; vs_To : uuid }.
Record RollStats := mkRollStats { rs_Rolled : nat; rs_Cycle : nat; rs_Switched : nat; rs_Passes : nat }.

(** [planRoll]: the new period of a due row. *)
Definition planRoll (c : QuotaRollCandidate) (now : Time) (versions : gmap uuid Version) (targets : gmap uuid uuid)
    : option QuotaRoll :=
  if String.eqb (rc_Period c) PeriodDay || String.eqb (rc_Period c) PeriodMonth then
    match naturalRollStart (rc_Period c) (rc_PeriodStart c) (rc_PeriodEnd c) now with
    | None => None
    | Some start => Some (mkRoll (rc_ID c) start (default zeroTime (QuotaPeriodEnd (rc_Period c) start zeroTime)) None)
    end
  else if String.eqb (rc_Period c) PeriodCycle then
    let w := cycleRollWindow (rc_PeriodEnd c) (rc_SubPeriodEnd c) now (rc_Interval c) (rc_IntervalCount c) in
    let t := default uuid_Nil (targets !! rc_SubscriptionID c) in
    let target := if (t =? uuid_Nil)%N then rc_PlanVersionID c else t in
    Some (mkRoll (rc_ID c) w.1 w.2
            (v ← versions !! target; qd_Limit <$> quotaDef v (rc_Metric c) PeriodCycle))
  else None.

Section Roll.
Context `{DL : DecimalLib}.
Abbreviation SM := (M store serr).

(** * repo/quota_roll.go *)

(** [quotaRollDueWhere]. *)
Definition roll_due (W : Env) (now : Time) (q : quota_row) (s : sub_row) : bool :=
  match q_PeriodEnd q with
  | None => false
  | Some e =>
      let day := String.eqb (q_Period q) PeriodDay in
      String.eqb (s_Status s) StatusActive && (now <? s_PeriodEnd s) &&
      ((day || String.eqb (q_Period q) PeriodMonth) &&
       ((e <=? now) ||
        ((pg_plus W (if day then "1 day 1 hour" else "1 month 4 days") (q_PeriodStart q) <? e) &&
         (pg_plus W (if day then "1 day" else "1 month") (q_PeriodStart q) <=? now)))
       || (String.eqb (q_Period q) PeriodCycle && (e <=? now) && (e <? s_PeriodEnd s)))
  end.

(** The join of a quota row with its subscription. *)
Definition candidate (W : Env) (now : Time) (l : list sub_row) (q : quota_row) : option QuotaRollCandidate :=
  match find_sub (q_SubscriptionID q) l with
  | None => None
  | Some s =>
      if roll_due W now q s
      then Some (mkCand (q_ID q) (q_SubscriptionID q) (s_UserID s) (s_PlanID s) (s_PlanVersionID s) (q_Metric q)
                   (q_Period q) (q_PeriodStart q) (default zeroTime (q_PeriodEnd q)) (s_PeriodEnd s)
                   (s_Interval s) (s_IntervalCount s))
      else None
  end.

Definition LockDueQuotaRolls (W : Env) (lockedQ lockedS : uuid → bool) (now : Time) (limit : nat)
    : SM (list QuotaRollCandidate) :=
  gets (λ s, take limit (List.filter (λ c, negb (lockedQ (rc_ID c)) && negb (lockedS (rc_SubscriptionID c)))
                           (omap (candidate W now (subs s)) (quotas s)))).

Definition QuotaRollsRemain (W : Env) (now : Time) : SM bool :=
  gets (λ s, existsb (λ q, bool_decide (is_Some (candidate W now (subs s) q))) (quotas s)).

Definition roll_for (rolls : list QuotaRoll) (id : uuid) : option QuotaRoll := List.find (λ r, (ro_ID r =? id)%N) rolls.

Definition roll_row (rolls : list QuotaRoll) (q : quota_row) : quota_row :=
  match roll_for rolls (q_ID q) with
  | None => q
  | Some r => mkQuotaRow (q_ID q) (q_SubscriptionID q) (q_Metric q) (q_Period q) (ro_Start r) (Some (ro_End r))
                (match ro_Limit r with Some l => l | None => q_LimitValue q end) 0 0
  end.

Definition ApplyQuotaRolls (rolls : list QuotaRoll) : SM (list RolledQuota) := λ s,
  match rolls with
  | [] => (Ok [], s)
  | _ =>
      let hit q := bool_decide (is_Some (roll_for rolls (q_ID q))) in
      let rows := List.filter hit (quotas s) in
      match check_all write_quota (map (roll_row rolls) rows) with
      | Err e => (Err e, s)
      | Ok _ => (Ok (map (λ q, mkRolled (q_ID q) (q_SubscriptionID q) (q_Metric q) (q_Consumed q)) rows),
                 set_quotas (update_where hit (roll_row rolls)) s)
      end
  end.

Definition switch_for (sw : list VersionSwitch) (r : sub_row) : option VersionSwitch :=
  List.find (λ w, (vs_SubscriptionID w =? s_ID r)%N && (vs_From w =? s_PlanVersionID r)%N) sw.

Definition SwitchPlanVersions (W : Env) (sw : list VersionSwitch) : SM (list uuid) :=
  match sw with
  | [] => mret []
  | _ => update_returning W (λ r, bool_decide (is_Some (switch_for sw r)))
           (λ r, match switch_for sw r with Some w => set_version (vs_To w) r | None => r end)
  end.

(** * service/quota_roll.go *)

Definition is_cycle (c : QuotaRollCandidate) : bool := String.eqb (rc_Period c) PeriodCycle.

Definition fix_kind (plans : gmap uuid Plan) (v : Version) : Version :=
  match plans !! v_PlanID v with Some p => withKind v (pl_Kind p) | None => v end.
Definition fix_kinds (plans : gmap uuid Plan) (vs : gmap uuid Version) : gmap uuid Version := fix_kind plans <$> vs.
Definition current_target (plans : gmap uuid Plan) (m : gmap uuid uuid) (c : QuotaRollCandidate) : gmap uuid uuid :=
  match plans !! rc_PlanID c with
  | Some p => if String.eqb (pl_Kind p) KindSubscription then
                match pl_CurrentVersionID p with
                | Some v => <[rc_SubscriptionID c := v]> m
                | None => m
                end
              else m
  | None => m
  end.

Definition rollTargets (W : Env) (cands : list QuotaRollCandidate)
    : result serr (gmap uuid Version * gmap uuid uuid) :=
  let cycles := List.filter is_cycle cands in
  match cycles with
  | [] => Ok (∅, ∅)
  | _ =>
      let targets0 := foldl (λ (m : gmap uuid uuid) c, <[rc_SubscriptionID c := rc_PlanVersionID c]> m) ∅ cycles in
      plans ← PlansByIDs W (remove_dups (map rc_PlanID cycles));
      let targets := foldl (current_target plans) targets0 cycles in
      versions ← VersionsByIDs W (remove_dups (map snd (map_to_list targets)));
      Ok (fix_kinds plans versions, targets)
  end.

Definition roll_log (byID : uuid → option QuotaRollCandidate) (r : RolledQuota) : reset_row :=
  let cycle := match byID (rq_ID r) with Some c => is_cycle c | None => false end in
  mkReset (rq_SubscriptionID r) (match byID (rq_ID r) with Some c => rc_UserID c | None => uuid_Nil end)
    (rq_Metric r) (if cycle then ResetRenewal else ResetCycleRoll) (rq_ConsumedBefore r) 0 None None.

(** The first rolled cycle row of every subscription whose plan has a newer
    version. *)
Fixpoint switches (targets : gmap uuid uuid) (cs : list QuotaRollCandidate) (seen : list uuid) : list VersionSwitch :=
  match cs with
  | [] => []
  | c :: cs' =>
      let tv := default uuid_Nil (targets !! rc_SubscriptionID c) in
      if is_cycle c && negb (tv =? uuid_Nil)%N && negb (tv =? rc_PlanVersionID c)%N && negb (mem (rc_SubscriptionID c) seen)
      then mkSwitch (rc_SubscriptionID c) (rc_PlanVersionID c) tv :: switches targets cs' (rc_SubscriptionID c :: seen)
      else switches targets cs' seen
  end.

Definition find_cand (cs : list QuotaRollCandidate) (id : uuid) : option QuotaRollCandidate :=
  List.find (λ c, (rc_ID c =? id)%N) cs.

(** One batch: rows selected, rows rolled, and what the statistics gain. *)
Definition rollBatch (W : Env) (lockedQ lockedS : uuid → bool) (now : Time) (st : RollStats) : SM (nat * nat * RollStats) :=
  tx false (
    cands ← map_err subErr (LockDueQuotaRolls W lockedQ lockedS now rollQuotaBatch);
    match cands with
    | [] => mret (0%nat, 0%nat, st)
    | _ =>
        vt ← lift (rollTargets W cands);
        let planned := omap (λ c, (λ r, (c, r)) <$> planRoll c now vt.1 vt.2) cands in
        let byID := find_cand (map fst planned) in
        rolled ← map_err subErr (ApplyQuotaRolls (map snd planned));
        _ ← map_err subErr (InsertResetLogs W (map (roll_log byID) rolled));
        let rolledCands := omap (λ r, byID (rq_ID r)) rolled in
        switched ← map_err subErr (SwitchPlanVersions W (switches vt.2 rolledCands []));
        _ ← notifyRoster (map rq_SubscriptionID rolled);
        let cyc := length (List.filter is_cycle rolledCands) in
        mret (length cands, length rolled,
              mkRollStats (rs_Rolled st + (length rolledCands - cyc)) (rs_Cycle st + cyc)
                (rs_Switched st + length switched) (rs_Passes st))
    end).

Fixpoint roll_batches (W : Env) (lockedQ lockedS : nat → uuid → bool) (clock : nat → Time) (k n : nat) (st : RollStats)
    : SM RollStats :=
  match k with
  | O => mret st
  | S k' =>
      sas ← rollBatch W (lockedQ n) (lockedS n) (clock n) st;
      if Nat.ltb sas.1.1 rollQuotaBatch || Nat.eqb sas.1.2 0 then mret sas.2
      else roll_batches W lockedQ lockedS clock k' (S n) sas.2
  end.

Definition rollPass (W : Env) (lockedQ lockedS : nat → uuid → bool) (clock : nat → Time) (st : RollStats) : SM RollStats :=
  roll_batches W lockedQ lockedS clock rollQuotaMaxBatches 0
    (mkRollStats (rs_Rolled st) (rs_Cycle st) (rs_Switched st) (S (rs_Passes st))).

(** [now2] is the clock between the passes. *)
Definition RollQuotas (W : Env) (lockedQ1 lockedS1 lockedQ2 lockedS2 : nat → uuid → bool)
    (clock1 clock2 : nat → Time) (now2 : Time) : SM RollStats :=
  st ← rollPass W lockedQ1 lockedS1 clock1 (mkRollStats 0 0 0 0);
  remain ← map_err subErr (QuotaRollsRemain W now2);
  if remain : bool then rollPass W lockedQ2 lockedS2 clock2 st else mret st.
End Roll.
