(* ===== verification/SubHistory.v ===== *)
(** Every operation of the subscription module keeps the tables consistent, in
    any order and interleaved at transaction granularity; a closed renewal
    window is final. *)
From Stdlib Require Import ZArith Lia.
From stdpp Require Import base tactics list gmap strings sorting relations.
From S2P Require Import Prelude Decimal GoString Money GoTime Period SubTypes SubStore SubFacts.
From S2P Require Import Subscription SubAdmin Sweep Charge Roll.
#[local] Open Scope string_scope.
#[local] Open Scope Z_scope.

Section History.
Context `{DL : DecimalLib}.
Abbreviation SM := (M store serr).

(** * The operations are safe *)

Lemma label_loop_safe W id user label n k : safe W (label_loop W id user label n k).
Proof. revert n. induction k as [|k IH]; intros n; simpl; safe_walk. Qed.

Lemma provisionAt_safe W b proxy token in_ v label start end_ extra :
  safe W (provisionAt W b proxy token in_ v label start end_ extra).
Proof.
  unfold provisionAt, provisionLabel.
  safe_walk; first [apply CreateSubscription_safe; done | apply label_loop_safe].
Qed.

Lemma Provision_safe W b now proxy token in_ : safe W (Provision W b now proxy token in_).
Proof. unfold Provision. safe_walk; apply provisionAt_safe. Qed.

Lemma add_trial_safe W u i : safe W (modify (add_trial u i)).
Proof.
  intros s r s' Hs H. unfold modify in H. simplify_eq. split; [by eapply logs_ok|by apply evolves_logs].
Qed.

Lemma GrantSignupTrial_safe W b now proxy token u p h : safe W (GrantSignupTrial W b now proxy token u p h).
Proof. unfold GrantSignupTrial. safe_walk; first [apply provisionAt_safe | apply add_trial_safe]. Qed.

Lemma Renew_safe W b now in_ : safe W (Renew W b now in_).
Proof. unfold Renew, restartQuotas, lockOwned. safe_walk. Qed.

Lemma extend_loop_safe W prev now end_ r l d c rows p reset :
  safe W (extend_loop prev now end_ r l d c rows p reset).
Proof.
  revert p reset. induction rows as [|q rows IH]; intros p reset; simpl; [apply safe_ret|].
  destruct (extend_case prev r l d c q) as [[l'|] add| |]; safe_walk; by apply UpdateQuota_safe.
Qed.

Lemma Extend_safe W b now in_ : safe W (Extend W b now in_).
Proof. unfold Extend, lockOwned. safe_walk; apply extend_loop_safe. Qed.

Lemma Stack_safe W b wall now in_ : safe W (Stack W b wall now in_).
Proof. unfold Stack, stack_quota, lockOwned. safe_walk. Qed.

Lemma ChangePlan_safe W b now in_ : safe W (ChangePlan W b now in_).
Proof. unfold ChangePlan, lockOwned. safe_walk. Qed.

Lemma GrantBonus_safe W b now1 now2 in_ : safe W (GrantBonus W b now1 now2 in_).
Proof. unfold GrantBonus, lockOwned. safe_walk. Qed.

Lemma reset_loop_safe W rows tr f : safe W (reset_loop rows tr f).
Proof. revert tr f. induction rows as [|q rows IH]; intros tr f; simpl; safe_walk. Qed.

Lemma ResetTraffic_safe W b now in_ : safe W (ResetTraffic W b now in_).
Proof. unfold ResetTraffic, lockOwned. safe_walk; apply reset_loop_safe. Qed.

Lemma for_each_safe {A} W (f : A → SM ()) l : (∀ x, safe W (f x)) → safe W (for_each f l).
Proof. intros Hf. induction l as [|x l IH]; simpl; safe_walk; auto. Qed.

Lemma expireBatch_safe W locked now : safe W (expireBatch W locked now).
Proof.
  unfold expireBatch, emitExpired. safe_walk; unfold LockDueExpiries; try apply safe_gets;
    apply for_each_safe; unfold expire_one; safe_walk.
Qed.

Lemma closeBatch_safe W locked now : safe W (closeBatch W locked now).
Proof.
  unfold closeBatch. safe_walk; unfold LockDueRenewalCloses; try apply safe_gets;
    apply for_each_safe; unfold close_one; safe_walk.
Qed.

Lemma ExpireDue_safe W l1 l2 c1 c2 : safe W (ExpireDue W l1 l2 c1 c2).
Proof.
  assert (He : ∀ k n e, safe W (expire_loop W l1 c1 k n e)).
  { intros k. induction k as [|k IH]; intros n e; simpl; safe_walk; auto using expireBatch_safe. }
  assert (Hc : ∀ k n a b, safe W (close_loop W l2 c2 k n a b)).
  { intros k. induction k as [|k IH]; intros n a b; simpl; safe_walk; auto using closeBatch_safe. }
  unfold ExpireDue. safe_walk; auto.
Qed.

Lemma lock_all_safe W u rows : safe W (lock_all u rows).
Proof. unfold lock_all, lockOwned. induction rows; simpl; safe_walk. Qed.

Lemma close_active_safe W actor now m : safe W (close_active W actor now m).
Proof. unfold close_active. safe_walk. Qed.

Lemma CloseUserSubscriptions_safe W b actor now u : safe W (CloseUserSubscriptions W b actor now u).
Proof.
  unfold CloseUserSubscriptions, SubscriptionsByUsers.
  safe_walk; first [apply lock_all_safe | apply for_each_safe; intros; auto using close_active_safe with sub_safe].
Qed.

Lemma AddQuotaConsumed_safe W adds : safe W (AddQuotaConsumed adds).
Proof.
  intros s r s' Hs H. unfold AddQuotaConsumed in H. destruct adds as [|a adds]; [simplify_eq; by apply same_state|].
  destruct (check_all _ _) as [u|] eqn:E; [|simplify_eq; by apply same_state].
  destruct (Nat.eqb _ _); simplify_eq; [|by apply same_state]. apply check_all_ok in E.
  apply update_quotas_ok; [done| |done]. intros q. unfold add_consumed. by destruct (amount_for _ _).
Qed.

Lemma AddUsageDaily_safe W day adds : safe W (AddUsageDaily day adds).
Proof.
  intros s r s' Hs H. unfold AddUsageDaily in H.
  repeat (destruct (negb _); [simplify_eq; by apply same_state|]). simplify_eq.
  split; [by eapply logs_ok|by apply evolves_logs].
Qed.

Lemma ChargeTraffic_safe W b now charges : safe W (ChargeTraffic W b now charges).
Proof.
  unfold ChargeTraffic, LockTrafficQuotas, SubscriptionIDsByNodeUIDs, notifyRosterBatch.
  safe_walk; auto using AddQuotaConsumed_safe, AddUsageDaily_safe.
Qed.

Lemma ApplyQuotaRolls_safe W rolls : safe W (ApplyQuotaRolls rolls).
Proof.
  intros s r s' Hs H. unfold ApplyQuotaRolls in H. destruct rolls as [|a rolls]; [simplify_eq; by apply same_state|].
  destruct (check_all _ _) as [u|] eqn:E; simplify_eq; [|by apply same_state]. apply check_all_ok in E.
  apply update_quotas_ok; [done| |done]. intros q. unfold roll_row. by destruct (roll_for _ _).
Qed.

(** A step is safe from one state. *)
Definition safe_at {A} (W : Env) (s : store) (m : SM A) : Prop :=
  ∀ r s', m s = (r, s') → store_ok W s' ∧ evolves s s'.

Lemma safe_at_bind {A B} W s (m : SM A) (f : A → SM B) :
  safe_at W s m → (∀ a s1, store_ok W s1 → m s = (Ok a, s1) → safe_at W s1 (f a)) → safe_at W s (m ≫= f).
Proof.
  intros Hm Hf r s' H. unfold mbind, M_bind in H. destruct (m s) as [[a|e] s1] eqn:E.
  - destruct (Hm _ _ E) as [Hs1 He]. destruct (Hf a s1 Hs1 eq_refl r s' H) as [Hs2 He2]. split; [done|]. by etrans.
  - simplify_eq. by eapply Hm.
Qed.
Lemma safe_at_safe {A} W s (m : SM A) : store_ok W s → safe W m → safe_at W s m.
Proof. intros Hs Hm r s' H. by eapply Hm. Qed.
Lemma safe_at_map_err {A} W s f (m : SM A) : safe_at W s m → safe_at W s (map_err f m).
Proof. intros Hm r s' H. unfold map_err in H. destruct (m s) as [[a|e] s1] eqn:E; simplify_eq; by eapply Hm. Qed.

Lemma find_sub_in id l r : find_sub id l = Some r → r ∈ l ∧ s_ID r = id.
Proof. intros [Hin Hid]%find_some. split; [by apply list_elem_of_In|by apply N.eqb_eq]. Qed.

(** Due rows belong to active subscriptions. *)
Definition live_cand (l : list sub_row) (c : QuotaRollCandidate) : Prop :=
  ∃ x, x ∈ l ∧ s_ID x = rc_SubscriptionID c ∧ s_Status x = StatusActive.

Lemma candidate_live W now l q c : candidate W now l q = Some c → live_cand l c.
Proof.
  unfold candidate. destruct (find_sub _ _) as [x|] eqn:Hf; [|done]. destruct (roll_due W now q x) eqn:Hd; [|done].
  intros E. injection E as <-. apply find_sub_in in Hf as [? ?]. exists x. split_and!; [done..|].
  unfold roll_due in Hd. destruct (q_PeriodEnd q); [|done]. apply andb_true_iff in Hd as [Hd _].
  apply andb_true_iff in Hd as [Hd _]. by apply String.eqb_eq.
Qed.

Lemma switches_live targets cs seen w :
  w ∈ switches targets cs seen → ∃ c, c ∈ cs ∧ vs_SubscriptionID w = rc_SubscriptionID c.
Proof.
  revert seen. induction cs as [|c cs IH]; intros seen Hw; simpl in Hw; [by apply elem_of_nil in Hw|].
  destruct (_ && _).
  - apply elem_of_cons in Hw as [-> |Hw]; [exists c; split; [constructor|done]|].
    destruct (IH _ Hw) as (c' & ? & ?). exists c'. split; [by constructor|done].
  - destruct (IH _ Hw) as (c' & ? & ?). exists c'. split; [by constructor|done].
Qed.

Lemma SwitchPlanVersions_safe_at W s sw :
  store_ok W s → (∀ w x, w ∈ sw → x ∈ subs s → s_ID x = vs_SubscriptionID w → s_Status x = StatusActive) →
  safe_at W s (SwitchPlanVersions W sw).
Proof.
  intros Hs Ha. unfold SwitchPlanVersions. destruct sw as [|w0 sw0]; [by apply safe_at_safe, safe_ret|].
  intros r s' H. unfold update_returning in H. destruct (check_all _ _) as [u|] eqn:E; simplify_eq; [|by apply same_state].
  apply check_all_ok in E. apply update_subs_ok; [done| |done|].
  - intros x. by destruct (switch_for _ x).
  - intros x t Hx Hp Ht. exfalso. apply bool_decide_eq_true in Hp as [w Hw].
    apply find_some in Hw as [Hw1 Hw2]. apply andb_true_iff in Hw2 as [Hw2 _]. apply N.eqb_eq in Hw2.
    pose proof (sub_check_closed x t (row_check _ _ _ Hs Hx) Ht) as Hst.
    rewrite (Ha w x) in Hst; [done| |done|done]. by apply list_elem_of_In.
Qed.

Lemma ApplyQuotaRolls_subs rolls s r s' : ApplyQuotaRolls rolls s = (r, s') → subs s' = subs s.
Proof.
  unfold ApplyQuotaRolls. destruct rolls; [by intros; simplify_eq|]. destruct (check_all _ _); by intros; simplify_eq.
Qed.
Lemma InsertResetLogs_subs W rows s r s' : InsertResetLogs W rows s = (r, s') → subs s' = subs s.
Proof. unfold InsertResetLogs. destruct (check_all _ _); by intros; simplify_eq. Qed.

Lemma LockDueQuotaRolls_live W lq ls now n s c cands :
  LockDueQuotaRolls W lq ls now n s = (Ok cands, s) → c ∈ cands → live_cand (subs s) c.
Proof.
  unfold LockDueQuotaRolls, gets. intros H Hc. injection H as <-.
  eapply elem_of_sublist in Hc; [|apply sublist_take].
  apply elem_of_filter_bool in Hc as [_ Hc]. apply list_elem_of_omap in Hc as (q & _ & Hq). by eapply candidate_live.
Qed.

Lemma rollBatch_safe W lq ls now st : safe W (rollBatch W lq ls now st).
Proof.
  unfold rollBatch. apply safe_tx. intros s r s' Hs. apply safe_at_bind.
  { apply safe_at_map_err, safe_at_safe; [done|]. apply safe_gets. }
  clear r s'. intros cands s1 _ Hc. apply map_err_ok in Hc.
  assert (s1 = s) as ->. { unfold LockDueQuotaRolls, gets in Hc. congruence. }
  destruct cands as [|c0 cands0] eqn:Ecands; [by apply safe_at_safe, safe_ret|]. rewrite <- Ecands in *.
  assert (Hlive : ∀ c, c ∈ cands → live_cand (subs s) c) by (intros; eapply LockDueQuotaRolls_live; eauto).
  clear Hc Ecands c0 cands0. apply safe_at_bind; [by apply safe_at_safe, safe_lift|]. intros vt s1 _ Hv.
  assert (s1 = s) as -> by (unfold lift in Hv; congruence). clear Hv.
  set (planned := omap _ cands). set (byID := find_cand (map fst planned)).
  assert (Hby : ∀ id c, byID id = Some c → c ∈ cands).
  { intros id c Hf. apply find_some in Hf as [Hin _]. apply list_elem_of_In, list_elem_of_fmap in Hin as ([c' r'] & -> & Hin).
    apply list_elem_of_omap in Hin as (c2 & Hc2 & E). destruct (planRoll c2 now vt.1 vt.2); [|done].
    simpl in E. by injection E as <- <-. }
  apply safe_at_bind; [by apply safe_at_map_err, safe_at_safe, ApplyQuotaRolls_safe|].
  intros rolled s1 Hs1 E1. apply map_err_ok, ApplyQuotaRolls_subs in E1.
  apply safe_at_bind; [by apply safe_at_map_err, safe_at_safe, InsertResetLogs_safe|].
  intros u s2 Hs2 E2. apply map_err_ok, InsertResetLogs_subs in E2.
  apply safe_at_bind.
  - apply safe_at_map_err, SwitchPlanVersions_safe_at; [done|]. intros w x Hw Hx Hid.
    apply switches_live in Hw as (c & Hc & Ew). apply list_elem_of_omap in Hc as (rq & _ & Hrq).
    apply Hby, Hlive in Hrq as (y & Hy & Hyid & Hst).
    assert (x = y) as ->; [|done]. rewrite E2, E1 in Hx.
    eapply (NoDup_map_inj s_ID); [apply Hs|done..|]. congruence.
  - intros switched s3 Hs3 _. apply safe_at_safe; [done|]. safe_walk.
Qed.

Lemma RollQuotas_safe W a b c d c1 c2 now : safe W (RollQuotas W a b c d c1 c2 now).
Proof.
  assert (H : ∀ a b cl k n st, safe W (roll_batches W a b cl k n st)).
  { intros a0 b0 cl k. induction k as [|k IH]; intros n st; simpl; safe_walk; auto using rollBatch_safe. }
  unfold RollQuotas, rollPass, QuotaRollsRemain. safe_walk; auto.
Qed.

(** ** By hand *)

Lemma RevokeActiveCredentials_safe W id reason at_ grace : safe W (RevokeActiveCredentials id reason at_ grace).
Proof.
  intros s r s' Hs H. unfold RevokeActiveCredentials in H. injection H as _ <-. split; [|by apply evolves_logs].
  destruct Hs as [? ? ? ? ? ? ? ? ? ? Hc ?]. split; simpl; try done. eapply sublist_NoDup; [exact Hc|]. by apply omap_update_None.
Qed.

Lemma RotateProxyUUID_safe W proxy id : safe W (RotateProxyUUID proxy id).
Proof.
  intros s r s' Hs H. unfold RotateProxyUUID in H. destruct (negb _); [simplify_eq; by apply same_state|].
  destruct (existsb _ _); simplify_eq; [by apply same_state|]. apply update_subs_ok; [done|done| |by split].
  apply Forall_forall. intros x [y [-> Hy]]%list_elem_of_fmap. apply elem_of_filter_bool in Hy as [_ Hy].
  exact (row_ok W s y Hs Hy).
Qed.

Lemma rotateLocked_safe W now proxy token m a src : safe W (rotateLocked W now proxy token m a src).
Proof. unfold rotateLocked. safe_walk; auto using RevokeActiveCredentials_safe, RotateProxyUUID_safe. Qed.

Lemma rejectDeletedOwner_safe W D id : safe W (rejectDeletedOwner D id).
Proof. unfold rejectDeletedOwner. safe_walk. Qed.
Lemma lockForAdmin_safe W D id : safe W (lockForAdmin D id).
Proof. unfold lockForAdmin, lockOwned. safe_walk. apply rejectDeletedOwner_safe. Qed.

Lemma MyRotate_safe W D b who now1 now2 proxy token id : safe W (MyRotate W D b who now1 now2 proxy token id).
Proof. unfold MyRotate, lockOwned, ActiveCredential. safe_walk; apply rotateLocked_safe. Qed.
Lemma AdminRotate_safe W D b who now1 now2 proxy token id r : safe W (AdminRotate W D b who now1 now2 proxy token id r).
Proof. unfold AdminRotate. safe_walk; auto using lockForAdmin_safe, rotateLocked_safe. Qed.

Lemma end_loop_safe W prev e rows : safe W (end_loop prev e rows).
Proof. induction rows as [|q rows IH]; simpl; safe_walk. Qed.

Lemma live_active m now : state_of m now = StateLive → s_Status m = StatusActive.
Proof.
  unfold state_of, StateAt. destruct (s_RenewalClosedAt m); [done|]. by destruct (String.eqb_spec (s_Status m) StatusActive).
Qed.

Lemma AdminSetPeriodEnd_safe W D b who now id e r : safe W (AdminSetPeriodEnd W D b who now id e r).
Proof.
  unfold AdminSetPeriodEnd. safe_walk; auto using lockForAdmin_safe, end_loop_safe. apply UpdateSubscription_safe; [done|].
  intros x t Hst Ht Hx _. exfalso. pose proof (sub_check_closed _ _ Hx Ht) as He.
  match goal with H : negb (bool_decide (state_of _ now = _)) = false |- _ => apply negb_false_iff, bool_decide_eq_true in H; apply live_active in H; rewrite He, H in Hst end.
  done.
Qed.

Lemma AdminSetQuotaLimit_safe W D b who now id m p l r : safe W (AdminSetQuotaLimit W D b who now id m p l r).
Proof. unfold AdminSetQuotaLimit. safe_walk; auto using lockForAdmin_safe. Qed.
Lemma AdminExtend_safe W D b who now id n r : safe W (AdminExtend W D b who now id n r).
Proof. unfold AdminExtend. safe_walk; auto using rejectDeletedOwner_safe, Extend_safe. Qed.
Lemma AdminGrantTraffic_safe W D b who now1 now2 id n r : safe W (AdminGrantTraffic W D b who now1 now2 id n r).
Proof. unfold AdminGrantTraffic. safe_walk; auto using lockForAdmin_safe, GrantBonus_safe. Qed.
Lemma AdminResetTraffic_safe W D b who now id r : safe W (AdminResetTraffic W D b who now id r).
Proof. unfold AdminResetTraffic. safe_walk; auto using lockForAdmin_safe, ResetTraffic_safe. Qed.
Lemma AdminSetDeviceLimit_safe W D b who id l : safe W (AdminSetDeviceLimit W D b who id l).
Proof.
  unfold AdminSetDeviceLimit. safe_walk; auto using lockForAdmin_safe. apply UpdateSubscription_safe; [done|]. by split.
Qed.
Lemma SetMyLabel_safe W D b who id l : safe W (SetMyLabel W D b who id l).
Proof. unfold SetMyLabel, lockOwned. safe_walk. Qed.

(** * Histories *)

(** One committed or failed call of the module. *)
Inductive sub_step (W : Env) (s : store) : store → Prop :=
| step_provision now proxy token in_ : sub_step W s (Provision W false now proxy token in_ s).2
| step_trial now proxy token u p h : sub_step W s (GrantSignupTrial W false now proxy token u p h s).2
| step_renew now in_ : sub_step W s (Renew W false now in_ s).2
| step_extend now in_ : sub_step W s (Extend W false now in_ s).2
| step_stack wall now in_ : sub_step W s (Stack W false wall now in_ s).2
| step_change now in_ : sub_step W s (ChangePlan W false now in_ s).2
| step_bonus now1 now2 in_ : sub_step W s (GrantBonus W false now1 now2 in_ s).2
| step_reset now in_ : sub_step W s (ResetTraffic W false now in_ s).2
| step_expire l1 l2 c1 c2 : sub_step W s (ExpireDue W l1 l2 c1 c2 s).2
| step_close actor now u : sub_step W s (CloseUserSubscriptions W false actor now u s).2
| step_charge now charges : sub_step W s (ChargeTraffic W false now charges s).2
| step_roll a b c d c1 c2 now : sub_step W s (RollQuotas W a b c d c1 c2 now s).2
| step_rotate D who now1 now2 proxy token id : sub_step W s (MyRotate W D false who now1 now2 proxy token id s).2
| step_admin_rotate D who now1 now2 proxy token id r : sub_step W s (AdminRotate W D false who now1 now2 proxy token id r s).2
| step_set_end D who now id e r : sub_step W s (AdminSetPeriodEnd W D false who now id e r s).2
| step_set_limit D who now id m p l r : sub_step W s (AdminSetQuotaLimit W D false who now id m p l r s).2
| step_admin_extend D who now id n r : sub_step W s (AdminExtend W D false who now id n r s).2
| step_grant D who now1 now2 id n r : sub_step W s (AdminGrantTraffic W D false who now1 now2 id n r s).2
| step_admin_reset D who now id r : sub_step W s (AdminResetTraffic W D false who now id r s).2
| step_devices D who id l : sub_step W s (AdminSetDeviceLimit W D false who id l s).2
| step_label D who id l : sub_step W s (SetMyLabel W D false who id l s).2.

Lemma sub_step_safe W s s' : store_ok W s → sub_step W s s' → store_ok W s' ∧ evolves s s'.
Proof.
  intros Hs Hst.
  assert (Hany : ∀ A (m : SM A), safe W m → store_ok W (m s).2 ∧ evolves s (m s).2).
  { intros A m Hm. destruct (m s) as [r s1] eqn:E. by eapply Hm. }
  destruct Hst; apply Hany; auto using Provision_safe, GrantSignupTrial_safe, Renew_safe, Extend_safe, Stack_safe,
    ChangePlan_safe, GrantBonus_safe, ResetTraffic_safe, ExpireDue_safe, CloseUserSubscriptions_safe,
    ChargeTraffic_safe, RollQuotas_safe, MyRotate_safe, AdminRotate_safe, AdminSetPeriodEnd_safe, AdminSetQuotaLimit_safe,
    AdminExtend_safe, AdminGrantTraffic_safe, AdminResetTraffic_safe, AdminSetDeviceLimit_safe, SetMyLabel_safe.
Qed.

Lemma history_safe W s s' : store_ok W s → rtc (sub_step W) s s' → store_ok W s' ∧ evolves s s'.
Proof.
  intros Hs H. induction H as [|a b c Hst _ IH]; [done|].
  destruct (sub_step_safe _ _ _ Hs Hst) as [Hb He]. destruct (IH Hb) as [Hc He2]. split; [done|]. by etrans.
Qed.

(** The tables of a new installation. *)
Definition empty_store : store := mkStore [] [] [] [] [] ∅ ∅ [] ∅ 1 1.

Lemma empty_store_ok W : store_ok W empty_store.
Proof. split; simpl; try constructor; done. Qed.

(** C31: closing is final.  Once a subscription's renewal window is closed, no
    later sequence of calls revives it: it stays expired and closed, keeps its
    plan and its period, and the list of subscriptions the nodes serve never
    contains it again, at any time. *)
Theorem closed_is_final W s s' i r t now :
  store_ok W s → rtc (sub_step W) s s' → subs s !! i = Some r → s_RenewalClosedAt r = Some t →
  ∃ r', subs s' !! i = Some r' ∧ s_ID r' = s_ID r ∧ s_RenewalClosedAt r' = Some t ∧
    s_Status r' = StatusExpired ∧ s_PlanID r' = s_PlanID r ∧ s_PlanVersionID r' = s_PlanVersionID r ∧
    s_PeriodStart r' = s_PeriodStart r ∧ s_PeriodEnd r' = s_PeriodEnd r ∧
    ∀ l, (ServingSubscriptions now s').1 = Ok l → s_ID r ∉ map s_ID l.
Proof.
  intros Hs H Hi Ht. apply history_safe in H as [Hs' He]; [|done].
  destruct (ev_rows _ _ He i r Hi) as (r' & Hi' & Hre). exists r'.
  destruct (re_closed _ _ Hre t Ht) as (Hc' & Hst & ? & ? & ? & ?).
  pose proof (sub_check_closed r t (row_check _ _ _ Hs ltac:(by eapply list_elem_of_lookup_2)) Ht) as Hx.
  split_and!; [done|apply Hre|done|congruence|done..|].
  intros l Hl [x [Hxid Hxl]]%list_elem_of_fmap. unfold ServingSubscriptions, gets in Hl. simpl in Hl. injection Hl as <-.
  rewrite merge_sort_Permutation in Hxl. apply elem_of_filter_bool in Hxl as [Hsv Hxs].
  assert (x = r') as ->.
  { eapply (NoDup_map_inj s_ID); [apply Hs'|done|by eapply list_elem_of_lookup_2|]. rewrite (re_id _ _ Hre). done. }
  unfold serving in Hsv. rewrite Hst, Hx in Hsv. done.
Qed.
End History.
