(* ===== verification/SubExact.v ===== *)
(** What the statements and the shared helpers of the subscription module do
    when they succeed, and when they do: the equations the operation theorems
    are computed with. *)
From Stdlib Require Import ZArith QArith Lia Lqa.
From stdpp Require Import base tactics list gmap strings sorting.
From S2P Require Import Prelude Decimal GoString Money GoTime Period SubTypes SubStore SubFacts.
#[local] Open Scope string_scope.
#[local] Open Scope Z_scope.

Lemma bind_eq {S E A B} (m : M S E A) (f : A → M S E B) s a s1 :
  m s = (Ok a, s1) → (m ≫= f) s = f a s1.
Proof. intros H. unfold mbind, M_bind. by rewrite H. Qed.
Lemma bind_err {S E A B} (m : M S E A) (f : A → M S E B) s e s1 :
  m s = (Err e, s1) → (m ≫= f) s = (Err e, s1).
Proof. intros H. unfold mbind, M_bind. by rewrite H. Qed.
Lemma lift_eq {S E A} (r : result E A) a (s : S) : r = Ok a → lift r s = (Ok a, s).
Proof. by intros ->. Qed.
Lemma map_err_run {S E A} (f : E → E) (m : M S E A) s a s1 : m s = (Ok a, s1) → map_err f m s = (Ok a, s1).
Proof. intros H. unfold map_err. by rewrite H. Qed.
Lemma gets_eq {S E A} (f : S → A) (s : S) : gets (E := E) f s = (Ok (f s), s).
Proof. done. Qed.

Section Exact.
Context `{DL : DecimalLib}.
Abbreviation SM := (M store serr).

Lemma tx_eq {A} b (m : SM A) s a s1 : m s = (Ok a, s1) → tx b m s = (Ok a, s1).
Proof. intros H. unfold tx, Do. rewrite H. by destruct b. Qed.
Lemma tx_err {A} (m : SM A) s e s1 : m s = (Err e, s1) → tx false m s = (Err e, s).
Proof. intros H. unfold tx, Do. by rewrite H. Qed.

(** * Subscriptions *)

(** Replacing the row that has [r]'s identifier. *)
Definition put_sub (r : sub_row) (l : list sub_row) : list sub_row :=
  map (λ x, if (s_ID x =? s_ID r)%N then r else x) l.

Lemma find_sub_Some id l r : find_sub id l = Some r → r ∈ l ∧ s_ID r = id.
Proof. intros [Hin Hid]%find_some. split; [by apply list_elem_of_In|by apply N.eqb_eq]. Qed.

Lemma find_sub_eq W s r : store_ok W s → r ∈ subs s → find_sub (s_ID r) (subs s) = Some r.
Proof.
  intros Hs Hr. destruct (find_sub (s_ID r) (subs s)) as [x|] eqn:E.
  - apply find_sub_Some in E as [Hx Hid]. f_equal. eapply (NoDup_map_inj s_ID); [apply Hs|done..].
  - unfold find_sub in E. eapply find_none in E; [|by apply list_elem_of_In]. by rewrite N.eqb_refl in E.
Qed.

Lemma lockOwned_eq W s m owner :
  store_ok W s → m ∈ subs s → match owner with Some o => o = s_UserID m | None => True end →
  lockOwned (s_ID m) owner s = (Ok m, s).
Proof.
  intros Hs Hm Ho. unfold lockOwned, loadSub.
  destruct (proj1 (Forall_forall _ _) (so_fresh _ _ Hs) m Hm) as [Hp _].
  destruct (N.eqb_spec (s_ID m) uuid_Nil); [unfold uuid_Nil in *; lia|].
  erewrite bind_eq; [|apply map_err_run, gets_eq]. rewrite (find_sub_eq W) by done.
  destruct owner as [o|]; [|done]. subst o. by rewrite N.eqb_refl.
Qed.

Lemma update_put W s m (p : sub_row → bool) f :
  store_ok W s → m ∈ subs s → p m = true → (∀ x, p x = true → s_ID x = s_ID m) → s_ID (f m) = s_ID m →
  update_where p f (subs s) = put_sub (f m) (subs s) ∧ List.filter p (subs s) = [m].
Proof.
  intros Hs Hm Hp Hid Hf.
  assert (Hone : ∀ x, x ∈ subs s → p x = true ↔ x = m).
  { intros x Hx. split; [|by intros ->]. intros Hpx. eapply (NoDup_map_inj s_ID); [apply Hs|done..|by apply Hid]. }
  split.
  - unfold update_where, put_sub. rewrite Hf. apply map_ext_in. intros x Hx%list_elem_of_In.
    destruct (N.eqb_spec (s_ID x) (s_ID m)) as [E|E].
    + assert (x = m) as -> by (eapply (NoDup_map_inj s_ID); [apply Hs|done..]). by rewrite Hp.
    + destruct (p x) eqn:Hpx; [|done]. by apply Hid in Hpx.
  - pose proof (so_ids _ _ Hs) as Hn. clear Hs Hf Hid. induction (subs s) as [|x l IH]; [by apply elem_of_nil in Hm|].
    simpl in *. apply NoDup_cons in Hn as [Hx Hn]. destruct (p x) eqn:Hpx.
    + apply Hone in Hpx as ->; [|constructor]. f_equal.
      destruct (List.filter p l) as [|y k] eqn:E; [done|]. exfalso.
      assert (Hy : y ∈ List.filter p l) by (rewrite E; constructor). apply elem_of_filter_bool in Hy as [Hpy Hy].
      apply Hone in Hpy as ->; [|by constructor]. apply Hx. by apply list_elem_of_fmap_2.
    + assert (m ∈ l) by (apply elem_of_cons in Hm as [-> |]; [congruence|done]).
      assert (∀ y, y ∈ l → p y = true ↔ y = m) by (intros y Hy; apply Hone; by constructor). auto.
Qed.

(** A transition of a row that passes the checks. *)
Lemma transition_eq W s m to amount cols :
  store_ok W s → m ∈ subs s → CanTransition (s_Status m) to = true →
  match amount with Some d => Check d = Ok () | None => True end →
  s_ID (cols m) = s_ID m → write_sub W (set_status to (cols m)) = Ok () →
  transition W m to amount cols s = (Ok (), set_subs (put_sub (set_status to (cols m))) s).
Proof.
  intros Hs Hm Hc Ha Hid Hw. unfold transition. rewrite Hc. simpl.
  set (f := λ r, set_status to (cols r)).
  destruct (update_put W s m (λ r, (s_ID r =? s_ID m)%N && String.eqb (s_Status r) (s_Status m)) f) as [E1 E2]; try done.
  { by rewrite N.eqb_refl, String.eqb_refl. }
  { intros x [Hx _]%andb_true_iff. by apply N.eqb_eq. }
  assert (Hu : UpdateSubscription W (s_ID m) (s_Status m) amount f s = (Ok true, set_subs (put_sub (f m)) s)).
  { unfold UpdateSubscription. rewrite E2. simpl. unfold f at 1. rewrite Hw. unfold set_subs at 1. rewrite E1.
    destruct amount; [by rewrite Ha|done]. }
  erewrite bind_eq; [|by apply map_err_run]. done.
Qed.

(** * Prices and periods *)

(** A price the service accepts, and that the database can store. *)
Record price_ok (W : Env) (p : Price) : Prop := {
  po_valid : validatePrice p = Ok ();
  po_fits : amount_fits (p_Amount p) = true;
  po_ref : mem_opt (p_PriceID p) (env_prices W) = true;
}.

Lemma validatePrice_facts p :
  validatePrice p = Ok () →
  Check (p_Amount p) = Ok () ∧ IsNegative (p_Amount p) = false ∧ ValidInterval (Interval (p_Snap p)) = true ∧
  1 ≤ IntervalCount (p_Snap p) ≤ 32767.
Proof.
  unfold validatePrice. destruct (match ValidityDays (p_Snap p) with Some _ => _ | None => _ end); [done|].
  unfold CheckNonNegative. destruct (IsNegative (p_Amount p)) eqn:Hn; [done|].
  destruct (Check (p_Amount p)) as [[]|]; [|done]. intros H%reject_ok.
  apply orb_false_iff in H as [H H3]. apply orb_false_iff in H as [H1 H2]. apply negb_false_iff in H1. split_and!; [done..|lia|lia].
Qed.

Lemma Truncate_after t u : t + 1000 ≤ u → t < Truncate u Microsecond.
Proof. intros H. unfold Truncate, Microsecond. pose proof (Z.mod_pos_bound u 1000). lia. Qed.

Lemma PeriodEndFor_after start p : count_ok (IntervalCount p) → start < PeriodEndFor start p.
Proof.
  intros Hc. unfold PeriodEndFor.
  assert (HD : 1000 ≤ Day) by (vm_compute; discriminate).
  assert (Hi : start < Truncate (AddInterval start (Interval p) (IntervalCount p)) Microsecond).
  { apply Truncate_after. pose proof (AddInterval_grows start (Interval p) _ Hc). lia. }
  unfold validity. destruct (ValidityDays p) as [n|]; [|done]. destruct (Z.ltb_spec 0 n); [|done].
  destruct (String.eqb _ _); [|done]. apply Truncate_after. rewrite AddDate_days. nia.
Qed.

Lemma price_period W start p : price_ok W p → start < PeriodEndFor start (p_Snap p).
Proof.
  intros [Hv _ _]. apply PeriodEndFor_after. apply validatePrice_facts in Hv as (_ & _ & _ & ?). unfold count_ok. lia.
Qed.

(** A row with a new price snapshot, period and plan passes the checks. *)
Lemma write_sub_ok W r r' :
  write_sub W r = Ok () → s_UserID r' = s_UserID r → s_SourceOrderID r' = s_SourceOrderID r →
  s_DeviceLimit r' = s_DeviceLimit r → s_RenewalClosedAt r' = None →
  s_Status r' = StatusActive ∨ s_Status r' = StatusExpired → s_PeriodStart r' < s_PeriodEnd r' →
  amount_fits (s_Amount r') = true → IsNegative (s_Amount r') = false → ValidInterval (s_Interval r') = true →
  1 ≤ s_IntervalCount r' ≤ 32767 → mem_opt (s_PriceID r') (env_prices W) = true →
  (s_PlanID r', s_PlanVersionID r') ∈ env_versions W → write_sub W r' = Ok ().
Proof.
  intros Hw E1 E2 E3 E4 Hst Hp Ha Hn Hi Hc Hpr Hv. unfold write_sub in *.
  destruct (negb (amount_fits (s_Amount r))); [done|]. destruct (sub_check r) eqn:Hck; [|done].
  destruct (sub_fk W r) eqn:Hfk; [|done]. unfold sub_fk, sub_check in *. rewrite Ha, E1, E2, E3, E4, Hn, Hi, Hpr. simpl.
  apply andb_true_iff in Hck as [_ Hck]. rewrite Hck.
  apply andb_true_iff in Hfk as [Hfk ->]. apply andb_true_iff in Hfk as [Hfk _]. apply andb_true_iff in Hfk as [-> _].
  rewrite (bool_decide_eq_true_2 _ Hv).
  rewrite (bool_decide_eq_true_2 (s_Status r' ∈ _)) by (destruct Hst as [-> | ->]; set_solver).
  replace (s_PeriodStart r' <? s_PeriodEnd r') with true by lia.
  replace (0 <? s_IntervalCount r') with true by lia. replace (s_IntervalCount r' <=? 32767) with true by lia. done.
Qed.

Lemma write_sub_facts W r :
  write_sub W r = Ok () →
  amount_fits (s_Amount r) = true ∧ IsNegative (s_Amount r) = false ∧ ValidInterval (s_Interval r) = true ∧
  1 ≤ s_IntervalCount r ≤ 32767 ∧ mem_opt (s_PriceID r) (env_prices W) = true ∧
  (s_PlanID r, s_PlanVersionID r) ∈ env_versions W.
Proof.
  unfold write_sub. destruct (amount_fits (s_Amount r)); [|done]. destruct (sub_check r) eqn:Hck; [|done].
  destruct (sub_fk W r) eqn:Hfk; [|done]. intros _. unfold sub_check, sub_fk in *. reflect_bools.
  split_and!; try done; lia.
Qed.

(** * Logs *)

(** An actor the service accepts and the database knows. *)
Record actor_ok (W : Env) (a : Actor) : Prop := {
  ac_valid : validateActor a = Ok ();
  ac_ref : mem_opt (act_ID a) (env_users W) = true;
}.

Lemma validateActor_shape a :
  validateActor a = Ok () →
  act_Kind a ∈ [ActorUser; ActorAdmin; ActorSystem; ActorPayment; ActorScheduler] ∧
  bool_decide (act_Kind a ∈ [ActorUser; ActorAdmin]) = bool_decide (is_Some (act_ID a)).
Proof.
  unfold validateActor. destruct (bool_decide (act_Kind a ∈ [ActorUser; ActorAdmin])) eqn:H1.
  - intros H%reject_ok. apply bool_decide_eq_true in H1. split; [set_solver|].
    destruct (act_ID a); [|done]. symmetry. by apply bool_decide_eq_true.
  - destruct (bool_decide (act_Kind a ∈ [ActorSystem; _; _])) eqn:H2; [|done]. intros H%reject_ok.
    apply bool_decide_eq_true in H2. split; [set_solver|]. done.
Qed.

Lemma writeEvent_eq W s id typ from to a o payload :
  id ∈ map s_ID (subs s) → typ ∈ event_types → from = None ∨ from = Some StatusActive ∨ from = Some StatusExpired →
  to = StatusActive ∨ to = StatusExpired → actor_ok W a → mem_opt o (env_orders W) = true →
  writeEvent W id typ from to a o payload s =
    (Ok (), add_event (mkEvent id typ from to (act_Kind a) (act_ID a) o payload) s).
Proof.
  intros Hid Ht Hf Hto [Hv Hr] Ho. apply validateActor_shape in Hv as [Hk Hsh]. unfold writeEvent. apply map_err_run.
  unfold InsertEvent, event_check. simpl. rewrite (bool_decide_eq_true_2 _ Ht), (bool_decide_eq_true_2 _ Hk), Hsh, Hr, Ho.
  assert (status_ok to = true) as -> by (destruct Hto as [-> | ->]; done).
  assert (match from with None => true | Some f => status_ok f end = true) as ->
    by (destruct Hf as [-> |[-> | ->]]; done).
  rewrite Bool.eqb_reflx. simpl.
  assert (existsb (λ r, (s_ID r =? id)%N) (subs s) = true) as ->; [|done].
  apply existsb_true. apply list_elem_of_fmap in Hid as (x & -> & Hx). exists x. split; [done|]. by apply N.eqb_eq.
Qed.

Lemma notifyRoster_eq ids s : notifyRoster ids s =
  (Ok (), set_roster (λ r, list_to_set (List.filter (λ i, negb (i =? uuid_Nil)%N) ids) ∪ r) s).
Proof. done. Qed.

Lemma put_sub_ids r l : map s_ID (put_sub r l) = map s_ID l.
Proof.
  unfold put_sub. rewrite map_map. apply map_ext. intros x. by destruct (N.eqb_spec (s_ID x) (s_ID r)).
Qed.
Lemma put_sub_in r x l : x ∈ l → s_ID x = s_ID r → r ∈ put_sub r l.
Proof. intros Hx E. apply list_elem_of_fmap. exists x. by rewrite E, N.eqb_refl. Qed.

(** The owner of a row is found in the table by the logs' foreign keys. *)
Definition owned (l : list sub_row) (m : sub_row) : Prop := ∃ x, x ∈ l ∧ s_ID x = s_ID m ∧ s_UserID x = s_UserID m.

Lemma write_quota_log q : write_quota q = Ok () → metric_ok (q_Metric q) = true ∧ 0 ≤ q_Consumed q ∧ is_int64 (q_Consumed q) = true.
Proof.
  unfold write_quota. destruct (quota_range q) eqn:Hr; [|done]. destruct (quota_check q) eqn:Hc; [|done]. intros _.
  unfold quota_range, quota_check in *. reflect_bools. done.
Qed.

Lemma logResets_eq W s m before reason actor note :
  owned (subs s) m → (∀ q, q ∈ before → write_quota q = Ok ()) → reason ∈ reset_reasons →
  (reason = ResetManual → is_Some actor) → mem_opt actor (env_users W) = true →
  note = "" ∨ 1 ≤ RuneCountInString note ≤ 500 →
  logResets W m before reason actor note s = (Ok (), add_resets (map (reset_of m reason actor note) before) s).
Proof.
  intros (x & Hx & Ei & Eu) Hq Hr Hm Ha Hn. unfold logResets.
  assert (H : InsertResetLogs W (map (reset_of m reason actor note) before) s =
              (Ok (), add_resets (map (reset_of m reason actor note) before) s)).
  { unfold InsertResetLogs. rewrite (proj2 (check_all_ok _ _ ())); [done|].
    apply Forall_fmap, Forall_forall. intros q Hin. destruct (write_quota_log q (Hq q Hin)) as (H1 & H2 & H3).
    unfold write_reset, reset_check, reset_of. cbn [compose r_ConsumedBefore r_ConsumedAfter r_Metric r_Reason r_Note r_ActorID r_SubscriptionID r_UserID].
    rewrite H3, H1, (bool_decide_eq_true_2 _ Hr), Ha. replace (0 <=? q_Consumed q) with true by lia.
    assert (match (if String.eqb note "" then None else Some note) with None => true
            | Some n => between 1 (RuneCountInString n) 500 end = true) as ->.
    { destruct Hn as [-> |Hn]; [done|]. destruct (String.eqb note ""); [done|]. unfold between.
      apply andb_true_iff. split; lia. }
    assert (negb (String.eqb reason ResetManual) || bool_decide (is_Some actor) = true) as ->.
    { destruct (String.eqb_spec reason ResetManual) as [E|E]; [|done]. simpl. by apply bool_decide_eq_true, Hm. }
    simpl. assert (existsb (λ y, (s_ID y =? s_ID m)%N && (s_UserID y =? s_UserID m)%N) (subs s) = true) as ->; [|done].
    apply existsb_true. exists x. by rewrite Ei, Eu, !N.eqb_refl. }
  destruct before as [|q before]; [|by apply map_err_run].
  destruct s. unfold add_resets. simpl. by rewrite app_nil_r.
Qed.
End Exact.
