(* ===== verification/SubQuota.v ===== *)
(** Rewriting the quota rows of one subscription: loops of row updates, and
    [rebuildQuotas], which makes the rows exactly those a plan version
    defines. *)
From Stdlib Require Import ZArith Lia.
From stdpp Require Import base tactics list gmap strings sorting.
From S2P Require Import Prelude Decimal GoString Money GoTime Period SubTypes SubStore SubFacts SubExact.
#[local] Open Scope string_scope.
#[local] Open Scope Z_scope.

(** Rows [ids] of a table, each rewritten by [act]. *)
Definition upd_rows (act : quota_row → quota_row) (ids : list uuid) (T : list quota_row) : list quota_row :=
  map (λ x, if mem (q_ID x) ids then act x else x) T.

Definition keeps_qid (act : quota_row → quota_row) : Prop := ∀ q, q_ID (act q) = q_ID q.

Lemma upd_rows_nil act T : upd_rows act [] T = T.
Proof. unfold upd_rows. simpl. apply map_id. Qed.

Lemma upd_rows_ids act ids T : keeps_qid act → map q_ID (upd_rows act ids T) = map q_ID T.
Proof. intros Hk. unfold upd_rows. rewrite map_map. apply map_ext. intros x. by destruct (mem _ _); rewrite ?Hk. Qed.

Lemma upd_rows_cons act id ids T :
  keeps_qid act → id ∉ ids → upd_rows act ids (upd_rows act [id] T) = upd_rows act (id :: ids) T.
Proof.
  intros Hk Hn. unfold upd_rows. rewrite map_map. apply map_ext. intros x. simpl.
  destruct (N.eqb_spec (q_ID x) id) as [E|]; simpl; [|done].
  rewrite Hk, E. by rewrite (proj2 (mem_false id ids) Hn).
Qed.

Section Quota.
Context `{DL : DecimalLib}.
Abbreviation SM := (M store serr).

Definition qids (s : store) : list uuid := map q_ID (quotas s).
(** The quota rows of a subscription. *)
Definition rows_of (id : uuid) (T : list quota_row) : list quota_row := List.filter (λ q, mem (q_SubscriptionID q) [id]) T.
Definition rows_not (id : uuid) (T : list quota_row) : list quota_row :=
  List.filter (λ q, negb (q_SubscriptionID q =? id)%N) T.

Lemma mem_one a b : mem a [b] = (a =? b)%N.
Proof. unfold mem. simpl. by rewrite orb_false_r. Qed.

Lemma rows_of_in id T q : q ∈ rows_of id T ↔ q ∈ T ∧ q_SubscriptionID q = id.
Proof. unfold rows_of. rewrite elem_of_filter_bool, mem_one, N.eqb_eq. naive_solver. Qed.

Lemma find_quota_eq s q : NoDup (qids s) → q ∈ quotas s → find_quota (q_ID q) (quotas s) = Some q.
Proof.
  intros Hn Hq. destruct (find_quota (q_ID q) (quotas s)) as [x|] eqn:E.
  - apply find_quota_in in E as [Hx Hid]. f_equal. by eapply (NoDup_map_inj q_ID).
  - unfold find_quota in E. eapply find_none in E; [|by apply list_elem_of_In]. by rewrite N.eqb_refl in E.
Qed.

(** One row update, as part of a loop that applies [act]. *)
Lemma UpdateQuota_row act f q s :
  NoDup (qids s) → q ∈ quotas s → f q = act q → write_quota (act q) = Ok () →
  map_err subErr (UpdateQuota (q_ID q) f) s = (Ok (), set_quotas (upd_rows act [q_ID q]) s).
Proof.
  intros Hn Hq Hf Hw. apply map_err_run. unfold UpdateQuota. rewrite (find_quota_eq s q Hn Hq), Hf, Hw. f_equal.
  unfold set_quotas. f_equal. unfold update_where, upd_rows. apply map_ext_in. intros x Hx%list_elem_of_In.
  rewrite mem_one. destruct (N.eqb_spec (q_ID x) (q_ID q)) as [E|]; [|done].
  assert (x = q) as -> by (by eapply (NoDup_map_inj q_ID)). done.
Qed.

Lemma upd_row_in act id x T : x ∈ T → q_ID x ≠ id → x ∈ upd_rows act [id] T.
Proof.
  intros Hx Hne. unfold upd_rows. apply list_elem_of_fmap. exists x. split; [|done].
  rewrite mem_one. by destruct (N.eqb_spec (q_ID x) id).
Qed.

(** The rows still to visit are untouched by the update of another row. *)
Lemma rest_in act q rows T :
  NoDup (map q_ID (q :: rows)) → (∀ x, x ∈ q :: rows → x ∈ T) → ∀ x, x ∈ rows → x ∈ upd_rows act [q_ID q] T.
Proof.
  intros Hn Hin x Hx. apply upd_row_in; [apply Hin; by constructor|]. simpl in Hn. apply NoDup_cons in Hn as [Hn _].
  intros E. apply Hn. rewrite <- E. by apply list_elem_of_fmap_2.
Qed.

(** One turn of a loop over rows: what it leaves for the remaining ones. *)
Lemma visit act q rows s :
  keeps_qid act → NoDup (qids s) → NoDup (map q_ID (q :: rows)) → (∀ x, x ∈ q :: rows → x ∈ quotas s) →
  let s1 := set_quotas (upd_rows act [q_ID q]) s in
  NoDup (qids s1) ∧ NoDup (map q_ID rows) ∧ (∀ x, x ∈ rows → x ∈ quotas s1) ∧
  set_quotas (upd_rows act (map q_ID rows)) s1 = set_quotas (upd_rows act (q_ID q :: map q_ID rows)) s ∧
  (act q = q → s1 = s).
Proof.
  intros Hk Hn Hr Hin s1. pose proof Hr as Hr'. simpl in Hr'. apply NoDup_cons in Hr' as [Hnq Hr'].
  assert (Hq : q ∈ quotas s) by (apply Hin; constructor). split_and!.
  - unfold qids. simpl. by rewrite upd_rows_ids.
  - done.
  - exact (rest_in act q rows _ Hr Hin).
  - unfold s1, set_quotas. simpl. by rewrite upd_rows_cons.
  - intros E. unfold s1. destruct s as [a T]. unfold set_quotas. simpl. f_equal. unfold upd_rows.
    rewrite <- (map_id T) at 2. apply map_ext_in. intros x Hx%list_elem_of_In. rewrite mem_one.
    destruct (N.eqb_spec (q_ID x) (q_ID q)) as [Ei|]; [|done]. by rewrite (NoDup_map_inj q_ID T x q Hn Hx Hq Ei).
Qed.

(** * Rebuilding *)

(** What a rebuild makes of a row the version defines. *)
Definition fresh (v : Version) (start cycleEnd : Time) (q : quota_row) : quota_row :=
  match quotaDef v (q_Metric q) (q_Period q) with Some d => fresh_cols start cycleEnd d q | None => q end.
Definition defined (v : Version) (q : quota_row) : bool := bool_decide (is_Some (quotaDef v (q_Metric q) (q_Period q))).

Lemma fresh_keeps v start e : keeps_qid (fresh v start e).
Proof. intros q. unfold fresh. by destruct (quotaDef _ _ _). Qed.

Lemma rebuild_loop_eq v start e rows have stale s :
  NoDup (qids s) → NoDup (map q_ID rows) → (∀ q, q ∈ rows → q ∈ quotas s) →
  (∀ q, q ∈ rows → defined v q = true → write_quota (fresh v start e q) = Ok ()) →
  rebuild_loop v start e rows have stale s =
    (Ok (rev (map (λ q, (q_Metric q, q_Period q)) (List.filter (defined v) rows)) ++ have,
         stale ++ map q_ID (List.filter (λ q, negb (defined v q)) rows))%list,
     set_quotas (upd_rows (fresh v start e) (map q_ID rows)) s).
Proof.
  revert have stale s. induction rows as [|q rows IH]; intros have stale s Hn Hr Hin Hw.
  - simpl. rewrite app_nil_r. destruct s. unfold set_quotas. simpl. by rewrite upd_rows_nil.
  - destruct (visit (fresh v start e) q rows s (fresh_keeps v start e) Hn Hr Hin) as (V1 & V2 & V3 & V4 & V5).
    set (s1 := set_quotas (upd_rows (fresh v start e) [q_ID q]) s) in *.
    assert (Hw' : ∀ q0, q0 ∈ rows → defined v q0 = true → write_quota (fresh v start e q0) = Ok ())
      by (intros; apply Hw; [by constructor|done]).
    simpl rebuild_loop. simpl List.filter.
    destruct (quotaDef v (q_Metric q) (q_Period q)) as [d|] eqn:Hd.
    + assert (Hdq : defined v q = true) by (unfold defined; by rewrite Hd). rewrite Hdq. simpl.
      rewrite (bind_eq _ _ _ () s1); [rewrite IH by done; rewrite <- app_assoc; simpl; by rewrite V4|].
      apply UpdateQuota_row; [done|apply Hin; constructor|unfold fresh; by rewrite Hd|by apply Hw; [constructor|]].
    + assert (Hdq : defined v q = false) by (unfold defined; by rewrite Hd). rewrite Hdq. simpl.
      assert (Hsame : s1 = s) by (apply V5; unfold fresh; by rewrite Hd). rewrite <- V4, Hsame in *.
      rewrite IH by done. by rewrite <- app_assoc.
Qed.

(** * Inserting *)

Definition strip (q : quota_row) : quota_row := with_id uuid_Nil q.

Lemma write_quota_with_id id q : write_quota (with_id id q) = write_quota q.
Proof. done. Qed.

Lemma InsertQuotas_eq rows s :
  Forall (λ q, write_quota q = Ok ()) rows → NoDup (map quota_key rows) →
  (∀ q, q ∈ rows → quota_key q ∉ map quota_key (quotas s)) →
  (∀ q, q ∈ rows → q_SubscriptionID q ∈ map s_ID (subs s)) →
  ∃ new n, InsertQuotas rows s = (Ok (), mkStore (subs s) (quotas s ++ new) (creds s) (events s) (resets s) (usage s)
      (trials s) (audits s) (roster s) n (next_uid s)) ∧ map strip new = map strip rows.
Proof.
  revert s. induction rows as [|q rows IH]; intros s Hw Hk Hd Hf.
  - exists [], (next_id s). destruct s. simpl. by rewrite app_nil_r.
  - apply Forall_cons in Hw as [Hq Hw]. simpl in Hk. apply NoDup_cons in Hk as [Hkq Hk].
    set (q' := with_id (next_id s) q). set (s1 := bump_id (set_quotas (λ l, l ++ [q'])%list s)).
    assert (H1 : insert_quota q s = (Ok (), s1)).
    { unfold insert_quota. rewrite write_quota_with_id, Hq.
      assert (existsb (same_key (with_id (next_id s) q)) (quotas s) = false) as ->.
      { apply existsb_false. intros x Hx. destruct (same_key _ _) eqn:E; [|done]. apply same_key_spec in E.
        exfalso. apply (Hd q); [constructor|]. apply list_elem_of_fmap. exists x. split; [|done]. exact E. }
      assert (existsb (λ r, (s_ID r =? q_SubscriptionID (with_id (next_id s) q))%N) (subs s) = true) as ->; [|done].
      apply existsb_true. destruct (proj1 (list_elem_of_fmap _ _ _) (Hf q ltac:(constructor))) as (x & E & Hx).
      exists x. split; [done|]. by apply N.eqb_eq. }
    destruct (IH s1) as (new & n & Hrun & Hst); [done|done| |intros; apply Hf; by constructor|].
    { intros x Hx. simpl. rewrite map_app. apply not_elem_of_app. split; [apply Hd; by constructor|]. simpl.
      rewrite list_elem_of_singleton. intros E. apply Hkq. change (quota_key q' ) with (quota_key q) in E.
      rewrite <- E. by apply list_elem_of_fmap_2. }
    exists (q' :: new), n. simpl. erewrite bind_eq by exact H1. rewrite Hrun. simpl. rewrite <- app_assoc. split; [done|].
    by rewrite Hst.
Qed.

(** A version whose quota definitions the database can store: at most one per
    metric and period (a constraint of the catalogue's own table). *)
Definition def_key (d : QuotaDef) : string * string := (qd_Metric d, qd_Period d).
Definition def_ok (d : QuotaDef) : Prop :=
  metric_ok (qd_Metric d) = true ∧ qd_Period d ∈ [PeriodTotal; PeriodCycle; PeriodDay; PeriodMonth] ∧
  (∀ l, qd_Limit d = Some l → 0 ≤ l ≤ MaxInt64).
Record version_ok (v : Version) : Prop := {
  vo_keys : NoDup (map def_key (v_Quotas v));
  vo_defs : Forall def_ok (v_Quotas v);
}.

Lemma find_def_Some defs metric period d :
  find_def defs metric period = Some d → d ∈ defs ∧ qd_Metric d = metric ∧ qd_Period d = period.
Proof.
  induction defs as [|x defs IH]; simpl; [done|]. destruct (_ && _) eqn:E.
  - intros [= <-]. apply andb_true_iff in E as [?%String.eqb_eq ?%String.eqb_eq]. split; [constructor|done].
  - intros H. destruct (IH H) as (? & ?). split; [by constructor|done].
Qed.
Lemma find_def_in defs d : NoDup (map def_key defs) → d ∈ defs → find_def defs (qd_Metric d) (qd_Period d) = Some d.
Proof.
  intros Hn Hd. destruct (find_def defs (qd_Metric d) (qd_Period d)) as [x|] eqn:E.
  - apply find_def_Some in E as (Hx & E1 & E2). f_equal. eapply (NoDup_map_inj def_key); [done..|].
    unfold def_key. by rewrite E1, E2.
  - exfalso. clear Hn. induction defs as [|x defs IH]; [by apply elem_of_nil in Hd|]. simpl in E.
    destruct (_ && _) eqn:Eb; [done|]. apply elem_of_cons in Hd as [-> |Hd]; [|by apply IH].
    by rewrite !String.eqb_refl in Eb.
Qed.

Lemma QuotaPeriodEnd_shape period start cycleEnd :
  start < cycleEnd →
  bool_decide (QuotaPeriodEnd period start cycleEnd = None) = String.eqb period PeriodTotal ∧
  match QuotaPeriodEnd period start cycleEnd with None => true | Some e => start <? e end = true.
Proof.
  intros H. pose proof Day_pos as HD. unfold QuotaPeriodEnd.
  destruct (String.eqb period PeriodTotal); [done|].
  destruct (String.eqb period PeriodDay); [|destruct (String.eqb period PeriodMonth)]; split; try done.
  - rewrite AddDate_days. lia.
  - pose proof (natural_step_lt PeriodMonth start 0) as Hm. rewrite natural_step_0, natural_month in Hm.
    change (0 + 1) with 1 in Hm. by apply Z.ltb_lt.
  - lia.
Qed.

(** A fresh row of a definition passes the checks. *)
Lemma fresh_row_ok q d start cycleEnd :
  def_ok d → start < cycleEnd → q_Metric q = qd_Metric d → q_Period q = qd_Period d →
  write_quota (fresh_cols start cycleEnd d q) = Ok ().
Proof.
  intros (Hm & Hp & Hl) Hs Em Ep. destruct (QuotaPeriodEnd_shape (qd_Period d) start cycleEnd Hs) as [E1 E2].
  unfold write_quota, quota_range, quota_check, fresh_cols.
  cbn [q_Metric q_Period q_PeriodStart q_PeriodEnd q_LimitValue q_BonusValue q_Consumed set_qperiod set_qbonus set_qconsumed set_qlimit].
  rewrite Em, Ep, Hm, E1, E2, Bool.eqb_reflx.
  rewrite (bool_decide_eq_true_2 _ Hp). simpl. destruct (qd_Limit d) as [l|] eqn:E; [|done].
  specialize (Hl l eq_refl). rewrite !(proj2 (is_int64_spec _)) by (unfold in64, MinInt64, MaxInt64 in *; lia).
  simpl. by replace (0 <=? l) with true by lia.
Qed.

Lemma quotaRows_ok id defs start cycleEnd :
  Forall def_ok defs → start < cycleEnd → Forall (λ q, write_quota q = Ok ()) (quotaRows id defs start cycleEnd).
Proof.
  intros Hd Hs. unfold quotaRows. apply Forall_fmap. eapply Forall_impl; [exact Hd|]. intros d Hok. simpl.
  exact (fresh_row_ok (mkQuotaRow uuid_Nil id (qd_Metric d) (qd_Period d) 0 None None 0 0) d start cycleEnd Hok Hs eq_refl eq_refl).
Qed.

Lemma quotaRows_keys id defs start cycleEnd :
  map quota_key (quotaRows id defs start cycleEnd) = map (λ d, (id, qd_Metric d, qd_Period d)) defs.
Proof. unfold quotaRows. rewrite map_map. by apply map_ext. Qed.

Lemma quotaRows_NoDup id defs start cycleEnd :
  NoDup (map def_key defs) → NoDup (map quota_key (quotaRows id defs start cycleEnd)).
Proof.
  intros H. rewrite quotaRows_keys.
  replace (map (λ d, (id, qd_Metric d, qd_Period d)) defs) with (map (λ k : string * string, (id, k.1, k.2)) (map def_key defs))
    by (rewrite map_map; by apply map_ext).
  apply NoDup_fmap_2; [|done]. intros [a b] [c d]. simpl. congruence.
Qed.

Lemma has_key_spec have q :
  has_key have q = true ↔ (q_Metric q, q_Period q) ∈ have.
Proof.
  unfold has_key. rewrite existsb_true. split.
  - intros ([a b] & Hin & E). simpl in E. apply andb_true_iff in E as [->%String.eqb_eq ->%String.eqb_eq]. done.
  - intros H. eexists. split; [done|]. simpl. by rewrite !String.eqb_refl.
Qed.

Definition same_but_quotas (s s' : store) : Prop :=
  subs s' = subs s ∧ creds s' = creds s ∧ events s' = events s ∧ resets s' = resets s ∧ usage s' = usage s ∧
  trials s' = trials s ∧ audits s' = audits s ∧ roster s' = roster s.

Lemma strip_key q : quota_key (strip q) = quota_key q.
Proof. done. Qed.
Lemma NoDup_strip l : NoDup (map quota_key l) → NoDup (map strip l).
Proof.
  intros H. apply (NoDup_fmap_1 quota_key). change (quota_key <$> map strip l) with (map quota_key (map strip l)).
  rewrite map_map. exact H.
Qed.
Lemma rows_of_NoDup {B} (g : quota_row → B) id T : NoDup (map g T) → NoDup (map g (rows_of id T)).
Proof. intros H. eapply sublist_NoDup; [exact H|]. apply (fmap_sublist g), filter_sublist. Qed.

Lemma filter_filter {A} (p q : A → bool) l : List.filter p (List.filter q l) = List.filter (λ x, q x && p x) l.
Proof. induction l as [|x l IH]; simpl; [done|]. destruct (q x); simpl; [destruct (p x); by rewrite IH|done]. Qed.

(** What is left of a table after a rebuild's updates and deletions. *)
Definition rebuilt (v : Version) (start e : Time) (id : uuid) (T : list quota_row) : list quota_row :=
  map (λ x, if (q_SubscriptionID x =? id)%N then fresh v start e x else x)
    (List.filter (λ x, negb (q_SubscriptionID x =? id)%N || defined v x) T).

Lemma fresh_sub v start e q : q_SubscriptionID (fresh v start e q) = q_SubscriptionID q.
Proof. unfold fresh. by destruct (quotaDef _ _ _). Qed.
Lemma fresh_key v start e q : quota_key (fresh v start e q) = quota_key q.
Proof. unfold fresh. by destruct (quotaDef _ _ _). Qed.

Lemma rows_of_ids id T x :
  NoDup (map q_ID T) → x ∈ T → mem (q_ID x) (map q_ID (rows_of id T)) = (q_SubscriptionID x =? id)%N.
Proof.
  intros Hn Hx. destruct (N.eqb_spec (q_SubscriptionID x) id) as [E|E].
  - apply mem_spec, list_elem_of_fmap_2, rows_of_in. done.
  - apply mem_false. intros (y & Ey & Hy)%list_elem_of_fmap. apply rows_of_in in Hy as [Hy ?].
    assert (x = y) as -> by (by eapply (NoDup_map_inj q_ID)). done.
Qed.

Lemma stale_ids v id T x :
  NoDup (map q_ID T) → x ∈ T →
  mem (q_ID x) (map q_ID (List.filter (λ q, negb (defined v q)) (rows_of id T))) =
  (q_SubscriptionID x =? id)%N && negb (defined v x).
Proof.
  intros Hn Hx. destruct ((q_SubscriptionID x =? id)%N && negb (defined v x)) eqn:E.
  - apply andb_true_iff in E as [E%N.eqb_eq Ed]. apply mem_spec, list_elem_of_fmap_2, elem_of_filter_bool.
    split; [done|]. by apply rows_of_in.
  - apply mem_false. intros (y & Ey & Hy)%list_elem_of_fmap. apply elem_of_filter_bool in Hy as [Hd Hy].
    apply rows_of_in in Hy as [Hy Hs]. assert (x = y) as -> by (by eapply (NoDup_map_inj q_ID)).
    by rewrite Hs, N.eqb_refl, Hd in E.
Qed.

Lemma rebuilt_eq v start e id T :
  NoDup (map q_ID T) →
  List.filter (λ q, negb (mem (q_ID q) (map q_ID (List.filter (λ q, negb (defined v q)) (rows_of id T)))))
    (upd_rows (fresh v start e) (map q_ID (rows_of id T)) T) = rebuilt v start e id T.
Proof.
  intros Hn. unfold upd_rows, rebuilt.
  assert (Hgen : ∀ l, (∀ x, x ∈ l → x ∈ T) →
    List.filter (λ q, negb (mem (q_ID q) (map q_ID (List.filter (λ q, negb (defined v q)) (rows_of id T)))))
      (map (λ x, if mem (q_ID x) (map q_ID (rows_of id T)) then fresh v start e x else x) l) =
    map (λ x, if (q_SubscriptionID x =? id)%N then fresh v start e x else x)
      (List.filter (λ x, negb (q_SubscriptionID x =? id)%N || defined v x) l)); [|by apply Hgen].
  intros l Hl. induction l as [|x l IH]; [done|]. cbn [map List.filter].
  assert (Hx : x ∈ T) by (apply Hl; constructor). rewrite rows_of_ids by done.
  assert (Hid : q_ID (if (q_SubscriptionID x =? id)%N then fresh v start e x else x) = q_ID x)
    by (destruct (_ =? _)%N; [apply fresh_keeps|done]).
  rewrite Hid, stale_ids by done. rewrite IH by (intros; apply Hl; by constructor).
  destruct (q_SubscriptionID x =? id)%N eqn:E; simpl; [|by rewrite E]. destruct (defined v x); simpl; [by rewrite E|done].
Qed.

Lemma rebuilt_not v start e id T : rows_not id (rebuilt v start e id T) = rows_not id T.
Proof.
  unfold rebuilt, rows_not. induction T as [|x T IH]; [done|]. cbn [List.filter map].
  destruct (q_SubscriptionID x =? id)%N eqn:E; simpl.
  - destruct (defined v x); simpl; rewrite ?E, ?fresh_sub, ?E; simpl; exact IH.
  - rewrite E. simpl. rewrite E. simpl. by rewrite IH.
Qed.
Lemma rows_not_app id a b : rows_not id (a ++ b)%list = (rows_not id a ++ rows_not id b)%list.
Proof. apply List.filter_app. Qed.
Lemma rows_not_own id T : Forall (λ q, q_SubscriptionID q = id) T → rows_not id T = [].
Proof.
  unfold rows_not. induction 1 as [|x T Hx _ IH]; [done|]. cbn [List.filter]. rewrite Hx, N.eqb_refl. exact IH.
Qed.

(** The row of one definition. *)
Definition row_of_def (id : uuid) (start e : Time) (d : QuotaDef) : quota_row :=
  mkQuotaRow uuid_Nil id (qd_Metric d) (qd_Period d) start (QuotaPeriodEnd (qd_Period d) start e) (qd_Limit d) 0 0.

Lemma strip_fresh v start e q d :
  quotaDef v (q_Metric q) (q_Period q) = Some d → strip (fresh v start e q) = row_of_def (q_SubscriptionID q) start e d.
Proof.
  intros H. unfold fresh. rewrite H. apply find_def_Some in H as (_ & E1 & E2).
  unfold strip, fresh_cols, row_of_def, with_id. simpl. by rewrite E1, E2.
Qed.

Lemma rebuilt_Permutation W v start e id T new have s3 :
  version_ok v → quotas s3 = (rebuilt v start e id T ++ new)%list → store_ok W s3 →
  Forall (λ q, q_SubscriptionID q = id) new →
  map strip new = map strip (List.filter (λ q, negb (has_key have q)) (quotaRows id (v_Quotas v) start e)) →
  (∀ q, has_key have q = true ↔
     ∃ x, x ∈ rows_of id T ∧ defined v x = true ∧ q_Metric x = q_Metric q ∧ q_Period x = q_Period q) →
  map strip (rows_of id (quotas s3)) ≡ₚ quotaRows id (v_Quotas v) start e.
Proof.
  intros [Hvk Hvd] HT3 Hs3 Hown Hnew Hhave. apply NoDup_Permutation.
  - apply NoDup_strip, rows_of_NoDup, Hs3.
  - apply (NoDup_fmap_1 quota_key). exact (quotaRows_NoDup id (v_Quotas v) start e Hvk).
  - intros x. rewrite list_elem_of_fmap. split.
    + intros (y & -> & Hy). apply rows_of_in in Hy as [Hy Hid]. rewrite HT3 in Hy. apply elem_of_app in Hy as [Hy|Hy].
      * apply list_elem_of_fmap in Hy as (z & -> & Hz). apply elem_of_filter_bool in Hz as [Hd Hz].
        assert (Hzi : q_SubscriptionID z = id) by (destruct (q_SubscriptionID z =? id)%N; [by rewrite fresh_sub in Hid|done]).
        rewrite Hzi, N.eqb_refl in *. simpl in Hd. unfold defined in Hd.
        destruct (quotaDef v (q_Metric z) (q_Period z)) as [d|] eqn:Ed; [|done]. rewrite (strip_fresh _ _ _ _ d Ed), Hzi.
        apply find_def_Some in Ed as [Hin _]. apply list_elem_of_fmap. by exists d.
      * assert (Hst : strip y ∈ map strip new) by (by apply list_elem_of_fmap_2). rewrite Hnew in Hst.
        apply list_elem_of_fmap in Hst as (z & -> & Hz). apply elem_of_filter_bool in Hz as [_ Hz].
        pose proof Hz as Hz'. apply list_elem_of_fmap in Hz' as (d & -> & _). exact Hz.
    + intros Hx. pose proof Hx as Hx'. apply list_elem_of_fmap in Hx' as (d & Ex & Hd). destruct (has_key have x) eqn:Hh.
      * apply Hhave in Hh as (z & Hz & Hdz & E1 & E2). apply rows_of_in in Hz as [Hz Hzi].
        assert (Ed : quotaDef v (q_Metric z) (q_Period z) = Some d).
        { rewrite E1, E2, Ex. simpl. by apply find_def_in. }
        exists (fresh v start e z). rewrite (strip_fresh _ _ _ _ d Ed), Hzi. split; [done|]. apply rows_of_in.
        rewrite fresh_sub. split; [|done]. rewrite HT3. apply elem_of_app. left. apply list_elem_of_fmap. exists z.
        rewrite Hzi, N.eqb_refl. split; [done|]. apply elem_of_filter_bool. by rewrite Hzi, N.eqb_refl, Hdz.
      * assert (Hst : x ∈ map strip new).
        { rewrite Hnew, Ex. apply list_elem_of_fmap. eexists. split; [|apply elem_of_filter_bool; split; [|exact Hx]].
          - by rewrite Ex.
          - by rewrite Hh. }
        apply list_elem_of_fmap in Hst as (y & -> & Hy). exists y. split; [done|]. apply rows_of_in. split.
        -- rewrite HT3. apply elem_of_app. by right.
        -- by apply (proj1 (Forall_forall _ _) Hown).
Qed.

(** [rebuildQuotas] makes the subscription's rows exactly the version's: one
    per definition, unused and starting now; the rows of every other
    subscription are untouched. *)
Lemma rebuild_exact W m v start e s :
  store_ok W s → s_ID m ∈ map s_ID (subs s) → start < e → version_ok v →
  ∃ s', rebuildQuotas W m v start e s = (Ok (rows_of (s_ID m) (quotas s)), s') ∧ same_but_quotas s s' ∧
    rows_not (s_ID m) (quotas s') = rows_not (s_ID m) (quotas s) ∧
    map strip (rows_of (s_ID m) (quotas s')) ≡ₚ quotaRows (s_ID m) (v_Quotas v) start e.
Proof.
  intros Hs Hm Hse Hv. pose proof Hv as [Hvk Hvd]. set (id := s_ID m). set (T := quotas s). set (rows := rows_of id T).
  assert (HnT : NoDup (map q_ID T)) by apply Hs.
  assert (Hdef : ∀ q d, quotaDef v (q_Metric q) (q_Period q) = Some d →
            d ∈ v_Quotas v ∧ qd_Metric d = q_Metric q ∧ qd_Period d = q_Period q) by (intros q d; apply find_def_Some).
  set (have := rev (map (λ q, (q_Metric q, q_Period q)) (List.filter (defined v) rows))).
  set (stale := map q_ID (List.filter (λ q, negb (defined v q)) rows)).
  set (s1 := set_quotas (upd_rows (fresh v start e) (map q_ID rows)) s).
  assert (H1 : rebuild_loop v start e rows [] [] s = (Ok (have, stale), s1)).
  { rewrite rebuild_loop_eq; [by rewrite app_nil_r|done|by apply rows_of_NoDup|by intros q [? _]%rows_of_in|].
    intros q _ Hq. unfold defined, fresh in *. destruct (quotaDef _ _ _) as [d|] eqn:Hd; [|done].
    destruct (Hdef q d Hd) as (Hin & Em & Ep). apply fresh_row_ok; [|done|done|done].
    by apply (proj1 (Forall_forall _ _) Hvd). }
  set (s2 := set_quotas (List.filter (λ q, negb (mem (q_ID q) stale))) s1).
  assert (HT2 : quotas s2 = rebuilt v start e id T) by (by apply rebuilt_eq).
  set (missing := List.filter (λ q, negb (has_key have q)) (quotaRows id (v_Quotas v) start e)).
  assert (Hhave : ∀ q, has_key have q = true ↔ ∃ x, x ∈ rows ∧ defined v x = true ∧ q_Metric x = q_Metric q ∧ q_Period x = q_Period q).
  { intros q. rewrite has_key_spec. unfold have. rewrite list_elem_of_In, <- in_rev, <- list_elem_of_In, list_elem_of_fmap. split.
    - intros (x & E & Hx). apply elem_of_filter_bool in Hx as [? ?]. injection E as -> ->. by exists x.
    - intros (x & Hx & Hd & E1 & E2). exists x. rewrite E1, E2. split; [done|]. by apply elem_of_filter_bool. }
  destruct (InsertQuotas_eq missing s2) as (new & n & H3 & Hnew).
  { apply Forall_filter, quotaRows_ok; done. }
  { eapply sublist_NoDup; [by apply (quotaRows_NoDup id (v_Quotas v) start e)|].
    apply (fmap_sublist quota_key), filter_sublist. }
  { intros q [Hh Hq]%elem_of_filter_bool. rewrite HT2. intros (x & Ex & Hx)%list_elem_of_fmap.
    apply list_elem_of_fmap in Hx as (y & -> & Hy). apply elem_of_filter_bool in Hy as [Hyd Hy].
    assert (Eq : quota_key q = quota_key y) by (rewrite Ex; destruct (_ =? _)%N; [apply fresh_key|done]).
    apply list_elem_of_fmap in Hq as (d & -> & Hd). injection Eq as E1 E2 E3. rewrite <- E1, N.eqb_refl in Hyd. simpl in Hyd.
    apply negb_true_iff in Hh. rewrite (proj2 (Hhave _)) in Hh; [done|]. exists y. split_and!; [|done|done|done].
    apply rows_of_in. done. }
  { intros q [_ Hq]%elem_of_filter_bool. apply list_elem_of_fmap in Hq as (d & -> & _). exact Hm. }
  set (s3 := mkStore (subs s2) (quotas s2 ++ new) (creds s2) (events s2) (resets s2) (usage s2) (trials s2) (audits s2)
               (roster s2) n (next_uid s2)) in *.
  assert (Hrun : rebuildQuotas W m v start e s = (Ok rows, s3)).
  { unfold rebuildQuotas. erewrite bind_eq; [|apply map_err_run, gets_eq].
    erewrite bind_eq by exact H1. erewrite (bind_eq _ _ s1 () s2) by done. simpl.
    erewrite bind_eq by (by apply map_err_run). done. }
  exists s3. split; [done|]. split; [by split_and!|].
  assert (Hnn : Forall (λ q, q_SubscriptionID q = id) new).
  { rewrite Forall_forall. intros q Hq. assert (Hst : strip q ∈ map strip missing) by (rewrite <- Hnew; by apply list_elem_of_fmap_2).
    apply list_elem_of_fmap in Hst as (y & E & Hy). apply elem_of_filter_bool in Hy as [_ Hy].
    apply list_elem_of_fmap in Hy as (d & -> & _). change (q_SubscriptionID (strip q) = id). by rewrite E. }
  split.
  - change (rows_not id (quotas s2 ++ new)%list = rows_not id T).
    by rewrite rows_not_app, HT2, rebuilt_not, (rows_not_own id new Hnn), app_nil_r.
  - apply (rebuilt_Permutation W) with (T := T) (new := new) (have := have); try done.
    + change (quotas s2 ++ new = rebuilt v start e id T ++ new)%list. by rewrite HT2.
    + eapply rebuildQuotas_safe; [exact Hs|exact Hrun].
Qed.

(** The rows of one subscription, each rewritten by [act]. *)
Definition own_rows (id : uuid) (act : quota_row → quota_row) (T : list quota_row) : list quota_row :=
  map (λ x, if (q_SubscriptionID x =? id)%N then act x else x) T.

Lemma upd_rows_own act id T :
  NoDup (map q_ID T) → upd_rows act (map q_ID (rows_of id T)) T = own_rows id act T.
Proof.
  intros Hn. apply map_ext_in. intros x Hx%list_elem_of_In. by rewrite rows_of_ids.
Qed.
End Quota.
