(* ===== verification/SubThms.v ===== *)
(** What renewing, extending, changing the plan and rotating the link do to a
    subscription. *)
From Stdlib Require Import ZArith Lia.
From stdpp Require Import base tactics list gmap strings sorting.
From S2P Require Import Prelude Decimal GoString Money GoTime Period SubTypes SubStore SubFacts SubExact SubQuota.
From S2P Require Import Subscription SubAdmin.
#[local] Open Scope string_scope.
#[local] Open Scope Z_scope.

Section Thms.
Context `{DL : DecimalLib}.
Abbreviation SM := (M store serr).

(** Membership of a literal in a literal list. *)
Ltac list_in := apply (bool_decide_unpack _); vm_compute; exact I.

(** A subscription of the caller whose renewal window is open. *)
Record open_sub (W : Env) (s : store) (id : uuid) (owner : option uuid) (m : sub_row) : Prop := {
  os_ok : store_ok W s;
  os_in : m ∈ subs s;
  os_id : s_ID m = id;
  os_owner : match owner with Some o => o = s_UserID m | None => True end;
  os_open : s_RenewalClosedAt m = None;
}.

Lemma open_lock W s id owner m : open_sub W s id owner m → lockOwned id owner s = (Ok m, s).
Proof. intros [Hs Hm <- Ho _]. by eapply lockOwned_eq. Qed.

Lemma open_state W s id owner m now : open_sub W s id owner m → state_of m now ≠ StateEnded.
Proof. intros [_ _ _ _ Ho]. unfold state_of, StateAt. rewrite Ho. by destruct (_ && _). Qed.

Lemma open_not_ended W s id owner m now : open_sub W s id owner m → bool_decide (state_of m now = StateEnded) = false.
Proof. intros H. apply bool_decide_eq_false. by eapply open_state. Qed.

Lemma open_can W s id owner m : open_sub W s id owner m → CanTransition (s_Status m) StatusActive = true.
Proof.
  intros [Hs Hm _ _ _]. pose proof (sub_check_status m (row_check _ _ _ Hs Hm)) as [-> | ->]; done.
Qed.

Lemma open_from W s id owner m : open_sub W s id owner m →
  Some (s_Status m) = None ∨ Some (s_Status m) = Some StatusActive ∨ Some (s_Status m) = Some StatusExpired.
Proof.
  intros [Hs Hm _ _ _]. pose proof (sub_check_status m (row_check _ _ _ Hs Hm)) as [-> | ->]; auto.
Qed.

Lemma open_write W s id owner m : open_sub W s id owner m → write_sub W m = Ok ().
Proof. intros [Hs Hm _ _ _]. by eapply row_ok. Qed.

Lemma open_put W s id owner m m' :
  open_sub W s id owner m → s_ID m' = s_ID m → s_UserID m' = s_UserID m →
  s_ID m ∈ map s_ID (put_sub m' (subs s)) ∧ owned (put_sub m' (subs s)) m.
Proof.
  intros [Hs Hm _ _ _] E1 E2. split; [rewrite put_sub_ids; by apply list_elem_of_fmap_2|].
  exists m'. split_and!; [|done|done]. by eapply put_sub_in.
Qed.

(** * Renewal *)

(** The inputs of a renewal that can go through. *)
Record renew_ready (W : Env) (s : store) (in_ : Renewal) (m : sub_row) (plan : Plan) : Prop := {
  rr_open : open_sub W s (rn_SubscriptionID in_) (Some (rn_UserID in_)) m;
  rr_plan : planOf W (s_PlanID m) = Ok plan;
  rr_kind : pl_Kind plan ≠ KindOneTime;
  rr_price : price_ok W (rn_Price in_);
  rr_actor : actor_ok W (rn_Actor in_);
  rr_order : mem_opt (rn_OrderID in_) (env_orders W) = true;
  rr_paid : rn_PaidAt in_ ≠ zeroTime;
}.

(** Paid, or at least ordered, before the period ended. *)
Definition in_time (in_ : Renewal) (m : sub_row) : Prop :=
  Truncate (rn_PaidAt in_) Microsecond < s_PeriodEnd m ∨
  ∃ c, rn_OrderCreatedAt in_ = Some c ∧ c < s_PeriodEnd m.

Lemma RenewalBase_in_time in_ m :
  in_time in_ m →
  RenewalBase (s_PeriodEnd m) (Truncate (rn_PaidAt in_) Microsecond) (rn_OrderCreatedAt in_) = (s_PeriodEnd m, false).
Proof.
  unfold in_time, RenewalBase, After, Before. intros H.
  destruct (Z.ltb_spec (Truncate (rn_PaidAt in_) Microsecond) (s_PeriodEnd m)); [done|].
  destruct H as [H|(c & -> & Hc)]; [lia|]. by rewrite (proj2 (Z.ltb_lt _ _) Hc).
Qed.

Lemma RenewalBase_late in_ m :
  ¬ in_time in_ m →
  RenewalBase (s_PeriodEnd m) (Truncate (rn_PaidAt in_) Microsecond) (rn_OrderCreatedAt in_) =
    (Truncate (rn_PaidAt in_) Microsecond, true).
Proof.
  unfold in_time, RenewalBase, After, Before. intros H.
  destruct (Z.ltb_spec (Truncate (rn_PaidAt in_) Microsecond) (s_PeriodEnd m)); [exfalso; auto|].
  destruct (rn_OrderCreatedAt in_) as [c|]; [|done]. destruct (Z.ltb_spec c (s_PeriodEnd m)); [|done].
  exfalso. apply H. right. eauto.
Qed.

Definition renewed_event (in_ : Renewal) (m : sub_row) (from : string) (restart : bool) (e : Time) : event_row :=
  mkEvent (s_ID m) EventRenewed (Some from) StatusActive (act_Kind (rn_Actor in_)) (act_ID (rn_Actor in_))
    (rn_OrderID in_)
    [("source", PStr (rn_Source in_)); ("restart", PBool restart);
     ("previous_end", PTime (s_PeriodEnd m)); ("period_end", PTime e)].

(** Renewing in time appends exactly one period.  A renewal paid before the
    subscription's end (or ordered before it, with a late callback) always goes
    through: the end moves to one billing period after the old end, strictly
    later; the running period, the plan version, the quotas with their usage,
    the links and every other subscription are untouched, and the renewal is
    recorded with its order. *)
Theorem renew_in_time W inTx now in_ m plan s :
  renew_ready W s in_ m plan → in_time in_ m →
  let e := PeriodEndFor (s_PeriodEnd m) (p_Snap (rn_Price in_)) in
  let m' := set_status StatusActive (set_end e (snapshotCols (rn_Price in_) (s_PriceID m) m)) in
  s_PeriodEnd m < e ∧
  ∃ s', Renew W inTx now in_ s = (Ok (mkRenewalResult (s_ID m) (s_Status m) false (s_PeriodEnd m) e), s') ∧
    subs s' = put_sub m' (subs s) ∧ quotas s' = quotas s ∧ creds s' = creds s ∧ resets s' = resets s ∧
    events s' = (events s ++ [renewed_event in_ m (s_Status m) false e])%list.
Proof.
  intros [Ho Hp Hk Hpr Hac Hor Hpd] Ht e m'. pose proof (price_period W (s_PeriodEnd m) _ Hpr) as He. split; [done|].
  destruct (validatePrice_facts _ (po_valid _ _ Hpr)) as (Hck & Hneg & Hiv & Hcnt).
  pose proof (write_sub_facts _ _ (open_write _ _ _ _ _ Ho)) as (_ & _ & _ & _ & Hpm & Hv).
  destruct (open_put _ _ _ _ _ m' Ho eq_refl eq_refl) as [Hin _].
  eexists. split.
  - unfold Renew. erewrite bind_eq by (apply lift_eq, Hpr). erewrite bind_eq by (apply lift_eq, Hac).
    unfold IsZeroTime. rewrite (proj2 (Z.eqb_neq _ _) Hpd). apply tx_eq.
    erewrite bind_eq by (by eapply open_lock). erewrite open_not_ended by done.
    erewrite bind_eq by (by apply lift_eq). rewrite (proj2 (String.eqb_neq _ _) Hk).
    rewrite (RenewalBase_in_time _ _ Ht). cbv beta zeta iota.
    erewrite bind_eq.
    2: { eapply transition_eq; [apply Ho|apply Ho|by eapply open_can|done|done|].
         eapply write_sub_ok; [by eapply open_write|done|done|done|apply Ho|by left| |apply Hpr|done|done|done| |done].
         - simpl. pose proof (sub_check_period _ (row_check _ _ _ (os_ok _ _ _ _ _ Ho) (os_in _ _ _ _ _ Ho))). lia.
         - simpl. destruct (p_PriceID (rn_Price in_)) eqn:Epr; [rewrite <- Epr; apply Hpr|done]. }
    erewrite bind_eq by done.
    erewrite bind_eq.
    2: { apply writeEvent_eq; [exact Hin|list_in|by eapply open_from|by left|done|done]. }
    erewrite bind_eq by apply notifyRoster_eq. done.
  - done.
Qed.

(** What a restart of the quotas leaves: the version's rows, unused and starting
    at [start]; the old usage in the reset log; nothing else touched. *)
Definition restarted (m : sub_row) (v : Version) (start e : Time) (reason : string) (s s' : store) : Prop :=
  rows_not (s_ID m) (quotas s') = rows_not (s_ID m) (quotas s) ∧
  map strip (rows_of (s_ID m) (quotas s')) ≡ₚ quotaRows (s_ID m) (v_Quotas v) start e ∧
  resets s' = (resets s ++ map (reset_of m reason None "") (rows_of (s_ID m) (quotas s)))%list.

Lemma rebuild_and_log W m v start e reason s :
  store_ok W s → s_ID m ∈ map s_ID (subs s) → owned (subs s) m → start < e → version_ok v →
  reason ∈ reset_reasons → reason ≠ ResetManual →
  ∃ s1, rebuildQuotas W m v start e s = (Ok (rows_of (s_ID m) (quotas s)), s1) ∧
    let s2 := add_resets (map (reset_of m reason None "") (rows_of (s_ID m) (quotas s))) s1 in
    logResets W m (rows_of (s_ID m) (quotas s)) reason None "" s1 = (Ok (), s2) ∧
    restarted m v start e reason s s2 ∧ subs s2 = subs s ∧ creds s2 = creds s ∧ events s2 = events s.
Proof.
  intros Hs Hid Hown Hse Hv Hr Hnm. destruct (rebuild_exact W m v start e s Hs Hid Hse Hv) as (s1 & H1 & Hsame & H2 & H3).
  destruct Hsame as (E1 & E2 & E3 & E4 & _). exists s1. split; [done|]. cbv zeta. split.
  - apply logResets_eq; [by rewrite E1| |done|done|done|by left]. intros q [Hq _]%rows_of_in. by eapply quota_row_ok.
  - unfold restarted. simpl. by rewrite E4.
Qed.

(** The version a restart switches to: the plan's current one, if it has one. *)
Definition restart_version (plan : Plan) (m : sub_row) : uuid := default (s_PlanVersionID m) (pl_CurrentVersionID plan).

(** Renewing late starts over.  A renewal neither paid nor ordered before
    the end always goes through as a fresh period from the payment: the period
    is [paid, paid + one billing period), on the plan's current version; the
    quota rows become exactly those of that version, unused; the old usage goes
    to the reset log; links, other subscriptions and their quotas are
    untouched. *)
Theorem renew_late W inTx now in_ m plan v s :
  renew_ready W s in_ m plan → ¬ in_time in_ m →
  versionFor W (s_PlanID m) (restart_version plan m) = Ok v → version_ok (withKind v (pl_Kind plan)) →
  (s_PlanID m, restart_version plan m) ∈ env_versions W →
  let paid := Truncate (rn_PaidAt in_) Microsecond in
  let e := PeriodEndFor paid (p_Snap (rn_Price in_)) in
  let m' := set_status StatusActive (set_version (restart_version plan m)
              (set_start paid (set_end e (snapshotCols (rn_Price in_) (s_PriceID m) m)))) in
  paid < e ∧
  ∃ s', Renew W inTx now in_ s = (Ok (mkRenewalResult (s_ID m) StatusExpired true (s_PeriodEnd m) e), s') ∧
    subs s' = put_sub m' (subs s) ∧ creds s' = creds s ∧
    restarted m (withKind v (pl_Kind plan)) paid e ResetRenewal s s' ∧
    events s' = (events s ++ [renewed_event in_ m StatusExpired true e])%list.
Proof.
  intros [Ho Hp Hk Hpr Hac Hor Hpd] Ht Hvf Hvo Hvr paid e m'. pose proof (price_period W paid _ Hpr) as He. split; [done|].
  destruct (validatePrice_facts _ (po_valid _ _ Hpr)) as (Hck & Hneg & Hiv & Hcnt).
  pose proof (write_sub_facts _ _ (open_write _ _ _ _ _ Ho)) as (_ & _ & _ & _ & Hpm & _).
  destruct (open_put _ _ _ _ _ m' Ho eq_refl eq_refl) as [Hin Hown].
  set (cols := λ r : sub_row, set_version (default (s_PlanVersionID r) (pl_CurrentVersionID plan))
                 (set_start paid (set_end e (snapshotCols (rn_Price in_) (s_PriceID m) r)))).
  assert (Htr : transition W m StatusActive (Some (p_Amount (rn_Price in_))) cols s = (Ok (), set_subs (put_sub m') s)).
  { apply (transition_eq W s m StatusActive (Some (p_Amount (rn_Price in_))) cols);
      [apply Ho|apply Ho|by eapply open_can|done|done|].
    eapply write_sub_ok; [by eapply open_write|done|done|done|apply Ho|by left|done|apply Hpr|done|done|done| |done].
    simpl. destruct (p_PriceID (rn_Price in_)) eqn:Epr; [rewrite <- Epr; apply Hpr|done]. }
  assert (Hs1 : store_ok W (set_subs (put_sub m') s)).
  { eapply transition_safe; [|apply Ho|exact Htr]. done. }
  destruct (rebuild_and_log W m (withKind v (pl_Kind plan)) paid e ResetRenewal _ Hs1 Hin Hown He Hvo)
    as (s2 & H2 & H3 & (R1 & R2 & R3) & E1 & E2 & E3); [list_in|done|].
  eexists. split.
  - unfold Renew. erewrite bind_eq by (apply lift_eq, Hpr). erewrite bind_eq by (apply lift_eq, Hac).
    unfold IsZeroTime. rewrite (proj2 (Z.eqb_neq _ _) Hpd). apply tx_eq.
    erewrite bind_eq by (by eapply open_lock). erewrite open_not_ended by done.
    erewrite bind_eq by (by apply lift_eq). rewrite (proj2 (String.eqb_neq _ _) Hk).
    rewrite (RenewalBase_late _ _ Ht). cbv beta zeta iota. fold paid. fold e.
    erewrite bind_eq by exact Htr.
    erewrite bind_eq.
    2: { unfold restartQuotas. erewrite bind_eq by (apply lift_eq, Hvf). erewrite bind_eq by exact H2. exact H3. }
    erewrite bind_eq.
    2: { apply writeEvent_eq; [by rewrite E1|list_in|by right; right|by left|done|done]. }
    erewrite bind_eq by apply notifyRoster_eq. done.
  - unfold restarted. simpl in *. rewrite E1, E2, E3. done.
Qed.

(** * Plan change *)

Record change_ready (W : Env) (s : store) (in_ : PlanChange) (m : sub_row) (plan : Plan) (v : Version) : Prop := {
  cr_open : open_sub W s (pc_SubscriptionID in_) (Some (pc_UserID in_)) m;
  cr_plan : planOf W (pc_PlanID in_) = Ok plan;
  cr_version : versionFor W (pc_PlanID in_) (pc_PlanVersionID in_) = Ok v;
  cr_defs : version_ok (withKind v (pl_Kind plan));
  cr_ref : (pc_PlanID in_, pc_PlanVersionID in_) ∈ env_versions W;
  cr_price : price_ok W (pc_Price in_);
  cr_actor : actor_ok W (pc_Actor in_);
  cr_order : mem_opt (pc_OrderID in_) (env_orders W) = true;
  cr_source : exactly_one (pc_OrderID in_) (pc_GiftCodeID in_) = true;
}.

(** C36: changing the plan replaces it in place.  On an open subscription it
    always goes through: the new plan, version and price take over with a full
    period from now, live or expired before; the quota rows become exactly
    those of the new version, the old usage goes to the reset log, and the
    result tells the plan that was left.  Links and other subscriptions are
    untouched. *)
Theorem change_plan_exact W inTx now in_ m plan v s :
  change_ready W s in_ m plan v →
  let e := PeriodEndFor now (p_Snap (pc_Price in_)) in
  let m' := set_status StatusActive (set_end e (set_start now (set_plan (pc_PlanID in_) (pc_PlanVersionID in_)
              (snapshotCols (pc_Price in_) None m)))) in
  now < e ∧
  ∃ s', ChangePlan W inTx now in_ s =
      (Ok (mkPlanChangeResult (s_ID m) (s_PlanID m) (s_PlanVersionID m) (s_Status m) (s_PeriodEnd m) e), s') ∧
    subs s' = put_sub m' (subs s) ∧ creds s' = creds s ∧
    restarted m (withKind v (pl_Kind plan)) now e ResetPlanChange s s' ∧
    ∃ ev, events s' = (events s ++ [ev])%list ∧ ev_Type ev = EventPlanChanged ∧ ev_SubscriptionID ev = s_ID m ∧
      ev_OrderID ev = pc_OrderID in_.
Proof.
  intros [Ho Hp Hvf Hvo Hvr Hpr Hac Hor Hone] e m'. pose proof (price_period W now _ Hpr) as He. split; [done|].
  destruct (validatePrice_facts _ (po_valid _ _ Hpr)) as (Hck & Hneg & Hiv & Hcnt).
  destruct (open_put _ _ _ _ _ m' Ho eq_refl eq_refl) as [Hin Hown].
  set (cols := λ r : sub_row, set_end e (set_start now (set_plan (pc_PlanID in_) (pc_PlanVersionID in_)
                 (snapshotCols (pc_Price in_) None r)))).
  assert (Htr : transition W m StatusActive (Some (p_Amount (pc_Price in_))) cols s = (Ok (), set_subs (put_sub m') s)).
  { apply (transition_eq W s m StatusActive (Some (p_Amount (pc_Price in_))) cols);
      [apply Ho|apply Ho|by eapply open_can|done|done|].
    eapply write_sub_ok; [by eapply open_write|done|done|done|apply Ho|by left|done|apply Hpr|done|done|done| |done].
    simpl. destruct (p_PriceID (pc_Price in_)) eqn:Epr; [rewrite <- Epr; apply Hpr|done]. }
  assert (Hs1 : store_ok W (set_subs (put_sub m') s)).
  { eapply transition_safe; [|apply Ho|exact Htr]. done. }
  destruct (rebuild_and_log W m (withKind v (pl_Kind plan)) now e ResetPlanChange _ Hs1 Hin Hown He Hvo)
    as (s2 & H2 & H3 & (R1 & R2 & R3) & E1 & E2 & E3); [list_in|done|].
  eexists. split.
  - unfold ChangePlan. erewrite bind_eq by (apply lift_eq, Hpr). erewrite bind_eq by (apply lift_eq, Hac).
    rewrite Hone. cbn [negb]. erewrite bind_eq by (apply lift_eq, Hvf). erewrite bind_eq by (by apply lift_eq).
    apply tx_eq. erewrite bind_eq by (by eapply open_lock). erewrite open_not_ended by done. cbv zeta. fold e.
    erewrite bind_eq by exact Htr. erewrite bind_eq by exact H2. erewrite bind_eq by exact H3.
    erewrite bind_eq.
    2: { apply writeEvent_eq; [by rewrite E1|list_in|by eapply open_from|by left|done|done]. }
    erewrite bind_eq by apply notifyRoster_eq. done.
  - unfold restarted. simpl in *. rewrite E1, E2, E3. split_and!; try done. by eexists.
Qed.

(** * Extension *)

Record extend_ready (W : Env) (s : store) (in_ : Extension) (m : sub_row) : Prop := {
  er_open : open_sub W s (ex_SubscriptionID in_) (ex_UserID in_) m;
  er_days : 1 ≤ ex_Days in_ ≤ maxExtendDays;
  er_actor : actor_ok W (ex_Actor in_);
  er_source : ex_Source in_ = ExtendSourceGiftCard ∨
              ex_Source in_ = ExtendSourceAdmin ∧ act_Kind (ex_Actor in_) = ActorAdmin;
}.

(** The start of the extension, and whether the old end had passed. *)
Definition ext_base (m : sub_row) (now : Time) : Time := Z.max now (s_PeriodEnd m).
Definition ext_lapsed (m : sub_row) (now : Time) : bool := s_PeriodEnd m <=? now.
Definition ext_rescued (m : sub_row) (now : Time) : bool := ext_lapsed m now || String.eqb (s_Status m) StatusExpired.
Definition ext_end (in_ : Extension) (m : sub_row) (now : Time) : Time :=
  Truncate (AddDate (ext_base m now) 0 0 (ex_Days in_)) Microsecond.

(** What the extension does to one quota row of the subscription. *)
Definition ext_case (in_ : Extension) (m : sub_row) (now : Time) : quota_row → extend_action :=
  extend_case (s_PeriodEnd m) (ext_rescued m now) (ext_lapsed m now) (ex_Days in_)
    (CycleLength now (s_Interval m) (s_IntervalCount m)).
Definition ext_row (in_ : Extension) (m : sub_row) (now : Time) (q : quota_row) : quota_row :=
  extend_cols now (ext_end in_ m now) (ext_case in_ m now q) q.
Definition is_restart (a : extend_action) : bool := match a with ExtendRestart => true | _ => false end.

Lemma ExtendBase_eq m now : ExtendBase (s_PeriodEnd m) now = (ext_base m now, ext_lapsed m now).
Proof.
  unfold ExtendBase, ext_base, ext_lapsed, After. destruct (Z.ltb_spec now (s_PeriodEnd m)); f_equal; lia.
Qed.

Lemma ext_end_bounds in_ m now :
  1 ≤ ex_Days in_ →
  let e := ext_end in_ m now in
  ext_base m now + ex_Days in_ * Day - Microsecond < e ≤ ext_base m now + ex_Days in_ * Day ∧ ext_base m now < e.
Proof.
  intros Hd e. unfold e, ext_end. rewrite AddDate_days. set (b := ext_base m now + _).
  assert (HD : 1000 ≤ Day) by (vm_compute; discriminate).
  assert (ext_base m now + Day ≤ b) by (unfold b; nia).
  unfold Truncate, Microsecond. pose proof (Z.mod_pos_bound b 1000). lia.
Qed.

Lemma ext_row_keeps in_ m now : keeps_qid (ext_row in_ m now).
Proof. intros q. unfold ext_row, extend_cols. by destruct (ext_case in_ m now q) as [[l|] ?| |]. Qed.

(** The amount a row adds to the prorated total of its metric. *)
Definition prorate (in_ : Extension) (m : sub_row) (now : Time) (p : gmap string Z) (q : quota_row) : gmap string Z :=
  match ext_case in_ m now q with
  | ExtendCycle (Some _) add => <[q_Metric q := wrap64 (default 0 (p !! q_Metric q) + add)]> p
  | _ => p
  end.

Lemma extend_loop_eq in_ m now rows p reset s :
  NoDup (qids s) → NoDup (map q_ID rows) → (∀ q, q ∈ rows → q ∈ quotas s) →
  (∀ q, q ∈ rows → write_quota (ext_row in_ m now q) = Ok ()) →
  extend_loop (s_PeriodEnd m) now (ext_end in_ m now) (ext_rescued m now) (ext_lapsed m now) (ex_Days in_)
    (CycleLength now (s_Interval m) (s_IntervalCount m)) rows p reset s =
  (Ok (foldl (prorate in_ m now) p rows,
       reset ++ List.filter (λ q, is_restart (ext_case in_ m now q)) rows)%list,
   set_quotas (upd_rows (ext_row in_ m now) (map q_ID rows)) s).
Proof.
  revert p reset s. induction rows as [|q rows IH]; intros p reset s Hn Hr Hin Hw.
  - simpl. rewrite app_nil_r. destruct s. unfold set_quotas. simpl. by rewrite upd_rows_nil.
  - destruct (visit (ext_row in_ m now) q rows s (ext_row_keeps _ _ _) Hn Hr Hin) as (V1 & V2 & V3 & V4 & V5).
    set (s1 := set_quotas (upd_rows (ext_row in_ m now) [q_ID q]) s) in *.
    assert (Hw' : ∀ x, x ∈ rows → write_quota (ext_row in_ m now x) = Ok ()) by (intros; apply Hw; by constructor).
    assert (Hu : map_err subErr (UpdateQuota (q_ID q) (extend_cols now (ext_end in_ m now) (ext_case in_ m now q))) s = (Ok (), s1)).
    { apply UpdateQuota_row; [done|apply Hin; constructor|done|apply Hw; constructor]. }
    cbn [extend_loop foldl map List.filter]. fold (ext_case in_ m now q). unfold prorate at 2.
    destruct (ext_case in_ m now q) as [[l|] add| |] eqn:Hc; cbn [is_restart].
    1,2,3: rewrite (bind_eq _ _ _ () s1) by exact Hu; rewrite IH by done; rewrite V4, <- ?app_assoc; done.
    assert (Hsame : s1 = s) by (apply V5; unfold ext_row; by rewrite Hc). rewrite <- V4, Hsame in *. by rewrite IH.
Qed.

Lemma ext_row_ok in_ m now q :
  1 ≤ ex_Days in_ → write_quota q = Ok () → quota_range (ext_row in_ m now q) = true →
  write_quota (ext_row in_ m now q) = Ok ().
Proof.
  intros Hd Hq Hr. destruct (ext_end_bounds in_ m now Hd) as [_ He]. unfold write_quota in *. rewrite Hr.
  destruct (quota_range q) eqn:Hrq; [|done]. destruct (quota_check q) eqn:Hc; [|done].
  assert (quota_check (ext_row in_ m now q) = true) as ->; [|done].
  assert (Hb : s_PeriodEnd m ≤ ext_base m now ∧ now ≤ ext_base m now) by (unfold ext_base; lia).
  unfold ext_row. destruct (ext_case in_ m now q) as [l add| |] eqn:Ec; [| |done].
  - unfold ext_case, extend_case in Ec.
    destruct (String.eqb_spec (q_Period q) PeriodCycle) as [Ep|]; [|simpl in Ec; by destruct (_ && _)].
    destruct (bool_decide_reflect (q_PeriodEnd q = Some (s_PeriodEnd m))) as [Ee|]; simpl in Ec; [|by destruct (_ && _)].
    assert (Hl : ∀ l', l = Some l' → 0 ≤ l').
    { intros l' ->. destruct (q_LimitValue q) as [l0|] eqn:El; [|done]. destruct (ext_rescued m now); [|done].
      destruct (Z.ltb_spec 0 (ProratedQuota l0 (ex_Days in_) (CycleLength now (s_Interval m) (s_IntervalCount m)))); [|done].
      simpl in Ec. destruct (_ <=? _); [|done]. injection Ec as <- _. unfold quota_check in Hc. rewrite El in Hc. reflect_bools. lia. }
    unfold quota_check in *. rewrite Ep, Ee in *. reflect_bools.
    destruct l as [l'|]; cbn; rewrite ?Ep; repeat (rewrite andb_true_iff; split); try done; try lia.
    specialize (Hl l' eq_refl). lia.
  - unfold ext_case, extend_case in Ec. destruct (_ && _) eqn:E1; [by repeat case_match|].
    destruct (QuotaPeriodEnd_shape (q_Period q) now (ext_end in_ m now) ltac:(lia)) as [S1 S2].
    unfold quota_check in *. reflect_bools. cbn [extend_cols set_qconsumed set_qperiod q_Metric q_Period q_PeriodStart q_PeriodEnd q_LimitValue q_BonusValue q_Consumed].
    rewrite S1, S2, Bool.eqb_reflx.
    repeat (rewrite andb_true_iff; split); first [done|lia|by apply bool_decide_eq_true].
Qed.

Definition ext_reset (in_ : Extension) : string * option uuid :=
  if String.eqb (ex_Source in_) ExtendSourceGiftCard then (ResetGiftCard, None)
  else (ResetManual, act_ID (ex_Actor in_)).

Lemma ext_reset_ok W in_ m s :
  extend_ready W s in_ m →
  (ext_reset in_).1 ∈ reset_reasons ∧ ((ext_reset in_).1 = ResetManual → is_Some (ext_reset in_).2) ∧
  mem_opt (ext_reset in_).2 (env_users W) = true.
Proof.
  intros [_ _ [Hv Hr] Hs]. unfold ext_reset. destruct (String.eqb_spec (ex_Source in_) ExtendSourceGiftCard).
  - split_and!; [list_in|done|done].
  - destruct Hs as [|[_ Hk]]; [done|]. split_and!; [list_in| |done]. intros _. simpl.
    apply validateActor_shape in Hv as [_ Hv]. rewrite Hk in Hv. symmetry in Hv. by apply bool_decide_eq_true in Hv.
Qed.

Lemma ProratedQuota_nonneg l d c : 0 ≤ ProratedQuota l d c.
Proof.
  unfold ProratedQuota. destruct (_ || _) eqn:E; [done|]. destruct (is_int64 _); [|done].
  apply orb_false_iff in E as [E E3]. apply orb_false_iff in E as [E1 E2]. apply Z.leb_gt in E1, E2, E3.
  pose proof Day_pos. apply Z.quot_pos; nia.
Qed.

(** An extension moves the end by exactly the days asked for, counted from
    the old end or from now, whichever is later (to the microsecond).  It always
    goes through on an open subscription whose enlarged quotas fit the column;
    an expired one is active again.  Rows of the billing cycle that ended with
    the subscription move with it and keep their usage, and when the
    subscription is rescued their limit grows by the prorated share; daily and
    monthly rows start over only when the old end had passed, each with its old
    usage in the reset log; no other row and no other subscription changes. *)
Theorem extend_exact W inTx now in_ m s :
  extend_ready W s in_ m →
  (∀ q, q ∈ rows_of (s_ID m) (quotas s) → quota_range (ext_row in_ m now q) = true) →
  let e := ext_end in_ m now in
  let m' := set_status StatusActive
              (if ext_lapsed m now then set_start now (set_end e m) else set_end e m) in
  ext_base m now + ex_Days in_ * Day - Microsecond < e ≤ ext_base m now + ex_Days in_ * Day ∧
  (∀ q l, q ∈ rows_of (s_ID m) (quotas s) → q_Period q = PeriodCycle → q_PeriodEnd q = Some (s_PeriodEnd m) →
     q_LimitValue q = Some l →
     let add := if ext_rescued m now
                then ProratedQuota l (ex_Days in_) (CycleLength now (s_Interval m) (s_IntervalCount m)) else 0 in
     l + add ≤ MaxInt64 →
     ext_row in_ m now q = set_qlimit (Some (l + add)) (set_qend (Some e) q)) ∧
  ∃ s' pr, Extend W inTx now in_ s =
      (Ok (mkExtensionResult (s_ID m) (s_UserID m) (s_Status m) (ext_rescued m now) (ext_lapsed m now)
             (s_PeriodEnd m) e pr), s') ∧
    subs s' = put_sub m' (subs s) ∧ creds s' = creds s ∧
    quotas s' = own_rows (s_ID m) (ext_row in_ m now) (quotas s) ∧
    resets s' = (resets s ++ map (reset_of m (ext_reset in_).1 (ext_reset in_).2 rescueResetNote)
      (List.filter (λ q, is_restart (ext_case in_ m now q)) (rows_of (s_ID m) (quotas s))))%list.
Proof.
  intros Hrd Hfit e m'. pose proof Hrd as [Ho Hd Hac Hsrc].
  destruct (ext_end_bounds in_ m now ltac:(lia)) as [Hb He]. split; [done|]. split.
  { intros q l _ Ep Ee El add Hadd. unfold ext_row, ext_case, extend_case, e. rewrite Ep, Ee, El.
    assert (Hsame : ∀ x, set_qend x q = set_qlimit (Some l) (set_qend x q))
      by (intros x; unfold set_qlimit, set_qend, set_qperiod; cbn; by rewrite El). unfold add in *.
    rewrite (bool_decide_eq_true_2 _ eq_refl). simpl. destruct (ext_rescued m now).
    - pose proof (ProratedQuota_nonneg l (ex_Days in_) (CycleLength now (s_Interval m) (s_IntervalCount m))).
      set (P := ProratedQuota _ _ _) in *. replace (P <=? MaxInt64 - l) with true by lia.
      destruct (Z.ltb_spec 0 P); [done|]. replace P with 0 by lia. cbn. rewrite Z.add_0_r. apply Hsame.
    - cbn. rewrite Z.add_0_r. apply Hsame. }
  assert (Hee : Truncate (AddDate (ext_base m now) 0 0 (ex_Days in_)) Microsecond = e) by (unfold e, ext_end; done).
  pose proof (open_write _ _ _ _ _ Ho) as Hwm.
  pose proof (write_sub_facts _ _ Hwm) as (Hf & Hneg & Hiv & Hcnt & Hpm & Hv).
  assert (Hm' : s_ID m' = s_ID m ∧ s_UserID m' = s_UserID m) by (unfold m'; by destruct (ext_lapsed m now)).
  destruct (open_put _ _ _ _ _ m' Ho (proj1 Hm') (proj2 Hm')) as [Hin Hown].
  destruct (ext_reset_ok W in_ m s Hrd) as (Hr1 & Hr2 & Hr3).
  set (cols := λ r : sub_row, if ext_lapsed m now then set_start now (set_end e r) else set_end e r).
  assert (Hper : s_PeriodStart m < s_PeriodEnd m)
    by (eapply sub_check_period, row_check; [apply Ho|apply Ho]).
  assert (Htr : transition W m StatusActive None cols s = (Ok (), set_subs (put_sub m') s)).
  { apply (transition_eq W s m StatusActive None cols); [apply Ho|apply Ho|by eapply open_can|done|..].
    - unfold cols. by destruct (ext_lapsed m now).
    - unfold cols. unfold ext_base in He.
      destruct (ext_lapsed m now); (eapply write_sub_ok; [exact Hwm|done|done|done|apply Ho|by left|simpl; fold e in He; lia|done..]). }
  assert (Hs1 : store_ok W (set_subs (put_sub m') s)).
  { eapply transition_safe; [|apply Ho|exact Htr]. intros r. unfold cols. by destruct (ext_lapsed m now). }
  set (rows := rows_of (s_ID m) (quotas s)).
  assert (Hids : NoDup (map q_ID (quotas s))) by apply Ho.
  assert (Hrun : extend_loop (s_PeriodEnd m) now e (ext_rescued m now) (ext_lapsed m now) (ex_Days in_)
            (CycleLength now (s_Interval m) (s_IntervalCount m)) rows ∅ [] (set_subs (put_sub m') s) =
          (Ok (foldl (prorate in_ m now) ∅ rows, List.filter (λ q, is_restart (ext_case in_ m now q)) rows),
           set_quotas (upd_rows (ext_row in_ m now) (map q_ID rows)) (set_subs (put_sub m') s))).
  { apply (extend_loop_eq in_ m now rows ∅ []); [done|by apply rows_of_NoDup|by intros q [? _]%rows_of_in|].
    intros q Hq. apply ext_row_ok; [lia| |by apply Hfit]. apply rows_of_in in Hq as [Hq _].
    eapply quota_row_ok; [apply Ho|done]. }
  eexists _, _. split.
  - unfold Extend. replace ((ex_Days in_ <? 1) || (maxExtendDays <? ex_Days in_)) with false
      by (unfold maxExtendDays in *; symmetry; apply orb_false_iff; split; lia).
    erewrite bind_eq by (apply lift_eq, Hac). rewrite (bind_eq _ _ _ (ext_reset in_) s).
    2: { unfold ext_reset. destruct (String.eqb_spec (ex_Source in_) ExtendSourceGiftCard); [done|].
         destruct Hsrc as [|[-> ->]]; done. }
    apply tx_eq. erewrite bind_eq by (by eapply open_lock). erewrite open_not_ended by done.
    rewrite ExtendBase_eq. cbv beta iota zeta. rewrite Hee.
    erewrite bind_eq by exact Htr. erewrite bind_eq by (apply map_err_run, gets_eq).
    erewrite bind_eq by exact Hrun. cbn [fst snd].
    erewrite bind_eq.
    2: { apply logResets_eq; [exact Hown| |done|done|done|right; vm_compute; split; discriminate].
         intros q [_ Hq]%elem_of_filter_bool. apply rows_of_in in Hq as [Hq _]. eapply quota_row_ok; [apply Ho|done]. }
    erewrite bind_eq.
    2: { apply writeEvent_eq; [exact Hin|list_in|by eapply open_from|by left|done|done]. }
    erewrite bind_eq by apply notifyRoster_eq. done.
  - simpl. split_and!; try done. unfold rows. by rewrite upd_rows_own.
Qed.

(** * A new link *)

(** The caller owns the subscription; the delivery settings and an address are
    there; the sealer seals the new token and opens what it sealed; the token's
    hash has 32 bytes and is new, and so is the node identity drawn. *)
Record rotate_ready (W : Env) (D : Desk) (s : store) (who : option Principal) (id : uuid) (m : sub_row) (p : Principal)
    (prefix base : string) (proxy : uuid) (token sealed : list Z) : Prop := {
  rt_ok : store_ok W s;
  rt_in : m ∈ subs s;
  rt_id : s_ID m = id;
  rt_who : sub_principal who = Ok p;
  rt_owner : pr_UserID p = s_UserID m;
  rt_user : pr_UserID p ∈ env_users W;
  rt_prefix : dk_Delivery D = Some (Ok prefix);
  rt_base : dk_linkBase D (pr_UserID p) = Ok base;
  rt_seal : ∃ seal, Seal W = Some seal ∧ seal (bytes_of (b64url token)) (CredentialAAD id) = Some sealed;
  rt_open : dk_Open D sealed (CredentialAAD id) = Some (bytes_of (b64url token));
  rt_token : token ≠ [];
  rt_hash : length (Sum256 W (bytes_of (b64url token))) = 32%nat;
  rt_new : ∀ c, c ∈ creds s → c_TokenHash c ≠ Sum256 W (bytes_of (b64url token));
  rt_proxy : proxy ≠ uuid_Nil ∧ ∀ r, r ∈ subs s → s_ProxyUUID r ≠ proxy;
}.

Lemma token_prefix token : token ≠ [] → between 1 (RuneCountInString (String.substring 0 8 (b64url token))) 16 = true.
Proof.
  intros Ht. assert (Hc : ∃ a t, b64url token = String a t).
  { destruct token as [|a [|b [|c l]]]; [done|simpl; eauto..]. }
  destruct Hc as (a & t & ->). set (x := String.substring 0 8 (String a t)).
  assert (Hx : ∃ t', x = String a t') by (by eexists). destruct Hx as (t' & Ex).
  assert (Hl : (String.length x ≤ 8)%nat).
  { unfold x. clear. do 8 (destruct t as [|? t]; [simpl; lia|]). simpl. destruct t; simpl; lia. }
  pose proof (RuneCountInString_le x) as [_ Hu]. unfold blen in Hu.
  assert (1 ≤ RuneCountInString x) by (rewrite Ex; unfold RuneCountInString, runes; simpl; lia).
  unfold between. apply andb_true_iff. split; lia.
Qed.

(** The old link afterwards, and the new one. *)
Definition dead_link (id : uuid) (now : Time) (c : cred_row) : cred_row :=
  if active_link id c
  then mkCred (c_ID c) (c_SubscriptionID c) (c_UserID c) (c_TokenHash c) (c_TokenPrefix c) (c_TokenEncrypted c)
         "revoked" (Some now) (Some "rotated") None (c_RotatedCount c + 1)
  else c.
Definition new_link (W : Env) (s : store) (m : sub_row) (token sealed : list Z) : cred_row :=
  mkCred (next_id s) (s_ID m) (s_UserID m) (Sum256 W (bytes_of (b64url token))) (String.substring 0 8 (b64url token)) sealed
    "active" None None None 0.

Lemma dead_inactive id now c : active_link id (dead_link id now c) = false.
Proof. unfold dead_link. destruct (active_link id c) eqn:E; [|done]. unfold active_link. simpl. apply andb_false_r. Qed.

Lemma InsertCredential_eq c0 s :
  let c := c0 (next_id s) in
  length (c_TokenHash c) = 32%nat → between 1 (RuneCountInString (c_TokenPrefix c)) 16 = true →
  (∀ x, x ∈ creds s → c_TokenHash x ≠ c_TokenHash c ∧ active_link (c_SubscriptionID c) x = false) →
  (∃ r, r ∈ subs s ∧ s_ID r = c_SubscriptionID c ∧ s_UserID r = c_UserID c) →
  InsertCredential c0 s = (Ok (), bump_id (set_creds (λ l, l ++ [c])%list s)).
Proof.
  intros c Hh Hp Hn (r & Hr & E1 & E2). unfold InsertCredential. fold c. rewrite Hh, Hp. simpl.
  destruct (existsb _ (creds s)) eqn:Ex.
  { apply existsb_true in Ex as (x & Hx & Ex). destruct (Hn x Hx) as [H1 H2].
    apply orb_true_iff in Ex as [Ex%bool_decide_eq_true|Ex]; [done|]. unfold active_link in H2. congruence. }
  destruct (existsb _ (subs s)) eqn:Ey; [done|]. rewrite existsb_false in Ey. specialize (Ey r Hr).
  by rewrite E1, E2, !N.eqb_refl in Ey.
Qed.

Lemma rotateLocked_eq W D s who id m p prefix base proxy token sealed now a src :
  rotate_ready W D s who id m p prefix base proxy token sealed → actor_ok W a →
  ∃ s', rotateLocked W now proxy token m a src s = (Ok (), s') ∧
    subs s' = put_sub (set_proxy proxy m) (subs s) ∧
    creds s' = (map (dead_link id now) (creds s) ++ [new_link W s m token sealed])%list ∧
    quotas s' = quotas s ∧ usage s' = usage s ∧ resets s' = resets s ∧ trials s' = trials s ∧
    events s' = (events s ++ [mkEvent id EventLinkRotated (Some (s_Status m)) (s_Status m) (act_Kind a) (act_ID a) None
                   [("source", PStr src)]])%list ∧ id ∈ roster s'.
Proof.
  intros [Hs Hm <- Hwho Ho Hu Hp Hb (seal & Hseal & Hsd) Hop Ht Hh Hnew [Hp0 Hpr]] Ha.
  set (s1 := set_creds (map (dead_link (s_ID m) now)) s). set (c := new_link W s m token sealed).
  set (s2 := bump_id (set_creds (λ l, l ++ [c])%list s1)).
  assert (H1 : RevokeActiveCredentials (s_ID m) rotateReason now None s = (Ok (map c_ID (List.filter (active_link (s_ID m)) (creds s))), s1)) by done.
  assert (H2 : issueCredential W m token s1 = (Ok (), s2)).
  { unfold issueCredential. rewrite Hseal, Hsd. apply map_err_run, InsertCredential_eq; [done|by apply token_prefix| |].
    - intros x (y & -> & Hy)%list_elem_of_fmap. split; [|apply dead_inactive].
      specialize (Hnew y Hy). unfold dead_link. by destruct (active_link (s_ID m) y).
    - by exists m. }
  set (s3 := set_subs (put_sub (set_proxy proxy m)) s2).
  assert (H3 : RotateProxyUUID proxy (s_ID m) s2 = (Ok proxy, s3)).
  { unfold RotateProxyUUID. change (subs s2) with (subs s).
    assert (existsb (λ r, (s_ID r =? s_ID m)%N) (subs s) = true) as ->.
    { apply existsb_true. exists m. split; [done|]. apply N.eqb_refl. }
    assert (existsb (λ r, negb (s_ID r =? s_ID m)%N && (s_ProxyUUID r =? proxy)%N) (subs s) = false) as ->.
    { apply existsb_false. intros x Hx. apply andb_false_iff. right. apply N.eqb_neq. by apply Hpr. }
    cbn [negb]. unfold s3, set_subs. change (subs s2) with (subs s).
    destruct (update_put W s m (λ r, (s_ID r =? s_ID m)%N) (set_proxy proxy)) as [-> _]; try done; [apply N.eqb_refl|].
    intros x. apply N.eqb_eq. }
  eexists. split.
  - unfold rotateLocked. erewrite bind_eq by (apply map_err_run, H1). erewrite bind_eq by exact H2.
    erewrite bind_eq by (apply map_err_run, H3). rewrite (proj2 (N.eqb_neq proxy uuid_Nil) Hp0).
    erewrite bind_eq; [apply notifyRoster_eq|].
    pose proof (sub_check_status m (row_check _ _ _ Hs Hm)) as Hst.
    apply writeEvent_eq; [|list_in|destruct Hst as [-> | ->]; auto|done|done|done].
    simpl. rewrite put_sub_ids. by apply list_elem_of_fmap_2.
  - split_and!; try done. simpl. destruct (proj1 (Forall_forall _ _) (so_fresh _ _ Hs) m Hm) as [H _].
    destruct (N.eqb_spec (s_ID m) uuid_Nil) as [E|]; [unfold uuid_Nil in E; lia|]. simpl. set_solver.
Qed.

Lemma caller_ok W who p : sub_principal who = Ok p → pr_UserID p ∈ env_users W → actor_ok W (sub_actor p).
Proof.
  unfold sub_principal. destruct who as [q|]; [|done]. destruct (N.eqb_spec (pr_UserID q) uuid_Nil) as [|Hn]; [done|].
  intros [= ->] Hu. unfold sub_actor. destruct (String.eqb _ _); split; simpl; try (by apply bool_decide_eq_true);
    unfold validateActor; simpl; by rewrite (proj2 (N.eqb_neq _ _) Hn).
Qed.

(** C38: rotating a link.  The owner of a live subscription gets an address
    that ends in the new token, and the tables hold the hash of that token as
    the only valid link; the old link is revoked with no grace, the node
    identity is the one drawn, the nodes are told, and one event says who
    rotated it; nothing else of the subscription changes, nor any other
    subscription, link, quota or reset log.  A subscription that is not live is
    refused and nothing changes. *)
Theorem rotate_exact W D inTx who now1 now2 proxy token id m p prefix base sealed s :
  rotate_ready W D s who id m p prefix base proxy token sealed →
  let run := MyRotate W D inTx who now1 now2 proxy token id s in
  if bool_decide (state_of m now1 = StateLive)
  then ∃ s', run = (Ok (trimSlashes base ++ "/" ++ prefix ++ "/" ++ b64url token), s') ∧
    subs s' = put_sub (set_proxy proxy m) (subs s) ∧
    creds s' = (map (dead_link id now2) (creds s) ++ [new_link W s m token sealed])%list ∧
    (∀ c, c ∈ creds s' → c_SubscriptionID c = id → c_Status c = "active" → c_TokenHash c = Sum256 W (bytes_of (b64url token))) ∧
    events s' = (events s ++ [mkEvent id EventLinkRotated (Some (s_Status m)) (s_Status m) (act_Kind (sub_actor p))
                   (act_ID (sub_actor p)) None [("source", PStr "user")]])%list ∧
    quotas s' = quotas s ∧ usage s' = usage s ∧ resets s' = resets s ∧ trials s' = trials s ∧ id ∈ roster s'
  else run = (Err ErrRotateWhileExpired, s).
Proof.
  intros Hr run. pose proof Hr as [Hs Hm Hid Hwho Ho Hu Hp Hb Hseal Hop Ht Hh Hnew Hpr].
  assert (Hlock : lockOwned id (Some (pr_UserID p)) s = (Ok m, s)) by (rewrite <- Hid; eapply (lockOwned_eq W); [done..|simpl; by symmetry]).
  unfold run, MyRotate. erewrite bind_eq by (apply lift_eq, Hwho). erewrite bind_eq by (apply lift_eq; by rewrite Hp).
  destruct (bool_decide (state_of m now1 = StateLive)) eqn:El.
  2: { erewrite bind_err; [done|]. unfold tx, Do. erewrite bind_eq by exact Hlock. rewrite El. by destruct inTx. }
  destruct (rotateLocked_eq W D s who id m p prefix base proxy token sealed now2 (sub_actor p) "user" Hr)
    as (s1 & H1 & E1 & E2 & E3 & E4 & E5 & E6 & E7 & E8); [by eapply caller_ok|].
  exists (add_audit (ActionLinkRotated, id) s1). split.
  - erewrite bind_eq.
    2: { apply tx_eq. erewrite bind_eq by exact Hlock. rewrite El. cbn [negb]. erewrite bind_eq by exact H1.
         erewrite bind_eq by done. erewrite bind_eq by (apply map_err_run, gets_eq). cbn [creds add_audit]. rewrite E2, Hid.
         rewrite find_app. replace (List.find (active_link id) (map (dead_link id now2) (creds s))) with (@None cred_row).
         2: { symmetry. destruct (List.find _ _) as [c|] eqn:E; [|done]. apply find_some in E as [Hc%list_elem_of_In E].
              apply list_elem_of_fmap in Hc as (y & -> & _). by rewrite dead_inactive in E. }
         simpl. unfold active_link at 1. simpl. rewrite Hid, N.eqb_refl. simpl. rewrite Hop. done. }
    erewrite bind_eq by (apply lift_eq, Hb). unfold linkURL. rewrite string_of_bytes_of. done.
  - simpl. split_and!; try done. intros c Hc Hi Ha. rewrite E2 in Hc. apply elem_of_app in Hc as [Hc|Hc%list_elem_of_singleton]; [|by subst c].
    apply list_elem_of_fmap in Hc as (y & -> & _). pose proof (dead_inactive id now2 y) as Hd. unfold active_link in Hd.
    by rewrite Hi, Ha, N.eqb_refl in Hd.
Qed.
End Thms.
