(* ===== verification/SubTraffic.v ===== *)
(** Stacking a one-time plan, bonus traffic, resetting traffic, and what every
    operation answers on a subscription whose window is closed. *)
From Stdlib Require Import ZArith Lia.
From stdpp Require Import base tactics list gmap strings sorting.
From S2P Require Import Prelude Decimal GoString Money GoTime Period SubTypes SubStore SubFacts SubExact SubQuota.
From S2P Require Import Subscription SubThms.
#[local] Open Scope string_scope.
#[local] Open Scope Z_scope.

Section Traffic.
Context `{DL : DecimalLib}.
Abbreviation SM := (M store serr).

(** * Stacking *)

Record stack_ready (W : Env) (s : store) (in_ : Stacking) (m : sub_row) (plan : Plan) (v : Version) : Prop := {
  sr_open : open_sub W s (sk_SubscriptionID in_) (Some (sk_UserID in_)) m;
  sr_plan : planOf W (s_PlanID m) = Ok plan;
  sr_kind : pl_Kind plan = KindOneTime;
  sr_version : versionFor W (s_PlanID m) (sk_PlanVersionID in_) = Ok v;
  sr_ref : (s_PlanID m, sk_PlanVersionID in_) ∈ env_versions W;
  sr_price : price_ok W (sk_Price in_);
  sr_interval : Interval (p_Snap (sk_Price in_)) = "one_time";
  sr_actor : actor_ok W (sk_Actor in_);
  sr_order : mem_opt (sk_OrderID in_) (env_orders W) = true;
  sr_source : exactly_one (sk_OrderID in_) (sk_GiftCodeID in_) = true;
  sr_paid : sk_PaidAt in_ ≠ zeroTime;
}.

Lemma AddInterval_one_time t c : AddInterval t "one_time" c = AddDate t 100 0 0.
Proof. unfold AddInterval. simpl. done. Qed.

Lemma AddDate_years t y : 0 ≤ y → t + 336 * y * Day ≤ AddDate t y 0 0 ≤ t + 372 * y * Day.
Proof.
  intros Hy. rewrite AddDate_eq. pose proof (month_start_step (month_of t) (12 * y) ltac:(lia)) as H. pose proof Day_pos.
  rewrite !Z.add_0_r in *. nia.
Qed.

Lemma After_false t u : After t u = false → t ≤ u.
Proof. apply Z.ltb_ge. Qed.

(** Conversion unfolds [IsPermanent] before it looks into the calendar. *)
#[local] Strategy -10 [IsPermanent].

Lemma IsPermanent_false wall end_ : IsPermanent wall end_ = false → end_ ≤ AddDate wall permanentHorizon 0 0.
Proof. intros H. exact (After_false _ _ H). Qed.

(** A permanent end lies beyond every end that is not permanent yet. *)
Lemma permanent_after (wall now oldEnd : Time) :
  wall ≤ now + Day → oldEnd ≤ AddDate wall permanentHorizon 0 0 →
  oldEnd < Truncate (AddDate now 100 0 0) Microsecond.
Proof.
  intros Hw Hp. apply Truncate_after.
  assert (H0 : 0 ≤ permanentHorizon) by (unfold permanentHorizon; lia).
  destruct (AddDate_years wall permanentHorizon H0) as [_ H1].
  assert (H0' : 0 ≤ 100) by lia. destruct (AddDate_years now 100 H0') as [H2 _].
  assert (HD : 1000 ≤ Day) by (vm_compute; discriminate).
  revert Hp H1 H2. generalize (AddDate wall permanentHorizon 0 0) (AddDate now 100 0 0). intros y x.
  unfold permanentHorizon, Time, Duration in *. revert HD Hw. generalize Day. intros D. lia.
Qed.

Lemma dated_after (now oldEnd : Time) n :
  1 ≤ n → oldEnd ≤ Truncate (AddDate (Z.max now oldEnd) 0 0 n) Microsecond ∧
  Z.max now oldEnd + n * Day - Microsecond < Truncate (AddDate (Z.max now oldEnd) 0 0 n) Microsecond
    ≤ Z.max now oldEnd + n * Day.
Proof.
  intros Hn. rewrite AddDate_days. assert (HM : 0 < Microsecond) by (unfold Microsecond; lia).
  pose proof (Truncate_bounds (Z.max now oldEnd + n * Day) Microsecond HM) as H.
  assert (HD : Microsecond ≤ Day) by (vm_compute; discriminate).
  revert H HD HM. generalize (Truncate (Z.max now oldEnd + n * Day) Microsecond) Microsecond Day.
  unfold Time, Duration in *. intros x M D H HD HM. split; nia.
Qed.

Lemma StackEnd_permanent wall oldEnd now p : IsPermanent wall oldEnd = true → StackEnd wall oldEnd now p = oldEnd.
Proof. unfold StackEnd. intros ->. by destruct (validity p). Qed.

Lemma StackEnd_dated wall oldEnd now p n : IsPermanent wall oldEnd = false → validity p = Some n →
  StackEnd wall oldEnd now p = Truncate (AddDate (Z.max now oldEnd) 0 0 n) Microsecond.
Proof.
  unfold StackEnd. intros -> ->.
  assert (Eb : Z.max now oldEnd = if After now oldEnd then now else oldEnd).
  { unfold After. destruct (Z.ltb_spec oldEnd now); lia. }
  rewrite Eb. reflexivity.
Qed.

Lemma StackEnd_one_time wall oldEnd now p : IsPermanent wall oldEnd = false → validity p = None →
  StackEnd wall oldEnd now p = Truncate (AddDate now 100 0 0) Microsecond.
Proof. unfold StackEnd. intros -> ->. by rewrite AddInterval_one_time. Qed.

(** Stacking never brings the end forward: dated prices add their days to the
    later of now and the old end, permanent ones land beyond it. *)
Lemma StackEnd_after (wall now oldEnd : Time) p :
  wall ≤ now + Day → (∀ n, validity p = Some n → 1 ≤ n) →
  oldEnd ≤ StackEnd wall oldEnd now p ∧
  (∀ n, validity p = Some n → IsPermanent wall oldEnd = false →
     Z.max now oldEnd + n * Day - Microsecond < StackEnd wall oldEnd now p ≤ Z.max now oldEnd + n * Day).
Proof.
  intros Hw Hv. destruct (IsPermanent wall oldEnd) eqn:Hp.
  { rewrite (StackEnd_permanent _ _ _ _ Hp). split; [apply Z.le_refl|]. intros n _ H. discriminate H. }
  destruct (validity p) as [n|] eqn:E.
  - rewrite (StackEnd_dated _ _ _ _ n Hp E). destruct (dated_after now oldEnd n (Hv n eq_refl)) as [H1 H2].
    split; [exact H1|]. intros n' [= <-] _. exact H2.
  - rewrite (StackEnd_one_time _ _ _ _ Hp E). split; [|intros n H; discriminate H].
    apply Z.lt_le_incl. apply (permanent_after wall now oldEnd Hw).
    exact (IsPermanent_false _ _ Hp).
Qed.

(** The traffic row of the [total] period with the stacked version's traffic. *)
Definition stack_row (def : option QuotaDef) (q : quota_row) : quota_row :=
  match q_LimitValue q with
  | None => q
  | Some l => match def ≫= qd_Limit with
              | Some d => set_qlimit (Some (Z.min (l + d) MaxInt64)) q
              | None => set_qlimit None q
              end
  end.

Lemma saturatedAdd_min a b : 0 ≤ a ≤ MaxInt64 → 0 ≤ b ≤ MaxInt64 → saturatedAdd a b = Z.min (a + b) MaxInt64.
Proof.
  intros Ha Hb. unfold saturatedAdd. rewrite (wrap64_id (MaxInt64 - b)) by (unfold in64, MinInt64, MaxInt64 in *; lia).
  destruct (Z.ltb_spec 0 b); simpl; [destruct (Z.ltb_spec (MaxInt64 - b) a); [lia|]|];
    rewrite wrap64_id by (unfold in64, MinInt64, MaxInt64 in *; lia); lia.
Qed.

(** What stacking leaves in the quota table. *)
Definition stacked (m : sub_row) (now : Time) (def : option QuotaDef) (T T' : list quota_row) : Prop :=
  match List.find total_traffic (rows_of (s_ID m) T) with
  | Some q => T' = upd_rows (stack_row def) [q_ID q] T
  | None => match def with
            | None => T' = T
            | Some d => ∃ id, T' = (T ++ [mkQuotaRow id (s_ID m) MetricTraffic PeriodTotal now None (qd_Limit d) 0 0])%list
            end
  end.

Definition def_range (def : option QuotaDef) : Prop := ∀ d l, def = Some d → qd_Limit d = Some l → 0 ≤ l ≤ MaxInt64.

Lemma quota_limit_range q l : write_quota q = Ok () → q_LimitValue q = Some l → 0 ≤ l ≤ MaxInt64.
Proof.
  unfold write_quota. destruct (quota_range q) eqn:Hr; [|done]. destruct (quota_check q) eqn:Hc; [|done]. intros _ E.
  unfold quota_range, quota_check in *. rewrite E in *. reflect_bools.
  match goal with H : is_int64 l = true |- _ => apply is_int64_spec in H; unfold in64 in H end. lia.
Qed.

Lemma stack_row_check def q : write_quota q = Ok () → def_range def → quota_check (stack_row def q) = true.
Proof.
  intros Hq Hd. unfold stack_row. destruct (q_LimitValue q) as [l|] eqn:E.
  - pose proof (quota_limit_range q l Hq E) as Hl. unfold write_quota in Hq.
    destruct (quota_range q); [|done]. destruct (quota_check q) eqn:Hc; [|done].
    destruct (def ≫= qd_Limit) as [d|] eqn:Ed; unfold quota_check in *; rewrite E in Hc; cbn; reflect_bools;
      repeat (rewrite andb_true_iff; split); try first [done|lia|by apply bool_decide_eq_true].
    destruct def as [df|]; [|done]. simpl in Ed. specialize (Hd df d eq_refl Ed). lia.
  - unfold write_quota in Hq. destruct (quota_range q); [|done]. by destruct (quota_check q).
Qed.

Lemma find_total_none id T :
  List.find total_traffic (rows_of id T) = None → (id, MetricTraffic, PeriodTotal) ∉ map quota_key T.
Proof.
  intros Hf (q & Eq & Hq)%list_elem_of_fmap. injection Eq as E1 E2 E3.
  eapply find_none in Hf; [|apply list_elem_of_In, rows_of_in; by split]. unfold total_traffic in Hf.
  by rewrite <- E2, <- E3 in Hf.
Qed.

(** The quota step of stacking. *)
Lemma stack_quota_eq W s m now def :
  store_ok W s → s_ID m ∈ map s_ID (subs s) → def_range def →
  (∀ q, q ∈ rows_of (s_ID m) (quotas s) → quota_range (stack_row def q) = true) →
  ∃ s', stack_quota now m def (List.find total_traffic (rows_of (s_ID m) (quotas s))) s = (Ok (), s') ∧
    stacked m now def (quotas s) (quotas s') ∧ same_but_quotas s s'.
Proof.
  intros Hs Hm Hd Hr. unfold stack_quota, stacked.
  destruct (List.find total_traffic _) as [q|] eqn:Hf.
  - apply find_some in Hf as [Hq _]. apply list_elem_of_In in Hq. specialize (Hr q Hq). apply rows_of_in in Hq as [Hq _].
    pose proof (quota_row_ok _ _ _ Hs Hq) as Hw.
    assert (Hw' : write_quota (stack_row def q) = Ok ()).
    { unfold write_quota. by rewrite Hr, stack_row_check. }
    destruct (q_LimitValue q) as [l|] eqn:El.
    + pose proof (quota_limit_range q l Hw El) as Hl.
      destruct (def ≫= qd_Limit) as [d|] eqn:Ed; eexists; (split; [apply (UpdateQuota_row (stack_row def));
        [apply Hs|done| |done]|by split]).
      * unfold stack_row. rewrite El, Ed. rewrite saturatedAdd_min; [done|done|].
        destruct def as [df|]; [|done]. simpl in Ed. by apply (Hd df d).
      * unfold stack_row. by rewrite El, Ed.
    + exists s. split; [done|]. split; [|by split_and!]. unfold upd_rows. rewrite <- (map_id (quotas s)) at 1.
      apply map_ext_in. intros x Hx%list_elem_of_In. rewrite mem_one.
      destruct (N.eqb_spec (q_ID x) (q_ID q)) as [E|]; [|done].
      rewrite (NoDup_map_inj q_ID (quotas s) x q (so_qids _ _ Hs) Hx Hq E). unfold stack_row. by rewrite El.
  - destruct def as [d|]; [|by exists s].
    set (row := mkQuotaRow uuid_Nil (s_ID m) MetricTraffic PeriodTotal now None (qd_Limit d) 0 0).
    destruct (InsertQuotas_eq [row] s) as (new & n & H1 & H2).
    { constructor; [|done]. unfold write_quota, quota_range, quota_check. cbn. destruct (qd_Limit d) as [l|] eqn:El; [|done].
      specialize (Hd d l eq_refl El). rewrite !(proj2 (is_int64_spec _)) by (unfold in64, MinInt64, MaxInt64 in *; lia).
      by replace (0 <=? l) with true by lia. }
    { apply NoDup_singleton. }
    { intros q ->%list_elem_of_singleton. by apply find_total_none. }
    { intros q ->%list_elem_of_singleton. done. }
    eexists. split; [by apply map_err_run|]. split; [|by split_and!]. simpl.
    destruct new as [|x [|y new]]; try done. exists (q_ID x). simpl in H2. injection H2 as E1 E2 E3 E4 E5 E6 E7 E8. f_equal. f_equal.
    destruct x. simpl in *. by subst.
Qed.

(** Membership of a literal in a literal list. *)
Ltac list_in := apply (bool_decide_unpack _); vm_compute; exact I.

(** Buying a one-time plan again stacks onto the running subscription.  It
    always goes through when the stacked traffic still fits the column: the
    period keeps its start, the end never moves back and a dated price adds its
    days to the later of now and the old end; the version and the price
    snapshot are the new ones; the total traffic limit grows by the version's
    (an unlimited one stays or becomes unlimited) with usage and bonus kept;
    nothing is reset and the links are untouched. *)
Theorem stack_exact W inTx wall now in_ m plan v s :
  stack_ready W s in_ m plan v → wall ≤ now + Day →
  let def := quotaDef (withKind v (pl_Kind plan)) MetricTraffic PeriodTotal in
  def_range def → (∀ q, q ∈ rows_of (s_ID m) (quotas s) → quota_range (stack_row def q) = true) →
  let e := StackEnd wall (s_PeriodEnd m) now (p_Snap (sk_Price in_)) in
  let m' := set_status StatusActive (set_version (sk_PlanVersionID in_)
              (set_end e (snapshotCols (sk_Price in_) (s_PriceID m) m))) in
  s_PeriodEnd m ≤ e ∧
  (∀ n, validity (p_Snap (sk_Price in_)) = Some n → IsPermanent wall (s_PeriodEnd m) = false →
     Z.max now (s_PeriodEnd m) + n * Day - Microsecond < e ≤ Z.max now (s_PeriodEnd m) + n * Day) ∧
  ∃ s', Stack W inTx wall now in_ s = (Ok (mkRenewalResult (s_ID m) (s_Status m) false (s_PeriodEnd m) e), s') ∧
    subs s' = put_sub m' (subs s) ∧ stacked m now def (quotas s) (quotas s') ∧
    creds s' = creds s ∧ resets s' = resets s ∧
    ∃ ev, events s' = (events s ++ [ev])%list ∧ ev_Type ev = EventRenewed ∧ ev_SubscriptionID ev = s_ID m ∧
      ev_OrderID ev = sk_OrderID in_.
Proof.
  intros [Ho Hp Hk Hvf Hvr Hpr Hiv Hac Hor Hone Hpd] Hwall def Hdef Hrng e m'.
  destruct (StackEnd_after wall now (s_PeriodEnd m) (p_Snap (sk_Price in_)) Hwall) as [He1 He2].
  { intros n. unfold validity. destruct (ValidityDays _) as [k|]; [|done]. destruct (Z.ltb_spec 0 k); [|done].
    intros [= <-]. lia. }
  split; [exact He1|]. split; [exact He2|]. clear He2.
  assert (Ee : StackEnd wall (s_PeriodEnd m) now (p_Snap (sk_Price in_)) = e) by reflexivity. rewrite Ee in He1. clearbody e.
  destruct (validatePrice_facts _ (po_valid _ _ Hpr)) as (Hck & Hneg & Hvi & Hcnt).
  pose proof (write_sub_facts _ _ (open_write _ _ _ _ _ Ho)) as (_ & _ & _ & _ & Hpm & _).
  pose proof (sub_check_period _ (row_check _ _ _ (os_ok _ _ _ _ _ Ho) (os_in _ _ _ _ _ Ho))) as Hper.
  destruct (open_put _ _ _ _ _ m' Ho eq_refl eq_refl) as [Hin _].
  set (cols := λ r : sub_row, set_version (sk_PlanVersionID in_)
                 (set_end e (snapshotCols (sk_Price in_) (s_PriceID m) r))).
  assert (Htr : transition W m StatusActive (Some (p_Amount (sk_Price in_))) cols s = (Ok (), set_subs (put_sub m') s)).
  { apply (transition_eq W s m StatusActive (Some (p_Amount (sk_Price in_))) cols);
      [apply Ho|apply Ho|by eapply open_can|done|done|].
    eapply write_sub_ok; [by eapply open_write|done|done|done|apply Ho|by left| |apply Hpr|done|done|done| |done].
    - simpl. lia.
    - simpl. destruct (p_PriceID (sk_Price in_)) eqn:Epr; [rewrite <- Epr; apply Hpr|done]. }
  assert (Hs1 : store_ok W (set_subs (put_sub m') s)).
  { eapply transition_safe; [|apply Ho|exact Htr]. done. }
  destruct (stack_quota_eq W _ m now def Hs1 Hin Hdef Hrng) as (s2 & H2 & H3 & (E1 & E2 & E3 & E4 & _)).
  eexists. split.
  - unfold Stack. erewrite bind_eq by (apply lift_eq, Hpr). erewrite bind_eq by (apply lift_eq, Hac).
    unfold IsZeroTime. rewrite (proj2 (Z.eqb_neq _ _) Hpd), Hone, Hiv. cbn [negb String.eqb].
    change (String.eqb "one_time" "one_time") with true. cbn [negb].
    apply tx_eq. erewrite bind_eq by (by eapply open_lock). erewrite open_not_ended by done.
    erewrite bind_eq by (by apply lift_eq). rewrite Hk, String.eqb_refl. cbn [negb].
    erewrite bind_eq by (apply lift_eq, Hvf). rewrite <- Hk, Ee. cbv zeta.
    erewrite bind_eq by exact Htr. erewrite bind_eq by (apply map_err_run, gets_eq).
    erewrite bind_eq by exact H2.
    erewrite bind_eq.
    2: { apply writeEvent_eq; [by rewrite E1|list_in|by eapply open_from|by left|done|done]. }
    erewrite bind_eq by apply notifyRoster_eq. done.
  - simpl in *. rewrite E1, E2, E3, E4. split_and!; try done. by eexists.
Qed.

(** * Bonus traffic *)

(** The trimmed note, when it may be stored. *)
Definition clean_note (note : string) : result serr string :=
  if String.eqb note "" then Ok "" else cleanText note 1 maxNoteRunes "note".

Lemma clean_note_eq note n s :
  clean_note note = Ok n →
  (if String.eqb note "" then mret "" else lift (cleanText note 1 maxNoteRunes "note") : SM string) s = (Ok n, s).
Proof. unfold clean_note. destruct (String.eqb note ""); [by intros [= <-]|]. apply lift_eq. Qed.

Record bonus_ready (W : Env) (s : store) (in_ : BonusGrant) (m : sub_row) (plan : Plan) (t : quota_row)
    (now1 now2 : Time) : Prop := {
  br_open : open_sub W s (bg_SubscriptionID in_) (bg_UserID in_) m;
  br_live : state_of m now1 = StateLive;
  br_bytes : 1 ≤ bg_Bytes in_ ≤ MaxInt64;
  br_source : bg_Source in_ = BonusGiftCard ∨ bg_Source in_ = BonusAdmin ∧ some_id (bg_ActorID in_) = true;
  br_note : ∃ n, clean_note (bg_Note in_) = Ok n;
  br_plan : planOf W (s_PlanID m) = Ok plan;
  br_target : bonus_target (trafficPeriod (pl_Kind plan)) (rows_of (s_ID m) (quotas s)) = Some t;
  br_settled : trafficPeriod (pl_Kind plan) = PeriodCycle → match q_PeriodEnd t with Some e => now2 < e | None => True end;
}.

(** The rows a bonus may go to: limited traffic rows of the plan's period. *)
Definition eligible (period : string) (q : quota_row) : Prop :=
  q_Metric q = MetricTraffic ∧ q_Period q = period ∧ is_Some (q_LimitValue q).

(** The chosen row is the eligible one that started last. *)
Lemma bonus_target_spec period rows :
  match bonus_target period rows with
  | Some t => t ∈ rows ∧ eligible period t ∧ ∀ q, q ∈ rows → eligible period q → q_PeriodStart q ≤ q_PeriodStart t
  | None => ∀ q, q ∈ rows → ¬ eligible period q
  end.
Proof.
  unfold bonus_target. induction rows as [|x rows IH] using rev_ind; [by intros q ?%elem_of_nil|].
  rewrite foldl_app. simpl. set (acc := foldl _ None rows) in *. clearbody acc.
  assert (Hcase : ∀ q, q ∈ (rows ++ [x])%list ↔ q ∈ rows ∨ q = x)
    by (intros q; by rewrite elem_of_app, list_elem_of_singleton).
  destruct (negb (String.eqb (q_Metric x) MetricTraffic) || negb (String.eqb (q_Period x) period) ||
            bool_decide (q_LimitValue x = None)) eqn:Hskip.
  - assert (Hx : ¬ eligible period x).
    { intros (Em & Ep & [l El]). by rewrite Em, Ep, El, !String.eqb_refl in Hskip. }
    destruct acc as [t|].
    + destruct IH as (H1 & H2 & H3). split; [apply Hcase; by left|]. split; [done|].
      intros q [Hq| ->]%Hcase Hq'; [by apply H3|done].
    + intros q [Hq| ->]%Hcase; [by apply IH|done].
  - assert (Hx : eligible period x).
    { apply orb_false_iff in Hskip as [[Hm Hp]%orb_false_iff Hl]. apply negb_false_iff, String.eqb_eq in Hm, Hp.
      apply bool_decide_eq_false in Hl. split_and!; [done|done|]. by destruct (q_LimitValue x). }
    unfold After. destruct acc as [t|].
    + destruct IH as (H1 & H2 & H3). destruct (Z.ltb_spec (q_PeriodStart t) (q_PeriodStart x)).
      * split; [apply Hcase; by right|]. split; [done|]. intros q [Hq| ->]%Hcase Hq'; [specialize (H3 q Hq Hq'); lia|lia].
      * split; [apply Hcase; by left|]. split; [done|]. intros q [Hq| ->]%Hcase Hq'; [by apply H3|lia].
    + split; [apply Hcase; by right|]. split; [done|]. intros q [Hq| ->]%Hcase Hq'; [by destruct (IH q Hq)|lia].
Qed.

Lemma bonus_row_check t b : write_quota t = Ok () → 0 ≤ b → quota_check (set_qbonus b t) = true.
Proof.
  unfold write_quota. destruct (quota_range t); [|done]. destruct (quota_check t) eqn:Hc; [|done]. intros _ Hb.
  unfold quota_check in *. cbn [q_Metric q_Period q_PeriodStart q_PeriodEnd q_LimitValue q_BonusValue q_Consumed set_qbonus].
  apply andb_true_iff in Hc as [-> _]. simpl. lia.
Qed.

Lemma bonus_row_range t l b :
  write_quota t = Ok () → q_LimitValue t = Some l → 0 ≤ b ≤ MaxInt64 →
  quota_range (set_qbonus b t) = (l + b <=? MaxInt64).
Proof.
  intros Hw El Hb. pose proof (quota_limit_range t l Hw El) as Hl. unfold write_quota in Hw.
  destruct (quota_range t) eqn:Hr; [|done]. destruct (quota_check t) eqn:Hc; [|done]. clear Hw.
  unfold quota_range, quota_check in *.
  cbn [q_Metric q_Period q_PeriodStart q_PeriodEnd q_LimitValue q_BonusValue q_Consumed set_qbonus]. rewrite El in *.
  assert (Hcs : 0 ≤ q_Consumed t ∧ in64 (q_Consumed t) ∧ is_int64 (q_Consumed t) = true).
  { reflect_bools. split_and!; [done| |done]. by apply is_int64_spec. }
  destruct Hcs as (H1 & H2 & ->). unfold in64 in H2. rewrite !(proj2 (is_int64_spec _)) by (unfold in64, MinInt64, MaxInt64 in *; lia).
  simpl. destruct (Z.leb_spec (l + b) MaxInt64) as [H|H].
  - rewrite !(proj2 (is_int64_spec _)) by (unfold in64, MinInt64, MaxInt64 in *; lia). done.
  - assert (is_int64 (l + b) = false) as ->; [|done]. apply not_true_iff_false. rewrite is_int64_spec. unfold in64. lia.
Qed.

(** C39: bonus traffic is decided by the column it goes to.  On a live
    subscription with a limited traffic row, granting adds the bytes to the
    bonus of the current traffic row, capped at the largest [int64], and
    changes nothing else, exactly when the row's generated [remaining] column
    can still be computed, that is when limit plus new bonus is an [int64];
    otherwise the database refuses the row and everything is rolled back. *)
Theorem grant_bonus_decided W inTx now1 now2 in_ m plan t s :
  bonus_ready W s in_ m plan t now1 now2 →
  ∃ l, q_LimitValue t = Some l ∧
  let b := Z.min (q_BonusValue t + bg_Bytes in_) MaxInt64 in
  (l + b ≤ MaxInt64 →
     ∃ s', GrantBonus W inTx now1 now2 in_ s = (Ok b, s') ∧
       quotas s' = upd_rows (set_qbonus b) [q_ID t] (quotas s) ∧
       subs s' = subs s ∧ creds s' = creds s ∧ events s' = events s ∧ resets s' = resets s) ∧
  (MaxInt64 < l + b → GrantBonus W inTx now1 now2 in_ s = (Err (ErrRepo DBOther), s)).
Proof.
  intros [Ho Hlive Hby Hsrc [n Hnote] Hp Ht Hset].
  pose proof (bonus_target_spec (trafficPeriod (pl_Kind plan)) (rows_of (s_ID m) (quotas s))) as Hspec. rewrite Ht in Hspec.
  destruct Hspec as (Hin & (_ & _ & [l El]) & _). apply rows_of_in in Hin as [Hin _].
  exists l. split; [done|]. intros b. pose proof (os_ok _ _ _ _ _ Ho) as Hs.
  pose proof (quota_row_ok _ _ _ Hs Hin) as Hw.
  assert (Hbr : 0 ≤ q_BonusValue t ≤ MaxInt64).
  { pose proof Hw as Hw'. unfold write_quota in Hw'. destruct (quota_range t) eqn:Hr; [|done].
    destruct (quota_check t) eqn:Hc; [|done]. unfold quota_range, quota_check in *. reflect_bools.
    match goal with H : is_int64 (q_BonusValue t) = true |- _ => apply is_int64_spec in H; unfold in64 in H end. lia. }
  assert (Hb : pg_sat_add (q_BonusValue t) (bg_Bytes in_) = b).
  { unfold pg_sat_add, b. destruct (Z.ltb_spec (MaxInt64 - bg_Bytes in_) (q_BonusValue t)); lia. }
  assert (Hb0 : 0 ≤ b ≤ MaxInt64) by (unfold b; lia). clearbody b.
  assert (Hid : (bg_SubscriptionID in_ =? uuid_Nil)%N = false).
  { rewrite <- (os_id _ _ _ _ _ Ho). apply N.eqb_neq.
    destruct (proj1 (Forall_forall _ _) (so_fresh _ _ Hs) m (os_in _ _ _ _ _ Ho)) as [Hp0 _]. unfold uuid_Nil. lia. }
  set (k := (bonus ← map_err subErr (AddQuotaBonus (q_ID t) (bg_Bytes in_)); _ ← notifyRoster [s_ID m]; mret bonus) : SM Z).
  assert (Hrun : GrantBonus W inTx now1 now2 in_ s = tx inTx (λ s, k s) s).
  { unfold GrantBonus. rewrite Hid. replace (bg_Bytes in_ <=? 0) with false by lia.
    rewrite (bind_eq _ _ _ () s) by (destruct Hsrc as [-> |[-> ->]]; done).
    erewrite bind_eq by (by eapply clean_note_eq). unfold tx, Do.
    erewrite bind_eq by (by eapply open_lock). rewrite Hlive. cbn [negb bool_decide].
    rewrite (bool_decide_eq_true_2 (StateLive = StateLive)) by done. cbn [negb].
    erewrite bind_eq by (by apply lift_eq). erewrite bind_eq by (apply map_err_run, gets_eq).
    unfold rows_of in Ht. rewrite Ht. destruct (String.eqb_spec (trafficPeriod (pl_Kind plan)) PeriodCycle) as [E|]; [|done].
    specialize (Hset E). destruct (q_PeriodEnd t) as [pe|]; [|done]. unfold After. by rewrite (proj2 (Z.ltb_lt _ _) Hset). }
  assert (Hupd : write_quota (set_qbonus b t) = if l + b <=? MaxInt64 then Ok () else Err (ErrRepo DBOther)).
  { unfold write_quota. rewrite (bonus_row_range t l b), bonus_row_check by (done || lia). by destruct (_ <=? _). }
  pose proof (find_quota_eq s t (so_qids _ _ Hs) Hin) as Hfq.
  split; intros Hl; rewrite Hrun.
  - replace (l + b <=? MaxInt64) with true in Hupd by lia.
    pose proof (UpdateQuota_row (set_qbonus b) (λ q, set_qbonus (pg_sat_add (q_BonusValue q) (bg_Bytes in_)) q) t s
      (so_qids _ _ Hs) Hin ltac:(by rewrite <- Hb) Hupd) as Hu.
    eexists. split.
    + apply tx_eq. unfold k. erewrite bind_eq.
      2: { unfold AddQuotaBonus, map_err. rewrite Hfq.
           destruct (UpdateQuota (q_ID t) _ s) as [[[]|er] s1] eqn:EU; [|unfold map_err in Hu; rewrite EU in Hu; done].
           apply (map_err_run subErr) in EU. rewrite Hu in EU. injection EU as <-. rewrite Hb. reflexivity. }
      erewrite bind_eq by apply notifyRoster_eq. done.
    + done.
  - replace (l + b <=? MaxInt64) with false in Hupd by lia.
    assert (Hk : k s = (Err (ErrRepo DBOther), s)).
    { unfold k. erewrite bind_err; [done|]. unfold AddQuotaBonus, UpdateQuota, map_err. rewrite Hfq, Hb, Hupd. done. }
    unfold tx, Do. destruct inTx; by rewrite Hk.
Qed.

(** * Resetting traffic *)

Definition is_traffic (q : quota_row) : bool := String.eqb (q_Metric q) MetricTraffic.
(** What a reset makes of a row. *)
Definition zeroed (q : quota_row) : quota_row := if is_traffic q then set_qconsumed 0 q else q.

Lemma zeroed_ok q : write_quota q = Ok () → write_quota (zeroed q) = Ok ().
Proof.
  unfold zeroed. destruct (is_traffic q); [|done]. unfold write_quota.
  destruct (quota_range q) eqn:Hr; [|done]. destruct (quota_check q) eqn:Hc; [|done]. intros _.
  unfold quota_range, quota_check in *.
  cbn [q_Metric q_Period q_PeriodStart q_PeriodEnd q_LimitValue q_BonusValue q_Consumed set_qconsumed].
  apply andb_true_iff in Hc as [[-> _]%andb_true_iff ->].
  apply andb_true_iff in Hr as [[_ ->]%andb_true_iff Hr]. change (is_int64 0) with true. simpl.
  destruct (q_LimitValue q) as [l|]; [|done]. rewrite Z.sub_0_r.
  apply andb_true_iff in Hr as [[-> ->]%andb_true_iff _]. done.
Qed.

Lemma zeroed_keeps : keeps_qid zeroed.
Proof. intros q. unfold zeroed. by destruct (is_traffic q). Qed.

Lemma wrap64_add_l a b : wrap64 (wrap64 a + b) = wrap64 (a + b).
Proof.
  unfold wrap64. f_equal. set (M := 2 ^ 64).
  replace ((a + 2 ^ 63) mod M - 2 ^ 63 + b + 2 ^ 63) with ((a + 2 ^ 63) mod M + b) by lia.
  rewrite Zplus_mod_idemp_l. f_equal. lia.
Qed.

Definition total_consumed (rows : list quota_row) : Z := foldr Z.add 0 (map q_Consumed rows).

Lemma reset_loop_eq rows traffic freed s :
  NoDup (qids s) → NoDup (map q_ID rows) → (∀ q, q ∈ rows → q ∈ quotas s) →
  (∀ q, q ∈ rows → write_quota q = Ok ()) → wrap64 freed = freed →
  reset_loop rows traffic freed s =
    (Ok (traffic ++ List.filter is_traffic rows,
         wrap64 (freed + total_consumed (List.filter is_traffic rows)))%list,
     set_quotas (upd_rows zeroed (map q_ID rows)) s).
Proof.
  revert traffic freed s. induction rows as [|q rows IH]; intros traffic freed s Hn Hr Hin Hw Hf.
  - unfold total_consumed. simpl. rewrite app_nil_r, Z.add_0_r, Hf. destruct s. unfold set_quotas. simpl. by rewrite upd_rows_nil.
  - destruct (visit zeroed q rows s zeroed_keeps Hn Hr Hin) as (V1 & V2 & V3 & V4 & V5).
    set (s1 := set_quotas (upd_rows zeroed [q_ID q]) s) in *.
    assert (Hw' : ∀ q0, q0 ∈ rows → write_quota q0 = Ok ()) by (intros; apply Hw; by constructor).
    assert (Hwq : write_quota q = Ok ()) by (apply Hw; constructor).
    simpl reset_loop. simpl List.filter. change (String.eqb (q_Metric q) MetricTraffic) with (is_traffic q).
    destruct (is_traffic q) eqn:Ht; cbn [negb].
    + rewrite (bind_eq _ _ _ () s1).
      2: { apply UpdateQuota_row; [done|apply Hin; constructor| |by apply zeroed_ok]. unfold zeroed. by rewrite Ht. }
      rewrite IH; [|done..|]. 2: { apply wrap64_id, wrap64_range. }
      rewrite <- app_assoc, wrap64_add_l, V4. simpl. do 3 f_equal. unfold total_consumed. simpl. f_equal. lia.
    + assert (Hsame : s1 = s) by (apply V5; unfold zeroed; by rewrite Ht). simpl map. rewrite <- V4, Hsame.
      rewrite Hsame in V3. by apply IH.
Qed.

Record reset_ready (W : Env) (s : store) (in_ : TrafficReset) (m : sub_row) (note : string) : Prop := {
  tr_open : open_sub W s (tr_SubscriptionID in_) (tr_UserID in_) m;
  tr_reason : tr_Reason in_ = ResetManual ∧ some_id (tr_ActorID in_) = true ∨ tr_Reason in_ = ResetGiftCard ∨
              tr_Reason in_ = ResetOrder ∧ some_id (tr_UserID in_) = true;
  tr_note : clean_note (tr_Note in_) = Ok note;
  tr_actor : mem_opt (tr_ActorID in_) (env_users W) = true;
}.

(** The instant the reset is judged at. *)
Definition reset_at (now : Time) (in_ : TrafficReset) : Time := if IsZeroTime (tr_At in_) then now else tr_At in_.

Lemma clean_note_range note n : clean_note note = Ok n → n = "" ∨ 1 ≤ RuneCountInString n ≤ 500.
Proof.
  unfold clean_note. destruct (String.eqb note ""); [intros [= <-]; by left|]. unfold cleanText.
  destruct (_ || _ || _ || _) eqn:E; [done|]. intros [= <-]. right. unfold maxNoteRunes in E.
  apply orb_false_iff in E as [E E2]. apply orb_false_iff in E as [E E1]. lia.
Qed.

(** Without traffic rows there is nothing to zero. *)
Lemma zeroed_none W s m :
  store_ok W s → List.filter is_traffic (rows_of (s_ID m) (quotas s)) = [] →
  set_quotas (upd_rows zeroed (map q_ID (rows_of (s_ID m) (quotas s)))) s = s.
Proof.
  intros Hs Et. destruct s as [a T]. unfold set_quotas. simpl in *. f_equal. rewrite upd_rows_own by apply Hs.
  unfold own_rows. rewrite <- (map_id T) at 2. apply map_ext_in. intros x Hx%list_elem_of_In.
  destruct (N.eqb_spec (q_SubscriptionID x) (s_ID m)) as [E|]; [|done]. unfold zeroed. destruct (is_traffic x) eqn:Ex; [|done].
  exfalso. assert (Hin : x ∈ List.filter is_traffic (rows_of (s_ID m) T))
    by (apply elem_of_filter_bool; split; [done|by apply rows_of_in]).
  rewrite Et in Hin. by eapply elem_of_nil.
Qed.

(** The log accepts the traffic rows of the subscription. *)
Lemma log_traffic W s in_ m note s1 :
  reset_ready W s in_ m note → subs s1 = subs s →
  let traffic := List.filter is_traffic (rows_of (s_ID m) (quotas s)) in
  logResets W m traffic (tr_Reason in_) (tr_ActorID in_) note s1 =
    (Ok (), add_resets (map (reset_of m (tr_Reason in_) (tr_ActorID in_) note) traffic) s1).
Proof.
  intros [Ho Hre Hnote Hac] E traffic.
  apply logResets_eq; [exists m; split_and!; [rewrite E; apply Ho|done|done]| | | |done|by eapply clean_note_range].
  - intros x [_ Hx]%elem_of_filter_bool. apply rows_of_in in Hx as [Hx _]. eapply quota_row_ok; [apply Ho|done].
  - destruct Hre as [[-> _]|[-> |[-> _]]]; list_in.
  - intros Er. destruct Hre as [[_ Hx]|[Hx|[Hx _]]]; [|by rewrite Hx in Er|by rewrite Hx in Er].
    by destruct (tr_ActorID in_).
Qed.

(** A traffic reset is all or nothing.  On a subscription that is live at
    the given instant and has traffic rows, every traffic row of it is set to
    zero, the log keeps what each had consumed with reason, operator and note,
    and the answer is their sum; other metrics, other subscriptions, the
    period and the links are untouched.  Off that state the answer is an error
    and nothing at all changes. *)
Theorem reset_traffic_exact W inTx now in_ m note s :
  reset_ready W s in_ m note →
  let traffic := List.filter is_traffic (rows_of (s_ID m) (quotas s)) in
  if negb (bool_decide (state_of m (reset_at now in_) = StateLive))
  then ResetTraffic W inTx now in_ s = (Err ErrNotLive, s)
  else if bool_decide (traffic = [])
  then ResetTraffic W inTx now in_ s = (Err ErrNoTrafficQuota, s)
  else ∃ s', ResetTraffic W inTx now in_ s = (Ok (wrap64 (total_consumed traffic)), s') ∧
    quotas s' = own_rows (s_ID m) zeroed (quotas s) ∧
    resets s' = (resets s ++ map (reset_of m (tr_Reason in_) (tr_ActorID in_) note) traffic)%list ∧
    subs s' = subs s ∧ creds s' = creds s ∧ events s' = events s.
Proof.
  intros [Ho Hre Hnote Hac] traffic. pose proof (os_ok _ _ _ _ _ Ho) as Hs. set (rows := rows_of (s_ID m) (quotas s)).
  set (k := (m ← lockOwned (tr_SubscriptionID in_) (tr_UserID in_);
    let at_ := if IsZeroTime (tr_At in_) then now else tr_At in_ in
    if negb (bool_decide (state_of m at_ = StateLive)) then fail ErrNotLive
    else
      rows ← map_err subErr (QuotasBySubscriptions [s_ID m]);
      tf ← reset_loop rows [] 0;
      match tf.1 with
      | [] => fail ErrNoTrafficQuota
      | traffic =>
          _ ← logResets W m traffic (tr_Reason in_) (tr_ActorID in_) note;
          _ ← notifyRoster [s_ID m];
          mret tf.2
      end) : SM Z).
  assert (Hrun : ResetTraffic W inTx now in_ s = tx inTx k s).
  { unfold ResetTraffic. rewrite (bind_eq _ _ _ () s) by (destruct Hre as [[-> ->]|[-> |[-> ->]]]; done).
    erewrite bind_eq by (by eapply clean_note_eq). done. }
  assert (Hloop : reset_loop rows [] 0 s =
    (Ok (traffic, wrap64 (total_consumed traffic)), set_quotas (upd_rows zeroed (map q_ID rows)) s)).
  { apply reset_loop_eq; [apply Hs|apply rows_of_NoDup, Hs|by intros q [? _]%rows_of_in| |done].
    intros q [Hq _]%rows_of_in. by eapply quota_row_ok. }
  unfold reset_at. destruct (bool_decide (state_of m _ = StateLive)) eqn:Hl; cbn [negb].
  2: { rewrite Hrun. assert (Hk : k s = (Err ErrNotLive, s)).
       { unfold k. erewrite bind_eq by (by eapply open_lock). cbv zeta. by rewrite Hl. }
       unfold tx, Do. destruct inTx; by rewrite Hk. }
  assert (Hmid : k s = (match traffic with
      | [] => fail ErrNoTrafficQuota
      | _ => _ ← logResets W m traffic (tr_Reason in_) (tr_ActorID in_) note; _ ← notifyRoster [s_ID m];
             mret (wrap64 (total_consumed traffic))
      end : SM Z) (set_quotas (upd_rows zeroed (map q_ID rows)) s)).
  { unfold k. erewrite bind_eq by (by eapply open_lock). cbv zeta. rewrite Hl. cbn [negb].
    erewrite bind_eq by (apply map_err_run, gets_eq). erewrite bind_eq by exact Hloop. cbn [fst snd].
    by destruct traffic. }
  destruct (bool_decide (traffic = [])) eqn:Et.
  - apply bool_decide_eq_true in Et. rewrite Hrun. rewrite Et in Hmid.
    assert (Hsame : set_quotas (upd_rows zeroed (map q_ID rows)) s = s) by (eapply zeroed_none; eassumption).
    rewrite Hsame in Hmid. unfold tx, Do. destruct inTx; by rewrite Hmid.
  - apply bool_decide_eq_false in Et. rewrite Hrun. eexists. split.
    + apply tx_eq. rewrite Hmid. destruct traffic as [|q tr] eqn:Etr; [done|]. rewrite <- Etr in *.
      erewrite bind_eq.
      2: { apply (log_traffic W s in_ m note); [by split|done]. }
      erewrite bind_eq by apply notifyRoster_eq. done.
    + simpl. split_and!; try done. unfold rows. apply upd_rows_own, Hs.
Qed.

(** * Closed subscriptions *)

(** An operation that answers an error and writes nothing; the error is [e] when
    its inputs are in order. *)
Definition refused {A} (op : SM A) (s : store) (valid : Prop) (e : serr) : Prop :=
  ∃ e', op s = (Err e', s) ∧ (valid → e' = e).

Lemma refused_err {A} (op : SM A) s valid e : op s = (Err e, s) → refused op s valid e.
Proof. intros H. by exists e. Qed.

(** A guard that writes nothing, then an operation that is refused. *)
Lemma refused_bind {A B} (g : SM A) (f : A → SM B) s (valid : Prop) e :
  (valid → ∃ a, (g s).1 = Ok a) → (g s).2 = s → (∀ a, refused (f a) s valid e) → refused (g ≫= f) s valid e.
Proof.
  intros Hv Hs Hf. destruct (g s) as [[a|e'] s1] eqn:E; simpl in *; subst s1.
  - destruct (Hf a) as (e1 & H1 & H2). exists e1. by rewrite (bind_eq _ _ _ a s).
  - exists e'. split; [by apply bind_err|]. intros H. destruct (Hv H) as [a Ha]. discriminate Ha.
Qed.

Lemma refused_if {A} (b : bool) (op : SM A) s (valid : Prop) e e' :
  (valid → b = false) → refused op s valid e → refused (if b then fail e' else op) s valid e.
Proof. intros Hb H. destruct b; [|done]. exists e'. split; [done|]. intros Hv. by specialize (Hb Hv). Qed.

Lemma refused_tx {A} b (op : SM A) s valid e : refused op s valid e → refused (tx b op) s valid e.
Proof. intros (e' & H & Hv). exists e'. split; [|done]. unfold tx, Do. destruct b; by rewrite H. Qed.

(** Loading the closed row, and then failing. *)
Lemma refused_lock {A} W s m owner (f : sub_row → SM A) (valid : Prop) e :
  store_ok W s → m ∈ subs s → (valid → match owner with Some o => o = s_UserID m | None => True end) →
  refused (f m) s valid e → refused (lockOwned (s_ID m) owner ≫= f) s valid e.
Proof.
  intros Hs Hm Hown (e' & H1 & H2).
  assert (Hor : (match owner with Some o => o = s_UserID m | None => True end) ∨
                ∃ o, owner = Some o ∧ o ≠ s_UserID m).
  { destruct owner as [o|]; [|by left]. destruct (N.eq_dec o (s_UserID m)); [by left|right; eauto]. }
  destruct Hor as [Ho|(o & -> & Ho)].
  - exists e'. split; [|done]. by rewrite (bind_eq _ _ _ m s) by (by eapply lockOwned_eq).
  - exists ErrNotFound. split; [|by intros Hv; destruct Ho; apply Hown]. apply bind_err.
    unfold lockOwned, loadSub. destruct (_ =? uuid_Nil)%N; [done|].
    rewrite (bind_eq _ _ _ (Some m) s).
    2: { apply map_err_run. unfold SubscriptionByID, gets. by rewrite (find_sub_eq W). }
    destruct (N.eqb_spec (s_UserID m) o); [by subst|done].
Qed.

Lemma closed_state m t now : s_RenewalClosedAt m = Some t → state_of m now = StateEnded.
Proof. intros E. unfold state_of, StateAt. by rewrite E. Qed.

Definition owns (owner : option uuid) (m : sub_row) : Prop := match owner with Some o => o = s_UserID m | None => True end.

(** A closed subscription refuses every change.  Once the renewal window
    is closed no input whatever to renewing, stacking, changing the plan,
    extending, granting bonus traffic or resetting traffic writes anything,
    inside or outside a caller's transaction; and when the input is in order
    the error is the one that says so. *)
Theorem closed_refused W inTx wall now now2 m t s :
  store_ok W s → m ∈ subs s → s_RenewalClosedAt m = Some t →
  (∀ in_, rn_SubscriptionID in_ = s_ID m → refused (Renew W inTx now in_) s
     (rn_UserID in_ = s_UserID m ∧ validatePrice (rn_Price in_) = Ok () ∧ validateActor (rn_Actor in_) = Ok () ∧
      rn_PaidAt in_ ≠ zeroTime) ErrRenewalWindowClosed) ∧
  (∀ in_, sk_SubscriptionID in_ = s_ID m → refused (Stack W inTx wall now in_) s
     (sk_UserID in_ = s_UserID m ∧ validatePrice (sk_Price in_) = Ok () ∧ validateActor (sk_Actor in_) = Ok () ∧
      sk_PaidAt in_ ≠ zeroTime ∧ exactly_one (sk_OrderID in_) (sk_GiftCodeID in_) = true ∧
      Interval (p_Snap (sk_Price in_)) = "one_time") ErrRenewalWindowClosed) ∧
  (∀ in_, pc_SubscriptionID in_ = s_ID m → refused (ChangePlan W inTx now in_) s
     (pc_UserID in_ = s_UserID m ∧ validatePrice (pc_Price in_) = Ok () ∧ validateActor (pc_Actor in_) = Ok () ∧
      exactly_one (pc_OrderID in_) (pc_GiftCodeID in_) = true ∧
      (∃ v, versionFor W (pc_PlanID in_) (pc_PlanVersionID in_) = Ok v) ∧ (∃ p, planOf W (pc_PlanID in_) = Ok p))
     ErrRenewalWindowClosed) ∧
  (∀ in_, ex_SubscriptionID in_ = s_ID m → refused (Extend W inTx now in_) s
     (owns (ex_UserID in_) m ∧ 1 ≤ ex_Days in_ ≤ maxExtendDays ∧ validateActor (ex_Actor in_) = Ok () ∧
      ex_Source in_ = ExtendSourceGiftCard) ErrExtendWindowClosed) ∧
  (∀ in_, bg_SubscriptionID in_ = s_ID m → refused (GrantBonus W inTx now now2 in_) s
     (owns (bg_UserID in_) m ∧ 1 ≤ bg_Bytes in_ ∧ bg_Source in_ = BonusGiftCard ∧ bg_Note in_ = "") ErrNotActive) ∧
  (∀ in_, tr_SubscriptionID in_ = s_ID m → refused (ResetTraffic W inTx now in_) s
     (owns (tr_UserID in_) m ∧ tr_Reason in_ = ResetGiftCard ∧ tr_Note in_ = "") ErrNotLive).
Proof.
  intros Hs Hm Hc. pose proof (closed_state m t) as Hst.
  assert (Hid : (s_ID m =? uuid_Nil)%N = false).
  { apply N.eqb_neq. destruct (proj1 (Forall_forall _ _) (so_fresh _ _ Hs) m Hm) as [Hp0 _]. unfold uuid_Nil. lia. }
  split_and!; intros in_ Eid.
  - unfold Renew. rewrite Eid.
    apply refused_bind; [naive_solver|done|intros _]. apply refused_bind; [naive_solver|done|intros _].
    apply refused_if; [unfold IsZeroTime; intros Hv; apply Z.eqb_neq, Hv|]. apply refused_tx.
    eapply refused_lock; [done|done|naive_solver|]. rewrite (Hst now Hc), bool_decide_eq_true_2 by done. by apply refused_err.
  - unfold Stack. rewrite Eid.
    apply refused_bind; [naive_solver|done|intros _]. apply refused_bind; [naive_solver|done|intros _].
    apply refused_if; [unfold IsZeroTime; intros Hv; apply Z.eqb_neq, Hv|].
    apply refused_if; [by intros (_ & _ & _ & _ & -> & _)|]. apply refused_if; [by intros (_ & _ & _ & _ & _ & ->)|].
    apply refused_tx.
    eapply refused_lock; [done|done|naive_solver|]. rewrite (Hst now Hc), bool_decide_eq_true_2 by done. by apply refused_err.
  - unfold ChangePlan. rewrite Eid.
    apply refused_bind; [naive_solver|done|intros _]. apply refused_bind; [naive_solver|done|intros _].
    apply refused_if; [by intros (_ & _ & _ & -> & _)|].
    apply refused_bind; [naive_solver|done|intros v]. apply refused_bind; [naive_solver|done|intros p]. apply refused_tx.
    eapply refused_lock; [done|done|naive_solver|]. rewrite (Hst now Hc), bool_decide_eq_true_2 by done. by apply refused_err.
  - unfold Extend. rewrite Eid. apply refused_if; [intros (_ & Hd & _); lia|].
    apply refused_bind; [naive_solver|done|intros _].
    apply refused_bind; [by intros (_ & _ & _ & ->); eexists|by repeat case_match|intros ra]. apply refused_tx.
    eapply refused_lock; [done|done|naive_solver|]. rewrite (Hst now Hc), bool_decide_eq_true_2 by done. by apply refused_err.
  - unfold GrantBonus. rewrite Eid, Hid. apply refused_if; [lia|].
    apply refused_bind; [by intros (_ & _ & -> & _); eexists|by repeat case_match|intros _].
    apply refused_bind; [by intros (_ & _ & _ & ->); eexists|by repeat case_match|intros _]. apply refused_tx.
    eapply refused_lock; [done|done|naive_solver|]. rewrite (Hst now Hc). by apply refused_err.
  - unfold ResetTraffic. rewrite Eid.
    apply refused_bind; [by intros (_ & -> & _); eexists|by repeat case_match|intros _].
    apply refused_bind; [by intros (_ & _ & ->); eexists|by repeat case_match|intros note]. apply refused_tx.
    eapply refused_lock; [done|done|naive_solver|]. cbv zeta. rewrite (Hst _ Hc). by apply refused_err.
Qed.
End Traffic.
