(* ===== verification/ChargeThms.v ===== *)
(** What charging reported traffic does: every reported byte reaches the quota
    rows in force and the day's usage, and the nodes are told about exactly the
    subscriptions whose traffic just ran out. *)
From Stdlib Require Import ZArith Lia.
From stdpp Require Import base tactics list gmap strings sorting.
From S2P Require Import Prelude Decimal GoString Money GoTime Period SubTypes SubStore SubFacts SubExact SubQuota.
From S2P Require Import Charge.
#[local] Open Scope string_scope.
#[local] Open Scope Z_scope.

(** * Reports *)

Lemma satAdd_min a b : satAdd a b = Z.min MaxInt64 (a + b).
Proof. unfold satAdd. destruct (Z.ltb_spec (MaxInt64 - b) a); lia. Qed.
Lemma pg_sat_add_min a b : pg_sat_add a b = Z.min MaxInt64 (a + b).
Proof. unfold pg_sat_add. destruct (Z.ltb_spec (MaxInt64 - b) a); lia. Qed.
Lemma max64_max a b : max64 a b = Z.max a b.
Proof. unfold max64. destruct (Z.ltb_spec b a); lia. Qed.

(** The bytes reported for a node user number, negative reports counting as
    nothing. *)
Definition reported (charges : list TrafficCharge) (uid : Z) : Z :=
  foldr Z.add 0 (map (λ c, Z.max (tc_Bytes c) 0) (List.filter (λ c, tc_UID c =? uid) charges)).

Lemma foldr_add_app l1 l2 : foldr Z.add 0 (l1 ++ l2)%list = foldr Z.add 0 l1 + foldr Z.add 0 l2.
Proof. induction l1 as [|x l1 IH]; simpl; [done|]. rewrite IH. lia. Qed.

Lemma reported_nonneg charges uid : 0 ≤ reported charges uid.
Proof.
  unfold reported. induction charges as [|c charges IH]; simpl; [done|]. destruct (tc_UID c =? uid); simpl; lia.
Qed.

Lemma reported_snoc charges c uid :
  reported (charges ++ [c])%list uid = reported charges uid + if tc_UID c =? uid then Z.max (tc_Bytes c) 0 else 0.
Proof.
  unfold reported. rewrite List.filter_app, map_app, foldr_add_app. simpl. destruct (tc_UID c =? uid); simpl; lia.
Qed.

(** Merging adds up the reports of each number, capped at the largest [int64]. *)
Lemma merge_charges_reported charges uid :
  default 0 (merge_charges charges !! uid) = if 0 <? uid then Z.min MaxInt64 (reported charges uid) else 0.
Proof.
  unfold merge_charges. induction charges as [|c charges IH] using rev_ind.
  - cbn [foldl]. rewrite lookup_empty. unfold reported, MaxInt64. simpl. by destruct (0 <? uid).
  - rewrite foldl_app. simpl. set (m := foldl _ ∅ charges) in *. clearbody m. rewrite reported_snoc.
    pose proof (reported_nonneg charges uid).
    destruct (Z.leb_spec (tc_UID c) 0) as [Hc|Hc].
    + rewrite IH. destruct (Z.eqb_spec (tc_UID c) uid); destruct (Z.ltb_spec 0 uid); lia.
    + destruct (Z.eq_dec (tc_UID c) uid) as [E|E].
      * rewrite E, lookup_insert_eq, Z.eqb_refl, IH, satAdd_min, max64_max. simpl. destruct (Z.ltb_spec 0 uid); lia.
      * rewrite lookup_insert_ne by done. rewrite IH. by rewrite (proj2 (Z.eqb_neq _ _) E), Z.add_0_r.
Qed.

(** * Maps built by a loop of assignments *)

Lemma foldl_insert_lookup {K V A} `{Countable K} (f : A → K) (g : A → V) (l : list A) (m : gmap K V) k :
  NoDup (map f l) →
  foldl (λ out r, <[f r := g r]> out) m l !! k =
    match List.find (λ r, bool_decide (f r = k)) l with Some r => Some (g r) | None => m !! k end.
Proof.
  revert m. induction l as [|x l IH]; intros m Hn; simpl; [done|]. simpl in Hn. apply NoDup_cons in Hn as [Hx Hn].
  rewrite IH by done. destruct (bool_decide_reflect (f x = k)) as [E|E].
  - assert (List.find (λ r, bool_decide (f r = k)) l = None) as ->; [|subst k; apply lookup_insert_eq].
    destruct (List.find _ l) as [y|] eqn:Ey; [|done]. apply find_some in Ey as [Hy Ey%bool_decide_eq_true].
    destruct Hx. rewrite E, <- Ey. by apply list_elem_of_fmap_2, list_elem_of_In.
  - destruct (List.find _ l); [done|]. by rewrite lookup_insert_ne.
Qed.

Lemma find_unique {A B} `{EqDecision B} (f : A → B) (l : list A) x :
  NoDup (map f l) → x ∈ l → List.find (λ r, bool_decide (f r = f x)) l = Some x.
Proof.
  intros Hn Hx. destruct (List.find _ l) as [y|] eqn:E.
  - apply find_some in E as [Hy E%bool_decide_eq_true]. f_equal. eapply (NoDup_map_inj f); [done| |done|done].
    by apply list_elem_of_In.
  - eapply find_none in E; [|by apply list_elem_of_In]. by rewrite bool_decide_eq_true_2 in E.
Qed.

(** * The items of a charge *)

Section Plan.
Context `{DL : DecimalLib}.
Abbreviation SM := (M store serr).

(** What a report charges to a subscription. *)
Definition due (charges : list TrafficCharge) (r : sub_row) : Z :=
  if 0 <? s_NodeUID r then Z.min MaxInt64 (reported charges (s_NodeUID r)) else 0.
Definition due_of (charges : list TrafficCharge) (s : store) (id : uuid) : Z :=
  match find_sub id (subs s) with Some r => due charges r | None => 0 end.

Lemma due_range charges r : 0 ≤ due charges r ≤ MaxInt64.
Proof.
  unfold due. pose proof (reported_nonneg charges (s_NodeUID r)). unfold MaxInt64 in *.
  destruct (0 <? s_NodeUID r); lia.
Qed.

Lemma due_of_range charges s id : 0 ≤ due_of charges s id ≤ MaxInt64.
Proof. unfold due_of. destruct (find_sub _ _); [apply due_range|]. by vm_compute. Qed.

Lemma due_merged charges r : default 0 (merge_charges charges !! s_NodeUID r) = due charges r.
Proof. apply merge_charges_reported. Qed.

(** The subscription a node user number belongs to. *)
Definition owner_of (s : store) (uid : Z) : option sub_row := List.find (λ r, bool_decide (s_NodeUID r = uid)) (subs s).

Lemma find_filter {A} (p q : A → bool) l : (∀ x, q x = true → p x = true) → List.find q (List.filter p l) = List.find q l.
Proof.
  intros H. induction l as [|x l IH]; simpl; [done|]. destruct (p x) eqn:Hp; simpl; [by rewrite IH|].
  destruct (q x) eqn:Hq; [|done]. apply H in Hq. congruence.
Qed.

Lemma SubscriptionIDs_eq W s uids uid :
  store_ok W s → uid ∈ uids →
  foldl (λ out r, <[s_NodeUID r := s_ID r]> out) (∅ : gmap Z uuid)
    (List.filter (λ r, existsb (Z.eqb (s_NodeUID r)) uids) (subs s)) !! uid = s_ID <$> owner_of s uid.
Proof.
  intros Hs Hu. rewrite (foldl_insert_lookup s_NodeUID s_ID), lookup_empty by (apply NoDup_filter_map, Hs).
  rewrite find_filter; [unfold owner_of; by destruct (List.find _ _)|].
  intros x Hx%bool_decide_eq_true. apply existsb_true. exists uid. split; [done|]. by apply Z.eqb_eq.
Qed.

Definition charged_items (charges : list TrafficCharge) (s : store) : list chargeItem :=
  omap (λ uid, match owner_of s uid with
               | Some r => if 0 <? due charges r then Some (mkItem (s_ID r) (due charges r)) else None
               | None => None
               end) (sorted_uids (merge_charges charges)).

Lemma owner_of_Some s uid r : owner_of s uid = Some r → r ∈ subs s ∧ s_NodeUID r = uid.
Proof. intros [H1 H2%bool_decide_eq_true]%find_some. split; [by apply list_elem_of_In|done]. Qed.

Lemma omap_ext_in {A B} (f g : A → option B) (l : list A) : (∀ x, x ∈ l → f x = g x) → omap f l = omap g l.
Proof.
  intros H. induction l as [|x l IH]; [done|]. simpl. rewrite (H x) by constructor.
  assert (E : omap f l = omap g l) by (apply IH; intros; apply H; by constructor). destruct (g x); [f_equal|]; exact E.
Qed.

Lemma charge_items_eq W charges s ids :
  store_ok W s →
  ids = foldl (λ out r, <[s_NodeUID r := s_ID r]> out) (∅ : gmap Z uuid)
          (List.filter (λ r, existsb (Z.eqb (s_NodeUID r)) (sorted_uids (merge_charges charges))) (subs s)) →
  charge_items (merge_charges charges) ids (sorted_uids (merge_charges charges)) = charged_items charges s.
Proof.
  intros Hs ->. apply omap_ext_in. intros uid Hu. rewrite (SubscriptionIDs_eq W) by done.
  destruct (owner_of s uid) as [r|] eqn:E; simpl; [|done]. apply owner_of_Some in E as [_ <-]. cbv zeta.
  by rewrite due_merged.
Qed.

Lemma sorted_uids_in m uid : uid ∈ sorted_uids m ↔ is_Some (m !! uid).
Proof.
  unfold sorted_uids. rewrite merge_sort_Permutation. rewrite list_elem_of_fmap. split.
  - intros ([k v] & -> & Hkv). apply elem_of_map_to_list in Hkv. by exists v.
  - intros [v Hv]. exists (uid, v). split; [done|]. by apply elem_of_map_to_list.
Qed.

Lemma sorted_uids_NoDup m : NoDup (sorted_uids m).
Proof. unfold sorted_uids. rewrite merge_sort_Permutation. apply NoDup_fst_map_to_list. Qed.

(** One item per subscription with something to pay. *)
Lemma charged_items_in W charges s it :
  store_ok W s →
  it ∈ charged_items charges s ↔ ∃ r, r ∈ subs s ∧ 0 < due charges r ∧ it = mkItem (s_ID r) (due charges r).
Proof.
  intros Hs. unfold charged_items. rewrite list_elem_of_omap. split.
  - intros (uid & _ & H). destruct (owner_of s uid) as [r|] eqn:E; [|done]. destruct (Z.ltb_spec 0 (due charges r)); [|done].
    apply owner_of_Some in E as [Hr _]. injection H as <-. eauto.
  - intros (r & Hr & Hd & ->). exists (s_NodeUID r). split.
    + apply sorted_uids_in. pose proof (due_merged charges r) as H. destruct (merge_charges charges !! s_NodeUID r); [eauto|].
      simpl in H. lia.
    + unfold owner_of. rewrite (find_unique s_NodeUID) by (done || apply Hs). by rewrite (proj2 (Z.ltb_lt _ _) Hd).
Qed.

Lemma charged_items_NoDup W charges s : store_ok W s → NoDup (map ci_SubID (charged_items charges s)).
Proof.
  intros Hs. unfold charged_items. pose proof (sorted_uids_NoDup (merge_charges charges)) as Hn.
  induction (sorted_uids _) as [|uid l IH]; simpl; [constructor|]. apply NoDup_cons in Hn as [Hu Hn].
  destruct (owner_of s uid) as [r|] eqn:E; [|by apply IH]. destruct (0 <? due charges r); [|by apply IH].
  simpl. constructor; [|by apply IH]. intros (it & Eid & Hit)%list_elem_of_fmap.
  apply list_elem_of_omap in Hit as (uid' & Hu' & H'). destruct (owner_of s uid') as [r'|] eqn:E'; [|done].
  destruct (0 <? due charges r'); [|done]. injection H' as <-. simpl in Eid.
  apply owner_of_Some in E as [Hr <-]. apply owner_of_Some in E' as [Hr' <-].
  assert (r = r') as -> by (eapply (NoDup_map_inj s_ID); [apply Hs|done..]). done.
Qed.

(** * The plan *)

(** [r] is the room of the tightest limited row of a subscription. *)
Definition tightest (rows : list TrafficQuotaRow) (id : uuid) (room : option Z) : Prop :=
  match room with
  | Some r => (∃ row, row ∈ rows ∧ tq_SubscriptionID row = id ∧ tq_Room row = Some r) ∧
              ∀ row r', row ∈ rows → tq_SubscriptionID row = id → tq_Room row = Some r' → r ≤ r'
  | None => ∀ row, row ∈ rows → tq_SubscriptionID row = id → tq_Room row = None
  end.

Lemma tightest_skip rows x id room :
  tightest rows id room → tq_SubscriptionID x ≠ id ∨ tq_Room x = None → tightest (rows ++ [x])%list id room.
Proof.
  intros H Hx. destruct room as [r|]; simpl in *.
  - destruct H as [(row & H1 & H2 & H3) H4]. split; [exists row; split_and!; [apply elem_of_app; by left|done..]|].
    intros row' r' [Hr| ->%list_elem_of_singleton]%elem_of_app E1 E2; [by eapply H4|]. destruct Hx; congruence.
  - intros row [Hr| ->%list_elem_of_singleton]%elem_of_app E; [by apply H|]. by destruct Hx.
Qed.

Lemma tightest_new rows x id room r :
  tightest rows id room → tq_SubscriptionID x = id → tq_Room x = Some r →
  tightest (rows ++ [x])%list id (Some (match room with Some c => Z.min c r | None => r end)).
Proof.
  intros H Ex Er. simpl. destruct room as [c|]; simpl in H.
  - destruct H as [(row & H1 & H2 & H3) H4]. split.
    + destruct (Z.min_spec c r) as [[_ ->]|[_ ->]].
      * exists row. split_and!; [apply elem_of_app; by left|done..].
      * exists x. split_and!; [apply elem_of_app; right; by apply list_elem_of_singleton|done..].
    + intros row' r' [Hr| ->%list_elem_of_singleton]%elem_of_app E1 E2.
      * specialize (H4 row' r' Hr E1 E2). lia.
      * rewrite Er in E2. injection E2 as <-. lia.
  - split.
    + exists x. split_and!; [apply elem_of_app; right; by apply list_elem_of_singleton|done..].
    + intros row' r' [Hr| ->%list_elem_of_singleton]%elem_of_app E1 E2.
      * rewrite (H row' Hr E1) in E2. done.
      * rewrite Er in E2. injection E2 as <-. lia.
Qed.

Lemma quotaRooms_tightest rows id : tightest rows id (default None (quotaRooms rows !! id)).
Proof.
  unfold quotaRooms. induction rows as [|x rows IH] using rev_ind.
  { cbn [foldl]. rewrite lookup_empty. intros row Hrow. by apply elem_of_nil in Hrow. }
  rewrite foldl_app. cbn [foldl]. set (out := foldl _ ∅ rows) in *. clearbody out. cbv zeta.
  destruct (N.eq_dec (tq_SubscriptionID x) id) as [E|E].
  - destruct (tq_Room x) as [r|] eqn:Er.
    + pose proof (tightest_new rows x id _ r IH E Er) as H. rewrite <- E in *.
      destruct (out !! tq_SubscriptionID x) as [[c|]|] eqn:Eo; simpl in *.
      * destruct (Z.ltb_spec r c); [rewrite lookup_insert_eq|rewrite Eo]; simpl; [by rewrite Z.min_r in H by lia|].
        by rewrite Z.min_l in H by lia.
      * rewrite lookup_insert_eq. exact H.
      * rewrite lookup_insert_eq. exact H.
    + assert (H : tightest (rows ++ [x])%list id (default None (out !! id))) by (apply tightest_skip; [done|by right]).
      rewrite <- E in *. destruct (out !! tq_SubscriptionID x) as [c|] eqn:Eo; [by rewrite Eo|by rewrite lookup_insert_eq].
  - assert (H : tightest (rows ++ [x])%list id (default None (out !! id))) by (apply tightest_skip; [done|by left]).
    destruct (tq_Room x) as [r|], (out !! tq_SubscriptionID x) as [[c|]|] eqn:Eo;
      try destruct (r <? c); rewrite ?lookup_insert_ne by done; exact H.
Qed.

(** What the loop over the items leaves, item by item. *)
Definition runs_out (rooms : gmap uuid (option Z)) (it : chargeItem) : Prop :=
  ∃ r, default None (rooms !! ci_SubID it) = Some r ∧ 0 < r ∧ wrap64 (r - ci_Bytes it) ≤ 0.

Record planned (rooms : gmap uuid (option Z)) (items : list chargeItem) (st : plan_state) : Prop := {
  pl_charges : ∀ id, ps_charges st !! id =
    ci_Bytes <$> List.find (λ it, bool_decide (ci_SubID it = id)) items;
  pl_usage : ps_usage st = map (λ it, mkUsageAdd (ci_SubID it) (ci_Bytes it)) items;
  pl_rooms : ∀ id, id ∉ map ci_SubID items → ps_rooms st !! id = rooms !! id;
  pl_out : ∀ id, id ∈ ps_exhausted st ↔ ∃ it, it ∈ items ∧ ci_SubID it = id ∧ runs_out rooms it;
}.

Lemma plan_item_planned rooms items it st :
  planned rooms items st → ci_SubID it ∉ map ci_SubID items → 0 < ci_Bytes it ≤ MaxInt64 →
  planned rooms (items ++ [it])%list (plan_item st it).
Proof.
  intros [Hc Hu Hr Ho] Hn Hb. unfold plan_item. replace (ci_Bytes it <=? 0) with false by lia. cbv zeta.
  assert (Hnone : List.find (λ x, bool_decide (ci_SubID x = ci_SubID it)) items = None).
  { destruct (List.find _ items) as [y|] eqn:E; [|done]. apply find_some in E as [Hy E%bool_decide_eq_true].
    destruct Hn. rewrite <- E. by apply list_elem_of_fmap_2, list_elem_of_In. }
  assert (Hch : ∀ id, <[ci_SubID it := satAdd (default 0 (ps_charges st !! ci_SubID it)) (ci_Bytes it)]> (ps_charges st) !! id =
            ci_Bytes <$> List.find (λ x, bool_decide (ci_SubID x = id)) (items ++ [it])%list).
  { intros id. rewrite find_app. destruct (N.eq_dec (ci_SubID it) id) as [<-|E].
    - rewrite lookup_insert_eq, Hc, Hnone. simpl. rewrite bool_decide_eq_true_2 by done. simpl.
      rewrite satAdd_min. f_equal. lia.
    - rewrite lookup_insert_ne, Hc by done. simpl. rewrite bool_decide_eq_false_2 by done.
      by destruct (List.find (λ x, bool_decide (ci_SubID x = id)) items). }
  assert (Hus : (ps_usage st ++ [mkUsageAdd (ci_SubID it) (ci_Bytes it)])%list =
            map (λ x, mkUsageAdd (ci_SubID x) (ci_Bytes x)) (items ++ [it])%list) by (by rewrite map_app, Hu).
  assert (Hro : ∀ id, id ∉ map ci_SubID (items ++ [it])%list → id ≠ ci_SubID it ∧ ps_rooms st !! id = rooms !! id).
  { intros id Hid. rewrite map_app, not_elem_of_app in Hid. destruct Hid as [H1 H2]. split; [|by apply Hr].
    intros ->. apply H2. by apply list_elem_of_singleton. }
  assert (Hex : ∀ id, (id ∈ ps_exhausted st ∨ id = ci_SubID it ∧ runs_out rooms it) ↔
            ∃ x, x ∈ (items ++ [it])%list ∧ ci_SubID x = id ∧ runs_out rooms x).
  { intros id. rewrite Ho. split.
    - intros [(x & H1 & H2)|[-> H]]; [exists x|exists it]; (split; [apply elem_of_app|done]); [by left|].
      right. by apply list_elem_of_singleton.
    - intros (x & [H1| ->%list_elem_of_singleton]%elem_of_app & H2 & H3); [left; eauto|by right]. }
  pose proof (Hr _ Hn) as Hrn.
  destruct (default None (ps_rooms st !! ci_SubID it)) as [r|] eqn:Er.
  - split; simpl; [done|done| |].
    + intros id [Hne Hid]%Hro. by rewrite lookup_insert_ne.
    + intros id. rewrite <- Hex. rewrite Hrn in Er.
      assert (Hro' : runs_out rooms it ↔ (0 <? r) && (wrap64 (r - ci_Bytes it) <=? 0) = true).
      { unfold runs_out. rewrite Er. rewrite andb_true_iff, Z.ltb_lt, Z.leb_le. split; [by intros (r' & [= <-] & H)|eauto]. }
      destruct ((0 <? r) && _) eqn:Hb2.
      * rewrite elem_of_app, list_elem_of_singleton. naive_solver.
      * split; [by left|]. intros [H|[_ H%Hro']]; [done|congruence].
  - split; simpl; [done|done| |].
    + intros id Hid. by apply Hro.
    + intros id. rewrite <- Hex. split; [by left|]. intros [H|[_ (r & H & _)]]; [done|]. rewrite <- Hrn, Er in H. done.
Qed.

Lemma plan_fold rooms items :
  NoDup (map ci_SubID items) → (∀ it, it ∈ items → 0 < ci_Bytes it ≤ MaxInt64) →
  planned rooms items (foldl plan_item (mkPlanState rooms ∅ [] []) items).
Proof.
  induction items as [|it items IH] using rev_ind; intros Hn Hb.
  - split; simpl; [intros; apply lookup_empty|done|done|]. intros id. split; [by intros ?%elem_of_nil|].
    by intros (x & ?%elem_of_nil & _).
  - rewrite foldl_app. simpl. rewrite map_app, NoDup_app in Hn. destruct Hn as (Hn1 & Hn2 & _).
    apply plan_item_planned.
    + apply IH; [done|]. intros x Hx. apply Hb, elem_of_app. by left.
    + intros H. apply (Hn2 _ H). by apply list_elem_of_singleton.
    + apply Hb, elem_of_app. right. by apply list_elem_of_singleton.
Qed.

(** * The rows charged *)

Lemma sortedUniqueIDs_mem id l : mem id (sortedUniqueIDs l) = true ↔ id ∈ l.
Proof. rewrite mem_spec. unfold sortedUniqueIDs. rewrite merge_sort_Permutation. apply elem_of_remove_dups. Qed.

Lemma items_due W charges s id :
  store_ok W s →
  default 0 (ci_Bytes <$> List.find (λ it, bool_decide (ci_SubID it = id)) (charged_items charges s)) = due_of charges s id.
Proof.
  intros Hs. unfold due_of. destruct (find_sub id (subs s)) as [r|] eqn:E.
  - apply find_sub_Some in E as [Hr <-]. destruct (Z.ltb_spec 0 (due charges r)) as [Hd|Hd].
    + assert (Hin : mkItem (s_ID r) (due charges r) ∈ charged_items charges s)
        by (apply (charged_items_in W); [done|]; eauto).
      pose proof (find_unique ci_SubID _ _ (charged_items_NoDup W charges s Hs) Hin) as H. simpl in H. by rewrite H.
    + destruct (List.find _ _) as [it|] eqn:Ef; simpl; [|pose proof (due_range charges r); lia].
      apply find_some in Ef as [Hit%list_elem_of_In Ei%bool_decide_eq_true].
      apply (charged_items_in W) in Hit as (r' & Hr' & Hd' & ->); [|done]. simpl in *.
      assert (r = r') as -> by (eapply (NoDup_map_inj s_ID); [apply Hs|done..]). done.
  - destruct (List.find _ _) as [it|] eqn:Ef; [|done].
    apply find_some in Ef as [Hit%list_elem_of_In Ei%bool_decide_eq_true].
    apply (charged_items_in W) in Hit as (r' & Hr' & Hd' & ->); [|done]. simpl in *. subst id.
    by rewrite (find_sub_eq W s r') in E.
Qed.

Lemma items_due_pos W charges s id :
  store_ok W s → id ∈ map ci_SubID (charged_items charges s) ↔ 0 < due_of charges s id.
Proof.
  intros Hs. rewrite <- (items_due W) by done. rewrite list_elem_of_fmap. split.
  - intros (it & -> & Hit). rewrite (find_unique ci_SubID) by (done || by eapply charged_items_NoDup). simpl.
    by apply (charged_items_in W) in Hit as (r & _ & ? & ->).
  - destruct (List.find _ _) as [it|] eqn:Ef; simpl; [|lia]. intros _.
    apply find_some in Ef as [Hit%list_elem_of_In Ei%bool_decide_eq_true]. eauto.
Qed.

(** A traffic row in force, with the subscription's bytes added. *)
Definition charged (now : Time) (charges : list TrafficCharge) (s : store) (q : quota_row) : quota_row :=
  if in_traffic_window now q
  then set_qconsumed (Z.min MaxInt64 (q_Consumed q + due_of charges s (q_SubscriptionID q))) q else q.

Definition charge_rows (now : Time) (charges : list TrafficCharge) (s : store) : list quota_row :=
  List.filter (λ q, mem (q_SubscriptionID q) (sortedUniqueIDs (map ci_SubID (charged_items charges s))) &&
                    in_traffic_window now q) (quotas s).

Definition room_row (q : quota_row) : TrafficQuotaRow := mkTQ (q_ID q) (q_SubscriptionID q) (q_Period q) (q_Remaining q).

Lemma charge_rows_in W now charges s q :
  store_ok W s →
  q ∈ charge_rows now charges s ↔
  q ∈ quotas s ∧ 0 < due_of charges s (q_SubscriptionID q) ∧ in_traffic_window now q = true.
Proof.
  intros Hs. unfold charge_rows. rewrite elem_of_filter_bool, andb_true_iff, sortedUniqueIDs_mem, (items_due_pos W) by done.
  naive_solver.
Qed.

Definition charge_adds (now : Time) (charges : list TrafficCharge) (s : store) : list QuotaAdd :=
  map (λ q, mkQuotaAdd (q_ID q) (due_of charges s (q_SubscriptionID q))) (charge_rows now charges s).

Lemma omap_map_all {A B} (f : A → option B) (g : A → B) (l : list A) :
  (∀ x, x ∈ l → f x = Some (g x)) → omap f l = map g l.
Proof.
  intros H. induction l as [|x l IH]; [done|]. simpl. rewrite (H x) by constructor. f_equal.
  apply IH. intros y Hy. apply H. by constructor.
Qed.

Lemma plan_eq W now charges s :
  store_ok W s →
  let rooms := quotaRooms (map room_row (charge_rows now charges s)) in
  let plan := planTrafficCharges (charged_items charges s) (map room_row (charge_rows now charges s)) in
  QuotaAdds plan = charge_adds now charges s ∧
  Usage plan = sortUsageBySubID (map (λ it, mkUsageAdd (ci_SubID it) (ci_Bytes it)) (charged_items charges s)) ∧
  (∀ id, id ∈ Exhausted plan ↔ ∃ it, it ∈ charged_items charges s ∧ ci_SubID it = id ∧ runs_out rooms it).
Proof.
  intros Hs rooms plan.
  destruct (plan_fold rooms (charged_items charges s)) as [Hc Hu _ Ho].
  { by eapply charged_items_NoDup. }
  { intros it Hit. apply (charged_items_in W) in Hit as (r & _ & Hd & ->); [|done]. simpl. pose proof (due_range charges r). lia. }
  unfold plan, planTrafficCharges. simpl. fold rooms. rewrite Hu. split_and!; [|done|done].
  unfold charge_adds. rewrite <- (map_map room_row (λ row, mkQuotaAdd (tq_ID row) (due_of charges s (tq_SubscriptionID row)))).
  apply omap_map_all. intros row (q & -> & Hq)%list_elem_of_fmap. apply (charge_rows_in W) in Hq as (_ & Hd & _); [|done].
  rewrite Hc, (items_due W) by done. simpl. by rewrite (proj2 (Z.ltb_lt _ _) Hd).
Qed.

Definition charge_hit (now : Time) (charges : list TrafficCharge) (s : store) (q : quota_row) : bool :=
  (0 <? due_of charges s (q_SubscriptionID q)) && in_traffic_window now q.

Lemma charge_rows_eq W now charges s :
  store_ok W s → charge_rows now charges s = List.filter (charge_hit now charges s) (quotas s).
Proof.
  intros Hs. unfold charge_rows. apply filter_ext. intros q. unfold charge_hit. f_equal. apply eq_true_iff_eq.
  by rewrite sortedUniqueIDs_mem, (items_due_pos W), Z.ltb_lt.
Qed.

Lemma charge_amount W now charges s q :
  store_ok W s → q ∈ quotas s →
  amount_for (charge_adds now charges s) (q_ID q) =
    if charge_hit now charges s q then Some (due_of charges s (q_SubscriptionID q)) else None.
Proof.
  intros Hs Hq. unfold amount_for, charge_adds. rewrite (charge_rows_eq W) by done.
  set (p := charge_hit now charges s). set (d := λ x : quota_row, due_of charges s (q_SubscriptionID x)).
  destruct (List.find _ _) as [a|] eqn:E; simpl.
  - apply find_some in E as [Ha%list_elem_of_In Ei%N.eqb_eq]. apply list_elem_of_fmap in Ha as (x & -> & Hx).
    apply elem_of_filter_bool in Hx as [Hpx Hx]. simpl in *.
    assert (x = q) as -> by (eapply (NoDup_map_inj q_ID); [apply Hs|done..]). by rewrite Hpx.
  - destruct (p q) eqn:Hp; [|done]. eapply find_none in E.
    2: { apply list_elem_of_In, (list_elem_of_fmap_2 (λ x, mkQuotaAdd (q_ID x) (d x))). apply elem_of_filter_bool. done. }
    simpl in E. by rewrite N.eqb_refl in E.
Qed.

Lemma charged_add W now charges s q :
  store_ok W s → q ∈ quotas s → add_consumed (charge_adds now charges s) q = charged now charges s q.
Proof.
  intros Hs Hq. unfold add_consumed. rewrite (charge_amount W) by done. unfold charge_hit, charged.
  pose proof (due_of_range charges s (q_SubscriptionID q)) as Hd.
  destruct (in_traffic_window now q); rewrite ?andb_false_r, ?andb_true_r; [|done].
  destruct (Z.ltb_spec 0 (due_of charges s (q_SubscriptionID q))); [by rewrite pg_sat_add_min|].
  pose proof (quota_row_ok _ _ _ Hs Hq) as Hw. unfold write_quota in Hw. destruct (quota_range q) eqn:Hr; [|done].
  unfold quota_range in Hr. apply andb_true_iff in Hr as [[Hr _]%andb_true_iff _]. apply is_int64_spec in Hr. unfold in64 in Hr.
  destruct q. unfold set_qconsumed. simpl in *. f_equal. lia.
Qed.

Lemma charged_ok q c :
  write_quota q = Ok () → 0 ≤ c → write_quota (set_qconsumed (Z.min MaxInt64 (q_Consumed q + c)) q) = Ok ().
Proof.
  intros Hw Hc. unfold write_quota in *. destruct (quota_range q) eqn:Hr; [|done]. destruct (quota_check q) eqn:Hk; [|done].
  clear Hw. unfold quota_range, quota_check in *.
  cbn [q_Metric q_Period q_PeriodStart q_PeriodEnd q_LimitValue q_BonusValue q_Consumed set_qconsumed].
  apply andb_true_iff in Hk as [[Hk1 Hk2]%andb_true_iff Hk3]. rewrite Hk1, Hk3.
  apply andb_true_iff in Hr as [[_ Hb]%andb_true_iff Hr]. rewrite Hb.
  assert (Hcs : 0 ≤ Z.min MaxInt64 (q_Consumed q + c) ≤ MaxInt64) by (unfold MaxInt64 in *; lia).
  rewrite (proj2 (is_int64_spec (Z.min _ _))) by (unfold in64, MinInt64, MaxInt64 in *; lia).
  replace (0 <=? Z.min MaxInt64 (q_Consumed q + c)) with true by lia.
  destruct (q_LimitValue q) as [l|]; [|done].
  apply andb_true_iff in Hr as [[Hl Hlb]%andb_true_iff _]. rewrite Hl, Hlb.
  apply andb_true_iff in Hk1 as [Hk1 Hl0]. apply is_int64_spec in Hl, Hlb, Hb. unfold in64 in *.
  rewrite (proj2 (is_int64_spec (_ - _))) by (unfold in64, MinInt64, MaxInt64 in *; lia). done.
Qed.

(** The quota statement of a charge. *)
Lemma AddQuotaConsumed_eq W now charges s :
  store_ok W s →
  AddQuotaConsumed (charge_adds now charges s) s = (Ok (), set_quotas (map (charged now charges s)) s).
Proof.
  intros Hs. set (adds := charge_adds now charges s).
  assert (Hhit : ∀ q, q ∈ quotas s → bool_decide (is_Some (amount_for adds (q_ID q))) = charge_hit now charges s q).
  { intros q Hq. unfold adds. rewrite (charge_amount W) by done. by destruct (charge_hit now charges s q). }
  assert (Hrows : List.filter (λ q, bool_decide (is_Some (amount_for adds (q_ID q)))) (quotas s) = charge_rows now charges s).
  { rewrite (charge_rows_eq W) by done. apply filter_ext_in. intros q Hq%list_elem_of_In. by apply Hhit. }
  assert (Hmap : update_where (λ q, bool_decide (is_Some (amount_for adds (q_ID q)))) (add_consumed adds) (quotas s) =
                 map (charged now charges s) (quotas s)).
  { unfold update_where. apply map_ext_in. intros q Hq%list_elem_of_In. rewrite <- (charged_add W) by done. fold adds.
    destruct (bool_decide_reflect (is_Some (amount_for adds (q_ID q)))) as [|Hn]; [done|]. unfold add_consumed.
    destruct (amount_for adds (q_ID q)); [by destruct Hn|done]. }
  assert (Hck : check_all write_quota (map (add_consumed adds) (charge_rows now charges s)) = Ok ()).
  { apply check_all_ok. apply Forall_fmap, Forall_forall. intros q Hq. apply (charge_rows_in W) in Hq as (Hq & Hd & Hwin); [|done].
    unfold compose, adds. rewrite (charged_add W) by done. unfold charged. rewrite Hwin. apply charged_ok; [|lia].
    by eapply quota_row_ok. }
  assert (Hlen : length (charge_rows now charges s) = length adds) by (unfold adds, charge_adds; by rewrite length_map).
  unfold AddQuotaConsumed. destruct adds as [|a adds'] eqn:Ea.
  - f_equal. destruct s. unfold set_quotas. simpl in *. f_equal. rewrite <- Hmap. unfold update_where.
    symmetry. rewrite <- (map_id quotas) at 2. apply map_ext. done.
  - rewrite Hrows, Hck, Hlen, Nat.eqb_refl. f_equal. unfold set_quotas. by rewrite Hmap.
Qed.

(** * Usage of the day *)

Lemma foldl_upsert_lookup {K A} `{Countable K} (k : A → K) (F : option Z → A → Z) (l : list A) (u : gmap K Z) key :
  NoDup (map k l) →
  foldl (λ u a, <[k a := F (u !! k a) a]> u) u l !! key =
    match List.find (λ a, bool_decide (k a = key)) l with Some a => Some (F (u !! key) a) | None => u !! key end.
Proof.
  revert u. induction l as [|x l IH]; intros u Hn; simpl; [done|]. simpl in Hn. apply NoDup_cons in Hn as [Hx Hn].
  rewrite IH by done. destruct (bool_decide_reflect (k x = key)) as [E|E].
  - assert (List.find (λ a, bool_decide (k a = key)) l = None) as ->; [|subst key; apply lookup_insert_eq].
    destruct (List.find _ l) as [y|] eqn:Ey; [|done]. apply find_some in Ey as [Hy Ey%bool_decide_eq_true].
    destruct Hx. rewrite E, <- Ey. by apply list_elem_of_fmap_2, list_elem_of_In.
  - by rewrite lookup_insert_ne.
Qed.

(** The usage table after a charge on day [d]. *)
Definition used (charges : list TrafficCharge) (s : store) (d : Z) (u : gmap (uuid * Z) Z) : Prop :=
  ∀ id d', u !! (id, d') =
    if bool_decide (d' = d) && (0 <? due_of charges s id)
    then Some (Z.min MaxInt64 (default 0 (usage s !! (id, d')) + due_of charges s id))
    else usage s !! (id, d').

Lemma AddUsageDaily_eq W charges d s s1 :
  store_ok W s → subs s1 = subs s → usage s1 = usage s →
  ∃ u, AddUsageDaily d (sortUsageBySubID (map (λ it, mkUsageAdd (ci_SubID it) (ci_Bytes it)) (charged_items charges s))) s1 =
         (Ok (), set_usage (λ _, u) s1) ∧ used charges s d u.
Proof.
  intros Hs Esubs Eus. set (adds := sortUsageBySubID _).
  assert (Hin : ∀ a, a ∈ adds ↔ ∃ it, it ∈ charged_items charges s ∧ a = mkUsageAdd (ci_SubID it) (ci_Bytes it)).
  { intros a. unfold adds, sortUsageBySubID. rewrite merge_sort_Permutation, list_elem_of_fmap. naive_solver. }
  assert (Hn : NoDup (map ua_SubscriptionID adds)).
  { unfold adds, sortUsageBySubID. rewrite merge_sort_Permutation, map_map. by eapply charged_items_NoDup. }
  assert (Hfk : forallb (λ a, existsb (λ r, (s_ID r =? ua_SubscriptionID a)%N) (subs s1)) adds = true).
  { apply forallb_forall. intros a Ha%list_elem_of_In. apply Hin in Ha as (it & Hit & ->).
    apply (charged_items_in W) in Hit as (r & Hr & _ & ->); [|done]. apply existsb_true. exists r. rewrite Esubs.
    split; [done|]. simpl. apply N.eqb_refl. }
  eexists. split.
  - unfold AddUsageDaily. rewrite (bool_decide_eq_true_2 _ Hn), Hfk. cbn [negb]. reflexivity.
  - intros id d'. rewrite Eus.
    rewrite (foldl_upsert_lookup (λ a, (ua_SubscriptionID a, d))
      (λ o a, match o with Some old => pg_sat_add old (ua_Bytes a) | None => ua_Bytes a end)).
    2: { rewrite <- (map_map ua_SubscriptionID (λ i, (i, d))). apply NoDup_fmap_2; [|done]. by intros ? ? [= ->]. }
    pose proof (items_due W charges s id Hs) as Hd.
    destruct (List.find (λ a, bool_decide ((ua_SubscriptionID a, d) = (id, d'))) adds) as [a|] eqn:Ef.
    + apply find_some in Ef as [Ha%list_elem_of_In Ei%bool_decide_eq_true]. injection Ei as <- <-.
      apply Hin in Ha as (it & Hit & ->). simpl in *.
      rewrite (find_unique ci_SubID) in Hd by (done || by eapply charged_items_NoDup). simpl in Hd.
      apply (charged_items_in W) in Hit as (r & _ & Hpos & ->); [|done]. simpl in *. rewrite <- Hd.
      rewrite (bool_decide_eq_true_2 (d = d)), (proj2 (Z.ltb_lt _ _) Hpos) by done. simpl. f_equal.
      pose proof (due_range charges r). destruct (usage s !! _); simpl; [rewrite pg_sat_add_min|]; lia.
    + destruct (bool_decide_reflect (d' = d)) as [->|]; [|done]. simpl.
      destruct (Z.ltb_spec 0 (due_of charges s id)) as [Hpos|]; [|done]. exfalso.
      apply (items_due_pos W) in Hpos; [|done]. apply list_elem_of_fmap in Hpos as (it & -> & Hit).
      eapply find_none in Ef; [|apply list_elem_of_In, Hin; by exists it]. simpl in Ef.
      by rewrite bool_decide_eq_true_2 in Ef.
Qed.

(** * Running out *)

Definition out_of_traffic (now : Time) (qs : list quota_row) (id : uuid) : bool := existsb (exhausted_row now id) qs.

Lemma exhausted_row_spec now id q :
  exhausted_row now id q = true ↔
  q_SubscriptionID q = id ∧ in_traffic_window now q = true ∧ ∃ r, q_Remaining q = Some r ∧ r ≤ 0.
Proof.
  unfold exhausted_row. rewrite !andb_true_iff, N.eqb_eq. destruct (q_Remaining q) as [r|].
  - rewrite Z.leb_le. naive_solver.
  - naive_solver.
Qed.

Lemma charged_window now charges s q : in_traffic_window now (charged now charges s q) = in_traffic_window now q.
Proof. unfold charged. destruct (in_traffic_window now q) eqn:E; [|done]. exact E. Qed.
Lemma charged_sub now charges s q : q_SubscriptionID (charged now charges s q) = q_SubscriptionID q.
Proof. unfold charged. by destruct (in_traffic_window now q). Qed.

(** The remaining amount of a row before and after [d] more bytes. *)
Lemma remaining_facts q r :
  write_quota q = Ok () → q_Remaining q = Some r →
  in64 r ∧ ∃ t, r = t - q_Consumed q ∧ 0 ≤ t ≤ MaxInt64 ∧ 0 ≤ q_Consumed q ≤ MaxInt64 ∧
    ∀ c, q_Remaining (set_qconsumed c q) = Some (t - c).
Proof.
  unfold write_quota, q_Remaining. destruct (quota_range q) eqn:Hr; [|done]. destruct (quota_check q) eqn:Hc; [|done].
  intros _. destruct (q_LimitValue q) as [l|] eqn:El; [|done]. simpl. intros [= <-].
  unfold quota_range, quota_check in *. rewrite El in *. reflect_bools.
  repeat match goal with H : is_int64 _ = true |- _ => apply is_int64_spec in H end. unfold in64 in *.
  split; [done|]. exists (l + q_BonusValue q). split; [done|]. split; [lia|]. split; [lia|]. done.
Qed.

Lemma remaining_after q r d :
  write_quota q = Ok () → q_Remaining q = Some r → 0 < d ≤ MaxInt64 →
  ∃ r', q_Remaining (set_qconsumed (Z.min MaxInt64 (q_Consumed q + d)) q) = Some r' ∧ (r' ≤ 0 ↔ r ≤ d).
Proof.
  intros Hw Hr Hd. destruct (remaining_facts q r Hw Hr) as (_ & t & -> & Ht & Hc & He).
  rewrite He. eexists. split; [done|]. lia.
Qed.

Lemma remaining_none q c : q_Remaining (set_qconsumed c q) = None ↔ q_Remaining q = None.
Proof. unfold q_Remaining. simpl. by destruct (q_LimitValue q). Qed.

(** The plan's exhausted list is exactly the subscriptions whose traffic runs
    out with this charge. *)
Lemma runs_out_iff W now charges s id :
  store_ok W s →
  (∃ it, it ∈ charged_items charges s ∧ ci_SubID it = id ∧
     runs_out (quotaRooms (map room_row (charge_rows now charges s))) it) ↔
  out_of_traffic now (quotas s) id = false ∧ out_of_traffic now (map (charged now charges s) (quotas s)) id = true.
Proof.
  intros Hs. pose proof (quotaRooms_tightest (map room_row (charge_rows now charges s)) id) as Ht.
  set (rooms := quotaRooms _) in *. pose proof (due_of_range charges s id) as Hdr.
  assert (Hrow : 0 < due_of charges s id → ∀ q, q ∈ quotas s → q_SubscriptionID q = id → in_traffic_window now q = true →
            room_row q ∈ map room_row (charge_rows now charges s)).
  { intros Hd q Hq Eq Hwin. apply list_elem_of_fmap_2, (charge_rows_in W); [done|]. by rewrite Eq. }
  unfold out_of_traffic. split.
  - intros (it & Hit & <- & r & Er & Hr0 & Hro).
    assert (Hd : due_of charges s (ci_SubID it) = ci_Bytes it ∧ 0 < ci_Bytes it ≤ MaxInt64).
    { pose proof (items_due W charges s (ci_SubID it) Hs) as H.
      rewrite (find_unique ci_SubID) in H by (done || by eapply charged_items_NoDup). simpl in H. rewrite <- H.
      split; [done|]. apply (charged_items_in W) in Hit as (x & _ & ? & ->); [|done]. simpl. pose proof (due_range charges x). lia. }
    destruct Hd as [Hd Hd0]. rewrite Er in Ht. destruct Ht as [(row & Hrw & Es & Erm) Hmin].
    apply list_elem_of_fmap in Hrw as (q & -> & Hq). simpl in Es, Erm. apply (charge_rows_in W) in Hq as (Hq & _ & Hwin); [|done].
    assert (Hrd : r ≤ ci_Bytes it).
    { destruct (remaining_facts q r (quota_row_ok _ _ _ Hs Hq) Erm) as [H64 _]. unfold in64 in H64.
      rewrite wrap64_id in Hro by (unfold in64, MinInt64, MaxInt64 in *; lia). lia. }
    split.
    + apply existsb_false. intros x Hx. apply not_true_iff_false. intros (E1 & E2 & r' & E3 & E4)%exhausted_row_spec.
      specialize (Hmin (room_row x) r' (Hrow ltac:(lia) x Hx E1 E2) E1 E3). lia.
    + apply existsb_true. exists (charged now charges s q). split; [by apply list_elem_of_fmap_2|].
      apply exhausted_row_spec. rewrite charged_sub, charged_window. split_and!; [done|done|].
      unfold charged. rewrite Hwin, Es, Hd.
      destruct (remaining_after q r (ci_Bytes it) (quota_row_ok _ _ _ Hs Hq) Erm Hd0) as (r' & H1 & H2). exists r'.
      split; [done|]. by apply H2.
  - intros [Hno (x & Hx & He)%existsb_true]. apply list_elem_of_fmap in Hx as (q & -> & Hq).
    apply exhausted_row_spec in He as (E1 & E2 & r' & E3 & E4). rewrite charged_sub in E1. rewrite charged_window in E2.
    unfold charged in E3. rewrite E2, E1 in E3.
    assert (Hlive : ∀ x r, x ∈ quotas s → q_SubscriptionID x = id → in_traffic_window now x = true → q_Remaining x = Some r → 0 < r).
    { intros x r Hx Ex Hwx Erx. destruct (Z.lt_ge_cases 0 r) as [|Hr]; [done|]. exfalso.
      eapply existsb_false in Hno; [|exact Hx]. apply not_true_iff_false in Hno. apply Hno, exhausted_row_spec. eauto 6. }
    destruct (q_Remaining q) as [r0|] eqn:Er0; [|by rewrite (proj2 (remaining_none q _) Er0) in E3].
    pose proof (Hlive q r0 Hq E1 E2 Er0) as Hr0.
    destruct (Z.lt_ge_cases 0 (due_of charges s id)) as [Hd|Hd].
    2: { exfalso. replace (due_of charges s id) with 0 in E3 by lia.
         destruct (remaining_facts q r0 (quota_row_ok _ _ _ Hs Hq) Er0) as (_ & t & -> & Ht2 & Hc2 & Hset). rewrite Hset in E3.
         injection E3 as <-. lia. }
    destruct (remaining_after q r0 _ (quota_row_ok _ _ _ Hs Hq) Er0 (conj Hd (proj2 Hdr))) as (r'' & H1 & H2).
    rewrite H1 in E3. injection E3 as ->. apply H2 in E4.
    pose proof Hd as Hd'. apply (items_due_pos W) in Hd' as (it & -> & Hit)%list_elem_of_fmap; [|done].
    exists it. split; [done|]. split; [done|].
    assert (Hb : ci_Bytes it = due_of charges s (ci_SubID it)).
    { rewrite <- (items_due W) by done. by rewrite (find_unique ci_SubID) by (done || by eapply charged_items_NoDup). }
    destruct (default None (rooms !! ci_SubID it)) as [r|] eqn:Er; simpl in Ht.
    + exists r. split; [done|]. destruct Ht as [(row & Hrw & Es & Erm) Hmin].
      apply list_elem_of_fmap in Hrw as (y & -> & Hy). apply (charge_rows_in W) in Hy as (Hy & _ & Hyw); [|done].
      pose proof (Hlive y r Hy Es Hyw Erm) as Hpos. split; [done|].
      specialize (Hmin (room_row q) r0 (Hrow Hd q Hq E1 E2) E1 Er0).
      destruct (remaining_facts q r0 (quota_row_ok _ _ _ Hs Hq) Er0) as [H64 _]. unfold in64 in H64.
      rewrite wrap64_id by (unfold in64, MinInt64, MaxInt64 in *; lia). lia.
    + specialize (Ht (room_row q) (Hrow Hd q Hq E1 E2) E1). simpl in Ht. congruence.
Qed.

(** * Charging *)

(** What a charge leaves: [s'] after [charges] were reported at [now], the day
    being [d]. *)
Record charge_done (now : Time) (charges : list TrafficCharge) (d : Z) (s s' : store) : Prop := {
  cd_quotas : quotas s' = map (charged now charges s) (quotas s);
  cd_usage : used charges s d (usage s');
  cd_subs : subs s' = subs s;
  cd_creds : creds s' = creds s;
  cd_events : events s' = events s;
  cd_resets : resets s' = resets s;
  cd_roster : ∀ id, id ∈ roster s' ↔ id ∈ roster s ∨
    out_of_traffic now (quotas s) id = false ∧ out_of_traffic now (quotas s') id = true;
}.

Lemma charge_nothing W now charges d s : store_ok W s → charged_items charges s = [] → charge_done now charges d s s.
Proof.
  intros Hs Hi.
  assert (Hz : ∀ id, due_of charges s id = 0).
  { intros id. pose proof (due_of_range charges s id). pose proof (items_due_pos W charges s id Hs) as H1. rewrite Hi in H1.
    destruct (Z.lt_ge_cases 0 (due_of charges s id)) as [H2|]; [|lia]. apply H1, elem_of_nil in H2. done. }
  split; try done.
  - symmetry. rewrite <- (map_id (quotas s)) at 2. apply map_ext_in. intros q Hq%list_elem_of_In.
    rewrite <- (charged_add W) by done. unfold add_consumed. rewrite (charge_amount W) by done.
    unfold charge_hit. by rewrite Hz.
  - intros id d'. rewrite Hz. by rewrite andb_false_r.
  - intros id. split; [by left|]. intros [|[? ?]]; [done|congruence].
Qed.

Lemma charge_run W now charges dayOf s :
  store_ok W s → Site W = Ok dayOf → charged_items charges s ≠ [] →
  let rows := map room_row (charge_rows now charges s) in
  let plan := planTrafficCharges (charged_items charges s) rows in
  ∃ s', (_ ← map_err subErr (AddQuotaConsumed (QuotaAdds plan));
         _ ← map_err subErr (AddUsageDaily (dayOf now) (Usage plan));
         notifyRosterBatch (Exhausted plan)) s = (Ok (), s') ∧ charge_done now charges (dayOf now) s s'.
Proof.
  intros Hs Hsite Hne rows plan. destruct (plan_eq W now charges s Hs) as (E1 & E2 & E3). fold rows plan in E1, E2, E3.
  pose proof (AddQuotaConsumed_eq W now charges s Hs) as H1. rewrite <- E1 in H1.
  set (s1 := set_quotas (map (charged now charges s)) s) in *.
  destruct (AddUsageDaily_eq W charges (dayOf now) s s1 Hs eq_refl eq_refl) as (u & H2 & H3). rewrite <- E2 in H2.
  eexists. split.
  - erewrite bind_eq by (apply map_err_run, H1). erewrite bind_eq by (apply map_err_run, H2). apply notifyRoster_eq.
  - split; try done. intros id. cbn [roster quotas set_roster set_usage set_quotas s1].
    pose proof (runs_out_iff W now charges s id Hs) as Hro. fold rows in Hro.
    rewrite elem_of_union, elem_of_list_to_set, elem_of_filter_bool, E3, Hro.
    split; [intros [[_ H]|H]; [by right|by left]|]. intros [H|H]; [by right|]. left. split; [|done].
    apply negb_true_iff, N.eqb_neq. intros ->. apply Hro in H as (it & Hit & Ei & _).
    apply (charged_items_in W) in Hit as (r & Hr & _ & ->); [|done]. simpl in Ei.
    destruct (proj1 (Forall_forall _ _) (so_fresh _ _ Hs) r Hr) as [Hp _]. unfold uuid_Nil in *. lia.
Qed.

(** Two writes and a notification, with an answer behind them. *)
Lemma bind3 {A} (m1 m2 m3 : SM ()) (a : A) s s' :
  (_ ← m1; _ ← m2; m3) s = (Ok (), s') → (_ ← m1; _ ← m2; _ ← m3; mret a) s = (Ok a, s').
Proof.
  unfold mbind, M_bind. destruct (m1 s) as [[?|?] s1]; [|done]. destruct (m2 s1) as [[?|?] s2]; [|done].
  destruct (m3 s2) as [[?|?] s3]; [|done]. by intros [= _ <-].
Qed.

(** The answer: the subscriptions of the reported numbers. *)
Definition reported_ids (charges : list TrafficCharge) (s : store) : gmap Z uuid :=
  foldl (λ out r, <[s_NodeUID r := s_ID r]> out) ∅
    (List.filter (λ r, existsb (Z.eqb (s_NodeUID r)) (sorted_uids (merge_charges charges))) (subs s)).

Lemma ChargeTraffic_eq W inTx now charges dayOf s :
  store_ok W s → Site W = Ok dayOf →
  ∃ s', ChargeTraffic W inTx now charges s = (Ok (reported_ids charges s), s') ∧ charge_done now charges (dayOf now) s s'.
Proof.
  intros Hs Hsite. unfold ChargeTraffic. cbv zeta. destruct (bool_decide_reflect (merge_charges charges = ∅)) as [Em|Em].
  - exists s. assert (Hu : sorted_uids (merge_charges charges) = []) by (by rewrite Em). split.
    + unfold reported_ids. rewrite Hu. f_equal. f_equal. simpl. by induction (subs s).
    + apply (charge_nothing W); [done|]. unfold charged_items. by rewrite Hu.
  - pose proof (charge_items_eq W charges s (reported_ids charges s) Hs eq_refl) as Hitems.
    destruct (charged_items charges s) as [|it items] eqn:Ei.
    + exists s. split; [|by eapply charge_nothing]. apply tx_eq. erewrite bind_eq by (apply map_err_run, gets_eq).
      fold (reported_ids charges s). by rewrite Hitems.
    + destruct (charge_run W now charges dayOf s Hs Hsite) as (s' & Hrun & Hdone); [by rewrite Ei|].
      unfold charge_rows in Hrun. rewrite Ei in Hrun. exists s'. split; [|done]. apply tx_eq.
      erewrite bind_eq by (apply map_err_run, gets_eq). fold (reported_ids charges s). rewrite Hitems.
      erewrite bind_eq by (apply lift_eq, Hsite). erewrite bind_eq by (apply map_err_run, gets_eq).
      exact (bind3 _ _ _ _ s s' Hrun).
Qed.

(** C33: every reported byte is accounted for, once.  A batch of node reports is
    always accepted: reports of one number are added up (negative ones count as
    nothing, sums are capped at the largest [int64]), each known subscription's
    total is added to the usage of every traffic row of it that is in force and
    to its usage of the day, both capped, and nothing else changes: no other
    row, no subscription, no log.  The answer maps each reported number to its
    subscription. *)
Theorem charge_exact W inTx now charges dayOf s :
  store_ok W s → Site W = Ok dayOf →
  ∃ ids s', ChargeTraffic W inTx now charges s = (Ok ids, s') ∧
    (∀ uid, is_Some (merge_charges charges !! uid) → ids !! uid = s_ID <$> owner_of s uid) ∧
    charge_done now charges (dayOf now) s s'.
Proof.
  intros Hs Hsite. destruct (ChargeTraffic_eq W inTx now charges dayOf s Hs Hsite) as (s' & Hrun & Hdone).
  exists (reported_ids charges s), s'. split; [done|]. split; [|done]. intros uid Hu.
  apply (SubscriptionIDs_eq W); [done|]. by apply sorted_uids_in.
Qed.

(** The nodes learn at once who ran out.  After a charge, a subscription is
    in the roster notification exactly if it was there before or its traffic
    ran out with this charge; in particular every subscription the nodes served
    before and the serving list no longer contains is notified, and no charge
    ever brings one back. *)
Theorem charge_notifies W inTx now charges dayOf s ids s' :
  store_ok W s → Site W = Ok dayOf → ChargeTraffic W inTx now charges s = (Ok ids, s') →
  (∀ id, id ∈ roster s' ↔ id ∈ roster s ∨
     out_of_traffic now (quotas s) id = false ∧ out_of_traffic now (quotas s') id = true) ∧
  (∀ r, r ∈ subs s → serving now (quotas s) r = true → serving now (quotas s') r = false → s_ID r ∈ roster s') ∧
  (∀ r, r ∈ subs s → serving now (quotas s') r = true → serving now (quotas s) r = true).
Proof.
  intros Hs Hsite Hrun. destruct (ChargeTraffic_eq W inTx now charges dayOf s Hs Hsite) as (s0 & H1 & Hd).
  rewrite Hrun in H1. injection H1 as _ <-. split; [apply Hd|]. unfold serving. split.
  - intros r Hr Hb Ha. apply (cd_roster _ _ _ _ _ Hd). right. unfold out_of_traffic.
    apply andb_true_iff in Hb as [Hb1 Hb2%negb_true_iff]. rewrite Hb1 in Ha. simpl in Ha. by apply negb_false_iff in Ha.
  - intros r Hr Ha. apply andb_true_iff in Ha as [Ha1 Ha2%negb_true_iff]. rewrite Ha1. simpl. apply negb_true_iff.
    rewrite (cd_quotas _ _ _ _ _ Hd) in Ha2. apply existsb_false. intros q Hq.
    eapply existsb_false in Ha2; [|by apply (list_elem_of_fmap_2 (charged now charges s))].
    apply not_true_iff_false. intros (E1 & E2 & x & E3 & E4)%exhausted_row_spec. apply not_true_iff_false in Ha2. apply Ha2.
    apply exhausted_row_spec. rewrite charged_sub, charged_window. split_and!; [done|done|]. unfold charged. rewrite E2.
    destruct (remaining_facts q x (quota_row_ok _ _ _ Hs Hq) E3) as (_ & t & -> & Ht & Hc & Hset). rewrite Hset.
    eexists. split; [done|]. pose proof (due_of_range charges s (q_SubscriptionID q)). lia.
Qed.
End Plan.
