(* ===== verification/SweepThms.v ===== *)
(** What the expiry sweep and the closing of an account do: the due
    subscriptions are expired and closed, all of them and no others, and the
    links of the closed ones are revoked. *)
From Stdlib Require Import ZArith Lia.
From stdpp Require Import base tactics list gmap strings sorting.
From S2P Require Import Prelude Decimal GoString Money GoTime Period SubTypes SubStore SubFacts SubExact SubQuota.
From S2P Require Import Subscription Sweep Charge Roll SubHistory.
#[local] Open Scope string_scope.
#[local] Open Scope Z_scope.

Section Sweeps.
Context `{DL : DecimalLib}.
Abbreviation SM := (M store serr).

(** Membership of a literal in a literal list. *)
Ltac list_in := apply (bool_decide_unpack _); vm_compute; exact I.

(** * Row updates by a list of identifiers *)

(** The rows [ids] of the table, each rewritten by [f]. *)
Definition upd_subs (f : sub_row → sub_row) (ids : list uuid) (l : list sub_row) : list sub_row :=
  map (λ r, if mem (s_ID r) ids then f r else r) l.

Lemma upd_subs_ids f ids l : (∀ r, s_ID (f r) = s_ID r) → map s_ID (upd_subs f ids l) = map s_ID l.
Proof. intros Hf. unfold upd_subs. rewrite map_map. apply map_ext. intros r. by destruct (mem _ _). Qed.

(** An update of the rows [ids], all of which satisfy the guard [p], goes
    through and returns them. *)
Lemma update_returning_eq W s (p : sub_row → bool) f rows :
  store_ok W s → (∀ r, r ∈ rows → r ∈ subs s) → (∀ r, r ∈ rows → p r = true) →
  (∀ r, r ∈ rows → write_sub W (f r) = Ok ()) →
  ∃ ids, update_returning W (λ r, mem (s_ID r) (map s_ID rows) && p r) f s =
           (Ok ids, set_subs (upd_subs f (map s_ID rows)) s) ∧ (∀ id, id ∈ ids ↔ id ∈ map s_ID rows) ∧ NoDup ids.
Proof.
  intros Hs Hin Hp Hw.
  assert (Hhit : ∀ r, r ∈ subs s → mem (s_ID r) (map s_ID rows) && p r = mem (s_ID r) (map s_ID rows)).
  { intros r Hr. destruct (mem (s_ID r) (map s_ID rows)) eqn:E; [|done]. simpl. apply mem_spec in E.
    apply list_elem_of_fmap in E as (x & Ex & Hx). assert (r = x) as ->; [|by apply Hp].
    eapply (NoDup_map_inj s_ID); [apply Hs|done|by apply Hin|done]. }
  assert (Hmem : ∀ r, r ∈ subs s → mem (s_ID r) (map s_ID rows) = true → r ∈ rows).
  { intros r Hr E. apply mem_spec, list_elem_of_fmap in E as (x & Ex & Hx).
    assert (r = x) as ->; [|done]. eapply (NoDup_map_inj s_ID); [apply Hs|done|by apply Hin|done]. }
  eexists. split_and!.
  - unfold update_returning. rewrite (proj2 (check_all_ok _ _ ())).
    + f_equal. unfold set_subs. f_equal. unfold update_where, upd_subs. apply map_ext_in. intros r Hr%list_elem_of_In.
      by rewrite Hhit.
    + apply Forall_fmap, Forall_forall. intros r [E Hr]%elem_of_filter_bool. rewrite Hhit in E by done. by apply Hw, Hmem.
  - intros id. rewrite !list_elem_of_fmap. split.
    + intros (r & -> & [E Hr]%elem_of_filter_bool). rewrite Hhit in E by done. eauto.
    + intros (r & -> & Hr). exists r. split; [done|]. apply elem_of_filter_bool. split; [|by apply Hin].
      rewrite Hhit by (by apply Hin). by apply mem_spec, list_elem_of_fmap_2.
  - eapply sublist_NoDup; [apply (so_ids _ _ Hs)|]. apply (fmap_sublist s_ID), filter_sublist.
Qed.

(** A loop whose every turn appends to the logs and changes nothing else. *)
Definition logs_only (s s' : store) : Prop :=
  subs s' = subs s ∧ quotas s' = quotas s ∧ creds s' = creds s ∧ resets s' = resets s ∧ usage s' = usage s ∧
  trials s' = trials s ∧ roster s' = roster s ∧ next_id s' = next_id s ∧ next_uid s' = next_uid s.

#[global] Instance logs_only_preorder : PreOrder logs_only.
Proof.
  split; [by intros s; split_and!|]. intros a b c (A1 & A2 & A3 & A4 & A5 & A6 & A7 & A8 & A9) (B1 & B2 & B3 & B4 & B5 & B6 & B7 & B8 & B9).
  split_and!; by etrans.
Qed.

Lemma for_each_logs {A} (f : A → SM ()) (ev : A → list event_row) l s :
  (∀ x s1, x ∈ l → subs s1 = subs s → ∃ s2, f x s1 = (Ok (), s2) ∧ logs_only s1 s2 ∧ events s2 = (events s1 ++ ev x)%list) →
  ∃ s', for_each f l s = (Ok (), s') ∧ logs_only s s' ∧ events s' = (events s ++ concat (map ev l))%list.
Proof.
  intros H. assert (Hgen : ∀ l' s0, (∀ x, x ∈ l' → x ∈ l) → subs s0 = subs s →
    ∃ s', for_each f l' s0 = (Ok (), s') ∧ logs_only s0 s' ∧ events s' = (events s0 ++ concat (map ev l'))%list); [|by apply Hgen].
  induction l' as [|x l' IH]; intros s0 Hl Es.
  - exists s0. split; [done|]. split; [done|]. simpl. by rewrite app_nil_r.
  - destruct (H x s0 ltac:(apply Hl; constructor) Es) as (s1 & H1 & L1 & E1).
    destruct (IH s1) as (s2 & H2 & L2 & E2); [intros; apply Hl; by constructor|by rewrite (proj1 L1)|].
    exists s2. split; [simpl; by rewrite (bind_eq _ _ _ () s1)|]. split; [by etrans|]. rewrite E2, E1. simpl. by rewrite app_assoc.
Qed.

(** Reading and notifying the outside leaves the store alone. *)
Record outlets_ok (W : Env) : Prop := {
  ok_plans : ∀ ids, ∃ m, PlansByIDs W ids = Ok m;
  ok_emit : ∀ id name at_, Emit W id name at_ = Ok ();
}.

(** Whether the outlets take the events does not depend on the tables. *)
Lemma emitExpired_reads W rows changed : ∃ x, ∀ s, emitExpired W rows changed s = (x, s).
Proof.
  unfold emitExpired. destruct changed as [|c changed]; [by exists (Ok ())|]. cbv zeta.
  set (hit := List.filter _ rows). destruct (PlansByIDs W (remove_dups (map s_PlanID hit))) as [m|e] eqn:Em.
  - assert (H : ∀ l, ∃ x, ∀ s, for_each (λ r, lift (Emit W (s_ID r)
      (match m !! s_PlanID r with Some p => pl_Name p | None => "" end) (s_PeriodEnd r))) l s = (x, s)).
    { induction l as [|r l [x IH]]; [by exists (Ok ())|]. destruct (Emit W (s_ID r)
        (match m !! s_PlanID r with Some p => pl_Name p | None => "" end) (s_PeriodEnd r)) as [u|e] eqn:Ee.
      - exists x. intros s. simpl. erewrite bind_eq by (by apply lift_eq). apply IH.
      - exists (Err e). intros s. simpl. unfold mbind, M_bind, lift at 1. by rewrite Ee. }
    destruct (H hit) as [x Hx]. exists x. intros s. erewrite bind_eq by (by apply lift_eq). apply Hx.
  - exists (Err e). intros s. by unfold mbind, M_bind, lift at 1.
Qed.

Lemma emitExpired_eq W rows changed s : outlets_ok W → emitExpired W rows changed s = (Ok (), s).
Proof.
  intros [Hp He]. unfold emitExpired. destruct changed as [|c changed]; [done|]. cbv zeta.
  destruct (Hp (remove_dups (map s_PlanID (List.filter (λ m, mem (s_ID m) (c :: changed)) rows)))) as [m Hm].
  erewrite bind_eq by (apply lift_eq, Hm). generalize (List.filter (λ m0, mem (s_ID m0) (c :: changed)) rows). intros l.
  induction l as [|x l IH]; simpl; [done|]. erewrite bind_eq by (apply lift_eq, He). exact IH.
Qed.

(** * Selecting due rows *)

(** A row the statement finds: it satisfies [p] and nobody else holds it. *)
Definition free (locked : uuid → bool) (p : sub_row → bool) (r : sub_row) : bool := p r && negb (locked (s_ID r)).

Lemma free_due locked p r : free locked p r = true → p r = true.
Proof. by intros [? _]%andb_true_iff. Qed.

Lemma free_rows locked p l :
  List.filter (λ r, negb (locked (s_ID r))) (merge_sort due_le (List.filter p l)) ≡ₚ List.filter (free locked p) l.
Proof.
  trans (List.filter (λ r, negb (locked (s_ID r))) (List.filter p l)); [|by rewrite filter_filter].
  generalize (List.filter p l). intros k. pose proof (merge_sort_Permutation due_le k) as H.
  induction H as [|x a b _ IH|x y a|a b c _ IH1 _ IH2]; simpl; [done| | |by etrans];
    repeat (destruct (locked _); simpl); auto using Permutation_cons. by constructor.
Qed.

Lemma select_due_in p locked n l r : r ∈ select_due p locked n l → r ∈ l ∧ free locked p r = true.
Proof.
  unfold select_due. intros H. apply elem_of_take in H as (i & H & _). apply list_elem_of_lookup_2 in H.
  rewrite free_rows in H. by apply elem_of_filter_bool in H as [? ?].
Qed.

Lemma select_due_NoDup p locked n l : NoDup (map s_ID l) → NoDup (map s_ID (select_due p locked n l)).
Proof.
  intros H. unfold select_due. eapply sublist_NoDup; [|apply (fmap_sublist s_ID), sublist_take].
  eapply sublist_NoDup; [|apply (fmap_sublist s_ID), filter_sublist].
  change (NoDup (s_ID <$> merge_sort due_le (List.filter p l))). rewrite merge_sort_Permutation.
  eapply sublist_NoDup; [exact H|]. apply (fmap_sublist s_ID), filter_sublist.
Qed.

Lemma filter_all {A} (p : A → bool) l : (∀ x, p x = true) → List.filter p l = l.
Proof. intros H. induction l as [|x l IH]; simpl; [done|]. by rewrite H, IH. Qed.

Lemma select_due_length locked p n l : length (select_due p locked n l) = (n `min` length (List.filter (free locked p) l))%nat.
Proof. unfold select_due. rewrite length_take. f_equal. apply Permutation_length, free_rows. Qed.

Lemma select_due_all locked p n l r :
  (length (List.filter (free locked p) l) ≤ n)%nat → r ∈ l → free locked p r = true → r ∈ select_due p locked n l.
Proof.
  intros Hn Hr Hp. unfold select_due. rewrite take_ge by (by rewrite free_rows). rewrite free_rows. by apply elem_of_filter_bool.
Qed.

(** Rewriting selected rows so that they are no longer due removes exactly them
    from the due ones. *)
Lemma due_left p f rows l :
  NoDup (map s_ID l) → NoDup (map s_ID rows) → (∀ r, r ∈ rows → r ∈ l ∧ p r = true) → (∀ r, p (f r) = false) →
  length (List.filter p (upd_subs f (map s_ID rows) l)) = (length (List.filter p l) - length rows)%nat.
Proof.
  intros Hl Hn Hr Hf.
  assert (Hperm : List.filter (λ r, mem (s_ID r) (map s_ID rows)) l ≡ₚ rows).
  { apply NoDup_Permutation.
    - apply (NoDup_fmap_1 s_ID). eapply sublist_NoDup; [exact Hl|]. apply (fmap_sublist s_ID), filter_sublist.
    - by apply (NoDup_fmap_1 s_ID).
    - intros r. rewrite elem_of_filter_bool, mem_spec, list_elem_of_fmap. split.
      + intros [(x & Ex & Hx) Hrl]. assert (r = x) as ->; [|done].
        eapply (NoDup_map_inj s_ID); [exact Hl|done|by apply Hr|done].
      + intros Hx. split; [eauto|by apply Hr]. }
  rewrite <- (Permutation_length Hperm).
  assert (Hpos : ∀ r, r ∈ l → mem (s_ID r) (map s_ID rows) = true → p r = true).
  { intros r Hrl Hm. apply mem_spec, list_elem_of_fmap in Hm as (x & Ex & Hx). destruct (Hr x Hx) as [Hxl Hxp].
    by rewrite (NoDup_map_inj s_ID l r x Hl Hrl Hxl Ex). }
  clear Hperm Hl Hn Hr. induction l as [|x l IH]; simpl; [done|].
  assert (IH' := IH (λ r Hrl, Hpos r (list_elem_of_further _ _ _ Hrl))). clear IH.
  assert (Hle : (length (List.filter (λ r, mem (s_ID r) (map s_ID rows)) l) ≤ length (List.filter p l))%nat).
  { assert (Hp' : ∀ r, r ∈ l → mem (s_ID r) (map s_ID rows) = true → p r = true) by (intros; apply Hpos; [by constructor|done]).
    clear -Hp'. induction l as [|y l IH]; simpl; [done|].
    assert (IH' := IH (λ r Hrl, Hp' r (list_elem_of_further _ _ _ Hrl))).
    destruct (mem (s_ID y) _) eqn:Hm; simpl; [rewrite (Hp' y) by (done || constructor); simpl; lia|]. destruct (p y); simpl; lia. }
  destruct (mem (s_ID x) (map s_ID rows)) eqn:Hm.
  - rewrite Hf, (Hpos x) by (done || constructor). simpl. exact IH'.
  - destruct (p x); simpl; [|exact IH']. rewrite IH'. lia.
Qed.

(** The branch of a non-empty list that does not look into it. *)
Lemma nonempty_match {A B} (l : list A) (a b : B) : l ≠ [] → match l with [] => a | _ :: _ => b end = b.
Proof. by destruct l. Qed.

(** * The expiry loop *)

Definition expired_event (r : sub_row) : event_row :=
  mkEvent (s_ID r) EventExpired (Some StatusActive) StatusExpired ActorScheduler None None [("period_end", PTime (s_PeriodEnd r))].

Lemma scheduler_ok W : actor_ok W (mkActor ActorScheduler None).
Proof. split; vm_compute; reflexivity. Qed.

Lemma write_sub_status W r :
  write_sub W r = Ok () → write_sub W (set_status StatusExpired r) = Ok ().
Proof.
  unfold write_sub, sub_fk, sub_check. cbn [s_Amount s_Status s_PeriodStart s_PeriodEnd s_RenewalClosedAt s_Interval
    s_IntervalCount s_DeviceLimit s_UserID s_PlanID s_PlanVersionID s_PriceID s_SourceOrderID set_status].
  destruct (negb (amount_fits (s_Amount r))); [done|].
  rewrite (bool_decide_eq_true_2 (StatusExpired ∈ [StatusActive; StatusExpired])) by list_in. rewrite String.eqb_refl.
  destruct (bool_decide _); [|done]. destruct (s_PeriodStart r <? s_PeriodEnd r); [|done].
  destruct (s_RenewalClosedAt r); [destruct (String.eqb _ _)|]; done.
Qed.

Lemma write_sub_closed W r t :
  write_sub W r = Ok () → s_Status r = StatusExpired → write_sub W (set_closed t r) = Ok ().
Proof.
  intros Hw Hst. unfold write_sub, sub_fk, sub_check in *. cbn [s_Amount s_Status s_PeriodStart s_PeriodEnd s_RenewalClosedAt s_Interval
    s_IntervalCount s_DeviceLimit s_UserID s_PlanID s_PlanVersionID s_PriceID s_SourceOrderID set_closed].
  rewrite Hst, String.eqb_refl in *. destruct (negb (amount_fits (s_Amount r))); [done|].
  destruct (bool_decide (StatusExpired ∈ _)); [|done]. destruct (s_PeriodStart r <? s_PeriodEnd r); [|done].
  destruct t, (s_RenewalClosedAt r); done.
Qed.

(** Rows [s'] has like [s], apart from the subscriptions. *)
Definition same_but_subs (s s' : store) : Prop :=
  quotas s' = quotas s ∧ creds s' = creds s ∧ resets s' = resets s ∧ usage s' = usage s ∧ trials s' = trials s.

(** A batch writes what is due and commits when the outlets take the events. *)
Lemma expire_batch_run W locked now s :
  store_ok W s →
  let rows := select_due (expiry_due now) locked expireBatchSize (subs s) in
  ∃ ids s', expireBatch W locked now s = (match (emitExpired W rows ids s).1 with
                                          | Ok _ => (Ok (length rows, length rows), s') | Err e => (Err e, s) end) ∧
    subs s' = upd_subs (set_status StatusExpired) (map s_ID rows) (subs s) ∧ same_but_subs s s' ∧
    events s' = (events s ++ map expired_event rows)%list.
Proof.
  intros Hs rows. pose proof (select_due_in (expiry_due now) locked expireBatchSize (subs s)) as Hin. fold rows in Hin.
  pose proof (select_due_NoDup (expiry_due now) locked expireBatchSize (subs s) (so_ids _ _ Hs)) as Hn. fold rows in Hn.
  unfold expireBatch. destruct rows as [|r0 rows0] eqn:Erows.
  { exists [], s. split_and!; try done.
    - apply tx_eq. erewrite bind_eq by (apply map_err_run, gets_eq). fold rows. by rewrite Erows.
    - simpl. unfold upd_subs. symmetry. rewrite <- (map_id (subs s)) at 2. by apply map_ext.
    - by rewrite app_nil_r. }
  rewrite <- Erows in *.
  destruct (update_returning_eq W s (λ r, String.eqb (s_Status r) StatusActive) (set_status StatusExpired) rows) as (ids & H1 & H2 & H3).
  { done. } { intros r Hr. by apply Hin. }
  { intros r Hr. destruct (Hin r Hr) as [_ H%free_due]. unfold expiry_due in H. by apply andb_true_iff in H as [H _]. }
  { intros r Hr. apply write_sub_status. eapply row_ok; [done|]. by apply Hin. }
  assert (Hlen : length ids = length rows).
  { rewrite <- (length_map s_ID rows). apply Permutation_length, NoDup_Permutation; done. }
  set (s1 := set_subs (upd_subs (set_status StatusExpired) (map s_ID rows)) s) in *.
  destruct (for_each_logs (expire_one W ids) (λ r, [expired_event r]) rows s1) as (s2 & H4 & L4 & E4).
  { intros r s3 Hr Es3. unfold expire_one.
    rewrite (proj2 (mem_spec (s_ID r) ids)) by (apply H2; by apply list_elem_of_fmap_2). cbn [negb].
    assert (Hid : s_ID r ∈ map s_ID (subs s3)).
    { rewrite Es3. unfold s1. simpl. rewrite upd_subs_ids by done. apply list_elem_of_fmap_2. by apply Hin. }
    eexists. split.
    - erewrite bind_eq; [|apply writeEvent_eq; [exact Hid|list_in|by right; left|by right|apply scheduler_ok|done]]. done.
    - by split_and!. }
  assert (Hmap : concat (map (λ r, [expired_event r]) rows) = map expired_event rows).
  { clear. induction rows as [|x l IH]; simpl; [done|]. by rewrite IH. }
  eexists ids, _. split.
  - destruct (emitExpired_reads W rows ids) as [x Hx]. rewrite Hx. cbn [fst]. specialize (Hx s2).
    unfold tx, Do. erewrite bind_eq by (apply map_err_run, gets_eq). fold rows. rewrite (nonempty_match rows) by (by rewrite Erows).
    change (CanTransition StatusActive StatusExpired) with true. cbn [negb].
    erewrite bind_eq by (apply map_err_run, H1). erewrite bind_eq by exact H4.
    destruct x as [[]|e]; [|by rewrite (bind_err _ _ _ _ _ Hx)].
    erewrite bind_eq by exact Hx. erewrite bind_eq by apply notifyRoster_eq. rewrite Hlen. done.
  - destruct L4 as (L1 & L2 & L3 & L5 & L6 & L7 & _). simpl. rewrite E4, Hmap. split_and!; try done; simpl; congruence.
Qed.

Lemma expire_batch_eq W locked now s :
  store_ok W s → outlets_ok W →
  let rows := select_due (expiry_due now) locked expireBatchSize (subs s) in
  ∃ s', expireBatch W locked now s = (Ok (length rows, length rows), s') ∧
    subs s' = upd_subs (set_status StatusExpired) (map s_ID rows) (subs s) ∧ same_but_subs s s' ∧
    events s' = (events s ++ map expired_event rows)%list.
Proof.
  intros Hs Hout. destruct (expire_batch_run W locked now s Hs) as (ids & s' & H & Hrest). exists s'. split; [|exact Hrest].
  by rewrite H, (emitExpired_eq W _ _ s Hout).
Qed.

(** What a sweep at [now] makes of a row that has run out. *)
Definition expire_row (locked : uuid → bool) (now : Time) (r : sub_row) : sub_row :=
  if free locked (expiry_due now) r then set_status StatusExpired r else r.
Definition due_count (p : sub_row → bool) (s : store) : nat := length (List.filter p (subs s)).

Lemma expired_not_due locked now r : free locked (expiry_due now) (set_status StatusExpired r) = false.
Proof. done. Qed.

Lemma map_same {A} (f : A → A) l : (∀ x, x ∈ l → f x = x) → map f l = l.
Proof. intros H. rewrite <- (map_id l) at 2. apply map_ext_in. intros x Hx%list_elem_of_In. by apply H. Qed.

Lemma none_due p s r : due_count p s = 0%nat → r ∈ subs s → p r = false.
Proof.
  unfold due_count. intros H Hr. destruct (p r) eqn:E; [|done]. exfalso.
  assert (Hin : r ∈ List.filter p (subs s)) by (by apply elem_of_filter_bool).
  destruct (List.filter p (subs s)); [by apply elem_of_nil in Hin|done].
Qed.

(** One batch and then the rest rewrite each row as one pass would. *)
Lemma batch_then_rest (p : sub_row → bool) (f : sub_row → sub_row) rows l :
  NoDup (map s_ID l) → (∀ r, r ∈ rows → r ∈ l ∧ p r = true) → (∀ r, p (f r) = false) →
  map (λ r, if p r then f r else r) (upd_subs f (map s_ID rows) l) = map (λ r, if p r then f r else r) l.
Proof.
  intros Hl Hr Hf. unfold upd_subs. rewrite map_map. apply map_ext_in. intros r Hrl%list_elem_of_In.
  destruct (mem (s_ID r) (map s_ID rows)) eqn:Hm; [|done]. rewrite Hf.
  apply mem_spec, list_elem_of_fmap in Hm as (x & Ex & Hx). destruct (Hr x Hx) as [Hxl Hxp].
  rewrite (NoDup_map_inj s_ID l r x Hl Hrl Hxl Ex). by rewrite Hxp.
Qed.

Lemma batch_is_all locked (p : sub_row → bool) f n l :
  NoDup (map s_ID l) → (length (List.filter (free locked p) l) ≤ n)%nat →
  upd_subs f (map s_ID (select_due p locked n l)) l = map (λ r, if free locked p r then f r else r) l.
Proof.
  intros Hl Hn. apply map_ext_in. intros r Hr%list_elem_of_In. destruct (free locked p r) eqn:Hp.
  - by rewrite (proj2 (mem_spec _ _)) by (apply list_elem_of_fmap_2; by apply select_due_all).
  - assert (mem (s_ID r) (map s_ID (select_due p locked n l)) = false) as ->; [|done]. apply mem_false.
    intros (x & Ex & Hx)%list_elem_of_fmap. apply select_due_in in Hx as [Hxl Hxp].
    rewrite (NoDup_map_inj s_ID l r x Hl Hr Hxl Ex) in Hp. congruence.
Qed.

Lemma same_but_subs_trans a b c : same_but_subs a b → same_but_subs b c → same_but_subs a c.
Proof. intros (A1 & A2 & A3 & A4 & A5) (B1 & B2 & B3 & B4 & B5). split_and!; by etrans. Qed.

(** The loop of [ExpireDue] at one instant, with the rows [locked] held by others and
    batches enough for the due rows. *)
Lemma expire_loop_eq W locked now k n e s :
  store_ok W s → outlets_ok W → (due_count (free locked (expiry_due now)) s ≤ k * expireBatchSize)%nat →
  ∃ s', expire_loop W (λ _, locked) (λ _, now) k n e s = (Ok (e + due_count (free locked (expiry_due now)) s)%nat, s') ∧
    store_ok W s' ∧ subs s' = map (expire_row locked now) (subs s) ∧ same_but_subs s s' ∧
    ∃ l, events s' = (events s ++ l)%list ∧ ∀ r, r ∈ subs s → free locked (expiry_due now) r = true → expired_event r ∈ l.
Proof.
  revert n e s. induction k as [|k IH]; intros n e s Hs Hout Hk.
  - assert (H0 : due_count (free locked (expiry_due now)) s = 0%nat) by lia. exists s. simpl. rewrite H0, Nat.add_0_r. split_and!; try done.
    + symmetry. apply map_same. intros r Hr. unfold expire_row. by rewrite (none_due _ _ _ H0 Hr).
    + exists []. split; [by rewrite app_nil_r|]. intros r Hr Hd. by rewrite (none_due _ _ _ H0 Hr) in Hd.
  - destruct (expire_batch_eq W locked now s Hs Hout) as (s1 & H1 & S1 & B1 & E1). cbv zeta in *.
    set (rows := select_due (expiry_due now) locked expireBatchSize (subs s)) in *.
    assert (Hin : ∀ r, r ∈ rows → r ∈ subs s ∧ free locked (expiry_due now) r = true) by (intros r; apply select_due_in).
    assert (Hn : NoDup (map s_ID rows)) by (apply select_due_NoDup, Hs).
    assert (Hlen : length rows = (expireBatchSize `min` due_count (free locked (expiry_due now)) s)%nat) by apply select_due_length.
    assert (Hs1 : store_ok W s1) by (eapply expireBatch_safe; [exact Hs|exact H1]).
    simpl expire_loop. rewrite (bind_eq _ _ _ _ s1 H1). cbn [fst snd].
    destruct (Nat.ltb_spec (length rows) expireBatchSize) as [Hlt|Hge].
    + exists s1. assert (Hall : length rows = due_count (free locked (expiry_due now)) s) by lia. split; [by rewrite Hall|].
      split_and!; [done| |done|].
      * rewrite S1. apply (batch_is_all locked); [apply Hs|]. fold (due_count (free locked (expiry_due now)) s). lia.
      * exists (map expired_event rows). split; [done|]. intros r Hr Hd. apply list_elem_of_fmap_2, select_due_all; [|done|done].
        fold (due_count (free locked (expiry_due now)) s). lia.
    + assert (Hleft : due_count (free locked (expiry_due now)) s1 = (due_count (free locked (expiry_due now)) s - length rows)%nat).
      { unfold due_count. rewrite S1. apply due_left; [apply Hs|done|done|apply expired_not_due]. }
      destruct (IH (S n) (e + length rows)%nat s1 Hs1 Hout) as (s' & H2 & Hs' & S2 & B2 & l & E2 & L2); [lia|].
      exists s'. split; [rewrite H2, Hleft; do 2 f_equal; lia|]. split_and!; [done| |by eapply same_but_subs_trans|].
      * rewrite S2, S1. apply batch_then_rest; [apply Hs|done|apply expired_not_due].
      * exists (map expired_event rows ++ l)%list. split; [by rewrite E2, E1, app_assoc|]. intros r Hr Hd. apply elem_of_app.
        destruct (mem (s_ID r) (map s_ID rows)) eqn:Hm.
        -- left. apply mem_spec, list_elem_of_fmap in Hm as (x & Ex & Hx). destruct (Hin x Hx) as [Hxl _].
           rewrite (NoDup_map_inj s_ID (subs s) r x (so_ids _ _ Hs) Hr Hxl Ex). by apply list_elem_of_fmap_2.
        -- right. apply L2; [|done]. rewrite S1. apply list_elem_of_fmap. exists r. by rewrite Hm.
Qed.

(** * The closing loop *)

Lemma update_returning_ext W p q f s : (∀ r, p r = q r) → update_returning W p f s = update_returning W q f s.
Proof.
  intros H. unfold update_returning.
  assert (List.filter p (subs s) = List.filter q (subs s)) as -> by (apply filter_ext, H).
  destruct (check_all _ _); [|done]. unfold set_subs, update_where. do 2 f_equal. apply map_ext. intros r. by rewrite H.
Qed.

(** An active link of one of the subscriptions [ids]. *)
Definition live_link (ids : list uuid) (c : cred_row) : bool := mem (c_SubscriptionID c) ids && String.eqb (c_Status c) "active".
Definition revoke (now : Time) (reason : string) (ids : list uuid) (c : cred_row) : cred_row :=
  if live_link ids c
  then mkCred (c_ID c) (c_SubscriptionID c) (c_UserID c) (c_TokenHash c) (c_TokenPrefix c) (c_TokenEncrypted c)
         "revoked" (Some now) (Some reason) (c_GraceUntil c) (c_RotatedCount c)
  else c.
Definition live_count (ids : list uuid) (l : list cred_row) : nat := length (List.filter (live_link ids) l).

Lemma mem_app id a b : mem id (a ++ b) = mem id a || mem id b.
Proof. unfold mem. apply existsb_app. Qed.
Lemma mem_ext a b : (∀ id, id ∈ a ↔ id ∈ b) → ∀ id, mem id a = mem id b.
Proof. intros H id. apply eq_true_iff_eq. rewrite !mem_spec. apply H. Qed.

Lemma live_link_ext a b : (∀ id, id ∈ a ↔ id ∈ b) → ∀ c, live_link a c = live_link b c.
Proof. intros H c. unfold live_link. by rewrite (mem_ext a b H). Qed.
Lemma revoke_ext now reason a b : (∀ id, id ∈ a ↔ id ∈ b) → ∀ c, revoke now reason a c = revoke now reason b c.
Proof. intros H c. unfold revoke. by rewrite (live_link_ext a b H). Qed.
Lemma live_count_ext a b l : (∀ id, id ∈ a ↔ id ∈ b) → live_count a l = live_count b l.
Proof. intros H. unfold live_count. f_equal. apply filter_ext. by apply live_link_ext. Qed.

Lemma revoke_revoke now reason a b c : revoke now reason b (revoke now reason a c) = revoke now reason (a ++ b) c.
Proof.
  unfold revoke. destruct (live_link a c) eqn:E.
  - unfold live_link at 1. simpl. rewrite andb_false_r. unfold live_link in *. apply andb_true_iff in E as [E1 E2].
    by rewrite mem_app, E1, E2.
  - assert (live_link (a ++ b) c = live_link b c) as ->; [|done]. unfold live_link in *. rewrite mem_app.
    destruct (mem (c_SubscriptionID c) a); [|done]. simpl in *. by rewrite E, andb_false_r.
Qed.

Lemma live_count_revoke now reason a b l :
  live_count (a ++ b) l = (live_count a l + live_count b (map (revoke now reason a) l))%nat.
Proof.
  unfold live_count. induction l as [|c l IH]; simpl; [done|].
  assert (Hb : live_link b (revoke now reason a c) = negb (live_link a c) && live_link b c).
  { unfold revoke. destruct (live_link a c); [|done]. unfold live_link. simpl. by rewrite andb_false_r. }
  assert (Hab : live_link (a ++ b) c = live_link a c || live_link b c).
  { unfold live_link. rewrite mem_app. destruct (mem _ a), (mem _ b), (String.eqb _ _); done. }
  rewrite Hb, Hab. destruct (live_link a c), (live_link b c); simpl; lia.
Qed.

Lemma revoke_dead now reason ids c : c_SubscriptionID (revoke now reason ids c) ∈ ids → c_Status (revoke now reason ids c) ≠ "active".
Proof.
  unfold revoke. destruct (live_link ids c) eqn:E; [done|]. intros Hc Ha. unfold live_link in E.
  by rewrite (proj2 (mem_spec _ _) Hc), Ha in E.
Qed.

Lemma RevokeCredentialsOnClose_eq ids now reason s :
  RevokeCredentialsOnClose ids now reason s =
    (Ok (List.filter (live_link ids) (creds s)), set_creds (map (revoke now reason ids)) s).
Proof. done. Qed.

Definition closed_event (n : nat) (r : sub_row) : event_row :=
  mkEvent (s_ID r) EventRenewalClosed (Some StatusExpired) StatusExpired ActorScheduler None None
    [("window_days", PInt (RenewalWindow / Day)); ("revoked_credentials", PInt (Z.of_nat n))].

(** The links of one subscription among the active ones of several. *)
Lemma live_of_one ids id l : id ∈ ids →
  length (List.filter (λ c, (c_SubscriptionID c =? id)%N) (List.filter (live_link ids) l)) = live_count [id] l.
Proof.
  intros Hid. unfold live_count. rewrite filter_filter. f_equal. apply filter_ext. intros c. unfold live_link. rewrite mem_one.
  destruct (N.eqb_spec (c_SubscriptionID c) id) as [->|]; [|by rewrite andb_false_r].
  by rewrite (proj2 (mem_spec id ids) Hid), andb_true_r.
Qed.

(** Rows [s'] has like [s], apart from the subscriptions and the links. *)
Definition same_but_links (s s' : store) : Prop :=
  quotas s' = quotas s ∧ resets s' = resets s ∧ usage s' = usage s ∧ trials s' = trials s ∧ roster s' = roster s.

Lemma close_due_facts cut r :
  close_due cut r = true → s_Status r = StatusExpired ∧ s_RenewalClosedAt r = None ∧ s_PeriodEnd r ≤ cut.
Proof.
  unfold close_due. intros H. apply andb_true_iff in H as [[H1 H2]%andb_true_iff H3]. split_and!.
  - by apply String.eqb_eq.
  - by apply bool_decide_eq_true in H2.
  - by apply Z.leb_le.
Qed.

Lemma close_batch_eq W locked now s :
  store_ok W s →
  let rows := select_due (close_due (now - RenewalWindow)) locked expireBatchSize (subs s) in
  ∃ s', closeBatch W locked now s = (Ok (length rows, length rows, live_count (map s_ID rows) (creds s)), s') ∧
    subs s' = upd_subs (set_closed (Some now)) (map s_ID rows) (subs s) ∧
    creds s' = map (revoke now RevokedRenewalClosed (map s_ID rows)) (creds s) ∧ same_but_links s s' ∧
    events s' = (events s ++ map (λ r, closed_event (live_count [s_ID r] (creds s)) r) rows)%list.
Proof.
  intros Hs rows. set (cut := now - RenewalWindow) in *.
  pose proof (select_due_in (close_due cut) locked expireBatchSize (subs s)) as Hin. fold rows in Hin.
  pose proof (select_due_NoDup (close_due cut) locked expireBatchSize (subs s) (so_ids _ _ Hs)) as Hn. fold rows in Hn.
  unfold closeBatch. destruct rows as [|r0 rows0] eqn:Erows.
  { assert (Hl : live_count [] (creds s) = 0%nat).
    { unfold live_count. induction (creds s) as [|c l IH]; simpl; done. }
    exists s. split_and!; try done.
    - apply tx_eq. erewrite bind_eq by (apply map_err_run, gets_eq). fold cut rows. rewrite Erows. simpl. by rewrite Hl.
    - simpl. unfold upd_subs. symmetry. rewrite <- (map_id (subs s)) at 2. by apply map_ext.
    - symmetry. rewrite <- (map_id (creds s)) at 2. by apply map_ext.
    - by rewrite app_nil_r. }
  rewrite <- Erows in *.
  set (guard := λ r, String.eqb (s_Status r) StatusExpired && bool_decide (s_RenewalClosedAt r = None)).
  destruct (update_returning_eq W s guard (set_closed (Some now)) rows) as (ids & H1 & H2 & H3).
  { done. } { intros r Hr. by apply Hin. }
  { intros r Hr. destruct (Hin r Hr) as [_ (E1 & E2 & _)%free_due%close_due_facts]. unfold guard. by rewrite E1, E2. }
  { intros r Hr. destruct (Hin r Hr) as [Hrs (E1 & _)%free_due%close_due_facts]. apply write_sub_closed; [|done]. by eapply row_ok. }
  assert (Hlen : length ids = length rows).
  { rewrite <- (length_map s_ID rows). apply Permutation_length, NoDup_Permutation; done. }
  set (s1 := set_subs (upd_subs (set_closed (Some now)) (map s_ID rows)) s) in *.
  set (s2 := set_creds (map (revoke now RevokedRenewalClosed ids)) s1).
  set (revoked := List.filter (live_link ids) (creds s)).
  destruct (for_each_logs (close_one W ids revoked) (λ r, [closed_event (live_count [s_ID r] (creds s)) r]) rows s2) as (s3 & H4 & L4 & E4).
  { intros r s4 Hr Es4. unfold close_one. assert (Hid : s_ID r ∈ ids) by (apply H2; by apply list_elem_of_fmap_2).
    rewrite (proj2 (mem_spec (s_ID r) ids) Hid). cbn [negb]. cbv zeta. unfold revoked. rewrite live_of_one by done.
    assert (Hids : s_ID r ∈ map s_ID (subs s4)).
    { rewrite Es4. unfold s2, s1. simpl. rewrite upd_subs_ids by done. apply list_elem_of_fmap_2. by apply Hin. }
    eexists. split.
    - erewrite bind_eq; [|apply writeEvent_eq; [exact Hids|list_in|by right; right|by right|apply scheduler_ok|done]]. done.
    - by split_and!. }
  assert (Hmap : ∀ l, concat (map (λ r, [closed_event (live_count [s_ID r] (creds s)) r]) l) =
                 map (λ r, closed_event (live_count [s_ID r] (creds s)) r) l).
  { clear. induction l as [|x l IH]; simpl; [done|]. by rewrite IH. }
  assert (Hcnt : length (List.filter (λ c, existsb (λ m, (s_ID m =? c_SubscriptionID c)%N && mem (s_ID m) ids) rows) revoked) =
                 live_count (map s_ID rows) (creds s)).
  { rewrite <- (live_count_ext ids) by apply H2. unfold live_count. f_equal. fold revoked.
    rewrite <- (filter_all (λ _, true) revoked) at 2 by done. apply filter_ext_in. intros c Hc%list_elem_of_In.
    apply elem_of_filter_bool in Hc as [[Hc _]%andb_true_iff _]. apply mem_spec in Hc as Hc2.
    apply H2, list_elem_of_fmap in Hc2 as (m & Em & Hm). apply existsb_true. exists m. split; [done|].
    by rewrite <- Em, N.eqb_refl. }
  exists s3. destruct L4 as (A1 & A2 & A3 & A4 & A5 & A6 & A7 & _). split_and!; try done.
  - apply tx_eq. erewrite bind_eq by (apply map_err_run, gets_eq). fold cut rows. rewrite (nonempty_match rows) by (by rewrite Erows).
    erewrite bind_eq; [|apply map_err_run; unfold CloseRenewalWindows; rewrite (update_returning_ext W _ (λ r, mem (s_ID r) (map s_ID rows) && guard r)); [exact H1|intros r; unfold guard; by rewrite andb_assoc]].
    erewrite bind_eq by (apply map_err_run, RevokeCredentialsOnClose_eq). cbn [creds set_subs s1]. fold s1 s2 revoked.
    erewrite bind_eq by exact H4. rewrite Hcnt, Hlen. done.
  - rewrite A3. unfold s2. simpl. apply map_ext. by apply revoke_ext.
  - by rewrite E4, Hmap.
Qed.

Definition close_row (locked : uuid → bool) (now : Time) (r : sub_row) : sub_row :=
  if free locked (close_due (now - RenewalWindow)) r then set_closed (Some now) r else r.
Definition closing (locked : uuid → bool) (now : Time) (l : list sub_row) : list uuid := map s_ID (List.filter (free locked (close_due (now - RenewalWindow))) l).

Lemma closed_not_due locked cut t r : free locked (close_due cut) (set_closed (Some t) r) = false.
Proof. unfold free, close_due. simpl. by rewrite andb_false_r. Qed.

(** What a batch closes and what it leaves make up what was due. *)
Lemma closing_split locked now rows l :
  NoDup (map s_ID l) → (∀ r, r ∈ rows → r ∈ l ∧ free locked (close_due (now - RenewalWindow)) r = true) →
  ∀ id, id ∈ (map s_ID rows ++ closing locked now (upd_subs (set_closed (Some now)) (map s_ID rows) l))%list ↔ id ∈ closing locked now l.
Proof.
  intros Hl Hr id. unfold closing. rewrite elem_of_app, !list_elem_of_fmap. split.
  - intros [(r & -> & H)|(r & -> & [H1 H2]%elem_of_filter_bool)].
    + exists r. split; [done|]. apply elem_of_filter_bool. split; apply Hr, H.
    + unfold upd_subs in H2. apply list_elem_of_fmap in H2 as (x & -> & Hx).
      destruct (mem (s_ID x) (map s_ID rows)); [by rewrite closed_not_due in H1|]. exists x. split; [done|]. by apply elem_of_filter_bool.
  - intros (r & -> & [H1 H2]%elem_of_filter_bool). destruct (mem (s_ID r) (map s_ID rows)) eqn:Hm.
    + left. by apply mem_spec, list_elem_of_fmap in Hm.
    + right. exists r. split; [done|]. apply elem_of_filter_bool. split; [done|]. apply list_elem_of_fmap. exists r. by rewrite Hm.
Qed.

Lemma closing_batch locked (now : Time) n l :
  (length (List.filter (free locked (close_due (now - RenewalWindow)%Z)) l) ≤ n)%nat →
  ∀ id, id ∈ map s_ID (select_due (close_due (now - RenewalWindow)%Z) locked n l) ↔ id ∈ closing locked now l.
Proof.
  intros Hn id. unfold closing. rewrite !list_elem_of_fmap. split; intros (r & -> & H); exists r; (split; [done|]).
  - apply select_due_in in H as [? ?]. by apply elem_of_filter_bool.
  - apply elem_of_filter_bool in H as [? ?]. by apply select_due_all.
Qed.

Lemma same_but_links_trans a b c : same_but_links a b → same_but_links b c → same_but_links a c.
Proof. intros (A1 & A2 & A3 & A4 & A5) (B1 & B2 & B3 & B4 & B5). split_and!; by etrans. Qed.

Lemma nothing_closing locked (now : Time) s : due_count (free locked (close_due (now - RenewalWindow)%Z)) s = 0%nat → closing locked now (subs s) = [].
Proof. unfold due_count, closing. by destruct (List.filter _ _). Qed.

(** The second loop of [ExpireDue], under the same conditions. *)
Lemma close_loop_eq W locked (now : Time) k n c v s :
  store_ok W s → (due_count (free locked (close_due (now - RenewalWindow)%Z)) s ≤ k * expireBatchSize)%nat →
  ∃ s', close_loop W (λ _, locked) (λ _, now) k n c v s =
          (Ok (c + due_count (free locked (close_due (now - RenewalWindow)%Z)) s, v + live_count (closing locked now (subs s)) (creds s))%nat, s') ∧
    subs s' = map (close_row locked now) (subs s) ∧
    creds s' = map (revoke now RevokedRenewalClosed (closing locked now (subs s))) (creds s) ∧
    same_but_links s s' ∧ events s `prefix_of` events s'.
Proof.
  revert n c v s. induction k as [|k IH]; intros n c v s Hs Hk.
  - assert (H0 : due_count (free locked (close_due (now - RenewalWindow)%Z)) s = 0%nat) by lia. exists s. simpl.
    assert (Hno : ∀ x, revoke now RevokedRenewalClosed [] x = x) by done.
    assert (Hl : live_count [] (creds s) = 0%nat) by (unfold live_count; by induction (creds s)).
    rewrite (nothing_closing locked now s H0), H0, Hl, !Nat.add_0_r. split_and!; try done.
    + symmetry. apply map_same. intros r Hr. unfold close_row. by rewrite (none_due _ _ _ H0 Hr).
    + symmetry. by apply map_same.
  - destruct (close_batch_eq W locked now s Hs) as (s1 & H1 & S1 & C1 & B1 & E1). cbv zeta in *.
    set (cut := now - RenewalWindow) in *.
    set (rows := select_due (close_due cut) locked expireBatchSize (subs s)) in *.
    assert (Hin : ∀ r, r ∈ rows → r ∈ subs s ∧ free locked (close_due cut) r = true) by (intros r; apply select_due_in).
    assert (Hn : NoDup (map s_ID rows)) by (apply select_due_NoDup, Hs).
    assert (Hlen : length rows = (expireBatchSize `min` due_count (free locked (close_due cut)) s)%nat) by apply select_due_length.
    assert (Hs1 : store_ok W s1) by (eapply closeBatch_safe; [exact Hs|exact H1]).
    assert (Hpre : events s `prefix_of` events s1) by (rewrite E1; by apply prefix_app_r).
    simpl close_loop. rewrite (bind_eq _ _ _ _ s1 H1). cbn [fst snd].
    destruct (Nat.ltb_spec (length rows) expireBatchSize) as [Hlt|Hge].
    + assert (Hall : length rows = due_count (free locked (close_due cut)) s) by lia.
      assert (Hids : ∀ id, id ∈ map s_ID rows ↔ id ∈ closing locked now (subs s)).
      { apply closing_batch. fold cut. fold (due_count (free locked (close_due cut)) s). lia. }
      exists s1. split; [by rewrite Hall, (live_count_ext _ _ _ Hids)|]. split_and!; try done.
      * rewrite S1. apply (batch_is_all locked); [apply Hs|]. fold (due_count (free locked (close_due cut)) s). lia.
      * rewrite C1. apply map_ext. by apply revoke_ext.
    + assert (Hleft : due_count (free locked (close_due cut)) s1 = (due_count (free locked (close_due cut)) s - length rows)%nat).
      { unfold due_count. rewrite S1. apply due_left; [apply Hs|done|done|intros; apply closed_not_due]. }
      pose proof (closing_split locked now rows (subs s) (so_ids _ _ Hs) Hin) as Hsplit. rewrite <- S1 in Hsplit.
      destruct (IH (S n) (c + length rows)%nat (v + live_count (map s_ID rows) (creds s))%nat s1 Hs1) as (s' & H2 & S2 & C2 & B2 & E2); [lia|].
      exists s'. split_and!; [| | |by eapply same_but_links_trans|by etrans].
      * rewrite H2, Hleft. rewrite <- (live_count_ext _ _ (creds s) Hsplit), (live_count_revoke now RevokedRenewalClosed), <- C1.
        do 3 f_equal; lia.
      * rewrite S2, S1. apply batch_then_rest; [apply Hs|done|intros; apply closed_not_due].
      * rewrite C2, C1, map_map. apply map_ext. intros x. rewrite revoke_revoke. by apply revoke_ext.
Qed.

(** * The sweep *)

Lemma filter_map_comm {A B} (p : B → bool) (f : A → B) l : List.filter p (map f l) = map f (List.filter (λ x, p (f x)) l).
Proof. induction l as [|x l IH]; simpl; [done|]. destruct (p (f x)); simpl; by rewrite IH. Qed.

(** What the job is to do at [now], said of a row and without the statements:
    an active subscription runs out at the end of its period; one that has run
    out, now or earlier, and whose window is open, is closed thirty days after
    that end.  [held1] and [held2] are the rows other transactions hold while
    the job expires and while it closes. *)
Definition runs_out (held1 : uuid → bool) (now : Time) (r : sub_row) : Prop :=
  s_Status r = "active" ∧ s_PeriodEnd r ≤ now ∧ held1 (s_ID r) = false.
Definition is_over (held1 held2 : uuid → bool) (now : Time) (r : sub_row) : Prop :=
  (s_Status r = "expired" ∨ runs_out held1 now r) ∧ s_RenewalClosedAt r = None ∧
  s_PeriodEnd r + 30 * (24 * Hour) ≤ now ∧ held2 (s_ID r) = false.
#[global] Instance runs_out_dec held1 now r : Decision (runs_out held1 now r).
Proof. apply _. Defined.
#[global] Instance is_over_dec held1 held2 now r : Decision (is_over held1 held2 now r).
Proof. apply _. Defined.

Definition swept (held1 held2 : uuid → bool) (now : Time) (r : sub_row) : sub_row :=
  let r1 := if decide (runs_out held1 now r) then set_status "expired" r else r in
  if decide (is_over held1 held2 now r) then set_closed (Some now) r1 else r1.

Section One.
Context (held1 held2 : uuid → bool) (now : Time).

Lemma runs_out_due r : free held1 (expiry_due now) r = bool_decide (runs_out held1 now r).
Proof.
  apply eq_true_iff_eq. rewrite bool_decide_eq_true. unfold free, expiry_due, runs_out.
  rewrite !andb_true_iff, negb_true_iff, String.eqb_eq, Z.leb_le. unfold StatusActive. tauto.
Qed.
Lemma expire_row_as r : expire_row held1 now r = if decide (runs_out held1 now r) then set_status "expired" r else r.
Proof.
  unfold expire_row. rewrite runs_out_due.
  destruct (decide (runs_out held1 now r)); [by rewrite bool_decide_eq_true_2|by rewrite bool_decide_eq_false_2].
Qed.

Lemma expire_row_id r : s_ID (expire_row held1 now r) = s_ID r.
Proof. unfold expire_row. by destruct (free _ _ r). Qed.

Lemma is_over_due r :
  free held2 (close_due (now - RenewalWindow)) (expire_row held1 now r) = bool_decide (is_over held1 held2 now r).
Proof.
  apply eq_true_iff_eq. rewrite bool_decide_eq_true. rewrite expire_row_as. unfold free, close_due, is_over.
  assert (E : s_PeriodEnd r ≤ now - RenewalWindow ↔ s_PeriodEnd r + 30 * (24 * Hour) ≤ now).
  { unfold RenewalWindow, Day. lia. }
  destruct (decide (runs_out held1 now r)) as [H|H]; simpl;
    rewrite !andb_true_iff, negb_true_iff, bool_decide_eq_true, Z.leb_le, E, ?String.eqb_eq; unfold StatusExpired; tauto.
Qed.

Lemma swept_as r : close_row held2 now (expire_row held1 now r) = swept held1 held2 now r.
Proof.
  unfold close_row, swept. rewrite is_over_due, <- expire_row_as.
  destruct (decide (is_over held1 held2 now r)); [by rewrite bool_decide_eq_true_2|by rewrite bool_decide_eq_false_2].
Qed.

(** A row the sweep left is not due, but for the rows others held. *)
Lemma swept_settled r : ¬ runs_out held1 now (swept held1 held2 now r) ∧ ¬ is_over held1 held2 now (swept held1 held2 now r).
Proof.
  unfold swept. destruct (decide (runs_out held1 now r)) as [H|H], (decide (is_over held1 held2 now r)) as [K|K];
    (split; [intros (E1 & E2 & E3)|intros (E1 & E2 & E3 & E4)]); simpl in *; try done.
  - destruct E1 as [E1|(E1 & _)]; [|done]. apply K. split_and!; try done. by right.
  - destruct K as [[K|K] _]; [congruence|done].
  - by apply H.
  - by apply K.
Qed.
End One.

(** C34: the expiry job settles what is due.  Run at one instant, with the rows
    [held1] and [held2] held by other transactions during its two loops and no
    more than 10000 rows due in either, it succeeds: an active subscription
    whose period has ended becomes expired; one that has run out, and whose
    period ended thirty days ago or earlier, is closed and its active links are
    revoked; every other row, and every row held, is as it was; so of the rows
    not held none is due any more.  Quotas, usage, reset logs and trials are
    untouched, each expiry is in the event log, and the statistics count
    exactly these changes. *)
Theorem expire_due_complete W (held1 held2 : uuid → bool) (now : Time) s :
  store_ok W s → outlets_ok W →
  let expiring := List.filter (λ r, bool_decide (runs_out held1 now r)) (subs s) in
  let over := List.filter (λ r, bool_decide (is_over held1 held2 now r)) (subs s) in
  Z.of_nat (length expiring) ≤ 10000 → Z.of_nat (length over) ≤ 10000 →
  ∃ s', ExpireDue W (λ _, held1) (λ _, held2) (λ _, now) (λ _, now) s =
          (Ok (mkExpireStats (length expiring) (length over) (live_count (map s_ID over) (creds s))), s') ∧
    subs s' = map (swept held1 held2 now) (subs s) ∧
    creds s' = map (revoke now RevokedRenewalClosed (map s_ID over)) (creds s) ∧
    (∀ c, c ∈ creds s' → c_SubscriptionID c ∈ map s_ID over → c_Status c ≠ "active") ∧
    quotas s' = quotas s ∧ usage s' = usage s ∧ resets s' = resets s ∧ trials s' = trials s ∧
    (∀ r, r ∈ subs s' → ¬ runs_out held1 now r ∧ ¬ is_over held1 held2 now r) ∧
    (∀ r, r ∈ subs s → runs_out held1 now r → expired_event r ∈ events s').
Proof.
  intros Hs Hout expiring over Hk1 Hk2.
  assert (Hmax : Z.of_nat (expireMaxBatches * expireBatchSize) = 10000) by reflexivity.
  assert (Hexp : due_count (free held1 (expiry_due now)) s = length expiring).
  { unfold due_count, expiring. f_equal. apply filter_ext. intros r. apply runs_out_due. }
  destruct (expire_loop_eq W held1 now expireMaxBatches 0 0 s Hs Hout) as (s1 & H1 & Hs1 & S1 & (B1 & B2 & B3 & B4 & B5) & l & E1 & L1).
  { rewrite Hexp. lia. }
  assert (Hover : List.filter (free held2 (close_due (now - RenewalWindow))) (subs s1) = map (expire_row held1 now) over).
  { rewrite S1, filter_map_comm. f_equal. apply filter_ext. intros r. apply is_over_due. }
  assert (Hids : closing held2 now (subs s1) = map s_ID over).
  { unfold closing. rewrite Hover, map_map. apply map_ext. intros r. apply expire_row_id. }
  assert (Hcnt : due_count (free held2 (close_due (now - RenewalWindow))) s1 = length over).
  { unfold due_count. by rewrite Hover, length_map. }
  destruct (close_loop_eq W held2 now expireMaxBatches 0 0 0 s1 Hs1) as (s' & H2 & S2 & C2 & (D1 & D2 & D3 & D4 & D5) & E2).
  { rewrite Hcnt. lia. }
  assert (Hsubs : subs s' = map (swept held1 held2 now) (subs s)).
  { rewrite S2, S1, map_map. apply map_ext. apply swept_as. }
  rewrite Hids, B2 in *. exists s'. split_and!; try congruence.
  - unfold ExpireDue. rewrite (bind_eq _ _ _ _ s1 H1), (bind_eq _ _ _ _ s' H2). cbn [fst snd]. by rewrite !Nat.add_0_l, Hexp, Hcnt.
  - intros c Hc. rewrite C2 in Hc. apply list_elem_of_fmap in Hc as (x & -> & _). apply revoke_dead.
  - intros r Hr. rewrite Hsubs in Hr. apply list_elem_of_fmap in Hr as (x & -> & _). apply swept_settled.
  - intros r Hr Hd. eapply elem_of_prefix; [|exact E2]. rewrite E1. apply elem_of_app. right. apply L1; [done|].
    rewrite runs_out_due. by apply bool_decide_eq_true.
Qed.
End Sweeps.
