(* ===== verification/CloseThms.v ===== *)
(** What closing an account does to its subscriptions: every one of them ends,
    no link of theirs stays active, and nobody else's rows change. *)
From Stdlib Require Import ZArith Lia.
From stdpp Require Import base tactics list gmap strings sorting.
From S2P Require Import Prelude Decimal GoString Money GoTime Period SubTypes SubStore SubFacts SubExact SubQuota.
From S2P Require Import Subscription Sweep Charge Roll SubHistory SweepThms.
#[local] Open Scope string_scope.
#[local] Open Scope Z_scope.

Section Closing.
Context `{DL : DecimalLib}.
Abbreviation SM := (M store serr).

Ltac list_in := apply (bool_decide_unpack _); vm_compute; exact I.

(** * Ending the active ones *)

Definition cut_end (now : Time) (m r : sub_row) : sub_row :=
  if After (s_PeriodEnd m) now && After now (s_PeriodStart m) then set_end now r else r.
Definition end_row (now : Time) (r : sub_row) : sub_row :=
  if String.eqb (s_Status r) StatusActive then set_status StatusExpired (cut_end now r r) else r.

Lemma end_row_id now r : s_ID (end_row now r) = s_ID r.
Proof. unfold end_row, cut_end. destruct (String.eqb _ _); [|done]; by destruct (After _ _ && After _ _). Qed.
Lemma end_row_closed now r : s_RenewalClosedAt (end_row now r) = s_RenewalClosedAt r.
Proof. unfold end_row, cut_end. destruct (String.eqb _ _); [|done]; by destruct (After _ _ && After _ _). Qed.
Lemma end_row_user now r : s_UserID (end_row now r) = s_UserID r.
Proof. unfold end_row, cut_end. destruct (String.eqb _ _); [|done]; by destruct (After _ _ && After _ _). Qed.

Lemma end_row_expired W s now r : store_ok W s → r ∈ subs s → s_Status (end_row now r) = StatusExpired.
Proof.
  intros Hs Hr. unfold end_row. destruct (String.eqb_spec (s_Status r) StatusActive) as [|E]; [done|].
  destruct (sub_check_status r); [by eapply row_check|done..].
Qed.

Lemma write_sub_end W now r :
  write_sub W r = Ok () → s_PeriodStart r < now → write_sub W (set_end now r) = Ok ().
Proof.
  intros Hw Hn. unfold write_sub, sub_fk, sub_check in *. cbn [s_Amount s_Status s_PeriodStart s_PeriodEnd s_RenewalClosedAt s_Interval
    s_IntervalCount s_DeviceLimit s_UserID s_PlanID s_PlanVersionID s_PriceID s_SourceOrderID set_end].
  destruct (negb (amount_fits (s_Amount r))); [done|]. destruct (bool_decide _); [|done].
  rewrite (proj2 (Z.ltb_lt _ _) Hn). destruct (s_PeriodStart r <? s_PeriodEnd r); done.
Qed.

Lemma write_sub_ended W now r : write_sub W r = Ok () → write_sub W (end_row now r) = Ok ().
Proof.
  intros Hw. unfold end_row. destruct (String.eqb _ _); [|done]. apply write_sub_status. unfold cut_end.
  destruct (After _ _ && After _ _) eqn:E; [|done]. apply write_sub_end; [done|].
  apply andb_true_iff in E as [_ E]. unfold After in E. by apply Z.ltb_lt.
Qed.

Lemma put_as_upd W s m f : store_ok W s → m ∈ subs s → s_ID (f m) = s_ID m → put_sub (f m) (subs s) = upd_subs f [s_ID m] (subs s).
Proof.
  intros Hs Hm Hf. unfold put_sub, upd_subs. apply map_ext_in. intros r Hr%list_elem_of_In. rewrite mem_one, Hf.
  destruct (N.eqb_spec (s_ID r) (s_ID m)) as [E|]; [|done]. by rewrite (NoDup_map_inj s_ID _ r m (so_ids _ _ Hs) Hr Hm E).
Qed.

Lemma upd_subs_cons f id ids l : (∀ r, s_ID (f r) = s_ID r) → id ∉ ids →
  upd_subs f ids (upd_subs f [id] l) = upd_subs f (id :: ids) l.
Proof.
  intros Hf Hid. unfold upd_subs. rewrite map_map. apply map_ext. intros r. rewrite mem_one.
  change (mem (s_ID r) (id :: ids)) with ((s_ID r =? id)%N || mem (s_ID r) ids).
  destruct (N.eqb_spec (s_ID r) id) as [E|E]; [|done]. rewrite Hf, E. by rewrite (proj2 (mem_false _ _) Hid).
Qed.

Lemma close_active_eq W actor now m s :
  store_ok W s → actor_ok W actor → m ∈ subs s →
  ∃ s', close_active W actor now m s = (Ok (), s') ∧ subs s' = upd_subs (end_row now) [s_ID m] (subs s) ∧
    same_but_subs s s' ∧ roster s' = roster s ∧
    events s' = (events s ++ (if String.eqb (s_Status m) StatusActive
      then [mkEvent (s_ID m) EventExpired (Some StatusActive) StatusExpired (act_Kind actor) (act_ID actor) None
              [("reason", PStr "account_deleted"); ("previous_end", PTime (s_PeriodEnd m))]] else []))%list.
Proof.
  intros Hs Ha Hm. unfold close_active. rewrite <- (put_as_upd W) by (done || apply end_row_id).
  destruct (String.eqb_spec (s_Status m) StatusActive) as [E|E].
  - assert (Hrow : end_row now m = set_status StatusExpired (cut_end now m m)) by (unfold end_row; by rewrite E).
    assert (Hid : s_ID (cut_end now m m) = s_ID m) by (unfold cut_end; by destruct (After _ _ && After _ _)).
    eexists. split.
    + cbv zeta. erewrite bind_eq; [|apply (transition_eq W s m StatusExpired None (cut_end now m)); try done].
      2: { by rewrite E. } 2: { rewrite <- Hrow. apply write_sub_ended. by eapply row_ok. }
      rewrite <- Hrow. apply writeEvent_eq; [|list_in|by right; left|by right|done|done].
      simpl. rewrite put_sub_ids. by apply list_elem_of_fmap_2.
    + by split_and!.
  - exists s. split; [done|]. split_and!; try done; [|by rewrite app_nil_r]. symmetry. apply map_same. intros r Hr.
    destruct (N.eqb_spec (s_ID r) (s_ID (end_row now m))) as [Er|]; [|done]. rewrite end_row_id in Er.
    rewrite (NoDup_map_inj s_ID _ r m (so_ids _ _ Hs) Hr Hm Er). unfold end_row.
    by destruct (String.eqb_spec (s_Status m) StatusActive).
Qed.

Lemma close_active_loop W actor now l s :
  store_ok W s → actor_ok W actor → NoDup (map s_ID l) → (∀ m, m ∈ l → m ∈ subs s) →
  ∃ s', for_each (close_active W actor now) l s = (Ok (), s') ∧ store_ok W s' ∧
    subs s' = upd_subs (end_row now) (map s_ID l) (subs s) ∧ same_but_subs s s' ∧ roster s' = roster s ∧
    events s `prefix_of` events s'.
Proof.
  revert s. induction l as [|m l IH]; intros s Hs Ha Hn Hl.
  - exists s. split_and!; try done. symmetry. by apply map_same.
  - destruct (close_active_eq W actor now m s Hs Ha) as (s1 & H1 & S1 & B1 & R1 & E1); [apply Hl; constructor|].
    assert (Hs1 : store_ok W s1) by (eapply close_active_safe; [exact Hs|exact H1]).
    simpl in Hn. apply NoDup_cons in Hn as [Hm Hn].
    destruct (IH s1 Hs1 Ha Hn) as (s' & H2 & Hs' & S2 & B2 & R2 & E2).
    { intros x Hx. rewrite S1. apply list_elem_of_fmap. exists x. rewrite mem_one. split; [|apply Hl; by constructor].
      destruct (N.eqb_spec (s_ID x) (s_ID m)) as [E|]; [|done]. exfalso. apply Hm. rewrite <- E. by apply list_elem_of_fmap_2. }
    exists s'. split; [simpl; by rewrite (bind_eq _ _ _ () s1)|]. split; [done|]. split_and!.
    + rewrite S2, S1. by apply upd_subs_cons; [apply end_row_id|].
    + apply (same_but_subs_trans s s1 s' B1 B2).
    + congruence.
    + etrans; [|exact E2]. rewrite E1. by apply prefix_app_r.
Qed.

Lemma lock_all_eq W u l s :
  store_ok W s → (∀ m, m ∈ l → m ∈ subs s ∧ s_UserID m = u) → lock_all u l s = (Ok l, s).
Proof.
  intros Hs Hl. induction l as [|m l IH]; simpl; [done|]. destruct (Hl m) as [Hm Hu]; [constructor|].
  erewrite bind_eq; [|apply (lockOwned_eq W); [done|done|by symmetry]].
  erewrite bind_eq; [done|]. apply IH. intros x Hx. apply Hl. by constructor.
Qed.

(** * The account's rows afterwards *)

Definition account_row (user : uuid) (now : Time) (r : sub_row) : sub_row :=
  if (s_UserID r =? user)%N
  then match s_RenewalClosedAt r with None => set_closed (Some now) (end_row now r) | Some _ => end_row now r end
  else r.

Definition owned (user : uuid) (r : sub_row) : bool := (s_UserID r =? user)%N.

Lemma rows_of_user user l : List.filter (λ r, mem (s_UserID r) [user]) l = List.filter (owned user) l.
Proof. apply filter_ext. intros r. apply mem_one. Qed.

(** Membership of a row's identifier in a selection of the same table. *)
Lemma mem_selected W s p r : store_ok W s → r ∈ subs s → mem (s_ID r) (map s_ID (List.filter p (subs s))) = p r.
Proof.
  intros Hs Hr. destruct (p r) eqn:E.
  - apply mem_spec, list_elem_of_fmap_2. by apply elem_of_filter_bool.
  - apply mem_false. intros (x & Ex & [Hp Hx]%elem_of_filter_bool)%list_elem_of_fmap.
    rewrite (NoDup_map_inj s_ID _ r x (so_ids _ _ Hs) Hr Hx Ex) in E. congruence.
Qed.

Lemma upd_subs_selected W s p f : store_ok W s →
  upd_subs f (map s_ID (List.filter p (subs s))) (subs s) = map (λ r, if p r then f r else r) (subs s).
Proof. intros Hs. apply map_ext_in. intros r Hr%list_elem_of_In. by rewrite (mem_selected W). Qed.

Definition unclosed (r : sub_row) : bool := bool_decide (s_RenewalClosedAt r = None).

Lemma active_unclosed W s r : store_ok W s → r ∈ subs s → s_Status r = StatusActive → unclosed r = true.
Proof.
  intros Hs Hr E. unfold unclosed. apply bool_decide_eq_true. destruct (s_RenewalClosedAt r) as [t|] eqn:Et; [|done].
  rewrite (sub_check_closed r t) in E; [done|by eapply row_check|done].
Qed.

(** Closing the windows of rows that have just been ended. *)
Lemma close_ended W now rows s s1 :
  store_ok W s → store_ok W s1 → subs s1 = upd_subs (end_row now) (map s_ID rows) (subs s) → (∀ r, r ∈ rows → r ∈ subs s) →
  let open := List.filter unclosed rows in
  ∃ ids, CloseRenewalWindows W (map s_ID open) now s1 =
           (Ok ids, set_subs (upd_subs (set_closed (Some now)) (map s_ID open)) s1) ∧
    (∀ id, id ∈ ids ↔ id ∈ map s_ID open) ∧ NoDup ids.
Proof.
  intros Hs Hs1 S1 Hl open.
  assert (Hopen : ∀ r, r ∈ open → r ∈ subs s ∧ s_RenewalClosedAt r = None ∧ end_row now r ∈ subs s1).
  { intros r [H1 H2]%elem_of_filter_bool. split_and!; [by apply Hl|by apply bool_decide_eq_true in H1|]. rewrite S1.
    apply list_elem_of_fmap. exists r. split; [|by apply Hl]. by rewrite (proj2 (mem_spec _ _)) by (by apply list_elem_of_fmap_2). }
  assert (Hids : map s_ID (map (end_row now) open) = map s_ID open).
  { rewrite map_map. apply map_ext. intros r. apply end_row_id. }
  set (guard := λ r, String.eqb (s_Status r) StatusExpired && bool_decide (s_RenewalClosedAt r = None)).
  destruct (update_returning_eq W s1 guard (set_closed (Some now)) (map (end_row now) open)) as (ids & H1 & H2 & H3).
  { done. }
  { intros r (x & -> & Hx)%list_elem_of_fmap. by apply Hopen. }
  { intros r (x & -> & Hx)%list_elem_of_fmap. destruct (Hopen x Hx) as (Hxs & Hc & _). unfold guard.
    by rewrite (end_row_expired W s), end_row_closed, Hc. }
  { intros r (x & -> & Hx)%list_elem_of_fmap. destruct (Hopen x Hx) as (Hxs & Hc & Hin).
    apply write_sub_closed; [by eapply row_ok|by apply (end_row_expired W s)]. }
  rewrite Hids in *. exists ids. split; [|done]. rewrite <- H1. apply update_returning_ext. intros r. unfold guard. by rewrite andb_assoc.
Qed.

Lemma account_rows W user now s :
  store_ok W s → let rows := List.filter (owned user) (subs s) in
  upd_subs (set_closed (Some now)) (map s_ID (List.filter unclosed rows)) (upd_subs (end_row now) (map s_ID rows) (subs s)) =
    map (account_row user now) (subs s).
Proof.
  intros Hs rows. unfold rows. rewrite filter_filter, (upd_subs_selected W) by done. unfold upd_subs. rewrite map_map.
  apply map_ext_in. intros r Hr%list_elem_of_In. unfold account_row, owned.
  assert (Hid : s_ID (if (s_UserID r =? user)%N then end_row now r else r) = s_ID r).
  { destruct (_ =? _)%N; [apply end_row_id|done]. }
  rewrite Hid, (mem_selected W) by done. unfold unclosed.
  destruct (s_UserID r =? user)%N; [|done]. simpl. by destruct (s_RenewalClosedAt r).
Qed.

(** The identifiers counted: those closed, as every active row was open. *)
Lemma closed_count W user s (ids : list uuid) :
  store_ok W s → let rows := List.filter (owned user) (subs s) in
  (∀ id, id ∈ ids ↔ id ∈ map s_ID (List.filter unclosed rows)) → NoDup ids →
  length (remove_dups (map s_ID (List.filter (λ m, String.eqb (s_Status m) StatusActive) rows) ++ ids)%list) =
    length (List.filter unclosed rows).
Proof.
  intros Hs rows Hids Hn. rewrite <- (length_map s_ID (List.filter unclosed rows)). apply Permutation_length, NoDup_Permutation.
  - apply NoDup_remove_dups.
  - eapply sublist_NoDup; [apply (so_ids _ _ Hs)|]. apply (fmap_sublist s_ID). etrans; apply filter_sublist.
  - intros id. rewrite elem_of_remove_dups, elem_of_app, Hids. split; [|by right]. intros [H|]; [|done].
    apply list_elem_of_fmap in H as (r & -> & [H1 H2]%elem_of_filter_bool). apply list_elem_of_fmap_2.
    apply elem_of_filter_bool. split; [|done]. apply elem_of_filter_bool in H2 as [_ H2].
    apply (active_unclosed W s); [done..|]. by apply String.eqb_eq.
Qed.

Lemma account_row_ended W s user now r t :
  store_ok W s → r ∈ subs s → s_UserID r = user →
  s_Status (account_row user now r) = StatusExpired ∧ state_of (account_row user now r) t = StateEnded.
Proof.
  intros Hs Hr Hu. unfold account_row. rewrite Hu, N.eqb_refl. unfold state_of, StateAt.
  pose proof (end_row_expired W s now r Hs Hr) as He. pose proof (end_row_closed now r) as Hc.
  destruct (s_RenewalClosedAt r) as [t0|]; [by rewrite Hc|done].
Qed.

Lemma audit_if (b : bool) action id s : ∃ s', (if b then writeAudit action id else mret ()) s = (Ok (), s') ∧ logs_only s s'.
Proof. destruct b; eexists; (split; [done|by split_and!]). Qed.

(** C35: closing an account's subscriptions ends each one the user owns: an
    active one becomes expired with its period cut to this instant when the
    instant lies inside it, an open renewal window is closed, so none can ever
    be renewed; none of their links stays active; rows and links of everyone
    else, and all quotas, usage, reset logs and trials, are untouched; the
    nodes are told of the ones that were active; and the number returned is
    that of the windows that were open. *)
Theorem close_account_exact W inTx actor now user s :
  store_ok W s → actor_ok W actor →
  let rows := List.filter (owned user) (subs s) in
  ∃ s', CloseUserSubscriptions W inTx actor now user s = (Ok (length (List.filter unclosed rows)), s') ∧
    subs s' = map (account_row user now) (subs s) ∧
    creds s' = map (revoke now RevokedAccountDeleted (map s_ID rows)) (creds s) ∧
    quotas s' = quotas s ∧ usage s' = usage s ∧ resets s' = resets s ∧ trials s' = trials s ∧
    (∀ r t, r ∈ rows → s_Status (account_row user now r) = StatusExpired ∧ state_of (account_row user now r) t = StateEnded) ∧
    (∀ c, c ∈ creds s' → c_SubscriptionID c ∈ map s_ID rows → c_Status c ≠ "active") ∧
    (∀ r, r ∈ rows → s_Status r = StatusActive → s_ID r ∈ roster s').
Proof.
  intros Hs Ha rows.
  assert (Hrows : ∀ r, r ∈ rows → r ∈ subs s ∧ s_UserID r = user).
  { intros r [H1 H2]%elem_of_filter_bool. split; [done|]. by apply N.eqb_eq. }
  assert (Hended : ∀ r t, r ∈ rows → s_Status (account_row user now r) = StatusExpired ∧ state_of (account_row user now r) t = StateEnded).
  { intros r t Hr. destruct (Hrows r Hr). by apply (account_row_ended W s). }
  destruct rows as [|r0 rows0] eqn:Erows.
  { exists s. split_and!; try done.
    - apply tx_eq. erewrite bind_eq by (apply map_err_run, gets_eq). rewrite rows_of_user. fold rows. by rewrite Erows.
    - symmetry. apply map_same. intros r Hr. unfold account_row. destruct (_ =? _)%N eqn:E; [|done].
      exfalso. assert (Hin : r ∈ rows) by (by apply elem_of_filter_bool). rewrite Erows in Hin. by apply elem_of_nil in Hin.
    - symmetry. by apply map_same.
    - intros c _ Hc. by apply elem_of_nil in Hc.
    - intros r Hr. by apply elem_of_nil in Hr. }
  rewrite <- Erows in *.
  assert (Hnd : NoDup (map s_ID rows)) by (eapply sublist_NoDup; [apply (so_ids _ _ Hs)|apply (fmap_sublist s_ID), filter_sublist]).
  destruct (close_active_loop W actor now rows s Hs Ha Hnd) as (s1 & H1 & Hs1 & S1 & (B1 & B2 & B3 & B4 & B5) & R1 & _).
  { intros m Hm. by apply Hrows. }
  destruct (close_ended W now rows s s1 Hs Hs1 S1) as (ids & H2 & Hids & Hn); [intros r Hr; by apply Hrows|].
  set (s2 := set_subs (upd_subs (set_closed (Some now)) (map s_ID (List.filter unclosed rows))) s1) in *.
  destruct (for_each_logs (λ id, writeEvent W id EventRenewalClosed (Some StatusExpired) StatusExpired actor None
      [("reason", PStr "account_deleted")]) (λ id, [mkEvent id EventRenewalClosed (Some StatusExpired) StatusExpired (act_Kind actor)
      (act_ID actor) None [("reason", PStr "account_deleted")]]) ids s2) as (s3 & H3 & (A1 & A2 & A3 & A4 & A5 & A6 & A7 & _) & _).
  { intros id s4 Hid Es4. eexists. split; [apply writeEvent_eq; [|list_in|by right; right|by right|done|done]|by split_and!].
    rewrite Es4. unfold s2. simpl. rewrite upd_subs_ids, S1, upd_subs_ids by (done || apply end_row_id).
    apply Hids, list_elem_of_fmap in Hid as (x & -> & [_ Hx]%elem_of_filter_bool). by apply list_elem_of_fmap_2, Hrows. }
  assert (Hsubs : subs s3 = map (account_row user now) (subs s)).
  { rewrite A1. unfold s2. simpl. rewrite S1. by apply (account_rows W). }
  set (s5 := set_creds (map (revoke now RevokedAccountDeleted (map s_ID rows))) s3).
  destruct (audit_if (Nat.ltb 0 (length (List.filter unclosed rows))) ActionClosedByAccountDeletion user s5)
    as (s6 & H6 & (D1 & D2 & D3 & D4 & D5 & D6 & D7 & _)).
  set (live := map s_ID (List.filter (λ m, String.eqb (s_Status m) StatusActive) rows)).
  exists (set_roster (λ r, list_to_set (List.filter (λ i, negb (i =? uuid_Nil)%N) live) ∪ r) s6).
  assert (Hcreds : creds s6 = map (revoke now RevokedAccountDeleted (map s_ID rows)) (creds s)).
  { rewrite D3. unfold s5. simpl. by rewrite A3, <- B2. }
  split_and!; try done.
  - apply tx_eq. erewrite bind_eq by (apply map_err_run, gets_eq). rewrite rows_of_user. fold rows.
    rewrite (nonempty_match rows) by (by rewrite Erows). erewrite bind_eq by (by apply (lock_all_eq W)).
    erewrite bind_eq by exact H1. cbv zeta. erewrite bind_eq by (apply map_err_run, H2). erewrite bind_eq by exact H3.
    erewrite bind_eq by (apply map_err_run, RevokeCredentialsOnClose_eq). fold s5 live.
    assert (Hc : length (remove_dups (live ++ ids)%list) = length (List.filter unclosed rows)) by (by apply (closed_count W)).
    rewrite Hc. erewrite bind_eq by exact H6. done.
  - simpl. rewrite D1. exact Hsubs.
  - simpl. by rewrite D2, <- B1.
  - simpl. by rewrite D5, <- B4.
  - simpl. by rewrite D4, <- B3.
  - simpl. by rewrite D6, <- B5.
  - intros c. simpl. rewrite Hcreds. intros (x & -> & _)%list_elem_of_fmap. apply revoke_dead.
  - intros r Hr E. simpl. apply elem_of_union_l, elem_of_list_to_set, elem_of_filter_bool. split.
    + destruct (proj1 (Forall_forall _ _) (so_fresh _ _ Hs) r) as [H _]; [by apply Hrows|]. apply negb_true_iff, N.eqb_neq.
      unfold uuid_Nil. lia.
    + apply list_elem_of_fmap_2, elem_of_filter_bool. split; [by rewrite E|done].
Qed.
End Closing.
