(* ===== verification/SubLife.v ===== *)
(** The event log of a subscription accounts for it: replaying its events, with
    the checks a reader of the log would make, ends in the state, the end of
    period and the number of valid links the tables show, whatever sequence of
    calls has run. *)
From Stdlib Require Import ZArith Lia.
From stdpp Require Import base tactics list gmap strings sorting relations.
From S2P Require Import Prelude Decimal GoString Money GoTime Period SubTypes SubStore SubFacts SubExact SubQuota.
From S2P Require Import Subscription SubAdmin Sweep Charge Roll SubHistory SweepThms CloseThms Safety.
#[local] Open Scope string_scope.
#[local] Open Scope Z_scope.

(** * The life of a subscription, as its events tell it *)

(** [Live] and [Lapsed] know the end of the period; [Closed true] has been
    given a new link by hand after it was closed. *)
Inductive life := Unborn | Live (until : Time) | Lapsed (until : Time) | Closed (relinked : bool).

(** A value of the payload. *)
Definition said (key : string) (e : event_row) : option pval := snd <$> List.find (λ kv, String.eqb kv.1 key) (ev_Payload e).
Definition time_said (key : string) (e : event_row) : option Time :=
  match said key e with Some (PTime t) => Some t | _ => None end.

Definition told (types : list string) (from : option string) (to : string) (e : event_row) : bool :=
  bool_decide (ev_Type e ∈ types) && bool_decide (ev_From e = from) && String.eqb (ev_To e) to.

(** The period's new end, when the event names the old one rightly. *)
Definition moved (until : Time) (e : event_row) : option Time :=
  if bool_decide (time_said "previous_end" e = Some until) then time_said "period_end" e else None.
Definition names_end (until : Time) (e : event_row) : bool :=
  bool_decide (time_said "period_end" e = Some until) || bool_decide (time_said "previous_end" e = Some until).

Definition starts_over (e : event_row) : bool := match said "restart" e with Some (PBool b) => b | _ => false end.

(** One event; [None] is an event that does not fit.  A renewal that starts the
    period over says the subscription had expired even when the sweep has not
    come by yet. *)
Definition next (l : life) (e : event_row) : option life :=
  match l with
  | Unborn => if told ["activated"] None "active" e then Live <$> time_said "period_end" e else None
  | Live t =>
      if told ["renewed"; "extended"; "plan_changed"; "period_end_set"] (Some "active") "active" e ||
         (told ["renewed"] (Some "expired") "active" e && starts_over e)
      then Live <$> moved t e
      else if told ["expired"] (Some "active") "expired" e && names_end t e then Some (Lapsed t)
      else if told ["link_rotated"; "quota_limit_set"] (Some "active") "active" e then Some (Live t)
      else None
  | Lapsed t =>
      if told ["renewed"; "extended"; "plan_changed"] (Some "expired") "active" e then Live <$> moved t e
      else if told ["renewal_closed"] (Some "expired") "expired" e then Some (Closed false)
      else if told ["link_rotated"; "quota_limit_set"] (Some "expired") "expired" e then Some (Lapsed t)
      else None
  | Closed _ => if told ["link_rotated"] (Some "expired") "expired" e then Some (Closed true) else None
  end.

#[local] Arguments next : simpl never.

Fixpoint replay (l : life) (es : list event_row) : option life :=
  match es with
  | [] => Some l
  | e :: es' => match next l e with Some l' => replay l' es' | None => None end
  end.

Lemma replay_app l l1 es1 es2 : replay l es1 = Some l1 → replay l (es1 ++ es2) = replay l1 es2.
Proof.
  revert l. induction es1 as [|e es1 IH]; intros l; simpl; [by intros [= ->]|]. destruct (next l e); [apply IH|done].
Qed.

Lemma next_born l e l' : next l e = Some l' → l' ≠ Unborn.
Proof.
  intros H ->. destruct l; unfold next in H;
    repeat match type of H with (if ?b then _ else _) = _ => destruct b end; try discriminate H;
    apply fmap_Some in H as (t & _ & H); discriminate H.
Qed.
Lemma replay_born es l l' : replay l es = Some l' → es = [] ∨ l' ≠ Unborn.
Proof.
  revert l. induction es as [|e es IH]; intros l; simpl; [by left|]. destruct (next l e) as [l1|] eqn:E; [|done].
  intros H. right. destruct (IH _ H) as [-> |]; [|done]. simpl in H. simplify_eq. by eapply next_born.
Qed.

Create HintDb sub_steady discriminated.
#[export] Hint Constants Opaque : sub_steady.

Section Life.
Context `{DL : DecimalLib}.
Abbreviation SM := (M store serr).

(** * What the tables show of a subscription *)

Definition log_of (i : uuid) (s : store) : list event_row := List.filter (λ e, (ev_SubscriptionID e =? i)%N) (events s).
Definition links_of (i : uuid) (s : store) : list cred_row := List.filter (active_link i) (creds s).

(** The columns of a row that its log accounts for. *)
Record core := mkCore { co_User : uuid; co_Status : string; co_End : Time; co_Closed : option Time }.
Definition core_of (r : sub_row) : core := mkCore (s_UserID r) (s_Status r) (s_PeriodEnd r) (s_RenewalClosedAt r).

Definition shows (l : life) (c : core) : Prop :=
  match l with
  | Unborn => False
  | Live t => co_Status c = "active" ∧ co_End c = t ∧ co_Closed c = None
  | Lapsed t => co_Status c = "expired" ∧ co_End c = t ∧ co_Closed c = None
  | Closed _ => co_Status c = "expired" ∧ is_Some (co_Closed c)
  end.
(** How many valid links there are. *)
Definition linked (l : life) (n : nat) : Prop :=
  match l with
  | Unborn => n = 0%nat
  | Live _ | Lapsed _ => n = 1%nat
  | Closed false => n = 0%nat
  | Closed true => (n ≤ 1)%nat
  end.

(** All of it together, by identifier. *)
Record sview := mkView { vw_row : option core; vw_log : list event_row; vw_links : list cred_row }.
Definition view (s : store) (i : uuid) : sview := mkView (core_of <$> find_sub i (subs s)) (log_of i s) (links_of i s).

Definition fits (l : life) (o : option core) : Prop := match o with None => l = Unborn | Some c => shows l c end.

Record explained (v : sview) : Prop := {
  ex_life : ∃ l, replay Unborn (vw_log v) = Some l ∧ fits l (vw_row v) ∧ linked l (length (vw_links v));
  ex_owner : ∀ c, c ∈ vw_links v → co_User <$> vw_row v = Some (c_UserID c);
}.
Definition logged (s : store) : Prop := ∀ i, explained (view s i).

(** New events, a changed row and changed links are explained together. *)
Lemma explained_by v v' es :
  explained v → vw_log v' = (vw_log v ++ es)%list →
  (∀ l, fits l (vw_row v) → linked l (length (vw_links v)) →
     ∃ l', replay l es = Some l' ∧ fits l' (vw_row v') ∧ linked l' (length (vw_links v'))) →
  (∀ c, c ∈ vw_links v' → co_User <$> vw_row v' = Some (c_UserID c)) → explained v'.
Proof.
  intros [(l & Hr & Hf & Hl) _] El Hn Ho. split; [|done]. destruct (Hn l Hf Hl) as (l' & H1 & H2 & H3).
  exists l'. split; [|done]. rewrite El. by rewrite (replay_app _ _ _ _ Hr).
Qed.

(** * Steps that change none of it *)

Definition same_view (s s' : store) : Prop := ∀ i, view s' i = view s i.
#[global] Instance same_view_preorder : PreOrder same_view.
Proof. split; [by intros s i|]. intros a b c H1 H2 i. by rewrite H2. Qed.

Abbreviation steady := (keeps (λ _ : store, True) same_view).

Ltac steady_walk :=
  repeat first
    [ progress intros
    | solve [eauto with sub_steady]
    | match goal with
      | |- steady (tx _ _) => apply keeps_Do
      | |- steady (map_err _ _) => apply keeps_map_err
      | |- steady (mbind _ _) => apply keeps_bind; [apply _| |]
      | |- steady (lift _) => apply keeps_lift, _
      | |- steady (gets _) => apply keeps_gets, _
      | |- steady (mret _) => apply keeps_ret, _
      | |- steady (fail _) => apply keeps_fail, _
      | |- steady (match ?x with _ => _ end) => destruct x
      end
    | progress cbv zeta ].

Lemma find_sub_update i p f l : (∀ r, s_ID (f r) = s_ID r) →
  find_sub i (update_where p f l) = (λ r, if p r then f r else r) <$> find_sub i l.
Proof.
  intros Hf. unfold find_sub. induction l as [|r l IH]; simpl; [done|].
  assert (s_ID (if p r then f r else r) = s_ID r) as -> by (destruct (p r); auto). by destruct (s_ID r =? i)%N.
Qed.

Lemma same_view_tables s s' : subs s' = subs s → events s' = events s → creds s' = creds s → same_view s s'.
Proof. intros E1 E2 E3 i. unfold view, log_of, links_of. by rewrite E1, E2, E3. Qed.
Lemma same_view_subs s p f : (∀ r, s_ID (f r) = s_ID r ∧ core_of (f r) = core_of r) →
  same_view s (set_subs (update_where p f) s).
Proof.
  intros Hf i. unfold view, log_of, links_of. simpl. rewrite find_sub_update by (intros; apply Hf).
  f_equal. destruct (find_sub i (subs s)) as [r|]; [|done]. simpl. f_equal. destruct (p r); [apply Hf|done].
Qed.

Lemma steady_tables {A} (m : SM A) :
  (∀ s a s', m s = (Ok a, s') → subs s' = subs s ∧ events s' = events s ∧ creds s' = creds s) → steady m.
Proof. intros H s a s' _ E. split; [done|]. destruct (H _ _ _ E) as (? & ? & ?). by apply same_view_tables. Qed.

Lemma UpdateQuota_steady id cols : steady (UpdateQuota id cols).
Proof. apply steady_tables. intros s a s'. unfold UpdateQuota. repeat split_match; by intros; simplify_eq. Qed.
Lemma DeleteQuotas_steady ids : steady (DeleteQuotas ids).
Proof. apply steady_tables. intros s a s'. unfold DeleteQuotas, modify. by intros; simplify_eq. Qed.
Lemma insert_quota_steady q : steady (insert_quota q).
Proof. apply steady_tables. intros s a s'. unfold insert_quota. repeat split_match; by intros; simplify_eq. Qed.
#[local] Hint Resolve UpdateQuota_steady DeleteQuotas_steady insert_quota_steady : sub_steady.
Lemma InsertQuotas_steady rows : steady (InsertQuotas rows).
Proof. induction rows as [|q rows IH]; simpl; steady_walk. Qed.
Lemma AddQuotaBonus_steady id n : steady (AddQuotaBonus id n).
Proof.
  apply steady_tables. intros s a s'. unfold AddQuotaBonus, UpdateQuota. repeat split_match; by intros; simplify_eq.
Qed.
Lemma InsertResetLogs_steady W rows : steady (InsertResetLogs W rows).
Proof. apply steady_tables. intros s a s'. unfold InsertResetLogs. repeat split_match; by intros; simplify_eq. Qed.
#[local] Hint Resolve InsertQuotas_steady AddQuotaBonus_steady InsertResetLogs_steady : sub_steady.
Lemma logResets_steady W m b r a n : steady (logResets W m b r a n).
Proof. unfold logResets. steady_walk. Qed.
Lemma notifyRoster_steady ids : steady (notifyRoster ids).
Proof. apply steady_tables. unfold notifyRoster, modify. by intros; simplify_eq. Qed.
Lemma writeAudit_steady a id : steady (writeAudit a id).
Proof. apply steady_tables. unfold writeAudit, modify. by intros; simplify_eq. Qed.
Lemma add_trial_steady u i : steady (modify (add_trial u i) : SM ()).
Proof. apply steady_tables. unfold modify. by intros; simplify_eq. Qed.
Lemma SetLabel_steady W id u l : steady (SetLabel W id u l).
Proof.
  intros s a s' _. unfold SetLabel. intros H. split; [done|].
  repeat split_match_in H; simplify_eq; try done; by apply same_view_subs.
Qed.
Lemma loadSub_steady id o : steady (loadSub id o).
Proof. apply keeps_reads; [apply _|]. intros s. unfold loadSub, mbind, M_bind, map_err, SubscriptionByID, gets. by repeat split_match. Qed.
Lemma QuotasBySubscriptions_steady ids : steady (QuotasBySubscriptions ids).
Proof. apply keeps_gets, _. Qed.
#[local] Hint Resolve logResets_steady notifyRoster_steady writeAudit_steady add_trial_steady SetLabel_steady
  loadSub_steady QuotasBySubscriptions_steady : sub_steady.
Lemma rebuild_loop_steady v st e rows h k : steady (rebuild_loop v st e rows h k).
Proof. revert h k. induction rows as [|q rows IH]; intros h k; simpl; steady_walk. Qed.
#[local] Hint Resolve rebuild_loop_steady : sub_steady.
Lemma rebuildQuotas_steady W m v st e : steady (rebuildQuotas W m v st e).
Proof. unfold rebuildQuotas. steady_walk. Qed.
#[local] Hint Resolve rebuildQuotas_steady : sub_steady.
Lemma restartQuotas_steady W m v st e k : steady (restartQuotas W m v st e k).
Proof. unfold restartQuotas. steady_walk. Qed.
#[local] Hint Resolve restartQuotas_steady : sub_steady.
Lemma extend_loop_steady prev now e r l d c rows p k : steady (extend_loop prev now e r l d c rows p k).
Proof.
  revert p k. induction rows as [|q rows IH]; intros p k; simpl; [apply keeps_ret, _|].
  destruct (extend_case prev r l d c q) as [[l'|] add| |]; steady_walk.
Qed.
Lemma stack_quota_steady now m d f : steady (stack_quota now m d f).
Proof. unfold stack_quota. steady_walk. Qed.
Lemma reset_loop_steady rows tr f : steady (reset_loop rows tr f).
Proof. revert tr f. induction rows as [|q rows IH]; intros tr f; simpl; steady_walk. Qed.
Lemma label_loop_steady W id u l n k : steady (label_loop W id u l n k).
Proof. revert n. induction k as [|k IH]; intros n; simpl; steady_walk. Qed.
Lemma end_loop_steady prev e rows : steady (end_loop prev e rows).
Proof. induction rows as [|q rows IH]; simpl; steady_walk. Qed.
Lemma rejectDeletedOwner_steady D id : steady (rejectDeletedOwner D id).
Proof. unfold rejectDeletedOwner. steady_walk. Qed.
#[local] Hint Resolve extend_loop_steady stack_quota_steady reset_loop_steady label_loop_steady end_loop_steady
  rejectDeletedOwner_steady : sub_steady.
Lemma lockForAdmin_steady D id : steady (lockForAdmin D id).
Proof. unfold lockForAdmin, lockOwned. steady_walk. Qed.
Lemma RotateProxyUUID_steady proxy id : steady (RotateProxyUUID proxy id).
Proof.
  intros s a s' _ H. split; [done|]. unfold RotateProxyUUID in H. repeat split_match_in H; simplify_eq; try done.
  by apply same_view_subs.
Qed.
Lemma UpdateSubscription_steady W id from a f :
  (∀ r, s_ID (f r) = s_ID r ∧ core_of (f r) = core_of r) → steady (UpdateSubscription W id from a f).
Proof.
  intros Hf s b s' _ H. split; [done|]. unfold UpdateSubscription in H. repeat split_match_in H; simplify_eq; by apply same_view_subs.
Qed.
Lemma update_returning_steady W p f :
  (∀ r, s_ID (f r) = s_ID r ∧ core_of (f r) = core_of r) → steady (update_returning W p f).
Proof.
  intros Hf s b s' _ H. split; [done|]. unfold update_returning in H. split_match_in H; simplify_eq; by apply same_view_subs.
Qed.
Lemma AddQuotaConsumed_steady l : steady (AddQuotaConsumed l).
Proof. apply steady_tables. intros s a s'. unfold AddQuotaConsumed. repeat split_match; by intros; simplify_eq. Qed.
Lemma AddUsageDaily_steady d l : steady (AddUsageDaily d l).
Proof. apply steady_tables. intros s a s'. unfold AddUsageDaily. repeat split_match; by intros; simplify_eq. Qed.
Lemma ApplyQuotaRolls_steady l : steady (ApplyQuotaRolls l).
Proof. apply steady_tables. intros s a s'. unfold ApplyQuotaRolls. repeat split_match; by intros; simplify_eq. Qed.
Lemma SwitchPlanVersions_steady W l : steady (SwitchPlanVersions W l).
Proof.
  unfold SwitchPlanVersions. destruct l; [apply keeps_ret, _|]. apply update_returning_steady. intros r. by destruct (switch_for _ r).
Qed.

(** ** Whole operations *)

#[local] Hint Resolve lockForAdmin_steady RotateProxyUUID_steady AddQuotaConsumed_steady AddUsageDaily_steady
  ApplyQuotaRolls_steady SwitchPlanVersions_steady : sub_steady.
Lemma GrantBonus_steady W b now1 now2 i : steady (GrantBonus W b now1 now2 i).
Proof. unfold GrantBonus, lockOwned. steady_walk. Qed.
Lemma ResetTraffic_steady W b now i : steady (ResetTraffic W b now i).
Proof.
  unfold ResetTraffic, lockOwned. steady_walk.
Qed.
Lemma ChargeTraffic_steady W b now l : steady (ChargeTraffic W b now l).
Proof.
  unfold ChargeTraffic, SubscriptionIDsByNodeUIDs, LockTrafficQuotas, notifyRosterBatch.
  steady_walk.
Qed.
Lemma rollBatch_steady W lq ls now st : steady (rollBatch W lq ls now st).
Proof.
  unfold rollBatch, LockDueQuotaRolls.
  steady_walk.
Qed.
#[local] Hint Resolve GrantBonus_steady ResetTraffic_steady ChargeTraffic_steady rollBatch_steady : sub_steady.
Lemma AdminGrantTraffic_steady W D b who now1 now2 id n r : steady (AdminGrantTraffic W D b who now1 now2 id n r).
Proof. unfold AdminGrantTraffic. steady_walk. Qed.
Lemma AdminResetTraffic_steady W D b who now id r : steady (AdminResetTraffic W D b who now id r).
Proof. unfold AdminResetTraffic. steady_walk. Qed.
Lemma AdminSetDeviceLimit_steady W D b who id l : steady (AdminSetDeviceLimit W D b who id l).
Proof.
  unfold AdminSetDeviceLimit. steady_walk.
  by apply UpdateSubscription_steady.
Qed.
Lemma SetMyLabel_steady W D b who id l : steady (SetMyLabel W D b who id l).
Proof. unfold SetMyLabel, lockOwned. steady_walk. Qed.

#[local] Hint Resolve AdminGrantTraffic_steady AdminResetTraffic_steady AdminSetDeviceLimit_steady SetMyLabel_steady :
  sub_steady.
(** * Steps that change some of it *)

Lemma add_event_view e s j :
  view (add_event e s) j =
    if (ev_SubscriptionID e =? j)%N
    then mkView (vw_row (view s j)) (vw_log (view s j) ++ [e]) (vw_links (view s j)) else view s j.
Proof.
  unfold view, log_of, links_of. simpl. rewrite List.filter_app. simpl. destruct (ev_SubscriptionID e =? j)%N; [done|].
  by rewrite app_nil_r.
Qed.

Lemma writeEvent_Ok W id typ from to a o pl s u s' :
  writeEvent W id typ from to a o pl s = (Ok u, s') →
  s' = add_event (mkEvent id typ from to (act_Kind a) (act_ID a) o pl) s.
Proof. unfold writeEvent. intros H%map_err_Ok. unfold InsertEvent in H. repeat split_match_in H; by simplify_eq. Qed.

Lemma lockOwned_Ok id o s m s' :
  lockOwned id o s = (Ok m, s') → s' = s ∧ find_sub (s_ID m) (subs s) = Some m.
Proof.
  unfold lockOwned, loadSub. intros H. split_match_in H; [done|]. apply bind_Ok in H as (? & ? & H0 & H). apply map_err_Ok, gets_Ok in H0 as [-> ->].
  destruct (find_sub id (subs s)) as [x|] eqn:E; [|done].
  destruct (match o with Some _ => _ | None => _ end); [done|]. injection H as -> ->.
  split; [done|]. pose proof E as E2. by apply find_sub_Some in E2 as [_ ->].
Qed.
Lemma lockForAdmin_Ok D id s m s' :
  lockForAdmin D id s = (Ok m, s') → s' = s ∧ find_sub (s_ID m) (subs s) = Some m.
Proof.
  unfold lockForAdmin, rejectDeletedOwner. intros H. apply bind_Ok in H as (? & ? & H0 & H).
  apply bind_Ok in H0 as (? & ? & H1 & H0). apply lockOwned_Ok in H1 as (-> & _).
  apply bind_Ok in H0 as (? & ? & H1 & H0). apply lift_Ok in H1 as [_ ->]. split_match_in H0; [done|]. injection H0 as _ ->. by apply (lockOwned_Ok id None).
Qed.

(** A conditional update of one row. *)
Lemma update_row_view s id r p f j :
  find_sub id (subs s) = Some r → p r = true → (∀ x, p x = true → s_ID x = id) → (∀ x, s_ID (f x) = s_ID x) →
  view (set_subs (update_where p f) s) j =
    if (id =? j)%N then mkView (Some (core_of (f r))) (vw_log (view s j)) (vw_links (view s j)) else view s j.
Proof.
  intros Hm Hp Hi Hf. unfold view, log_of, links_of. simpl. rewrite find_sub_update by done.
  destruct (N.eqb_spec id j) as [<-|Hne].
  - rewrite Hm. simpl. by rewrite Hp.
  - f_equal. destruct (find_sub j (subs s)) as [x|] eqn:E; [|done]. simpl. destruct (p x) eqn:Hpr; [|done].
    apply find_sub_Some in E as [_ E]. apply Hi in Hpr. congruence.
Qed.

Lemma UpdateSubscription_view W id from amount f s b s' r :
  UpdateSubscription W id from amount f s = (Ok b, s') → find_sub id (subs s) = Some r → s_Status r = from →
  (∀ x, s_ID (f x) = s_ID x) →
  ∀ j, view s' j = if (id =? j)%N then mkView (Some (core_of (f r))) (vw_log (view s j)) (vw_links (view s j)) else view s j.
Proof.
  unfold UpdateSubscription. intros H Hm Hst Hf j. set (hit := λ r, (s_ID r =? id)%N && String.eqb (s_Status r) from) in H.
  assert (s' = set_subs (update_where hit f) s) as -> by (repeat split_match_in H; by simplify_eq).
  apply update_row_view; unfold hit; try done.
  - apply find_sub_Some in Hm as [_ ->]. by rewrite Hst, N.eqb_refl, String.eqb_refl.
  - intros x [E _]%andb_true_iff. by apply N.eqb_eq.
Qed.

Lemma transition_view W m to amount cols s u s' r :
  transition W m to amount cols s = (Ok u, s') → find_sub (s_ID m) (subs s) = Some r → s_Status r = s_Status m →
  (∀ x, s_ID (cols x) = s_ID x) →
  ∀ j, view s' j = if (s_ID m =? j)%N
                   then mkView (Some (core_of (set_status to (cols r)))) (vw_log (view s j)) (vw_links (view s j)) else view s j.
Proof.
  unfold transition. intros H Hm Hst Hc. split_match_in H; [done|]. apply bind_Ok in H as (b & s1 & H0 & H). apply map_err_Ok in H0.
  destruct b; [|done]. injection H as _ ->. by eapply (UpdateSubscription_view W _ _ amount (λ r, set_status to (cols r)) s true).
Qed.

Lemma issueCredential_view W m b s u s' :
  issueCredential W m b s = (Ok u, s') →
  ∃ c, c_UserID c = s_UserID m ∧
  ∀ j, view s' j = if (s_ID m =? j)%N then mkView (vw_row (view s j)) (vw_log (view s j)) (vw_links (view s j) ++ [c]) else view s j.
Proof.
  unfold issueCredential. intros H. destruct (Seal W) as [seal|]; [|done]. destruct (seal _ _) as [sealed|]; [|done].
  apply map_err_Ok in H. unfold InsertCredential in H. cbv zeta in H.
  repeat match type of H with (if ?b then _ else _) = _ => destruct b; [discriminate H|] end. injection H as _ <-.
  eexists (mkCred (next_id s) (s_ID m) (s_UserID m) _ _ _ "active" None None None 0). split; [done|].
  intros j. unfold view, links_of, log_of. simpl. rewrite List.filter_app. simpl. unfold active_link at 2. simpl.
  rewrite andb_true_r. destruct (s_ID m =? j)%N; [done|]. by rewrite app_nil_r.
Qed.

(** Revoking empties the links of some subscriptions. *)
Lemma links_revoked (hit : cred_row → bool) f j (b : bool) l :
  (∀ c, c_Status (f c) ≠ "active") → (∀ c, active_link j c = true → hit c = b) →
  List.filter (active_link j) (update_where hit f l) = if b then [] else List.filter (active_link j) l.
Proof.
  intros Hf Hb. assert (Hd : ∀ c, active_link j (f c) = false).
  { intros c. unfold active_link. destruct (String.eqb_spec (c_Status (f c)) "active"); [by edestruct Hf|apply andb_false_r]. }
  induction l as [|c l IH]; simpl; [by destruct b|]. rewrite IH.
  destruct (active_link j c) eqn:Hc; [rewrite (Hb c Hc); destruct b; [by rewrite Hd|by rewrite Hc]|].
  destruct (hit c); [by rewrite Hd|by rewrite Hc].
Qed.
Lemma revoke_view s (hit : cred_row → bool) f j (b : bool) :
  (∀ c, c_Status (f c) ≠ "active") → (∀ c, active_link j c = true → hit c = b) →
  view (set_creds (update_where hit f) s) j = if b then mkView (vw_row (view s j)) (vw_log (view s j)) [] else view s j.
Proof. intros Hf Hb. unfold view, links_of, log_of. simpl. rewrite (links_revoked hit f j b) by done. by destruct b. Qed.

Lemma RevokeActive_view id reason at_ g s u s' :
  RevokeActiveCredentials id reason at_ g s = (Ok u, s') →
  ∀ j, view s' j = if (id =? j)%N then mkView (vw_row (view s j)) (vw_log (view s j)) [] else view s j.
Proof.
  unfold RevokeActiveCredentials. intros [= _ <-] j. apply revoke_view; [done|].
  intros c [E1%N.eqb_eq E2]%andb_true_iff. unfold active_link. by rewrite E1, E2, andb_true_r, N.eqb_sym.
Qed.
Lemma RevokeOnClose_view ids at_ reason s u s' :
  RevokeCredentialsOnClose ids at_ reason s = (Ok u, s') →
  ∀ j, view s' j = if mem j ids then mkView (vw_row (view s j)) (vw_log (view s j)) [] else view s j.
Proof.
  unfold RevokeCredentialsOnClose. intros [= _ <-] j. apply revoke_view; [done|].
  intros c [E1%N.eqb_eq E2]%andb_true_iff. by rewrite E1, E2, andb_true_r.
Qed.

(** * Operations on one subscription *)

(** A step that, when it succeeds, leaves every subscription explained; one
    that does so even when it fails. *)
Definition lasting {A} (W : Env) (m : SM A) : Prop := ∀ s a s', store_ok W s → logged s → m s = (Ok a, s') → logged s'.
Definition durable {A} (W : Env) (m : SM A) : Prop := ∀ s r s', store_ok W s → logged s → m s = (r, s') → logged s'.

Lemma logged_same s s' : logged s → same_view s s' → logged s'.
Proof. intros Hl H i. rewrite (H i). apply Hl. Qed.
Lemma steady_lasting {A} W (m : SM A) : steady m → lasting W m.
Proof. intros Hm s a s' _ Hl H. eapply logged_same; [done|]. by eapply Hm. Qed.

Lemma durable_pure {A} W (f : store → result serr A) : durable W (λ s, (f s, s)).
Proof. by intros s r s' _ Hl [= _ <-]. Qed.
Lemma durable_tx {A} W (m : SM A) : lasting W m → durable W (tx false m).
Proof.
  intros Hm s [a|e] s' Hs Hl H; unfold tx in H; [|apply Do_Err in H; by subst]. apply Do_Ok in H. by eapply Hm.
Qed.
Lemma durable_bind {A B} W (m : SM A) (f : A → SM B) : safe W m → durable W m → (∀ a, durable W (f a)) → durable W (m ≫= f).
Proof.
  intros Hw Hm Hf s r s' Hs Hl H. unfold mbind, M_bind in H. destruct (m s) as [[a|e] s1] eqn:E.
  - eapply Hf; [by eapply Hw|by eapply Hm|exact H].
  - simplify_eq. by eapply Hm.
Qed.

(** The row of [m] becomes [c'], [es] is logged, the links become [ls']. *)
Lemma logged_change s s' m c' es ls' :
  logged s → find_sub (s_ID m) (subs s) = Some m →
  (∀ j, view s' j = if (s_ID m =? j)%N then mkView (Some c') (log_of j s ++ es) ls' else view s j) →
  (∀ l, shows l (core_of m) → linked l (length (links_of (s_ID m) s)) →
     ∃ l', replay l es = Some l' ∧ shows l' c' ∧ linked l' (length ls')) →
  (∀ c, c ∈ ls' → co_User c' = c_UserID c) → logged s'.
Proof.
  intros Hl Hm Hv Hn Ho j. rewrite Hv. destruct (N.eqb_spec (s_ID m) j) as [<-|]; [|apply Hl].
  apply (explained_by (view s (s_ID m)) _ es); [apply Hl|done| |].
  - intros l Hf. unfold view in Hf. simpl in Hf. rewrite Hm in Hf. by apply Hn.
  - intros c Hc. simpl. by rewrite (Ho c Hc).
Qed.

(** The same with the links as they are, one event, and a life that has the
    same number of links. *)
Lemma logged_moves s s' m c' e :
  logged s → find_sub (s_ID m) (subs s) = Some m → co_User c' = s_UserID m →
  (∀ j, view s' j = if (s_ID m =? j)%N then mkView (Some c') (log_of j s ++ [e]) (links_of j s) else view s j) →
  (∀ l, shows l (core_of m) → ∃ l', next l e = Some l' ∧ shows l' c' ∧ ∀ n, linked l n → linked l' n) → logged s'.
Proof.
  intros Hl Hm Hu Hv Hn. apply (logged_change s s' m c' [e] (links_of (s_ID m) s)); [done|done| | |].
  - intros j. rewrite Hv. by destruct (N.eqb_spec (s_ID m) j) as [<-|].
  - intros l H1 H2. destruct (Hn l H1) as (l' & E & H3 & H4). exists l'. simpl. rewrite E. eauto.
  - intros c Hc. pose proof (ex_owner _ (Hl (s_ID m)) c Hc) as H. simpl in H. rewrite Hm in H. simpl in H. congruence.
Qed.

(** ** Events that fit *)

Lemma told_intro types from to e : ev_Type e ∈ types → ev_From e = from → ev_To e = to → told types from to e = true.
Proof. intros H <- <-. unfold told. by rewrite (bool_decide_eq_true_2 _ H), bool_decide_eq_true_2, String.eqb_refl. Qed.
Lemma told_elim types from to e : told types from to e = true → ev_Type e ∈ types ∧ ev_From e = from ∧ ev_To e = to.
Proof. unfold told. rewrite !andb_true_iff, !bool_decide_eq_true, String.eqb_eq. tauto. Qed.
Lemma told_other types from to e : ev_Type e ∉ types → told types from to e = false.
Proof. intros H. unfold told. by rewrite (bool_decide_eq_false_2 _ H). Qed.

Definition prolongs : list string := ["renewed"; "extended"; "plan_changed"].

(** A new end: a renewal, an extension or a change of plan. *)
Lemma next_prolonged l m e t' :
  shows l (core_of m) → s_RenewalClosedAt m = None →
  told prolongs (Some (s_Status m)) "active" e = true ∨
    (told ["renewed"] (Some "expired") "active" e = true ∧ starts_over e = true) →
  time_said "previous_end" e = Some (s_PeriodEnd m) → time_said "period_end" e = Some t' → next l e = Some (Live t').
Proof.
  intros Hl Hc Ht Hp He. destruct l as [|t|t|b]; simpl in Hl; [done| | |destruct Hl as [_ [? Hx]]; congruence];
    destruct Hl as (Hst & <- & _); unfold next.
  - assert (told ["renewed"; "extended"; "plan_changed"; "period_end_set"] (Some "active") "active" e ||
      (told ["renewed"] (Some "expired") "active" e && starts_over e) = true) as ->.
    { destruct Ht as [Ht|[-> ->]]; [|apply orb_true_r]. apply told_elim in Ht as (H1 & H2 & H3). apply orb_true_iff. left.
      apply told_intro; [unfold prolongs in *; set_solver|by rewrite H2, Hst|done]. }
    unfold moved. by rewrite Hp, bool_decide_eq_true_2, He.
  - assert (told ["renewed"; "extended"; "plan_changed"] (Some "expired") "active" e = true) as ->.
    { destruct Ht as [Ht|[Ht _]]; [by rewrite Hst in Ht|]. apply told_elim in Ht as (H1 & H2 & H3).
      apply told_intro; [set_solver|done..]. }
    unfold moved. by rewrite Hp, bool_decide_eq_true_2, He.
Qed.

Lemma live_links l m t' :
  shows l (core_of m) → s_RenewalClosedAt m = None → ∀ n, linked l n → linked (Live t') n.
Proof. destruct l as [| | |b]; simpl; try done. intros [_ [? H]] Hc. congruence. Qed.

Lemma open_row m now : bool_decide (state_of m now = StateEnded) = false → s_RenewalClosedAt m = None.
Proof. intros H%bool_decide_eq_false. unfold state_of, StateAt in H. by destruct (s_RenewalClosedAt m). Qed.

(** ** Taking an operation that succeeded apart *)

(** A steady step, as an equation between views. *)
Ltac by_steady S :=
  match type of S with
  | ?m ?s = (Ok ?a, ?s') =>
      let K := fresh "K" in
      assert (K : steady m) by steady_walk; apply (K s a s' I) in S as [_ S]; unfold same_view in S; clear K
  end.
Ltac first_step S :=
  lazymatch type of S with
  | map_err _ _ _ = _ => apply map_err_Ok in S; first_step S
  | lift _ _ = _ => apply lift_Ok in S as [S ->]
  | gets _ _ = _ => apply gets_Ok in S as [-> ->]
  | lockOwned _ _ _ = _ => apply lockOwned_Ok in S as [-> S]
  | lockForAdmin _ _ _ = _ => apply lockForAdmin_Ok in S as [-> S]
  | writeEvent _ _ _ _ _ _ _ _ _ = _ => apply writeEvent_Ok in S as ->
  | transition _ _ _ _ _ _ = _ => idtac
  | UpdateSubscription _ _ _ _ _ _ = _ => idtac
  | issueCredential _ _ _ _ = _ => idtac
  | RevokeActiveCredentials _ _ _ _ _ = _ => idtac
  | RevokeCredentialsOnClose _ _ _ _ = _ => idtac
  | _ => try by_steady S
  end.
Ltac run H :=
  repeat match type of H with
  | tx _ _ _ = _ => apply Do_Ok in H
  | mbind _ _ _ = _ =>
      let S := fresh "S" in apply bind_Ok in H as (? & ? & S & H); first_step S
  | mret _ _ = _ => injection H as <- <-
  | fail _ _ = _ => discriminate H
  | (if ?b then _ else _) _ = _ => destruct b eqn:?; [discriminate H|]
  | (let '(_, _) := ?x in _) _ = _ => destruct x eqn:?
  end.
(** The view afterwards, computed. *)
Ltac views :=
  intros j;
  repeat first
    [ rewrite add_event_view
    | match goal with H : ∀ j, view ?x j = _ |- context [view ?x _] => rewrite H end ];
  simpl; by destruct (_ =? _)%N.
Ltac still Hl :=
  first [exact Hl | eapply logged_same; [exact Hl|]; intros j;
    repeat match goal with H : ∀ j, view ?x j = _ |- context [view ?x _] => rewrite H end; reflexivity].
Ltac list_in := apply (bool_decide_unpack _); vm_compute; exact I.

(** A transition to active with a new end, and the event that names both ends. *)
Lemma logged_prolong W m amount cols s u s1 s' e :
  transition W m StatusActive amount cols s = (Ok u, s1) → logged s → find_sub (s_ID m) (subs s) = Some m →
  s_RenewalClosedAt m = None →
  (∀ r, s_ID (cols r) = s_ID r ∧ s_UserID (cols r) = s_UserID r ∧ s_RenewalClosedAt (cols r) = s_RenewalClosedAt r) →
  (∀ j, view s' j = if (s_ID m =? j)%N then mkView (vw_row (view s1 j)) (vw_log (view s1 j) ++ [e]) (vw_links (view s1 j))
                    else view s1 j) →
  time_said "previous_end" e = Some (s_PeriodEnd m) → time_said "period_end" e = Some (s_PeriodEnd (cols m)) →
  told prolongs (Some (s_Status m)) "active" e = true ∨
    (told ["renewed"] (Some "expired") "active" e = true ∧ starts_over e = true) → logged s'.
Proof.
  intros HT Hl Hm Hc Hk Hv Hp He Ht. destruct (Hk m) as (_ & Ku & Kc).
  pose proof (transition_view W m _ _ _ _ _ _ _ HT Hm eq_refl (λ r, proj1 (Hk r))) as HV.
  apply (logged_moves s s' m (core_of (set_status StatusActive (cols m))) e); [done|done|done| |].
  - intros j. rewrite Hv, HV. by destruct (s_ID m =? j)%N.
  - intros l Hf. exists (Live (s_PeriodEnd (cols m))). split; [by eapply next_prolonged|].
    split; [|by eapply live_links]. simpl. split_and!; [done|done|congruence].
Qed.

Lemma Renew_lasting W b now i : lasting W (Renew W b now i).
Proof.
  intros s a s' _ Hl H. unfold Renew in H. run H.
  match goal with T : transition W ?m _ _ _ _ = _, E : bool_decide _ = false |- _ =>
    eapply (logged_prolong W m); [exact T|still Hl|done|exact (open_row _ _ E)| |views|done| |] end.
  - intros r. by destruct b0.
  - destruct b0; reflexivity.
  - destruct b0; [right; split; [|done]|left]; (apply told_intro; [list_in|done..]).
Qed.

Lemma Extend_lasting W b now i : lasting W (Extend W b now i).
Proof.
  intros s a s' _ Hl H. unfold Extend in H. run H.
  match goal with T : transition W ?m _ _ _ _ = _, E : bool_decide _ = false |- _ =>
    eapply (logged_prolong W m); [exact T|still Hl|done|exact (open_row _ _ E)| |views|done| |] end.
  - intros r. by destruct b0.
  - generalize (Truncate (AddDate t 0 0 (ex_Days i)) Microsecond). intros e. by destruct b0.
  - left. apply told_intro; [list_in|done..].
Qed.

Lemma Stack_lasting W b wall now i : lasting W (Stack W b wall now i).
Proof.
  intros s a s' _ Hl H. unfold Stack in H. run H.
  match goal with T : transition W ?m _ _ _ _ = _, E : bool_decide _ = false |- _ =>
    eapply (logged_prolong W m); [exact T|still Hl|done|exact (open_row _ _ E)|done|views|done|done|] end.
  left. apply told_intro; [list_in|done..].
Qed.

Lemma ChangePlan_lasting W b now i : lasting W (ChangePlan W b now i).
Proof.
  intros s a s' _ Hl H. unfold ChangePlan in H. run H.
  match goal with T : transition W ?m _ _ _ _ = _, E : bool_decide _ = false |- _ =>
    eapply (logged_prolong W m); [exact T|still Hl|done|exact (open_row _ _ E)|done|views|done|done|] end.
  left. apply told_intro; [list_in|done..].
Qed.

(** ** A new subscription *)

Lemma unborn_view W s i : store_ok W s → logged s → (next_id s ≤ i)%N → view s i = mkView None [] [].
Proof.
  intros Hs Hl Hi. assert (Hf : find_sub i (subs s) = None).
  { destruct (find_sub i (subs s)) as [r|] eqn:E; [|done]. apply find_sub_Some in E as [Hr E].
    pose proof (proj1 (Forall_forall _ _) (so_fresh _ _ Hs) r Hr) as H. simpl in H. lia. }
  destruct (Hl i) as [(l & H1 & H2 & H3) _]. unfold view in *. simpl in *. rewrite Hf in *. simpl in *. subst l.
  apply replay_born in H1 as [-> |]; [|done]. simpl in H3. by destruct (links_of i s).
Qed.

Lemma CreateSubscription_view W proxy mk s m s' :
  store_ok W s → logged s → (∀ id uid, s_ID (mk id uid) = id) → CreateSubscription W proxy mk s = (Ok m, s') →
  m = mk (next_id s) (next_uid s) ∧
  ∀ j, view s' j = if (s_ID m =? j)%N then mkView (Some (core_of m)) [] [] else view s j.
Proof.
  intros Hs Hl Hk H. unfold CreateSubscription in H. set (r := mk (next_id s) (next_uid s)) in *. cbv zeta in H.
  destruct (Check _); [|done]. destruct (write_sub W r); [|done]. destruct (existsb _ _); [done|]. injection H as <- <-.
  split; [done|]. intros j. pose proof (unborn_view W s (s_ID r) Hs Hl) as Hu. assert (Hr : s_ID r = next_id s) by apply Hk. rewrite Hr in *.
  destruct (N.eqb_spec (next_id s) j) as [<-|Hne].
  - specialize (Hu ltac:(lia)). unfold view, log_of, links_of in *. simpl. injection Hu as H1 -> ->. f_equal.
    unfold find_sub in *. rewrite find_app. destruct (List.find _ (subs s)); [done|]. simpl. by rewrite Hr, N.eqb_refl.
  - unfold view, log_of, links_of. simpl. f_equal. unfold find_sub. rewrite find_app. destruct (List.find _ (subs s)); [done|].
    simpl. rewrite Hr. by destruct (N.eqb_spec (next_id s) j).
Qed.

Lemma provisionLabel_view W m label s m' s' :
  provisionLabel W m label s = (Ok m', s') → s_ID m' = s_ID m ∧ s_UserID m' = s_UserID m ∧ ∀ j, view s' j = view s j.
Proof.
  unfold provisionLabel. intros H. apply bind_Ok in H as (l & s1 & S & H). by_steady S. injection H as <- <-.
  split_and!; [by destruct l..|done].
Qed.

Lemma provisionAt_lasting W b proxy token i v label start end_ extra :
  lasting W (provisionAt W b proxy token i v label start end_ extra).
Proof.
  intros s a s' Hs Hl H. unfold provisionAt in H. run H.
  apply (CreateSubscription_view W _ _ _ _ _ Hs Hl) in S as [Em V0]; [|done].
  assert (HN : s_ID x3 = s_ID x ∧ s_UserID x3 = s_UserID x ∧ ∀ j, view x4 j = view x2 j).
  { destruct (String.eqb label ""); [by injection S1 as <- <-|by apply provisionLabel_view in S1]. }
  destruct HN as (Ei & Eu & V1). apply issueCredential_view in S2 as (c & Hc & V2).
  set (e := mkEvent _ _ _ _ _ _ _ _) in *.
  assert (Hv : ∀ j, view x9 j = if (s_ID x =? j)%N then mkView (Some (core_of x)) [e] [c] else view s j).
  { intros j. rewrite S3, add_event_view, V2, V1, S0, V0. unfold e at 1. cbn [ev_SubscriptionID]. rewrite Ei.
    by destruct (s_ID x =? j)%N. }
  intros j. rewrite Hv. destruct (N.eqb_spec (s_ID x) j) as [<-|]; [|apply Hl]. split; simpl.
  - exists (Live end_). split; [done|by rewrite Em].
  - intros c' ->%list_elem_of_singleton. by rewrite Hc, Eu.
Qed.

Lemma lasting_bind {A B} W (m : SM A) (f : A → SM B) : safe W m → lasting W m → (∀ a, lasting W (f a)) → lasting W (m ≫= f).
Proof.
  intros Hw Hm Hf s r s' Hs Hl H. apply bind_Ok in H as (a & s1 & H1 & H). eapply Hf; [by eapply Hw|by eapply Hm|exact H].
Qed.

Lemma lasting_tx {A} W b (m : SM A) : lasting W m → lasting W (tx b m).
Proof. intros Hm s a s' Hs Hl H. apply Do_Ok in H. by eapply Hm. Qed.

Lemma GrantSignupTrial_lasting W b now proxy token u p h : lasting W (GrantSignupTrial W b now proxy token u p h).
Proof.
  unfold GrantSignupTrial. apply lasting_tx.
  repeat match goal with
    | |- lasting _ (mbind _ (provisionAt _ _ _ _ _ _ _ _ _ _)) =>
        apply (lasting_bind W); [apply provisionAt_safe|apply provisionAt_lasting|intros ?]
    | |- lasting _ _ => solve [apply steady_lasting; steady_walk]
    | |- lasting _ (mbind _ _) => apply lasting_bind; [safe_walk|apply steady_lasting; steady_walk|intros ?]
    | |- lasting _ (match ?x with _ => _ end) => destruct x
    | _ => progress cbv zeta
    end.
Qed.

(** ** Links, limits and ends by hand *)

Lemma next_neutral l m e typ :
  shows l (core_of m) → typ = "link_rotated" ∨ typ = "quota_limit_set" ∧ s_RenewalClosedAt m = None →
  ev_Type e = typ → ev_From e = Some (s_Status m) → ev_To e = s_Status m →
  ∃ l', next l e = Some l' ∧ shows l' (core_of m) ∧ (∀ n, linked l n → linked l' n) ∧ linked l' 1.
Proof.
  intros Hl Ht Et Ef Eto. destruct l as [|t|t|b]; simpl in Hl; [done|..]; destruct Hl as (Hst & Hr).
  - exists (Live t). split; [|done]. unfold next.
    rewrite (told_other [_; _; _; _]), (told_other ["renewed"]), (told_other ["expired"]), told_intro; rewrite ?Et, ?Ef, ?Eto, ?Hst; try done.
    all: try (destruct Ht as [-> |[-> _]]; list_in).
  - exists (Lapsed t). split; [|done]. unfold next.
    rewrite (told_other [_; _; _]), (told_other ["renewal_closed"]), told_intro; rewrite ?Et, ?Ef, ?Eto, ?Hst; try done.
    all: try (destruct Ht as [-> |[-> _]]; list_in).
  - destruct Ht as [-> |[_ Hc]]; [|destruct Hr as [? Hr]; congruence]. exists (Closed true). split; [|split; [done|split; [|simpl; lia]]].
    + unfold next. rewrite told_intro; [done|rewrite Et; list_in|by rewrite Ef, Hst|by rewrite Eto, Hst].
    + intros n. destruct b; simpl; lia.
Qed.

Lemma rotateLocked_logged W now proxy token m a src s u s' :
  logged s → find_sub (s_ID m) (subs s) = Some m → rotateLocked W now proxy token m a src s = (Ok u, s') → logged s'.
Proof.
  intros Hl Hm H. unfold rotateLocked in H. run H. by_steady H.
  pose proof (RevokeActive_view _ _ _ _ _ _ _ S) as V0. clear S. apply issueCredential_view in S0 as (c & Hc & V).
  set (e := mkEvent _ _ _ _ _ _ _ _) in *.
  apply (logged_change s s' m (core_of m) [e] [c]); [done|done| | |].
  - intros j. rewrite H, add_event_view, S1, V, V0. unfold e at 1. simpl. unfold view. simpl.
    destruct (N.eqb_spec (s_ID m) j) as [<-|]; [by rewrite Hm|done].
  - intros l Hf _. destruct (next_neutral l m e "link_rotated") as (l' & H1 & H2 & _ & H4); try done; [by left|].
    exists l'. simpl. by rewrite H1.
  - intros c' ->%list_elem_of_singleton. by rewrite Hc.
Qed.

(** Walks an operation down to its transactions. *)
Ltac durable_walk :=
  repeat match goal with
    | |- ∀ _, _ => intro
    | |- durable _ (lift ?r) => exact (durable_pure _ (λ _, r))
    | |- durable _ (mret ?a) => exact (durable_pure _ (λ _, Ok a))
    | |- durable _ (fail ?e) => exact (durable_pure _ (λ _, Err e))
    | |- durable _ (tx false _) => apply durable_tx
    | |- durable _ (mbind _ _) => apply durable_bind
    | |- safe _ (lift _) => apply safe_lift
    | |- durable _ (let _ := _ in _) => cbv zeta
    | |- durable _ (match ?x with _ => _ end) => destruct x eqn:?
    end.

Lemma MyRotate_durable W D who now1 now2 proxy token id : durable W (MyRotate W D false who now1 now2 proxy token id).
Proof.
  unfold MyRotate. durable_walk.
  - unfold lockOwned, ActiveCredential. safe_walk; apply rotateLocked_safe.
  - intros s x s' _ Hl H. unfold ActiveCredential in H. run H.
    match goal with R : rotateLocked _ _ _ _ _ _ _ _ = _ |- _ => apply (rotateLocked_logged _ _ _ _ _ _ _ _ _ _ Hl) in R as Hr; [|done] end.
    destruct (List.find _ _) as [c|]; [|done]. destruct (dk_Open D _ _); [|done]. injection H as _ <-. still Hr.
Qed.

Lemma AdminRotate_durable W D who now1 now2 proxy token id r : durable W (AdminRotate W D false who now1 now2 proxy token id r).
Proof.
  unfold AdminRotate. durable_walk.
  - safe_walk; auto using lockForAdmin_safe, rotateLocked_safe.
  - intros s x s' _ Hl H. run H.
    match goal with R : rotateLocked _ _ _ _ _ _ _ _ = _ |- _ => apply (rotateLocked_logged _ _ _ _ _ _ _ _ _ _ Hl) in R as Hr; [|done] end.
    still Hr.
Qed.

Lemma AdminSetPeriodEnd_durable W D who now id e r : durable W (AdminSetPeriodEnd W D false who now id e r).
Proof.
  unfold AdminSetPeriodEnd. durable_walk. intros s x s' _ Hl H. run H.
  match goal with U : UpdateSubscription _ _ _ _ _ _ = _, E : negb (bool_decide _) = false |- _ =>
    pose proof (UpdateSubscription_view _ _ _ _ _ _ _ _ _ U ltac:(done) eq_refl ltac:(done)) as V;
    apply negb_false_iff, bool_decide_eq_true in E; rename E into Hlive end.
  assert (Hst : s_Status x0 = StatusActive) by (by eapply live_active).
  eapply (logged_moves s _ x0 (core_of (set_end (Truncate e Microsecond) x0))); [done|done|done|views|].
  intros l Hf. exists (Live (Truncate e Microsecond)). destruct l as [|t|t|b0]; simpl in Hf; [done| | |];
    destruct Hf as (Hs & Hr); [|by rewrite Hst in Hs..]. destruct Hr as [<- Hr]. split; [|done].
  unfold next. rewrite (told_intro [_; _; _; _]); [|list_in|by rewrite Hst|done]. simpl. unfold moved.
  by rewrite bool_decide_eq_true_2.
Qed.

Lemma AdminSetQuotaLimit_durable W D who now id m p l r : durable W (AdminSetQuotaLimit W D false who now id m p l r).
Proof.
  unfold AdminSetQuotaLimit. durable_walk. intros s x s' _ Hl H. run H.
  destruct (List.find _ _) as [q|]; [|done]. run H. by_steady H.
  match goal with E : bool_decide _ = false |- _ => apply open_row in E; rename E into Hc end.
  eapply (logged_moves s _ x0 (core_of x0)); [done|done|done| |].
  - intros j. rewrite H, add_event_view. cbn [ev_SubscriptionID]. repeat match goal with V : ∀ j, view ?x j = _ |- context [view ?x _] => rewrite V end.
    unfold view. simpl. destruct (N.eqb_spec (s_ID x0) j) as [<-|]; [|done].
    match goal with F : find_sub _ _ = _ |- _ => by rewrite F end.
  - intros lf Hf. edestruct (next_neutral lf x0) as (l' & H1 & H2 & H3 & _); [done|right; split; [reflexivity|done]|..].
    4: { exists l'. split; [exact H1|done]. } all: done.
Qed.

Lemma AdminExtend_durable W D who now id n r : durable W (AdminExtend W D false who now id n r).
Proof.
  unfold AdminExtend. durable_walk.
  apply lasting_bind; [apply rejectDeletedOwner_safe|apply steady_lasting; steady_walk|intros _].
  apply lasting_bind; [apply Extend_safe|apply Extend_lasting|intros res]. apply steady_lasting. steady_walk.
Qed.

(** * The sweep *)

Lemma events_of_rows (ev : sub_row → event_row) rows j :
  (∀ r, ev_SubscriptionID (ev r) = s_ID r) → NoDup (map s_ID rows) →
  List.filter (λ e, (ev_SubscriptionID e =? j)%N) (map ev rows) = match find_sub j rows with Some r => [ev r] | None => [] end.
Proof.
  intros He. unfold find_sub. induction rows as [|r rows IH]; simpl; intros Hn; [done|]. apply NoDup_cons in Hn as [Hr Hn].
  rewrite He, IH by done. destruct (N.eqb_spec (s_ID r) j) as [<-|]; [|done].
  destruct (List.find _ rows) as [x|] eqn:E; [|done]. exfalso. apply (find_sub_Some (s_ID r)) in E as [Hx E]. apply Hr.
  rewrite <- E. by apply list_elem_of_fmap_2.
Qed.

Lemma find_row_mem j rows : mem j (map s_ID rows) = match find_sub j rows with Some _ => true | None => false end.
Proof.
  unfold find_sub. induction rows as [|r rows IH]; simpl; [done|]. rewrite IH, N.eqb_sym. by destruct (s_ID r =? j)%N.
Qed.

(** A batch: some rows rewritten, one event each, their links gone or not. *)
Lemma logged_batch W s s' rows f ev (gone : bool) :
  store_ok W s → logged s → NoDup (map s_ID rows) → (∀ r, r ∈ rows → r ∈ subs s) →
  (∀ r, s_ID (f r) = s_ID r ∧ s_UserID (f r) = s_UserID r ∧ ev_SubscriptionID (ev r) = s_ID r) →
  subs s' = upd_subs f (map s_ID rows) (subs s) → events s' = (events s ++ map ev rows)%list →
  (∀ j, links_of j s' = if gone && mem j (map s_ID rows) then [] else links_of j s) →
  (∀ r l, r ∈ rows → shows l (core_of r) → ∃ l', next l (ev r) = Some l' ∧ shows l' (core_of (f r)) ∧
     ∀ n, linked l n → linked l' (if gone then 0%nat else n)) → logged s'.
Proof.
  intros Hs Hl Hn Hin Hk Es Ee El Hx j.
  assert (Hv : view s' j = match find_sub j rows with
                           | Some r => mkView (Some (core_of (f r))) (log_of j s ++ [ev r]) (if gone then [] else links_of j s)
                           | None => view s j end).
  { unfold view, log_of. rewrite El, Ee, List.filter_app, events_of_rows by (done || intros; apply Hk).
    assert (E : find_sub j (subs s') = (λ r, if mem (s_ID r) (map s_ID rows) then f r else r) <$> find_sub j (subs s)).
    { rewrite Es. apply (find_sub_update j (λ r, mem (s_ID r) (map s_ID rows)) f). intros r. apply Hk. }
    rewrite E, find_row_mem. destruct (find_sub j rows) as [r|] eqn:Er.
    - pose proof (find_sub_Some _ _ _ Er) as [Hr <-]. rewrite (find_sub_eq W) by auto. simpl. rewrite find_row_mem, Er, andb_true_r. done.
    - rewrite app_nil_r, andb_false_r. f_equal. destruct (find_sub j (subs s)) as [x|] eqn:Ex; [|done]. simpl.
      apply find_sub_Some in Ex as [_ <-]. by rewrite find_row_mem, Er. }
  rewrite Hv. destruct (find_sub j rows) as [r|] eqn:Er; [|apply Hl]. apply find_sub_Some in Er as [Hr <-].
  pose proof (find_sub_eq W s r Hs (Hin r Hr)) as Hf.
  apply (explained_by (view s (s_ID r)) _ [ev r]); [apply Hl|done| |].
  - intros l H1 H2. unfold view in H1. simpl in H1. rewrite Hf in H1. destruct (Hx r l Hr H1) as (l' & E1 & E2 & E3).
    exists l'. simpl. rewrite E1. split_and!; [done..|]. specialize (E3 _ H2). simpl in E3. by destruct gone.
  - intros c Hc. simpl in *. assert (Hc' : c ∈ links_of (s_ID r) s) by (destruct gone; [by apply elem_of_nil in Hc|done]).
    pose proof (ex_owner _ (Hl (s_ID r)) c Hc') as Ho. simpl in Ho. rewrite Hf in Ho. simpl in Ho.
    destruct (Hk r) as (_ & -> & _). done.
Qed.

Lemma expireBatch_durable W locked now : durable W (expireBatch W locked now).
Proof.
  intros s r s' Hs Hl H. destruct (expire_batch_run W locked now s Hs) as (ids & s1 & E & E1 & (_ & E2 & _) & E3).
  set (rows := select_due (expiry_due now) locked expireBatchSize (subs s)) in *. rewrite H in E.
  destruct (emitExpired W rows ids s).1; simplify_eq; [|done].
  assert (Hin : ∀ x, x ∈ rows → x ∈ subs s ∧ s_Status x = StatusActive).
  { intros x [Hx Hd%free_due]%select_due_in. split; [done|]. apply andb_true_iff in Hd as [Hd _]. by apply String.eqb_eq. }
  apply (logged_batch W s _ rows (set_status StatusExpired) expired_event false); try done.
  - by apply select_due_NoDup, Hs.
  - intros x Hx. by apply Hin.
  - intros j. unfold links_of. by rewrite E2.
  - intros x l Hx Hf. destruct (Hin x Hx) as [_ Hst]. destruct l as [|t|t|b]; simpl in Hf; [done| |by destruct Hf as (Hq & _); rewrite Hst in Hq..].
    destruct Hf as (_ & <- & Hc). exists (Lapsed (s_PeriodEnd x)). split; [|done]. unfold next.
    rewrite (told_other [_; _; _; _]), (told_other ["renewed"]), told_intro by (done || list_in). simpl.
    unfold names_end. by rewrite bool_decide_eq_true_2.
Qed.

Lemma closeBatch_durable W locked now : durable W (closeBatch W locked now).
Proof.
  intros s r s' Hs Hl H. destruct (close_batch_eq W locked now s Hs) as (s1 & E & E1 & E2 & _ & E3). rewrite H in E. simplify_eq.
  set (rows := select_due _ locked expireBatchSize (subs s)) in *.
  assert (Hin : ∀ x, x ∈ rows → x ∈ subs s ∧ s_Status x = StatusExpired ∧ s_RenewalClosedAt x = None).
  { intros x [Hx Hd%free_due]%select_due_in. apply close_due_facts in Hd as (? & ? & _). done. }
  apply (logged_batch W s _ rows (set_closed (Some now)) (λ x, closed_event (live_count [s_ID x] (creds s)) x) true); try done.
  - by apply select_due_NoDup, Hs.
  - intros x Hx. by apply Hin.
  - intros j. unfold links_of. rewrite E2. simpl. apply (links_revoked (live_link (map s_ID rows)) (λ c,
      mkCred (c_ID c) (c_SubscriptionID c) (c_UserID c) (c_TokenHash c) (c_TokenPrefix c) (c_TokenEncrypted c)
        "revoked" (Some now) (Some RevokedRenewalClosed) (c_GraceUntil c) (c_RotatedCount c))); [done|].
    intros c [Ec%N.eqb_eq Ea]%andb_true_iff. unfold live_link. by rewrite Ec, Ea, andb_true_r.
  - intros x l Hx Hf. destruct (Hin x Hx) as (_ & Hst & Hc). destruct l as [|t|t|b]; simpl in Hf; [done| | |].
    + destruct Hf as (Hq & _). by rewrite Hst in Hq.
    + exists (Closed false). split; [|split; [split; [done|by eexists]|done]]. unfold next.
      by rewrite (told_other [_; _; _]), told_intro by (done || list_in).
    + destruct Hf as (_ & [t Ht]). congruence.
Qed.

Lemma ExpireDue_durable W l1 l2 c1 c2 : durable W (ExpireDue W l1 l2 c1 c2).
Proof.
  assert (He : ∀ k n e, durable W (expire_loop W l1 c1 k n e) ∧ safe W (expire_loop W l1 c1 k n e)).
  { induction k as [|k IH]; intros n e; simpl; (split; [durable_walk|safe_walk]); try apply IH;
      auto using expireBatch_durable, expireBatch_safe. }
  assert (Hc : ∀ k n a b, durable W (close_loop W l2 c2 k n a b) ∧ safe W (close_loop W l2 c2 k n a b)).
  { induction k as [|k IH]; intros n a b; simpl; (split; [durable_walk|safe_walk]); try apply IH;
      auto using closeBatch_durable, closeBatch_safe. }
  unfold ExpireDue. durable_walk; try apply He; apply Hc.
Qed.

(** * Closing an account *)

(** A loop each turn of which changes one subscription's view. *)
Lemma for_each_view {A} (f : A → SM ()) (key : A → uuid) (g : A → sview → sview) l s s' :
  (∀ x s1 s2, x ∈ l → view s1 (key x) = view s (key x) → f x s1 = (Ok (), s2) →
     ∀ j, view s2 j = if (key x =? j)%N then g x (view s1 j) else view s1 j) →
  NoDup (map key l) → for_each f l s = (Ok (), s') →
  ∀ j, view s' j = match List.find (λ x, (key x =? j)%N) l with Some x => g x (view s j) | None => view s j end.
Proof.
  intros Hf Hn H. assert (Hgen : ∀ l' s0, (∀ x, x ∈ l' → x ∈ l) → NoDup (map key l') →
    (∀ x, x ∈ l' → view s0 (key x) = view s (key x)) → for_each f l' s0 = (Ok (), s') →
    ∀ j, view s' j = match List.find (λ x, (key x =? j)%N) l' with Some x => g x (view s0 j) | None => view s0 j end);
    [|apply Hgen; auto].
  clear H Hn. induction l' as [|x l' IH]; intros s0 Hl Hn Hv H j; simpl in *; [by injection H as <-|].
  apply bind_Ok in H as ([] & s1 & H1 & H). apply NoDup_cons in Hn as [Hx Hn].
  pose proof (Hf x s0 s1 ltac:(apply Hl; constructor) ltac:(apply Hv; constructor) H1) as V.
  assert (Hother : ∀ y, y ∈ l' → key y ≠ key x).
  { intros y Hy E. apply Hx. rewrite <- E. by apply list_elem_of_fmap_2. }
  rewrite (IH s1); [|intros; apply Hl; by constructor|done| |done].
  - rewrite V. destruct (N.eqb_spec (key x) j) as [<-|]; [|done].
    destruct (List.find _ l') as [y|] eqn:E; [|done]. apply find_some in E as [Hy%list_elem_of_In E%N.eqb_eq].
    by apply Hother in Hy.
  - intros y Hy. rewrite V. destruct (N.eqb_spec (key x) (key y)) as [E|]; [by apply Hother in Hy|]. apply Hv. by constructor.
Qed.

Definition ended_by (actor : Actor) (m : sub_row) : event_row :=
  mkEvent (s_ID m) EventExpired (Some StatusActive) StatusExpired (act_Kind actor) (act_ID actor) None
    [("reason", PStr "account_deleted"); ("previous_end", PTime (s_PeriodEnd m))].
Definition closed_by (actor : Actor) (id : uuid) : event_row :=
  mkEvent id EventRenewalClosed (Some StatusExpired) StatusExpired (act_Kind actor) (act_ID actor) None
    [("reason", PStr "account_deleted")].

(** What ending shows of the row [m]. *)
Definition ended_view (actor : Actor) (now : Time) (m : sub_row) (v : sview) : sview :=
  if String.eqb (s_Status m) StatusActive
  then mkView (Some (core_of (end_row now m))) (vw_log v ++ [ended_by actor m]) (vw_links v) else v.

Lemma close_active_view W actor now m s u s' :
  vw_row (view s (s_ID m)) = Some (core_of m) → close_active W actor now m s = (Ok u, s') →
  ∀ j, view s' j = if (s_ID m =? j)%N then ended_view actor now m (view s j) else view s j.
Proof.
  intros Hm H j. unfold close_active in H. unfold ended_view, end_row. destruct (String.eqb_spec (s_Status m) StatusActive) as [Ea|].
  2: { injection H as _ <-. by destruct (_ =? _)%N. }
  cbv zeta in H. apply bind_Ok in H as (? & s1 & T & H). apply writeEvent_Ok in H as ->.
  simpl in Hm. destruct (find_sub (s_ID m) (subs s)) as [r|] eqn:Hr; [|done]. simpl in Hm. injection Hm as E1 E2 E3 E4.
  set (c := After (s_PeriodEnd m) now && After now (s_PeriodStart m)) in *.
  pose proof (transition_view W m _ _ _ _ _ _ _ T Hr E2 ltac:(intros ?; by destruct c)) as V.
  rewrite add_event_view, V. cbn [ev_SubscriptionID]. destruct (s_ID m =? j)%N; [|done]. simpl. unfold ended_by. f_equal. f_equal.
  unfold cut_end. fold c. destruct c; unfold core_of; simpl; by rewrite E1, ?E3, E4.
Qed.

(** The account's windows close: [ids] are the rows that were open. *)
Lemma close_windows_view W actor open now s ids s1 s2 :
  store_ok W s → CloseRenewalWindows W open now s = (Ok ids, s1) →
  for_each (λ id, writeEvent W id EventRenewalClosed (Some StatusExpired) StatusExpired actor None
                    [("reason", PStr "account_deleted")]) ids s1 = (Ok (), s2) →
  ∀ j, view s2 j =
    match vw_row (view s j) with
    | Some c => if mem j open && String.eqb (co_Status c) StatusExpired && bool_decide (co_Closed c = None)
                then mkView (Some (mkCore (co_User c) (co_Status c) (co_End c) (Some now)))
                       (vw_log (view s j) ++ [closed_by actor j]) (vw_links (view s j))
                else view s j
    | None => view s j
    end.
Proof.
  intros Hs H H2 j. unfold CloseRenewalWindows, update_returning in H. split_match_in H; [|done]. injection H as <- <-.
  set (p := λ r, mem (s_ID r) open && String.eqb (s_Status r) StatusExpired && bool_decide (s_RenewalClosedAt r = None)) in *.
  assert (Hn : NoDup (map s_ID (List.filter p (subs s)))).
  { eapply sublist_NoDup; [apply (so_ids _ _ Hs)|]. apply (fmap_sublist s_ID), filter_sublist. }
  pose proof (for_each_view _ id (λ i v, mkView (vw_row v) (vw_log v ++ [closed_by actor i]) (vw_links v)) _ _ _
    ltac:(intros ? ? ? _ _ Hx k; apply writeEvent_Ok in Hx as ->; by rewrite add_event_view) ltac:(by rewrite map_id) H2) as V.
  clear H2. specialize (V j). set (s1 := set_subs _ s) in *.
  assert (Hv : view s1 j = mkView ((λ r, core_of (if p r then set_closed (Some now) r else r)) <$> find_sub j (subs s))
                 (vw_log (view s j)) (vw_links (view s j))).
  { unfold view, s1, log_of, links_of. simpl. rewrite find_sub_update by done. by destruct (find_sub j (subs s)). }
  rewrite Hv in V. rewrite V. unfold view at 1 2. simpl. destruct (find_sub j (subs s)) as [r|] eqn:Er; simpl.
  - apply find_sub_Some in Er as [Hr Ej]. fold (p r). assert (Ep : mem j open && String.eqb (s_Status r) StatusExpired &&
      bool_decide (s_RenewalClosedAt r = None) = p r) by (unfold p; by rewrite Ej). rewrite Ep.
    assert (Hfind : List.find (λ x, (x =? j)%N) (map s_ID (List.filter p (subs s))) = if p r then Some j else None).
    { destruct (p r) eqn:E.
      - destruct (List.find _ _) as [x|] eqn:Ex; [apply find_some in Ex as [_ Ex%N.eqb_eq]; unfold id in Ex; congruence|].
        eapply find_none in Ex; [|apply list_elem_of_In, (list_elem_of_fmap_2 s_ID); by apply elem_of_filter_bool].
        by rewrite Ej, N.eqb_refl in Ex.
      - destruct (List.find _ _) as [x|] eqn:Ex; [|done]. apply find_some in Ex as [Hx%list_elem_of_In Ex%N.eqb_eq]. unfold id in Ex. subst x.
        apply list_elem_of_fmap in Hx as (y & Ey & [Hy1 Hy2]%elem_of_filter_bool).
        assert (y = r) as -> by (eapply (NoDup_map_inj s_ID); [apply Hs|done..|congruence]). congruence. }
    unfold id in *. rewrite Hfind. destruct (p r); [done|]. unfold view. by rewrite <- Ej, (find_sub_eq W).
  - destruct (List.find _ _) as [x|] eqn:Ex; [|unfold view; by rewrite Er].
    exfalso. apply find_some in Ex as [Hx%list_elem_of_In Ex%N.eqb_eq]. unfold id in Ex. subst x.
    apply list_elem_of_fmap in Hx as (y & -> & [_ Hy]%elem_of_filter_bool). by rewrite (find_sub_eq W) in Er.
Qed.

(** Ending and closing one subscription, as its life. *)
Lemma closed_life actor now m l n t :
  shows l (core_of m) → linked l n →
  let ended := if String.eqb (s_Status m) StatusActive then [ended_by actor m] else [] in
  if bool_decide (s_RenewalClosedAt m = None)
  then ∃ l', replay l (ended ++ [closed_by actor (s_ID m)]) = Some l' ∧
         shows l' (mkCore (s_UserID m) StatusExpired (s_PeriodEnd (end_row now m)) (Some t)) ∧ linked l' 0
  else ended = [] ∧ linked l 0.
Proof.
  intros Hf Hn. case_bool_decide as Hc.
  - exists (Closed false). split; [|split; [split; [done|by eexists]|done]].
    destruct l as [|u|u|b]; simpl in Hf; [done| | |destruct Hf as [_ [? ?]]; congruence]; destruct Hf as (Hst & <- & _); rewrite Hst; simpl.
    + assert (next (Live (s_PeriodEnd m)) (ended_by actor m) = Some (Lapsed (s_PeriodEnd m))) as ->; [|done].
      unfold next. rewrite (told_other [_; _; _; _]), (told_other ["renewed"]), told_intro by (done || list_in). simpl.
      unfold names_end. by rewrite (bool_decide_eq_true_2 (time_said "previous_end" _ = _)), orb_true_r.
    + done.
  - destruct l as [|u|u|b]; simpl in Hf; [done|by destruct Hf as (_ & _ & ?)..|]. destruct Hf as (Hst & _). rewrite Hst.
    split; [done|]. destruct b; simpl in *; lia.
Qed.

Lemma CloseUserSubscriptions_lasting W b actor now u : lasting W (CloseUserSubscriptions W b actor now u).
Proof.
  intros s a s' Hs Hl H. unfold CloseUserSubscriptions in H. apply Do_Ok in H.
  apply bind_Ok in H as (rows0 & s0 & S & H). apply map_err_Ok, gets_Ok in S as [-> ->]. rewrite rows_of_user in H.
  set (rows := List.filter (owned u) (subs s)) in *. destruct (decide (rows = [])) as [E|E]; [rewrite E in H; by injection H as _ <-|].
  rewrite (nonempty_match rows) in H by done.
  assert (Hrows : ∀ m, m ∈ rows → m ∈ subs s ∧ s_UserID m = u).
  { intros m [Ho Hm]%elem_of_filter_bool. split; [done|]. by apply N.eqb_eq. }
  assert (Hn : NoDup (map s_ID rows)) by (eapply sublist_NoDup; [apply (so_ids _ _ Hs)|apply (fmap_sublist s_ID), filter_sublist]).
  rewrite (bind_eq _ _ _ rows s (lock_all_eq W u rows s Hs Hrows)) in H. cbv zeta in H.
  apply bind_Ok in H as ([] & s1 & H1 & H). apply bind_Ok in H as (ids & s2 & H2 & H). apply map_err_Ok in H2.
  apply bind_Ok in H as ([] & s3 & H3 & H). apply bind_Ok in H as (revoked & s4 & H4 & H). apply map_err_Ok in H4.
  by_steady H. pose proof (RevokeOnClose_view _ _ _ _ _ _ H4) as V4.
  assert (Hs1 : store_ok W s1) by (eapply (for_each_safe W (close_active W actor now)); [|exact Hs|exact H1]; intros; apply close_active_safe).
  pose proof (close_windows_view W actor _ now s1 ids s2 s3 Hs1 H2 H3) as V3.
  assert (V1 := for_each_view (close_active W actor now) s_ID (ended_view actor now) rows s s1
    ltac:(intros m a1 a2 Hm Ev Hc; apply (close_active_view W actor now m a1 () a2); [|exact Hc]; rewrite Ev; simpl;
          rewrite (find_sub_eq W) by (done || by apply Hrows); done) Hn H1).
  clear H1 H2 H3 H4 Hs1. intros j. rewrite H, V4, V3, find_row_mem. specialize (V1 j). fold (find_sub j rows) in V1.
  set (open := map s_ID (List.filter _ rows)).
  destruct (find_sub j rows) as [m|] eqn:Ej.
  - apply find_sub_Some in Ej as [Hm <-]. destruct (Hrows m Hm) as [Hms Hu]. pose proof (find_sub_eq W s m Hs Hms) as Hf.
    assert (Eo : mem (s_ID m) open = bool_decide (s_RenewalClosedAt m = None)).
    { unfold open, rows. rewrite filter_filter, (mem_selected W) by done. unfold owned. by rewrite Hu, N.eqb_refl. }
    set (ended := if String.eqb (s_Status m) StatusActive then [ended_by actor m] else []).
    assert (Hv : view s1 (s_ID m) = mkView (Some (core_of (end_row now m))) (log_of (s_ID m) s ++ ended) (links_of (s_ID m) s)).
    { rewrite V1. unfold ended_view, ended, end_row. destruct (String.eqb _ _); [done|]. unfold view. by rewrite Hf, app_nil_r. }
    rewrite Hv. cbn [vw_row vw_log vw_links]. rewrite Eo. cbn [core_of co_Status co_Closed co_User co_End].
    rewrite (end_row_expired W s), end_row_closed, end_row_user by done. change (String.eqb StatusExpired StatusExpired) with true.
    rewrite andb_true_r, andb_diag.
    destruct (ex_life _ (Hl (s_ID m))) as (l & L1 & L2 & L3). simpl in L1, L2, L3. rewrite Hf in L2. simpl in L2.
    pose proof (closed_life actor now m l _ now L2 L3) as Hlife. cbv zeta in Hlife. fold ended in Hlife.
    case_bool_decide as Hc.
    + destruct Hlife as (l' & R1 & R2 & R3). split; [|intros c Hcin; by apply elem_of_nil in Hcin]. exists l'. simpl.
      rewrite <- app_assoc, (replay_app _ _ _ _ L1). done.
    + destruct Hlife as [En Hz]. rewrite En, app_nil_r. split; [|intros c Hcin; by apply elem_of_nil in Hcin]. exists l.
      split; [done|]. split; [|done]. simpl. unfold end_row. unfold ended in En. by destruct (String.eqb _ _).
  - assert (Eo : mem j open = false).
    { apply mem_false. intros (x & -> & [_ Hx]%elem_of_filter_bool)%list_elem_of_fmap.
      assert (Hin : mem (s_ID x) (map s_ID rows) = true) by (by apply mem_spec, list_elem_of_fmap_2).
      by rewrite find_row_mem, Ej in Hin. }
    rewrite Eo, V1. destruct (vw_row (view s j)); apply Hl.
Qed.

(** * Histories *)

(** An operation whose errors leave no trace. *)
Definition clean {A} (m : SM A) : Prop := ∀ s e s', m s = (Err e, s') → s' = s.

Lemma lasting_durable {A} W (m : SM A) : clean m → lasting W m → durable W m.
Proof. intros Hc Hm s [a|e] s' Hs Hl H; [by eapply Hm|]. by rewrite (Hc _ _ _ H). Qed.
Lemma clean_tx {A} (m : SM A) : clean (tx false m).
Proof. intros s e s' H. unfold tx in H. by apply Do_Err in H. Qed.
Lemma clean_pure {A} (m : SM A) : (∀ s, (m s).2 = s) → clean m.
Proof. intros Hm s e s' H. specialize (Hm s). by rewrite H in Hm. Qed.
Lemma clean_bind {A B} (m : SM A) (f : A → SM B) : (∀ s, (m s).2 = s) → (∀ a, clean (f a)) → clean (m ≫= f).
Proof.
  intros Hm Hf s e s' H. specialize (Hm s). unfold mbind, M_bind in H. destruct (m s) as [[a|x] s1]; simpl in *; subst.
  - by eapply Hf.
  - by injection H.
Qed.
Ltac clean_walk :=
  repeat match goal with
    | |- ∀ _, _ => intro
    | |- clean (tx false _) => apply clean_tx
    | |- clean (mbind _ _) => apply clean_bind
    | |- clean (let _ := _ in _) => cbv zeta
    | |- clean (if ?b then _ else _) => destruct b
    | |- clean _ => apply clean_pure
    | |- (mbind _ _ _).2 = _ => unfold mbind, M_bind
    | |- ((if ?b then _ else _) _).2 = _ => destruct b
    | |- _ => done
    end.

Lemma provisionAt_durable W proxy token i v label start end_ extra :
  durable W (provisionAt W false proxy token i v label start end_ extra).
Proof. apply lasting_durable; [apply clean_tx|apply provisionAt_lasting]. Qed.

Lemma RollQuotas_durable W a b c d c1 c2 now : durable W (RollQuotas W a b c d c1 c2 now).
Proof.
  assert (H : ∀ a b cl k n st, durable W (roll_batches W a b cl k n st) ∧ safe W (roll_batches W a b cl k n st)).
  { intros a0 b0 cl k. induction k as [|k IH]; intros n st; simpl; (split; [durable_walk|safe_walk]); try apply IH;
      auto using rollBatch_safe. apply lasting_durable; [apply clean_tx|]. apply steady_lasting. steady_walk. }
  unfold RollQuotas, rollPass. durable_walk; try apply H.
  - apply safe_map_err, safe_gets.
  - by intros s r s' _ Hl [= _ <-].
Qed.

Lemma sub_step_logged W s s' : store_ok W s → logged s → sub_step W s s' → logged s'.
Proof.
  intros Hs Hl Hst.
  assert (Hany : ∀ A (m : SM A), durable W m → logged (m s).2).
  { intros A m Hm. destruct (m s) as [r s1] eqn:E. by eapply Hm. }
  assert (Hsteady : ∀ A (m : SM A), clean m → steady m → durable W m).
  { intros A m Hc Hm. apply lasting_durable; [done|]. by apply steady_lasting. }
  destruct Hst; apply Hany;
    auto using ExpireDue_durable, RollQuotas_durable, MyRotate_durable, AdminRotate_durable, AdminSetPeriodEnd_durable,
      AdminSetQuotaLimit_durable, AdminExtend_durable.
  - unfold Provision. durable_walk. apply provisionAt_durable.
  - apply lasting_durable; [apply clean_tx|apply GrantSignupTrial_lasting].
  - apply lasting_durable; [unfold Renew; clean_walk|apply Renew_lasting].
  - apply lasting_durable; [unfold Extend; clean_walk|apply Extend_lasting].
  - apply lasting_durable; [unfold Stack; clean_walk|apply Stack_lasting].
  - apply lasting_durable; [unfold ChangePlan; clean_walk|apply ChangePlan_lasting].
  - apply Hsteady; [unfold GrantBonus; clean_walk|steady_walk].
  - apply Hsteady; [unfold ResetTraffic; clean_walk|steady_walk].
  - apply lasting_durable; [apply clean_tx|apply CloseUserSubscriptions_lasting].
  - apply Hsteady; [unfold ChargeTraffic; clean_walk|steady_walk].
  - apply Hsteady; [unfold AdminGrantTraffic; clean_walk|steady_walk].
  - apply Hsteady; [unfold AdminResetTraffic; clean_walk|steady_walk].
  - apply Hsteady; [unfold AdminSetDeviceLimit; clean_walk|steady_walk].
  - apply Hsteady; [unfold SetMyLabel; clean_walk|steady_walk].
Qed.

Lemma history_logged W s s' : store_ok W s → logged s → rtc (sub_step W) s s' → logged s'.
Proof.
  intros Hs Hl H. induction H as [|a b c Hst _ IH]; [done|]. apply IH; [by eapply sub_step_safe|by eapply sub_step_logged].
Qed.

(** C30: the log accounts for every subscription.  Whatever sequence of calls
    runs from a new installation, and however each of them fails, replaying the
    events of a subscription, each with the status it names before and after
    and the end of period it names before and after, never meets an event that
    does not fit and ends in the state the tables show: live or lapsed with the
    end of period of the row, or closed.  An open subscription has exactly one
    valid link; a closed one has none, unless an administrator gave it a new
    link afterwards, which the log then shows; and every valid link belongs to
    the owner. *)
Theorem subscriptions_follow_log W s r :
  rtc (sub_step W) empty_store s → r ∈ subs s →
  ∃ l, replay Unborn (log_of (s_ID r) s) = Some l ∧
    match l with
    | Unborn => False
    | Live t => s_Status r = StatusActive ∧ s_PeriodEnd r = t ∧ s_RenewalClosedAt r = None
    | Lapsed t => s_Status r = StatusExpired ∧ s_PeriodEnd r = t ∧ s_RenewalClosedAt r = None
    | Closed _ => s_Status r = StatusExpired ∧ is_Some (s_RenewalClosedAt r)
    end ∧
    match l with
    | Live _ | Lapsed _ => length (links_of (s_ID r) s) = 1%nat
    | Closed true => (length (links_of (s_ID r) s) ≤ 1)%nat
    | _ => links_of (s_ID r) s = []
    end ∧
    ∀ c, c ∈ links_of (s_ID r) s → c_UserID c = s_UserID r.
Proof.
  intros H Hr. assert (Hs : store_ok W s) by (eapply history_safe; [apply empty_store_ok|exact H]).
  assert (Hl : logged s).
  { eapply history_logged; [apply empty_store_ok| |exact H]. intros i. split; [by exists Unborn|]. intros c Hc. by apply elem_of_nil in Hc. }
  pose proof (find_sub_eq W s r Hs Hr) as Hf. destruct (Hl (s_ID r)) as [(l & H1 & H2 & H3) H4]. unfold view in *. simpl in *.
  rewrite Hf in *. simpl in *. exists l. split_and!; [done|by destruct l| |].
  - destruct l as [| | |[]]; simpl in *; try done; by apply nil_length_inv.
  - intros c Hc. specialize (H4 c Hc). congruence.
Qed.
End Life.
