(* ===== verification/SubWitness.v ===== *)
(** Concrete runs of the subscription service: a user buys a monthly plan and a
    one-time package; the subscriptions are renewed, changed, stacked, extended,
    topped up, reset and closed.  Each lemma applies a theorem of [SubHistory],
    [SubThms] or [SubTraffic] to such a run, with decimals represented as
    coefficient and exponent, so the hypotheses hold by evaluation. *)
From Stdlib Require Import ZArith QArith Lia.
From stdpp Require Import base tactics list gmap strings sorting relations.
From S2P Require Import Prelude Decimal GoString Money GoTime Period SubTypes SubStore SubFacts SubExact SubQuota.
From S2P Require Import Subscription Sweep Charge Roll SubHistory SubThms SubTraffic ChargeThms SweepThms CloseThms SubAdmin SubLife.
#[local] Open Scope string_scope.
#[local] Open Scope Z_scope.
#[local] Existing Instance scaled_decimal.

(** An equation between closed terms, by evaluation. *)
Ltac ev := try match goal with |- match _ with _ => _ end => simpl end;
  match goal with |- _ = ?x => vm_cast_no_check (eq_refl x) end.
Ltac list_in := apply (bool_decide_unpack _); vm_compute; exact I.

(** A run known by its result ends in the state it ends in. *)
Lemma ran_to {A B} (p : A * B) (a : A) : p.1 = a → p = (a, p.2).
Proof. destruct p. by intros <-. Qed.

(** Plan 50 is a monthly subscription whose current version is 51; plan 60 is
    a one-time package of version 61. *)
Definition monthly : Plan := mkPlan "Monthly" KindSubscription "active" (Some 51%N).
Definition package : Plan := mkPlan "Package" KindOneTime "active" (Some 61%N).
Definition monthly_version : Version :=
  mkVersion 51 50 VersionPublished
    [mkQuotaDef MetricTraffic (Some 1000) PeriodCycle; mkQuotaDef "requests" (Some 50) PeriodDay].
Definition package_version : Version :=
  mkVersion 61 60 VersionPublished [mkQuotaDef MetricTraffic (Some 500) PeriodTotal].

(** The hash and the sealer of this world are readable: padding and identity. *)
Definition demo_env : Env :=
  mkEnv {[7%N; 3%N]} {[(50%N, 51%N); (60%N, 61%N)]} {[70%N]} {[80%N; 81%N; 82%N]}
    (λ _, Ok {[50%N := monthly; 60%N := package]})
    (λ _, Ok {[51%N := monthly_version; 61%N := package_version]})
    (λ s, s) (λ _, true) (λ _ t, t)
    (Some (λ b _, Some b)) (λ b, take 32 (b ++ replicate 32 0)%list)
    (Ok (λ t, t / Day)) (λ _ _ _, Ok ()).

(** 2026-01-01T00:00:00Z, and a number of days later. *)
Definition day0 : Time := 1767225600 * Second.
Definition days (n : Z) : Time := day0 + n * Day.

Definition by_user : Actor := mkActor ActorUser (Some 7%N).
Definition month_price : Price := mkPriceSnap (Some 70%N) (1999, -2) (mkPrice "month" 1 None).
Definition package_price : Price := mkPriceSnap None (500, -2) (mkPrice "one_time" 1 (Some 30)).

Definition buy_month : Provision_in := mkProvision 7 50 51 month_price (Some 80%N) "home" by_user.
Definition buy_package : Provision_in := mkProvision 7 60 61 package_price (Some 81%N) "" by_user.

Definition run1 : store := (Provision demo_env false day0 900 (replicate 24 1) buy_month empty_store).2.
Definition run2 : store := (Provision demo_env false day0 901 (replicate 24 2) buy_package run1).2.

Lemma run2_history : rtc (sub_step demo_env) empty_store run2.
Proof.
  assert (E1 : (Provision demo_env false day0 900 (replicate 24 1) buy_month empty_store).2 = run1) by ev.
  assert (E2 : (Provision demo_env false day0 901 (replicate 24 2) buy_package run1).2 = run2) by ev.
  apply (rtc_l _ _ run1); [rewrite <- E1; apply step_provision|].
  apply rtc_once. rewrite <- E2. apply step_provision.
Qed.
Lemma run2_ok : store_ok demo_env run2.
Proof. exact (proj1 (history_safe _ _ _ (empty_store_ok _) run2_history)). Qed.

Definition no_row : sub_row := mkSubRow 0 0 0 0 None "" 0 0 None (0, 0) "" 0 None None 0 0 None.
Definition month_sub : sub_row := nth 0 (subs run2) no_row.
Definition package_sub : sub_row := nth 1 (subs run2) no_row.

Lemma month_sub_open id owner :
  s_ID month_sub = id → match owner with Some o => o = 7%N | None => True end →
  open_sub demo_env run2 id owner month_sub.
Proof.
  intros E Ho. split; [exact run2_ok| |exact E| |ev].
  - apply (list_elem_of_lookup_2 _ 0%nat). ev.
  - destruct owner; [|exact I]. rewrite Ho. ev.
Qed.
Lemma package_sub_open id owner :
  s_ID package_sub = id → match owner with Some o => o = 7%N | None => True end →
  open_sub demo_env run2 id owner package_sub.
Proof.
  intros E Ho. split; [exact run2_ok| |exact E| |ev].
  - apply (list_elem_of_lookup_2 _ 1%nat). ev.
  - destruct owner; [|exact I]. rewrite Ho. ev.
Qed.
Lemma month_price_ok : price_ok demo_env month_price.
Proof. split; ev. Qed.
Lemma package_price_ok : price_ok demo_env package_price.
Proof. split; ev. Qed.
Lemma by_user_ok : actor_ok demo_env by_user.
Proof. split; ev. Qed.

(** * Closing *)

Definition run3 : store := (CloseUserSubscriptions demo_env false by_user (days 1) 7 run2).2.
Definition rescue : Renewal := mkRenewal 1 7 month_price (days 2) None (Some 82%N) by_user "portal".
Definition run4 : store := (Renew demo_env false (days 2) rescue run3).2.
Definition closed_sub : sub_row := nth 0 (subs run3) no_row.

Lemma run3_ok : store_ok demo_env run3.
Proof. exact (proj1 (sub_step_safe _ _ _ run2_ok (step_close demo_env run2 by_user (days 1) 7))). Qed.

Lemma closed_is_final_witness :
  s_RenewalClosedAt closed_sub = Some (days 1) ∧
  ∃ r', subs run4 !! 0%nat = Some r' ∧ s_Status r' = StatusExpired ∧
    ∀ l, (ServingSubscriptions (days 3) run4).1 = Ok l → s_ID closed_sub ∉ map s_ID l.
Proof.
  split; [ev|].
  destruct (closed_is_final demo_env run3 run4 0 closed_sub (days 1) (days 3) run3_ok
    (rtc_once _ _ (step_renew demo_env run3 (days 2) rescue)) ltac:(ev) ltac:(ev))
    as (r' & H1 & _ & _ & H2 & _ & _ & _ & _ & H3).
  exists r'. exact (conj H1 (conj H2 H3)).
Defined.

Lemma closed_refused_witness :
  refused (Renew demo_env true (days 2) rescue) run3 True ErrRenewalWindowClosed.
Proof.
  destruct (closed_refused demo_env true (days 2) (days 2) (days 2) closed_sub (days 1) run3 run3_ok
    ltac:(apply (list_elem_of_lookup_2 _ 0%nat); ev) ltac:(ev)) as (H & _).
  destruct (H rescue ltac:(ev)) as (e & H1 & H2). exists e. split; [exact H1|]. intros _. apply H2.
  split_and!; [ev|ev|ev|]. apply Z.eqb_neq. ev.
Defined.

(** * Renewal *)

Definition renew_early : Renewal := mkRenewal 1 7 month_price (days 5) None (Some 82%N) by_user "portal".
Definition renew_after : Renewal := mkRenewal 1 7 month_price (days 40) None (Some 82%N) by_user "portal".

Lemma renew_ready_demo in_ :
  rn_SubscriptionID in_ = 1%N → rn_UserID in_ = 7%N → rn_Price in_ = month_price → rn_Actor in_ = by_user →
  rn_OrderID in_ = Some 82%N → (rn_PaidAt in_ =? zeroTime) = false →
  renew_ready demo_env run2 in_ month_sub monthly.
Proof.
  intros E1 E2 E3 E4 E5 E6. split.
  - rewrite E1, E2. apply month_sub_open; ev.
  - ev.
  - discriminate.
  - rewrite E3. exact month_price_ok.
  - rewrite E4. exact by_user_ok.
  - rewrite E5. ev.
  - by apply Z.eqb_neq.
Qed.

Lemma renew_in_time_witness :
  let e := PeriodEndFor (s_PeriodEnd month_sub) (p_Snap month_price) in
  s_PeriodEnd month_sub < e ∧
  ∃ s', Renew demo_env false (days 5) renew_early run2 =
      (Ok (mkRenewalResult 1 StatusActive false (s_PeriodEnd month_sub) e), s') ∧ quotas s' = quotas run2.
Proof.
  assert (Hr : renew_ready demo_env run2 renew_early month_sub monthly) by (apply renew_ready_demo; ev).
  destruct (renew_in_time demo_env false (days 5) renew_early month_sub monthly run2 Hr) as [H1 (s' & H2 & _ & H3 & _)].
  { left. apply Z.ltb_lt. ev. }
  split; [exact H1|]. exists s'. exact (conj H2 H3).
Defined.

(** The conditions on a version, as a check. *)
Definition def_okb (d : QuotaDef) : bool :=
  metric_ok (qd_Metric d) && bool_decide (qd_Period d ∈ [PeriodTotal; PeriodCycle; PeriodDay; PeriodMonth]) &&
  match qd_Limit d with None => true | Some l => (0 <=? l) && (l <=? MaxInt64) end.

Lemma version_checked v : NoDup (map def_key (v_Quotas v)) → forallb def_okb (v_Quotas v) = true → version_ok v.
Proof.
  intros Hn Hd. split; [done|]. apply Forall_forall. intros d Hin%list_elem_of_In.
  apply (proj1 (forallb_forall _ _) Hd) in Hin. unfold def_okb in Hin.
  apply andb_true_iff in Hin as [[H1 H2%bool_decide_eq_true]%andb_true_iff H3].
  split_and!; [done|done|]. intros l E. rewrite E in H3. apply andb_true_iff in H3 as [H3 H4]. lia.
Qed.

Lemma monthly_version_ok : version_ok (withKind monthly_version (pl_Kind monthly)).
Proof. apply version_checked; [list_in|ev]. Qed.

Lemma renew_late_witness :
  let paid := Truncate (days 40) Microsecond in
  let e := PeriodEndFor paid (p_Snap month_price) in
  paid < e ∧
  ∃ s', Renew demo_env false (days 40) renew_after run2 =
      (Ok (mkRenewalResult 1 StatusExpired true (s_PeriodEnd month_sub) e), s') ∧
    restarted month_sub (withKind monthly_version (pl_Kind monthly)) paid e ResetRenewal run2 s'.
Proof.
  assert (Hr : renew_ready demo_env run2 renew_after month_sub monthly) by (apply renew_ready_demo; ev).
  destruct (renew_late demo_env false (days 40) renew_after month_sub monthly monthly_version run2 Hr)
    as [H1 (s' & H2 & _ & _ & H3 & _)].
  - intros [H|(c & H & _)]; [|discriminate H]. apply Z.lt_nge in H. apply H. apply Z.leb_le. ev.
  - ev.
  - exact monthly_version_ok.
  - list_in.
  - split; [exact H1|]. exists s'. exact (conj H2 H3).
Defined.

(** * Plan change, extension, stacking *)

Definition to_package : PlanChange := mkPlanChange 1 7 60 61 package_price (Some 82%N) None by_user.

Lemma package_version_ok : version_ok (withKind package_version (pl_Kind package)).
Proof. apply version_checked; [list_in|ev]. Qed.

Lemma change_plan_exact_witness :
  let e := PeriodEndFor (days 10) (p_Snap package_price) in
  days 10 < e ∧
  ∃ s', ChangePlan demo_env false (days 10) to_package run2 =
      (Ok (mkPlanChangeResult 1 50 51 StatusActive (s_PeriodEnd month_sub) e), s') ∧
    restarted month_sub (withKind package_version (pl_Kind package)) (days 10) e ResetPlanChange run2 s'.
Proof.
  assert (Hr : change_ready demo_env run2 to_package month_sub package package_version).
  { split; [apply month_sub_open; ev|ev|ev|exact package_version_ok|list_in|exact package_price_ok|exact by_user_ok|ev|ev]. }
  destruct (change_plan_exact demo_env false (days 10) to_package month_sub package package_version run2 Hr)
    as [H1 (s' & H2 & _ & _ & H3 & _)].
  split; [exact H1|]. exists s'. exact (conj H2 H3).
Defined.

Definition gift_days : Extension := mkExtension 1 (Some 7%N) 15 by_user ExtendSourceGiftCard "gift".

(** Sixty days in, the subscription has lapsed: the extension rescues it. *)
Lemma extend_exact_witness :
  let e := ext_end gift_days month_sub (days 60) in
  days 60 + 15 * Day - Microsecond < e ≤ days 60 + 15 * Day ∧
  ∃ s' pr, Extend demo_env false (days 60) gift_days run2 =
    (Ok (mkExtensionResult 1 7 StatusActive true true (s_PeriodEnd month_sub) e pr), s').
Proof.
  assert (Hr : extend_ready demo_env run2 gift_days month_sub).
  { split; [apply month_sub_open; ev|unfold maxExtendDays; simpl; lia|exact by_user_ok|left; ev]. }
  assert (Hq : forallb (λ q, quota_range (ext_row gift_days month_sub (days 60) q))
                 (rows_of (s_ID month_sub) (quotas run2)) = true) by ev.
  destruct (extend_exact demo_env false (days 60) gift_days month_sub run2 Hr) as (H1 & _ & s' & pr & H2 & _).
  { intros q Hin. exact (proj1 (forallb_forall _ _) Hq q (proj1 (list_elem_of_In _ _) Hin)). }
  split; [exact H1|]. exists s', pr. exact H2.
Defined.

Definition buy_again : Stacking := mkStacking 5 7 61 package_price (days 3) (Some 82%N) None by_user "portal".

Lemma stack_exact_witness :
  let e := StackEnd (days 3) (s_PeriodEnd package_sub) (days 3) (p_Snap package_price) in
  s_PeriodEnd package_sub ≤ e ∧
  ∃ s', Stack demo_env false (days 3) (days 3) buy_again run2 =
      (Ok (mkRenewalResult 5 StatusActive false (s_PeriodEnd package_sub) e), s') ∧
    stacked package_sub (days 3) (Some (mkQuotaDef MetricTraffic (Some 500) PeriodTotal)) (quotas run2) (quotas s').
Proof.
  assert (Hr : stack_ready demo_env run2 buy_again package_sub package package_version).
  { split; [apply package_sub_open; ev|ev|ev|ev|list_in|exact package_price_ok|ev|exact by_user_ok|ev|ev|].
    apply Z.eqb_neq. ev. }
  assert (Hq : forallb (λ q, quota_range (stack_row (Some (mkQuotaDef MetricTraffic (Some 500) PeriodTotal)) q))
                 (rows_of (s_ID package_sub) (quotas run2)) = true) by ev.
  destruct (stack_exact demo_env false (days 3) (days 3) buy_again package_sub package package_version run2 Hr)
    as (H1 & _ & s' & H2 & _ & H3 & _).
  - apply Z.leb_le. ev.
  - intros d l [= <-] [= <-]. unfold MaxInt64. lia.
  - intros q Hin. exact (proj1 (forallb_forall _ _) Hq q (proj1 (list_elem_of_In _ _) Hin)).
  - split; [exact H1|]. exists s'. exact (conj H2 H3).
Defined.

(** * Traffic *)

Definition gift_bytes (n : Z) : BonusGrant := mkBonus 1 (Some 7%N) n BonusGiftCard None "".
Definition month_traffic : quota_row := nth 0 (quotas run2) (mkQuotaRow 0 0 "" "" 0 None None 0 0).

Lemma grant_bonus_decided_witness :
  (∃ s', GrantBonus demo_env false (days 1) (days 1) (gift_bytes 250) run2 = (Ok 250, s')) ∧
  GrantBonus demo_env false (days 1) (days 1) (gift_bytes MaxInt64) run2 = (Err (ErrRepo DBOther), run2).
Proof.
  assert (Hr : ∀ n, 1 ≤ n ≤ MaxInt64 →
    bonus_ready demo_env run2 (gift_bytes n) month_sub monthly month_traffic (days 1) (days 1)).
  { intros n Hn. split; [apply month_sub_open; ev|ev|exact Hn|left; ev|exists ""; ev|ev|ev|].
    intros _. assert (E : q_PeriodEnd month_traffic = Some (days 31)) by ev. rewrite E. apply Z.ltb_lt. ev. }
  assert (El0 : q_LimitValue month_traffic = Some 1000) by ev.
  assert (Eb0 : q_BonusValue month_traffic = 0) by ev.
  split.
  - destruct (grant_bonus_decided demo_env false (days 1) (days 1) (gift_bytes 250) month_sub monthly month_traffic run2
      (Hr 250 ltac:(unfold MaxInt64; lia))) as (l & El & H & _).
    rewrite El0 in El. injection El as <-. rewrite Eb0 in H.
    destruct H as (s' & H & _); [apply Z.leb_le; ev|]. exists s'. exact H.
  - destruct (grant_bonus_decided demo_env false (days 1) (days 1) (gift_bytes MaxInt64) month_sub monthly month_traffic run2
      (Hr MaxInt64 ltac:(unfold MaxInt64; lia))) as (l & El & _ & H).
    rewrite El0 in El. injection El as <-. apply H. apply Z.ltb_lt. ev.
Defined.

(** Node 1 reports 700 bytes, then the user resets with a gift card. *)
Definition run5 : store := (ChargeTraffic demo_env false (days 1) [mkCharge 1 400; mkCharge 1 300] run2).2.
Definition gift_reset : TrafficReset := mkTrafficReset 1 (Some 7%N) ResetGiftCard None "" (days 2).

Lemma run5_ok : store_ok demo_env run5.
Proof. exact (proj1 (sub_step_safe _ _ _ run2_ok (step_charge demo_env run2 (days 1) [mkCharge 1 400; mkCharge 1 300]))). Qed.

Lemma reset_traffic_exact_witness :
  ∃ s', ResetTraffic demo_env false (days 2) gift_reset run5 = (Ok 700, s') ∧
    quotas s' = own_rows 1 zeroed (quotas run5).
Proof.
  assert (Hr : reset_ready demo_env run5 gift_reset month_sub "").
  { split; [split; [exact run5_ok|apply (list_elem_of_lookup_2 _ 0%nat); ev|ev|ev|ev]|right; left; ev|ev|ev]. }
  pose proof (reset_traffic_exact demo_env false (days 2) gift_reset month_sub "" run5 Hr) as H. cbv zeta in H.
  assert (E1 : bool_decide (state_of month_sub (reset_at (days 2) gift_reset) = StateLive) = true) by ev.
  assert (E2 : bool_decide (List.filter is_traffic (rows_of (s_ID month_sub) (quotas run5)) = []) = false) by ev.
  assert (E3 : wrap64 (total_consumed (List.filter is_traffic (rows_of (s_ID month_sub) (quotas run5)))) = 700) by ev.
  rewrite E1, E2, E3 in H. destruct H as (s' & H1 & H2 & _). exists s'. exact (conj H1 H2).
Defined.

(** Node 1 reports 700 bytes in two parts; with 500 more the month runs out. *)
Definition light : list TrafficCharge := [mkCharge 1 400; mkCharge 1 300].
Definition utc_day (t : Time) : Z := t / Day.

Lemma demo_site : Site demo_env = Ok utc_day.
Proof. reflexivity. Qed.
Lemma light_merged : merge_charges light !! 1 = Some 700.
Proof. ev. Qed.
Lemma light_owner : s_ID <$> owner_of run2 1 = Some 1%N.
Proof. ev. Qed.

Lemma charge_exact_witness :
  ∃ ids s', ChargeTraffic demo_env false (days 1) light run2 = (Ok ids, s') ∧
    ids !! 1 = Some 1%N ∧ charge_done (days 1) light (utc_day (days 1)) run2 s'.
Proof.
  destruct (charge_exact demo_env false (days 1) light utc_day run2 run2_ok demo_site) as (ids & s' & H1 & H2 & H3).
  exists ids, s'. split; [exact H1|]. split; [|exact H3]. exact (eq_trans (H2 1 (mk_is_Some _ _ light_merged)) light_owner).
Defined.

Definition heavy : list TrafficCharge := [mkCharge 1 700; mkCharge 1 500].

Lemma charge_notifies_witness :
  serving (days 1) (quotas run2) month_sub = true ∧
  ∃ ids s', ChargeTraffic demo_env false (days 1) heavy run2 = (Ok ids, s') ∧
    serving (days 1) (quotas s') month_sub = false ∧ s_ID month_sub ∈ roster s'.
Proof.
  assert (Hin : month_sub ∈ subs run2) by (apply (list_elem_of_lookup_2 _ 0%nat); ev).
  assert (Hb : serving (days 1) (quotas run2) month_sub = true) by ev.
  split; [exact Hb|].
  set (s' := (ChargeTraffic demo_env false (days 1) heavy run2).2).
  assert (Ha : serving (days 1) (quotas s') month_sub = false) by ev.
  assert (Hrun : ChargeTraffic demo_env false (days 1) heavy run2 = (Ok {[1 := 1%N]}, s')) by (apply ran_to; ev).
  exists {[1 := 1%N]}, s'. split; [exact Hrun|]. split; [exact Ha|].
  destruct (charge_notifies demo_env false (days 1) heavy utc_day run2 _ s' run2_ok demo_site Hrun) as (_ & H & _).
  exact (H month_sub Hin Hb Ha).
Defined.

(** * The sweep and the closing *)

Lemma demo_outlets : outlets_ok demo_env.
Proof. split; [|done]. intros ids. eexists. reflexivity. Qed.

(** Eighty days in, both periods are over for more than thirty days: both
    subscriptions expire; the month is closed and its link revoked, while
    another transaction holds the package's row. *)
Definition held_package (id : N) : bool := (id =? 5)%N.
Definition nobody (id : N) : bool := false.

Lemma expire_due_complete_witness :
  ∃ s', ExpireDue demo_env (λ _, nobody) (λ _, held_package) (λ _, days 80) (λ _, days 80) run2 =
          (Ok (mkExpireStats 2 1 1), s') ∧
    map s_Status (subs s') = [StatusExpired; StatusExpired] ∧
    map s_RenewalClosedAt (subs s') = [Some (days 80); None] ∧
    map c_Status (creds s') = ["revoked"; "active"] ∧
    (∀ r, r ∈ subs s' → ¬ runs_out nobody (days 80) r) ∧ expired_event package_sub ∈ events s'.
Proof.
  assert (E1 : length (List.filter (λ r, bool_decide (runs_out nobody (days 80) r)) (subs run2)) = 2%nat) by ev.
  assert (E2 : map s_ID (List.filter (λ r, bool_decide (is_over nobody held_package (days 80) r)) (subs run2)) = [1%N]) by ev.
  assert (E3 : length (List.filter (λ r, bool_decide (is_over nobody held_package (days 80) r)) (subs run2)) = 1%nat) by ev.
  assert (E4 : live_count [1%N] (creds run2) = 1%nat) by ev.
  destruct (expire_due_complete demo_env nobody held_package (days 80) run2 run2_ok demo_outlets)
    as (s' & H1 & H2 & H3 & _ & _ & _ & _ & _ & H4 & H5).
  - rewrite E1. apply Z.leb_le. reflexivity.
  - rewrite E3. apply Z.leb_le. reflexivity.
  - rewrite E1, E2, E3, E4 in H1. rewrite E2 in H3. exists s'. split; [exact H1|]. rewrite H2, H3.
    split; [ev|]. split; [ev|]. split; [ev|]. rewrite <- H2. split; [intros r Hr; apply (H4 r Hr)|].
    apply H5; [apply (list_elem_of_lookup_2 _ 1%nat); ev|]. apply (bool_decide_unpack _). vm_compute. exact I.
Defined.

(** The next day an administrator gives the closed subscription a new link. *)
Definition demo_desk : Desk :=
  mkDesk (λ _, Ok false) (λ _, Ok ∅) None (λ b _, Some b) (Ok "Pandora") (Some (Ok "sub")) (λ _, Ok "https://sub.example").
Definition run6 : store := (ExpireDue demo_env (λ _, nobody) (λ _, held_package) (λ _, days 80) (λ _, days 80) run2).2.
Definition run7 : store :=
  (AdminRotate demo_env demo_desk false (Some (mkPrincipal 3 "admin")) (days 81) (days 81) 902 (replicate 24 3) 1 "lost phone" run6).2.

Lemma run7_history : rtc (sub_step demo_env) empty_store run7.
Proof.
  eapply rtc_r; [eapply rtc_r; [exact run2_history|]|].
  - exact (step_expire demo_env run2 (λ _, nobody) (λ _, held_package) (λ _, days 80) (λ _, days 80)).
  - exact (step_admin_rotate demo_env run6 demo_desk (Some (mkPrincipal 3 "admin")) (days 81) (days 81) 902 (replicate 24 3) 1 "lost phone").
Qed.

Lemma subscriptions_follow_log_witness :
  replay Unborn (log_of 1 run7) = Some (Closed true) ∧ (length (links_of 1 run7) ≤ 1)%nat ∧
  replay Unborn (log_of 5 run7) = Some (Lapsed (days 30)) ∧ length (links_of 5 run7) = 1%nat.
Proof.
  assert (E1 : replay Unborn (log_of 1 run7) = Some (Closed true)) by ev.
  assert (E5 : replay Unborn (log_of 5 run7) = Some (Lapsed (days 30))) by ev.
  split; [exact E1|].
  destruct (subscriptions_follow_log demo_env run7 (nth 0 (subs run7) no_row) run7_history
    ltac:(apply (list_elem_of_lookup_2 _ 0%nat); ev)) as (l & H1 & _ & H2 & _).
  destruct (subscriptions_follow_log demo_env run7 (nth 1 (subs run7) no_row) run7_history
    ltac:(apply (list_elem_of_lookup_2 _ 1%nat); ev)) as (l' & H3 & _ & H4 & _).
  assert (I1 : s_ID (nth 0 (subs run7) no_row) = 1%N) by ev. assert (I5 : s_ID (nth 1 (subs run7) no_row) = 5%N) by ev.
  rewrite I1 in H1, H2. rewrite I5 in H3, H4. rewrite E1 in H1. injection H1 as <-. rewrite E5 in H3. injection H3 as <-.
  exact (conj H2 (conj E5 H4)).
Defined.

(** On the second day the owner changes the month's link; on day 40 it has run
    out, and the call is refused. *)
Definition owner : option Principal := Some (mkPrincipal 7 "public").

Lemma rotate_exact_witness :
  (∃ s', MyRotate demo_env demo_desk false owner (days 1) (days 1) 902 (replicate 24 3) 1 run2 =
           (Ok "https://sub.example/sub/AwMDAwMDAwMDAwMDAwMDAwMDAwMDAwMD", s') ∧ map c_Status (creds s') = ["revoked"; "active"; "active"] ∧
         map s_ProxyUUID (subs s') = [902%N; 901%N]) ∧
  MyRotate demo_env demo_desk false owner (days 40) (days 40) 902 (replicate 24 3) 1 run2 = (Err ErrRotateWhileExpired, run2).
Proof.
  assert (Hr : rotate_ready demo_env demo_desk run2 owner 1 month_sub (mkPrincipal 7 "public") "sub" "https://sub.example" 902
                 (replicate 24 3) (bytes_of (b64url (replicate 24 3)))).
  { assert (Hc : forallb (λ c, negb (bool_decide (c_TokenHash c = Sum256 demo_env (bytes_of (b64url (replicate 24 3)))))) (creds run2) = true) by ev.
    assert (Hp : forallb (λ r, negb (s_ProxyUUID r =? 902)%N) (subs run2) = true) by ev.
    split; [exact run2_ok|apply (list_elem_of_lookup_2 _ 0%nat); ev|ev|ev|ev|list_in|ev|ev|exists (λ b _, Some b); split; [reflexivity|ev]|ev|discriminate|ev| |split; [discriminate|]].
    - intros c Hin E. apply list_elem_of_In in Hin. apply (proj1 (forallb_forall _ _) Hc) in Hin. by rewrite bool_decide_eq_true_2 in Hin.
    - intros r Hin E. apply list_elem_of_In in Hin. apply (proj1 (forallb_forall _ _) Hp) in Hin. by rewrite E in Hin. }
  split.
  - pose proof (rotate_exact demo_env demo_desk false owner (days 1) (days 1) 902 (replicate 24 3) 1 _ _ _ _ _ run2 Hr) as H. cbv zeta in H.
    assert (E : bool_decide (state_of month_sub (days 1) = StateLive) = true) by ev. rewrite E in H.
    destruct H as (s' & H1 & H2 & H3 & _). exists s'. split; [exact H1|]. rewrite H2, H3. split; ev.
  - pose proof (rotate_exact demo_env demo_desk false owner (days 40) (days 40) 902 (replicate 24 3) 1 _ _ _ _ _ run2 Hr) as H. cbv zeta in H.
    assert (E : bool_decide (state_of month_sub (days 40) = StateLive) = false) by ev. rewrite E in H. exact H.
Defined.

Lemma close_account_exact_witness :
  ∃ s', CloseUserSubscriptions demo_env false by_user (days 1) 7 run2 = (Ok 2%nat, s') ∧
    s_PeriodEnd (account_row 7 (days 1) month_sub) = days 1 ∧
    ∀ c, c ∈ creds s' → c_SubscriptionID c ∈ [1%N; 5%N] → c_Status c ≠ "active".
Proof.
  assert (E : map s_ID (List.filter (owned 7) (subs run2)) = [1%N; 5%N]) by ev.
  assert (E2 : length (List.filter unclosed (List.filter (owned 7) (subs run2))) = 2%nat) by ev.
  destruct (close_account_exact demo_env false by_user (days 1) 7 run2 run2_ok by_user_ok)
    as (s' & H1 & _ & _ & _ & _ & _ & _ & _ & H2 & _).
  rewrite E2 in H1. rewrite E in H2. exists s'. split; [exact H1|]. split; [ev|exact H2].
Defined.
