(* ===== verification/OrderStore.v ===== *)
(** The tables of the order module (panel/internal/module/order): its rows
    (model/model.go), the statements on them (repo/orders.go, items.go,
    reservations.go, limits.go, reset.go, integrity.go) with the constraints of
    db/migrations/00013, 00036, 00046, 00051 and 00052, and the world they live
    in: the ledger, the discount codes and the subscriptions, which the order
    flow changes in the same transactions. *)
From Stdlib Require Import ZArith QArith Lqa Lia.
From stdpp Require Import base tactics list gmap strings sorting pretty.
From S2P Require Import Prelude Safety Decimal GoString Money GoTime LedgerTypes Ledger Promo Period OrderAmounts Proration SubTypes SubStore Subscription.
#[local] Open Scope string_scope.
#[local] Open Scope Z_scope.

(** * Vocabulary (service/types.go) *)

Definition KindTopup := "topup".
Definition KindTrafficReset := "traffic_reset".

Definition StatusPending := "pending_payment".
Definition StatusPaid := "paid".
Definition StatusCancelled := "cancelled".
Definition OrderExpired := "expired".

Definition ReservationHeld := "held".
Definition ReservationCaptured := "captured".
Definition ReservationReleased := "released".

Definition EventReserve := "reserve".
Definition EventCapture := "capture".
Definition EventExpire := "expire".
Definition EventCancel := "cancel".

Definition ReasonUserCancelled := "user_cancelled".
Definition ReasonExpired := "expired".
Definition ReasonAccountDeleted := "account_deleted".
Definition ReasonPlanArchived := "plan_archived".

Definition CaseReleasedOrder := "released_order".
Definition CaseExcessCapture := "excess_capture".
Definition CaseIneligibleSubscription := "ineligible_subscription".
Definition CaseArchivedPlan := "archived_plan".

Definition PaymentWindow : Duration := 30 * Minute.

(** What the payment module answers (payment/service). *)
Inductive payerr :=
| PayNotFound | PayBadRequest | PayInvalid (field : string) | PayConflict | PayInternal | PayUnavailable
| ErrProviderNotFound | ErrProviderDisabled | ErrProviderPaused | ErrPaymentAmount | ErrNeverPaid | ErrCaseResolved
| ErrPaymentReused | ErrProviderRefMismatch | ErrReplayMismatch | ErrArchivedPlanOffline | ErrBelowMethodMinimum
| ErrPaymentInProgress | ErrOrderLapsed | ErrIntentSuperseded | ErrQueryUnsupported.

(** What the commission module answers (commission/service). *)
Inductive cerr :=
| CErrNoCommission | CErrWithdrawTooSmall | CErrWithdrawTooMuch | CErrWithdrawPending | CErrTransferInsufficient
| CErrWithdrawalHandled | CErrWithdrawalNotPayable | CErrWithdrawalNotFound | CErrEntryNotFound | CErrAccountDeleted
| CErrApprovedWithdrawalPending | CErrEntryNotReviewable | CErrVoidUnderfunded | CErrWithdrawDisabled | CErrOverrideNotFound
| CErrPayoutStateLost | CErrPayoutUnderfunded | CErrForfeitUnderfunded | CErrForfeitedTwice | CErrSettleLost
| CErrAutoTransferLost | CInvalid (fields : list string).

Inductive oerr :=
| OErrNotFound | OErrSamePlanUseRenewal | OErrSamePlanUseStack | OErrOpenChange | OErrOpenReset | OErrOrderPending
| OErrBelowMinimum | OErrManualBelowMinimum | OErrOfflineNothingDue | OErrOfflineChangeNothingDue | OErrConflict | OErrAlreadyPaid | OErrOrderExpired
| OErrStateChanged | OErrTooManyUnpaid | OErrTooManySubscriptions | OErrAccountDeleted | OErrAmountMismatch
| OErrPlanChangeSamePlan | OErrResetNotSold | OErrResetLimitReached | OErrResetPeriodSwitching | OErrNoPrice
| OErrChangeNotAllowed | ONotPayable (kind status : string) | OInvalid (field : string) | OUnauthorized | OForbidden
| OErrNotPayable | OErrNoExternalPayment | OErrPaymentLapsed | OErrPlanRetired | OErrMarkPaidZero | OPay (e : payerr) | OComm (e : cerr)
| OInternal | OExternal | ODB (e : db_err) | OMoney
| OAmounts (e : order_err) | OLedger (e : lerr) | OPromo (e : perr) | OSub (e : serr) | OBasis (e : basis_err).

(** * Order numbers (service/amounts.go) *)

(** [Time.Format "20060102"]: the year with at least four digits. *)
Definition pad (width : nat) (n : Z) : string :=
  let d := pretty (Z.to_N (Z.abs n)) in
  (if n <? 0 then "-" else "") ++ string_of (repeat 48 (width - String.length d)) ++ d.
Definition newOrderNo (now : Time) (reads : list (list Z)) : result order_err string :=
  suffix ← randomOrderSuffix reads 8 [];
  Ok ("AO" ++ pad 4 (Year now) ++ pad 2 (Month now) ++ pad 2 (DayOfMonth now) ++ "-" ++ suffix).

Section OrderStore.
Context `{DL : DecimalLib}.

(** * Rows (model/model.go) *)

Record order_row := mkOrderRow {
  od_ID : uuid; od_No : string; od_UserID : uuid; od_Kind : string; od_Status : string;
  od_Subtotal : dec; od_Discount : dec; od_Credit : dec; od_Waived : dec; od_Total : dec;
  od_BalanceApplied : dec; od_Payable : dec; od_Paid : dec;
  od_CouponID : option uuid; od_CreatedBy : option uuid; od_ManualReason : option string;
  od_SubscriptionID : option uuid; od_Label : option string; od_StateVersion : Z; od_ExpiresAt : Time;
  od_PaidAt : option Time; od_FulfilledAt : option Time; od_CancelledAt : option Time; od_ExpiredAt : option Time;
  od_CancelReason : option string; od_CreatedAt : Time }.

(** An order line; the two JSON columns hold what they were encoded from. *)
Record item_row := mkItemRow {
  li_OrderID : uuid; li_PriceID : option uuid; li_PlanID : option uuid; li_PlanVersionID : option uuid;
  li_Name : string; li_PlanVersion : option Z; li_Interval : option string; li_IntervalCount : option Z;
  li_Entitlements : list (string * string); li_Quotas : list SnapQuota; li_Quantity : Z;
  li_UnitAmount : dec; li_LineAmount : dec }.

Record reservation_row := mkReservation {
  rs_ID : uuid; rs_OrderID : uuid; rs_UserID : uuid; rs_State : string; rs_ExpiresAt : Time; rs_HeldAt : Time;
  rs_CapturedAt : option Time; rs_ReleasedAt : option Time; rs_ReleaseReason : option string }.

Record resevent_row := mkResEvent {
  re_ReservationID : uuid; re_OrderID : uuid; re_From : option string; re_To : string; re_Kind : string;
  re_Actor : Actor; re_Reason : option string; re_At : Time }.

(** The module's own tables.  An order has at most one reservation (a unique
    key), so both tables are under the order's identifier. *)
Record book := mkBook {
  orders : gmap uuid order_row; items : list item_row; reservations : gmap uuid reservation_row;
  res_events : list resevent_row; order_audits : list (string * uuid); order_next : uuid }.

(** Everything the order flow writes in one transaction.  [X] is the tables of
    the modules it only calls (payment intents, commission entries). *)
Record world (X : Type) := mkWorld {
  w_book : book; w_ledger : ledger; w_promo : promo; w_subs : store; w_ext : X }.
#[global] Arguments mkWorld {X}.
#[global] Arguments w_book {X}.
#[global] Arguments w_ledger {X}.
#[global] Arguments w_promo {X}.
#[global] Arguments w_subs {X}.
#[global] Arguments w_ext {X}.

(** What a call reads that the database does not determine: the clocks of the
    order, discount and subscription services and of the database at the points
    they are read, and the random values drawn. *)
Record Call := mkCall {
  k_now : Time; k_created : Time; k_reserved : Time; k_closed : Time; k_paid : Time;
  k_evaluate : Time; k_reserve : Time; k_sub : Time; k_wall : Time; k_db : Time;
  k_reads : list (list Z); k_proxy : uuid; k_token : list Z }.

Record PaidOrder := mkPaidOrder {
  po_OrderID : uuid; po_OrderNo : string; po_UserID : uuid; po_Kind : string; po_Total : dec; po_Paid : dec;
  po_PaidAt : Time; po_PaymentID : uuid }.
(** What the hook of a paid order sees: who pays, the call, and the order. *)
Definition PaidCall : Type := option Principal * Call * PaidOrder.

(** What the module reads elsewhere: the subscription module's surroundings
    (which hold the users, versions and prices foreign keys point at) and those
    of the discount codes, the catalogue's plan states and validity days, the
    smallest online payment, the purchase limits (unpaid orders, subscriptions)
    if they are configured, deleted accounts and the
    plugin outlet (the event, the order, and what the order does not say); and the two
    calls into modules with tables of their own, closing the order's payment
    intents and the hook of a paid order, which also posts to the ledger. *)
Record OrderEnv (X : Type) := mkOrderEnv {
  oe_sub : Env; oe_promo : PromoEnv;
  PlanStatuses : list uuid → result oerr (gmap uuid string);
  PriceDays : list uuid → result oerr (gmap uuid (option Z));
  MinPayment : result oerr dec;
  PurchaseLimits : option (result oerr (Z * Z));
  UserDeleted : uuid → result oerr bool;
  EmitOrder : string → order_row → list (string * (string + Z)) → result oerr ();
  CloseOrderIntents : uuid → string → M X oerr Z;
  OnOrderPaid : option (PaidCall → M (ledger * X) oerr ()) }.
#[global] Arguments mkOrderEnv {X}.
#[global] Arguments oe_sub {X}.
#[global] Arguments oe_promo {X}.
#[global] Arguments PlanStatuses {X}.
#[global] Arguments PriceDays {X}.
#[global] Arguments MinPayment {X}.
#[global] Arguments PurchaseLimits {X}.
#[global] Arguments UserDeleted {X}.
#[global] Arguments EmitOrder {X}.
#[global] Arguments CloseOrderIntents {X}.
#[global] Arguments OnOrderPaid {X}.

Section World.
Context {X : Type}.
Abbreviation WM := (M (world X) oerr).

Definition set_book (f : book → book) (w : world X) : world X :=
  mkWorld (f (w_book w)) (w_ledger w) (w_promo w) (w_subs w) (w_ext w).
Definition put_ledger (l : ledger) (w : world X) : world X := mkWorld (w_book w) l (w_promo w) (w_subs w) (w_ext w).
Definition put_promo (p : promo) (w : world X) : world X := mkWorld (w_book w) (w_ledger w) p (w_subs w) (w_ext w).
Definition put_subs (s : store) (w : world X) : world X := mkWorld (w_book w) (w_ledger w) (w_promo w) s (w_ext w).
Definition put_ext (x : X) (w : world X) : world X := mkWorld (w_book w) (w_ledger w) (w_promo w) (w_subs w) x.

(** Calls into the other modules, in the caller's transaction. *)
Definition on_ledger {A} (m : M ledger lerr A) : WM A := zoom w_ledger put_ledger OLedger m.
Definition on_promo {A} (m : M promo perr A) : WM A := zoom w_promo put_promo OPromo m.
Definition on_subs {A} (m : M store serr A) : WM A := zoom w_subs put_subs OSub m.
Definition on_ext {A} (m : M X oerr A) : WM A := zoom w_ext put_ext id m.
Definition on_ledger_ext {A} (m : M (ledger * X) oerr A) : WM A :=
  zoom (λ w, (w_ledger w, w_ext w)) (λ lx w, put_ext lx.2 (put_ledger lx.1 w)) id m.

(** [tx.Do]: the ledger's trigger runs at the commit. *)
Definition order_tx {A} (inTx : bool) (m : WM A) : WM A :=
  Do inTx (λ w, match assert_ledger_balanced (w_ledger w) with Ok _ => Ok () | Err e => Err (OLedger e) end) m.

(** The order table is what foreign keys of the other modules point at. *)
Definition sub_env (W : OrderEnv X) (w : world X) : Env :=
  let S := oe_sub W in
  mkEnv (env_users S) (env_versions S) (env_prices S) (dom (orders (w_book w))) (PlansByIDs S) (VersionsByIDs S)
    (pg_lower S) (pg_label_ok S) (pg_plus S) (Seal S) (Sum256 S) (Site S) (Emit S).
Definition has_order (w : world X) (id : uuid) : bool := bool_decide (is_Some (orders (w_book w) !! id)).
(** A call of the ledger whose rows point at the orders. *)
Definition on_ledger_fk {A} (m : (uuid → bool) → M ledger lerr A) : WM A := λ w, on_ledger (m (has_order w)) w.

(** * Constraints *)

Definition order_no_byte (c : Z) : bool := between 65 c 90 || between 48 c 57 || (c =? 45).
Definition opt_text (lo hi : Z) (o : option string) : bool := opt_ok (λ s, pg_text s && between lo (RuneCountInString s) hi) o.
Definition order_kinds : list string := [KindNew; KindRenewal; KindTopup; KindUpgrade; KindTrafficReset; KindStack].
Definition order_statuses : list string := [StatusPending; StatusPaid; StatusFulfilled; StatusCancelled; OrderExpired].
Definition settled_status (s : string) : bool := one_of s [StatusPaid; StatusFulfilled].
Definition open_status (s : string) : bool := one_of s [StatusPending; StatusPaid].

(** The columns hold the values. *)
Definition order_fits (o : order_row) : bool :=
  forallb numeric_fits [od_Subtotal o; od_Discount o; od_Credit o; od_Waived o; od_Total o; od_BalanceApplied o;
                        od_Payable o; od_Paid o] &&
  is_int64 (od_StateVersion o) && pg_text (od_No o).

(** The CHECKs on amounts: none is negative, and the identities between them. *)
Definition amounts_check (o : order_row) : bool :=
  forallb (λ d, negb (IsNegative d)) [od_Subtotal o; od_Discount o; od_Credit o; od_Waived o; od_Total o;
                                      od_BalanceApplied o; od_Payable o; od_Paid o] &&
  LessThanOrEqual (od_Waived o) (FromCents 99) &&
  Equal (od_Payable o) (dec_sub (od_Total o) (od_BalanceApplied o)) &&
  Equal (od_Total o) (dec_sub (dec_max (dec_sub (dec_sub (od_Subtotal o) (od_Discount o)) (od_Credit o)) dec_zero) (od_Waived o)) &&
  LessThanOrEqual (od_Discount o) (od_Subtotal o) &&
  (IsZero (od_Credit o) || String.eqb (od_Kind o) KindUpgrade) && (IsZero (od_Waived o) || String.eqb (od_Kind o) KindUpgrade).

(** The CHECKs on what an order of its kind may carry. *)
Definition kind_check (W : OrderEnv X) (o : order_row) : bool :=
  one_of (od_Kind o) order_kinds &&
  (negb (String.eqb (od_Kind o) KindTopup) ||
   (IsZero (od_Discount o) && IsZero (od_BalanceApplied o) && is_none (od_CouponID o) && is_none (od_SubscriptionID o) &&
    is_none (od_CreatedBy o))) &&
  (negb (one_of (od_Kind o) [KindRenewal; KindUpgrade; KindTrafficReset; KindStack]) || negb (is_none (od_SubscriptionID o))) &&
  (is_none (od_Label o) || String.eqb (od_Kind o) KindNew) &&
  opt_ok (λ l, between 1 (RuneCountInString l) 16 && pg_text l && pg_label_ok (oe_sub W) l) (od_Label o) &&
  (negb (String.eqb (od_Kind o) KindTrafficReset) || (IsZero (od_Discount o) && is_none (od_CouponID o))) &&
  (if is_none (od_CreatedBy o) then is_none (od_ManualReason o)
   else match od_ManualReason o with
        | Some r => pg_text r && (RuneCountInString r <=? 500) && (5 <=? Z.of_nat (length (btrim r)))
        | None => false
        end).

(** The CHECKs on the columns each status fills. *)
Definition status_check (o : order_row) : bool :=
  let st := od_Status o in
  one_of st order_statuses && (0 <? od_StateVersion o) &&
  (if settled_status st then Equal (od_Paid o) (od_Total o) && negb (is_none (od_PaidAt o))
   else IsZero (od_Paid o) && is_none (od_PaidAt o)) &&
  Bool.eqb (String.eqb st StatusFulfilled) (negb (is_none (od_FulfilledAt o))) &&
  Bool.eqb (String.eqb st StatusCancelled) (negb (is_none (od_CancelledAt o))) &&
  Bool.eqb (String.eqb st OrderExpired) (negb (is_none (od_ExpiredAt o))) &&
  (negb (String.eqb st StatusCancelled) || negb (is_none (od_CancelReason o))) &&
  (is_none (od_CancelReason o) || one_of st [StatusCancelled; OrderExpired]) && opt_text 1 500 (od_CancelReason o) &&
  (negb (String.eqb (od_Kind o) KindNew) || negb (String.eqb st StatusFulfilled) || negb (is_none (od_SubscriptionID o))).

Definition order_check (W : OrderEnv X) (o : order_row) : bool :=
  between 1 (blen (od_No o)) 64 && forallb order_no_byte (bytes_of (od_No o)) &&
  amounts_check o && kind_check W o && status_check o.

(** The unique keys: the order number, and one open order of a kind that
    changes a subscription (or resets its traffic) per subscription. *)
Definition change_kind (k : string) : bool := one_of k [KindRenewal; KindUpgrade; KindStack].
Definition open_slot (o : order_row) : option (bool * uuid) :=
  match od_SubscriptionID o with
  | Some s => if negb (open_status (od_Status o)) then None
              else if change_kind (od_Kind o) then Some (true, s)
              else if String.eqb (od_Kind o) KindTrafficReset then Some (false, s) else None
  | None => None
  end.
Definition order_conflict (o x : order_row) : bool :=
  String.eqb (od_No o) (od_No x) ||
  match open_slot o with Some s => bool_decide (open_slot x = Some s) | None => false end.

Definition order_fk (W : OrderEnv X) (w : world X) (o : order_row) : bool :=
  bool_decide (od_UserID o ∈ env_users (oe_sub W)) && mem_opt (od_CreatedBy o) (env_users (oe_sub W)) &&
  opt_ok (λ c, existsb (λ x, (cp_ID x =? c)%N) (coupons (w_promo w))) (od_CouponID o) &&
  opt_ok (λ s, existsb (λ x, (s_ID x =? s)%N && (s_UserID x =? od_UserID o)%N) (subs (w_subs w))) (od_SubscriptionID o).

(** Whether the row may be written; [rest] are the other rows. *)
Definition write_order (W : OrderEnv X) (w : world X) (rest : gmap uuid order_row) (o : order_row) : result oerr () :=
  if negb (order_fits o) then Err (ODB DBOther)
  else if negb (order_check W o) then Err (ODB DBCheck)
  else if existsb (λ x, order_conflict o x.2) (map_to_list rest) then Err (ODB DBUnique)
  else if negb (order_fk W w o) then Err (ODB DBForeignKey) else Ok ().

(** * Statements *)

Definition set_orders (f : gmap uuid order_row → gmap uuid order_row) (b : book) : book :=
  mkBook (f (orders b)) (items b) (reservations b) (res_events b) (order_audits b) (order_next b).
Definition set_reservations (f : gmap uuid reservation_row → gmap uuid reservation_row) (b : book) : book :=
  mkBook (orders b) (items b) (f (reservations b)) (res_events b) (order_audits b) (order_next b).
Definition bump_order (b : book) : book :=
  mkBook (orders b) (items b) (reservations b) (res_events b) (order_audits b) (N.succ (order_next b)).
Definition add_item (i : item_row) (b : book) : book :=
  mkBook (orders b) (items b ++ [i])%list (reservations b) (res_events b) (order_audits b) (order_next b).
Definition add_resevent (e : resevent_row) (b : book) : book :=
  mkBook (orders b) (items b) (reservations b) (res_events b ++ [e])%list (order_audits b) (order_next b).
Definition add_order_audit (a : string * uuid) (b : book) : book :=
  mkBook (orders b) (items b) (reservations b) (res_events b) (order_audits b ++ [a])%list (order_next b).

(** [audit.Write]. *)
Definition order_audit (action : string) (id : uuid) : WM () := modify (set_book (add_order_audit (action, id))).

Definition checkMoney (l : list dec) : bool := forallb money_ok l.

(** [CreateOrder]: the row with its new identifier. *)
Definition CreateOrder (W : OrderEnv X) (mk : uuid → order_row) : WM order_row := λ w,
  let o := mk (order_next (w_book w)) in
  if negb (checkMoney [od_Subtotal o; od_Discount o; od_Credit o; od_Waived o; od_Total o; od_BalanceApplied o;
                       od_Payable o; od_Paid o]) then (Err OMoney, w)
  else match write_order W w (orders (w_book w)) o with
       | Err e => (Err e, w)
       | Ok _ => (Ok o, set_book (λ b, bump_order (set_orders (<[od_ID o := o]>) b)) w)
       end.

(** [OrderByID]; the row lock itself changes nothing. *)
Definition OrderByID (id : uuid) : WM (option order_row) := gets (λ w, orders (w_book w) !! id).
Definition OrderForUser (id userID : uuid) : WM (option order_row) := gets (λ w,
  match orders (w_book w) !! id with
  | Some o => if (od_UserID o =? userID)%N then Some o else None
  | None => None
  end).

(** Rows in the order of their identifiers. *)
Definition id_order (a b : order_row) : Prop := (od_ID a ≤ od_ID b)%N.
#[global] Instance id_order_dec : RelDecision id_order.
Proof. intros a b. unfold id_order. apply _. Defined.
Definition order_rows (b : book) : list order_row := merge_sort id_order (map snd (map_to_list (orders b))).

Definition PendingOrdersForUser (userID : uuid) : WM (list order_row) := gets (λ w,
  List.filter (λ o, (od_UserID o =? userID)%N && String.eqb (od_Status o) StatusPending) (order_rows (w_book w))).

(** [UpdateOrder]: the columns [cols] assigns, when the row still has the old
    status; [paid] is the value of [paid_amount] among them. *)
Definition next_version (o : order_row) : order_row :=
  mkOrderRow (od_ID o) (od_No o) (od_UserID o) (od_Kind o) (od_Status o) (od_Subtotal o) (od_Discount o) (od_Credit o)
    (od_Waived o) (od_Total o) (od_BalanceApplied o) (od_Payable o) (od_Paid o) (od_CouponID o) (od_CreatedBy o)
    (od_ManualReason o) (od_SubscriptionID o) (od_Label o) (od_StateVersion o + 1) (od_ExpiresAt o) (od_PaidAt o)
    (od_FulfilledAt o) (od_CancelledAt o) (od_ExpiredAt o) (od_CancelReason o) (od_CreatedAt o).
Definition UpdateOrder (W : OrderEnv X) (id : uuid) (from : string) (paid : option dec) (cols : order_row → order_row)
    : WM bool := λ w,
  if negb (opt_ok money_ok paid) then (Err OMoney, w)
  else match orders (w_book w) !! id with
       | None => (Ok false, w)
       | Some o =>
           if negb (String.eqb (od_Status o) from) then (Ok false, w)
           else
             let o' := next_version (cols o) in
             match write_order W w (delete id (orders (w_book w))) o' with
             | Err e => (Err e, w)
             | Ok _ => (Ok true, set_book (set_orders (<[id := o']>)) w)
             end
       end.

(** Newest first, as [ORDER BY created_at DESC LIMIT 1] takes the first. *)
Definition newest (l : list order_row) : option order_row :=
  foldl (λ acc o, match acc with
                  | Some a => if od_CreatedAt a <? od_CreatedAt o then Some o else acc
                  | None => Some o
                  end) None l.
Definition PendingNewOrderForPlan (userID planID : uuid) : WM (option order_row) := gets (λ w,
  newest (List.filter (λ o, String.eqb (od_Kind o) KindNew && String.eqb (od_Status o) StatusPending &&
    (od_UserID o =? userID)%N &&
    existsb (λ i, (li_OrderID i =? od_ID o)%N && bool_decide (li_PlanID i = Some planID)) (items (w_book w)))
    (order_rows (w_book w)))).
Definition OpenChangeOrder (subID : uuid) : WM (option order_row) := gets (λ w,
  newest (List.filter (λ o, bool_decide (od_SubscriptionID o = Some subID) && change_kind (od_Kind o) &&
    open_status (od_Status o)) (order_rows (w_book w)))).
Definition PendingResetOrderForSubscription (subID : uuid) : WM (option order_row) := gets (λ w,
  newest (List.filter (λ o, String.eqb (od_Kind o) KindTrafficReset && String.eqb (od_Status o) StatusPending &&
    bool_decide (od_SubscriptionID o = Some subID)) (order_rows (w_book w)))).

Definition PendingCounts (userID : uuid) (now : Time) : WM (Z * Z) := gets (λ w,
  let l := List.filter (λ o, (od_UserID o =? userID)%N && String.eqb (od_Status o) StatusPending) (order_rows (w_book w)) in
  (Z.of_nat (length (List.filter (λ o, now <? od_ExpiresAt o) l)),
   Z.of_nat (length (List.filter (λ o, String.eqb (od_Kind o) KindNew) l)))).

(** [HeldCountsByUser] (subscription/repo/user_caps.go), for one user. *)
Definition HeldCountsByUser (userID : uuid) : M store serr Z := gets (λ s,
  Z.of_nat (length (List.filter (λ r, (s_UserID r =? userID)%N && is_none (s_RenewalClosedAt r)) (subs s)))).

(** [ExpiryCandidates]: due reservations of pending orders by expiry;
    [locked] are the orders other transactions hold. *)
Definition due_order (a b : reservation_row) : Prop :=
  rs_ExpiresAt a < rs_ExpiresAt b ∨ (rs_ExpiresAt a = rs_ExpiresAt b ∧ (rs_ID a ≤ rs_ID b)%N).
#[global] Instance due_order_dec : RelDecision due_order.
Proof. intros a b. unfold due_order. apply _. Defined.
Definition expiry_candidate (locked : uuid → bool) (at_ : Time) (b : book) (r : reservation_row) : bool :=
  String.eqb (rs_State r) ReservationHeld && (rs_ExpiresAt r <=? at_) &&
  match orders b !! rs_OrderID r with Some o => String.eqb (od_Status o) StatusPending | None => false end &&
  negb (locked (rs_OrderID r)).
Definition ExpiryCandidates (locked : uuid → bool) (at_ : Time) (limit : nat) : WM (list uuid) := gets (λ w,
  map rs_OrderID (take limit (List.filter (expiry_candidate locked at_ (w_book w))
    (merge_sort due_order (map snd (map_to_list (reservations (w_book w)))))))).

(** ** Lines (repo/items.go) *)

Definition intervals : list string := ["day"; "week"; "month"; "quarter"; "year"; "one_time"].
Definition item_check (i : item_row) : bool :=
  pg_text (li_Name i) && between 1 (RuneCountInString (li_Name i)) 200 && opt_ok (λ v, 0 <? v) (li_PlanVersion i) &&
  opt_ok (λ s, one_of s intervals) (li_Interval i) && opt_ok (λ n, between 1 n 32767) (li_IntervalCount i) &&
  (0 <? li_Quantity i) && negb (IsNegative (li_UnitAmount i)) && negb (IsNegative (li_LineAmount i)) &&
  Equal (li_LineAmount i) (Nat.iter (Z.to_nat (li_Quantity i)) (dec_add (li_UnitAmount i)) dec_zero) &&
  negb (is_none (li_PlanID i)) && negb (is_none (li_PlanVersionID i)) && negb (is_none (li_PlanVersion i)) &&
  (Bool.eqb (is_none (li_PriceID i)) (is_none (li_Interval i)) && Bool.eqb (is_none (li_PriceID i)) (is_none (li_IntervalCount i))).
Definition item_fk (W : OrderEnv X) (w : world X) (i : item_row) : bool :=
  has_order w (li_OrderID i) && mem_opt (li_PriceID i) (env_prices (oe_sub W)) &&
  match li_PlanID i, li_PlanVersionID i with
  | Some p, Some v => bool_decide ((p, v) ∈ env_versions (oe_sub W))
  | _, _ => false
  end.
Definition CreateItem (W : OrderEnv X) (i : item_row) : WM () := λ w,
  if negb (checkMoney [li_UnitAmount i; li_LineAmount i]) then (Err OMoney, w)
  else if negb (forallb numeric_fits [li_UnitAmount i; li_LineAmount i] && opt_ok int4 (li_PlanVersion i) && int4 (li_Quantity i))
  then (Err (ODB DBOther), w)
  else if negb (item_check i) then (Err (ODB DBCheck), w)
  else if negb (item_fk W w i) then (Err (ODB DBForeignKey), w)
  else (Ok (), set_book (add_item i) w).
Definition ItemsByOrder (id : uuid) : WM (list item_row) := gets (λ w,
  List.filter (λ i, (li_OrderID i =? id)%N) (items (w_book w))).

(** ** Reservations (repo/reservations.go) *)

Definition reservation_check (r : reservation_row) : bool :=
  let c := is_none (rs_CapturedAt r) in
  let l := is_none (rs_ReleasedAt r) in
  let n := is_none (rs_ReleaseReason r) in
  opt_text 1 500 (rs_ReleaseReason r) &&
  ((String.eqb (rs_State r) ReservationHeld && c && l && n) ||
   (String.eqb (rs_State r) ReservationCaptured && negb c && l && n) ||
   (String.eqb (rs_State r) ReservationReleased && negb l && c && negb n)).
Definition CreateReservation (W : OrderEnv X) (mk : uuid → reservation_row) : WM reservation_row := λ w,
  let r := mk (order_next (w_book w)) in
  if negb (reservation_check r) then (Err (ODB DBCheck), w)
  else if bool_decide (is_Some (reservations (w_book w) !! rs_OrderID r)) then (Err (ODB DBUnique), w)
  else if negb (has_order w (rs_OrderID r) && bool_decide (rs_UserID r ∈ env_users (oe_sub W))) then (Err (ODB DBForeignKey), w)
  else (Ok r, set_book (λ b, bump_order (set_reservations (<[rs_OrderID r := r]>) b)) w).
Definition ReservationByOrder (id : uuid) : WM (option reservation_row) := gets (λ w, reservations (w_book w) !! id).

Definition moved (to : string) (at_ : Time) (reason : option string) (r : reservation_row) : reservation_row :=
  if String.eqb to ReservationCaptured
  then mkReservation (rs_ID r) (rs_OrderID r) (rs_UserID r) to (rs_ExpiresAt r) (rs_HeldAt r) (Some at_) (rs_ReleasedAt r)
         (rs_ReleaseReason r)
  else mkReservation (rs_ID r) (rs_OrderID r) (rs_UserID r) to (rs_ExpiresAt r) (rs_HeldAt r) (rs_CapturedAt r) (Some at_) reason.
Definition UpdateReservation (id : uuid) (from to : string) (at_ : Time) (reason : option string) : WM bool := λ w,
  if negb (one_of to [ReservationCaptured; ReservationReleased]) then (Err OInternal, w)
  else
    let hit r := (rs_ID r =? id)%N && String.eqb (rs_State r) from in
    let rows := List.filter hit (map snd (map_to_list (reservations (w_book w)))) in
    if negb (forallb (λ r, reservation_check (moved to at_ reason r)) rows) then (Err (ODB DBCheck), w)
    else (Ok (Nat.eqb (length rows) 1),
          set_book (set_reservations (fmap (λ r, if hit r then moved to at_ reason r else r))) w).

Definition resevent_check (e : resevent_row) : bool :=
  one_of (act_Kind (re_Actor e)) [ActorUser; ActorAdmin; ActorSystem; ActorPayment] &&
  Bool.eqb (one_of (act_Kind (re_Actor e)) [ActorUser; ActorAdmin]) (negb (is_none (act_ID (re_Actor e)))) &&
  opt_text 1 500 (re_Reason e) &&
  ((String.eqb (re_Kind e) EventReserve && is_none (re_From e) && String.eqb (re_To e) ReservationHeld) ||
   (String.eqb (re_Kind e) EventCapture && bool_decide (re_From e = Some ReservationHeld) && String.eqb (re_To e) ReservationCaptured) ||
   (one_of (re_Kind e) [EventExpire; EventCancel] && bool_decide (re_From e = Some ReservationHeld) &&
    String.eqb (re_To e) ReservationReleased)).
(** One initial and one final event per reservation. *)
Definition same_phase (e x : resevent_row) : bool :=
  (re_ReservationID x =? re_ReservationID e)%N &&
  Bool.eqb (String.eqb (re_To x) ReservationHeld) (String.eqb (re_To e) ReservationHeld).
Definition InsertReservationEvent (W : OrderEnv X) (e : resevent_row) : WM () := λ w,
  if negb (resevent_check e) then (Err (ODB DBCheck), w)
  else if existsb (same_phase e) (res_events (w_book w)) then (Err (ODB DBUnique), w)
  else if negb (match reservations (w_book w) !! re_OrderID e with
                | Some r => (rs_ID r =? re_ReservationID e)%N | None => false end &&
                mem_opt (act_ID (re_Actor e)) (env_users (oe_sub W))) then (Err (ODB DBForeignKey), w)
  else (Ok (), set_book (add_resevent e) w).

(** ** Integrity (repo/integrity.go), before the sample limit *)

Definition PaidUnfulfilledRows (w : world X) : list uuid :=
  map od_ID (List.filter (λ o, String.eqb (od_Status o) StatusPaid) (order_rows (w_book w))).
Definition reservation_mismatch (b : book) (o : order_row) : bool :=
  match reservations b !! od_ID o with
  | Some r => if String.eqb (od_Status o) StatusPending then negb (String.eqb (rs_State r) ReservationHeld)
              else String.eqb (rs_State r) ReservationHeld
  | None => String.eqb (od_Status o) StatusPending
  end.
Definition ReservationMismatchRows (w : world X) : list uuid :=
  map od_ID (List.filter (reservation_mismatch (w_book w)) (order_rows (w_book w))).
End World.
End OrderStore.
