(* ===== verification/OrderFlow.v ===== *)
(** The order flow (panel/internal/module/order/service): placing an order
    (checkout.go, reserve.go, limits.go), settling it (settle.go, fulfil.go),
    closing it when its plan was archived (archived.go), and cancelling and
    expiring it (cancel.go).  Each operation runs in one transaction over the
    order tables, the ledger, the discount codes and the subscriptions. *)
From Stdlib Require Import ZArith QArith Lqa Lia.
From stdpp Require Import base tactics list gmap strings sorting.
From S2P Require Import Prelude Safety Decimal GoString Money GoTime LedgerTypes Ledger Promo Period OrderAmounts Proration SubTypes SubStore Subscription OrderStore.
#[local] Open Scope string_scope.
#[local] Open Scope Z_scope.

Section OrderFlow.
Context `{DL : DecimalLib} {X : Type} (W : OrderEnv X).
Abbreviation WM := (M (world X) oerr).

Record manualDraft := mkManual { md_Grant : bool; md_Offline : bool; md_Reason : string; md_CreatedBy : uuid }.
Record Checkout := mkCheckout { ck_UseBalance : dec; ck_CouponCode : string; ck_Expect : option Expect }.

Record draft := mkDraft {
  dr_Kind : string; dr_UserID : uuid; dr_Subtotal : dec; dr_CouponPlanID : option uuid;
  dr_SubscriptionID : option uuid; dr_Label : option string; dr_Item : option item_row; dr_Checkout : Checkout;
  dr_Credit : dec; dr_AllowWaive : bool; dr_Manual : option manualDraft; dr_Actor : Actor; dr_Audit : string }.

Record Created := mkCreated {
  cr_OrderID : uuid; cr_OrderNo : string; cr_Total : dec; cr_Discount : dec; cr_BalanceApplied : dec;
  cr_Payable : dec; cr_Waived : dec; cr_Status : string; cr_Change : option (dec * dec) }.

Definition lift_err {A E} (f : E → oerr) (r : result E A) : WM A :=
  lift (match r with Ok a => Ok a | Err e => Err (f e) end).

(** A call of a subscription writer, which checks order references against the
    order table. *)
Definition with_sub {A} (f : Env → M store serr A) : WM A := λ w, on_subs (f (sub_env W w)) w.

(** The context the other services see inside this module's transaction. *)
Definition joined (who : option Principal) : ctx := mkCtx true who.

(** * Purchase limits (limits.go) *)

(** [subscriptionCap]: whether the cap is reached. *)
Definition subscriptionCap (userID : uuid) (max : Z) (now : Time) : WM bool :=
  pending ← PendingCounts userID now;
  held ← on_subs (HeldCountsByUser userID);
  mret (max <=? held + pending.2).
Definition checkSubscriptionCap (userID : uuid) (max : Z) (now : Time) : WM () :=
  full ← subscriptionCap userID max now;
  if full : bool then fail OErrTooManySubscriptions else mret ().
Definition checkUnpaidCap (userID : uuid) (max : Z) (now : Time) : WM () :=
  if max <=? 0 then mret ()
  else
    pending ← PendingCounts userID now;
    if max <=? pending.1 then fail OErrTooManyUnpaid else mret ().
Definition purchaseGate (d : draft) (now : Time) : WM (Z * Z) :=
  match dr_Manual d, PurchaseLimits W with
  | Some _, _ | None, None => mret (0, 0)
  | None, Some limits =>
      lim ← lift limits;
      if (lim.1 <=? 0) && (lim.2 <=? 0) then mret (0, 0)
      else
        _ ← (if String.eqb (dr_Kind d) KindNew && (0 <? lim.2) then checkSubscriptionCap (dr_UserID d) lim.2 now
             else mret ());
        mret lim
  end.

(** * Placing an order (checkout.go, reserve.go) *)

Definition no_balance (payable : dec) : BalancePlan := mkBalancePlan dec_zero payable dec_zero false false false dec_zero.

Definition balanceFor (d : draft) (total : dec) : WM BalancePlan :=
  if String.eqb (dr_Kind d) KindTopup || negb (IsPositive total) then mret (no_balance total)
  else match dr_Manual d with
  | Some m =>
      if negb (md_Grant m) && negb (md_Offline m) then
        minPay ← lift (MinPayment W);
        if manualDueBelowMinimum total minPay then fail OErrManualBelowMinimum else mret (no_balance total)
      else mret (no_balance total)
  | None =>
      minPay ← lift (MinPayment W);
      let requested := ck_UseBalance (dr_Checkout d) in
      available ← (if IsPositive requested || LessThan total minPay then on_ledger (Balance (dr_UserID d)) else mret dec_zero);
      let bal := WaiveSmallDue (PlanBalance total available requested minPay) (dr_AllowWaive d) in
      if BelowMinimum bal then fail OErrBelowMinimum else mret bal
  end.

(** [placeOrder]: the order, its reservation and the first event. *)
Definition placeOrder (k : Call) (mk : uuid → order_row) (actor : Actor) : WM order_row :=
  o ← map_err (λ e, match e with
                    | ODB DBUnique =>
                        let kind := od_Kind (mk uuid_Nil) in
                        if change_kind kind then OErrOpenChange
                        else if String.eqb kind KindTrafficReset then OErrOpenReset else OInternal
                    | e => e
                    end) (CreateOrder W mk);
  res ← CreateReservation W (λ id,
    mkReservation id (od_ID o) (od_UserID o) ReservationHeld (od_ExpiresAt o) (k_reserved k) None None None);
  _ ← InsertReservationEvent W
        (mkResEvent (rs_ID res) (od_ID o) None ReservationHeld EventReserve actor None (k_reserved k));
  mret o.

(** [captureReservation]; the caller deals with the balance. *)
Definition captureReservation (k : Call) (o : order_row) (actor : Actor) : WM () :=
  res ← ReservationByOrder (od_ID o);
  match res with
  | None => fail OInternal
  | Some res =>
      updated ← UpdateReservation (rs_ID res) ReservationHeld ReservationCaptured (k_closed k) None;
      if negb updated then fail OErrStateChanged
      else
        _ ← InsertReservationEvent W (mkResEvent (rs_ID res) (od_ID o) (Some ReservationHeld) ReservationCaptured
              EventCapture actor None (k_closed k));
        match od_CouponID o with
        | Some _ => on_promo (PromoCapture true (k_db k) (od_ID o))
        | None => mret ()
        end
  end.

(** ** Plugin events (plugin_events.go) *)

Definition emitOrderCreated (o : order_row) : result oerr () :=
  if one_of (od_Kind o) [KindNew; KindUpgrade; KindStack; KindTrafficReset]
  then match ToCents (od_Total o) with
       | Err _ => Err OMoney
       | Ok total => EmitOrder W "order.created" o [("total", inr total)]
       end
  else Ok ().
Definition emitOrderPaid (o : order_row) (zeroPay : bool) : result oerr () :=
  if zeroPay then
    if negb (one_of (od_Kind o) [KindNew; KindStack; KindTrafficReset]) then Ok ()
    else EmitOrder W "order.paid" o [("amount", inr 0)]
  else match ToCents (od_Total o) with
       | Err _ => Err OMoney
       | Ok cents => EmitOrder W "order.paid" o [("amount", inr cents)]
       end.
Definition provisionedSub (o : order_row) : option uuid :=
  if one_of (od_Kind o) [KindNew; KindRenewal; KindUpgrade; KindStack] then od_SubscriptionID o else None.
Definition emitSubscriptionProvisioned (o : order_row) : result oerr () :=
  match provisionedSub o with Some _ => EmitOrder W "subscription.provisioned" o [] | None => Ok () end.
Definition emitOrderCancelled (o : order_row) (target reason : string) : result oerr () :=
  EmitOrder W "order.cancelled" o
    [("target", inl target); ("reason", inl (if String.eqb reason ReasonExpired then "reservation_expired" else reason))].

(** ** Fulfilment (fulfil.go) *)

Definition reload (id : uuid) : WM order_row :=
  o ← OrderByID id;
  match o with Some o => mret o | None => fail OInternal end.

Definition paid_cols (total : dec) (at_ : Time) (o : order_row) : order_row :=
  mkOrderRow (od_ID o) (od_No o) (od_UserID o) (od_Kind o) StatusPaid (od_Subtotal o) (od_Discount o) (od_Credit o)
    (od_Waived o) (od_Total o) (od_BalanceApplied o) (od_Payable o) total (od_CouponID o) (od_CreatedBy o)
    (od_ManualReason o) (od_SubscriptionID o) (od_Label o) (od_StateVersion o) (od_ExpiresAt o) (Some at_)
    (od_FulfilledAt o) (od_CancelledAt o) (od_ExpiredAt o) (od_CancelReason o) (od_CreatedAt o).
Definition fulfilled_cols (at_ : Time) (sub : option uuid) (o : order_row) : order_row :=
  mkOrderRow (od_ID o) (od_No o) (od_UserID o) (od_Kind o) StatusFulfilled (od_Subtotal o) (od_Discount o) (od_Credit o)
    (od_Waived o) (od_Total o) (od_BalanceApplied o) (od_Payable o) (od_Paid o) (od_CouponID o) (od_CreatedBy o)
    (od_ManualReason o) (match sub with Some s => Some s | None => od_SubscriptionID o end) (od_Label o) (od_StateVersion o)
    (od_ExpiresAt o) (od_PaidAt o) (Some at_) (od_CancelledAt o) (od_ExpiredAt o) (od_CancelReason o) (od_CreatedAt o).

Definition markPaid (o : order_row) (at_ : Time) : WM order_row :=
  ok ← UpdateOrder W (od_ID o) StatusPending (Some (od_Total o)) (paid_cols (od_Total o) at_);
  if negb ok then fail OErrStateChanged else reload (od_ID o).

Definition onlyItem (o : order_row) : WM item_row :=
  l ← ItemsByOrder (od_ID o);
  match l with [i] => mret i | _ => fail OInternal end.

(** [itemPrice]: the line as the subscription's price snapshot. *)
Definition itemPrice (i : item_row) : result oerr Price :=
  match li_Interval i, li_IntervalCount i with
  | Some iv, Some n =>
      days ← (match li_PriceID i with
              | Some p => if String.eqb iv "one_time"
                          then m ← PriceDays W [p];
                               match m !! p with Some d => Ok d | None => Err OInternal end
                          else Ok None
              | None => Ok None
              end);
      Ok (mkPriceSnap (li_PriceID i) (li_UnitAmount i) (mkPrice iv n days))
  | _, _ => Err OInternal
  end.

Definition refund_posting (o : order_row) (refund : dec) : Posting :=
  mkPosting KindPlanChangeRefund SourceOrder (od_ID o) "换套餐剩余价值退回余额"
    [mkLeg (PlatformAccount PlatformRevenue RefMain) Debit refund;
     mkLeg (UserAccount UserBalance (od_UserID o)) Credit refund].

Definition fulfilPlanChange (who : option Principal) (k : Call) (o : order_row) (actor : Actor) : WM () :=
  match od_SubscriptionID o with
  | None => fail OInternal
  | Some sub =>
      it ← onlyItem o;
      match li_PlanID it, li_PlanVersionID it with
      | Some plan, Some version =>
          price ← lift (itemPrice it);
          _ ← with_sub (λ S, ChangePlan S true (k_sub k)
                (mkPlanChange sub (od_UserID o) plan version price (Some (od_ID o)) None actor));
          let refund := planChangeRefund (od_Credit o) (od_Subtotal o) (od_Discount o) in
          if negb (IsPositive refund) then mret ()
          else _ ← on_ledger (Post (joined who) (refund_posting o refund)); mret ()
      | _, _ => fail OInternal
      end
  end.

(** The step of each kind; the subscription a new order opened. *)
Definition deliver (who : option Principal) (k : Call) (o : order_row) (at_ : Time) (actor : Actor) : WM (option uuid) :=
  let kind := od_Kind o in
  if String.eqb kind KindTopup then mret None
  else if String.eqb kind KindNew then
    it ← onlyItem o;
    match li_PlanID it, li_PlanVersionID it with
    | Some plan, Some version =>
        price ← lift (itemPrice it);
        sub ← with_sub (λ S, Provision S true (k_sub k) (k_proxy k) (k_token k)
                (mkProvision (od_UserID o) plan version price (Some (od_ID o)) (default "" (od_Label o)) actor));
        mret (Some (s_ID sub))
    | _, _ => fail OInternal
    end
  else if String.eqb kind KindRenewal then
    match od_SubscriptionID o with
    | None => fail OInternal
    | Some sub =>
        it ← onlyItem o;
        price ← lift (itemPrice it);
        _ ← with_sub (λ S, Renew S true (k_sub k)
              (mkRenewal sub (od_UserID o) price at_ (Some (od_CreatedAt o)) (Some (od_ID o)) actor "order"));
        mret None
    end
  else if String.eqb kind KindUpgrade then _ ← fulfilPlanChange who k o actor; mret None
  else if String.eqb kind KindStack then
    match od_SubscriptionID o with
    | None => fail OInternal
    | Some sub =>
        it ← onlyItem o;
        match li_PlanVersionID it with
        | None => fail OInternal
        | Some version =>
            price ← lift (itemPrice it);
            _ ← with_sub (λ S, Stack S true (k_wall k) (k_sub k)
                  (mkStacking sub (od_UserID o) version price at_ (Some (od_ID o)) None actor "order"));
            mret None
        end
    end
  else if String.eqb kind KindTrafficReset then
    match od_SubscriptionID o with
    | None => fail OInternal
    | Some sub =>
        _ ← with_sub (λ S, ResetTraffic S true (k_sub k)
              (mkTrafficReset sub (Some (od_UserID o)) ResetOrder None (od_No o) at_));
        mret None
    end
  else fail OInternal.

Definition fulfil (who : option Principal) (k : Call) (o : order_row) (at_ : Time) (actor : Actor) : WM order_row :=
  if negb (String.eqb (od_Status o) StatusPaid) then fail OErrStateChanged
  else
    sub ← deliver who k o at_ actor;
    ok ← UpdateOrder W (od_ID o) StatusPaid None (fulfilled_cols at_ sub);
    if negb ok then fail OErrStateChanged else reload (od_ID o).

(** [subActor]: the identifier only where the kind carries one. *)
Definition subActor (a : Actor) : Actor :=
  if one_of (act_Kind a) [ActorUser; ActorAdmin] then a
  else if String.eqb (act_Kind a) ActorPayment then mkActor ActorPayment None else mkActor ActorSystem None.

Definition settleZeroPay (who : option Principal) (k : Call) (o : order_row) (actor : Actor) : WM order_row :=
  _ ← captureReservation k o actor;
  _ ← (if IsPositive (od_BalanceApplied o)
       then _ ← on_ledger_fk (λ orders, CaptureFromBalance orders (joined who) (mkHoldInput (od_ID o) (od_UserID o) (od_BalanceApplied o))); mret ()
       else mret ());
  paid ← markPaid o (k_paid k);
  done ← fulfil who k paid (k_paid k) (subActor actor);
  _ ← lift (emitOrderPaid done true);
  mret done.

(** ** Discount codes in [place] *)

(** The code of the draft, the discount and the coupon. *)
Definition place_coupon (k : Call) (d : draft) : WM (string * dec * option uuid) :=
  if String.eqb (dr_Kind d) KindTopup || negb (is_none (dr_Manual d)) then mret ("", dec_zero, None)
  else
    let code := NormalizeCode (ck_CouponCode (dr_Checkout d)) in
    if String.eqb (dr_Kind d) KindTrafficReset then
      if negb (String.eqb code "") then fail (OPromo ErrCouponNotForReset) else mret (code, dec_zero, None)
    else if negb (String.eqb code "") then
      _ ← on_promo (PromoLock code);
      applied ← on_promo (Evaluate (oe_promo W) (k_evaluate k) code (mkTarget (dr_UserID d) (dr_CouponPlanID d) (dr_Subtotal d)));
      mret (match applied with
            | Some a => (code, ap_Discount a, Some (ap_CouponID a))
            | None => (code, dec_zero, None)
            end)
    else mret (code, dec_zero, None).

(** The reservation of the code must give what the evaluation did. *)
Definition reserve_coupon (k : Call) (d : draft) (o : order_row) (code : string) (discount : dec) (couponID : option uuid)
    (total : dec) : WM order_row :=
  if String.eqb code "" then mret o
  else
    reserved ← (λ w, on_promo (Reserve (oe_promo W) (has_order w) true (k_reserve k) code
                 (mkTarget (dr_UserID d) (dr_CouponPlanID d) (dr_Subtotal d)) (mkOrderRef (od_ID o) (od_No o))) w);
    match reserved with
    | None => fail (OAmounts ErrQuoteChanged)
    | Some a =>
        if match couponID with Some c => negb (ap_CouponID a =? c)%N | None => false end then fail (OAmounts ErrQuoteChanged)
        else if negb (Equal (ap_Discount a) discount) then fail (OAmounts ErrQuoteChanged)
        else if negb (Equal (OrderTotal (dr_Subtotal d) (ap_Discount a) (dr_Credit d)) total) then fail (OAmounts ErrQuoteChanged)
        else mret (mkOrderRow (od_ID o) (od_No o) (od_UserID o) (od_Kind o) (od_Status o) (od_Subtotal o) (ap_Discount a)
                     (od_Credit o) (od_Waived o) (od_Total o) (od_BalanceApplied o) (od_Payable o) (od_Paid o)
                     (Some (ap_CouponID a)) (od_CreatedBy o) (od_ManualReason o) (od_SubscriptionID o) (od_Label o)
                     (od_StateVersion o) (od_ExpiresAt o) (od_PaidAt o) (od_FulfilledAt o) (od_CancelledAt o) (od_ExpiredAt o)
                     (od_CancelReason o) (od_CreatedAt o))
    end.

Definition new_order (k : Call) (d : draft) (no : string) (discount total : dec) (couponID : option uuid) (bal : BalancePlan)
    (id : uuid) : order_row :=
  mkOrderRow id no (dr_UserID d) (dr_Kind d) StatusPending (dr_Subtotal d) discount (dr_Credit d) (Waived bal)
    (dec_sub total (Waived bal)) (Applied bal) (Payable bal) dec_zero couponID
    (md_CreatedBy <$> dr_Manual d) (md_Reason <$> dr_Manual d) (dr_SubscriptionID d) (dr_Label d) 1
    (k_now k + PaymentWindow) None None None None None (k_created k).

Definition created_of (o : order_row) : Created :=
  mkCreated (od_ID o) (od_No o) (od_Total o) (od_Discount o) (od_BalanceApplied o) (od_Payable o) (od_Waived o) (od_Status o)
    (if String.eqb (od_Kind o) KindUpgrade
     then Some (od_Credit o, planChangeRefund (od_Credit o) (od_Subtotal o) (od_Discount o)) else None).

(** [place]: everything of a new order in the caller's transaction. *)
Definition place (who : option Principal) (k : Call) (d : draft) : WM (Created * order_row) :=
  let now := k_now k in
  lim ← purchaseGate d now;
  cc ← place_coupon k d;
  let code := cc.1.1 in
  let couponID := cc.2 in
  let discount := if match dr_Manual d with Some m => md_Grant m | None => false end then dr_Subtotal d else cc.1.2 in
  let total := OrderTotal (dr_Subtotal d) discount (dr_Credit d) in
  bal ← balanceFor d total;
  _ ← (if is_none (dr_Manual d) && IsPositive (Payable bal) then checkUnpaidCap (dr_UserID d) lim.1 now else mret ());
  if match dr_Manual d with Some m => md_Offline m | None => false end && negb (IsPositive (Payable bal))
  then fail (if String.eqb (dr_Kind d) KindUpgrade then OErrOfflineChangeNothingDue else OErrOfflineNothingDue)
  else
    _ ← lift_err OAmounts (checkExpect (ck_Expect (dr_Checkout d)) total bal now);
    no ← lift_err OAmounts (newOrderNo now (k_reads k));
    o ← placeOrder k (new_order k d no discount total couponID bal) (dr_Actor d);
    o ← reserve_coupon k d o code discount couponID total;
    _ ← (match dr_Item d with
         | Some i => CreateItem W (mkItemRow (od_ID o) (li_PriceID i) (li_PlanID i) (li_PlanVersionID i) (li_Name i)
                       (li_PlanVersion i) (li_Interval i) (li_IntervalCount i) (li_Entitlements i) (li_Quotas i)
                       (li_Quantity i) (li_UnitAmount i) (li_LineAmount i))
         | None => mret ()
         end);
    _ ← (if IsPositive (Payable bal) && IsPositive (Applied bal)
         then _ ← on_ledger_fk (λ orders, HoldForOrder orders (joined who) (mkHoldInput (od_ID o) (dr_UserID d) (Applied bal))); mret ()
         else mret ());
    _ ← lift (emitOrderCreated o);
    o ← (if IsZero (Payable bal) then settleZeroPay who k o (dr_Actor d) else mret o);
    _ ← (if String.eqb (dr_Audit d) "" then mret () else order_audit (dr_Audit d) (od_ID o));
    mret (created_of o, o).

(** * Settling (settle.go) *)

Record SettleInput := mkSettle {
  si_OrderID : uuid; si_Amount : dec; si_Fee : dec; si_Surcharge : dec; si_Provider : string; si_PaymentID : uuid }.

Definition planOrder (kind : string) : bool := one_of kind [KindNew; KindRenewal; KindStack; KindUpgrade].
Definition planArchivedFor (i : item_row) : result oerr bool :=
  match li_PlanID i with
  | None => Ok false
  | Some p => m ← PlanStatuses W [p]; Ok (bool_decide (m !! p = Some PlanArchived))
  end.

(** ** Which quota a traffic reset is sold by (reset_order.go) *)

(** [sortQuotas] (subscription/service/internal.go): by metric, newest period
    first, then by kind of period. *)
Definition quota_order (a b : quota_row) : Prop :=
  if negb (String.eqb (q_Metric a) (q_Metric b)) then String.leb (q_Metric a) (q_Metric b) = true
  else if negb (q_PeriodStart a =? q_PeriodStart b) then q_PeriodStart b < q_PeriodStart a
  else String.leb (q_Period a) (q_Period b) = true.
#[global] Instance quota_order_dec : RelDecision quota_order.
Proof. intros a b. unfold quota_order. repeat case_match; apply _. Defined.
Definition Quotas (subID : uuid) : WM (list quota_row) :=
  rows ← on_subs (map_err subErr (QuotasBySubscriptions [subID]));
  mret (merge_sort quota_order rows).

Definition longerPeriod (a b : quota_row) : bool :=
  match q_PeriodEnd a, q_PeriodEnd b with
  | Some x, Some y => Sub y (q_PeriodStart b) <? Sub x (q_PeriodStart a)
  | None, Some _ => true
  | _, None => false
  end.
Definition resetBasis (qs : list quota_row) : option quota_row :=
  foldl (λ best q,
    if negb (String.eqb (q_Metric q) SubTypes.MetricTraffic) || is_none (q_LimitValue q) then best
    else match best with
         | None => Some q
         | Some b => if longerPeriod q b then Some q else best
         end) None qs.
Definition periodEnded (q : quota_row) (now : Time) : bool :=
  match q_PeriodEnd q with Some e => negb (After e now) | None => false end.

Definition resetPayable (o : order_row) (sub : sub_row) (now : Time) : WM bool :=
  if negb (bool_decide (state_of sub now = StateLive)) then mret false
  else
    it ← onlyItem o;
    if negb (bool_decide (li_PlanVersionID it = Some (s_PlanVersionID sub))) then mret false
    else
      qs ← Quotas (s_ID sub);
      match resetBasis qs with
      | None => mret false
      | Some b => mret (negb (periodEnded b now || After (q_PeriodStart b) (od_CreatedAt o)))
      end.

Definition topup_legs (o : order_row) (i : SettleInput) : list Leg :=
  let net := dec_sub (dec_add (si_Amount i) (si_Surcharge i)) (si_Fee i) in
  ((if IsPositive net then [mkLeg (PlatformAccount ChannelCash (si_Provider i)) Debit net] else []) ++
   (if IsPositive (si_Fee i) then [mkLeg (PlatformAccount PlatformFeeExpense (si_Provider i)) Debit (si_Fee i)] else []) ++
   [mkLeg (UserAccount UserBalance (od_UserID o)) Credit (si_Amount i)] ++
   (if IsPositive (si_Surcharge i)
    then [mkLeg (PlatformAccount PlatformRevenue RefSurcharge) Credit (si_Surcharge i)] else []))%list.

Definition postSettlement (who : option Principal) (o : order_row) (i : SettleInput) : WM () :=
  if String.eqb (od_Kind o) KindTopup then
    _ ← on_ledger (Post (joined who) (mkPosting KindBalanceTopup SourceOrder (od_ID o) "余额充值" (topup_legs o i)));
    mret ()
  else
    _ ← map_err (λ e, match e with OLedger ErrHoldReleased => ONotPayable CaseReleasedOrder (od_Status o) | e => e end)
          (on_ledger (PostOrderPaid (joined who)
             (mkOrderPaid (od_ID o) (od_UserID o) (od_Total o) (si_Amount i) (si_Fee i) (si_Surcharge i) (si_Provider i))));
    mret ().

(** The checks on the target subscription; [item] is the order's line when it
    buys a plan. *)
Definition settle_target (o : order_row) (item : option item_row) (now : Time) : WM () :=
  let refuse := fail (ONotPayable CaseIneligibleSubscription (od_Status o)) in
  if negb (one_of (od_Kind o) [KindRenewal; KindUpgrade; KindStack; KindTrafficReset]) then mret ()
  else match od_SubscriptionID o with
  | None => fail OInternal
  | Some id =>
      sub ← on_subs (lockOwned id (Some (od_UserID o)));
      if negb (String.eqb (od_Kind o) KindTrafficReset) && negb (AcceptsChange (state_of sub now)) then refuse
      else if String.eqb (od_Kind o) KindUpgrade && After (s_PeriodStart sub) (od_CreatedAt o) then refuse
      else if one_of (od_Kind o) [KindRenewal; KindStack] &&
              negb (bool_decide ((i ← item; li_PlanID i) = Some (s_PlanID sub))) then refuse
      else if String.eqb (od_Kind o) KindTrafficReset then
        ok ← resetPayable o sub now;
        if negb ok then refuse else mret ()
      else mret ()
  end.

Definition SettlePayment (who : option Principal) (k : Call) (i : SettleInput) : WM () :=
  o ← OrderByID (si_OrderID i);
  match o with
  | None => fail OErrNotFound
  | Some o =>
      if one_of (od_Status o) [StatusPaid; StatusFulfilled] then fail (ONotPayable CaseExcessCapture (od_Status o))
      else if one_of (od_Status o) [StatusCancelled; OrderExpired] then fail (ONotPayable CaseReleasedOrder (od_Status o))
      else if negb (String.eqb (od_Status o) StatusPending) then fail OInternal
      else if negb (IsPositive (od_Payable o)) || negb (Equal (si_Amount i) (od_Payable o)) then fail OErrAmountMismatch
      else
        let now := k_now k in
        item ← (if planOrder (od_Kind o) then
                  it ← onlyItem o;
                  archived ← lift (planArchivedFor it);
                  if archived : bool then fail (ONotPayable CaseArchivedPlan (od_Status o)) else mret (Some it)
                else mret None);
        _ ← settle_target o item now;
        _ ← captureReservation k o (mkActor ActorPayment None);
        _ ← postSettlement who o i;
        paid ← markPaid o now;
        _ ← (match OnOrderPaid W with
             | Some hook =>
                 if negb (String.eqb (od_Kind o) KindTopup) && IsPositive (od_Total o)
                 then on_ledger_ext (hook (who, k, mkPaidOrder (od_ID o) (od_No o) (od_UserID o) (od_Kind o) (od_Total o) (si_Amount i)
                                             now (si_PaymentID i)))
                 else mret ()
             | None => mret ()
             end);
        done ← fulfil who k paid now (mkActor ActorPayment None);
        _ ← lift (emitOrderPaid done false);
        _ ← lift (emitSubscriptionProvisioned done);
        order_audit "payment.succeeded" (od_ID o)
  end.

(** * Releasing (reserve.go) *)

Definition closed_cols (to reason : string) (at_ : Time) (o : order_row) : order_row :=
  let c := String.eqb to StatusCancelled in
  mkOrderRow (od_ID o) (od_No o) (od_UserID o) (od_Kind o) to (od_Subtotal o) (od_Discount o) (od_Credit o)
    (od_Waived o) (od_Total o) (od_BalanceApplied o) (od_Payable o) (od_Paid o) (od_CouponID o) (od_CreatedBy o)
    (od_ManualReason o) (od_SubscriptionID o) (od_Label o) (od_StateVersion o) (od_ExpiresAt o) (od_PaidAt o)
    (od_FulfilledAt o) (if c then Some at_ else od_CancelledAt o) (if c then od_ExpiredAt o else Some at_)
    (if c then Some reason else od_CancelReason o) (od_CreatedAt o).

(** [releaseOrderWith]; [before] runs between the code's release and the
    balance's. *)
Definition releaseOrderWith (who : option Principal) (k : Call) (o : order_row) (to reason event : string) (actor : Actor)
    (before : WM ()) : WM order_row :=
  if negb (String.eqb (od_Status o) StatusPending) then fail OErrStateChanged
  else
    res ← ReservationByOrder (od_ID o);
    match res with
    | None => fail OInternal
    | Some res =>
        if negb (String.eqb (rs_State res) ReservationHeld) then fail OErrStateChanged
        else
          updated ← UpdateReservation (rs_ID res) ReservationHeld ReservationReleased (k_closed k) (Some reason);
          if negb updated then fail OErrStateChanged
          else
            _ ← InsertReservationEvent W (mkResEvent (rs_ID res) (od_ID o) (Some ReservationHeld) ReservationReleased event
                  actor (Some reason) (k_closed k));
            _ ← (match od_CouponID o with
                 | Some _ => on_promo (PromoRelease true (k_db k) (od_ID o) reason)
                 | None => mret ()
                 end);
            _ ← before;
            _ ← (if IsPositive (od_BalanceApplied o) then
                   released ← on_ledger (ReleaseOrderHold (joined who) (od_ID o) reason);
                   if negb released then fail OInternal else mret ()
                 else mret ());
            _ ← on_ext (CloseOrderIntents W (od_ID o) (if String.eqb to OrderExpired then "expired" else "cancelled"));
            ok ← UpdateOrder W (od_ID o) StatusPending None (closed_cols to reason (k_closed k));
            if negb ok then fail OErrStateChanged
            else
              _ ← order_audit (if String.eqb to OrderExpired then "order.expired" else "order.cancelled") (od_ID o);
              _ ← lift (emitOrderCancelled o to reason);
              reload (od_ID o)
    end.
Definition releaseOrder (who : option Principal) (k : Call) (o : order_row) (to reason event : string) (actor : Actor)
    : WM order_row :=
  releaseOrderWith who k o to reason event actor (mret ()).

(** [CloseArchivedOrder] (archived.go); [settle] is what the payment module
    does with the money, in the ledger and its own tables. *)
Definition CloseArchivedOrder (inTx : bool) (who : option Principal) (k : Call) (orderID : uuid)
    (settle : string → M (ledger * X) oerr ()) : WM () :=
  order_tx inTx (
    o ← OrderByID orderID;
    match o with
    | None => fail OErrNotFound
    | Some o =>
        if negb (String.eqb (od_Status o) StatusPending) then on_ledger_ext (settle (od_Status o))
        else
          _ ← releaseOrderWith who k o StatusCancelled ReasonPlanArchived EventCancel (mkActor ActorPayment None)
                (on_ledger_ext (settle (od_Status o)));
          mret ()
    end).

(** * Cancelling and expiring (cancel.go) *)

Definition actorFrom (p : Principal) : Actor :=
  mkActor (if String.eqb (pr_Audience p) AudienceAdmin then ActorAdmin else ActorUser) (Some (pr_UserID p)).
Definition order_principal (who : option Principal) : result oerr Principal :=
  match who with
  | Some p => if (pr_UserID p =? uuid_Nil)%N then Err OUnauthorized else Ok p
  | None => Err OUnauthorized
  end.
Definition adminPrincipal (who : option Principal) : result oerr Principal :=
  p ← order_principal who;
  if negb (String.eqb (pr_Audience p) AudienceAdmin) then Err OForbidden else Ok p.

Definition reasonMinRunes : Z := 5.
Definition reasonMaxRunes : Z := 500.
Definition checkReason (reason : string) : result oerr string :=
  let r := TrimSpace reason in
  let n := RuneCountInString r in
  if (n <? reasonMinRunes) || (reasonMaxRunes <? n) || ContainsNUL r then Err (OInvalid "reason") else Ok r.

Record CancelInput := mkCancel { ci_OrderID : uuid; ci_Admin : bool; ci_Version : option Z; ci_Reason : string }.

(** [Cancel]: the order, and whether it was cancelled already. *)
Definition Cancel (inTx : bool) (who : option Principal) (k : Call) (i : CancelInput) : WM (order_row * bool) :=
  p ← lift (order_principal who);
  reason ← lift (if ci_Admin i then
                   _ ← adminPrincipal who;
                   r ← checkReason (ci_Reason i);
                   if is_none (ci_Version i) then Err (OInvalid "expected_state_version") else Ok r
                 else Ok ReasonUserCancelled);
  order_tx inTx (
    o ← (if ci_Admin i then OrderByID (ci_OrderID i) else OrderForUser (ci_OrderID i) (pr_UserID p));
    match o with
    | None => fail OErrNotFound
    | Some o =>
        let st := od_Status o in
        if String.eqb st StatusCancelled then mret (o, true)
        else if String.eqb st OrderExpired then fail OErrOrderExpired
        else if one_of st [StatusPaid; StatusFulfilled] then fail OErrAlreadyPaid
        else if negb (String.eqb st StatusPending) then fail OErrConflict
        else if ci_Admin i && negb (bool_decide (ci_Version i = Some (od_StateVersion o))) then fail OErrStateChanged
        else
          r ← releaseOrder who k o StatusCancelled reason EventCancel (actorFrom p);
          mret (r, false)
    end).

Fixpoint cancel_all (who : option Principal) (k : Call) (p : Principal) (l : list order_row) : WM () :=
  match l with
  | [] => mret ()
  | o :: l' =>
      _ ← releaseOrder who k o StatusCancelled ReasonAccountDeleted EventCancel (actorFrom p);
      cancel_all who k p l'
  end.
Definition CancelUserPending (inTx : bool) (who : option Principal) (k : Call) (userID : uuid) : WM Z :=
  p ← lift (adminPrincipal who);
  order_tx inTx (
    l ← PendingOrdersForUser userID;
    _ ← cancel_all who k p l;
    mret (Z.of_nat (length l))).

(** [expireOne]: a transaction of its own; an order locked elsewhere is as good
    as absent. *)
Definition expireOne (k : Call) (locked : uuid → bool) (id : uuid) : WM bool :=
  order_tx false (
    o ← (if locked id then mret None else OrderByID id);
    match o with
    | None => mret false
    | Some o =>
        if negb (String.eqb (od_Status o) StatusPending) || (k_now k <? od_ExpiresAt o) then mret false
        else
          _ ← releaseOrder None k o OrderExpired ReasonExpired EventExpire (mkActor ActorSystem None);
          mret true
    end).

Record ExpireStats := mkExpireStats { st_Scanned : Z; st_Expired : Z; st_Skipped : Z; st_Failed : Z }.
Definition ExpireBatchDefault : Z := 50.
Definition ExpireBatchMax : Z := 500.

(** One order after another; an error is counted and the round goes on. *)
Fixpoint expire_all (ks : uuid → Call) (locked : uuid → bool) (ids : list uuid) (st : ExpireStats) : WM ExpireStats :=
  match ids with
  | [] => mret st
  | id :: ids' => λ w,
      let '(r, w') := expireOne (ks id) locked id w in
      let st' := match r with
                 | Ok true => mkExpireStats (st_Scanned st) (st_Expired st + 1) (st_Skipped st) (st_Failed st)
                 | Ok false | Err OErrStateChanged => mkExpireStats (st_Scanned st) (st_Expired st) (st_Skipped st + 1) (st_Failed st)
                 | Err _ => mkExpireStats (st_Scanned st) (st_Expired st) (st_Skipped st) (st_Failed st + 1)
                 end in
      expire_all ks locked ids' st' w'
  end.
(** [ExpireDue]; the context may be cancelled after some of the orders. *)
Definition ExpireOrders (ks : uuid → Call) (locked : uuid → bool) (uncancelled : nat) (now : Time) (limit0 : Z) : WM ExpireStats :=
  let limit := if limit0 <=? 0 then ExpireBatchDefault else limit0 in
  let limit := if ExpireBatchMax <? limit then ExpireBatchMax else limit in
  ids ← order_tx false (ExpiryCandidates locked now (Z.to_nat limit));
  expire_all ks locked (take uncancelled ids) (mkExpireStats (Z.of_nat (length ids)) 0 0 0).
End OrderFlow.
