(* ===== verification/OrderInv.v ===== *)
(** The invariant of the order flow.  What the tables say about one order is its
    [view]: the order, its reservation, its use of a discount code and its hold
    on the balance.  A view is [consistent] when the four agree; [core] is what
    holds also in the middle of a transaction.

    What each step of the order flow does to the view of the order it works on,
    and that it leaves the views of all other orders alone. *)
From Stdlib Require Import ZArith QArith Lqa Lia.
From stdpp Require Import base tactics list gmap strings sorting relations.
From S2P Require Import Prelude Safety Decimal GoString Money LedgerTypes LedgerFacts Ledger LedgerInv LedgerOps GoTime Promo PromoThms Period.
From S2P Require Import OrderAmounts Proration SubTypes SubStore SubFacts Subscription Sweep Charge Roll SubHistory OrderStore OrderFlow.
#[local] Open Scope string_scope.
#[local] Open Scope Z_scope.

Section OrderInv.
Context `{DL : DecimalLib} {X : Type} (W : OrderEnv X).
Abbreviation WM := (M (world X) oerr).

(** * Views *)

Record view := mkView {
  v_order : option order_row; v_res : option reservation_row; v_red : list Redemption; v_hold : option hold_row }.

Definition red_of (id : uuid) (p : promo) : list Redemption := List.filter (λ r, (rd_OrderID r =? id)%N) (redemptions p).
Definition viewOf (id : uuid) (w : world X) : view :=
  mkView (orders (w_book w) !! id) (reservations (w_book w) !! id) (red_of id (w_promo w)) (holds (w_ledger w) !! id).

(** The state of everything an order in status [st] holds. *)
Definition expected (st : string) : string :=
  if String.eqb st StatusPending then "held" else if settled_status st then "captured" else "released".

Definition res_tracks (st : string) (o : order_row) (r : option reservation_row) : Prop :=
  ∃ x, r = Some x ∧ rs_State x = st ∧ rs_UserID x = od_UserID o ∧ rs_ExpiresAt x = od_ExpiresAt o.
Definition red_tracks (st : string) (o : order_row) (l : list Redemption) : Prop :=
  match od_CouponID o with
  | Some c => ∃ x, l = [x] ∧ rd_Status x = st ∧ rd_CouponID x = c ∧ rd_UserID x = od_UserID o ∧
                   (val (rd_Discount x) == val (od_Discount o))%Q
  | None => l = []
  end.
Definition hold_tracks (st : string) (o : order_row) (h : option hold_row) : Prop :=
  if IsPositive (od_BalanceApplied o)
  then ∃ x, h = Some x ∧ h_status x = st ∧ h_user x = od_UserID o ∧ (val (h_amount x) == val (od_BalanceApplied o))%Q
  else h = None.

Definition consistent (v : view) : Prop :=
  match v_order v with
  | None => v_res v = None ∧ v_red v = [] ∧ v_hold v = None
  | Some o =>
      let st := expected (od_Status o) in
      od_Status o ≠ StatusPaid ∧ res_tracks st o (v_res v) ∧ red_tracks st o (v_red v) ∧ hold_tracks st o (v_hold v)
  end.

(** * The invariant *)

Record core (w : world X) : Prop := {
  ck_orders : ∀ id o, orders (w_book w) !! id = Some o → od_ID o = id ∧ (id < order_next (w_book w))%N ∧ order_check W o = true;
  ck_res : ∀ id r, reservations (w_book w) !! id = Some r → rs_OrderID r = id ∧ (rs_ID r < order_next (w_book w))%N;
  ck_resid : ∀ i j r r', reservations (w_book w) !! i = Some r → reservations (w_book w) !! j = Some r' → rs_ID r = rs_ID r' → i = j;
  ck_ledger : good (w_ledger w);
  ck_promo : promo_ok (w_promo w);
  ck_subs : store_ok (sub_env W w) (w_subs w);
}.

Definition world_ok (w : world X) : Prop := core w ∧ ∀ id, consistent (viewOf id w).

(** Nothing changes but what belongs to [id]; nothing changes at all. *)
Definition same_but (id : uuid) (w w' : world X) : Prop := ∀ j, j ≠ id → viewOf j w' = viewOf j w.
Definition same_views (w w' : world X) : Prop := ∀ j, viewOf j w' = viewOf j w.
#[global] Instance same_but_preorder id : PreOrder (same_but id).
Proof. split; [by intros w j|]. intros a b c H1 H2 j Hj. rewrite H2, H1; done. Qed.
#[global] Instance same_views_preorder : PreOrder same_views.
Proof. split; [by intros w j|]. intros a b c H1 H2 j. by rewrite H2, H1. Qed.
Lemma same_views_but id w w' : same_views w w' → same_but id w w'.
Proof. by intros H j _. Qed.

(** An operation on one order. *)
Lemma world_ok_but id w w' : world_ok w → core w' → same_but id w w' → consistent (viewOf id w') → world_ok w'.
Proof.
  intros [_ Hc] Hk Hs Hi. split; [done|]. intros j. destruct (decide (j = id)) as [-> |Hj]; [done|]. by rewrite Hs.
Qed.
Lemma world_ok_views w w' : world_ok w → core w' → same_views w w' → world_ok w'.
Proof. intros [_ Hc] Hk Hs. split; [done|]. intros j. by rewrite Hs. Qed.

(** * Components that leave the views alone *)

Abbreviation quiet := (keeps (E := oerr) core same_views).

Lemma store_ok_orders w w' : dom (orders (w_book w)) ⊆ dom (orders (w_book w')) →
  store_ok (sub_env W w) (w_subs w) → store_ok (sub_env W w') (w_subs w).
Proof.
  intros Hd [H1 H2 H3 H4 H5 H6 H7 H8 H9 H10 H11 H12]. split; try done.
  eapply Forall_impl; [exact H5|]. intros r. unfold write_sub. destruct (negb (amount_fits _)); [done|].
  destruct (negb (sub_check r)); [done|]. intros H. destruct (negb (sub_fk (sub_env W w) r)) eqn:E; [done|].
  destruct (negb (sub_fk (sub_env W w') r)) eqn:E'; [|done]. exfalso. apply negb_false_iff in E. apply negb_true_iff in E'.
  unfold sub_fk in E, E'. simpl in E, E'. unfold mem_opt in *. destruct (s_SourceOrderID r) as [o|]; [|congruence].
  destruct (bool_decide (o ∈ dom (orders (w_book w)))) eqn:B; [|by rewrite andb_false_r in E].
  apply bool_decide_eq_true in B. rewrite (bool_decide_eq_true_2 (o ∈ dom (orders (w_book w')))) in E' by set_solver. congruence.
Qed.

(** A call that touches only the ledger's journal and the other modules' tables. *)
Definition posts_only {A} (m : M (ledger * X) oerr A) : Prop :=
  ∀ l x a l' x', good l → m (l, x) = (Ok a, (l', x')) → good l' ∧ holds l' = holds l.

Lemma quiet_ledger_ext {A} (m : M (ledger * X) oerr A) : posts_only m → quiet (on_ledger_ext m).
Proof.
  intros Hm w a w' Hk ([l x] & H & ->)%zoom_Ok. destruct (Hm _ _ _ _ _ (ck_ledger _ Hk) H) as [Hg Hh].
  destruct Hk. split; [by split|]. intros j. unfold viewOf. simpl in *. by rewrite Hh.
Qed.

Lemma quiet_ledger {A} (m : M ledger lerr A) :
  (∀ l a l', good l → m l = (Ok a, l') → good l' ∧ holds l' = holds l) → quiet (on_ledger m).
Proof.
  intros Hm w a w' Hk (l & H & ->)%zoom_Ok. destruct (Hm _ _ _ (ck_ledger _ Hk) H) as [Hg Hh].
  destruct Hk. split; [by split|]. intros j. unfold viewOf. simpl. by rewrite Hh.
Qed.

Lemma Post_quiet c p l id l' : Forall (λ x, ref_Type (leg_Account x) ≠ UserBalanceHold) (p_Legs p) →
  good l → Post c p l = (Ok id, l') → good l' ∧ holds l' = holds l.
Proof.
  intros HF [Hok Hh] H. unfold Post in H. destruct (Dedicated _); [done|]. unfold DoL in H. apply Do_Ok in H.
  apply postChecked_spec in H as HP; [|done]. split; [|apply HP]. split; [apply HP|].
  eapply posted_holds_ok; [done..|]. intros u. by apply delta_on_other_type.
Qed.

Lemma Balance_quiet u : quiet (on_ledger (Balance u)).
Proof. apply quiet_ledger. intros l a l' Hg H. apply Balance_spec in H as [-> _]. done. Qed.

Lemma quiet_subs {A} (f : Env → M store serr A) : (∀ S, safe S (f S)) → quiet (with_sub W f).
Proof.
  intros Hf w a w' Hk (s & H & ->)%zoom_Ok. destruct (Hf _ _ _ _ (ck_subs _ Hk) H) as [Hs _].
  destruct Hk. split; [by split|]. by intros j.
Qed.
Lemma quiet_on_subs {A} (m : M store serr A) : (∀ S, safe S m) → quiet (on_subs m).
Proof. intros Hf. exact (quiet_subs (λ _, m) Hf). Qed.

Lemma quiet_ext {A} (m : M X oerr A) : quiet (on_ext m).
Proof. intros w a w' Hk (x & H & ->)%zoom_Ok. destruct Hk. split; [by split|]. by intros j. Qed.

Lemma quiet_book (f : book → book) :
  (∀ b, orders (f b) = orders b ∧ reservations (f b) = reservations b ∧ order_next (f b) = order_next b) →
  ∀ w, core w → core (set_book f w) ∧ same_views w (set_book f w).
Proof.
  intros Hf w Hk. destruct (Hf (w_book w)) as (E1 & E2 & E3). split; [|intros j; unfold viewOf; simpl; by rewrite E1, E2].
  destruct Hk. split; simpl; rewrite ?E1, ?E2, ?E3; try done.
  apply (store_ok_orders w); [simpl; by rewrite E1|done].
Qed.

Lemma order_audit_quiet a id : quiet (order_audit a id).
Proof. apply keeps_modify. intros w Hk. by apply quiet_book. Qed.
Lemma InsertReservationEvent_quiet e : quiet (InsertReservationEvent W e).
Proof.
  intros w a w' Hk H. unfold InsertReservationEvent in H. repeat (destruct (negb _) in H; [done|]).
  destruct (existsb _ _) in H; [done|]. destruct (negb _) in H; [done|]. injection H as <- <-. by apply quiet_book.
Qed.
Lemma CreateItem_quiet i : quiet (CreateItem W i).
Proof.
  intros w a w' Hk H. unfold CreateItem in H. repeat (destruct (negb _) in H; [done|]). injection H as <- <-. by apply quiet_book.
Qed.
End OrderInv.

Section OrderOps.
Context `{DL : DecimalLib} {X : Type} (W : OrderEnv X).
Abbreviation WM := (M (world X) oerr).
Abbreviation core := (core W).
Abbreviation quiet := (keeps (E := oerr) core same_views).

(** * Effects on one order *)

Definition with_order (o : order_row) (v : view) : view := mkView (Some o) (v_res v) (v_red v) (v_hold v).
Definition with_res (r : reservation_row) (v : view) : view := mkView (v_order v) (Some r) (v_red v) (v_hold v).
Definition with_red (r : Redemption) (v : view) : view := mkView (v_order v) (v_res v) [r] (v_hold v).
Definition with_hold (h : hold_row) (v : view) : view := mkView (v_order v) (v_res v) (v_red v) (Some h).

(** From [w] to [w'] only the view of [id] changed, to [v]. *)
Record becomes (id : uuid) (w w' : world X) (v : view) : Prop := {
  bc_core : core w';
  bc_rest : same_but id w w';
  bc_view : viewOf id w' = v;
}.

Lemma becomes_refl id w : core w → becomes id w w (viewOf id w).
Proof. by split. Qed.
Lemma becomes_trans id w w1 w2 v v' : becomes id w w1 v → becomes id w1 w2 v' → becomes id w w2 v'.
Proof. intros [_ H1 _] [K2 H2 E2]. split; [done| |done]. by etrans. Qed.
Lemma becomes_quiet {A} (m : WM A) id w w1 a w2 v : quiet m → becomes id w w1 v → m w1 = (Ok a, w2) → becomes id w w2 v.
Proof.
  intros Hm [K1 H1 E1] H. destruct (Hm _ _ _ K1 H) as [K2 H2]. split; [done| |by rewrite H2].
  etrans; [done|by apply same_views_but].
Qed.

(** * The order's own tables *)

Lemma CreateOrder_Ok mk w o w' : core w → (∀ n, od_ID (mk n) = n) → CreateOrder W mk w = (Ok o, w') →
  let id := order_next (w_book w) in
  o = mk id ∧ od_ID o = id ∧ orders (w_book w) !! id = None ∧ order_check W o = true ∧
  becomes id w w' (with_order o (viewOf id w)).
Proof.
  intros Hk Hmk H id. unfold CreateOrder in H. fold id in H. set (o1 := mk id) in *.
  destruct (negb (checkMoney _)); [done|]. destruct (write_order _ _ _ _) as [[]|] eqn:Hw; [|done]. injection H as <- <-.
  assert (Eid : od_ID o1 = id) by apply Hmk.
  assert (Hc : order_check W o1 = true).
  { unfold write_order in Hw. destruct (negb (order_fits o1)); [done|]. destruct (order_check W o1); [done|done]. }
  assert (Hn : orders (w_book w) !! id = None).
  { destruct (orders (w_book w) !! id) eqn:E; [|done]. apply (ck_orders _ _ Hk) in E. unfold id in E. lia. }
  rewrite Eid. split_and!; try done. split.
  - destruct Hk as [K1 K2 K3 K4 K5 K6]. split; simpl; try done.
    + intros j x [[<- <-]|[Hj Hx]]%lookup_insert_Some; [split_and!; [done|lia|done]|].
      destruct (K1 _ _ Hx) as (? & ? & ?). split_and!; [done|lia|done].
    + intros j x Hx. destruct (K2 _ _ Hx). split; [done|lia].
    + apply (store_ok_orders W w); [|done]. simpl. rewrite dom_insert. set_solver.
  - intros j Hj. unfold viewOf. simpl. by rewrite lookup_insert_ne.
  - unfold viewOf, with_order. simpl. by rewrite lookup_insert_eq.
Qed.

Lemma CreateReservation_Ok id mk w r w' : core w → (∀ n, rs_ID (mk n) = n ∧ rs_OrderID (mk n) = id) →
  CreateReservation W mk w = (Ok r, w') →
  r = mk (order_next (w_book w)) ∧ becomes id w w' (with_res r (viewOf id w)).
Proof.
  intros Hk Hmk H. unfold CreateReservation in H. destruct (Hmk (order_next (w_book w))) as [E1 E2].
  set (r1 := mk _) in *. destruct (negb (reservation_check r1)); [done|]. destruct (bool_decide _) eqn:Hb; [done|].
  destruct (negb _); [done|]. injection H as <- <-. rewrite E2 in *. split; [done|]. split.
  - destruct Hk as [K1 K2 K3 K4 K5 K6]. split; simpl; try done.
    + intros j x Hx. destruct (K1 _ _ Hx) as (? & ? & ?). split_and!; [done|lia|done].
    + intros j x [[<- <-]|[Hj Hx]]%lookup_insert_Some; [split; [done|lia]|]. destruct (K2 _ _ Hx). split; [done|lia].
    + intros i j x y [[<- <-]|[Hi Hx]]%lookup_insert_Some [[<- <-]|[Hj Hy]]%lookup_insert_Some E; try done.
      * apply K2 in Hy. lia.
      * apply K2 in Hx. lia.
      * by eapply K3.
  - intros j Hj. unfold viewOf. simpl. by rewrite lookup_insert_ne.
  - unfold viewOf, with_res. simpl. by rewrite lookup_insert_eq.
Qed.

Lemma moved_same to at_ reason r : rs_ID (moved to at_ reason r) = rs_ID r ∧ rs_OrderID (moved to at_ reason r) = rs_OrderID r ∧
  rs_UserID (moved to at_ reason r) = rs_UserID r ∧ rs_ExpiresAt (moved to at_ reason r) = rs_ExpiresAt r ∧
  rs_State (moved to at_ reason r) = to.
Proof. unfold moved. by destruct (String.eqb to _). Qed.

Lemma UpdateReservation_Ok id r to at_ reason w w' : core w → v_res (viewOf id w) = Some r →
  UpdateReservation (rs_ID r) ReservationHeld to at_ reason w = (Ok true, w') →
  rs_State r = ReservationHeld ∧ becomes id w w' (with_res (moved to at_ reason r) (viewOf id w)).
Proof.
  intros Hk Hr H. simpl in Hr. unfold UpdateReservation in H. destruct (negb (one_of to _)); [done|].
  set (hit := λ x, (rs_ID x =? rs_ID r)%N && String.eqb (rs_State x) ReservationHeld) in *.
  destruct (negb (forallb _ _)); [done|]. injection H as Hl Ew.
  assert (Hst : hit r = true).
  { destruct (List.filter hit _) as [|x l] eqn:Ef in Hl; [done|].
    assert (Hx : x ∈ List.filter hit (map snd (map_to_list (reservations (w_book w))))) by (rewrite Ef; constructor).
    apply elem_of_filter_bool in Hx as [Hh Hx]. apply list_elem_of_fmap in Hx as ([j y] & -> & Hy).
    apply elem_of_map_to_list in Hy. simpl in Hh. pose proof Hh as E. unfold hit in E. apply andb_true_iff in E as [E%N.eqb_eq _].
    rewrite (ck_resid _ _ Hk _ _ _ _ Hy Hr E) in Hy. congruence. }
  assert (Hmap : (λ x, if hit x then moved to at_ reason x else x) <$> reservations (w_book w) =
                 <[id := moved to at_ reason r]> (reservations (w_book w))).
  { apply map_eq. intros j. rewrite lookup_fmap. destruct (decide (j = id)) as [-> |Hj].
    - by rewrite lookup_insert_eq, Hr; simpl; rewrite Hst.
    - rewrite lookup_insert_ne by done. destruct (reservations (w_book w) !! j) as [x|] eqn:Hx; [|done]. simpl.
      destruct (hit x) eqn:E; [|done]. unfold hit in E. apply andb_true_iff in E as [E%N.eqb_eq _].
      exfalso. apply Hj. by apply (ck_resid _ _ Hk _ _ _ _ Hx Hr E). }
  assert (w' = set_book (set_reservations (<[id := moved to at_ reason r]>)) w) as ->.
  { rewrite <- Ew. unfold set_book, set_reservations. simpl. rewrite <- Hmap. done. }
  clear Ew Hmap Hl. unfold hit in Hst. apply andb_true_iff in Hst as [_ Hst%String.eqb_eq]. split; [done|].
  destruct (moved_same to at_ reason r) as (M1 & M2 & _). split.
  - destruct Hk as [K1 K2 K3 K4 K5 K6]. split; simpl; try done.
    + intros j x [[<- <-]|[Hj Hx]]%lookup_insert_Some; [rewrite M1, M2; by apply K2|by apply K2].
    + intros i j x y [[<- <-]|[Hi Hx]]%lookup_insert_Some [[<- <-]|[Hj Hy]]%lookup_insert_Some E; rewrite ?M1 in E; try done; by eapply K3.
  - intros j Hj. unfold viewOf. simpl. by rewrite lookup_insert_ne.
  - unfold viewOf, with_res. simpl. by rewrite lookup_insert_eq.
Qed.

Lemma UpdateOrder_Ok id from paid cols w w' : core w → (∀ o, od_ID (cols o) = od_ID o) →
  UpdateOrder W id from paid cols w = (Ok true, w') →
  ∃ o, v_order (viewOf id w) = Some o ∧ od_Status o = from ∧ order_check W (next_version (cols o)) = true ∧
    becomes id w w' (with_order (next_version (cols o)) (viewOf id w)).
Proof.
  intros Hk Hcols H. unfold UpdateOrder in H. destruct (negb (opt_ok _ _)); [done|].
  destruct (orders (w_book w) !! id) as [o|] eqn:Ho; [|done]. destruct (String.eqb_spec (od_Status o) from) as [Hst|]; [|done].
  simpl in H. destruct (write_order _ _ _ _) as [[]|] eqn:Hw; [|done]. injection H as <-.
  assert (Hc : order_check W (next_version (cols o)) = true).
  { unfold write_order in Hw. destruct (negb (order_fits _)); [done|]. by destruct (order_check W _). }
  destruct (ck_orders _ _ Hk _ _ Ho) as (Eid & Hlt & _).
  exists o. split_and!; try done. split.
  - destruct Hk as [K1 K2 K3 K4 K5 K6]. split; simpl; try done.
    + intros j x [[<- <-]|[Hj Hx]]%lookup_insert_Some; [|by apply K1]. split_and!; [|done|done]. simpl. by rewrite Hcols.
    + apply (store_ok_orders W w); [|done]. simpl. rewrite dom_insert. set_solver.
  - intros j Hj. unfold viewOf. simpl. by rewrite lookup_insert_ne.
  - unfold viewOf, with_order. simpl. by rewrite lookup_insert_eq.
Qed.

(** * Discount codes *)

Lemma red_of_nil id p : id ∉ map rd_OrderID (redemptions p) → red_of id p = [].
Proof.
  unfold red_of. induction (redemptions p) as [|r l IH]; simpl; [done|]. intros [Hr Hl]%not_elem_of_cons.
  destruct (N.eqb_spec (rd_OrderID r) id); [congruence|by apply IH].
Qed.

(** Finishing the held redemption of [id]. *)
Lemma finished_red now id to reason c p r : promo_ok p → r ∈ redemptions p → held_on id r = true →
  to = RedemptionCaptured ∨ to = RedemptionReleased →
  red_of id p = [r] ∧ red_of id (finished_state now id to reason c p) = [finish now to reason r] ∧
  ∀ j, j ≠ id → red_of j (finished_state now id to reason c p) = red_of j p.
Proof.
  intros Hp Hr Hh Hto. destruct (held_split now id to reason _ r (pk_orders _ Hp) Hr Hh) as (l1 & l2 & El & _ & Em).
  destruct (held_status _ _ Hh) as [Hst Ho]. destruct (finish_row now to reason r Hto) as (_ & _ & _ & Eo & _).
  pose proof (pk_orders _ Hp) as Hn. rewrite El, map_app in Hn. simpl in Hn. apply NoDup_app in Hn as (_ & H1 & H2).
  apply NoDup_cons in H2 as [H2 _].
  assert (N1 : List.filter (λ x, (rd_OrderID x =? id)%N) l1 = []).
  { apply (red_of_nil id (mkPromo [] [] l1 [] 0%N)). intros Hin. apply (H1 _ Hin). rewrite Ho. constructor. }
  assert (N2 : List.filter (λ x, (rd_OrderID x =? id)%N) l2 = []).
  { apply (red_of_nil id (mkPromo [] [] l2 [] 0%N)). simpl. by rewrite <- Ho. }
  unfold red_of, finished_state. simpl. rewrite Em, El. split_and!.
  - rewrite List.filter_app. simpl. by rewrite Ho, N.eqb_refl, N1, N2.
  - rewrite List.filter_app. simpl. by rewrite Eo, Ho, N.eqb_refl, N1, N2.
  - intros j Hj. rewrite !List.filter_app. simpl. rewrite Eo, Ho. by destruct (N.eqb_spec id j); [congruence|].
Qed.

(** What finishing a redemption leaves of it. *)
Definition red_moved (to : string) (r r' : Redemption) : Prop :=
  rd_Status r = RedemptionHeld ∧ rd_Status r' = to ∧ rd_CouponID r' = rd_CouponID r ∧ rd_UserID r' = rd_UserID r ∧
  rd_Discount r' = rd_Discount r.

Lemma finished_becomes now id to reason c r w :
  core w → r ∈ redemptions (w_promo w) → held_on id r = true → to = RedemptionCaptured ∨ to = RedemptionReleased →
  promo_ok (finished_state now id to reason c (w_promo w)) →
  ∃ r', v_red (viewOf id w) = [r] ∧ red_moved to r r' ∧
    becomes id w (put_promo (finished_state now id to reason c (w_promo w)) w) (with_red r' (viewOf id w)).
Proof.
  intros Hk Hr Hh Hto Hp. destruct (finished_red now id to reason c _ r (ck_promo _ _ Hk) Hr Hh Hto) as (E1 & E2 & E3).
  destruct (held_status _ _ Hh) as [Hst Ho]. destruct (finish_row now to reason r Hto) as (F1 & F2 & F3 & _ & F5).
  exists (finish now to reason r). split_and!; [done|by split_and!|]. split.
  - destruct Hk. by split.
  - intros j Hj. unfold viewOf. simpl. by rewrite E3.
  - unfold viewOf, with_red. simpl. by rewrite E2.
Qed.

Lemma PromoCapture_Ok now id w w' : core w → on_promo (PromoCapture true now id) w = (Ok (), w') →
  ∃ r r', v_red (viewOf id w) = [r] ∧ red_moved RedemptionCaptured r r' ∧ becomes id w w' (with_red r' (viewOf id w)).
Proof.
  intros Hk (p & H & ->)%zoom_Ok. pose proof (ck_promo _ _ Hk) as Hp. destruct (held_dec (w_promo w) id) as [(r & Hr & Hh)|Hno].
  - destruct (coupon_of_redemption _ r Hp Hr) as (c & Hc & Ec).
    destruct (promo_capture_cases _ true now id r c Hp Hr Hh Hc Ec) as [Hlt|(s2 & E)]; [|congruence].
    rewrite (promo_capture_eq _ true now id r c) in H by done. injection H as <-. exists r.
    apply finished_becomes; try done; [by left|]. apply (finished_ok _ _ _ _ _ r); try done. by left.
  - destruct (promo_finish_refused _ true now id "" Hno) as [_ H1]. by rewrite H1 in H.
Qed.
Lemma PromoRelease_Ok now id reason w w' : core w → on_promo (PromoRelease true now id reason) w = (Ok (), w') →
  ∃ r r', v_red (viewOf id w) = [r] ∧ red_moved RedemptionReleased r r' ∧ becomes id w w' (with_red r' (viewOf id w)).
Proof.
  intros Hk (p & H & ->)%zoom_Ok. pose proof (ck_promo _ _ Hk) as Hp. destruct (held_dec (w_promo w) id) as [(r & Hr & Hh)|Hno].
  - destruct (coupon_of_redemption _ r Hp Hr) as (c & Hc & Ec).
    rewrite (promo_release_eq _ true now id reason r c) in H by done. injection H as <-. exists r.
    apply finished_becomes; try done; [by right|]. apply (finished_ok _ _ _ _ _ r); try done. by right.
  - destruct (promo_finish_refused _ true now id reason Hno) as [H1 _]. by rewrite H1 in H.
Qed.

Lemma Reserve_becomes PE has now code t id no w a w' : core w →
  on_promo (Reserve PE has true now code t (mkOrderRef id no)) w = (Ok (Some a), w') →
  ∃ r, v_red (viewOf id w) = [] ∧ rd_Status r = RedemptionHeld ∧ rd_CouponID r = ap_CouponID a ∧ rd_UserID r = t_UserID t ∧
    rd_Discount r = ap_Discount a ∧ NormalizeCode code ≠ "" ∧ becomes id w w' (with_red r (viewOf id w)).
Proof.
  intros Hk (p & H & ->)%zoom_Ok. pose proof H as H'.
  destruct (Reserve_Ok _ _ _ _ _ _ _ _ _ _ (ck_promo _ _ Hk) H) as (c & _ & _ & _ & _ & _ & _ & _ & _ & Ea & Ho & -> & Hp & _).
  set (r := held_row _ _ _ _ _) in *. exists r. assert (En : red_of id (w_promo w) = []) by (by apply red_of_nil).
  assert (Ei : rd_OrderID r = id) by done. assert (Ec : rd_CouponID r = ap_CouponID a) by (by rewrite Ea).
  assert (Er : rd_Status r = RedemptionHeld ∧ rd_UserID r = t_UserID t ∧ rd_Discount r = ap_Discount a) by done.
  clearbody r. split_and!; try apply Er; try done.
  - unfold Reserve in H'. by destruct (String.eqb_spec (NormalizeCode code) "").
  - split.
    + destruct Hk. by split.
    + intros j Hj. unfold viewOf, red_of. simpl. rewrite List.filter_app. simpl. rewrite Ei.
      destruct (N.eqb_spec id j); [congruence|]. by rewrite app_nil_r.
    + unfold viewOf, with_red, red_of. simpl. rewrite List.filter_app. simpl. rewrite Ei, N.eqb_refl.
      unfold red_of in En. by rewrite En.
Qed.

(** * Balance *)

Lemma ledger_becomes id w l h : core w → good l → holds l = <[id := h]> (holds (w_ledger w)) →
  becomes id w (put_ledger l w) (with_hold h (viewOf id w)).
Proof.
  intros Hk Hg Eh. split.
  - destruct Hk. by split.
  - intros j Hj. unfold viewOf. simpl. by rewrite Eh, lookup_insert_ne.
  - unfold viewOf, with_hold. simpl. by rewrite Eh, lookup_insert_eq.
Qed.

Lemma HoldForOrder_becomes c i w h w' : core w → on_ledger_fk (λ orders, HoldForOrder orders c i) w = (Ok h, w') →
  v_hold (viewOf (hi_OrderID i) w) = None ∧ h_user h = hi_UserID i ∧ h_amount h = hi_Amount i ∧ h_status h = HoldHeld ∧
  becomes (hi_OrderID i) w w' (with_hold h (viewOf (hi_OrderID i) w)).
Proof.
  intros Hk (l & H & ->)%zoom_Ok. destruct (ck_ledger _ _ Hk) as [Hok Hho]. unfold HoldForOrder in H. step_ok H.
  apply lift_Ok in H0 as [_ ->]. unfold DoL in H. step_ok H.
  destruct (holdForOrder_spec _ _ _ _ _ _ Hok Hho H) as [H1 H2 H3 H4 (H5 & H6 & H7) _]. split_and!; try done.
  by apply ledger_becomes.
Qed.

Lemma ReleaseOrderHold_becomes c id memo w w' : core w → on_ledger (ReleaseOrderHold c id memo) w = (Ok true, w') →
  ∃ h h', v_hold (viewOf id w) = Some h ∧ h_status h = HoldHeld ∧ h_status h' = HoldReleased ∧ h_user h' = h_user h ∧
    h_amount h' = h_amount h ∧ becomes id w w' (with_hold h' (viewOf id w)).
Proof.
  intros Hk (l & H & ->)%zoom_Ok. destruct (ck_ledger _ _ Hk) as [Hok Hho]. unfold ReleaseOrderHold, DoL in H. step_ok H.
  destruct (releaseOrderHold_spec _ _ _ _ _ _ Hok Hho H) as (h & [H1 H2 [H3 H4] (n & H5) _]).
  exists h, (released_row n h). split_and!; try done. by apply ledger_becomes.
Qed.

(** A settlement captures the hold of the part paid from the balance. *)
Lemma PostOrderPaid_becomes c p w n w' : core w → on_ledger (PostOrderPaid c p) w = (Ok n, w') →
  ((val (op_Paid p) < val (op_Total p))%Q → ¬ (val (op_Total p) == 0)%Q → ∃ h h', v_hold (viewOf (op_OrderID p) w) = Some h ∧ h_status h = HoldHeld ∧
         h_status h' = HoldCaptured ∧ h_user h' = h_user h ∧ h_amount h' = h_amount h ∧
         becomes (op_OrderID p) w w' (with_hold h' (viewOf (op_OrderID p) w))) ∧
  ((val (op_Total p) <= val (op_Paid p))%Q → becomes (op_OrderID p) w w' (viewOf (op_OrderID p) w)).
Proof.
  intros Hk (l & H & ->)%zoom_Ok. destruct (ck_ledger _ _ Hk) as [Hok Hho]. unfold PostOrderPaid in H. step_ok H.
  apply lift_Ok in H0 as [_ ->]. unfold DoL in H. step_ok H.
  destruct (postOrderPaid_spec _ _ _ _ _ Hok Hho H) as [H1 H2 _ _ H3 H4]. split.
  - intros Hd Hz. destruct (H3 Hd Hz) as (h & K1 & K2 & K3 & K4 & K5). exists h, (captured_row n h). split_and!; try done.
    by apply ledger_becomes.
  - intros Hd. specialize (H4 Hd) as E. split.
    + destruct Hk. by split.
    + intros j Hj. unfold viewOf. simpl. by rewrite E.
    + unfold viewOf. simpl. by rewrite E.
Qed.

Lemma CaptureFromBalance_becomes c i w a w' : core w → (0 < val (hi_Amount i))%Q →
  on_ledger_fk (λ orders, CaptureFromBalance orders c i) w = (Ok a, w') →
  ∃ h, v_hold (viewOf (hi_OrderID i) w) = None ∧ h_status h = HoldCaptured ∧ h_user h = hi_UserID i ∧
    h_amount h = hi_Amount i ∧ becomes (hi_OrderID i) w w' (with_hold h (viewOf (hi_OrderID i) w)).
Proof.
  intros Hk Hpos (l & H & ->)%zoom_Ok. destruct (ck_ledger _ _ Hk) as [Hok Hho]. unfold CaptureFromBalance in H. step_ok H.
  apply lift_Ok in H0 as [_ ->]. unfold DoL in H. step_ok H.
  destruct (capture_steps _ _ _ _ _ _ Hok Hho H) as (s1 & h & s2 & Hg & [_ _ H3 H4 (H5 & H6 & H7) _] & [S1 S2 _ _ S3 _]). simpl in S3.
  destruct S3 as (h1 & K1 & K2 & K3 & K4 & K5); [rewrite dec_zero_val; lra|lra|].
  rewrite H4, lookup_insert_eq in K1. injection K1 as <-. rewrite H4, insert_insert_eq, (gr_holds _ _ Hg) in K5.
  rewrite (gr_holds _ _ Hg) in H3. eexists. split_and!; [done| | | |by apply ledger_becomes]; done.
Qed.
End OrderOps.
