(* ===== verification/OrderLife.v ===== *)
(** The operations of the order flow on one order: each keeps the invariant and
    moves the order along its life cycle. *)
From Stdlib Require Import ZArith QArith Lqa Lia.
From stdpp Require Import base tactics list gmap strings sorting relations.
From S2P Require Import Prelude Safety Decimal GoString Money GoTime LedgerTypes LedgerFacts Ledger LedgerInv LedgerOps Promo PromoThms.
From S2P Require Import Period OrderAmounts Proration SubTypes SubStore SubFacts Subscription SubHistory OrderStore OrderFlow OrderInv.
#[local] Open Scope string_scope.
#[local] Open Scope Z_scope.

(** * The life cycle of an order *)

Section Life.
Context `{DL : DecimalLib}.

(** What an order keeps from the moment it is placed. *)
Definition terms (o : order_row) :=
  (od_ID o, od_No o, od_UserID o, od_Kind o, (od_Subtotal o, od_Discount o, od_Credit o, od_Waived o, od_Total o),
   (od_BalanceApplied o, od_Payable o), od_CouponID o, (od_CreatedBy o, od_ManualReason o), od_Label o, od_ExpiresAt o, od_CreatedAt o).

(** An order is placed, or bought at once when nothing is due; a placed one is
    settled, cancelled or expires.  There is no other step. *)
Inductive life : option order_row → option order_row → Prop :=
| life_place o : od_Status o = StatusPending → od_StateVersion o = 1 → life None (Some o)
| life_buy o : od_Status o = StatusFulfilled → (val (od_Payable o) == 0)%Q → od_StateVersion o = 3 → life None (Some o)
| life_settle o o' : od_Status o = StatusPending → od_Status o' = StatusFulfilled → terms o' = terms o →
    (od_Kind o ≠ KindNew → od_SubscriptionID o' = od_SubscriptionID o) →
    od_StateVersion o' = od_StateVersion o + 2 → life (Some o) (Some o')
| life_close o o' : od_Status o = StatusPending → (od_Status o' = StatusCancelled ∨ od_Status o' = OrderExpired) →
    terms o' = terms o → od_SubscriptionID o' = od_SubscriptionID o →
    od_StateVersion o' = od_StateVersion o + 1 → life (Some o) (Some o').

(** A row that left the state pending never changes again. *)
Lemma life_final o x : rtc life (Some o) x → od_Status o ≠ StatusPending → x = Some o.
Proof.
  intros H Hst. remember (Some o) as y eqn:Ey. destruct H as [|y z x Hs _]; [done|]. subst. by inversion Hs.
Qed.
End Life.

Section OrderLife.
Context `{DL : DecimalLib} {X : Type} (W : OrderEnv X).
Abbreviation WM := (M (world X) oerr).
Abbreviation core := (core W).
Abbreviation quiet := (keeps (E := oerr) core same_views).

(** * Steps that only read *)

Lemma quiet_promo {A} (m : M promo perr A) : (∀ s a s', m s = (Ok a, s') → s' = s) → quiet (on_promo m).
Proof.
  intros Hm w a w' Hk (p & H & ->)%zoom_Ok. apply Hm in H as ->. destruct Hk. split; [by split|]. by intros j.
Qed.
Lemma PromoLock_reads code s a s' : PromoLock code s = (Ok a, s') → s' = s.
Proof.
  destruct a. intros H. unfold PromoLock in H. destruct (String.eqb _ ""); [by injection H as <-|]. destruct (negb _); [done|]. step_ok H.
  apply gets_Ok in H0 as [-> ->]. destruct (List.find _ _); [|done]. unfold mret, M_ret in H. by simplify_eq.
Qed.
Lemma Evaluate_reads PE now code t s a s' : Evaluate PE now code t s = (Ok a, s') →
  s' = s ∧ (a = None → NormalizeCode code = "").
Proof.
  intros H. unfold Evaluate in H. destruct (String.eqb_spec (NormalizeCode code) "") as [E|]; [by injection H as <- <-|].
  step_ok H. apply lift_Ok in H0 as [_ ->]. destruct (negb _); [done|]. step_ok H. apply gets_Ok in H0 as [-> ->].
  destruct (List.find _ _); [|done]. step_ok H. apply apply_Ok in H0 as (-> & _). by injection H as <- <-.
Qed.

Lemma lift_err_quiet {A E} (f : E → oerr) (r : result E A) : quiet (lift_err f r).
Proof. apply keeps_lift, _. Qed.
Lemma HeldCounts_quiet u : quiet (on_subs (HeldCountsByUser u)).
Proof. apply quiet_on_subs. intros S. apply safe_gets. Qed.
Lemma purchaseGate_quiet d now : quiet (purchaseGate W d now).
Proof.
  unfold purchaseGate, checkSubscriptionCap, subscriptionCap, PendingCounts. keeps_walk; auto using HeldCounts_quiet.
Qed.
Lemma checkUnpaidCap_quiet u n now : quiet (checkUnpaidCap u n now).
Proof. unfold checkUnpaidCap, PendingCounts. keeps_walk. Qed.
Lemma balanceFor_quiet d total : quiet (balanceFor W d total).
Proof. unfold balanceFor. keeps_walk; auto using Balance_quiet. Qed.

Lemma place_coupon_spec k d w c w' : core w → place_coupon W k d w = (Ok c, w') →
  core w' ∧ same_views w w' ∧ (c.1.1 = "" → c.2 = None) ∧ (NormalizeCode c.1.1 ≠ "" → is_Some c.2).
Proof.
  intros Hk H.
  assert (Hq : quiet (place_coupon W k d)).
  { unfold place_coupon. keeps_walk; apply quiet_promo; intros ? ? ?; first [apply PromoLock_reads|by intros []%Evaluate_reads]. }
  destruct (Hq _ _ _ Hk H) as [K1 K2]. split_and!; [done|done| |]; unfold place_coupon in H;
    (destruct (_ || _); [by injection H as <- _|]); cbv zeta in H;
    (destruct (String.eqb (dr_Kind d) KindTrafficReset);
     [destruct (String.eqb_spec (NormalizeCode (ck_CouponCode (dr_Checkout d))) "") as [E|E]; [|done]; injection H as <- _; try done; simpl; by rewrite E|]);
    (destruct (String.eqb_spec (NormalizeCode (ck_CouponCode (dr_Checkout d))) "") as [E|E];
     [injection H as <- _; try done; simpl; by rewrite E|]);
    step_ok H; step_ok H; apply zoom_Ok in H1 as (p & H1 & _); apply Evaluate_reads in H1 as [_ H1]; injection H as <- _;
    (destruct x1; [done|]); simpl in *; try done. intros Hn. exfalso. by apply Hn, H1.
Qed.

(** * Steps on one order *)

Lemma tracks_terms st o o' v : terms o' = terms o →
  (res_tracks st o' (v_res v) ↔ res_tracks st o (v_res v)) ∧ (red_tracks st o' (v_red v) ↔ red_tracks st o (v_red v)) ∧
  (hold_tracks st o' (v_hold v) ↔ hold_tracks st o (v_hold v)).
Proof. intros [=]. unfold res_tracks, red_tracks, hold_tracks. by simplify_eq; repeat match goal with H : _ o' = _ o |- _ => rewrite !H; clear H end. Qed.

Lemma placeOrder_Ok k mk actor w o w' : core w → (∀ n, od_ID (mk n) = n) → placeOrder W k mk actor w = (Ok o, w') →
  let id := order_next (w_book w) in
  o = mk id ∧ od_ID o = id ∧ orders (w_book w) !! id = None ∧ order_check W o = true ∧
  ∃ r, res_tracks "held" o (Some r) ∧ becomes W id w w' (with_res r (with_order o (viewOf id w))).
Proof.
  intros Hk Hmk H id. unfold placeOrder in H. apply bind_Ok in H as (o1 & w1 & H1 & H). apply map_err_Ok in H1.
  destruct (CreateOrder_Ok _ _ _ _ _ Hk Hmk H1) as (-> & Eid & Hn & Hc & B1). fold id in Eid, Hn, Hc, B1, H |- *.
  apply bind_Ok in H as (r & w2 & H2 & H).
  apply (CreateReservation_Ok W id) in H2 as [Er B2]; [|apply B1|by intros n].
  apply bind_Ok in H as ([] & w3 & H3 & H). injection H as <- <-. split_and!; try done. exists r. split.
  - exists r. by rewrite Er.
  - eapply becomes_quiet; [apply InsertReservationEvent_quiet| |exact H3]. rewrite (bc_view _ _ _ _ _ B1) in B2.
    by eapply becomes_trans.
Qed.

(** A held reservation with its code, captured. *)
Lemma captureReservation_Ok k o o0 actor w w' : core w → od_CouponID o = od_CouponID o0 →
  res_tracks "held" o0 (v_res (viewOf (od_ID o) w)) → red_tracks "held" o0 (v_red (viewOf (od_ID o) w)) →
  captureReservation W k o actor w = (Ok (), w') →
  ∃ v, becomes W (od_ID o) w w' v ∧ v_order v = v_order (viewOf (od_ID o) w) ∧ v_hold v = v_hold (viewOf (od_ID o) w) ∧
    res_tracks "captured" o0 (v_res v) ∧ red_tracks "captured" o0 (v_red v).
Proof.
  intros Hk Ec (r & Er & _ & Eu & Ee) Hred H. unfold captureReservation in H. apply bind_Ok in H as (x & w1 & H1 & H).
  apply gets_Ok in H1 as [-> ->]. cbv beta in H. change (reservations (w_book w) !! od_ID o) with (v_res (viewOf (od_ID o) w)) in H. rewrite Er in H.
  apply bind_Ok in H as ([] & w1 & H1 & H); [|done].
  destruct (UpdateReservation_Ok W _ _ _ _ _ _ _ Hk Er H1) as [_ B1]. destruct (moved_same ReservationCaptured (k_closed k) None r) as (_ & _ & M3 & M4 & M5).
  set (r' := moved _ _ _ r) in *. clearbody r'.
  apply bind_Ok in H as ([] & w2 & H2 & H). pose proof (becomes_quiet W _ _ _ _ _ _ _ (InsertReservationEvent_quiet W _) B1 H2) as B2.
  assert (Hr' : res_tracks "captured" o0 (Some r')) by (exists r'; split_and!; [done|done|congruence|congruence]).
  unfold red_tracks in *. rewrite Ec in H. destruct (od_CouponID o0) as [c|].
  - destruct (PromoCapture_Ok W _ _ _ _ (bc_core _ _ _ _ _ B2) H) as (y & y' & Ey & (M1 & M2 & N3 & N4 & N5) & B3).
    rewrite (bc_view _ _ _ _ _ B2) in Ey, B3. destruct Hred as (z & Ez & Z1 & Z2 & Z3 & Z4). 
    change (v_red (viewOf (od_ID o) w) = [y]) in Ey. rewrite Ez in Ey. injection Ey as <-.
    eexists. split_and!; [by eapply becomes_trans|done..|]. exists y'. rewrite N3, N4, N5. done.
  - injection H as <-. eexists. split_and!; [done..|]. done.
Qed.

Lemma refund_quiet who o refund : quiet (on_ledger (Post (joined who) (refund_posting o refund))).
Proof. apply quiet_ledger. intros l a l' Hg H. eapply Post_quiet; [|done..]. by repeat constructor. Qed.

Lemma deliver_quiet who k o at_ actor : quiet (deliver W who k o at_ actor).
Proof.
  unfold deliver, fulfilPlanChange, onlyItem, ItemsByOrder.
  keeps_walk; first [apply refund_quiet | apply quiet_subs; intros;
    auto using Provision_safe, Renew_safe, ChangePlan_safe, Stack_safe, ResetTraffic_safe].
Qed.
Lemma deliver_sub who k o at_ actor w s w' : deliver W who k o at_ actor w = (Ok s, w') → od_Kind o ≠ KindNew → s = None.
Proof.
  intros H Hk. unfold deliver in H. cbv zeta in H. destruct (String.eqb (od_Kind o) KindTopup); [by injection H as <-|].
  destruct (String.eqb_spec (od_Kind o) KindNew); [done|].
  assert (Hret : ∀ A (m : WM A) (w : world X), (m ≫= λ _, mret (None : option uuid)) w = (Ok s, w') → s = None).
  { intros A m w1 H1. step_ok H1. by injection H1 as <-. }
  destruct (String.eqb (od_Kind o) KindRenewal).
  { destruct (od_SubscriptionID o); [|done]. step_ok H. step_ok H. by eapply Hret. }
  destruct (String.eqb (od_Kind o) KindUpgrade); [by eapply Hret|].
  destruct (String.eqb (od_Kind o) KindStack).
  { destruct (od_SubscriptionID o); [|done]. step_ok H. destruct (li_PlanVersionID _); [|done]. step_ok H. by eapply Hret. }
  destruct (String.eqb (od_Kind o) KindTrafficReset); [|done]. destruct (od_SubscriptionID o); [|done]. by eapply Hret.
Qed.

Lemma reload_Ok id (w : world X) o w' : reload id w = (Ok o, w') → w' = w ∧ v_order (viewOf id w) = Some o.
Proof.
  unfold reload. intros H. step_ok H. apply gets_Ok in H0 as [-> ->].
  destruct (orders (w_book w) !! id) eqn:E; [|done]. by injection H as <- <-.
Qed.

Lemma markPaid_Ok o at_ w p w' : core w → markPaid W o at_ w = (Ok p, w') →
  ∃ o0, v_order (viewOf (od_ID o) w) = Some o0 ∧ od_Status o0 = StatusPending ∧ p = next_version (paid_cols (od_Total o) at_ o0) ∧
    order_check W p = true ∧ becomes W (od_ID o) w w' (with_order p (viewOf (od_ID o) w)).
Proof.
  intros Hk H. unfold markPaid in H. apply bind_Ok in H as ([] & w1 & H1 & H); [|done]. simpl in H.
  apply UpdateOrder_Ok in H1 as (o0 & E1 & E2 & E3 & B1); [|done|done]. apply reload_Ok in H as [-> E].
  rewrite (bc_view _ _ _ _ _ B1) in E. injection E as <-. by exists o0.
Qed.

Lemma fulfil_Ok who k p at_ actor w o' w' : core w → v_order (viewOf (od_ID p) w) = Some p →
  fulfil W who k p at_ actor w = (Ok o', w') →
  ∃ sub, od_Status p = StatusPaid ∧ o' = next_version (fulfilled_cols at_ sub p) ∧ (od_Kind p ≠ KindNew → sub = None) ∧
    becomes W (od_ID p) w w' (with_order o' (viewOf (od_ID p) w)).
Proof.
  intros Hk Hp H. unfold fulfil in H. destruct (String.eqb_spec (od_Status p) StatusPaid) as [Est|]; [|done]. simpl in H.
  apply bind_Ok in H as (sub & w1 & H1 & H). pose proof (deliver_sub _ _ _ _ _ _ _ _ H1) as Hs.
  pose proof (becomes_quiet W _ _ _ _ _ _ _ (deliver_quiet _ _ _ _ _) (becomes_refl W (od_ID p) w Hk) H1) as B1.
  apply bind_Ok in H as ([] & w2 & H2 & H); [|done]. simpl in H.
  apply UpdateOrder_Ok in H2 as (o0 & E1 & E2 & E3 & B2); [|apply B1|done].
  rewrite (bc_view _ _ _ _ _ B1) in E1, B2. rewrite Hp in E1. injection E1 as <-.
  apply reload_Ok in H as [-> E]. rewrite (bc_view _ _ _ _ _ B2) in E. injection E as <-.
  exists sub. split_and!; try done. by eapply becomes_trans.
Qed.

(** * Whole operations *)

Definition lives (w w' : world X) : Prop := ∀ id, rtc life (orders (w_book w) !! id) (orders (w_book w') !! id).
#[global] Instance lives_preorder : PreOrder lives.
Proof. split; [by intros w id|]. intros a b c H1 H2 id. etrans; [apply H1|apply H2]. Qed.
Abbreviation lively := (keeps (E := oerr) (world_ok W) lives).

Lemma advance id w w' v : world_ok W w → becomes W id w w' v → consistent v → life (v_order (viewOf id w)) (v_order v) →
  world_ok W w' ∧ lives w w'.
Proof.
  intros Hw [K H1 E] Hc Hl. split; [apply (world_ok_but W id w w'); try done; by rewrite E|]. intros j.
  destruct (decide (j = id)) as [-> |Hj].
  - apply rtc_once. change (life (v_order (viewOf id w)) (v_order (viewOf id w'))). by rewrite E.
  - specialize (H1 j Hj). injection H1 as -> _ _ _. done.
Qed.
Lemma quiet_lively {A} (m : WM A) : quiet m → lively m.
Proof.
  intros Hm w a w' Hw H. destruct (Hm _ _ _ (proj1 Hw) H) as [K1 K2]. split; [by eapply world_ok_views|].
  intros j. specialize (K2 j). injection K2 as -> _ _ _. done.
Qed.

(** Between the two states at most new orders appear. *)
Definition places (w w' : world X) : Prop := ∀ id,
  orders (w_book w') !! id = orders (w_book w) !! id ∨
  (orders (w_book w) !! id = None ∧ life None (orders (w_book w') !! id)).
#[global] Instance places_preorder : PreOrder places.
Proof.
  split; [by left|]. intros a b c H1 H2 id. destruct (H1 id) as [E1|[E1 L1]], (H2 id) as [E2|[E2 L2]].
  - left. congruence.
  - right. rewrite <- E1. done.
  - right. rewrite E2. done.
  - rewrite E2 in L1. inversion L1.
Qed.
Lemma places_lives w w' : places w w' → lives w w'.
Proof. intros H id. destruct (H id) as [-> |[-> L]]; [done|by apply rtc_once]. Qed.
Abbreviation placing := (keeps (E := oerr) (world_ok W) places).
Lemma quiet_placing {A} (m : WM A) : quiet m → placing m.
Proof.
  intros Hm w a w' Hw H. destruct (Hm _ _ _ (proj1 Hw) H) as [K1 K2]. split; [by eapply world_ok_views|].
  intros j. specialize (K2 j). injection K2 as -> _ _ _. by left.
Qed.
Lemma appear id w w' v : world_ok W w → becomes W id w w' v → consistent v → orders (w_book w) !! id = None → life None (v_order v) →
  world_ok W w' ∧ places w w'.
Proof.
  intros Hw [K H1 E] Hc Hn Hl. split; [apply (world_ok_but W id w w'); try done; by rewrite E|]. intros j.
  destruct (decide (j = id)) as [-> |Hj].
  - right. split; [done|]. change (life None (v_order (viewOf id w'))). by rewrite E.
  - left. specialize (H1 j Hj). by injection H1 as -> _ _ _.
Qed.

(** Paying and fulfilling, as two updates of one row. *)
Definition fulfilled_from (o0 o' : order_row) : Prop :=
  od_Status o' = StatusFulfilled ∧ terms o' = terms o0 ∧ od_StateVersion o' = od_StateVersion o0 + 2 ∧
  (od_Kind o0 ≠ KindNew → od_SubscriptionID o' = od_SubscriptionID o0).
Lemma paid_fulfilled total at_ at' sub o0 : (od_Kind o0 ≠ KindNew → sub = None) →
  fulfilled_from o0 (next_version (fulfilled_cols at' sub (next_version (paid_cols total at_ o0)))).
Proof. intros Hs. split_and!; try done; [simpl; lia|]. intros Hk. simpl. by rewrite (Hs Hk). Qed.

Lemma fulfilled_consistent o0 o' v : fulfilled_from o0 o' → v_order v = Some o' → res_tracks "captured" o0 (v_res v) →
  red_tracks "captured" o0 (v_red v) → hold_tracks "captured" o0 (v_hold v) → consistent v.
Proof.
  intros (Est & Et & _) Eo H1 H2 H3. destruct (tracks_terms "captured" o0 o' v Et) as (T1 & T2 & T3).
  unfold consistent. rewrite Eo, Est. change (expected StatusFulfilled) with "captured". by rewrite T1, T2, T3.
Qed.

(** [fulfil] after [markPaid], with quiet steps between. *)
Lemma pay_and_fulfil who k o p at1 at2 actor w w1 w2 o' w' :
  core w → markPaid W o at1 w = (Ok p, w1) → core w2 → same_views w1 w2 → fulfil W who k p at2 actor w2 = (Ok o', w') →
  ∃ o0, v_order (viewOf (od_ID o) w) = Some o0 ∧ od_Status o0 = StatusPending ∧ fulfilled_from o0 o' ∧
    becomes W (od_ID o) w w' (with_order o' (viewOf (od_ID o) w)).
Proof.
  intros Hk H1 K2 S2 H. destruct (markPaid_Ok _ _ _ _ _ Hk H1) as (o0 & E0 & S0 & -> & _ & B1).
  assert (B2 : becomes W (od_ID o) w w2 (with_order (next_version (paid_cols (od_Total o) at1 o0)) (viewOf (od_ID o) w))).
  { destruct B1 as [_ R1 V1]. split; [done| |by rewrite S2]. etrans; [exact R1|by apply same_views_but]. }
  destruct (ck_orders _ _ Hk _ _ (E0 : orders (w_book w) !! _ = _)) as (Ei & _).
  assert (Ep : od_ID (next_version (paid_cols (od_Total o) at1 o0)) = od_ID o) by done.
  destruct (fulfil_Ok _ _ _ _ _ _ _ _ K2 ltac:(rewrite Ep, (bc_view _ _ _ _ _ B2); done) H) as (sub & _ & -> & Hs & B3).
  rewrite Ep, (bc_view _ _ _ _ _ B2) in B3. exists o0. split_and!; [done..| |by eapply becomes_trans].
  apply paid_fulfilled. exact Hs.
Qed.

Lemma settleZeroPay_Ok who k o o0 actor w o' w' :
  core w → v_order (viewOf (od_ID o) w) = Some o0 → od_UserID o = od_UserID o0 → od_CouponID o = od_CouponID o0 →
  od_BalanceApplied o = od_BalanceApplied o0 → res_tracks "held" o0 (v_res (viewOf (od_ID o) w)) →
  red_tracks "held" o0 (v_red (viewOf (od_ID o) w)) → v_hold (viewOf (od_ID o) w) = None →
  settleZeroPay W who k o actor w = (Ok o', w') →
  ∃ v, becomes W (od_ID o) w w' v ∧ v_order v = Some o' ∧ fulfilled_from o0 o' ∧ consistent v.
Proof.
  intros Hk Ho Eu Ec Eb Hres Hred Hh H. unfold settleZeroPay in H. apply bind_Ok in H as ([] & w1 & H1 & H).
  destruct (captureReservation_Ok _ _ _ _ _ _ Hk Ec Hres Hred H1) as (v1 & B1 & O1 & L1 & R1 & D1).
  apply bind_Ok in H as ([] & w2 & H2 & H).
  assert (Hv2 : ∃ v2, becomes W (od_ID o) w w2 v2 ∧ v_order v2 = Some o0 ∧ v_res v2 = v_res v1 ∧ v_red v2 = v_red v1 ∧
                      hold_tracks "captured" o0 (v_hold v2)).
  { unfold hold_tracks. rewrite <- Eb. destruct (IsPositive_spec (od_BalanceApplied o)) as [Hp|Hp].
    - apply bind_Ok in H2 as (x & w3 & H2 & H3). injection H3 as <-.
      apply (CaptureFromBalance_becomes W) in H2 as (h & _ & S & U & A & B); [|apply B1|exact Hp]. simpl in U, A, B.
      rewrite (bc_view _ _ _ _ _ B1) in B. eexists. split_and!; [by eapply becomes_trans|simpl; congruence|done|done|].
      exists h. rewrite A. split_and!; [done..|by rewrite U, Eu|done].
    - injection H2 as <-. exists v1. split_and!; [done|congruence|done|done|]. by rewrite L1. }
  clear H2. destruct Hv2 as (v2 & B2 & O2 & R2 & D2 & L2).
  apply bind_Ok in H as (p & w3 & H3 & H). apply bind_Ok in H as (x & w4 & H4 & H).
  apply bind_Ok in H as ([] & w5 & H5 & H). apply lift_Ok in H5 as [_ ->]. injection H as <- <-.
  pose proof (markPaid_Ok _ _ _ _ _ (bc_core _ _ _ _ _ B2) H3) as (_ & _ & _ & _ & _ & B3).
  destruct (pay_and_fulfil _ _ _ _ _ _ _ _ _ _ _ _ (bc_core _ _ _ _ _ B2) H3 (bc_core _ _ _ _ _ B3) ltac:(done) H4)
    as (o1 & E1 & _ & F & B4). rewrite (bc_view _ _ _ _ _ B2) in E1, B4. rewrite O2 in E1. injection E1 as <-.
  eexists. split_and!; [by eapply becomes_trans|done|done|].
  apply (fulfilled_consistent o0 x); simpl; [done|done|by rewrite R2|by rewrite D2|done].
Qed.

(** What the CHECKs say about the amounts. *)
Lemma order_check_facts o : order_check W o = true →
  (0 <= val (od_BalanceApplied o))%Q ∧ (0 <= val (od_Payable o))%Q ∧ (val (od_Payable o) == val (od_Total o) - val (od_BalanceApplied o))%Q ∧
  (od_Kind o = KindTopup → (val (od_BalanceApplied o) == 0)%Q).
Proof.
  unfold order_check, amounts_check, kind_check. intros H. rewrite !andb_true_iff in H.
  destruct H as [[[_ [[[[[[A1 _] A2] _] _] _] _]] [[[[[[_ K1] _] _] _] _] _]] _].
  rewrite forallb_forall in A1. assert (HN : ∀ d, IsNegative d = false → (0 <= val d)%Q) by (intros d Hd; by destruct (IsNegative_spec d)).
  split_and!.
  - apply HN, negb_true_iff, A1. simpl. tauto.
  - apply HN, negb_true_iff, A1. simpl. tauto.
  - destruct (Equal_spec (od_Payable o) (dec_sub (od_Total o) (od_BalanceApplied o))) as [E|]; [|done]. by rewrite E, dec_sub_val.
  - intros E. rewrite E in K1. simpl in K1. rewrite !andb_true_iff in K1. destruct K1 as [[[[_ K1] _] _] _].
    by destruct (IsZero_spec (od_BalanceApplied o)).
Qed.

(** The reservation of the code belongs to the row that was written. *)
Lemma reserve_coupon_Ok k d o code discount couponID total w o' w' :
  core w → v_red (viewOf (od_ID o) w) = [] → od_UserID o = dr_UserID d → od_CouponID o = couponID → od_Discount o = discount →
  (code = "" → couponID = None) → (NormalizeCode code ≠ "" → is_Some couponID) →
  reserve_coupon W k d o code discount couponID total w = (Ok o', w') →
  ∃ v, becomes W (od_ID o) w w' v ∧ v_order v = v_order (viewOf (od_ID o) w) ∧ v_res v = v_res (viewOf (od_ID o) w) ∧
    v_hold v = v_hold (viewOf (od_ID o) w) ∧ red_tracks "held" o (v_red v) ∧
    od_ID o' = od_ID o ∧ od_UserID o' = od_UserID o ∧ od_CouponID o' = couponID ∧ od_BalanceApplied o' = od_BalanceApplied o.
Proof.
  intros Hk Hred Eu Ec Ed Hc1 Hc2 H. unfold reserve_coupon in H. destruct (String.eqb_spec code "") as [E|_].
  { injection H as <- <-. exists (viewOf (od_ID o) w). split_and!; try done.
    unfold red_tracks. by rewrite Ec, Hc1. }
  apply bind_Ok in H as ([a|] & w1 & H1 & H); [|done].
  apply (Reserve_becomes W) in H1 as (r & _ & S1 & S2 & S3 & S4 & Hn & B); [|done]. destruct (Hc2 Hn) as [c Ecp]. rewrite Ecp in H.
  destruct (N.eqb_spec (ap_CouponID a) c) as [Ea|]; [|done]. simpl in H. destruct (Equal_spec (ap_Discount a) discount) as [Eq|]; [|done].
  simpl in H. destruct (negb _); [done|]. injection H as <- <-.
  eexists. split; [exact B|]. split_and!; try done.
  - unfold red_tracks. rewrite Ec, Ecp. exists r. rewrite S4, Ed. split_and!; [done|done|congruence|simpl in S3; congruence|done].
  - simpl. congruence.
Qed.

Lemma fresh_view w id : world_ok W w → orders (w_book w) !! id = None → viewOf id w = mkView None None [] None.
Proof.
  intros [_ Hc] Ho. specialize (Hc id). unfold consistent, viewOf in *. simpl in *. rewrite Ho in *. destruct Hc as (-> & -> & ->). done.
Qed.

(** Balance reserved for an order that still has to be paid. *)
Lemma place_hold_Ok who u o id w w3 w4 v :
  becomes W id w w3 v → v_hold v = None → od_UserID o = u → (0 < val (od_Payable o))%Q →
  (if IsPositive (od_Payable o) && IsPositive (od_BalanceApplied o)
   then _ ← on_ledger_fk (λ orders, HoldForOrder orders (joined who) (mkHoldInput id u (od_BalanceApplied o))); mret ()
   else mret ()) w3 = (Ok (), w4) →
  ∃ v4, becomes W id w w4 v4 ∧ v_order v4 = v_order v ∧ v_res v4 = v_res v ∧ v_red v4 = v_red v ∧ hold_tracks "held" o (v_hold v4).
Proof.
  intros B Hn Eu Hp H. unfold hold_tracks. destruct (IsPositive_spec (od_Payable o)); [|lra]. simpl in H.
  destruct (IsPositive (od_BalanceApplied o)).
  - apply bind_Ok in H as (h & w5 & H & E). injection E as <-. apply (HoldForOrder_becomes W) in H as (_ & U & A & S & B4); [|apply B].
    simpl in U, A, B4. rewrite (bc_view _ _ _ _ _ B) in B4. eexists. split; [by eapply becomes_trans|].
    split_and!; try done. exists h. split_and!; [done|done|congruence|by rewrite A].
  - injection H as <-. exists v. by rewrite Hn.
Qed.

(** The part of [place] that writes. *)
Lemma place_writes who k d no code discount total couponID bal :
  (code = "" → couponID = None) → (NormalizeCode code ≠ "" → is_Some couponID) →
  placing (
    o ← placeOrder W k (new_order k d no discount total couponID bal) (dr_Actor d);
    o ← reserve_coupon W k d o code discount couponID total;
    _ ← (match dr_Item d with
         | Some i => CreateItem W (mkItemRow (od_ID o) (li_PriceID i) (li_PlanID i) (li_PlanVersionID i) (li_Name i)
                       (li_PlanVersion i) (li_Interval i) (li_IntervalCount i) (li_Entitlements i) (li_Quotas i)
                       (li_Quantity i) (li_UnitAmount i) (li_LineAmount i))
         | None => mret ()
         end);
    _ ← (if IsPositive (Payable bal) && IsPositive (Applied bal)
         then _ ← on_ledger_fk (λ orders, HoldForOrder orders (joined who) (mkHoldInput (od_ID o) (dr_UserID d) (Applied bal))); mret ()
         else mret ());
    _ ← lift (emitOrderCreated W o);
    o ← (if IsZero (Payable bal) then settleZeroPay W who k o (dr_Actor d) else mret o);
    _ ← (if String.eqb (dr_Audit d) "" then mret () else order_audit (dr_Audit d) (od_ID o));
    mret (created_of o, o)).
Proof.
  intros C1 C2 w [cr ox] w' Hw H. apply bind_Ok in H as (o & w1 & H1 & H).
  apply placeOrder_Ok in H1 as (Eo & Ei & Hn & Hck & r & Hr & B1); [|apply Hw|done]. set (id := order_next (w_book w)) in *.
  rewrite (fresh_view w id Hw Hn) in B1.
  apply bind_Ok in H as (o2 & w2 & H2 & H).
  apply reserve_coupon_Ok in H2 as (v2 & B2 & O2 & R2 & L2 & D2 & I2 & U2 & P2 & A2); try done; try (by rewrite Eo); [|apply B1|by rewrite Ei, (bc_view _ _ _ _ _ B1)].
  rewrite Ei, (bc_view _ _ _ _ _ B1) in *. simpl in O2, R2, L2. pose proof (becomes_trans W _ _ _ _ _ _ B1 B2) as B. clear B1 B2.
  apply bind_Ok in H as ([] & w3 & H3 & H).
  assert (B3 : becomes W id w w3 v2).
  { destruct (dr_Item d); [|by injection H3 as <-]. by eapply becomes_quiet; [apply CreateItem_quiet| |exact H3]. }
  clear B H3. apply bind_Ok in H as ([] & w4 & H4 & H).
  destruct (order_check_facts _ Hck) as (F1 & F2 & F3 & _).
  assert (EA : od_BalanceApplied o = Applied bal) by (by rewrite Eo). assert (EP : od_Payable o = Payable bal) by (by rewrite Eo).
  assert (Es : od_Status o = StatusPending) by (by rewrite Eo). assert (Ev : od_StateVersion o = 1) by (by rewrite Eo).
  assert (Eu : od_UserID o = dr_UserID d) by (by rewrite Eo).
  apply bind_Ok in H as ([] & w5 & H5 & H). apply lift_Ok in H5 as [_ ->].
  apply bind_Ok in H as (o5 & w5 & H5 & H). apply bind_Ok in H as ([] & w6 & H6 & H). injection H as _ _ <-.
  assert (Hq : ∀ v, becomes W id w w5 v → becomes W id w w6 v).
  { intros v B. destruct (String.eqb (dr_Audit d) ""); [by injection H6 as <-|].
    by eapply becomes_quiet; [apply order_audit_quiet| |exact H6]. }
  assert (Hold : id = od_ID o2) by congruence. rewrite <- EP in H4, H5. rewrite <- EA in H4.
  destruct (IsZero_spec (od_Payable o)) as [Hz|Hz].
  - destruct (IsPositive_spec (od_Payable o)) as [Hp|_]; [lra|]. simpl in H4. injection H4 as <-. rewrite Hold in B3.
    eapply settleZeroPay_Ok in H5 as (v & B & O & F & Hc); [|apply B3|rewrite (bc_view _ _ _ _ _ B3); exact O2|done| | | | |];
      try (rewrite (bc_view _ _ _ _ _ B3)); [|by rewrite P2, Eo|done|by rewrite R2|done|by rewrite L2].
    rewrite <- Hold in B, B3. apply (appear id w w6 v); [done|apply Hq; by eapply becomes_trans|done|done|].
    rewrite O. destruct F as (F4 & F5 & F6 & _). apply life_buy; [done| |lia].
    injection F5 as _ _ _ _ _ _ _ _ _ _ EP5 _ _ _ _ _ _. by rewrite EP5.
  - injection H5 as <- <-.
    destruct (place_hold_Ok who (dr_UserID d) o id w w3 w4 v2 B3 ltac:(by rewrite L2) Eu ltac:(lra) ltac:(by rewrite <- Hold in H4))
      as (v4 & B4 & O4 & R4 & D4 & L4).
    apply (appear id w w6 v4); [done|by apply Hq| |done|].
    + unfold consistent. rewrite O4, O2, Es. change (expected StatusPending) with "held". split; [done|].
      rewrite R4, D4, R2. by split_and!.
    + rewrite O4, O2. by apply life_place.
Qed.

Lemma place_placing who k d : placing (place W who k d).
Proof.
  unfold place. cbv zeta. apply keeps_bind; [apply _|apply quiet_placing, purchaseGate_quiet|]. intros lim.
  apply (keeps_bind_post _ _ (λ c : string * dec * option uuid, (c.1.1 = "" → c.2 = None) ∧ (NormalizeCode c.1.1 ≠ "" → is_Some c.2))).
  - apply quiet_placing. intros w c w' Hk H. destruct (place_coupon_spec _ _ _ _ _ Hk H) as (? & ? & _). done.
  - intros w c w' [Hk _] H. destruct (place_coupon_spec _ _ _ _ _ Hk H) as (_ & _ & ?). done.
  - intros cc [C1 C2]. apply keeps_bind; [apply _|apply quiet_placing, balanceFor_quiet|]. intros bal.
    apply keeps_bind; [apply _| |].
    { destruct (_ && _); [apply quiet_placing, checkUnpaidCap_quiet|apply keeps_ret, _]. }
    intros _. destruct (_ && _); [apply keeps_fail, _|]. apply keeps_bind; [apply _|apply keeps_lift, _|]. intros _.
    apply keeps_bind; [apply _|apply keeps_lift, _|]. intros no. by apply place_writes.
Qed.
Lemma place_lively who k d : lively (place W who k d).
Proof. intros w a w' Hw H. destruct (place_placing who k d _ _ _ Hw H) as [Hw' Hp]. split; [done|by apply places_lives]. Qed.

(** ** Settling *)

Lemma pending_facts w id o : world_ok W w → orders (w_book w) !! id = Some o → od_Status o = StatusPending →
  od_ID o = id ∧ order_check W o = true ∧ v_order (viewOf id w) = Some o ∧ res_tracks "held" o (v_res (viewOf id w)) ∧
  red_tracks "held" o (v_red (viewOf id w)) ∧ hold_tracks "held" o (v_hold (viewOf id w)).
Proof.
  intros [Hk Hc] Ho Hs. destruct (ck_orders _ _ Hk _ _ Ho) as (Ei & _ & Hck). specialize (Hc id). unfold consistent in Hc.
  change (v_order (viewOf id w)) with (orders (w_book w) !! id) in *. rewrite Ho, Hs in Hc.
  change (expected StatusPending) with "held" in Hc. destruct Hc as (_ & H1 & H2 & H3). by split_and!.
Qed.

Lemma onlyItem_quiet o : quiet (onlyItem o).
Proof. unfold onlyItem, ItemsByOrder. keeps_walk. Qed.
Lemma settle_target_quiet o i now : quiet (settle_target o i now).
Proof.
  unfold settle_target, resetPayable, Quotas.
  keeps_walk; first [apply onlyItem_quiet | apply quiet_on_subs; intros; unfold lockOwned, QuotasBySubscriptions; safe_walk].
Qed.

Lemma topup_quiet who o i memo :
  quiet (on_ledger (Post (joined who) (mkPosting KindBalanceTopup SourceOrder (od_ID o) memo (topup_legs o i)))).
Proof.
  apply quiet_ledger. intros l a l' Hg H. eapply Post_quiet; [|done..]. simpl. unfold topup_legs.
  by repeat apply Forall_app_2; repeat case_match; repeat constructor.
Qed.

(** The settlement of a pending order's balance part. *)
Lemma postSettlement_Ok who o i w w' : core w → order_check W o = true → IsPositive (od_Payable o) = true →
  Equal (si_Amount i) (od_Payable o) = true → hold_tracks "held" o (v_hold (viewOf (od_ID o) w)) →
  postSettlement who o i w = (Ok (), w') →
  ∃ v, becomes W (od_ID o) w w' v ∧ v_order v = v_order (viewOf (od_ID o) w) ∧ v_res v = v_res (viewOf (od_ID o) w) ∧
    v_red v = v_red (viewOf (od_ID o) w) ∧ hold_tracks "captured" o (v_hold v).
Proof.
  intros Hk Hck Hp Ha Hh H. destruct (order_check_facts _ Hck) as (F1 & F2 & F3 & F4). unfold postSettlement in H.
  destruct (String.eqb_spec (od_Kind o) KindTopup) as [Ek|_].
  - apply bind_Ok in H as (x & w1 & H1 & H). injection H as <-. exists (viewOf (od_ID o) w).
    split; [eapply becomes_quiet; [apply topup_quiet|by apply becomes_refl|exact H1]|]. split_and!; try done.
    unfold hold_tracks in *. specialize (F4 Ek). destruct (IsPositive_spec (od_BalanceApplied o)); [lra|done].
  - apply bind_Ok in H as (x & w1 & H1 & H). injection H as <-. apply map_err_Ok in H1.
    apply (PostOrderPaid_becomes W) in H1 as [P1 P2]; [|done]. cbn [op_OrderID op_Total op_Paid] in P1, P2.
    destruct (Equal_spec (si_Amount i) (od_Payable o)) as [Ea|]; [|done]. destruct (IsPositive_spec (od_Payable o)) as [Hpos|]; [|done].
    unfold hold_tracks in *. destruct (IsPositive_spec (od_BalanceApplied o)) as [Hb|Hb].
    + destruct P1 as (h & h' & E & _ & S & U & A & B); [lra|lra|]. destruct Hh as (x' & Ex & _ & U' & A').
      rewrite Ex in E. injection E as <-. eexists. split; [exact B|]. split_and!; try done. exists h'. rewrite A. split_and!; congruence || done.
    + specialize (P2 ltac:(lra)). eexists. by split; [exact P2|].
Qed.

Hypothesis hook_posts : ∀ hook p, OnOrderPaid W = Some hook → posts_only (hook p).

(** The order was pending with exactly this amount due, and is fulfilled. *)
Lemma SettlePayment_Ok who k i w w' : world_ok W w → SettlePayment W who k i w = (Ok (), w') →
  ∃ o o' v, orders (w_book w) !! si_OrderID i = Some o ∧ od_Status o = StatusPending ∧ IsPositive (od_Payable o) = true ∧
    Equal (si_Amount i) (od_Payable o) = true ∧ fulfilled_from o o' ∧ v_order v = Some o' ∧ consistent v ∧
    becomes W (si_OrderID i) w w' v.
Proof.
  intros Hw H. unfold SettlePayment in H. apply bind_Ok in H as (x & w1 & H1 & H). apply gets_Ok in H1 as [-> ->].
  destruct (orders (w_book w) !! si_OrderID i) as [o|] eqn:Ho; [|done].
  destruct (one_of _ [StatusPaid; _]); [done|]. destruct (one_of _ [StatusCancelled; _]); [done|].
  destruct (String.eqb_spec (od_Status o) StatusPending) as [Es|]; [|done]. simpl negb in H. cbv iota in H.
  destruct (_ || _) eqn:Hamt; [done|]. apply orb_false_iff in Hamt as [Hp%negb_false_iff Ha%negb_false_iff]. cbv zeta in H.
  destruct (pending_facts _ _ _ Hw Ho Es) as (Ei & Hck & Hv & Hres & Hred & Hh). rewrite <- Ei in Hv, Hres, Hred, Hh.
  apply bind_Ok in H as (it & w1 & H1 & H).
  assert (B1 : becomes W (od_ID o) w w1 (viewOf (od_ID o) w)).
  { eapply becomes_quiet; [|apply becomes_refl, Hw|exact H1]. keeps_walk. }
  apply bind_Ok in H as ([] & w2 & H2 & H).
  assert (B2 : becomes W (od_ID o) w w2 (viewOf (od_ID o) w)) by (eapply becomes_quiet; [apply settle_target_quiet|exact B1|exact H2]).
  pose proof (bc_view _ _ _ _ _ B2) as V2. rewrite <- V2 in Hv, Hres, Hred, Hh. clear B1 H1 H2.
  apply bind_Ok in H as ([] & w3 & H3 & H).
  destruct (captureReservation_Ok _ _ _ _ _ _ (bc_core _ _ _ _ _ B2) eq_refl Hres Hred H3) as (v3 & B3 & O3 & L3 & R3 & D3).
  apply bind_Ok in H as ([] & w4 & H4 & H). rewrite <- L3, <- (bc_view _ _ _ _ _ B3) in Hh.
  destruct (postSettlement_Ok _ _ _ _ _ (bc_core _ _ _ _ _ B3) Hck Hp Ha Hh H4) as (v4 & B4 & O4 & R4 & D4 & L4).
  rewrite (bc_view _ _ _ _ _ B3) in O4, R4, D4.
  apply bind_Ok in H as (p & w5 & H5 & H). apply bind_Ok in H as ([] & w6 & H6 & H). apply bind_Ok in H as (o' & w7 & H7 & H).
  pose proof (markPaid_Ok _ _ _ _ _ (bc_core _ _ _ _ _ B4) H5) as (_ & _ & _ & _ & _ & B5).
  assert (K6 : core w6 ∧ same_views w5 w6).
  { destruct (OnOrderPaid W) as [hook|] eqn:Eh; [destruct (_ && _)|]; [|by injection H6 as <-; split; [apply B5|]..].
    eapply quiet_ledger_ext; [by apply (hook_posts hook)|apply B5|exact H6]. }
  destruct (pay_and_fulfil _ _ _ _ _ _ _ _ _ _ _ _ (bc_core _ _ _ _ _ B4) H5 (proj1 K6) (proj2 K6) H7) as (o0 & E0 & _ & F & B7).
  rewrite (bc_view _ _ _ _ _ B4) in E0, B7. rewrite O4, O3, Hv in E0. injection E0 as <-.
  apply bind_Ok in H as ([] & w8 & H8 & H). apply lift_Ok in H8 as [_ ->]. apply bind_Ok in H as ([] & w8 & H8 & H). apply lift_Ok in H8 as [_ ->].
  assert (B : becomes W (od_ID o) w w' (with_order o' v4)).
  { eapply becomes_quiet; [apply order_audit_quiet| |exact H]. do 3 (eapply becomes_trans; [eassumption|]). exact B7. }
  rewrite Ei in B. exists o, o', (with_order o' v4). split_and!; try done.
  apply (fulfilled_consistent o o'); simpl; [done|done|by rewrite R4|by rewrite D4|done].
Qed.
Lemma SettlePayment_lively who k i : lively (SettlePayment W who k i).
Proof.
  intros w [] w' Hw H. destruct (SettlePayment_Ok _ _ _ _ _ Hw H) as (o & o' & v & Ho & Es & _ & _ & (F4 & F5 & F6 & F7) & Ev & Hc & Hb).
  apply (advance _ _ _ _ Hw Hb Hc). change (v_order (viewOf (si_OrderID i) w)) with (orders (w_book w) !! si_OrderID i).
  rewrite Ho, Ev. by apply life_settle.
Qed.

(** ** Releasing *)

(** A held reservation with its code, released. *)
Lemma release_held k o r reason event actor w w1 w2 w3 : core w → reservations (w_book w) !! od_ID o = Some r →
  res_tracks "held" o (v_res (viewOf (od_ID o) w)) → red_tracks "held" o (v_red (viewOf (od_ID o) w)) →
  UpdateReservation (rs_ID r) ReservationHeld ReservationReleased (k_closed k) (Some reason) w = (Ok true, w1) →
  InsertReservationEvent W (mkResEvent (rs_ID r) (od_ID o) (Some ReservationHeld) ReservationReleased event actor (Some reason)
    (k_closed k)) w1 = (Ok (), w2) →
  (match od_CouponID o with Some _ => on_promo (PromoRelease true (k_db k) (od_ID o) reason) | None => mret () end) w2 = (Ok (), w3) →
  ∃ v, becomes W (od_ID o) w w3 v ∧ v_order v = v_order (viewOf (od_ID o) w) ∧ v_hold v = v_hold (viewOf (od_ID o) w) ∧
    res_tracks "released" o (v_res v) ∧ red_tracks "released" o (v_red v).
Proof.
  intros Hk Er (r0 & Er0 & _ & Eu & Ee) Hred H1 H2 H. simpl in Er0. rewrite Er in Er0. injection Er0 as <-.
  destruct (UpdateReservation_Ok W _ _ _ _ _ _ _ Hk Er H1) as [_ B1].
  destruct (moved_same ReservationReleased (k_closed k) (Some reason) r) as (_ & _ & M3 & M4 & M5). set (r' := moved _ _ _ r) in *. clearbody r'.
  pose proof (becomes_quiet W _ _ _ _ _ _ _ (InsertReservationEvent_quiet W _) B1 H2) as B2.
  assert (Hr' : res_tracks "released" o (Some r')) by (exists r'; split_and!; [done|done|congruence|congruence]).
  unfold red_tracks in *. destruct (od_CouponID o) as [c|].
  - destruct (PromoRelease_Ok W _ _ _ _ _ (bc_core _ _ _ _ _ B2) H) as (y & y' & Ey & (M1 & M2 & N3 & N4 & N5) & B3).
    rewrite (bc_view _ _ _ _ _ B2) in Ey, B3. destruct Hred as (z & Ez & Z1 & Z2 & Z3 & Z4).
    change (v_red (viewOf (od_ID o) w) = [y]) in Ey. rewrite Ez in Ey. injection Ey as <-.
    eexists. split_and!; [by eapply becomes_trans|done..|]. exists y'. rewrite N3, N4, N5. done.
  - injection H as <-. eexists. by split_and!.
Qed.

Lemma closed_from to reason at_ o : to = StatusCancelled ∨ to = OrderExpired → od_Status o = StatusPending →
  life (Some o) (Some (next_version (closed_cols to reason at_ o))).
Proof. intros Ht Hs. by apply life_close. Qed.

Lemma closed_consistent to o o' v : to = StatusCancelled ∨ to = OrderExpired → od_Status o' = to → terms o' = terms o →
  v_order v = Some o' → res_tracks "released" o (v_res v) → red_tracks "released" o (v_red v) →
  hold_tracks "released" o (v_hold v) → consistent v.
Proof.
  intros Ht Est Et Eo H1 H2 H3. destruct (tracks_terms "released" o o' v Et) as (T1 & T2 & T3).
  unfold consistent. rewrite Eo, Est. assert (expected to = "released") as -> by (by destruct Ht as [-> | ->]).
  rewrite T1, T2, T3. split_and!; try done. by destruct Ht as [-> | ->].
Qed.

Lemma releaseOrderWith_Ok who k o to reason event actor before w o' w' :
  world_ok W w → orders (w_book w) !! od_ID o = Some o → to = StatusCancelled ∨ to = OrderExpired → quiet before →
  releaseOrderWith W who k o to reason event actor before w = (Ok o', w') →
  ∃ v, becomes W (od_ID o) w w' v ∧ consistent v ∧ life (Some o) (v_order v) ∧
    od_Status o = StatusPending ∧ od_Status <$> v_order v = Some to.
Proof.
  intros Hw Ho Hto Hq H. unfold releaseOrderWith in H. destruct (String.eqb_spec (od_Status o) StatusPending) as [Es|]; [|done].
  destruct (pending_facts _ _ _ Hw Ho Es) as (_ & _ & Hv & Hres & Hred & Hh). pose proof (proj1 Hw) as Hk.
  apply bind_Ok in H as (res & w0 & H0 & H). apply gets_Ok in H0 as [-> ->].
  destruct (reservations (w_book w) !! od_ID o) as [r|] eqn:Er; [|done]. destruct (negb _) in H; [done|].
  apply bind_Ok in H as ([] & w1 & H1 & H); [|done]. simpl negb in H. cbv iota in H.
  apply bind_Ok in H as ([] & w2 & H2 & H). apply bind_Ok in H as ([] & w3 & H3 & H).
  destruct (release_held _ _ _ _ _ _ _ _ _ _ Hk Er Hres Hred H1 H2 H3) as (v3 & B3 & O3 & L3 & R3 & D3).
  apply bind_Ok in H as ([] & w4 & H4 & H). pose proof (becomes_quiet W _ _ _ _ _ _ _ Hq B3 H4) as B4. clear B3.
  apply bind_Ok in H as ([] & w5 & H5 & H).
  assert (B5 : ∃ v5, becomes W (od_ID o) w w5 v5 ∧ v_order v5 = v_order v3 ∧ v_res v5 = v_res v3 ∧ v_red v5 = v_red v3 ∧
                     hold_tracks "released" o (v_hold v5)).
  { unfold hold_tracks in *. destruct (IsPositive (od_BalanceApplied o)).
    - apply bind_Ok in H5 as ([] & w6 & H5 & H6); [|done]. simpl in H6. injection H6 as <-.
      apply (ReleaseOrderHold_becomes W) in H5 as (h & h' & E & _ & S & U & A & B); [|apply B4].
      rewrite (bc_view _ _ _ _ _ B4), L3 in E. rewrite (bc_view _ _ _ _ _ B4) in B. destruct Hh as (x & Ex & _ & U' & A').
      rewrite Ex in E. injection E as <-. eexists. split; [by eapply becomes_trans|]. split_and!; try done.
      exists h'. rewrite A. split_and!; congruence || done.
    - injection H5 as <-. exists v3. by rewrite L3. }
  destruct B5 as (v5 & B5 & O5 & R5 & D5 & L5). apply bind_Ok in H as (n & w6 & H6 & H).
  pose proof (becomes_quiet W _ _ _ _ _ _ _ (quiet_ext W _) B5 H6) as B6.
  apply bind_Ok in H as ([] & w7 & H7 & H); [|done]. simpl negb in H. cbv iota in H.
  apply UpdateOrder_Ok in H7 as (o0 & E0 & _ & _ & B7); [|apply B6|done]. rewrite (bc_view _ _ _ _ _ B6) in E0, B7.
  rewrite O5, O3, Hv in E0. injection E0 as <-.
  apply bind_Ok in H as ([] & w8 & H8 & H). apply bind_Ok in H as ([] & w9 & H9 & H). apply lift_Ok in H9 as [_ ->].
  apply reload_Ok in H as [-> _]. eexists. split; [eapply becomes_quiet; [apply order_audit_quiet| |exact H8]; by eapply becomes_trans|].
  split; [|split; [by apply closed_from|done]]. apply (closed_consistent to o (next_version (closed_cols to reason (k_closed k) o))); simpl; try done; [by rewrite R5|by rewrite D5].
Qed.
End OrderLife.
