(* ===== verification/Frame.v ===== *)
(** What the order flow leaves alone.  Orders post to balances, holds, channel,
    revenue and expense accounts; the accounts other modules keep for late
    payments, commissions and gift cards ([aside]) only change through their own
    calls.  The
    lemmas walk the whole flow once for any invariant [I] over the ledger and
    the other modules' tables that such entries cannot break. *)
From Stdlib Require Import ZArith QArith Lqa Lia.
From stdpp Require Import base tactics list gmap strings sorting relations.
From S2P Require Import Prelude Safety Decimal GoString Money GoTime LedgerTypes LedgerFacts Ledger LedgerInv LedgerOps Promo PromoThms.
From S2P Require Import Period OrderAmounts Proration SubTypes SubStore Subscription OrderStore OrderFlow OrderInv OrderLife.
#[local] Open Scope string_scope.
#[local] Open Scope Z_scope.

(** * The ledger *)

Definition aside_types : list string := [LatePaymentSuspense; UserCommissionPending; UserCommissionAvailable; PlatformPromoExpense].
(** Account types outside the order flow. *)
Class Aside (G : string → Prop) := aside t : G t → t ∈ aside_types.

Section Steady.
Context `{DL : DecimalLib} (G : string → Prop) `{!Aside G}.

Definition steady (l l' : ledger) : Prop := ∀ k, account_check k = true → G (k_Type k) → (bal l' k == bal l k)%Q.
#[global] Instance steady_preorder : PreOrder steady.
Proof. split; [by intros l k|]. intros a b c H1 H2 k Hk Hg. by rewrite (H2 k), (H1 k). Qed.

Definition avoids (legs : list Leg) : Prop := Forall (λ x, ¬ G (ref_Type (leg_Account x))) legs.
Lemma aside_not t : t ∉ aside_types → ¬ G t.
Proof. intros H Hg. by apply H, aside. Qed.
Lemma avoids_types legs : Forall (λ x, one_of (ref_Type (leg_Account x)) aside_types = false) legs → avoids legs.
Proof. intros H. eapply Forall_impl; [exact H|]. intros x E. apply aside_not. by apply bool_decide_eq_false in E. Qed.
Lemma moved_steady legs l l' : (∀ k, account_check k = true → (bal l' k == bal l k + delta_on (refOf k) legs)%Q) → avoids legs → steady l l'.
Proof.
  intros H Hs k Hk Hg. rewrite H, delta_on_none by done || (intros (x & E & Hx)%list_elem_of_fmap;
    apply (proj1 (Forall_forall _ _) Hs x Hx); by rewrite <- E, refOf_type). lra.
Qed.

Abbreviation calml := (keeps (E := lerr) good steady).
Ltac outside := apply avoids_types; by repeat constructor.

Lemma HoldForOrder_steady orders c i : calml (HoldForOrder orders c i).
Proof.
  intros l h l' [Hok Hho] H. unfold HoldForOrder in H. step_ok H. apply lift_Ok in H0 as [_ ->]. unfold DoL in H. step_ok H.
  destruct (holdForOrder_spec _ _ _ _ _ _ Hok Hho H) as [H1 H2 _ _ _ Hb]. split; [done|]. eapply moved_steady; [apply Hb|outside].
Qed.
Lemma ReleaseOrderHold_steady c id memo : calml (ReleaseOrderHold c id memo).
Proof.
  intros l b l' [Hok Hho] H. unfold ReleaseOrderHold, DoL in H. step_ok H.
  pose proof (releaseOrderHold_spec _ _ _ _ _ _ Hok Hho H) as Hs. destruct b; [|subst; done].
  destruct Hs as (h & [H1 H2 _ _ Hb]). split; [done|]. eapply moved_steady; [apply Hb|outside].
Qed.
Lemma orderPaidLegs_avoid p applied : avoids (orderPaidLegs p applied).
Proof. unfold orderPaidLegs, avoids. repeat apply Forall_app_2; repeat case_match; outside. Qed.
Lemma settled_steady c p l l' id : settled c p l l' id → steady l l'.
Proof.
  intros [_ _ Hz Hb _ _]. destruct (Qeq_dec (val (op_Total p)) 0) as [E|E]; [by destruct (Hz E) as [-> _]|].
  eapply moved_steady; [apply (Hb E)|apply orderPaidLegs_avoid].
Qed.
Lemma PostOrderPaid_steady c p : calml (PostOrderPaid c p).
Proof.
  intros l id l' [Hok Hho] H. unfold PostOrderPaid in H. step_ok H. apply lift_Ok in H0 as [_ ->]. unfold DoL in H. step_ok H.
  pose proof (postOrderPaid_spec _ _ _ _ _ Hok Hho H) as Hs. split; [split; apply Hs|by eapply settled_steady].
Qed.
Lemma CaptureFromBalance_steady orders c i : calml (CaptureFromBalance orders c i).
Proof.
  intros l r l' [Hok Hho] H. unfold CaptureFromBalance in H. step_ok H. apply lift_Ok in H0 as [_ ->]. unfold DoL in H. step_ok H.
  destruct (capture_steps _ _ _ _ _ _ Hok Hho H) as (s1 & h & s2 & Hg & [_ _ _ _ _ Hb] & Hs). split; [split; apply Hs|].
  etrans; [intros k _ _; apply (grows_bal _ _ _ Hg)|]. etrans; [eapply moved_steady; [apply Hb|outside]|by eapply settled_steady].
Qed.
Lemma Post_steady c p : avoids (p_Legs p) → Forall (λ x, ref_Type (leg_Account x) ≠ UserBalanceHold) (p_Legs p) → calml (Post c p).
Proof.
  intros Hs Hh l id l' Hg H. destruct (Post_quiet _ _ _ _ _ Hh Hg H) as [Hg' _]. split; [done|]. destruct Hg as [Hok _].
  unfold Post in H. destruct (Dedicated _); [done|]. unfold DoL in H. step_ok H. apply postChecked_spec in H as HP; [|done].
  eapply moved_steady; [apply HP|done].
Qed.
Lemma Balance_steady u : calml (Balance u).
Proof. intros l b l' Hg H. apply Balance_spec in H as [-> _]. done. Qed.

Section Adjust.
Context (audit_Write : audit_event → result lerr ()) (IsDeleted : uuid → result lerr bool).
Lemma AdjustBalance_steady c a l r l' : ledger_ok l → AdjustBalance audit_Write IsDeleted c a l = (Ok r, l') → steady l l'.
Proof.
  intros Hok H. apply AdjustBalance_ok in H as Ha; [|done]. eapply moved_steady; [apply (ad_keys _ _ _ _ Ha)|].
  unfold adjust_legs. destruct (IsPositive _); outside.
Qed.
End Adjust.
End Steady.
Ltac outside := apply avoids_types; [assumption || apply _|]; by repeat constructor.
Create HintDb frame.
#[export] Hint Resolve HoldForOrder_steady ReleaseOrderHold_steady PostOrderPaid_steady CaptureFromBalance_steady Balance_steady : frame.

(** * The flow *)

Section Flow.
Context `{DL : DecimalLib} {X : Type} (W : OrderEnv X) (G : string → Prop) `{!Aside G}.
Context (I : ledger * X → Prop) (R : relation (ledger * X)) `{!PreOrder R}.
Abbreviation WM := (M (world X) oerr).

(** Entries outside [G] do not matter. *)
Record frames : Prop := {
  fr_good : ∀ s, I s → good s.1;
  fr_steady : ∀ l l' x, I (l, x) → good l' → steady G l l' → I (l', x) ∧ R (l, x) (l', x);
}.
Context (F : frames).

Definition part (w : world X) : ledger * X := (w_ledger w, w_ext w).
Definition framed (w : world X) : Prop := I (part w).
Definition frame_to (w w' : world X) : Prop := R (part w) (part w').
#[global] Instance frame_to_preorder : PreOrder frame_to.
Proof. split; [intros w; unfold frame_to; reflexivity|]. intros a b c H1 H2. unfold frame_to in *. by etrans. Qed.
Abbreviation keeps_part := (keeps (E := oerr) framed frame_to).

Lemma part_same {A} (m : WM A) : (∀ w a w', m w = (Ok a, w') → part w' = part w) → keeps_part m.
Proof. intros Hm w a w' Hw H. apply Hm in H. unfold framed, frame_to. by rewrite H. Qed.
Lemma part_ledger {A} (m : M ledger lerr A) : keeps (E := lerr) good (steady G) m → keeps_part (on_ledger m).
Proof.
  intros Hm w a w' Hw (l & H & ->)%zoom_Ok. destruct (Hm _ _ _ (fr_good F _ Hw) H) as [Hg Hs].
  by apply (fr_steady F (w_ledger w)).
Qed.
Lemma part_ledger_fk {A} (m : (uuid → bool) → M ledger lerr A) :
  (∀ orders, keeps (E := lerr) good (steady G) (m orders)) → keeps_part (on_ledger_fk m).
Proof. intros Hm w. by apply part_ledger. Qed.
Lemma part_promo {A} (m : M promo perr A) : keeps_part (on_promo m).
Proof. apply part_same. by intros w a w' (p & H & ->)%zoom_Ok. Qed.
Lemma part_subs {A} (m : M store serr A) : keeps_part (on_subs m).
Proof. apply part_same. by intros w a w' (p & H & ->)%zoom_Ok. Qed.
Lemma part_with_sub {A} (f : Env → M store serr A) : keeps_part (with_sub W f).
Proof. apply part_same. by intros w a w' (p & H & ->)%zoom_Ok. Qed.
(** The module's own tables. *)
Ltac book_step := apply part_same; intros w a w' H; repeat case_match; by simplify_eq.
Lemma CreateOrder_part mk : keeps_part (CreateOrder W mk).
Proof. unfold CreateOrder. book_step. Qed.
Lemma UpdateOrder_part id from paid cols : keeps_part (UpdateOrder W id from paid cols).
Proof. unfold UpdateOrder. book_step. Qed.
Lemma CreateItem_part i : keeps_part (CreateItem W i).
Proof. unfold CreateItem. book_step. Qed.
Lemma CreateReservation_part mk : keeps_part (CreateReservation W mk).
Proof. unfold CreateReservation. book_step. Qed.
Lemma UpdateReservation_part id from to at_ reason : keeps_part (UpdateReservation id from to at_ reason).
Proof. unfold UpdateReservation. book_step. Qed.
Lemma InsertReservationEvent_part e : keeps_part (InsertReservationEvent W e).
Proof. unfold InsertReservationEvent. book_step. Qed.
Lemma order_audit_part a id : keeps_part (order_audit a id).
Proof. apply part_same. by intros w u w' [= _ <-]. Qed.
Hint Resolve part_ledger part_ledger_fk part_promo part_subs part_with_sub CreateOrder_part UpdateOrder_part CreateItem_part CreateReservation_part
  UpdateReservation_part InsertReservationEvent_part order_audit_part : frame.

Lemma captureReservation_part k o actor : keeps_part (captureReservation W k o actor).
Proof. unfold captureReservation, ReservationByOrder. keeps_walk; auto with frame. Qed.
Lemma placeOrder_part k mk actor : keeps_part (placeOrder W k mk actor).
Proof. unfold placeOrder. keeps_walk; auto with frame. Qed.
Lemma refund_part who o refund : keeps_part (on_ledger (Post (joined who) (refund_posting o refund))).
Proof. apply part_ledger, Post_steady; [outside|by repeat constructor]. Qed.
Lemma reload_part id : keeps_part (reload id : WM _).
Proof. unfold reload, OrderByID. keeps_walk. Qed.
Lemma onlyItem_part o : keeps_part (onlyItem o : WM _).
Proof. unfold onlyItem, ItemsByOrder. keeps_walk. Qed.
Lemma deliver_part who k o at_ actor : keeps_part (deliver W who k o at_ actor).
Proof. unfold deliver, fulfilPlanChange. keeps_walk; auto using refund_part, onlyItem_part with frame. Qed.
Lemma markPaid_part o at_ : keeps_part (markPaid W o at_).
Proof. unfold markPaid. keeps_walk; auto using reload_part with frame. Qed.
Lemma fulfil_part who k o at_ actor : keeps_part (fulfil W who k o at_ actor).
Proof. unfold fulfil. keeps_walk; auto using reload_part, deliver_part with frame. Qed.
Lemma reserve_coupon_part k d o code discount c total : keeps_part (reserve_coupon W k d o code discount c total).
Proof. unfold reserve_coupon. keeps_walk; auto with frame. apply part_same. by intros w a w' (p & H & ->)%zoom_Ok. Qed.
Lemma place_part who k d : keeps_part (place W who k d).
Proof.
  unfold place, purchaseGate, place_coupon, balanceFor, checkUnpaidCap, checkSubscriptionCap, subscriptionCap, PendingCounts, lift_err.
  keeps_walk; auto using placeOrder_part, reserve_coupon_part, captureReservation_part, markPaid_part, fulfil_part with frame.
Qed.
Lemma settle_target_part o i now : keeps_part (settle_target o i now : WM _).
Proof. unfold settle_target, resetPayable, Quotas. keeps_walk; auto using onlyItem_part with frame. Qed.
Lemma postSettlement_part who o i : keeps_part (postSettlement who o i : WM _).
Proof.
  unfold postSettlement. keeps_walk; auto with frame. apply part_ledger, Post_steady; simpl; unfold topup_legs, avoids;
    repeat apply Forall_app_2; repeat case_match; first [outside|by repeat constructor].
Qed.

(** A call into the other modules that keeps the invariant itself. *)
Lemma part_ledger_ext {A} (m : M (ledger * X) oerr A) : keeps (E := oerr) I R m → keeps_part (on_ledger_ext m).
Proof. intros Hm w a w' Hw ([l x] & H & ->)%zoom_Ok. by destruct (Hm _ _ _ Hw H). Qed.

Hypothesis hook_keeps : ∀ hook c, OnOrderPaid W = Some hook → keeps (E := oerr) I R (hook c).
Lemma SettlePayment_part who k i : keeps_part (SettlePayment W who k i).
Proof.
  unfold SettlePayment, OrderByID. destruct (OnOrderPaid W) as [hook|] eqn:Eh; keeps_walk;
    auto using onlyItem_part, settle_target_part, captureReservation_part, postSettlement_part, markPaid_part, fulfil_part,
      part_ledger_ext with frame.
Qed.

Hypothesis close_keeps : ∀ l id to, keeps (E := oerr) (λ x, I (l, x)) (λ x x', R (l, x) (l, x')) (CloseOrderIntents W id to).
Lemma close_part id to : keeps_part (on_ext (CloseOrderIntents W id to)).
Proof. intros w a w' Hw (x & H & ->)%zoom_Ok. by destruct (close_keeps _ _ _ _ _ _ Hw H). Qed.
Lemma releaseOrderWith_part who k o to reason event actor before : keeps_part before →
  keeps_part (releaseOrderWith W who k o to reason event actor before).
Proof. intros Hb. unfold releaseOrderWith, ReservationByOrder. keeps_walk; auto using close_part, reload_part with frame. Qed.
Lemma releaseOrder_part who k o to reason event actor : keeps_part (releaseOrder W who k o to reason event actor).
Proof. apply releaseOrderWith_part. keeps_walk. Qed.
Lemma Cancel_part inTx who k i : keeps_part (Cancel W inTx who k i).
Proof. unfold Cancel, order_tx, OrderByID, OrderForUser. keeps_walk; auto using releaseOrder_part. Qed.
Lemma cancel_all_part who k p l : keeps_part (cancel_all W who k p l).
Proof. induction l; simpl; keeps_walk; auto using releaseOrder_part. Qed.
Lemma CancelUserPending_part inTx who k u : keeps_part (CancelUserPending W inTx who k u).
Proof. unfold CancelUserPending, order_tx, PendingOrdersForUser. keeps_walk; auto using cancel_all_part. Qed.
Lemma CloseArchivedOrder_part inTx who k id settle : (∀ st, keeps (E := oerr) I R (settle st)) →
  keeps_part (CloseArchivedOrder W inTx who k id settle).
Proof.
  intros Hs. unfold CloseArchivedOrder, order_tx, OrderByID. keeps_walk; auto using part_ledger_ext, releaseOrderWith_part.
Qed.

(** The job survives the failure of one order: its transaction is undone. *)
Lemma expireOne_part k locked id w r w' : framed w → expireOne W k locked id w = (r, w') → framed w' ∧ frame_to w w'.
Proof.
  intros Hw H. eapply (safe_commit framed frame_to); [ |exact Hw|exact H].
  unfold OrderByID. keeps_walk; auto using releaseOrder_part.
Qed.
Lemma expire_all_part ks locked ids st w r w' : framed w → expire_all W ks locked ids st w = (r, w') → framed w' ∧ frame_to w w'.
Proof.
  revert st w. induction ids as [|id ids IH]; intros st w Hw H; simpl in H; [by injection H as _ <-|].
  destruct (expireOne W (ks id) locked id w) as [r1 w1] eqn:E1.
  destruct (expireOne_part _ _ _ _ _ _ Hw E1) as [Hw1 L1]. destruct (IH _ _ Hw1 H) as [Hw2 L2]. split; [done|by etrans].
Qed.
Lemma ExpireOrders_part ks locked m now n w r w' : framed w → ExpireOrders W ks locked m now n w = (r, w') → framed w' ∧ frame_to w w'.
Proof.
  intros Hw H. unfold ExpireOrders in H. cbv zeta in H. set (lim := if ExpireBatchMax <? _ then _ else _) in H. clearbody lim.
  unfold mbind, M_bind in H. destruct (order_tx false (ExpiryCandidates locked now (Z.to_nat lim)) w) as [r1 w1] eqn:E1.
  assert (H1 : framed w1 ∧ frame_to w w1) by (eapply safe_commit; [apply _|apply keeps_gets, _|exact Hw|exact E1]).
  destruct H1 as [Hw1 L1]. destruct r1 as [ids|e]; [|injection H as _ <-; done].
  destruct (expire_all_part _ _ _ _ _ _ _ Hw1 H) as [Hw2 L2]. split; [done|by etrans].
Qed.
End Flow.
