(* ===== verification/OrderHistory.v ===== *)
(** Every history of the shop: what customers, administrators, the payment
    callback and the expiry job do to orders, and what the other modules do to
    the ledger, the discount codes and the subscriptions in between. *)
From Stdlib Require Import ZArith QArith Lqa Lia Sorting.Permutation.
From stdpp Require Import base tactics list gmap strings sorting relations.
From S2P Require Import Prelude Safety Decimal GoString Money GoTime LedgerTypes LedgerFacts Ledger LedgerInv LedgerOps Promo PromoThms.
From S2P Require Import Period OrderAmounts Proration SubTypes SubStore SubFacts Subscription SubHistory OrderStore OrderFlow OrderInv OrderLife.
#[local] Open Scope string_scope.
#[local] Open Scope Z_scope.

(** * Coupon administration leaves redemptions alone *)

Section Admin.
Context `{DL : DecimalLib}.
Definition same_red (s s' : promo) : Prop := redemptions s' = redemptions s.
#[global] Instance same_red_preorder : PreOrder same_red.
Proof. split; [done|]. intros a b c H1 H2. unfold same_red in *. congruence. Qed.
Abbreviation red_keeps := (keeps (E := perr) (λ _, True) same_red).

Lemma insert_coupon_red PE mk plans : red_keeps (insert_coupon PE mk plans).
Proof.
  intros s a s' _ H. unfold insert_coupon in H. destruct (write_coupon _) as [[]|]; [|done].
  destruct (existsb _ _); [by injection H as _ <-|]. repeat (destruct (negb _); [done|]). by injection H as _ <-.
Qed.
Lemma insert_batch_red PE mk codes plans : red_keeps (insert_batch PE mk codes plans).
Proof. induction codes as [|c codes IH]; simpl; keeps_walk; auto using insert_coupon_red. Qed.
Lemma promo_audit_red a : red_keeps (promo_audit a).
Proof. by apply keeps_modify. Qed.
Lemma CreateCoupon_red PE b actor code sp : red_keeps (CreateCoupon PE b actor code sp).
Proof. unfold CreateCoupon, promo_tx, InsertCouponIfAbsent. keeps_walk; auto using insert_coupon_red, promo_audit_red. Qed.
Lemma GenerateCoupons_red PE b actor draws prefix n sp : red_keeps (GenerateCoupons PE b actor draws prefix n sp).
Proof.
  assert (Hb : ∀ mk codes plans, red_keeps (InsertCouponsIfAbsent PE mk codes plans)).
  { intros mk codes plans. unfold InsertCouponsIfAbsent. destruct codes as [|c codes]; [apply keeps_ret, _|].
    destruct (negb _); [apply keeps_fail, _|]. intros s a s' Hs H.
    destruct (insert_batch PE mk (c :: codes) plans s) as [[x|e] s1] eqn:E; [|done]. injection H as <- <-.
    by apply (insert_batch_red PE mk (c :: codes) plans s x s1). }
  assert (Hr : ∀ mk plans p k count ds used codes, red_keeps (generate_rounds PE mk plans p k count ds used codes)).
  { intros mk plans p k. induction k as [|k IH]; intros count ds used codes; simpl; keeps_walk; auto. }
  unfold GenerateCoupons, promo_tx. keeps_walk; auto using promo_audit_red.
Qed.
Lemma SetStatus_red b id st : red_keeps (SetStatus b id st).
Proof.
  unfold SetStatus, promo_tx. keeps_walk; [|apply promo_audit_red]. intros s a s' _ H. unfold SetCouponStatus, update_coupon in H.
  destruct (forallb _ _); [|done]. by injection H as _ <-.
Qed.

(** Administration of discount codes. *)
Inductive coupon_admin (PE : PromoEnv) (s : promo) : promo → Prop :=
| admin_create actor code sp : coupon_admin PE s (promo_tx false (CreateCoupon PE true actor code sp) s).2
| admin_generate actor draws prefix n sp : coupon_admin PE s (promo_tx false (GenerateCoupons PE true actor draws prefix n sp) s).2
| admin_status id st : coupon_admin PE s (promo_tx false (SetStatus true id st) s).2.

Lemma coupon_admin_safe PE s s' : promo_ok s → coupon_admin PE s s' → promo_ok s' ∧ redemptions s' = redemptions s.
Proof.
  intros Hs H. split.
  - eapply (promo_step_safe PE s); [done|]. destruct H; by constructor.
  - assert (same_red s s'); [|done].
    destruct H; (eapply (safe_commit (λ _, True)); [apply _| |done|apply surjective_pairing]);
      auto using CreateCoupon_red, GenerateCoupons_red, SetStatus_red.
Qed.
End Admin.

(** * Orders as a list *)

Section Rows.
Context `{DL : DecimalLib} {X : Type} (W : OrderEnv X).

Lemma order_rows_in w o : core W w → o ∈ order_rows (w_book w) ↔ orders (w_book w) !! od_ID o = Some o.
Proof.
  intros Hk. unfold order_rows. rewrite merge_sort_Permutation. rewrite list_elem_of_fmap. split.
  - intros ([id x] & E & Hx). simpl in E. subst x. apply elem_of_map_to_list in Hx.
    destruct (ck_orders _ _ Hk _ _ Hx) as [E _]. by rewrite E.
  - intros Ho. exists (od_ID o, o). split; [done|by apply elem_of_map_to_list].
Qed.
Lemma order_rows_NoDup w : core W w → NoDup (map od_ID (order_rows (w_book w))).
Proof.
  intros Hk. unfold order_rows. rewrite merge_sort_Permutation, map_map.
  rewrite (map_ext_in (λ p, od_ID p.2) fst); [apply NoDup_fst_map_to_list|].
  intros [id o] Ho. apply list_elem_of_In, elem_of_map_to_list in Ho. exact (proj1 (ck_orders _ _ Hk _ _ Ho)).
Qed.

Lemma own_row w id o : world_ok W w → orders (w_book w) !! id = Some o → orders (w_book w) !! od_ID o = Some o.
Proof. intros [Hk _] Ho. by rewrite (proj1 (ck_orders _ _ Hk _ _ Ho)). Qed.
End Rows.

(** * Cancelling and expiring

    Whatever the release of one order keeps, the operations built on it keep:
    [I] and [R] are an invariant and a relation that every release respects. *)

Section Closing.
Context `{DL : DecimalLib} {X : Type} (W : OrderEnv X) (I : world X → Prop) (R : relation (world X)) `{!PreOrder R}.
Hypothesis I_ok : ∀ w, I w → world_ok W w.
Hypothesis release_kept : ∀ who k o to reason event actor w o' w', I w → orders (w_book w) !! od_ID o = Some o →
  to = StatusCancelled ∨ to = OrderExpired → releaseOrder W who k o to reason event actor w = (Ok o', w') →
  I w' ∧ R w w' ∧ same_but (od_ID o) w w'.
Abbreviation WM := (M (world X) oerr).
Abbreviation kept := (keeps (E := oerr) I R).

Lemma Cancel_body who k p i reason : kept (
    o ← (if ci_Admin i then OrderByID (ci_OrderID i) else OrderForUser (ci_OrderID i) (pr_UserID p));
    match o with
    | None => fail OErrNotFound
    | Some o =>
        let st := od_Status o in
        if String.eqb st StatusCancelled then mret (o, true)
        else if String.eqb st OrderExpired then fail OErrOrderExpired
        else if one_of st [StatusPaid; StatusFulfilled] then fail OErrAlreadyPaid
        else if negb (String.eqb st StatusPending) then fail OErrConflict
        else if ci_Admin i && negb (bool_decide (ci_Version i = Some (od_StateVersion o))) then fail OErrStateChanged
        else
          r ← releaseOrder W who k o StatusCancelled reason EventCancel (actorFrom p);
          mret (r, false)
    end).
Proof.
  intros w [r b] w' Hw H. apply bind_Ok in H as (x & w1 & H1 & H).
  assert (Hx : w1 = w ∧ ∀ o, x = Some o → orders (w_book w) !! od_ID o = Some o).
  { destruct (ci_Admin i); apply gets_Ok in H1 as [-> ->]; (split; [done|]); intros o Ho; [by eapply (own_row W); [apply I_ok|]|].
    destruct (orders (w_book w) !! ci_OrderID i) eqn:E; [|done]. destruct (_ =? _)%N; [|done]. injection Ho as ->. by eapply (own_row W); [apply I_ok|]. }
  destruct Hx as [-> Hx]. destruct x as [o|]; [|done]. cbv zeta in H. specialize (Hx o eq_refl).
  destruct (String.eqb _ StatusCancelled); [by injection H as _ _ <-|]. destruct (String.eqb _ OrderExpired); [done|].
  destruct (one_of _ _); [done|]. destruct (negb _); [done|]. destruct (_ && _); [done|].
  apply bind_Ok in H as (r' & w1 & H2 & H). injection H as _ _ <-.
  destruct (release_kept _ _ _ _ _ _ _ _ _ _ Hw Hx (or_introl eq_refl) H2) as (? & ? & _). done.
Qed.
Lemma Cancel_kept inTx who k i : kept (Cancel W inTx who k i).
Proof.
  unfold Cancel, order_tx. do 2 (apply keeps_bind; [apply _|apply keeps_lift, _|]; intros ?). apply keeps_Do. apply Cancel_body.
Qed.

Lemma cancel_all_kept who k p l w w' : I w → NoDup (map od_ID l) → (∀ o, o ∈ l → orders (w_book w) !! od_ID o = Some o) →
  cancel_all W who k p l w = (Ok (), w') → I w' ∧ R w w'.
Proof.
  revert w. induction l as [|o l IH]; intros w Hw Hn Hl H; simpl in H; [by injection H as <-|].
  apply bind_Ok in H as (x & w1 & H1 & H). simpl in Hn. apply NoDup_cons in Hn as [Hno Hn].
  destruct (release_kept _ _ _ _ _ _ _ _ _ _ Hw (Hl o ltac:(constructor)) (or_introl eq_refl) H1) as (Hw1 & L1 & S1).
  apply IH in H as [Hw' L2]; [split; [done|by etrans]|done|done|].
  intros x' Hx'. assert (Hne : od_ID x' ≠ od_ID o) by (intros E; apply Hno; rewrite <- E; by apply list_elem_of_fmap_2).
  specialize (S1 _ Hne). injection S1 as -> _ _ _. apply Hl. by constructor.
Qed.
Lemma CancelUserPending_kept inTx who k u : kept (CancelUserPending W inTx who k u).
Proof.
  unfold CancelUserPending, order_tx. apply keeps_bind; [apply _|apply keeps_lift, _|]. intros p. apply keeps_Do.
  intros w n w' Hw H. apply bind_Ok in H as (l & w1 & H1 & H). apply gets_Ok in H1 as [-> ->].
  apply bind_Ok in H as ([] & w1 & H1 & H). injection H as _ <-. eapply (cancel_all_kept who k p); [done| | |exact H1].
  - eapply sublist_NoDup; [eapply order_rows_NoDup, I_ok, Hw|]. apply fmap_sublist, filter_sublist.
  - intros o [_ Ho]%elem_of_filter_bool. by eapply order_rows_in in Ho; [|eapply I_ok, Hw].
Qed.

(** The job survives the failure of one order: its transaction is undone. *)
Lemma expireOne_kept k locked id w r w' : I w → expireOne W k locked id w = (r, w') → I w' ∧ R w w'.
Proof.
  intros Hw0 H0. eapply safe_commit; [apply _| |exact Hw0|exact H0]. clear Hw0 H0 w r w'. intros w b w' Hw H. apply bind_Ok in H as (x & w1 & H1 & H).
  assert (Hx : w1 = w ∧ ∀ o, x = Some o → orders (w_book w) !! od_ID o = Some o).
  { destruct (locked id); [by injection H1 as <- <-|]. apply gets_Ok in H1 as [-> ->]. split; [done|]. intros o Ho. by eapply (own_row W); [apply I_ok|]. }
  destruct Hx as [-> Hx]. destruct x as [o|]; [|by injection H as _ <-]. destruct (_ || _); [by injection H as _ <-|].
  apply bind_Ok in H as (x & w1 & H2 & H). injection H as _ <-.
  destruct (release_kept _ _ _ _ _ _ _ _ _ _ Hw (Hx o eq_refl) (or_intror eq_refl) H2) as (? & ? & _). done.
Qed.

Lemma expire_all_kept ks locked ids st w r w' : I w → expire_all W ks locked ids st w = (r, w') → I w' ∧ R w w'.
Proof.
  revert st w. induction ids as [|id ids IH]; intros st w Hw H; simpl in H; [by injection H as _ <-|].
  destruct (expireOne W (ks id) locked id w) as [r1 w1] eqn:E1.
  destruct (expireOne_kept _ _ _ _ _ _ Hw E1) as [Hw1 L1]. destruct (IH _ _ Hw1 H) as [Hw2 L2]. split; [done|by etrans].
Qed.
Lemma ExpireOrders_kept ks locked m now n w r w' : I w → ExpireOrders W ks locked m now n w = (r, w') → I w' ∧ R w w'.
Proof.
  intros Hw H. unfold ExpireOrders in H. cbv zeta in H. set (lim := if ExpireBatchMax <? _ then _ else _) in H. clearbody lim.
  unfold mbind, M_bind in H. destruct (order_tx false (ExpiryCandidates locked now (Z.to_nat lim)) w) as [r1 w1] eqn:E1.
  assert (H1 : I w1 ∧ R w w1) by (eapply safe_commit; [apply _|apply keeps_gets, _|exact Hw|exact E1]).
  destruct H1 as [Hw1 L1]. destruct r1 as [ids|e]; [|injection H as _ <-; done].
  destruct (expire_all_kept _ _ _ _ _ _ _ Hw1 H) as [Hw2 L2]. split; [done|by etrans].
Qed.
End Closing.

Section Releases.
Context `{DL : DecimalLib} {X : Type} (W : OrderEnv X).
Abbreviation WM := (M (world X) oerr).
Abbreviation lively := (keeps (E := oerr) (world_ok W) lives).

Lemma release_lives who k o to reason event actor before w o' w' :
  world_ok W w → orders (w_book w) !! od_ID o = Some o → to = StatusCancelled ∨ to = OrderExpired →
  keeps (E := oerr) (core W) same_views before →
  releaseOrderWith W who k o to reason event actor before w = (Ok o', w') →
  world_ok W w' ∧ lives w w' ∧ same_but (od_ID o) w w'.
Proof.
  intros Hw Ho Hto Hq H. destruct (releaseOrderWith_Ok W _ _ _ _ _ _ _ _ _ _ _ Hw Ho Hto Hq H) as (v & B & Hc & Hl & _).
  assert (Ha : world_ok W w' ∧ lives w w'); [|destruct Ha; split_and!; [done..|apply B]].
  apply (advance W _ _ _ _ Hw B Hc). change (v_order (viewOf (od_ID o) w)) with (orders (w_book w) !! od_ID o).
  by rewrite Ho.
Qed.
Lemma ret_quiet : keeps (E := oerr) (core W) same_views (mret ()).
Proof. apply keeps_ret, _. Qed.
Lemma release_lives0 who k o to reason event actor w o' w' : world_ok W w → orders (w_book w) !! od_ID o = Some o →
  to = StatusCancelled ∨ to = OrderExpired → releaseOrder W who k o to reason event actor w = (Ok o', w') →
  world_ok W w' ∧ lives w w' ∧ same_but (od_ID o) w w'.
Proof. intros Hw Ho Hto H. by eapply release_lives; [..|apply ret_quiet|exact H]. Qed.
Lemma Cancel_lively inTx who k i : lively (Cancel W inTx who k i).
Proof. apply Cancel_kept; [apply _|done|apply release_lives0]. Qed.
Lemma CancelUserPending_lively inTx who k u : lively (CancelUserPending W inTx who k u).
Proof. apply CancelUserPending_kept; [apply _|done|apply release_lives0]. Qed.
Lemma ExpireOrders_lives ks locked m now n w r w' : world_ok W w → ExpireOrders W ks locked m now n w = (r, w') → world_ok W w' ∧ lives w w'.
Proof. apply ExpireOrders_kept; [apply _|done|apply release_lives0]. Qed.

Lemma CloseArchivedOrder_lively inTx who k id settle : (∀ st, posts_only (settle st)) → lively (CloseArchivedOrder W inTx who k id settle).
Proof.
  intros Hs. unfold CloseArchivedOrder, order_tx. apply keeps_Do. intros w [] w' Hw H. apply bind_Ok in H as (x & w1 & H1 & H).
  apply gets_Ok in H1 as [-> ->]. destruct (orders (w_book w) !! id) as [o|] eqn:Ho; [|done]. destruct (negb _) in H.
  - exact (quiet_lively W _ (quiet_ledger_ext W _ (Hs _)) _ _ _ Hw H).
  - apply bind_Ok in H as (x & w1 & H1 & H). injection H as <-.
    destruct (release_lives _ _ _ _ _ _ _ _ _ _ _ Hw (own_row W _ _ _ Hw Ho) (or_introl eq_refl) (quiet_ledger_ext W _ (Hs _)) H1) as (? & ? & _). done.
Qed.
End Releases.

(** * Histories *)

Section Histories.
Context `{DL : DecimalLib} {X : Type} (W : OrderEnv X).
Context (audit_Write : audit_event → result lerr ()) (IsDeleted : uuid → result lerr bool).

(** Entries other modules make in the ledger, which leave the holds alone. *)
Definition other_entry (o : op) : Prop :=
  match o with OpPost _ _ => leaves_holds o | OpAdjust _ _ => True | _ => False end.

Lemma run_other o l : other_entry o → good l →
  good (run audit_Write IsDeleted o l) ∧ holds (run audit_Write IsDeleted o l) = holds l.
Proof.
  intros Ho Hl. split; [apply run_good; [done|by destruct o]|]. pose proof Hl as [Hok _]. destruct o as [who p| | | | |who a]; try done; simpl.
  - destruct (Post (mkCtx false who) p l) as [[id|e] l'] eqn:E; simpl; [by eapply Post_quiet|].
    unfold Post in E. destruct (Dedicated _); [by injection E as _ <-|]. unfold DoL in E. by apply Do_Err in E as ->.
  - destruct (AdjustBalance audit_Write IsDeleted (mkCtx false who) a l) as [[r|e] l'] eqn:E; simpl.
    + by apply AdjustBalance_ok in E as [].
    + unfold AdjustBalance, mbind, M_bind, lift at 1 in E. destruct (principal _); [|by injection E as _ <-].
      destruct (negb _); [by injection E as _ <-|]. destruct (_ =? _)%N; [by injection E as _ <-|]. unfold lift at 1 in E.
      destruct (normalizeAdjustment a); [|by injection E as _ <-]. unfold DoL in E. by apply Do_Err in E as ->.
Qed.

(** One transaction, committed or undone. *)
Inductive world_step (w : world X) : world X → Prop :=
| ws_place who k d : world_step w (order_tx false (place W who k d) w).2
| ws_settle who k i : world_step w (order_tx false (SettlePayment W who k i) w).2
| ws_archived who k id settle : (∀ st, posts_only (settle st)) → world_step w (CloseArchivedOrder W false who k id settle w).2
| ws_cancel who k i : world_step w (order_tx false (Cancel W true who k i) w).2
| ws_cancel_user who k u : world_step w (order_tx false (CancelUserPending W true who k u) w).2
| ws_expire ks locked m now n : world_step w (ExpireOrders W ks locked m now n w).2
| ws_ledger o : other_entry o → world_step w (put_ledger (run audit_Write IsDeleted o (w_ledger w)) w)
| ws_coupons p : coupon_admin (oe_promo W) (w_promo w) p → world_step w (put_promo p w)
| ws_subs s : sub_step (sub_env W w) (w_subs w) s → world_step w (put_subs s w)
| ws_ext x : world_step w (put_ext x w).

Hypothesis hook_posts : ∀ hook p, OnOrderPaid W = Some hook → posts_only (hook p).

Lemma other_lives w w' : world_ok W w → core W w' → same_views w w' → world_ok W w' ∧ lives w w'.
Proof.
  intros Hw Hk Hv. split; [by eapply world_ok_views|]. intros j. specialize (Hv j). injection Hv as -> _ _ _. done.
Qed.

Lemma world_step_lives w w' : world_ok W w → world_step w w' → world_ok W w' ∧ lives w w'.
Proof.
  intros Hw H. pose proof (proj1 Hw) as Hk. destruct H as [who k d|who k i|who k id settle Hs|who k i|who k u|ks locked m now n|o Ho|p Hp|s Hs|x].
  - eapply safe_commit; [apply _|apply (place_lively W who k d)|exact Hw|apply surjective_pairing].
  - eapply safe_commit; [apply _|apply (SettlePayment_lively W hook_posts who k i)|exact Hw|apply surjective_pairing].
  - eapply safe_commit; [apply _|apply (CloseArchivedOrder_lively W true who k id settle Hs)|exact Hw|apply surjective_pairing].
  - eapply safe_commit; [apply _|apply (Cancel_lively W true who k i)|exact Hw|apply surjective_pairing].
  - eapply safe_commit; [apply _|apply (CancelUserPending_lively W true who k u)|exact Hw|apply surjective_pairing].
  - eapply ExpireOrders_lives; [exact Hw|apply surjective_pairing].
  - destruct (run_other o _ Ho (ck_ledger _ _ Hk)) as [Hg Eh]. apply (other_lives w); [done| |].
    + destruct Hk. by split.
    + intros j. unfold viewOf. simpl. by rewrite Eh.
  - destruct (coupon_admin_safe _ _ _ (ck_promo _ _ Hk) Hp) as [Hok Er]. apply (other_lives w); [done| |].
    + destruct Hk. by split.
    + intros j. unfold viewOf, red_of. simpl. by rewrite Er.
  - destruct (sub_step_safe _ _ _ (ck_subs _ _ Hk) Hs) as [Hok _]. apply (other_lives w); [done| |by intros j].
    destruct Hk. by split.
  - apply (other_lives w); [done| |by intros j]. destruct Hk. by split.
Qed.

(** The tables of a new installation with the users [us]. *)
Definition empty_world (us : gset uuid) (n : uuid) (x : X) : world X :=
  mkWorld (mkBook ∅ [] ∅ [] [] n) (mkLedger ∅ [] [] ∅ [] us n) empty_promo empty_store x.
Lemma empty_world_ok us n x : world_ok W (empty_world us n x).
Proof.
  split; [split|]; simpl; try done.
  - apply (reachable_good audit_Write IsDeleted), reach_init.
  - apply empty_promo_ok.
  - apply empty_store_ok.
Qed.

Lemma history_lives us n x w w' : rtc world_step (empty_world us n x) w → rtc world_step w w' →
  world_ok W w ∧ world_ok W w' ∧ lives w w'.
Proof.
  intros H1 H2. destruct (history_keeps _ _ _ _ _ world_step_lives (empty_world_ok us n x) H1) as [Hw _].
  destruct (history_keeps _ _ _ _ _ world_step_lives Hw H2) as [Hw' Hl]. done.
Qed.
End Histories.
