(* ===== verification/OrderThms.v ===== *)
(** What the order flow promises over every history: the integrity queries find
    nothing, the balance on hold is what pending orders reserve, the counters of
    a discount code are its numbers of pending and fulfilled orders, and an
    order only moves along its life cycle. *)
From Stdlib Require Import ZArith QArith Lqa Lia Sorting.Permutation.
From stdpp Require Import base tactics list gmap strings sorting relations.
From S2P Require Import Prelude Safety Decimal GoString Money GoTime LedgerTypes LedgerFacts Ledger LedgerInv LedgerOps Promo PromoThms.
From S2P Require Import Period OrderAmounts Proration SubTypes SubStore SubFacts Subscription SubHistory OrderStore OrderFlow OrderInv OrderLife OrderHistory.
#[local] Open Scope string_scope.
#[local] Open Scope Z_scope.

(** * Sums over tables with the same keys *)

Definition msum {A} (f : A → Q) (m : gmap uuid A) : Q := Qsum (map (λ p, f p.2) (map_to_list m)).

Lemma msum_insert {A} (f : A → Q) m id x : m !! id = None → (msum f (<[id := x]> m) == f x + msum f m)%Q.
Proof.
  intros Hm. unfold msum. rewrite (Qsum_Permutation _ _ (Permutation_map _ (map_to_list_insert m id x Hm))). reflexivity.
Qed.
Lemma msum_delete {A} (f : A → Q) m id x : m !! id = Some x → (msum f m == f x + msum f (delete id m))%Q.
Proof. intros Hm. rewrite <- (insert_delete_id m id x Hm) at 1. rewrite msum_insert by apply lookup_delete_eq. reflexivity. Qed.

(** Two tables whose rows contribute the same under every key. *)
Lemma msum_ext {A B} (f : A → Q) (g : B → Q) m : ∀ m',
  (∀ id, (default 0 (f <$> m !! id) == default 0 (g <$> m' !! id))%Q) → (msum f m == msum g m')%Q.
Proof.
  induction m as [|id x m Hx IH] using map_ind; intros m' H.
  - assert (Hz : ∀ y : gmap uuid B, (∀ id, (default 0 (g <$> y !! id) == 0)%Q) → (msum g y == 0)%Q).
    { intros y. induction y as [|id x y Hx IH] using map_ind; intros Hy; [reflexivity|]. rewrite msum_insert by done.
      assert (E : (msum g y == 0)%Q).
      { apply IH. intros j. specialize (Hy j). destruct (decide (j = id)) as [-> |Hj]; [by rewrite Hx|by rewrite lookup_insert_ne in Hy]. }
      specialize (Hy id). rewrite lookup_insert_eq in Hy. simpl in Hy. lra. }
    assert (E : (msum g m' == 0)%Q) by (apply Hz; intros id; rewrite <- H; reflexivity). rewrite E. reflexivity.
  - rewrite msum_insert by done.
    assert (Hm : (msum f m == msum g (delete id m'))%Q).
    { apply IH. intros j. destruct (decide (j = id)) as [-> |Hj]; [by rewrite Hx, lookup_delete_eq|].
      specialize (H j). by rewrite lookup_insert_ne in H by done; rewrite lookup_delete_ne by done. }
    rewrite Hm. specialize (H id). rewrite lookup_insert_eq in H. simpl in H. destruct (m' !! id) as [y|] eqn:Ey; simpl in H.
    + rewrite (msum_delete g m' id y Ey). lra.
    + rewrite (delete_id m' id Ey). lra.
Qed.

Lemma Qsum_filter {A} (p : A → bool) (f : A → Q) l :
  (Qsum (map f (List.filter p l)) == Qsum (map (λ x, if p x then f x else 0) l))%Q.
Proof. induction l as [|x l IH]; simpl; [reflexivity|]. destruct (p x); simpl; rewrite IH; lra. Qed.

Section OrderThms.
Context `{DL : DecimalLib} {X : Type} (W : OrderEnv X).

(** * What the orders say *)

(** The balance that pending orders of a user reserve. *)
Definition reserved_by (u : uuid) (w : world X) : Q :=
  Qsum (map (λ o, val (od_BalanceApplied o))
    (List.filter (λ o, (od_UserID o =? u)%N && String.eqb (od_Status o) StatusPending) (order_rows (w_book w)))).
(** The orders in a status that use a discount code. *)
Definition uses_coupon (st : string) (c : uuid) (o : order_row) : bool :=
  bool_decide (od_CouponID o = Some c) && String.eqb (od_Status o) st.
Definition orders_using (st : string) (c : uuid) (w : world X) : list order_row :=
  List.filter (uses_coupon st c) (order_rows (w_book w)).

Lemma status_known o : order_check W o = true → od_Status o ∈ order_statuses.
Proof.
  unfold order_check, status_check. intros H. rewrite !andb_true_iff in H. destruct H as [_ H]. destruct H as [[[[[[[[[H _] _] _] _] _] _] _] _] _].
  by apply bool_decide_eq_true in H.
Qed.

(** A status is determined by the state of what the order holds. *)
Lemma expected_inv o : order_check W o = true → od_Status o ≠ StatusPaid →
  (expected (od_Status o) = "held" ↔ od_Status o = StatusPending) ∧
  (expected (od_Status o) = "captured" ↔ od_Status o = StatusFulfilled).
Proof.
  intros H%status_known Hn. unfold order_statuses in H. repeat (apply elem_of_cons in H as [E|H]; [rewrite E in *; by split; split|]). by apply elem_of_nil in H.
Qed.

(** * The hold accounts *)

Lemma holds_match w u : world_ok W w → (held_sum u (holds (w_ledger w)) == reserved_by u w)%Q.
Proof.
  intros [Hk Hc]. unfold reserved_by. rewrite Qsum_filter.
  set (g := λ o : order_row, if (od_UserID o =? u)%N && String.eqb (od_Status o) StatusPending then val (od_BalanceApplied o) else 0%Q).
  transitivity (msum g (orders (w_book w))).
  - apply (msum_ext (held_part u) g). intros id. specialize (Hc id). unfold consistent, viewOf in Hc. simpl in Hc.
    destruct (orders (w_book w) !! id) as [o|] eqn:Ho; [|by destruct Hc as (_ & _ & ->)]. simpl. destruct Hc as (Hp & _ & _ & Hh).
    destruct (ck_orders _ _ Hk _ _ Ho) as (_ & _ & Hck). destruct (expected_inv o Hck Hp) as [E1 _].
    destruct (order_check_facts W o Hck) as (F1 & _). unfold hold_tracks in Hh. unfold g.
    destruct (IsPositive_spec (od_BalanceApplied o)) as [Hpos|Hpos].
    + destruct Hh as (h & -> & S & U & A). simpl. unfold held_part. rewrite U, S.
      destruct (String.eqb_spec (expected (od_Status o)) HoldHeld) as [E|E].
      * rewrite (proj1 E1 E), String.eqb_refl. destruct (_ =? _)%N; simpl; [done|reflexivity].
      * destruct (String.eqb_spec (od_Status o) StatusPending) as [E'|]; [by apply E1 in E'|]. by rewrite !andb_false_r.
    + rewrite Hh. simpl. destruct (_ && _); [lra|reflexivity].
  - unfold msum, order_rows. symmetry. etransitivity; [apply Qsum_Permutation, Permutation_map, merge_sort_Permutation|].
    rewrite map_map. reflexivity.
Qed.

(** * The counters of a discount code *)

(** The redemption of an order, as its row describes it. *)
Lemma redemption_of w id r : world_ok W w → r ∈ redemptions (w_promo w) → rd_OrderID r = id →
  ∃ o, orders (w_book w) !! id = Some o ∧ od_CouponID o = Some (rd_CouponID r) ∧ rd_Status r = expected (od_Status o).
Proof.
  intros [Hk Hc] Hr Ei. specialize (Hc id). unfold consistent, viewOf in Hc. simpl in Hc.
  assert (Hin : r ∈ red_of id (w_promo w)) by (apply elem_of_filter_bool; by rewrite Ei, N.eqb_refl).
  destruct (orders (w_book w) !! id) as [o|]; [|destruct Hc as (_ & E & _); rewrite E in Hin; by apply elem_of_nil in Hin].
  destruct Hc as (_ & _ & Hred & _). unfold red_tracks in Hred. destruct (od_CouponID o) as [c|] eqn:Ec.
  - destruct Hred as (x & E & S & C & _). rewrite E in Hin. apply list_elem_of_singleton in Hin as ->. exists o. by rewrite Ec, C.
  - rewrite Hred in Hin. by apply elem_of_nil in Hin.
Qed.

(** A code's redemptions in one state are its orders in the status of that state. *)
Lemma coupon_orders w c st status : world_ok W w →
  (∀ o, order_check W o = true → od_Status o ≠ StatusPaid → expected (od_Status o) = st ↔ od_Status o = status) →
  count_in st c (redemptions (w_promo w)) = Z.of_nat (length (orders_using status c w)).
Proof.
  intros Hw Hst. pose proof Hw as [Hk Hc]. unfold count_in, orders_using. f_equal.
  rewrite <- (length_map rd_OrderID), <- (length_map od_ID (List.filter _ _)). apply Permutation_length, NoDup_Permutation.
  - eapply sublist_NoDup; [apply (pk_orders _ (ck_promo _ _ Hk))|]. apply fmap_sublist, filter_sublist.
  - eapply sublist_NoDup; [apply (order_rows_NoDup W w Hk)|]. apply fmap_sublist, filter_sublist.
  - intros id. rewrite !list_elem_of_fmap. split.
    + intros (r & -> & [Hin Hr]%elem_of_filter_bool). unfold in_state in Hin. apply andb_true_iff in Hin as [Ec%N.eqb_eq Es%String.eqb_eq].
      destruct (redemption_of w _ r Hw Hr eq_refl) as (o & Ho & E1 & E2). destruct (ck_orders _ _ Hk _ _ Ho) as (Ei & _ & Hck).
      specialize (Hc (rd_OrderID r)). unfold consistent in Hc. simpl in Hc. rewrite Ho in Hc. destruct Hc as [Hp _].
      exists o. split; [done|]. apply elem_of_filter_bool. rewrite (order_rows_in W w o Hk), Ei. split; [|done].
      unfold uses_coupon. rewrite E1, Ec, bool_decide_eq_true_2 by done. simpl. apply String.eqb_eq, (Hst o Hck Hp). congruence.
    + intros (o & -> & [Hu Ho]%elem_of_filter_bool). apply (order_rows_in W w o Hk) in Ho. unfold uses_coupon in Hu.
      apply andb_true_iff in Hu as [Ec%bool_decide_eq_true Es%String.eqb_eq]. destruct (ck_orders _ _ Hk _ _ Ho) as (_ & _ & Hck).
      specialize (Hc (od_ID o)). unfold consistent in Hc. simpl in Hc. rewrite Ho in Hc. destruct Hc as (Hp & _ & Hred & _).
      unfold red_tracks in Hred. rewrite Ec in Hred. destruct Hred as (x & E & S & C & _).
      assert (Hx : x ∈ red_of (od_ID o) (w_promo w)) by (rewrite E; constructor).
      apply elem_of_filter_bool in Hx as [Ei%N.eqb_eq Hx]. exists x. split; [done|]. apply elem_of_filter_bool. split; [|done].
      unfold in_state. rewrite C, N.eqb_refl, S. simpl. apply String.eqb_eq, (Hst o Hck Hp). done.
Qed.

(** * The integrity queries *)

Lemma no_rows (p : order_row → bool) w : core W w → (∀ id o, orders (w_book w) !! id = Some o → od_ID o = id → p o = false) →
  map od_ID (List.filter p (order_rows (w_book w))) = [].
Proof.
  intros Hk Hp. destruct (List.filter p (order_rows (w_book w))) as [|o l] eqn:E; [done|]. exfalso.
  assert (Ho : o ∈ List.filter p (order_rows (w_book w))) by (rewrite E; constructor).
  apply elem_of_filter_bool in Ho as [Hpo Ho]. apply (order_rows_in W w o Hk) in Ho. by rewrite (Hp _ _ Ho eq_refl) in Hpo.
Qed.

Lemma integrity_clean w : world_ok W w → PaidUnfulfilledRows w = [] ∧ ReservationMismatchRows w = [].
Proof.
  intros [Hk Hc]. split; apply no_rows; [done| |done|]; intros id o Ho Ei; specialize (Hc id); unfold consistent, viewOf in Hc;
    simpl in Hc; rewrite Ho in Hc; destruct Hc as (Hp & (r & Er & S & _) & _).
  - by destruct (String.eqb_spec (od_Status o) StatusPaid).
  - unfold reservation_mismatch. rewrite Ei, Er, S. destruct (ck_orders _ _ Hk _ _ Ho) as (_ & _ & Hck).
    destruct (expected_inv o Hck Hp) as [E1 _]. destruct (String.eqb_spec (od_Status o) StatusPending) as [E|E].
    + rewrite (proj2 E1 E). done.
    + destruct (String.eqb_spec (expected (od_Status o)) ReservationHeld) as [E'|]; [|done]. by apply E1 in E'.
Qed.

Context (audit_Write : audit_event → result lerr ()) (IsDeleted : uuid → result lerr bool).
Abbreviation world_step := (world_step W audit_Write IsDeleted).

(** C4: orders, balance, codes and reservations always agree.  Over every
    history of orders placed, paid, closed, cancelled and expired, each
    committed or undone, with the other modules' work in between, the two
    integrity queries find nothing; what a user has on hold is exactly the
    balance their pending orders reserve; the two counters of a discount code are
    its numbers of pending and fulfilled orders; and every order's reservation,
    redemption and hold are in the state its status calls for. *)
Theorem orders_consistent us n x w :
  (∀ hook p, OnOrderPaid W = Some hook → posts_only (hook p)) →
  rtc world_step (empty_world us n x) w →
  PaidUnfulfilledRows w = [] ∧ ReservationMismatchRows w = [] ∧
  (∀ u, (bal (w_ledger w) (hold_key u) == reserved_by u w)%Q) ∧
  (∀ c, c ∈ coupons (w_promo w) →
     cp_ReservedCount c = Z.of_nat (length (orders_using StatusPending (cp_ID c) w)) ∧
     cp_RedeemedCount c = Z.of_nat (length (orders_using StatusFulfilled (cp_ID c) w))) ∧
  (∀ id, consistent (viewOf id w)).
Proof.
  intros Hh Hr. destruct (history_lives W audit_Write IsDeleted Hh us n x w w Hr ltac:(done)) as (Hw & _).
  destruct (integrity_clean w Hw) as [I1 I2]. pose proof Hw as [Hk Hc]. split_and!; [done|done| | |done].
  - intros u. rewrite (ho_sum _ (proj2 (ck_ledger _ _ Hk))). by apply holds_match.
  - intros c Hin. destruct (proj1 (Forall_forall _ _) (pk_counts _ (ck_promo _ _ Hk)) c Hin) as [-> ->].
    split; apply coupon_orders; try done; intros o Ho Hp; by apply expected_inv.
Qed.

(** C5: the tables implement the life cycle of an order.  Between any two
    moments of a history an order that exists moves only by the steps of [life]:
    it is placed pending, or bought at once when nothing is due; a pending one
    is fulfilled, cancelled or expires, keeping its terms and counting its
    version; an order that reached one of the three is never changed again. *)
Theorem orders_follow_life us n x w w' id :
  (∀ hook p, OnOrderPaid W = Some hook → posts_only (hook p)) →
  rtc world_step (empty_world us n x) w → rtc world_step w w' →
  rtc life (orders (w_book w) !! id) (orders (w_book w') !! id) ∧
  ∀ o, orders (w_book w) !! id = Some o →
    od_Status o ∈ [StatusPending; StatusFulfilled; StatusCancelled; OrderExpired] ∧
    ∃ o', orders (w_book w') !! id = Some o' ∧ terms o' = terms o ∧ (od_Status o ≠ StatusPending → o' = o).
Proof.
  intros Hh Hr Hr'. destruct (history_lives W audit_Write IsDeleted Hh us n x w w' Hr Hr') as ([Hk Hc] & _ & Hl).
  specialize (Hl id). split; [done|]. intros o Ho. rewrite Ho in Hl. split.
  - destruct (ck_orders _ _ Hk _ _ Ho) as (_ & _ & Hs%status_known). specialize (Hc id). unfold consistent in Hc. simpl in Hc.
    rewrite Ho in Hc. destruct Hc as [Hp _]. unfold order_statuses in Hs. set_solver.
  - destruct (String.eqb_spec (od_Status o) StatusPending) as [E|E].
    + inversion Hl as [y Ey|y z y' Hs Hl' Ey]; subst; [by exists o|]. 
      assert (Hz : ∃ o', z = Some o' ∧ terms o' = terms o ∧ od_Status o' ≠ StatusPending).
      { inversion Hs as [| |? o' _ Es Et|? o' _ Es Et]; subst; exists o'; split_and!; try done; [by rewrite Es|by destruct Es as [-> | ->]]. }
      destruct Hz as (o' & -> & Et & Hne). exists o'. split; [by apply life_final in Hl'|]. split; [done|]. by rewrite E.
    + exists o. split; [by apply life_final in Hl|]. by split.
Qed.
End OrderThms.

(** * A concrete history

    A concrete history of the shop: a customer tops up their balance, buys a
    monthly plan with a discount code, part of the balance and a payment,
    places a second order and cancels it, and a third that expires; a paid
    order also earns a commission. *)
#[local] Existing Instance scaled_decimal.

Ltac ev := match goal with |- _ = ?x => vm_cast_no_check (eq_refl x) end.

(** Plan 50 is sold by the month at price 70; its current version is 51. *)
Definition shop_plan : Plan := mkPlan "Monthly" KindSubscription "active" (Some 51%N).
Definition shop_version : Version := mkVersion 51 50 VersionPublished [mkQuotaDef SubTypes.MetricTraffic (Some 1000) PeriodCycle].
Definition shop_subs : Env :=
  mkEnv {[7%N; 9%N; 3%N]} {[(50%N, 51%N)]} {[70%N]} ∅
    (λ _, Ok {[50%N := shop_plan]}) (λ _, Ok {[51%N := shop_version]})
    (λ s, s) (λ _, true) (λ _ t, t) (Some (λ b _, Some b)) (λ b, take 32 (b ++ replicate 32 0)%list)
    (Ok (λ t, t / Day)) (λ _ _ _, Ok ()).
Definition shop_codes : PromoEnv := mkPromoEnv {[7%N; 9%N; 3%N]} ∅ {[50%N]} (λ _, Ok None) (λ _, Ok []).

(** User 9 earns one unit on every paid order; the module keeps the orders. *)
Definition commission (p : PaidOrder) : Posting :=
  mkPosting KindCommissionAccrued SourceOrder (po_OrderID p) ""
    [mkLeg (PlatformAccount PlatformPromoExpense RefMain) Debit (100, -2);
     mkLeg (UserAccount UserCommissionPending 9) Credit (100, -2)].
Definition accrue (p : PaidCall) : M (ledger * list uuid) oerr () := λ lx,
  match Post (joined p.1.1) (commission p.2) lx.1 with
  | (Ok _, l) => (Ok (), (l, (lx.2 ++ [po_OrderID p.2])%list))
  | (Err e, l) => (Err (OLedger e), (l, lx.2))
  end.
Definition shop : OrderEnv (list uuid) :=
  mkOrderEnv shop_subs shop_codes (λ _, Ok {[50%N := "active"]}) (λ _, Ok ∅) (Ok (100, -2)) (Some (Ok (3, 5)))
    (λ _, Ok false) (λ _ _ _, Ok ()) (λ _ _, mret 0) (Some accrue).

Lemma accrue_posts hook p : OnOrderPaid shop = Some hook → posts_only (hook p).
Proof.
  intros [= <-] l x a l' x' Hg H. unfold accrue in H. simpl in H.
  destruct (Post _ _ l) as [[id|e] l1] eqn:E; [|done]. injection H as _ <- _.
  eapply (Post_quiet (joined p.1.1)); [|exact Hg|exact E]. by repeat constructor.
Qed.

(** 2026-01-01T00:00:00Z and minutes later; the calls' random values. *)
Definition noon (m : Z) : Time := 1767225600 * Second + m * Minute.
Definition at_ (m : Z) : Call :=
  let t := noon m in mkCall t t t t t t t t t t [[m; 2; 3; 4; 5; 6; 7; 8]] (900 + Z.to_N m) (replicate 24 (Z.modulo m 256)).
Definition customer : Actor := mkActor ActorUser (Some 7%N).
Definition no_code : Checkout := mkCheckout dec_zero "" None.
Definition topup_draft : draft :=
  mkDraft KindTopup 7 (2000, -2) None None None None no_code dec_zero false None customer "order.created".
Definition month_item : item_row :=
  mkItemRow 0 (Some 70%N) (Some 50%N) (Some 51%N) "Monthly" (Some 1) (Some "month") (Some 1) [] [] 1 (1999, -2) (1999, -2).
Definition month_draft (balance : dec) (code : string) : draft :=
  mkDraft KindNew 7 (1999, -2) (Some 50%N) None None (Some month_item) (mkCheckout balance code None) dec_zero false None
    customer "order.created".
Definition sale_spec : Spec :=
  mkSpec "Sale" (mkFace KindPercent 1000 dec_zero) None dec_zero (Some 5) 2 [50%N] None None None.

Definition w0 : world (list uuid) := empty_world {[7%N; 9%N; 3%N]} 100 [].
Definition w1 : world (list uuid) :=
  put_promo (promo_tx false (CreateCoupon shop_codes true (Some 3%N) "sale-10" sale_spec) (w_promo w0)).2 w0.
Definition w2 : world (list uuid) := (order_tx false (place shop None (at_ 1) topup_draft) w1).2.
Definition pay (id : uuid) (amount : dec) : SettleInput := mkSettle id amount dec_zero dec_zero "epay" (id + 1000)%N.
Definition w3 : world (list uuid) := (order_tx false (SettlePayment shop None (at_ 2) (pay 100 (2000, -2))) w2).2.
(** 17.99 after the discount, 10.00 of it from the balance. *)
Definition w4 : world (list uuid) := (order_tx false (place shop None (at_ 3) (month_draft (1000, -2) "sale-10")) w3).2.
Definition w5 : world (list uuid) := (order_tx false (SettlePayment shop None (at_ 4) (pay 102 (800, -2))) w4).2.
(** A second order is cancelled, a third one expires. *)
Definition w6 : world (list uuid) := (order_tx false (place shop None (at_ 5) (month_draft (500, -2) "sale-10")) w5).2.
Definition me : option Principal := Some (mkPrincipal 7 "portal").
Definition w7 : world (list uuid) := (order_tx false (Cancel shop true me (at_ 6) (mkCancel 104 false None "")) w6).2.
Definition w8 : world (list uuid) := (order_tx false (place shop None (at_ 7) (month_draft (500, -2) "sale-10")) w7).2.
Definition w9 : world (list uuid) := (ExpireOrders shop (λ _, at_ 60) (λ _, false) 50 (noon 60) 0 w8).2.

Abbreviation audit_ok := (λ _ : audit_event, Ok () : result lerr ()).
Abbreviation none_deleted := (λ _ : uuid, Ok false : result lerr bool).
Abbreviation shop_step := (world_step shop audit_ok none_deleted).

Lemma to_w6 : rtc shop_step w0 w6.
Proof.
  apply (rtc_l _ _ w1); [apply ws_coupons, admin_create|].
  apply (rtc_l _ _ w2); [exact (ws_place shop audit_ok none_deleted w1 None (at_ 1) topup_draft)|].
  apply (rtc_l _ _ w3); [exact (ws_settle shop audit_ok none_deleted w2 None (at_ 2) (pay 100 (2000, -2)))|].
  apply (rtc_l _ _ w4); [exact (ws_place shop audit_ok none_deleted w3 None (at_ 3) (month_draft (1000, -2) "sale-10"))|].
  apply (rtc_l _ _ w5); [exact (ws_settle shop audit_ok none_deleted w4 None (at_ 4) (pay 102 (800, -2)))|].
  apply rtc_once. exact (ws_place shop audit_ok none_deleted w5 None (at_ 5) (month_draft (500, -2) "sale-10")).
Qed.
Lemma to_w9 : rtc shop_step w6 w9.
Proof.
  apply (rtc_l _ _ w7); [exact (ws_cancel shop audit_ok none_deleted w6 me (at_ 6) (mkCancel 104 false None ""))|].
  apply (rtc_l _ _ w8); [exact (ws_place shop audit_ok none_deleted w7 None (at_ 7) (month_draft (500, -2) "sale-10"))|].
  apply rtc_once. exact (ws_expire shop audit_ok none_deleted w8 (λ _, at_ 60) (λ _, false) 50 (noon 60) 0).
Qed.

Definition no_sale : Coupon := mkCoupon 0 "" "" None None None dec_zero None 0 0 0 None None None "" None.
Definition sale_coupon : Coupon := nth 0 (coupons (w_promo w6)) no_sale.

(** One order of the customer is fulfilled and one pending with 5.00 on hold. *)
Lemma orders_consistent_witness :
  map (λ o, (od_ID o, od_Status o)) (order_rows (w_book w6)) =
    [(100%N, StatusFulfilled); (102%N, StatusFulfilled); (104%N, StatusPending)] ∧
  PaidUnfulfilledRows w6 = [] ∧ ReservationMismatchRows w6 = [] ∧
  (bal (w_ledger w6) (hold_key 7) == 5)%Q ∧ cp_ReservedCount sale_coupon = 1 ∧ cp_RedeemedCount sale_coupon = 1.
Proof.
  split; [ev|]. destruct (orders_consistent shop audit_ok none_deleted {[7%N; 9%N; 3%N]} 100 [] w6 accrue_posts to_w6) as (H1 & H2 & H3 & H4 & _).
  assert (E : (reserved_by 7 w6 == 5)%Q) by (unfold Qeq; ev).
  assert (Hin : sale_coupon ∈ coupons (w_promo w6)) by (apply (list_elem_of_lookup_2 _ 0%nat); ev).
  destruct (H4 _ Hin) as [H5 H6]. split; [exact H1|]. split; [exact H2|]. split; [rewrite (H3 7%N); exact E|].
  split; [rewrite H5; ev|rewrite H6; ev].
Defined.

(** The fulfilled order stays as it is; the pending one was cancelled, the next expired. *)
Lemma orders_follow_life_witness :
  map (λ o, (od_ID o, od_Status o)) (order_rows (w_book w9)) =
    [(100%N, StatusFulfilled); (102%N, StatusFulfilled); (104%N, StatusCancelled); (106%N, OrderExpired)] ∧
  ∃ o, orders (w_book w6) !! 102%N = Some o ∧ orders (w_book w9) !! 102%N = Some o.
Proof.
  split; [ev|]. assert (Hs : od_Status <$> orders (w_book w6) !! 102%N = Some StatusFulfilled) by ev.
  destruct (orders_follow_life shop audit_ok none_deleted {[7%N; 9%N; 3%N]} 100 [] w6 w9 102 accrue_posts to_w6 to_w9) as (_ & H).
  destruct (orders (w_book w6) !! 102%N) as [o|]; [|discriminate]. injection Hs as Hs.
  destruct (H o eq_refl) as (_ & o' & H1 & _ & H2). exists o. split; [reflexivity|]. rewrite H1, H2; [reflexivity|]. by rewrite Hs.
Defined.
