(* ===== verification/PayStore.v ===== *)
(** The tables of the payment module (panel/internal/module/payment): intents,
    payments, channel events and late-payment cases (model/model.go), the
    statements on them (repo/intents.go, payments.go, late.go, integrity.go)
    with the constraints of db/migrations/00012, 00042 and 00058, and the two
    state machines of service/state.go. *)
From Stdlib Require Import ZArith QArith Lqa Lia.
From stdpp Require Import base tactics list gmap strings sorting.
From S2P Require Import Prelude Safety Decimal GoString Money GoTime LedgerTypes Ledger Promo Period SubTypes SubStore OrderStore.
#[local] Open Scope string_scope.
#[local] Open Scope Z_scope.

(** * Vocabulary (service/types.go, service/state.go) *)

Definition IntentRequiresAction := "requires_action".
Definition IntentSucceeded := "succeeded".
Definition IntentCancelled := "cancelled".
Definition IntentExpired := "expired".
Definition LateSuspense := "suspense".
Definition LateApplied := "applied".
Definition eventPending := "pending".
Definition eventProcessed := "processed".
Definition eventIgnored := "ignored".
Definition EventSucceeded := "payment.succeeded".
Definition event_types : list string := [EventSucceeded; "payment.failed"; "payment.refunded"; "payment.unknown"].
Definition AdapterEpay := "epay".
Definition AdapterBTCPay := "btcpay".
Definition AdapterCoinPayments := "coinpayments".
Definition AdapterOffline := "offline".
Definition OfflineProviderCode := "offline".
Definition OfflineMethod := "offline".
Definition EpayMethods : list string := ["alipay"; "wxpay"].

Definition case_kinds : list string := [CaseReleasedOrder; CaseExcessCapture; CaseIneligibleSubscription; CaseArchivedPlan].
Definition CaseKind_Valid (k : string) : bool := one_of k case_kinds.

Definition intentTransitions (from : string) : list string :=
  if String.eqb from IntentRequiresAction then [IntentSucceeded; IntentCancelled; IntentExpired] else [].
Definition CanTransition (from to : string) : bool := existsb (String.eqb to) (intentTransitions from).
Definition lateTransitions (from : string) : list string := if String.eqb from LateSuspense then [LateApplied] else [].
Definition CanTransitionLate (from to : string) : bool := existsb (String.eqb to) (lateTransitions from).

(** [uuid.UUID.String]: 32 hexadecimal digits in groups of 8, 4, 4, 4 and 12. *)
Fixpoint hexes (k : nat) (u : N) : list Z :=
  match k with
  | O => []
  | S k' => let d := Z.of_N (u mod 16) in (hexes k' (u / 16) ++ [if d <? 10 then 48 + d else 87 + d])%list
  end.
Definition uuid_String (u : uuid) : string :=
  let h := hexes 32 u in
  let group a n := string_of (firstn n (skipn a h)) in
  group 0%nat 8%nat ++ "-" ++ group 8%nat 4%nat ++ "-" ++ group 12%nat 4%nat ++ "-" ++ group 16%nat 4%nat ++ "-" ++ group 20%nat 12%nat.

Section PayStore.
Context `{DL : DecimalLib}.

(** * Rows (model/model.go) *)

Record intent_row := mkIntent {
  it_ID : uuid; it_OrderID : uuid; it_OrderNo : string; it_UserID : uuid; it_ProviderID : uuid; it_OutTradeNo : string;
  it_ProviderRef : option string; it_Method : string; it_Amount : dec; it_Surcharge : dec; it_Status : string;
  it_HTTPMethod : string; it_RedirectURL : string; it_FormFields : gmap string string; it_ExpiresAt : option Time;
  it_QueryAttempts : Z; it_NextQueryAt : option Time; it_CreatedAt : Time }.

Record payment_row := mkPayment {
  pm_ID : uuid; pm_OrderID : uuid; pm_UserID : uuid; pm_IntentID : option uuid; pm_ProviderID : uuid; pm_Ref : string;
  pm_Amount : dec; pm_Fee : dec; pm_Surcharge : dec; pm_Status : string; pm_Method : option string; pm_PaidAt : Time }.

Record event_row := mkPayEvent {
  pv_ID : uuid; pv_ProviderID : uuid; pv_EventID : string; pv_Type : string; pv_PaymentRef : option string;
  pv_Raw : gmap string string; pv_Verified : bool; pv_Status : string; pv_Error : option string;
  pv_ProcessedAt : option Time; pv_ReceivedAt : Time }.

Record case_row := mkCase {
  lc_ID : uuid; lc_OrderID : uuid; lc_OrderNo : string; lc_OrderStatus : string; lc_UserID : uuid; lc_PaymentID : uuid;
  lc_EventID : option uuid; lc_Kind : string; lc_Amount : dec; lc_Status : string; lc_SuspenseTxn : uuid;
  lc_AppliedTxn : option uuid; lc_Reason : option string; lc_ReceivedAt : Time; lc_ResolvedAt : option Time }.

(** The tables in the order of insertion; [pay_next] is the next identifier
    [uuid.NewV7] hands out. *)
Record pay := mkPay {
  intents : list intent_row; payments : list payment_row; pay_events : list event_row; cases : list case_row;
  pay_audits : list (string * uuid); pay_next : uuid }.
Definition empty_pay : pay := mkPay [] [] [] [] [] 1.

Definition set_intents (f : list intent_row → list intent_row) (p : pay) : pay :=
  mkPay (f (intents p)) (payments p) (pay_events p) (cases p) (pay_audits p) (pay_next p).
Definition set_payments (f : list payment_row → list payment_row) (p : pay) : pay :=
  mkPay (intents p) (f (payments p)) (pay_events p) (cases p) (pay_audits p) (pay_next p).
Definition set_events (f : list event_row → list event_row) (p : pay) : pay :=
  mkPay (intents p) (payments p) (f (pay_events p)) (cases p) (pay_audits p) (pay_next p).
Definition set_cases (f : list case_row → list case_row) (p : pay) : pay :=
  mkPay (intents p) (payments p) (pay_events p) (f (cases p)) (pay_audits p) (pay_next p).
Definition add_pay_audit (a : string * uuid) (p : pay) : pay :=
  mkPay (intents p) (payments p) (pay_events p) (cases p) (pay_audits p ++ [a])%list (pay_next p).

Abbreviation PM := (M pay oerr).

Definition NewV7 : PM uuid := λ p,
  (Ok (pay_next p), mkPay (intents p) (payments p) (pay_events p) (cases p) (pay_audits p) (N.succ (pay_next p))).
(** [audit.Write]. *)
Definition pay_audit (action : string) (id : uuid) : PM () := modify (add_pay_audit (action, id)).

(** Map columns are JSON, which takes no NUL. *)
Definition json_map (m : gmap string string) : bool :=
  forallb (λ kv, negb (ContainsNUL kv.1) && negb (ContainsNUL kv.2)) (map_to_list m).

(** * Intents (repo/intents.go) *)

Definition method_byte (c : Z) : bool := between 97 c 122 || between 48 c 57 || (c =? 95).
Definition intent_fits (i : intent_row) : bool :=
  numeric_fits (it_Amount i) && numeric_fits (it_Surcharge i) && pg_text (it_OrderNo i) && pg_text (it_OutTradeNo i) &&
  opt_ok pg_text (it_ProviderRef i) && pg_text (it_RedirectURL i) && json_map (it_FormFields i) && int4 (it_QueryAttempts i).
Definition intent_check (i : intent_row) : bool :=
  between 1 (RuneCountInString (it_OrderNo i)) 64 && between 1 (RuneCountInString (it_OutTradeNo i)) 64 &&
  opt_ok (λ r, RuneCountInString r <=? 128) (it_ProviderRef i) &&
  all_bytes method_byte (it_Method i) && (blen (it_Method i) <=? 32) && IsPositive (it_Amount i) &&
  one_of (it_Status i) [IntentRequiresAction; IntentSucceeded; IntentCancelled; IntentExpired] &&
  one_of (it_HTTPMethod i) ["GET"; "POST"] && (RuneCountInString (it_RedirectURL i) <=? 4096) && (0 <=? it_QueryAttempts i) &&
  negb (IsNegative (it_Surcharge i)) && LessThan (it_Surcharge i) (it_Amount i).

(** The unique keys: the merchant number of a channel, and one intent in
    progress per order. *)
Definition is_active (i : intent_row) : bool := String.eqb (it_Status i) IntentRequiresAction.
Definition trade_key (i : intent_row) : uuid * string := (it_ProviderID i, it_OutTradeNo i).
Definition active_orders (l : list intent_row) : list uuid := map it_OrderID (List.filter is_active l).
Definition intents_unique (l : list intent_row) : bool :=
  bool_decide (NoDup (map trade_key l)) && bool_decide (NoDup (active_orders l)).

(** The rows foreign keys may point at: orders, users and channels. *)
Record fkeys := mkFK { fk_order : uuid → bool; fk_user : uuid → bool; fk_provider : uuid → bool }.

Definition InsertIntent (F : fkeys) (i : intent_row) : PM () := λ p,
  if negb (checkMoney [it_Amount i; it_Surcharge i]) then (Err OMoney, p)
  else if negb (intent_fits i) then (Err (ODB DBOther), p)
  else if negb (intent_check i) then (Err (ODB DBCheck), p)
  else if negb (intents_unique (intents p ++ [i])) then (Err (ODB DBUnique), p)
  else if negb (fk_order F (it_OrderID i) && fk_user F (it_UserID i) && fk_provider F (it_ProviderID i))
  then (Err (ODB DBForeignKey), p)
  else (Ok (), set_intents (λ l, l ++ [i])%list p).

(** The number of rows an update changed. *)
Definition update_intents (hit : intent_row → bool) (f : intent_row → intent_row) : PM Z := λ p,
  if negb (forallb (λ r, negb (hit r) || intent_fits (f r)) (intents p)) then (Err (ODB DBOther), p)
  else if negb (forallb (λ r, negb (hit r) || intent_check (f r)) (intents p)) then (Err (ODB DBCheck), p)
  else if negb (intents_unique (upd hit f (intents p))) then (Err (ODB DBUnique), p)
  else (Ok (hits hit (intents p)), set_intents (upd hit f) p).

Definition with_state (st : string) (i : intent_row) : intent_row :=
  mkIntent (it_ID i) (it_OrderID i) (it_OrderNo i) (it_UserID i) (it_ProviderID i) (it_OutTradeNo i) (it_ProviderRef i)
    (it_Method i) (it_Amount i) (it_Surcharge i) st (it_HTTPMethod i) (it_RedirectURL i) (it_FormFields i) (it_ExpiresAt i)
    (it_QueryAttempts i) (it_NextQueryAt i) (it_CreatedAt i).
Definition with_checkout (method url : string) (form : gmap string string) (ref : option string) (i : intent_row) : intent_row :=
  mkIntent (it_ID i) (it_OrderID i) (it_OrderNo i) (it_UserID i) (it_ProviderID i) (it_OutTradeNo i) ref
    (it_Method i) (it_Amount i) (it_Surcharge i) (it_Status i) method url form (it_ExpiresAt i)
    (it_QueryAttempts i) (it_NextQueryAt i) (it_CreatedAt i).
Definition with_queries (n : Z) (next : option Time) (i : intent_row) : intent_row :=
  mkIntent (it_ID i) (it_OrderID i) (it_OrderNo i) (it_UserID i) (it_ProviderID i) (it_OutTradeNo i) (it_ProviderRef i)
    (it_Method i) (it_Amount i) (it_Surcharge i) (it_Status i) (it_HTTPMethod i) (it_RedirectURL i) (it_FormFields i)
    (it_ExpiresAt i) n next (it_CreatedAt i).

Definition one_row (m : PM Z) : PM bool := n ← m; mret (n =? 1).

Definition LockActiveIntent (orderID : uuid) : PM (option intent_row) :=
  gets (λ p, List.find (λ i, (it_OrderID i =? orderID)%N && is_active i) (intents p)).
Definition CountIntents (orderID : uuid) : PM Z := gets (λ p, hits (λ i, (it_OrderID i =? orderID)%N) (intents p)).
Definition IntentCreatedWithin (now : Time) (id : uuid) (window : Duration) : PM bool := gets (λ p,
  match List.filter (λ i, (it_ID i =? id)%N) (intents p) with
  | [i] => now - window <? it_CreatedAt i
  | _ => false
  end).
Definition IntentByOutTradeNo (providerID : uuid) (outTradeNo : string) : PM (option intent_row) :=
  gets (λ p, List.find (λ i, (it_ProviderID i =? providerID)%N && String.eqb (it_OutTradeNo i) outTradeNo) (intents p)).
Definition SetIntentStatus (id : uuid) (from to : string) : PM bool :=
  one_row (update_intents (λ i, (it_ID i =? id)%N && String.eqb (it_Status i) from) (with_state to)).
Definition placeholder (id : uuid) (i : intent_row) : bool :=
  (it_ID i =? id)%N && is_active i && String.eqb (it_RedirectURL i) "".
Definition FillPlaceholderIntent (id : uuid) (method url : string) (form : gmap string string) (ref : option string) : PM bool :=
  one_row (update_intents (placeholder id) (with_checkout method url form ref)).
Definition SetIntentProviderRef (id : uuid) (ref : string) : PM bool :=
  one_row (update_intents (λ i, (it_ID i =? id)%N && is_none (it_ProviderRef i))
    (λ i, with_checkout (it_HTTPMethod i) (it_RedirectURL i) (it_FormFields i) (Some ref) i)).
Definition CancelPlaceholderIntent (id : uuid) : PM bool :=
  one_row (update_intents (placeholder id) (with_state IntentCancelled)).
Definition close_hit (orderID : uuid) (except : option uuid) (from : string) (i : intent_row) : bool :=
  (it_OrderID i =? orderID)%N && String.eqb (it_Status i) from &&
  match except with Some x => negb (it_ID i =? x)%N | None => true end.
Definition CloseIntents (orderID : uuid) (except : option uuid) (from to : string) : PM Z :=
  update_intents (close_hit orderID except from) (with_state to).

(** Newest first: [ORDER BY created_at DESC, id DESC]. *)
Definition newest_intent (a b : intent_row) : Prop :=
  it_CreatedAt b < it_CreatedAt a ∨ (it_CreatedAt a = it_CreatedAt b ∧ (it_ID b ≤ it_ID a)%N).
#[global] Instance newest_intent_dec : RelDecision newest_intent.
Proof. intros a b. unfold newest_intent. apply _. Defined.
Definition QueryRefs (orderID : uuid) : PM (list intent_row) :=
  gets (λ p, merge_sort newest_intent (List.filter (λ i, (it_OrderID i =? orderID)%N) (intents p))).

(** [ClaimDueIntent]: the due intent with the earliest query time; [enabled]
    and [locked] are the channels in use and the rows held elsewhere. *)
Definition query_time (firstDelay : Duration) (i : intent_row) : Time :=
  default (it_CreatedAt i + firstDelay) (it_NextQueryAt i).
Definition earlier_query (firstDelay : Duration) (a b : intent_row) : Prop :=
  query_time firstDelay a < query_time firstDelay b ∨
  (query_time firstDelay a = query_time firstDelay b ∧ (it_ID a ≤ it_ID b)%N).
#[global] Instance earlier_query_dec d : RelDecision (earlier_query d).
Proof. intros a b. unfold earlier_query. apply _. Defined.
Definition due_query (enabled locked : uuid → bool) (now : Time) (max : Z) (firstDelay : Duration) (i : intent_row) : bool :=
  is_active i && opt_ok (λ e, now <? e) (it_ExpiresAt i) && enabled (it_ProviderID i) && (it_QueryAttempts i <? max) &&
  (query_time firstDelay i <=? now) && negb (locked (it_ID i)).
Definition ClaimDueIntent (enabled locked : uuid → bool) (now : Time) (max : Z) (firstDelay : Duration) : PM (option intent_row) :=
  gets (λ p, head (merge_sort (earlier_query firstDelay) (List.filter (due_query enabled locked now max firstDelay) (intents p)))).
Definition MarkIntentQueried (id : uuid) (next : Time) : PM bool :=
  one_row (update_intents (λ i, (it_ID i =? id)%N) (λ i, with_queries (it_QueryAttempts i + 1) (Some next) i)).
Definition StopIntentQueries (id : uuid) (max : Z) : PM () :=
  _ ← update_intents (λ i, (it_ID i =? id)%N) (λ i, with_queries (Z.max (it_QueryAttempts i) max) (it_NextQueryAt i) i); mret ().

(** * Payments and events (repo/payments.go) *)

Definition event_fits (e : event_row) : bool :=
  pg_text (pv_EventID e) && opt_ok pg_text (pv_PaymentRef e) && json_map (pv_Raw e) && opt_ok pg_text (pv_Error e).
Definition event_check (e : event_row) : bool :=
  between 1 (RuneCountInString (pv_EventID e)) 200 && one_of (pv_Type e) event_types &&
  opt_ok (λ r, RuneCountInString r <=? 200) (pv_PaymentRef e) && one_of (pv_Status e) [eventPending; eventProcessed; eventIgnored] &&
  opt_ok (λ m, RuneCountInString m <=? 500) (pv_Error e) &&
  Bool.eqb (String.eqb (pv_Status e) eventPending) (is_none (pv_ProcessedAt e)).
Definition event_key (e : event_row) : uuid * string := (pv_ProviderID e, pv_EventID e).

(** [ON CONFLICT DO NOTHING]: whether the row was inserted. *)
Definition InsertEvent (F : fkeys) (e : event_row) : PM bool := λ p,
  if negb (event_fits e) then (Err (ODB DBOther), p)
  else if negb (event_check e) then (Err (ODB DBCheck), p)
  else if bool_decide (event_key e ∈ map event_key (pay_events p)) then (Ok false, p)
  else if negb (fk_provider F (pv_ProviderID e)) then (Err (ODB DBForeignKey), p)
  else (Ok true, set_events (λ l, l ++ [e])%list p).

Definition finished (status : string) (msg : option string) (now : Time) (e : event_row) : event_row :=
  mkPayEvent (pv_ID e) (pv_ProviderID e) (pv_EventID e) (pv_Type e) (pv_PaymentRef e) (pv_Raw e) (pv_Verified e) status msg
    (Some now) (pv_ReceivedAt e).
Definition FinishEvent (now : Time) (id : uuid) (status : string) (msg : option string) : PM bool := λ p,
  let hit e := (pv_ID e =? id)%N && String.eqb (pv_Status e) eventPending in
  if negb (forallb (λ e, negb (hit e) || event_fits (finished status msg now e)) (pay_events p)) then (Err (ODB DBOther), p)
  else if negb (forallb (λ e, negb (hit e) || event_check (finished status msg now e)) (pay_events p)) then (Err (ODB DBCheck), p)
  else (Ok (hits hit (pay_events p) =? 1), set_events (upd hit (finished status msg now)) p).

Definition payment_key (x : payment_row) : uuid * string := (pm_ProviderID x, pm_Ref x).
Definition PaymentByProviderRef (providerID : uuid) (ref : string) : PM (option payment_row) :=
  gets (λ p, List.find (λ x, (pm_ProviderID x =? providerID)%N && String.eqb (pm_Ref x) ref) (payments p)).

Definition payment_fits (x : payment_row) : bool :=
  numeric_fits (pm_Amount x) && numeric_fits (pm_Fee x) && numeric_fits (pm_Surcharge x) && pg_text (pm_Ref x).
Definition payment_check (x : payment_row) : bool :=
  between 1 (RuneCountInString (pm_Ref x)) 200 && IsPositive (pm_Amount x) && negb (IsNegative (pm_Fee x)) &&
  LessThanOrEqual (pm_Fee x) (pm_Amount x) && String.eqb (pm_Status x) "succeeded" &&
  opt_ok (λ m, all_bytes method_byte m && between 1 (blen m) 32) (pm_Method x) &&
  negb (IsNegative (pm_Surcharge x)) && LessThan (pm_Surcharge x) (pm_Amount x).
Definition InsertPayment (F : fkeys) (x : payment_row) : PM () := λ p,
  if negb (checkMoney [pm_Amount x; pm_Fee x; pm_Surcharge x]) then (Err OMoney, p)
  else if negb (payment_fits x) then (Err (ODB DBOther), p)
  else if negb (payment_check x) then (Err (ODB DBCheck), p)
  else if bool_decide (payment_key x ∈ map payment_key (payments p)) then (Err (ODB DBUnique), p)
  else if negb (fk_order F (pm_OrderID x) && fk_user F (pm_UserID x) && fk_provider F (pm_ProviderID x) &&
                opt_ok (λ i, existsb (λ y, (it_ID y =? i)%N) (intents p)) (pm_IntentID x)) then (Err (ODB DBForeignKey), p)
  else (Ok (), set_payments (λ l, l ++ [x])%list p).

(** The function [purge_unverified_payment_events]. *)
Definition received_first (a b : event_row) : Prop := pv_ReceivedAt a ≤ pv_ReceivedAt b.
#[global] Instance received_first_dec : RelDecision received_first.
Proof. intros a b. unfold received_first. apply _. Defined.
Definition Retention : Duration := 720 * Hour.
Definition purgeable (cutoff : Time) (p : pay) (e : event_row) : bool :=
  negb (pv_Verified e) && (pv_ReceivedAt e <? cutoff) &&
  negb (existsb (λ c, bool_decide (lc_EventID c = Some (pv_ID e))) (cases p)).
Definition PurgeUnverifiedEvents (now before : Time) (batch : Z) : PM Z := λ p,
  if (batch <? 1) || (10000 <? batch) then (Err (ODB DBOther), p)
  else
    let gone := map pv_ID (take (Z.to_nat batch) (merge_sort received_first
                  (List.filter (purgeable (Z.min before (now - Retention)) p) (pay_events p)))) in
    (Ok (Z.of_nat (length gone)), set_events (List.filter (λ e, negb (bool_decide (pv_ID e ∈ gone)))) p).

(** * Late cases (repo/late.go) *)

Definition case_fits (c : case_row) : bool :=
  numeric_fits (lc_Amount c) && pg_text (lc_OrderNo c) && pg_text (lc_OrderStatus c) && opt_ok pg_text (lc_Reason c).
Definition status_byte (c : Z) : bool := between 97 c 122 || (c =? 95).
Definition orderStatusPattern (s : string) : bool := all_bytes status_byte s && between 1 (blen s) 32.
Definition case_check (c : case_row) : bool :=
  between 1 (RuneCountInString (lc_OrderNo c)) 64 && orderStatusPattern (lc_OrderStatus c) && one_of (lc_Kind c) case_kinds &&
  IsPositive (lc_Amount c) && opt_ok (λ r, RuneCountInString r <=? 500) (lc_Reason c) &&
  ((String.eqb (lc_Status c) LateSuspense && is_none (lc_AppliedTxn c) && is_none (lc_ResolvedAt c) && is_none (lc_Reason c)) ||
   (String.eqb (lc_Status c) LateApplied && negb (is_none (lc_AppliedTxn c)) && negb (is_none (lc_ResolvedAt c)) &&
    match lc_Reason c with Some r => 5 <=? Z.of_nat (length (btrim r)) | None => false end)).
Definition InsertLateCase (F : fkeys) (txn : uuid → bool) (c : case_row) : PM () := λ p,
  if negb (checkMoney [lc_Amount c]) then (Err OMoney, p)
  else if negb (case_fits c) then (Err (ODB DBOther), p)
  else if negb (case_check c) then (Err (ODB DBCheck), p)
  else if bool_decide (lc_PaymentID c ∈ map lc_PaymentID (cases p)) || bool_decide (lc_SuspenseTxn c ∈ map lc_SuspenseTxn (cases p))
  then (Err (ODB DBUnique), p)
  else if negb (fk_order F (lc_OrderID c) && fk_user F (lc_UserID c) &&
                existsb (λ x, (pm_ID x =? lc_PaymentID c)%N) (payments p) &&
                opt_ok (λ i, existsb (λ e, (pv_ID e =? i)%N) (pay_events p)) (lc_EventID c) && txn (lc_SuspenseTxn c))
  then (Err (ODB DBForeignKey), p)
  else (Ok (), set_cases (λ l, l ++ [c])%list p).
Definition LockLateCase (id : uuid) : PM (option case_row) := gets (λ p, List.find (λ c, (lc_ID c =? id)%N) (cases p)).

Definition applied_case (txnID : uuid) (reason : string) (now : Time) (c : case_row) : case_row :=
  mkCase (lc_ID c) (lc_OrderID c) (lc_OrderNo c) (lc_OrderStatus c) (lc_UserID c) (lc_PaymentID c) (lc_EventID c) (lc_Kind c)
    (lc_Amount c) LateApplied (lc_SuspenseTxn c) (Some txnID) (Some reason) (lc_ReceivedAt c) (Some now).
Definition case_hit (id : uuid) (c : case_row) : bool := (lc_ID c =? id)%N && String.eqb (lc_Status c) LateSuspense.
Definition ApplyLateCase (txn : uuid → bool) (now : Time) (id txnID : uuid) (reason : string) : PM bool := λ p,
  let f := applied_case txnID reason now in
  if negb (forallb (λ c, negb (case_hit id c) || case_fits (f c)) (cases p)) then (Err (ODB DBOther), p)
  else if negb (forallb (λ c, negb (case_hit id c) || case_check (f c)) (cases p)) then (Err (ODB DBCheck), p)
  else if existsb (case_hit id) (cases p) && negb (txn txnID) then (Err (ODB DBForeignKey), p)
  else (Ok (hits (case_hit id) (cases p) =? 1), set_cases (upd (case_hit id) f) p).

Definition in_suspense (c : case_row) : bool := String.eqb (lc_Status c) LateSuspense.
Definition PendingLateTotals : PM dec :=
  gets (λ p, foldr (λ c acc, dec_add (lc_Amount c) acc) dec_zero (List.filter in_suspense (cases p))).

(** * Integrity (repo/integrity.go) *)

(** Payments without a case, whose order must be settled. *)
Definition has_case (p : pay) (x : payment_row) : bool := existsb (λ c, (lc_PaymentID c =? pm_ID x)%N) (cases p).
Definition SettledPaymentsSince (since : Time) (p : pay) : list (uuid * uuid) :=
  map (λ x, (pm_ID x, pm_OrderID x)) (List.filter (λ x, (since <=? pm_PaidAt x) && negb (has_case p x)) (payments p)).
End PayStore.
