(* ===== verification/PayFlow.v ===== *)
(** The payment module (panel/internal/module/payment/service): surcharges
    (surcharge.go), channels and methods (providers.go), starting a payment
    (intent.go), recording what a channel reports (record.go, webhook.go,
    offline.go), late payments (late.go, archived.go), queries to the channel
    (query.go), and the order operations that use them (order/service/payops.go).
    A payment is recorded and its order settled in one transaction; what the
    order refuses is undone to a savepoint and kept as a late case. *)
From Stdlib Require Import ZArith QArith Lqa Lia.
From stdpp Require Import base tactics list gmap strings sorting pretty.
From S2P Require Import Prelude Safety Decimal GoString Money GoTime LedgerTypes Ledger Promo Period SubTypes SubStore OrderStore OrderFlow PayStore.
#[local] Open Scope string_scope.
#[local] Open Scope Z_scope.

(** * Text *)

(** [clip]: without NUL, at most [n] bytes, no cut rune. *)
Fixpoint shrink (k : nat) (l : list Z) : list Z :=
  match k with
  | O => l
  | S k' => if ValidString (string_of l) then l else shrink k' (removelast l)
  end.
Definition clip (s : string) (n : nat) : string :=
  let l := List.filter (λ b, negb (b =? 0)) (bytes_of s) in
  if (length l <=? n)%nat then string_of l else string_of (shrink n (firstn n l)).

(** [normalizeMethod].  The letters outside ASCII whose lower case is inside
    are the dotted capital I and the Kelvin sign; a name with any other is
    refused whatever its lower case. *)
Definition lower_rune (r : Z) : Z :=
  if between 65 r 90 then r + 32 else if r =? 304 then 105 else if r =? 8490 then 107 else r.
Definition normalizeMethod (raw : string) : string :=
  let m := map (λ c, lower_rune (rune c)) (trim_chunks (runes raw)) in
  if between 1 (Z.of_nat (length m)) 32 && forallb method_byte m then string_of m else "".

Section PayFlow.
Context `{DL : DecimalLib}.

(** * Surcharges (surcharge.go) *)

Definition MaxFeeFixed : dec := dec_new 100000 (-2).
Definition MaxFeePercent : dec := dec_new 10000 (-2).
Definition Surcharge (amount fixed percent : dec) : dec :=
  if negb (IsPositive amount) || (IsZero fixed && IsZero percent) then dec_zero
  else dec_round_ceil (dec_add (dec_shift (dec_mul amount percent) (-2)) fixed) 2.
Definition ValidFee (max d : dec) : bool := negb (IsNegative d) && money_ok d && negb (GreaterThan d max).
Definition ValidFeeFixed : dec → bool := ValidFee MaxFeeFixed.
Definition ValidFeePercent : dec → bool := ValidFee MaxFeePercent.

(** * Channels (providers.go, provider/provider.go) *)

Record providerRecord := mkProvider {
  pr_ID : uuid; pr_Code : string; pr_Adapter : string; pr_Enabled : bool; pr_AcceptingNew : bool;
  pr_Methods : list string; pr_DefaultMethod : string; pr_MinAmount : dec; pr_FeeFixed : dec; pr_FeePercent : dec }.

Record CreateRequest := mkCreate {
  cq_OutTradeNo : string; cq_Amount : dec; cq_Subject : string; cq_Method : string; cq_NotifyURL : string;
  cq_ReturnURL : string; cq_ClientIP : string }.
Record CreateResponse := mkResponse {
  cs_HTTPMethod : string; cs_RedirectURL : string; cs_FormFields : gmap string string; cs_ProviderRef : string }.
Record Notification := mkNotification {
  nt_EventID : string; nt_PaymentRef : string; nt_OutTradeNo : string; nt_Amount : dec; nt_Fee : dec; nt_Status : string;
  nt_Method : string; nt_Raw : gmap string string; nt_Verified : bool }.
Record ChannelAnswer := mkAnswer {
  qa_Found : bool; qa_PaymentRef : string; qa_Amount : dec; qa_Status : string; qa_Method : string }.
Record AckInput := mkAck {
  ak_SignatureValid : bool; ak_HandlerError : option oerr; ak_Processed : bool; ak_AlreadyHandled : bool; ak_PaymentID : string }.
Definition AckInput_OK (a : AckInput) : bool := ak_SignatureValid a && is_none (ak_HandlerError a).

(** A channel's adapter speaks its protocol; a query may fail because the
    channel has none ([true]). *)
Record Adapter := mkAdapter {
  CreatePayment : CreateRequest → result () CreateResponse;
  ParseNotification : string → result () Notification;
  NotificationAck : AckInput → string;
  QueryPayment : string → result bool ChannelAnswer }.

(** What a call reads of the channels and the settings: the rows of
    payment_providers, which of them have credentials that open, the adapters'
    constructors, the stored prefix for callbacks, how the settings module
    normalizes one, and the site's addresses. *)
Record Channels := mkChannels {
  ch_Rows : list providerRecord;
  ch_Opens : uuid → bool;
  newAdapter : providerRecord → list string → result oerr Adapter;
  PaymentCallback : result oerr string;
  NormalizeNotifyBaseURL : string → option string;
  AllowPrivateHosts : bool;
  SiteURL : string;
  SiteURLAliases : list string }.

Definition loadProvider (ch : Channels) (code : string) : result oerr providerRecord :=
  match List.find (λ p, String.eqb (pr_Code p) code) (ch_Rows ch) with
  | None => Err (OPay ErrProviderNotFound)
  | Some p => if ch_Opens ch (pr_ID p) then Ok p else Err OInternal
  end.
Definition buildAdapter (ch : Channels) (p : providerRecord) (notifyURLs : list string) : result oerr Adapter :=
  if one_of (pr_Adapter p) [AdapterEpay; AdapterBTCPay; AdapterCoinPayments] then newAdapter ch p notifyURLs
  else Err (OPay ErrProviderNotFound).
(** The rows a JOIN on the provider finds. *)
Definition providerCode (ch : Channels) (id : uuid) : string :=
  match List.find (λ p, (pr_ID p =? id)%N) (ch_Rows ch) with Some p => pr_Code p | None => "" end.

(** [callback.go]: the prefix of the addresses channels call back. *)
Definition siteBase (ch : Channels) : string := trimSlashes (SiteURL ch).
Definition has_https (s : string) : bool :=
  bool_decide (firstn 8 (map (λ c, lower_rune (rune c)) (runes s)) = bytes_of "https://").
Definition usableNotifyBase (ch : Channels) (v : string) : bool :=
  match NormalizeNotifyBaseURL ch v with
  | None => false
  | Some norm => negb (String.eqb norm "") && (AllowPrivateHosts ch || has_https norm)
  end.
Definition notifyBase (ch : Channels) : result oerr string :=
  cb ← PaymentCallback ch;
  if negb (String.eqb cb "") && usableNotifyBase ch cb then Ok (default "" (NormalizeNotifyBaseURL ch cb)) else Ok (siteBase ch).
Definition notifyURL (base code : string) : string := trimSlashes base ++ "/v1/webhooks/payments/" ++ code.
Definition notifyURLCandidates (ch : Channels) (code : string) : result oerr (list string) :=
  base ← notifyBase ch;
  Ok (foldl (λ out b, if String.eqb b "" then out
                      else if bool_decide (notifyURL b code ∈ out) then out else out ++ [notifyURL b code])%list
        [] (base :: SiteURLAliases ch)).
Definition returnURL (ch : Channels) (site supplied : string) : string :=
  if negb (String.eqb supplied "") && existsb (λ a, String.prefix a supplied) (SiteURLAliases ch)
  then supplied else site ++ "/#orders".

Definition adapterFor (ch : Channels) (code : string) (forNew : bool) : result oerr (providerRecord * Adapter) :=
  p ← loadProvider ch code;
  if negb (pr_Enabled p) then Err (OPay ErrProviderDisabled)
  else if forNew && negb (pr_AcceptingNew p) then Err (OPay ErrProviderPaused)
  else
    urls ← (if String.eqb (pr_Adapter p) AdapterCoinPayments then notifyURLCandidates ch (pr_Code p) else Ok []);
    match buildAdapter ch p urls with
    | Ok ad => Ok (p, ad)
    | Err (OPay ErrProviderNotFound) => Err (OPay ErrProviderNotFound)
    | Err _ => Err (OPay PayInternal)
    end.

Definition providerMethods (p : providerRecord) : list string :=
  List.filter (λ m, one_of m EpayMethods)
    (match pr_Methods p with
     | [] => if String.eqb (pr_DefaultMethod p) "" then [] else [pr_DefaultMethod p]
     | l => l
     end).
Definition resolveMethod (p : providerRecord) (requested0 : string) : result oerr string :=
  let allowed := providerMethods p in
  let requested := TrimSpace requested0 in
  if String.eqb requested "" then
    match allowed with
    | [] => if String.eqb (pr_Adapter p) AdapterEpay then Err (OPay (PayInvalid "method")) else Ok ""
    | m :: _ => Ok (if one_of (pr_DefaultMethod p) allowed then pr_DefaultMethod p else m)
    end
  else if one_of requested allowed then Ok requested else Err (OPay (PayInvalid "method")).

(** * Recording: the input and its checks (record.go) *)

Record offlineTarget := mkTargetOrder { ot_OrderID : uuid; ot_UserID : uuid; ot_OrderNo : string }.
Record recordInput := mkRecord {
  ri_Provider : providerRecord; ri_EventID : string; ri_EventType : string; ri_PaymentRef : string; ri_OutTradeNo : string;
  ri_Offline : option offlineTarget; ri_Amount : dec; ri_Fee : dec; ri_Method : string; ri_Raw : gmap string string;
  ri_Verified : bool; ri_FeeUnknown : bool }.
Record RecordResult := mkResult {
  rr_Processed : bool; rr_AlreadyHandled : bool; rr_SignatureFailed : bool; rr_PaymentID : uuid; rr_Kind : string; rr_Txn : uuid }.

Definition validateRecordInput (i : recordInput) : result oerr () :=
  let eid := TrimSpace (ri_EventID i) in
  let pr := TrimSpace (ri_PaymentRef i) in
  if String.eqb eid "" || (200 <? blen eid) then Err (OPay PayBadRequest)
  else if negb (one_of (ri_EventType i) event_types) then Err (OPay PayBadRequest)
  else if String.eqb (ri_EventType i) EventSucceeded && (String.eqb pr "" || (200 <? blen pr)) then Err (OPay PayBadRequest)
  else Ok ().
Definition validateRecordAmounts (i : recordInput) : result oerr () :=
  if negb (IsPositive (ri_Amount i)) || negb (money_ok (ri_Amount i)) then Err (OPay PayBadRequest)
  else if IsNegative (ri_Fee i) || negb (money_ok (ri_Fee i)) || GreaterThan (ri_Fee i) (ri_Amount i) then Err (OPay PayBadRequest)
  else Ok ().

Definition unverifiedEvidenceKeys : list string := ["out_trade_no"; "trade_no"; "money"; "trade_status"; "pid"; "type"].
Definition unverifiedEvidence (i : recordInput) : gmap string string :=
  let out := foldl (λ m k, match ri_Raw i !! k with Some v => <[k := clip v 64]> m | None => m end) ∅ unverifiedEvidenceKeys in
  <["parsed_payment_ref" := clip (ri_PaymentRef i) 64]>
    (<["parsed_out_trade_no" := clip (ri_OutTradeNo i) 64]> (<["parsed_event_id" := clip (ri_EventID i) 64]> out)).

Definition buildSuspenseLegs (i : recordInput) (surcharge : dec) : list Leg :=
  let net := dec_sub (ri_Amount i) (ri_Fee i) in
  ((if IsPositive net then [mkLeg (PlatformAccount ChannelCash (pr_Code (ri_Provider i))) Debit net] else []) ++
   (if IsPositive (ri_Fee i) then [mkLeg (PlatformAccount PlatformFeeExpense (pr_Code (ri_Provider i))) Debit (ri_Fee i)] else []) ++
   [mkLeg (PlatformAccount LatePaymentSuspense RefMain) Credit (dec_sub (ri_Amount i) surcharge)] ++
   (if IsPositive surcharge then [mkLeg (PlatformAccount PlatformRevenue RefSurcharge) Credit surcharge] else []))%list.

Definition eventTypeOf (st : string) : string :=
  if String.eqb st "succeeded" then EventSucceeded else if String.eqb st "failed" then "payment.failed"
  else if String.eqb st "refunded" then "payment.refunded" else "payment.unknown".

(** * The tables together *)

Context {Y : Type} (B : OrderEnv Y) (providers : gset uuid).
Abbreviation X := (pay * Y)%type.
Abbreviation WM := (M (world X) oerr).
Abbreviation LX := (M (ledger * X) oerr).

Definition on_fst {S T E A} (m : M S E A) : M (S * T) E A := zoom fst (λ s x, (s, x.2)) id m.
Definition on_pay {A} (m : M pay oerr A) : WM A := on_ext (on_fst m).
Definition led {A} (m : M ledger lerr A) : LX A := zoom fst (λ l x, (l, x.2)) OLedger m.
Definition tab {A} (m : M pay oerr A) : LX A := zoom (λ x, x.2.1) (λ p x, (x.1, (p, x.2.2))) id m.

Definition fks (w : world X) : fkeys :=
  mkFK (has_order w) (λ u, bool_decide (u ∈ env_users (oe_sub B))) (λ i, bool_decide (i ∈ providers)).
Definition with_fk {A} (f : fkeys → M pay oerr A) : WM A := λ w, on_pay (f (fks w)) w.

(** [CloseOrderIntents] (intent.go), which cancelling and expiring an order call. *)
Definition closeOrderIntents (orderID : uuid) (to : string) : M pay oerr Z :=
  if negb (CanTransition IntentRequiresAction to) || String.eqb to IntentSucceeded then fail (OPay PayInternal)
  else CloseIntents orderID None IntentRequiresAction to.

(** The order module's surroundings [B] with this module's tables in place:
    only the hook of a paid order still belongs to others. *)
Definition wired : OrderEnv X :=
  mkOrderEnv (oe_sub B) (oe_promo B) (PlanStatuses B) (PriceDays B) (MinPayment B) (PurchaseLimits B) (UserDeleted B) (EmitOrder B)
    (λ id to, on_fst (closeOrderIntents id to))
    (match OnOrderPaid B with
     | Some hook => Some (λ o, zoom (λ x, (x.1, x.2.2)) (λ t x, (t.1, (x.2.1, t.2))) id (hook o))
     | None => None
     end).

(** * Recording a payment (record.go) *)

Definition markIntentSucceeded (i : intent_row) : M pay oerr () :=
  _ ← SetIntentStatus (it_ID i) IntentRequiresAction IntentSucceeded; mret ().

Definition markOwnIntent (intent : option intent_row) : M pay oerr () :=
  match intent with
  | Some it => if String.eqb (it_Status it) IntentRequiresAction then markIntentSucceeded it else mret ()
  | None => mret ()
  end.

Definition afterSettleSuccess (k : Call) (evID : uuid) (intent : option intent_row) (orderID paymentID : uuid) : WM RecordResult :=
  _ ← on_pay (markOwnIntent intent);
  if negb (CanTransition IntentRequiresAction IntentCancelled) then fail (OPay PayInternal)
  else
    _ ← on_pay (CloseIntents orderID (it_ID <$> intent) IntentRequiresAction IntentCancelled);
    _ ← on_pay (FinishEvent (k_db k) evID eventProcessed None);
    _ ← on_pay (pay_audit "payment.succeeded" orderID);
    mret (mkResult true false false paymentID "" uuid_Nil).

(** [quarantine]: the posting, the case, the intent and the event. *)
Definition has_txn (l : ledger) (id : uuid) : bool := existsb (λ t, (t_id t =? id)%N) (txns l).
Definition suspense_posting (i : recordInput) (kind : string) (paymentID : uuid) (surcharge : dec) : Posting :=
  mkPosting KindLatePaymentSuspense SourcePayment paymentID ("迟到支付挂账：" ++ kind) (buildSuspenseLegs i surcharge).
Definition quarantine (F : fkeys) (who : option Principal) (k : Call) (evID : uuid) (i : recordInput) (kind status : string)
    (intent : option intent_row) (orderID userID : uuid) (orderNo : string) (paymentID : uuid) (surcharge : dec)
    : LX (RecordResult * case_row) :=
  if negb (CaseKind_Valid kind) || negb (orderStatusPattern status) then fail (OPay PayInternal)
  else
    txnID ← led (Post (joined who) (suspense_posting i kind paymentID surcharge));
    lateID ← tab NewV7;
    let late := mkCase lateID orderID orderNo status userID paymentID (Some evID) kind (dec_sub (ri_Amount i) surcharge)
                  LateSuspense txnID None None (k_db k) None in
    _ ← (λ x, tab (InsertLateCase F (has_txn x.1) late) x);
    _ ← tab (markOwnIntent intent);
    _ ← tab (FinishEvent (k_db k) evID eventProcessed None);
    _ ← tab (pay_audit "payment.quarantined" paymentID);
    mret (mkResult true false false paymentID kind txnID, late).

(** [applyLateCase] (late.go): the money of a case to the user's balance. *)
Definition apply_posting (c : case_row) (reason : string) : Posting :=
  mkPosting KindLatePaymentApplied SourcePayment (lc_PaymentID c) reason
    [mkLeg (PlatformAccount LatePaymentSuspense RefMain) Debit (lc_Amount c);
     mkLeg (UserAccount UserBalance (lc_UserID c)) Credit (lc_Amount c)].
Definition applyLateCase (who : option Principal) (k : Call) (c : case_row) (reason : string) : LX uuid :=
  if negb (CanTransitionLate (lc_Status c) LateApplied) then fail (OPay ErrCaseResolved)
  else
    txnID ← led (Post (joined who) (apply_posting c reason));
    applied ← (λ x, tab (ApplyLateCase (has_txn x.1) (k_db k) (lc_ID c) txnID reason) x);
    if negb applied then fail (OPay PayInternal)
    else _ ← tab (pay_audit "late_payment.applied" (lc_ID c)); mret txnID.

(** [afterSettleArchived] (archived.go). *)
Definition archivedApplyReason := "套餐已归档，不开通，实付自动转入余额".
Definition systemActor : option Principal := Some (mkPrincipal uuid_Nil "").
Definition settle_archived (F : fkeys) (who : option Principal) (k : Call) (evID : uuid) (i : recordInput) (kind status0 : string)
    (intent : option intent_row) (orderID userID : uuid) (orderNo : string) (paymentID : uuid) (surcharge : dec)
    (status : string) : LX () :=
  let status := if String.eqb status "" then status0 else status in
  q ← quarantine F who k evID i kind status intent orderID userID orderNo paymentID surcharge;
  _ ← applyLateCase systemActor k q.2 archivedApplyReason;
  mret ().
(** The callback's answer is that of its [quarantine]: the case just inserted. *)
Definition afterSettleArchived (who : option Principal) (k : Call) (evID : uuid) (i : recordInput) (kind status0 : string)
    (intent : option intent_row) (orderID userID : uuid) (orderNo : string) (paymentID : uuid) (surcharge : dec) : WM RecordResult :=
  match ri_Offline i with
  | Some _ => fail (OPay ErrArchivedPlanOffline)
  | None => λ w,
      (_ ← CloseArchivedOrder wired true who k orderID
             (settle_archived (fks w) who k evID i kind status0 intent orderID userID orderNo paymentID surcharge);
       c ← on_pay (gets (λ p, List.find (λ c, (lc_PaymentID c =? paymentID)%N) (cases p)));
       match c with
       | Some c => mret (mkResult true false false paymentID kind (lc_SuspenseTxn c))
       | None => fail (OPay PayInternal)
       end) w
  end.
Definition afterSettleQuarantine (who : option Principal) (k : Call) (evID : uuid) (i : recordInput) (kind status : string)
    (intent : option intent_row) (orderID userID : uuid) (orderNo : string) (paymentID : uuid) (surcharge : dec) : WM RecordResult :=
  match ri_Offline i with
  | Some _ => fail (OPay PayConflict)
  | None => λ w,
      (q ← on_ledger_ext (quarantine (fks w) who k evID i kind status intent orderID userID orderNo paymentID surcharge);
       mret q.1) w
  end.

(** A savepoint around the settler: its error as a value, its writes undone. *)
Definition savepoint {A} (m : WM A) : WM (result oerr A) := λ w,
  match m w with
  | (Ok a, w') => (Ok (Ok a), w')
  | (Err e, _) => (Ok (Err e), w)
  end.

(** The order, user and number a payment is for, with its intent. *)
Definition record_target (i : recordInput) (pr : string) : WM (option intent_row * (uuid * uuid * string)) :=
  match ri_Offline i with
  | Some t => mret (None, (ot_OrderID t, ot_UserID t, ot_OrderNo t))
  | None =>
      it ← on_pay (IntentByOutTradeNo (pr_ID (ri_Provider i)) (TrimSpace (ri_OutTradeNo i)));
      match it with
      | None => fail (OPay PayNotFound)
      | Some it =>
          if negb (Equal (ri_Amount i) (it_Amount it)) then fail (OPay ErrPaymentAmount)
          else if match it_ProviderRef it with Some r => negb (String.eqb r pr) | None => false end &&
                  negb (String.eqb (pr_Adapter (ri_Provider i)) AdapterCoinPayments)
          then fail (OPay ErrProviderRefMismatch)
          else mret (Some it, (it_OrderID it, it_UserID it, it_OrderNo it))
      end
  end.

(** The same money reported again. *)
Definition replay (k : Call) (evID : uuid) (i : recordInput) (orderID : uuid) (surcharge : dec) (x : payment_row) : WM RecordResult :=
  if negb (pm_OrderID x =? orderID)%N then fail (OPay ErrPaymentReused)
  else if negb (Equal (pm_Amount x) (ri_Amount i)) || (negb (ri_FeeUnknown i) && negb (Equal (pm_Fee x) (ri_Fee i))) ||
          negb (Equal (pm_Surcharge x) surcharge) then fail (OPay ErrReplayMismatch)
  else
    _ ← on_pay (FinishEvent (k_db k) evID eventIgnored (Some "这笔收款此前已入账"));
    mret (mkResult false true false (pm_ID x) "" uuid_Nil).

(** From the insertion of the payment on. *)
Definition record_new (who : option Principal) (k : Call) (evID : uuid) (i : recordInput) (pr : string) (intent : option intent_row)
    (orderID userID : uuid) (orderNo : string) (surcharge : dec) : WM RecordResult :=
  let method0 := normalizeMethod (ri_Method i) in
  let method := match intent with Some it => if String.eqb method0 "" then it_Method it else method0 | None => method0 end in
  paymentID ← on_pay NewV7;
  _ ← with_fk (λ F, InsertPayment F (mkPayment paymentID orderID userID (it_ID <$> intent) (pr_ID (ri_Provider i)) pr
        (ri_Amount i) (ri_Fee i) surcharge "succeeded" (if String.eqb method "" then None else Some method) (k_db k)));
  settled ← savepoint (SettlePayment wired who k
              (mkSettle orderID (dec_sub (ri_Amount i) surcharge) (ri_Fee i) surcharge (pr_Code (ri_Provider i)) paymentID));
  match settled with
  | Ok _ => afterSettleSuccess k evID intent orderID paymentID
  | Err (ONotPayable kind status) =>
      if String.eqb kind CaseArchivedPlan
      then afterSettleArchived who k evID i kind status intent orderID userID orderNo paymentID surcharge
      else afterSettleQuarantine who k evID i kind status intent orderID userID orderNo paymentID surcharge
  | Err e => fail e
  end.

(** A report whose signature does not hold leaves evidence and nothing else. *)
Definition record_unverified (k : Call) (i : recordInput) : WM RecordResult :=
  fake ← on_pay NewV7;
  evID ← on_pay NewV7;
  let pr := TrimSpace (ri_PaymentRef i) in
  inserted ← with_fk (λ F, InsertEvent F (mkPayEvent evID (pr_ID (ri_Provider i)) ("unverified:" ++ uuid_String fake) (ri_EventType i)
               (if negb (String.eqb pr "") && (blen pr <=? 200) then Some pr else None) (unverifiedEvidence i) false eventPending
               None None (k_db k)));
  _ ← (if inserted : bool then _ ← on_pay (FinishEvent (k_db k) evID eventIgnored (Some "签名校验失败")); mret () else mret ());
  mret (mkResult false false true uuid_Nil "" uuid_Nil).

Definition recordPaymentTx (who : option Principal) (k : Call) (i : recordInput) (hook : option (RecordResult → WM ())) : WM RecordResult :=
  if negb (ri_Verified i) then record_unverified k i
  else
    _ ← lift (validateRecordInput i);
    evID ← on_pay NewV7;
    let pr := TrimSpace (ri_PaymentRef i) in
    inserted ← with_fk (λ F, InsertEvent F (mkPayEvent evID (pr_ID (ri_Provider i)) (TrimSpace (ri_EventID i)) (ri_EventType i)
                 (if String.eqb pr "" then None else Some pr) (ri_Raw i) true eventPending None None (k_db k)));
    if negb inserted then
      x ← (if String.eqb pr "" then mret None else on_pay (PaymentByProviderRef (pr_ID (ri_Provider i)) pr));
      mret (mkResult false true false (match x with Some x => pm_ID x | None => uuid_Nil end) "" uuid_Nil)
    else if negb (String.eqb (ri_EventType i) EventSucceeded) then
      _ ← on_pay (FinishEvent (k_db k) evID eventIgnored None);
      mret (mkResult true false false uuid_Nil "" uuid_Nil)
    else
      _ ← lift (validateRecordAmounts i);
      t ← record_target i pr;
      let '(intent, (orderID, userID, orderNo)) := t in
      let surcharge := match intent with Some it => it_Surcharge it | None => dec_zero end in
      if String.eqb pr "" then fail (OPay PayBadRequest)
      else
        found ← on_pay (PaymentByProviderRef (pr_ID (ri_Provider i)) pr);
        match found with
        | Some x => replay k evID i orderID surcharge x
        | None =>
            res ← record_new who k evID i pr intent orderID userID orderNo surcharge;
            _ ← (match hook with Some h => h res | None => mret () end);
            mret res
        end.

Definition refMismatchEventIDMax : nat := 180.
Definition recordRefMismatchEvidence (inTx : bool) (k : Call) (i : recordInput) : WM () :=
  let pr := TrimSpace (ri_PaymentRef i) in
  let eid := TrimSpace (ri_EventID i) in
  order_tx inTx (
    evID ← on_pay NewV7;
    inserted ← with_fk (λ F, InsertEvent F (mkPayEvent evID (pr_ID (ri_Provider i))
                 ("ref_mismatch:" ++ clip eid refMismatchEventIDMax) (ri_EventType i)
                 (if negb (String.eqb pr "") && (blen pr <=? 200) then Some pr else None)
                 (<["reject" := "provider_ref_mismatch"]> (<["event_id" := clip eid 200]>
                    (<["out_trade_no" := clip (TrimSpace (ri_OutTradeNo i)) 64]> {["channel_ref" := clip pr 200]})))
                 true eventPending None None (k_db k)));
    if negb inserted then mret ()
    else _ ← on_pay (FinishEvent (k_db k) evID eventIgnored (Some "渠道单号与支付意图不一致")); mret ()).

(** A step whose error is only logged. *)
Definition attempt {A} (m : WM A) : WM () := λ w, (Ok (), (m w).2).

Definition recordPayment (inTx : bool) (who : option Principal) (k : Call) (i : recordInput) (hook : option (RecordResult → WM ()))
    : WM RecordResult := λ w,
  match order_tx inTx (recordPaymentTx who k i hook) w with
  | (Err (OPay ErrProviderRefMismatch), w') =>
      (Err (OPay ErrProviderRefMismatch), (attempt (recordRefMismatchEvidence inTx k i) w').2)
  | r => r
  end.

(** [HandleWebhook] (webhook.go): what is answered to the channel. *)
Definition webhook_input (p : providerRecord) (n : Notification) : recordInput :=
  mkRecord p (nt_EventID n) (eventTypeOf (nt_Status n)) (nt_PaymentRef n) (nt_OutTradeNo n) None (nt_Amount n) (nt_Fee n) (nt_Method n)
    (nt_Raw n) (nt_Verified n) false.
Definition handle_notification (k : Call) (p : providerRecord) (ad : Adapter) (n : Notification) : WM string := λ w,
  let '(r, w') := recordPayment false None k (webhook_input p n) None w in
  let ack := match r with
             | Ok res => mkAck (nt_Verified n) (if rr_SignatureFailed res then Some OUnauthorized else None)
                           (rr_Processed res) (rr_AlreadyHandled res)
                           (if (rr_PaymentID res =? uuid_Nil)%N then "" else uuid_String (rr_PaymentID res))
             | Err e => mkAck (nt_Verified n) (Some e) false false ""
             end in
  (Ok (NotificationAck ad ack), w').
Definition HandleWebhook (ch : Channels) (k : Call) (code inbound : string) : WM string :=
  pa ← lift (adapterFor ch code false);
  match ParseNotification pa.2 inbound with
  | Err _ => fail (OPay PayBadRequest)
  | Ok n => handle_notification k pa.1 pa.2 n
  end.

(** [RecordOffline] (offline.go). *)
Record OfflineInput := mkOffline {
  of_OrderID : uuid; of_OrderNo : string; of_UserID : uuid; of_Amount : dec; of_Reference : string; of_Reason : string }.
Definition RecordOffline (ch : Channels) (inTx : bool) (who : option Principal) (k : Call) (i : OfflineInput) : WM RecordResult :=
  let orderNo := TrimSpace (of_OrderNo i) in
  let ref := TrimSpace (of_Reference i) in
  if (of_OrderID i =? uuid_Nil)%N || (of_UserID i =? uuid_Nil)%N then fail (OPay PayBadRequest)
  else if String.eqb orderNo "" || (64 <? blen orderNo) then fail (OPay PayBadRequest)
  else if negb (IsPositive (of_Amount i)) || negb (money_ok (of_Amount i)) then fail (OPay PayBadRequest)
  else if String.eqb ref "" || (128 <? blen ref) || ContainsNUL ref then fail (OPay (PayInvalid "reference"))
  else if ContainsNUL (of_Reason i) || (500 <? RuneCountInString (of_Reason i)) then fail (OPay (PayInvalid "reason"))
  else
    p ← lift (loadProvider ch OfflineProviderCode);
    if negb (pr_Enabled p) then fail (OPay ErrProviderDisabled)
    else
      recordPayment inTx who k (mkRecord p ("offline:" ++ uuid_String (of_OrderID i) ++ ":" ++ ref) EventSucceeded
        ("offline:" ++ ref) "" (Some (mkTargetOrder (of_OrderID i) (of_UserID i) orderNo)) (of_Amount i) dec_zero OfflineMethod
        (<["source" := "admin_offline"]> (<["actor_id" := match who with Some p => uuid_String (pr_UserID p) | None => "" end]>
           (<["reference" := ref]> {["reason" := of_Reason i]})))
        true false) None.

(** * Late payments (late.go) *)

Definition ApplyLatePayment (inTx : bool) (who : option Principal) (k : Call) (caseID : uuid) (reason0 : string) : WM uuid :=
  let reason := TrimSpace reason0 in
  let n := RuneCountInString reason in
  if negb (ValidString reason) || ContainsNUL reason || (n <? 5) || (500 <? n) then fail (OPay (PayInvalid "reason"))
  else
    order_tx inTx (
      c ← on_pay (LockLateCase caseID);
      match c with
      | None => fail (OPay PayNotFound)
      | Some c => on_ledger_ext (applyLateCase who k c reason)
      end).

(** * Starting a payment (intent.go) *)

Definition intentTTL : Duration := 30 * Minute.
Definition intentCreatingWindow : Duration := 30 * Second.

Record CreateIntentInput := mkIntentInput {
  ii_OrderID : uuid; ii_OrderNo : string; ii_UserID : uuid; ii_Amount : dec; ii_ProviderCode : string; ii_Method : string;
  ii_Title : string; ii_ReturnURL : string; ii_ClientIP : string; ii_ExpiresAt : option Time }.
Record IntentResult := mkIntentResult {
  ir_IntentID : uuid; ir_OutTradeNo : string; ir_HTTPMethod : string; ir_RedirectURL : string; ir_FormFields : gmap string string;
  ir_Amount : dec; ir_Surcharge : dec; ir_ExpiresAt : option Time; ir_Reused : bool }.
(** A draft reuses a checkout, or waits for [CompleteIntent] to create one. *)
Inductive IntentDraft :=
| DraftReused (r : IntentResult)
| DraftFresh (ad : Adapter) (req : CreateRequest) (r : IntentResult).

Definition reusable (i : intent_row) (p : providerRecord) (method : string) (gross surcharge : dec) (now : Time) : bool :=
  (it_ProviderID i =? pr_ID p)%N && String.eqb (it_Method i) method && Equal (it_Amount i) gross &&
  Equal (it_Surcharge i) surcharge && negb (String.eqb (it_RedirectURL i) "") &&
  opt_ok (λ e, After e now) (it_ExpiresAt i).

(** The transaction of [BeginIntent]: the order's intent in progress is reused,
    waited for, or cancelled and replaced. *)
Definition begin_tx (now db : Time) (i : CreateIntentInput) (p : providerRecord) (ad : Adapter) (method : string)
    (surcharge gross : dec) (expires : Time) (req : string → CreateRequest) : WM IntentDraft :=
  let orderNo := TrimSpace (ii_OrderNo i) in
  active ← on_pay (LockActiveIntent (ii_OrderID i));
  if match active with Some a => reusable a p method gross surcharge now | None => false end then
    match active with
    | Some a => mret (DraftReused (mkIntentResult (it_ID a) (it_OutTradeNo a) (it_HTTPMethod a) (it_RedirectURL a) (it_FormFields a)
                        (it_Amount a) (it_Surcharge a) (it_ExpiresAt a) true))
    | None => fail (OPay PayInternal)
    end
  else
    _ ← (match active with
         | Some a =>
             creating ← (if String.eqb (it_RedirectURL a) "" then on_pay (IntentCreatedWithin db (it_ID a) intentCreatingWindow)
                         else mret false);
             if creating : bool then fail (OPay ErrPaymentInProgress)
             else if negb (CanTransition IntentRequiresAction IntentCancelled) then fail (OPay PayInternal)
             else
               updated ← on_pay (SetIntentStatus (it_ID a) IntentRequiresAction IntentCancelled);
               if negb updated then fail (OPay PayInternal) else mret ()
         | None => mret ()
         end);
    n ← on_pay (CountIntents (ii_OrderID i));
    let outTradeNo := if 0 <? n then orderNo ++ "-" ++ pretty (n + 1) else orderNo in
    if 64 <? blen outTradeNo then fail (OPay PayInternal)
    else
      intentID ← on_pay NewV7;
      _ ← map_err (λ e, match e with ODB DBUnique => OPay ErrPaymentInProgress | e => e end)
            (with_fk (λ F, InsertIntent F (mkIntent intentID (ii_OrderID i) orderNo (ii_UserID i) (pr_ID p) outTradeNo None method
               gross surcharge IntentRequiresAction "GET" "" ∅ (Some expires) 0 None db)));
      mret (DraftFresh ad (req outTradeNo) (mkIntentResult intentID outTradeNo "" "" ∅ gross surcharge (Some expires) false)).

Definition BeginIntent (ch : Channels) (inTx : bool) (now db : Time) (i : CreateIntentInput) : WM IntentDraft :=
  let orderNo := TrimSpace (ii_OrderNo i) in
  if (ii_OrderID i =? uuid_Nil)%N || (ii_UserID i =? uuid_Nil)%N then fail (OPay PayBadRequest)
  else if String.eqb orderNo "" || (64 <? blen orderNo) then fail (OPay PayBadRequest)
  else if negb (IsPositive (ii_Amount i)) || negb (money_ok (ii_Amount i)) then fail (OPay PayBadRequest)
  else
    let site := siteBase ch in
    if String.eqb site "" then fail (OPay PayInternal)
    else
      pa ← lift (adapterFor ch (ii_ProviderCode i) true);
      let p := pa.1 in
      method ← lift (resolveMethod p (ii_Method i));
      if LessThan (ii_Amount i) (pr_MinAmount p) then fail (OPay ErrBelowMethodMinimum)
      else
        let surcharge := Surcharge (ii_Amount i) (pr_FeeFixed p) (pr_FeePercent p) in
        let gross := dec_add (ii_Amount i) surcharge in
        if negb (money_ok gross) then fail (OPay PayInternal)
        else
          base ← lift (notifyBase ch);
          if negb (opt_ok (λ e, After e now) (ii_ExpiresAt i)) then fail (OPay ErrOrderLapsed)
          else
            let ttl := now + intentTTL in
            let expires := match ii_ExpiresAt i with Some e => if e <? ttl then e else ttl | None => ttl end in
            order_tx inTx (begin_tx now db i p pa.2 method surcharge gross expires (λ no,
              mkCreate no gross (ii_Title i) method (notifyURL base (pr_Code p)) (returnURL ch site (ii_ReturnURL i)) (ii_ClientIP i))).

Definition badResp (r : CreateResponse) : bool :=
  negb (one_of (cs_HTTPMethod r) ["GET"; "POST"]) || String.eqb (cs_RedirectURL r) "" || (4096 <? blen (cs_RedirectURL r)) ||
  (128 <? blen (cs_ProviderRef r)).

(** [CompleteIntent]: the channel is asked outside any transaction, its answer
    written in one of its own. *)
Definition CompleteIntent (inTx : bool) (d : IntentDraft) : WM IntentResult :=
  match d with
  | DraftReused r => mret r
  | DraftFresh ad req r =>
      if inTx then fail (OPay PayInternal)
      else
        let cancel := _ ← attempt (order_tx false (on_pay (CancelPlaceholderIntent (ir_IntentID r)))); fail (OPay PayUnavailable) in
        match CreatePayment ad req with
        | Err _ => cancel
        | Ok resp =>
            if badResp resp then cancel
            else
              let ref := if String.eqb (cs_ProviderRef resp) "" then None else Some (cs_ProviderRef resp) in
              filled ← order_tx false (on_pay (FillPlaceholderIntent (ir_IntentID r) (cs_HTTPMethod resp) (cs_RedirectURL resp)
                         (cs_FormFields resp) ref));
              if filled : bool then
                mret (mkIntentResult (ir_IntentID r) (ir_OutTradeNo r) (cs_HTTPMethod resp) (cs_RedirectURL resp) (cs_FormFields resp)
                        (ir_Amount r) (ir_Surcharge r) (ir_ExpiresAt r) false)
              else
                _ ← (match ref with
                     | Some x => attempt (order_tx false (on_pay (SetIntentProviderRef (ir_IntentID r) x)))
                     | None => mret ()
                     end);
                fail (OPay ErrIntentSuperseded)
        end
  end.

(** * The order's side (order/service/payops.go) *)

Definition topupItemName := "余额充值".
Definition payTitle (o : order_row) : WM string :=
  l ← ItemsByOrder (od_ID o);
  mret (match l with i :: _ => if String.eqb (li_Name i) "" then topupItemName else li_Name i | [] => topupItemName end).

Record PayInput := mkPayInput { py_OrderID : uuid; py_Provider : string; py_Method : string; py_ReturnURL : string; py_ClientIP : string }.
Definition rejectNUL (field s : string) : result oerr () := reject (ContainsNUL s) (OInvalid field).

(** [Pay] up to the commit; [now] and [db] are the payment module's clock and
    the database's. *)
Definition PayBegin (ch : Channels) (inTx : bool) (who : option Principal) (k : Call) (now db : Time) (i : PayInput) : WM IntentDraft :=
  p ← lift (order_principal who);
  _ ← lift (rejectNUL "provider" (py_Provider i));
  _ ← lift (rejectNUL "method" (py_Method i));
  _ ← lift (rejectNUL "return_url" (py_ReturnURL i));
  order_tx inTx (
    o ← OrderForUser (py_OrderID i) (pr_UserID p);
    match o with
    | None => fail OErrNotFound
    | Some o =>
        if negb (String.eqb (od_Status o) StatusPending) then fail OErrNotPayable
        else if negb (IsPositive (od_Payable o)) then fail OErrNoExternalPayment
        else if negb (k_now k <? od_ExpiresAt o) then fail OErrPaymentLapsed
        else
          _ ← (if planOrder (od_Kind o) then
                 it ← onlyItem o;
                 archived ← lift (planArchivedFor wired it);
                 if archived : bool then fail OErrPlanRetired else mret ()
               else mret ());
          title ← payTitle o;
          BeginIntent ch true now db (mkIntentInput (od_ID o) (od_No o) (od_UserID o) (od_Payable o) (py_Provider i) (py_Method i)
            title (py_ReturnURL i) (py_ClientIP i) (Some (od_ExpiresAt o)))
    end).
Definition Pay (ch : Channels) (inTx : bool) (who : option Principal) (k : Call) (now db : Time) (i : PayInput) : WM IntentResult :=
  d ← PayBegin ch inTx who k now db i;
  CompleteIntent inTx d.

Record MarkPaidInput := mkMarkPaid { mp_OrderID : uuid; mp_Reference : string; mp_Reason : string }.
Record MarkPaidResult := mkMarkPaidResult {
  mr_Processed : bool; mr_AlreadyHandled : bool; mr_PaymentID : option uuid; mr_SubscriptionID : option uuid; mr_Txn : option uuid }.
Definition nonNil (id : uuid) : option uuid := if (id =? uuid_Nil)%N then None else Some id.
Definition MarkPaid (ch : Channels) (inTx : bool) (who : option Principal) (k : Call) (i : MarkPaidInput) : WM MarkPaidResult :=
  _ ← lift (adminPrincipal who);
  reason ← lift (checkReason (mp_Reason i));
  let reference := TrimSpace (mp_Reference i) in
  order_tx inTx (
    o ← OrderByID (mp_OrderID i);
    match o with
    | None => fail OErrNotFound
    | Some o =>
        if negb (String.eqb (od_Status o) StatusPending) then fail OErrConflict
        else if negb (IsPositive (od_Payable o)) then fail OErrMarkPaidZero
        else
          rec ← RecordOffline ch true who k (mkOffline (od_ID o) (od_No o) (od_UserID o) (od_Payable o) reference reason);
          after ← reload (od_ID o);
          _ ← order_audit "order.marked_paid" (od_ID o);
          mret (mkMarkPaidResult (rr_Processed rec) (rr_AlreadyHandled rec) (nonNil (rr_PaymentID rec)) (od_SubscriptionID after)
                  (nonNil (rr_Txn rec)))
    end).
(** * The least a customer can pay online (providers.go) *)

Definition MinAcceptingAmount (rows : list providerRecord) : option dec :=
  foldl (λ acc p, match acc with Some m => if LessThan (pr_MinAmount p) m then Some (pr_MinAmount p) else acc | None => Some (pr_MinAmount p) end)
    None (List.filter (λ p, pr_Enabled p && pr_AcceptingNew p && negb (String.eqb (pr_Adapter p) AdapterOffline)) rows).
Definition MinPayment (ch : Channels) : dec := default dec_zero (MinAcceptingAmount (ch_Rows ch)).
End PayFlow.
