(* ===== verification/PayInv.v ===== *)
(** The order flow leaves the account late payments wait on and the tables of
    intents, payments, events and cases alone: the instance of [Frame] the
    payment module uses.

    The invariant of the payment tables beside the orders [O] and the balance
    [s] of the account late payments wait on.  Every payment is one of a kind,
    is for exactly what its order has due, and either settled that order or is
    a case; the account holds exactly the open cases. *)
From Stdlib Require Import ZArith QArith Lqa Lia Sorting.Permutation.
From stdpp Require Import base tactics list gmap strings sorting relations.
From S2P Require Import Prelude Safety Decimal GoString Money LedgerTypes LedgerFacts Ledger LedgerInv LedgerOps GoTime Promo PromoThms Period.
From S2P Require Import OrderAmounts Proration SubTypes SubStore Subscription OrderStore OrderFlow OrderInv OrderLife Frame PayStore PayFlow.
#[local] Open Scope string_scope.
#[local] Open Scope Z_scope.

(** * The ledger *)

Section Still.
Context `{DL : DecimalLib}.

Definition suspense_ref : AccountRef := PlatformAccount LatePaymentSuspense RefMain.
Definition suspense_key : AccountKey := keyOf suspense_ref.
Lemma suspense_key_check : account_check suspense_key = true.
Proof. reflexivity. Qed.
Lemma refOf_suspense : refOf suspense_key = suspense_ref.
Proof. reflexivity. Qed.

Definition still (l l' : ledger) : Prop := (bal l' suspense_key == bal l suspense_key)%Q.
#[global] Instance still_preorder : PreOrder still.
Proof. split; [by intros l|]. intros a b c H1 H2. unfold still in *. by rewrite H2. Qed.

Definition late_type (t : string) : Prop := t = LatePaymentSuspense.
#[global] Instance late_aside : Aside late_type.
Proof. intros t ->. by constructor. Qed.
Lemma steady_still l l' : steady late_type l l' → still l l'.
Proof. intros H. by apply H. Qed.
(** Legs of other account types. *)
Abbreviation spares := (avoids late_type).

Lemma Post_calm c p : spares (p_Legs p) → Forall (λ x, ref_Type (leg_Account x) ≠ UserBalanceHold) (p_Legs p) →
  keeps (E := lerr) good still (Post c p).
Proof. intros Hs Hh l id l' Hg H. destruct (Post_steady late_type c p Hs Hh l id l' Hg H). by auto using steady_still. Qed.
Lemma ReleaseOrderHold_calm c id memo : keeps (E := lerr) good still (ReleaseOrderHold c id memo).
Proof. intros l b l' Hg H. destruct (ReleaseOrderHold_steady late_type c id memo l b l' Hg H). by auto using steady_still. Qed.

Section Adjust.
Context (audit_Write : audit_event → result lerr ()) (IsDeleted : uuid → result lerr bool).
Lemma AdjustBalance_still c a l r l' : ledger_ok l → AdjustBalance audit_Write IsDeleted c a l = (Ok r, l') → still l l'.
Proof. intros Hok H. apply steady_still. by eapply (AdjustBalance_steady late_type). Qed.
End Adjust.
End Still.
Abbreviation spares := (avoids late_type).

(** * The order flow *)

Section Calm.
Context `{DL : DecimalLib} {Y : Type} (W : OrderEnv (pay * Y)).
Abbreviation X := (pay * Y)%type.
Abbreviation WM := (M (world X) oerr).

Definition lgood (w : world X) : Prop := good (w_ledger w).
Definition calmly (w w' : world X) : Prop := still (w_ledger w) (w_ledger w') ∧ (w_ext w').1 = (w_ext w).1.
#[global] Instance calmly_preorder : PreOrder calmly.
Proof. split; [by intros w|]. intros a b c [H1 E1] [H2 E2]. split; [by etrans|congruence]. Qed.
Abbreviation calm := (keeps (E := oerr) lgood calmly).

(** [calm] is the frame of [Frame] with this invariant and relation. *)
Definition calm_I (s : ledger * X) : Prop := good s.1.
Definition calm_R (s s' : ledger * X) : Prop := still s.1 s'.1 ∧ s'.2.1 = s.2.1.
#[global] Instance calm_R_preorder : PreOrder calm_R.
Proof. split; [by intros s|]. intros a b c [H1 E1] [H2 E2]. split; [by etrans|congruence]. Qed.
Lemma calm_frames : frames late_type calm_I calm_R.
Proof. split; [done|]. intros l l' x Hg Hg' Hs. split; [done|]. split; [by apply steady_still|done]. Qed.

Lemma calm_ledger {A} (m : M ledger lerr A) : keeps (E := lerr) good still m → calm (on_ledger m).
Proof. intros Hm w a w' Hg (l & H & ->)%zoom_Ok. by destruct (Hm _ _ _ Hg H). Qed.
Lemma calm_promo {A} (m : M promo perr A) : calm (on_promo m).
Proof. exact (part_promo calm_I calm_R m). Qed.
Lemma UpdateOrder_calm id from paid cols : calm (UpdateOrder W id from paid cols).
Proof. exact (UpdateOrder_part W calm_I calm_R id from paid cols). Qed.
Lemma UpdateReservation_calm id from to at_ reason : calm (UpdateReservation id from to at_ reason).
Proof. exact (UpdateReservation_part calm_I calm_R id from to at_ reason). Qed.
Lemma InsertReservationEvent_calm e : calm (InsertReservationEvent W e).
Proof. exact (InsertReservationEvent_part W calm_I calm_R e). Qed.
Lemma order_audit_calm a id : calm (order_audit a id).
Proof. exact (order_audit_part calm_I calm_R a id). Qed.
Lemma place_calm who k d : calm (place W who k d).
Proof. exact (place_part W late_type calm_I calm_R calm_frames who k d). Qed.

Hypothesis hook_calm : ∀ hook c, OnOrderPaid W = Some hook → keeps (E := oerr) calm_I calm_R (hook c).
Lemma SettlePayment_calm who k i : calm (SettlePayment W who k i).
Proof. exact (SettlePayment_part W late_type calm_I calm_R calm_frames hook_calm who k i). Qed.
End Calm.

Section PayInv.
Context `{DL : DecimalLib}.
Abbreviation book_of := (gmap uuid order_row).

(** * Intents *)

(** What an intent keeps, and the moves of its status. *)
Definition intent_terms (i : intent_row) :=
  (it_ID i, it_OrderID i, it_OrderNo i, it_UserID i, it_ProviderID i, it_OutTradeNo i, it_Method i, (it_Amount i, it_Surcharge i),
   it_ExpiresAt i, it_CreatedAt i).
Definition intent_life (i i' : intent_row) : Prop :=
  intent_terms i' = intent_terms i ∧ (it_Status i' = it_Status i ∨ CanTransition (it_Status i) (it_Status i') = true).
#[global] Instance intent_life_preorder : PreOrder intent_life.
Proof.
  split; [intros i; split; [done|by left]|]. intros a b c [T1 S1] [T2 S2]. split; [congruence|].
  destruct S1 as [E1|C1], S2 as [E2|C2].
  - left. congruence.
  - right. by rewrite <- E1.
  - right. by rewrite E2.
  - exfalso. revert C2. unfold CanTransition, intentTransitions in C1 |- *. destruct (String.eqb (it_Status a) _) eqn:E; [|done].
    simpl in C1. destruct (String.eqb_spec (it_Status b) IntentRequiresAction) as [E'|]; [|done]. by rewrite E' in C1.
Qed.
Definition intents_life (l l' : list intent_row) : Prop := ∀ n i, l !! n = Some i → ∃ i', l' !! n = Some i' ∧ intent_life i i'.
#[global] Instance intents_life_preorder : PreOrder intents_life.
Proof.
  split; [intros l n i Hi; by exists i|]. intros a b c H1 H2 n i Hi. destruct (H1 _ _ Hi) as (x & Hx & L1).
  destruct (H2 _ _ Hx) as (y & Hy & L2). exists y. split; [done|by etrans].
Qed.

Definition intent_good (O : book_of) (i : intent_row) : Prop :=
  intent_check i = true ∧ ∃ o, O !! it_OrderID i = Some o ∧ it_UserID i = od_UserID o ∧
    (val (it_Amount i) - val (it_Surcharge i) == val (od_Payable o))%Q ∧ (is_active i = true → od_Status o = StatusPending).
Record intents_ok (O : book_of) (n : uuid) (l : list intent_row) : Prop := {
  ik_good : ∀ i, i ∈ l → intent_good O i;
  ik_ids : NoDup (map it_ID l);
  ik_fresh : ∀ i, i ∈ l → (it_ID i < n)%N;
  ik_unique : intents_unique l = true;
}.

(** Orders only gain rows and keep their terms. *)
Definition extends (O O' : book_of) : Prop := ∀ id o, O !! id = Some o → ∃ o', O' !! id = Some o' ∧ terms o' = terms o.
Lemma terms_facts o o' : terms o' = terms o → od_UserID o' = od_UserID o ∧ od_Payable o' = od_Payable o ∧ od_No o' = od_No o ∧ od_ID o' = od_ID o.
Proof. by intros [=]. Qed.

Lemma life_terms o x : rtc life (Some o) x → ∃ o', x = Some o' ∧ terms o' = terms o.
Proof.
  intros H. remember (Some o) as y eqn:Ey. revert o Ey. induction H as [y|y z x Hs _ IH]; intros o ->; [by exists o|].
  inversion Hs as [| |? o' _ _ Et|? o' _ _ Et]; subst; destruct (IH o' eq_refl) as (o2 & -> & E2); exists o2; split; congruence.
Qed.

Lemma intents_ok_evolve O O' n n' l l' : intents_ok O n l → extends O O' → Forall2 intent_life l l' → intents_unique l' = true →
  (∀ i, i ∈ l' → intent_check i = true) →
  (∀ i, i ∈ l' → is_active i = true → ∀ o, O' !! it_OrderID i = Some o → od_Status o = StatusPending) → (n ≤ n')%N → intents_ok O' n' l'.
Proof.
  intros [H1 H2 H3 H4] HO HF Hu Hc Ha Hn.
  assert (Em : map it_ID l' = map it_ID l).
  { induction HF as [|i i' l l' [T _] _ IH]; [done|]. simpl. injection T as -> _. f_equal. apply IH.
    - intros j Hj. apply H1. by constructor.
    - by apply NoDup_cons in H2 as [_ ?].
    - intros j Hj. apply H3. by constructor.
    - clear -H4. unfold intents_unique in *. apply andb_true_iff in H4 as [A B]. apply bool_decide_eq_true in A, B.
      apply andb_true_iff. split; apply bool_decide_eq_true; [by apply NoDup_cons in A as [_ ?]|].
      unfold active_orders in *. simpl in B. destruct (is_active i); [|done]. by apply NoDup_cons in B as [_ ?].
    - clear -Hu. unfold intents_unique in *. apply andb_true_iff in Hu as [A B]. apply bool_decide_eq_true in A, B.
      apply andb_true_iff. split; apply bool_decide_eq_true; [by apply NoDup_cons in A as [_ ?]|].
      unfold active_orders in *. simpl in B. destruct (is_active i'); [|done]. by apply NoDup_cons in B as [_ ?].
    - intros j Hj. apply Hc. by constructor.
    - intros j Hj. apply Ha. by constructor. }
  assert (Hback : ∀ i', i' ∈ l' → ∃ i, i ∈ l ∧ intent_life i i').
  { intros i' Hi'. apply list_elem_of_lookup in Hi' as (k & Hk). destruct (Forall2_lookup_r _ _ _ _ _ HF Hk) as (i & Hi & L).
    exists i. split; [by eapply list_elem_of_lookup_2|done]. }
  split.
  - intros i' Hi'. split; [by apply Hc|]. destruct (Hback _ Hi') as (i & Hi & T & _). destruct (H1 _ Hi) as (_ & o & Ho & Eu & Ep & _).
    destruct (HO _ _ Ho) as (o' & Ho' & Et). destruct (terms_facts _ _ Et) as (F1 & F2 & _).
    injection T as _ T2 _ T4 _ _ _ T8 T9 _ _. exists o'. rewrite T2, T4, T8, T9, F1, F2. split_and!; try done.
    intros Hact. apply (Ha _ Hi' Hact). by rewrite T2.
  - by rewrite Em.
  - intros i' Hi'. destruct (Hback _ Hi') as (i & Hi & T & _). injection T as -> _. pose proof (H3 _ Hi). lia.
  - done.
Qed.

(** An update of some rows. *)
Lemma upd_life hit f l : (∀ i, hit i = true → intent_life i (f i)) → Forall2 intent_life l (upd hit f l).
Proof. intros Hf. induction l as [|i l IH]; simpl; [constructor|]. constructor; [|done]. destruct (hit i) eqn:E; [by apply Hf|done]. Qed.
Lemma Forall2_life l l' : Forall2 intent_life l l' → intents_life l l'.
Proof. intros H n i Hi. by destruct (Forall2_lookup_l _ _ _ _ _ H Hi) as (i' & ? & ?); exists i'. Qed.
(** * Payments *)

Definition payment_good (O : book_of) (x : payment_row) : Prop :=
  payment_check x = true ∧ ∃ o, O !! pm_OrderID x = Some o ∧ pm_UserID x = od_UserID o ∧
    (val (pm_Amount x) - val (pm_Surcharge x) == val (od_Payable o))%Q.
Record payments_ok (O : book_of) (n : uuid) (l : list payment_row) : Prop := {
  mk_good : ∀ x, x ∈ l → payment_good O x;
  mk_ids : NoDup (map pm_ID l);
  mk_fresh : ∀ x, x ∈ l → (pm_ID x < n)%N;
  mk_keys : NoDup (map payment_key l);
}.
Lemma payments_ok_extends O O' n n' l : payments_ok O n l → extends O O' → (n ≤ n')%N → payments_ok O' n' l.
Proof.
  intros [H1 H2 H3 H4] HO Hn. split; [|done| |done].
  - intros x Hx. destruct (H1 _ Hx) as (Hc & o & Ho & Eu & Ep). destruct (HO _ _ Ho) as (o' & Ho' & Et).
    destruct (terms_facts _ _ Et) as (F1 & F2 & _). split; [done|]. exists o'. by rewrite F1, F2.
  - intros x Hx. pose proof (H3 _ Hx). lia.
Qed.
Lemma payments_ok_add O n l x : payments_ok O n l → payment_good O x → pm_ID x = n → payment_key x ∉ map payment_key l →
  payments_ok O (N.succ n) (l ++ [x]).
Proof.
  intros [H1 H2 H3 H4] Hx En Hk. split.
  - intros y [Hy| ->%list_elem_of_singleton]%elem_of_app; auto.
  - rewrite map_app. apply NoDup_app. split_and!; [done| |apply NoDup_singleton]. simpl.
    intros id (y & -> & Hy)%list_elem_of_fmap Hin%list_elem_of_singleton. pose proof (H3 _ Hy). lia.
  - intros y [Hy| ->%list_elem_of_singleton]%elem_of_app; [pose proof (H3 _ Hy)|]; lia.
  - rewrite map_app. apply NoDup_app. split_and!; [done| |apply NoDup_singleton]. simpl.
    intros k Hy ->%list_elem_of_singleton. done.
Qed.

(** * Cases *)

Definition case_good (l : list payment_row) (c : case_row) : Prop :=
  case_check c = true ∧ ∃ x, x ∈ l ∧ pm_ID x = lc_PaymentID c ∧ pm_OrderID x = lc_OrderID c ∧
    pm_UserID x = lc_UserID c ∧ (val (lc_Amount c) == val (pm_Amount x) - val (pm_Surcharge x))%Q.
Definition open_part (c : case_row) : Q := if in_suspense c then val (lc_Amount c) else 0.
Definition open_sum (l : list case_row) : Q := Qsum (map open_part l).
Record cases_ok (P : list payment_row) (s : Q) (n : uuid) (l : list case_row) : Prop := {
  sk_good : ∀ c, c ∈ l → case_good P c;
  sk_ids : NoDup (map lc_ID l);
  sk_fresh : ∀ c, c ∈ l → (lc_ID c < n)%N;
  sk_pay : NoDup (map lc_PaymentID l);
  sk_sum : (s == open_sum l)%Q;
}.
Lemma cases_ok_mono P P' s s' n n' l : cases_ok P s n l → (∀ x, x ∈ P → x ∈ P') → (s' == s)%Q → (n ≤ n')%N → cases_ok P' s' n' l.
Proof.
  intros [H1 H2 H3 H4 H5] HP Hs Hn. split; [|done| |done|by rewrite Hs].
  - intros c Hc. destruct (H1 _ Hc) as (Hst & x & Hx & ?). split; [done|]. exists x. auto.
  - intros c Hc. pose proof (H3 _ Hc). lia.
Qed.
Lemma open_sum_app l c : (open_sum (l ++ [c]) == open_sum l + open_part c)%Q.
Proof. unfold open_sum. rewrite map_app, Qsum_app. simpl. lra. Qed.
Lemma cases_ok_add P s s' n l c : cases_ok P s n l → case_good P c → lc_ID c = n → lc_PaymentID c ∉ map lc_PaymentID l →
  (s' == s + open_part c)%Q → cases_ok P s' (N.succ n) (l ++ [c]).
Proof.
  intros [H1 H2 H3 H4 H5] Hc En Hp Hs. split.
  - intros y [Hy| ->%list_elem_of_singleton]%elem_of_app; auto.
  - rewrite map_app. apply NoDup_app. split_and!; [done| |apply NoDup_singleton]. simpl.
    intros id (y & -> & Hy)%list_elem_of_fmap Hin%list_elem_of_singleton. pose proof (H3 _ Hy). lia.
  - intros y [Hy| ->%list_elem_of_singleton]%elem_of_app; [pose proof (H3 _ Hy)|]; lia.
  - rewrite map_app. apply NoDup_app. split_and!; [done| |apply NoDup_singleton]. simpl. intros k Hy ->%list_elem_of_singleton. done.
  - rewrite open_sum_app, Hs, H5. reflexivity.
Qed.

(** A case in suspense, applied. *)
Lemma case_hit_true id c : case_hit id c = true → lc_ID c = id ∧ in_suspense c = true.
Proof. unfold case_hit. intros [H1%N.eqb_eq H2]%andb_true_iff. done. Qed.
Lemma open_sum_applied id txn reason now l : NoDup (map lc_ID l) →
  (∀ c, c ∈ l → case_hit id c = true →
     (open_sum (upd (case_hit id) (applied_case txn reason now) l) == open_sum l - val (lc_Amount c))%Q).
Proof.
  induction l as [|c l IH]; intros Hn x Hx Hh; [by apply elem_of_nil in Hx|]. simpl in Hn. apply NoDup_cons in Hn as [Hnin Hn].
  unfold open_sum in *. simpl. destruct (case_hit id c) eqn:Ec.
  - assert (x = c) as ->.
    { apply elem_of_cons in Hx as [->|Hx]; [done|]. exfalso. apply Hnin.
      destruct (case_hit_true _ _ Ec) as [-> _], (case_hit_true _ _ Hh) as [<- _]. by apply list_elem_of_fmap_2. }
    assert (E : upd (case_hit id) (applied_case txn reason now) l = l).
    { clear IH Hx. unfold upd. transitivity (map (λ c, c) l); [|by rewrite map_id]. apply map_ext_in. intros y Hy.
      destruct (case_hit id y) eqn:Ey; [|done]. exfalso. apply Hnin.
      destruct (case_hit_true _ _ Ec) as [-> _], (case_hit_true _ _ Ey) as [<- _]. apply list_elem_of_fmap_2. by apply list_elem_of_In. }
    rewrite E. assert (open_part (applied_case txn reason now c) = 0%Q) as -> by reflexivity.
    unfold open_part at 2. rewrite (proj2 (case_hit_true _ _ Ec)). lra.
  - apply elem_of_cons in Hx as [->|Hx]; [congruence|]. rewrite (IH Hn x Hx Hh). lra.
Qed.
Lemma cases_ok_apply P s s' n n' l id txn reason now c : cases_ok P s n l → c ∈ l → case_hit id c = true →
  (∀ x, x ∈ l → case_hit id x = true → case_check (applied_case txn reason now x) = true) →
  (s' == s - val (lc_Amount c))%Q → (n ≤ n')%N → cases_ok P s' n' (upd (case_hit id) (applied_case txn reason now) l).
Proof.
  intros [H1 H2 H3 H4 H5] Hc Hh Hck Hs Hn. set (g := λ x, if case_hit id x then applied_case txn reason now x else x).
  assert (E1 : ∀ x, lc_ID (g x) = lc_ID x ∧ lc_PaymentID (g x) = lc_PaymentID x).
  { intros x. unfold g. by destruct (case_hit id x). }
  split.
  - intros y (x & Hx & ->)%upd_in. destruct (H1 _ Hx) as (Hst & z & Hz). destruct (case_hit id x) eqn:Ex; [|by split; [|exists z]].
    split; [by apply Hck|]. by exists z.
  - unfold upd. rewrite map_map. fold g. rewrite (map_ext _ lc_ID); [done|]. intros x. apply E1.
  - intros y (x & Hx & ->)%upd_in. fold (g x). rewrite (proj1 (E1 x)). pose proof (H3 _ Hx). lia.
  - unfold upd. rewrite map_map. fold g. rewrite (map_ext _ lc_PaymentID); [done|]. intros x. apply E1.
  - by rewrite (open_sum_applied _ _ _ _ _ H2 c Hc Hh), Hs, H5.
Qed.

(** * Events *)

(** No event is left pending, but the one being handled. *)
Record events_ok (pend : option uuid) (n : uuid) (l : list event_row) : Prop := {
  vk_ids : NoDup (map pv_ID l);
  vk_fresh : ∀ e, e ∈ l → (pv_ID e < n)%N;
  vk_keys : NoDup (map event_key l);
  vk_done : ∀ e, e ∈ l → pv_Status e = eventPending → pend = Some (pv_ID e);
  vk_check : ∀ e, e ∈ l → event_check e = true;
}.
Lemma events_ok_mono pend n n' l : events_ok pend n l → (n ≤ n')%N → events_ok pend n' l.
Proof. intros [H1 H2 H3 H4 H5] Hn. split; try done. intros e He. pose proof (H2 _ He). lia. Qed.
Lemma events_ok_add n n' l e : events_ok None n l → pv_ID e = n → (n < n')%N → event_key e ∉ map event_key l →
  event_check e = true → events_ok (Some n) n' (l ++ [e]).
Proof.
  intros [H1 H2 H3 H4 H5] En Hn Hk Hck. split.
  - rewrite map_app. apply NoDup_app. split_and!; [done| |apply NoDup_singleton]. simpl.
    intros id (y & -> & Hy)%list_elem_of_fmap Hin%list_elem_of_singleton. pose proof (H2 _ Hy). lia.
  - intros y [Hy| ->%list_elem_of_singleton]%elem_of_app; [pose proof (H2 _ Hy)|]; lia.
  - rewrite map_app. apply NoDup_app. split_and!; [done| |apply NoDup_singleton]. simpl. intros k Hy ->%list_elem_of_singleton. done.
  - intros y [Hy| ->%list_elem_of_singleton]%elem_of_app Hp; [by specialize (H4 _ Hy Hp)|by rewrite En].
  - intros y [Hy| ->%list_elem_of_singleton]%elem_of_app; auto.
Qed.
Definition finish_hit (id : uuid) (e : event_row) : bool := (pv_ID e =? id)%N && String.eqb (pv_Status e) eventPending.
Lemma events_ok_finish id n l status msg now : events_ok (Some id) n l → status ≠ eventPending →
  (∀ e, e ∈ l → finish_hit id e = true → event_check (finished status msg now e) = true) →
  events_ok None n (upd (finish_hit id) (finished status msg now) l).
Proof.
  intros [H1 H2 H3 H4 H5] Hs Hck. set (g := λ e, if finish_hit id e then finished status msg now e else e).
  assert (E : ∀ e, pv_ID (g e) = pv_ID e ∧ event_key (g e) = event_key e) by (intros e; unfold g; by destruct (finish_hit id e)).
  split.
  - unfold upd. rewrite map_map. fold g. rewrite (map_ext _ pv_ID); [done|]. intros x. apply E.
  - intros y (x & Hx & ->)%upd_in. fold (g x). rewrite (proj1 (E x)). by apply H2.
  - unfold upd. rewrite map_map. fold g. rewrite (map_ext _ event_key); [done|]. intros x. apply E.
  - intros y (x & Hx & ->)%upd_in Hp. exfalso. destruct (finish_hit id x) eqn:Ex; [done|]. specialize (H4 _ Hx Hp). injection H4 as ->.
    unfold finish_hit in Ex. rewrite N.eqb_refl, Hp in Ex. done.
  - intros y (x & Hx & ->)%upd_in. destruct (finish_hit id x) eqn:Ex; auto.
Qed.

(** * Payments and orders *)

(** The payments that settled an order: those without a case. *)
Definition settling_of (P : list payment_row) (C : list case_row) (id : uuid) : list payment_row :=
  List.filter (λ x, (pm_OrderID x =? id)%N && negb (existsb (λ c, (lc_PaymentID c =? pm_ID x)%N) C)) P.
Definition settling (p : pay) (id : uuid) : list payment_row :=
  List.filter (λ x, (pm_OrderID x =? id)%N && negb (has_case p x)) (payments p).
(** How many an order must have. *)
Definition settlements (O : book_of) (id : uuid) : nat :=
  match O !! id with
  | Some o => if String.eqb (od_Status o) StatusFulfilled && IsPositive (od_Payable o) then 1%nat else 0%nat
  | None => 0%nat
  end.
Definition settled_once (O : book_of) (P : list payment_row) (C : list case_row) : Prop :=
  ∀ id, length (settling_of P C id) = settlements O id.

Lemma settled_once_orders O O' P C : settled_once O P C → (∀ id, settlements O' id = settlements O id) → settled_once O' P C.
Proof. intros H HO id. by rewrite HO. Qed.
Lemma settled_once_settle O O' P C x : settled_once O P C → pm_ID x ∉ map lc_PaymentID C →
  settlements O (pm_OrderID x) = 0%nat → settlements O' (pm_OrderID x) = 1%nat →
  (∀ id, id ≠ pm_OrderID x → settlements O' id = settlements O id) → settled_once O' (P ++ [x]) C.
Proof.
  intros H Hx H0 H1 HO id. unfold settling_of. rewrite List.filter_app, length_app. fold (settling_of P C id). rewrite (H id). simpl.
  assert (E : existsb (λ c, (lc_PaymentID c =? pm_ID x)%N) C = false).
  { apply existsb_false. intros c Hc. apply N.eqb_neq. intros Ec. apply Hx. rewrite <- Ec. by apply list_elem_of_fmap_2. }
  rewrite E. destruct (N.eqb_spec (pm_OrderID x) id) as [<-|Hne]; simpl; [lia|]. rewrite HO by done. lia.
Qed.
Lemma settled_once_case O P C x c : settled_once O P C → lc_PaymentID c = pm_ID x → pm_ID x ∉ map pm_ID P →
  settled_once O (P ++ [x]) (C ++ [c]).
Proof.
  intros H Hc Hx id. rewrite <- (H id). unfold settling_of. rewrite List.filter_app. simpl. rewrite existsb_app. simpl.
  rewrite Hc, N.eqb_refl, orb_true_r, andb_false_r, app_nil_r. f_equal. apply List.filter_ext_in. intros y Hy%list_elem_of_In.
  rewrite existsb_app. simpl. rewrite Hc, orb_false_r. destruct (N.eqb_spec (pm_ID x) (pm_ID y)) as [E|E]; [|by rewrite orb_false_r].
  exfalso. apply Hx. rewrite E. by apply list_elem_of_fmap_2.
Qed.
Lemma settled_once_apply O P C id txn reason now : settled_once O P C →
  settled_once O P (upd (case_hit id) (applied_case txn reason now) C).
Proof.
  intros H j. rewrite <- (H j). unfold settling_of. f_equal. apply List.filter_ext. intros y. f_equal. f_equal.
  unfold upd. clear H. induction C as [|c C IH]; [done|]. simpl. rewrite IH. by destruct (case_hit id c).
Qed.

(** * Together *)

(** [K] is what holds between payments and cases; at rest it is [settled_once]. *)
Record pay_ok (K : list payment_row → list case_row → Prop) (pend : option uuid) (O : book_of) (s : Q) (p : pay) : Prop := {
  yk_intents : intents_ok O (pay_next p) (intents p);
  yk_payments : payments_ok O (pay_next p) (payments p);
  yk_cases : cases_ok (payments p) s (pay_next p) (cases p);
  yk_events : events_ok pend (pay_next p) (pay_events p);
  yk_once : K (payments p) (cases p);
}.

Lemma pay_ok_susp K pend O s s' p : pay_ok K pend O s p → (s' == s)%Q → pay_ok K pend O s' p.
Proof. intros [] Hs. split; try done. by eapply cases_ok_mono; [| |exact Hs|]. Qed.
Lemma pay_ok_impl (K K' : list payment_row → list case_row → Prop) pend O s p : pay_ok K pend O s p →
  (K (payments p) (cases p) → K' (payments p) (cases p)) → pay_ok K' pend O s p.
Proof. intros [] HK. split; auto. Qed.
End PayInv.
