(* ===== verification/PayOps.v ===== *)
(** The payment statements and the steps built on them: what each leaves in the
    tables when it succeeds, and that it keeps the invariant.

    The order and payment tables together.  Every operation on them keeps
    [shop_ok], the invariants of both, and moves the rows of both along their
    life cycles: [shop_lives]. *)
From Stdlib Require Import ZArith QArith Lqa Lia Sorting.Permutation.
From stdpp Require Import base tactics list gmap strings sorting relations.
From S2P Require Import Prelude Safety Decimal GoString Money LedgerTypes LedgerFacts Ledger LedgerInv LedgerOps GoTime Promo PromoThms Period.
From S2P Require Import OrderAmounts Proration SubTypes SubStore SubFacts Subscription OrderStore OrderFlow OrderInv OrderLife OrderHistory.
From S2P Require Import PayStore PayFlow PayInv.
#[local] Open Scope string_scope.
#[local] Open Scope Z_scope.

(** * Statements *)

Section Statements.
Context `{DL : DecimalLib}.
Abbreviation PM := (M pay oerr).

Lemma update_intents_Ok hit f p n p' : update_intents hit f p = (Ok n, p') →
  p' = set_intents (upd hit f) p ∧ intents_unique (upd hit f (intents p)) = true ∧
  (∀ i, i ∈ intents p → hit i = true → intent_check (f i) = true) ∧ n = hits hit (intents p).
Proof.
  unfold update_intents. destruct (negb (forallb _ _)); [done|]. destruct (forallb _ _) eqn:Ec; [|done]. simpl.
  destruct (intents_unique _) eqn:Eu; [|done]. simpl. intros [= <- <-]. split_and!; try done. intros i Hi Hh.
  rewrite forallb_forall in Ec. apply list_elem_of_In in Hi. specialize (Ec _ Hi). by rewrite Hh in Ec.
Qed.
Lemma one_row_Ok (m : PM Z) p b p' : one_row m p = (Ok b, p') → ∃ n, m p = (Ok n, p') ∧ b = (n =? 1).
Proof. unfold one_row. intros (n & p1 & H & [= <- <-])%bind_Ok. eauto. Qed.

Lemma with_state_life st i : CanTransition (it_Status i) st = true → intent_life i (with_state st i).
Proof. intros H. split; [done|]. by right. Qed.
Lemma life_active i i' : intent_life i i' → is_active i' = true → is_active i = true.
Proof.
  unfold is_active. intros [_ [-> |H]]; [done|]. intros E%String.eqb_eq. rewrite E in H. unfold CanTransition, intentTransitions in H.
  by destruct (String.eqb (it_Status i) IntentRequiresAction).
Qed.

(** A change of intents that respects their life keeps the invariant. *)
Lemma update_intents_keeps K pend O s hit f p n p' : pay_ok K pend O s p → (∀ i, hit i = true → intent_life i (f i)) →
  update_intents hit f p = (Ok n, p') → pay_ok K pend O s p' ∧ intents_life (intents p) (intents p') ∧ (∃ g, p' = set_intents g p).
Proof.
  intros [H1 H2 H3 H4 H5] Hf (-> & Hu & Hc & _)%update_intents_Ok. pose proof (upd_life hit f (intents p) Hf) as HF.
  split_and!; [|by apply Forall2_life|by eexists]. split; try done. simpl. eapply intents_ok_evolve; [exact H1| |exact HF|exact Hu| | |lia].
  - intros id o Ho. by exists o.
  - intros i (j & Hj & ->)%upd_in. destruct (hit j) eqn:Ej; [by apply Hc|]. by apply (ik_good _ _ _ H1).
  - intros i Hi Hact o Ho. destruct (proj1 (upd_in hit f _ i) Hi) as (j & Hj & E).
    assert (L : intent_life j i) by (rewrite E; destruct (hit j) eqn:Ej; [by apply Hf|done]).
    destruct (ik_good _ _ _ H1 _ Hj) as (_ & o2 & Ho2 & _ & _ & Ha). destruct L as [T S] eqn:EL. injection T as _ T2 _ _ _ _ _ _ _ _ _.
    rewrite T2, Ho2 in Ho. injection Ho as <-. apply Ha. by eapply life_active.
Qed.

Lemma SetIntentStatus_keeps K pend O s id to p b p' : pay_ok K pend O s p → CanTransition IntentRequiresAction to = true →
  SetIntentStatus id IntentRequiresAction to p = (Ok b, p') → pay_ok K pend O s p' ∧ intents_life (intents p) (intents p') ∧ (∃ g, p' = set_intents g p).
Proof.
  intros Hp Ht (n & H & _)%one_row_Ok. eapply update_intents_keeps; [done| |exact H]. intros i [_ E%String.eqb_eq]%andb_true_iff.
  apply with_state_life. by rewrite E.
Qed.

(** Closing the intents of an order: none of them is in progress after. *)
Lemma CloseIntents_keeps K pend O s id except to p n p' : pay_ok K pend O s p → CanTransition IntentRequiresAction to = true →
  CloseIntents id except IntentRequiresAction to p = (Ok n, p') →
  pay_ok K pend O s p' ∧ intents_life (intents p) (intents p') ∧
  (∀ i, i ∈ intents p' → is_active i = true → it_OrderID i = id → ∃ x, except = Some x ∧ it_ID i = x) ∧
  (∃ f, p' = set_intents f p).
Proof.
  intros Hp Ht H. pose proof H as (E & _)%update_intents_Ok.
  destruct (update_intents_keeps _ _ _ _ _ _ _ _ _ Hp ltac:(intros i [[_ Ei%String.eqb_eq]%andb_true_iff _]%andb_true_iff; apply with_state_life; by rewrite Ei) H) as (HK & L & Hg).
  split_and!; try done. rewrite E. simpl. intros i (j & Hj & ->)%upd_in. destruct (close_hit _ _ _ j) eqn:Eh.
  - simpl. intros Ha. exfalso. unfold is_active in Ha. simpl in Ha. apply String.eqb_eq in Ha. by rewrite Ha in Ht.
  - intros Ha Ho. unfold close_hit in Eh. rewrite Ho, N.eqb_refl in Eh. unfold is_active in Ha. rewrite Ha in Eh. simpl in Eh.
    destruct except as [x|]; [|done]. exists x. split; [done|]. by apply negb_false_iff, N.eqb_eq in Eh.
Qed.

(** Only the identifier generator moved. *)
Definition bumped (p : pay) : pay := mkPay (intents p) (payments p) (pay_events p) (cases p) (pay_audits p) (N.succ (pay_next p)).
Lemma NewV7_Ok p id p' : NewV7 p = (Ok id, p') → id = pay_next p ∧ p' = bumped p.
Proof. by intros [= <- <-]. Qed.
Lemma bumped_keeps K pend O s p : pay_ok K pend O s p → pay_ok K pend O s (bumped p).
Proof.
  intros [[A1 A2 A3 A4] H2 H3 H4 H5]. split; simpl; try done.
  - split; try done. intros i Hi. simpl. pose proof (A3 _ Hi). lia.
  - eapply payments_ok_extends; [done| |lia]. intros id o Ho. by exists o.
  - eapply cases_ok_mono; [done|done|done|lia].
  - eapply events_ok_mono; [done|lia].
Qed.
Lemma audited_keeps K pend O s a p : pay_ok K pend O s p → pay_ok K pend O s (add_pay_audit a p).
Proof. by intros []. Qed.

Lemma InsertEvent_Ok F e p b p' : InsertEvent F e p = (Ok b, p') →
  if b then event_check e = true ∧ event_key e ∉ map event_key (pay_events p) ∧ p' = set_events (λ l, l ++ [e])%list p else p' = p.
Proof.
  unfold InsertEvent. destruct (negb _); [done|]. destruct (event_check e); [|done]. simpl. destruct (bool_decide _) eqn:Ek.
  - by intros [= <- <-].
  - destruct (negb _); [done|]. intros [= <- <-]. apply bool_decide_eq_false in Ek. done.
Qed.
(** A fresh event, being handled. *)
Lemma event_added K F O s e p p' : pay_ok K None O s p → pv_ID e = pay_next p → InsertEvent F e (bumped p) = (Ok true, p') →
  pay_ok K (Some (pay_next p)) O s p'.
Proof.
  intros Hp Ei (Hck & Hk & ->)%InsertEvent_Ok. destruct (bumped_keeps _ _ _ _ _ Hp) as [B1 B2 B3 _ B5]. split; try done.
  simpl. apply (events_ok_add (pay_next p)); [apply Hp|done|lia|done|done].
Qed.
Lemma FinishEvent_Ok now id st msg p b p' : FinishEvent now id st msg p = (Ok b, p') →
  p' = set_events (upd (finish_hit id) (finished st msg now)) p ∧
  (∀ e, e ∈ pay_events p → finish_hit id e = true → event_check (finished st msg now e) = true).
Proof.
  unfold FinishEvent. destruct (negb _); [done|]. destruct (forallb _ _) eqn:Ec; [|done]. intros [= _ <-]. split; [done|]. intros e He Hh.
  rewrite forallb_forall in Ec. apply list_elem_of_In in He. specialize (Ec _ He). unfold finish_hit in Hh. by rewrite Hh in Ec.
Qed.
Lemma FinishEvent_keeps K now id st msg O s p b p' : pay_ok K (Some id) O s p → st ≠ eventPending → FinishEvent now id st msg p = (Ok b, p') →
  pay_ok K None O s p'.
Proof. intros [H1 H2 H3 H4 H5] Hst [-> Hck]%FinishEvent_Ok. split; try done. by apply events_ok_finish. Qed.

Lemma InsertPayment_Ok F x p p' : InsertPayment F x p = (Ok (), p') →
  payment_check x = true ∧ payment_key x ∉ map payment_key (payments p) ∧ fk_order F (pm_OrderID x) = true ∧
  p' = set_payments (λ l, l ++ [x])%list p.
Proof.
  unfold InsertPayment. destruct (negb _); [done|]. destruct (negb _); [done|]. destruct (payment_check x); [|done]. simpl.
  destruct (bool_decide _) eqn:Ek; [done|]. destruct (fk_order F _ && _ && _ && _) eqn:Ef; [|done]. intros [= <-].
  apply bool_decide_eq_false in Ek. rewrite !andb_true_iff in Ef. by destruct Ef as [[[? _] _] _].
Qed.
Lemma InsertLateCase_Ok F txn c p p' : InsertLateCase F txn c p = (Ok (), p') →
  case_check c = true ∧ lc_PaymentID c ∉ map lc_PaymentID (cases p) ∧ p' = set_cases (λ l, l ++ [c])%list p.
Proof.
  unfold InsertLateCase. destruct (negb _); [done|]. destruct (negb _); [done|]. destruct (case_check c); [|done]. simpl.
  destruct (_ || _) eqn:Ek; [done|]. destruct (negb _); [done|]. intros [= <-]. apply orb_false_iff in Ek as [Ek%bool_decide_eq_false _]. done.
Qed.
Lemma ApplyLateCase_Ok txn now id t reason p b p' : ApplyLateCase txn now id t reason p = (Ok b, p') →
  b = (hits (case_hit id) (cases p) =? 1) ∧ p' = set_cases (upd (case_hit id) (applied_case t reason now)) p ∧
  (∀ c, c ∈ cases p → case_hit id c = true → case_check (applied_case t reason now c) = true).
Proof.
  unfold ApplyLateCase. destruct (negb _); [done|]. destruct (forallb _ _) eqn:Ec; [|done]. simpl. destruct (_ && _); [done|].
  intros [= <- <-]. split_and!; try done. intros c Hc Hh. rewrite forallb_forall in Ec. apply list_elem_of_In in Hc. specialize (Ec _ Hc).
  by rewrite Hh in Ec.
Qed.

Lemma markOwnIntent_keeps K pend O s it p p' : pay_ok K pend O s p → markOwnIntent it p = (Ok (), p') →
  pay_ok K pend O s p' ∧ intents_life (intents p) (intents p') ∧ (∃ g, p' = set_intents g p).
Proof.
  intros Hp H. unfold markOwnIntent, markIntentSucceeded in H. assert (Hid : pay_ok K pend O s p ∧ intents_life (intents p) (intents p) ∧ ∃ g, p = set_intents g p) by (split_and!; [done|done|exists id; by destruct p]).
  destruct it as [it|]; [|by injection H as <-]. destruct (String.eqb _ _); [|by injection H as <-]. apply bind_Ok in H as (b & p1 & H1 & H). injection H as <-.
  by eapply SetIntentStatus_keeps; [| |exact H1].
Qed.
End Statements.

(** * Steps on the ledger and the payment tables *)

Section Suspense.
Context `{DL : DecimalLib} {Y : Type}.
Abbreviation X := (pay * Y)%type.
Abbreviation LX := (M (ledger * X) oerr).

Lemma led_Ok {A} (m : M ledger lerr A) l p (y : Y) a z : led m (l, (p, y)) = (Ok a, z) → ∃ l', m l = (Ok a, l') ∧ z = (l', (p, y)).
Proof. by intros (l' & H & ->)%zoom_Ok; exists l'. Qed.
Lemma tab_Ok {A} (m : M pay oerr A) l p (y : Y) a z : tab m (l, (p, y)) = (Ok a, z) → ∃ p', m p = (Ok a, p') ∧ z = (l, (p', y)).
Proof. by intros (p' & H & ->)%zoom_Ok; exists p'. Qed.

(** A posting outside the hold accounts. *)
Lemma Post_delta c q l id l' : Forall (λ x, ref_Type (leg_Account x) ≠ UserBalanceHold) (p_Legs q) → good l →
  Post c q l = (Ok id, l') →
  good l' ∧ holds l' = holds l ∧ (bal l' suspense_key == bal l suspense_key + delta_on suspense_ref (p_Legs q))%Q ∧
  (∀ k, account_check k = true → (bal l' k == bal l k + delta_on (refOf k) (p_Legs q))%Q).
Proof.
  intros Hh Hg H. destruct (Post_quiet _ _ _ _ _ Hh Hg H) as [Hg' Eh]. destruct Hg as [Hok _].
  unfold Post in H. destruct (Dedicated _); [done|]. unfold DoL in H. step_ok H. apply postChecked_spec in H as HP; [|done].
  split_and!; try done; [|apply HP]. rewrite <- refOf_suspense. apply HP, suspense_key_check.
Qed.

Lemma suspense_delta i sc : (delta_on suspense_ref (buildSuspenseLegs i sc) == val (ri_Amount i) - val sc)%Q.
Proof.
  unfold buildSuspenseLegs. rewrite !delta_on_app.
  assert (Hz : ∀ (b : bool) t rf d a, t ≠ LatePaymentSuspense →
            (delta_on suspense_ref (if b then [mkLeg (PlatformAccount t rf) d a] else []) == 0)%Q).
  { intros [] t rf d a Ht; [|reflexivity]. rewrite delta_on_cons, on_ref_false by (simpl; by intros [=]). reflexivity. }
  rewrite !Hz by done. rewrite delta_on_cons, on_ref_true, delta_on_nil by done. unfold leg_delta, signedDelta. simpl.
  rewrite dec_sub_val. lra.
Qed.
Lemma apply_delta c reason : (delta_on suspense_ref (p_Legs (apply_posting c reason)) == - val (lc_Amount c))%Q.
Proof.
  unfold apply_posting. simpl. rewrite delta_on_cons, on_ref_true by done. rewrite delta_on_cons, on_ref_false, delta_on_nil by done.
  unfold leg_delta, signedDelta. simpl. rewrite dec_neg_val. lra.
Qed.
Lemma suspense_legs_safe i kind pid sc :
  Forall (λ x, ref_Type (leg_Account x) ≠ UserBalanceHold) (p_Legs (suspense_posting i kind pid sc)).
Proof. simpl. unfold buildSuspenseLegs. by repeat apply Forall_app_2; repeat case_match; repeat constructor. Qed.
Lemma apply_legs_safe c reason : Forall (λ x, ref_Type (leg_Account x) ≠ UserBalanceHold) (p_Legs (apply_posting c reason)).
Proof. by repeat constructor. Qed.

(** What a quarantine wrote: the case, in suspense, for the order's part. *)
Definition late_of (k : Call) (evID : uuid) (i : recordInput) (kind status : string) (oid uid : uuid) (no : string) (pid : uuid) (sc : dec)
    (id txn : uuid) : case_row :=
  mkCase id oid no status uid pid (Some evID) kind (dec_sub (ri_Amount i) sc) LateSuspense txn None None (k_db k) None.
Lemma quarantine_Ok F who k evID i kind status it oid uid no pid sc l p (y : Y) r c l' p' y' : good l →
  quarantine F who k evID i kind status it oid uid no pid sc (l, (p, y)) = (Ok (r, c), (l', (p', y'))) →
  y' = y ∧ good l' ∧ holds l' = holds l ∧ (bal l' suspense_key == bal l suspense_key + (val (ri_Amount i) - val sc))%Q ∧
  ∃ txn p2 b, c = late_of k evID i kind status oid uid no pid sc (pay_next p) txn ∧ r = mkResult true false false pid kind txn ∧
    case_check c = true ∧ lc_PaymentID c ∉ map lc_PaymentID (cases p) ∧
    markOwnIntent it (set_cases (λ l, l ++ [c])%list (bumped p)) = (Ok (), p2) ∧
    ∃ p3, FinishEvent (k_db k) evID eventProcessed None p2 = (Ok b, p3) ∧ p' = add_pay_audit ("payment.quarantined", pid) p3.
Proof.
  intros Hg H. unfold quarantine in H. destruct (_ || _); [done|].
  apply bind_Ok in H as (txn & z & H1 & H). apply led_Ok in H1 as (l1 & H1 & ->).
  destruct (Post_delta _ _ _ _ _ (suspense_legs_safe _ _ _ _) Hg H1) as (G1 & E1 & B1 & _).
  apply bind_Ok in H as (lid & z & H2 & H). apply tab_Ok in H2 as (p1 & H2 & ->). apply NewV7_Ok in H2 as [-> ->].
  apply bind_Ok in H as ([] & z & H3 & H). apply tab_Ok in H3 as (p2 & H3 & ->). apply InsertLateCase_Ok in H3 as (Hck & Hn & ->).
  apply bind_Ok in H as ([] & z & H4 & H). apply tab_Ok in H4 as (p3 & H4 & ->).
  apply bind_Ok in H as (b & z & H5 & H). apply tab_Ok in H5 as (p4 & H5 & ->).
  apply bind_Ok in H as ([] & z & H6 & H). apply tab_Ok in H6 as (p5 & H6 & ->). injection H6 as <-. injection H as <- <- <- <- <-.
  cbn [p_Legs suspense_posting] in B1. rewrite suspense_delta in B1. split_and!; try done. exists txn, p3, b. split_and!; try done. by exists p4.
Qed.

(** Applying a case moves its amount off the suspense account. *)
Lemma applyLateCase_Ok who k c reason l p (y : Y) t l' p' y' : good l →
  applyLateCase who k c reason (l, (p, y)) = (Ok t, (l', (p', y'))) →
  y' = y ∧ good l' ∧ holds l' = holds l ∧ (bal l' suspense_key == bal l suspense_key - val (lc_Amount c))%Q ∧
  (bal l' (balance_key (lc_UserID c)) == bal l (balance_key (lc_UserID c)) + val (lc_Amount c))%Q ∧
  hits (case_hit (lc_ID c)) (cases p) = 1 ∧
  (∀ x, x ∈ cases p → case_hit (lc_ID c) x = true → case_check (applied_case t reason (k_db k) x) = true) ∧
  (∀ key, account_check key = true → (bal l' key == bal l key + delta_on (refOf key) (p_Legs (apply_posting c reason)))%Q) ∧
  p' = add_pay_audit ("late_payment.applied", lc_ID c) (set_cases (upd (case_hit (lc_ID c)) (applied_case t reason (k_db k))) p).
Proof.
  intros Hg H. unfold applyLateCase in H. destruct (negb _); [done|].
  apply bind_Ok in H as (txn & z & H1 & H). apply led_Ok in H1 as (l1 & H1 & ->).
  destruct (Post_delta _ _ _ _ _ (apply_legs_safe _ _) Hg H1) as (G1 & E1 & B1 & BK). rewrite apply_delta in B1.
  apply bind_Ok in H as (b & z & H2 & H). apply tab_Ok in H2 as (p2 & H2 & ->). apply ApplyLateCase_Ok in H2 as (-> & -> & Hck).
  destruct (_ =? 1) eqn:Eh; [|done]. simpl in H. apply bind_Ok in H as ([] & z & H3 & H). apply tab_Ok in H3 as (p3 & H3 & ->).
  injection H3 as <-. injection H as <- <- <- <-. apply Z.eqb_eq in Eh. split_and!; try done.
  rewrite BK by apply balance_key_check. change (refOf (balance_key (lc_UserID c))) with (UserAccount UserBalance (lc_UserID c)).
  simpl. rewrite delta_on_cons, on_ref_false by done. rewrite delta_on_cons, on_ref_true, delta_on_nil by done.
  unfold leg_delta, signedDelta. simpl. lra.
Qed.
End Suspense.

(** * Rows over time *)

Section Growth.
Context `{DL : DecimalLib}.

(** A case in suspense may be applied, once. *)
Definition case_life (c c' : case_row) : Prop :=
  c' = c ∨ (in_suspense c = true ∧ ∃ t reason now, c' = applied_case t reason now c).
#[global] Instance case_life_preorder : PreOrder case_life.
Proof.
  split; [by left|]. intros a b c [-> |(Ha & t & r & n & ->)] [-> |(Hb & t' & r' & n' & ->)]; try done.
  - by left.
  - right. eauto.
  - right. eauto.
Qed.
Definition cases_life (l l' : list case_row) : Prop := ∀ n c, l !! n = Some c → ∃ c', l' !! n = Some c' ∧ case_life c c'.
#[global] Instance cases_life_preorder : PreOrder cases_life.
Proof.
  split; [intros l n c Hc; by exists c|]. intros a b c H1 H2 n x Hx. destruct (H1 _ _ Hx) as (y & Hy & L1).
  destruct (H2 _ _ Hy) as (z & Hz & L2). exists z. split; [done|by etrans].
Qed.

(** Intents and cases follow their state machines; payments are only added. *)
Record pay_grows (p p' : pay) : Prop := {
  pg_intents : intents_life (intents p) (intents p');
  pg_payments : payments p `prefix_of` payments p';
  pg_cases : cases_life (cases p) (cases p');
}.
#[global] Instance pay_grows_preorder : PreOrder pay_grows.
Proof. split; [by split|]. intros a b c [] []. split; by etrans. Qed.

Lemma intents_life_app l l' : intents_life l (l ++ l').
Proof. intros n i Hi. exists i. split; [by apply lookup_app_l_Some|done]. Qed.
Lemma cases_life_app l l' : cases_life l (l ++ l').
Proof. intros n i Hi. exists i. split; [by apply lookup_app_l_Some|done]. Qed.
Lemma cases_life_apply id t reason now l : cases_life l (upd (case_hit id) (applied_case t reason now) l).
Proof.
  intros n c Hc. eexists. unfold upd. rewrite list_lookup_fmap, Hc. split; [done|].
  destruct (case_hit id c) eqn:E; [|by left]. right. split; [by apply case_hit_true in E as [_ ?]|eauto].
Qed.

(** Other orders under the same payment tables. *)
Lemma pay_ok_orders (K K' : list payment_row → list case_row → Prop) pend O O' s p : pay_ok K pend O s p → extends O O' →
  (K (payments p) (cases p) → K' (payments p) (cases p)) →
  (∀ i, i ∈ intents p → is_active i = true → ∀ o, O' !! it_OrderID i = Some o → od_Status o = StatusPending) → pay_ok K' pend O' s p.
Proof.
  intros [H1 H2 H3 H4 H5] HO HK Ha. split; auto.
  - eapply intents_ok_evolve; [exact H1|done|by apply Forall_Forall2_diag, Forall_true|apply H1| |done|done].
    intros i Hi. by apply (ik_good _ _ _ H1).
  - by eapply payments_ok_extends; [exact H2| |].
Qed.
Lemma active_pending K pend O s p i o : pay_ok K pend O s p → i ∈ intents p → is_active i = true → O !! it_OrderID i = Some o →
  od_Status o = StatusPending.
Proof. intros Hp Hi Ha Ho. destruct (ik_good _ _ _ (yk_intents _ _ _ _ _ Hp) _ Hi) as (_ & o' & Ho' & _ & _ & Hs). rewrite Ho in Ho'. injection Ho' as <-. auto. Qed.
End Growth.

Section PayLife.
Context `{DL : DecimalLib} {Y : Type} (B : OrderEnv Y) (providers : gset uuid).
Abbreviation X := (pay * Y)%type.
Abbreviation WM := (M (world X) oerr).
Abbreviation W := (wired B).

Definition tabs (w : world X) : pay := (w_ext w).1.
Definition pays (pend : option uuid) (w : world X) : Prop :=
  pay_ok (settled_once (orders (w_book w))) pend (orders (w_book w)) (bal (w_ledger w) suspense_key) (tabs w).
Definition shop_ok (w : world X) : Prop := world_ok W w ∧ pays None w.
Definition shop_lives (w w' : world X) : Prop := lives w w' ∧ pay_grows (tabs w) (tabs w').
#[global] Instance shop_lives_preorder : PreOrder shop_lives.
Proof. split; [by intros w|]. intros a b c [L1 G1] [L2 G2]. split; by etrans. Qed.
Abbreviation trades := (keeps (E := oerr) shop_ok shop_lives).

Lemma lives_extends (w w' : world X) : lives w w' → extends (orders (w_book w)) (orders (w_book w')).
Proof. intros H id o Ho. specialize (H id). rewrite Ho in H. by apply life_terms in H. Qed.

(** ** A step on the payment tables alone *)

Definition with_tabs (p : pay) (w : world X) : world X := put_ext (p, (w_ext w).2) w.
Lemma on_pay_Ok {A} (m : M pay oerr A) (w : world X) a w' : on_pay m w = (Ok a, w') →
  ∃ p', m (tabs w) = (Ok a, p') ∧ w' = with_tabs p' w.
Proof. intros (x & (p & H & ->)%zoom_Ok & ->)%zoom_Ok. by exists p. Qed.
Lemma with_fk_Ok {A} (f : fkeys → M pay oerr A) (w : world X) a w' : with_fk B providers f w = (Ok a, w') →
  ∃ p', f (fks B providers w) (tabs w) = (Ok a, p') ∧ w' = with_tabs p' w.
Proof. apply on_pay_Ok. Qed.
Lemma with_tabs_world p w : world_ok W w → world_ok W (with_tabs p w).
Proof. intros Hw. eapply world_ok_views; [exact Hw| |by intros j]. destruct (proj1 Hw). by split. Qed.
Lemma with_tabs_shop p w : world_ok W w → pay_ok (settled_once (orders (w_book w))) None (orders (w_book w)) (bal (w_ledger w) suspense_key) p →
  pay_grows (tabs w) p → shop_ok (with_tabs p w) ∧ shop_lives w (with_tabs p w).
Proof. intros Hw Hp Hg. split; [split; [by apply with_tabs_world|done]|]. split; [by intros id|done]. Qed.

Lemma trades_pay {A} (m : M pay oerr A) :
  (∀ K O s p a p', pay_ok K None O s p → m p = (Ok a, p') → pay_ok K None O s p' ∧ pay_grows p p') → trades (on_pay m).
Proof.
  intros Hm w a w' [Hw Hp] (p' & H & ->)%on_pay_Ok. destruct (Hm _ _ _ _ _ _ Hp H). by apply with_tabs_shop.
Qed.

(** ** Placing, cancelling and expiring orders *)

Lemma settlements_zero O id o : O !! id = Some o → od_Status o ≠ StatusFulfilled ∨ (val (od_Payable o) == 0)%Q → settlements O id = 0%nat.
Proof.
  intros Ho H. unfold settlements. rewrite Ho. destruct (String.eqb_spec (od_Status o) StatusFulfilled); [|done]. simpl.
  destruct H as [H|H]; [done|]. destruct (IsPositive_spec (od_Payable o)); [lra|done].
Qed.

Lemma places_pays pend w w' : places w w' → calmly w w' → pays pend w → pays pend w'.
Proof.
  intros Hp [Hs Et] H. unfold pays. rewrite (Et : tabs w' = tabs w). eapply pay_ok_orders; [eapply pay_ok_susp; [exact H|exact Hs]| | |].
  - by apply lives_extends, places_lives.
  - intros HK. eapply settled_once_orders; [exact HK|]. intros id. destruct (Hp id) as [E|[E L]]; [unfold settlements; by rewrite E|].
    assert (settlements (orders (w_book w)) id = 0%nat) as -> by (unfold settlements; by rewrite E).
    destruct (orders (w_book w') !! id) as [o|] eqn:E'; [|inversion L]. eapply settlements_zero; [exact E'|].
    inversion L as [? Es|? _ Ez| |]; [left; by rewrite Es|by right].
  - intros i Hi Ha o Ho. destruct (Hp (it_OrderID i)) as [E|[E L]].
    + rewrite E in Ho. by eapply active_pending.
    + destruct (ik_good _ _ _ (yk_intents _ _ _ _ _ H) _ Hi) as (_ & o' & Ho' & _). congruence.
Qed.
Lemma place_trades who k d : trades (place W who k d).
Proof.
  intros w a w' [Hw Hp] H. destruct (place_placing W _ _ _ _ _ _ Hw H) as [Hw' Hpl].
  destruct (place_calm W _ _ _ _ _ _ (ck_ledger _ _ (proj1 Hw)) H) as [_ Hc]. split.
  - split; [done|by eapply places_pays].
  - split; [by apply places_lives|]. by rewrite (proj2 Hc : tabs w' = tabs w).
Qed.

(** What a release does to the payment tables: first the step given to it, then
    the order's intents are closed. *)
Lemma release_closes who k o to reason event actor before w o' w' : lgood w →
  (∀ w1 w2, lgood w1 → before w1 = (Ok (), w2) → lgood w2) →
  releaseOrderWith W who k o to reason event actor before w = (Ok o', w') →
  ∃ w1 w2 n, calmly w w1 ∧ lgood w1 ∧ before w1 = (Ok (), w2) ∧ still (w_ledger w2) (w_ledger w') ∧
    closeOrderIntents (od_ID o) (if String.eqb to OrderExpired then "expired" else "cancelled") (tabs w2) = (Ok n, tabs w').
Proof.
  intros Hg Hb H. unfold releaseOrderWith in H. destruct (negb _) in H; [done|].
  apply bind_Ok in H as (res & w0 & H0 & H). apply gets_Ok in H0 as [-> ->].
  destruct (reservations _ !! _) as [r|]; [|done]. destruct (negb _) in H; [done|].
  apply bind_Ok in H as ([] & wa & H1 & H); [|done]. simpl negb in H. cbv iota in H.
  apply bind_Ok in H as ([] & wb & H2 & H). apply bind_Ok in H as ([] & wc & H3 & H).
  destruct (UpdateReservation_calm _ _ _ _ _ _ _ _ Hg H1) as [G1 C1].
  destruct (InsertReservationEvent_calm W _ _ _ _ G1 H2) as [G2 C2].
  assert (GC : lgood wc ∧ calmly wb wc).
  { destruct (od_CouponID o); [|by injection H3 as <-]. by eapply calm_promo; [|exact H3]. }
  destruct GC as [G3 C3]. apply bind_Ok in H as ([] & wd & H4 & H). pose proof (Hb _ _ G3 H4) as G4.
  apply bind_Ok in H as ([] & we & H5 & H).
  assert (GE : lgood we ∧ calmly wd we).
  { destruct (IsPositive _); [|by injection H5 as <-]. apply bind_Ok in H5 as ([] & wx & H5 & H5'); [|done]. injection H5' as <-.
    by eapply calm_ledger; [apply ReleaseOrderHold_calm| |exact H5]. }
  destruct GE as [G5 C5]. apply bind_Ok in H as (n & wf & H6 & H). apply on_pay_Ok in H6 as (p6 & H6 & ->).
  apply bind_Ok in H as ([] & wg & H7 & H); [|done]. simpl negb in H. cbv iota in H.
  destruct (UpdateOrder_calm W _ _ _ _ (with_tabs p6 we) _ _ G5 H7) as [G7 C7].
  apply bind_Ok in H as ([] & wh & H8 & H). apply bind_Ok in H as ([] & wi & H9 & H). apply lift_Ok in H9 as [_ ->].
  destruct (order_audit_calm _ _ _ _ _ G7 H8) as [G8 C8]. apply reload_Ok in H as [-> _].
  assert (C : calmly (with_tabs p6 we) wh) by (etrans; [exact C7|exact C8]).
  exists wc, wd, n. split_and!; [do 2 (etrans; [eassumption|]); exact C3|done|done| |].
  - etrans; [apply C5|]. exact (proj1 C).
  - rewrite (proj2 C : tabs wh = p6). rewrite <- (proj2 C5 : tabs we = tabs wd). exact H6.
Qed.

Lemma closeOrderIntents_keeps K pend O s id to p n p' : pay_ok K pend O s p → closeOrderIntents id to p = (Ok n, p') →
  pay_ok K pend O s p' ∧ pay_grows p p' ∧ (∀ i, i ∈ intents p' → is_active i = true → it_OrderID i ≠ id).
Proof.
  intros Hp H. unfold closeOrderIntents in H. destruct (CanTransition _ to) eqn:Et; [|done]. simpl in H.
  destruct (String.eqb to IntentSucceeded); [done|].
  destruct (CloseIntents_keeps _ _ _ _ _ _ _ _ _ _ Hp Et H) as (HK & L & Hn & f & ->). split; [done|]. split; [by split|].
  intros i Hi Ha E. by destruct (Hn i Hi Ha E) as (x & ? & _).
Qed.

(** A pending order closed, once its intents are. *)
Lemma closed_pays pend w w' s p to v id o : pay_ok (settled_once (orders (w_book w))) pend (orders (w_book w)) s p → (bal (w_ledger w') suspense_key == s)%Q →
  (∀ i, i ∈ intents p → is_active i = true → it_OrderID i ≠ id) → becomes W id w w' v →
  orders (w_book w) !! id = Some o → od_Status o = StatusPending → life (Some o) (v_order v) → od_Status <$> v_order v = Some to →
  to ≠ StatusFulfilled → pay_ok (settled_once (orders (w_book w'))) pend (orders (w_book w')) (bal (w_ledger w') suspense_key) p.
Proof.
  intros Hp Hs Hn [_ Hb Ev] Ho Es Hl Ht Hto.
  assert (E : ∀ j, j ≠ id → orders (w_book w') !! j = orders (w_book w) !! j) by (intros j Hj; specialize (Hb j Hj); by injection Hb as -> _ _ _).
  assert (Ei : orders (w_book w') !! id = v_order v) by (by rewrite <- Ev).
  eapply pay_ok_orders; [eapply pay_ok_susp; [exact Hp|exact Hs]| | |].
  - intros j x Hx. destruct (decide (j = id)) as [-> |Hj]; [|exists x; by rewrite E].
    rewrite Ho in Hx. injection Hx as <-. rewrite Ei. by apply life_terms, rtc_once.
  - intros HK. eapply settled_once_orders; [exact HK|]. intros j. destruct (decide (j = id)) as [-> |Hj]; [|unfold settlements; by rewrite E].
    rewrite (settlements_zero _ _ _ Ho) by (left; by rewrite Es). destruct (v_order v) as [o'|] eqn:Eo; [|done]. injection Ht as Ht.
    apply (settlements_zero _ _ _ Ei). left. congruence.
  - intros i Hi Ha x Hx. pose proof (Hn i Hi Ha) as Hne. rewrite E in Hx by done. by eapply active_pending.
Qed.

Lemma ret_good (w1 w2 : world X) : lgood w1 → (mret () : WM ()) w1 = (Ok (), w2) → lgood w2.
Proof. intros Hg H. unfold mret, M_ret in H. by injection H as <-. Qed.
Lemma release_kept_shop who k o to reason event actor w o' w' : shop_ok w → orders (w_book w) !! od_ID o = Some o →
  to = StatusCancelled ∨ to = OrderExpired → releaseOrder W who k o to reason event actor w = (Ok o', w') →
  shop_ok w' ∧ shop_lives w w' ∧ same_but (od_ID o) w w'.
Proof.
  intros [Hw Hp] Ho Hto H. destruct (release_lives0 W _ _ _ _ _ _ _ _ _ _ Hw Ho Hto H) as (Hw' & Hl & Hb).
  destruct (releaseOrderWith_Ok W _ _ _ _ _ _ _ _ _ _ _ Hw Ho Hto (ret_quiet W) H) as (v & Bc & _ & L & Es & Et).
  destruct (release_closes _ _ _ _ _ _ _ _ _ _ _ (ck_ledger _ _ (proj1 Hw)) ret_good H)
    as (w1 & w2 & n & [S1 E1] & _ & E2 & S2 & H2). injection E2 as <-.
  change ((w_ext w1).1 = (w_ext w).1) in E1. rewrite (E1 : tabs w1 = tabs w) in H2.
  destruct (closeOrderIntents_keeps _ _ _ _ _ _ _ _ _ Hp H2) as (K & G & Hn). split_and!; [|done|done]. split; [done|].
  unfold pays. eapply closed_pays; [exact K| |exact Hn|exact Bc|exact Ho|done|done|exact Et|by destruct Hto as [-> | ->]].
  unfold still in *. by rewrite S2, S1.
Qed.

Lemma shop_world w : shop_ok w → world_ok W w.
Proof. by intros []. Qed.
Lemma Cancel_trades inTx who k i : trades (Cancel W inTx who k i).
Proof. apply Cancel_kept; [apply _|apply shop_world|apply release_kept_shop]. Qed.
Lemma CancelUserPending_trades inTx who k u : trades (CancelUserPending W inTx who k u).
Proof. apply CancelUserPending_kept; [apply _|apply shop_world|apply release_kept_shop]. Qed.
Lemma ExpireOrders_trades ks locked m now n w r w' : shop_ok w → ExpireOrders W ks locked m now n w = (r, w') →
  shop_ok w' ∧ shop_lives w w'.
Proof. apply ExpireOrders_kept; [apply _|apply shop_world|apply release_kept_shop]. Qed.
End PayLife.
