(* ===== verification/PayRecord.v ===== *)
(** Recording a payment (record.go, webhook.go, offline.go, archived.go): it
    settles its order, or becomes a case, in one transaction. *)
From Stdlib Require Import ZArith QArith Lqa Lia.
From stdpp Require Import base tactics list gmap strings sorting relations.
From S2P Require Import Prelude Safety Decimal GoString Money GoTime LedgerTypes LedgerFacts Ledger LedgerInv LedgerOps Promo PromoThms.
From S2P Require Import Period OrderAmounts Proration SubTypes SubStore SubFacts Subscription OrderStore OrderFlow OrderInv OrderLife OrderHistory.
From S2P Require Import PayStore PayFlow PayInv PayOps.
#[local] Open Scope string_scope.
#[local] Open Scope Z_scope.

(** * A payment among the others *)

Section Insertion.
Context `{DL : DecimalLib}.
Abbreviation book_of := (gmap uuid order_row).

(** The tables with a payment just inserted. *)
Definition recorded (x : payment_row) (p : pay) : pay := set_payments (λ l, l ++ [x])%list (bumped p).
(** A payment that still needs its case. *)
Definition owed (O : book_of) (x : payment_row) (P : list payment_row) (C : list case_row) : Prop :=
  ∀ c, lc_PaymentID c = pm_ID x → settled_once O P (C ++ [c]).

Lemma recorded_ok (K K' : list payment_row → list case_row → Prop) pend O s x p : pay_ok K pend O s p → payment_good O x →
  pm_ID x = pay_next p → payment_key x ∉ map payment_key (payments p) →
  (K (payments p) (cases p) → K' (payments p ++ [x])%list (cases p)) → pay_ok K' pend O s (recorded x p).
Proof.
  intros Hp Hx Ei Hk HK. destruct (bumped_keeps _ _ _ _ _ Hp) as [B1 _ B3 B4 _]. destruct Hp as [_ H2 _ _ H5]. split; simpl; auto.
  - by apply payments_ok_add.
  - eapply cases_ok_mono; [exact B3| |done|done]. intros y Hy. apply elem_of_app. by left.
Qed.
Lemma recorded_owed pend O s x p : pay_ok (settled_once O) pend O s p → payment_good O x → pm_ID x = pay_next p →
  payment_key x ∉ map payment_key (payments p) → pay_ok (owed O x) pend O s (recorded x p).
Proof.
  intros Hp Hx Ei Hk. eapply recorded_ok; [done..|]. intros HK c Hc. apply settled_once_case; [done|done|].
  intros (y & E & Hy)%list_elem_of_fmap. pose proof (mk_fresh _ _ _ (yk_payments _ _ _ _ _ Hp) _ Hy). lia.
Qed.

(** Its case, in suspense. *)
Lemma cased_ok pend O s s' x c p : pay_ok (owed O x) pend O s p → x ∈ payments p → case_good (payments p) c → in_suspense c = true →
  lc_PaymentID c = pm_ID x → lc_ID c = pay_next p → lc_PaymentID c ∉ map lc_PaymentID (cases p) → (s' == s + val (lc_Amount c))%Q →
  pay_ok (settled_once O) pend O s' (set_cases (λ l, l ++ [c])%list (bumped p)).
Proof.
  intros Hp Hx Hc Hi Ec Ei Hn Hs. destruct (bumped_keeps _ _ _ _ _ Hp) as [B1 B2 _ B4 B5]. destruct Hp as [_ _ H3 _ H5].
  split; simpl; try done; [|by apply H5]. eapply cases_ok_add; [exact H3|done..|]. unfold open_part. by rewrite Hi.
Qed.
Lemma cased_grows f p : pay_grows p (set_cases (λ l, l ++ f)%list (bumped p)).
Proof. split; simpl; [done|done|apply cases_life_app]. Qed.
Lemma recorded_grows x p : pay_grows p (recorded x p).
Proof. split; simpl; [done|by eexists|done]. Qed.

(** An intent marked as paid is in progress no more. *)
Lemma markOwnIntent_closes K pend O s it p p' x i : pay_ok K pend O s p → it = Some x → x ∈ intents p → markOwnIntent it p = (Ok (), p') →
  i ∈ intents p' → it_ID i = it_ID x → is_active i = false.
Proof.
  intros Hp -> Hx H Hi Ei. unfold markOwnIntent in H. destruct (String.eqb (it_Status x) IntentRequiresAction) eqn:Ea.
  - unfold markIntentSucceeded in H. apply bind_Ok in H as (b & p1 & H1 & H). injection H as <-. apply one_row_Ok in H1 as (n & H1 & _).
    apply update_intents_Ok in H1 as (-> & _). apply upd_in in Hi as (j & Hj & ->). destruct (_ && _) eqn:Eh; [done|].
    rewrite Ei, N.eqb_refl in Eh. exact Eh.
  - injection H as <-. assert (i = x) as ->; [|exact Ea].
    pose proof (ik_ids _ _ _ (yk_intents _ _ _ _ _ Hp)) as Hn. by eapply (NoDup_map_inj it_ID).
Qed.
End Insertion.

(** * The money of a payment its order does not take *)

Section Late.
Context `{DL : DecimalLib} {Y : Type}.
Abbreviation book_of := (gmap uuid order_row).
Abbreviation at_rest O l p := (pay_ok (settled_once O) None O (bal l suspense_key) p).

(** The payment a report is about. *)
Definition pays_for (i : recordInput) (oid uid : uuid) (sc : dec) (x : payment_row) : Prop :=
  pm_OrderID x = oid ∧ pm_UserID x = uid ∧ pm_Amount x = ri_Amount i ∧ pm_Surcharge x = sc.

Lemma quarantine_pays F who k evID i kind status it oid uid no x sc O l p (y : Y) r c l' p' y' :
  good l → pay_ok (owed O x) (Some evID) O (bal l suspense_key) p → x ∈ payments p → pays_for i oid uid sc x →
  quarantine F who k evID i kind status it oid uid no (pm_ID x) sc (l, (p, y)) = (Ok (r, c), (l', (p', y'))) →
  at_rest O l' p' ∧ pay_grows p p' ∧ good l' ∧ holds l' = holds l ∧ c ∈ cases p' ∧ payments p' = payments p ∧
  cases p' = (cases p ++ [c])%list ∧ lc_PaymentID c = pm_ID x ∧ r = mkResult true false false (pm_ID x) kind (lc_SuspenseTxn c) ∧
  in_suspense c = true.
Proof.
  intros Hg Hp Hx (X1 & X2 & X3 & X4) H.
  destruct (quarantine_Ok _ _ _ _ _ _ _ _ _ _ _ _ _ _ _ _ _ _ _ _ _ Hg H) as (_ & G & Eh & Es & txn & p2 & b & Ec & Er & Hck & Hn & H2 & p3 & H3 & ->).
  assert (Hc : pay_ok (settled_once O) (Some evID) O (bal l' suspense_key) (set_cases (λ l, l ++ [c])%list (bumped p))).
  { eapply cased_ok; [exact Hp|exact Hx| |by rewrite Ec..|done|].
    - split; [done|]. rewrite Ec. exists x. simpl. rewrite dec_sub_val, X3, X4. by split_and!.
    - rewrite Es, Ec. simpl. rewrite dec_sub_val. reflexivity. }
  destruct (markOwnIntent_keeps _ _ _ _ _ _ _ Hc H2) as (K2 & L2 & g & E2).
  pose proof (FinishEvent_keeps _ _ _ eventProcessed _ _ _ _ _ _ K2 ltac:(done) H3) as K3. apply FinishEvent_Ok in H3 as [H3 _].
  assert (EC : cases p3 = (cases p ++ [c])%list) by (by rewrite H3, E2).
  split_and!; try done.
  - by apply audited_keeps.
  - assert (E3 : intents (add_pay_audit ("payment.quarantined", pm_ID x) p3) = intents p2) by (by rewrite H3).
    split; rewrite ?E3; simpl; [exact L2|by rewrite H3, E2|rewrite EC; apply cases_life_app].
  - simpl. rewrite EC. apply elem_of_app. right. by constructor.
  - by rewrite H3, E2.
  - by rewrite Ec.
  - by rewrite Er, Ec.
  - by rewrite Ec.
Qed.

(** A case of the tables, applied. *)
Lemma applyLateCase_pays who k c reason O l p (y : Y) t l' p' y' : good l → at_rest O l p → c ∈ cases p →
  applyLateCase who k c reason (l, (p, y)) = (Ok t, (l', (p', y'))) →
  at_rest O l' p' ∧ pay_grows p p' ∧ good l' ∧ holds l' = holds l.
Proof.
  intros Hg Hp Hc H. destruct (applyLateCase_Ok _ _ _ _ _ _ _ _ _ _ _ Hg H) as (_ & G & Eh & Es & _ & Hh & Hck & _ & ->).
  apply hits_one in Hh as (d & Hd & Hh). destruct (case_hit_true _ _ Hh) as [Ed _].
  assert (d = c) as -> by (eapply (NoDup_map_inj lc_ID); [apply (yk_cases _ _ _ _ _ Hp)|done..]).
  split_and!; try done.
  - apply audited_keeps. destruct Hp as [H1 H2 H3 H4 H5]. split; simpl; try done; [|by apply settled_once_apply].
    by eapply cases_ok_apply.
  - split; simpl; [done|done|apply cases_life_apply].
Qed.

(** The payment of an archived plan, to the user's balance at once. *)
Lemma settle_archived_pays F who k evID i kind st0 it oid uid no x sc st O l p (y : Y) l' p' y' :
  good l → pay_ok (owed O x) (Some evID) O (bal l suspense_key) p → x ∈ payments p → pays_for i oid uid sc x →
  settle_archived F who k evID i kind st0 it oid uid no (pm_ID x) sc st (l, (p, y)) = (Ok (), (l', (p', y'))) →
  at_rest O l' p' ∧ pay_grows p p' ∧ good l' ∧ holds l' = holds l.
Proof.
  intros Hg Hp Hx Hf H. unfold settle_archived in H. cbv zeta in H. apply bind_Ok in H as ([r c] & [l1 [p1 y1]] & H1 & H).
  destruct (quarantine_pays _ _ _ _ _ _ _ _ _ _ _ _ _ _ _ _ _ _ _ _ _ _ Hg Hp Hx Hf H1) as (R1 & G1 & L1 & E1 & Hc & _).
  apply bind_Ok in H as (t & [l2 [p2 y2]] & H2 & H). injection H as <- <- <-.
  destruct (applyLateCase_pays _ _ _ _ _ _ _ _ _ _ _ _ L1 R1 Hc H2) as (R2 & G2 & L2 & E2).
  split_and!; [done|by etrans|done|congruence].
Qed.
End Late.

(** * Recording *)

Section Recording.
Context `{DL : DecimalLib} {Y : Type} (B : OrderEnv Y) (providers : gset uuid).
Abbreviation X := (pay * Y)%type.
Abbreviation WM := (M (world X) oerr).
Abbreviation W := (wired B).
Abbreviation trades := (keeps (E := oerr) (shop_ok B) shop_lives).

(** What other modules do when an order is paid: entries in the ledger, away
    from the holds and from the account of late payments. *)
Definition modest {Z A} (m : M (ledger * Z) oerr A) : Prop :=
  ∀ l z a l' z', good l → m (l, z) = (Ok a, (l', z')) → good l' ∧ holds l' = holds l ∧ still l l'.
Hypothesis hook_modest : ∀ hook o, OnOrderPaid B = Some hook → modest (hook o).

Lemma wired_hook hook o l p (y : Y) a l' p' y' : OnOrderPaid W = Some hook → good l →
  hook o (l, (p, y)) = (Ok a, (l', (p', y'))) → good l' ∧ holds l' = holds l ∧ still l l' ∧ p' = p.
Proof.
  simpl. destruct (OnOrderPaid B) as [h|] eqn:Eh; [|done]. intros [= <-] Hg ([l1 y1] & H & E)%zoom_Ok. simpl in H, E.
  injection E as -> -> _. destruct (hook_modest _ _ eq_refl _ _ _ _ _ Hg H) as (? & ? & ?). done.
Qed.
Lemma wired_hook_posts hook o : OnOrderPaid W = Some hook → posts_only (hook o).
Proof. intros Eh l [p y] a l' [p' y'] Hg H. destruct (wired_hook _ _ _ _ _ _ _ _ _ Eh Hg H) as (? & ? & _). done. Qed.
Lemma wired_hook_calm hook o : OnOrderPaid W = Some hook → keeps (E := oerr) (calm_I (Y := Y)) (calm_R (Y := Y)) (hook o).
Proof.
  intros Eh [l [p y]] a [l' [p' y']] Hg H. destruct (wired_hook _ _ _ _ _ _ _ _ _ Eh Hg H) as (? & _ & ? & ->). done.
Qed.

(** A settled order, among the others. *)
Record settles (w w' : world X) (id : uuid) (amount : dec) : Prop := {
  se_world : world_ok W w';
  se_lives : lives w w';
  se_calm : calmly w w';
  se_order : ∃ o o', orders (w_book w) !! id = Some o ∧ orders (w_book w') !! id = Some o' ∧ od_Status o = StatusPending ∧
    IsPositive (od_Payable o) = true ∧ Equal amount (od_Payable o) = true ∧ fulfilled_from o o';
  se_rest : ∀ j, j ≠ id → orders (w_book w') !! j = orders (w_book w) !! j;
}.
Lemma SettlePayment_settles who k si w w' : world_ok W w → SettlePayment W who k si w = (Ok (), w') →
  settles w w' (si_OrderID si) (si_Amount si).
Proof.
  intros Hw H. destruct (SettlePayment_lively W wired_hook_posts _ _ _ _ _ _ Hw H) as [Hw' Hl].
  destruct (SettlePayment_calm W wired_hook_calm _ _ _ _ _ _ (ck_ledger _ _ (proj1 Hw)) H) as [_ Hc].
  destruct (SettlePayment_Ok W wired_hook_posts _ _ _ _ _ Hw H) as (o & o' & v & Ho & Es & Hp & Ha & F & Ev & _ & [_ Hb Eb]).
  split; try done.
  - exists o, o'. split_and!; try done. change (orders (w_book w') !! si_OrderID si) with (v_order (viewOf (si_OrderID si) w')).
    by rewrite Eb.
  - intros j Hj. specialize (Hb j Hj). by injection Hb as -> _ _ _.
Qed.
Lemma settles_settlements w w' id amount : settles w w' id amount →
  settlements (orders (w_book w)) id = 0%nat ∧ settlements (orders (w_book w')) id = 1%nat ∧
  (∀ j, j ≠ id → settlements (orders (w_book w')) j = settlements (orders (w_book w)) j).
Proof.
  intros [_ _ _ (o & o' & Ho & Ho' & Es & Hp & _ & Ef & Et & _) Hr]. split_and!.
  - unfold settlements. by rewrite Ho, Es.
  - unfold settlements. rewrite Ho', Ef. destruct (terms_facts _ _ Et) as (_ & -> & _). by rewrite Hp.
  - intros j Hj. unfold settlements. by rewrite Hr.
Qed.

(** The target of a report: its order's user, and for an online one the exact
    amount due. *)
Record aimed (w : world X) (i : recordInput) (it : option intent_row) (oid uid : uuid) (sc : dec) : Prop := {
  am_user : ∀ o, orders (w_book w) !! oid = Some o → uid = od_UserID o;
  am_due : ri_Offline i = None → ∀ o, orders (w_book w) !! oid = Some o → (val (ri_Amount i) - val sc == val (od_Payable o))%Q;
  am_own : ∀ x, it = Some x → x ∈ intents (tabs w);
}.

(** ** The order takes the money *)

Lemma afterSettleSuccess_pays k evID it oid pid w0 w r w' O :
  pay_ok (settled_once (orders (w_book w))) (Some evID) O (bal (w_ledger w) suspense_key) (tabs w) →
  extends O (orders (w_book w)) → (∀ j o, j ≠ oid → orders (w_book w) !! j = Some o → O !! j = Some o) →
  (∀ x, it = Some x → x ∈ intents (tabs w)) → world_ok W w → pay_grows (tabs w0) (tabs w) → lives w0 w →
  afterSettleSuccess k evID it oid pid w = (Ok r, w') → shop_ok B w' ∧ shop_lives w0 w' ∧ r = mkResult true false false pid "" uuid_Nil.
Proof.
  intros Hp HO Hj Hit Hw Hg Hl H. unfold afterSettleSuccess in H. apply bind_Ok in H as ([] & w1 & H1 & H).
  apply on_pay_Ok in H1 as (p1 & H1 & ->). destruct (markOwnIntent_keeps _ _ _ _ _ _ _ Hp H1) as (K1 & L1 & g1 & E1).
  pose proof (λ x i, markOwnIntent_closes _ _ _ _ it _ p1 x i Hp) as M1.
  destruct (negb _) in H; [done|]. apply bind_Ok in H as (n & w2 & H2 & H). apply on_pay_Ok in H2 as (p2 & H2 & ->).
  destruct (CloseIntents_keeps _ _ _ _ _ _ IntentCancelled _ _ _ K1 ltac:(done) H2) as (K2 & L2 & Hn & g2 & E2).
  apply bind_Ok in H as (b & w3 & H3 & H). apply on_pay_Ok in H3 as (p3 & H3 & ->).
  apply bind_Ok in H as ([] & w4 & H4 & H). apply on_pay_Ok in H4 as (p4 & H4 & ->). injection H4 as <-. injection H as <- <-.
  assert (Ha : ∀ i, i ∈ intents p2 → is_active i = true → it_OrderID i ≠ oid).
  { intros i Hi Hact Ei. destruct (Hn i Hi Hact Ei) as (x & Ex & Eix). destruct it as [y|]; [|done]. injection Ex as <-.
    
    apply update_intents_Ok in H2 as (E2' & _). rewrite E2' in Hi. apply upd_in in Hi as (j & Hj1 & ->).
    destruct (close_hit _ _ _ j) eqn:Ec.
    - unfold close_hit in Ec. simpl in Eix, Ec. rewrite Eix, N.eqb_refl, andb_false_r in Ec. done.
    - rewrite (M1 y j eq_refl (Hit y eq_refl) H1 Hj1 Eix) in Hact. done. }
  assert (K2' : pay_ok (settled_once (orders (w_book w))) (Some evID) (orders (w_book w)) (bal (w_ledger w) suspense_key) p2).
  { eapply pay_ok_orders; [exact K2|exact HO|done|]. intros i Hi Hact o Ho. eapply (active_pending _ _ _ _ _ _ _ K2); [done|done|].
    apply Hj; [by apply Ha|done]. }
  pose proof (FinishEvent_keeps _ _ _ eventProcessed _ _ _ _ _ _ K2' ltac:(done) H3) as K3. apply FinishEvent_Ok in H3 as [H3 _].
  split; [|split; [|done]].
  - split; [by repeat apply with_tabs_world|]. by apply audited_keeps.
  - split; [exact Hl|]. etrans; [exact Hg|]. change (tabs _) with (add_pay_audit ("payment.succeeded", oid) p3) at 2.
    split; simpl; rewrite H3; simpl; [by etrans| |]; rewrite E2, E1; done.
Qed.

Lemma on_ledger_ext_Ok {A} (m : M (ledger * X) oerr A) (w : world X) a w' : on_ledger_ext m w = (Ok a, w') →
  ∃ l' p' y', m (w_ledger w, (tabs w, (w_ext w).2)) = (Ok a, (l', (p', y'))) ∧ w_ledger w' = l' ∧ tabs w' = p' ∧
    w_book w' = w_book w.
Proof.
  intros ([l' [p' y']] & H & ->)%zoom_Ok. exists l', p', y'. split_and!; try done. unfold tabs. by destruct (w_ext w).
Qed.

(** ** It does not *)

Lemma quarantine_posts F who k evID i kind status it oid uid no pid sc :
  posts_only (quarantine (Y := Y) F who k evID i kind status it oid uid no pid sc).
Proof.
  intros l [p y] [r c] l' [p' y'] Hg H.
  by destruct (quarantine_Ok _ _ _ _ _ _ _ _ _ _ _ _ _ _ _ _ _ _ _ _ _ Hg H) as (_ & G & Eh & _).
Qed.
Lemma applyLateCase_posts who k c reason : posts_only (applyLateCase (Y := Y) who k c reason).
Proof.
  intros l [p y] t l' [p' y'] Hg H. by destruct (applyLateCase_Ok _ _ _ _ _ _ _ _ _ _ _ Hg H) as (_ & G & Eh & _).
Qed.
Lemma settle_archived_posts F who k evID i kind st0 it oid uid no pid sc st :
  posts_only (settle_archived (Y := Y) F who k evID i kind st0 it oid uid no pid sc st).
Proof.
  intros l x a l' x' Hg H. unfold settle_archived in H. cbv zeta in H. apply bind_Ok in H as (q & [l1 x1] & H1 & H).
  destruct (quarantine_posts _ _ _ _ _ _ _ _ _ _ _ _ _ _ _ _ _ _ Hg H1) as [G1 E1].
  apply bind_Ok in H as (t & [l2 x2] & H2 & H). injection H as _ <- <-.
  destruct (applyLateCase_posts _ _ _ _ _ _ _ _ _ G1 H2) as [G2 E2]. split; [done|congruence].
Qed.

Lemma afterSettleQuarantine_pays who k evID i kind status it oid uid no x sc w r w' : world_ok W w →
  pay_ok (owed (orders (w_book w)) x) (Some evID) (orders (w_book w)) (bal (w_ledger w) suspense_key) (tabs w) →
  x ∈ payments (tabs w) → pays_for i oid uid sc x →
  afterSettleQuarantine B providers who k evID i kind status it oid uid no (pm_ID x) sc w = (Ok r, w') → shop_ok B w' ∧ shop_lives w w'.
Proof.
  intros Hw Hp Hx Hf H. unfold afterSettleQuarantine in H. destruct (ri_Offline i); [done|].
  apply bind_Ok in H as ([r1 c] & w1 & H1 & H). injection H as _ <-.
  destruct (quiet_lively W _ (quiet_ledger_ext W _ (quarantine_posts _ _ _ _ _ _ _ _ _ _ _ _ _)) _ _ _ Hw H1) as [Hw1 Hl].
  apply on_ledger_ext_Ok in H1 as (l' & p' & y' & H1 & E1 & E2 & E3).
  destruct (quarantine_pays _ _ _ _ _ _ _ _ _ _ _ _ _ _ _ _ _ _ _ _ _ _ (ck_ledger _ _ (proj1 Hw)) Hp Hx Hf H1) as (R & G & _).
  split; [|split; [done|by rewrite E2]]. split; [done|]. unfold pays. by rewrite E1, E2, E3.
Qed.

Lemma afterSettleArchived_pays who k evID i kind status it oid uid no x sc w r w' : world_ok W w →
  pay_ok (owed (orders (w_book w)) x) (Some evID) (orders (w_book w)) (bal (w_ledger w) suspense_key) (tabs w) →
  x ∈ payments (tabs w) → pays_for i oid uid sc x →
  afterSettleArchived B providers who k evID i kind status it oid uid no (pm_ID x) sc w = (Ok r, w') → shop_ok B w' ∧ shop_lives w w'.
Proof.
  intros Hw Hp Hx Hf H. unfold afterSettleArchived in H. destruct (ri_Offline i); [done|].
  apply bind_Ok in H as ([] & w1 & H1 & H).
  assert (w' = w1) as ->.
  { apply bind_Ok in H as (c & w2 & H2 & H). apply on_pay_Ok in H2 as (p2 & H2 & ->). apply gets_Ok in H2 as [_ ->].
    destruct c; [|done]. injection H as _ <-. destruct w1 as [? ? ? ? []]. reflexivity. }
  clear H. set (F := fks B providers w) in H1. set (settle := settle_archived F who k evID i kind status it oid uid no (pm_ID x) sc) in H1.
  assert (Hs : ∀ st, posts_only (settle st)) by (intros st; apply settle_archived_posts).
  assert (HS : ∀ st w1 w2, on_ledger_ext (settle st) w1 = (Ok (), w2) → lgood w1 → tabs w1 = tabs w → still (w_ledger w) (w_ledger w1) →
             pay_ok (settled_once (orders (w_book w))) None (orders (w_book w)) (bal (w_ledger w2) suspense_key) (tabs w2) ∧
             pay_grows (tabs w) (tabs w2) ∧ w_book w2 = w_book w1).
  { intros st wa wb Hs1 Hg Et St. apply on_ledger_ext_Ok in Hs1 as (l' & p' & y' & Hs1 & E1 & E2 & E3). rewrite Et in Hs1.
    destruct (settle_archived_pays _ _ _ _ _ _ _ _ _ _ _ _ _ _ (orders (w_book w)) _ _ _ _ _ _ Hg
                (pay_ok_susp _ _ _ _ _ _ Hp St) Hx Hf Hs1) as (R & G & _). by rewrite E1, E2, E3. }
  unfold CloseArchivedOrder, order_tx, Do in H1. apply bind_Ok in H1 as (o & w2 & H2 & H). apply gets_Ok in H2 as [-> ->].
  destruct (orders (w_book w) !! oid) as [o|] eqn:Ho; [|done]. destruct (negb _) in H.
  - destruct (quiet_lively W _ (quiet_ledger_ext W _ (Hs _)) _ _ _ Hw H) as [Hw1 Hl].
    destruct (HS _ _ _ H (ck_ledger _ _ (proj1 Hw)) eq_refl ltac:(done)) as (R & G & E). split; [|by split].
    split; [done|]. unfold pays. by rewrite E.
  - apply bind_Ok in H as (o' & w2 & H2 & H). injection H as <-. pose proof (own_row W _ _ _ Hw Ho) as Ho'.
    destruct (release_lives W _ _ _ _ _ _ _ _ _ _ _ Hw Ho' (or_introl eq_refl) (quiet_ledger_ext W _ (Hs _)) H2) as (Hw2 & Hl & _).
    destruct (releaseOrderWith_Ok W _ _ _ _ _ _ _ _ _ _ _ Hw Ho' (or_introl eq_refl) (quiet_ledger_ext W _ (Hs _)) H2)
      as (v & Bc & _ & L & Es & Et).
    eapply release_closes in H2 as (wa & wb & n & [Sa Ea] & Ga & Ha & Sb & Hb); [|apply Hw|].
    2: { intros w3 w4 Hg ([l' x'] & H3 & ->)%zoom_Ok. destruct (Hs _ _ _ _ _ _ Hg H3). done. }
    destruct (HS _ _ _ Ha Ga Ea Sa) as (R & G & _). destruct (closeOrderIntents_keeps _ _ _ _ _ _ _ _ _ R Hb) as (K & G2 & Hn).
    split; [|split; [done|by etrans]]. split; [done|]. unfold pays.
    eapply closed_pays; [exact K|exact Sb|exact Hn|exact Bc|exact Ho'|done|done|exact Et|done].
Qed.

(** ** The whole transaction *)

Lemma savepoint_Ok {A} (m : WM A) w r w' : savepoint m w = (Ok r, w') →
  match r with Ok a => m w = (Ok a, w') | Err _ => w' = w end.
Proof. unfold savepoint. destruct (m w) as [[a|e] w1]; by intros [= <- <-]. Qed.

Lemma fresh_uncased K pend O s p x : pay_ok K pend O s p → pm_ID x = pay_next p → pm_ID x ∉ map lc_PaymentID (cases p).
Proof.
  intros Hp Ei (c & E & Hc)%list_elem_of_fmap. destruct (sk_good _ _ _ _ (yk_cases _ _ _ _ _ Hp) _ Hc) as (_ & y & Hy & Ey & _).
  pose proof (mk_fresh _ _ _ (yk_payments _ _ _ _ _ Hp) _ Hy). lia.
Qed.

Lemma record_new_pays who k evID i pr it oid uid no sc w r w' : world_ok W w → pays (Some evID) w → aimed w i it oid uid sc →
  record_new B providers who k evID i pr it oid uid no sc w = (Ok r, w') → shop_ok B w' ∧ shop_lives w w'.
Proof.
  intros Hw Hp [Au Ad Ao] H. unfold record_new in H. cbv zeta in H.
  apply bind_Ok in H as (pid & w1 & H1 & H). apply on_pay_Ok in H1 as (p1 & H1 & ->). apply NewV7_Ok in H1 as [-> ->].
  apply bind_Ok in H as ([] & w1 & H1 & H). apply with_fk_Ok in H1 as (p1 & H1 & ->).
  match type of H1 with InsertPayment _ ?y _ = _ => set (x := y) in * end.
  apply InsertPayment_Ok in H1 as (Hck & Hk & Hfk & ->).
  assert (Hwn : ∀ p1, world_ok W (with_tabs p1 (with_tabs (bumped (tabs w)) w))) by (intros p1; by repeat apply with_tabs_world).
  change (set_payments _ _) with (recorded x (tabs w)) in H. specialize (Hwn (recorded x (tabs w))).
  set (w1 := with_tabs (recorded x (tabs w)) _) in *.
  assert (Ho : ∃ o, orders (w_book w) !! oid = Some o).
  { simpl in Hfk. unfold has_order in Hfk. apply bool_decide_eq_true in Hfk as [o Ho]. by exists o. }
  destruct Ho as [o Ho]. assert (Hf : pays_for i oid uid sc x) by done.
  apply bind_Ok in H as (r1 & w2 & H1 & H). apply savepoint_Ok in H1. destruct r1 as [[]|e].
  - pose proof (SettlePayment_settles _ _ _ _ _ Hwn H1) as HS. destruct (settles_settlements _ _ _ _ HS) as (S0 & S1 & S2).
    destruct HS as [Hw2 Hl2 [St Et] (o0 & o' & Ho0 & Ho' & _ & _ & Ha & F) Hr]. cbn [si_OrderID si_Amount] in *.
    change (orders (w_book w1)) with (orders (w_book w)) in *. rewrite Ho in Ho0. injection Ho0 as <-.
    assert (Hgood : payment_good (orders (w_book w)) x).
    { split; [done|]. exists o. split_and!; [done|by apply Au|]. destruct (Equal_spec (dec_sub (ri_Amount i) sc) (od_Payable o)) as [E|]; [|done].
      by rewrite <- E, dec_sub_val. }
    eapply afterSettleSuccess_pays in H as (? & ? & _); [split; eassumption|..].
    + rewrite (Et : tabs w2 = recorded x (tabs w)). eapply pay_ok_susp; [|exact St].
      eapply (recorded_ok (settled_once (orders (w_book w)))); [exact Hp|done|done|done|]. intros HK.
      eapply settled_once_settle; [exact HK|by eapply fresh_uncased|done|done|done].
    + exact (lives_extends _ _ Hl2).
    + intros j y Hj Hy. by rewrite <- (Hr j Hj).
    + rewrite (Et : tabs w2 = recorded x (tabs w)). exact Ao.
    + done.
    + rewrite (Et : tabs w2 = recorded x (tabs w)). apply recorded_grows.
    + exact Hl2.
  - subst w2. destruct (ri_Offline i) eqn:Eoff.
    { exfalso. destruct e; try done. unfold afterSettleArchived, afterSettleQuarantine in H. rewrite Eoff in H.
      by destruct (String.eqb _ CaseArchivedPlan). }
    assert (Hgood : payment_good (orders (w_book w)) x).
    { split; [done|]. exists o. split_and!; [done|by apply Au|]. by apply (Ad eq_refl). }
    assert (Hx : x ∈ payments (tabs w1)) by (simpl; apply elem_of_app; right; by constructor).
    assert (Hpo : pay_ok (owed (orders (w_book w1)) x) (Some evID) (orders (w_book w1)) (bal (w_ledger w1) suspense_key) (tabs w1)).
    { by apply recorded_owed. }
    assert (HR : shop_ok B w' ∧ shop_lives w1 w').
    { destruct e; try done. destruct (String.eqb _ CaseArchivedPlan);
        [exact (afterSettleArchived_pays _ _ _ _ _ _ _ _ _ _ x _ _ _ _ Hwn Hpo Hx Hf H)
        |exact (afterSettleQuarantine_pays _ _ _ _ _ _ _ _ _ _ x _ _ _ _ Hwn Hpo Hx Hf H)]. }
    destruct HR as [R [L G]]. split; [done|]. split; [exact L|]. etrans; [|exact G]. apply recorded_grows.
Qed.

(** An event written, or written and finished, and nothing else. *)
Lemma evented_grows f p : pay_grows p (set_events f (bumped p)).
Proof. by split. Qed.
Lemma event_cases F e w b w' : pays None w → pv_ID e = pay_next (tabs w) →
  with_fk B providers (λ _, InsertEvent F e) (with_tabs (bumped (tabs w)) w) = (Ok b, w') →
  if b then pays (Some (pv_ID e)) w' ∧ ∃ f, w' = with_tabs (set_events f (bumped (tabs w))) w else w' = with_tabs (bumped (tabs w)) w.
Proof.
  intros Hp Ei (p & H & ->)%with_fk_Ok. destruct b.
  - pose proof (event_added _ _ _ _ _ _ _ Hp Ei H) as K. apply InsertEvent_Ok in H as (_ & _ & ->). rewrite Ei. split; [exact K|]. by eexists.
  - by apply InsertEvent_Ok in H as ->.
Qed.
Lemma finish_shop now st msg f w0 w evID b w' : world_ok W w0 → w = with_tabs (set_events f (bumped (tabs w0))) w0 → pays (Some evID) w →
  st ≠ eventPending → on_pay (FinishEvent now evID st msg) w = (Ok b, w') → shop_ok B w' ∧ shop_lives w0 w'.
Proof.
  intros Hw -> Hp Hst (p & H & ->)%on_pay_Ok. pose proof (FinishEvent_keeps _ _ _ _ _ _ _ _ _ _ Hp Hst H) as K.
  apply FinishEvent_Ok in H as [-> _]. split; [split; [by repeat apply with_tabs_world|done]|]. split; [by intros id|]. by split.
Qed.
Lemma bumped_shop w : shop_ok B w → shop_ok B (with_tabs (bumped (tabs w)) w) ∧ shop_lives w (with_tabs (bumped (tabs w)) w).
Proof. intros [Hw Hp]. apply with_tabs_shop; [done|by apply bumped_keeps|by split]. Qed.
Lemma NewV7_trades : trades (on_pay NewV7).
Proof. intros w id w' Hw (p & [-> ->]%NewV7_Ok & ->)%on_pay_Ok. by apply bumped_shop. Qed.

Lemma gets_trades {A} (f : pay → A) : trades (on_pay (gets f)).
Proof. apply trades_pay. by intros K O s p a p' Hp [_ ->]%gets_Ok. Qed.

(** A fresh event and how it ends. *)
Lemma event_step (e : uuid → event_row) {A} (f : uuid → bool → WM A) w a w' : (∀ id, pv_ID (e id) = id) → (∀ id, trades (f id false)) →
  (∀ id w1 g, w1 = with_tabs (set_events g (bumped (tabs w))) w → pays (Some id) w1 →
     f id true w1 = (Ok a, w') → shop_ok B w' ∧ shop_lives w w') →
  shop_ok B w → (evID ← on_pay NewV7; inserted ← with_fk B providers (λ F, InsertEvent F (e evID)); f evID inserted) w = (Ok a, w') →
  shop_ok B w' ∧ shop_lives w w'.
Proof.
  intros He Hf Ht Hw H. apply bind_Ok in H as (id & w1 & H1 & H). apply on_pay_Ok in H1 as (p & [-> ->]%NewV7_Ok & ->).
  apply bind_Ok in H as (b & w2 & H2 & H).
  pose proof (event_cases _ _ _ _ _ (proj2 Hw) (He _) H2) as Hb. destruct b.
  - destruct Hb as [Hp [g Eg]]. rewrite He in Hp. by eapply Ht.
  - subst w2. destruct (bumped_shop _ Hw) as [H3 L3]. destruct (Hf _ _ _ _ H3 H) as [H4 L4]. split; [done|by etrans].
Qed.

Lemma record_unverified_trades k i : trades (record_unverified B providers k i).
Proof.
  unfold record_unverified. apply keeps_bind; [apply _|apply NewV7_trades|]. intros fake. cbv zeta.
  intros w a w' Hw. eapply event_step; [done|intros id; keeps_walk| |done]. intros id w1 g Ew Hp H.
  apply bind_Ok in H as ([] & w2 & H1 & H). injection H as _ <-. apply bind_Ok in H1 as (b & w3 & H2 & H1). injection H1 as <-.
  by eapply finish_shop; [exact (proj1 Hw)|exact Ew|exact Hp| |exact H2].
Qed.

(** The intent a report names is for its order's exact amount. *)
Lemma record_target_aimed pend i pr w t w' : pays pend w →
  (∀ x, ri_Offline i = Some x → ∀ o, orders (w_book w) !! ot_OrderID x = Some o → ot_UserID x = od_UserID o) →
  record_target i pr w = (Ok t, w') →
  w' = w ∧ aimed w i t.1 t.2.1.1 t.2.1.2 (match t.1 with Some it => it_Surcharge it | None => dec_zero end).
Proof.
  intros Hp Hoff H. unfold record_target in H. destruct (ri_Offline i) as [x|] eqn:Eo.
  - injection H as <- <-. split; [done|]. split; simpl; [by apply Hoff|congruence|done].
  - apply bind_Ok in H as (it & w1 & H1 & H). apply on_pay_Ok in H1 as (p & [Hit ->]%gets_Ok & ->). 
    assert (Ew : with_tabs (tabs w) w = w) by (by destruct w as [? ? ? ? []]). rewrite Ew in H.
    destruct it as [it|]; [|done]. destruct (Equal_spec (ri_Amount i) (it_Amount it)) as [Ea|]; [|done]. simpl negb in H. cbv iota in H.
    destruct (_ && _); [done|]. injection H as <- <-. split; [done|]. symmetry in Hit. apply find_some in Hit as [Hin _]. apply list_elem_of_In in Hin.
    destruct (ik_good _ _ _ (yk_intents _ _ _ _ _ Hp) _ Hin) as (_ & o & Ho & Eu & Ep & _). split; simpl.
    + intros o' Ho'. rewrite Ho in Ho'. by injection Ho' as <-.
    + intros _ o' Ho'. rewrite Ho in Ho'. injection Ho' as <-. by rewrite Ea.
    + by intros y [= <-].
Qed.

(** What [i] says about its target when it is an offline payment. *)
Definition honest (i : recordInput) (w : world X) : Prop :=
  ∀ x, ri_Offline i = Some x → ∀ o, orders (w_book w) !! ot_OrderID x = Some o → ot_UserID x = od_UserID o.

Lemma replay_shop k evID i oid sc x f w0 w r w' : world_ok W w0 → w = with_tabs (set_events f (bumped (tabs w0))) w0 → pays (Some evID) w →
  replay k evID i oid sc x w = (Ok r, w') → shop_ok B w' ∧ shop_lives w0 w'.
Proof.
  intros Hw Ew Hp H. unfold replay in H. destruct (negb _) in H; [done|]. destruct (_ || _) in H; [done|].
  apply bind_Ok in H as (b & w1 & H1 & H). injection H as _ <-. by eapply finish_shop; [exact Hw|exact Ew|exact Hp| |exact H1].
Qed.

Lemma recordPaymentTx_shop who k i hook w r w' : (∀ h r, hook = Some h → trades (h r)) → shop_ok B w → honest i w →
  recordPaymentTx B providers who k i hook w = (Ok r, w') → shop_ok B w' ∧ shop_lives w w'.
Proof.
  intros Hh Hw Hoff H. unfold recordPaymentTx in H. destruct (negb _) in H; [by eapply record_unverified_trades|].
  apply bind_Ok in H as ([] & w0 & H1 & H). apply lift_Ok in H1 as [_ ->]. cbv zeta in H. eapply event_step in H; [exact H|done| | |exact Hw].
  { intros id. simpl negb. cbv iota. unfold PaymentByProviderRef. keeps_walk. apply gets_trades. }
  clear H. intros id w1 g Ew Hp H. cbv beta in H. change (negb true) with false in H. cbv iota in H. destruct (negb _) in H.
  { apply bind_Ok in H as (b & w2 & H2 & H). injection H as _ <-. by eapply finish_shop; [exact (proj1 Hw)|exact Ew|exact Hp| |exact H2]. }
  apply bind_Ok in H as ([] & w2 & H2 & H). apply lift_Ok in H2 as [_ ->].
  apply bind_Ok in H as ([it [[oid uid] no]] & w2 & H2 & H).
  destruct (record_target_aimed _ _ _ _ _ _ Hp ltac:(by rewrite Ew) H2) as [-> Ha]. simpl in Ha. destruct (String.eqb _ "") in H; [done|].
  apply bind_Ok in H as (found & w2 & H3 & H). apply on_pay_Ok in H3 as (p & [-> ->]%gets_Ok & ->).
  assert (Ew1 : with_tabs (tabs w1) w1 = w1) by (by destruct w1 as [? ? ? ? []]). rewrite Ew1 in H. cbv beta in H.
  destruct (List.find _ _).
  - by eapply replay_shop; [exact (proj1 Hw)|exact Ew|exact Hp|exact H].
  - apply bind_Ok in H as (res & w2 & H3 & H). apply bind_Ok in H as ([] & w3 & H4 & H). injection H as _ <-.
    assert (Hw1 : world_ok W w1) by (rewrite Ew; by apply with_tabs_world, Hw).
    destruct (record_new_pays _ _ _ _ _ _ _ _ _ _ _ _ _ Hw1 Hp Ha H3) as [Hw2 L2].
    assert (L1 : shop_lives w w1) by (rewrite Ew; split; [by intros j|by split]).
    assert (Hw3 : shop_ok B w3 ∧ shop_lives w2 w3).
    { destruct hook as [h|]; [by eapply Hh|]. by injection H4 as <-. }
    destruct Hw3 as [Hw3 L3]. split; [done|]. do 2 (etrans; [eassumption|]). done.
Qed.
End Recording.
