(* ===== verification/PayTrades.v ===== *)
(** The other operations on payments: webhooks, offline payments, late
    payments, starting a payment and clearing old evidence.  Each keeps the
    invariant of orders and payments and moves rows along their life cycles. *)
From Stdlib Require Import ZArith QArith Lqa Lia.
From stdpp Require Import base tactics list gmap strings sorting relations pretty.
From S2P Require Import Prelude Safety Decimal GoString Money GoTime LedgerTypes LedgerFacts Ledger LedgerInv LedgerOps Promo PromoThms.
From S2P Require Import Period OrderAmounts Proration SubTypes SubStore SubFacts Subscription OrderStore OrderFlow OrderInv OrderLife OrderHistory.
From S2P Require Import PayStore PayFlow PayInv PayOps PayRecord.
#[local] Open Scope string_scope.
#[local] Open Scope Z_scope.

Section Reports.
Context `{DL : DecimalLib} {Y : Type} (B : OrderEnv Y) (providers : gset uuid).
Abbreviation X := (pay * Y)%type.
Abbreviation WM := (M (world X) oerr).
Abbreviation W := (wired B).
Abbreviation trades := (keeps (E := oerr) (shop_ok B) shop_lives).
Hypothesis hook_modest : ∀ hook o, OnOrderPaid B = Some hook → modest (hook o).

(** Whatever its answer, the operation is safe. *)
Definition commits {A} (m : WM A) : Prop := ∀ w, shop_ok B w → shop_ok B (m w).2 ∧ shop_lives w (m w).2.
Lemma commits_tx {A} (m : WM A) : trades m → commits (order_tx false m).
Proof. intros Hm w Hw. eapply safe_commit; [apply _|exact Hm|exact Hw|apply surjective_pairing]. Qed.
Lemma commits_attempt {A} (m : WM A) : commits m → trades (attempt m).
Proof. intros Hm w a w' Hw H. unfold attempt in H. injection H as <- <-. by apply Hm. Qed.
Lemma commits_bind {A C} (m : WM A) (f : A → WM C) : commits m → (∀ a, commits (f a)) → commits (m ≫= f).
Proof.
  intros Hm Hf w Hw. unfold mbind, M_bind. specialize (Hm w Hw). destruct (m w) as [[a|e] w1]; [|done]. simpl in Hm.
  destruct Hm as [Hw1 L1]. destruct (Hf a _ Hw1) as [Hw2 L2]. split; [done|by etrans].
Qed.
Lemma commits_reads {A} (m : WM A) : (∀ w, (m w).2 = w) → commits m.
Proof. intros Hm w Hw. by rewrite Hm. Qed.
Lemma commits_attempt' {A} (m : WM A) : commits m → commits (attempt m).
Proof. intros Hm w Hw. exact (Hm w Hw). Qed.

(** A step that changes neither what orders say nor what payments do. *)
Lemma quiet_trades {A} (m : WM A) : keeps (E := oerr) (core W) same_views m →
  keeps (E := oerr) (lgood (Y := Y)) (calmly (Y := Y)) m → trades m.
Proof.
  intros Hq Hc w a w' [Hw Hp] H. destruct (quiet_placing W _ Hq _ _ _ Hw H) as [Hw' Hpl].
  destruct (Hc _ _ _ (ck_ledger _ _ (proj1 Hw)) H) as [_ C]. split; [split; [done|by eapply places_pays]|].
  split; [by apply places_lives|]. by rewrite (proj2 C : tabs w' = tabs w).
Qed.
Lemma order_audit_trades a id : trades (order_audit a id).
Proof. apply quiet_trades; [apply order_audit_quiet|apply order_audit_calm]. Qed.

(** ** Recording *)

Lemma recordRefMismatchEvidence_trades inTx k i : trades (recordRefMismatchEvidence B providers inTx k i).
Proof.
  unfold recordRefMismatchEvidence, order_tx. cbv zeta. apply keeps_Do. intros w a w' Hw.
  eapply event_step; [done|intros id; keeps_walk| |done]. intros id w1 g Ew Hp H. cbv beta in H.
  change (negb true) with false in H. cbv iota in H. apply bind_Ok in H as (b & w2 & H2 & H). injection H as _ <-.
  by eapply finish_shop; [exact (proj1 Hw)|exact Ew|exact Hp| |exact H2].
Qed.

Lemma recordPayment_shop inTx who k i hook w r w' : (∀ h r, hook = Some h → trades (h r)) → shop_ok B w → honest i w →
  recordPayment B providers inTx who k i hook w = (Ok r, w') → shop_ok B w' ∧ shop_lives w w'.
Proof.
  intros Hh Hw Hi H. unfold recordPayment in H. destruct (order_tx _ _ w) as [[r1|e] w1] eqn:E; [|by repeat case_match].
  injection H as -> ->. apply Do_Ok in E. by eapply recordPaymentTx_shop.
Qed.
Lemma recordPayment_commits who k i hook w : (∀ h r, hook = Some h → trades (h r)) → shop_ok B w → honest i w →
  shop_ok B (recordPayment B providers false who k i hook w).2 ∧ shop_lives w (recordPayment B providers false who k i hook w).2.
Proof.
  intros Hh Hw Hi. destruct (recordPayment B providers false who k i hook w) as [[r|e] w'] eqn:E; [by eapply recordPayment_shop|].
  simpl. unfold recordPayment in E. destruct (order_tx _ _ w) as [[r1|e1] w1] eqn:E1; [done|]. apply Do_Err in E1 as ->.
  assert (Hev : shop_ok B (attempt (recordRefMismatchEvidence B providers false k i) w).2 ∧
                shop_lives w (attempt (recordRefMismatchEvidence B providers false k i) w).2).
  { eapply (commits_attempt' (recordRefMismatchEvidence B providers false k i)); [|exact Hw].
    unfold recordRefMismatchEvidence. apply commits_tx. exact (recordRefMismatchEvidence_trades true k i). }
  assert (Ec : w' = w ∨ w' = (attempt (recordRefMismatchEvidence B providers false k i) w).2).
  { clear -E. repeat case_match; simplify_eq; first [by left|by right]. }
  by destruct Ec as [-> | ->].
Qed.

Lemma HandleWebhook_state ch k code inbound p ad nt w : adapterFor ch code false = Ok (p, ad) → ParseNotification ad inbound = Ok nt →
  (HandleWebhook B providers ch k code inbound w).2 = (recordPayment B providers false None k (webhook_input p nt) None w).2.
Proof.
  intros Ha Hp. unfold HandleWebhook, mbind, M_bind, lift. rewrite Ha. cbv beta iota. cbn [snd]. rewrite Hp. unfold handle_notification.
  by destruct (recordPayment _ _ _ _ _ _ _ _).
Qed.
Lemma HandleWebhook_commits ch k code inbound : commits (HandleWebhook B providers ch k code inbound).
Proof.
  intros w Hw. destruct (adapterFor ch code false) as [[p ad]|e] eqn:Ha; [|unfold HandleWebhook, mbind, M_bind, lift; by rewrite Ha].
  destruct (ParseNotification ad inbound) as [n|] eqn:Hp.
  - rewrite (HandleWebhook_state _ _ _ _ _ _ _ _ Ha Hp). by apply recordPayment_commits.
  - unfold HandleWebhook, mbind, M_bind, lift. rewrite Ha. cbv beta iota. cbn [snd]. by rewrite Hp.
Qed.

(** [MarkPaid] names the order's own user. *)
Lemma MarkPaid_trades ch inTx who k i : trades (MarkPaid B providers ch inTx who k i).
Proof.
  unfold MarkPaid, order_tx. apply keeps_bind; [apply _|apply keeps_lift, _|]. intros p. apply keeps_bind; [apply _|apply keeps_lift, _|].
  intros reason. cbv zeta. apply keeps_Do. intros w a w' Hw H. apply bind_Ok in H as (o & w1 & H1 & H). apply gets_Ok in H1 as [-> ->].
  destruct (orders (w_book w) !! mp_OrderID i) as [o|] eqn:Ho; [|done]. pose proof (own_row W _ _ _ (proj1 Hw) Ho) as Ho'.
  destruct (negb _) in H; [done|]. destruct (negb _) in H; [done|]. apply bind_Ok in H as (rec & w1 & H1 & H).
  assert (H2 : shop_ok B w1 ∧ shop_lives w w1).
  { unfold RecordOffline in H1. cbv zeta in H1. repeat (destruct (_ || _) in H1; [done|]).
    apply bind_Ok in H1 as (pr & w2 & H2 & H1). apply lift_Ok in H2 as [_ ->]. destruct (negb _) in H1; [done|].
    eapply recordPayment_shop in H1; [exact H1|done|exact Hw|]. intros x [= <-] o' Hx. simpl in *. rewrite Ho' in Hx. by injection Hx as <-. }
  destruct H2 as [Hw1 L1]. apply bind_Ok in H as (after & w2 & H2 & H). apply reload_Ok in H2 as [-> _].
  apply bind_Ok in H as ([] & w2 & H3 & H). injection H as _ <-. destruct (order_audit_trades _ _ _ _ _ Hw1 H3) as [Hw2 L2].
  split; [done|by etrans].
Qed.

(** ** Late payments *)

Lemma ApplyLatePayment_trades inTx who k id reason : trades (ApplyLatePayment inTx who k id reason).
Proof.
  unfold ApplyLatePayment, order_tx. cbv zeta. destruct (_ || _); [apply keeps_fail, _|]. apply keeps_Do.
  intros w t w' Hw H. apply bind_Ok in H as (c & w1 & H1 & H). apply on_pay_Ok in H1 as (p & [-> ->]%gets_Ok & ->). cbv beta in H.
  assert (Ew : with_tabs (tabs w) w = w) by (by destruct w as [? ? ? ? []]). rewrite Ew in H.
  destruct (List.find _ _) as [c|] eqn:Ec; [|done]. apply find_some in Ec as [Hc _]. apply list_elem_of_In in Hc. destruct Hw as [Hw Hp].
  destruct (quiet_lively W _ (quiet_ledger_ext W _ (applyLateCase_posts who k c (TrimSpace reason))) _ _ _ Hw H) as [Hw1 Hl].
  apply on_ledger_ext_Ok in H as (l' & p' & y' & H & E1 & E2 & E3).
  destruct (applyLateCase_pays _ _ _ _ (orders (w_book w)) _ _ _ _ _ _ _ (ck_ledger _ _ (proj1 Hw)) Hp Hc H) as (R & G & _).
  split; [|split; [done|by rewrite E2]]. split; [done|]. unfold pays. by rewrite E1, E2, E3.
Qed.

(** Evidence of forged reports may be cleared. *)
Lemma PurgeUnverifiedEvents_trades now before n : trades (on_pay (PurgeUnverifiedEvents now before n)).
Proof.
  apply trades_pay. intros K O s p a p' [H1 H2 H3 [V1 V2 V3 V4 V5] H5] H. unfold PurgeUnverifiedEvents in H. destruct (_ || _); [done|].
  cbv zeta in H. set (gone := map pv_ID _) in H. clearbody gone. injection H as _ <-. split; [|by split]. split; simpl; try done. split.
  - eapply sublist_NoDup; [exact V1|]. apply fmap_sublist, filter_sublist.
  - intros e [_ He]%elem_of_filter_bool. by apply V2.
  - eapply sublist_NoDup; [exact V3|]. apply fmap_sublist, filter_sublist.
  - intros e [_ He]%elem_of_filter_bool. by apply V4.
  - intros e [_ He]%elem_of_filter_bool. by apply V5.
Qed.
End Reports.

(** * Starting a payment *)

Section Starting.
Context `{DL : DecimalLib} {Y : Type} (B : OrderEnv Y) (providers : gset uuid).
Abbreviation X := (pay * Y)%type.
Abbreviation WM := (M (world X) oerr).
Abbreviation W := (wired B).
Abbreviation trades := (keeps (E := oerr) (shop_ok B) shop_lives).

(** The changes of an intent's row respect its life. *)
Lemma update_trades (m : M pay oerr Z) hit f : m = update_intents hit f → (∀ i, hit i = true → intent_life i (f i)) → trades (on_pay (one_row m)).
Proof.
  intros -> Hf. apply trades_pay. intros K O s p b p' Hp (n & H & _)%one_row_Ok.
  destruct (update_intents_keeps _ _ _ _ _ _ _ _ _ Hp Hf H) as (Hp' & L & g & ->). split; [done|by split].
Qed.
Lemma with_checkout_life m url form ref i : intent_life i (with_checkout m url form ref i).
Proof. split; [done|by left]. Qed.
Lemma placeholder_active id i : placeholder id i = true → it_Status i = IntentRequiresAction.
Proof. unfold placeholder. intros [[_ H%String.eqb_eq]%andb_true_iff _]%andb_true_iff. done. Qed.
Lemma CancelPlaceholderIntent_trades id : trades (on_pay (CancelPlaceholderIntent id)).
Proof.
  eapply update_trades; [done|]. intros i Hi. apply with_state_life. by rewrite (placeholder_active _ _ Hi).
Qed.
Lemma FillPlaceholderIntent_trades id m url form ref : trades (on_pay (FillPlaceholderIntent id m url form ref)).
Proof. eapply update_trades; [done|]. intros i Hi. apply with_checkout_life. Qed.
Lemma SetIntentProviderRef_trades id ref : trades (on_pay (SetIntentProviderRef id ref)).
Proof. eapply update_trades; [done|]. intros i Hi. apply with_checkout_life. Qed.
Lemma CancelIntent_trades id : trades (on_pay (SetIntentStatus id IntentRequiresAction IntentCancelled)).
Proof.
  eapply update_trades; [done|]. intros i [_ E%String.eqb_eq]%andb_true_iff. apply with_state_life. by rewrite E.
Qed.

Lemma CompleteIntent_commits inTx d : commits B (CompleteIntent inTx d).
Proof.
  assert (Hx : ∀ A (x : result oerr A), commits B (lift x)) by (intros A x; by apply commits_reads).
  destruct d as [r|ad req r]; simpl; [exact (Hx _ (Ok r))|]. destruct inTx; [exact (Hx _ (Err _))|].
  assert (Hc : commits B (_ ← attempt (order_tx false (on_pay (CancelPlaceholderIntent (ir_IntentID r))));
                          (fail (OPay PayUnavailable) : WM IntentResult))).
  { apply commits_bind; [|intros []; exact (Hx _ (Err _))]. apply commits_attempt', commits_tx, CancelPlaceholderIntent_trades. }
  destruct (CreatePayment ad req) as [resp|]; [|exact Hc]. destruct (badResp resp); [exact Hc|]. cbv zeta.
  apply commits_bind; [apply commits_tx, FillPlaceholderIntent_trades|]. intros [|]; [exact (Hx _ (Ok _))|].
  apply commits_bind; [|intros []; exact (Hx _ (Err _))].
  destruct (if String.eqb _ "" then _ else _); [|exact (Hx _ (Ok _))]. apply commits_attempt', commits_tx, SetIntentProviderRef_trades.
Qed.

(** A new intent of a pending order, for what is due on it. *)
Lemma InsertIntent_trades (e : uuid → intent_row) w id w1 r w' o :
  (∀ n, it_ID (e n) = n) → shop_ok B w → on_pay NewV7 w = (Ok id, w1) →
  with_fk B providers (λ F, InsertIntent F (e id)) w1 = (Ok r, w') →
  orders (w_book w) !! it_OrderID (e id) = Some o → od_Status o = StatusPending → it_UserID (e id) = od_UserID o →
  (val (it_Amount (e id)) - val (it_Surcharge (e id)) == val (od_Payable o))%Q →
  shop_ok B w' ∧ shop_lives w w'.
Proof.
  intros He [Hw Hp] (p0 & [-> ->]%NewV7_Ok & ->)%on_pay_Ok (p & H & ->)%with_fk_Ok Ho Es Eu Ea. set (i := e (pay_next (tabs w))) in *.
  assert (Ei : it_ID i = pay_next (tabs w)) by apply He. unfold InsertIntent in H. destruct (negb _) in H; [done|]. destruct (negb _) in H; [done|].
  destruct (intent_check i) eqn:Ec; [|done]. simpl negb in H. cbv iota in H. destruct (intents_unique _) eqn:Eq; [|done]. simpl negb in H. cbv iota in H.
  destruct (negb _) in H; [done|]. injection H as <- <-.
  destruct (bumped_keeps _ _ _ _ _ Hp) as [[I1 I2 I3 I4] B2 B3 B4 B5].
  split; [split; [by repeat apply with_tabs_world|]|].
  - split; simpl; try done. split; simpl.
    + intros j [Hj| ->%list_elem_of_singleton]%elem_of_app; [by apply I1|]. split; [done|]. by exists o.
    + rewrite map_app. apply NoDup_app. split_and!; [done| |apply NoDup_singleton]. simpl.
      intros n (y & -> & Hy)%list_elem_of_fmap Hin%list_elem_of_singleton.
      pose proof (ik_fresh _ _ _ (yk_intents _ _ _ _ _ Hp) _ Hy). lia.
    + intros j [Hj| ->%list_elem_of_singleton]%elem_of_app; [by apply I3|]. lia.
    + done.
  - split; [by intros j|]. split; simpl; [apply intents_life_app|done|done].
Qed.

Lemma begin_tx_shop now db i p ad method sc gross expires req w d w' o : shop_ok B w →
  orders (w_book w) !! ii_OrderID i = Some o → od_Status o = StatusPending → ii_UserID i = od_UserID o →
  (val gross - val sc == val (od_Payable o))%Q →
  begin_tx B providers now db i p ad method sc gross expires req w = (Ok d, w') → shop_ok B w' ∧ shop_lives w w'.
Proof.
  intros Hw Ho Es Eu Ea H. unfold begin_tx in H. cbv zeta in H. apply bind_Ok in H as (act & w1 & H1 & H).
  destruct (gets_trades B _ _ _ _ Hw H1) as [Hw1 L1]. apply on_pay_Ok in H1 as (p1 & [_ ->]%gets_Ok & ->).
  destruct (match act with Some a => _ | None => false end); [destruct act; [by injection H as _ <-|done]|].
  apply bind_Ok in H as ([] & w2 & H2 & H).
  assert (Hc : (shop_ok B w2 ∧ shop_lives (with_tabs (tabs w) w) w2) ∧ w_book w2 = w_book w).
  { destruct act as [a|]; [|by injection H2 as <-]. apply bind_Ok in H2 as (cr & w3 & H3 & H2).
    assert (E3 : w3 = with_tabs (tabs w) w).
    { destruct (String.eqb _ ""); [by apply on_pay_Ok in H3 as (p3 & [_ ->]%gets_Ok & ->)|by injection H3 as _ <-]. }
    destruct cr; [done|]. destruct (negb _) in H2; [done|]. apply bind_Ok in H2 as (u & w4 & H4 & H2). destruct u; [|done]. injection H2 as <-.
    rewrite E3 in H4. split; [by eapply CancelIntent_trades|]. by apply on_pay_Ok in H4 as (p4 & _ & ->). }
  destruct Hc as [[Hw2 L2] Eb]. apply bind_Ok in H as (n & w3 & H3 & H).
  destruct (gets_trades B _ _ _ _ Hw2 H3) as [Hw3 L3]. apply on_pay_Ok in H3 as (p3 & [_ ->]%gets_Ok & ->).
  destruct (_ <? _); [done|]. apply bind_Ok in H as (id & w4 & H4 & H). apply bind_Ok in H as ([] & w5 & H5 & H). injection H as _ <-.
  apply map_err_Ok in H5.
  eapply (InsertIntent_trades (λ id, mkIntent id _ _ _ _ _ _ _ _ _ _ _ _ _ _ _ _ _)) in H5 as [Hw5 L5];
    [|done|exact Hw3|exact H4|simpl; rewrite Eb; exact Ho|done|done|done].
  split; [done|]. etrans; [exact L1|]. etrans; [exact L2|]. etrans; [exact L3|]. done.
Qed.

Lemma PayBegin_trades ch inTx who k now db i : trades (PayBegin B providers ch inTx who k now db i).
Proof.
  unfold PayBegin, order_tx. do 4 (apply keeps_bind; [apply _|apply keeps_lift, _|]; intros ?). apply keeps_Do. clear.
  intros w d w' Hw H. apply bind_Ok in H as (o & w1 & H1 & H). apply gets_Ok in H1 as [-> ->]. cbv beta in H.
  destruct (orders (w_book w) !! py_OrderID i) as [o|] eqn:Ho; [|done]. destruct (_ =? _)%N; [|done].
  pose proof (own_row W _ _ _ (proj1 Hw) Ho) as Ho'.
  destruct (String.eqb_spec (od_Status o) StatusPending) as [Es|]; [|done]. change (negb true) with false in H. cbv iota in H.
  destruct (negb _) in H; [done|]. destruct (negb _) in H; [done|]. apply bind_Ok in H as ([] & w1 & H1 & H).
  assert (w1 = w) as ->.
  { destruct (planOrder _); [|by injection H1 as <-]. apply bind_Ok in H1 as (it & w2 & H2 & H1).
    assert (w2 = w) as ->.
    { unfold onlyItem in H2. apply bind_Ok in H2 as (l & w3 & H3 & H2). apply gets_Ok in H3 as [_ ->]. repeat case_match; try done; by injection H2 as _ <-. }
    apply bind_Ok in H1 as (b & w2 & H3 & H1). apply lift_Ok in H3 as [_ ->]. destruct b; [done|]. by injection H1 as <-. }
  apply bind_Ok in H as (title & w1 & H2 & H).
  assert (w1 = w) as -> by (unfold payTitle in H2; apply bind_Ok in H2 as (l & w3 & H3 & H2); apply gets_Ok in H3 as [_ ->]; by injection H2 as _ <-).
  unfold BeginIntent in H. cbv zeta in H. repeat (destruct (_ || _) in H; [done|]). destruct (String.eqb _ "") in H; [done|].
  apply bind_Ok in H as (pa & w1 & H3 & H). apply lift_Ok in H3 as [_ ->]. apply bind_Ok in H as (m & w1 & H3 & H). apply lift_Ok in H3 as [_ ->].
  destruct (LessThan _ _); [done|]. destruct (negb _) in H; [done|]. apply bind_Ok in H as (base & w1 & H3 & H). apply lift_Ok in H3 as [_ ->].
  destruct (negb _) in H; [done|]. unfold order_tx, Do in H. eapply begin_tx_shop in H; [exact H|exact Hw|exact Ho'|done|done|].
  simpl. rewrite dec_add_val. lra.
Qed.
End Starting.
