(* ===== verification/PayQuery.v ===== *)
(** Asking the channel (query.go): a query by a user or an administrator
    (order/service/payops.go) and the patrol, which asks about due intents with
    growing distance.  What the channel reports as paid is recorded on the same
    path as a callback. *)
From Stdlib Require Import ZArith QArith Lqa Lia.
From stdpp Require Import base tactics list gmap strings sorting relations.
From S2P Require Import Prelude Safety Decimal GoString Money GoTime LedgerTypes Ledger Promo Period SubTypes SubStore OrderStore OrderFlow.
From S2P Require Import OrderInv OrderLife PayStore PayFlow PayInv PayOps PayRecord PayTrades.
#[local] Open Scope string_scope.
#[local] Open Scope Z_scope.

(** * The schedule *)

Record patrolConfig := mkPatrol { FirstDelay : Duration; MaxAttempts : Z; BatchLimit : nat; LastCallLead : Duration }.
Definition defaultPatrol : patrolConfig := mkPatrol (5 * Minute) 6 20 (90 * Second).
Definition queryMinGap : Duration := Minute.

Fixpoint backoff (n : nat) (delay : Duration) : Duration :=
  match n with
  | O => delay
  | S n' => if delay <? 24 * Hour then backoff n' (delay * 2) else delay
  end.
Definition nextQueryAt (now : Time) (attempts0 : Z) (expires : option Time) (p : patrolConfig) : Time :=
  let attempts := if attempts0 <? 1 then 1 else attempts0 in
  let delay := backoff (Z.to_nat (attempts - 1)) (FirstDelay p) in
  let delay := if delay <? queryMinGap then queryMinGap else delay in
  let next := now + delay in
  match expires with
  | Some e =>
      let lastCall := e - LastCallLead p in
      if After next lastCall && negb (lastCall <? now + queryMinGap) then lastCall else next
  | None => next
  end.

Definition ChannelNotFound := "not_found".
Definition ChannelUnpaid := "unpaid".
Definition ChannelPaid := "paid".

Section PayQuery.
Context `{DL : DecimalLib} {Y : Type} (B : OrderEnv Y) (providers : gset uuid).
Abbreviation X := (pay * Y)%type.
Abbreviation WM := (M (world X) oerr).
Abbreviation W := (wired B).

(** * Queries *)

Record QueryResult := mkQuery {
  qr_OrderID : uuid; qr_OrderNo : string; qr_ProviderCode : string; qr_ChannelStatus : string;
  qr_Reconciled : bool; qr_AlreadyRecorded : bool; qr_QuarantineKind : string }.

(** An answer, or an error and whether it says the channel takes no queries;
    and whether an administrator's query was audited with the payment. *)
Definition answered : Type := result (bool * oerr) QueryResult * bool.

Definition query_input (p : providerRecord) (a : ChannelAnswer) (outTradeNo : string) : recordInput :=
  mkRecord p (qa_PaymentRef a ++ ":RECONCILED") EventSucceeded (qa_PaymentRef a) outTradeNo None (qa_Amount a) dec_zero (qa_Method a)
    (<["source" := "active_query"]> {["method" := qa_Method a]}) true true.
Definition query_hook (admin : bool) (orderID : uuid) : option (RecordResult → WM ()) :=
  if admin then Some (λ _, on_pay (pay_audit "order.payment_queried" orderID)) else None.

(** The hook runs last and on new payments only; it has run whatever becomes of
    the commit. *)
Definition hook_ran (admin : bool) (who : option Principal) (k : Call) (i : recordInput) (orderID : uuid) (w : world X) : bool :=
  admin && match recordPaymentTx B providers who k i (query_hook admin orderID) w with
           | (Ok res, _) => rr_Processed res
           | _ => false
           end.

Definition queryRef (ch : Channels) (who : option Principal) (k : Call) (admin : bool) (orderID : uuid) (ref : intent_row) (w : world X)
    : answered * world X :=
  let code := providerCode ch (it_ProviderID ref) in
  let out st := mkQuery orderID (it_OrderNo ref) code st false false "" in
  let stop e := (Err e, false, w) in
  match adapterFor ch code false with
  | Err (OPay ErrProviderDisabled) => stop (false, OPay PayUnavailable)
  | Err e => stop (false, e)
  | Ok (p, ad) =>
      match QueryPayment ad (it_OutTradeNo ref) with
      | Err true => stop (true, OPay ErrQueryUnsupported)
      | Err false => stop (false, OPay PayUnavailable)
      | Ok a =>
          if negb (qa_Found a) then (Ok (out ChannelNotFound), false, w)
          else if negb (String.eqb (qa_Status a) "succeeded") then (Ok (out ChannelUnpaid), false, w)
          else if String.eqb (qa_PaymentRef a) "" then stop (false, OPay PayUnavailable)
          else
            let i := query_input p a (it_OutTradeNo ref) in
            let '(r, w') := recordPayment B providers false who k i (query_hook admin orderID) w in
            let audited := hook_ran admin who k i orderID w in
            match r with
            | Err e => (Err (false, e), audited, w')
            | Ok rec => (Ok (mkQuery orderID (it_OrderNo ref) code ChannelPaid (rr_Processed rec) (rr_AlreadyHandled rec) (rr_Kind rec)),
                         audited, w')
            end
      end
  end.

(** One intent after another until one is paid; else the first answer, else the
    first error. *)
Fixpoint query_refs (ch : uuid → Channels) (who : option Principal) (k : uuid → Call) (admin : bool) (orderID : uuid) (l : list intent_row)
    (answer : option QueryResult) (first : option (bool * oerr)) (notSupported audited : bool) (w : world X) : answered * world X :=
  match l with
  | [] =>
      (match answer, first with
       | Some a, _ => Ok a
       | None, Some (ns, e) => Err (notSupported || ns, e)
       | None, None => Err (notSupported, OPay PayInternal)
       end, audited, w)
  | ref :: l' =>
      let '(r, au, w') := queryRef (ch (it_ID ref)) who (k (it_ID ref)) admin orderID ref w in
      match r with
      | Err (ns, e) =>
          query_refs ch who k admin orderID l' answer (match first with Some _ => first | None => Some (ns, e) end)
            (notSupported || ns) (audited || au) w'
      | Ok one =>
          if String.eqb (qr_ChannelStatus one) ChannelPaid then (Ok one, audited || au, w')
          else query_refs ch who k admin orderID l' (match answer with Some _ => answer | None => Some one end) first notSupported
                 (audited || au) w'
      end
  end.
Definition queryOrder (ch : uuid → Channels) (who : option Principal) (k : uuid → Call) (admin : bool) (orderID : uuid) (w : world X)
    : answered * world X :=
  match QueryRefs orderID (tabs w) with
  | (Ok [], _) => (Err (false, OPay ErrNeverPaid), false, w)
  | (Ok l, _) => query_refs ch who k admin orderID l None None false false w
  | (Err e, _) => (Err (false, e), false, w)
  end.

Definition is_admin (who : option Principal) : bool :=
  match who with Some p => String.eqb (pr_Audience p) AudienceAdmin | None => false end.
(** [Service.Query] of the payment module. *)
Definition PaymentQuery (ch : uuid → Channels) (who : option Principal) (k : uuid → Call) (orderID : uuid) : WM QueryResult := λ w,
  let '(r, audited, w') := queryOrder ch who k (is_admin who) orderID w in
  let res := match r with Ok q => Ok q | Err (_, e) => Err e end in
  if is_admin who && negb audited then
    match order_tx false (on_pay (pay_audit "order.payment_queried" orderID)) w' with
    | (Ok _, w'') => (res, w'')
    | (Err _, w'') => (Err (OPay PayInternal), w'')
    end
  else (res, w').

(** [Query] and [AdminQuery] of the order module: whose order it is, and the
    order after the query. *)
Definition query (ch : uuid → Channels) (who : option Principal) (k : uuid → Call) (orderID : uuid) : WM (QueryResult * string) :=
  res ← PaymentQuery ch who k orderID;
  o ← OrderByID orderID;
  match o with
  | None => fail OErrNotFound
  | Some o => mret (mkQuery (od_ID o) (od_No o) (qr_ProviderCode res) (qr_ChannelStatus res) (qr_Reconciled res) (qr_AlreadyRecorded res)
                      (qr_QuarantineKind res), od_Status o)
  end.
Definition Query (ch : uuid → Channels) (who : option Principal) (k : uuid → Call) (orderID : uuid) : WM (QueryResult * string) :=
  p ← lift (order_principal who);
  o ← OrderForUser orderID (pr_UserID p);
  match o with
  | Some o => query ch who k orderID
  | None => fail OErrNotFound
  end.
Definition AdminQuery (ch : uuid → Channels) (who : option Principal) (k : uuid → Call) (orderID : uuid) : WM (QueryResult * string) :=
  _ ← lift (adminPrincipal who);
  o ← OrderByID orderID;
  match o with
  | Some o => query ch who k orderID
  | None => fail OErrNotFound
  end.

(** * The patrol *)

Record PatrolStats := mkStats { pt_Queried : Z; pt_Reconciled : Z; pt_Failed : Z }.
(** What one turn of the loop reads: the context, the database's clock, the
    locks and the channels. *)
Record Turn := mkTurn {
  tn_Cancelled : bool; tn_now : Time; tn_locked : uuid → bool; tn_rows : list providerRecord; tn_ch : uuid → Channels; tn_k : uuid → Call }.

Definition rowEnabled (rows : list providerRecord) (id : uuid) : bool := existsb (λ p, (pr_ID p =? id)%N && pr_Enabled p) rows.
Definition claim (t : Turn) (p : patrolConfig) : WM (option intent_row) :=
  order_tx false (
    due ← on_pay (ClaimDueIntent (rowEnabled (tn_rows t)) (tn_locked t) (tn_now t) (MaxAttempts p) (FirstDelay p));
    match due with
    | None => mret None
    | Some d =>
        marked ← on_pay (MarkIntentQueried (it_ID d) (nextQueryAt (tn_now t) (it_QueryAttempts d + 1) (it_ExpiresAt d) p));
        if negb marked then fail (OPay PayInternal) else mret (Some d)
    end).

Fixpoint patrol (p : patrolConfig) (fuel : nat) (turns : nat → Turn) (st : PatrolStats) : WM PatrolStats :=
  match fuel with
  | O => mret st
  | S fuel' => λ w,
      let t := turns O in
      if tn_Cancelled t then (Ok st, w)
      else match claim t p w with
           | (Err e, w1) => (Err e, w1)
           | (Ok None, w1) => (Ok st, w1)
           | (Ok (Some d), w1) =>
               let '(r, _, w2) := queryOrder (tn_ch t) None (tn_k t) false (it_OrderID d) w1 in
               let st1 := mkStats (pt_Queried st + 1) (pt_Reconciled st) (pt_Failed st) in
               match r with
               | Err (ns, _) =>
                   let w3 := if ns : bool then (attempt (order_tx false (on_pay (StopIntentQueries (it_ID d) (MaxAttempts p)))) w2).2 else w2 in
                   patrol p fuel' (λ n, turns (S n)) (mkStats (pt_Queried st1) (pt_Reconciled st1) (pt_Failed st1 + 1)) w3
               | Ok q =>
                   patrol p fuel' (λ n, turns (S n))
                     (mkStats (pt_Queried st1) (pt_Reconciled st1 + if qr_Reconciled q then 1 else 0) (pt_Failed st1)) w2
               end
           end
  end.
Definition ReconcileDue (turns : nat → Turn) : WM PatrolStats := patrol defaultPatrol (BatchLimit defaultPatrol) turns (mkStats 0 0 0).

(** * Queries are safe *)

Section Safe.
Hypothesis hook_modest : ∀ hook o, OnOrderPaid B = Some hook → modest (hook o).
Abbreviation trades := (keeps (E := oerr) (shop_ok B) shop_lives).
Abbreviation to w w' := (shop_ok B w' ∧ shop_lives w w').

Lemma pay_audit_trades a id : trades (on_pay (pay_audit a id)).
Proof. apply trades_pay. intros K O s p [] p' Hp H. unfold pay_audit in H. injection H as <-. split; [by apply audited_keeps|by split]. Qed.
Lemma query_hook_trades admin id h r : query_hook admin id = Some h → trades (h r).
Proof. destruct admin; [|done]. intros [= <-]. apply pay_audit_trades. Qed.

Lemma queryRef_safe ch who k admin id ref w : shop_ok B w → to w (queryRef ch who k admin id ref w).2.
Proof.
  intros Hw. unfold queryRef. cbv zeta. destruct (adapterFor _ _ _) as [[p ad]|e]; [|by repeat case_match].
  destruct (QueryPayment _ _) as [a|[]]; try done. destruct (negb _); [done|]. destruct (negb _); [done|]. destruct (String.eqb _ ""); [done|].
  pose proof (recordPayment_commits B providers hook_modest who k (query_input p a (it_OutTradeNo ref)) (query_hook admin id) w
                (λ h r, query_hook_trades admin id h r) Hw ltac:(by intros x)) as H.
  by destruct (recordPayment _ _ _ _ _ _ _ _) as [[r|e] w'].
Qed.
Lemma query_refs_safe ch who k admin id l a f ns au w : shop_ok B w → to w (query_refs ch who k admin id l a f ns au w).2.
Proof.
  revert a f ns au w. induction l as [|ref l IH]; intros a f ns au w Hw; simpl; [done|].
  pose proof (queryRef_safe (ch (it_ID ref)) who (k (it_ID ref)) admin id ref w Hw) as H.
  destruct (queryRef _ _ _ _ _ _ _) as [[r au1] w1]. simpl in H. destruct H as [Hw1 L1].
  destruct r as [one|[ns1 e]]; [destruct (String.eqb _ ChannelPaid); [done|]|];
    (match goal with |- to _ (query_refs _ _ _ _ _ _ ?a ?f ?ns ?au _).2 => destruct (IH a f ns au w1 Hw1) as [Hw2 L2] end);
    (split; [done|by etrans]).
Qed.
Lemma queryOrder_safe ch who k admin id w : shop_ok B w → to w (queryOrder ch who k admin id w).2.
Proof. intros Hw. unfold queryOrder. simpl. destruct (merge_sort _ _) as [|i l]; [done|]. by apply query_refs_safe. Qed.
Lemma PaymentQuery_commits ch who k id : commits B (PaymentQuery ch who k id).
Proof.
  intros w Hw. unfold PaymentQuery. pose proof (queryOrder_safe ch who k (is_admin who) id w Hw) as H.
  destruct (queryOrder _ _ _ _ _ _) as [[r au] w1]. simpl in H. destruct H as [Hw1 L1]. destruct (_ && _); [|done].
  pose proof (commits_tx B _ (pay_audit_trades "order.payment_queried" id) w1 Hw1) as [Hw2 L2].
  destruct (order_tx _ _ w1) as [[]  w2]; simpl in *; (split; [done|by etrans]).
Qed.
Lemma query_commits ch who k id : commits B (query ch who k id).
Proof.
  apply commits_bind; [apply PaymentQuery_commits|]. intros q. apply commits_bind; [by apply commits_reads|]. intros [o|]; by apply commits_reads.
Qed.
Lemma Query_commits ch who k id : commits B (Query ch who k id).
Proof.
  apply commits_bind; [by apply commits_reads|]. intros p. apply commits_bind; [by apply commits_reads|].
  intros [o|]; [apply query_commits|by apply commits_reads].
Qed.
Lemma AdminQuery_commits ch who k id : commits B (AdminQuery ch who k id).
Proof.
  apply commits_bind; [by apply commits_reads|]. intros p. apply commits_bind; [by apply commits_reads|].
  intros [o|]; [apply query_commits|by apply commits_reads].
Qed.

Lemma with_queries_life n next i : intent_life i (with_queries n next i).
Proof. split; [done|by left]. Qed.
Lemma claim_commits t p : commits B (claim t p).
Proof.
  apply commits_tx. apply keeps_bind; [apply _|apply gets_trades|]. intros [d|]; [|apply keeps_ret, _].
  apply keeps_bind; [apply _| |].
  - eapply update_trades; [done|]. intros i _. apply with_queries_life.
  - intros []; [apply keeps_ret, _|apply keeps_fail, _].
Qed.
Lemma StopIntentQueries_trades id n : trades (on_pay (StopIntentQueries id n)).
Proof.
  apply trades_pay. intros K O s p a p' Hp H. unfold StopIntentQueries in H. apply bind_Ok in H as (m & p1 & H1 & H). injection H as _ <-.
  destruct (update_intents_keeps _ _ _ _ _ _ _ _ _ Hp ltac:(intros i _; apply with_queries_life) H1) as (Hp' & L & g & ->). split; [done|by split].
Qed.

Lemma patrol_commits p n ts st : commits B (patrol p n ts st).
Proof.
  revert ts st. induction n as [|n IH]; intros ts st w Hw; simpl; [done|]. destruct (tn_Cancelled _); [done|].
  pose proof (claim_commits (ts O) p w Hw) as H. destruct (claim _ _ w) as [[[d|]|e] w1]; simpl in H; try done. destruct H as [Hw1 L1].
  pose proof (queryOrder_safe (tn_ch (ts O)) None (tn_k (ts O)) false (it_OrderID d) w1 Hw1) as H.
  destruct (queryOrder _ _ _ _ _ w1) as [[r au] w2]. simpl in H. destruct H as [Hw2 L2].
  assert (HI : ∀ ts st w3, shop_ok B w3 → shop_lives w2 w3 → to w (patrol p n ts st w3).2).
  { intros ts' st' w3 Hw3 L3. destruct (IH ts' st' w3 Hw3) as [Hw4 L4]. split; [done|]. do 3 (etrans; [eassumption|]). done. }
  destruct r as [q|[ns e]]; [by apply HI|]. destruct ns; [|by apply HI].
  destruct (commits_attempt' B _ (commits_tx B _ (StopIntentQueries_trades (it_ID d) (MaxAttempts p))) w2 Hw2) as [Hw3 L3]. by apply HI.
Qed.
End Safe.
End PayQuery.
