(* ===== verification/PayHistory.v ===== *)
(** Every history of the shop with its payment module: orders placed, cancelled
    and expired, payments started, reported, queried, marked and applied, and
    what other modules do in between. *)
From Stdlib Require Import ZArith QArith Lqa Lia.
From stdpp Require Import base tactics list gmap strings sorting relations.
From S2P Require Import Prelude Safety Decimal GoString Money GoTime LedgerTypes LedgerFacts Ledger LedgerInv LedgerOps Promo PromoThms.
From S2P Require Import Period OrderAmounts Proration SubTypes SubStore SubFacts Subscription SubHistory OrderStore OrderFlow OrderInv OrderLife OrderHistory.
From S2P Require Import PayStore PayFlow PayInv PayOps PayRecord PayTrades PayQuery.
#[local] Open Scope string_scope.
#[local] Open Scope Z_scope.

(** * The other modules *)

(** What the shop asks of the modules around it: the hook of a paid order and
    whatever they do by themselves ([others]) keep the ledger sound and leave
    the holds and the account of late payments alone. *)
Class GoodNeighbours `{DecimalLib} {Y : Type} (B : OrderEnv Y) (others : relation (ledger * Y)) : Prop := {
  gn_hook : ∀ hook c, OnOrderPaid B = Some hook → modest (hook c);
  gn_others : ∀ s s', others s s' → good s.1 → good s'.1 ∧ holds s'.1 = holds s.1 ∧ still s.1 s'.1;
}.

(** Neighbours of which only this is known: entries of the ledger's own
    requests away from late payments, and any change to their tables. *)
Section Foreign.
Context `{DL : DecimalLib} {Y : Type}.
Context (audit_Write : audit_event → result lerr ()) (IsDeleted : uuid → result lerr bool).
Definition foreign_entry (o : op) : Prop :=
  other_entry o ∧ match o with OpPost _ p => spares (p_Legs p) | _ => True end.
Inductive foreign (s : ledger * Y) : ledger * Y → Prop :=
| fo_entry o : foreign_entry o → foreign s (run audit_Write IsDeleted o s.1, s.2)
| fo_rest y : foreign s (s.1, y).

(** Such a request posts, adjusts a balance, or changes nothing. *)
Lemma run_cases o l : other_entry o → run audit_Write IsDeleted o l = l ∨
  (∃ who p id, o = OpPost who p ∧ Post (mkCtx false who) p l = (Ok id, run audit_Write IsDeleted o l)) ∨
  ∃ who a r, o = OpAdjust who a ∧ AdjustBalance audit_Write IsDeleted (mkCtx false who) a l = (Ok r, run audit_Write IsDeleted o l).
Proof.
  intros Ho. destruct o as [who p| | | | |who a]; try done; simpl in *.
  - destruct (Post (mkCtx false who) p l) as [[id|e] l'] eqn:E; simpl; [right; left; by exists who, p, id|left].
    unfold Post in E. destruct (Dedicated _); [by injection E as _ <-|]. unfold DoL in E. by apply Do_Err in E as ->.
  - destruct (AdjustBalance audit_Write IsDeleted (mkCtx false who) a l) as [[r|e] l'] eqn:E; simpl; [right; right; by exists who, a, r|left].
    unfold AdjustBalance, mbind, M_bind, lift at 1 in E. destruct (principal _); [|by injection E as _ <-].
    destruct (negb _); [by injection E as _ <-|]. destruct (_ =? _)%N; [by injection E as _ <-|]. unfold lift at 1 in E.
    destruct (normalizeAdjustment a); [|by injection E as _ <-]. unfold DoL in E. by apply Do_Err in E as ->.
Qed.
Lemma run_foreign o l : foreign_entry o → good l → good (run audit_Write IsDeleted o l) ∧
  holds (run audit_Write IsDeleted o l) = holds l ∧ still l (run audit_Write IsDeleted o l).
Proof.
  intros [Ho Hs] Hl. destruct (run_other audit_Write IsDeleted o l Ho Hl) as [Hg Hh]. split_and!; [done..|].
  destruct (run_cases o l Ho) as [->|[(who & p & id & -> & E)|(who & a & r & -> & E)]]; [done|by eapply Post_calm|].
  eapply AdjustBalance_still; [apply Hl|exact E].
Qed.

Lemma foreign_good (B : OrderEnv Y) : (∀ hook c, OnOrderPaid B = Some hook → modest (hook c)) → GoodNeighbours B foreign.
Proof. intros Hh. split; [done|]. intros [l y] s' [o Ho|y'] Hg; [by apply run_foreign|done]. Qed.
End Foreign.

(** * Histories *)

Section PayHistory.
Context `{DL : DecimalLib} {Y : Type} (B : OrderEnv Y) (providers : gset uuid) (others : relation (ledger * Y)).
Abbreviation X := (pay * Y)%type.
Abbreviation W := (wired B).

(** One request, callback or turn of a job. *)
Inductive shop_step (w : world X) : world X → Prop :=
| ss_place who k d : shop_step w (order_tx false (place W who k d) w).2
| ss_cancel who k i : shop_step w (order_tx false (Cancel W true who k i) w).2
| ss_cancel_user who k u : shop_step w (order_tx false (CancelUserPending W true who k u) w).2
| ss_expire ks locked m now n : shop_step w (ExpireOrders W ks locked m now n w).2
| ss_pay ch who k now db i : shop_step w (order_tx false (PayBegin B providers ch true who k now db i) w).2
| ss_complete inTx d : shop_step w (CompleteIntent inTx d w).2
| ss_webhook ch k code inbound : shop_step w (HandleWebhook B providers ch k code inbound w).2
| ss_query ch who k id : shop_step w (Query B providers ch who k id w).2
| ss_admin_query ch who k id : shop_step w (AdminQuery B providers ch who k id w).2
| ss_patrol turns : shop_step w (ReconcileDue B providers turns w).2
| ss_mark_paid ch who k i : shop_step w (order_tx false (MarkPaid B providers ch true who k i) w).2
| ss_apply who k id reason : shop_step w (order_tx false (ApplyLatePayment true who k id reason) w).2
| ss_purge now before n : shop_step w (order_tx false (on_pay (PurgeUnverifiedEvents now before n)) w).2
| ss_coupons p : coupon_admin (oe_promo W) (w_promo w) p → shop_step w (put_promo p w)
| ss_subs s : sub_step (sub_env W w) (w_subs w) s → shop_step w (put_subs s w)
| ss_others l y : others (w_ledger w, (w_ext w).2) (l, y) → shop_step w (put_ext (tabs w, y) (put_ledger l w)).

Context `{HN : !GoodNeighbours B others}.
Let hook_modest := gn_hook (B := B) (others := others).

(** A change that leaves orders and payments alone. *)
Lemma aside_shop w w' : shop_ok B w → core W w' → same_views w w' → calmly w w' → shop_ok B w' ∧ shop_lives w w'.
Proof.
  intros [Hw Hp] Hk Hv Hc. destruct (other_lives W w w' Hw Hk Hv) as [Hw' Hl].
  assert (Hpl : places w w') by (intros j; left; specialize (Hv j); by injection Hv as -> _ _ _).
  split; [split; [done|by eapply places_pays]|]. split; [done|]. by rewrite (proj2 Hc : tabs w' = tabs w).
Qed.

Lemma shop_step_safe w w' : shop_ok B w → shop_step w w' → shop_ok B w' ∧ shop_lives w w'.
Proof.
  intros Hw H. pose proof (proj1 (proj1 Hw)) as Hk.
  destruct H as [who k d|who k i|who k u|ks locked m now n|ch who k now db i|inTx d|ch k code inb|ch who k id|ch who k id|turns|ch who k i
    |who k id reason|now before n|p Hp|s Hs|l y Ho].
  - by apply commits_tx; [apply place_trades|].
  - by apply commits_tx; [apply Cancel_trades|].
  - by apply commits_tx; [apply CancelUserPending_trades|].
  - eapply ExpireOrders_trades; [exact Hw|apply surjective_pairing].
  - by apply commits_tx; [apply PayBegin_trades|].
  - by apply CompleteIntent_commits.
  - by apply HandleWebhook_commits.
  - by apply Query_commits.
  - by apply AdminQuery_commits.
  - by apply patrol_commits.
  - by apply commits_tx; [apply MarkPaid_trades|].
  - by apply commits_tx; [apply ApplyLatePayment_trades|].
  - by apply commits_tx; [apply PurgeUnverifiedEvents_trades|].
  - destruct (coupon_admin_safe _ _ _ (ck_promo _ _ Hk) Hp) as [Hok Er]. apply (aside_shop w); [done| | |done].
    + destruct Hk. by split.
    + intros j. unfold viewOf, red_of. simpl. by rewrite Er.
  - destruct (sub_step_safe _ _ _ (ck_subs _ _ Hk) Hs) as [Hok _]. apply (aside_shop w); [done| |by intros j|done].
    destruct Hk. by split.
  - destruct (gn_others (B := B) _ _ Ho) as (Hg & Eh & Hs); [exact (ck_ledger _ _ Hk)|]. apply (aside_shop w); [done| | |done].
    + destruct Hk. by split.
    + intros j. unfold viewOf. simpl in *. by rewrite Eh.
Qed.

(** The tables of a new installation. *)
Definition new_shop (us : gset uuid) (n : uuid) (y : Y) : world X := empty_world us n (empty_pay, y).
Lemma new_shop_ok us n y : shop_ok B (new_shop us n y).
Proof.
  split; [by apply (empty_world_ok W (λ _, Ok ()) (λ _, Ok false))|]. split; simpl.
  - split; simpl; [by intros i Hi%elem_of_nil|constructor|by intros i Hi%elem_of_nil|done].
  - split; simpl; [by intros i Hi%elem_of_nil|constructor|by intros i Hi%elem_of_nil|constructor].
  - split; simpl; [by intros i Hi%elem_of_nil|constructor|by intros i Hi%elem_of_nil|constructor|reflexivity].
  - split; simpl; [constructor|by intros i Hi%elem_of_nil|constructor|by intros i Hi%elem_of_nil|by intros i Hi%elem_of_nil].
  - intros id. simpl. unfold settlements. by rewrite lookup_empty.
Qed.

Lemma shop_history us n y w w' : rtc shop_step (new_shop us n y) w → rtc shop_step w w' → shop_ok B w ∧ shop_ok B w' ∧ shop_lives w w'.
Proof.
  intros H1 H2. destruct (history_keeps _ _ _ _ _ shop_step_safe (new_shop_ok us n y) H1) as [Hw _].
  destruct (history_keeps _ _ _ _ _ shop_step_safe Hw H2) as [Hw' Hl]. done.
Qed.
End PayHistory.
