(* ===== verification/PayThms.v ===== *)
(** What the payment module promises: over every history each payment settles
    its order or waits as a case, exactly once; the money of open cases is on
    their account; reports that repeat or forge a payment change nothing. *)
From Stdlib Require Import ZArith QArith Qround Lqa Lia.
From stdpp Require Import base tactics list gmap strings sorting relations.
From S2P Require Import Prelude Safety Decimal GoString Money GoTime LedgerTypes LedgerFacts Ledger LedgerInv LedgerOps Promo PromoThms.
From S2P Require Import Period OrderAmounts Proration SubTypes SubStore SubFacts Subscription SubHistory OrderStore OrderFlow OrderInv OrderLife OrderHistory.
From S2P Require Import PayStore PayFlow PayInv PayOps PayRecord PayTrades PayQuery PayHistory.
#[local] Open Scope string_scope.
#[local] Open Scope Z_scope.

(** Text built into reports is not unfolded when terms are compared. *)
#[local] Strategy 1000 [uuid_String unverifiedEvidence clip].

Section PayThms.
Context `{DL : DecimalLib} {Y : Type} (B : OrderEnv Y) (providers : gset uuid).
Context (others : relation (ledger * Y)).
Abbreviation X := (pay * Y)%type.
Abbreviation WM := (M (world X) oerr).
Abbreviation W := (wired B).
Abbreviation shop_step := (shop_step B providers others).

(** * At rest *)

Lemma total_sum l : (val (foldr (λ c acc, dec_add (lc_Amount c) acc) dec_zero (List.filter in_suspense l)) == open_sum l)%Q.
Proof.
  unfold open_sum. induction l as [|c l IH]; simpl; [apply dec_zero_val|]. unfold open_part at 1. destruct (in_suspense c); simpl.
  - by rewrite dec_add_val, IH.
  - rewrite IH. lra.
Qed.

(** A payment without a case has settled its order. *)
Lemma settled_order O P C x : settled_once O P C → x ∈ P → existsb (λ c, (lc_PaymentID c =? pm_ID x)%N) C = false →
  ∃ o, O !! pm_OrderID x = Some o ∧ od_Status o = StatusFulfilled.
Proof.
  intros H Hx Hc. specialize (H (pm_OrderID x)).
  assert (Hin : x ∈ settling_of P C (pm_OrderID x)) by (apply elem_of_filter_bool; by rewrite N.eqb_refl, Hc).
  unfold settlements in H. destruct (O !! pm_OrderID x) as [o|].
  - destruct (String.eqb_spec (od_Status o) StatusFulfilled) as [E|]; [by exists o|].
    simpl in H. apply nil_length_inv in H. rewrite H in Hin. by apply elem_of_nil in Hin.
  - apply nil_length_inv in H. rewrite H in Hin. by apply elem_of_nil in Hin.
Qed.

(** C1: money is taken once and for exactly one thing.  In every state the
    shop can reach a channel's reference is recorded once; a payment is its
    order's user's and is worth exactly what the order has due plus the
    surcharge; an order with money due that was fulfilled has exactly one
    payment without a case and no other order has one, so that the reconciliation
    query only names fulfilled orders; an intent in progress is of a pending
    order, which has no other; and no report is left half handled. *)
Theorem payments_settle_once us n y w :
  GoodNeighbours B others → rtc shop_step (new_shop us n y) w →
  NoDup (map payment_key (payments (tabs w))) ∧
  (∀ x, x ∈ payments (tabs w) → ∃ o, orders (w_book w) !! pm_OrderID x = Some o ∧ pm_UserID x = od_UserID o ∧
     (val (pm_Amount x) == val (od_Payable o) + val (pm_Surcharge x))%Q) ∧
  (∀ id o, orders (w_book w) !! id = Some o →
     length (settling (tabs w) id) = if String.eqb (od_Status o) StatusFulfilled && IsPositive (od_Payable o) then 1%nat else 0%nat) ∧
  (∀ since pid oid, (pid, oid) ∈ SettledPaymentsSince since (tabs w) →
     ∃ o, orders (w_book w) !! oid = Some o ∧ od_Status o = StatusFulfilled) ∧
  (∀ i, i ∈ intents (tabs w) → it_Status i = IntentRequiresAction →
     ∃ o, orders (w_book w) !! it_OrderID i = Some o ∧ od_Status o = StatusPending) ∧
  NoDup (active_orders (intents (tabs w))) ∧
  (∀ e, e ∈ pay_events (tabs w) → pv_Status e ≠ eventPending).
Proof.
  intros Hh Hr. destruct (shop_history B providers others us n y w w Hr ltac:(done)) as ([_ [H1 H2 H3 H4 H5]] & _).
  split_and!.
  - apply H2.
  - intros x Hx. destruct (mk_good _ _ _ H2 x Hx) as (_ & o & Ho & Eu & Ea). exists o. split_and!; [done..|]. lra.
  - intros id o Ho. rewrite (H5 id : length (settling (tabs w) id) = _). unfold settlements. by rewrite Ho.
  - intros since pid oid (x & E & [Hf Hx]%elem_of_filter_bool)%list_elem_of_fmap. injection E as -> ->.
    apply andb_true_iff in Hf as [_ Hf%negb_true_iff]. by eapply settled_order.
  - intros i Hi Ha. destruct (ik_good _ _ _ H1 i Hi) as (_ & o & Ho & _ & _ & Hs). exists o. split; [done|]. apply Hs. by apply String.eqb_eq.
  - pose proof (ik_unique _ _ _ H1) as Hu. unfold intents_unique in Hu. apply andb_true_iff in Hu as [_ Hu%bool_decide_eq_true]. done.
  - intros e He Hp. by specialize (vk_done _ _ _ H4 e He Hp).
Qed.

(** C2: money no order took is not lost.  In every state the shop can reach
    the account of late payments holds exactly the total of the cases an
    administrator still has to decide; every case is of one payment, has its
    order and user and the amount the payment brought without the surcharge, and
    no payment has two. *)
Theorem late_payments_conserved us n y w :
  GoodNeighbours B others → rtc shop_step (new_shop us n y) w →
  (∃ total, PendingLateTotals (tabs w) = (Ok total, tabs w) ∧ (bal (w_ledger w) suspense_key == val total)%Q) ∧
  NoDup (map lc_PaymentID (cases (tabs w))) ∧
  (∀ c, c ∈ cases (tabs w) → ∃ x, x ∈ payments (tabs w) ∧ pm_ID x = lc_PaymentID c ∧ pm_OrderID x = lc_OrderID c ∧
     pm_UserID x = lc_UserID c ∧ (val (pm_Amount x) == val (lc_Amount c) + val (pm_Surcharge x))%Q) ∧
  (∀ x, x ∈ payments (tabs w) → (∃ c, c ∈ cases (tabs w) ∧ lc_PaymentID c = pm_ID x) ∨
     ∃ o, orders (w_book w) !! pm_OrderID x = Some o ∧ od_Status o = StatusFulfilled).
Proof.
  intros Hh Hr. destruct (shop_history B providers others us n y w w Hr ltac:(done)) as ([_ [H1 H2 H3 H4 H5]] & _).
  split_and!.
  - eexists. split; [reflexivity|]. rewrite total_sum. apply H3.
  - apply H3.
  - intros c Hc. destruct (sk_good _ _ _ _ H3 c Hc) as (_ & x & Hx & E1 & E2 & E3 & E4). exists x. split_and!; [done..|]. lra.
  - intros x Hx. destruct (existsb (λ c, (lc_PaymentID c =? pm_ID x)%N) (cases (tabs w))) eqn:E.
    + left. apply existsb_exists in E as (c & Hc%list_elem_of_In & Ec%N.eqb_eq). by exists c.
    + right. by eapply settled_order.
Qed.

(** C8: payments are final and the rest follows its state machine.  Between
    any two moments of a history a recorded payment is never changed or removed;
    an intent keeps its order, amount and merchant number and leaves "requires
    action" at most once, for one of the three final states; a case keeps
    everything but its decision, and is decided at most once. *)
Theorem payments_follow_life us n y w w' :
  GoodNeighbours B others → rtc shop_step (new_shop us n y) w → rtc shop_step w w' →
  payments (tabs w) `prefix_of` payments (tabs w') ∧
  (∀ j i, intents (tabs w) !! j = Some i → ∃ i', intents (tabs w') !! j = Some i' ∧ intent_terms i' = intent_terms i ∧
     (it_Status i ≠ IntentRequiresAction → it_Status i' = it_Status i)) ∧
  (∀ j c, cases (tabs w) !! j = Some c → ∃ c', cases (tabs w') !! j = Some c' ∧
     (c' = c ∨ (lc_Status c = LateSuspense ∧ ∃ t reason now, c' = applied_case t reason now c))).
Proof.
  intros Hh Hr Hr'. destruct (shop_history B providers others us n y w w' Hr Hr') as (_ & _ & _ & [G1 G2 G3]).
  split_and!; [done| |].
  - intros j i Hi. destruct (G1 j i Hi) as (i' & Hi' & T & S). exists i'. split_and!; try done. intros Hn. destruct S as [S|S]; [done|].
    unfold CanTransition, intentTransitions in S. by destruct (String.eqb_spec (it_Status i) IntentRequiresAction).
  - intros j c Hc. destruct (G3 j c Hc) as (c' & Hc' & L). exists c'. split; [done|]. destruct L as [L|[Hs Ha]]; [by left|].
    right. split; [by apply String.eqb_eq|done].
Qed.

(** * Reports that change nothing *)

(** Only the list of reports grew or was annotated. *)
Record only_events (w w' : world X) : Prop := {
  oe_book : w_book w' = w_book w; oe_ledger : w_ledger w' = w_ledger w; oe_coupons : w_promo w' = w_promo w;
  oe_subs : w_subs w' = w_subs w; oe_rest : (w_ext w').2 = (w_ext w).2; oe_intents : intents (tabs w') = intents (tabs w);
  oe_payments : payments (tabs w') = payments (tabs w); oe_cases : cases (tabs w') = cases (tabs w);
}.
#[global] Instance only_events_preorder : PreOrder only_events.
Proof. split; [by split|]. intros a b c [] []. split; congruence. Qed.

(** A payment the channel reported under this reference is on record. *)
Definition on_record (provider : uuid) (ref : string) (w : world X) : Prop :=
  ∃ x, x ∈ payments (tabs w) ∧ pm_ProviderID x = provider ∧ pm_Ref x = ref.
Lemma on_record_kept provider ref w w' : only_events w w' → on_record provider ref w → on_record provider ref w'.
Proof. intros H (x & Hx & E). exists x. by rewrite (oe_payments _ _ H). Qed.

Section Harmless.
Context (P : world X → Prop) (P_kept : ∀ w w', only_events w w' → P w → P w').
Abbreviation harmless := (keeps (E := oerr) P only_events).

Lemma harmless_pay {A} (m : M pay oerr A) :
  (∀ p a p', m p = (Ok a, p') → intents p' = intents p ∧ payments p' = payments p ∧ cases p' = cases p) → harmless (on_pay m).
Proof.
  intros Hm w a w' Hw (p' & H & ->)%on_pay_Ok. destruct (Hm _ _ _ H) as (E1 & E2 & E3).
  assert (Ho : only_events w (with_tabs p' w)) by (by split). split; [by eapply P_kept|done].
Qed.
Lemma NewV7_harmless : harmless (on_pay NewV7).
Proof. apply harmless_pay. by intros p a p' [_ ->]%NewV7_Ok. Qed.
Lemma gets_harmless {A} (f : pay → A) : harmless (on_pay (gets f)).
Proof. apply harmless_pay. by intros p a p' [_ ->]%gets_Ok. Qed.
Lemma InsertEvent_harmless e : harmless (with_fk B providers (λ F, InsertEvent F e)).
Proof.
  intros w b w' Hw H. eapply (harmless_pay (InsertEvent (fks B providers w) e)); [|exact Hw|exact H].
  intros p [] p' Hi; [apply InsertEvent_Ok in Hi as (_ & _ & ->)|apply InsertEvent_Ok in Hi as ->]; done.
Qed.
Lemma FinishEvent_harmless now id st msg : harmless (on_pay (FinishEvent now id st msg)).
Proof. apply harmless_pay. by intros p a p' [-> _]%FinishEvent_Ok. Qed.
Lemma record_unverified_harmless k i : harmless (record_unverified B providers k i).
Proof. unfold record_unverified. keeps_walk; auto using NewV7_harmless, InsertEvent_harmless, FinishEvent_harmless. Qed.
Lemma recordRefMismatchEvidence_harmless inTx k i : harmless (recordRefMismatchEvidence B providers inTx k i).
Proof. unfold recordRefMismatchEvidence, order_tx. keeps_walk; auto using NewV7_harmless, InsertEvent_harmless, FinishEvent_harmless. Qed.
Lemma record_target_harmless i pr : harmless (record_target i pr).
Proof. unfold record_target, IntentByOutTradeNo. keeps_walk; auto using gets_harmless. Qed.

(** A transaction of its own, then the evidence of a mismatch. *)
Lemma recordPayment_harmless who k i hook w : harmless (recordPaymentTx B providers who k i hook) → P w →
  only_events w (recordPayment B providers false who k i hook w).2.
Proof.
  intros Hm Hw. unfold recordPayment. destruct (order_tx false (recordPaymentTx B providers who k i hook) w) as [r w1] eqn:E.
  destruct (safe_commit _ _ _ _ _ _ _ Hm Hw E) as [Hw1 H1].
  assert (He : only_events w1 (attempt (recordRefMismatchEvidence B providers false k i) w1).2).
  { unfold attempt, snd at 1. unfold recordRefMismatchEvidence, order_tx.
    eapply (proj2 (A := P _)), safe_commit; [apply _|exact (recordRefMismatchEvidence_harmless true k i)|exact Hw1|apply surjective_pairing]. }
  repeat case_match; try done; (etrans; [exact H1|exact He]).
Qed.
End Harmless.

Lemma recordPayment_cases who k i hook w :
  (recordPayment B providers false who k i hook w).2 = (order_tx false (recordPaymentTx B providers who k i hook) w).2 ∨
  ∃ w', order_tx false (recordPaymentTx B providers who k i hook) w = (Err (OPay ErrProviderRefMismatch), w').
Proof.
  unfold recordPayment. destruct (order_tx false (recordPaymentTx B providers who k i hook) w) as [r w1].
  repeat case_match; try (by left). right. by eexists.
Qed.

(** C9: a payment reported again changes nothing.  When the channel's
    reference is on record, whatever a callback, a query or an administrator
    reports under it leaves orders, ledger, codes, subscriptions, intents,
    payments and cases as they are; at most the list of reports grows. *)
Theorem replay_harmless who k i hook w :
  on_record (pr_ID (ri_Provider i)) (TrimSpace (ri_PaymentRef i)) w →
  only_events w (recordPayment B providers false who k i hook w).2.
Proof.
  intros Hr. eapply (recordPayment_harmless (on_record (pr_ID (ri_Provider i)) (TrimSpace (ri_PaymentRef i))));
    [intros w1 w2; apply on_record_kept| |exact Hr].
  set (P := on_record _ _). assert (PK : ∀ w1 w2, only_events w1 w2 → P w1 → P w2) by (intros w1 w2; apply on_record_kept).
  unfold recordPaymentTx. destruct (negb _); [by apply record_unverified_harmless|]. cbv zeta.
  apply keeps_bind; [apply _|apply keeps_lift, _|]. intros _. apply keeps_bind; [apply _|by apply NewV7_harmless|]. intros ev.
  apply keeps_bind; [apply _|by apply InsertEvent_harmless|]. intros []; simpl negb; cbv iota.
  2: { unfold PaymentByProviderRef. keeps_walk. by apply gets_harmless. }
  destruct (negb _); [keeps_walk; by apply FinishEvent_harmless|]. apply keeps_bind; [apply _|apply keeps_lift, _|]. intros _.
  apply keeps_bind; [apply _|by apply record_target_harmless|]. intros [it [[oid uid] no]]. destruct (String.eqb _ ""); [apply keeps_fail, _|].
  apply (keeps_bind_post _ _ (λ x, x ≠ None)); [by apply gets_harmless| |].
  - intros w1 x w2 (y & Hy & E1 & E2) (p & [-> ->]%gets_Ok & ->)%on_pay_Ok Hn. apply list_elem_of_In in Hy.
    pose proof (find_none _ _ Hn y Hy) as Hf. cbv beta in Hf. by rewrite E1, E2, N.eqb_refl, String.eqb_refl in Hf.
  - intros [x|] Hx; [|done]. unfold replay. keeps_walk. by apply FinishEvent_harmless.
Qed.

(** What an unverified report leaves: one event, ignored. *)
Lemma finish_last st msg now id l e : (∀ x, x ∈ l → pv_ID x ≠ id) → pv_ID e = id → pv_Status e = eventPending →
  upd (finish_hit id) (finished st msg now) (l ++ [e]) = (l ++ [finished st msg now e])%list.
Proof.
  intros Hl Ei Es. unfold upd. rewrite map_app. f_equal.
  - transitivity (map (λ x, x) l); [|by rewrite map_id]. apply map_ext_in. intros x Hx%list_elem_of_In.
    unfold finish_hit. destruct (N.eqb_spec (pv_ID x) id) as [E|]; [by destruct (Hl x Hx)|done].
  - simpl. unfold finish_hit. by rewrite Ei, N.eqb_refl, Es.
Qed.
Lemma unverified_one_event k i w r w' : pays None w → record_unverified B providers k i w = (Ok r, w') →
  pay_events (tabs w') = pay_events (tabs w) ∨
  ∃ e, pay_events (tabs w') = (pay_events (tabs w) ++ [e])%list ∧ pv_Verified e = false ∧ pv_Status e = eventIgnored.
Proof.
  intros Hp H. unfold record_unverified in H. apply bind_Ok in H as (fake & w1 & H1 & H). apply on_pay_Ok in H1 as (p1 & [-> ->]%NewV7_Ok & ->).
  apply bind_Ok in H as (ev & w1 & H1 & H). apply on_pay_Ok in H1 as (p1 & [-> ->]%NewV7_Ok & ->). cbv zeta in H.
  apply bind_Ok in H as (b & w2 & H2 & H). apply with_fk_Ok in H2 as (p2 & H2 & ->). apply bind_Ok in H as ([] & w3 & H3 & H). injection H as _ <-.
  match type of H2 with InsertEvent _ ?x _ = _ => remember x as e eqn:Ee end.
  assert (F : pv_ID e = pay_next (tabs (with_tabs (bumped (tabs w)) w)) ∧ pv_Status e = eventPending ∧ pv_Verified e = false) by (by rewrite Ee).
  clear Ee. destruct F as (F1 & F2 & F3). destruct b; [|apply InsertEvent_Ok in H2 as ->; injection H3 as <-; by left]. apply InsertEvent_Ok in H2 as (_ & _ & ->).
  apply bind_Ok in H3 as (b & w4 & H4 & H3). injection H3 as <-. apply on_pay_Ok in H4 as (p4 & [-> _]%FinishEvent_Ok & ->). right.
  eexists. split; [apply finish_last; [|done|done]|by split].
  intros x Hx. pose proof (vk_fresh _ _ _ (yk_events _ _ _ _ _ Hp) x Hx). simpl. lia.
Qed.
Definition plain {S A} (m : M S oerr A) : Prop := ∀ s x s', m s ≠ (Err (OPay x), s').
Lemma plain_bind {S A C} (m : M S oerr A) (f : A → M S oerr C) : plain m → (∀ a, plain (f a)) → plain (m ≫= f).
Proof. intros Hm Hf s x s' H. unfold mbind, M_bind in H. destruct (m s) as [[a|e] s1] eqn:E; [by eapply Hf|]. injection H as -> ->. by eapply Hm. Qed.
Lemma plain_pay {A} (m : M pay oerr A) : plain m → plain (on_pay m : WM A).
Proof.
  intros Hm w x w' H. unfold on_pay, on_ext, on_fst, zoom in H. destruct (m (w_ext w).1) as [[a|e] p] eqn:E; [done|].
  injection H as -> _. by eapply Hm.
Qed.
Lemma InsertEvent_plain F e : plain (InsertEvent F e).
Proof. intros p x p' H. unfold InsertEvent in H. by repeat case_match. Qed.
Lemma FinishEvent_plain now id st msg : plain (FinishEvent now id st msg).
Proof. intros p x p' H. unfold FinishEvent in H. by repeat case_match. Qed.
Lemma unverified_error k i : plain (record_unverified B providers k i).
Proof.
  unfold record_unverified. do 2 (apply plain_bind; [by apply plain_pay|]; intros ?). cbv zeta.
  apply plain_bind; [intros w; exact (plain_pay _ (InsertEvent_plain _ _) w)|]. intros [].
  - do 2 (apply plain_bind; [|done]). apply plain_pay, FinishEvent_plain.
  - by apply plain_bind.
Qed.

(** C10: a forged report changes nothing.  When the channel's adapter does not
    verify the signature of a callback, the shop keeps at most one more report,
    marked as ignored and as unverified; everything else stays as it is. *)
Theorem forged_report_harmless us n y w ch k code inbound p ad nt :
  GoodNeighbours B others → rtc shop_step (new_shop us n y) w →
  adapterFor ch code false = Ok (p, ad) → ParseNotification ad inbound = Ok nt → nt_Verified nt = false →
  let w' := (HandleWebhook B providers ch k code inbound w).2 in
  only_events w w' ∧
  (pay_events (tabs w') = pay_events (tabs w) ∨
   ∃ e, pay_events (tabs w') = (pay_events (tabs w) ++ [e])%list ∧ pv_Verified e = false ∧ pv_Status e = eventIgnored).
Proof.
  intros Hh Hr Ha Hp Hv. destruct (shop_history B providers others us n y w w Hr ltac:(done)) as ([Hw Hs] & _).
  cbv zeta. rewrite (HandleWebhook_state B providers _ _ _ _ _ _ _ _ Ha Hp). set (inp := webhook_input p nt).
  assert (Htx : recordPaymentTx B providers None k inp None = record_unverified B providers k inp).
  { unfold recordPaymentTx. change (ri_Verified inp) with (nt_Verified nt). by rewrite Hv. }
  split; [apply (recordPayment_harmless (λ _, True)); [done|rewrite Htx; by apply record_unverified_harmless|done]|]. clearbody inp.
  destruct (recordPayment_cases None k inp None w) as [-> |[w1 H1]]; rewrite Htx in *.
  - destruct (order_tx false (record_unverified B providers k inp) w) as [[r1|e1] w1] eqn:E1; unfold order_tx in E1.
    + apply Do_Ok in E1. exact (unverified_one_event _ _ _ _ _ Hs E1).
    + apply Do_Err in E1 as ->. by left.
  - exfalso. unfold order_tx, Do in H1. destruct (record_unverified B providers k inp w) as [[a|e] w2] eqn:E2.
    + by repeat case_match; simplify_eq.
    + injection H1 as -> _. by eapply unverified_error.
Qed.

(** * Deciding a case *)

Lemma applied_all id t reason now l c : NoDup (map lc_ID l) → c ∈ l → lc_ID c = id → in_suspense c = true →
  upd (case_hit id) (applied_case t reason now) l = map (λ x, if (lc_ID x =? id)%N then applied_case t reason now x else x) l.
Proof.
  intros Hn Hc <- Hs. unfold upd. apply map_ext_in. intros x Hx%list_elem_of_In. unfold case_hit.
  destruct (N.eqb_spec (lc_ID x) (lc_ID c)) as [E|]; [|done]. simpl.
  assert (x = c) as -> by (by eapply (NoDup_map_inj lc_ID)). unfold in_suspense in Hs. by rewrite Hs.
Qed.

(** C11: an open case is decided once, and exactly.  Applying a case moves its
    amount from the account of late payments to its user's balance and no other
    account changes; the case is marked with the entry and the reason, and no
    order, intent, payment or other case is touched; applying it again, by
    anyone, is refused and leaves no trace. *)
Theorem late_payment_applied_once us n y w who k c reason t w' :
  GoodNeighbours B others → rtc shop_step (new_shop us n y) w → c ∈ cases (tabs w) →
  ApplyLatePayment true who k (lc_ID c) reason w = (Ok t, w') →
  lc_Status c = LateSuspense ∧
  (bal (w_ledger w') (balance_key (lc_UserID c)) == bal (w_ledger w) (balance_key (lc_UserID c)) + val (lc_Amount c))%Q ∧
  (bal (w_ledger w') suspense_key == bal (w_ledger w) suspense_key - val (lc_Amount c))%Q ∧
  (∀ key, account_check key = true → key ≠ balance_key (lc_UserID c) → key ≠ suspense_key →
     (bal (w_ledger w') key == bal (w_ledger w) key)%Q) ∧
  cases (tabs w') = map (λ x, if (lc_ID x =? lc_ID c)%N then applied_case t (TrimSpace reason) (k_db k) x else x) (cases (tabs w)) ∧
  (w_book w' = w_book w ∧ payments (tabs w') = payments (tabs w) ∧ intents (tabs w') = intents (tabs w)) ∧
  ∀ who' k' reason', ∃ e, ApplyLatePayment false who' k' (lc_ID c) reason' w' = (Err e, w').
Proof.
  intros Hh Hr Hc H. destruct (shop_history B providers others us n y w w Hr ltac:(done)) as ([Hw Hp] & _).
  pose proof (sk_ids _ _ _ _ (yk_cases _ _ _ _ _ Hp)) as Hn. unfold ApplyLatePayment, order_tx in H. cbv zeta in H. destruct (_ || _); [done|].
  apply Do_Ok in H. apply bind_Ok in H as (c0 & w1 & H1 & H). apply on_pay_Ok in H1 as (p & [-> ->]%gets_Ok & ->). cbv beta in H.
  assert (Ew : with_tabs (tabs w) w = w) by (by destruct w as [? ? ? ? []]). rewrite Ew in H.
  destruct (List.find _ _) as [c0|] eqn:Ec; [|done]. apply find_some in Ec as [Hc0%list_elem_of_In Ei%N.eqb_eq].
  assert (c0 = c) as -> by (by eapply (NoDup_map_inj lc_ID)). apply on_ledger_ext_Ok in H as (l' & p' & y' & H & E1 & E2 & E3).
  destruct (applyLateCase_Ok _ _ _ _ _ _ _ _ _ _ _ (ck_ledger _ _ (proj1 Hw)) H) as (_ & _ & _ & Es & Eu & Hhit & _ & Ek & Ep).
  apply hits_one in Hhit as (d & Hd & Hhit). destruct (case_hit_true _ _ Hhit) as [Ed Hs].
  assert (d = c) as -> by (by eapply (NoDup_map_inj lc_ID)).
  assert (EC : cases (tabs w') = map (λ x, if (lc_ID x =? lc_ID c)%N then applied_case t (TrimSpace reason) (k_db k) x else x) (cases (tabs w))).
  { rewrite E2, Ep. simpl. by eapply (applied_all _ _ _ _ _ c). }
  rewrite E1. split_and!; try done.
  - by apply String.eqb_eq.
  - intros key Hk K1 K2. rewrite (Ek key Hk), delta_on_none; [lra|]. simpl. rewrite !not_elem_of_cons. split_and!; [| |apply not_elem_of_nil];
      intros Er; [apply K2|apply K1]; rewrite <- (keyOf_refOf key Hk), Er; reflexivity.
  - by rewrite E2, Ep.
  - by rewrite E2, Ep.
  - intros who' k' reason'. unfold ApplyLatePayment. cbv zeta. destruct (_ || _); [by eexists|]. exists (OPay ErrCaseResolved).
    unfold order_tx, Do, mbind, M_bind, on_pay, on_ext, on_fst, zoom, LockLateCase, gets. cbn [fst snd].
    assert (Hf : List.find (λ x, (lc_ID x =? lc_ID c)%N) (cases (tabs w')) = Some (applied_case t (TrimSpace reason) (k_db k) c)).
    { rewrite EC. clear -Hn Hc. induction (cases (tabs w)) as [|x l IH]; [by apply elem_of_nil in Hc|]. simpl in Hn.
      apply NoDup_cons in Hn as [Hx Hn]. simpl. destruct (N.eqb_spec (lc_ID x) (lc_ID c)) as [E|E].
      - simpl. rewrite E, N.eqb_refl. apply elem_of_cons in Hc as [->|Hc]; [done|]. exfalso. apply Hx. rewrite E. by apply list_elem_of_fmap_2.
      - destruct (N.eqb_spec (lc_ID x) (lc_ID c)); [done|]. apply IH; try done. by apply elem_of_cons in Hc as [->|Hc]. }
    unfold tabs in Hf. rewrite Hf. reflexivity.
Qed.
End PayThms.

(** * Amounts and times *)

Section Amounts.
Context `{DL : DecimalLib}.

Lemma ceil_cents q : (q <= inject_Z (Qceiling (q * 100)) * (1 # 100) < q + (1 # 100))%Q.
Proof.
  pose proof (Qle_ceiling (q * 100)) as H1. pose proof (Qceiling_lt (q * 100)) as H2.
  assert (E : (inject_Z (Qceiling (q * 100) - 1) == inject_Z (Qceiling (q * 100)) - 1)%Q).
  { unfold Z.sub. rewrite inject_Z_plus. reflexivity. }
  rewrite E in H2. split; lra.
Qed.
Lemma ceil_below q z : (q <= inject_Z z)%Q → (inject_Z (Qceiling q) <= inject_Z z)%Q.
Proof. intros H. rewrite <- Zle_Qle. rewrite <- (Qceiling_Z z). by apply Qceiling_resp_le. Qed.

Lemma Surcharge_ceil amount fixed percent : IsPositive amount = true →
  (val (Surcharge amount fixed percent) ==
     inject_Z (Qceiling ((val amount * val percent * (1 # 100) + val fixed) * 100)) * (1 # 100))%Q.
Proof.
  intros Hp. unfold Surcharge. rewrite Hp. simpl negb. simpl orb. destruct (IsZero fixed && IsZero percent) eqn:Ez.
  - apply andb_true_iff in Ez as [Ef Ep]. destruct (IsZero_spec fixed) as [Ef'|]; [|done]. destruct (IsZero_spec percent) as [Ep'|]; [|done].
    assert (E : ((val amount * val percent * (1 # 100) + val fixed) * 100 == 0)%Q) by (rewrite Ef', Ep'; ring).
    rewrite dec_zero_val, (Qceiling_comp _ _ E). reflexivity.
  - rewrite dec_round_ceil_val by lia. change (p10 (- (2))) with (1 # 100)%Q. apply Qmult_comp; [|reflexivity].
    assert (E : (val (dec_add (dec_shift (dec_mul amount percent) (-2)) fixed) * p10 2 ==
                 (val amount * val percent * (1 # 100) + val fixed) * 100)%Q).
    { rewrite dec_add_val, dec_shift_val, dec_mul_val. change (p10 2) with 100%Q. change (p10 (-2)) with (1 # 100)%Q. reflexivity. }
    by rewrite (Qceiling_comp _ _ E).
Qed.

Lemma ValidFee_bounds max d : ValidFee max d = true → (0 <= val d <= val max)%Q.
Proof.
  unfold ValidFee. rewrite !andb_true_iff, !negb_true_iff. intros [[H1 _] H2].
  destruct (IsNegative_spec d), (GreaterThan_spec d max); try done.
Qed.

(** The surcharge is the channel's, rounded up once.  On a positive amount
    it is the percentage plus the fixed part, rounded up to a cent and no
    further; on anything else it is zero.  With fees the settings accept it is
    never negative and never more than the amount plus 1000. *)
Theorem surcharge_exact amount fixed percent :
  let raw := (val amount * val percent * (1 # 100) + val fixed)%Q in
  let s := val (Surcharge amount fixed percent) in
  (IsPositive amount = false → (s == 0)%Q) ∧
  (IsPositive amount = true → (raw <= s < raw + (1 # 100))%Q ∧ ∃ c, (s == inject_Z c * (1 # 100))%Q) ∧
  (ValidFeeFixed fixed && ValidFeePercent percent && money_ok amount && IsPositive amount = true →
     (0 <= s <= val amount + 1000)%Q).
Proof.
  intros raw s. split_and!.
  - intros Hp. unfold s, Surcharge. rewrite Hp. apply dec_zero_val.
  - intros Hp. pose proof (Surcharge_ceil amount fixed percent Hp) as E. fold raw s in E. pose proof (ceil_cents raw) as H.
    split; [rewrite E; exact H|]. by eexists.
  - rewrite !andb_true_iff. intros [[[Hf Hq] Hm] Hp]. pose proof (Surcharge_ceil amount fixed percent Hp) as E. fold raw s in E.
    apply ValidFee_bounds in Hf, Hq. unfold MaxFeeFixed, MaxFeePercent in Hf, Hq. rewrite dec_new_val in Hf, Hq.
    change (inject_Z 100000 * p10 (-2))%Q with (100000 * (1 # 100))%Q in Hf. change (inject_Z 10000 * p10 (-2))%Q with (10000 * (1 # 100))%Q in Hq.
    destruct (IsPositive_spec amount) as [Hpos|]; [|done]. unfold money_ok in Hm. destruct (Check amount) as [u|] eqn:Ec; [|done].
    apply Check_ok in Ec as Ez. unfold two_places in Ez. set (z := cents_of amount) in *.
    assert (Hr : (0 <= raw * 100 <= inject_Z (z + 100000))%Q).
    { unfold raw. rewrite inject_Z_plus. change (inject_Z 100000) with 100000%Q. rewrite Ez in *. split; nra. }
    pose proof (Qle_ceiling (raw * 100)) as Hc. pose proof (ceil_below _ _ (proj2 Hr)) as Hc2. rewrite inject_Z_plus in Hc2.
    change (inject_Z 100000) with 100000%Q in Hc2. rewrite E. split; [lra|]. rewrite Ez. lra.
Qed.
End Amounts.

Lemma backoff_bounds n d : 0 < d → d < 48 * Hour → d ≤ backoff n d < 48 * Hour.
Proof.
  revert d. induction n as [|n IH]; intros d H1 H2; simpl; [lia|]. destruct (Z.ltb_spec d (24 * Hour)) as [H|H]; [|lia].
  specialize (IH (d * 2) ltac:(lia) ltac:(lia)). lia.
Qed.

(** The patrol keeps its distance and its last call.  Whatever the number
    of attempts, the next query comes at least a minute and at most two days
    later; when the checkout is open for long enough it comes no later than 90
    seconds before the checkout closes, so that a payment made in time is still
    asked about. *)
Theorem next_query_bounds now attempts expires :
  let next := nextQueryAt now attempts expires defaultPatrol in
  now + Minute ≤ next < now + 48 * Hour ∧
  ∀ e, expires = Some e → now + 150 * Second ≤ e → next ≤ e - 90 * Second.
Proof.
  intros next. unfold next, nextQueryAt. cbv zeta. set (k := Z.to_nat _). clearbody k.
  pose proof (backoff_bounds k (FirstDelay defaultPatrol) ltac:(done) ltac:(done)) as Hb. set (d := backoff _ _) in *. clearbody d.
  change (FirstDelay defaultPatrol) with (5 * Minute) in Hb. change (LastCallLead defaultPatrol) with (90 * Second). unfold queryMinGap.
  assert (HM : 0 < Minute ∧ Minute = 60 * Second ∧ Hour = 60 * Minute) by done.
  destruct (Z.ltb_spec d Minute) as [H|_]; [lia|]. destruct expires as [e|]; [|split; [lia|done]].
  unfold After. destruct (Z.ltb_spec (e - 90 * Second) (now + d)) as [H1|H1]; simpl.
  - destruct (Z.ltb_spec (e - 90 * Second) (now + Minute)) as [H2|H2]; simpl; (split; [lia|]); intros e' [= <-] H3; lia.
  - split; [lia|]. intros e' [= <-] H3. lia.
Qed.
