(* ===== verification/PayWitness.v ===== *)
(** A concrete history with payments: an order is paid through a channel and
    the callback arrives twice and forged once; a second order is cancelled
    before its payment arrives, which waits as a case and is applied. *)
From Stdlib Require Import ZArith QArith Lqa Lia.
From stdpp Require Import base tactics list gmap strings sorting relations.
From S2P Require Import Prelude Safety Decimal GoString Money GoTime LedgerTypes LedgerFacts Ledger LedgerInv LedgerOps Promo PromoThms.
From S2P Require Import Period OrderAmounts Proration SubTypes SubStore SubFacts Subscription SubHistory OrderStore OrderFlow OrderInv OrderLife OrderHistory.
From S2P Require Import OrderThms PayStore PayFlow PayInv PayOps PayRecord PayTrades PayQuery PayHistory PayThms.
#[local] Open Scope string_scope.
#[local] Open Scope Z_scope.
#[local] Existing Instance scaled_decimal.

Ltac ev := match goal with |- _ = ?x => vm_cast_no_check (eq_refl x) end.

(** The commission of [OrderThms] leaves late payments alone. *)
Lemma accrue_modest hook p : OnOrderPaid shop = Some hook → modest (hook p).
Proof.
  intros [= <-] l x a l' x' Hg H. unfold accrue in H. simpl in H.
  destruct (Post _ _ l) as [[id|e] l1] eqn:E; [|done]. injection H as _ <- _.
  destruct (Post_quiet (joined p.1.1) (commission p.2) l id l1 ltac:(by repeat constructor) Hg E) as [H1 H2].
  destruct (Post_calm (joined p.1.1) (commission p.2) ltac:(by repeat constructor) ltac:(by repeat constructor) l id l1 Hg E) as [_ H3]. done.
Qed.

(** A channel with 1% and 0.10 on top.  A callback carries the merchant number;
    [ev], [ver] and [amount] are what else it says. *)
Definition epay_provider : providerRecord := mkProvider 500 "epay" "epay" true true ["alipay"] "alipay" dec_zero (10, -2) (100, -2).
Definition epay_adapter (ev : string) (ver : bool) (amount : dec) : Adapter :=
  mkAdapter (λ _, Ok (mkResponse "GET" "https://pay.example/x" ∅ ""))
    (λ no, Ok (mkNotification ev ("T" ++ no) no amount (5, -2) "succeeded" "alipay" ∅ ver))
    (λ a, if AckInput_OK a then "success" else "fail")
    (λ no, Ok (mkAnswer true ("T" ++ no) amount "succeeded" "alipay")).
Definition channels (ev : string) (ver : bool) (amount : dec) : Channels :=
  mkChannels [epay_provider] (λ _, true) (λ _ _, Ok (epay_adapter ev ver amount)) (Ok "") Some false "https://shop.example" [].

Abbreviation wpay := (world (PayStore.pay * list uuid)).
Abbreviation others := (foreign (Y := list uuid) audit_ok none_deleted).
Lemma accrue_good : GoodNeighbours shop others.
Proof. exact (foreign_good audit_ok none_deleted shop accrue_modest). Qed.
Abbreviation pstep := (PayHistory.shop_step shop {[500%N]} others).
Abbreviation chs := (channels "e1" true (2029, -2)).

Definition no_of (id : uuid) (w : wpay) : string := match orders (w_book w) !! id with Some o => od_No o | None => "" end.
Definition draft_of (ch : Channels) (k : Call) (now : Time) (id : uuid) (w : wpay) : IntentDraft :=
  match (order_tx false (PayBegin shop {[500%N]} ch true me k now now (mkPayInput id "epay" "" "" "")) w).1 with
  | Ok d => d
  | Err _ => DraftReused (mkIntentResult 0 "" "" "" ∅ dec_zero dec_zero None false)
  end.

Definition p0 : wpay := new_shop {[7%N; 9%N; 3%N]} 100 [].
Definition p1 : wpay := (order_tx false (place (wired shop) None (at_ 1) (month_draft dec_zero "")) p0).2.
Definition begin_in (m : Z) (id : uuid) (w : wpay) : wpay :=
  (order_tx false (PayBegin shop {[500%N]} chs true me (at_ m) (noon m) (noon m) (mkPayInput id "epay" "" "" "")) w).2.
Definition p2 : wpay := begin_in 2 100 p1.
Definition p3 : wpay := (CompleteIntent false (draft_of chs (at_ 2) (noon 2) 100 p1) p2).2.
Definition callback (m : Z) (ev : string) (ver : bool) (amount : dec) (no : string) (w : wpay) : wpay :=
  (HandleWebhook shop {[500%N]} (channels ev ver amount) (at_ m) "epay" no w).2.
(** Paid, reported again, and forged. *)
Definition p4 : wpay := callback 3 "e1" true (2029, -2) (no_of 100 p1) p3.
Definition p5 : wpay := callback 4 "e2" true (2029, -2) (no_of 100 p1) p4.
Definition p6 : wpay := callback 5 "e3" false (2029, -2) "OTHER" p5.
(** A second order, cancelled before the money arrives. *)
Definition p7 : wpay := (order_tx false (place (wired shop) None (at_ 6) topup_draft) p6).2.
Definition p8 : wpay := begin_in 7 102 p7.
Definition p9 : wpay := (order_tx false (Cancel (wired shop) true me (at_ 8) (mkCancel 102 false None "")) p8).2.
Definition p10 : wpay := callback 9 "e4" true (2030, -2) (no_of 102 p7) p9.
Definition admin : option Principal := Some (mkPrincipal 3 "admin").
Definition late0 : case_row := nth 0 (cases (tabs p10)) (mkCase 0 0 "" "" 0 0 None "" dec_zero "" 0 None None 0 None).
Definition apply_late : M wpay oerr uuid := ApplyLatePayment true admin (at_ 10) (lc_ID late0) "refund to balance".
Definition p11 : wpay := (order_tx false apply_late p10).2.

Lemma to_p6 : rtc pstep p0 p6.
Proof.
  apply (rtc_l _ _ p1); [exact (ss_place shop {[500%N]} others p0 None (at_ 1) (month_draft dec_zero ""))|].
  apply (rtc_l _ _ p2); [exact (ss_pay shop {[500%N]} others p1 chs me (at_ 2) (noon 2) (noon 2) (mkPayInput 100 "epay" "" "" ""))|].
  apply (rtc_l _ _ p3); [exact (ss_complete shop {[500%N]} others p2 false (draft_of chs (at_ 2) (noon 2) 100 p1))|].
  apply (rtc_l _ _ p4); [exact (ss_webhook shop {[500%N]} others p3 (channels "e1" true (2029, -2)) (at_ 3) "epay" (no_of 100 p1))|].
  apply (rtc_l _ _ p5); [exact (ss_webhook shop {[500%N]} others p4 (channels "e2" true (2029, -2)) (at_ 4) "epay" (no_of 100 p1))|].
  apply rtc_once. exact (ss_webhook shop {[500%N]} others p5 (channels "e3" false (2029, -2)) (at_ 5) "epay" "OTHER").
Qed.
Lemma to_p8 : rtc pstep p6 p8.
Proof.
  apply (rtc_l _ _ p7); [exact (ss_place shop {[500%N]} others p6 None (at_ 6) topup_draft)|].
  apply rtc_once. exact (ss_pay shop {[500%N]} others p7 chs me (at_ 7) (noon 7) (noon 7) (mkPayInput 102 "epay" "" "" "")).
Qed.
Lemma to_p10 : rtc pstep p8 p10.
Proof.
  apply (rtc_l _ _ p9); [exact (ss_cancel shop {[500%N]} others p8 me (at_ 8) (mkCancel 102 false None ""))|].
  apply rtc_once. exact (ss_webhook shop {[500%N]} others p9 (channels "e4" true (2030, -2)) (at_ 9) "epay" (no_of 102 p7)).
Qed.
Lemma p0_p8 : rtc pstep p0 p8.
Proof. etrans; [exact to_p6|exact to_p8]. Qed.
Lemma p0_p10 : rtc pstep p0 p10.
Proof. etrans; [exact p0_p8|exact to_p10]. Qed.

Lemma counted (f : uuid → nat) (m : gmap uuid order_row) id st b :
  (∀ id o, m !! id = Some o → f id = if String.eqb (od_Status o) StatusFulfilled && IsPositive (od_Payable o) then 1%nat else 0%nat) →
  option_map (λ o, (od_Status o, IsPositive (od_Payable o))) (m !! id) = Some (st, b) →
  f id = if String.eqb st StatusFulfilled && b then 1%nat else 0%nat.
Proof. intros Hf. destruct (m !! id) as [o|] eqn:E; [|done]. intros [= <- <-]. by apply Hf. Qed.

(** After the three callbacks there is one payment, and the second order waits
    for its own with one intent in progress. *)
Lemma payments_settle_once_witness :
  map (λ x, (pm_OrderID x, pm_Amount x, pm_Surcharge x)) (payments (tabs p8)) = [(100%N, (2029, -2), (30, -2))] ∧
  length (settling (tabs p8) 100) = 1%nat ∧ length (settling (tabs p8) 102) = 0%nat ∧
  active_orders (intents (tabs p8)) = [102%N] ∧ NoDup (active_orders (intents (tabs p8))).
Proof.
  destruct (payments_settle_once shop {[500%N]} others {[7%N; 9%N; 3%N]} 100 [] p8 accrue_good p0_p8)
    as (_ & _ & H3 & _ & _ & H6 & _).
  assert (E1 : option_map (λ o, (od_Status o, IsPositive (od_Payable o))) (orders (w_book p8) !! 100%N) = Some (StatusFulfilled, true)) by ev.
  assert (E2 : option_map (λ o, (od_Status o, IsPositive (od_Payable o))) (orders (w_book p8) !! 102%N) = Some (StatusPending, true)) by ev.
  split; [ev|]. split; [exact (counted _ _ _ _ _ H3 E1)|]. split; [exact (counted _ _ _ _ _ H3 E2)|]. split; [ev|exact H6].
Defined.

Lemma twenty : (val (2000, -2)%Z == 20)%Q.
Proof. reflexivity. Qed.
Lemma same_total (m : M PayStore.pay oerr dec) p t t' b : m p = (Ok t, p) → (m p).1 = Ok t' → (b == val t)%Q → (b == val t')%Q.
Proof. intros -> [= <-]. done. Qed.

(** The 20.00 that came too late wait on their account. *)
Lemma late_payments_conserved_witness :
  map (λ c, (lc_Kind c, lc_Status c, lc_Amount c)) (cases (tabs p10)) = [(CaseReleasedOrder, LateSuspense, (2000, -2))] ∧
  (bal (w_ledger p10) suspense_key == 20)%Q ∧ NoDup (map lc_PaymentID (cases (tabs p10))).
Proof.
  destruct (late_payments_conserved shop {[500%N]} others {[7%N; 9%N; 3%N]} 100 [] p10 accrue_good p0_p10)
    as ((t & Et & Eb) & H2 & _).
  assert (Ep : (PendingLateTotals (tabs p10)).1 = Ok (2000, -2)) by ev.
  split; [ev|]. split; [|exact H2]. exact (Qeq_trans _ _ _ (same_total _ _ _ _ _ Et Ep Eb) twenty).
Defined.

(** The intent in progress was cancelled with its order; the payment stays. *)
Lemma payments_follow_life_witness :
  map it_Status (intents (tabs p8)) = [IntentSucceeded; IntentRequiresAction] ∧
  map it_Status (intents (tabs p10)) = [IntentSucceeded; IntentCancelled] ∧
  payments (tabs p8) `prefix_of` payments (tabs p10).
Proof.
  destruct (payments_follow_life shop {[500%N]} others {[7%N; 9%N; 3%N]} 100 [] p8 p10 accrue_good p0_p8 to_p10)
    as (H1 & _). split; [ev|]. split; [ev|exact H1].
Defined.

(** The callback of the first order, again. *)
Definition again : recordInput :=
  webhook_input epay_provider (mkNotification "e9" ("T" ++ no_of 100 p1) (no_of 100 p1) (2029, -2) (5, -2) "succeeded" "alipay" ∅ true).
Lemma replay_harmless_witness : on_record 500 ("T" ++ no_of 100 p1) p8 ∧
  only_events p8 (recordPayment shop {[500%N]} false None (at_ 11) again None p8).2.
Proof.
  assert (H : on_record 500 ("T" ++ no_of 100 p1) p8).
  { exists (nth 0 (payments (tabs p8)) (mkPayment 0 0 0 None 0 "" dec_zero dec_zero dec_zero "" None 0)).
    split; [apply (list_elem_of_lookup_2 _ 0%nat); ev|]. split; ev. }
  split; [exact H|]. apply (replay_harmless shop {[500%N]} None (at_ 11) again None p8).
  assert (E : TrimSpace (ri_PaymentRef again) = "T" ++ no_of 100 p1) by ev. rewrite E. exact H.
Defined.

Definition forged : Channels := channels "e3" false (2029, -2).
Definition forged_note : Notification := mkNotification "e3" "TOTHER" "OTHER" (2029, -2) (5, -2) "succeeded" "alipay" ∅ false.
Lemma forged_report_harmless_witness :
  only_events p8 (HandleWebhook shop {[500%N]} forged (at_ 12) "epay" "OTHER" p8).2 ∧
  length (pay_events (tabs (HandleWebhook shop {[500%N]} forged (at_ 12) "epay" "OTHER" p8).2)) = S (length (pay_events (tabs p8))).
Proof.
  destruct (forged_report_harmless shop {[500%N]} others {[7%N; 9%N; 3%N]} 100 [] p8 forged (at_ 12) "epay" "OTHER"
    epay_provider (epay_adapter "e3" false (2029, -2)) forged_note
    accrue_good p0_p8 eq_refl eq_refl eq_refl) as [H _].
  split; [exact H|ev].
Defined.

Definition late_txn : uuid := match (apply_late p10).1 with Ok t => t | Err _ => 0%N end.
Lemma committed {A} (m : M wpay oerr A) w t : (m w).1 = Ok t → assert_ledger_balanced (w_ledger (m w).2) = Ok () →
  m w = (Ok t, (order_tx false m w).2).
Proof. unfold order_tx, Do. destruct (m w) as [a b]. simpl. by intros -> ->. Qed.

(** The case is applied; the customer has 20.00 more. *)
Lemma late_payment_applied_once_witness :
  (bal (w_ledger p11) suspense_key == bal (w_ledger p10) suspense_key - 20)%Q ∧
  (bal (w_ledger p11) (balance_key 7) == bal (w_ledger p10) (balance_key 7) + 20)%Q ∧
  ∃ e, ApplyLatePayment false admin (at_ 12) 10 "and once more" p11 = (Err e, p11).
Proof.
  assert (E1 : (apply_late p10).1 = Ok late_txn) by ev. assert (E2 : assert_ledger_balanced (w_ledger (apply_late p10).2) = Ok ()) by ev.
  pose proof (committed apply_late p10 late_txn E1 E2) as Er. fold p11 in Er. unfold apply_late at 1 in Er.
  assert (Hc : late0 ∈ cases (tabs p10)) by (apply (list_elem_of_lookup_2 _ 0%nat); ev).
  destruct (late_payment_applied_once shop {[500%N]} others {[7%N; 9%N; 3%N]} 100 [] p10 admin (at_ 10) late0
    "refund to balance" late_txn p11 accrue_good p0_p10 Hc Er) as (_ & H2 & H3 & _ & _ & _ & H7).
  assert (Eu : lc_UserID late0 = 7%N) by ev. assert (Ea : lc_Amount late0 = (2000, -2)) by ev. assert (Ei : lc_ID late0 = 10%N) by ev.
  rewrite Eu, Ea in H2. rewrite Ea in H3. rewrite Ei in H7. rewrite twenty in H2, H3.
  split; [exact H3|]. split; [exact H2|]. apply H7.
Defined.
