(* ===== verification/PayFrame.v ===== *)
(** What orders and payments together leave alone.  A module beside them has
    tables [Y] and an invariant over its tables and its own accounts: every
    step of the shop keeps it as soon as the module's hook of a paid order and
    the module's own steps do. *)
From Stdlib Require Import ZArith QArith Lqa Lia.
From stdpp Require Import base tactics list gmap strings sorting relations.
From S2P Require Import Prelude Safety Decimal GoString Money GoTime LedgerTypes LedgerFacts Ledger LedgerInv LedgerOps Promo PromoThms.
From S2P Require Import Period OrderAmounts Proration SubTypes SubStore Subscription OrderStore OrderFlow OrderInv OrderLife Frame.
From S2P Require Import PayStore PayFlow PayQuery PayHistory.
#[local] Open Scope string_scope.
#[local] Open Scope Z_scope.

Section PayFrame.
Context `{DL : DecimalLib} {Y : Type} (B : OrderEnv Y) (providers : gset uuid) (others : relation (ledger * Y)).
Context (G : string → Prop) `{!Aside G} (no_late : ¬ G LatePaymentSuspense).
Context (J : ledger * Y → Prop) (R : relation (ledger * Y)) `{!PreOrder R}.
Abbreviation X := (pay * Y)%type.
Abbreviation WM := (M (world X) oerr).
Abbreviation W := (wired B).

(** The module's part of the shop. *)
Definition mine (s : ledger * X) : ledger * Y := (s.1, s.2.2).
Definition my_I (s : ledger * X) : Prop := J (mine s).
Definition my_R (s s' : ledger * X) : Prop := R (mine s) (mine s').
#[global] Instance my_R_preorder : PreOrder my_R.
Proof. split; [intros s; unfold my_R; reflexivity|]. intros a b c H1 H2. unfold my_R in *. by etrans. Qed.
Context (F : frames G my_I my_R).
Hypothesis hook_keeps : ∀ hook c, OnOrderPaid B = Some hook → keeps (E := oerr) J R (hook c).
Hypothesis others_keep : ∀ s s', J s → others s s' → J s' ∧ R s s'.

Abbreviation fits := (keeps (E := oerr) (framed my_I) (frame_to my_R)).
Abbreviation lfits := (keeps (E := oerr) my_I my_R).

Lemma wired_keeps hook c : OnOrderPaid W = Some hook → lfits (hook c).
Proof.
  unfold wired. simpl. destruct (OnOrderPaid B) as [h|] eqn:E; [|done]. intros [= <-] s a s' Hs ([l y] & H & ->)%zoom_Ok.
  exact (hook_keeps _ _ eq_refl _ _ _ Hs H).
Qed.
Lemma close_wired l id to : keeps (E := oerr) (λ x, my_I (l, x)) (λ x x', my_R (l, x) (l, x')) (CloseOrderIntents W id to).
Proof.
  intros x a x' Hx (p & H & ->)%zoom_Ok. split; [done|]. unfold my_R, mine. simpl. reflexivity.
Qed.

(** * Pieces *)

Lemma pay_fits {A} (m : M pay oerr A) : fits (on_pay m).
Proof.
  intros w a w' Hw (x & (p & H & ->)%zoom_Ok & ->)%zoom_Ok. split; [exact Hw|]. unfold frame_to, my_R, part, mine. simpl. reflexivity.
Qed.
Lemma with_fk_fits {A} (f : fkeys → M pay oerr A) : fits (with_fk B providers f).
Proof. intros w a w' Hw H. by eapply pay_fits. Qed.
Lemma tab_lfits {A} (m : M pay oerr A) : lfits (tab m).
Proof. intros s a s' Hs (p & H & ->)%zoom_Ok. split; [exact Hs|]. unfold my_R, mine. simpl. reflexivity. Qed.
Lemma tab_at_lfits {A} (f : ledger * X → M pay oerr A) : lfits (λ x, tab (f x) x).
Proof. intros s a s' Hs H. by eapply tab_lfits. Qed.
Lemma led_lfits {A} (m : M ledger lerr A) : keeps (E := lerr) good (steady G) m → lfits (led m).
Proof. intros Hm [l x] a s' Hs (l' & H & ->)%zoom_Ok. destruct (Hm _ _ _ (fr_good _ _ _ F _ Hs) H). by apply (fr_steady _ _ _ F l). Qed.
Hint Resolve pay_fits with_fk_fits tab_lfits tab_at_lfits : frame.

Lemma late_avoids legs : Forall (λ x, one_of (ref_Type (leg_Account x)) aside_types = false ∨ ref_Type (leg_Account x) = LatePaymentSuspense) legs → avoids G legs.
Proof.
  intros H. eapply Forall_impl; [exact H|]. intros x [E|E]; [|by rewrite E]. intros Hg. apply aside in Hg. by apply bool_decide_eq_false in E.
Qed.
Ltac each_leg := repeat apply Forall_app_2; repeat case_match; repeat (apply Forall_cons; split); try apply Forall_nil; first [done|by left|by right].
Lemma suspense_lfits who i kind id s : lfits (led (Post (joined who) (suspense_posting i kind id s))).
Proof.
  apply led_lfits, Post_steady; [apply late_avoids|]; simpl; unfold buildSuspenseLegs; each_leg.
Qed.
Lemma apply_lfits who c reason : lfits (led (Post (joined who) (apply_posting c reason))).
Proof.
  apply led_lfits, Post_steady; [apply late_avoids|]; simpl; each_leg.
Qed.
Lemma markOwnIntent_lfits i : lfits (tab (markOwnIntent i)).
Proof. apply tab_lfits. Qed.
Lemma quarantine_lfits K who k ev i kind st it oid uid no pid s : lfits (quarantine K who k ev i kind st it oid uid no pid s).
Proof. unfold quarantine. keeps_walk; auto using suspense_lfits with frame. Qed.
Lemma applyLateCase_lfits who k c reason : lfits (applyLateCase who k c reason).
Proof. unfold applyLateCase. keeps_walk; auto using apply_lfits with frame. Qed.
Lemma ext_fits {A} (m : M (ledger * X) oerr A) : lfits m → fits (on_ledger_ext m).
Proof. apply part_ledger_ext. Qed.
Lemma savepoint_fits {A} (m : WM A) : fits m → fits (savepoint m).
Proof.
  intros Hm w a w' Hw H. unfold savepoint in H. destruct (m w) as [[x|e] w1] eqn:E; injection H as _ <-; [by eapply Hm|].
  split; [done|reflexivity].
Qed.

(** * Recording *)

Lemma afterSettleSuccess_fits k ev it oid pid : fits (afterSettleSuccess k ev it oid pid).
Proof. unfold afterSettleSuccess. keeps_walk; auto with frame. Qed.
Lemma settle_archived_lfits K who k ev i kind s0 it oid uid no pid s st : lfits (settle_archived K who k ev i kind s0 it oid uid no pid s st).
Proof. unfold settle_archived. cbv zeta. keeps_walk; auto using quarantine_lfits, applyLateCase_lfits. Qed.
Lemma afterSettleArchived_fits who k ev i kind s0 it oid uid no pid s : fits (afterSettleArchived B providers who k ev i kind s0 it oid uid no pid s).
Proof.
  unfold afterSettleArchived. destruct (ri_Offline i); [apply keeps_fail, _|]. intros w a w' Hw H.
  match type of H with ?m w = _ => assert (Hm : fits m); [|exact (Hm _ _ _ Hw H)] end.
  apply keeps_bind; [apply _| |intros _; keeps_walk; auto with frame].
  apply (CloseArchivedOrder_part W G my_I my_R F close_wired). intros st. apply settle_archived_lfits.
Qed.
Lemma afterSettleQuarantine_fits who k ev i kind st it oid uid no pid s : fits (afterSettleQuarantine B providers who k ev i kind st it oid uid no pid s).
Proof.
  unfold afterSettleQuarantine. destruct (ri_Offline i); [apply keeps_fail, _|]. intros w a w' Hw H.
  match type of H with ?m w = _ => assert (Hm : fits m); [|exact (Hm _ _ _ Hw H)] end. keeps_walk. apply ext_fits, quarantine_lfits.
Qed.
Lemma settle_fits who k i : fits (savepoint (SettlePayment W who k i)).
Proof. apply savepoint_fits, (SettlePayment_part W G my_I my_R F wired_keeps). Qed.
Lemma record_new_fits who k ev i pr it oid uid no s : fits (record_new B providers who k ev i pr it oid uid no s).
Proof.
  unfold record_new. cbv zeta. apply keeps_bind; [apply _|apply pay_fits|intros pid]. apply keeps_bind; [apply _|apply with_fk_fits|intros _].
  apply keeps_bind; [apply _| |].
  - apply settle_fits.
  - intros [o|e]; [apply afterSettleSuccess_fits|]. destruct e; try apply keeps_fail, _.
    destruct (String.eqb _ _); [apply afterSettleArchived_fits|apply afterSettleQuarantine_fits].
Qed.
Lemma record_unverified_fits k i : fits (record_unverified B providers k i).
Proof. unfold record_unverified. keeps_walk; auto with frame. Qed.
Lemma record_target_fits i pr : fits (record_target i pr).
Proof. unfold record_target. keeps_walk; auto with frame. Qed.
Lemma replay_fits k ev i oid s x : fits (replay k ev i oid s x).
Proof. unfold replay. keeps_walk; auto with frame. Qed.
Lemma recordPaymentTx_fits who k i hook : (∀ h r, hook = Some h → fits (h r)) → fits (recordPaymentTx B providers who k i hook).
Proof.
  intros Hh. unfold recordPaymentTx. destruct hook as [h|]; keeps_walk;
    auto using record_unverified_fits, record_target_fits, replay_fits, settle_fits, afterSettleArchived_fits, afterSettleQuarantine_fits with frame.
Qed.
Lemma recordRefMismatchEvidence_fits inTx k i : fits (recordRefMismatchEvidence B providers inTx k i).
Proof. unfold recordRefMismatchEvidence, order_tx. keeps_walk; auto with frame. Qed.

(** Whatever a step answers. *)
Definition holds_on {A} (m : WM A) : Prop := ∀ w, framed my_I w → framed my_I (m w).2 ∧ frame_to my_R w (m w).2.
Lemma tx_holds {A} (m : WM A) : fits m → holds_on (order_tx false m).
Proof. intros Hm w Hw. destruct (order_tx false m w) as [r w'] eqn:E. unfold order_tx in E. by eapply (safe_commit (framed my_I) (frame_to my_R)). Qed.
Lemma attempt_holds {A} (m : WM A) : holds_on m → holds_on (attempt m).
Proof. intros Hm w Hw. exact (Hm w Hw). Qed.
Lemma bind_holds {A C} (m : WM A) (f : A → WM C) : holds_on m → (∀ a, holds_on (f a)) → holds_on (m ≫= f).
Proof.
  intros Hm Hf w Hw. unfold mbind, M_bind. specialize (Hm w Hw). destruct (m w) as [[a|e] w1]; simpl in Hm; [|done]. destruct Hm as [Hw1 L1].
  destruct (Hf a w1 Hw1) as [Hw2 L2]. split; [done|by etrans].
Qed.
Lemma reads_hold {A} (m : WM A) : (∀ w, (m w).2 = w) → holds_on m.
Proof. intros Hm w Hw. rewrite Hm. split; [done|reflexivity]. Qed.
Lemma recordPayment_fits inTx who k i hook : (∀ h r, hook = Some h → fits (h r)) → fits (recordPayment B providers inTx who k i hook).
Proof.
  intros Hh w a w' Hw H. unfold recordPayment in H. destruct (order_tx _ _ w) as [r w1] eqn:E. destruct r as [x|e].
  - injection H as <- <-. eapply (keeps_Do _ _ inTx _ _ (recordPaymentTx_fits who k i hook Hh)); [exact Hw|exact E].
  - by repeat case_match.
Qed.
Lemma recordPayment_holds who k i hook : (∀ h r, hook = Some h → fits (h r)) → holds_on (recordPayment B providers false who k i hook).
Proof.
  intros Hh w Hw. unfold recordPayment. pose proof (tx_holds _ (recordPaymentTx_fits who k i hook Hh) w Hw) as [Hw1 L1].
  destruct (order_tx _ _ w) as [r w1]. cbn [fst snd] in Hw1, L1. destruct r as [x|e]; [done|]. destruct e; try done. destruct e; try done. cbn [snd].
  assert (H2 : holds_on (recordRefMismatchEvidence B providers false k i)).
  { unfold recordRefMismatchEvidence. apply tx_holds. exact (recordRefMismatchEvidence_fits true k i). }
  destruct (H2 w1 Hw1). split; [done|by etrans].
Qed.

(** * Requests, callbacks and queries *)

Lemma HandleWebhook_holds ch k code inb : holds_on (HandleWebhook B providers ch k code inb).
Proof.
  apply bind_holds; [by apply reads_hold|]. intros [p ad]. simpl. destruct (ParseNotification _ _) as [n|]; [|by apply reads_hold].
  intros w Hw. unfold handle_notification. pose proof (recordPayment_holds None k (webhook_input p n) None ltac:(done) w Hw) as H.
  by destruct (recordPayment _ _ _ _ _ _ _ w).
Qed.
Lemma RecordOffline_fits ch inTx who k i : fits (RecordOffline B providers ch inTx who k i).
Proof. unfold RecordOffline. cbv zeta. keeps_walk. by apply recordPayment_fits. Qed.
Lemma MarkPaid_fits ch inTx who k i : fits (MarkPaid B providers ch inTx who k i).
Proof.
  unfold MarkPaid, order_tx, OrderByID. cbv zeta. keeps_walk; auto using reload_part with frame.
  - apply RecordOffline_fits.
  - apply (order_audit_part my_I my_R).
Qed.
Lemma ApplyLatePayment_fits inTx who k id reason : fits (ApplyLatePayment inTx who k id reason).
Proof. unfold ApplyLatePayment, order_tx. cbv zeta. keeps_walk; auto with frame. apply ext_fits, applyLateCase_lfits. Qed.
Lemma begin_tx_fits now db i p ad m s g e req : fits (begin_tx B providers now db i p ad m s g e req).
Proof. unfold begin_tx. cbv zeta. keeps_walk; auto with frame. Qed.
Lemma PayBegin_fits ch inTx who k now db i : fits (PayBegin B providers ch inTx who k now db i).
Proof.
  unfold PayBegin, BeginIntent, payTitle, order_tx, OrderForUser, ItemsByOrder. cbv zeta. keeps_walk; auto using begin_tx_fits, onlyItem_part with frame.
Qed.
Lemma CompleteIntent_holds inTx d : holds_on (CompleteIntent inTx d).
Proof.
  unfold CompleteIntent. destruct d as [r|ad req r]; [by apply reads_hold|]. destruct inTx; [by apply reads_hold|]. cbv zeta.
  assert (Hc : holds_on (_ ← attempt (order_tx false (on_pay (CancelPlaceholderIntent (ir_IntentID r)))); fail (OPay PayUnavailable) : WM IntentResult)).
  { apply bind_holds; [apply attempt_holds, tx_holds, pay_fits|]. intros _. by apply reads_hold. }
  destruct (CreatePayment ad req) as [resp|]; [|done]. destruct (badResp resp); [done|].
  apply bind_holds; [apply tx_holds, pay_fits|]. intros [|]; [by apply reads_hold|].
  apply bind_holds; [|intros _; by apply reads_hold]. destruct (if String.eqb _ "" then _ else _); [apply attempt_holds, tx_holds, pay_fits|by apply reads_hold].
Qed.

Lemma query_hook_fits admin id h r : query_hook admin id = Some h → fits (h r).
Proof. destruct admin; [|done]. intros [= <-]. apply pay_fits. Qed.
Abbreviation on_to w w' := (framed my_I w' ∧ frame_to my_R w w').
Lemma queryRef_on ch who k admin id ref w : framed my_I w → on_to w (queryRef B providers ch who k admin id ref w).2.
Proof.
  intros Hw. assert (Hsame : on_to w w) by (split; [done|reflexivity]).
  unfold queryRef. cbv zeta. destruct (adapterFor _ _ _) as [[p ad]|e]; [|by repeat case_match].
  destruct (QueryPayment _ _) as [a|[]]; try done. destruct (negb _); [done|]. destruct (negb _); [done|]. destruct (String.eqb _ ""); [done|].
  pose proof (recordPayment_holds who k (query_input p a (it_OutTradeNo ref)) (query_hook admin id) (λ h r, query_hook_fits admin id h r) w Hw) as H.
  by destruct (recordPayment _ _ _ _ _ _ _ _) as [[r|e] w'].
Qed.
Lemma query_refs_on ch who k admin id l a f ns au w : framed my_I w → on_to w (query_refs B providers ch who k admin id l a f ns au w).2.
Proof.
  revert a f ns au w. induction l as [|ref l IH]; intros a f ns au w Hw; simpl; [split; [done|reflexivity]|].
  pose proof (queryRef_on (ch (it_ID ref)) who (k (it_ID ref)) admin id ref w Hw) as H.
  destruct (queryRef _ _ _ _ _ _ _ _) as [[r au1] w1]. simpl in H. destruct H as [Hw1 L1].
  destruct r as [one|[ns1 e]]; [destruct (String.eqb _ ChannelPaid); [done|]|];
    (match goal with |- on_to _ (query_refs _ _ _ _ _ _ _ _ ?a ?f ?ns ?au _).2 => destruct (IH a f ns au w1 Hw1) as [Hw2 L2] end);
    (split; [done|by etrans]).
Qed.
Lemma queryOrder_on ch who k admin id w : framed my_I w → on_to w (queryOrder B providers ch who k admin id w).2.
Proof.
  intros Hw. unfold queryOrder. simpl. destruct (merge_sort _ _) as [|i l]; [split; [done|reflexivity]|]. by apply query_refs_on.
Qed.
Lemma query_holds ch who k id : holds_on (query B providers ch who k id).
Proof.
  apply bind_holds.
  - intros w Hw. unfold PaymentQuery. pose proof (queryOrder_on ch who k (is_admin who) id w Hw) as H.
    destruct (queryOrder _ _ _ _ _ _ _) as [[r au] w1]. simpl in H. destruct H as [Hw1 L1]. destruct (_ && _); [|done].
    pose proof (tx_holds _ (pay_fits (pay_audit "order.payment_queried" id)) w1 Hw1) as [Hw2 L2].
    destruct (order_tx _ _ w1) as [[]  w2]; simpl in *; (split; [done|by etrans]).
  - intros q. apply bind_holds; [by apply reads_hold|]. intros [o|]; by apply reads_hold.
Qed.
Lemma Query_holds ch who k id : holds_on (Query B providers ch who k id).
Proof.
  apply bind_holds; [by apply reads_hold|]. intros p. apply bind_holds; [by apply reads_hold|]. intros [o|]; [apply query_holds|by apply reads_hold].
Qed.
Lemma AdminQuery_holds ch who k id : holds_on (AdminQuery B providers ch who k id).
Proof.
  apply bind_holds; [by apply reads_hold|]. intros p. apply bind_holds; [by apply reads_hold|]. intros [o|]; [apply query_holds|by apply reads_hold].
Qed.
Lemma claim_holds t p : holds_on (claim t p : WM _).
Proof. apply tx_holds. keeps_walk; auto with frame. Qed.
Lemma patrol_holds p n ts st : holds_on (patrol B providers p n ts st).
Proof.
  revert ts st. induction n as [|n IH]; intros ts st w Hw; simpl; [split; [done|reflexivity]|]. destruct (tn_Cancelled _); [split; [done|reflexivity]|].
  pose proof (claim_holds (ts O) p w Hw) as H. destruct (claim _ _ w) as [[[d|]|e] w1]; simpl in H; try done. destruct H as [Hw1 L1].
  pose proof (queryOrder_on (tn_ch (ts O)) None (tn_k (ts O)) false (it_OrderID d) w1 Hw1) as H.
  destruct (queryOrder _ _ _ _ _ _ _ w1) as [[r au] w2]. simpl in H. destruct H as [Hw2 L2].
  assert (HI : ∀ ts st w3, framed my_I w3 → frame_to my_R w2 w3 → on_to w (patrol B providers p n ts st w3).2).
  { intros ts' st' w3 Hw3 L3. destruct (IH ts' st' w3 Hw3) as [Hw4 L4]. split; [done|]. do 3 (etrans; [eassumption|]). done. }
  destruct r as [q|[ns e]]; [by apply HI|]. destruct ns; [|by apply HI].
  destruct (attempt_holds _ (tx_holds _ (pay_fits (StopIntentQueries (it_ID d) (MaxAttempts p)))) w2 Hw2) as [Hw3 L3]. by apply HI.
Qed.

(** * Every step of the shop *)

Lemma shop_step_part w w' : J (w_ledger w, (w_ext w).2) → shop_step B providers others w w' →
  J (w_ledger w', (w_ext w').2) ∧ R (w_ledger w, (w_ext w).2) (w_ledger w', (w_ext w').2).
Proof.
  intros Hw H. change (framed my_I w) in Hw. change (framed my_I w' ∧ frame_to my_R w w').
  destruct H as [who k d|who k i|who k u|ks locked m now n|ch who k now db i|inTx d|ch k code inb|ch who k id|ch who k id|turns|ch who k i
    |who k id reason|now before n|p Hp|s Hs|l y Ho].
  - apply tx_holds; [|done]. apply (place_part W G my_I my_R F).
  - apply tx_holds; [|done]. apply (Cancel_part W G my_I my_R F close_wired).
  - apply tx_holds; [|done]. apply (CancelUserPending_part W G my_I my_R F close_wired).
  - eapply (ExpireOrders_part W G my_I my_R F close_wired); [exact Hw|apply surjective_pairing].
  - apply tx_holds; [|done]. apply PayBegin_fits.
  - by apply CompleteIntent_holds.
  - by apply HandleWebhook_holds.
  - by apply Query_holds.
  - by apply AdminQuery_holds.
  - by apply patrol_holds.
  - apply tx_holds; [|done]. apply MarkPaid_fits.
  - apply tx_holds; [|done]. apply ApplyLatePayment_fits.
  - apply tx_holds; [|done]. apply pay_fits.
  - split; [exact Hw|unfold frame_to, my_R; reflexivity].
  - split; [exact Hw|unfold frame_to, my_R; reflexivity].
  - exact (others_keep _ _ Hw Ho).
Qed.
End PayFrame.
