(* ===== verification/CommStore.v ===== *)
(** The tables of the commission module (panel/internal/module/commission):
    entries, withdrawals, transfers to balance, forfeitures and the terms set
    for single users, with the statements of commission/repo and the
    constraints of the migrations 00014, 00016, 00040 and 00041 (the currency
    columns went with 00051).  Rows are in the order of their identifiers. *)
From Stdlib Require Import ZArith QArith Lqa Lia.
From stdpp Require Import base tactics list gmap strings sorting.
From S2P Require Import Prelude Safety Decimal GoString Money GoTime LedgerTypes Ledger Promo Period OrderAmounts Proration SubTypes SubStore.
From S2P Require Import OrderStore OrderFlow PayStore PayFlow.
#[local] Open Scope string_scope.
#[local] Open Scope Z_scope.

(** * States (service/types.go) *)

Definition EntryPending := "pending".
Definition EntryAvailable := "available".
Definition EntryVoided := "voided".
Definition WithdrawalRequested := "requested".
Definition WithdrawalApproved := "approved".
Definition WithdrawalRejected := "rejected".
Definition WithdrawalPaid := "paid".
Definition entryTransitions (from : string) : list string :=
  if String.eqb from EntryPending then [EntryAvailable; EntryVoided] else [].
Definition withdrawalTransitions (from : string) : list string :=
  if String.eqb from WithdrawalRequested then [WithdrawalApproved; WithdrawalRejected]
  else if String.eqb from WithdrawalApproved then [WithdrawalPaid] else [].
Definition allowed (table : string → list string) (from to : string) : bool := existsb (String.eqb to) (table from).
Definition CanEntryTransition : string → string → bool := allowed entryTransitions.
Definition CanWithdrawalTransition : string → string → bool := allowed withdrawalTransitions.

(** Ways to be paid (settings/service/commission_levels.go). *)
Definition WithdrawMethodUSDTTRC20 := "usdt_trc20".
Definition WithdrawMethodUSDTERC20 := "usdt_erc20".
Definition WithdrawMethodUSDTBEP20 := "usdt_bep20".
Definition WithdrawMethodCatalog : list string :=
  ["alipay"; "wechat"; "bank"; "paypal"; WithdrawMethodUSDTTRC20; WithdrawMethodUSDTERC20; WithdrawMethodUSDTBEP20].
Definition ValidWithdrawMethod (m : string) : bool := one_of m WithdrawMethodCatalog.
Definition IsUSDTMethod (m : string) : bool := one_of m [WithdrawMethodUSDTTRC20; WithdrawMethodUSDTERC20; WithdrawMethodUSDTBEP20].

Definition hex_byte (c : Z) : bool := between 48 c 57 || between 97 c 102 || between 65 c 70.
(** [0x] and [n] hexadecimal digits. *)
Definition hex_after_0x (n : Z) (s : string) : bool :=
  match bytes_of s with
  | 48 :: 120 :: l => forallb hex_byte l && (Z.of_nat (length l) =? n)
  | _ => false
  end.
Definition trc20TxHashRe (s : string) : bool := all_bytes hex_byte s && (blen s =? 64).
Definition evmTxHashRe : string → bool := hex_after_0x 64.
Definition evmAddressRe : string → bool := hex_after_0x 40.
Definition ValidTxHash (method ref : string) : bool :=
  if String.eqb method WithdrawMethodUSDTTRC20 then trc20TxHashRe ref
  else if one_of method [WithdrawMethodUSDTERC20; WithdrawMethodUSDTBEP20] then evmTxHashRe ref else true.

Definition CommissionScopeEveryOrder := "every_order".
Definition CommissionScopeFirstOrder := "first_order".
Definition ValidCommissionScope (s : string) : bool := one_of s [CommissionScopeEveryOrder; CommissionScopeFirstOrder].
Definition CommissionMaxRatePercent : Z := 50.

Section CommStore.
Context `{DL : DecimalLib}.

(** * Amounts *)

Definition RateBP (percent : Z) : Z := percent * 100.
Definition Amount (base : dec) (rateBP : Z) : result money_err dec := ApplyBP base rateBP.
Definition LevelAmount (base : dec) (rateBP sharePercent : Z) : result money_err dec :=
  a ← Amount base rateBP;
  ApplyBP a (sharePercent * 100).

(** * Rows (model/model.go) *)

Record Entry := mkEntryRow {
  ce_ID : uuid; ce_Referrer : uuid; ce_Referee : uuid; ce_OrderID : uuid; ce_OrderNo : string; ce_PaymentID : option uuid;
  ce_Base : dec; ce_RateBP : Z; ce_Level : Z; ce_Share : Z; ce_Amount : dec; ce_Status : string; ce_FrozenUntil : Time;
  ce_ReviewRequired : bool; ce_ReviewReason : option string; ce_AccrualTxn : uuid; ce_SettleTxn : option uuid;
  ce_SettledAt : option Time; ce_AutoTransferDue : bool; ce_ReviewedBy : option uuid; ce_ReviewedAt : option Time;
  ce_VoidReason : option string; ce_VoidTxn : option uuid; ce_CreatedAt : Time }.
Record Withdrawal := mkWithdrawal {
  wd_ID : uuid; wd_UserID : uuid; wd_Amount : dec; wd_PayoutSealed : list Z; wd_Method : string; wd_Status : string;
  wd_RejectReason : option string; wd_Reference : option string; wd_PaidUSDT : option dec; wd_PayoutTxn : option uuid;
  wd_ReviewedBy : option uuid; wd_ReviewedAt : option Time; wd_PaidBy : option uuid; wd_RequestedAt : Time;
  wd_CompletedAt : option Time }.
Record Transfer := mkTransfer {
  tr_ID : uuid; tr_UserID : uuid; tr_Amount : dec; tr_Txn : uuid; tr_EntryID : option uuid; tr_CreatedAt : Time }.
Record Forfeiture := mkForfeiture {
  ff_ID : uuid; ff_UserID : uuid; ff_Amount : dec; ff_Reason : string; ff_Txn : uuid; ff_CreatedAt : Time }.
Record Override := mkOverride {
  ov_UserID : uuid; ov_RatePercent : option Z; ov_Scope : option string; ov_UpdatedBy : option uuid; ov_UpdatedAt : Time }.

Record comm := mkComm {
  c_entries : list Entry; c_withdrawals : list Withdrawal; c_transfers : list Transfer; c_forfeitures : list Forfeiture;
  c_overrides : gmap uuid Override; c_audits : list (string * uuid); c_next : uuid }.
Definition empty_comm : comm := mkComm [] [] [] [] ∅ [] 1.

Definition set_entries (f : list Entry → list Entry) (c : comm) : comm :=
  mkComm (f (c_entries c)) (c_withdrawals c) (c_transfers c) (c_forfeitures c) (c_overrides c) (c_audits c) (c_next c).
Definition set_withdrawals (f : list Withdrawal → list Withdrawal) (c : comm) : comm :=
  mkComm (c_entries c) (f (c_withdrawals c)) (c_transfers c) (c_forfeitures c) (c_overrides c) (c_audits c) (c_next c).
Definition add_transfer (t : Transfer) (c : comm) : comm :=
  mkComm (c_entries c) (c_withdrawals c) (c_transfers c ++ [t]) (c_forfeitures c) (c_overrides c) (c_audits c) (c_next c).
Definition add_forfeiture (f : Forfeiture) (c : comm) : comm :=
  mkComm (c_entries c) (c_withdrawals c) (c_transfers c) (c_forfeitures c ++ [f]) (c_overrides c) (c_audits c) (c_next c).
Definition set_overrides (f : gmap uuid Override → gmap uuid Override) (c : comm) : comm :=
  mkComm (c_entries c) (c_withdrawals c) (c_transfers c) (c_forfeitures c) (f (c_overrides c)) (c_audits c) (c_next c).
Definition add_comm_audit (a : string * uuid) (c : comm) : comm :=
  mkComm (c_entries c) (c_withdrawals c) (c_transfers c) (c_forfeitures c) (c_overrides c) (c_audits c ++ [a]) (c_next c).
Definition comm_bumped (c : comm) : comm :=
  mkComm (c_entries c) (c_withdrawals c) (c_transfers c) (c_forfeitures c) (c_overrides c) (c_audits c) (N.succ (c_next c)).

Abbreviation CM := (M comm oerr).
(** [uuid.NewV7] and the columns' default. *)
Definition new_id : CM uuid := λ c, (Ok (c_next c), comm_bumped c).
Definition comm_audit (action : string) (id : uuid) : CM () := modify (add_comm_audit (action, id)).

(** The users and ledger transactions foreign keys point at.  The order and the
    payment of an entry are written by the transaction that inserts it. *)
Record refs := mkRefs { rf_user : uuid → bool; rf_txn : uuid → bool }.
Definition refs_of (l : ledger) : refs := mkRefs (λ u, bool_decide (u ∈ users l)) (has_txn l).

(** * Entries (repo/entries.go, review.go, deleted.go) *)

Definition int2 (z : Z) : bool := between (-32768) z 32767.
Definition trimmed_runes (s : string) : Z := Z.of_nat (length (btrim s)).
Definition entry_fits (e : Entry) : bool :=
  numeric_fits (ce_Base e) && numeric_fits (ce_Amount e) && pg_text (ce_OrderNo e) && opt_ok pg_text (ce_ReviewReason e) &&
  opt_ok pg_text (ce_VoidReason e) && int4 (ce_RateBP e) && int2 (ce_Level e) && int2 (ce_Share e).
(** [commission_entries_formula], in exact arithmetic. *)
Definition entry_formula (e : Entry) : bool :=
  match LevelAmount (ce_Base e) (ce_RateBP e) (ce_Share e) with Ok a => Equal (ce_Amount e) a | Err _ => false end.
Definition review_shape (e : Entry) : bool :=
  (negb (ce_ReviewRequired e) || negb (is_none (ce_ReviewReason e))) &&
  Bool.eqb (is_none (ce_ReviewedBy e)) (is_none (ce_ReviewedAt e)) &&
  (is_none (ce_ReviewReason e) || ce_ReviewRequired e || negb (is_none (ce_ReviewedAt e))).
Definition entry_shape (e : Entry) : bool :=
  let settled := negb (is_none (ce_SettleTxn e)) && negb (is_none (ce_SettledAt e)) in
  let unsettled := is_none (ce_SettleTxn e) && is_none (ce_SettledAt e) in
  let unvoided := is_none (ce_VoidTxn e) && is_none (ce_VoidReason e) in
  (String.eqb (ce_Status e) EntryPending && unsettled && unvoided) ||
  (String.eqb (ce_Status e) EntryAvailable && settled && negb (ce_ReviewRequired e) && unvoided) ||
  (String.eqb (ce_Status e) EntryVoided && unsettled && negb (ce_ReviewRequired e) && negb (is_none (ce_VoidTxn e)) &&
   negb (is_none (ce_VoidReason e)) && negb (is_none (ce_ReviewedAt e))).
Definition commission_check (e : Entry) : bool :=
  between 1 (RuneCountInString (ce_OrderNo e)) 64 && IsPositive (ce_Base e) && (0 <? ce_RateBP e) && (ce_RateBP e <=? 5000) &&
  IsPositive (ce_Amount e) && opt_ok (λ r, between 1 (RuneCountInString r) 200) (ce_ReviewReason e) &&
  opt_ok (λ r, between 5 (trimmed_runes r) 500) (ce_VoidReason e) && negb (ce_Referrer e =? ce_Referee e)%N &&
  between 1 (ce_Level e) 3 && between 1 (ce_Share e) 100 && entry_formula e && review_shape e && entry_shape e &&
  (negb (ce_AutoTransferDue e) || String.eqb (ce_Status e) EntryAvailable).
Definition entries_unique (l : list Entry) : bool :=
  bool_decide (NoDup (map (λ e, (ce_OrderID e, ce_Referrer e)) l)) && bool_decide (NoDup (map (λ e, (ce_OrderID e, ce_Level e)) l)) &&
  bool_decide (NoDup (map ce_AccrualTxn l)) && bool_decide (NoDup (omap ce_SettleTxn l)) && bool_decide (NoDup (omap ce_VoidTxn l)).
Definition entry_refs (F : refs) (e : Entry) : bool :=
  rf_user F (ce_Referrer e) && rf_user F (ce_Referee e) && rf_txn F (ce_AccrualTxn e) && opt_ok (rf_txn F) (ce_SettleTxn e) &&
  opt_ok (rf_txn F) (ce_VoidTxn e) && opt_ok (rf_user F) (ce_ReviewedBy e).

Definition InsertEntry (F : refs) (e : Entry) : CM () := λ c,
  if negb (checkMoney [ce_Base e; ce_Amount e]) then (Err OMoney, c)
  else if negb (entry_fits e) then (Err (ODB DBOther), c)
  else if negb (commission_check e) then (Err (ODB DBCheck), c)
  else if negb (entries_unique (c_entries c ++ [e])) then (Err (ODB DBUnique), c)
  else if negb (entry_refs F e) then (Err (ODB DBForeignKey), c)
  else (Ok (), set_entries (λ l, l ++ [e])%list c).
(** The number of rows an update changed. *)
Definition update_entries (F : refs) (hit : Entry → bool) (f : Entry → Entry) : CM Z := λ c,
  if negb (forallb (λ e, negb (hit e) || entry_fits (f e)) (c_entries c)) then (Err (ODB DBOther), c)
  else if negb (forallb (λ e, negb (hit e) || commission_check (f e)) (c_entries c)) then (Err (ODB DBCheck), c)
  else if negb (entries_unique (upd hit f (c_entries c))) then (Err (ODB DBUnique), c)
  else if negb (forallb (λ e, negb (hit e) || entry_refs F (f e)) (c_entries c)) then (Err (ODB DBForeignKey), c)
  else (Ok (hits hit (c_entries c)), set_entries (upd hit f) c).
Definition one_changed (m : CM Z) : CM bool := n ← m; mret (n =? 1).

Definition entry_by (id : uuid) (e : Entry) : bool := (ce_ID e =? id)%N.
Definition entry_is (status : string) (e : Entry) : bool := String.eqb (ce_Status e) status.
Definition under_review (e : Entry) : bool := entry_is EntryPending e && ce_ReviewRequired e.

Definition OrderHasEntries (orderID : uuid) : CM bool := gets (λ c, existsb (λ e, (ce_OrderID e =? orderID)%N) (c_entries c)).
Definition RefereeHasOtherEntry (refereeID orderID : uuid) : CM bool :=
  gets (λ c, existsb (λ e, (ce_Referee e =? refereeID)%N && negb (ce_OrderID e =? orderID)%N) (c_entries c)).

(** [ORDER BY frozen_until, id] and [ORDER BY settled_at, id]. *)
Definition frozen_first (a b : Entry) : Prop :=
  ce_FrozenUntil a < ce_FrozenUntil b ∨ (ce_FrozenUntil a = ce_FrozenUntil b ∧ (ce_ID a ≤ ce_ID b)%N).
#[global] Instance frozen_first_dec : RelDecision frozen_first.
Proof. intros a b. unfold frozen_first. apply _. Defined.
Definition settled_first (a b : Entry) : Prop :=
  let t e := default 0 (ce_SettledAt e) in t a < t b ∨ (t a = t b ∧ (ce_ID a ≤ ce_ID b)%N).
#[global] Instance settled_first_dec : RelDecision settled_first.
Proof. intros a b. unfold settled_first. apply _. Defined.

Definition due_entry (at_ : Time) (e : Entry) : bool :=
  entry_is EntryPending e && negb (ce_ReviewRequired e) && (ce_FrozenUntil e <=? at_).
Definition DueEntryIDs (at_ : Time) (limit : nat) : CM (list uuid) :=
  gets (λ c, map ce_ID (take limit (merge_sort frozen_first (List.filter (due_entry at_) (c_entries c))))).
(** [SKIP LOCKED]: a row [locked] elsewhere is as good as absent. *)
Definition LockDueEntry (locked : uuid → bool) (id : uuid) (at_ : Time) : CM (option Entry) :=
  gets (λ c, List.find (λ e, entry_by id e && due_entry at_ e && negb (locked (ce_ID e))) (c_entries c)).
Definition LockEntry (id : uuid) : CM (option Entry) := gets (λ c, List.find (entry_by id) (c_entries c)).
Definition AutoTransferDueEntries (limit : nat) : CM (list Entry) :=
  gets (λ c, take limit (merge_sort settled_first (List.filter ce_AutoTransferDue (c_entries c)))).
Definition LockAutoTransferEntry (locked : uuid → bool) (id : uuid) : CM (option Entry) :=
  gets (λ c, List.find (λ e, entry_by id e && ce_AutoTransferDue e && negb (locked (ce_ID e))) (c_entries c)).
Definition LockPendingEntriesOf (userID : uuid) : CM (list Entry) :=
  gets (λ c, List.filter (λ e, (ce_Referrer e =? userID)%N && entry_is EntryPending e) (c_entries c)).

(** The columns the updates set. *)
Definition made_available (txn : uuid) (at_ : Time) (auto : bool) (e : Entry) : Entry :=
  mkEntryRow (ce_ID e) (ce_Referrer e) (ce_Referee e) (ce_OrderID e) (ce_OrderNo e) (ce_PaymentID e) (ce_Base e) (ce_RateBP e)
    (ce_Level e) (ce_Share e) (ce_Amount e) EntryAvailable (ce_FrozenUntil e) (ce_ReviewRequired e) (ce_ReviewReason e)
    (ce_AccrualTxn e) (Some txn) (Some at_) auto (ce_ReviewedBy e) (ce_ReviewedAt e) (ce_VoidReason e) (ce_VoidTxn e) (ce_CreatedAt e).
Definition put_in_review (reason : string) (e : Entry) : Entry :=
  mkEntryRow (ce_ID e) (ce_Referrer e) (ce_Referee e) (ce_OrderID e) (ce_OrderNo e) (ce_PaymentID e) (ce_Base e) (ce_RateBP e)
    (ce_Level e) (ce_Share e) (ce_Amount e) (ce_Status e) (ce_FrozenUntil e) true (Some reason) (ce_AccrualTxn e) (ce_SettleTxn e)
    (ce_SettledAt e) (ce_AutoTransferDue e) (ce_ReviewedBy e) (ce_ReviewedAt e) (ce_VoidReason e) (ce_VoidTxn e) (ce_CreatedAt e).
Definition review_passed (by_ : uuid) (at_ : Time) (e : Entry) : Entry :=
  mkEntryRow (ce_ID e) (ce_Referrer e) (ce_Referee e) (ce_OrderID e) (ce_OrderNo e) (ce_PaymentID e) (ce_Base e) (ce_RateBP e)
    (ce_Level e) (ce_Share e) (ce_Amount e) (ce_Status e) (ce_FrozenUntil e) false (ce_ReviewReason e) (ce_AccrualTxn e)
    (ce_SettleTxn e) (ce_SettledAt e) (ce_AutoTransferDue e) (Some by_) (Some at_) (ce_VoidReason e) (ce_VoidTxn e) (ce_CreatedAt e).
Definition voided_by (txn : uuid) (reason : string) (by_ : uuid) (at_ : Time) (e : Entry) : Entry :=
  mkEntryRow (ce_ID e) (ce_Referrer e) (ce_Referee e) (ce_OrderID e) (ce_OrderNo e) (ce_PaymentID e) (ce_Base e) (ce_RateBP e)
    (ce_Level e) (ce_Share e) (ce_Amount e) EntryVoided (ce_FrozenUntil e) false (ce_ReviewReason e) (ce_AccrualTxn e)
    (ce_SettleTxn e) (ce_SettledAt e) (ce_AutoTransferDue e) (Some by_) (Some at_) (Some reason) (Some txn) (ce_CreatedAt e).
Definition auto_cleared (e : Entry) : Entry :=
  mkEntryRow (ce_ID e) (ce_Referrer e) (ce_Referee e) (ce_OrderID e) (ce_OrderNo e) (ce_PaymentID e) (ce_Base e) (ce_RateBP e)
    (ce_Level e) (ce_Share e) (ce_Amount e) (ce_Status e) (ce_FrozenUntil e) (ce_ReviewRequired e) (ce_ReviewReason e)
    (ce_AccrualTxn e) (ce_SettleTxn e) (ce_SettledAt e) false (ce_ReviewedBy e) (ce_ReviewedAt e) (ce_VoidReason e) (ce_VoidTxn e)
    (ce_CreatedAt e).

Definition MarkEntryAvailable (F : refs) (id txn : uuid) (at_ : Time) (auto : bool) : CM bool :=
  one_changed (update_entries F (λ e, entry_by id e && entry_is EntryPending e) (made_available txn at_ auto)).
Definition MarkEntryReview (F : refs) (id : uuid) (reason : string) : CM bool :=
  one_changed (update_entries F (λ e, entry_by id e && entry_is EntryPending e && negb (ce_ReviewRequired e)) (put_in_review reason)).
Definition ApproveEntry (F : refs) (id by_ : uuid) (at_ : Time) : CM bool :=
  one_changed (update_entries F (λ e, entry_by id e && under_review e) (review_passed by_ at_)).
Definition VoidEntry (F : refs) (id txn : uuid) (reason : string) (by_ : uuid) (at_ : Time) : CM bool :=
  one_changed (update_entries F (λ e, entry_by id e && under_review e) (voided_by txn reason by_ at_)).
Definition VoidPendingEntry (F : refs) (id txn : uuid) (reason : string) (by_ : uuid) (at_ : Time) : CM bool :=
  one_changed (update_entries F (λ e, entry_by id e && entry_is EntryPending e) (voided_by txn reason by_ at_)).
Definition ClearAutoTransferDue (F : refs) (id : uuid) : CM bool :=
  one_changed (update_entries F (λ e, entry_by id e && ce_AutoTransferDue e) auto_cleared).
Definition ClearAutoTransferOf (F : refs) (userID : uuid) : CM Z :=
  update_entries F (λ e, (ce_Referrer e =? userID)%N && ce_AutoTransferDue e) auto_cleared.

(** [COALESCE(sum(amount), 0)] over the rows that satisfy [p]. *)
Definition sum_where {A} (amount : A → dec) (p : A → bool) (l : list A) : dec :=
  foldr (λ r acc, dec_add (amount r) acc) dec_zero (List.filter p l).
Record EntryTotals := mkEntryTotals { et_Pending : dec; et_Available : dec; et_Total : dec; et_Orders : Z; et_PaidInvitees : Z }.
Definition EntryTotalsOf (userID : uuid) : CM EntryTotals := gets (λ c,
  let mine e := (ce_Referrer e =? userID)%N in
  let live e := mine e && negb (entry_is EntryVoided e) in
  mkEntryTotals (sum_where ce_Amount (λ e, mine e && entry_is EntryPending e) (c_entries c))
    (sum_where ce_Amount (λ e, mine e && entry_is EntryAvailable e) (c_entries c)) (sum_where ce_Amount live (c_entries c))
    (hits live (c_entries c))
    (Z.of_nat (length (remove_dups (map ce_Referee (List.filter (λ e, live e && (ce_Level e =? 1)) (c_entries c))))))).
(** Integrity (repo/integrity.go): the orders that must have been paid. *)
Definition EntriesSince (since : Time) (c : comm) : list (uuid * uuid) :=
  map (λ e, (ce_ID e, ce_OrderID e)) (List.filter (λ e, (since <=? ce_CreatedAt e) && negb (entry_is EntryVoided e)) (c_entries c)).

(** * Withdrawals (repo/withdrawals.go, deleted.go) *)

Definition in_flight (w : Withdrawal) : bool := one_of (wd_Status w) [WithdrawalRequested; WithdrawalApproved].
Definition withdrawal_fits (w : Withdrawal) : bool :=
  numeric_fits (wd_Amount w) && opt_ok numeric_fits (wd_PaidUSDT w) && opt_ok pg_text (wd_RejectReason w) &&
  opt_ok pg_text (wd_Reference w).
Definition withdrawal_shape (w : Withdrawal) : bool :=
  let unpaid := is_none (wd_Reference w) && is_none (wd_PayoutTxn w) in
  (String.eqb (wd_Status w) WithdrawalRequested && is_none (wd_ReviewedAt w) && is_none (wd_RejectReason w) && unpaid &&
   is_none (wd_CompletedAt w)) ||
  (String.eqb (wd_Status w) WithdrawalApproved && negb (is_none (wd_ReviewedAt w)) && is_none (wd_RejectReason w) && unpaid &&
   is_none (wd_CompletedAt w)) ||
  (String.eqb (wd_Status w) WithdrawalRejected && negb (is_none (wd_ReviewedAt w)) && negb (is_none (wd_RejectReason w)) && unpaid &&
   negb (is_none (wd_CompletedAt w))) ||
  (String.eqb (wd_Status w) WithdrawalPaid && negb (is_none (wd_ReviewedAt w)) && is_none (wd_RejectReason w) &&
   negb (is_none (wd_Reference w)) && negb (is_none (wd_PayoutTxn w)) && negb (is_none (wd_CompletedAt w))).
Definition usdt_shape (w : Withdrawal) : bool :=
  opt_ok IsPositive (wd_PaidUSDT w) &&
  (is_none (wd_PaidUSDT w) || (String.eqb (wd_Status w) WithdrawalPaid && IsUSDTMethod (wd_Method w))) &&
  (negb (String.eqb (wd_Status w) WithdrawalPaid) || negb (IsUSDTMethod (wd_Method w)) ||
   match wd_Reference w with Some r => ValidTxHash (wd_Method w) r | None => false end).
Definition withdrawal_check (w : Withdrawal) : bool :=
  IsPositive (wd_Amount w) && negb (Nat.eqb (length (wd_PayoutSealed w)) 0) &&
  opt_ok (λ r, between 1 (trimmed_runes r) 500) (wd_RejectReason w) && opt_ok (λ r, between 1 (trimmed_runes r) 128) (wd_Reference w) &&
  (ValidWithdrawMethod (wd_Method w) || String.eqb (wd_Method w) "other") && withdrawal_shape w && usdt_shape w.
Definition withdrawals_unique (l : list Withdrawal) : bool :=
  bool_decide (NoDup (omap wd_PayoutTxn l)) && bool_decide (NoDup (map wd_UserID (List.filter in_flight l))).
Definition withdrawal_refs (F : refs) (w : Withdrawal) : bool :=
  rf_user F (wd_UserID w) && opt_ok (rf_txn F) (wd_PayoutTxn w) && opt_ok (rf_user F) (wd_ReviewedBy w) && opt_ok (rf_user F) (wd_PaidBy w).

Definition InsertWithdrawal (F : refs) (w : Withdrawal) : CM () := λ c,
  if negb (checkMoney [wd_Amount w]) then (Err OMoney, c)
  else if negb (withdrawal_fits w) then (Err (ODB DBOther), c)
  else if negb (withdrawal_check w) then (Err (ODB DBCheck), c)
  else if negb (withdrawals_unique (c_withdrawals c ++ [w])) then (Err (ODB DBUnique), c)
  else if negb (withdrawal_refs F w) then (Err (ODB DBForeignKey), c)
  else (Ok (), set_withdrawals (λ l, l ++ [w])%list c).
Definition update_withdrawals (F : refs) (hit : Withdrawal → bool) (f : Withdrawal → Withdrawal) : CM Z := λ c,
  if negb (forallb (λ w, negb (hit w) || withdrawal_fits (f w)) (c_withdrawals c)) then (Err (ODB DBOther), c)
  else if negb (forallb (λ w, negb (hit w) || withdrawal_check (f w)) (c_withdrawals c)) then (Err (ODB DBCheck), c)
  else if negb (withdrawals_unique (upd hit f (c_withdrawals c))) then (Err (ODB DBUnique), c)
  else if negb (forallb (λ w, negb (hit w) || withdrawal_refs F (f w)) (c_withdrawals c)) then (Err (ODB DBForeignKey), c)
  else (Ok (hits hit (c_withdrawals c)), set_withdrawals (upd hit f) c).

Definition withdrawal_at (id : uuid) (status : string) (w : Withdrawal) : bool := (wd_ID w =? id)%N && String.eqb (wd_Status w) status.
Definition WithdrawalByID (id : uuid) : CM (option Withdrawal) := gets (λ c, List.find (λ w, (wd_ID w =? id)%N) (c_withdrawals c)).
Definition HasInFlightWithdrawal (userID : uuid) : CM bool :=
  gets (λ c, existsb (λ w, (wd_UserID w =? userID)%N && in_flight w) (c_withdrawals c)).
Definition LockInFlightWithdrawals (userID : uuid) : CM (list Withdrawal) :=
  gets (λ c, List.filter (λ w, (wd_UserID w =? userID)%N && in_flight w) (c_withdrawals c)).

Definition reviewed_as (to : string) (reason : option string) (by_ : uuid) (at_ : Time) (w : Withdrawal) : Withdrawal :=
  mkWithdrawal (wd_ID w) (wd_UserID w) (wd_Amount w) (wd_PayoutSealed w) (wd_Method w) to reason (wd_Reference w) (wd_PaidUSDT w)
    (wd_PayoutTxn w) (Some by_) (Some at_) (wd_PaidBy w) (wd_RequestedAt w)
    (if String.eqb to WithdrawalRejected then Some at_ else wd_CompletedAt w).
Definition paid_out (ref : string) (usdt : option dec) (txn by_ : uuid) (at_ : Time) (w : Withdrawal) : Withdrawal :=
  mkWithdrawal (wd_ID w) (wd_UserID w) (wd_Amount w) (wd_PayoutSealed w) (wd_Method w) WithdrawalPaid (wd_RejectReason w) (Some ref)
    (match usdt with Some _ => usdt | None => wd_PaidUSDT w end) (Some txn) (wd_ReviewedBy w) (wd_ReviewedAt w) (Some by_)
    (wd_RequestedAt w) (Some at_).
Definition ReviewWithdrawalRow (F : refs) (id : uuid) (to : string) (reason : option string) (by_ : uuid) (at_ : Time) : CM bool :=
  one_changed (update_withdrawals F (withdrawal_at id WithdrawalRequested) (reviewed_as to reason by_ at_)).
Definition MarkWithdrawalPaidRow (F : refs) (id : uuid) (ref : string) (usdt : option dec) (txn by_ : uuid) (at_ : Time) : CM bool :=
  one_changed (update_withdrawals F (withdrawal_at id WithdrawalApproved) (paid_out ref usdt txn by_ at_)).
Definition RejectWithdrawalForDeletedUser (F : refs) (id : uuid) (reason : string) (by_ : uuid) (at_ : Time) : CM bool :=
  one_changed (update_withdrawals F (withdrawal_at id WithdrawalRequested) (reviewed_as WithdrawalRejected (Some reason) by_ at_)).

Record WithdrawalTotals := mkWithdrawalTotals { wt_InFlight : dec; wt_Paid : dec }.
Definition WithdrawalTotalsOf (userID : uuid) : CM WithdrawalTotals := gets (λ c,
  let mine w := (wd_UserID w =? userID)%N in
  mkWithdrawalTotals (sum_where wd_Amount (λ w, mine w && in_flight w) (c_withdrawals c))
    (sum_where wd_Amount (λ w, mine w && String.eqb (wd_Status w) WithdrawalPaid) (c_withdrawals c))).

(** * Transfers, forfeitures and overrides (repo/transfers.go, deleted.go, overrides.go) *)

Definition InsertTransfer (F : refs) (t : Transfer) : CM () := λ c,
  if negb (checkMoney [tr_Amount t]) then (Err OMoney, c)
  else if negb (numeric_fits (tr_Amount t)) then (Err (ODB DBOther), c)
  else if negb (IsPositive (tr_Amount t)) then (Err (ODB DBCheck), c)
  else if bool_decide (tr_Txn t ∈ map tr_Txn (c_transfers c)) ||
          match tr_EntryID t with Some _ => bool_decide (tr_EntryID t ∈ map tr_EntryID (c_transfers c)) | None => false end
  then (Err (ODB DBUnique), c)
  else if negb (rf_user F (tr_UserID t) && rf_txn F (tr_Txn t) && opt_ok (λ i, existsb (entry_by i) (c_entries c)) (tr_EntryID t))
  then (Err (ODB DBForeignKey), c)
  else (Ok (), add_transfer t c).
Definition TransferTotalOf (userID : uuid) : CM dec :=
  gets (λ c, sum_where tr_Amount (λ t, (tr_UserID t =? userID)%N) (c_transfers c)).

Definition InsertForfeiture (F : refs) (f : Forfeiture) : CM () := λ c,
  if negb (checkMoney [ff_Amount f]) then (Err OMoney, c)
  else if negb (numeric_fits (ff_Amount f)) then (Err (ODB DBOther), c)
  else if negb (IsPositive (ff_Amount f)) || negb (String.eqb (ff_Reason f) ReasonAccountDeleted) then (Err (ODB DBCheck), c)
  else if bool_decide (ff_Txn f ∈ map ff_Txn (c_forfeitures c)) || bool_decide (ff_UserID f ∈ map ff_UserID (c_forfeitures c))
  then (Err (ODB DBUnique), c)
  else if negb (rf_user F (ff_UserID f) && rf_txn F (ff_Txn f)) then (Err (ODB DBForeignKey), c)
  else (Ok (), add_forfeiture f c).
Definition ForfeitTotalOf (userID : uuid) : CM dec :=
  gets (λ c, sum_where ff_Amount (λ f, (ff_UserID f =? userID)%N) (c_forfeitures c)).

Definition override_check (o : Override) : bool :=
  opt_ok (λ r, between 0 r 50) (ov_RatePercent o) && opt_ok ValidCommissionScope (ov_Scope o) &&
  negb (is_none (ov_RatePercent o) && is_none (ov_Scope o)).
Definition OverrideOf (userID : uuid) : CM (option Override) := gets (λ c, c_overrides c !! userID).
Definition UpsertOverride (F : refs) (o : Override) : CM () := λ c,
  if negb (opt_ok int2 (ov_RatePercent o)) then (Err (ODB DBOther), c)
  else if negb (override_check o) then (Err (ODB DBCheck), c)
  else if negb (rf_user F (ov_UserID o) && opt_ok (rf_user F) (ov_UpdatedBy o)) then (Err (ODB DBForeignKey), c)
  else (Ok (), set_overrides (<[ov_UserID o := o]>) c).
Definition DeleteOverrideRow (userID : uuid) : CM bool := λ c,
  (Ok (bool_decide (is_Some (c_overrides c !! userID))), set_overrides (delete userID) c).
End CommStore.
