(* ===== verification/CommFlow.v ===== *)
(** The commission service (panel/internal/module/commission/service): the
    terms and beneficiaries of an order (levels.go), accrual (accrue.go),
    settlement after the freeze (settle.go, autotransfer.go), review
    (review.go), withdrawals (withdraw.go, payout_methods.go), transfers to
    balance (transfer.go), the closing of an account (deleted.go) and the terms
    set for single users (overrides.go).  The settings it reads are decoded as
    in settings/service/commission.go and commission_levels.go. *)
From Stdlib Require Import ZArith QArith Lqa Lia.
From stdpp Require Import base tactics list gmap strings sorting.
From S2P Require Import Prelude Safety Decimal GoString Money GoTime LedgerTypes Ledger Promo Period OrderAmounts Proration SubTypes SubStore.
From S2P Require Import OrderStore OrderFlow PayStore PayFlow CommStore.
#[local] Open Scope string_scope.
#[local] Open Scope Z_scope.

(** * Payout accounts (payout_methods.go) *)

Section Payout.
(** SHA-256 and Keccak-256 are library code. *)
Context (Sum256 Keccak256 : list Z → list Z).

Definition tronBase58Alphabet : list Z := bytes_of "123456789ABCDEFGHJKLMNPQRSTUVWXYZabcdefghijkmnopqrstuvwxyz".
Fixpoint index_of (r : Z) (l : list Z) (i : Z) : option Z :=
  match l with
  | [] => None
  | x :: l' => if x =? r then Some i else index_of r l' (i + 1)
  end.
Fixpoint base58_value (l : list Z) (n : Z) : option Z :=
  match l with
  | [] => Some n
  | r :: l' => match index_of r tronBase58Alphabet 0 with Some i => base58_value l' (n * 58 + i) | None => None end
  end.
(** [n.FillBytes] of a buffer of [k] bytes. *)
Fixpoint fill_bytes (k : nat) (n : Z) : list Z :=
  match k with
  | O => []
  | S k' => (fill_bytes k' (n / 256) ++ [n mod 256])%list
  end.
Definition decodeTRONBase58 (s : string) : option (list Z) :=
  match base58_value (map rune (runes s)) 0 with
  | Some n => if 2 ^ 200 <=? n then None else Some (fill_bytes 25 n)
  | None => None
  end.
Definition ValidTRC20Address (s : string) : bool :=
  (blen s =? 34) && (match bytes_of s with b :: _ => b =? 84 | [] => false end) &&
  match decodeTRONBase58 s with
  | Some b => (match b with x :: _ => x =? 65 | [] => false end) &&
              bool_decide (take 4 (Sum256 (Sum256 (take 21 b))) = drop 21 b)
  | None => false
  end.

Definition lower_byte (c : Z) : Z := if between 65 c 90 then c + 32 else c.
Definition upper_byte (c : Z) : Z := if between 97 c 122 then c - 32 else c.
(** The [i]-th hexadecimal digit of the hash is 8 or more. *)
Definition high_nibble (h : list Z) (i : nat) : bool :=
  let b := nth (i / 2) h 0 in 8 <=? (if Nat.even i then b / 16 else b mod 16).
Fixpoint checksum_case (h : list Z) (i : nat) (digits : list Z) : bool :=
  match digits with
  | [] => true
  | c :: l => (between 48 c 57 || Bool.eqb (high_nibble h i) (between 65 c 70)) && checksum_case h (S i) l
  end.
Definition ValidEVMAddress (s : string) : bool :=
  evmAddressRe s &&
  let digits := drop 2 (bytes_of s) in
  let lower := map lower_byte digits in
  (bool_decide (digits = lower) || bool_decide (digits = map upper_byte digits) || checksum_case (Keccak256 lower) 0 digits).

Definition MaxPayoutDetailRunes : Z := 500.
(** The account without outer spaces, and the fields at fault. *)
Definition ValidatePayoutAccount (method account : string) : string * list string :=
  let acct := TrimSpace account in
  if String.eqb acct "" || ContainsNUL acct || (MaxPayoutDetailRunes <? RuneCountInString acct) then (acct, ["payout_detail"])
  else if String.eqb method WithdrawMethodUSDTTRC20 then (acct, if ValidTRC20Address acct then [] else ["payout_detail"])
  else if one_of method [WithdrawMethodUSDTERC20; WithdrawMethodUSDTBEP20] then (acct, if ValidEVMAddress acct then [] else ["payout_detail"])
  else (acct, []).
End Payout.

Section CommFlow.
Context `{DL : DecimalLib}.

Definition maxUSDTAmount : dec := dec_new 1 18.
Definition ValidUSDTAmount (d : dec) : bool := IsPositive d && Equal d (dec_truncate d 6) && LessThan d maxUSDTAmount.
Definition ValidatePaidUSDT (method ref : string) (amount : option dec) : list string :=
  if IsUSDTMethod method
  then ((if ValidTxHash method ref then [] else ["payout_reference"]) ++
        (match amount with Some a => if ValidUSDTAmount a then [] else ["paid_usdt_amount"] | None => [] end))%list
  else match amount with Some _ => ["paid_usdt_amount"] | None => [] end.

(** * Settings (settings/service) *)

(** The module's rows of the settings table: what the JSON of each holds, or
    that there is no row. *)
Record SettingRows := mkSettingRows {
  sv_Rate : result oerr (option Z); sv_Freeze : result oerr (option Z); sv_MinWithdraw : result oerr (option string);
  sv_Scope : result oerr (option string); sv_Distribution : result oerr (option bool); sv_L1 : result oerr (option Z);
  sv_L2 : result oerr (option Z); sv_L3 : result oerr (option Z); sv_Withdraw : result oerr (option bool);
  sv_Methods : result oerr (option string) }.
Definition decodeOr {A} (r : result oerr (option A)) (d : A) : result oerr A := v ← r; Ok (default d v).

Record Commission := mkCommission { cm_RatePercent : Z; cm_FreezeDays : Z; cm_MinWithdraw : dec; cm_Scope : string }.
Definition CommissionMaxFreezeDays : Z := 90.
Definition decodeCommission (v : SettingRows) : result oerr Commission :=
  rate ← decodeOr (sv_Rate v) 0;
  if (rate <? 0) || (CommissionMaxRatePercent <? rate) then Err OInternal
  else
    freeze ← decodeOr (sv_Freeze v) 3;
    if (freeze <? 0) || (CommissionMaxFreezeDays <? freeze) then Err OInternal
    else
      minText ← decodeOr (sv_MinWithdraw v) "100.00";
      match dec_NewFromString minText with
      | None => Err OInternal
      | Some minW =>
          if negb (money_ok minW) || IsNegative minW then Err OInternal
          else
            scope ← decodeOr (sv_Scope v) CommissionScopeEveryOrder;
            Ok (mkCommission rate freeze minW (if ValidCommissionScope scope then scope else CommissionScopeEveryOrder))
      end.

Record Distribution := mkDistribution { ds_Enabled : bool; ds_L1 : Z; ds_L2 : Z; ds_L3 : Z }.
Definition ds_Levels (d : Distribution) : list Z := [ds_L1 d; ds_L2 d; ds_L3 d].
Definition CommissionMaxSharePercent : Z := 100.
Definition share_out_of_range (z : Z) : bool := (z <? 0) || (CommissionMaxSharePercent <? z).
Definition decodeCommissionDistribution (v : SettingRows) : result oerr Distribution :=
  enabled ← decodeOr (sv_Distribution v) false;
  l1 ← decodeOr (sv_L1 v) 0;
  if share_out_of_range l1 then Err OInternal
  else
    l2 ← decodeOr (sv_L2 v) 0;
    if share_out_of_range l2 then Err OInternal
    else
      l3 ← decodeOr (sv_L3 v) 0;
      if share_out_of_range l3 then Err OInternal
      else if enabled && (CommissionMaxSharePercent <? l1 + l2 + l3) then Err OInternal
      else Ok (mkDistribution enabled l1 l2 l3).

Record CommissionWithdraw := mkCommissionWithdraw { cw_Enabled : bool; cw_Methods : list string }.
(** [strings.Split(s, ",")]. *)
Fixpoint split_commas (l acc : list Z) : list string :=
  match l with
  | [] => [string_of (rev acc)]
  | b :: l' => if b =? 44 then string_of (rev acc) :: split_commas l' [] else split_commas l' (b :: acc)
  end.
Definition normalizeWithdrawMethods (l : list string) : list string * bool :=
  let named := List.filter (λ m, negb (String.eqb m "")) (map TrimSpace l) in
  (List.filter (λ c, one_of c (List.filter ValidWithdrawMethod named)) WithdrawMethodCatalog, forallb ValidWithdrawMethod named).
Definition decodeCommissionWithdraw (v : SettingRows) : result oerr CommissionWithdraw :=
  enabled ← decodeOr (sv_Withdraw v) true;
  text ← decodeOr (sv_Methods v) "alipay";
  let raw := List.filter (λ m, negb (String.eqb m "")) (map TrimSpace (split_commas (bytes_of text) [])) in
  Ok (mkCommissionWithdraw enabled (normalizeWithdrawMethods raw).1).

(** * Surroundings *)

(** What a call reads elsewhere: the settings, the referral relation and deleted
    accounts of identity, a user by address, whether two users share a source
    (if the check is installed), and the libraries for sealing, hashing and
    printing decimals. *)
Record CommEnv := mkCommEnv {
  Values : SettingRows;
  ReferrerOf : uuid → result oerr (option uuid);
  AccountDeleted : uuid → result oerr bool;
  FindByEmail : string → result oerr (option (uuid * string));
  SharesSource : option (uuid → uuid → result oerr bool);
  SealPayout : string → uuid → result oerr (list Z);
  env_Sum256 : list Z → list Z;
  env_Keccak256 : list Z → list Z;
  StringFixed : dec → Z → string }.

Abbreviation CM := (M comm oerr).
Abbreviation LC := (M (ledger * comm) oerr).
Definition cled {A} (m : M ledger lerr A) : LC A := zoom fst (λ l s, (l, s.2)) OLedger m.
Definition ctab {A} (m : CM A) : LC A := zoom snd (λ c s, (s.1, c)) id m.
(** A statement that checks foreign keys. *)
Definition ctab_fk {A} (f : refs → CM A) : LC A := λ s, ctab (f (refs_of s.1)) s.
(** [tx.Do]; the ledger's trigger runs at the commit. *)
Definition comm_tx {A} (inTx : bool) (m : LC A) : LC A :=
  Do inTx (λ s, match assert_ledger_balanced s.1 with Ok _ => Ok () | Err e => Err (OLedger e) end) m.
(** A step whose error the caller looks at; its writes stay. *)
Definition outcome {A} (m : LC A) : LC (result oerr A) := λ s, let '(r, s') := m s in (Ok r, s').
Definition money_result {A} (r : result money_err A) : result oerr A := match r with Ok a => Ok a | Err _ => Err OMoney end.

Context (env : Call → CommEnv).

(** * Terms and beneficiaries (levels.go) *)

Definition rejectDeleted (k : Call) (userID : uuid) : result oerr () :=
  gone ← AccountDeleted (env k) userID;
  if gone : bool then Err (OComm CErrAccountDeleted) else Ok ().

Definition excludedByOverride (userID : uuid) : CM bool :=
  ov ← OverrideOf userID;
  mret (match ov with Some o => bool_decide (ov_RatePercent o = Some 0) | None => false end).
Definition notEarning (k : Call) (userID : uuid) : CM bool :=
  gone ← lift (AccountDeleted (env k) userID);
  if gone : bool then mret true else excludedByOverride userID.
Definition termsFor (referrer : uuid) (cfg : Commission) : CM (Z * string) :=
  ov ← OverrideOf referrer;
  mret (match ov with
        | Some o => (default (cm_RatePercent cfg) (ov_RatePercent o), default (cm_Scope cfg) (ov_Scope o))
        | None => (cm_RatePercent cfg, cm_Scope cfg)
        end).
Definition orderTerms (k : Call) (direct : uuid) (cfg : Commission) : CM (Z * string) :=
  out ← notEarning k direct;
  if out : bool then mret (cm_RatePercent cfg, cm_Scope cfg) else termsFor direct cfg.

Definition MaxCommissionLevels : Z := 3.
Record beneficiary := mkBeneficiary { bf_UserID : uuid; bf_Level : Z; bf_Share : Z }.
(** The loop of [beneficiaries] from level [lvl] on, one share per level. *)
Fixpoint climb (k : Call) (lvl : Z) (shares : list Z) (seen : list uuid) (cur : uuid) : CM (list beneficiary) :=
  match shares with
  | [] => mret []
  | share :: above =>
      if bool_decide (cur ∈ seen) then mret []
      else
        own ← (if 0 <? share then
                 skip ← notEarning k cur;
                 mret (if skip : bool then [] else [mkBeneficiary cur lvl share])
               else mret []);
        if lvl =? MaxCommissionLevels then mret own
        else
          up ← lift (ReferrerOf (env k) cur);
          match up with
          | None => mret own
          | Some u => more ← climb k (lvl + 1) above (cur :: seen) u; mret (own ++ more)%list
          end
  end.
Definition beneficiaries (k : Call) (buyer direct : uuid) (dist : Distribution) : CM (list beneficiary) :=
  if negb (ds_Enabled dist) then
    out ← notEarning k direct;
    mret (if out : bool then [] else [mkBeneficiary direct 1 100])
  else climb k 1 (ds_Levels dist) [buyer] direct.
Definition DirectRateBP (ratePercent : Z) (dist : Distribution) : Z :=
  if negb (ds_Enabled dist) then RateBP ratePercent else ratePercent * ds_L1 dist.

(** * Accrual (accrue.go) *)

Definition reviewSameSource := "推荐人与购买人来自同一来源地址".
Definition reviewSourceCheckFailed := "同源检查失败，需人工确认推荐人与购买人是否同源".
Definition reviewSourceCheckMissing := "同源检查未装配，需人工确认推荐人与购买人是否同源".
Definition reviewUnderfundedPrefix := "待结佣金科目余额不足".
Definition reviewDeletedReason := "受益人账号已注销，请作废这条佣金".
Definition sourceReview (k : Call) (referrer buyer : uuid) : option string :=
  match SharesSource (env k) with
  | None => Some reviewSourceCheckMissing
  | Some f => match f referrer buyer with
              | Err _ => Some reviewSourceCheckFailed
              | Ok true => Some reviewSameSource
              | Ok false => None
              end
  end.
Definition accrual_memo (level : Z) : string :=
  if level =? 1 then "分销佣金计提" else "分销佣金计提（第 " ++ itoa2 level ++ " 级）".
Definition accrual_posting (o : PaidOrder) (b : beneficiary) (amount : dec) : Posting :=
  mkPosting KindCommissionAccrued SourceOrder (po_OrderID o) (accrual_memo (bf_Level b))
    [mkLeg (PlatformAccount PlatformRevenue RefMain) Debit amount;
     mkLeg (UserAccount UserCommissionPending (bf_UserID b)) Credit amount].
Fixpoint accrue_all (who : option Principal) (k : Call) (o : PaidOrder) (rateBP : Z) (frozenUntil : Time) (l : list beneficiary) : LC () :=
  match l with
  | [] => mret ()
  | b :: l' =>
      amount ← lift (money_result (LevelAmount (po_Total o) rateBP (bf_Share b)));
      if negb (IsPositive amount) then accrue_all who k o rateBP frozenUntil l'
      else
        let reason := sourceReview k (bf_UserID b) (po_UserID o) in
        txnID ← cled (Post (joined who) (accrual_posting o b amount));
        id ← ctab new_id;
        _ ← ctab_fk (λ F, InsertEntry F (mkEntryRow id (bf_UserID b) (po_UserID o) (po_OrderID o) (po_OrderNo o)
              (if (po_PaymentID o =? uuid_Nil)%N then None else Some (po_PaymentID o)) (po_Total o) rateBP (bf_Level b) (bf_Share b)
              amount EntryPending frozenUntil (negb (is_none reason)) reason txnID None None false None None None None (k_db k)));
        accrue_all who k o rateBP frozenUntil l'
  end.

(** [OnOrderPaid]: it joins the transaction that settles the order. *)
Definition OnOrderPaid (c : PaidCall) : LC () :=
  let '(who, k, o) := c in
  if negb (IsPositive (po_Total o)) || String.eqb (po_Kind o) KindTopup then mret ()
  else comm_tx true (
    direct ← lift (ReferrerOf (env k) (po_UserID o));
    match direct with
    | None => mret ()
    | Some d =>
        if (d =? po_UserID o)%N then mret ()
        else
          cfg ← lift (decodeCommission (Values (env k)));
          terms ← ctab (orderTerms k d cfg);
          if terms.1 <=? 0 then mret ()
          else
            exists_ ← ctab (OrderHasEntries (po_OrderID o));
            if exists_ : bool then mret ()
            else
              earlier ← (if String.eqb terms.2 CommissionScopeFirstOrder
                         then ctab (RefereeHasOtherEntry (po_UserID o) (po_OrderID o)) else mret false);
              if earlier : bool then mret ()
              else
                let rateBP := RateBP terms.1 in
                whole ← lift (money_result (Amount (po_Total o) rateBP));
                if negb (IsPositive whole) then mret ()
                else
                  dist ← lift (decodeCommissionDistribution (Values (env k)));
                  list ← ctab (beneficiaries k (po_UserID o) d dist);
                  let paidAt := if IsZeroTime (po_PaidAt o) then k_now k else po_PaidAt o in
                  accrue_all who k o rateBP (paidAt + wrap64 (cm_FreezeDays cfg * (24 * Hour))) list
    end).

(** * Withdrawals (withdraw.go) *)

Definition availableFrom (userID : uuid) (et : EntryTotals) (wt : WithdrawalTotals) : CM dec :=
  tr ← TransferTotalOf userID;
  fo ← ForfeitTotalOf userID;
  mret (dec_sub (dec_sub (dec_sub (dec_sub (et_Available et) (wt_InFlight wt)) (wt_Paid wt)) tr) fo).
Definition available (userID : uuid) : CM dec :=
  et ← EntryTotalsOf userID;
  wt ← WithdrawalTotalsOf userID;
  availableFrom userID et wt.

Definition validateWithdrawal (k : Call) (amount : dec) (method payoutDetail : string) : result oerr string :=
  let bad_amount := if negb (IsPositive amount) || negb (money_ok amount) then ["amount"] else [] in
  let m := TrimSpace method in
  let '(payout, bad) :=
    if String.eqb m "" || negb (ValidWithdrawMethod m) then ("", ["method"])
    else ValidatePayoutAccount (env_Sum256 (env k)) (env_Keccak256 (env k)) m payoutDetail in
  match (bad_amount ++ bad)%list with [] => Ok payout | fields => Err (OComm (CInvalid fields)) end.

(** What the caller sees when the ledger finds an account short. *)
Definition underfunded (c : cerr) (e : oerr) : oerr :=
  match e with OLedger x => if is_insufficient x then OComm c else e | _ => e end.
Definition taken_as (c : cerr) (e : oerr) : oerr := match e with ODB DBUnique => OComm c | _ => e end.

Definition RequestWithdrawal (inTx : bool) (k : Call) (userID : uuid) (amount : dec) (method payoutDetail : string) : LC uuid :=
  payout ← lift (validateWithdrawal k amount method payoutDetail);
  comm_tx inTx (
    _ ← lift (rejectDeleted k userID);
    wd ← lift (decodeCommissionWithdraw (Values (env k)));
    if negb (cw_Enabled wd) then fail (OComm CErrWithdrawDisabled)
    else
      let method := TrimSpace method in
      if negb (one_of method (cw_Methods wd)) then fail (OComm (CInvalid ["method"]))
      else
        cfg ← lift (decodeCommission (Values (env k)));
        if LessThan amount (cm_MinWithdraw cfg) then fail (OComm CErrWithdrawTooSmall)
        else
          inFlight ← ctab (HasInFlightWithdrawal userID);
          if inFlight : bool then fail (OComm CErrWithdrawPending)
          else
            avail ← ctab (available userID);
            if negb (IsPositive avail) then fail (OComm CErrNoCommission)
            else if GreaterThan amount avail then fail (OComm CErrWithdrawTooMuch)
            else
              sealed ← lift (SealPayout (env k) payout userID);
              id ← ctab new_id;
              _ ← map_err (taken_as CErrWithdrawPending)
                    (ctab_fk (λ F, InsertWithdrawal F (mkWithdrawal id userID amount sealed method WithdrawalRequested None None None
                       None None None None (k_db k) None)));
              _ ← ctab (comm_audit "withdrawal.requested" id);
              mret id).

Definition MaxRejectReasonRunes : Z := 500.
Definition ReviewWithdrawal (inTx : bool) (who : option Principal) (k : Call) (id : uuid) (approve : bool) (reason0 : string) : LC string :=
  let reason := TrimSpace reason0 in
  if (approve && negb (String.eqb reason "")) || (negb approve && String.eqb reason "") || ContainsNUL reason ||
     (MaxRejectReasonRunes <? RuneCountInString reason) then fail (OComm (CInvalid ["reason"]))
  else
    p ← lift (order_principal who);
    let to := if approve then WithdrawalApproved else WithdrawalRejected in
    comm_tx inTx (
      w ← ctab (WithdrawalByID id);
      match w with
      | None => fail (OComm CErrWithdrawalNotFound)
      | Some w =>
          _ ← lift (if approve then rejectDeleted k (wd_UserID w) else Ok ());
          if negb (CanWithdrawalTransition (wd_Status w) to) then fail (OComm CErrWithdrawalHandled)
          else
            changed ← ctab_fk (λ F, ReviewWithdrawalRow F id to (if approve then None else Some reason) (pr_UserID p) (k_now k));
            if negb changed then fail (OComm CErrWithdrawalHandled)
            else
              _ ← ctab (comm_audit (if approve then "withdrawal.approve" else "withdrawal.reject") id);
              mret to
      end).

Definition SourceCommissionEntry := "commission_entry".
Definition SourceWithdrawal := "withdrawal".
Definition SourceCommissionTransfer := "commission_transfer".
Definition SourceCommissionForfeiture := "commission_forfeiture".
(** From one account to another. *)
Definition move_legs (from to : AccountRef) (amount : dec) : list Leg := [mkLeg from Debit amount; mkLeg to Credit amount].
Definition pending_of (u : uuid) : AccountRef := UserAccount UserCommissionPending u.
Definition available_of (u : uuid) : AccountRef := UserAccount UserCommissionAvailable u.
Definition payout_posting (w : Withdrawal) : Posting :=
  mkPosting KindCommissionPaid SourceWithdrawal (wd_ID w) "佣金提现打款"
    (move_legs (available_of (wd_UserID w)) (PlatformAccount ChannelCash RefPayout) (wd_Amount w)).
Definition MaxPayoutReferenceRunes : Z := 128.
Definition MarkWithdrawalPaid (inTx : bool) (who : option Principal) (k : Call) (id : uuid) (ref0 : string) (usdt : option dec) : LC () :=
  let ref := TrimSpace ref0 in
  if String.eqb ref "" || ContainsNUL ref || (MaxPayoutReferenceRunes <? RuneCountInString ref)
  then fail (OComm (CInvalid ["payout_reference"]))
  else
    p ← lift (order_principal who);
    comm_tx inTx (
      w ← ctab (WithdrawalByID id);
      match w with
      | None => fail (OComm CErrWithdrawalNotFound)
      | Some w =>
          _ ← lift (rejectDeleted k (wd_UserID w));
          if negb (CanWithdrawalTransition (wd_Status w) WithdrawalPaid) then fail (OComm CErrWithdrawalNotPayable)
          else
            match ValidatePaidUSDT (wd_Method w) ref usdt with
            | _ :: _ as f => fail (OComm (CInvalid f))
            | [] =>
                txnID ← map_err (underfunded CErrPayoutUnderfunded) (cled (Post (joined who) (payout_posting w)));
                changed ← ctab_fk (λ F, MarkWithdrawalPaidRow F id ref usdt txnID (pr_UserID p) (k_now k));
                if negb changed then fail (OComm CErrPayoutStateLost)
                else ctab (comm_audit "withdrawal.paid" id)
            end
      end).

(** * Transfers to balance (transfer.go) *)

Definition transfer_posting (id userID : uuid) (amount : dec) (memo : string) : Posting :=
  mkPosting KindCommissionToBalance SourceCommissionTransfer id memo
    (move_legs (available_of userID) (UserAccount UserBalance userID) amount).
Definition postTransfer (who : option Principal) (k : Call) (userID : uuid) (amount : dec) (entryID : option uuid) (memo : string) : LC uuid :=
  transferID ← ctab new_id;
  txnID ← map_err (underfunded CErrTransferInsufficient) (cled (Post (joined who) (transfer_posting transferID userID amount memo)));
  _ ← ctab_fk (λ F, InsertTransfer F (mkTransfer transferID userID amount txnID entryID (k_db k)));
  mret txnID.
Definition TransferToBalance (inTx : bool) (who : option Principal) (k : Call) (userID : uuid) (amount : dec) : LC uuid :=
  if negb (IsPositive amount) || negb (money_ok amount) then fail (OComm (CInvalid ["amount"]))
  else comm_tx inTx (
    _ ← lift (rejectDeleted k userID);
    avail ← ctab (available userID);
    if LessThan avail amount then fail (OComm CErrTransferInsufficient)
    else
      txnID ← postTransfer who k userID amount None "佣金转入余额";
      _ ← ctab (comm_audit "commission.transferred_to_balance" txnID);
      mret txnID).

(** * Settlement (settle.go, autotransfer.go) *)

Inductive settleOutcome := settleSkipped | settleDone | settleQuarantined.
Definition settle_posting (e : Entry) : Posting :=
  mkPosting KindCommissionSettled SourceCommissionEntry (ce_ID e) "佣金解冻"
    (move_legs (pending_of (ce_Referrer e)) (available_of (ce_Referrer e)) (ce_Amount e)).
Definition quarantine_entry (e : Entry) (reason : string) : LC settleOutcome :=
  changed ← ctab_fk (λ F, MarkEntryReview F (ce_ID e) reason);
  if negb changed then fail (OComm CErrSettleLost) else mret settleQuarantined.
(** One entry in a transaction of its own; [auto]: withdrawals are closed. *)
Definition settleOne (k : Call) (locked : uuid → bool) (id : uuid) (auto : bool) : LC settleOutcome :=
  comm_tx false (
    e ← ctab (LockDueEntry locked id (k_now k));
    match e with
    | None => mret settleSkipped
    | Some e =>
        if negb (CanEntryTransition (ce_Status e) EntryAvailable) then mret settleSkipped
        else
          gone ← lift (AccountDeleted (env k) (ce_Referrer e));
          if gone : bool then quarantine_entry e reviewDeletedReason
          else
            posted ← outcome (cled (Post (joined None) (settle_posting e)));
            match posted with
            | Err (OLedger ErrInsufficientBalance) =>
                quarantine_entry e (reviewUnderfundedPrefix ++ "，无法解冻 " ++ StringFixed (env k) (ce_Amount e) 2)
            | Err x => fail x
            | Ok txnID =>
                changed ← ctab_fk (λ F, MarkEntryAvailable F (ce_ID e) txnID (k_now k) auto);
                if negb changed then fail (OComm CErrSettleLost) else mret settleDone
            end
    end).

Definition autoTransferMemo := "佣金自动转入余额（提现已关闭）".
Definition autoTransferOne (k : Call) (locked : uuid → bool) (id : uuid) (auto : bool) : LC bool :=
  comm_tx false (
    e ← ctab (LockAutoTransferEntry locked id);
    match e with
    | None => mret false
    | Some e =>
        gone ← lift (AccountDeleted (env k) (ce_Referrer e));
        amount ← (if gone || negb auto then mret dec_zero
                  else
                    avail ← ctab (available (ce_Referrer e));
                    mret (if LessThan avail (ce_Amount e) then avail else ce_Amount e));
        done_ ← (if IsPositive amount then
                   _ ← postTransfer None k (ce_Referrer e) amount (Some (ce_ID e)) autoTransferMemo;
                   _ ← ctab (comm_audit "commission.auto_transferred_to_balance" (ce_ID e));
                   mret true
                 else mret false);
        changed ← ctab_fk (λ F, ClearAutoTransferDue F (ce_ID e));
        if negb changed then fail (OComm CErrAutoTransferLost) else mret done_
    end).

Record SettleStats := mkSettleStats {
  ss_Scanned : Z; ss_Settled : Z; ss_Skipped : Z; ss_Quarantined : Z; ss_Failed : Z; ss_AutoTransferred : Z }.
Definition SettleBatchDefault : Z := 500.
Definition settle_counted (r : result oerr settleOutcome) (st : SettleStats) : SettleStats :=
  let '(mkSettleStats n s k q f a) := st in
  match r with
  | Err _ => mkSettleStats n s k q (f + 1) a
  | Ok settleDone => mkSettleStats n (s + 1) k q f a
  | Ok settleQuarantined => mkSettleStats n s k (q + 1) f a
  | Ok settleSkipped => mkSettleStats n s (k + 1) q f a
  end.
Definition first_error {A} (first : option oerr) (r : result oerr A) : option oerr :=
  match first, r with Some e, _ => Some e | None, Err e => Some e | None, Ok _ => None end.
(** A round's state: the statistics, the first error, and whether the context
    was cancelled ([ctxErr id] is what [ctx.Err] answers before entry [id]). *)
Fixpoint settle_all (ks : uuid → Call) (ctxErr : uuid → option oerr) (locked : uuid → bool) (auto : bool) (ids : list uuid)
    (st : SettleStats) (first : option oerr) : LC (SettleStats * option oerr * bool) :=
  match ids with
  | [] => mret (st, first, true)
  | id :: ids' =>
      match ctxErr id with
      | Some x => mret (st, Some x, false)
      | None =>
          r ← outcome (settleOne (ks id) locked id auto);
          settle_all ks ctxErr locked auto ids' (settle_counted r st) (first_error first r)
      end
  end.
Definition transfer_counted (r : result oerr bool) (st : SettleStats) : SettleStats :=
  let '(mkSettleStats n s k q f a) := st in
  match r with
  | Err _ => mkSettleStats n s k q (f + 1) a
  | Ok true => mkSettleStats n s k q f (a + 1)
  | Ok false => st
  end.
Fixpoint transfer_all (ks : uuid → Call) (ctxErr : uuid → option oerr) (locked : uuid → bool) (auto : bool) (ids : list uuid)
    (st : SettleStats) (first : option oerr) : LC (SettleStats * option oerr) :=
  match ids with
  | [] => mret (st, first)
  | id :: ids' =>
      match ctxErr id with
      | Some x => mret (st, Some x)
      | None =>
          r ← outcome (autoTransferOne (ks id) locked id auto);
          transfer_all ks ctxErr locked auto ids' (transfer_counted r st) (first_error first r)
      end
  end.
(** One turn of the job: what falls due, then what is marked for transfer.  The
    error of the first half is reported before the second's. *)
Definition SettleDue (k : Call) (ks kt : uuid → Call) (ctxSettle ctxTransfer : uuid → option oerr) (ctxMid : option oerr)
    (locked : uuid → bool) (limit0 : Z) : LC (SettleStats * option oerr) :=
  let limit := Z.to_nat (if limit0 <=? 0 then SettleBatchDefault else limit0) in
  wd ← lift (decodeCommissionWithdraw (Values (env k)));
  let auto := negb (cw_Enabled wd) in
  ids ← ctab (DueEntryIDs (k_now k) limit);
  half ← settle_all ks ctxSettle locked auto ids (mkSettleStats (Z.of_nat (length ids)) 0 0 0 0 0) None;
  let '(st, first, going) := half in
  if negb going then mret (st, first)
  else
    match ctxMid with
    | Some x => mret (st, Some x)
    | None =>
        due ← ctab (AutoTransferDueEntries limit);
        rest ← transfer_all kt ctxTransfer locked auto (map ce_ID due) st None;
        mret (rest.1, match first with Some _ => first | None => rest.2 end)
    end.

(** * Review (review.go) *)

Definition MinVoidReasonRunes : Z := 5.
Definition MaxEntryReviewRunes : Z := 500.
Definition validateEntryReview (approve : bool) (reason0 : string) : result oerr string :=
  let reason := TrimSpace reason0 in
  let n := RuneCountInString reason in
  if ContainsNUL reason || (negb approve && (n <? MinVoidReasonRunes)) || (MaxEntryReviewRunes <? n)
  then Err (OComm (CInvalid ["reason"])) else Ok reason.

Definition void_posting (e : Entry) (memo : string) : Posting :=
  mkPosting KindCommissionVoided SourceCommissionEntry (ce_ID e) memo
    (move_legs (pending_of (ce_Referrer e)) (PlatformAccount PlatformRevenue RefMain) (ce_Amount e)).
Definition void_error (e : oerr) : oerr :=
  match e with
  | OLedger x => if is_insufficient x then OComm CErrVoidUnderfunded else if is_duplicate x then OComm CErrEntryNotReviewable else e
  | _ => e
  end.
Definition ReviewEntry (inTx : bool) (who : option Principal) (k : Call) (id : uuid) (approve : bool) (reason0 : string) : LC string :=
  reason ← lift (validateEntryReview approve reason0);
  p ← lift (order_principal who);
  comm_tx inTx (
    e ← ctab (LockEntry id);
    match e with
    | None => fail (OComm CErrEntryNotFound)
    | Some e =>
        _ ← lift (if approve then rejectDeleted k (ce_Referrer e) else Ok ());
        if negb (String.eqb (ce_Status e) EntryPending) || negb (ce_ReviewRequired e) then fail (OComm CErrEntryNotReviewable)
        else if approve then
          changed ← ctab_fk (λ F, ApproveEntry F id (pr_UserID p) (k_now k));
          if negb changed then fail (OComm CErrEntryNotReviewable)
          else
            _ ← ctab (comm_audit "commission.entry_approved" id);
            mret EntryPending
        else if negb (CanEntryTransition (ce_Status e) EntryVoided) then fail (OComm CErrEntryNotReviewable)
        else
          txnID ← map_err void_error (cled (Post (joined who) (void_posting e "佣金复核作废，冲回计提")));
          changed ← ctab_fk (λ F, VoidEntry F id txnID reason (pr_UserID p) (k_now k));
          if negb changed then fail (OComm CErrEntryNotReviewable)
          else
            _ ← ctab (comm_audit "commission.entry_voided" id);
            mret EntryVoided
    end).

Definition reviewSource (reason : string) : string :=
  if String.eqb reason reviewSameSource then "same_source"
  else if one_of reason [reviewSourceCheckFailed; reviewSourceCheckMissing] then "source_check"
  else if String.prefix reviewUnderfundedPrefix reason then "underfunded"
  else if String.eqb reason reviewDeletedReason then "account_deleted"
  else "other".

(** * Closing an account (deleted.go) *)

Record VoidResult := mkVoidResult {
  vr_VoidedEntries : Z; vr_VoidedPending : dec; vr_Forfeited : dec; vr_RejectedWithdrawals : Z; vr_RejectedAmount : dec }.

Fixpoint reject_all (k : Call) (by_ : uuid) (l : list Withdrawal) : LC () :=
  match l with
  | [] => mret ()
  | w :: l' =>
      changed ← ctab_fk (λ F, RejectWithdrawalForDeletedUser F (wd_ID w) ReasonAccountDeleted by_ (k_now k));
      if negb changed then fail (OComm CErrPayoutStateLost) else reject_all k by_ l'
  end.
Definition voidPendingForDeleted (who : option Principal) (k : Call) (e : Entry) (by_ : uuid) : LC () :=
  txnID ← map_err (underfunded CErrVoidUnderfunded) (cled (Post (joined who) (void_posting e "账号注销，作废冻结中的佣金")));
  changed ← ctab_fk (λ F, VoidPendingEntry F (ce_ID e) txnID ReasonAccountDeleted by_ (k_now k));
  if negb changed then fail (OComm CErrSettleLost) else mret ().
Fixpoint void_all (who : option Principal) (k : Call) (by_ : uuid) (l : list Entry) : LC () :=
  match l with
  | [] => mret ()
  | e :: l' => _ ← voidPendingForDeleted who k e by_; void_all who k by_ l'
  end.
Definition forfeit_posting (id userID : uuid) (amount : dec) : Posting :=
  mkPosting KindCommissionVoided SourceCommissionForfeiture id "账号注销，作废可提现佣金"
    (move_legs (available_of userID) (PlatformAccount PlatformRevenue RefMain) amount).
Definition forfeitAvailable (who : option Principal) (k : Call) (userID : uuid) (amount : dec) : LC () :=
  id ← ctab new_id;
  txnID ← map_err (underfunded CErrForfeitUnderfunded) (cled (Post (joined who) (forfeit_posting id userID amount)));
  map_err (taken_as CErrForfeitedTwice)
    (ctab_fk (λ F, InsertForfeiture F (mkForfeiture id userID amount ReasonAccountDeleted txnID (k_db k)))).
Definition VoidForDeletedUser (inTx : bool) (who : option Principal) (k : Call) (userID : uuid) : LC VoidResult :=
  p ← lift (order_principal who);
  comm_tx inTx (
    wds ← ctab (LockInFlightWithdrawals userID);
    if existsb (λ w, String.eqb (wd_Status w) WithdrawalApproved) wds then fail (OComm CErrApprovedWithdrawalPending)
    else
      _ ← reject_all k (pr_UserID p) wds;
      entries ← ctab (LockPendingEntriesOf userID);
      _ ← void_all who k (pr_UserID p) entries;
      _ ← ctab_fk (λ F, ClearAutoTransferOf F userID);
      avail ← ctab (available userID);
      forfeited ← (if negb (IsPositive avail) then mret dec_zero
                   else _ ← forfeitAvailable who k userID avail; mret avail);
      mret (mkVoidResult (Z.of_nat (length entries)) (foldl (λ acc e, dec_add acc (ce_Amount e)) dec_zero entries) forfeited
              (Z.of_nat (length wds)) (foldl (λ acc w, dec_add acc (wd_Amount w)) dec_zero wds))).
(** The lock itself is no state of the model. *)
Definition LockForDeletion (inTx : bool) : LC () := if inTx then mret () else fail OInternal.

(** * Terms of single users (overrides.go) *)

Record OverrideInput := mkOverrideInput { oi_Email : string; oi_RatePercent : option Z; oi_Scope : option string }.
Definition validateOverrideInput (i : OverrideInput) : string * list string :=
  let email := TrimSpace (oi_Email i) in
  let rate_fits := opt_ok (λ r, negb ((r <? 0) || (CommissionMaxRatePercent <? r))) (oi_RatePercent i) in
  let neither := is_none (oi_RatePercent i) && is_none (oi_Scope i) in
  (email,
   ((if String.eqb email "" || (254 <? RuneCountInString email) then ["email"] else []) ++
    (if opt_ok ValidCommissionScope (oi_Scope i) then [] else ["scope"]) ++
    (if negb rate_fits || neither then ["rate_percent"] else []))%list).
Definition SetOverride (inTx : bool) (who : option Principal) (k : Call) (i : OverrideInput) : LC (Override * string) :=
  let '(email, fields) := validateOverrideInput i in
  match fields with
  | _ :: _ => fail (OComm (CInvalid fields))
  | [] =>
      p ← lift (order_principal who);
      found ← lift (FindByEmail (env k) email);
      match found with
      | None => fail (OComm (CInvalid ["email"]))
      | Some (userID, storedEmail) =>
          let o := mkOverride userID (oi_RatePercent i) (oi_Scope i) (Some (pr_UserID p)) (k_now k) in
          comm_tx inTx (
            _ ← ctab_fk (λ F, UpsertOverride F o);
            _ ← ctab (comm_audit "commission.override_set" userID);
            mret (o, storedEmail))
      end
  end.
Definition DeleteOverride (inTx : bool) (who : option Principal) (k : Call) (userID : uuid) : LC () :=
  _ ← lift (order_principal who);
  comm_tx inTx (
    old ← ctab (OverrideOf userID);
    match old with
    | None => fail (OComm CErrOverrideNotFound)
    | Some _ =>
        deleted ← ctab (DeleteOverrideRow userID);
        if negb deleted then fail (OComm CErrOverrideNotFound) else ctab (comm_audit "commission.override_removed" userID)
    end).
End CommFlow.
