(* ===== verification/CommInv.v ===== *)
(** The invariant of the commission tables beside the two commission accounts
    every user has in the ledger, and the life of their rows.  What is pending
    is exactly the sum of the pending entries; what is available is what has
    settled less what was paid out, moved to the balance or forfeited; and the
    withdrawals under way are always covered.

    The money of the commission module: what each of its postings does to the
    two commission accounts, and that every block of a posting and a write to
    the tables keeps the accounts and the tables in step. *)
From Stdlib Require Import ZArith QArith Lqa Lia.
From stdpp Require Import base tactics list gmap strings sorting relations.
From S2P Require Import Prelude Safety Decimal GoString Money LedgerTypes LedgerFacts Ledger LedgerInv LedgerOps GoTime Promo Period OrderAmounts.
From S2P Require Import Proration SubTypes SubStore OrderStore OrderFlow OrderInv Frame PayStore PayFlow PayInv CommStore CommFlow.
#[local] Open Scope string_scope.
#[local] Open Scope Z_scope.

Section CommInv.
Context `{DL : DecimalLib}.

Definition counted {A} (p : A → bool) (amount : A → dec) (x : A) : Q := if p x then val (amount x) else 0.
Lemma counted_app {A} (p : A → bool) (amount : A → dec) x : counted p amount x = if p x then val (amount x) else 0%Q.
Proof. done. Qed.
Lemma sum_where_val {A} (amount : A → dec) p l : (val (sum_where amount p l) == over (counted p amount) l)%Q.
Proof.
  unfold sum_where, over, counted. induction l as [|x l IH]; simpl; [apply dec_zero_val|].
  destruct (p x); simpl; [rewrite dec_add_val|]; lra.
Qed.

(** * Life of the rows *)

Definition entry_terms (e : Entry) :=
  (ce_ID e, ce_Referrer e, ce_Referee e, ce_OrderID e, ce_OrderNo e, ce_PaymentID e, (ce_Base e, ce_RateBP e, ce_Level e, ce_Share e),
   ce_Amount e, ce_FrozenUntil e, ce_AccrualTxn e, ce_CreatedAt e).
Definition entry_end (e : Entry) := (ce_Status e, ce_SettleTxn e, ce_SettledAt e, ce_VoidReason e, ce_VoidTxn e).
(** An entry keeps its terms; it ends once, one of the two ways. *)
Definition entry_life (e e' : Entry) : Prop :=
  entry_terms e' = entry_terms e ∧ (entry_end e' = entry_end e ∨ CanEntryTransition (ce_Status e) (ce_Status e') = true).
Lemma entry_transition_ends a b x : CanEntryTransition a b = true → CanEntryTransition b x = false.
Proof.
  unfold CanEntryTransition, allowed, entryTransitions. destruct (String.eqb_spec a EntryPending); [|done]. simpl.
  destruct (String.eqb_spec b EntryAvailable) as [->|]; [done|]. by destruct (String.eqb_spec b EntryVoided) as [->|].
Qed.
#[global] Instance entry_life_preorder : PreOrder entry_life.
Proof.
  split; [intros e; split; [done|by left]|]. intros a b c [T1 E1] [T2 E2]. split; [congruence|].
  destruct E1 as [E1|C1], E2 as [E2|C2]; [left; congruence|right|right|].
  - injection E1 as Es _. by rewrite <- Es.
  - injection E2 as Es _. by rewrite Es.
  - by rewrite (entry_transition_ends _ _ _ C1) in C2.
Qed.

Definition withdrawal_terms (w : Withdrawal) := (wd_ID w, wd_UserID w, wd_Amount w, wd_PayoutSealed w, wd_Method w, wd_RequestedAt w).
Definition withdrawal_move (a b : string) : Prop := CanWithdrawalTransition a b = true.
Definition withdrawal_life (w w' : Withdrawal) : Prop :=
  withdrawal_terms w' = withdrawal_terms w ∧ rtc withdrawal_move (wd_Status w) (wd_Status w') ∧ (in_flight w = false → w' = w).
#[global] Instance withdrawal_life_preorder : PreOrder withdrawal_life.
Proof.
  split; [by intros w|]. intros a b c (T1 & M1 & E1) (T2 & M2 & E2). split_and!; [congruence|by etrans|].
  intros Hf. by rewrite (E1 Hf) in *; apply E2.
Qed.

Record comm_life (c c' : comm) : Prop := {
  cl_entries : rows_life entry_life (c_entries c) (c_entries c');
  cl_withdrawals : rows_life withdrawal_life (c_withdrawals c) (c_withdrawals c');
  cl_transfers : c_transfers c `prefix_of` c_transfers c';
  cl_forfeitures : c_forfeitures c `prefix_of` c_forfeitures c';
  cl_next : (c_next c ≤ c_next c')%N;
}.
#[global] Instance comm_life_preorder : PreOrder comm_life.
Proof.
  split; [intros c; by split|]. intros a b c [H1 H2 H3 H4 H5] [G1 G2 G3 G4 G5].
  split; [by etrans..|lia].
Qed.

(** * The tables *)

Record tables_ok (c : comm) : Prop := {
  tk_entries : ∀ e, e ∈ c_entries c → commission_check e = true;
  tk_unique : entries_unique (c_entries c) = true;
  tk_withdrawals : ∀ w, w ∈ c_withdrawals c → withdrawal_check w = true;
  tk_one : withdrawals_unique (c_withdrawals c) = true;
  tk_transfers : ∀ t, t ∈ c_transfers c → (0 < val (tr_Amount t))%Q;
  tk_forfeitures : ∀ f, f ∈ c_forfeitures c → (0 < val (ff_Amount f))%Q;
  tk_entry_ids : NoDup (map ce_ID (c_entries c)) ∧ (∀ e, e ∈ c_entries c → (ce_ID e < c_next c)%N);
  tk_withdrawal_ids : NoDup (map wd_ID (c_withdrawals c)) ∧ (∀ w, w ∈ c_withdrawals c → (wd_ID w < c_next c)%N);
}.

Abbreviation safe := (keeps (E := oerr) tables_ok comm_life).

Lemma comm_audit_safe a id : safe (comm_audit a id).
Proof. apply keeps_modify. intros c []. by split. Qed.
Lemma ids_mono {A} (f : A → uuid) l n n' : (n ≤ n')%N → NoDup (map f l) ∧ (∀ x, x ∈ l → (f x < n)%N) → NoDup (map f l) ∧ (∀ x, x ∈ l → (f x < n')%N).
Proof. intros Hn [H1 H2]. split; [done|]. intros x Hx. pose proof (H2 _ Hx). lia. Qed.
Lemma bumped_ok c : tables_ok c → tables_ok (comm_bumped c).
Proof. intros []. split; try done; simpl; (eapply ids_mono; [|done]); lia. Qed.
Lemma new_id_safe : safe new_id.
Proof. intros c id c' Hc [= _ <-]. split; [by apply bumped_ok|]. split; try done. simpl. lia. Qed.

(** ** Updates *)

Lemma update_entries_Ok F hit f c n c' : update_entries F hit f c = (Ok n, c') →
  n = hits hit (c_entries c) ∧ c' = set_entries (upd hit f) c ∧ (∀ e, e ∈ c_entries c → hit e = true → commission_check (f e) = true) ∧
  entries_unique (upd hit f (c_entries c)) = true.
Proof.
  unfold update_entries. destruct (forallb _ (c_entries c)) eqn:Ef; simpl; [|done].
  destruct (forallb (λ e, _ || commission_check (f e)) _) eqn:Ec; simpl; [|done]. destruct (entries_unique _) eqn:Eu; simpl; [|done].
  match goal with |- context [if negb ?b then _ else _] => destruct b end; simpl; [|done]. intros [= <- <-]. split_and!; try done.
  intros e He Hh. rewrite forallb_forall in Ec. specialize (Ec e (proj1 (list_elem_of_In _ _) He)). by rewrite Hh in Ec.
Qed.
Lemma upd_ids {A} (g : A → uuid) hit f l : (∀ x, g (f x) = g x) → map g (upd hit f l) = map g l.
Proof. intros H. unfold upd. rewrite List.map_map. apply List.map_ext. intros x. by destruct (hit x). Qed.
Lemma update_entries_safe F hit f : (∀ e, hit e = true → entry_life e (f e)) → (∀ e, ce_ID (f e) = ce_ID e) → safe (update_entries F hit f).
Proof.
  intros Hl Hi c n c' Hc (-> & -> & Hck & Hu)%update_entries_Ok. destruct Hc as [H1 H2 H3 H4 H5 H6 H7 H8]. split.
  - split; simpl; try done.
    + intros e (y & Hy & ->)%upd_in. destruct (hit y) eqn:E; auto.
    + rewrite upd_ids by done. split; [apply H7|]. intros e (y & Hy & ->)%upd_in. destruct (hit y); rewrite ?Hi; by apply H7.
  - split; simpl; try done. apply rows_life_upd; [apply _|auto].
Qed.

Lemma one_changed_Ok m c b c' : one_changed m c = (Ok b, c') → ∃ n, m c = (Ok n, c') ∧ b = (n =? 1).
Proof. unfold one_changed. intros (n & c1 & H & [= <- <-])%bind_Ok. eauto. Qed.
Lemma one_changed_safe m : safe m → safe (one_changed m).
Proof. intros Hm. unfold one_changed. keeps_walk; auto. Qed.

Lemma update_withdrawals_Ok F hit f c n c' : update_withdrawals F hit f c = (Ok n, c') →
  n = hits hit (c_withdrawals c) ∧ c' = set_withdrawals (upd hit f) c ∧
  (∀ w, w ∈ c_withdrawals c → hit w = true → withdrawal_check (f w) = true) ∧ withdrawals_unique (upd hit f (c_withdrawals c)) = true.
Proof.
  unfold update_withdrawals. destruct (forallb _ (c_withdrawals c)) eqn:Ef; simpl; [|done].
  destruct (forallb (λ e, _ || withdrawal_check (f e)) _) eqn:Ec; simpl; [|done]. destruct (withdrawals_unique _) eqn:Eu; simpl; [|done].
  match goal with |- context [if negb ?b then _ else _] => destruct b end; simpl; [|done]. intros [= <- <-]. split_and!; try done.
  intros e He Hh. rewrite forallb_forall in Ec. specialize (Ec e (proj1 (list_elem_of_In _ _) He)). by rewrite Hh in Ec.
Qed.
Lemma update_withdrawals_safe F hit f : (∀ w, hit w = true → withdrawal_life w (f w)) → (∀ w, wd_ID (f w) = wd_ID w) →
  safe (update_withdrawals F hit f).
Proof.
  intros Hl Hi c n c' Hc (-> & -> & Hck & Hu)%update_withdrawals_Ok. destruct Hc as [H1 H2 H3 H4 H5 H6 H7 H8]. split.
  - split; simpl; try done.
    + intros e (y & Hy & ->)%upd_in. destruct (hit y) eqn:E; auto.
    + rewrite upd_ids by done. split; [apply H8|]. intros e (y & Hy & ->)%upd_in. destruct (hit y); rewrite ?Hi; by apply H8.
  - split; simpl; try done. apply rows_life_upd; [apply _|auto].
Qed.

Lemma entry_is_true s e : entry_is s e = true ↔ ce_Status e = s.
Proof. apply String.eqb_eq. Qed.
(** The life of an entry under each update. *)
Lemma made_available_life txn at_ auto e : ce_Status e = EntryPending → entry_life e (made_available txn at_ auto e).
Proof. intros E. split; [done|right]. by rewrite E. Qed.
Lemma voided_life txn reason by_ at_ e : ce_Status e = EntryPending → entry_life e (voided_by txn reason by_ at_ e).
Proof. intros E. split; [done|right]. by rewrite E. Qed.
Ltac entry_hit := apply one_changed_safe, update_entries_safe; [|done]; intros e Hh; rewrite ?andb_true_iff, ?entry_is_true in Hh; unfold under_review in Hh;
  rewrite ?andb_true_iff, ?entry_is_true in Hh; destruct_and?.
Lemma MarkEntryAvailable_safe F id txn at_ auto : safe (MarkEntryAvailable F id txn at_ auto).
Proof. entry_hit. by apply made_available_life. Qed.
Lemma MarkEntryReview_safe F id reason : safe (MarkEntryReview F id reason).
Proof. entry_hit. split; [done|by left]. Qed.
Lemma ApproveEntry_safe F id by_ at_ : safe (ApproveEntry F id by_ at_).
Proof. entry_hit. split; [done|by left]. Qed.
Lemma VoidEntry_safe F id txn reason by_ at_ : safe (VoidEntry F id txn reason by_ at_).
Proof. entry_hit. by apply voided_life. Qed.
Lemma VoidPendingEntry_safe F id txn reason by_ at_ : safe (VoidPendingEntry F id txn reason by_ at_).
Proof. entry_hit. by apply voided_life. Qed.
Lemma auto_cleared_life e : entry_life e (auto_cleared e).
Proof. split; [done|by left]. Qed.
Lemma ClearAutoTransferDue_safe F id : safe (ClearAutoTransferDue F id).
Proof. entry_hit. apply auto_cleared_life. Qed.
Lemma ClearAutoTransferOf_safe F u : safe (ClearAutoTransferOf F u).
Proof. apply update_entries_safe; [|done]. intros e _. apply auto_cleared_life. Qed.

Lemma withdrawal_at_true id s w : withdrawal_at id s w = true ↔ wd_ID w = id ∧ wd_Status w = s.
Proof. unfold withdrawal_at. by rewrite andb_true_iff, N.eqb_eq, String.eqb_eq. Qed.
Lemma in_flight_true w : in_flight w = true ↔ wd_Status w = WithdrawalRequested ∨ wd_Status w = WithdrawalApproved.
Proof. unfold in_flight. rewrite one_of_true, !elem_of_cons, elem_of_nil. naive_solver. Qed.
Lemma withdrawal_moves w w' : withdrawal_terms w' = withdrawal_terms w → withdrawal_move (wd_Status w) (wd_Status w') → withdrawal_life w w'.
Proof.
  intros T M. split_and!; [done|by apply rtc_once|]. intros Hf. exfalso. revert M.
  unfold withdrawal_move, CanWithdrawalTransition, allowed, withdrawalTransitions.
  destruct (String.eqb_spec (wd_Status w) WithdrawalRequested) as [E|_].
  { assert (in_flight w = true) by (apply in_flight_true; by left). congruence. }
  destruct (String.eqb_spec (wd_Status w) WithdrawalApproved) as [E|_]; [|done].
  assert (in_flight w = true) by (apply in_flight_true; by right). congruence.
Qed.
Lemma ReviewWithdrawalRow_safe F id to reason by_ at_ : CanWithdrawalTransition WithdrawalRequested to = true →
  safe (ReviewWithdrawalRow F id to reason by_ at_).
Proof.
  intros Ht. apply one_changed_safe, update_withdrawals_safe; [|done]. intros w [_ E]%withdrawal_at_true.
  apply withdrawal_moves; [done|]. unfold withdrawal_move. by rewrite E.
Qed.
Lemma MarkWithdrawalPaidRow_safe F id ref usdt txn by_ at_ : safe (MarkWithdrawalPaidRow F id ref usdt txn by_ at_).
Proof.
  apply one_changed_safe, update_withdrawals_safe; [|done]. intros w [_ E]%withdrawal_at_true.
  apply withdrawal_moves; [done|]. unfold withdrawal_move. by rewrite E.
Qed.
Lemma RejectWithdrawalForDeletedUser_safe F id reason by_ at_ : safe (RejectWithdrawalForDeletedUser F id reason by_ at_).
Proof. by apply ReviewWithdrawalRow_safe. Qed.
End CommInv.

Section CommMoney.
Context `{DL : DecimalLib}.

(** * The accounts *)

Definition pending_key (u : uuid) : AccountKey := keyOf (pending_of u).
Definition available_key (u : uuid) : AccountKey := keyOf (available_of u).
Definition commission_type (t : string) : Prop := t = UserCommissionPending ∨ t = UserCommissionAvailable.
#[global] Instance commission_aside : Aside commission_type.
Proof. intros t [->| ->]; by repeat constructor. Qed.

(** What [amt] on the account [r] does to user [u]'s account [t]. *)
Definition share_of (r : AccountRef) (t : string) (u : uuid) (amt : dec) : Q := if decide (r = UserAccount t u) then val amt else 0.
Lemma share_user t v u amt : share_of (UserAccount t v) t u amt = if (v =? u)%N then val amt else 0%Q.
Proof.
  unfold share_of. destruct (N.eqb_spec v u) as [->|H]; [by rewrite decide_True by done|].
  rewrite decide_False; [done|]. by intros [=].
Qed.
Lemma share_other r t u amt : ref_Type r ≠ t → share_of r t u amt = 0%Q.
Proof. intros H. unfold share_of. rewrite decide_False; [done|]. by intros ->. Qed.
Lemma delta_move t u from to amt : commission_type t →
  (delta_on (UserAccount t u) (move_legs from to amt) == share_of to t u amt - share_of from t u amt)%Q.
Proof.
  intros Ht. unfold move_legs, share_of. rewrite !delta_on_cons, delta_on_nil. unfold on_ref. cbn [leg_Account].
  assert (DebitNormal t = false) as Hd by (by destruct Ht as [->| ->]).
  destruct (decide (from = UserAccount t u)) as [->|Hf];
    [rewrite bool_decide_eq_true_2 by done|rewrite bool_decide_eq_false_2 by done];
  (destruct (decide (to = UserAccount t u)) as [->|Hg];
    [rewrite (bool_decide_eq_true_2 (UserAccount t u = UserAccount t u)) by done|rewrite (bool_decide_eq_false_2 (to = _)) by done]);
  unfold leg_delta, signedDelta; cbn [leg_Account leg_Direction leg_Amount ref_Type UserAccount]; rewrite ?Hd; simpl; rewrite ?dec_neg_val; lra.
Qed.

Lemma comm_key_check t u : commission_type t → account_check (keyOf (UserAccount t u)) = true.
Proof. by intros [->| ->]. Qed.
Lemma refOf_comm t u : commission_type t → refOf (keyOf (UserAccount t u)) = UserAccount t u.
Proof. by intros [->| ->]. Qed.

(** What the shop around the module sees of one of its steps. *)
Definition aloof (l l' : ledger) : Prop := holds l' = holds l ∧ still l l'.
#[global] Instance aloof_preorder : PreOrder aloof.
Proof. split; [by intros l|]. intros a b c [H1 S1] [H2 S2]. split; [congruence|by etrans]. Qed.

Definition outside_type (r : AccountRef) : Prop := ref_Type r ≠ UserBalanceHold ∧ ref_Type r ≠ LatePaymentSuspense.
Record moved (from to : AccountRef) (amt : dec) (l l' : ledger) : Prop := {
  mv_good : good l';
  mv_aloof : aloof l l';
  mv_pos : (0 < val amt)%Q;
  mv_bal : ∀ t u, commission_type t →
    (bal l' (keyOf (UserAccount t u)) == bal l (keyOf (UserAccount t u)) + share_of to t u amt - share_of from t u amt)%Q;
}.
Lemma Post_moved c p from to amt l id l' : p_Legs p = move_legs from to amt → outside_type from → outside_type to → good l →
  Post c p l = (Ok id, l') → moved from to amt l l'.
Proof.
  intros Hl [F1 F2] [T1 T2] Hg H.
  destruct (Post_quiet c p l id l') as [Hg' Hh]; [rewrite Hl; by repeat constructor|done..|].
  destruct (Post_calm c p) with (s := l) (a := id) (s' := l') as [_ Hs]; [| |done..|].
  { rewrite Hl. by repeat constructor. }
  { rewrite Hl. by repeat constructor. }
  destruct Hg as [Hok _]. unfold Post in H. destruct (Dedicated _); [done|]. unfold DoL in H. step_ok H.
  pose proof H as H'. unfold postChecked in H'. apply bind_Ok in H' as ([] & s1 & [Hv _]%lift_Ok & _).
  apply validatePosting_ok in Hv as (HF & _ & _). rewrite Hl in HF. apply Forall_cons in HF as [(_ & _ & Hp & _) _].
  apply postChecked_spec in H as HP; [|done]. split; [done|by split|done|].
  intros t u Ht. rewrite (po_bal _ _ _ _ _ HP) by by apply comm_key_check. rewrite refOf_comm, Hl, delta_move by done. lra.
Qed.

(** Only the check of the new balances finds an account short. *)
Definition never {A} (m : M ledger lerr A) : Prop := ∀ l l', m l ≠ (Err ErrInsufficientBalance, l').
Lemma never_bind {A B} (m : M ledger lerr A) (f : A → M ledger lerr B) : never m → (∀ a, never (f a)) → never (m ≫= f).
Proof.
  intros Hm Hf l l' H. unfold mbind, M_bind in H. destruct (m l) as [[a|e] l1] eqn:E; [by eapply Hf|].
  injection H as -> _. by eapply Hm.
Qed.
Lemma never_map_err {A} f (m : M ledger lerr A) : (∀ e, f e = ErrInsufficientBalance → e = ErrInsufficientBalance) → never m → never (map_err f m).
Proof. intros Hf Hm l l' H. unfold map_err in H. destruct (m l) as [[a|e] l1] eqn:E; [done|]. injection H as He _. apply Hf in He as ->. by eapply Hm. Qed.
Lemma never_EnsureAccounts keys : never (EnsureAccounts keys).
Proof.
  induction keys as [|k keys IH]; simpl; [done|]. apply never_bind; [|done]. intros l l' H. unfold ensure1 in H. repeat case_match; simplify_eq.
Qed.
Lemma never_lockAccounts refs : never (lockAccounts refs).
Proof.
  unfold lockAccounts. cbv zeta. apply never_bind; [apply never_map_err; [|apply never_EnsureAccounts]|].
  { intros []; try done. by destruct e. }
  intros _. apply never_bind; [done|]. intros rows. by destruct (Nat.eqb _ _).
Qed.
Lemma never_SetBalances m : never (SetBalances m).
Proof.
  unfold SetBalances. induction (merge_sort _ _) as [|[id b] l IH]; simpl; [done|]. apply never_bind; [|done].
  intros s s' H. unfold update_balance in H. repeat case_match; simplify_eq.
Qed.
Lemma never_InsertTransaction t es : never (InsertTransaction t es).
Proof. intros l l' H. unfold InsertTransaction in H. cbv zeta in H. repeat case_match; simplify_eq. Qed.

(** A posting that found an account short has at most opened accounts. *)
Lemma Post_short who p l l' : good l → Post (joined who) p l = (Err ErrInsufficientBalance, l') →
  good l' ∧ aloof l l' ∧ ∀ k, (bal l' k == bal l k)%Q.
Proof.
  intros [Hok Hho] H. assert (Hnow : good l ∧ aloof l l ∧ ∀ k, (bal l k == bal l k)%Q) by done.
  unfold Post in H. destruct (Dedicated _); [done|]. unfold DoL, Do in H. simpl in H.
  unfold postChecked, mbind, M_bind, lift in H. destruct (validatePosting p) as [[]|e]; [|by injection H as _ <-].
  unfold post, mbind, M_bind in H. match type of H with (let (_, _) := ?m in _) = _ => destruct m as [[[]|e] s0] eqn:E0 end.
  - by injection H.
  - assert (s0 = l) as ->. { destruct (_ && _); [|by injection E0]. unfold TransactionExists, gets in E0. by injection E0. }
    destruct (lockAccounts _ l) as [[A|e] s1] eqn:E1; [|injection H as -> _; by apply never_lockAccounts in E1].
    apply lockAccounts_spec in E1 as (Hok1 & Hg & HL); [|done].
    unfold lift at 1 in H. destruct (nextBalances A (p_Legs p)) as [out|e].
    + exfalso. destruct (map_err setBalancesErr (SetBalances out) s1) as [[[]|e] s2] eqn:E2.
      * revert H. apply never_map_err; [by intros []; try done; destruct e|apply never_InsertTransaction].
      * injection H as -> _. revert E2. apply never_map_err; [by intros []; try done; destruct e|apply never_SetBalances].
    + injection H as _ <-. split_and!; [split; [done|by eapply grows_holds_ok]| |intros k; by apply grows_bal].
      split; [apply Hg|]. by apply grows_bal.
  - injection H as -> _. exfalso. destruct (_ && _); [|done]. unfold TransactionExists, gets in E0. done.
Qed.

(** * Accounts and tables in step *)

Definition pending_sum (u : uuid) (c : comm) : Q :=
  over (counted (λ e, (ce_Referrer e =? u)%N && entry_is EntryPending e) ce_Amount) (c_entries c).
Definition settled_sum (u : uuid) (c : comm) : Q :=
  over (counted (λ e, (ce_Referrer e =? u)%N && entry_is EntryAvailable e) ce_Amount) (c_entries c).
Definition inflight_sum (u : uuid) (c : comm) : Q :=
  over (counted (λ w, (wd_UserID w =? u)%N && in_flight w) wd_Amount) (c_withdrawals c).
Definition paid_sum (u : uuid) (c : comm) : Q :=
  over (counted (λ w, (wd_UserID w =? u)%N && String.eqb (wd_Status w) WithdrawalPaid) wd_Amount) (c_withdrawals c).
Definition moved_sum (u : uuid) (c : comm) : Q := over (counted (λ t, (tr_UserID t =? u)%N) tr_Amount) (c_transfers c).
Definition lost_sum (u : uuid) (c : comm) : Q := over (counted (λ f, (ff_UserID f =? u)%N) ff_Amount) (c_forfeitures c).
(** What the available account holds, and what of it is not spoken for. *)
Definition owed (u : uuid) (c : comm) : Q := settled_sum u c - paid_sum u c - moved_sum u c - lost_sum u c.
Definition spendable (u : uuid) (c : comm) : Q := owed u c - inflight_sum u c.

Lemma available_val u c a c' : available u c = (Ok a, c') → c' = c ∧ (val a == spendable u c)%Q.
Proof.
  unfold available, EntryTotalsOf, WithdrawalTotalsOf, availableFrom, TransferTotalOf, ForfeitTotalOf, gets, mbind, M_bind.
  intros [= <- <-]. split; [done|]. simpl. rewrite !dec_sub_val, !sum_where_val. unfold spendable, owed, settled_sum, inflight_sum, paid_sum,
    moved_sum, lost_sum. lra.
Qed.

Record funds_ok (l : ledger) (c : comm) : Prop := {
  fd_pending : ∀ u, (bal l (pending_key u) == pending_sum u c)%Q;
  fd_available : ∀ u, (bal l (available_key u) == owed u c)%Q;
  fd_covered : ∀ u, (0 <= spendable u c)%Q;
}.
Definition comm_ok (s : ledger * comm) : Prop := good s.1 ∧ funds_ok s.1 s.2 ∧ tables_ok s.2.
Definition comm_to (s s' : ledger * comm) : Prop := aloof s.1 s'.1 ∧ comm_life s.2 s'.2.
#[global] Instance comm_to_preorder : PreOrder comm_to.
Proof. split; [by intros s|]. intros a b c [H1 L1] [H2 L2]. split; by etrans. Qed.

(** A posting and a change of the tables that agree. *)
Lemma funds_move l l' c c' from to amt : funds_ok l c → moved from to amt l l' →
  (∀ u, pending_sum u c' == pending_sum u c + share_of to UserCommissionPending u amt - share_of from UserCommissionPending u amt)%Q →
  (∀ u, owed u c' == owed u c + share_of to UserCommissionAvailable u amt - share_of from UserCommissionAvailable u amt)%Q →
  (∀ u, 0 <= spendable u c')%Q → funds_ok l' c'.
Proof.
  intros [H1 H2 H3] [_ _ _ Hb] P A S. split; [..|done].
  - intros u. unfold pending_key, pending_of. rewrite Hb by by left. rewrite P. specialize (H1 u). unfold pending_key, pending_of in H1. lra.
  - intros u. unfold available_key, available_of. rewrite Hb by by right. rewrite A. specialize (H2 u). unfold available_key, available_of in H2. lra.
Qed.
(** A change of the tables alone. *)
Lemma funds_tables l l' c c' : funds_ok l c → (∀ k, bal l' k == bal l k)%Q → (∀ u, pending_sum u c' == pending_sum u c)%Q →
  (∀ u, owed u c' == owed u c)%Q → (∀ u, 0 <= spendable u c')%Q → funds_ok l' c'.
Proof. intros [H1 H2 H3] Hb P A S. split; [| |done]; intros u; rewrite Hb; [by rewrite P|by rewrite A]. Qed.
End CommMoney.
