(* ===== verification/CommOps.v ===== *)
(** Every call of the commission module keeps its accounts and tables in step,
    whatever it answers. *)
From Stdlib Require Import ZArith QArith Lqa Lia.
From stdpp Require Import base tactics list gmap strings sorting relations.
From S2P Require Import Prelude Safety Decimal GoString Money GoTime LedgerTypes LedgerFacts Ledger LedgerInv LedgerOps Promo Period OrderAmounts Proration.
From S2P Require Import SubTypes SubStore OrderStore OrderFlow OrderInv Frame PayStore PayFlow PayInv CommStore CommFlow CommInv.
#[local] Open Scope string_scope.
#[local] Open Scope Z_scope.

Section CommOps.
Context `{DL : DecimalLib}.
Abbreviation safe := (keeps (E := oerr) comm_ok comm_to).

(** * Writes that move no money *)

Definition eased (c c' : comm) : Prop := comm_life c c' ∧
  ∀ u, (pending_sum u c' == pending_sum u c)%Q ∧ (owed u c' == owed u c)%Q ∧ (spendable u c <= spendable u c')%Q.
#[global] Instance eased_preorder : PreOrder eased.
Proof.
  split.
  - intros c. split; [done|]. intros u. split_and!; [done..|lra].
  - intros a b c [L1 H1] [L2 H2]. split; [by etrans|]. intros u. destruct (H1 u) as (? & ? & ?), (H2 u) as (? & ? & ?). split_and!; lra.
Qed.
Abbreviation quiet := (keeps (E := oerr) tables_ok eased).
Lemma quiet_by {A} (m : M comm oerr A) : keeps (E := oerr) tables_ok comm_life m →
  (∀ c a c', tables_ok c → m c = (Ok a, c') → eased c c' ∨ (comm_life c c' → eased c c')) → quiet m.
Proof. intros Hm He c a c' Hc H. destruct (Hm _ _ _ Hc H) as [Hc' L]. split; [done|]. destruct (He _ _ _ Hc H); auto. Qed.

Lemma same_rows_eased c c' : comm_life c c' → c_entries c' = c_entries c → c_withdrawals c' = c_withdrawals c →
  c_transfers c' = c_transfers c → c_forfeitures c' = c_forfeitures c → eased c c'.
Proof.
  intros L E1 E2 E3 E4. split; [done|]. intros u. unfold spendable, owed, pending_sum, settled_sum, inflight_sum, paid_sum, moved_sum, lost_sum.
  rewrite E1, E2, E3, E4. split_and!; lra.
Qed.
Lemma comm_audit_quiet a id : quiet (comm_audit a id).
Proof. eapply quiet_by; [apply comm_audit_safe|]. intros c [] c' _ [= <-]. right. intros L. by apply same_rows_eased. Qed.
Lemma new_id_quiet : quiet new_id.
Proof. eapply quiet_by; [apply new_id_safe|]. intros c id c' _ [= _ <-]. right. intros L. by apply same_rows_eased. Qed.

(** An update of entries that leaves amounts, owners and statuses alone. *)
Lemma update_entries_quiet F hit f : keeps (E := oerr) tables_ok comm_life (update_entries F hit f) →
  (∀ e, ce_Status (f e) = ce_Status e ∧ ce_Amount (f e) = ce_Amount e ∧ ce_Referrer (f e) = ce_Referrer e) → quiet (update_entries F hit f).
Proof.
  intros Hm Hf. eapply quiet_by; [done|]. intros c n c' _ (_ & -> & _)%update_entries_Ok. right. intros L. split; [done|]. intros u.
  assert (Hp : ∀ s, over (counted (λ e, (ce_Referrer e =? u)%N && entry_is s e) ce_Amount) (upd hit f (c_entries c)) ==
                    over (counted (λ e, (ce_Referrer e =? u)%N && entry_is s e) ce_Amount) (c_entries c)).
  { intros s. apply over_upd. intros e _ _. unfold counted, entry_is. by destruct (Hf e) as (-> & -> & ->). }
  unfold spendable, owed, pending_sum, settled_sum, inflight_sum, paid_sum, moved_sum, lost_sum. simpl. rewrite !Hp. split_and!; lra.
Qed.
Lemma quiet_one m : quiet m → quiet (one_changed m).
Proof. intros Hm. unfold one_changed. keeps_walk; auto. Qed.
Lemma entry_kept_safe F hit f : (∀ e, entry_terms (f e) = entry_terms e ∧ entry_end (f e) = entry_end e) →
  keeps (E := oerr) tables_ok comm_life (update_entries F hit f).
Proof.
  intros Hf. apply update_entries_safe.
  - intros e _. destruct (Hf e). split; [done|by left].
  - intros e. destruct (Hf e) as [E _]. by injection E.
Qed.
Lemma MarkEntryReview_quiet F id reason : quiet (MarkEntryReview F id reason).
Proof. apply quiet_one, update_entries_quiet; [by apply entry_kept_safe|done]. Qed.
Lemma ApproveEntry_quiet F id by_ at_ : quiet (ApproveEntry F id by_ at_).
Proof. apply quiet_one, update_entries_quiet; [by apply entry_kept_safe|done]. Qed.
Lemma ClearAutoTransferDue_quiet F id : quiet (ClearAutoTransferDue F id).
Proof. apply quiet_one, update_entries_quiet; [by apply entry_kept_safe|done]. Qed.
Lemma ClearAutoTransferOf_quiet F u : quiet (ClearAutoTransferOf F u).
Proof. apply update_entries_quiet; [by apply entry_kept_safe|done]. Qed.

(** Approving keeps a withdrawal under way, rejecting frees it. *)
Lemma over_le {A} (q q' : A → Q) (l : list A) : (∀ x, x ∈ l → q' x <= q x)%Q → (over q' l <= over q l)%Q.
Proof.
  unfold over. induction l as [|x l IH]; intros H; simpl; [lra|]. specialize (IH (λ y Hy, H y (list_elem_of_further _ _ _ Hy))).
  specialize (H x (list_elem_of_here _ _)). lra.
Qed.
Lemma over_upd_le {A} (q : A → Q) hit f (l : list A) : (∀ x, x ∈ l → hit x = true → q (f x) <= q x)%Q → (over q (upd hit f l) <= over q l)%Q.
Proof.
  intros H. unfold over, upd. rewrite List.map_map. apply over_le. intros x Hx. destruct (hit x) eqn:E; [by apply H|lra].
Qed.
Lemma withdrawal_positive c w : tables_ok c → w ∈ c_withdrawals c → (0 < val (wd_Amount w))%Q.
Proof.
  intros Hc Hw. pose proof (tk_withdrawals _ Hc _ Hw) as H. unfold withdrawal_check in H. rewrite !andb_true_iff in H. destruct_and?.
  by destruct (IsPositive_spec (wd_Amount w)).
Qed.
Lemma ReviewWithdrawalRow_quiet F id to reason by_ at_ : CanWithdrawalTransition WithdrawalRequested to = true →
  quiet (ReviewWithdrawalRow F id to reason by_ at_).
Proof.
  intros Ht. eapply quiet_by; [by apply ReviewWithdrawalRow_safe|]. intros c b c' Hc (n & (_ & -> & _)%update_withdrawals_Ok & _)%one_changed_Ok.
  right. intros L. split; [done|]. intros u.
  assert (Hto : String.eqb to WithdrawalPaid = false).
  { destruct (String.eqb_spec to WithdrawalPaid) as [->|]; done. }
  set (hit := withdrawal_at id WithdrawalRequested). set (f := reviewed_as to reason by_ at_).
  assert (Hpaid : (paid_sum u (set_withdrawals (upd hit f) c) == paid_sum u c)%Q).
  { apply over_upd. intros w _ [_ E]%withdrawal_at_true. unfold counted. simpl. by rewrite Hto, E, !andb_false_r. }
  assert (Hfly : (inflight_sum u (set_withdrawals (upd hit f) c) <= inflight_sum u c)%Q).
  { apply over_upd_le. intros w Hw [_ E]%withdrawal_at_true. pose proof (withdrawal_positive _ _ Hc Hw). unfold counted.
    assert (in_flight w = true) as -> by (apply in_flight_true; by left). simpl. rewrite andb_true_r. destruct (wd_UserID w =? u)%N; simpl; [|lra].
    destruct (in_flight _); lra. }
  unfold spendable, owed in *. change (settled_sum u (set_withdrawals (upd hit f) c)) with (settled_sum u c).
  change (moved_sum u (set_withdrawals (upd hit f) c)) with (moved_sum u c). change (lost_sum u (set_withdrawals (upd hit f) c)) with (lost_sum u c).
  change (pending_sum u (set_withdrawals (upd hit f) c)) with (pending_sum u c). split_and!; lra.
Qed.
Lemma UpsertOverride_quiet F o : quiet (UpsertOverride F o).
Proof.
  intros c a c' Hc H. unfold UpsertOverride in H. repeat case_match; simplify_eq. split; [by destruct Hc|]. by apply same_rows_eased.
Qed.
Lemma DeleteOverrideRow_quiet u : quiet (DeleteOverrideRow u).
Proof. intros c a c' Hc [= _ <-]. split; [by destruct Hc|]. by apply same_rows_eased. Qed.

(** * Steps on one part of the state *)

Lemma cled_Ok {A} (m : M ledger lerr A) l c a s' : cled m (l, c) = (Ok a, s') → ∃ l', m l = (Ok a, l') ∧ s' = (l', c).
Proof. intros (l' & H & ->)%zoom_Ok. eauto. Qed.
Lemma ctab_Ok {A} (m : M comm oerr A) l c a s' : ctab m (l, c) = (Ok a, s') → ∃ c', m c = (Ok a, c') ∧ s' = (l, c').
Proof. intros (c' & H & ->)%zoom_Ok. eauto. Qed.
Lemma ctab_fk_Ok {A} (f : refs → M comm oerr A) l c a s' : ctab_fk f (l, c) = (Ok a, s') → ∃ c', f (refs_of l) c = (Ok a, c') ∧ s' = (l, c').
Proof. apply ctab_Ok. Qed.

Lemma funds_eased l l' c c' : funds_ok l c → (∀ k, bal l' k == bal l k)%Q → eased c c' → funds_ok l' c'.
Proof.
  intros H Hb [_ He]. eapply funds_tables; [done..| | |]; intros u; destruct (He u) as (? & ? & ?); [done|done|].
  pose proof (fd_covered _ _ H u). lra.
Qed.
Lemma quiet_step l c c' : comm_ok (l, c) → tables_ok c' → eased c c' → comm_ok (l, c') ∧ comm_to (l, c) (l, c').
Proof.
  intros (Hg & Hf & _) Hc' He. split; [split_and!; [done| |done]|split; [done|by destruct He]]. by eapply funds_eased.
Qed.
Lemma ctab_safe {A} (m : M comm oerr A) : quiet m → safe (ctab m).
Proof.
  intros Hm [l c] a s' Hs (c' & H & ->)%ctab_Ok. destruct (Hm _ _ _ (proj2 (proj2 Hs)) H). by apply quiet_step.
Qed.
Lemma ctab_fk_safe {A} (f : refs → M comm oerr A) : (∀ F, quiet (f F)) → safe (ctab_fk f).
Proof. intros Hf [l c] a s' Hs H. unfold ctab_fk in H. by eapply ctab_safe in H. Qed.
Lemma comm_tx_safe {A} inTx (m : M (ledger * comm) oerr A) : safe m → safe (comm_tx inTx m).
Proof. apply keeps_Do. Qed.

(** * Postings with their rows *)

(** One entry of the list is replaced. *)
Lemma entries_swap u c c' a e e' b : c_entries c = (a ++ e :: b)%list → c_entries c' = (a ++ e' :: b)%list → c_withdrawals c' = c_withdrawals c →
  c_transfers c' = c_transfers c → c_forfeitures c' = c_forfeitures c →
  (pending_sum u c' == pending_sum u c + counted (λ e, (ce_Referrer e =? u)%N && entry_is EntryPending e) ce_Amount e' -
                       counted (λ e, (ce_Referrer e =? u)%N && entry_is EntryPending e) ce_Amount e)%Q ∧
  (owed u c' == owed u c + counted (λ e, (ce_Referrer e =? u)%N && entry_is EntryAvailable e) ce_Amount e' -
                counted (λ e, (ce_Referrer e =? u)%N && entry_is EntryAvailable e) ce_Amount e)%Q ∧
  (spendable u c' - owed u c' == spendable u c - owed u c)%Q.
Proof.
  intros E E' W T F. unfold spendable, owed, pending_sum, settled_sum, inflight_sum, paid_sum, moved_sum, lost_sum.
  rewrite E, E', W, T, F, !(over_swap _ a b e e'). split_and!; lra.
Qed.

(** What one changed row of an update is. *)
Lemma update_one_row F hit f c e c' : one_changed (update_entries F hit f) c = (Ok true, c') → e ∈ c_entries c → hit e = true →
  ∃ a b, c_entries c = (a ++ e :: b)%list ∧ c_entries c' = (a ++ f e :: b)%list ∧ c' = set_entries (upd hit f) c.
Proof.
  intros (n & (-> & -> & _)%update_entries_Ok & Hn%eq_sym%Z.eqb_eq)%one_changed_Ok He Hh.
  destruct (one_hit hit f (c_entries c) e) as (a & b & E1 & E2); [done..|]. exists a, b. by split_and!.
Qed.
Lemma withdrawal_one F hit f c w c' : one_changed (update_withdrawals F hit f) c = (Ok true, c') → w ∈ c_withdrawals c → hit w = true →
  ∃ a b, c_withdrawals c = (a ++ w :: b)%list ∧ c_withdrawals c' = (a ++ f w :: b)%list ∧ c' = set_withdrawals (upd hit f) c.
Proof.
  intros (n & (-> & -> & _)%update_withdrawals_Ok & Hn%eq_sym%Z.eqb_eq)%one_changed_Ok He Hh.
  destruct (one_hit hit f (c_withdrawals c) w) as (a & b & E1 & E2); [done..|]. exists a, b. by split_and!.
Qed.

Lemma revenue_outside : outside_type (PlatformAccount PlatformRevenue RefMain).
Proof. by split. Qed.
Lemma commission_outside t u : commission_type t → outside_type (UserAccount t u).
Proof. by intros [->| ->]. Qed.

(** The entry settles: from pending to available. *)
Lemma settle_block who e l c txn l' F at_ auto c' : comm_ok (l, c) → e ∈ c_entries c → ce_Status e = EntryPending →
  Post (joined who) (settle_posting e) l = (Ok txn, l') → MarkEntryAvailable F (ce_ID e) txn at_ auto c = (Ok true, c') →
  comm_ok (l', c') ∧ comm_to (l, c) (l', c').
Proof.
  intros (Hg & Hf & Ht) He Es HP HM. simpl in *. eapply Post_moved in HP as HM'; [|reflexivity|by split..|done].
  destruct (MarkEntryAvailable_safe _ _ _ _ _ _ _ _ Ht HM) as [Ht' L].
  destruct (update_one_row _ _ _ _ e _ HM) as (a & b & E1 & E2 & ->); [done|by rewrite andb_true_iff, entry_is_true; unfold entry_by; rewrite N.eqb_refl|].
  split; [|by destruct HM']. split_and!; [by destruct HM'| |done]. pose proof (mv_pos _ _ _ _ _ HM').
  assert (Hs := λ u, entries_swap u c _ a e _ b E1 E2 eq_refl eq_refl eq_refl).
  eapply funds_move; [done..| | |]; intros u; destruct (Hs u) as (S1 & S2 & S3); pose proof (fd_covered _ _ Hf u);
    unfold counted, entry_is in *; simpl in *; rewrite Es in *; unfold pending_of, available_of; rewrite ?share_user, ?share_other by done;
    destruct (ce_Referrer e =? u)%N; simpl in *; lra.
Qed.
(** The entry is voided: from pending back to revenue. *)
Lemma void_block who e memo l c txn l' F hit reason by_ at_ c' : comm_ok (l, c) → e ∈ c_entries c → ce_Status e = EntryPending → hit e = true →
  keeps (E := oerr) tables_ok comm_life (one_changed (update_entries F hit (voided_by txn reason by_ at_))) →
  Post (joined who) (void_posting e memo) l = (Ok txn, l') → one_changed (update_entries F hit (voided_by txn reason by_ at_)) c = (Ok true, c') →
  comm_ok (l', c') ∧ comm_to (l, c) (l', c').
Proof.
  intros (Hg & Hf & Ht) He Es Hh Hsafe HP HM. simpl in *. eapply Post_moved in HP as HM'; [|reflexivity|by split..|done].
  destruct (Hsafe _ _ _ Ht HM) as [Ht' L]. destruct (update_one_row _ _ _ _ e _ HM) as (a & b & E1 & E2 & ->); [done..|].
  split; [|by destruct HM']. split_and!; [by destruct HM'| |done].
  assert (Hs := λ u, entries_swap u c _ a e _ b E1 E2 eq_refl eq_refl eq_refl).
  eapply funds_move; [done..| | |]; intros u; destruct (Hs u) as (S1 & S2 & S3); pose proof (fd_covered _ _ Hf u);
    unfold counted, entry_is in *; simpl in *; rewrite Es in *; unfold pending_of, available_of; rewrite ?share_user, ?share_other by done;
    destruct (ce_Referrer e =? u)%N; simpl in *; lra.
Qed.
(** An approved withdrawal is paid out. *)
Lemma payout_sums c g a b w ref usdt txn by_ at_ : c_withdrawals c = (a ++ w :: b)%list → wd_Status w = WithdrawalApproved →
  g (c_withdrawals c) = (a ++ paid_out ref usdt txn by_ at_ w :: b)%list →
  ∀ u, (owed u (set_withdrawals g c) == owed u c - (if (wd_UserID w =? u)%N then val (wd_Amount w) else 0))%Q ∧
       (spendable u (set_withdrawals g c) == spendable u c)%Q.
Proof.
  intros E1 Es E2 u.
  assert (Hs : ∀ q, (over q (g (c_withdrawals c)) == over q (c_withdrawals c) + q (paid_out ref usdt txn by_ at_ w) - q w)%Q)
    by (intros q; rewrite E1 in *; rewrite E2; apply over_swap).
  unfold spendable, owed, inflight_sum, paid_sum. simpl. rewrite !Hs. unfold counted, in_flight. simpl. rewrite Es. simpl.
  rewrite andb_false_r, !andb_true_r. change (settled_sum u (set_withdrawals g c)) with (settled_sum u c).
  change (moved_sum u (set_withdrawals g c)) with (moved_sum u c). change (lost_sum u (set_withdrawals g c)) with (lost_sum u c).
  destruct (wd_UserID w =? u)%N; simpl; split; lra.
Qed.
Lemma payout_block who w l c txn l' F ref usdt by_ at_ c' : comm_ok (l, c) → w ∈ c_withdrawals c → wd_Status w = WithdrawalApproved →
  Post (joined who) (payout_posting w) l = (Ok txn, l') → MarkWithdrawalPaidRow F (wd_ID w) ref usdt txn by_ at_ c = (Ok true, c') →
  comm_ok (l', c') ∧ comm_to (l, c) (l', c') ∧ (∀ u, spendable u c' == spendable u c)%Q ∧
  c' = set_withdrawals (upd (withdrawal_at (wd_ID w) WithdrawalApproved) (paid_out ref usdt txn by_ at_)) c.
Proof.
  intros (Hg & Hf & Ht) Hw Es HP HM. simpl in *. eapply Post_moved in HP as HM'; [|reflexivity|by split..|done].
  destruct (MarkWithdrawalPaidRow_safe _ _ _ _ _ _ _ _ _ _ Ht HM) as [Ht' L].
  destruct (withdrawal_one _ _ _ _ w _ HM) as (a & b & E1 & E2 & ->); [done|by apply withdrawal_at_true|].
  pose proof (payout_sums c _ a b w ref usdt txn by_ at_ E1 Es E2) as Hsum.
  split_and!; [split_and!; [by destruct HM'| |done]|by destruct HM'|by intros u; apply Hsum|done].
  eapply funds_move; [done..| | |]; intros u; destruct (Hsum u) as (S2 & S3); pose proof (fd_covered _ _ Hf u);
    unfold pending_of, available_of; rewrite ?share_user, ?share_other by done; simpl in *; [|lra|lra].
  change (pending_sum u (set_withdrawals _ c)) with (pending_sum u c). lra.
Qed.

(** Rows that are added, with the identifier drawn before. *)
Lemma fresh_ids {A} (f : A → uuid) l x n n' : NoDup (map f l) ∧ (∀ y, y ∈ l → (f y < n)%N) → f x = n → (n < n')%N →
  NoDup (map f (l ++ [x])) ∧ (∀ y, y ∈ (l ++ [x])%list → (f y < n')%N).
Proof.
  intros [H1 H2] E Hn. split.
  - rewrite map_app. apply NoDup_app. split_and!; [done| |apply NoDup_singleton]. simpl.
    intros id (y & -> & Hy)%list_elem_of_fmap Hin%list_elem_of_singleton. pose proof (H2 _ Hy). lia.
  - intros y [Hy| ->%list_elem_of_singleton]%elem_of_app; [pose proof (H2 _ Hy)|]; lia.
Qed.
Lemma InsertEntry_Ok F e c a c' : InsertEntry F e c = (Ok a, c') →
  c' = set_entries (λ l, l ++ [e])%list c ∧ commission_check e = true ∧ entries_unique (c_entries c ++ [e]) = true.
Proof. unfold InsertEntry. intros H. repeat case_match; simplify_eq. reflect_bools. done. Qed.
Lemma InsertWithdrawal_Ok F w c a c' : InsertWithdrawal F w c = (Ok a, c') →
  c' = set_withdrawals (λ l, l ++ [w])%list c ∧ withdrawal_check w = true ∧ withdrawals_unique (c_withdrawals c ++ [w]) = true.
Proof. unfold InsertWithdrawal. intros H. repeat case_match; simplify_eq. reflect_bools. done. Qed.
Lemma InsertTransfer_Ok F t c a c' : InsertTransfer F t c = (Ok a, c') → c' = add_transfer t c ∧ (0 < val (tr_Amount t))%Q.
Proof. unfold InsertTransfer. intros H. repeat case_match; simplify_eq; reflect_bools; dec_reflect; done. Qed.
Lemma InsertForfeiture_Ok F f c a c' : InsertForfeiture F f c = (Ok a, c') → c' = add_forfeiture f c ∧ (0 < val (ff_Amount f))%Q.
Proof. unfold InsertForfeiture. intros H. repeat case_match; simplify_eq; reflect_bools; dec_reflect; done. Qed.

Lemma accrual_block who o b amt l c txn l' F e a c' : comm_ok (l, c) → Post (joined who) (accrual_posting o b amt) l = (Ok txn, l') →
  ce_ID e = c_next c → ce_Status e = EntryPending → ce_Amount e = amt → ce_Referrer e = bf_UserID b →
  InsertEntry F e (comm_bumped c) = (Ok a, c') → comm_ok (l', c') ∧ comm_to (l, c) (l', c').
Proof.
  intros (Hg & Hf & Ht) HP Ei Es Ea Er (-> & Hck & Hu)%InsertEntry_Ok. simpl in *.
  eapply Post_moved in HP as HM; [|reflexivity|by split..|done].
  split; [split_and!; [by destruct HM| |]|split; [by destruct HM|]].
  - eapply funds_move; [done..| | |]; intros u; pose proof (fd_covered _ _ Hf u); simpl;
      unfold spendable, owed, pending_sum, settled_sum, inflight_sum, paid_sum, moved_sum, lost_sum in *; simpl; rewrite ?over_add;
      rewrite ?counted_app; unfold entry_is in *; rewrite ?Es, ?Ea, ?Er; unfold pending_of; rewrite ?share_user, ?share_other by done;
      rewrite ?andb_true_r, ?andb_false_r; simpl; lra.
  - destruct Ht as [H1 H2 H3 H4 H5 H6 H7 H8]. split; simpl; try done.
    + intros x [Hx| ->%list_elem_of_singleton]%elem_of_app; auto.
    + by eapply fresh_ids; [| |apply N.lt_succ_diag_r].
    + eapply ids_mono; [|done]. lia.
  - split; simpl; try done; [|lia]. apply rows_life_app, _.
Qed.
(** Money leaves the available account for a row of its own. *)
Lemma transfer_block who u amt memo eid at_ l c txn l' F a c' : comm_ok (l, c) → (val amt <= spendable u c)%Q →
  Post (joined who) (transfer_posting (c_next c) u amt memo) l = (Ok txn, l') →
  InsertTransfer F (mkTransfer (c_next c) u amt txn eid at_) (comm_bumped c) = (Ok a, c') → comm_ok (l', c') ∧ comm_to (l, c) (l', c').
Proof.
  intros (Hg & Hf & Ht) Hle HP (-> & Hp)%InsertTransfer_Ok. simpl in *. eapply Post_moved in HP as HM; [|reflexivity|by split..|done].
  split; [split_and!; [by destruct HM| |]|split; [by destruct HM|]].
  - eapply funds_move; [done..| | |]; intros v; pose proof (fd_covered _ _ Hf v); simpl;
      unfold spendable, owed, pending_sum, settled_sum, inflight_sum, paid_sum, moved_sum, lost_sum in *; simpl; rewrite ?over_add;
      rewrite ?counted_app; simpl; unfold available_of; rewrite ?share_user, ?share_other by done; try lra;
      destruct (N.eqb_spec u v) as [->|]; lra.
  - apply bumped_ok in Ht as [H1 H2 H3 H4 H5 H6 H7 H8]. split; simpl; try done.
    intros x [Hx| ->%list_elem_of_singleton]%elem_of_app; auto.
  - split; simpl; try done; [|lia]. by apply prefix_app_r.
Qed.
Lemma forfeit_block who u amt at_ l c txn l' F a c' : comm_ok (l, c) → (val amt <= spendable u c)%Q →
  Post (joined who) (forfeit_posting (c_next c) u amt) l = (Ok txn, l') →
  InsertForfeiture F (mkForfeiture (c_next c) u amt ReasonAccountDeleted txn at_) (comm_bumped c) = (Ok a, c') →
  comm_ok (l', c') ∧ comm_to (l, c) (l', c').
Proof.
  intros (Hg & Hf & Ht) Hle HP (-> & Hp)%InsertForfeiture_Ok. simpl in *. eapply Post_moved in HP as HM; [|reflexivity|by split..|done].
  split; [split_and!; [by destruct HM| |]|split; [by destruct HM|]].
  - eapply funds_move; [done..| | |]; intros v; pose proof (fd_covered _ _ Hf v); simpl;
      unfold spendable, owed, pending_sum, settled_sum, inflight_sum, paid_sum, moved_sum, lost_sum in *; simpl; rewrite ?over_add;
      rewrite ?counted_app; simpl; unfold available_of; rewrite ?share_user, ?share_other by done; try lra;
      destruct (N.eqb_spec u v) as [->|]; lra.
  - apply bumped_ok in Ht as [H1 H2 H3 H4 H5 H6 H7 H8]. split; simpl; try done.
    intros x [Hx| ->%list_elem_of_singleton]%elem_of_app; auto.
  - split; simpl; try done; [|lia]. by apply prefix_app_r.
Qed.
(** A request is covered by what is spendable. *)
Lemma request_block w l c F a c' : comm_ok (l, c) → (val (wd_Amount w) <= spendable (wd_UserID w) c)%Q → wd_ID w = c_next c →
  wd_Status w = WithdrawalRequested → InsertWithdrawal F w (comm_bumped c) = (Ok a, c') → comm_ok (l, c') ∧ comm_to (l, c) (l, c').
Proof.
  intros (Hg & Hf & Ht) Hle Ei Es (-> & Hck & Hu)%InsertWithdrawal_Ok. simpl in *.
  split; [split_and!; [done| |]|split; [done|]].
  - eapply funds_tables; [done..| | |]; intros v; pose proof (fd_covered _ _ Hf v); simpl;
      unfold spendable, owed, pending_sum, settled_sum, inflight_sum, paid_sum, moved_sum, lost_sum in *; simpl; rewrite ?over_add;
      rewrite ?counted_app; simpl; unfold in_flight in *; rewrite ?Es; simpl; rewrite ?andb_false_r, ?andb_true_r; try lra.
    destruct (N.eqb_spec (wd_UserID w) v) as [E|]; [subst v|]; lra.
  - destruct Ht as [H1 H2 H3 H4 H5 H6 H7 H8]. split; simpl; try done.
    + intros x [Hx| ->%list_elem_of_singleton]%elem_of_app; auto.
    + eapply ids_mono; [|done]. lia.
    + by eapply fresh_ids; [| |apply N.lt_succ_diag_r].
  - split; simpl; try done; [|lia]. apply rows_life_app, _.
Qed.
End CommOps.
