(* ===== verification/CommSteps.v ===== *)
(** The calls of the commission module one by one: requests, the turns of the
    settlement job and the hook of a paid order keep accounts and tables in
    step. *)
From Stdlib Require Import ZArith QArith Lqa Lia.
From stdpp Require Import base tactics list gmap strings sorting relations.
From S2P Require Import Prelude Safety Decimal GoString Money GoTime LedgerTypes LedgerFacts Ledger LedgerInv LedgerOps Promo Period OrderAmounts Proration.
From S2P Require Import SubTypes SubStore OrderStore OrderFlow OrderInv Frame PayStore PayFlow PayInv CommStore CommFlow CommInv CommOps.
#[local] Open Scope string_scope.
#[local] Open Scope Z_scope.

Create HintDb comm.
#[export] Hint Resolve comm_audit_quiet new_id_quiet MarkEntryReview_quiet ApproveEntry_quiet ClearAutoTransferDue_quiet
  ClearAutoTransferOf_quiet UpsertOverride_quiet DeleteOverrideRow_quiet : comm.

Section CommSteps.
Context `{DL : DecimalLib} (env : Call → CommEnv).
Abbreviation safe := (keeps (E := oerr) comm_ok comm_to).
Abbreviation quiet := (keeps (E := oerr) tables_ok eased).

Lemma read_safe {A} (f : comm → A) : safe (ctab (gets f)).
Proof. apply ctab_safe, keeps_gets, _. Qed.
Lemma available_quiet u : quiet (available u).
Proof. intros c a c' Hc H. by apply available_val in H as [-> _]. Qed.

(** Inverts the parts of a step on the pair of ledger and tables. *)
Ltac comm_ok_step H :=
  first
    [ apply cled_Ok in H as (? & H & ->) | apply ctab_Ok in H as (? & H & ->) | apply ctab_fk_Ok in H as (? & H & ->)
    | apply lift_Ok in H as [H [= <- <-]] | apply lift_Ok in H as [H ->] ].

Lemma find_in {A} (p : A → bool) l x : List.find p l = Some x → x ∈ l ∧ p x = true.
Proof. intros [H1 H2]%List.find_some. split; [by apply list_elem_of_In|done]. Qed.

(** * Withdrawals and transfers *)

Lemma RequestWithdrawal_safe inTx k u amount method detail : safe (RequestWithdrawal env inTx k u amount method detail).
Proof.
  unfold RequestWithdrawal. apply keeps_bind; [apply _|apply keeps_lift, _|intros payout]. apply comm_tx_safe.
  apply keeps_bind; [apply _|apply keeps_lift, _|intros _]. apply keeps_bind; [apply _|apply keeps_lift, _|intros wd].
  destruct (negb _); [apply keeps_fail, _|]. cbv zeta. destruct (negb _); [apply keeps_fail, _|].
  apply keeps_bind; [apply _|apply keeps_lift, _|intros cfg]. destruct (LessThan _ _); [apply keeps_fail, _|].
  apply keeps_bind; [apply _|apply read_safe|intros fl]. destruct fl; [apply keeps_fail, _|].
  intros [l c] a s' Hs H. apply bind_Ok in H as (av & s1 & H1 & H). apply ctab_Ok in H1 as (c1 & [-> Hav]%available_val & ->).
  destruct (IsPositive av) eqn:Ep; [|done]. simpl in H. destruct (GreaterThan amount av) eqn:Eg; [done|].
  apply bind_Ok in H as (sealed & s1 & [Hse ->]%lift_Ok & H). apply bind_Ok in H as (id & s1 & H1 & H). apply ctab_Ok in H1 as (c1 & [= <- <-] & ->).
  apply bind_Ok in H as ([] & s1 & H1%map_err_Ok & H). apply ctab_fk_Ok in H1 as (c1 & H1 & ->). dec_reflect.
  eapply request_block in H1 as [Hs1 L1]; [|done|simpl; lra|done..].
  assert (Hend : safe (_ ← ctab (comm_audit "withdrawal.requested" (c_next c)); mret (c_next c))).
  { keeps_walk. by apply ctab_safe, comm_audit_quiet. }
  destruct (Hend _ _ _ Hs1 H). split; [done|by etrans].
Qed.

Lemma ReviewWithdrawal_safe inTx who k id approve reason : safe (ReviewWithdrawal env inTx who k id approve reason).
Proof.
  unfold ReviewWithdrawal. cbv zeta. destruct (_ || _); [apply keeps_fail, _|]. apply keeps_bind; [apply _|apply keeps_lift, _|intros p].
  apply comm_tx_safe. apply keeps_bind; [apply _|apply read_safe|intros [w|]]; [|apply keeps_fail, _].
  keeps_walk; auto using ctab_safe, comm_audit_quiet.
  apply ctab_fk_safe; intros F. by destruct approve; apply ReviewWithdrawalRow_quiet.
Qed.

Lemma approved_of w : CanWithdrawalTransition (wd_Status w) WithdrawalPaid = true → wd_Status w = WithdrawalApproved.
Proof.
  unfold CanWithdrawalTransition, allowed, withdrawalTransitions. destruct (String.eqb_spec (wd_Status w) WithdrawalRequested); [done|].
  by destruct (String.eqb_spec (wd_Status w) WithdrawalApproved).
Qed.
Lemma pending_to e s : CanEntryTransition (ce_Status e) s = true → ce_Status e = EntryPending.
Proof. unfold CanEntryTransition, allowed, entryTransitions. by destruct (String.eqb_spec (ce_Status e) EntryPending). Qed.

Lemma MarkWithdrawalPaid_safe inTx who k id ref usdt : safe (MarkWithdrawalPaid env inTx who k id ref usdt).
Proof.
  unfold MarkWithdrawalPaid. cbv zeta. destruct (_ || _); [apply keeps_fail, _|]. apply keeps_bind; [apply _|apply keeps_lift, _|intros p].
  apply comm_tx_safe. intros [l c] a s' Hs H. apply bind_Ok in H as (ow & s1 & H1 & H). apply ctab_Ok in H1 as (c1 & [-> ->]%gets_Ok & ->).
  destruct (List.find _ _) as [w|] eqn:Ew; [|done]. apply find_in in Ew as [Hw Ei%N.eqb_eq].
  apply bind_Ok in H as ([] & s1 & [_ ->]%lift_Ok & H). destruct (CanWithdrawalTransition _ _) eqn:Et; [|done]. simpl in H.
  apply approved_of in Et. destruct (ValidatePaidUSDT _ _ _); [|done].
  apply bind_Ok in H as (txn & s1 & H1%map_err_Ok & H). apply cled_Ok in H1 as (l' & HP & ->).
  apply bind_Ok in H as (ch & s1 & H1 & H). apply ctab_fk_Ok in H1 as (c' & HM & ->). destruct ch; [|done]. simpl in H. subst id.
  eapply payout_block in HM as (Hs1 & L1 & _); [|done..]. destruct (ctab_safe _ (comm_audit_quiet "withdrawal.paid" (wd_ID w)) _ _ _ Hs1 H).
  split; [done|by etrans].
Qed.

(** The transfer of an amount known to be covered. *)
Lemma postTransfer_ok who k u amt eid memo l c txn s' : comm_ok (l, c) → (val amt <= spendable u c)%Q →
  postTransfer who k u amt eid memo (l, c) = (Ok txn, s') → comm_ok s' ∧ comm_to (l, c) s'.
Proof.
  intros Hs Hle H. unfold postTransfer in H. apply bind_Ok in H as (id & s1 & H1 & H). apply ctab_Ok in H1 as (c1 & [= <- <-] & ->).
  apply bind_Ok in H as (t & s1 & H1%map_err_Ok & H). apply cled_Ok in H1 as (l' & HP & ->).
  apply bind_Ok in H as ([] & s1 & H1 & H). apply ctab_fk_Ok in H1 as (c' & HI & ->). injection H as <- <-. by eapply transfer_block.
Qed.
Lemma TransferToBalance_safe inTx who k u amount : safe (TransferToBalance env inTx who k u amount).
Proof.
  unfold TransferToBalance. destruct (_ || _); [apply keeps_fail, _|]. apply comm_tx_safe.
  apply keeps_bind; [apply _|apply keeps_lift, _|intros _]. intros [l c] a s' Hs H.
  apply bind_Ok in H as (av & s1 & H1 & H). apply ctab_Ok in H1 as (c1 & [-> Hav]%available_val & ->). destruct (LessThan _ _) eqn:El; [done|].
  apply bind_Ok in H as (txn & s1 & H1 & H). dec_reflect. apply postTransfer_ok in H1 as [Hs1 L1]; [|done|lra].
  assert (Hend : safe (_ ← ctab (comm_audit "commission.transferred_to_balance" txn); mret txn)) by (keeps_walk; by apply ctab_safe, comm_audit_quiet).
  destruct (Hend _ _ _ Hs1 H). split; [done|by etrans].
Qed.

(** * Settlement *)

Lemma quarantine_entry_safe e reason : safe (quarantine_entry e reason).
Proof. unfold quarantine_entry. keeps_walk. apply ctab_fk_safe. auto with comm. Qed.
Lemma settleOne_body k locked id auto l c o s' : comm_ok (l, c) →
  settleOne env k locked id auto (l, c) = (Ok o, s') → comm_ok s' ∧ comm_to (l, c) s'.
Proof.
  intros Hs H. unfold settleOne, comm_tx in H. apply Do_Ok in H.
  apply bind_Ok in H as (oe & s1 & H1 & H). apply ctab_Ok in H1 as (c1 & [-> ->]%gets_Ok & ->).
  destruct (List.find _ _) as [e|] eqn:Ee; [|by injection H as <- <-]. apply find_in in Ee as [He _].
  destruct (CanEntryTransition _ _) eqn:Et; [|by injection H as <- <-]. simpl in H. apply pending_to in Et.
  apply bind_Ok in H as (gone & s1 & [_ ->]%lift_Ok & H). destruct gone; [by eapply quarantine_entry_safe|].
  unfold mbind, M_bind, outcome in H. destruct (cled _ (l, c)) as [[txn|x] s1] eqn:EP.
  - apply cled_Ok in EP as (l' & HP & ->). apply bind_Ok in H as (ch & s2 & H1 & H). apply ctab_fk_Ok in H1 as (c' & HM & ->).
    destruct ch; [|done]. injection H as <- <-. by eapply settle_block.
  - unfold cled, zoom in EP. destruct (Post _ _ _) as [[?|le] l1] eqn:EP'; [done|]. injection EP as <- <-.
    destruct le; try done. apply Post_short in EP' as (Hg & Ha & Hb); [|apply Hs]. destruct Hs as (_ & Hf & Ht). simpl in *.
    assert (Hs1 : comm_ok (l1, c)). { split_and!; [done| |done]. eapply funds_eased; [done..|reflexivity]. }
    destruct (quarantine_entry_safe _ _ _ _ _ Hs1 H) as [Hs' L']. split; [done|]. etrans; [|exact L']. by split.
Qed.
(** Whatever it answers: an error undoes the transaction. *)
Lemma settleOne_commits k locked id auto s r s' : comm_ok s → settleOne env k locked id auto s = (r, s') → comm_ok s' ∧ comm_to s s'.
Proof.
  intros Hs H. destruct s as [l c]. destruct r as [o|e]; [by eapply settleOne_body|]. unfold settleOne, comm_tx in H. by apply Do_Err in H as ->.
Qed.

Lemma autoTransferOne_body k locked id auto l c b s' : comm_ok (l, c) →
  autoTransferOne env k locked id auto (l, c) = (Ok b, s') → comm_ok s' ∧ comm_to (l, c) s'.
Proof.
  intros Hs H. unfold autoTransferOne, comm_tx in H. apply Do_Ok in H.
  apply bind_Ok in H as (oe & s1 & H1 & H). apply ctab_Ok in H1 as (c1 & [-> ->]%gets_Ok & ->).
  destruct (List.find _ _) as [e|] eqn:Ee; [|by injection H as <- <-].
  apply bind_Ok in H as (gone & s1 & [_ ->]%lift_Ok & H). apply bind_Ok in H as (amt & s1 & H1 & H).
  assert (s1 = (l, c) ∧ (IsPositive amt = true → val amt <= spendable (ce_Referrer e) c)%Q) as [-> Hle].
  { destruct (gone || negb auto).
    - injection H1 as <- <-. split; [done|]. intros Hp. destruct (IsPositive_spec dec_zero); [|done]. pose proof dec_zero_val. lra.
    - apply bind_Ok in H1 as (av & s2 & H2 & H1). apply ctab_Ok in H2 as (c2 & [-> Hav]%available_val & ->). injection H1 as <- <-.
      split; [done|]. intros _. destruct (LessThan av (ce_Amount e)) eqn:El; dec_reflect; lra. }
  apply bind_Ok in H as (dn & s1 & H9 & H).
  assert (comm_ok s1 ∧ comm_to (l, c) s1) as [Hs1 L1].
  { destruct (IsPositive amt) eqn:Ep; [|by injection H9 as <- <-]. apply bind_Ok in H9 as (txn & s2 & H2 & H9).
    apply postTransfer_ok in H2 as [Hs2 L2]; [|done|by apply Hle].
    assert (Hend : safe (_ ← ctab (comm_audit "commission.auto_transferred_to_balance" (ce_ID e)); mret true))
      by (keeps_walk; by apply ctab_safe, comm_audit_quiet).
    destruct (Hend _ _ _ Hs2 H9). split; [done|by etrans]. }
  assert (Hend : safe (changed ← ctab_fk (λ F, ClearAutoTransferDue F (ce_ID e)); if negb changed then fail (OComm CErrAutoTransferLost) else mret dn)).
  { keeps_walk. apply ctab_fk_safe. auto with comm. }
  destruct (Hend _ _ _ Hs1 H). split; [done|by etrans].
Qed.
Lemma autoTransferOne_commits k locked id auto s r s' : comm_ok s → autoTransferOne env k locked id auto s = (r, s') → comm_ok s' ∧ comm_to s s'.
Proof.
  intros Hs H. destruct s as [l c]. destruct r as [o|e]; [by eapply autoTransferOne_body|]. unfold autoTransferOne, comm_tx in H. by apply Do_Err in H as ->.
Qed.

(** A step that keeps the invariant whatever it answers. *)
Definition commits {A} (m : M (ledger * comm) oerr A) : Prop := ∀ s r s', comm_ok s → m s = (r, s') → comm_ok s' ∧ comm_to s s'.
Lemma comm_commits_tx {A} (m : M (ledger * comm) oerr A) : safe m → commits (comm_tx false m).
Proof. intros Hm s r s' Hs H. by eapply (safe_commit comm_ok comm_to). Qed.
Lemma comm_commits_bind {A B} (m : M (ledger * comm) oerr A) (f : A → M (ledger * comm) oerr B) : commits m → (∀ a, commits (f a)) → commits (m ≫= f).
Proof.
  intros Hm Hf s r s' Hs H. unfold mbind, M_bind in H. destruct (m s) as [[a|e] s1] eqn:E1.
  - destruct (Hm _ _ _ Hs E1) as [Hs1 L1]. destruct (Hf _ _ _ _ Hs1 H). split; [done|by etrans].
  - injection H as _ <-. by eapply Hm.
Qed.
Lemma commits_outcome {A} (m : M (ledger * comm) oerr A) : commits m → commits (outcome m).
Proof. intros Hm s r s' Hs H. unfold outcome in H. destruct (m s) as [x s1] eqn:E1. injection H as _ <-. by eapply Hm. Qed.
Lemma commits_pure {A} (f : ledger * comm → result oerr A) : commits (λ s, (f s, s)).
Proof. by intros s r s' Hs [= _ <-]. Qed.
Lemma commits_read {A} (f : comm → A) : commits (ctab (gets f)).
Proof. intros [l c] r s' Hs H. unfold ctab, zoom, gets in H. simpl in H. by injection H as _ <-. Qed.

Lemma settle_all_commits ks ctxErr locked auto ids st first : commits (settle_all env ks ctxErr locked auto ids st first).
Proof.
  revert st first. induction ids as [|id ids IH]; intros st first; simpl; [apply (commits_pure (λ _, Ok _))|].
  destruct (ctxErr id); [apply (commits_pure (λ _, Ok _))|]. apply comm_commits_bind; [|done].
  apply commits_outcome. intros s r s' Hs H. by eapply settleOne_commits.
Qed.
Lemma transfer_all_commits ks ctxErr locked auto ids st first : commits (transfer_all env ks ctxErr locked auto ids st first).
Proof.
  revert st first. induction ids as [|id ids IH]; intros st first; simpl; [apply (commits_pure (λ _, Ok _))|].
  destruct (ctxErr id); [apply (commits_pure (λ _, Ok _))|]. apply comm_commits_bind; [|done].
  apply commits_outcome. intros s r s' Hs H. by eapply autoTransferOne_commits.
Qed.
Lemma SettleDue_commits k ks kt c1 c2 mid locked limit : commits (SettleDue env k ks kt c1 c2 mid locked limit).
Proof.
  unfold SettleDue. cbv zeta. apply comm_commits_bind; [apply (commits_pure (λ _, decodeCommissionWithdraw (Values (env k))))|intros wd].
  apply comm_commits_bind; [apply commits_read|intros ids]. apply comm_commits_bind; [apply settle_all_commits|intros [[st first] going]].
  destruct (negb going); [apply (commits_pure (λ _, Ok _))|]. destruct mid; [apply (commits_pure (λ _, Ok _))|].
  apply comm_commits_bind; [apply commits_read|intros due]. apply comm_commits_bind; [apply transfer_all_commits|].
  intros rest. apply (commits_pure (λ _, Ok _)).
Qed.

(** * Review *)

Lemma ReviewEntry_safe inTx who k id approve reason : safe (ReviewEntry env inTx who k id approve reason).
Proof.
  unfold ReviewEntry. apply keeps_bind; [apply _|apply keeps_lift, _|intros rs]. apply keeps_bind; [apply _|apply keeps_lift, _|intros p].
  apply comm_tx_safe. intros [l c] a s' Hs H. apply bind_Ok in H as (oe & s1 & H1 & H). apply ctab_Ok in H1 as (c1 & [-> ->]%gets_Ok & ->).
  destruct (List.find _ _) as [e|] eqn:Ee; [|done]. apply find_in in Ee as [He Ei]. pose proof Ei as Ei'%N.eqb_eq.
  apply bind_Ok in H as ([] & s1 & [_ ->]%lift_Ok & H). destruct (_ || _) eqn:Eu; [done|]. apply orb_false_iff in Eu as [U1%negb_false_iff U2%negb_false_iff]. destruct approve.
  - revert H. match goal with |- ?m (l, c) = _ → _ => assert (Hend : safe m) end; [|by apply Hend].
    keeps_walk; [|by apply ctab_safe, comm_audit_quiet]. apply ctab_fk_safe. auto with comm.
  - destruct (CanEntryTransition _ _) eqn:Et; [|done]. simpl in H. apply pending_to in Et.
    apply bind_Ok in H as (txn & s1 & H1%map_err_Ok & H). apply cled_Ok in H1 as (l' & HP & ->).
    apply bind_Ok in H as (ch & s1 & H1 & H). apply ctab_fk_Ok in H1 as (c' & HM & ->). destruct ch; [|done]. simpl in H.
    assert (comm_ok (l', c') ∧ comm_to (l, c) (l', c')) as [Hs1 L1].
    { eapply void_block; [done..| | |exact HP|exact HM].
      - unfold under_review, entry_is. by rewrite Ei, U1, U2.
      - apply VoidEntry_safe. }
    assert (Hend : safe (_ ← ctab (comm_audit "commission.entry_voided" id); mret EntryVoided)) by (keeps_walk; by apply ctab_safe, comm_audit_quiet).
    destruct (Hend _ _ _ Hs1 H). split; [done|by etrans].
Qed.

(** * Terms of single users *)

Lemma SetOverride_safe inTx who k i : safe (SetOverride env inTx who k i).
Proof.
  unfold SetOverride. destruct (validateOverrideInput i) as [email [|]]; [|apply keeps_fail, _]. keeps_walk; try apply ctab_safe; try apply ctab_fk_safe; auto with comm.
Qed.
Lemma DeleteOverride_safe inTx who k u : safe (DeleteOverride inTx who k u).
Proof. unfold DeleteOverride, OverrideOf. keeps_walk; apply ctab_safe; auto with comm; apply keeps_gets, _. Qed.
End CommSteps.
