(* ===== verification/CommAccrue.v ===== *)
(** Accrual: who earns from an order and what is written for them.  The
    beneficiaries are the distinct people up the line of referrals, each with
    the share of its level; what they get together is never more than the
    commission of the order.

    Closing an account: its requests are rejected, its pending entries voided
    and what it could still spend forfeited, to the last cent. *)
From Stdlib Require Import ZArith QArith Qround Lqa Lia.
From stdpp Require Import base tactics list gmap strings sorting relations.
From S2P Require Import Prelude Safety Decimal GoString Money LedgerTypes LedgerFacts Ledger LedgerInv LedgerOps LedgerProgress GoTime Promo Period.
From S2P Require Import OrderAmounts Proration SubTypes SubStore OrderStore OrderFlow OrderInv Frame PayStore PayFlow PayInv CommStore CommFlow.
From S2P Require Import CommInv CommOps CommSteps.
#[local] Open Scope string_scope.
#[local] Open Scope Z_scope.

Section CommAccrue.
Context `{DL : DecimalLib} (env : Call → CommEnv).
Abbreviation safe := (keeps (E := oerr) comm_ok comm_to).

(** * The line of referrals *)

(** Does not earn: the account is deleted, or its own rate is zero. *)
Definition skipped (k : Call) (c : comm) (u : uuid) : bool :=
  match AccountDeleted (env k) u with
  | Ok true => true
  | Ok false => match c_overrides c !! u with Some o => bool_decide (ov_RatePercent o = Some 0) | None => false end
  | Err _ => false
  end.
Lemma notEarning_Ok k u c b c' : notEarning env k u c = (Ok b, c') → c' = c ∧ b = skipped k c u.
Proof.
  unfold notEarning, skipped. intros (g & c1 & [Hg ->]%lift_Ok & H)%bind_Ok. rewrite Hg. destruct g; [by injection H as <- <-|].
  unfold excludedByOverride in H. apply bind_Ok in H as (ov & c1 & [-> ->]%gets_Ok & H). by injection H as <- <-.
Qed.

(** The people above [buyer], from [direct] on: each referred the one before,
    nobody twice, and it stops after [n] people, at one without a referrer, or
    where somebody would come again. *)
Fixpoint line (k : Call) (n : nat) (seen : list uuid) (cur : uuid) (path : list uuid) : Prop :=
  match n, path with
  | O, _ => path = []
  | S _, [] => cur ∈ seen
  | S n', a :: path' =>
      a = cur ∧ cur ∉ seen ∧
      match n', path' with
      | O, _ => path' = []
      | S _, _ => (ReferrerOf (env k) cur = Ok None ∧ path' = []) ∨
                  ∃ up, ReferrerOf (env k) cur = Ok (Some up) ∧ line k n' (cur :: seen) up path'
      end
  end.

(** Who of them is paid. *)
Fixpoint paid_levels (k : Call) (c : comm) (lvl : Z) (shares : list Z) (path : list uuid) : list beneficiary :=
  match shares, path with
  | share :: shares', a :: path' =>
      (if (0 <? share) && negb (skipped k c a) then [mkBeneficiary a lvl share] else []) ++ paid_levels k c (lvl + 1) shares' path'
  | _, _ => []
  end.

Lemma climb_Ok k c shares : ∀ l c' lvl seen cur, lvl + Z.of_nat (length shares) = 4 →
  climb env k lvl shares seen cur c = (Ok l, c') → c' = c ∧ ∃ path, line k (length shares) seen cur path ∧ l = paid_levels k c lvl shares path.
Proof.
  induction shares as [|share shares IH]; intros l c' lvl seen cur Hn H; simpl in H.
  { injection H as <- <-. split; [done|]. by exists []. }
  case_bool_decide as Hin; [injection H as <- <-; split; [done|]; by exists []|].
  apply bind_Ok in H as (own & c1 & H1 & H).
  assert (c1 = c ∧ own = if (0 <? share) && negb (skipped k c cur) then [mkBeneficiary cur lvl share] else []) as [-> Eo].
  { destruct (0 <? share); [|by injection H1 as <- <-]. apply bind_Ok in H1 as (sk & c2 & [-> ->]%notEarning_Ok & H1).
    injection H1 as <- <-. by destruct (skipped _ _ _). }
  simpl in Hn. destruct (Z.eqb_spec lvl MaxCommissionLevels) as [->|Hl].
  - assert (shares = []) as -> by (destruct shares; [done|simpl in Hn; unfold MaxCommissionLevels in Hn; lia]).
    injection H as <- <-. split; [done|]. exists [cur]. split; [done|]. simpl. by rewrite app_nil_r.
  - assert (∃ s0 r0, shares = s0 :: r0) as (s0 & r0 & ->) by (destruct shares; [simpl in Hn; unfold MaxCommissionLevels in Hl; lia|eauto]).
    apply bind_Ok in H as (up & c1 & [Hup ->]%lift_Ok & H). destruct up as [u|].
    + apply bind_Ok in H as (more & c1 & H2 & H). apply IH in H2 as (-> & path & Hp & ->); [|simpl in *; lia]. injection H as <- <-.
      split; [done|]. exists (cur :: path). split; [|by rewrite Eo]. split_and!; [done..|]. right. by exists u.
    + injection H as <- <-. split; [done|]. exists [cur]. split; [|by rewrite Eo; simpl; rewrite app_nil_r].
      split_and!; [done..|]. by left.
Qed.

Lemma line_distinct k n seen cur path : line k n seen cur path → NoDup path ∧ (∀ a, a ∈ path → a ∉ seen).
Proof.
  revert n seen cur. induction path as [|a path IH]; intros n seen cur H; [split; [constructor|by intros a Ha%elem_of_nil]|].
  destruct n as [|n]; [done|]. destruct H as (-> & Hc & H).
  assert (NoDup path ∧ (∀ a, a ∈ path → a ∉ cur :: seen)) as [H1 H2].
  { destruct n as [|n]; [subst; split; [constructor|by intros a Ha%elem_of_nil]|].
    destruct H as [[_ ->]|(up & _ & H)]; [split; [constructor|by intros a Ha%elem_of_nil]|by eapply IH]. }
  split; [constructor; [|done]; intros Hin; by apply (H2 _ Hin); constructor|].
  intros a [->|Ha]%elem_of_cons; [done|]. intros Hs. apply (H2 _ Ha). by constructor.
Qed.
Lemma paid_users k c lvl shares path b : b ∈ paid_levels k c lvl shares path → bf_UserID b ∈ path.
Proof.
  revert lvl path. induction shares as [|s shares IH]; intros lvl [|a path]; simpl; try by intros ?%elem_of_nil.
  intros [Hb|Hb]%elem_of_app; [|constructor; by eapply IH]. destruct (_ && _); [|by apply elem_of_nil in Hb].
  apply list_elem_of_singleton in Hb as ->. constructor.
Qed.
Lemma paid_distinct k c lvl shares path : NoDup path → NoDup (map bf_UserID (paid_levels k c lvl shares path)).
Proof.
  revert lvl path. induction shares as [|s shares IH]; intros lvl [|a path]; simpl; try constructor. intros [Ha Hp]%NoDup_cons.
  destruct (_ && _); simpl; [|by apply IH]. constructor; [|by apply IH].
  intros (b & E & Hb)%list_elem_of_fmap. apply Ha. rewrite E. by eapply paid_users.
Qed.
Definition shares_of (l : list beneficiary) : Z := foldr Z.add 0 (map bf_Share l).
Lemma paid_shares k c lvl shares path : Forall (Z.le 0) shares → shares_of (paid_levels k c lvl shares path) ≤ foldr Z.add 0 shares.
Proof.
  revert lvl path. induction shares as [|s shares IH]; intros lvl path Hs; [by destruct path|]. apply Forall_cons in Hs as [H0 Hs].
  assert (0 ≤ foldr Z.add 0 shares). { clear -Hs. induction Hs; simpl; lia. }
  destruct path as [|a path]; simpl; [unfold shares_of; simpl; lia|]. specialize (IH (lvl + 1) path Hs). unfold shares_of in *.
  destruct (_ && _); simpl; lia.
Qed.
Lemma paid_positive k c lvl shares path b : b ∈ paid_levels k c lvl shares path → 0 < bf_Share b.
Proof.
  revert lvl path. induction shares as [|s shares IH]; intros lvl [|a path]; simpl; try by intros ?%elem_of_nil.
  intros [Hb|Hb]%elem_of_app; [|by eapply IH]. destruct (0 <? s) eqn:E; simpl in Hb; [|by apply elem_of_nil in Hb].
  destruct (negb _); [|by apply elem_of_nil in Hb]. apply list_elem_of_singleton in Hb as ->. simpl. lia.
Qed.

(** * What is written *)

(** The entry of one beneficiary. *)
Record accrued (k : Call) (o : PaidOrder) (rateBP : Z) (frozen : Time) (b : beneficiary) (e : Entry) : Prop := {
  ac_who : ce_Referrer e = bf_UserID b ∧ ce_Referee e = po_UserID o ∧ ce_OrderID e = po_OrderID o ∧ ce_OrderNo e = po_OrderNo o;
  ac_terms : ce_Base e = po_Total o ∧ ce_RateBP e = rateBP ∧ ce_Level e = bf_Level b ∧ ce_Share e = bf_Share b ∧ ce_FrozenUntil e = frozen;
  ac_amount : LevelAmount (po_Total o) rateBP (bf_Share b) = Ok (ce_Amount e) ∧ (0 < val (ce_Amount e))%Q;
  ac_state : ce_Status e = EntryPending ∧ ce_ReviewReason e = sourceReview env k (bf_UserID b) (po_UserID o) ∧
             ce_ReviewRequired e = negb (is_none (ce_ReviewReason e));
}.
(** Those whose share comes to something. *)
Definition worth (o : PaidOrder) (rateBP : Z) (b : beneficiary) : bool :=
  match LevelAmount (po_Total o) rateBP (bf_Share b) with Ok a => IsPositive a | Err _ => false end.

Lemma accrue_all_Ok who k o rateBP frozen l : ∀ s s', comm_ok s → accrue_all env who k o rateBP frozen l s = (Ok (), s') →
  comm_ok s' ∧ comm_to s s' ∧ c_overrides s'.2 = c_overrides s.2 ∧
  ∃ new, c_entries s'.2 = (c_entries s.2 ++ new)%list ∧ Forall2 (accrued k o rateBP frozen) (List.filter (worth o rateBP) l) new.
Proof.
  induction l as [|b l IH]; intros s s' Hs H; simpl in H.
  { injection H as <-. split_and!; [done..|]. exists []. by rewrite app_nil_r. }
  apply bind_Ok in H as (amt & s1 & [Ha ->]%lift_Ok & H). unfold money_result in Ha.
  destruct (LevelAmount (po_Total o) rateBP (bf_Share b)) as [a|] eqn:El; [|done]. injection Ha as ->.
  simpl. unfold worth at 1. rewrite El. destruct (IsPositive amt) eqn:Ep; simpl in H; [|by apply IH].
  destruct s as [lg c]. apply bind_Ok in H as (txn & s1 & H1 & H). apply cled_Ok in H1 as (l' & HP & ->).
  apply bind_Ok in H as (id & s1 & H1 & H). apply ctab_Ok in H1 as (c1 & [= <- <-] & ->).
  apply bind_Ok in H as ([] & s1 & H1 & H). apply ctab_fk_Ok in H1 as (c2 & HI & ->).
  pose proof HI as (Ec & Hck & _)%InsertEntry_Ok. eapply accrual_block in HI as [Hs1 L1]; [|done..].
  apply IH in H as (Hs' & L' & Eo & new & En & HF); [|done]. split_and!; [done|by etrans|by rewrite Eo, Ec|].
  eexists (_ :: new). rewrite En, Ec. simpl. split; [by rewrite <- app_assoc|]. constructor; [|done].
  split; simpl; try done. split; [done|]. by destruct (IsPositive_spec amt).
Qed.

(** ** Together no more than the order's commission *)

Lemma level_bound total rateBP share whole a : Amount total rateBP = Ok whole → LevelAmount total rateBP share = Ok a → (0 <= val whole)%Q →
  0 ≤ share → two_places a ∧ 100 * cents_of a ≤ cents_of whole * share.
Proof.
  unfold LevelAmount. intros Hw. rewrite Hw. simpl. intros H0%MulRatio_ok Hv Hs. destruct H0 as (_ & T & Ta & Ec). split; [done|].
  unfold two_places in T. assert (0 ≤ cents_of whole). { rewrite T in Hv. unfold Qle in Hv. simpl in Hv. lia. }
  rewrite Ec. unfold BasisPoints. rewrite Z.quot_div_nonneg by nia. pose proof (Z.mul_div_le (cents_of whole * (share * 100)) 10000). nia.
Qed.
Lemma accrued_sum k o rateBP frozen whole l new : Amount (po_Total o) rateBP = Ok whole → (0 <= val whole)%Q → Forall (λ b, 0 ≤ bf_Share b) l →
  Forall2 (accrued k o rateBP frozen) (List.filter (worth o rateBP) l) new →
  ∃ z, (over (λ e, val (ce_Amount e)) new == inject_Z z * (1 # 100))%Q ∧ 100 * z ≤ cents_of whole * shares_of l.
Proof.
  intros Hw H0. pose proof Hw as (_ & _ & T & _)%MulRatio_ok.
  assert (Hc : 0 ≤ cents_of whole). { unfold two_places in T. rewrite T in H0. unfold Qle in H0. simpl in H0. lia. }
  revert new. induction l as [|b l IH]; intros new Hl HF; simpl in HF.
  { inversion HF. exists 0. split; [done|]. unfold shares_of. simpl. lia. }
  apply Forall_cons in Hl as [Hb Hl]. destruct (worth o rateBP b).
  - inversion HF as [|? e ? new' He HF']; subst. destruct (IH _ Hl HF') as (z & Ez & Hz). destruct (ac_amount _ _ _ _ _ _ He) as [Ea _].
    destruct (level_bound _ _ _ _ _ Hw Ea H0 Hb) as [Te Hle]. exists (cents_of (ce_Amount e) + z). unfold two_places in Te. split.
    + unfold over in *. simpl. rewrite Ez, Te, inject_Z_plus. ring.
    + unfold shares_of in *. simpl. nia.
  - destruct (IH _ Hl HF) as (z & Ez & Hz). exists z. split; [done|]. unfold shares_of in *. simpl. nia.
Qed.

(** * The hook *)

(** The terms of the person who invited the buyer. *)
Definition terms_of (k : Call) (c : comm) (direct : uuid) (cfg : Commission) : Z * string :=
  if skipped k c direct then (cm_RatePercent cfg, cm_Scope cfg)
  else match c_overrides c !! direct with
       | Some o => (default (cm_RatePercent cfg) (ov_RatePercent o), default (cm_Scope cfg) (ov_Scope o))
       | None => (cm_RatePercent cfg, cm_Scope cfg)
       end.
Lemma orderTerms_Ok k direct cfg c t c' : orderTerms env k direct cfg c = (Ok t, c') → c' = c ∧ t = terms_of k c direct cfg.
Proof.
  unfold orderTerms, terms_of. intros (out & c1 & [-> ->]%notEarning_Ok & H)%bind_Ok. destruct (skipped k c direct); [by injection H as <- <-|].
  unfold termsFor in H. apply bind_Ok in H as (ov & c1 & [-> ->]%gets_Ok & H). injection H as <- <-. by destruct (c_overrides c !! direct).
Qed.
Definition shares_in (dist : Distribution) : list Z := if ds_Enabled dist then ds_Levels dist else [100].
Lemma beneficiaries_Ok k buyer direct dist c l c' : direct ≠ buyer → beneficiaries env k buyer direct dist c = (Ok l, c') →
  c' = c ∧ ∃ path, line k (length (shares_in dist)) [buyer] direct path ∧ l = paid_levels k c 1 (shares_in dist) path.
Proof.
  unfold beneficiaries, shares_in. intros Hd. destruct (ds_Enabled dist); simpl negb; intros H; [by apply climb_Ok in H|].
  cbv iota in H. apply bind_Ok in H as (out & c1 & [-> ->]%notEarning_Ok & H). injection H as <- <-. split; [done|]. exists [direct]. split.
  - simpl. split_and!; [done| |done]. by intros ?%list_elem_of_singleton.
  - simpl. by destruct (skipped k c direct).
Qed.
Lemma decoded_shares v dist : decodeCommissionDistribution v = Ok dist →
  Forall (Z.le 0) (shares_in dist) ∧ foldr Z.add 0 (shares_in dist) ≤ 100.
Proof.
  unfold decodeCommissionDistribution. intros H.
  apply result_bind_ok in H as (en & _ & H). apply result_bind_ok in H as (l1 & _ & H). destruct (share_out_of_range l1) eqn:E1; [done|].
  apply result_bind_ok in H as (l2 & _ & H). destruct (share_out_of_range l2) eqn:E2; [done|].
  apply result_bind_ok in H as (l3 & _ & H). destruct (share_out_of_range l3) eqn:E3; [done|]. destruct (en && _) eqn:E4; [done|].
  injection H as <-. unfold share_out_of_range in *. reflect_bools. unfold shares_in, ds_Levels. simpl. destruct en; simpl in *.
  - reflect_bools. unfold CommissionMaxSharePercent in *. split; [by repeat constructor|lia].
  - split; [by repeat constructor|lia].
Qed.

(** What an order earns its line when it earns anything. *)
Record earned (k : Call) (o : PaidOrder) (c : comm) (new : list Entry) : Prop := {
  en_direct : ∃ direct cfg dist path whole,
    ReferrerOf (env k) (po_UserID o) = Ok (Some direct) ∧ direct ≠ po_UserID o ∧
    decodeCommission (Values (env k)) = Ok cfg ∧ decodeCommissionDistribution (Values (env k)) = Ok dist ∧
    let rateBP := RateBP (terms_of k c direct cfg).1 in
    0 < rateBP ∧ ((terms_of k c direct cfg).2 = CommissionScopeFirstOrder → Forall (λ e, ce_Referee e = po_UserID o → ce_OrderID e = po_OrderID o) (c_entries c)) ∧
    Amount (po_Total o) rateBP = Ok whole ∧ (0 < val whole)%Q ∧ line k (length (shares_in dist)) [po_UserID o] direct path ∧
    Forall2 (accrued k o rateBP ((if IsZeroTime (po_PaidAt o) then k_now k else po_PaidAt o) + wrap64 (cm_FreezeDays cfg * (24 * Hour))))
      (List.filter (worth o rateBP) (paid_levels k c 1 (shares_in dist) path)) new ∧
    (over (λ e, val (ce_Amount e)) new <= val whole)%Q;
  en_first : Forall (λ e, ce_OrderID e ≠ po_OrderID o) (c_entries c);
}.
Lemma existsb_false_Forall {A} (p : A → bool) (Q : A → Prop) l : existsb p l = false → (∀ x, p x = false → Q x) → Forall Q l.
Proof.
  intros H HQ. apply Forall_forall. intros x Hx. apply HQ. destruct (p x) eqn:E; [|done]. exfalso. revert H. apply not_false_iff_true.
  apply existsb_exists. exists x. split; [by apply list_elem_of_In|done].
Qed.
Lemma OnOrderPaid_Ok who k o s s' : comm_ok s → OnOrderPaid env (who, k, o) s = (Ok (), s') →
  comm_ok s' ∧ comm_to s s' ∧ (s' = s ∨ ∃ new, c_entries s'.2 = (c_entries s.2 ++ new)%list ∧ earned k o s.2 new).
Proof.
  intros Hs H. assert (Hsame : comm_ok s ∧ comm_to s s ∧ (s = s ∨ ∃ new, c_entries s.2 = (c_entries s.2 ++ new)%list ∧ earned k o s.2 new)) by (split_and!; [done|done|by left]).
  unfold OnOrderPaid in H. destruct (_ || _); [by injection H as <-|]. unfold comm_tx in H. apply Do_Ok in H.
  apply bind_Ok in H as (od & s1 & [Hd ->]%lift_Ok & H). destruct od as [d|]; [|by injection H as <-].
  destruct (N.eqb_spec d (po_UserID o)) as [|Hne]; [by injection H as <-|]. destruct s as [l c].
  apply bind_Ok in H as (cfg & s1 & [Hcfg ->]%lift_Ok & H). apply bind_Ok in H as (t & s1 & H1 & H). apply ctab_Ok in H1 as (c1 & [-> ->]%orderTerms_Ok & ->).
  destruct (Z.leb_spec (terms_of k c d cfg).1 0) as [|Hrate]; [by injection H as <-|].
  apply bind_Ok in H as (has & s1 & H1 & H). apply ctab_Ok in H1 as (c1 & [-> ->]%gets_Ok & ->). destruct (existsb _ _) eqn:Eex; [by injection H as <-|].
  apply bind_Ok in H as (ear & s1 & H1 & H).
  assert (s1 = (l, c) ∧ (ear = false → (terms_of k c d cfg).2 = CommissionScopeFirstOrder →
    Forall (λ e, ce_Referee e = po_UserID o → ce_OrderID e = po_OrderID o) (c_entries c))) as [-> Hfirst].
  { destruct (String.eqb_spec (terms_of k c d cfg).2 CommissionScopeFirstOrder).
    - apply ctab_Ok in H1 as (c1 & [-> ->]%gets_Ok & ->). split; [done|]. intros Ef _. eapply existsb_false_Forall; [exact Ef|].
      intros x E Er. simpl in E. rewrite Er, N.eqb_refl in E. simpl in E. by apply negb_false_iff, N.eqb_eq in E.
    - injection H1 as <- <-. done. }
  destruct ear; [by injection H as <-|]. specialize (Hfirst eq_refl). cbv zeta in H.
  apply bind_Ok in H as (whole & s1 & [Hwh ->]%lift_Ok & H). unfold money_result in Hwh. destruct (Amount _ _) as [w0|] eqn:Eam; [|done]. injection Hwh as ->.
  destruct (IsPositive whole) eqn:Ep; [|by injection H as <-]. simpl in H.
  apply bind_Ok in H as (dist & s1 & [Hdist ->]%lift_Ok & H). apply bind_Ok in H as (list & s1 & H9 & H).
  apply ctab_Ok in H9 as (c1 & Hb & ->). apply beneficiaries_Ok in Hb as (-> & path & Hline & ->); [|done].
  apply accrue_all_Ok in H as (Hs' & L & _ & new & En & HF); [|done]. split_and!; [done..|]. right. exists new. split; [done|]. split.
  - exists d, cfg, dist, path, whole. destruct (decoded_shares _ _ Hdist) as [Hpos Hsum]. dec_reflect.
    assert (Hsh : Forall (λ b, 0 ≤ bf_Share b) (paid_levels k c 1 (shares_in dist) path)).
    { apply Forall_forall. intros b Hbb%paid_positive. lia. }
    destruct (accrued_sum _ _ _ _ whole _ _ Eam ltac:(lra) Hsh HF) as (z & Ez & Hz).
    pose proof (paid_shares k c 1 (shares_in dist) path Hpos). pose proof Eam as (_ & _ & T & _)%MulRatio_ok.
    cbv zeta. split_and!; try done; [unfold RateBP; simpl; lia|]. rewrite Ez. unfold two_places in T. rewrite T.
    assert (0 ≤ cents_of whole). { match goal with H : (0 < val whole)%Q |- _ => rewrite T in H; unfold Qlt in H; simpl in H end. lia. }
    assert (z ≤ cents_of whole) by nia. unfold Qle. simpl. lia.
  - eapply existsb_false_Forall; [exact Eex|]. intros e E. by apply N.eqb_neq in E.
Qed.
Lemma OnOrderPaid_safe call : safe (OnOrderPaid env call).
Proof. intros s [] s' Hs H. destruct call as [[who k] o]. by apply OnOrderPaid_Ok in H as (? & ? & _). Qed.
End CommAccrue.

Section CommClose.
Context `{DL : DecimalLib} (env : Call → CommEnv).
Abbreviation safe := (keeps (E := oerr) comm_ok comm_to).

Definition flying (u : uuid) (w : Withdrawal) : bool := (wd_UserID w =? u)%N && in_flight w.
Definition waiting (u : uuid) (e : Entry) : bool := (ce_Referrer e =? u)%N && entry_is EntryPending e.

(** A row of that identifier that an update of one row did not hit. *)
Lemma not_missed {A} (f : A → uuid) (p : A → bool) id l y : NoDup (map f l) → hits (λ x, (f x =? id)%N && p x) l = 1 → y ∈ l →
  (f y =? id)%N && p y = false → f y ≠ id.
Proof.
  intros Hn Hh Hy E <-. rewrite N.eqb_refl in E. simpl in E. destruct (hits_one _ _ Hh) as (x & Hx & [Ex%N.eqb_eq Px]%andb_true_iff).
  assert (x = y) as -> by (by eapply (NoDup_map_inj f)). congruence.
Qed.

(** Rejecting every request of the list. *)
Lemma reject_all_Ok k by_ ws : ∀ s s', comm_ok s → reject_all k by_ ws s = (Ok (), s') →
  comm_ok s' ∧ comm_to s s' ∧ c_entries s'.2 = c_entries s.2 ∧ (∀ u, owed u s'.2 == owed u s.2)%Q ∧
  ∀ w, w ∈ c_withdrawals s'.2 → in_flight w = true → w ∈ c_withdrawals s.2 ∧ wd_ID w ∉ map wd_ID ws.
Proof.
  induction ws as [|w ws IH]; intros [l c] s' Hs H; simpl in H.
  { injection H as <-. split_and!; try done. intros w Hw _. split; [done|apply not_elem_of_nil]. }
  apply bind_Ok in H as (ch & s1 & H1 & H). apply ctab_fk_Ok in H1 as (c1 & H1 & ->). destruct ch; [|done]. simpl in H.
  destruct (ReviewWithdrawalRow_quiet (refs_of l) (wd_ID w) WithdrawalRejected (Some ReasonAccountDeleted) by_ (k_now k) eq_refl _ _ _
    (proj2 (proj2 Hs)) H1) as [Ht1 E1].
  destruct (quiet_step _ _ _ Hs Ht1 E1) as [Hs1 L1]. apply IH in H as (Hs' & L' & Ee & Eo & Hw); [|done]. simpl in *.
  apply one_changed_Ok in H1 as (n & (-> & -> & _)%update_withdrawals_Ok & Hn%eq_sym%Z.eqb_eq). split_and!; [done|by etrans|done| |].
  - intros u. rewrite Eo. by destruct E1 as [_ E1]; destruct (E1 u) as (_ & E & _).
  - intros x Hx Hf. destruct (Hw _ Hx Hf) as [Hx1 Hni]. simpl in Hx1. apply upd_in in Hx1 as (y & Hy & Ey).
    destruct (withdrawal_at (wd_ID w) WithdrawalRequested y) eqn:Eh; [subst x; done|]. subst x. split; [done|].
    intros [E|?]%elem_of_cons; [|done]. revert E. eapply not_missed; [|exact Hn|done|exact Eh]. apply (tk_withdrawal_ids _ (proj2 (proj2 Hs))).
Qed.

(** Voiding every entry of the list. *)
Lemma void_all_Ok who k by_ es : ∀ s s', comm_ok s → (∀ e, e ∈ es → e ∈ c_entries s.2 ∧ ce_Status e = EntryPending) → NoDup (map ce_ID es) →
  void_all who k by_ es s = (Ok (), s') →
  comm_ok s' ∧ comm_to s s' ∧ c_withdrawals s'.2 = c_withdrawals s.2 ∧ (∀ u, owed u s'.2 == owed u s.2)%Q ∧
  ∀ e, e ∈ c_entries s'.2 → ce_Status e = EntryPending → e ∈ c_entries s.2 ∧ ce_ID e ∉ map ce_ID es.
Proof.
  induction es as [|e es IH]; intros [l c] s' Hs Hes Hnd H; simpl in H.
  { injection H as <-. split_and!; try done. intros e He _. split; [done|apply not_elem_of_nil]. }
  apply bind_Ok in H as ([] & s1 & H1 & H). unfold voidPendingForDeleted in H1.
  apply bind_Ok in H1 as (txn & s2 & H2%map_err_Ok & H1). apply cled_Ok in H2 as (l1 & HP & ->).
  apply bind_Ok in H1 as (ch & s2 & H2 & H1). apply ctab_fk_Ok in H2 as (c1 & HM & ->). destruct ch; [|done]. injection H1 as <-.
  destruct (Hes e) as [He Es]; [constructor|]. simpl in He. apply NoDup_cons in Hnd as [Hni Hnd].
  assert (Hhit : entry_by (ce_ID e) e && entry_is EntryPending e = true) by (unfold entry_by; by rewrite N.eqb_refl; apply entry_is_true).
  destruct (void_block _ _ _ _ _ _ _ _ _ _ _ _ _ Hs He Es Hhit (VoidPendingEntry_safe _ _ _ _ _ _) HP HM) as [Hs1 L1].
  destruct (update_one_row _ _ _ _ e _ HM He Hhit) as (a & b & Ea & Eb & Ec).
  assert (Eo : ∀ u, (owed u c1 == owed u c)%Q).
  { intros u. destruct (entries_swap u c c1 a e _ b Ea Eb) as (_ & -> & _); [by rewrite Ec..|]. unfold counted, entry_is. simpl. rewrite Es.
    rewrite !andb_false_r. lra. }
  apply one_changed_Ok in HM as (n & (-> & _ & _)%update_entries_Ok & Hn%eq_sym%Z.eqb_eq).
  apply IH in H as (Hs' & L' & Ew & Eo' & Hp); [|done| |done].
  - simpl in *. split_and!; [done|by etrans|by rewrite Ew, Ec|intros u; by rewrite Eo'|].
    intros x Hx Ex. destruct (Hp _ Hx Ex) as [Hx1 Hn1]. rewrite Ec in Hx1. simpl in Hx1. apply upd_in in Hx1 as (y & Hy & Ey).
    destruct (entry_by (ce_ID e) y && entry_is EntryPending y) eqn:Eh; [subst x; done|]. subst x. split; [done|].
    intros [E|?]%elem_of_cons; [|done]. revert E. eapply not_missed; [|exact Hn|done|exact Eh]. apply (tk_entry_ids _ (proj2 (proj2 Hs))).
  - intros x Hx. destruct (Hes x) as [Hx1 Ex]; [by constructor|]. split; [|done]. simpl in *. rewrite Ec. simpl. apply upd_in. exists x. split; [done|].
    unfold entry_by. destruct (N.eqb_spec (ce_ID x) (ce_ID e)) as [E|]; [|done]. exfalso. apply Hni. rewrite <- E. by apply list_elem_of_fmap_2.
Qed.

Lemma forfeitAvailable_Ok who k u amt l c s' : comm_ok (l, c) → (val amt <= spendable u c)%Q → forfeitAvailable who k u amt (l, c) = (Ok (), s') →
  comm_ok s' ∧ comm_to (l, c) s' ∧ c_entries s'.2 = c_entries c ∧ c_withdrawals s'.2 = c_withdrawals c ∧
  (owed u s'.2 == owed u c - val amt)%Q.
Proof.
  intros Hs Hle H. unfold forfeitAvailable in H. apply bind_Ok in H as (id & s1 & H1 & H). apply ctab_Ok in H1 as (c1 & [= <- <-] & ->).
  apply bind_Ok in H as (txn & s1 & H1%map_err_Ok & H). apply cled_Ok in H1 as (l1 & HP & ->). apply map_err_Ok in H.
  apply ctab_fk_Ok in H as (c2 & HI & ->). pose proof HI as [Ec _]%InsertForfeiture_Ok.
  eapply forfeit_block in HI as [Hs' L]; [|done..]. split_and!; try done; simpl; rewrite Ec; [done..|].
  unfold owed, lost_sum. simpl. rewrite over_add, counted_app. simpl. rewrite N.eqb_refl.
  unfold settled_sum, paid_sum, moved_sum. simpl. lra.
Qed.

Lemma over_filter {A} (p : A → bool) (amount : A → dec) l : (over (λ x, val (amount x)) (List.filter p l) == over (counted p amount) l)%Q.
Proof. unfold over, counted. induction l as [|x l IH]; simpl; [done|]. destruct (p x); simpl; lra. Qed.
Lemma fold_amounts {A} (amount : A → dec) l z :
  (val (foldl (λ acc x, dec_add acc (amount x)) z l) == val z + over (λ x, val (amount x)) l)%Q.
Proof. revert z. unfold over. induction l as [|x l IH]; intros z; simpl; [lra|]. rewrite IH, dec_add_val. lra. Qed.

Record closed (u : uuid) (s s' : ledger * comm) (r : VoidResult) : Prop := {
  cd_ok : comm_ok s';
  cd_to : comm_to s s';
  cd_entries : Forall (λ e, waiting u e = false) (c_entries s'.2);
  cd_withdrawals : Forall (λ w, flying u w = false) (c_withdrawals s'.2);
  cd_auto : Forall (λ e, (ce_Referrer e =? u)%N && ce_AutoTransferDue e = false) (c_entries s'.2);
  cd_pending : (bal s'.1 (pending_key u) == 0)%Q;
  cd_available : (bal s'.1 (available_key u) == 0)%Q;
  cd_voided : (val (vr_VoidedPending r) == bal s.1 (pending_key u))%Q;
  cd_forfeited : (val (vr_Forfeited r) == bal s.1 (available_key u))%Q;
  cd_rejected : (val (vr_RejectedAmount r) == inflight_sum u s.2)%Q;
}.
Lemma no_waiting_sum u c : Forall (λ e, waiting u e = false) (c_entries c) → (pending_sum u c == 0)%Q.
Proof. intros H. apply over_none. intros e He. unfold counted. rewrite Forall_forall in H. by rewrite (H _ He : _ && _ = false). Qed.
Lemma no_flying_sum u c : Forall (λ w, flying u w = false) (c_withdrawals c) → (inflight_sum u c == 0)%Q.
Proof. intros H. apply over_none. intros w Hw. unfold counted. rewrite Forall_forall in H. by rewrite (H _ Hw : _ && _ = false). Qed.

Lemma VoidForDeletedUser_Ok inTx who k u s r s' : comm_ok s → VoidForDeletedUser inTx who k u s = (Ok r, s') → closed u s s' r.
Proof.
  intros Hs H. unfold VoidForDeletedUser in H. apply bind_Ok in H as (p & s1 & [_ ->]%lift_Ok & H). unfold comm_tx in H. apply Do_Ok in H.
  destruct s as [l c]. apply bind_Ok in H as (ws & s1 & H1 & H). apply ctab_Ok in H1 as (c1 & [-> ->]%gets_Ok & ->).
  destruct (existsb _ _) eqn:_Ea; [done|]. apply bind_Ok in H as ([] & s1 & H1 & H).
  destruct (reject_all_Ok _ _ _ _ _ Hs H1) as (Hs1 & L1 & Ee1 & Eo1 & Hw1). destruct s1 as [l1 c1]. simpl in *.
  apply bind_Ok in H as (es & s2 & H2 & H). apply ctab_Ok in H2 as (c1' & [-> ->]%gets_Ok & ->). simpl in H.
  set (es := List.filter (λ e, (ce_Referrer e =? u)%N && entry_is EntryPending e) (c_entries c1)) in *.
  apply bind_Ok in H as ([] & s2 & H2 & H). apply void_all_Ok in H2 as (Hs2 & L2 & Ew2 & Eo2 & Hp2); [|done| |].
  2: { intros e [[_ He%entry_is_true]%andb_true_iff Hin]%elem_of_filter_bool. done. }
  2: { apply NoDup_filter_map, (tk_entry_ids _ (proj2 (proj2 Hs1))). }
  destruct s2 as [l2 c2]. simpl in *. apply bind_Ok in H as (nc & s3 & H3 & H). apply ctab_fk_Ok in H3 as (c3 & H3 & ->).
  destruct (ClearAutoTransferOf_quiet _ _ _ _ _ (proj2 (proj2 Hs2)) H3) as [Ht3 E3]. destruct (quiet_step _ _ _ Hs2 Ht3 E3) as [Hs3 L3].
  apply update_entries_Ok in H3 as (_ & E3' & _).
  assert (Hno : Forall (λ e, waiting u e = false) (c_entries c3)).
  { apply Forall_forall. intros e He. rewrite E3' in He. simpl in He. apply upd_in in He as (y & Hy & Ey).
    assert (waiting u e = waiting u y) as -> by (subst e; destruct (_ && _); done).
    destruct (waiting u y) eqn:Ew; [|done]. exfalso. pose proof Ew as [_ Es%entry_is_true]%andb_true_iff.
    destruct (Hp2 _ Hy Es) as [Hy1 Hni]. apply Hni, list_elem_of_fmap_2, elem_of_filter_bool. done. }
  assert (Hna : Forall (λ e, (ce_Referrer e =? u)%N && ce_AutoTransferDue e = false) (c_entries c3)).
  { apply Forall_forall. intros e He. rewrite E3' in He. simpl in He. apply upd_in in He as (y & Hy & ->).
    destruct ((ce_Referrer y =? u)%N && ce_AutoTransferDue y) eqn:Eh; [simpl; by rewrite andb_false_r|done]. }
  assert (Hnf : Forall (λ w, flying u w = false) (c_withdrawals c3)).
  { apply Forall_forall. intros w Hw. rewrite E3' in Hw. simpl in Hw. rewrite Ew2 in Hw. destruct (flying u w) eqn:Ef; [|done]. exfalso.
    pose proof Ef as [_ Efl]%andb_true_iff. destruct (Hw1 _ Hw Efl) as [Hw0 Hni]. apply Hni, list_elem_of_fmap_2, elem_of_filter_bool. done. }
  assert (Eo3 : (owed u c3 == owed u c)%Q).
  { destruct E3 as [_ E3]. destruct (E3 u) as (_ & E & _). rewrite E, Eo2, Eo1. done. }
  apply bind_Ok in H as (av & s4 & H4 & H). apply ctab_Ok in H4 as (c4 & [-> Hav]%available_val & ->).
  assert (Hsp : (val av == owed u c)%Q). { rewrite Hav. unfold spendable. rewrite no_flying_sum by done. lra. }
  apply bind_Ok in H as (ff & s4 & H4 & H). injection H as <- <-.
  assert (comm_ok s4 ∧ comm_to (l2, c3) s4 ∧ c_entries s4.2 = c_entries c3 ∧ c_withdrawals s4.2 = c_withdrawals c3 ∧
    (owed u s4.2 == 0)%Q ∧ (val ff == owed u c)%Q) as (Hs4 & L4 & Ee4 & Ew4 & Eo4 & Eff).
  { destruct (IsPositive av) eqn:Ep; simpl in H4; dec_reflect.
    - apply bind_Ok in H4 as ([] & s5 & H5 & H4). injection H4 as <- <-. apply forfeitAvailable_Ok in H5 as (A1 & A2 & A3 & A4 & A5); [|done|lra].
      split_and!; try done. rewrite A5. lra.
    - injection H4 as <- <-. pose proof (fd_covered _ _ (proj1 (proj2 Hs3)) u). simpl in *. rewrite dec_zero_val.
      split_and!; try done; lra. }
  split; simpl; try done.
  - by do 3 (etrans; [eassumption|]).
  - by rewrite Ee4.
  - by rewrite Ew4.
  - by rewrite Ee4.
  - rewrite (fd_pending _ _ (proj1 (proj2 Hs4)) u). apply no_waiting_sum. by rewrite Ee4.
  - by rewrite (fd_available _ _ (proj1 (proj2 Hs4)) u).
  - rewrite fold_amounts, dec_zero_val, (fd_pending _ _ (proj1 (proj2 Hs)) u). unfold es. rewrite over_filter, Ee1. unfold pending_sum. simpl. lra.
  - by rewrite Eff, (fd_available _ _ (proj1 (proj2 Hs)) u).
  - rewrite fold_amounts, dec_zero_val, over_filter. unfold inflight_sum. lra.
Qed.
(** Nothing is left for a second call. *)
Lemma filter_none {A} (p : A → bool) l : Forall (λ x, p x = false) l → List.filter p l = [].
Proof. induction 1 as [|x l E _ IH]; simpl; [done|]. by rewrite E. Qed.
Lemma closed_again u s s' r who k : closed u s s' r → is_Some (match order_principal who with Ok p => Some p | Err _ => None end) →
  VoidForDeletedUser true who k u s' = (Ok (mkVoidResult 0 dec_zero dec_zero 0 dec_zero), s').
Proof.
  intros Hc [p Hp]. destruct (order_principal who) as [q|] eqn:Eq; [|done]. clear Hp p. destruct Hc as [(Hg & Hf & Ht) _ He Hw Ha _ Hav _ _ _].
  destruct s' as [l c]. simpl in *.
  assert (Ew : ctab (LockInFlightWithdrawals u) (l, c) = (Ok [], (l, c))).
  { unfold ctab, zoom, LockInFlightWithdrawals, gets. simpl. change (λ w, (wd_UserID w =? u)%N && in_flight w) with (flying u). by rewrite filter_none. }
  assert (Ep : ctab (LockPendingEntriesOf u) (l, c) = (Ok [], (l, c))).
  { unfold ctab, zoom, LockPendingEntriesOf, gets. simpl. change (λ e, (ce_Referrer e =? u)%N && entry_is EntryPending e) with (waiting u). by rewrite filter_none. }
  assert (Ecl : ctab_fk (λ F, ClearAutoTransferOf F u) (l, c) = (Ok 0, (l, c))).
  { set (hit := λ e, (ce_Referrer e =? u)%N && ce_AutoTransferDue e) in *. pose proof (filter_none hit _ Ha) as En.
    assert (Eu : upd hit auto_cleared (c_entries c) = c_entries c) by by apply no_hit_upd.
    assert (Hall : ∀ q : Entry → bool, forallb (λ e, negb (hit e) || q e) (c_entries c) = true).
    { intros qq. apply forallb_forall. intros e Hin%list_elem_of_In. rewrite Forall_forall in Ha. unfold hit. by rewrite (Ha _ Hin). }
    unfold ctab_fk, ctab, zoom, ClearAutoTransferOf, update_entries. fold hit. simpl. rewrite !Hall, Eu, (tk_unique _ Ht). simpl.
    unfold hits. rewrite En. destruct c. unfold set_entries. simpl in *. by rewrite Eu. }
  destruct (available u c) as [[a|e] c1] eqn:Eav; [|done].
  assert (Ea : ctab (available u) (l, c) = (Ok a, (l, c1))) by (unfold ctab, zoom; cbn [fst snd]; by rewrite Eav).
  apply available_val in Eav as [-> Eav].
  assert (Hz : (val a == 0)%Q).
  { rewrite Eav. unfold spendable. rewrite no_flying_sum by done. rewrite <- (fd_available _ _ Hf u). simpl in *. rewrite Hav. lra. }
  unfold VoidForDeletedUser. erewrite (M_bind_eq (lift _)) by (unfold lift; by rewrite Eq). unfold comm_tx, Do.
  rewrite (M_bind_eq _ _ _ _ _ Ew). cbv beta. cbn [existsb]. cbv iota. erewrite (M_bind_eq (reject_all _ _ _)) by done.
  rewrite (M_bind_eq _ _ _ _ _ Ep). erewrite (M_bind_eq (void_all _ _ _ _)) by done. rewrite (M_bind_eq _ _ _ _ _ Ecl), (M_bind_eq _ _ _ _ _ Ea).
  destruct (IsPositive_spec a); [lra|]. done.
Qed.
Lemma VoidForDeletedUser_safe inTx who k u : safe (VoidForDeletedUser inTx who k u).
Proof. intros s r s' Hs H. apply VoidForDeletedUser_Ok in H; [|done]. by destruct H. Qed.
End CommClose.
