(* ===== verification/CommHistory.v ===== *)
(** The shop with its commission module: the hook of a paid order is the
    module's, and between the shop's steps come the module's own.  It is a good
    neighbour of orders and payments, and they of it. *)
From Stdlib Require Import ZArith QArith Lqa Lia.
From stdpp Require Import base tactics list gmap strings sorting relations.
From S2P Require Import Prelude Safety Decimal GoString Money GoTime LedgerTypes LedgerFacts Ledger LedgerInv LedgerOps Promo Period OrderAmounts Proration.
From S2P Require Import SubTypes SubStore SubHistory OrderStore OrderFlow OrderInv OrderLife OrderHistory Frame PayStore PayFlow PayInv PayRecord PayHistory PayFrame.
From S2P Require Import CommStore CommFlow CommInv CommOps CommSteps CommAccrue.
#[local] Open Scope string_scope.
#[local] Open Scope Z_scope.

Section CommHistory.
Context `{DL : DecimalLib} (env : Call → CommEnv).

(** * What the shop sees of the module *)

Section Decent.
Abbreviation lgood := (λ s : ledger * comm, good s.1).
Abbreviation apart := (λ s s' : ledger * comm, aloof s.1 s'.1).
#[local] Instance apart_preorder : PreOrder apart.
Proof. split; [by intros s|]. intros a b c H1 H2. simpl in *. by etrans. Qed.
Abbreviation decent := (keeps (E := oerr) lgood apart).

Lemma ctab_decent {A} (m : M comm oerr A) : decent (ctab m).
Proof. by intros s a s' Hs (c' & H & ->)%zoom_Ok. Qed.
Lemma ctab_fk_decent {A} (f : refs → M comm oerr A) : decent (ctab_fk f).
Proof. intros s a s' Hs H. by eapply ctab_decent. Qed.
Lemma move_decent c p from to amt : p_Legs p = move_legs from to amt → outside_type from → outside_type to → decent (cled (Post c p)).
Proof. intros Hl Hf Ht s a s' Hs (l' & H & ->)%zoom_Ok. eapply Post_moved in H as HM; [|done..]. by destruct HM. Qed.
Lemma post_decent c k st id memo from to amt : outside_type from → outside_type to →
  decent (cled (Post c (mkPosting k st id memo (move_legs from to amt)))).
Proof. by eapply move_decent. Qed.
Hint Resolve ctab_decent ctab_fk_decent : frame.
Ltac decently := auto with frame; try (apply keeps_map_err); try (by apply post_decent).

Lemma RequestWithdrawal_decent inTx k u amt m d : decent (RequestWithdrawal env inTx k u amt m d).
Proof. unfold RequestWithdrawal, comm_tx. cbv zeta. keeps_walk; decently. Qed.
Lemma ReviewWithdrawal_decent inTx who k id ap reason : decent (ReviewWithdrawal env inTx who k id ap reason).
Proof. unfold ReviewWithdrawal, comm_tx. cbv zeta. keeps_walk; decently. Qed.
Lemma MarkWithdrawalPaid_decent inTx who k id ref usdt : decent (MarkWithdrawalPaid env inTx who k id ref usdt).
Proof. unfold MarkWithdrawalPaid, comm_tx. cbv zeta. keeps_walk; decently. Qed.
Lemma TransferToBalance_decent inTx who k u amt : decent (TransferToBalance env inTx who k u amt).
Proof. unfold TransferToBalance, comm_tx. keeps_walk; decently. Qed.
Lemma ReviewEntry_decent inTx who k id ap reason : decent (ReviewEntry env inTx who k id ap reason).
Proof. unfold ReviewEntry, comm_tx. keeps_walk; decently. Qed.
Lemma VoidForDeletedUser_decent inTx who k u : decent (VoidForDeletedUser inTx who k u).
Proof.
  assert (Hr : ∀ by_ l, decent (reject_all k by_ l)) by (intros by_ l; induction l; simpl; keeps_walk; decently).
  assert (Hv : ∀ by_ l, decent (void_all who k by_ l)).
  { intros by_ l. induction l; simpl; keeps_walk; auto. all: unfold voidPendingForDeleted; keeps_walk; decently. }
  unfold VoidForDeletedUser, comm_tx, forfeitAvailable. keeps_walk; decently.
Qed.
Lemma SetOverride_decent inTx who k i : decent (SetOverride env inTx who k i).
Proof. unfold SetOverride, comm_tx. destruct (validateOverrideInput i) as [? []]; keeps_walk; decently. Qed.
Lemma DeleteOverride_decent inTx who k u : decent (DeleteOverride inTx who k u).
Proof. unfold DeleteOverride, comm_tx. keeps_walk; decently. Qed.
Lemma OnOrderPaid_decent call : decent (OnOrderPaid env call).
Proof.
  destruct call as [[who k] o].
  assert (Ha : ∀ r f l, decent (accrue_all env who k o r f l)).
  { intros r f l. induction l; simpl; keeps_walk; decently; done. }
  unfold OnOrderPaid, comm_tx. keeps_walk; auto with frame.
Qed.

(** The job, whatever a turn answers. *)
Definition decent_run {A} (m : M (ledger * comm) oerr A) : Prop := ∀ s, good s.1 → good (m s).2.1 ∧ aloof s.1 (m s).2.1.
Lemma run_tx {A} (m : M (ledger * comm) oerr A) : decent m → decent_run (comm_tx false m).
Proof.
  intros Hm s Hs. destruct (comm_tx false m s) as [r s'] eqn:E. unfold comm_tx in E. by eapply (safe_commit lgood apart).
Qed.
Lemma run_bind {A B} (m : M (ledger * comm) oerr A) (f : A → M (ledger * comm) oerr B) : decent_run m → (∀ a, decent_run (f a)) → decent_run (m ≫= f).
Proof.
  intros Hm Hf s Hs. unfold mbind, M_bind. specialize (Hm s Hs). destruct (m s) as [[a|e] s1]; simpl in Hm; [|done].
  destruct Hm as [H1 L1]. destruct (Hf a s1 H1) as [H2 L2]. split; [done|by etrans].
Qed.
Lemma run_outcome {A} (m : M (ledger * comm) oerr A) : decent_run m → decent_run (outcome m).
Proof. intros Hm s Hs. unfold outcome. specialize (Hm s Hs). by destruct (m s). Qed.
Lemma run_reads {A} (m : M (ledger * comm) oerr A) : (∀ s, (m s).2.1 = s.1) → decent_run m.
Proof. intros Hm s Hs. rewrite Hm. done. Qed.

Lemma quarantine_decent e reason : decent (quarantine_entry e reason).
Proof. unfold quarantine_entry. keeps_walk; auto with frame. Qed.
Lemma settleOne_run k locked id auto : decent_run (settleOne env k locked id auto).
Proof.
  apply run_tx. apply keeps_bind; [apply _|apply ctab_decent|intros [e|]]; [|apply keeps_ret, _]. destruct (negb _); [apply keeps_ret, _|].
  apply keeps_bind; [apply _|apply keeps_lift, _|intros gone]. destruct gone; [apply quarantine_decent|].
  intros [l c] a s' Hs H. unfold mbind at 1, M_bind at 1, outcome in H. destruct (cled _ (l, c)) as [[txn|x] s1] eqn:EP.
  - destruct (post_decent (joined None) KindCommissionSettled SourceCommissionEntry (ce_ID e) "佣金解冻" (pending_of (ce_Referrer e))
      (available_of (ce_Referrer e)) (ce_Amount e)) with (s := (l, c)) (a := txn) (s' := s1) as [H1 L1]; [by split..|done|done|].
    match type of H with ?m s1 = _ => assert (Hm : decent m) by (keeps_walk; auto with frame) end.
    destruct (Hm _ _ _ H1 H) as [H2 L2]. split; [done|by etrans].
  - unfold cled, zoom in EP. destruct (Post _ _ _) as [[?|le] l1] eqn:EP'; [done|]. injection EP as <- <-.
    destruct le; try done. apply Post_short in EP' as (Hg & Ha & _); [|done]. destruct (quarantine_decent _ _ (l1, c) _ _ Hg H) as [H1 L1]. split; [done|by etrans].
Qed.
Lemma autoTransferOne_run k locked id auto : decent_run (autoTransferOne env k locked id auto).
Proof. apply run_tx. keeps_walk; decently. Qed.
Lemma SettleDue_run k ks kt c1 c2 mid locked limit : decent_run (SettleDue env k ks kt c1 c2 mid locked limit).
Proof.
  assert (Hs : ∀ auto ids st first, decent_run (settle_all env ks c1 locked auto ids st first)).
  { intros auto ids. induction ids as [|id ids IH]; intros st first; simpl; [by apply run_reads|]. destruct (c1 id); [by apply run_reads|].
    apply run_bind; [apply run_outcome, settleOne_run|done]. }
  assert (Ht : ∀ auto ids st first, decent_run (transfer_all env kt c2 locked auto ids st first)).
  { intros auto ids. induction ids as [|id ids IH]; intros st first; simpl; [by apply run_reads|]. destruct (c2 id); [by apply run_reads|].
    apply run_bind; [apply run_outcome, autoTransferOne_run|done]. }
  unfold SettleDue. cbv zeta. apply run_bind; [by apply run_reads|intros wd]. apply run_bind; [by apply run_reads|intros ids].
  apply run_bind; [done|intros [[st first] going]]. destruct (negb going); [by apply run_reads|]. destruct mid; [by apply run_reads|].
  apply run_bind; [by apply run_reads|intros due]. apply run_bind; [done|intros rest]. by apply run_reads.
Qed.
End Decent.

(** * Histories *)

Section Shop.
Context (B : OrderEnv comm) (providers : gset uuid).
Context (audit_Write : audit_event → result lerr ()) (IsDeleted : uuid → result lerr bool).

(** The shop's surroundings with this module's hook of a paid order. *)
Definition commissioned : OrderEnv comm :=
  mkOrderEnv (oe_sub B) (oe_promo B) (PlanStatuses B) (PriceDays B) (OrderStore.MinPayment B) (PurchaseLimits B) (UserDeleted B) (EmitOrder B)
    (CloseOrderIntents B) (Some (OnOrderPaid env)).

(** What happens between the shop's steps: entries by the ledger's own requests
    away from these modules' accounts, and the requests and jobs of this one. *)
Definition elsewhere (o : op) : Prop :=
  foreign_entry o ∧ match o with OpPost _ p => avoids commission_type (p_Legs p) | _ => True end.
Inductive around (s : ledger * comm) : ledger * comm → Prop :=
| ar_entry o : elsewhere o → around s (run audit_Write IsDeleted o s.1, s.2)
| ar_request k u amount method detail : around s (comm_tx false (RequestWithdrawal env true k u amount method detail) s).2
| ar_review who k id approve reason : around s (comm_tx false (ReviewWithdrawal env true who k id approve reason) s).2
| ar_paid who k id ref usdt : around s (comm_tx false (MarkWithdrawalPaid env true who k id ref usdt) s).2
| ar_transfer who k u amount : around s (comm_tx false (TransferToBalance env true who k u amount) s).2
| ar_settle k ks kt c1 c2 mid locked limit : around s (SettleDue env k ks kt c1 c2 mid locked limit s).2
| ar_review_entry who k id approve reason : around s (comm_tx false (ReviewEntry env true who k id approve reason) s).2
| ar_close who k u : around s (comm_tx false (VoidForDeletedUser true who k u) s).2
| ar_set_terms who k i : around s (comm_tx false (SetOverride env true who k i) s).2
| ar_drop_terms who k u : around s (comm_tx false (DeleteOverride true who k u) s).2.

Lemma run_elsewhere o l : elsewhere o → good l → good (run audit_Write IsDeleted o l) ∧ aloof l (run audit_Write IsDeleted o l) ∧
  steady commission_type l (run audit_Write IsDeleted o l).
Proof.
  intros [Ho Ha] Hl. destruct (run_foreign audit_Write IsDeleted o l Ho Hl) as (Hg & Hh & Hs). split_and!; [done|by split|].
  destruct (run_cases audit_Write IsDeleted o l (proj1 Ho)) as [->|[(who & p & id & -> & E)|(who & a & r & -> & E)]]; [done| |].
  - eapply (Post_steady commission_type); [exact Ha|apply Ho|exact Hl|exact E].
  - eapply (AdjustBalance_steady commission_type); [apply Hl|exact E].
Qed.
Lemma comm_ok_steady l l' c : comm_ok (l, c) → good l' → steady commission_type l l' → comm_ok (l', c).
Proof.
  intros (Hg & [H1 H2 H3] & Ht) Hg' Hs. split_and!; [done| |done]. split; [..|done]; intros u.
  - rewrite <- H1. apply Hs; [by apply comm_key_check; left|by left].
  - rewrite <- H2. apply Hs; [by apply comm_key_check; right|by right].
Qed.

(** The module promises the shop what it asks of its neighbours. *)
#[global] Instance commission_neighbour : GoodNeighbours commissioned around.
Proof.
  split.
  - intros hook c [= <-] l z a l' z' Hg H. destruct (OnOrderPaid_decent c (l, z) a (l', z') Hg H) as [H1 [H2 H3]]. done.
  - intros s s' [o Ho| | | | | | | | |] Hg; [by destruct (run_elsewhere o s.1 Ho Hg) as (? & [] & _)|..];
      match goal with |- context [(?m s).2] => assert (Hr : decent_run m); [|destruct (Hr s Hg) as [? []]; done] end;
      first [apply SettleDue_run|apply run_tx].
    + apply RequestWithdrawal_decent.
    + apply ReviewWithdrawal_decent.
    + apply MarkWithdrawalPaid_decent.
    + apply TransferToBalance_decent.
    + apply ReviewEntry_decent.
    + apply VoidForDeletedUser_decent.
    + apply SetOverride_decent.
    + apply DeleteOverride_decent.
Qed.

(** And the shop keeps what the module promises. *)
Definition comm_grows (s s' : ledger * comm) : Prop := comm_life s.2 s'.2.
#[global] Instance comm_grows_preorder : PreOrder comm_grows.
Proof. split; [by intros s|]. intros a b c H1 H2. unfold comm_grows in *. by etrans. Qed.
Lemma around_keeps s s' : comm_ok s → around s s' → comm_ok s' ∧ comm_grows s s'.
Proof.
  intros Hs H. destruct H as [o Ho| | | | | | | | |].
  - destruct s as [l c]. destruct (run_elsewhere o l Ho (proj1 Hs)) as (Hg & _ & Hst). split; [by eapply comm_ok_steady|]. unfold comm_grows. done.
  - destruct (comm_commits_tx _ (RequestWithdrawal_safe env true k u amount method detail) s _ _ Hs (surjective_pairing _)) as [? []]. done.
  - destruct (comm_commits_tx _ (ReviewWithdrawal_safe env true who k id approve reason) s _ _ Hs (surjective_pairing _)) as [? []]. done.
  - destruct (comm_commits_tx _ (MarkWithdrawalPaid_safe env true who k id ref usdt) s _ _ Hs (surjective_pairing _)) as [? []]. done.
  - destruct (comm_commits_tx _ (TransferToBalance_safe env true who k u amount) s _ _ Hs (surjective_pairing _)) as [? []]. done.
  - destruct (SettleDue_commits env k ks kt c1 c2 mid locked limit s _ _ Hs (surjective_pairing _)) as [? []]. done.
  - destruct (comm_commits_tx _ (ReviewEntry_safe env true who k id approve reason) s _ _ Hs (surjective_pairing _)) as [? []]. done.
  - destruct (comm_commits_tx _ (VoidForDeletedUser_safe true who k u) s _ _ Hs (surjective_pairing _)) as [? []]. done.
  - destruct (comm_commits_tx _ (SetOverride_safe env true who k i) s _ _ Hs (surjective_pairing _)) as [? []]. done.
  - destruct (comm_commits_tx _ (DeleteOverride_safe true who k u) s _ _ Hs (surjective_pairing _)) as [? []]. done.
Qed.
Lemma comm_frames : frames commission_type (my_I comm_ok) (my_R comm_grows).
Proof.
  split.
  - intros [l [p c]] Hs. apply Hs.
  - intros l l' [p c] Hs Hg Hst. unfold my_I, my_R, mine in *. simpl in *. split; [by eapply comm_ok_steady|]. unfold comm_grows. done.
Qed.

Definition part_of (w : world (pay * comm)) : ledger * comm := (w_ledger w, (w_ext w).2).
Lemma shop_step_comm w w' : comm_ok (part_of w) → shop_step commissioned providers around w w' → comm_ok (part_of w') ∧ comm_grows (part_of w) (part_of w').
Proof.
  apply (shop_step_part commissioned providers around commission_type).
  - by intros [?|?].
  - apply _.
  - apply comm_frames.
  - intros hook c [= <-] s a s' Hs H. destruct (OnOrderPaid_safe env c s a s' Hs H) as [? []]. done.
  - apply around_keeps.
Qed.
Lemma new_comm_ok us n : comm_ok (part_of (new_shop us n empty_comm)).
Proof.
  pose proof (new_shop_ok commissioned us n empty_comm) as [[Hk _] _]. split_and!; [apply Hk| |].
  - split; intros u; unfold bal, pending_sum, owed, spendable, owed, settled_sum, inflight_sum, paid_sum, moved_sum, lost_sum, over; simpl;
      rewrite ?lookup_empty; lra.
  - split; simpl; try done; try (by intros x Hx%elem_of_nil); split; [constructor|by intros x Hx%elem_of_nil|constructor|by intros x Hx%elem_of_nil].
Qed.
Lemma comm_history us n w w' : rtc (shop_step commissioned providers around) (new_shop us n empty_comm) w →
  rtc (shop_step commissioned providers around) w w' → comm_ok (part_of w) ∧ comm_ok (part_of w') ∧ comm_life (w_ext w).2 (w_ext w').2.
Proof.
  set (R := λ w w', comm_grows (part_of w) (part_of w')).
  assert (PreOrder R) by (split; [intros x; unfold R; reflexivity|intros x y z H1 H2; unfold R in *; by etrans]).
  intros H1 H2. destruct (history_keeps (λ w, comm_ok (part_of w)) R _ _ _ shop_step_comm (new_comm_ok us n) H1) as [Hw _].
  destruct (history_keeps (λ w, comm_ok (part_of w)) R _ _ _ shop_step_comm Hw H2) as [Hw' L]. done.
Qed.
End Shop.
End CommHistory.
