(* ===== verification/CommThms.v ===== *)
(** What the commission module promises: over every history of the shop its two
    accounts per user agree with its tables to the cent and cover what is
    promised; rows keep their terms and end once; an order pays its line of
    referrals exactly once and at most its commission; a withdrawal is granted
    exactly on its grounds and paid once; closing an account leaves nothing. *)
From Stdlib Require Import ZArith QArith Lqa Lia.
From stdpp Require Import base tactics list gmap strings sorting relations.
From S2P Require Import Prelude Safety Decimal GoString Money GoTime LedgerTypes LedgerFacts Ledger LedgerInv LedgerOps LedgerProgress LedgerThms Promo Period OrderAmounts Proration.
From S2P Require Import SubTypes SubStore OrderStore OrderFlow OrderInv Frame PayStore PayFlow PayInv PayHistory.
From S2P Require Import CommStore CommFlow CommInv CommOps CommSteps CommAccrue CommHistory.
#[local] Open Scope string_scope.
#[local] Open Scope Z_scope.

Section CommThms.
Context `{DL : DecimalLib} (env : Call → CommEnv) (B : OrderEnv comm) (providers : gset uuid).
Context (audit_Write : audit_event → result lerr ()) (IsDeleted : uuid → result lerr bool).
Abbreviation shop_step := (shop_step (commissioned env B) providers (around env audit_Write IsDeleted)).
Abbreviation comm_of w := ((w_ext w).2).

(** * Over every history *)

(** C3: commissions are conserved.  In every state the shop can reach, with
    orders, payments and commissions in any order, a user's pending account
    holds exactly the entries still pending, the available account exactly what
    has settled less what was paid out, moved to the balance or forfeited, and
    what the module tells the user is available is that less the withdrawals
    under way, and never negative. *)
Theorem commissions_conserved us n w u :
  rtc shop_step (new_shop us n empty_comm) w →
  (bal (w_ledger w) (pending_key u) == pending_sum u (comm_of w))%Q ∧
  (bal (w_ledger w) (available_key u) == settled_sum u (comm_of w) - paid_sum u (comm_of w) - moved_sum u (comm_of w) - lost_sum u (comm_of w))%Q ∧
  (∃ a, available u (comm_of w) = (Ok a, comm_of w) ∧ (0 <= val a)%Q ∧
        (val a + inflight_sum u (comm_of w) == bal (w_ledger w) (available_key u))%Q).
Proof.
  intros H. destruct (comm_history env B providers audit_Write IsDeleted us n w w H (rtc_refl _ _)) as ((_ & [H1 H2 H3] & _) & _ & _).
  split; [apply H1|]. split; [apply H2|]. destruct (available u (comm_of w)) as [[a|e] c'] eqn:E; [|done].
  apply available_val in E as [-> Ha]. exists a. split; [done|]. rewrite Ha. split; [apply H3|]. specialize (H2 u). simpl in H2. rewrite H2.
  unfold spendable. lra.
Qed.

(** C12: rows keep their terms and end once.  Between any two moments of a history
    entries and withdrawals stay where they are with their terms, transfers and
    forfeitures are only appended; an entry that has settled or was voided
    stays so with the transaction it ended with; a withdrawal moves along
    requested, approved, paid or requested, rejected, and one that was paid or
    rejected never changes at all. *)
Theorem commissions_follow_life us n w w' :
  rtc shop_step (new_shop us n empty_comm) w → rtc shop_step w w' →
  (∀ i e, c_entries (comm_of w) !! i = Some e → ∃ e', c_entries (comm_of w') !! i = Some e' ∧ entry_terms e' = entry_terms e ∧
     (ce_Status e ≠ EntryPending → entry_end e' = entry_end e)) ∧
  (∀ i x, c_withdrawals (comm_of w) !! i = Some x → ∃ x', c_withdrawals (comm_of w') !! i = Some x' ∧ withdrawal_terms x' = withdrawal_terms x ∧
     rtc withdrawal_move (wd_Status x) (wd_Status x') ∧ (in_flight x = false → x' = x)) ∧
  c_transfers (comm_of w) `prefix_of` c_transfers (comm_of w') ∧ c_forfeitures (comm_of w) `prefix_of` c_forfeitures (comm_of w').
Proof.
  intros H1 H2. destruct (comm_history env B providers audit_Write IsDeleted us n w w' H1 H2) as (_ & _ & [L1 L2 L3 L4 _]).
  split_and!; [|exact L2|done..]. intros i e He. destruct (L1 _ _ He) as (e' & He' & T & E). exists e'. split_and!; [done..|].
  intros Hs. destruct E as [E|C]; [done|]. exfalso. apply Hs. by eapply pending_to.
Qed.

(** Every row of the module's tables passes its table's constraints in every
    state the shop can reach: amounts follow the formula of their terms, shapes
    fit the status, an order has one entry per level and per beneficiary, and
    nobody has two withdrawals under way. *)
Theorem commission_rows_typed us n w :
  rtc shop_step (new_shop us n empty_comm) w →
  (∀ e, e ∈ c_entries (comm_of w) → commission_check e = true) ∧ entries_unique (c_entries (comm_of w)) = true ∧
  (∀ x, x ∈ c_withdrawals (comm_of w) → withdrawal_check x = true) ∧ NoDup (map wd_UserID (List.filter in_flight (c_withdrawals (comm_of w)))) ∧
  NoDup (map ce_ID (c_entries (comm_of w))) ∧ NoDup (map wd_ID (c_withdrawals (comm_of w))).
Proof.
  intros H. destruct (comm_history env B providers audit_Write IsDeleted us n w w H (rtc_refl _ _)) as ((_ & _ & [H1 H2 H3 H4 _ _ [H5 _] [H6 _]]) & _ & _).
  unfold withdrawals_unique in H4. apply andb_true_iff in H4 as [_ H4%bool_decide_eq_true]. done.
Qed.

(** * Funds *)

Lemma over_nonneg {A} (q : A → Q) l : (∀ x, x ∈ l → 0 <= q x)%Q → (0 <= over q l)%Q.
Proof. intros H. apply Qsum_nonneg, Forall_forall. intros z (x & -> & Hx)%list_elem_of_fmap. by apply H. Qed.
Lemma over_part {A} (q : A → Q) l x : (∀ x, x ∈ l → 0 <= q x)%Q → x ∈ l → (q x <= over q l)%Q.
Proof.
  intros H (a & b & ->)%list_elem_of_split. rewrite over_app. unfold over at 2. simpl. fold (over q b).
  pose proof (over_nonneg q a (λ y Hy, H y (proj2 (elem_of_app _ _ _) (or_introl Hy)))).
  pose proof (over_nonneg q b (λ y Hy, H y (proj2 (elem_of_app _ _ _) (or_intror (list_elem_of_further _ _ _ Hy))))). lra.
Qed.
Lemma entry_positive c e : tables_ok c → e ∈ c_entries c → (0 < val (ce_Amount e))%Q.
Proof.
  intros Hc He. pose proof (tk_entries _ Hc _ He) as H. unfold commission_check in H. rewrite !andb_true_iff in H. destruct_and?.
  by destruct (IsPositive_spec (ce_Amount e)).
Qed.
Lemma user_nonneg l t u : good l → UserOwned t = true → (0 <= bal l (keyOf (UserAccount t u)))%Q.
Proof.
  intros [Hok _] Ht. unfold bal. destruct (accounts l !! _) as [r|] eqn:E; [|lra]. eapply (ok_nonneg _ Hok); [exact E|]. unfold keyOf. simpl. by rewrite Ht.
Qed.
(** A posting from a commission account that holds the amount. *)
Lemma funded k st id memo t u to amt l : good l → commission_type t → (val amt <= bal l (keyOf (UserAccount t u)))%Q →
  (0 < val amt)%Q → (∃ t' u', to = UserAccount t' u' ∧ t' ≠ t ∧ UserOwned t' = true ∧ DebitNormal t' = false) ∨ UserOwned (ref_Type to) = false →
  sufficient (mkPosting k st id memo (move_legs (UserAccount t u) to amt)) l = true.
Proof.
  intros Hg Ht Hle H0 Hto. unfold sufficient. simpl. assert (Ho : UserOwned t = true) by (by destruct Ht as [->| ->]).
  assert (Hne : to ≠ UserAccount t u).
  { destruct Hto as [(t' & u' & -> & Hd & _)|Hd]; [by intros [= ? ?]|]. intros ->. simpl in Hd. congruence. }
  rewrite Ho. simpl. rewrite andb_true_r. apply andb_true_iff. split.
  - apply Qle_bool_iff. rewrite delta_move by done. unfold share_of. rewrite (decide_False (P := to = _)) by done. rewrite decide_True by done. lra.
  - destruct Hto as [(t' & u' & -> & Hd & Eo & Ed)|Hd]; [|by rewrite Hd]. simpl. rewrite Eo. simpl. apply Qle_bool_iff.
    pose proof (user_nonneg l t' u' Hg Eo). unfold move_legs. rewrite !delta_on_cons, delta_on_nil, on_ref_false by (simpl; by apply not_eq_sym).
    rewrite on_ref_true by done. unfold leg_delta, signedDelta. simpl. rewrite Ed. simpl. lra.
Qed.

(** The postings the module owes: the settlement or the voiding of a pending
    entry, the payout of a withdrawal under way, and the transfer or forfeiture
    of what is spendable. *)
Inductive owed_posting (c : comm) : Posting → Prop :=
| ow_settle e : e ∈ c_entries c → ce_Status e = EntryPending → owed_posting c (settle_posting e)
| ow_void e memo : e ∈ c_entries c → ce_Status e = EntryPending → owed_posting c (void_posting e memo)
| ow_payout w : w ∈ c_withdrawals c → in_flight w = true → owed_posting c (payout_posting w)
| ow_transfer id u amt memo : (0 < val amt <= spendable u c)%Q → owed_posting c (transfer_posting id u amt memo)
| ow_forfeit id u amt : (0 < val amt <= spendable u c)%Q → owed_posting c (forfeit_posting id u amt).
Lemma pending_covers l c e : comm_ok (l, c) → e ∈ c_entries c → ce_Status e = EntryPending →
  (0 < val (ce_Amount e) <= bal l (keyOf (pending_of (ce_Referrer e))))%Q.
Proof.
  intros (_ & Hf & Ht) He Es. split; [by eapply entry_positive|]. simpl in *. fold (pending_key (ce_Referrer e)). rewrite (fd_pending _ _ Hf). unfold pending_sum.
  eapply Qle_trans; [|eapply over_part; [|exact He]].
  - unfold counted. rewrite N.eqb_refl, (proj2 (entry_is_true _ _) Es). simpl. lra.
  - intros x Hx. unfold counted. pose proof (entry_positive _ _ Ht Hx). destruct (_ && _); lra.
Qed.
Lemma available_covers l c w : comm_ok (l, c) → w ∈ c_withdrawals c → in_flight w = true →
  (0 < val (wd_Amount w) <= bal l (keyOf (available_of (wd_UserID w))))%Q.
Proof.
  intros (_ & Hf & Ht) Hw Ef. split; [by eapply withdrawal_positive|]. simpl in *. fold (available_key (wd_UserID w)). rewrite (fd_available _ _ Hf).
  pose proof (fd_covered _ _ Hf (wd_UserID w)) as Hc. unfold spendable in Hc.
  assert (val (wd_Amount w) <= inflight_sum (wd_UserID w) c)%Q; [|lra]. unfold inflight_sum.
  eapply Qle_trans; [|eapply over_part; [|exact Hw]].
  - unfold counted. rewrite N.eqb_refl, Ef. simpl. lra.
  - intros x Hx. unfold counted. pose proof (withdrawal_positive _ _ Ht Hx). destruct (_ && _); lra.
Qed.
Lemma spendable_covers l c u amt : comm_ok (l, c) → (0 < val amt <= spendable u c)%Q → (val amt <= bal l (keyOf (available_of u)))%Q.
Proof.
  intros (_ & Hf & Ht) [_ Hle]. simpl in *. fold (available_key u). rewrite (fd_available _ _ Hf). unfold spendable in Hle.
  assert (0 <= inflight_sum u c)%Q; [|lra]. apply over_nonneg. intros x Hx. unfold counted. pose proof (withdrawal_positive _ _ Ht Hx). destruct (_ && _); lra.
Qed.
Lemma owed_sufficient l c p : comm_ok (l, c) → owed_posting c p → sufficient p l = true.
Proof.
  intros Hs H. pose proof (proj1 Hs) as Hg. simpl in Hg. destruct H as [e He Es|e memo He Es|w Hw Hf|id u amt memo Ha|id u amt Ha];
    (apply funded; [done|by (left + right)|..]).
  1, 4: by destruct (pending_covers _ _ _ Hs He Es). 1, 3: by destruct (pending_covers _ _ _ Hs He Es).
  1: left; by eexists _, _. 1: by right.
  1, 2: by destruct (available_covers _ _ _ Hs Hw Hf). 1: by right.
  1, 4: by eapply spendable_covers. 1, 3: by destruct Ha. 1: left; by eexists _, _. by right.
Qed.

(** C13: the money is always there.  In every state the shop can reach, each posting
    the module owes goes through as soon as the ledger has no other reason to
    refuse it ([post_ready]: well formed, not made before, within the columns'
    range): no pending entry, withdrawal under way or spendable amount is ever
    short of funds. *)
Theorem commission_always_funded us n w who p :
  rtc shop_step (new_shop us n empty_comm) w → owed_posting (comm_of w) p → post_ready p (w_ledger w) → Dedicated (p_Kind p) = false →
  ∃ id l', Post (joined who) p (w_ledger w) = (Ok id, l').
Proof.
  intros H Hp Hr Hd. destruct (comm_history env B providers audit_Write IsDeleted us n w w H (rtc_refl _ _)) as (Hs & _ & _).
  pose proof (postChecked_decided (joined who) p (w_ledger w) (proj1 (proj1 Hs)) Hr) as HD.
  rewrite (owed_sufficient _ _ _ Hs Hp) in HD. destruct HD as (id & l' & HD). exists id, l'. unfold Post. rewrite Hd. exact HD.
Qed.

(** * Accrual *)

Lemma accrued_referrers k o r f l new : Forall2 (accrued env k o r f) l new → map ce_Referrer new = map bf_UserID l.
Proof. induction 1 as [|b e l new He _ IH]; simpl; [done|]. by rewrite IH, (proj1 (ac_who _ _ _ _ _ _ _ He)). Qed.

(** C14: an order pays its line of referrals once and at most its commission.  When
    the hook of a paid order succeeds it changed nothing, or it appended, for
    an order that had none, one pending entry for each person up the line who
    earns (a different one each, never the buyer), with the amount of the
    person's level, all together no more than the commission of the order's
    total; and an order that has entries never gets more. *)
Theorem order_accrues_once who k o s s' :
  comm_ok s → OnOrderPaid env (who, k, o) s = (Ok (), s') →
  (s' = s ∨ ∃ new, c_entries s'.2 = (c_entries s.2 ++ new)%list ∧ earned env k o s.2 new ∧
     NoDup (map ce_Referrer new) ∧ po_UserID o ∉ map ce_Referrer new) ∧
  (Exists (λ e, ce_OrderID e = po_OrderID o) (c_entries s.2) → s' = s).
Proof.
  intros Hs H. apply OnOrderPaid_Ok in H as (_ & _ & [->|(new & En & He)]); [split; [by left|done]| |done]. split.
  - right. exists new. split_and!; [done..| |].
    all: destruct He as [(d & cfg & dist & path & whole & _ & _ & _ & _ & He) _]; cbv zeta in He; destruct He as (_ & _ & _ & _ & Hl & HF & _);
      rewrite (accrued_referrers _ _ _ _ _ _ HF); destruct (line_distinct _ _ _ _ _ _ Hl) as [Hnd Hns].
    + apply NoDup_filter_map. by apply paid_distinct.
    + intros (b & Eb & [_ Hb%paid_users]%elem_of_filter_bool)%list_elem_of_fmap. apply (Hns _ Hb). rewrite <- Eb. constructor.
  - intros Hex. exfalso. destruct He as [_ Hfirst]. apply Exists_exists in Hex as (e & He & Ee). rewrite Forall_forall in Hfirst. by apply (Hfirst e).
Qed.

(** * Closing an account *)

(** C15: closing an account leaves no commission behind.  When it succeeds, both
    commission accounts are at zero, no entry is pending or marked for
    transfer and no withdrawal under way; what was voided and forfeited is
    exactly what the accounts held, what was rejected exactly what was under
    way; and a second call finds nothing and changes nothing. *)
Theorem closing_leaves_nothing inTx who k u s r s' who' k' p' :
  comm_ok s → VoidForDeletedUser inTx who k u s = (Ok r, s') → order_principal who' = Ok p' →
  closed u s s' r ∧ VoidForDeletedUser true who' k' u s' = (Ok (mkVoidResult 0 dec_zero dec_zero 0 dec_zero), s').
Proof.
  intros Hs H Hp. apply VoidForDeletedUser_Ok in H; [|done]. split; [done|]. eapply closed_again; [done|]. rewrite Hp. by eexists.
Qed.

(** * Withdrawals *)

(** On which a request is granted: a positive amount of whole cents, an open
    method with an account that fits it, an account that exists, withdrawals
    switched on and the least amount reached, no other withdrawal of the user
    under way, and the amount on the user's available account. *)
Record withdrawal_grounds (k : Call) (s : ledger * comm) (u : uuid) (amount : dec) (method detail payout : string) (sealed : list Z) : Prop := {
  wg_amount : (0 < val amount)%Q ∧ money_ok amount = true;
  wg_method : ValidWithdrawMethod (TrimSpace method) = true;
  wg_account : ValidatePayoutAccount (env_Sum256 (env k)) (env_Keccak256 (env k)) (TrimSpace method) detail = (payout, []);
  wg_user : AccountDeleted (env k) u = Ok false;
  wg_settings : ∃ wd cfg, decodeCommissionWithdraw (Values (env k)) = Ok wd ∧ decodeCommission (Values (env k)) = Ok cfg ∧
    cw_Enabled wd = true ∧ one_of (TrimSpace method) (cw_Methods wd) = true ∧ (val (cm_MinWithdraw cfg) <= val amount)%Q;
  wg_idle : Forall (λ w, flying u w = false) (c_withdrawals s.2);
  wg_funds : (val amount <= bal s.1 (available_key u))%Q;
  wg_sealed : SealPayout (env k) payout u = Ok sealed;
}.
Definition requested_row (k : Call) (c : comm) (u : uuid) (amount : dec) (method : string) (sealed : list Z) : Withdrawal :=
  mkWithdrawal (c_next c) u amount sealed (TrimSpace method) WithdrawalRequested None None None None None None None (k_db k) None.

Lemma idle_funds l c u : comm_ok (l, c) → Forall (λ w, flying u w = false) (c_withdrawals c) → (spendable u c == bal l (available_key u))%Q.
Proof. intros (_ & Hf & _) Hn. simpl in Hf. rewrite (fd_available _ _ Hf u). unfold spendable. rewrite no_flying_sum by done. lra. Qed.
Lemma validateWithdrawal_Ok k amount method detail payout : validateWithdrawal env k amount method detail = Ok payout ↔
  (0 < val amount)%Q ∧ money_ok amount = true ∧ ValidWithdrawMethod (TrimSpace method) = true ∧
  ValidatePayoutAccount (env_Sum256 (env k)) (env_Keccak256 (env k)) (TrimSpace method) detail = (payout, []).
Proof.
  unfold validateWithdrawal. cbv zeta. destruct (IsPositive_spec amount) as [Hp|Hp]; simpl.
  2: { destruct (if _ || _ then _ else _) as [a b]. split; [done|]. intros [? _]. lra. }
  assert (Hm : ValidWithdrawMethod (TrimSpace method) = true → String.eqb (TrimSpace method) "" = false).
  { destruct (String.eqb_spec (TrimSpace method) "") as [->|]; done. }
  destruct (ValidWithdrawMethod (TrimSpace method)) eqn:Ev; simpl.
  2: { rewrite orb_true_r. destruct (negb _); simpl; split; by try intros (_ & _ & ? & _). }
  rewrite (Hm eq_refl). simpl. destruct (money_ok amount); simpl.
  2: { destruct (ValidatePayoutAccount _ _ _ _) as [a b]. split; [done|]. by intros (_ & ? & _). }
  destruct (ValidatePayoutAccount _ _ _ _) as [a [|f b]]; split; [by intros [= <-]|by intros (_ & _ & _ & [= <-])|done|by intros (_ & _ & _ & ?)].
Qed.
Lemma rejectDeleted_Ok k u x : rejectDeleted env k u = Ok x ↔ AccountDeleted (env k) u = Ok false.
Proof. unfold rejectDeleted. destruct (AccountDeleted (env k) u) as [[]|]; simpl; destruct x; split; done. Qed.
Lemma in_flight_false u l : existsb (λ w, (wd_UserID w =? u)%N && in_flight w) l = false ↔ Forall (λ w, flying u w = false) l.
Proof. rewrite existsb_false, Forall_forall. done. Qed.

Lemma RequestWithdrawal_Ok inTx k u amount method detail s id s' : comm_ok s →
  RequestWithdrawal env inTx k u amount method detail s = (Ok id, s') →
  ∃ payout sealed, withdrawal_grounds k s u amount method detail payout sealed ∧ id = c_next s.2 ∧
    s' = (s.1, add_comm_audit ("withdrawal.requested", id) (set_withdrawals (λ l, l ++ [requested_row k s.2 u amount method sealed])%list (comm_bumped s.2))).
Proof.
  intros Hs H. unfold RequestWithdrawal in H. apply bind_Ok in H as (payout & s1 & [Hv ->]%lift_Ok & H). apply validateWithdrawal_Ok in Hv as (V1 & V2 & V3 & V4).
  unfold comm_tx in H. apply Do_Ok in H. apply bind_Ok in H as ([] & s1 & [Hd%rejectDeleted_Ok ->]%lift_Ok & H).
  apply bind_Ok in H as (wd & s1 & [Hwd ->]%lift_Ok & H). destruct (cw_Enabled wd) eqn:Een; [|done]. cbv zeta in H. simpl negb in H. cbv iota in H.
  destruct (one_of _ (cw_Methods wd)) eqn:Eme; [|done]. simpl negb in H. cbv iota in H. apply bind_Ok in H as (cfg & s1 & [Hcfg ->]%lift_Ok & H).
  destruct (LessThan_spec amount (cm_MinWithdraw cfg)) as [|Hmin]; [done|]. destruct s as [l c].
  apply bind_Ok in H as (fl & s1 & H1 & H). apply ctab_Ok in H1 as (c1 & [-> ->]%gets_Ok & ->). destruct (existsb _ _) eqn:Efl; [done|].
  apply in_flight_false in Efl. apply bind_Ok in H as (av & s1 & H1 & H). apply ctab_Ok in H1 as (c1 & [-> Hav]%available_val & ->).
  destruct (IsPositive_spec av) as [Hp|]; [|done]. simpl negb in H. cbv iota in H. destruct (GreaterThan_spec amount av) as [|Hle]; [done|].
  apply bind_Ok in H as (sealed & s1 & [Hse ->]%lift_Ok & H). apply bind_Ok in H as (id' & s1 & H1 & H). apply ctab_Ok in H1 as (c1 & [= <- <-] & ->).
  apply bind_Ok in H as ([] & s1 & H1%map_err_Ok & H). apply ctab_fk_Ok in H1 as (c1 & (-> & _)%InsertWithdrawal_Ok & ->).
  apply bind_Ok in H as ([] & s1 & H1 & H). apply ctab_Ok in H1 as (c2 & [= <-] & ->). injection H as <- <-.
  exists payout, sealed. split; [|done]. split; try done; [by eauto 10|]. simpl. rewrite <- (idle_funds _ _ _ Hs) by done. rewrite <- Hav. lra.
Qed.
Lemma RequestWithdrawal_Err k u amount method detail s e s' : RequestWithdrawal env false k u amount method detail s = (Err e, s') → s' = s.
Proof.
  unfold RequestWithdrawal, mbind, M_bind, lift at 1. destruct (validateWithdrawal _ _ _ _ _) as [p|]; [|by intros [= _ <-]]. apply Do_Err.
Qed.
Lemma request_fits k c u amount method sealed F : tables_ok c → (0 < val amount)%Q → money_ok amount = true → numeric_fits amount = true →
  ValidWithdrawMethod (TrimSpace method) = true → sealed ≠ [] → Forall (λ w, flying u w = false) (c_withdrawals c) → rf_user F u = true →
  InsertWithdrawal F (requested_row k c u amount method sealed) (comm_bumped c) =
    (Ok (), set_withdrawals (λ l, l ++ [requested_row k c u amount method sealed])%list (comm_bumped c)).
Proof.
  intros Ht Hp Hm Hf Hv Hse Hn Hu. unfold InsertWithdrawal. simpl. rewrite Hm. simpl.
  assert (withdrawal_fits (requested_row k c u amount method sealed) = true) as -> by (unfold withdrawal_fits; simpl; by rewrite Hf). simpl.
  assert (withdrawal_check (requested_row k c u amount method sealed) = true) as ->.
  { unfold withdrawal_check. simpl. destruct (IsPositive_spec amount); [|lra]. rewrite Hv. by destruct sealed. }
  simpl. assert (withdrawals_unique (c_withdrawals c ++ [requested_row k c u amount method sealed]) = true) as ->.
  { pose proof (tk_one _ Ht) as [H1%bool_decide_eq_true H2%bool_decide_eq_true]%andb_true_iff. apply andb_true_iff. split; apply bool_decide_eq_true.
    - rewrite omap_app. simpl. by rewrite app_nil_r.
    - rewrite List.filter_app, map_app. simpl. apply NoDup_app. split_and!; [done| |apply NoDup_singleton].
      intros x (w & -> & [Hfl Hw]%elem_of_filter_bool)%list_elem_of_fmap ->%list_elem_of_singleton%eq_sym.
      rewrite Forall_forall in Hn. specialize (Hn _ Hw). unfold flying in Hn. by rewrite N.eqb_refl, Hfl in Hn. }
  simpl. assert (withdrawal_refs F (requested_row k c u amount method sealed) = true) as -> by (unfold withdrawal_refs; simpl; by rewrite Hu). done.
Qed.
Lemma RequestWithdrawal_grants k u amount method detail l c payout sealed : comm_ok (l, c) → u ∈ users l → numeric_fits amount = true → sealed ≠ [] →
  withdrawal_grounds k (l, c) u amount method detail payout sealed → ∃ id s', RequestWithdrawal env false k u amount method detail (l, c) = (Ok id, s').
Proof.
  intros Hs Hu Hf Hse [[A1 A2] M1 V1 D1 (wd & cfg & W1 & C1 & E1 & O1 & Min) I1 F1 S1]. unfold RequestWithdrawal.
  erewrite (M_bind_eq (lift _)) by (unfold lift; by rewrite (proj2 (validateWithdrawal_Ok k amount method detail payout) (conj A1 (conj A2 (conj M1 V1))))).
  unfold comm_tx, Do.
  erewrite (M_bind_eq (lift (rejectDeleted _ _ _))) by (unfold lift; by rewrite (proj2 (rejectDeleted_Ok k u ()) D1)).
  erewrite (M_bind_eq (lift _)) by (unfold lift; by rewrite W1). rewrite E1. cbv zeta. cbn [negb]. cbv beta iota. rewrite O1. cbn [negb]. cbv beta iota.
  erewrite (M_bind_eq (lift _)) by (unfold lift; by rewrite C1). destruct (LessThan_spec amount (cm_MinWithdraw cfg)); [lra|].
  assert (Ei : ctab (HasInFlightWithdrawal u) (l, c) = (Ok false, (l, c))).
  { unfold ctab, zoom, HasInFlightWithdrawal, gets. simpl in I1. simpl. by rewrite (proj2 (in_flight_false u _) I1). }
  rewrite (M_bind_eq _ _ _ _ _ Ei). destruct (available u c) as [[av|e] c1] eqn:Eav; [|done].
  assert (Ea : ctab (available u) (l, c) = (Ok av, (l, c1))) by (unfold ctab, zoom; cbn [fst snd]; by rewrite Eav).
  rewrite (M_bind_eq _ _ _ _ _ Ea). apply available_val in Eav as [-> Hav]. rewrite (idle_funds _ _ _ Hs I1) in Hav. simpl in F1.
  destruct (IsPositive_spec av); [|lra]. cbn [negb]. cbv beta iota. destruct (GreaterThan_spec amount av); [lra|].
  erewrite (M_bind_eq (lift _)) by (unfold lift; by rewrite S1). erewrite (M_bind_eq (ctab new_id)) by done.
  erewrite (M_bind_eq (map_err _ _)).
  2: { pose proof (request_fits k c u amount method sealed (refs_of l) (proj2 (proj2 Hs)) A1 A2 Hf M1 Hse I1
         ltac:(simpl; by apply bool_decide_eq_true_2)) as Hins. unfold requested_row in Hins.
       apply map_err_ok. unfold ctab_fk, ctab, zoom. cbn [fst snd]. by rewrite Hins. }
  erewrite (M_bind_eq (ctab _)) by done. simpl. unfold mret, M_ret. rewrite (ledger_ok_commit l (proj1 (proj1 Hs))). eauto.
Qed.

(** C16: a withdrawal is granted exactly on its grounds.  For a user who exists and
    an amount the column can hold, a request is answered with the new
    withdrawal, and only its row and its audit are written, when the grounds
    hold; otherwise it is refused and nothing is written. *)
Theorem withdrawal_request_decided k u amount method detail s :
  comm_ok s → u ∈ users s.1 → numeric_fits amount = true → (∀ p x, SealPayout (env k) p u = Ok x → x ≠ []) →
  match RequestWithdrawal env false k u amount method detail s with
  | (Ok id, s') => ∃ payout sealed, withdrawal_grounds k s u amount method detail payout sealed ∧ id = c_next s.2 ∧
      s' = (s.1, add_comm_audit ("withdrawal.requested", id)
                   (set_withdrawals (λ l, l ++ [requested_row k s.2 u amount method sealed])%list (comm_bumped s.2)))
  | (Err _, s') => s' = s ∧ ∀ payout sealed, ¬ withdrawal_grounds k s u amount method detail payout sealed
  end.
Proof.
  intros Hs Hu Hf Hse. destruct (RequestWithdrawal env false k u amount method detail s) as [[id|e] s'] eqn:E.
  - by eapply RequestWithdrawal_Ok.
  - split; [by eapply RequestWithdrawal_Err|]. intros payout sealed Hg. destruct s as [l c].
    destruct (RequestWithdrawal_grants k u amount method detail l c payout sealed Hs Hu Hf (Hse _ _ (wg_sealed _ _ _ _ _ _ _ _ Hg)) Hg) as (id & s2 & E2).
    congruence.
Qed.

(** A withdrawal is paid out once.  A payout that succeeds was of an approved
    withdrawal of an account that exists; it takes exactly the amount from the
    available account of the user and nobody else's, marks the withdrawal paid
    with the reference, and leaves what everyone can spend as it was; the same
    withdrawal is never paid again, whoever asks. *)
Theorem withdrawal_paid_once inTx who k id ref usdt s s' :
  comm_ok s → MarkWithdrawalPaid env inTx who k id ref usdt s = (Ok (), s') →
  (∃ w w', WithdrawalByID id s.2 = (Ok (Some w), s.2) ∧ WithdrawalByID id s'.2 = (Ok (Some w'), s'.2) ∧
     wd_Status w = WithdrawalApproved ∧ wd_Status w' = WithdrawalPaid ∧ wd_Reference w' = Some (TrimSpace ref) ∧ wd_Amount w' = wd_Amount w ∧
     AccountDeleted (env k) (wd_UserID w) = Ok false ∧
     ∀ u, (bal s'.1 (available_key u) == bal s.1 (available_key u) - (if (wd_UserID w =? u)%N then val (wd_Amount w) else 0))%Q) ∧
  (∀ u, spendable u s'.2 == spendable u s.2)%Q ∧
  (∀ who' k' ref' usdt', ∃ e, MarkWithdrawalPaid env true who' k' id ref' usdt' s' = (Err e, s')).
Proof.
  intros Hs H. unfold MarkWithdrawalPaid in H. cbv zeta in H. destruct (_ || _); [done|]. apply bind_Ok in H as (p & s1 & [_ ->]%lift_Ok & H).
  unfold comm_tx in H. apply Do_Ok in H. destruct s as [l c]. apply bind_Ok in H as (ow & s1 & H1 & H). apply ctab_Ok in H1 as (c1 & [-> ->]%gets_Ok & ->).
  destruct (List.find _ _) as [w|] eqn:Ew; [|done]. pose proof (find_in _ _ _ Ew) as [Hw Ei%N.eqb_eq].
  apply bind_Ok in H as ([] & s1 & [Hd%rejectDeleted_Ok ->]%lift_Ok & H). destruct (CanWithdrawalTransition _ _) eqn:Et; [|done]. simpl negb in H. cbv iota in H.
  apply approved_of in Et. destruct (ValidatePaidUSDT _ _ _); [|done].
  apply bind_Ok in H as (txn & s1 & H1%map_err_Ok & H). apply cled_Ok in H1 as (l' & HP & ->).
  apply bind_Ok in H as (ch & s1 & H1 & H). apply ctab_fk_Ok in H1 as (c' & HM & ->). destruct ch; [|done]. simpl in H. apply ctab_Ok in H as (c2 & [= <-] & ->).
  rewrite <- Ei in HM. destruct (payout_block _ _ _ _ _ _ _ _ _ _ _ _ Hs Hw Et HP HM) as (Hs1 & _ & Hsp & Ec). rewrite Ei in Ec.
  assert (Efind : List.find (λ w, (wd_ID w =? id)%N) (c_withdrawals c') = Some (paid_out (TrimSpace ref) usdt txn (pr_UserID p) (k_now k) w)).
  { rewrite Ec. simpl. unfold upd. clear -Ew Ei Et. induction (c_withdrawals c) as [|x ws IH]; simpl in *; [done|].
    destruct (wd_ID x =? id)%N eqn:Ex.
    - injection Ew as ->. assert (withdrawal_at id WithdrawalApproved w = true) as -> by by apply withdrawal_at_true. simpl. by rewrite Ex.
    - assert (withdrawal_at id WithdrawalApproved x = false) as -> by (unfold withdrawal_at; by rewrite Ex). rewrite Ex. by apply IH. }
  eapply Post_moved in HP as HV; [|reflexivity|by split..|apply Hs]. split_and!; [|done|].
  - exists w, (paid_out (TrimSpace ref) usdt txn (pr_UserID p) (k_now k) w). unfold WithdrawalByID, gets. simpl. rewrite Ew, Efind. split_and!; try done.
    intros u. unfold available_key, available_of. rewrite (mv_bal _ _ _ _ _ HV) by by right. unfold available_of. rewrite share_user, share_other by done. lra.
  - intros who' k' ref' usdt'. unfold MarkWithdrawalPaid. cbv zeta. destruct (_ || _); [by eexists|].
    unfold mbind, M_bind, lift at 1. destruct (order_principal who') as [p'|]; [|by eexists]. unfold comm_tx, Do.
    unfold ctab at 1, zoom at 1, WithdrawalByID, gets. cbn [fst snd c_withdrawals add_comm_audit]. rewrite Efind. unfold lift at 1.
    destruct (rejectDeleted _ _ _); [|by eexists]. by eexists.
Qed.
End CommThms.
