(* ===== verification/CommWitness.v ===== *)
(** A concrete history with commissions: an order is paid and two people up the
    line of referrals earn from it; their shares settle after the freeze; one is
    withdrawn, approved and paid out; in the end an account is closed. *)
From Stdlib Require Import ZArith QArith Qabs Lqa Lia.
From stdpp Require Import base tactics list gmap strings sorting relations.
From S2P Require Import Prelude Safety Decimal GoString Money GoTime LedgerTypes LedgerFacts Ledger LedgerInv LedgerOps LedgerProgress Promo PromoThms.
From S2P Require Import Period OrderAmounts Proration SubTypes SubStore SubFacts Subscription SubHistory OrderStore OrderFlow OrderInv OrderLife OrderHistory.
From S2P Require Import OrderThms PayStore PayFlow PayInv PayOps PayRecord PayHistory PayWitness.
From S2P Require Import CommStore CommFlow CommInv CommAccrue CommHistory CommThms.
#[local] Open Scope string_scope.
#[local] Open Scope Z_scope.
#[local] Existing Instance scaled_decimal.

(** 10% of an order, 60 and 40 parts in a hundred of it for the first two levels,
    frozen for a day. *)
Definition terms_rows : SettingRows :=
  mkSettingRows (Ok (Some 10)) (Ok (Some 1)) (Ok (Some "1.00")) (Ok None) (Ok (Some true)) (Ok (Some 60)) (Ok (Some 40)) (Ok None)
    (Ok None) (Ok None).
(** User 9 referred user 7, user 3 referred user 9. *)
Definition referrals (u : uuid) : result oerr (option uuid) :=
  Ok (if (u =? 7)%N then Some 9%N else if (u =? 9)%N then Some 3%N else None).
Definition cenv (_ : Call) : CommEnv :=
  mkCommEnv terms_rows referrals (λ _, Ok false) (λ _, Ok None) (Some (λ _ _, Ok false)) (λ p u, Ok (1 :: bytes_of p)) (λ b, b) (λ b, b)
    (λ _ _, "").
Definition base_shop : OrderEnv comm :=
  mkOrderEnv shop_subs shop_codes (λ _, Ok {[50%N := "active"]}) (λ _, Ok ∅) (Ok (100, -2)) (Some (Ok (3, 5)))
    (λ _, Ok false) (λ _ _ _, Ok ()) (λ _ _, mret 0) None.
Abbreviation cshop := (commissioned cenv base_shop).
Abbreviation life := (around cenv audit_ok none_deleted).
Abbreviation cstep := (PayHistory.shop_step cshop {[500%N]} life).
Abbreviation wcomm := (world (PayStore.pay * comm)).
Abbreviation known := {[7%N; 9%N; 3%N]}.

Definition the_no (w : wcomm) : string := match orders (w_book w) !! 100%N with Some o => od_No o | None => "" end.
Definition aside (s : ledger * comm) (w : wcomm) : wcomm := put_ext (tabs w, s.2) (put_ledger s.1 w).
Definition c0 : wcomm := new_shop known 100 empty_comm.
Definition c1 : wcomm := (order_tx false (place (wired cshop) None (at_ 1) (month_draft dec_zero "")) c0).2.
Definition pay_100 : M wcomm oerr IntentDraft :=
  PayBegin cshop {[500%N]} chs true me (at_ 2) (noon 2) (noon 2) (mkPayInput 100 "epay" "" "" "").
Definition c2 : wcomm := (order_tx false pay_100 c1).2.
Definition the_draft : IntentDraft :=
  match (order_tx false pay_100 c1).1 with Ok d => d | Err _ => DraftReused (mkIntentResult 0 "" "" "" ∅ dec_zero dec_zero None false) end.
Definition c3 : wcomm := (CompleteIntent false the_draft c2).2.
(** The payment: both shares accrue. *)
Definition c4 : wcomm := (HandleWebhook cshop {[500%N]} chs (at_ 3) "epay" (the_no c1) c3).2.
(** A day later they settle. *)
Definition turn : M (ledger * comm) oerr (SettleStats * option oerr) :=
  SettleDue cenv (at_ 1500) (λ _, at_ 1500) (λ _, at_ 1500) (λ _, None) (λ _, None) None (λ _, false) 0.
Definition c5 : wcomm := aside (turn (part_of c4)).2 c4.
Definition ask : M (ledger * comm) oerr uuid := RequestWithdrawal cenv true (at_ 1501) 9 (100, -2) "alipay" " me@alipay ".
Definition c6 : wcomm := aside (comm_tx false ask (part_of c5)).2 c5.
Definition c7 : wcomm := aside (comm_tx false (ReviewWithdrawal cenv true admin (at_ 1502) 3 true "") (part_of c6)).2 c6.
Abbreviation pay_out := (MarkWithdrawalPaid cenv true admin (at_ 1503) 3 "20260102-1" None).
Definition c8 : wcomm := aside (comm_tx false pay_out (part_of c7)).2 c7.
Abbreviation close_9 := (VoidForDeletedUser true admin (at_ 1504) 9).

Lemma aside_step w s : life (part_of w) s → cstep w (aside s w).
Proof. destruct s as [l c]. apply (ss_others cshop {[500%N]} life w l c). Qed.
Lemma to_c4 : rtc cstep c0 c4.
Proof.
  apply (rtc_l _ _ c1); [exact (ss_place cshop {[500%N]} life c0 None (at_ 1) (month_draft dec_zero ""))|].
  apply (rtc_l _ _ c2); [exact (ss_pay cshop {[500%N]} life c1 chs me (at_ 2) (noon 2) (noon 2) (mkPayInput 100 "epay" "" "" ""))|].
  apply (rtc_l _ _ c3); [exact (ss_complete cshop {[500%N]} life c2 false the_draft)|].
  apply rtc_once. exact (ss_webhook cshop {[500%N]} life c3 chs (at_ 3) "epay" (the_no c1)).
Qed.
Lemma c4_c5 : rtc cstep c4 c5.
Proof. apply rtc_once, aside_step. apply ar_settle. Qed.
Lemma c5_c6 : rtc cstep c5 c6.
Proof. apply rtc_once, aside_step, ar_request. Qed.
Lemma c6_c7 : rtc cstep c6 c7.
Proof. apply rtc_once, aside_step, ar_review. Qed.
Lemma c5_c7 : rtc cstep c5 c7.
Proof. etrans; [exact c5_c6|exact c6_c7]. Qed.
Lemma c7_c8 : rtc cstep c7 c8.
Proof. apply rtc_once, aside_step, ar_paid. Qed.
Lemma c0_c5 : rtc cstep c0 c5.
Proof. etrans; [exact to_c4|exact c4_c5]. Qed.
Lemma c0_c7 : rtc cstep c0 c7.
Proof. etrans; [exact c0_c5|exact c5_c7]. Qed.
Lemma c0_c8 : rtc cstep c0 c8.
Proof. etrans; [exact c0_c7|exact c7_c8]. Qed.
Lemma c0_c6 : rtc cstep c0 c6.
Proof. etrans; [exact c0_c5|exact c5_c6]. Qed.
Lemma reached w : rtc cstep c0 w → comm_ok (part_of w).
Proof. intros H. exact (proj1 (comm_history cenv base_shop {[500%N]} audit_ok none_deleted known 100 w w H (rtc_refl _ _))). Qed.
Lemma ran_on {S E A} (m : M S E A) s a : (m s).1 = Ok a → m s = (Ok a, (m s).2).
Proof. destruct (m s) as [r s']. simpl. by intros ->. Qed.
Lemma same_available (m : M comm oerr dec) c c' a b x : m c = (Ok a, c') → (m c).1 = Ok b → (val a + x == val b + x)%Q.
Proof. intros -> [= <-]. done. Qed.

(** With 1.00 of the 1.19 under way, 0.19 are available. *)
Lemma commissions_conserved_witness :
  map (λ e, (ce_Referrer e, ce_Level e, ce_Amount e, ce_Status e)) (c_entries (w_ext c6).2) =
    [(9%N, 1, (119, -2), EntryAvailable); (3%N, 2, (79, -2), EntryAvailable)] ∧
  (available 9 (w_ext c6).2).1 = Ok (19, -2) ∧
  (bal (w_ledger c6) (pending_key 9) == 0)%Q ∧ (val (19, -2)%Z + 1 == bal (w_ledger c6) (available_key 9))%Q.
Proof.
  destruct (commissions_conserved cenv base_shop {[500%N]} audit_ok none_deleted known 100 c6 9 c0_c6) as (H1 & _ & a & Ea & _ & H3).
  assert (E1 : (available 9 (w_ext c6).2).1 = Ok (19, -2)) by ev.
  assert (E2 : (pending_sum 9 (w_ext c6).2 == 0)%Q) by (unfold Qeq; ev).
  assert (E3 : (inflight_sum 9 (w_ext c6).2 == 1)%Q) by (unfold Qeq; ev).
  split; [ev|]. split; [exact E1|]. split; [exact (Qeq_trans _ _ _ H1 E2)|].
  rewrite E3 in H3. exact (Qeq_trans _ _ _ (Qeq_sym _ _ (same_available _ _ _ _ _ 1%Q Ea E1)) H3).
Defined.

Definition no_withdrawal : Withdrawal := mkWithdrawal 0 0 dec_zero [] "" "" None None None None None None None 0 None.
Definition wd_of (w : wcomm) : Withdrawal := nth 0 (c_withdrawals (w_ext w).2) no_withdrawal.
Lemma commissions_follow_life_witness :
  map wd_Status (c_withdrawals (w_ext c6).2) = [WithdrawalRequested] ∧ map wd_Status (c_withdrawals (w_ext c8).2) = [WithdrawalPaid] ∧
  ∃ x, c_withdrawals (w_ext c8).2 !! 0%nat = Some x ∧ withdrawal_terms x = withdrawal_terms (wd_of c6).
Proof.
  assert (H : rtc cstep c6 c8) by (etrans; [exact c6_c7|exact c7_c8]).
  destruct (commissions_follow_life cenv base_shop {[500%N]} audit_ok none_deleted known 100 c6 c8 c0_c6 H) as (_ & H2 & _).
  split; [ev|]. split; [ev|]. assert (E : c_withdrawals (w_ext c6).2 !! 0%nat = Some (wd_of c6)) by ev.
  destruct (H2 0%nat (wd_of c6) E) as (x & Ex & Et & _). exists x. split; [exact Ex|exact Et].
Defined.

Lemma commission_rows_typed_witness :
  (length (c_entries (w_ext c8).2), length (c_withdrawals (w_ext c8).2)) = (2, 1)%nat ∧
  (∀ e, e ∈ c_entries (w_ext c8).2 → commission_check e = true) ∧ NoDup (map ce_ID (c_entries (w_ext c8).2)).
Proof.
  destruct (commission_rows_typed cenv base_shop {[500%N]} audit_ok none_deleted known 100 c8 c0_c8) as (H1 & _ & _ & _ & H5 & _).
  split; [ev|]. split; [exact H1|exact H5].
Defined.

(** A posting's readiness, decided. *)
Definition fits_b (q : Q) : bool := negb (Qle_bool big q).
Lemma fits_b_spec q : fits_b q = true → (q < big)%Q.
Proof. unfold fits_b. intros H%negb_true_iff. apply Qnot_le_lt. intros Hq. apply Qle_bool_iff in Hq. congruence. Qed.
Definition leg_ready_b (p : Posting) (s : ledger) (l : Leg) : bool :=
  pg_text (ref_Ref (leg_Account l)) && (negb (UserOwned (ref_Type (leg_Account l))) || bool_decide (ref_UserID (leg_Account l) ∈ users s)) &&
  fits_b (val (leg_Amount l)) && fits_b (Qabs (bal s (keyOf (leg_Account l)) + delta_on (leg_Account l) (p_Legs p))).
Definition ready_b (p : Posting) (s : ledger) : bool :=
  match validatePosting p with Ok _ => true | Err _ => false end &&
  negb (existsb (same_source (p_Kind p) (p_SourceType p) (p_SourceID p)) (txns s)) && forallb (leg_ready_b p s) (p_Legs p).
Lemma ready_by p s : ready_b p s = true → post_ready p s.
Proof.
  unfold ready_b, leg_ready_b. rewrite !andb_true_iff, forallb_forall. intros [[Hv Hn%negb_true_iff] Hl].
  assert (Hl' : ∀ l, l ∈ p_Legs p → leg_ready_b p s l = true) by (intros l Hin; apply Hl; by apply list_elem_of_In).
  unfold leg_ready_b in Hl'. split.
  - by destruct (validatePosting p) as [[]|].
  - by intros _ _.
  - intros l H%Hl'. rewrite !andb_true_iff in H. destruct H as [[[H1 H2] _] _]. split; [done|]. intros Ho. rewrite Ho in H2.
    by apply bool_decide_eq_true in H2.
  - intros l H%Hl'. rewrite !andb_true_iff in H. destruct H as [[_ H1] H2]. split; by apply fits_b_spec.
Qed.

(** The payout the approved withdrawal is owed. *)
Lemma commission_always_funded_witness :
  in_flight (wd_of c7) = true ∧ ∃ id l', Post (joined admin) (payout_posting (wd_of c7)) (w_ledger c7) = (Ok id, l').
Proof.
  assert (H1 : wd_of c7 ∈ c_withdrawals (w_ext c7).2) by (apply (list_elem_of_lookup_2 _ 0%nat); ev).
  assert (H2 : in_flight (wd_of c7) = true) by ev.
  assert (H3 : ready_b (payout_posting (wd_of c7)) (w_ledger c7) = true) by ev.
  split; [exact H2|].
  apply (commission_always_funded cenv base_shop {[500%N]} audit_ok none_deleted known 100 c7 admin (payout_posting (wd_of c7)) c0_c7
    (ow_payout _ _ H1 H2) (ready_by _ _ H3)). reflexivity.
Defined.

(** What the callback of the payment hands to the hook. *)
Definition paid_100 : PaidOrder :=
  match c_entries (part_of c4).2 with
  | e :: _ => mkPaidOrder (ce_OrderID e) (ce_OrderNo e) 7 KindNew (ce_Base e) (ce_Base e) (noon 3) (default 0%N (ce_PaymentID e))
  | [] => mkPaidOrder 0 "" 0 "" dec_zero dec_zero 0 0
  end.
Abbreviation hook_100 := (CommFlow.OnOrderPaid cenv (None, at_ 3, paid_100)).
Lemma order_accrues_once_witness :
  map (λ e, (ce_Referrer e, ce_Level e, ce_Amount e)) (c_entries (hook_100 (part_of c3)).2.2) = [(9%N, 1, (119, -2)); (3%N, 2, (79, -2))] ∧
  NoDup (map ce_Referrer (c_entries (hook_100 (part_of c3)).2.2)) ∧ (hook_100 (part_of c4)).2 = part_of c4.
Proof.
  split; [ev|]. split.
  - assert (Hr : rtc cstep c0 c3).
    { apply (rtc_l _ _ c1); [exact (ss_place cshop {[500%N]} life c0 None (at_ 1) (month_draft dec_zero ""))|].
      apply (rtc_l _ _ c2); [exact (ss_pay cshop {[500%N]} life c1 chs me (at_ 2) (noon 2) (noon 2) (mkPayInput 100 "epay" "" "" ""))|].
      apply rtc_once. exact (ss_complete cshop {[500%N]} life c2 false the_draft). }
    assert (E : (hook_100 (part_of c3)).1 = Ok ()) by ev. assert (E0 : c_entries (part_of c3).2 = []) by ev.
    destruct (order_accrues_once cenv None (at_ 3) paid_100 (part_of c3) _ (reached _ Hr) (ran_on hook_100 _ _ E)) as [[H|(new & Hn & _ & Hd & _)] _].
    + exfalso. assert (Hl : length (c_entries (hook_100 (part_of c3)).2.2) = 2%nat) by ev. rewrite H, E0 in Hl. discriminate Hl.
    + rewrite Hn, E0. exact Hd.
  - assert (E : (hook_100 (part_of c4)).1 = Ok ()) by ev.
    destruct (order_accrues_once cenv None (at_ 3) paid_100 (part_of c4) _ (reached _ to_c4) (ran_on hook_100 _ _ E)) as [_ H]. apply H.
    apply Exists_exists. exists (nth 0 (c_entries (part_of c4).2) (mkEntryRow 0 0 0 0 "" None dec_zero 0 0 0 dec_zero "" 0 false None 0 None None false None None None None 0)).
    split; [apply (list_elem_of_lookup_2 _ 0%nat); ev|ev].
Defined.

(** Closed with 1.00 under way: it is rejected and all 1.19 are forfeited. *)
Lemma closing_leaves_nothing_witness :
  (close_9 (part_of c6)).1 = Ok (mkVoidResult 0 dec_zero (119, -2) 1 (100, -2)) ∧
  (bal (close_9 (part_of c6)).2.1 (available_key 9) == 0)%Q ∧
  close_9 (close_9 (part_of c6)).2 = (Ok (mkVoidResult 0 dec_zero dec_zero 0 dec_zero), (close_9 (part_of c6)).2).
Proof.
  assert (E : (close_9 (part_of c6)).1 = Ok (mkVoidResult 0 dec_zero (119, -2) 1 (100, -2))) by ev.
  destruct (closing_leaves_nothing true admin (at_ 1504) 9 (part_of c6) _ (close_9 (part_of c6)).2 admin (at_ 1504) (mkPrincipal 3 "admin")
    (reached _ c0_c6) (ran_on close_9 (part_of c6) _ E) eq_refl) as [H1 H2].
  split; [exact E|]. split; [exact (cd_available _ _ _ _ H1)|exact H2].
Defined.

Abbreviation ask_alone a := (RequestWithdrawal cenv false (at_ 1501) 9 a "alipay" " me@alipay ").
(** 1.00 is granted, 2.00 is more than there is. *)
Lemma withdrawal_request_decided_witness :
  (ask_alone (100, -2) (part_of c5)).1 = Ok 3%N ∧ length (c_withdrawals (ask_alone (100, -2) (part_of c5)).2.2) = 1%nat ∧
  (ask_alone (200, -2) (part_of c5)).1 = Err (OComm CErrWithdrawTooMuch) ∧ (ask_alone (200, -2) (part_of c5)).2 = part_of c5.
Proof.
  assert (Hu : 9%N ∈ users (part_of c5).1) by (apply (bool_decide_eq_true_1 (9%N ∈ users (part_of c5).1)); ev).
  assert (Hs : ∀ p x, SealPayout (cenv (at_ 1501)) p 9 = Ok x → x ≠ []) by (intros p x [= <-]; discriminate).
  assert (E1 : (ask_alone (100, -2) (part_of c5)).1 = Ok 3%N) by ev.
  assert (E2 : (ask_alone (200, -2) (part_of c5)).1 = Err (OComm CErrWithdrawTooMuch)) by ev.
  split; [exact E1|]. split; [ev|]. split; [exact E2|].
  pose proof (withdrawal_request_decided cenv (at_ 1501) 9 (200, -2) "alipay" " me@alipay " (part_of c5) (reached _ c0_c5) Hu eq_refl Hs) as H.
  destruct (ask_alone (200, -2) (part_of c5)) as [[id|e] s']; [discriminate E2|exact (proj1 H)].
Defined.

(** 1.00 leaves the account of user 9 and nothing that of user 3. *)
Lemma withdrawal_paid_once_witness :
  map (λ w, (wd_Status w, wd_Reference w)) (c_withdrawals (pay_out (part_of c7)).2.2) = [(WithdrawalPaid, Some "20260102-1")] ∧
  (spendable 9 (pay_out (part_of c7)).2.2 == spendable 9 (part_of c7).2)%Q ∧
  ∃ e, pay_out (pay_out (part_of c7)).2 = (Err e, (pay_out (part_of c7)).2).
Proof.
  assert (E : (pay_out (part_of c7)).1 = Ok ()) by ev.
  pose proof (ran_on pay_out (part_of c7) () E) as Er.
  destruct (withdrawal_paid_once cenv true admin (at_ 1503) 3 "20260102-1" None (part_of c7) (pay_out (part_of c7)).2 (reached _ c0_c7) Er) as (_ & H2 & H3).
  split; [ev|]. split; [exact (H2 9%N)|]. exact (H3 admin (at_ 1503) "20260102-1" None).
Defined.
