(* ===== verification/Idem.v ===== *)
(** Idempotency keys (panel/internal/module/idempotency): the keys table of
    migration 00004 with repo/repo.go, the service (service.go, request.go,
    response.go), the recorder and middleware around a request
    (handler/recorder.go, middleware.go) and the retention task. *)
From Stdlib Require Import ZArith Lia.
From stdpp Require Import base tactics list gmap strings sorting.
From S2P Require Import Prelude Safety GoString GoTime LedgerTypes Ledger Promo.
#[local] Open Scope string_scope.
#[local] Open Scope Z_scope.

(** * Requests (service/request.go) *)

Definition MaxBodyBytes : Z := Z.shiftl 1 20.
Definition LeaseDuration : Duration := 5 * Minute.
Definition Retention : Duration := 30 * 24 * Hour.

Definition ValidKey (key : string) : bool :=
  if (blen key =? 0) || (255 <? blen key) || negb (ValidString key) then false
  else all_bytes (λ b, negb ((b <? 32) || (b =? 127))) key.
Definition scope_rune (c : chunk) : bool := between 97 (rune c) 122 || between 48 (rune c) 57 || (rune c =? 95).
Definition ValidScope (scope : string) : bool :=
  if (blen scope =? 0) || (64 <? blen scope) then false else forallb scope_rune (runes scope).

(** [EscapedPath] and [RawQuery] are given. *)
Definition Target (path query : string) : string :=
  let target := if String.eqb path "" then "/" else path in
  if String.eqb query "" then target else target ++ "?" ++ query.

(** What is hashed: the three parts with line feeds between them. *)
Definition hashInput (method target : string) (body : list Z) : list Z :=
  (bytes_of method ++ [10] ++ bytes_of target ++ [10] ++ body)%list.
(** [HMAC] is library code; the result is copied into 32 bytes. *)
Definition NewFingerprint (HMAC : list Z → list Z → list Z) (key : list Z) (method target : string) (body : list Z) : list Z :=
  take 32 (HMAC key (hashInput method target body) ++ replicate 32 0).

(** * Responses (service/response.go) *)

Record Header := mkHeader {
  hd_ContentType : string; hd_Location : string; hd_ETag : string; hd_CacheControl : string; hd_ContentLanguage : string }.
Record Response := mkReply { rp_Status : Z; rp_Body : list Z; rp_Header : Header }.

Definition containsHTTPControl (v : string) : bool := negb (all_bytes (λ b, negb ((b <? 32) || (b =? 127))) v).
Definition header_ok (v : string) (max : Z) : bool := String.eqb v "" || negb ((max <? blen v) || containsHTTPControl v).
Definition has_backslash (s : string) : bool := negb (all_bytes (λ b, negb (b =? 92)) s).
Definition Validate (h : Header) : bool :=
  header_ok (hd_ContentType h) 255 && header_ok (hd_Location h) 2048 && header_ok (hd_ETag h) 255 &&
  header_ok (hd_CacheControl h) 512 && header_ok (hd_ContentLanguage h) 128 &&
  (String.eqb (hd_Location h) "" ||
   negb (negb (String.prefix "/" (hd_Location h)) || String.prefix "//" (hd_Location h) || has_backslash (hd_Location h))).
(** What reaches the client: the headers that are set, the status and the body. *)
Definition Serve (r : Response) : list (string * string) * Z * list Z :=
  let h := rp_Header r in
  (List.filter (λ nv, negb (String.eqb nv.2 ""))
     [("Content-Type", hd_ContentType h); ("Location", hd_Location h); ("ETag", hd_ETag h); ("Cache-Control", hd_CacheControl h);
      ("Content-Language", hd_ContentLanguage h)], rp_Status r, rp_Body r).

(** * The table (model/key.go, repo/repo.go) *)

Definition StatusInFlight := "in_flight".
Definition StatusSucceeded := "succeeded".
Definition StatusFailed := "failed".
Record header_cols := mkCols {
  co_ContentType : option string; co_Location : option string; co_ETag : option string; co_CacheControl : option string;
  co_ContentLanguage : option string }.
Definition no_cols : header_cols := mkCols None None None None None.
Record IdempotencyKey := mkKeyRow {
  ik_ID : uuid; ik_Scope : string; ik_ActorID : uuid; ik_Key : string; ik_RequestHash : list Z; ik_Status : string;
  ik_Generation : Z; ik_LockedUntil : option Time; ik_ResponseCode : option Z; ik_Replayable : bool;
  ik_ResponseBody : option (list Z); ik_Header : header_cols; ik_ResourceType : option string; ik_ResourceID : option uuid;
  ik_CreatedAt : Time; ik_CompletedAt : option Time }.
Record idem := mkIdem { keys : list IdempotencyKey; idem_next : uuid }.
Definition empty_idem : idem := mkIdem [] 1.

Inductive ierr :=
| IInvalidScope | IBadKey | IUnauthorized | IBodyTooLarge | IBadBody | IReuse | IBusy | IClaimLost | INilClaim | IBadStatus
| IResponseTooLarge | IUnsafeHeader | IBadResource | IBadPurge | INotFound | IInternal | IDB (e : db_err).
Abbreviation IM := (M idem ierr).

Definition cols_list (c : header_cols) : list (option string) :=
  [co_ContentType c; co_Location c; co_ETag c; co_CacheControl c; co_ContentLanguage c].
Definition cols_fit (c : header_cols) : bool := forallb (opt_ok pg_text) (cols_list c).
Definition no_header (c : header_cols) : bool := forallb is_none (cols_list c).
Definition key_fits (r : IdempotencyKey) : bool :=
  pg_text (ik_Scope r) && pg_text (ik_Key r) && is_int64 (ik_Generation r) && opt_ok int4 (ik_ResponseCode r) && cols_fit (ik_Header r) &&
  opt_ok pg_text (ik_ResourceType r).
Definition scope_check (s : string) : bool := between 1 (RuneCountInString s) 64 && forallb scope_rune (runes s).
Definition key_shape (r : IdempotencyKey) : bool :=
  let idle := negb (ik_Replayable r) && is_none (ik_ResourceType r) && no_header (ik_Header r) in
  let ended := is_none (ik_LockedUntil r) && negb (is_none (ik_CompletedAt r)) in
  if String.eqb (ik_Status r) StatusInFlight then
    negb (is_none (ik_LockedUntil r)) && is_none (ik_ResponseCode r) && is_none (ik_CompletedAt r) && idle
  else if String.eqb (ik_Status r) StatusSucceeded then
    ended && match ik_ResponseCode r with Some c => between 200 c 299 | None => false end
  else if String.eqb (ik_Status r) StatusFailed then
    ended && match ik_ResponseCode r with Some c => between 100 c 999 && negb (between 200 c 299) | None => false end && idle
  else false.
(** Control characters are single bytes. *)
Definition key_check (r : IdempotencyKey) : bool :=
  scope_check (ik_Scope r) && between 1 (blen (ik_Key r)) 255 && all_bytes (λ b, negb (between 1 b 31 || (b =? 127))) (ik_Key r) &&
  (Nat.eqb (length (ik_RequestHash r)) 32) && one_of (ik_Status r) [StatusInFlight; StatusSucceeded; StatusFailed] &&
  (1 <=? ik_Generation r) && opt_ok (λ b, Z.of_nat (length b) <=? 1048576) (ik_ResponseBody r) &&
  opt_ok (λ s, blen s <=? 255) (co_ContentType (ik_Header r)) && opt_ok (λ s, blen s <=? 2048) (co_Location (ik_Header r)) &&
  opt_ok (λ s, blen s <=? 255) (co_ETag (ik_Header r)) && opt_ok (λ s, blen s <=? 512) (co_CacheControl (ik_Header r)) &&
  opt_ok (λ s, blen s <=? 128) (co_ContentLanguage (ik_Header r)) && opt_ok scope_check (ik_ResourceType r) &&
  Bool.eqb (is_none (ik_ResourceType r)) (is_none (ik_ResourceID r)) &&
  Bool.eqb (ik_Replayable r) (negb (is_none (ik_ResponseBody r))) && key_shape r.

Definition same_key (scope : string) (actorID : uuid) (key : string) (r : IdempotencyKey) : bool :=
  String.eqb (ik_Scope r) scope && (ik_ActorID r =? actorID)%N && String.eqb (ik_Key r) key.
(** [ON CONFLICT DO NOTHING]: [None] when the key is taken. *)
Definition Insert (db : Time) (scope : string) (actorID : uuid) (key : string) (hash : list Z) : IM (option IdempotencyKey) := λ s,
  let row := mkKeyRow (idem_next s) scope actorID key hash StatusInFlight 1 (Some (db + LeaseDuration)) None false None no_cols None None
               db None in
  if negb (key_fits row) then (Err (IDB DBOther), s)
  else if negb (key_check row) then (Err (IDB DBCheck), s)
  else if existsb (same_key scope actorID key) (keys s) then (Ok None, s)
  else (Ok (Some row), mkIdem (keys s ++ [row]) (N.succ (idem_next s))).
Definition LockForUpdate (scope : string) (actorID : uuid) (key : string) : IM IdempotencyKey := λ s,
  match List.find (same_key scope actorID key) (keys s) with
  | Some r => (Ok r, s)
  | None => (Err INotFound, s)
  end.
Definition update_keys (hit : IdempotencyKey → bool) (f : IdempotencyKey → IdempotencyKey) : IM Z := λ s,
  if negb (forallb (λ r, negb (hit r) || key_fits (f r)) (keys s)) then (Err (IDB DBOther), s)
  else if negb (forallb (λ r, negb (hit r) || key_check (f r)) (keys s)) then (Err (IDB DBCheck), s)
  else (Ok (hits hit (keys s)), mkIdem (upd hit f (keys s)) (idem_next s)).

Definition failed_at (id : uuid) (generation : Z) (r : IdempotencyKey) : bool :=
  (ik_ID r =? id)%N && (ik_Generation r =? generation) && String.eqb (ik_Status r) StatusFailed.
Definition taken_over (db : Time) (r : IdempotencyKey) : IdempotencyKey :=
  mkKeyRow (ik_ID r) (ik_Scope r) (ik_ActorID r) (ik_Key r) (ik_RequestHash r) StatusInFlight (ik_Generation r + 1)
    (Some (db + LeaseDuration)) None (ik_Replayable r) (ik_ResponseBody r) (ik_Header r) (ik_ResourceType r) (ik_ResourceID r)
    (ik_CreatedAt r) None.
(** The row as it is afterwards, if it was there to take. *)
Definition Takeover (db : Time) (id : uuid) (generation : Z) : IM (option IdempotencyKey) :=
  before ← gets (λ s, List.find (failed_at id generation) (keys s));
  n ← update_keys (failed_at id generation) (taken_over db);
  mret (if n =? 1 then taken_over db <$> before else None).

Record Finish := mkFinish {
  fi_Status : string; fi_Code : Z; fi_Replayable : bool; fi_Body : list Z; fi_Header : header_cols; fi_ResourceType : option string;
  fi_ResourceID : option uuid }.
Definition held_at (id actorID : uuid) (generation : Z) (r : IdempotencyKey) : bool :=
  (ik_ID r =? id)%N && (ik_ActorID r =? actorID)%N && (ik_Generation r =? generation) && String.eqb (ik_Status r) StatusInFlight.
Definition finished_key (db : Time) (f : Finish) (r : IdempotencyKey) : IdempotencyKey :=
  mkKeyRow (ik_ID r) (ik_Scope r) (ik_ActorID r) (ik_Key r) (ik_RequestHash r) (fi_Status f) (ik_Generation r) None (Some (fi_Code f))
    (fi_Replayable f) (if fi_Replayable f then Some (fi_Body f) else None) (fi_Header f) (fi_ResourceType f) (fi_ResourceID f)
    (ik_CreatedAt r) (Some db).
Definition FinishKey (db : Time) (id actorID : uuid) (generation : Z) (f : Finish) : IM bool :=
  n ← update_keys (held_at id actorID generation) (finished_key db f);
  mret (n =? 1).

(** [ORDER BY created_at LIMIT]: rows of one moment come in the order of [tie]. *)
Definition older (tie : uuid → N) (a b : IdempotencyKey) : Prop :=
  ik_CreatedAt a < ik_CreatedAt b ∨ (ik_CreatedAt a = ik_CreatedAt b ∧ (tie (ik_ID a) ≤ tie (ik_ID b))%N).
#[global] Instance older_dec tie : RelDecision (older tie).
Proof. intros a b. unfold older. apply _. Defined.
Definition PurgeRows (tie : uuid → N) (before : Time) (limit : Z) : IM Z := λ s,
  let gone := map ik_ID (take (Z.to_nat limit) (merge_sort (older tie) (List.filter (λ r, ik_CreatedAt r <? before) (keys s)))) in
  let kept := List.filter (λ r, negb (bool_decide (ik_ID r ∈ gone))) (keys s) in
  (Ok (Z.of_nat (length (keys s)) - Z.of_nat (length kept)), mkIdem kept (idem_next s)).

(** * The service (service/service.go) *)

Record claim := mkClaim {
  cl_ID : uuid; cl_Scope : string; cl_ActorID : uuid; cl_Key : string; cl_Fingerprint : list Z; cl_Generation : Z; cl_LockedUntil : Time }.
Definition newClaim (row : IdempotencyKey) (fp : list Z) : claim :=
  mkClaim (ik_ID row) (ik_Scope row) (ik_ActorID row) (ik_Key row) fp (ik_Generation row) (default zeroTime (ik_LockedUntil row)).
Definition is2xx (status : Z) : bool := (200 <=? status) && (status <? 300).
Definition optional (s : string) : option string := if String.eqb s "" then None else Some s.
Definition deref (p : option string) : string := default "" p.
Definition replayOf (row : IdempotencyKey) : result ierr Response :=
  match ik_ResponseCode row with
  | None => Err IInternal
  | Some code =>
      let h := ik_Header row in
      Ok (mkReply code (default [] (ik_ResponseBody row))
            (mkHeader (deref (co_ContentType h)) (deref (co_Location h)) (deref (co_ETag h)) (deref (co_CacheControl h))
               (deref (co_ContentLanguage h))))
  end.

(** A new claim, or the response to repeat. *)
Definition Claim (inTx : bool) (who : option Principal) (db : Time) (scope key : string) (fp : list Z) : IM (claim + Response) :=
  if negb (ValidScope scope) then fail IInvalidScope
  else if negb (ValidKey key) then fail IBadKey
  else match who with
  | None => fail IUnauthorized
  | Some p =>
      if (pr_UserID p =? uuid_Nil)%N then fail IUnauthorized
      else Do inTx (λ _, Ok ()) (
        inserted ← Insert db scope (pr_UserID p) key fp;
        match inserted with
        | Some row => mret (inl (newClaim row fp))
        | None =>
            row ← LockForUpdate scope (pr_UserID p) key;
            if negb (bool_decide (ik_RequestHash row = fp)) then fail IReuse
            else if String.eqb (ik_Status row) StatusInFlight then fail IBusy
            else if String.eqb (ik_Status row) StatusSucceeded then
              if negb (ik_Replayable row) then fail IBusy
              else r ← lift (replayOf row); mret (inr r)
            else if String.eqb (ik_Status row) StatusFailed then
              taken ← Takeover db (ik_ID row) (ik_Generation row);
              match taken with
              | None => fail IInternal
              | Some row' => mret (inl (newClaim row' fp))
              end
            else fail IInternal
        end)
  end.

Definition finish (db : Time) (c : claim) (f : Finish) : IM () :=
  ok ← FinishKey db (cl_ID c) (cl_ActorID c) (cl_Generation c) f;
  if negb ok then fail IClaimLost else mret ().
Definition header_columns (h : Header) : header_cols :=
  mkCols (optional (hd_ContentType h)) (optional (hd_Location h)) (optional (hd_ETag h)) (optional (hd_CacheControl h))
    (optional (hd_ContentLanguage h)).
Definition successFinish (c : option claim) (r : Response) : result ierr (claim * Finish) :=
  match c with
  | None => Err INilClaim
  | Some c =>
      if negb (is2xx (rp_Status r)) then Err IBadStatus
      else if MaxBodyBytes <? Z.of_nat (length (rp_Body r)) then Err IResponseTooLarge
      else if negb (Validate (rp_Header r)) then Err IUnsafeHeader
      else Ok (c, mkFinish StatusSucceeded (rp_Status r) true (rp_Body r) (header_columns (rp_Header r)) None None)
  end.
Definition Complete (db : Time) (c : option claim) (r : Response) : IM () :=
  f ← lift (successFinish c r);
  finish db f.1 f.2.
Record Resource := mkResource { rs_Type : string; rs_ID : uuid }.
Definition with_resource (res : Resource) (f : Finish) : Finish :=
  mkFinish (fi_Status f) (fi_Code f) (fi_Replayable f) (fi_Body f) (fi_Header f) (Some (rs_Type res)) (Some (rs_ID res)).
Definition CompleteBound (db : Time) (c : option claim) (r : Response) (res : Resource) : IM () :=
  if negb (ValidScope (rs_Type res)) || (rs_ID res =? uuid_Nil)%N then fail IBadResource
  else
    f ← lift (successFinish c r);
    finish db f.1 (with_resource res f.2).
Definition CompleteUnreplayable (db : Time) (c : option claim) (status : Z) : IM () :=
  match c with
  | None => fail INilClaim
  | Some c => if negb (is2xx status) then fail IBadStatus
              else finish db c (mkFinish StatusSucceeded status false [] no_cols None None)
  end.
Definition Release (db : Time) (c : option claim) (status : Z) : IM () :=
  match c with
  | None => fail INilClaim
  | Some c => if (status <? 100) || (999 <? status) || is2xx status then fail IBadStatus
              else finish db c (mkFinish StatusFailed status false [] no_cols None None)
  end.
Definition Purge (tie : uuid → N) (before : Time) (batch : Z) : IM Z :=
  if IsZeroTime before || (batch <=? 0) then fail IBadPurge else PurgeRows tie before batch.

(** [jobs.PurgeInBatches]: [ctxErr i] is what the context answers before the
    [i]-th call from the end. *)
Fixpoint PurgeInBatches {T E} (ctxErr : nat → option E) (batch : Z) (maxBatches : nat) (purge : M T E Z) (total : Z) : M T (Z * E) Z :=
  match maxBatches with
  | O => mret total
  | S more =>
      match ctxErr more with
      | Some e => fail (total, e)
      | None => λ s,
          match purge s with
          | (Err e, s') => (Err (total, e), s')
          | (Ok n, s') => if n <? batch then (Ok (total + n), s') else PurgeInBatches ctxErr batch more purge (total + n) s'
          end
      end
  end.
Definition purgeBatch : Z := 1000.
Definition maxBatches : nat := 500.
Definition retention (tie : uuid → N) (ctxErr : nat → option ierr) (now : Time) : M idem (Z * ierr) Z :=
  PurgeInBatches ctxErr purgeBatch maxBatches (Purge tie (now - Retention) purgeBatch) 0.

(** * The recorder (handler/recorder.go) *)

(** Headers under their canonical names. *)
Abbreviation headers := (gmap string (list string)).
Record recorder := mkRecorder { rc_body : list Z; rc_header : option headers; rc_incomplete : bool }.
Definition new_recorder : recorder := mkRecorder [] None false.
Definition snapshot (h : headers) (r : recorder) : recorder :=
  match rc_header r with Some _ => r | None => mkRecorder (rc_body r) (Some h) (rc_incomplete r) end.
Definition invalidate (r : recorder) : recorder := mkRecorder [] (rc_header r) true.
Definition bodyAllowedForStatus (status : Z) : bool := (200 <=? status) && negb (status =? 204) && negb (status =? 304).

(** [Write] (and [WriteString]) of [b] when the inner writer has [status] and
    [h], takes [n] bytes and answers an error or not. *)
Record write := mkWrite { wr_status : Z; wr_headers : headers; wr_bytes : list Z; wr_n : nat; wr_err : bool }.
Definition Write (w : write) (r0 : recorder) : recorder :=
  let r1 := snapshot (wr_headers w) r0 in
  let r := if (0 <? Z.of_nat (length (wr_bytes w))) && negb (bodyAllowedForStatus (wr_status w)) then invalidate r1 else r1 in
  if rc_incomplete r then r
  else if wr_err w || negb (Nat.eqb (wr_n w) (length (wr_bytes w))) then invalidate r
  else if MaxBodyBytes <? Z.of_nat (length (rc_body r)) + Z.of_nat (wr_n w) then invalidate r
  else mkRecorder (rc_body r ++ take (wr_n w) (wr_bytes w)) (rc_header r) (rc_incomplete r).

(** [None]: the header occurs more than once. *)
Definition whitelistHeader (h : headers) (name : string) : option string :=
  match h !! name with
  | None | Some [] => Some ""
  | Some [v] => Some v
  | Some _ => None
  end.
(** The status, and the response if it can be repeated; [h] are the inner
    writer's headers now.  [DetectContentType] is net/http's. *)
Definition rec_result (DetectContentType : list Z → string) (status : Z) (h : headers) (r0 : recorder) : Z * option Response :=
  let r := snapshot h r0 in
  if rc_incomplete r then (status, None)
  else match rc_header r with
  | None => (status, None)
  | Some hdr =>
      if negb (is_none (hdr !! "Content-Encoding")) || negb (is_none (hdr !! "Transfer-Encoding")) then (status, None)
      else match whitelistHeader hdr "Content-Type", whitelistHeader hdr "Location", whitelistHeader hdr "Etag",
                 whitelistHeader hdr "Cache-Control", whitelistHeader hdr "Content-Language" with
      | Some ct, Some loc, Some etag, Some cc, Some cl =>
          let hh := mkHeader ct loc etag cc cl in
          if negb (Validate hh) then (status, None)
          else
            let body := rc_body r in
            if String.eqb ct "" && (0 <? Z.of_nat (length body)) && bodyAllowedForStatus status then
              let hh' := mkHeader (DetectContentType body) loc etag cc cl in
              if negb (Validate hh') then (status, None) else (status, Some (mkReply status body hh'))
            else (status, Some (mkReply status body hh))
      | _, _, _, _, _ => (status, None)
      end
  end.

(** * The middleware (handler/middleware.go) *)

(** A request: its key header, what the fingerprint covers, and the body, or
    [None] when reading it fails. *)
Record Request := mkRequest {
  rq_Key : string; rq_Method : string; rq_Path : string; rq_Query : string; rq_Body : option (list Z) }.
Definition begin_request (HMAC : list Z → list Z → list Z) (fpKey : list Z) (who : option Principal) (db : Time) (scope : string)
    (rq : Request) : IM (claim + Response) :=
  if negb (ValidKey (rq_Key rq)) then fail IBadKey
  else match who with
  | None => fail IUnauthorized
  | Some p =>
      if (pr_UserID p =? uuid_Nil)%N then fail IUnauthorized
      else match rq_Body rq with
      | None => fail IBadBody
      | Some body =>
          if MaxBodyBytes <? Z.of_nat (length body) then fail IBodyTooLarge
          else Claim false who db scope (rq_Key rq)
                 (NewFingerprint HMAC fpKey (rq_Method rq) (Target (rq_Path rq) (rq_Query rq)) body)
      end
  end.

(** How the handler ended: with an error it has not written out, with a status
    and what was recorded, or in a panic. *)
Inductive ending := EndedInError (status : Z) | EndedWith (status : Z) (recorded : option Response) | Panicked.
Definition with_status (status : Z) (r : Response) : Response := mkReply status (rp_Body r) (rp_Header r).
Definition end_request (completed : bool) (c : claim) (db : Time) (e : ending) : IM () :=
  if completed then mret ()
  else match e with
  | EndedInError status => Release db (Some c) status
  | EndedWith status recorded =>
      if (200 <=? status) && (status <? 300) then
        match recorded with
        | Some r => Complete db (Some c) (with_status status r)
        | None => CompleteUnreplayable db (Some c) status
        end
      else Release db (Some c) status
  | Panicked => Release db (Some c) 500
  end.
