(* ===== verification/IdemFacts.v ===== *)
(** The table of idempotency keys: its invariant, and what each operation of
    the service that succeeds does to the row of each key. *)
From Stdlib Require Import ZArith Lia.
From stdpp Require Import base tactics list gmap strings sorting.
From S2P Require Import Prelude Safety GoString GoTime LedgerTypes Ledger Promo Idem.
#[local] Open Scope string_scope.
#[local] Open Scope Z_scope.

(** * Keys and rows *)

Definition key3 : Type := string * uuid * string.
Definition key_of (r : IdempotencyKey) : key3 := (ik_Scope r, ik_ActorID r, ik_Key r).
Definition claim_key (c : claim) : key3 := (cl_Scope c, cl_ActorID c, cl_Key c).
Definition same3 (k : key3) : IdempotencyKey → bool := same_key k.1.1 k.1.2 k.2.
Lemma same3_true k r : same3 k r = true ↔ key_of r = k.
Proof.
  destruct k as [[a b] c]. unfold same3, same_key, key_of. simpl. rewrite !andb_true_iff, !String.eqb_eq, N.eqb_eq. split.
  - by intros [[-> ->] ->].
  - by intros [= -> -> ->].
Qed.
Definition row_at (k : key3) (s : idem) : option IdempotencyKey := List.find (same3 k) (keys s).

Record idem_ok (s : idem) : Prop := {
  io_fits : ∀ r, r ∈ keys s → key_fits r = true;
  io_checks : ∀ r, r ∈ keys s → key_check r = true;
  io_ids : NoDup (map ik_ID (keys s));
  io_next : ∀ r, r ∈ keys s → (ik_ID r < idem_next s)%N;
  io_keys : NoDup (map key_of (keys s)) }.
Lemma empty_idem_ok : idem_ok empty_idem.
Proof. split; simpl; try constructor; by intros r Hr%elem_of_nil. Qed.

Lemma find_Some {A} (p : A → bool) l x : List.find p l = Some x → x ∈ l ∧ p x = true.
Proof. intros H%List.find_some. by rewrite list_elem_of_In. Qed.
Lemma find_None {A} (p : A → bool) l x : List.find p l = None → x ∈ l → p x = false.
Proof. intros H Hx. eapply List.find_none; [exact H|]. by apply list_elem_of_In. Qed.
Lemma row_at_in k s r : row_at k s = Some r → r ∈ keys s ∧ key_of r = k.
Proof. intros [Hr Hk]%find_Some. by rewrite <- same3_true. Qed.
Lemma row_at_of s r : idem_ok s → r ∈ keys s → row_at (key_of r) s = Some r.
Proof.
  intros Hs Hr. unfold row_at. destruct (List.find _ _) as [r'|] eqn:E.
  - apply row_at_in in E as [Hr' Hk]. f_equal. by eapply (NoDup_map_inj key_of); [apply (io_keys _ Hs)|..].
  - pose proof (find_None _ _ _ E Hr) as H. by rewrite (proj2 (same3_true _ _) eq_refl) in H.
Qed.
Lemma same_key_row s r r' : idem_ok s → r ∈ keys s → r' ∈ keys s → ik_ID r = ik_ID r' → r = r'.
Proof. intros Hs Hr Hr' E. by eapply (NoDup_map_inj ik_ID); [apply (io_ids _ Hs)|..]. Qed.

(** * Updates *)

Definition stays (f : IdempotencyKey → IdempotencyKey) : Prop := ∀ r, key_of (f r) = key_of r ∧ ik_ID (f r) = ik_ID r.
Lemma taken_stays db : stays (taken_over db).
Proof. by intros r. Qed.
Lemma finished_stays db f : stays (finished_key db f).
Proof. by intros r. Qed.

Lemma find_map {A} (p : A → bool) (g : A → A) l : (∀ x, p (g x) = p x) → List.find p (map g l) = g <$> List.find p l.
Proof. intros H. induction l as [|x l IH]; simpl; [done|]. rewrite H. by destruct (p x). Qed.
Lemma same3_stays k f r : stays f → same3 k (f r) = same3 k r.
Proof. intros Hf. apply Bool.eq_iff_eq_true. rewrite !same3_true. by destruct (Hf r) as [-> _]. Qed.

Lemma update_keys_Ok hit f s n s' : update_keys hit f s = (Ok n, s') → stays f → idem_ok s →
  n = hits hit (keys s) ∧ idem_ok s' ∧ idem_next s' = idem_next s ∧ keys s' = upd hit f (keys s) ∧
  (∀ k, row_at k s' = (λ r, if hit r then f r else r) <$> row_at k s).
Proof.
  unfold update_keys. intros H Hf Hs. destruct (forallb (λ r, negb (hit r) || key_fits (f r)) (keys s)) eqn:E1; [|done].
  destruct (forallb (λ r, negb (hit r) || key_check (f r)) (keys s)) eqn:E2; [|done]. injection H as <- <-.
  rewrite forallb_forall in E1, E2. setoid_rewrite <- list_elem_of_In in E1. setoid_rewrite <- list_elem_of_In in E2.
  assert (Hg : ∀ r, key_of (if hit r then f r else r) = key_of r ∧ ik_ID (if hit r then f r else r) = ik_ID r).
  { intros r. destruct (hit r); [apply Hf|done]. }
  split; [done|]. split; [|split; [done|split; [done|]]].
  - split; simpl.
    + intros r (y & Hy & ->)%upd_in. specialize (E1 _ Hy). destruct (hit y); [done|]. by apply Hs.
    + intros r (y & Hy & ->)%upd_in. specialize (E2 _ Hy). destruct (hit y); [done|]. by apply Hs.
    + unfold upd. rewrite map_map, (map_ext _ ik_ID) by apply Hg. apply Hs.
    + intros r (y & Hy & ->)%upd_in. destruct (Hg y) as [_ ->]. by apply Hs.
    + unfold upd. rewrite map_map, (map_ext _ key_of) by apply Hg. apply Hs.
  - intros k. unfold row_at. simpl. apply find_map. intros r. destruct (hit r); [by apply same3_stays|done].
Qed.

(** An update that aims at one identifier changes one row. *)
Lemma hits_by_id s (hit : IdempotencyKey → bool) id : idem_ok s → (∀ r, hit r = true → ik_ID r = id) → 0 ≤ hits hit (keys s) ≤ 1.
Proof.
  intros Hs Hid. unfold hits. split; [lia|]. assert (H : NoDup (map ik_ID (List.filter hit (keys s)))) by by apply NoDup_filter_map, Hs.
  assert (Ha : ∀ r, r ∈ List.filter hit (keys s) → ik_ID r = id) by (intros r [? _]%elem_of_filter_bool; by apply Hid).
  destruct (List.filter hit (keys s)) as [|x [|y l]]; simpl; [lia..|]. exfalso. simpl in H. apply NoDup_cons in H as [H _]. apply H.
  rewrite (Ha x), <- (Ha y) by (repeat constructor). constructor.
Qed.

(** * The service *)

Lemma Insert_Ok db scope actor key hash s o s' : Insert db scope actor key hash s = (Ok o, s') → idem_ok s →
  let k := (scope, actor, key) in
  (∃ r, o = None ∧ s' = s ∧ row_at k s = Some r) ∨
  (∃ r, o = Some r ∧ row_at k s = None ∧ key_of r = k ∧ ik_ID r = idem_next s ∧ ik_Status r = StatusInFlight ∧ ik_Generation r = 1 ∧
     ik_RequestHash r = hash ∧ idem_ok s' ∧ keys s' = (keys s ++ [r])%list ∧ (∀ k', row_at k' s' = if decide (k' = k) then Some r else row_at k' s)).
Proof.
  unfold Insert. cbv zeta. intros H Hs. destruct (key_fits _) eqn:E1; [|done]. destruct (key_check _) eqn:E2; [|done]. simpl in H.
  destruct (existsb _ _) eqn:E3; injection H as <- <-.
  - left. apply existsb_true in E3 as (r & Hr & Er). change (same3 (scope, actor, key) r = true) in Er. apply same3_true in Er. exists r.
    split_and!; [done..|]. rewrite <- Er. by apply row_at_of.
  - right. rewrite existsb_false in E3. eexists. split; [done|].
    assert (Hn : row_at (scope, actor, key) s = None).
    { destruct (row_at _ s) as [r|] eqn:E; [|done]. apply row_at_in in E as [Hr Hk]. specialize (E3 _ Hr).
      change (same3 (scope, actor, key) r = false) in E3. by rewrite (proj2 (same3_true _ _) Hk) in E3. }
    assert (Hk : (scope, actor, key) ∉ map key_of (keys s)).
    { intros (r & Er & Hr)%list_elem_of_fmap. unfold row_at in Hn. pose proof (find_None _ _ _ Hn Hr) as Hf.
      by rewrite (proj2 (same3_true _ _) (eq_sym Er)) in Hf. }
    split_and!; try done.
    + split; simpl.
      * intros r [Hr| ->%list_elem_of_singleton]%elem_of_app; [by apply Hs|done].
      * intros r [Hr| ->%list_elem_of_singleton]%elem_of_app; [by apply Hs|done].
      * rewrite map_app. apply NoDup_app. split_and!; [apply Hs| |apply NoDup_singleton].
        intros x (r & -> & Hr)%list_elem_of_fmap Hx%list_elem_of_singleton. simpl in Hx. pose proof (io_next _ Hs _ Hr). lia.
      * intros r [Hr| ->%list_elem_of_singleton]%elem_of_app; [pose proof (io_next _ Hs _ Hr); lia|simpl; lia].
      * rewrite map_app. apply NoDup_app. split_and!; [apply Hs| |apply NoDup_singleton].
        intros x Hx ->%list_elem_of_singleton. by apply Hk.
    + intros k'. unfold row_at. simpl. rewrite find_app. case_decide as Ek.
      * subst k'. unfold row_at in Hn. rewrite Hn. simpl. match goal with |- (if ?b then _ else _) = _ => assert (b = true) as -> by by apply same3_true end. done.
      * destruct (List.find _ (keys s)); [done|]. simpl. destruct (same3 k' _) eqn:E; [|done]. by apply same3_true in E.
Qed.

Lemma failed_at_true id g r : failed_at id g r = true ↔ ik_ID r = id ∧ ik_Generation r = g ∧ ik_Status r = StatusFailed.
Proof. unfold failed_at. rewrite !andb_true_iff, N.eqb_eq, Z.eqb_eq, String.eqb_eq. tauto. Qed.
Lemma held_at_true id a g r : held_at id a g r = true ↔ ik_ID r = id ∧ ik_ActorID r = a ∧ ik_Generation r = g ∧ ik_Status r = StatusInFlight.
Proof. unfold held_at. rewrite !andb_true_iff, !N.eqb_eq, Z.eqb_eq, String.eqb_eq. tauto. Qed.

(** The row [r] becomes [r'], the others stay. *)
Record changed (s s' : idem) (r r' : IdempotencyKey) : Prop := {
  ch_ok : idem_ok s';
  ch_next : idem_next s' = idem_next s;
  ch_in : r ∈ keys s;
  ch_key : key_of r' = key_of r;
  ch_id : ik_ID r' = ik_ID r;
  ch_rows : ∀ x, x ∈ keys s' ↔ x = r' ∨ (x ∈ keys s ∧ ik_ID x ≠ ik_ID r);
  ch_at : ∀ k, row_at k s' = if decide (k = key_of r) then Some r' else row_at k s }.
Lemma update_one_key hit f s n s' r : update_keys hit f s = (Ok n, s') → stays f → idem_ok s →
  r ∈ keys s → hit r = true → (∀ x, hit x = true → ik_ID x = ik_ID r) → changed s s' r (f r).
Proof.
  intros H Hf Hs Hr Hh Hid. destruct (update_keys_Ok _ _ _ _ _ H Hf Hs) as (_ & Hs' & Hn & Ek & Ha). destruct (Hf r) as [F1 F2].
  split; [done|done|done|done|done| |].
  - intros x. rewrite Ek, upd_in. split.
    + intros (y & Hy & ->). destruct (hit y) eqn:E; [left; f_equal; eapply same_key_row; [exact Hs|done..|by apply Hid]|].
      right. split; [done|]. intros Hi. pose proof (same_key_row _ _ _ Hs Hy Hr Hi) as ->. congruence.
    + intros [->|[Hx Hi]]; [exists r; by rewrite Hh|]. exists x. split; [done|]. destruct (hit x) eqn:E; [|done]. exfalso. by apply Hi, Hid.
  - intros k. rewrite Ha. case_decide as E.
    + subst k. rewrite (row_at_of _ _ Hs Hr). simpl. by rewrite Hh.
    + destruct (row_at k s) as [x|] eqn:Ex; [|done]. simpl. apply row_at_in in Ex as [Hx <-]. destruct (hit x) eqn:Eh; [|done].
      exfalso. apply E. f_equal. eapply same_key_row; [exact Hs|done..|by apply Hid].
Qed.

Lemma finish_Ok db c f s s' : finish db c f s = (Ok (), s') → idem_ok s →
  ∃ r, held_at (cl_ID c) (cl_ActorID c) (cl_Generation c) r = true ∧ changed s s' r (finished_key db f r).
Proof.
  unfold finish, FinishKey. intros H Hs. apply bind_Ok in H as (ok & s1 & H1 & H). apply bind_Ok in H1 as (n & s2 & H1 & H2). injection H2 as <- <-.
  destruct (Z.eqb_spec n 1) as [->|]; [|done]. injection H as <-.
  destruct (update_keys_Ok _ _ _ _ _ H1 (finished_stays _ _) Hs) as (Hn & _). destruct (hits_one _ _ (eq_sym Hn)) as (r & Hr & Hh).
  exists r. split; [done|]. eapply update_one_key; [exact H1|apply finished_stays|done..|].
  intros x (Hx & _)%held_at_true. apply held_at_true in Hh as (Hh & _). congruence.
Qed.
Lemma upd_none {A} (hit : A → bool) f l : hits hit l = 0 → upd hit f l = l.
Proof.
  unfold hits, upd. induction l as [|x l IH]; simpl; [done|]. destruct (hit x); simpl; [lia|]. intros H. by rewrite IH.
Qed.
Lemma finish_Err db c f s e s' : finish db c f s = (Err e, s') → idem_ok s → s' = s.
Proof.
  intros H Hs. unfold finish, FinishKey in H. unfold mbind, M_bind in H. destruct (update_keys _ _ s) as [[n|x] s1] eqn:E.
  - destruct (update_keys_Ok _ _ _ _ _ E (finished_stays _ _) Hs) as (Hn & _ & Hx & Hk & _). unfold mret, M_ret in H.
    destruct (Z.eqb_spec n 1); [done|]. injection H as _ <-.
    pose proof (hits_by_id s (held_at (cl_ID c) (cl_ActorID c) (cl_Generation c)) (cl_ID c) Hs (λ r Hr, proj1 (proj1 (held_at_true _ _ _ _) Hr))).
    rewrite upd_none in Hk by lia. destruct s, s1. simpl in *. by subst.
  - injection H as _ <-. unfold update_keys in E. destruct (negb _); [by injection E as _ <-|]. destruct (negb _); [by injection E as _ <-|done].
Qed.

Lemma Takeover_Ok db r s o s' : Takeover db (ik_ID r) (ik_Generation r) s = (Ok o, s') → idem_ok s → r ∈ keys s → ik_Status r = StatusFailed →
  o = Some (taken_over db r) ∧ changed s s' r (taken_over db r).
Proof.
  unfold Takeover. intros H Hs Hr Er. apply bind_Ok in H as (b & s1 & [-> ->]%gets_Ok & H). apply bind_Ok in H as (n & s1 & H1 & H).
  assert (Hh : failed_at (ik_ID r) (ik_Generation r) r = true) by by apply failed_at_true.
  assert (Hid : ∀ x, failed_at (ik_ID r) (ik_Generation r) x = true → ik_ID x = ik_ID r) by by intros x (? & _)%failed_at_true.
  destruct (update_keys_Ok _ _ _ _ _ H1 (taken_stays _) Hs) as (Hn & _). injection H as <- <-. split; [|by eapply update_one_key; [|apply taken_stays|..]].
  pose proof (hits_by_id s _ _ Hs Hid). assert (hits (failed_at (ik_ID r) (ik_Generation r)) (keys s) ≠ 0).
  { unfold hits. assert (Hi : r ∈ List.filter (failed_at (ik_ID r) (ik_Generation r)) (keys s)) by by apply elem_of_filter_bool.
    destruct (List.filter _ _); [by apply elem_of_nil in Hi|simpl; lia]. }
  destruct (Z.eqb_spec n 1); [|lia]. destruct (List.find _ _) as [x|] eqn:E.
  - apply find_Some in E as [Hx Ex]. simpl. do 2 f_equal. eapply same_key_row; [exact Hs|done..|by apply Hid].
  - pose proof (find_None _ _ _ E Hr). congruence.
Qed.

(** What a claim that is answered has found: a free key, a failed execution to
    take over, or a response to repeat. *)
Definition answers (s : idem) (scope : string) (actor : uuid) (key : string) (fp : list Z) (x : claim + Response) (s' : idem) : Prop :=
  let k := (scope, actor, key) in
  (∃ r, x = inl (newClaim r fp) ∧ row_at k s = None ∧ key_of r = k ∧ ik_ID r = idem_next s ∧ ik_Status r = StatusInFlight ∧ ik_Generation r = 1 ∧
     ik_RequestHash r = fp ∧ idem_ok s' ∧ keys s' = (keys s ++ [r])%list ∧ (∀ k', row_at k' s' = if decide (k' = k) then Some r else row_at k' s)) ∨
  (∃ r db, x = inl (newClaim (taken_over db r) fp) ∧ row_at k s = Some r ∧ ik_RequestHash r = fp ∧ ik_Status r = StatusFailed ∧
     changed s s' r (taken_over db r)) ∨
  (∃ r resp, x = inr resp ∧ row_at k s = Some r ∧ ik_RequestHash r = fp ∧ ik_Status r = StatusSucceeded ∧ ik_Replayable r = true ∧
     replayOf r = Ok resp ∧ s' = s).
Lemma Claim_Ok who db scope key fp s x s' : Claim false who db scope key fp s = (Ok x, s') → idem_ok s →
  ∃ p, who = Some p ∧ pr_UserID p ≠ uuid_Nil ∧ ValidScope scope = true ∧ ValidKey key = true ∧ answers s scope (pr_UserID p) key fp x s'.
Proof.
  unfold Claim. intros H Hs. destruct (ValidScope scope) eqn:Es; [|done]. destruct (ValidKey key) eqn:Ek; [|done]. simpl in H.
  destruct who as [p|]; [|done]. destruct (N.eqb_spec (pr_UserID p) uuid_Nil) as [|Hp]; [done|]. exists p. split_and!; [done..|].
  apply Do_Ok in H. apply bind_Ok in H as (o & s1 & H1 & H). apply Insert_Ok in H1; [|done]. cbv zeta in H1.
  destruct H1 as [(r0 & -> & -> & H0)|(r & -> & Hr & R2)].
  2: { left. injection H as <- <-. by exists r. }
  apply bind_Ok in H as (r & s1 & H1 & H). unfold LockForUpdate in H1. change (List.find _ (keys s)) with (row_at (scope, pr_UserID p, key) s) in H1.
  rewrite H0 in H1. injection H1 as <- <-. destruct (bool_decide_reflect (ik_RequestHash r0 = fp)) as [Hf|]; [|done]. cbv beta iota in H. simpl negb in H. cbv iota in H.
  destruct (String.eqb_spec (ik_Status r0) StatusInFlight); [done|]. destruct (String.eqb_spec (ik_Status r0) StatusSucceeded) as [E1|].
  - right; right. destruct (ik_Replayable r0) eqn:E2; [|done]. simpl in H. apply bind_Ok in H as (resp & s1 & [H1 ->]%lift_Ok & H). injection H as <- <-. by exists r0, resp.
  - right; left. destruct (String.eqb_spec (ik_Status r0) StatusFailed) as [E1|]; [|done]. apply bind_Ok in H as (o & s1 & H1 & H).
    pose proof (row_at_in _ _ _ H0) as [Hr0 _]. apply Takeover_Ok in H1 as [-> Hc]; [|done..]. injection H as <- <-. by exists r0, db.
Qed.
Lemma Claim_Err who db scope key fp s e s' : Claim false who db scope key fp s = (Err e, s') → s' = s.
Proof.
  unfold Claim. destruct (negb _); [by intros [= _ <-]|]. destruct (negb _); [by intros [= _ <-]|]. destruct who as [p|]; [|by intros [= _ <-]].
  destruct (_ =? _)%N; [by intros [= _ <-]|]. apply Do_Err.
Qed.

(** * Purging *)

Definition purged (tie : uuid → N) (before : Time) (limit : Z) (s : idem) : list uuid :=
  map ik_ID (take (Z.to_nat limit) (merge_sort (older tie) (List.filter (λ r, ik_CreatedAt r <? before) (keys s)))).
Lemma purged_old tie before limit s r : idem_ok s → r ∈ keys s → ik_ID r ∈ purged tie before limit s → ik_CreatedAt r < before.
Proof.
  intros Hs Hr (x & Ex & Hx)%list_elem_of_fmap. apply elem_of_take in Hx as (i & Hx%list_elem_of_lookup_2 & _). rewrite (merge_sort_Permutation (older tie)) in Hx.
  apply elem_of_filter_bool in Hx as [Hx1%Z.ltb_lt Hx2]. by rewrite (same_key_row _ _ _ Hs Hr Hx2 Ex).
Qed.
Lemma find_filter_one (p q : IdempotencyKey → bool) l : (∀ x y, x ∈ l → y ∈ l → p x = true → p y = true → x = y) →
  List.find p (List.filter q l) = match List.find p l with Some r => if q r then Some r else None | None => None end.
Proof.
  induction l as [|x l IH]; intros Hu; [done|]. simpl. assert (Hu' : ∀ a b, a ∈ l → b ∈ l → p a = true → p b = true → a = b).
  { intros a b Ha Hb. apply Hu; by constructor. }
  destruct (p x) eqn:Ex, (q x) eqn:Eq; simpl; rewrite ?Ex; [done| |by apply IH..]. rewrite (IH Hu'). destruct (List.find p l) as [r|] eqn:E; [|done].
  apply find_Some in E as [Hr Er]. assert (x = r) as <- by (apply Hu; [constructor|by constructor|done..]). by rewrite Eq.
Qed.
Lemma filter_ok s (q : IdempotencyKey → bool) : idem_ok s → idem_ok (mkIdem (List.filter q (keys s)) (idem_next s)).
Proof.
  intros Hs. split; simpl.
  - intros r [_ Hr]%elem_of_filter_bool. by apply Hs.
  - intros r [_ Hr]%elem_of_filter_bool. by apply Hs.
  - apply NoDup_filter_map, Hs.
  - intros r [_ Hr]%elem_of_filter_bool. by apply Hs.
  - apply NoDup_filter_map, Hs.
Qed.
Lemma row_at_filter s q k : idem_ok s →
  row_at k (mkIdem (List.filter q (keys s)) (idem_next s)) = match row_at k s with Some r => if q r then Some r else None | None => None end.
Proof.
  intros Hs. unfold row_at. apply find_filter_one. intros x y Hx Hy Ex%same3_true Ey%same3_true.
  eapply (NoDup_map_inj key_of); [apply (io_keys _ Hs)|done..|congruence].
Qed.
