(* ===== verification/IdemHistory.v ===== *)
(** Requests with idempotency keys as they interleave.  Each transaction is one
    step: a request claims its key, a transaction of its handler may complete
    the claim together with the handler's own writes, the request ends, or the
    process dies with it; rows past their retention are purged.  A log notes
    what happened to each key; it follows the life of a key. *)
From Stdlib Require Import ZArith Lia.
From stdpp Require Import base tactics list gmap strings sorting relations.
From S2P Require Import Prelude Safety GoString GoTime LedgerTypes Ledger Promo Idem IdemFacts.
#[local] Open Scope string_scope.
#[local] Open Scope Z_scope.

(** * The life of a key *)

Inductive act :=
| Began (generation : Z)
| Done (generation : Z) (r : option Response) (resource : option uuid)
| Freed (generation : Z)
| Replayed (r : Response)
| Purged.
Inductive life_state := Absent | Running (generation : Z) | Free (generation : Z) | Over (r : option Response) (resource : option uuid).
Inductive next : life_state → act → life_state → Prop :=
| nx_first : next Absent (Began 1) (Running 1)
| nx_again g : next (Free g) (Began (g + 1)) (Running (g + 1))
| nx_done g r res : next (Running g) (Done g r res) (Over r res)
| nx_freed g : next (Running g) (Freed g) (Free g)
| nx_replayed r res : next (Over (Some r) res) (Replayed r) (Over (Some r) res)
| nx_purged s : next s Purged Absent.
Inductive life : list act → life_state → Prop :=
| life_new : life [] Absent
| life_on l s a s' : life l s → next s a s' → life (l ++ [a]) s'.

(** The state a row stands for. *)
Definition replay_of (r : IdempotencyKey) : option Response :=
  if ik_Replayable r then match replayOf r with Ok x => Some x | Err _ => None end else None.
Definition key_state (o : option IdempotencyKey) : life_state :=
  match o with
  | None => Absent
  | Some r =>
      if String.eqb (ik_Status r) StatusInFlight then Running (ik_Generation r)
      else if String.eqb (ik_Status r) StatusFailed then Free (ik_Generation r)
      else Over (replay_of r) (ik_ResourceID r)
  end.

(** * The system *)

Section System.
(** The handlers' own tables, their errors and what is checked at the commit. *)
Context {B X : Type} (deferred : B → result X ()) (HMAC : list Z → list Z → list Z) (fpKey : list Z).

Record exec := mkExec { ex_claim : claim; ex_completed : bool }.
Record net := mkNet { n_biz : B; n_idem : idem; n_execs : gmap N exec; n_count : N; n_log : list (key3 * act) }.
Definition new_net (b : B) : net := mkNet b empty_idem ∅ 0 [].
Definition events_of (k : key3) (l : list (key3 * act)) : list act := omap (λ ka, if decide (ka.1 = k) then Some ka.2 else None) l.

(** A request arrives. *)
Definition begin_step (who : option Principal) (db : Time) (scope : string) (rq : Request) (w : net) : net :=
  match begin_request HMAC fpKey who db scope rq (n_idem w) with
  | (Ok (inl c), s) =>
      mkNet (n_biz w) s (<[n_count w := mkExec c false]> (n_execs w)) (N.succ (n_count w)) (n_log w ++ [(claim_key c, Began (cl_Generation c))])
  | (Ok (inr r), s) =>
      mkNet (n_biz w) s (n_execs w) (n_count w)
        (n_log w ++ [((scope, default uuid_Nil (pr_UserID <$> who), rq_Key rq), Replayed r)])
  | (Err _, s) => mkNet (n_biz w) s (n_execs w) (n_count w) (n_log w)
  end.

(** A transaction of the handler of request [i] that creates a resource and
    completes the claim, bound to it if [typ] is given. *)
Definition complete_in (db : Time) (c : claim) (typ : option string) (r : Response) (id : uuid) : IM () :=
  match typ with Some t => CompleteBound db (Some c) r (mkResource t id) | None => Complete db (Some c) r end.
Definition bound_tx (tx : M B X uuid) (db : Time) (c : claim) (typ : option string) (r : uuid → Response) : M (B * idem) (X + ierr) uuid :=
  Do false (λ s, match deferred s.1 with Ok _ => Ok () | Err e => Err (inl e) end) (
    id ← zoom fst (λ b s, (b, s.2)) inl tx;
    _ ← zoom snd (λ x s, (s.1, x)) inr (complete_in db c typ (r id) id);
    mret id).
Definition bound_step (i : N) (tx : M B X uuid) (db : Time) (typ : option string) (r : uuid → Response) (w : net) : net :=
  match n_execs w !! i with
  | None => w
  | Some e =>
      match bound_tx tx db (ex_claim e) typ r (n_biz w, n_idem w) with
      | (Ok id, (b, s)) =>
          mkNet b s (<[i := mkExec (ex_claim e) true]> (n_execs w)) (n_count w)
            (n_log w ++ [(claim_key (ex_claim e), Done (cl_Generation (ex_claim e)) (Some (r id)) (const id <$> typ))])
      | (Err _, (b, s)) => mkNet b s (n_execs w) (n_count w) (n_log w)
      end
  end.

(** Request [i] ends; an error of the last write is only logged. *)
Definition end_act (c : claim) (e : ending) : act :=
  match e with
  | EndedWith status recorded =>
      if (200 <=? status) && (status <? 300) then Done (cl_Generation c) (with_status status <$> recorded) None else Freed (cl_Generation c)
  | _ => Freed (cl_Generation c)
  end.
Definition end_step (i : N) (db : Time) (how : ending) (w : net) : net :=
  match n_execs w !! i with
  | None => w
  | Some e =>
      let '(r, s) := end_request (ex_completed e) (ex_claim e) db how (n_idem w) in
      mkNet (n_biz w) s (delete i (n_execs w)) (n_count w)
        (n_log w ++ match r with Ok _ => if ex_completed e then [] else [(claim_key (ex_claim e), end_act (ex_claim e) how)] | Err _ => [] end)
  end.

Definition purge_step (tie : uuid → N) (before : Time) (batch : Z) (w : net) : net :=
  match Purge tie before batch (n_idem w) with
  | (Ok _, s) =>
      mkNet (n_biz w) s (n_execs w) (n_count w)
        (n_log w ++ map (λ r, (key_of r, Purged)) (List.filter (λ r, bool_decide (ik_ID r ∈ purged tie before batch (n_idem w))) (keys (n_idem w))))
  | (Err _, s) => mkNet (n_biz w) s (n_execs w) (n_count w) (n_log w)
  end.

Inductive net_step (w : net) : net → Prop :=
| ns_begin who db scope rq : net_step w (begin_step who db scope rq w)
| ns_bound i tx db typ r : net_step w (bound_step i tx db typ r w)
| ns_biz b : net_step w (mkNet b (n_idem w) (n_execs w) (n_count w) (n_log w))
| ns_end i db how : net_step w (end_step i db how w)
| ns_crash i : net_step w (mkNet (n_biz w) (n_idem w) (delete i (n_execs w)) (n_count w) (n_log w))
| ns_purge tie before batch : net_step w (purge_step tie before batch w).

(** * The invariant *)

Lemma events_of_app k l l' : events_of k (l ++ l') = (events_of k l ++ events_of k l')%list.
Proof. apply omap_app. Qed.
Lemma events_of_one k k' a : events_of k [(k', a)] = if decide (k' = k) then [a] else [].
Proof. unfold events_of. simpl. by case_decide. Qed.

(** A live execution has its row as it left it, unless the row was purged. *)
Definition in_hand (s : idem) (log : list (key3 * act)) (e : exec) : Prop :=
  let c := ex_claim e in
  (∃ r, r ∈ keys s ∧ ik_ID r = cl_ID c ∧ key_of r = claim_key c ∧ ik_Generation r = cl_Generation c ∧
        ik_Status r = if ex_completed e then StatusSucceeded else StatusInFlight) ∨
  ((∀ r, r ∈ keys s → ik_ID r ≠ cl_ID c) ∧ Purged ∈ events_of (claim_key c) log).
Record net_ok (w : net) : Prop := {
  no_idem : idem_ok (n_idem w);
  no_life : ∀ k, life (events_of k (n_log w)) (key_state (row_at k (n_idem w)));
  no_fresh : ∀ i e, n_execs w !! i = Some e → (i < n_count w)%N ∧ (cl_ID (ex_claim e) < idem_next (n_idem w))%N;
  no_held : ∀ i e, n_execs w !! i = Some e → in_hand (n_idem w) (n_log w) e;
  no_alone : ∀ i j e e', n_execs w !! i = Some e → n_execs w !! j = Some e' → cl_ID (ex_claim e) = cl_ID (ex_claim e') → i = j }.
Lemma new_net_ok b : net_ok (new_net b).
Proof. split; simpl; [apply empty_idem_ok|intros k; apply life_new|..]; intros i; intros; by destruct (lookup_empty_Some (M := gmap N) (A := exec) i _ ltac:(eassumption)). Qed.

Lemma in_hand_log s log log' e : in_hand s log e → in_hand s (log ++ log') e.
Proof. intros [H|[H1 H2]]; [by left|]. right. split; [done|]. rewrite events_of_app. apply elem_of_app. by left. Qed.
Lemma in_hand_other s s' r r' log log' e : changed s s' r r' → cl_ID (ex_claim e) ≠ ik_ID r → in_hand s log e → in_hand s' (log ++ log') e.
Proof.
  intros Hc Hne H. apply (in_hand_log _ _ log') in H as [(x & Hx & Ei & Hr)|[H1 H2]].
  - left. exists x. split; [|done]. apply (ch_rows _ _ _ _ Hc). right. split; [done|congruence].
  - right. split; [|done]. intros x [->|[Hx _]]%(ch_rows _ _ _ _ Hc); [|by apply H1]. rewrite (ch_id _ _ _ _ Hc). congruence.
Qed.
(** The row an execution holds is the one its claim names. *)
Lemma in_hand_row s log e r : idem_ok s → in_hand s log e → r ∈ keys s → ik_ID r = cl_ID (ex_claim e) →
  key_of r = claim_key (ex_claim e) ∧ ik_Generation r = cl_Generation (ex_claim e) ∧
  ik_Status r = if ex_completed e then StatusSucceeded else StatusInFlight.
Proof. intros Hs [(x & Hx & Ei & H)|[H _]] Hr Er; [|by destruct (H _ Hr)]. assert (r = x) as ->; [|done]. eapply same_key_row; [done..|congruence]. Qed.

Lemma life_changed w s' r r' a : net_ok w → changed (n_idem w) s' r r' → next (key_state (Some r)) a (key_state (Some r')) →
  ∀ k, life (events_of k (n_log w ++ [(key_of r, a)])) (key_state (row_at k s')).
Proof.
  intros Hw Hc Hn k. rewrite events_of_app, events_of_one, (ch_at _ _ _ _ Hc). pose proof (no_life _ Hw k) as Hl.
  destruct (decide (key_of r = k)) as [<-|]; [|rewrite app_nil_r; by rewrite decide_False by done]. rewrite decide_True by done.
  rewrite (row_at_of _ _ (no_idem _ Hw) (ch_in _ _ _ _ Hc)) in Hl. by econstructor.
Qed.
Lemma state_running r : ik_Status r = StatusInFlight → key_state (Some r) = Running (ik_Generation r).
Proof. intros Es. simpl. by rewrite Es. Qed.
Lemma state_free r : ik_Status r = StatusFailed → key_state (Some r) = Free (ik_Generation r).
Proof. intros Es. simpl. by rewrite Es. Qed.
Lemma state_over r : ik_Status r = StatusSucceeded → key_state (Some r) = Over (replay_of r) (ik_ResourceID r).
Proof. intros Es. simpl. by rewrite Es. Qed.

(** * Claims *)

Lemma begin_request_Ok who db scope rq s x s' : begin_request HMAC fpKey who db scope rq s = (Ok x, s') → idem_ok s →
  ∃ p fp, who = Some p ∧ answers s scope (pr_UserID p) (rq_Key rq) fp x s'.
Proof.
  unfold begin_request. intros H Hs. destruct (negb _); [done|]. destruct who as [p|]; [|done]. destruct (_ =? _)%N; [done|].
  destruct (rq_Body rq) as [body|]; [|done]. destruct (_ <? _); [done|]. apply Claim_Ok in H as (p' & [= <-] & _ & _ & _ & H); [|done]. by eexists p, _.
Qed.
Lemma begin_request_Err who db scope rq s e s' : begin_request HMAC fpKey who db scope rq s = (Err e, s') → s' = s.
Proof.
  unfold begin_request. destruct (negb _); [by intros [= _ <-]|]. destruct who as [p|]; [|by intros [= _ <-]]. destruct (_ =? _)%N; [by intros [= _ <-]|].
  destruct (rq_Body rq); [|by intros [= _ <-]]. destruct (_ <? _); [by intros [= _ <-]|]. apply Claim_Err.
Qed.

(** A claim on a new row or on one that was free. *)
Lemma claimed_ok w s' c log' : net_ok w → idem_ok s' →
  (∀ k, life (events_of k (n_log w ++ log')) (key_state (row_at k s'))) → (idem_next (n_idem w) <= idem_next s')%N → (cl_ID c < idem_next s')%N →
  in_hand s' (n_log w ++ log') (mkExec c false) →
  (∀ i e, n_execs w !! i = Some e → cl_ID (ex_claim e) ≠ cl_ID c ∧ in_hand s' (n_log w ++ log') e) →
  net_ok (mkNet (n_biz w) s' (<[n_count w := mkExec c false]> (n_execs w)) (N.succ (n_count w)) (n_log w ++ log')).
Proof.
  intros Hw Hs Hl Hn Hc Hh Ho. split; simpl; [done|done| | |].
  - intros i e [[<- <-]|[_ Hi]]%lookup_insert_Some; simpl; [lia|]. destruct (no_fresh _ Hw _ _ Hi). lia.
  - intros i e [[<- <-]|[_ Hi]]%lookup_insert_Some; [done|by eapply Ho].
  - intros i j e e' [[<- <-]|[_ Hi]]%lookup_insert_Some [[<- <-]|[_ Hj]]%lookup_insert_Some; simpl.
    + done.
    + intros Es. by destruct (Ho _ _ Hj) as [[] _].
    + intros Es. by destruct (Ho _ _ Hi) as [[] _].
    + by apply (no_alone _ Hw).
Qed.
Lemma begin_ok who db scope rq w : net_ok w → net_ok (begin_step who db scope rq w).
Proof.
  intros Hw. pose proof (no_idem _ Hw) as Hs. unfold begin_step. destruct (begin_request _ _ _ _ _ _ _) as [[x|e] s'] eqn:Eb.
  2: { apply begin_request_Err in Eb as ->. by destruct Hw. }
  apply begin_request_Ok in Eb as (p & fp & -> & Ha); [|done]. unfold answers in Ha. cbv zeta in Ha.
  destruct Ha as [(r & -> & H0 & Ek & Ei & Es & Eg & _ & Hs' & Er & Hat)|[(r & db' & -> & H0 & _ & Es & Hc)|(r & resp & -> & H0 & _ & Es & Ep & Er & ->)]].
  - apply claimed_ok; [done|done| | | | |].
    + intros k. change (claim_key (newClaim r fp)) with (key_of r). change (cl_Generation (newClaim r fp)) with (ik_Generation r).
      rewrite events_of_app, events_of_one, Hat, Ek, Eg. pose proof (no_life _ Hw k) as Hl. destruct (decide ((scope, pr_UserID p, rq_Key rq) = k)) as [<-|].
      * rewrite !decide_True by done. rewrite H0 in Hl. rewrite (state_running _ Es), Eg. econstructor; [exact Hl|constructor].
      * rewrite !decide_False by congruence. by rewrite app_nil_r.
    + assert (Hin : r ∈ keys s') by (rewrite Er; apply elem_of_app; right; constructor). pose proof (io_next _ Hs' _ Hin). lia.
    + assert (Hin : r ∈ keys s') by (rewrite Er; apply elem_of_app; right; constructor). apply (io_next _ Hs' _ Hin).
    + left. exists r. rewrite Er. split_and!; [apply elem_of_app; right; constructor|done..].
    + intros i e Hi. change (cl_ID (newClaim r fp)) with (ik_ID r). destruct (no_fresh _ Hw _ _ Hi) as [_ Hf]. split; [lia|].
      apply in_hand_log. destruct (no_held _ Hw _ _ Hi) as [(y & Hy & Hr)|[Hn Hp]].
      * left. exists y. rewrite Er. split; [apply elem_of_app; by left|done].
      * right. split; [|done]. rewrite Er. intros y [Hy| ->%list_elem_of_singleton]%elem_of_app; [by apply Hn|lia].
  - assert (Hne : ∀ i e, n_execs w !! i = Some e → cl_ID (ex_claim e) ≠ ik_ID r).
    { intros i e Hi E. destruct (in_hand_row _ _ _ _ Hs (no_held _ Hw _ _ Hi) (ch_in _ _ _ _ Hc) (eq_sym E)) as (_ & _ & Hst).
      rewrite Es in Hst. by destruct (ex_completed e). }
    apply claimed_ok; [done|apply (ch_ok _ _ _ _ Hc)| | | | |].
    + change (claim_key (newClaim (taken_over db' r) fp)) with (key_of r). apply life_changed with (r' := taken_over db' r); [done..|].
      rewrite (state_free _ Es), state_running by done. constructor.
    + by rewrite (ch_next _ _ _ _ Hc).
    + rewrite (ch_next _ _ _ _ Hc). apply (io_next _ Hs r), Hc.
    + left. exists (taken_over db' r). split_and!; [apply (ch_rows _ _ _ _ Hc); by left|done..].
    + intros i e Hi. split; [by eapply Hne|]. eapply in_hand_other; [exact Hc|by eapply Hne|by eapply no_held].
  - simpl. destruct Hw as [_ Hl Hf Hh Ha]. split; simpl; [done| |done| |done].
    + intros k. rewrite events_of_app, events_of_one. specialize (Hl k). destruct (decide (_ = k)) as [<-|]; [|by rewrite app_nil_r].
      rewrite H0 in *. rewrite (state_over _ Es) in *. unfold replay_of in *. rewrite Ep, Er in *. econstructor; [exact Hl|constructor].
    + intros i e Hi. by apply in_hand_log, Hh with i.
Qed.

(** * Completions *)

Lemma optional_deref x : deref (optional x) = x.
Proof. unfold optional. destruct (String.eqb_spec x ""); [by subst|done]. Qed.
Lemma successFinish_Ok c r x : successFinish (Some c) r = Ok x →
  x = (c, mkFinish StatusSucceeded (rp_Status r) true (rp_Body r) (header_columns (rp_Header r)) None None).
Proof. unfold successFinish. destruct (negb _); [done|]. destruct (_ <? _); [done|]. destruct (negb _); [done|]. by intros [= <-]. Qed.
Lemma replay_finished db f r resp : fi_Replayable f = true → fi_Code f = rp_Status resp → fi_Body f = rp_Body resp →
  fi_Header f = header_columns (rp_Header resp) → replay_of (finished_key db f r) = Some resp.
Proof.
  intros E1 E2 E3 E4. unfold replay_of, replayOf. simpl. rewrite E1, E2, E3, E4. simpl. rewrite !optional_deref. by destruct resp as [? ? []].
Qed.

(** A completion by the holder [i], whose execution goes on as [e'] or ends. *)
Lemma finish_net_ok w i e b s' execs' r r' a : net_ok w → n_execs w !! i = Some e → changed (n_idem w) s' r r' →
  ik_ID r = cl_ID (ex_claim e) → key_of r = claim_key (ex_claim e) → next (key_state (Some r)) a (key_state (Some r')) →
  (execs' = delete i (n_execs w) ∨
   (execs' = <[i := mkExec (ex_claim e) true]> (n_execs w) ∧ ik_Generation r' = cl_Generation (ex_claim e) ∧ ik_Status r' = StatusSucceeded)) →
  net_ok (mkNet b s' execs' (n_count w) (n_log w ++ [(claim_key (ex_claim e), a)])).
Proof.
  intros Hw Hi Hc Er Ek Hn Hex. pose proof (life_changed _ _ _ _ _ Hw Hc Hn) as Hl. rewrite Ek in Hl.
  assert (Ho : ∀ j e', j ≠ i → n_execs w !! j = Some e' → cl_ID (ex_claim e') ≠ ik_ID r).
  { intros j e' Hj He E. rewrite Er in E. by apply Hj, (no_alone _ Hw _ _ _ _ He Hi). }
  split; simpl; [apply (ch_ok _ _ _ _ Hc)|done| | |]; rewrite ?(ch_next _ _ _ _ Hc); destruct Hex as [->|(-> & Eg & Es)].
  - intros j e' [_ Hj]%lookup_delete_Some. by apply (no_fresh _ Hw).
  - intros j e' [[<- <-]|[_ Hj]]%lookup_insert_Some; [apply (no_fresh _ Hw _ _ Hi)|by apply (no_fresh _ Hw)].
  - intros j e' [Hj He]%lookup_delete_Some. eapply in_hand_other; [exact Hc|by eapply Ho|by eapply no_held].
  - intros j e' [[<- <-]|[Hj He]]%lookup_insert_Some.
    + left. exists r'. rewrite (ch_id _ _ _ _ Hc), (ch_key _ _ _ _ Hc). split_and!; [apply (ch_rows _ _ _ _ Hc); by left|done..].
    + eapply in_hand_other; [exact Hc|by eapply Ho|by eapply no_held].
  - intros j k e1 e2 [_ H1]%lookup_delete_Some [_ H2]%lookup_delete_Some. by apply (no_alone _ Hw).
  - intros j k e1 e2 [[<- <-]|[_ H1]]%lookup_insert_Some [[<- <-]|[_ H2]]%lookup_insert_Some; simpl; [done|..]; by apply (no_alone _ Hw).
Qed.
Lemma finish_held w i e db f s' : net_ok w → n_execs w !! i = Some e → finish db (ex_claim e) f (n_idem w) = (Ok (), s') →
  ∃ r, changed (n_idem w) s' r (finished_key db f r) ∧ ik_ID r = cl_ID (ex_claim e) ∧ key_of r = claim_key (ex_claim e) ∧
       ik_Generation r = cl_Generation (ex_claim e) ∧ ik_Status r = StatusInFlight.
Proof.
  intros Hw Hi H. apply finish_Ok in H as (r & Hh & Hc); [|apply Hw]. apply held_at_true in Hh as (H1 & _ & H3 & H4).
  destruct (in_hand_row _ _ _ _ (no_idem _ Hw) (no_held _ Hw _ _ Hi) (ch_in _ _ _ _ Hc) H1) as (? & _ & _). by exists r.
Qed.

Lemma complete_in_Ok db c typ r id s s' : complete_in db c typ r id s = (Ok (), s') →
  ∃ f, finish db c f s = (Ok (), s') ∧ fi_Status f = StatusSucceeded ∧ fi_Code f = rp_Status r ∧ fi_Replayable f = true ∧ fi_Body f = rp_Body r ∧
       fi_Header f = header_columns (rp_Header r) ∧ fi_ResourceID f = const id <$> typ.
Proof.
  unfold complete_in. destruct typ as [t|].
  - unfold CompleteBound. destruct (_ || _); [done|]. intros (x & s1 & [->%successFinish_Ok ->]%lift_Ok & H)%bind_Ok. simpl in H. by eexists.
  - unfold Complete. intros (x & s1 & [->%successFinish_Ok ->]%lift_Ok & H)%bind_Ok. simpl in H. by eexists.
Qed.
Lemma bound_ok i tx db typ r w : net_ok w → net_ok (bound_step i tx db typ r w).
Proof.
  intros Hw. unfold bound_step. destruct (n_execs w !! i) as [e|] eqn:Hi; [|done].
  destruct (bound_tx _ _ _ _ _ _) as [[id|x] [b s']] eqn:Eb.
  2: { unfold bound_tx in Eb. apply Do_Err in Eb. injection Eb as -> ->. by destruct Hw. }
  unfold bound_tx in Eb. apply Do_Ok in Eb. apply bind_Ok in Eb as (id' & s1 & H1 & Eb). apply zoom_Ok in H1 as (b1 & _ & ->). simpl in Eb.
  apply bind_Ok in Eb as ([] & s2 & H2 & Eb). apply zoom_Ok in H2 as (s3 & H2 & ->). simpl in H2, Eb. injection Eb as -> <- <-.
  apply complete_in_Ok in H2 as (f & H2 & F1 & F2 & F3 & F4 & F5 & F6).
  destruct (finish_held _ _ _ _ _ _ Hw Hi H2) as (r0 & Hc & Ei & Ek & Eg & Es). eapply finish_net_ok; [done|done|exact Hc|done|done| |right; by split_and!].
  rewrite (state_running _ Es), state_over by done. rewrite (replay_finished _ _ _ (r id)) by done. simpl. rewrite F6, Eg. constructor.
Qed.

Lemma end_request_Ok c db how s s' : end_request false c db how s = (Ok (), s') →
  ∃ f, finish db c f s = (Ok (), s') ∧
    ((fi_Status f = StatusFailed ∧ end_act c how = Freed (cl_Generation c)) ∨
     (fi_Status f = StatusSucceeded ∧ ∃ resp, end_act c how = Done (cl_Generation c) resp None ∧ ∀ r, replay_of (finished_key db f r) = resp ∧ fi_ResourceID f = None)).
Proof.
  assert (HR : ∀ status, Release db (Some c) status s = (Ok (), s') →
    ∃ f, finish db c f s = (Ok (), s') ∧ fi_Status f = StatusFailed).
  { intros st H. unfold Release in H. destruct (_ || _); [done|]. by eexists. }
  unfold end_request. intros H. destruct how as [st|st rec|].
  - apply HR in H as (f & H & Hf). exists f. split; [done|]. by left.
  - simpl. destruct (_ && _); [|apply HR in H as (f & H & Hf); exists f; split; [done|]; by left]. destruct rec as [r|].
    + unfold Complete in H. apply bind_Ok in H as (x & s1 & [->%successFinish_Ok ->]%lift_Ok & H). simpl in H. eexists. split; [exact H|]. right. split; [done|].
      eexists. split; [done|]. intros y. split; [|done]. apply (replay_finished _ _ _ (with_status st r)); done.
    + unfold CompleteUnreplayable in H. destruct (negb _); [done|]. eexists. split; [exact H|]. right. split; [done|]. by eexists.
  - apply HR in H as (f & H & Hf). exists f. split; [done|]. by left.
Qed.
Lemma end_request_Err b c db how s e s' : end_request b c db how s = (Err e, s') → idem_ok s → s' = s.
Proof.
  intros H Hs. unfold end_request in H. destruct b; [done|].
  assert (HR : ∀ st, Release db (Some c) st s = (Err e, s') → s' = s).
  { intros st Hx. unfold Release in Hx. destruct (_ || _); [by injection Hx as _ <-|by eapply finish_Err]. }
  destruct how as [st|st rec|]; [by eapply HR| |by eapply HR]. destruct (_ && _); [|by eapply HR]. destruct rec as [r|].
  - unfold Complete, mbind, M_bind, lift in H. destruct (successFinish _ _); [by eapply finish_Err|by injection H as _ <-].
  - unfold CompleteUnreplayable in H. destruct (negb _); [by injection H as _ <-|by eapply finish_Err].
Qed.
Lemma fewer_ok w i : net_ok w → net_ok (mkNet (n_biz w) (n_idem w) (delete i (n_execs w)) (n_count w) (n_log w)).
Proof.
  intros [H1 H2 H3 H4 H5]. split; simpl; [done|done|..].
  - intros j e [_ Hj]%lookup_delete_Some. by apply H3.
  - intros j e [_ Hj]%lookup_delete_Some. by apply H4 with j.
  - intros j k e e' [_ Hj]%lookup_delete_Some [_ Hk]%lookup_delete_Some. by apply H5.
Qed.
Lemma end_ok i db how w : net_ok w → net_ok (end_step i db how w).
Proof.
  intros Hw. unfold end_step. destruct (n_execs w !! i) as [e|] eqn:Hi; [|done]. destruct (end_request _ _ _ _ _) as [[[]|x] s'] eqn:Ee.
  2: { apply end_request_Err in Ee as ->; [|apply Hw]. rewrite app_nil_r. by apply fewer_ok. }
  destruct (ex_completed e) eqn:Ec; [injection Ee as <-; rewrite app_nil_r; by apply fewer_ok|].
  apply end_request_Ok in Ee as (f & Hf & Hact). destruct (finish_held _ _ _ _ _ _ Hw Hi Hf) as (r & Hc & Ei & Ek & Eg & Es).
  eapply finish_net_ok; [done|done|exact Hc|done|done| |by left]. rewrite (state_running _ Es), Eg. destruct Hact as [[F ->]|(F & resp & -> & Hr)].
  - rewrite state_free by done. simpl. rewrite Eg. constructor.
  - rewrite state_over by done. destruct (Hr r) as [-> Hi']. simpl. rewrite Hi'. constructor.
Qed.

(** * Purging *)

Lemma purge_events s (q : IdempotencyKey → bool) k : idem_ok s →
  events_of k (map (λ r, (key_of r, Purged)) (List.filter q (keys s))) =
    match row_at k s with Some r => if q r then [Purged] else [] | None => [] end.
Proof.
  intros Hs. pose proof (io_keys _ Hs) as Hn. unfold row_at. induction (keys s) as [|r l IH]; [done|]. simpl in Hn. apply NoDup_cons in Hn as [Hr Hn].
  specialize (IH Hn). simpl. destruct (same3 k r) eqn:E.
  - apply same3_true in E as <-. assert (Hnone : List.find (same3 (key_of r)) l = None).
    { destruct (List.find _ l) as [x|] eqn:Ex; [|done]. apply find_Some in Ex as [Hx Hk%same3_true]. exfalso. apply Hr. apply list_elem_of_fmap. by exists x. }
    rewrite Hnone in IH. destruct (q r); simpl; [|done]. unfold events_of in *. simpl. rewrite decide_True by done. by rewrite IH.
  - rewrite <- IH. destruct (q r); [|done]. unfold events_of. simpl. rewrite decide_False; [done|]. intros Ek. by rewrite (proj2 (same3_true k r) Ek) in E.
Qed.
Lemma purge_ok tie before batch w : net_ok w → net_ok (purge_step tie before batch w).
Proof.
  intros Hw. unfold purge_step, Purge. destruct (_ || _); [by destruct Hw|]. unfold PurgeRows. cbv zeta. simpl. fold (purged tie before batch (n_idem w)).
  pose proof (no_idem _ Hw) as Hs. set (gone := purged tie before batch (n_idem w)). split; simpl.
  - by apply filter_ok.
  - intros k. rewrite events_of_app, purge_events, row_at_filter by done. pose proof (no_life _ Hw k) as Hl.
    destruct (row_at k (n_idem w)) as [r|]; [|by rewrite app_nil_r]. destruct (bool_decide _); simpl; [econstructor; [exact Hl|constructor]|by rewrite app_nil_r].
  - apply (no_fresh _ Hw).
  - intros i e Hi. destruct (no_held _ Hw _ _ Hi) as [(r & Hr & Ei & Ek & H)|H].
    + destruct (bool_decide_reflect (ik_ID r ∈ gone)) as [Hg|Hg].
      * right. split.
        -- intros x [Hx Hin]%elem_of_filter_bool E. rewrite <- Ei in E. assert (x = r) as -> by by eapply same_key_row. by rewrite bool_decide_true in Hx.
        -- rewrite events_of_app, purge_events by done. apply elem_of_app. right. rewrite <- Ek, (row_at_of _ _ Hs Hr), bool_decide_true by done. constructor.
      * left. exists r. split; [|done]. apply elem_of_filter_bool. by rewrite bool_decide_false.
    + apply in_hand_log. destruct H as [H1 H2]. right. split; [|done]. intros r [_ Hr]%elem_of_filter_bool. by apply H1.
  - apply (no_alone _ Hw).
Qed.

Lemma net_step_ok w w' : net_ok w → net_step w w' → net_ok w'.
Proof.
  intros Hw [who db scope rq|i tx db typ r|b|i db how|i|tie before batch].
  - by apply begin_ok.
  - by apply bound_ok.
  - by destruct Hw.
  - by apply end_ok.
  - by apply fewer_ok.
  - by apply purge_ok.
Qed.
Lemma net_reachable b w : rtc net_step (new_net b) w → net_ok w.
Proof. apply rtc_ind_r; [apply new_net_ok|]. intros x y _ Hs Hx. by eapply net_step_ok. Qed.
End System.
