(* ===== verification/IdemThms.v ===== *)
(** What idempotency keys promise: the log of every key follows its life; a key
    is done at most once and has one execution at a time; a completed request is
    answered with the same response; what is recorded is what was sent; a
    request that ends never leaves its key locked; retention removes exactly
    what is past its time. *)
From Stdlib Require Import ZArith Lia.
From stdpp Require Import base tactics list gmap strings sorting relations.
From S2P Require Import Prelude Safety GoString GoTime LedgerTypes Ledger LedgerProgress Promo Idem IdemFacts IdemHistory.
#[local] Open Scope string_scope.
#[local] Open Scope Z_scope.

(** * Histories *)

Definition before_done (a : act) : Prop := match a with Began _ | Freed _ => True | _ => False end.
Lemma life_split l s : life l s → Purged ∉ l →
  (Forall before_done l ∧ ∀ r res, s ≠ Over r res) ∨
  (∃ l1 g r res l2, l = (l1 ++ Done g r res :: l2)%list ∧ s = Over r res ∧ Forall before_done l1 ∧ ∀ a, a ∈ l2 → ∃ x, r = Some x ∧ a = Replayed x).
Proof.
  induction 1 as [|l s a s' _ IH Hn]; [by left|]. intros Hp. rewrite elem_of_app, list_elem_of_singleton in Hp.
  destruct IH as [[Hb Hs]|(l1 & g & r & res & l2 & -> & -> & Hb & Ha)]; [naive_solver| |].
  - destruct Hn as [|g|g r res|g|r res|s]; try by (left; split; [apply Forall_app; split; [done|by constructor]|done]).
    + right. exists l, g, r, res, []. split_and!; [done..|]. by intros a Ha%elem_of_nil.
    + by destruct (Hs (Some r) res).
    + naive_solver.
  - right. inversion Hn as [| | | |r0 res0 E1 E2 E3|s0 E1 E2 E3]; subst; [|naive_solver]. exists l1, g, (Some r0), res, (l2 ++ [Replayed r0])%list.
    split_and!; [by rewrite <- app_assoc|done..|]. intros a [Hl| ->%list_elem_of_singleton]%elem_of_app; [by apply Ha|by exists r0].
Qed.
Lemma in_hand_live {B} (w : @net B) i e : net_ok w → n_execs w !! i = Some e → Purged ∉ events_of (claim_key (ex_claim e)) (n_log w) →
  ∃ r, row_at (claim_key (ex_claim e)) (n_idem w) = Some r ∧ ik_ID r = cl_ID (ex_claim e) ∧
       ik_Status r = if ex_completed e then StatusSucceeded else StatusInFlight.
Proof.
  intros Hw Hi Hp. destruct (no_held _ Hw _ _ Hi) as [(r & Hr & Ei & Ek & _ & Es)|[_ H]]; [|done]. exists r. split; [|done].
  rewrite <- Ek. apply row_at_of; [apply Hw|done].
Qed.

Section History.
Context {B X : Type} (deferred : B → result X ()) (HMAC : list Z → list Z → list Z) (fpKey : list Z).
Abbreviation step := (net_step deferred HMAC fpKey).

(** C17: keys follow their life.  However requests, transactions, crashes and
    purges interleave, what happened to a key is a run of the life of a key (one
    execution at a time, each after the one before failed, one success, then only
    repetitions of its response, and a new start only after a purge), and the
    key's row is in the state this run ends in. *)
Theorem keys_follow_life b w k :
  rtc step (new_net b) w → life (events_of k (n_log w)) (key_state (row_at k (n_idem w))).
Proof. intros H. apply (no_life _ (net_reachable _ _ _ _ _ H)). Qed.

End History.

(** * Constraints never stand in the way of a valid request *)

Lemma decode_from l k c : c ∈ decode l k → ∃ b tl, b ∈ l ∧ c = DecodeRune b tl.
Proof.
  revert k. induction l as [|b l IH]; intros [|k]; simpl; try by intros ?%elem_of_nil.
  - intros [->|H]%elem_of_cons; [exists b, l; by split; [constructor|]|]. apply IH in H as (x & tl & Hx & ->). exists x, tl. split; [by constructor|done].
  - intros H. apply IH in H as (x & tl & Hx & ->). exists x, tl. split; [by constructor|done].
Qed.
Lemma DecodeRune_ascii b l : rune (DecodeRune b l) < 128 → rune (DecodeRune b l) = b ∧ good (DecodeRune b l) = true.
Proof.
  unfold DecodeRune, decode2, decode3, decode4, bad, between, cont. intros H.
  repeat (split_match; simpl in *; try (unfold RuneError in *; lia); try done); exfalso; unfold between in *; reflect_bools;
    repeat match goal with Hx : (_ && _) = true |- _ => apply andb_true_iff in Hx as [? ?] end; reflect_bools; cases_lia.
Qed.
Lemma no_nul s : all_bytes (λ b, negb ((b <? 32) || (b =? 127))) s = true → ContainsNUL s = false.
Proof.
  unfold all_bytes, ContainsNUL, runes. rewrite forallb_forall. intros H. apply existsb_false. intros c (b & tl & Hb & ->)%decode_from.
  apply Z.eqb_neq. intros E. destruct (DecodeRune_ascii b tl ltac:(lia)) as [Er _]. apply list_elem_of_In, H in Hb. rewrite <- Er, E in Hb. done.
Qed.
Lemma nonempty_runes s : blen s ≠ 0 → 1 ≤ RuneCountInString s.
Proof. unfold blen, RuneCountInString, runes. destruct s; simpl; lia. Qed.
Lemma scope_text s : ValidScope s = true → pg_text s = true ∧ scope_check s = true.
Proof.
  unfold ValidScope, scope_check. destruct (blen s =? 0) eqn:E0; [done|]. destruct (64 <? blen s) eqn:E1; [done|]. simpl. intros H. reflect_bools.
  pose proof (RuneCountInString_le s). pose proof (nonempty_runes s E0). rewrite H. split.
  - unfold pg_text, ValidString, ContainsNUL. rewrite forallb_forall in H.
    assert (Hr : ∀ c, c ∈ runes s → good c = true ∧ rune c ≠ 0).
    { intros c Hc. pose proof (H c (proj1 (list_elem_of_In _ _) Hc)) as Hs. unfold scope_rune, between in Hs.
      apply decode_from in Hc as (b & tl & _ & ->). assert (0 < rune (DecodeRune b tl) < 128).
      { apply orb_true_iff in Hs as [Hs|Hs]; [apply orb_true_iff in Hs as [Hs|Hs]|]; reflect_bools; lia. }
      split; [apply DecodeRune_ascii; lia|lia]. }
    apply andb_true_iff. split; [apply forallb_forall; intros c Hc%list_elem_of_In; by apply Hr|]. apply negb_true_iff, existsb_false.
    intros c Hc. by apply Z.eqb_neq, Hr.
  - unfold between. rewrite andb_true_r. apply andb_true_iff. split; apply Z.leb_le; lia.
Qed.
Lemma valid_row db id scope actor key hash : ValidScope scope = true → ValidKey key = true → length hash = 32%nat →
  let row := mkKeyRow id scope actor key hash StatusInFlight 1 (Some (db + LeaseDuration)) None false None no_cols None None db None in
  key_fits row = true ∧ key_check row = true.
Proof.
  intros [Ht Hc]%scope_text Hk Hl. unfold ValidKey in Hk. destruct (blen key =? 0) eqn:E0; [done|]. destruct (255 <? blen key) eqn:E1; [done|].
  destruct (ValidString key) eqn:E2; [|done]. simpl in Hk. pose proof (no_nul _ Hk) as Hn. reflect_bools. cbv zeta. split.
  - unfold key_fits. simpl. rewrite Ht. unfold pg_text. rewrite E2, Hn. done.
  - unfold key_check. cbn [ik_ID ik_Scope ik_ActorID ik_Key ik_RequestHash ik_Status ik_Generation ik_LockedUntil ik_ResponseCode ik_ResponseBody ik_Header ik_ResourceType ik_ResourceID ik_Replayable ik_CreatedAt ik_CompletedAt no_cols co_ContentType co_Location co_ETag co_CacheControl co_ContentLanguage]. rewrite Hc, Hl. assert (0 ≤ blen key) by (unfold blen; lia). unfold between.
    assert ((1 <=? blen key) = true) as -> by (apply Z.leb_le; lia). assert ((blen key <=? 255) = true) as -> by (apply Z.leb_le; lia).
    cbn [andb opt_ok]. rewrite !andb_true_r. unfold all_bytes in *. rewrite forallb_forall in *. intros b Hb. specialize (Hk b Hb). unfold between. reflect_bools.
    apply negb_true_iff, orb_false_iff. split; [|by apply Z.eqb_neq]. apply andb_false_iff. right. apply Z.leb_gt. lia.
Qed.

(** What a claim answers about a row that is there and was not released. *)
Lemma Claim_taken p db scope key fp s r : idem_ok s → pr_UserID p ≠ uuid_Nil → ValidScope scope = true → ValidKey key = true → length fp = 32%nat →
  row_at (scope, pr_UserID p, key) s = Some r → ik_Status r ≠ StatusFailed →
  Claim false (Some p) db scope key fp s =
    (if negb (bool_decide (ik_RequestHash r = fp)) then Err IReuse
     else match key_state (Some r) with Over (Some x) _ => Ok (inr x) | _ => Err IBusy end, s).
Proof.
  intros Hs Hp Hsc Hk Hl Hr Hf. pose proof (row_at_in _ _ _ Hr) as [Hin Ekey]. pose proof (io_checks _ Hs _ Hin) as Hc. unfold key_check in Hc.
  rewrite !andb_true_iff in Hc. destruct Hc as [_ Hshape]. unfold key_shape in Hshape.
  assert (EI : Insert db scope (pr_UserID p) key fp s = (Ok None, s)).
  { unfold Insert. cbv zeta. destruct (valid_row db (idem_next s) scope (pr_UserID p) key fp Hsc Hk Hl) as [-> ->]. simpl.
    assert (existsb (same_key scope (pr_UserID p) key) (keys s) = true) as ->; [|done]. apply existsb_true. exists r. split; [done|].
    by apply (same3_true (scope, pr_UserID p, key)). }
  assert (EL : LockForUpdate scope (pr_UserID p) key s = (Ok r, s)).
  { unfold LockForUpdate. change (List.find _ (keys s)) with (row_at (scope, pr_UserID p, key) s). by rewrite Hr. }
  unfold Claim, Do. rewrite Hsc, Hk. cbn [negb]. cbv iota. destruct (N.eqb_spec (pr_UserID p) uuid_Nil); [done|].
  rewrite (M_bind_eq _ _ _ _ _ EI). cbv iota. rewrite (M_bind_eq _ _ _ _ _ EL). destruct (negb (bool_decide _)); [done|]. simpl key_state.
  destruct (String.eqb_spec (ik_Status r) StatusInFlight); [done|]. destruct (String.eqb_spec (ik_Status r) StatusFailed); [done|].
  destruct (String.eqb_spec (ik_Status r) StatusSucceeded); [|done]. unfold replay_of. destruct (ik_Replayable r); [|done]. simpl.
  unfold replayOf. destruct (ik_ResponseCode r); [done|]. by rewrite andb_false_r in Hshape.
Qed.

(** * Done at most once *)

(** The one success of an unpurged key, and what came before and after it. *)
Lemma done_split {B} (w : @net B) k l1 g r res l2 : net_ok w → Purged ∉ events_of k (n_log w) → events_of k (n_log w) = (l1 ++ Done g r res :: l2)%list →
  Forall before_done l1 ∧ (∀ a, a ∈ l2 → ∃ x, r = Some x ∧ a = Replayed x) ∧ key_state (row_at k (n_idem w)) = Over r res.
Proof.
  intros Hw Hp El. destruct (life_split _ _ (no_life _ Hw k) Hp) as [[Hb _]|(a1 & g' & r' & res' & a2 & Ea & Es & Hb & Ha)].
  { exfalso. rewrite El, Forall_app, Forall_cons in Hb. naive_solver. }
  assert (l1 = a1 ∧ Done g r res = Done g' r' res' ∧ l2 = a2) as (-> & [= -> -> ->] & ->); [|done].
  rewrite El in Ea. clear -Ea Hb Ha. revert a1 Ea Hb. induction l1 as [|x l1 IH]; intros [|y a1] Ea Hb; simpl in Ea.
  - by injection Ea as -> -> -> ->.
  - injection Ea as <- _. by apply Forall_cons in Hb as [[] _].
  - injection Ea as _ <-. exfalso. destruct (Ha (Done g r res)) as (z & _ & Hz); [|done]. apply elem_of_app. right. constructor.
  - injection Ea as -> Ea. apply Forall_cons in Hb as [_ Hb]. destruct (IH _ Ea Hb) as (-> & ? & ->). done.
Qed.

(** C18: a key is done at most once.  While a key is not purged, at most one
    request with it is executing at any moment, and of all its executions at
    most one, the last, succeeds.  Once it has succeeded no request with the key
    executes again and none changes anything: the same request is answered with
    the stored response, or refused when no response was stored for repeating,
    and a request with another fingerprint is refused; no execution of the key
    is unfinished. *)
Theorem done_at_most_once {B X} (deferred : B → result X ()) HMAC fpKey b w scope user key :
  let k := (scope, user, key) in
  rtc (net_step deferred HMAC fpKey) (new_net b) w → Purged ∉ events_of k (n_log w) →
  (∀ l1 g r res l2, events_of k (n_log w) = (l1 ++ Done g r res :: l2)%list →
     Forall before_done l1 ∧ (∀ a, a ∈ l2 → ∃ x, r = Some x ∧ a = Replayed x) ∧
     (∀ i e, n_execs w !! i = Some e → claim_key (ex_claim e) = k → ex_completed e = true) ∧
     ∃ row, row_at k (n_idem w) = Some row ∧
       ∀ p db fp, pr_UserID p = user → user ≠ uuid_Nil → ValidScope scope = true → ValidKey key = true → length fp = 32%nat →
         Claim false (Some p) db scope key fp (n_idem w) =
           (if bool_decide (fp = ik_RequestHash row) then match r with Some x => Ok (inr x) | None => Err IBusy end
            else Err IReuse, n_idem w)) ∧
  (∀ i j e e', n_execs w !! i = Some e → n_execs w !! j = Some e' → claim_key (ex_claim e) = k → claim_key (ex_claim e') = k → i = j).
Proof.
  intros k H Hp. pose proof (net_reachable _ _ _ _ _ H) as Hw. split.
  - intros l1 g r res l2 El. destruct (done_split w k l1 g r res l2 Hw Hp El) as (H1 & H2 & Es).
    destruct (row_at k (n_idem w)) as [row|] eqn:Hr; [|done]. split_and!; [done..| |].
    + intros i e Hi Ek. rewrite <- Ek in Hp, Hr. destruct (in_hand_live _ _ _ Hw Hi Hp) as (r0 & Hr0 & _ & E0).
      rewrite Hr0 in Hr. injection Hr as ->. destruct (ex_completed e); [done|]. by rewrite (state_running _ E0) in Es.
    + exists row. split; [done|]. intros p db fp <- Hu Hsc Hk Hl.
      rewrite (Claim_taken p db scope key fp _ row (no_idem _ Hw) Hu Hsc Hk Hl Hr) by (intros Ef; by rewrite (state_free _ Ef) in Es).
      rewrite Es. destruct (bool_decide_reflect (ik_RequestHash row = fp)) as [->|Hne]; [by rewrite bool_decide_true|].
      by rewrite bool_decide_false.
  - intros i j e e' Hi Hj Ei Ej. pose proof Hp as Hp'. rewrite <- Ei in Hp. destruct (in_hand_live _ _ _ Hw Hi Hp) as (r & Hr & E1 & _).
    rewrite <- Ej in Hp'. destruct (in_hand_live _ _ _ Hw Hj Hp') as (r' & Hr' & E2 & _). apply (no_alone _ Hw _ _ _ _ Hi Hj). congruence.
Qed.

(** * A completed request is answered with its response *)

(** C19: claim, complete, claim again.  A request that was claimed and completed is
    answered, when it comes again, with exactly the response it was completed
    with; a different request with the same key is refused; neither writes
    anything. *)
Theorem completion_replayed p db scope key fp s c s1 db1 typ r id s2 db2 fp' :
  idem_ok s → Claim false (Some p) db scope key fp s = (Ok (inl c), s1) → complete_in db1 c typ r id s1 = (Ok (), s2) → length fp' = 32%nat →
  Claim false (Some p) db2 scope key fp' s2 = (if bool_decide (fp' = fp) then Ok (inr r) else Err IReuse, s2).
Proof.
  intros Hs H1 H2 Hl. apply Claim_Ok in H1 as (p' & [= <-] & Hp & Hsc & Hk & Ha); [|done]. unfold answers in Ha. cbv zeta in Ha.
  assert (∃ r0, idem_ok s1 ∧ row_at (scope, pr_UserID p, key) s1 = Some r0 ∧ c = newClaim r0 fp ∧ ik_RequestHash r0 = fp) as (r0 & Hs1 & Hr0 & -> & Hf).
  { destruct Ha as [(r0 & [= ->] & _ & _ & _ & _ & _ & Hf & Hs1 & _ & Hat)|[(r0 & db' & [= ->] & H0 & Hf & _ & Hc)|(? & ? & ? & _)]]; [..|done].
    - exists r0. split_and!; [done| |done..]. by rewrite Hat, decide_True.
    - exists (taken_over db' r0). split_and!; [apply Hc| |done..]. rewrite (ch_at _ _ _ _ Hc). apply row_at_in in H0 as [_ ->]. by rewrite decide_True. }
  apply complete_in_Ok in H2 as (f & H2 & F1 & F2 & F3 & F4 & F5 & F6). apply finish_Ok in H2 as (r1 & Hh & Hc); [|done].
  apply held_at_true in Hh as (Ei & _). pose proof (row_at_in _ _ _ Hr0) as [Hin Ek].
  assert (r1 = r0) as -> by (eapply same_key_row; [exact Hs1|apply Hc|done..]).
  assert (Hat : row_at (scope, pr_UserID p, key) s2 = Some (finished_key db1 f r0)) by (rewrite (ch_at _ _ _ _ Hc), <- Ek; by rewrite decide_True).
  rewrite (Claim_taken p db2 scope key fp' s2 _ (ch_ok _ _ _ _ Hc) Hp Hsc Hk Hl Hat) by (simpl; by rewrite F1).
  change (ik_RequestHash (finished_key db1 f r0)) with (ik_RequestHash r0). rewrite Hf. rewrite (state_over (finished_key db1 f r0)) by done.
  rewrite (replay_finished _ _ _ r) by done. destruct (bool_decide_reflect (fp = fp')) as [->|Hne]; [by rewrite bool_decide_true|].
  by rewrite bool_decide_false.
Qed.

(** * What is recorded is what was sent *)

Definition taken_whole (w : write) : Prop := wr_err w = false ∧ wr_n w = length (wr_bytes w).
Definition recorded (ws : list write) (r : recorder) : Prop :=
  rc_incomplete r = false → rc_body r = concat (map wr_bytes ws) ∧ Forall taken_whole ws ∧ Z.of_nat (length (rc_body r)) ≤ MaxBodyBytes ∧
    rc_header r = wr_headers <$> head ws.
Lemma Write_recorded ws w r : recorded ws r → recorded (ws ++ [w]) (Write w r).
Proof.
  unfold recorded, Write. intros H Hi. cbv zeta in *.
  destruct (rc_incomplete (if _ && _ then invalidate _ else _)) eqn:E0; [congruence|].
  destruct (_ && _) eqn:E1; [done|]. destruct (wr_err w || _) eqn:E2; [done|]. destruct (MaxBodyBytes <? _) eqn:E3; [done|].
  assert (Hr : rc_incomplete r = false) by (unfold snapshot in E0; by destruct (rc_header r)). destruct (H Hr) as (H1 & H2 & H3 & H4).
  apply orb_false_iff in E2 as [E2 E4]. apply negb_false_iff, Nat.eqb_eq in E4.
  assert (Hb : rc_body (snapshot (wr_headers w) r) = rc_body r) by (unfold snapshot; by destruct (rc_header r)). simpl. rewrite Hb in *.
  assert (Et : take (wr_n w) (wr_bytes w) = wr_bytes w) by (rewrite E4; apply take_ge; lia). rewrite Et. split_and!.
  - rewrite map_app, concat_app, H1. simpl. by rewrite app_nil_r.
  - apply Forall_app. split; [done|]. by repeat constructor.
  - rewrite length_app. apply Z.ltb_ge in E3. rewrite E4 in E3. lia.
  - unfold snapshot. rewrite H4. by destruct ws.
Qed.
Lemma writes_recorded ws : recorded ws (foldl (λ r w, Write w r) new_recorder ws).
Proof.
  induction ws as [|w ws IH] using rev_ind; [intros _; simpl; split_and!; [done..|by vm_compute|done]|].
  rewrite foldl_app. by apply Write_recorded.
Qed.
(** A header of the response: the one value it was set to, if any. *)
Definition set_to (h : headers) (name v : string) : Prop := v = "" ∧ (h !! name = None ∨ h !! name = Some []) ∨ h !! name = Some [v].
Lemma whitelist_set h name v : whitelistHeader h name = Some v → set_to h name v.
Proof. unfold whitelistHeader, set_to. destruct (h !! name) as [[|x [|y l]]|]; naive_solver. Qed.

(** C20: what is recorded is what was sent.  If the recorder offers a response for
    repetition, every write was taken whole by the client's connection, its body
    is all of them in order, its status is the one sent, its headers are those
    of the first write (with the type the body is sent as where none was set)
    and safe to repeat; a successful one is always accepted for storage. *)
Theorem recording_faithful Detect status h ws resp :
  (rec_result Detect status h (foldl (λ r w, Write w r) new_recorder ws)).2 = Some resp →
  let sent := default h (wr_headers <$> head ws) in
  Forall taken_whole ws ∧ rp_Status resp = status ∧ rp_Body resp = concat (map wr_bytes ws) ∧
  (set_to sent "Content-Type" (hd_ContentType (rp_Header resp)) ∨
   (set_to sent "Content-Type" "" ∧ hd_ContentType (rp_Header resp) = Detect (concat (map wr_bytes ws)))) ∧
  set_to sent "Location" (hd_Location (rp_Header resp)) ∧ set_to sent "Etag" (hd_ETag (rp_Header resp)) ∧
  set_to sent "Cache-Control" (hd_CacheControl (rp_Header resp)) ∧ set_to sent "Content-Language" (hd_ContentLanguage (rp_Header resp)) ∧
  (is2xx status = true → ∀ c, ∃ f, successFinish (Some c) resp = Ok (c, f)).
Proof.
  pose proof (writes_recorded ws) as HR. set (r := foldl _ new_recorder ws) in *. unfold rec_result. cbv zeta.
  assert (Ei : rc_incomplete (snapshot h r) = rc_incomplete r) by (unfold snapshot; by destruct (rc_header r)). rewrite Ei.
  destruct (rc_incomplete r) eqn:E0; [done|]. destruct (HR E0) as (Hb & Hw & Hl & Hh).
  assert (Es : rc_header (snapshot h r) = Some (default h (wr_headers <$> head ws))) by (unfold snapshot; rewrite Hh; by destruct (head ws)).
  assert (Eb : rc_body (snapshot h r) = rc_body r) by (unfold snapshot; by destruct (rc_header r)). rewrite Es, Eb.
  set (sent := default h _). destruct (_ || _); [done|].
  destruct (whitelistHeader sent "Content-Type") as [ct|] eqn:W1; [|done]. destruct (whitelistHeader sent "Location") as [loc|] eqn:W2; [|done].
  destruct (whitelistHeader sent "Etag") as [et|] eqn:W3; [|done]. destruct (whitelistHeader sent "Cache-Control") as [cc|] eqn:W4; [|done].
  destruct (whitelistHeader sent "Content-Language") as [cl|] eqn:W5; [|done]. apply whitelist_set in W1, W2, W3, W4, W5.
  destruct (Validate (mkHeader ct loc et cc cl)) eqn:V1; [|done]. cbn [negb]. cbv iota.
  assert (Hfin : ∀ hd, Validate hd = true → is2xx status = true → ∀ c, ∃ f, successFinish (Some c) (mkReply status (rc_body r) hd) = Ok (c, f)).
  { intros hd Hv Hx c. unfold successFinish. simpl. rewrite Hx, Hv. simpl. destruct (Z.ltb_spec MaxBodyBytes (Z.of_nat (length (rc_body r)))); [lia|]. by eexists. }
  destruct (String.eqb ct "" && _ && _) eqn:E1.
  - destruct (Validate (mkHeader (Detect _) loc et cc cl)) eqn:V2; [|done]. simpl. intros [= <-]. simpl. apply andb_true_iff in E1 as [[->%String.eqb_eq _]%andb_true_iff _].
    rewrite <- Hb. split_and!; try done; [by right|by apply Hfin].
  - simpl. intros [= <-]. simpl. rewrite <- Hb. split_and!; try done; [by left|by apply Hfin].
Qed.

(** * A request that ends never leaves its key locked *)

(** What the database can store of a response. *)
Definition storable (r : Response) : Prop :=
  Validate (rp_Header r) = true ∧ Z.of_nat (length (rp_Body r)) ≤ MaxBodyBytes ∧ cols_fit (header_columns (rp_Header r)) = true.
Definition status_ok (st : Z) : Prop := 100 ≤ st ≤ 999.
Definition regular (how : ending) : Prop :=
  match how with
  | EndedInError st => status_ok st ∧ is2xx st = false
  | EndedWith st rec => status_ok st ∧ ∀ r, rec = Some r → storable r
  | Panicked => True
  end.
Definition good_finish (f : Finish) : Prop :=
  fi_ResourceType f = None ∧ fi_ResourceID f = None ∧
  ((fi_Status f = StatusFailed ∧ status_ok (fi_Code f) ∧ is2xx (fi_Code f) = false ∧ fi_Replayable f = false ∧ fi_Header f = no_cols) ∨
   (fi_Status f = StatusSucceeded ∧ is2xx (fi_Code f) = true ∧
    ((fi_Replayable f = false ∧ fi_Header f = no_cols) ∨
     ∃ r, storable r ∧ fi_Replayable f = true ∧ fi_Body f = rp_Body r ∧ fi_Header f = header_columns (rp_Header r)))).

Lemma optional_short v n : header_ok v n = true → opt_ok (λ s, blen s <=? n) (optional v) = true.
Proof.
  unfold header_ok, optional. destruct (String.eqb v ""); [done|]. simpl. intros [H _]%negb_true_iff%orb_false_iff. reflect_bools. by apply Z.leb_le.
Qed.
Lemma is2xx_between c : is2xx c = between 200 c 299.
Proof. unfold is2xx, between. cases_lia. Qed.
Lemma int4_small c : 0 ≤ c ≤ 999 → int4 c = true.
Proof. intros H. unfold int4, between. cases_lia. Qed.

Lemma good_finish_fits db f r : good_finish f → key_fits r = true → key_fits (finished_key db f r) = true.
Proof.
  intros (E1 & E2 & Hf) Hr. unfold key_fits in *. rewrite !andb_true_iff in *. destruct Hr as [[[[[H1 H2] H3] _] _] _]. simpl. rewrite E1. split_and!; try done.
  - apply int4_small. destruct Hf as [(_ & Hc & _)|(_ & Hc & _)]; [unfold status_ok in Hc; lia|unfold is2xx in Hc; reflect_bools; lia].
  - destruct Hf as [(_ & _ & _ & _ & ->)|(_ & _ & [[_ ->]|(x & (_ & _ & Hx) & _ & _ & ->)])]; done.
Qed.
Lemma header_columns_check h : Validate h = true → opt_ok (λ s, blen s <=? 255) (co_ContentType (header_columns h)) = true ∧
  opt_ok (λ s, blen s <=? 2048) (co_Location (header_columns h)) = true ∧ opt_ok (λ s, blen s <=? 255) (co_ETag (header_columns h)) = true ∧
  opt_ok (λ s, blen s <=? 512) (co_CacheControl (header_columns h)) = true ∧ opt_ok (λ s, blen s <=? 128) (co_ContentLanguage (header_columns h)) = true.
Proof. unfold Validate. rewrite !andb_true_iff. intros [[[[[H1 H2] H3] H4] H5] _]. split_and!; by apply optional_short. Qed.
Lemma good_finish_check db f r : good_finish f → key_check r = true → key_check (finished_key db f r) = true.
Proof.
  intros (E1 & E2 & Hf) Hr. unfold key_check in Hr. rewrite !andb_true_iff in Hr. destruct_and!.
  assert (Hst : one_of (fi_Status f) [StatusInFlight; StatusSucceeded; StatusFailed] = true) by (destruct Hf as [[-> _]|[-> _]]; done).
  assert (Hh : opt_ok (λ s, blen s <=? 255) (co_ContentType (fi_Header f)) = true ∧ opt_ok (λ s, blen s <=? 2048) (co_Location (fi_Header f)) = true ∧
    opt_ok (λ s, blen s <=? 255) (co_ETag (fi_Header f)) = true ∧ opt_ok (λ s, blen s <=? 512) (co_CacheControl (fi_Header f)) = true ∧
    opt_ok (λ s, blen s <=? 128) (co_ContentLanguage (fi_Header f)) = true).
  { destruct Hf as [(_ & _ & _ & _ & ->)|(_ & _ & [[_ ->]|(x & (Hx & _) & _ & _ & ->)])]; [done..|by apply header_columns_check]. }
  assert (Hb : opt_ok (λ b, Z.of_nat (length b) <=? 1048576) (if fi_Replayable f then Some (fi_Body f) else None) = true).
  { destruct Hf as [(_ & _ & _ & -> & _)|(_ & _ & [[-> _]|(x & (_ & Hx & _) & -> & -> & _)])]; [done..|]. simpl. by apply Z.leb_le. }
  assert (Hsh : key_shape (finished_key db f r) = true).
  { unfold key_shape. simpl. rewrite E1. destruct Hf as [(-> & Hc & Hx & -> & ->)|(-> & Hx & _)]; simpl.
    - rewrite is2xx_between in Hx. rewrite Hx. unfold status_ok in Hc. unfold between. cases_lia; done.
    - rewrite is2xx_between in Hx. by rewrite Hx. }
  destruct Hh as (Hh1 & Hh2 & Hh3 & Hh4 & Hh5).
  unfold key_check. rewrite Hsh. cbn [ik_ID ik_Scope ik_ActorID ik_Key ik_RequestHash ik_Status ik_Generation ik_LockedUntil ik_ResponseCode ik_ResponseBody ik_Header ik_ResourceType ik_ResourceID ik_Replayable ik_CreatedAt ik_CompletedAt finished_key]. rewrite Hst, E1, E2, Hh1, Hh2, Hh3, Hh4, Hh5, Hb.
  repeat match goal with Hx : _ = true |- _ => rewrite Hx; clear Hx end. by destruct (fi_Replayable f).
Qed.

Lemma finish_grants db c f s r : idem_ok s → r ∈ keys s → held_at (cl_ID c) (cl_ActorID c) (cl_Generation c) r = true → good_finish f →
  ∃ s', finish db c f s = (Ok (), s').
Proof.
  intros Hs Hr Hh Hf. unfold finish, FinishKey, mbind, M_bind, update_keys.
  assert (E1 : forallb (λ x, negb (held_at (cl_ID c) (cl_ActorID c) (cl_Generation c) x) || key_fits (finished_key db f x)) (keys s) = true).
  { apply forallb_forall. intros x Hx%list_elem_of_In. destruct (held_at _ _ _ x); [|done]. apply good_finish_fits; [done|by apply Hs]. }
  assert (E2 : forallb (λ x, negb (held_at (cl_ID c) (cl_ActorID c) (cl_Generation c) x) || key_check (finished_key db f x)) (keys s) = true).
  { apply forallb_forall. intros x Hx%list_elem_of_In. destruct (held_at _ _ _ x); [|done]. apply good_finish_check; [done|by apply Hs]. }
  rewrite E1, E2. simpl. unfold mret, M_ret.
  pose proof (hits_by_id s (held_at (cl_ID c) (cl_ActorID c) (cl_Generation c)) (cl_ID c) Hs (λ x Hx, proj1 (proj1 (held_at_true _ _ _ _) Hx))).
  assert (hits (held_at (cl_ID c) (cl_ActorID c) (cl_Generation c)) (keys s) ≠ 0).
  { unfold hits. assert (Hi : r ∈ List.filter (held_at (cl_ID c) (cl_ActorID c) (cl_Generation c)) (keys s)) by by apply elem_of_filter_bool.
    destruct (List.filter _ _); [by apply elem_of_nil in Hi|simpl; lia]. }
  destruct (Z.eqb_spec (hits (held_at (cl_ID c) (cl_ActorID c) (cl_Generation c)) (keys s)) 1); [|lia]. by eexists.
Qed.
Lemma end_request_finish c db how s : regular how →
  ∃ f, good_finish f ∧ ∀ s', finish db c f s = (Ok (), s') → end_request false c db how s = (Ok (), s').
Proof.
  assert (HR : ∀ st, status_ok st → is2xx st = false → ∃ f, good_finish f ∧ ∀ s', finish db c f s = (Ok (), s') → Release db (Some c) st s = (Ok (), s')).
  { intros st Hs H2. eexists. split; [|intros s' Hf; unfold Release; rewrite H2, orb_false_r; destruct (_ || _) eqn:E; [|exact Hf]].
    - split_and!; [done..|]. left. by split_and!.
    - unfold status_ok in Hs. apply orb_true_iff in E as [E|E]; reflect_bools; lia. }
  intros Hreg. unfold end_request. destruct how as [st|st rec|]; simpl in Hreg.
  - destruct Hreg. by apply HR.
  - destruct Hreg as [Hs Hrec]. change ((200 <=? st) && (st <? 300)) with (is2xx st). destruct (is2xx st) eqn:E2; [|by apply HR]. destruct rec as [r|].
    + destruct (Hrec r eq_refl) as (V & L & F).
      exists (mkFinish StatusSucceeded st true (rp_Body r) (header_columns (rp_Header r)) None None). split.
      * split_and!; [done..|]. right. split_and!; [done..|]. right. exists r. by split_and!.
      * intros s' Hf. unfold Complete, mbind, M_bind, lift, successFinish. simpl. rewrite E2, V. simpl.
        destruct (Z.ltb_spec MaxBodyBytes (Z.of_nat (length (rp_Body r)))); [lia|]. exact Hf.
    + eexists. split; [|intros s' Hf; unfold CompleteUnreplayable; rewrite E2; exact Hf]. split_and!; [done..|]. right. split_and!; [done..|]. by left.
  - apply HR; [unfold status_ok; lia|done].
Qed.

(** A request that ends never leaves its key locked.  In every reachable state,
    when a request whose key was not purged ends with what a handler may answer
    (an error, a response, a panic), its key is done or free for a retry, and
    the log says which; only a process that dies leaves a key locked. *)
Theorem ended_never_locked {B X} (deferred : B → result X ()) HMAC fpKey b w i e db how :
  rtc (net_step deferred HMAC fpKey) (new_net b) w → n_execs w !! i = Some e →
  let k := claim_key (ex_claim e) in
  Purged ∉ events_of k (n_log w) → regular how →
  let w' := end_step i db how w in
  n_execs w' !! i = None ∧ (∃ r, row_at k (n_idem w') = Some r ∧ ik_Status r ≠ StatusInFlight) ∧
  events_of k (n_log w') = (events_of k (n_log w) ++ if ex_completed e then [] else [end_act (ex_claim e) how])%list.
Proof.
  intros H Hi k Hp Hreg w'. pose proof (net_reachable _ _ _ _ _ H) as Hw. destruct (in_hand_live _ _ _ Hw Hi Hp) as (r & Hr & Ei & Es).
  pose proof (row_at_in _ _ _ Hr) as [Hin _]. destruct (in_hand_row _ _ _ _ (no_idem _ Hw) (no_held _ Hw _ _ Hi) Hin Ei) as (Ek & Eg & _).
  assert (He : ∃ s', end_request (ex_completed e) (ex_claim e) db how (n_idem w) = (Ok (), s') ∧
    ∃ r', row_at k s' = Some r' ∧ ik_Status r' ≠ StatusInFlight).
  { destruct (ex_completed e) eqn:Ec; [exists (n_idem w); split; [done|]; exists r; split; [done|by rewrite Es]|].
    destruct (end_request_finish (ex_claim e) db how (n_idem w) Hreg) as (f & Hf & Hend).
    assert (Hh : held_at (cl_ID (ex_claim e)) (cl_ActorID (ex_claim e)) (cl_Generation (ex_claim e)) r = true).
    { apply held_at_true. split_and!; [done|by injection Ek|done..]. }
    destruct (finish_grants db (ex_claim e) f (n_idem w) r (no_idem _ Hw) Hin Hh Hf) as (s' & Hs'). exists s'. split; [by apply Hend|].
    destruct (finish_held _ _ _ _ _ _ Hw Hi Hs') as (r0 & Hc & E0 & Ek0 & _). exists (finished_key db f r0).
    split; [rewrite (ch_at _ _ _ _ Hc); by rewrite decide_True|]. simpl. destruct Hf as (_ & _ & [(-> & _)|(-> & _)]); done. }
  destruct He as (s' & He & Hrow). unfold w', end_step. rewrite Hi, He. simpl. split_and!; [apply lookup_delete_eq|done|].
  rewrite events_of_app. f_equal. destruct (ex_completed e); [done|]. by rewrite events_of_one, decide_True.
Qed.

(** * Retention *)

Definition expired (before : Time) (r : IdempotencyKey) : bool := ik_CreatedAt r <? before.
Definition unexpired (before : Time) (s : idem) : idem := mkIdem (List.filter (λ r, negb (expired before r)) (keys s)) (idem_next s).
Lemma filter_twice {A} (p q : A → bool) l : (∀ x, x ∈ l → p x = true → q x = true) → List.filter p (List.filter q l) = List.filter p l.
Proof.
  induction l as [|x l IH]; simpl; intros H; [done|]. rewrite <- IH by (intros y Hy; apply H; by constructor).
  destruct (q x) eqn:Eq; simpl; [done|]. destruct (p x) eqn:Ep; [|done]. by rewrite (H x (list_elem_of_here _ _) Ep) in Eq.
Qed.
Lemma filter_split {A} (p : A → bool) l : (length (List.filter p l) + length (List.filter (λ x, negb (p x)) l) = length l)%nat.
Proof. induction l as [|x l IH]; simpl; [done|]. destruct (p x); simpl; lia. Qed.
(** How many rows one batch takes. *)
Lemma purged_count tie before limit s : idem_ok s →
  length (List.filter (λ r, bool_decide (ik_ID r ∈ purged tie before limit s)) (keys s)) =
    Nat.min (Z.to_nat limit) (length (List.filter (expired before) (keys s))).
Proof.
  intros Hs. set (old := List.filter (expired before) (keys s)). set (chosen := take (Z.to_nat limit) (merge_sort (older tie) old)).
  assert (Hn : NoDup (keys s)) by (eapply (NoDup_fmap_1 ik_ID), Hs).
  assert (Hsub : ∀ r, r ∈ chosen → r ∈ keys s).
  { intros r (i & Hr%list_elem_of_lookup_2 & _)%elem_of_take. rewrite (merge_sort_Permutation (older tie)) in Hr. by apply elem_of_filter_bool in Hr as [_ Hr]. }
  assert (HP : List.filter (λ r, bool_decide (ik_ID r ∈ purged tie before limit s)) (keys s) ≡ₚ chosen).
  { apply NoDup_Permutation.
    - eapply sublist_NoDup; [exact Hn|apply filter_sublist].
    - eapply sublist_NoDup; [|apply sublist_take]. rewrite (merge_sort_Permutation (older tie)). eapply sublist_NoDup; [exact Hn|apply filter_sublist].
    - intros r. rewrite elem_of_filter_bool, bool_decide_eq_true. split.
      + intros [(x & Ex & Hx)%list_elem_of_fmap Hr]. rewrite (same_key_row _ _ _ Hs Hr (Hsub _ Hx) Ex). exact Hx.
      + intros Hr. split; [|by apply Hsub]. apply list_elem_of_fmap. by exists r. }
  rewrite HP. unfold chosen. rewrite length_take, (merge_sort_Permutation (older tie)). done.
Qed.
Lemma PurgeRows_run tie before limit s : idem_ok s → ∃ s',
  PurgeRows tie before limit s = (Ok (Z.of_nat (Nat.min (Z.to_nat limit) (length (List.filter (expired before) (keys s))))), s') ∧ idem_ok s' ∧
  unexpired before s' = unexpired before s ∧
  (length (List.filter (expired before) (keys s')) + Nat.min (Z.to_nat limit) (length (List.filter (expired before) (keys s))) =
   length (List.filter (expired before) (keys s)))%nat.
Proof.
  intros Hs. unfold PurgeRows. cbv zeta. fold (purged tie before limit s). set (gone := purged tie before limit s).
  pose proof (purged_count tie before limit s Hs) as Hc. fold gone in Hc. eexists. split; [|split; [by apply filter_ok|split]].
  - do 2 f_equal. rewrite <- Hc. pose proof (filter_split (λ r, bool_decide (ik_ID r ∈ gone)) (keys s)) as Hf. simpl in Hf. lia.
  - unfold unexpired. simpl. f_equal. apply filter_twice. intros r Hr Ho. apply negb_true_iff, bool_decide_eq_false. intros Hg.
    pose proof (purged_old _ _ _ _ _ Hs Hr Hg). apply negb_true_iff, Z.ltb_ge in Ho. lia.
  - simpl. rewrite <- Hc. assert (Hswap : List.filter (expired before) (List.filter (λ r, negb (bool_decide (ik_ID r ∈ gone))) (keys s)) =
      List.filter (λ r, negb (bool_decide (ik_ID r ∈ gone))) (List.filter (expired before) (keys s))).
    { generalize (keys s). intros l. induction l as [|x l IH]; [done|]. simpl. destruct (bool_decide _) eqn:E1, (expired before x) eqn:E2; simpl; rewrite ?E1, ?E2; simpl; by rewrite ?IH. }
    assert (Hg : List.filter (λ r, bool_decide (ik_ID r ∈ gone)) (List.filter (expired before) (keys s)) = List.filter (λ r, bool_decide (ik_ID r ∈ gone)) (keys s)).
    { apply filter_twice. intros r Hr Hg%bool_decide_eq_true. apply Z.ltb_lt. by eapply purged_old. }
    rewrite Hswap. pose proof (filter_split (λ r, bool_decide (ik_ID r ∈ gone)) (List.filter (expired before) (keys s))) as Hf. simpl in Hf. rewrite Hg in Hf. lia.
Qed.
Lemma unexpired_none before s : length (List.filter (expired before) (keys s)) = 0%nat → unexpired before s = s.
Proof.
  intros H. destruct s as [l n]. unfold unexpired. simpl in *. f_equal.
  induction l as [|x l IH]; simpl in *; [done|]. destruct (expired before x); simpl in *; [lia|]. f_equal. by apply IH.
Qed.
Lemma batches_run tie before batch n total s : idem_ok s → IsZeroTime before = false → 0 < batch →
  Z.of_nat (length (List.filter (expired before) (keys s))) ≤ batch * Z.of_nat n →
  PurgeInBatches (λ _, None) batch n (Purge tie before batch) total s =
    (Ok (total + Z.of_nat (length (List.filter (expired before) (keys s)))), unexpired before s).
Proof.
  revert total s. induction n as [|n IH]; intros total s Hs Hz Hb Hm; simpl.
  { rewrite unexpired_none by lia. unfold mret, M_ret. do 2 f_equal. lia. }
  destruct (PurgeRows_run tie before batch s Hs) as (s' & Hr & Hs' & Hu & Hl).
  assert (HP : Purge tie before batch s = PurgeRows tie before batch s) by (unfold Purge; rewrite Hz; by destruct (Z.leb_spec batch 0); [lia|]).
  rewrite HP, Hr.
  destruct (Z.ltb_spec (Z.of_nat (Nat.min (Z.to_nat batch) (length (List.filter (expired before) (keys s))))) batch).
  - assert (E0 : length (List.filter (expired before) (keys s')) = 0%nat) by lia. rewrite <- Hu, (unexpired_none _ _ E0). do 2 f_equal. lia.
  - rewrite IH; [|done..|lia]. rewrite Hu. do 2 f_equal. lia.
Qed.
(** Retention removes exactly the keys older than thirty days, as long as the
    batches of one run are enough. *)
Theorem retention_exact tie now s : idem_ok s → IsZeroTime (now - Retention) = false →
  Z.of_nat (length (List.filter (expired (now - Retention)) (keys s))) ≤ 500000 →
  retention tie (λ _, None) now s = (Ok (Z.of_nat (length (List.filter (expired (now - Retention)) (keys s)))), unexpired (now - Retention) s).
Proof. intros Hs Hz Hm. unfold retention. rewrite batches_run; [done|done|done|done|unfold purgeBatch, maxBatches; lia]. Qed.

(** * Fingerprints *)

Lemma split_lf (a a' b b' : list Z) : 10 ∉ a → 10 ∉ a' → (a ++ [10] ++ b = a' ++ [10] ++ b')%list → a = a' ∧ b = b'.
Proof.
  revert a'. induction a as [|x a IH]; intros [|y a'] Ha Ha' E; simpl in E.
  - by injection E.
  - injection E as E1 _. exfalso. apply Ha'. rewrite <- E1. constructor.
  - injection E as E1 _. exfalso. apply Ha. rewrite E1. constructor.
  - injection E as -> E2. apply not_elem_of_cons in Ha as [_ Ha]. apply not_elem_of_cons in Ha' as [_ Ha']. by destruct (IH a' Ha Ha' E2) as [-> ->].
Qed.
(** Different requests are hashed from different bytes: neither a method nor an
    escaped target contains a line feed. *)
Theorem hashInput_injective m t b m' t' b' :
  10 ∉ bytes_of m → 10 ∉ bytes_of t → 10 ∉ bytes_of m' → 10 ∉ bytes_of t' → hashInput m t b = hashInput m' t' b' →
  m = m' ∧ t = t' ∧ b = b'.
Proof.
  intros Hm Ht Hm' Ht' E. apply split_lf in E as [E1 E]; [|done..]. apply split_lf in E as [E2 E]; [|done..].
  split_and!; [rewrite <- (string_of_bytes_of m), <- (string_of_bytes_of m'); by f_equal|rewrite <- (string_of_bytes_of t), <- (string_of_bytes_of t'); by f_equal|done].
Qed.
