(* ===== verification/IdemWitness.v ===== *)
(** Requests with keys, concretely: an order is placed in the transaction that
    completes its key, and the request comes again; a second request fails, is
    retried and ends. *)
From Stdlib Require Import ZArith Lia.
From stdpp Require Import base tactics list gmap strings sorting relations.
From S2P Require Import Prelude Safety Decimal GoString Money GoTime LedgerTypes Ledger Promo Period OrderAmounts Proration SubTypes SubStore.
From S2P Require Import OrderStore OrderFlow OrderThms Idem IdemFacts IdemHistory IdemThms.
#[local] Open Scope string_scope.
#[local] Open Scope Z_scope.
#[local] Existing Instance scaled_decimal.

Ltac ev := match goal with |- _ = ?x => vm_cast_no_check (eq_refl x) end.

Definition balanced (w : world (list uuid)) : result oerr () :=
  match assert_ledger_balanced (w_ledger w) with Ok _ => Ok () | Err e => Err (OLedger e) end.
(** Stands in for the hash. *)
Definition mac (_ m : list Z) : list Z := [Z.of_nat (length m) mod 256; foldr Z.add 0 m mod 256].
Abbreviation knet := (@net (world (list uuid))).
Abbreviation kstep := (net_step balanced mac [7]).
Definition post_rq (key path : string) : Request := mkRequest key "POST" path "" (Some (bytes_of "{}")).
Definition created (id : uuid) : Response := mkReply 201 [123; Z.of_N id mod 256; 125] (mkHeader "application/json" "" "" "no-store" "").
Definition topup_tx : M (world (list uuid)) oerr uuid := o ← place shop None (at_ 1) topup_draft; mret (od_ID o.2).

Definition n0 : knet := new_net w0.
Definition n1 : knet := begin_step mac [7] me (noon 1) "order_create" (post_rq "k-1" "/orders") n0.
Definition n2 : knet := bound_step balanced 0 topup_tx (noon 1) (Some "order") created n1.
Definition n3 : knet := begin_step mac [7] me (noon 2) "order_create" (post_rq "k-1" "/orders") n2.
Definition n4 : knet := end_step 0 (noon 2) (EndedWith 201 None) n3.
Definition n5 : knet := begin_step mac [7] me (noon 3) "order_create" (post_rq "k-2" "/orders") n4.
Definition n6 : knet := end_step 1 (noon 3) (EndedInError 409) n5.
Definition n7 : knet := begin_step mac [7] me (noon 4) "order_create" (post_rq "k-2" "/orders") n6.

Lemma to_n3 : rtc kstep n0 n3.
Proof.
  apply (rtc_l _ _ n1); [exact (ns_begin balanced mac [7] n0 me (noon 1) "order_create" (post_rq "k-1" "/orders"))|].
  apply (rtc_l _ _ n2); [exact (ns_bound balanced mac [7] n1 0 topup_tx (noon 1) (Some "order") created)|].
  apply rtc_once. exact (ns_begin balanced mac [7] n2 me (noon 2) "order_create" (post_rq "k-1" "/orders")).
Qed.
Lemma to_n7 : rtc kstep n0 n7.
Proof.
  etrans; [exact to_n3|]. apply (rtc_l _ _ n4); [exact (ns_end balanced mac [7] n3 0 (noon 2) (EndedWith 201 None))|].
  apply (rtc_l _ _ n5); [exact (ns_begin balanced mac [7] n4 me (noon 3) "order_create" (post_rq "k-2" "/orders"))|].
  apply (rtc_l _ _ n6); [exact (ns_end balanced mac [7] n5 1 (noon 3) (EndedInError 409))|].
  apply rtc_once. exact (ns_begin balanced mac [7] n6 me (noon 4) "order_create" (post_rq "k-2" "/orders")).
Qed.
Definition k_1 : key3 := ("order_create", 7%N, "k-1").
Definition k_2 : key3 := ("order_create", 7%N, "k-2").
Abbreviation story_1 := [Began 1; Done 1 (Some (created 100)) (Some 100%N); Replayed (created 100)].

Lemma keys_follow_life_witness :
  events_of k_1 (n_log n7) = story_1 ∧ events_of k_2 (n_log n7) = [Began 1; Freed 1; Began 2] ∧
  life (events_of k_2 (n_log n7)) (key_state (row_at k_2 (n_idem n7))) ∧ key_state (row_at k_2 (n_idem n7)) = Running 2.
Proof.
  split; [ev|]. split; [ev|]. split; [exact (keys_follow_life balanced mac [7] w0 n7 k_2 to_n7)|ev].
Defined.

Lemma not_purged (l l' : list act) : l = l' → Forall (λ a, a ≠ Purged) l' → Purged ∉ l.
Proof. intros -> H Hp. rewrite Forall_forall in H. by apply (H _ Hp). Qed.
Definition fp_1 : list Z := NewFingerprint mac [7] "POST" "/orders" (bytes_of "{}").
Definition shopper : Principal := mkPrincipal 7 "portal".
(** While the first request is still being answered, the request comes again
    and so does another one under its key. *)
Lemma done_at_most_once_witness :
  map od_ID (order_rows (w_book (n_biz n3))) = [100%N] ∧ (n_execs n3 !! 0%N ≫= λ e, Some (ex_completed e)) = Some true ∧
  Claim false (Some shopper) (noon 5) "order_create" "k-1" fp_1 (n_idem n3) = (Ok (inr (created 100)), n_idem n3) ∧
  Claim false (Some shopper) (noon 5) "order_create" "k-1" (replicate 32 9) (n_idem n3) = (Err IReuse, n_idem n3) ∧
  ∀ i j e e', n_execs n3 !! i = Some e → n_execs n3 !! j = Some e' → claim_key (ex_claim e) = k_1 → claim_key (ex_claim e') = k_1 → i = j.
Proof.
  assert (E : events_of k_1 (n_log n3) = story_1) by ev.
  assert (Hp : Purged ∉ events_of k_1 (n_log n3)) by (apply (not_purged _ _ E); by repeat constructor).
  destruct (done_at_most_once balanced mac [7] w0 n3 "order_create" 7 "k-1" to_n3 Hp) as [HD H].
  destruct (HD [Began 1] 1 (Some (created 100)) (Some 100%N) [Replayed (created 100)] E) as (_ & _ & _ & row & Hr & HC).
  assert (Ef : ik_RequestHash row = fp_1).
  { assert (Er : ik_RequestHash <$> row_at k_1 (n_idem n3) = Some fp_1) by ev. unfold k_1 in Er. rewrite Hr in Er. by injection Er. }
  split; [ev|]. split; [ev|]. rewrite Ef in HC. split; [|split; [|exact H]].
  - rewrite HC by (ev || done). by rewrite bool_decide_true.
  - rewrite HC by (ev || done). rewrite bool_decide_false; [done|]. intros E9. assert (Ex : bool_decide (replicate 32 9 = fp_1) = false) by ev.
    by rewrite (bool_decide_true _ E9) in Ex.
Defined.

Definition claim_1 : claim := mkClaim 1 "order_create" 7 "k-1" fp_1 1 (noon 1 + LeaseDuration).
Definition s1 : idem := n_idem n1.
Definition s2 : idem := (complete_in (noon 1) claim_1 (Some "order") (created 100) 100 s1).2.
Lemma completion_replayed_witness :
  Claim false (Some shopper) (noon 9) "order_create" "k-1" fp_1 s2 = (Ok (inr (created 100)), s2) ∧
  Claim false (Some shopper) (noon 9) "order_create" "k-1" (replicate 32 9) s2 = (Err IReuse, s2).
Proof.
  assert (E1 : Claim false (Some shopper) (noon 1) "order_create" "k-1" fp_1 empty_idem = (Ok (inl claim_1), s1)) by ev.
  assert (E2 : complete_in (noon 1) claim_1 (Some "order") (created 100) 100 s1 = (Ok (), s2)) by ev.
  split.
  - exact (completion_replayed shopper (noon 1) "order_create" "k-1" fp_1 empty_idem claim_1 s1 (noon 1) (Some "order") (created 100) 100 s2 (noon 9) fp_1
      empty_idem_ok E1 E2 eq_refl).
  - exact (completion_replayed shopper (noon 1) "order_create" "k-1" fp_1 empty_idem claim_1 s1 (noon 1) (Some "order") (created 100) 100 s2 (noon 9)
      (replicate 32 9) empty_idem_ok E1 E2 eq_refl).
Defined.

(** Two writes of a response with an entity tag. *)
Definition hdrs : headers := {["Etag" := ["v1"]; "X-Other" := ["a"; "b"]]}.
Definition two_writes : list write := [mkWrite 200 hdrs [123] 1 false; mkWrite 200 ∅ [125] 1 false].
Definition recorded_response : Response := mkReply 200 [123; 125] (mkHeader "text/plain" "" "v1" "" "").
Lemma recording_faithful_witness :
  (rec_result (λ _, "text/plain") 200 ∅ (foldl (λ r w, Write w r) new_recorder two_writes)).2 = Some recorded_response ∧
  Forall taken_whole two_writes ∧ set_to hdrs "Etag" "v1" ∧ ∀ c, ∃ f, successFinish (Some c) recorded_response = Ok (c, f).
Proof.
  assert (E : (rec_result (λ _, "text/plain") 200 ∅ (foldl (λ r w, Write w r) new_recorder two_writes)).2 = Some recorded_response) by ev.
  destruct (recording_faithful (λ _, "text/plain") 200 ∅ two_writes recorded_response E) as (H1 & _ & _ & _ & _ & H6 & _ & _ & H9).
  split; [exact E|]. split; [exact H1|]. split; [exact H6|exact (H9 eq_refl)].
Defined.

Lemma ended_never_locked_witness :
  let w := end_step 2 (noon 5) Panicked n7 in
  events_of k_2 (n_log w) = [Began 1; Freed 1; Began 2; Freed 2] ∧ ∃ r, row_at k_2 (n_idem w) = Some r ∧ ik_Status r ≠ StatusInFlight.
Proof.
  set (e := default (mkExec claim_1 true) (n_execs n7 !! 2%N)). assert (Ei : n_execs n7 !! 2%N = Some e) by ev.
  assert (Ek : claim_key (ex_claim e) = k_2) by ev. assert (El : events_of k_2 (n_log n7) = [Began 1; Freed 1; Began 2]) by ev.
  assert (Hp : Purged ∉ events_of (claim_key (ex_claim e)) (n_log n7)) by (rewrite Ek; apply (not_purged _ _ El); by repeat constructor).
  destruct (ended_never_locked balanced mac [7] w0 n7 2 e (noon 5) Panicked to_n7 Ei Hp I) as (_ & H & _). rewrite Ek in H.
  split; [ev|exact H].
Defined.
