(* ===== verification/Gift.v ===== *)
(** Gift cards (panel/internal/module/giftcard/service): the data of types.go,
    the pure rules of rules.go (templates, codes, masks, the draw of a prize)
    and the choice of the subscription a card is used on (placement.go). *)
From Stdlib Require Import ZArith QArith Lia Ascii String.
From stdpp Require Import base tactics list gmap strings sorting.
From S2P Require Import Prelude Decimal GoString Money GoTime Period SubTypes.
#[local] Open Scope string_scope.
#[local] Open Scope Z_scope.

(** * Constants (types.go, rules.go, placement.go) *)

Definition TypeGeneral := "general".
Definition TypePlan := "plan".
Definition TypeMystery := "mystery".
Definition TemplateActive := "active".
Definition TemplatePaused := "paused".
Definition TemplateArchived := "archived".
Definition CodeUnused := "unused".
Definition CodeUsed := "used".
Definition CodeDisabled := "disabled".
Definition CodeExpired := "expired".
Definition PlanGrantNew := "new".
Definition PlanGrantRenewed := "renewed".
Definition PlanGrantChanged := "changed".
Definition PlanGrantStacked := "stacked".

Definition maxNameRunes : Z := 120.
Definition maxPrizeLabelRunes : Z := 100.
Definition maxPrizes : Z := 50.
Definition minPrizes : Z := 2.
Definition maxPrizeWeight : Z := 1000000.
Definition maxExpireDays : Z := 3650.
Definition maxTrafficBytes : Z := Z.shiftl 1 50.
Definition maxUsePerUser : Z := 10000.
Definition maxGenerateCount : Z := 5000.
Definition maxPrefixLen : Z := 8.
Definition generateSampleSize : nat := 4.
Definition codeRandomLen : nat := 12.
Definition maskedTail : nat := 8.
Definition minCodeLen : Z := 8.
Definition maxCodeLen : Z := 32.
Definition codeAlphabet : string := "ABCDEFGHJKMNPQRSTUVWXYZ23456789".

Definition KindRenew := "renew".
Definition KindStack := "stack".
Definition KindChange := "change".
Definition KindNew := "new".
Definition KindExtendDays := "extend_days".
Definition KindResetTraffic := "reset_traffic".
Definition KindAddTraffic := "add_traffic".
Definition BadgeSamePlan := "same_plan".
Definition BadgeSoonestExpiry := "soonest_expiry".
Definition BadgeMostUsed := "most_used".
Definition BadgeLeastRemaining := "least_remaining".
(** [StateLive], [StateRevivable], [StateDead] of a candidate. *)
Definition CandLive := "live".
Definition CandRevivable := "revivable".
Definition CandDead := "dead".

(** * Text *)

Definition validateText (s0 : string) (minRunes maxRunes : Z) : option string :=
  let s := TrimSpace s0 in
  let n := RuneCountInString s in
  if (n <? minRunes) || (maxRunes <? n) || ContainsNUL s || negb (ValidString s) then None else Some s.

(** [unicode.ToUpper] as far as the two checks below can tell: the letters whose
    upper case is in A–Z, among them the dotless i and the long s; what other
    runes become is outside A–Z and 0–9 either way. *)
Definition upper_rune (r : Z) : Z :=
  if between 97 r 122 then r - 32 else if r =? 0x131 then 73 else if r =? 0x17F then 83 else r.
Definition code_rune (r : Z) : bool := between 65 r 90 || between 48 r 57.
(** [strings.ToUpper(strings.TrimSpace(s))], if it only has letters and digits;
    [len] counts bytes, which are then the runes. *)
Definition clean_upper (s : string) : option (list Z) :=
  let rs := map (λ c, upper_rune (rune c)) (runes (TrimSpace s)) in
  if forallb code_rune rs then Some rs else None.
Definition normalizePrefix (p : string) : option string :=
  match clean_upper p with
  | Some rs => if maxPrefixLen <? Z.of_nat (length rs) then None else Some (string_of rs)
  | None => None
  end.
Definition normalizeCode (code : string) : option string :=
  match clean_upper code with
  | Some rs => let n := Z.of_nat (length rs) in
               if (n <? minCodeLen) || (maxCodeLen <? n) then None else Some (string_of rs)
  | None => None
  end.

(** * Codes *)

Definition codeLimit : Z := 256 / blen codeAlphabet * blen codeAlphabet.
Definition code_char (b : Z) : Z := nth (Z.to_nat (b mod blen codeAlphabet)) (bytes_of codeAlphabet) 0.
(** The loop over one buffer of random bytes. *)
Fixpoint take_chars (buf out : list Z) : list Z :=
  match buf with
  | [] => out
  | b :: buf' =>
      if codeLimit <=? b then take_chars buf' out
      else let out' := (out ++ [code_char b])%list in
           if Nat.eqb (length out') codeRandomLen then out' else take_chars buf' out'
  end.
(** [reads] are the buffers successive calls of [rand.Read] fill; the call after
    the last of them fails.  The answer has the reads that are left. *)
Fixpoint random_part (reads : list (list Z)) (out : list Z) : option (list Z * list (list Z)) :=
  if Nat.ltb (length out) codeRandomLen then
    match reads with
    | [] => None
    | buf :: reads' => random_part reads' (take_chars buf out)
    end
  else Some (out, reads).
Definition newCode (prefix : string) (reads : list (list Z)) : option (string * list (list Z)) :=
  match random_part reads [] with
  | Some (out, reads') => Some (prefix ++ string_of out, reads')
  | None => None
  end.

Definition bullet : list Z := [226; 128; 162].
Definition repeat_bullet (n : nat) : list Z := concat (repeat bullet n).
Definition MaskCode (code : string) : string :=
  let rs := runes code in
  if Nat.leb (length rs) maskedTail then string_of (repeat_bullet (length rs))
  else string_of (concat (map encode_rune (take (length rs - maskedTail) rs)) ++ repeat_bullet maskedTail).

Definition batchAAD (batchID : uuid) : list Z := bytes_of ("gift_card_batch:" ++ uuid_String batchID).

(** [strings.Join(codes, "\n")]. *)
Fixpoint encodeCodes (codes : list string) : list Z :=
  match codes with
  | [] => []
  | [c] => bytes_of c
  | c :: codes' => (bytes_of c ++ 10 :: encodeCodes codes')%list
  end.
(** [strings.Split(s, "\n")]. *)
Fixpoint split_lines (l acc : list Z) : list string :=
  match l with
  | [] => [string_of (rev acc)]
  | b :: l' => if b =? 10 then string_of (rev acc) :: split_lines l' [] else split_lines l' (b :: acc)
  end.
Definition decodeCodes (b : list Z) : list string := match b with [] => [] | _ => split_lines b [] end.

(** Keeps the first occurrence of every identifier but the zero one. *)
Fixpoint dedupe_from (seen : gset uuid) (ids : list uuid) : list uuid :=
  match ids with
  | [] => []
  | id :: ids' => if (id =? uuid_Nil)%N || bool_decide (id ∈ seen) then dedupe_from seen ids'
                  else id :: dedupe_from ({[id]} ∪ seen) ids'
  end.
Definition dedupeIDs (ids : list uuid) : list uuid := dedupe_from ∅ ids.

(** Why rewards are refused; the text names the prize by its number. *)
Inductive reward_problem :=
| RNegative | RNothing | RPlaces | RTraffic | RDays | RNoPlan | RNoPrice | RFewPrizes | RManyPrizes | RType
| RPrize (i : nat) (p : prize_problem)
with prize_problem := PLabel | PWeight | PNegative | PNothing | PPlaces | PTooMuch.

Section Gift.
Context `{DL : DecimalLib}.

Record Prize := mkPrize { pz_Label : string; pz_Weight : Z; pz_Balance : dec; pz_TrafficBytes : Z; pz_ExpireDays : Z }.
Record Rewards := mkRewards {
  rw_Balance : dec; rw_TrafficBytes : Z; rw_ExpireDays : Z; rw_ResetQuota : bool; rw_PlanID : option uuid; rw_PriceID : option uuid;
  rw_Pool : list Prize }.
Record Conditions := mkConditions { cd_NewUserOnly : bool; cd_PaidUserOnly : bool }.
Definition no_rewards : Rewards := mkRewards dec_zero 0 0 false None None [].
Record TemplateInput := mkTemplateInput {
  ti_ID : option uuid; ti_Name : string; ti_Type : string; ti_Status : string; ti_Rewards : Rewards; ti_Conditions : Conditions;
  ti_MaxUsePerUser : Z }.
(** The view of a template; [MaxUsePerUser] is its [Limits]. *)
Record Template := mkTemplate {
  te_ID : uuid; te_Name : string; te_Type : string; te_Status : string; te_Rewards : Rewards; te_Conditions : Conditions;
  te_MaxUsePerUser : Z; te_PriceArchived : bool; te_CodeTotal : Z; te_CodeUsed : Z; te_CreatedAt : Time }.

(** * Templates (rules.go) *)

Definition places_ok (d : dec) : bool := match Check d with Ok _ => true | Err _ => false end.
Definition prizeProblem (p : Prize) : option prize_problem :=
  match validateText (pz_Label p) 1 maxPrizeLabelRunes with
  | None => Some PLabel
  | Some _ =>
      if (pz_Weight p <=? 0) || (maxPrizeWeight <? pz_Weight p) then Some PWeight
      else if IsNegative (pz_Balance p) || (pz_TrafficBytes p <? 0) || (pz_ExpireDays p <? 0) then Some PNegative
      else if negb (IsPositive (pz_Balance p)) && (pz_TrafficBytes p =? 0) && (pz_ExpireDays p =? 0) then Some PNothing
      else if negb (places_ok (pz_Balance p)) then Some PPlaces
      else if (maxTrafficBytes <? pz_TrafficBytes p) || (maxExpireDays <? pz_ExpireDays p) then Some PTooMuch
      else None
  end.
Fixpoint poolProblem (i : nat) (pool : list Prize) : option reward_problem :=
  match pool with
  | [] => None
  | p :: pool' => match prizeProblem p with Some m => Some (RPrize i m) | None => poolProblem (S i) pool' end
  end.
Definition no_id (o : option uuid) : bool := match o with Some id => (id =? uuid_Nil)%N | None => true end.
Definition validateRewards (cardType : string) (r : Rewards) : option reward_problem :=
  if String.eqb cardType TypeGeneral then
    if IsNegative (rw_Balance r) || (rw_TrafficBytes r <? 0) || (rw_ExpireDays r <? 0) then Some RNegative
    else if negb (IsPositive (rw_Balance r)) && (rw_TrafficBytes r =? 0) && (rw_ExpireDays r =? 0) && negb (rw_ResetQuota r)
    then Some RNothing
    else if negb (places_ok (rw_Balance r)) then Some RPlaces
    else if maxTrafficBytes <? rw_TrafficBytes r then Some RTraffic
    else if maxExpireDays <? rw_ExpireDays r then Some RDays
    else None
  else if String.eqb cardType TypePlan then
    if no_id (rw_PlanID r) then Some RNoPlan else if no_id (rw_PriceID r) then Some RNoPrice else None
  else if String.eqb cardType TypeMystery then
    if Z.of_nat (length (rw_Pool r)) <? minPrizes then Some RFewPrizes
    else if maxPrizes <? Z.of_nat (length (rw_Pool r)) then Some RManyPrizes
    else poolProblem 1 (rw_Pool r)
  else Some RType.

Definition known_type (t : string) : bool := bool_decide (t ∈ [TypeGeneral; TypePlan; TypeMystery]).
Definition known_status (t : string) : bool := bool_decide (t ∈ [TemplateActive; TemplatePaused; TemplateArchived]).
(** Only the rewards of the card's type are kept. *)
Definition kept_rewards (t : string) (r : Rewards) : Rewards :=
  if String.eqb t TypeGeneral
  then mkRewards (rw_Balance r) (rw_TrafficBytes r) (rw_ExpireDays r) (rw_ResetQuota r) None None []
  else if String.eqb t TypePlan then mkRewards dec_zero 0 0 false (rw_PlanID r) (rw_PriceID r) []
  else if String.eqb t TypeMystery
  then mkRewards dec_zero 0 0 false None None
         (map (λ p, mkPrize (TrimSpace (pz_Label p)) (pz_Weight p) (pz_Balance p) (pz_TrafficBytes p) (pz_ExpireDays p)) (rw_Pool r))
  else r.
(** The input to store, or the fields at fault. *)
Definition normalizeTemplate (i : TemplateInput) : TemplateInput + list string :=
  let name := validateText (ti_Name i) 1 maxNameRunes in
  let status := if String.eqb (ti_Status i) "" then TemplateActive else ti_Status i in
  let fields :=
    ((match name with None => ["name"] | Some _ => [] end) ++ (if known_status status then [] else ["status"]) ++
     (match validateRewards (ti_Type i) (ti_Rewards i) with
      | None => []
      | Some _ => if known_type (ti_Type i) then ["rewards"] else ["type"]
      end) ++
     (if (ti_MaxUsePerUser i <? 0) || (maxUsePerUser <? ti_MaxUsePerUser i) then ["limits"] else []) ++
     (if cd_NewUserOnly (ti_Conditions i) && cd_PaidUserOnly (ti_Conditions i) then ["conditions"] else []))%list in
  match fields with
  | [] => inl (mkTemplateInput (ti_ID i) (default "" name) (ti_Type i) status (kept_rewards (ti_Type i) (ti_Rewards i))
                 (ti_Conditions i) (ti_MaxUsePerUser i))
  | _ => inr fields
  end.

(** * The draw *)

Definition weight_sum (pool : list Prize) : Z := foldl (λ total p, wrap64 (total + pz_Weight p)) 0 pool.
Fixpoint pick_prize (pick acc : Z) (pool : list Prize) : option Prize :=
  match pool with
  | [] => None
  | p :: pool' => let acc' := wrap64 (acc + pz_Weight p) in
                  if pick <? acc' then Some p else pick_prize pick acc' pool'
  end.
(** [rand] is [rand.Int(rand.Reader, total)]. *)
Definition drawPrize (rand : Z → option Z) (pool : list Prize) : option Prize :=
  let total := weight_sum pool in
  if total <=? 0 then None
  else match rand total with
  | None => None
  | Some pick => match pick_prize pick 0 pool with Some p => Some p | None => last pool end
  end.

(** * Placement (placement.go) *)

Inductive offerKind := offerNone | offerPlan | offerDays | offerReset | offerTraffic | offerMixed.
#[global] Instance offerKind_eq_dec : EqDecision offerKind.
Proof. solve_decision. Defined.
Record offer := mkOffer {
  of_Kind : offerKind; of_PlanID : uuid; of_PlanKind : string; of_Mystery : bool; of_HasDays : bool; of_HasReset : bool;
  of_HasTraffic : bool; of_Days : Z }.
Definition no_offer : offer := mkOffer offerNone uuid_Nil "" false false false false 0.
Record candidate := mkCandidate {
  ca_SubscriptionID : uuid; ca_PlanID : uuid; ca_PlanName : string; ca_Label : string; ca_State : string; ca_PeriodEnd : Time;
  ca_Permanent : bool; ca_Unlimited : bool; ca_TrafficUsed : Z; ca_TrafficCap : Z }.
(** [Option]. *)
Record POption := mkOption {
  op_Key : string; op_Kind : string; op_SubscriptionID : option uuid; op_Expired : bool; op_Badge : string }.
Record Choice := mkChoice { ch_Kind : string; ch_SubscriptionID : option uuid }.

(** [noTargetErr]: is it the error about traffic? *)
Definition noTrafficTarget (o : offer) : bool :=
  bool_decide (of_Kind o = offerTraffic) ||
  (bool_decide (of_Kind o = offerMixed) && of_HasTraffic o && negb (of_HasDays o) && negb (of_HasReset o)).

Definition optionKey (kind : string) (subID : uuid) : string :=
  if String.eqb kind KindNew then KindNew else kind ++ ":" ++ uuid_String subID.
Definition choiceKey (c : option Choice) : string :=
  match c with
  | None => ""
  | Some c =>
      if String.eqb (ch_Kind c) "" then ""
      else if String.eqb (ch_Kind c) KindNew then KindNew
      else match ch_SubscriptionID c with None => ch_Kind c ++ ":" | Some id => optionKey (ch_Kind c) id end
  end.
(** The option, that there is none, or which of the two errors: [true] for
    [ErrChoiceStale], [false] for [ErrChoiceRequired]. *)
Definition resolveChoice (choice : option Choice) (opts : list POption) : option POption + bool :=
  let key := choiceKey choice in
  if negb (String.eqb key "") then
    match List.find (λ o, String.eqb (op_Key o) key) opts with Some o => inl (Some o) | None => inr true end
  else match opts with
  | [] => inl None
  | [o] => inl (Some o)
  | _ => inr false
  end.

Definition min_days (pool : list Prize) : Z :=
  foldl (λ m p, if 0 <? pz_ExpireDays p then if (m =? 0) || (pz_ExpireDays p <? m) then pz_ExpireDays p else m else m) 0 pool.
Definition offerOf (t : Template) (planKind : string) : offer :=
  let r := te_Rewards t in
  if String.eqb (te_Type t) TypePlan then
    match rw_PlanID r with
    | None => no_offer
    | Some id => mkOffer offerPlan id planKind false false false false 0
    end
  else if String.eqb (te_Type t) TypeMystery then
    let days := existsb (λ p, 0 <? pz_ExpireDays p) (rw_Pool r) in
    let traffic := existsb (λ p, 0 <? pz_TrafficBytes p) (rw_Pool r) in
    if negb days && negb traffic then no_offer
    else mkOffer offerMixed uuid_Nil "" true days false traffic (min_days (rw_Pool r))
  else
    let days := 0 <? rw_ExpireDays r in
    let reset := rw_ResetQuota r in
    let traffic := 0 <? rw_TrafficBytes r in
    match length (List.filter id [days; reset; traffic]) with
    | O => no_offer
    | S (S _) => mkOffer offerMixed uuid_Nil "" false days reset traffic (rw_ExpireDays r)
    | S O => if days then mkOffer offerDays uuid_Nil "" false false false false (rw_ExpireDays r)
             else if reset then mkOffer offerReset uuid_Nil "" false false false false 0
             else mkOffer offerTraffic uuid_Nil "" false false false false 0
    end.

Definition candidateState (st : State) : string :=
  match st with StateLive => CandLive | StateRevivable => CandRevivable | StateEnded => CandDead end.

Definition filterState (cands : list candidate) (state : string) : list candidate :=
  List.filter (λ c, String.eqb (ca_State c) state) cands.
(** By expiry, then by identifier. *)
Definition end_le (a b : candidate) : Prop :=
  ca_PeriodEnd a < ca_PeriodEnd b ∨ (ca_PeriodEnd a = ca_PeriodEnd b ∧ (ca_SubscriptionID a ≤ ca_SubscriptionID b)%N).
#[global] Instance end_le_dec : RelDecision end_le.
Proof. intros a b. unfold end_le. apply _. Defined.
Definition byEndAsc (cs : list candidate) : list candidate := merge_sort end_le cs.
Definition byEndDesc (cs : list candidate) : list candidate := rev (byEndAsc cs).
Definition optionFor (kind : string) (c : candidate) : POption :=
  mkOption (optionKey kind (ca_SubscriptionID c)) kind (Some (ca_SubscriptionID c)) false "".
Definition new_option : POption := mkOption KindNew KindNew None false "".
Definition set_badge (b : string) (o : POption) : POption := mkOption (op_Key o) (op_Kind o) (op_SubscriptionID o) (op_Expired o) b.
Definition set_expired (o : POption) : POption := mkOption (op_Key o) (op_Kind o) (op_SubscriptionID o) true (op_Badge o).
Definition badge_at (i : nat) (b : string) (opts : list POption) : list POption := alter (set_badge b) i opts.
Definition key_at (i : nat) (opts : list POption) : string := default "" (op_Key <$> opts !! i).

Definition planOptions (planID : uuid) (planKind : string) (cands : list candidate) (allowChange : bool) : list POption * string :=
  let alive := List.filter (λ c, negb (String.eqb (ca_State c) CandDead)) cands in
  let same := List.filter (λ c, (ca_PlanID c =? planID)%N) alive in
  let other := List.filter (λ c, negb (ca_PlanID c =? planID)%N) alive in
  let revived := if allowChange then map (λ c, set_expired (optionFor KindChange c)) (byEndDesc (filterState other CandRevivable)) else [] in
  let changed := if allowChange then map (optionFor KindChange) (byEndAsc (filterState other CandLive)) else [] in
  let finish first :=
    let opts := (first ++ revived ++ [new_option] ++ changed)%list in
    if Nat.ltb 0 (length first) then (badge_at 0 BadgeSamePlan opts, key_at 0 opts)
    else if Nat.eqb (length opts) 1 then (opts, key_at 0 opts)
    else (opts, "") in
  if String.eqb planKind KindOneTime then finish (map (optionFor KindStack) (byEndAsc (filterState same CandLive)))
  else
    let renews := (map (optionFor KindRenew) (byEndAsc (filterState same CandLive)) ++
                   map (optionFor KindRenew) (byEndDesc (filterState same CandRevivable)))%list in
    if Nat.eqb (length alive) 1 && Nat.eqb (length renews) 1 then (renews, key_at 0 renews) else finish renews.

Definition daysOptions (cands : list candidate) : list POption * string :=
  let opts := (map (optionFor KindExtendDays) (byEndAsc (filterState cands CandLive)) ++
               map (optionFor KindExtendDays) (byEndAsc (filterState cands CandRevivable)))%list in
  match opts with
  | [] => ([], "")
  | _ => (badge_at 0 BadgeSoonestExpiry opts, key_at 0 opts)
  end.

(** The decimals multiplied are integers, so the products are exact. *)
Definition usedMore (a b : candidate) : bool :=
  let '(ua, ca) := if ca_TrafficCap a <=? 0 then (0, 1) else (ca_TrafficUsed a, ca_TrafficCap a) in
  let '(ub, cb) := if ca_TrafficCap b <=? 0 then (0, 1) else (ca_TrafficUsed b, ca_TrafficCap b) in
  ub * ca <? ua * cb.
Definition remaining (c : candidate) : Z :=
  if ca_Unlimited c || (ca_TrafficCap c <=? 0) then MaxInt64
  else let left := wrap64 (ca_TrafficCap c - ca_TrafficUsed c) in if left <? 0 then 0 else left.
(** The loop that remembers the first element nothing before it beats. *)
Fixpoint best_from (better : candidate → candidate → bool) (i : nat) (best : nat * candidate) (l : list candidate) : nat :=
  match l with
  | [] => best.1
  | c :: l' => best_from better (S i) (if better c best.2 then (i, c) else best) l'
  end.
Definition best_options (better : candidate → candidate → bool) (kind badge : string) (cands : list candidate) : list POption * string :=
  let live := byEndAsc (filterState cands CandLive) in
  match live with
  | [] => ([], "")
  | c :: _ =>
      let best := best_from better 0 (O, c) live in
      let opts := map (optionFor kind) live in
      (if Nat.ltb 1 (length opts) then badge_at best badge opts else opts, key_at best opts)
  end.
Definition resetOptions : list candidate → list POption * string := best_options usedMore KindResetTraffic BadgeMostUsed.
Definition trafficOptions : list candidate → list POption * string :=
  best_options (λ c b, remaining c <? remaining b) KindAddTraffic BadgeLeastRemaining.

Definition placementOptions (o : offer) (cands0 : list candidate) (allowChange : bool) : list POption * string :=
  if bool_decide (of_Kind o = offerPlan) then planOptions (of_PlanID o) (of_PlanKind o) cands0 allowChange
  else
    let mixed := bool_decide (of_Kind o = offerMixed) in
    let hasDays := bool_decide (of_Kind o = offerDays) || (mixed && of_HasDays o) in
    let hasTraffic := bool_decide (of_Kind o = offerTraffic) || (mixed && of_HasTraffic o) in
    let cands := if of_Mystery o then cands0
                 else List.filter (λ c, negb (hasDays && ca_Permanent c) && negb (hasTraffic && ca_Unlimited c)) cands0 in
    match of_Kind o with
    | offerDays => daysOptions cands
    | offerReset => resetOptions cands
    | offerTraffic => trafficOptions cands
    | offerMixed =>
        if of_HasDays o && negb (of_HasReset o) && negb (of_HasTraffic o) then daysOptions cands
        else if of_HasDays o then daysOptions (filterState cands CandLive)
        else if of_HasReset o then resetOptions cands
        else if of_HasTraffic o then trafficOptions cands
        else ([], "")
    | _ => ([], "")
    end.
Definition permanentIn (cands : list candidate) (id : uuid) : bool :=
  match List.find (λ c, (ca_SubscriptionID c =? id)%N) cands with Some c => ca_Permanent c | None => false end.
End Gift.
