(* ===== verification/GiftCodes.v ===== *)
(** Facts about codes as text: the characters a new code is made of, what a
    user's typing of it normalises to, its mask, the sealed list of a batch,
    and the draw from a prize pool. *)
From Stdlib Require Import ZArith QArith Lia Ascii String.
From stdpp Require Import base tactics list gmap strings sorting.
From S2P Require Import Prelude Decimal GoString Money GoTime Period SubTypes Gift.
#[local] Open Scope string_scope.
#[local] Open Scope Z_scope.

(** * Text of ASCII bytes *)

Definition ascii_byte (b : Z) : Prop := 0 ≤ b < 128.
Definition ascii_chunk (b : Z) : chunk := Chunk b [b] true.
Lemma decode_ascii l : Forall ascii_byte l → decode l 0 = map ascii_chunk l.
Proof.
  induction 1 as [|b l Hb _ IH]; simpl; [done|]. unfold ascii_byte in Hb. unfold DecodeRune. rewrite (proj2 (Z.ltb_lt b 128)) by lia. simpl. by rewrite IH.
Qed.
Lemma encode_ascii l : encode (map ascii_chunk l) = l.
Proof. unfold encode. induction l as [|b l IH]; simpl; [done|]. by rewrite IH. Qed.
Lemma ascii_range l : Forall ascii_byte l → Forall byte_range l.
Proof. intros H. eapply Forall_impl; [exact H|]. unfold ascii_byte, byte_range. lia. Qed.

Definition blank (b : Z) : Prop := ascii_byte b ∧ IsSpace b = true.
Lemma drop_blanks pre l : Forall blank pre → drop_spaces (map ascii_chunk pre ++ l) = drop_spaces l.
Proof. induction 1 as [|b pre [_ Hb] _ IH]; simpl; [done|]. by rewrite Hb. Qed.
Lemma drop_solid l rest : l ≠ [] → Forall (λ b, IsSpace b = false) l → drop_spaces (map ascii_chunk l ++ rest) = (map ascii_chunk l ++ rest)%list.
Proof. intros Hn Hl. destruct Hl as [|b l Hb]; [done|]. simpl. by rewrite Hb. Qed.
(** Blanks around a word go, the word stays. *)
Lemma trim_word pre mid post : Forall blank pre → Forall blank post → mid ≠ [] → Forall (λ b, IsSpace b = false) mid →
  trim_chunks (map ascii_chunk (pre ++ mid ++ post)) = map ascii_chunk mid.
Proof.
  intros Hpre Hpost Hn Hmid. unfold trim_chunks. rewrite map_app, drop_blanks, map_app by done. rewrite drop_solid by done.
  rewrite rev_app_distr, <- !map_rev, drop_blanks by (by apply Forall_rev). rewrite <- (app_nil_r (map ascii_chunk (rev mid))).
  rewrite drop_solid; [|by intros E%(f_equal (@rev Z)); rewrite rev_involutive in E|by apply Forall_rev].
  by rewrite app_nil_r, <- map_rev, rev_involutive.
Qed.

(** * What a user types *)

(** The same letter or digit, perhaps in lower case. *)
Definition same_key (a b : Z) : Prop := code_rune b = true ∧ (a = b ∨ (a = b + 32 ∧ between 65 b 90 = true)).
(** [s] is [c] typed in any mixture of cases with blanks around it. *)
Definition typed_as (c s : string) : Prop :=
  ∃ pre mid post, bytes_of s = (pre ++ mid ++ post)%list ∧ Forall blank pre ∧ Forall blank post ∧ Forall2 same_key mid (bytes_of c).
Lemma code_rune_range b : code_rune b = true → (65 ≤ b ≤ 90) ∨ (48 ≤ b ≤ 57).
Proof. unfold code_rune, between. rewrite orb_true_iff, !andb_true_iff, !Z.leb_le. lia. Qed.
Lemma between_true lo b hi : between lo b hi = true ↔ lo ≤ b ≤ hi.
Proof. unfold between. by rewrite andb_true_iff, !Z.leb_le. Qed.
Lemma same_key_range a b : same_key a b → 48 ≤ a ≤ 122 ∧ upper_rune a = b.
Proof.
  intros [Hb%code_rune_range Ha]. unfold upper_rune, between. destruct Ha as [->|[-> Hc%between_true]].
  - split; [lia|]. rewrite (proj2 (Z.leb_gt 97 b)), (proj2 (Z.eqb_neq b 0x131)), (proj2 (Z.eqb_neq b 0x17F)) by lia. done.
  - split; [lia|]. rewrite (proj2 (Z.leb_le 97 _)), (proj2 (Z.leb_le _ 122)) by lia. simpl. lia.
Qed.
Lemma solid_key a : 48 ≤ a ≤ 122 → IsSpace a = false.
Proof.
  intros Ha. unfold IsSpace, between.
  repeat match goal with |- context [?x <=? ?y] => destruct (Z.leb_spec x y); try lia | |- context [?x =? ?y] => destruct (Z.eqb_spec x y); try lia end;
    done.
Qed.
Lemma typed_runes c mid : Forall2 same_key mid (bytes_of c) →
  Forall ascii_byte mid ∧ Forall (λ b, IsSpace b = false) mid ∧ map upper_rune mid = bytes_of c ∧ forallb code_rune (bytes_of c) = true.
Proof.
  induction 1 as [|a b mid l Hab _ (IH1 & IH2 & IH3 & IH4)]; [done|]. destruct (same_key_range _ _ Hab) as [Ha Hu].
  destruct Hab as [Hb _]. simpl. rewrite Hb, IH3, IH4, Hu. split_and!; try done; constructor; try done; [unfold ascii_byte; lia|by apply solid_key].
Qed.
Lemma TrimSpace_typed c s : typed_as c s → c ≠ "" → ∃ mid, TrimSpace s = string_of mid ∧ runes (TrimSpace s) = map ascii_chunk mid ∧
  map upper_rune mid = bytes_of c ∧ forallb code_rune (bytes_of c) = true.
Proof.
  intros (pre & mid & post & Hs & Hpre & Hpost & Hm) Hc. destruct (typed_runes _ _ Hm) as (Ha & Hsp & Hu & Hr). exists mid.
  assert (Hne : mid ≠ []) by (intros ->; simpl in Hu; by destruct c).
  assert (Hall : Forall ascii_byte (bytes_of s)).
  { rewrite Hs. repeat apply Forall_app_2; [|done|]; (eapply Forall_impl; [done|]); by intros x []. }
  assert (Ht : TrimSpace s = string_of mid).
  { unfold TrimSpace, runes. rewrite decode_ascii by done. rewrite Hs, trim_word by done. by rewrite encode_ascii. }
  split_and!; try done. rewrite Ht. unfold runes. rewrite bytes_of_string_of by (by apply ascii_range). by apply decode_ascii.
Qed.
Lemma normalizeCode_typed c s : typed_as c s → minCodeLen ≤ blen c ≤ maxCodeLen → normalizeCode s = Some c.
Proof.
  intros Ht Hl. destruct (TrimSpace_typed _ _ Ht) as (mid & _ & Hr & Hu & Hc); [intros ->; unfold blen, minCodeLen in Hl; simpl in Hl; lia|].
  unfold normalizeCode, clean_upper. rewrite Hr, List.map_map. change (map _ mid) with (map upper_rune mid). rewrite Hu, Hc, length_bytes_of. unfold blen in Hl.
  rewrite (proj2 (Z.ltb_ge _ _)), (proj2 (Z.ltb_ge _ _)) by lia. simpl. by rewrite string_of_bytes_of.
Qed.
(** A code in the alphabet is typed as itself. *)
Definition clean (c : string) : Prop := all_bytes code_rune c = true.
Lemma typed_self c : clean c → typed_as c c.
Proof.
  intros Hc. exists [], (bytes_of c), []. rewrite app_nil_r. split_and!; [done..|]. unfold clean, all_bytes in Hc.
  induction (bytes_of c) as [|b l IH]; simpl in *; [constructor|]. apply andb_true_iff in Hc as [Hb Hl]. constructor; [split; [done|by left]|auto].
Qed.
Lemma normalizePrefix_clean p q : normalizePrefix p = Some q → clean q ∧ blen q ≤ maxPrefixLen.
Proof.
  unfold normalizePrefix, clean_upper. destruct (forallb _ _) eqn:E; [|done]. destruct (Z.ltb_spec maxPrefixLen (Z.of_nat (length (map (λ c, upper_rune (rune c)) (runes (TrimSpace p)))))); [done|].
  intros [= <-]. assert (Hr : Forall byte_range (map (λ c, upper_rune (rune c)) (runes (TrimSpace p)))).
  { apply Forall_forall. intros b Hb. rewrite forallb_forall in E. apply list_elem_of_In, E, code_rune_range in Hb. unfold byte_range. lia. }
  unfold clean, all_bytes, blen. rewrite <- length_bytes_of, bytes_of_string_of by done. done.
Qed.

(** * New codes *)

Lemma bytes_app a b : bytes_of (a ++ b) = (bytes_of a ++ bytes_of b)%list.
Proof. induction a as [|x a IH]; simpl; [done|]. by rewrite IH. Qed.
Definition code_letter (b : Z) : Prop := b ∈ bytes_of codeAlphabet.
Lemma code_char_letter b : code_letter (code_char b).
Proof.
  unfold code_letter, code_char. apply list_elem_of_In, nth_In. rewrite length_bytes_of.
  pose proof (Z.mod_pos_bound b (blen codeAlphabet) ltac:(done)). unfold blen in *. lia.
Qed.
Lemma take_chars_ok buf : ∀ out, Forall code_letter out → (length out < codeRandomLen)%nat →
  Forall code_letter (take_chars buf out) ∧ (length (take_chars buf out) ≤ codeRandomLen)%nat.
Proof.
  induction buf as [|b buf IH]; intros out Ho Hl; cbn [take_chars]; [split; [done|lia]|]. destruct (codeLimit <=? b); [by apply IH|].
  assert (Ho' : Forall code_letter (out ++ [code_char b])) by (apply Forall_app_2; [done|constructor; [apply code_char_letter|done]]).
  cbv zeta. destruct (Nat.eqb_spec (length (out ++ [code_char b])) codeRandomLen) as [E|E]; [split; [done|by rewrite E]|].
  apply IH; [done|]. rewrite length_app in *. cbn [length] in *. lia.
Qed.
Lemma random_part_ok reads : ∀ out r reads', Forall code_letter out → (length out ≤ codeRandomLen)%nat → random_part reads out = Some (r, reads') →
  Forall code_letter r ∧ length r = codeRandomLen.
Proof.
  induction reads as [|buf reads IH]; intros out r reads' Ho Hl; cbn [random_part]; destruct (Nat.ltb_spec (length out) codeRandomLen) as [Hlt|Hge]; try done.
  - intros [= <- <-]. split; [done|lia].
  - destruct (take_chars_ok buf out Ho Hlt). by apply IH.
  - intros [= <- <-]. split; [done|lia].
Qed.
Lemma letters_clean l : Forall code_letter l → Forall byte_range l ∧ forallb code_rune l = true.
Proof.
  assert (Hall : forallb code_rune (bytes_of codeAlphabet) = true) by done. rewrite forallb_forall in Hall.
  induction 1 as [|b l Hb _ [IH1 IH2]]; [done|]. apply list_elem_of_In, Hall in Hb. simpl. rewrite Hb, IH2.
  split; [|done]. constructor; [|done]. apply code_rune_range in Hb. unfold byte_range. lia.
Qed.
(** A new code is the prefix and twelve characters of the alphabet. *)
Lemma newCode_shape prefix reads c reads' : newCode prefix reads = Some (c, reads') →
  ∃ r, c = prefix ++ string_of r ∧ bytes_of c = (bytes_of prefix ++ r)%list ∧ Forall code_letter r ∧ length r = codeRandomLen.
Proof.
  unfold newCode. destruct (random_part reads []) as [[r reads1]|] eqn:E; [|done]. intros [= <- <-].
  apply random_part_ok in E as [Hr Hl]; [|done|simpl; lia]. exists r. split_and!; try done.
  rewrite bytes_app, bytes_of_string_of; [done|]. by apply letters_clean.
Qed.
Lemma newCode_clean prefix reads c reads' : clean prefix → blen prefix ≤ maxPrefixLen → newCode prefix reads = Some (c, reads') →
  clean c ∧ blen c = blen prefix + 12 ∧ minCodeLen ≤ blen c ≤ maxCodeLen.
Proof.
  intros Hc Hp (r & _ & Hb & Hr & Hl)%newCode_shape. unfold clean, all_bytes, blen in *. rewrite <- !length_bytes_of, Hb in *.
  rewrite forallb_app, length_app, Hl. destruct (letters_clean _ Hr) as [_ ->]. rewrite Hc. unfold codeRandomLen, minCodeLen, maxCodeLen, maxPrefixLen in *.
  split_and!; [done|lia..].
Qed.
(** The mask keeps all but the last eight characters. *)
Lemma clean_ascii c : clean c → Forall ascii_byte (bytes_of c).
Proof.
  unfold clean, all_bytes. intros H. apply Forall_forall. intros b Hb. rewrite forallb_forall in H.
  apply list_elem_of_In, H, code_rune_range in Hb. unfold ascii_byte. lia.
Qed.
Lemma MaskCode_clean c : clean c → 8 < blen c →
  MaskCode c = string_of (take (Z.to_nat (blen c - 8)) (bytes_of c) ++ repeat_bullet 8).
Proof.
  intros Hc Hl. unfold MaskCode, runes. rewrite decode_ascii by (by apply clean_ascii). rewrite length_map, length_bytes_of. unfold blen in *.
  destruct (Nat.leb_spec (String.length c) maskedTail) as [Hx|Hx]; [unfold maskedTail in Hx; lia|]. f_equal. f_equal.
  replace (String.length c - maskedTail)%nat with (Z.to_nat (Z.of_nat (String.length c) - 8)) by (unfold maskedTail; lia).
  rewrite firstn_map. induction (take _ _) as [|b l IH]; simpl; [done|]. by rewrite IH.
Qed.
(** Every letter is drawn from the same number of random bytes. *)
Lemma code_char_uniform : forallb (λ a, hits (λ b, (b <? codeLimit) && (code_char b =? a)) (map Z.of_nat (seq 0 256)) =? 8) (bytes_of codeAlphabet) = true.
Proof. vm_compute. reflexivity. Qed.

(** * The sealed list *)

Lemma split_line l rest acc : Forall (λ b, b ≠ 10) l → split_lines (l ++ rest) acc = split_lines rest (rev l ++ acc).
Proof.
  intros Hl. revert acc. induction Hl as [|b l Hb _ IH]; intros acc; simpl; [done|]. rewrite (proj2 (Z.eqb_neq _ _) Hb), IH.
  by rewrite <- app_assoc.
Qed.
Definition one_line (c : string) : Prop := Forall (λ b, b ≠ 10) (bytes_of c).
Lemma split_encoded codes : codes ≠ [] → Forall one_line codes → split_lines (encodeCodes codes) [] = codes.
Proof.
  intros Hn Hc. induction Hc as [|c codes Hc Hcs IH]; [done|]. destruct codes as [|d codes].
  - cbn [encodeCodes]. rewrite <- (app_nil_r (bytes_of c)), split_line by done. cbn [split_lines]. by rewrite app_nil_r, rev_involutive, string_of_bytes_of.
  - change (encodeCodes (c :: d :: codes)) with (bytes_of c ++ 10 :: encodeCodes (d :: codes))%list. rewrite split_line by done.
    change (split_lines (10 :: ?l) ?acc) with (string_of (rev acc) :: split_lines l []). rewrite app_nil_r, rev_involutive, string_of_bytes_of. by rewrite IH.
Qed.
Lemma decode_encoded codes : Forall (λ c, one_line c ∧ c ≠ "") codes → decodeCodes (encodeCodes codes) = codes.
Proof.
  intros H. destruct codes as [|c codes]; [done|]. unfold decodeCodes. destruct (encodeCodes _) eqn:E.
  - apply Forall_cons in H as [[_ Hc] _]. destruct c; [done|]. by destruct codes.
  - rewrite <- E. apply split_encoded; [done|]. eapply Forall_impl; [exact H|]. by intros x [].
Qed.
Lemma clean_line c : clean c → one_line c.
Proof.
  unfold clean, all_bytes, one_line. intros H. apply Forall_forall. intros b Hb. rewrite forallb_forall in H.
  apply list_elem_of_In, H, code_rune_range in Hb. lia.
Qed.

(** * The draw *)

Section Draw.
Context `{DL : DecimalLib}.
Definition weights (pool : list Prize) : Z := foldr (λ p n, pz_Weight p + n) 0 pool.
Definition fair (p : Prize) : Prop := 1 ≤ pz_Weight p ≤ maxPrizeWeight.
Lemma weights_bound pool : Forall fair pool → 0 ≤ weights pool ≤ Z.of_nat (length pool) * maxPrizeWeight.
Proof. unfold fair, maxPrizeWeight. induction 1 as [|p pool Hp _ IH]; cbn [weights foldr length] in *; unfold weights in *; lia. Qed.
Lemma sum_from pool : ∀ n, 0 ≤ n → Forall fair pool → n + weights pool ≤ MaxInt64 → foldl (λ total p, wrap64 (total + pz_Weight p)) n pool = n + weights pool.
Proof.
  induction pool as [|p pool IH]; intros n Hn Hf Hb; cbn [foldl weights foldr] in *; [unfold weights in *; simpl in *; lia|].
  apply Forall_cons in Hf as [Hp Hf]. pose proof (weights_bound _ Hf). unfold fair, weights in *. simpl in *.
  rewrite wrap64_id by (unfold in64, MinInt64; lia). rewrite IH by (done || lia). lia.
Qed.
Lemma pick_at pool : ∀ acc pick i p, 0 ≤ acc → Forall fair pool → acc + weights pool ≤ MaxInt64 → pool !! i = Some p →
  acc + weights (take i pool) ≤ pick < acc + weights (take i pool) + pz_Weight p → pick_prize pick acc pool = Some p.
Proof.
  induction pool as [|q pool IH]; intros acc pick i p Ha Hf Hb Hi Hp; [done|]. apply Forall_cons in Hf as [Hq Hf].
  pose proof (weights_bound _ Hf). unfold fair in Hq. change (weights (q :: pool)) with (pz_Weight q + weights pool) in Hb.
  cbn [pick_prize]. cbv zeta. rewrite wrap64_id by (unfold in64, MinInt64; lia). destruct i as [|i].
  - injection Hi as ->. change (weights (take 0 _)) with 0 in Hp. by rewrite (proj2 (Z.ltb_lt _ _)) by lia.
  - change (weights (take (S i) (q :: pool))) with (pz_Weight q + weights (take i pool)) in Hp.
    pose proof (weights_bound (take i pool) (Forall_take _ _ _ Hf)). rewrite (proj2 (Z.ltb_ge _ _)) by lia. apply (IH _ _ i); [lia|done|lia|done|lia].
Qed.
Lemma some_part pool : ∀ pick, Forall fair pool → 0 ≤ pick < weights pool →
  ∃ i p, pool !! i = Some p ∧ weights (take i pool) ≤ pick < weights (take i pool) + pz_Weight p.
Proof.
  induction pool as [|q pool IH]; intros pick Hf Hp; [unfold weights in Hp; simpl in Hp; lia|]. apply Forall_cons in Hf as [Hq Hf].
  change (weights (q :: pool)) with (pz_Weight q + weights pool) in Hp. destruct (Z.lt_decidable pick (pz_Weight q)) as [Hlt|Hge].
  - exists O, q. split; [done|]. change (weights (take 0 _)) with 0. lia.
  - destruct (IH (pick - pz_Weight q) Hf) as (i & p & Hi & Hb); [lia|]. exists (S i), p. split; [done|].
    change (weights (take (S i) (q :: pool))) with (pz_Weight q + weights (take i pool)). lia.
Qed.
Lemma pool_fair pool : ∀ i, poolProblem i pool = None → Forall fair pool.
Proof.
  induction pool as [|p pool IH]; intros i H; [done|]. cbn [poolProblem] in H. destruct (prizeProblem p) eqn:E; [done|]. constructor; [|by eapply IH].
  unfold prizeProblem in E. destruct (validateText _ _ _); [|done]. destruct (_ || _) eqn:Ew in E; [done|].
  apply orb_false_iff in Ew as [?%Z.leb_gt ?%Z.ltb_ge]. unfold fair. lia.
Qed.
End Draw.
