(* ===== verification/GiftStore.v ===== *)
(** The gift-card tables (panel/internal/module/giftcard: model/model.go and
    repo) with the constraints of the migrations 00015, 00051, 00055 and 00066.
    Rows are in the order of their identifiers; [updated_at], which nothing
    reads, is left out. *)
From Stdlib Require Import ZArith QArith Lia.
From stdpp Require Import base tactics list gmap strings sorting.
From S2P Require Import Prelude Safety Decimal GoString Money GoTime LedgerTypes Ledger Promo Period OrderAmounts Proration Idem.
From S2P Require Import SubTypes SubStore Gift.
#[local] Open Scope string_scope.
#[local] Open Scope Z_scope.

(** * Errors (service.go, grant.go) *)

Inductive gerr :=
| GErrCodeUnusable | GErrAccountDeleted | GErrTemplateInactive | GErrNoPlacement | GErrNoTrafficTarget | GErrRenewArchived
| GErrChoiceStale | GErrChoiceRequired | GErrBatchAlreadyExported | GErrConditionUnavailable | GErrStateChanged
| GPlanUnavailable | GPriceArchived | GNewUsersOnly | GPaidUsersOnly | GLimitReached (n : Z) | GNotFound | GArchived | GTypeFixed
| GNameTaken | GCodeUsed | GCodeExpired | GNotNeeded | GCollisions | GTooManyRows | GBadStatus | GInvalid (fields : list string)
| GUnauthorized | GForbidden | GSealedMismatch | GInternal | GExternal | GMoney | GDB (e : db_err) | GDuplicate | GReference
| GCheckFailed | GLedger (e : lerr) | GSub (e : serr) | GIdem (e : ierr).

(** [gcErr]: constraint sentinels of the repository become outward errors. *)
Definition gcErr (e : gerr) : gerr :=
  match e with
  | GDB DBUnique => GDuplicate
  | GDB DBForeignKey => GReference
  | GDB DBCheck => GCheckFailed
  | e => e
  end.

Section GiftStore.
Context `{DL : DecimalLib}.

(** * Rows (model/model.go) *)

Record template_row := mkTemplateRow {
  tr_ID : uuid; tr_Name : string; tr_Type : string; tr_Status : string; tr_Balance : option dec; tr_Traffic : option Z;
  tr_Days : option Z; tr_Reset : bool; tr_PlanID : option uuid; tr_PriceID : option uuid; tr_NewUserOnly : bool;
  tr_PaidUserOnly : bool; tr_MaxUsePerUser : Z; tr_CreatedBy : option uuid; tr_CreatedAt : Time }.
Record prize_row := mkPrizeRow {
  zr_TemplateID : uuid; zr_Position : Z; zr_Label : string; zr_Weight : Z; zr_Balance : option dec; zr_Traffic : option Z;
  zr_Days : option Z }.
Record batch_row := mkBatchRow {
  bt_ID : uuid; bt_TemplateID : uuid; bt_Prefix : string; bt_Count : Z; bt_ExpiresAt : option Time;
  bt_CodesSealed : option (list Z); bt_CreatedBy : option uuid; bt_CreatedAt : Time; bt_ExportedAt : option Time;
  bt_ExportedBy : option uuid }.
Record code_row := mkCodeRow {
  gc_ID : uuid; gc_TemplateID : uuid; gc_BatchID : uuid; gc_CodeHash : list Z; gc_CodeMask : string; gc_Status : string;
  gc_ExpiresAt : option Time; gc_UsedBy : option uuid; gc_UsedAt : option Time; gc_CreatedAt : Time }.
Record redemption_row := mkRedemptionRow {
  gr_ID : uuid; gr_CodeID : uuid; gr_TemplateID : uuid; gr_UserID : uuid; gr_PrizeLabel : option string; gr_Balance : option dec;
  gr_LedgerTxnID : option uuid; gr_Traffic : option Z; gr_Days : option Z; gr_QuotaReset : bool; gr_PlanID : option uuid;
  gr_PlanMode : option string; gr_SubscriptionID : option uuid; gr_Refund : option dec; gr_RedeemedAt : Time }.

Record cards := mkCards {
  g_templates : list template_row; g_prizes : list prize_row; g_batches : list batch_row; g_codes : list code_row;
  g_redemptions : list redemption_row; g_audits : list (string * option uuid); g_next : uuid }.
Definition empty_cards : cards := mkCards [] [] [] [] [] [] 1.
Definition set_templates f (s : cards) : cards :=
  mkCards (f (g_templates s)) (g_prizes s) (g_batches s) (g_codes s) (g_redemptions s) (g_audits s) (g_next s).
Definition set_prizes f (s : cards) : cards :=
  mkCards (g_templates s) (f (g_prizes s)) (g_batches s) (g_codes s) (g_redemptions s) (g_audits s) (g_next s).
Definition set_batches f (s : cards) : cards :=
  mkCards (g_templates s) (g_prizes s) (f (g_batches s)) (g_codes s) (g_redemptions s) (g_audits s) (g_next s).
Definition set_codes f (s : cards) : cards :=
  mkCards (g_templates s) (g_prizes s) (g_batches s) (f (g_codes s)) (g_redemptions s) (g_audits s) (g_next s).
Definition set_redeemed f (s : cards) : cards :=
  mkCards (g_templates s) (g_prizes s) (g_batches s) (g_codes s) (f (g_redemptions s)) (g_audits s) (g_next s).
Definition add_card_audit (a : string * option uuid) (s : cards) : cards :=
  mkCards (g_templates s) (g_prizes s) (g_batches s) (g_codes s) (g_redemptions s) (g_audits s ++ [a]) (g_next s).
Definition bump_card (s : cards) : cards :=
  mkCards (g_templates s) (g_prizes s) (g_batches s) (g_codes s) (g_redemptions s) (g_audits s) (N.succ (g_next s)).

Abbreviation GM := (M cards gerr).
(** [uuid.NewV7] and the columns' default. *)
Definition new_card_id : GM uuid := λ s, (Ok (g_next s), bump_card s).
Definition card_audit (action : string) (id : option uuid) : GM () := modify (add_card_audit (action, id)).

(** The rows foreign keys point at outside these tables. *)
Record gift_refs := mkGiftRefs {
  rf_user : uuid → bool; rf_plan : uuid → bool; rf_price : uuid → bool; rf_txn : uuid → bool; rf_sub : uuid → bool }.

Definition trimmed (s : string) : Z := Z.of_nat (length (btrim s)).
Definition pos_dec (o : option dec) : bool := opt_ok IsPositive o.
Definition checkMoney (l : list (option dec)) : bool := forallb (opt_ok money_ok) l.
Definition known_template (id : uuid) (s : cards) : bool := existsb (λ t, (tr_ID t =? id)%N) (g_templates s).

(** * Templates (repo/templates.go) *)

Definition template_fits (t : template_row) : bool :=
  pg_text (tr_Name t) && opt_ok numeric_fits (tr_Balance t) && opt_ok is_int64 (tr_Traffic t) && opt_ok int4 (tr_Days t) &&
  int4 (tr_MaxUsePerUser t).
Definition reward_shape (t : template_row) : bool :=
  let none := is_none (tr_Balance t) && is_none (tr_Traffic t) && is_none (tr_Days t) && negb (tr_Reset t) in
  (String.eqb (tr_Type t) TypeGeneral && is_none (tr_PlanID t) && negb none) ||
  (String.eqb (tr_Type t) TypePlan && negb (is_none (tr_PlanID t)) && none) ||
  (String.eqb (tr_Type t) TypeMystery && is_none (tr_PlanID t) && none).
Definition template_check (t : template_row) : bool :=
  between 1 (trimmed (tr_Name t)) 120 && known_type (tr_Type t) && known_status (tr_Status t) && pos_dec (tr_Balance t) &&
  opt_ok (λ n, between 1 n 1125899906842624) (tr_Traffic t) && opt_ok (λ n, between 1 n 3650) (tr_Days t) &&
  between 0 (tr_MaxUsePerUser t) 10000 && negb (tr_NewUserOnly t && tr_PaidUserOnly t) &&
  (is_none (tr_PriceID t) || negb (is_none (tr_PlanID t))) && reward_shape t &&
  (negb (String.eqb (tr_Type t) TypePlan) || negb (is_none (tr_PriceID t))).
Definition template_fk (F : gift_refs) (t : template_row) : bool :=
  opt_ok (rf_plan F) (tr_PlanID t) && opt_ok (rf_price F) (tr_PriceID t) && opt_ok (rf_user F) (tr_CreatedBy t).
(** A written template beside the [rest] of the table. *)
Definition write_template (F : gift_refs) (rest : list template_row) (t : template_row) : result gerr () :=
  if negb (template_fits t) then Err (GDB DBOther)
  else if negb (template_check t) then Err (GDB DBCheck)
  else if existsb (λ x, String.eqb (tr_Name x) (tr_Name t) || (tr_ID x =? tr_ID t)%N) rest then Err (GDB DBUnique)
  else if negb (template_fk F t) then Err (GDB DBForeignKey) else Ok ().

Definition prize_fits (p : prize_row) : bool :=
  pg_text (zr_Label p) && int4 (zr_Weight p) && int4 (zr_Position p) && opt_ok numeric_fits (zr_Balance p) &&
  opt_ok is_int64 (zr_Traffic p) && opt_ok int4 (zr_Days p).
Definition prize_check (p : prize_row) : bool :=
  between 0 (zr_Position p) 49 && between 1 (trimmed (zr_Label p)) 100 && between 1 (zr_Weight p) 1000000 && pos_dec (zr_Balance p) &&
  opt_ok (λ n, between 1 n 1125899906842624) (zr_Traffic p) && opt_ok (λ n, between 1 n 3650) (zr_Days p) &&
  negb (is_none (zr_Balance p) && is_none (zr_Traffic p) && is_none (zr_Days p)).
(** The pool of one template; positions are its numbers. *)
Definition of_template (id : uuid) (p : prize_row) : prize_row :=
  mkPrizeRow id (zr_Position p) (zr_Label p) (zr_Weight p) (zr_Balance p) (zr_Traffic p) (zr_Days p).
Definition insert_prizes (id : uuid) (prizes : list prize_row) : GM () := λ s,
  let rows := map (of_template id) prizes in
  if negb (forallb prize_fits rows) then (Err (GDB DBOther), s)
  else if negb (forallb prize_check rows) then (Err (GDB DBCheck), s)
  else if negb (bool_decide (NoDup (map (λ p, (zr_TemplateID p, zr_Position p)) (g_prizes s ++ rows)))) then (Err (GDB DBUnique), s)
  else (Ok (), set_prizes (λ l, l ++ rows)%list s).

Definition checkTemplateMoney (t : template_row) (prizes : list prize_row) : bool :=
  checkMoney (tr_Balance t :: map zr_Balance prizes).
Definition CreateTemplate (F : gift_refs) (t : template_row) (prizes : list prize_row) : GM () :=
  if negb (checkTemplateMoney t prizes) then fail GMoney
  else
    _ ← (λ s, match write_template F (g_templates s) t with
              | Err e => (Err e, s)
              | Ok _ => (Ok (), set_templates (λ l, l ++ [t])%list s)
              end);
    insert_prizes (tr_ID t) prizes.
(** The columns an update sets. *)
Definition with_template (t : template_row) (x : template_row) : template_row :=
  mkTemplateRow (tr_ID x) (tr_Name t) (tr_Type x) (tr_Status t) (tr_Balance t) (tr_Traffic t) (tr_Days t) (tr_Reset t) (tr_PlanID t)
    (tr_PriceID t) (tr_NewUserOnly t) (tr_PaidUserOnly t) (tr_MaxUsePerUser t) (tr_CreatedBy x) (tr_CreatedAt x).
Definition UpdateTemplate (F : gift_refs) (t : template_row) (prizes : list prize_row) : GM bool :=
  if negb (checkTemplateMoney t prizes) then fail GMoney
  else
    ok ← (λ s,
      match List.find (λ x, (tr_ID x =? tr_ID t)%N) (g_templates s) with
      | None => (Ok false, s)
      | Some x =>
          match write_template F (List.filter (λ y, negb (tr_ID y =? tr_ID t)%N) (g_templates s)) (with_template t x) with
          | Err e => (Err e, s)
          | Ok _ => (Ok true, set_templates (upd (λ y, (tr_ID y =? tr_ID t)%N) (with_template t)) s)
          end
      end);
    if negb ok then mret false
    else
      _ ← modify (set_prizes (List.filter (λ p, negb (zr_TemplateID p =? tr_ID t)%N)));
      _ ← insert_prizes (tr_ID t) prizes;
      mret true.
Definition TemplateByID (id : uuid) : GM (option template_row) := gets (λ s, List.find (λ t, (tr_ID t =? id)%N) (g_templates s)).
(** [ORDER BY template_id, position], of one template. *)
Definition pos_le (a b : prize_row) : Prop := zr_Position a ≤ zr_Position b.
#[global] Instance pos_le_dec : RelDecision pos_le.
Proof. intros a b. unfold pos_le. apply _. Defined.
Definition PrizesByTemplate (id : uuid) : GM (list prize_row) := gets (λ s,
  merge_sort pos_le (List.filter (λ p, (zr_TemplateID p =? id)%N) (g_prizes s))).
(** The codes of a template, and how many of them are used. *)
Definition CodeCounts (id : uuid) : GM (Z * Z) := gets (λ s,
  (hits (λ c, (gc_TemplateID c =? id)%N) (g_codes s),
   hits (λ c, (gc_TemplateID c =? id)%N && String.eqb (gc_Status c) CodeUsed) (g_codes s))).

(** * Batches (repo/batches.go) *)

Definition batch_fits (b : batch_row) : bool := pg_text (bt_Prefix b) && int4 (bt_Count b).
Definition batch_check (b : batch_row) : bool :=
  all_bytes (λ c, between 65 c 90 || between 48 c 57) (bt_Prefix b) && (blen (bt_Prefix b) <=? 8) && between 1 (bt_Count b) 5000 &&
  Bool.eqb (is_none (bt_ExportedAt b)) (negb (is_none (bt_CodesSealed b))) &&
  (negb (is_none (bt_ExportedAt b)) || is_none (bt_ExportedBy b)).
Definition batch_fk (F : gift_refs) (s : cards) (b : batch_row) : bool :=
  known_template (bt_TemplateID b) s && opt_ok (rf_user F) (bt_CreatedBy b) && opt_ok (rf_user F) (bt_ExportedBy b).
Definition CreateBatch (F : gift_refs) (b : batch_row) : GM () := λ s,
  if negb (batch_fits b) then (Err (GDB DBOther), s)
  else if negb (batch_check b) then (Err (GDB DBCheck), s)
  else if existsb (λ x, (bt_ID x =? bt_ID b)%N) (g_batches s) then (Err (GDB DBUnique), s)
  else if negb (batch_fk F s b) then (Err (GDB DBForeignKey), s)
  else (Ok (), set_batches (λ l, l ++ [b])%list s).
Definition BatchByID (id : uuid) : GM (option batch_row) := gets (λ s, List.find (λ b, (bt_ID b =? id)%N) (g_batches s)).
Definition exported_by (by_ : uuid) (at_ : Time) (b : batch_row) : batch_row :=
  mkBatchRow (bt_ID b) (bt_TemplateID b) (bt_Prefix b) (bt_Count b) (bt_ExpiresAt b) None (bt_CreatedBy b) (bt_CreatedAt b) (Some at_)
    (Some by_).
Definition unexported (id : uuid) (b : batch_row) : bool := (bt_ID b =? id)%N && is_none (bt_ExportedAt b).
Definition MarkBatchExported (F : gift_refs) (id by_ : uuid) (at_ : Time) : GM bool := λ s,
  if existsb (unexported id) (g_batches s) && negb (rf_user F by_) then (Err (GDB DBForeignKey), s)
  else (Ok (hits (unexported id) (g_batches s) =? 1), set_batches (upd (unexported id) (exported_by by_ at_)) s).
(** The batch with its template's name and the codes used and disabled. *)
Record BatchRow := mkBatchView { bv_Batch : batch_row; bv_TemplateName : string; bv_Used : Z; bv_Disabled : Z }.
Definition batch_view (s : cards) (b : batch_row) : option BatchRow :=
  (λ t, mkBatchView b (tr_Name t)
          (hits (λ c, (gc_BatchID c =? bt_ID b)%N && String.eqb (gc_Status c) CodeUsed) (g_codes s))
          (hits (λ c, (gc_BatchID c =? bt_ID b)%N && String.eqb (gc_Status c) CodeDisabled) (g_codes s)))
    <$> List.find (λ t, (tr_ID t =? bt_TemplateID b)%N) (g_templates s).
Definition BatchView (id : uuid) : GM (option BatchRow) := gets (λ s,
  b ← List.find (λ b, (bt_ID b =? id)%N) (g_batches s); batch_view s b).
(** [CodeState]: hash, status and expiry, by creation. *)
Definition made_le (a b : code_row) : Prop :=
  gc_CreatedAt a < gc_CreatedAt b ∨ (gc_CreatedAt a = gc_CreatedAt b ∧ (gc_ID a ≤ gc_ID b)%N).
#[global] Instance made_le_dec : RelDecision made_le.
Proof. intros a b. unfold made_le. apply _. Defined.
Definition CodeStatesByBatch (id : uuid) : GM (list code_row) := gets (λ s,
  merge_sort made_le (List.filter (λ c, (gc_BatchID c =? id)%N) (g_codes s))).

(** * Codes (repo/codes.go) *)

Definition code_shape (c : code_row) : bool :=
  Bool.eqb (String.eqb (gc_Status c) CodeUsed) (negb (is_none (gc_UsedBy c))) &&
  Bool.eqb (String.eqb (gc_Status c) CodeUsed) (negb (is_none (gc_UsedAt c))).
Definition code_check (c : code_row) : bool :=
  Nat.eqb (length (gc_CodeHash c)) 32 && between 8 (RuneCountInString (gc_CodeMask c)) 32 &&
  one_of (gc_Status c) [CodeUnused; CodeUsed; CodeDisabled; CodeExpired] && code_shape c.
Definition code_fk (F : gift_refs) (s : cards) (c : code_row) : bool :=
  known_template (gc_TemplateID c) s && opt_ok (rf_user F) (gc_UsedBy c).
(** [ON CONFLICT (code_hash) DO NOTHING], row by row. *)
Fixpoint insert_codes (F : gift_refs) (rows : list code_row) : GM () :=
  match rows with
  | [] => mret ()
  | c :: rows' =>
      _ ← (λ s,
        if negb (pg_text (gc_CodeMask c)) then (Err (GDB DBOther), s)
        else if negb (code_check c) then (Err (GDB DBCheck), s)
        else if existsb (λ x, bool_decide (gc_CodeHash x = gc_CodeHash c)) (g_codes s) then (Ok (), s)
        else if existsb (λ x, (gc_ID x =? gc_ID c)%N) (g_codes s) then (Err (GDB DBUnique), s)
        else if negb (code_fk F s c) then (Err (GDB DBForeignKey), s)
        else (Ok (), set_codes (λ l, l ++ [c])%list s));
      insert_codes F rows'
  end.
(** The identifiers that are in the table afterwards. *)
Definition InsertCodes (F : gift_refs) (rows : list code_row) : GM (uuid → bool) :=
  _ ← insert_codes F rows;
  gets (λ s id, existsb (λ r, (gc_ID r =? id)%N) rows && existsb (λ x, (gc_ID x =? id)%N) (g_codes s)).
Definition CodeByHash (hash : list Z) : GM (option code_row) := gets (λ s,
  List.find (λ c, bool_decide (gc_CodeHash c = hash)) (g_codes s)).
Definition CodeByID (id : uuid) : GM (option code_row) := gets (λ s, List.find (λ c, (gc_ID c =? id)%N) (g_codes s)).
Definition with_status (to : string) (usedBy : option uuid) (usedAt : option Time) (c : code_row) : code_row :=
  mkCodeRow (gc_ID c) (gc_TemplateID c) (gc_BatchID c) (gc_CodeHash c) (gc_CodeMask c) to (gc_ExpiresAt c) usedBy usedAt (gc_CreatedAt c).
Definition code_at (id : uuid) (from : string) (c : code_row) : bool := (gc_ID c =? id)%N && String.eqb (gc_Status c) from.
Definition UpdateCodeStatus (F : gift_refs) (id : uuid) (from to : string) (usedBy : option uuid) (usedAt : option Time) : GM bool := λ s,
  let hit := code_at id from in
  let f := with_status to usedBy usedAt in
  if negb (forallb (λ c, negb (hit c) || code_check (f c)) (g_codes s)) then (Err (GDB DBCheck), s)
  else if negb (forallb (λ c, negb (hit c) || opt_ok (rf_user F) usedBy) (g_codes s)) then (Err (GDB DBForeignKey), s)
  else (Ok (hits hit (g_codes s) =? 1), set_codes (upd hit f) s).

(** At the commit: every code's batch exists, with the code's template. *)
Definition batches_exist (s : cards) : bool :=
  forallb (λ c, existsb (λ b, (bt_ID b =? gc_BatchID c)%N && (bt_TemplateID b =? gc_TemplateID c)%N) (g_batches s)) (g_codes s).

(** * Redemptions (repo/redemptions.go) *)

Definition redemption_fits (r : redemption_row) : bool :=
  opt_ok pg_text (gr_PrizeLabel r) && opt_ok numeric_fits (gr_Balance r) && opt_ok is_int64 (gr_Traffic r) && opt_ok int4 (gr_Days r) &&
  opt_ok numeric_fits (gr_Refund r).
Definition redeemed_check (r : redemption_row) : bool :=
  opt_ok (λ l, between 1 (RuneCountInString l) 100) (gr_PrizeLabel r) && pos_dec (gr_Balance r) && opt_ok (λ n, 0 <? n) (gr_Traffic r) &&
  opt_ok (λ n, between 1 n 3650) (gr_Days r) &&
  opt_ok (λ m, one_of m [PlanGrantNew; PlanGrantRenewed; PlanGrantChanged; PlanGrantStacked]) (gr_PlanMode r) && pos_dec (gr_Refund r) &&
  Bool.eqb (is_none (gr_Balance r)) (is_none (gr_LedgerTxnID r)) && Bool.eqb (is_none (gr_PlanID r)) (is_none (gr_PlanMode r)) &&
  (is_none (gr_Refund r) || bool_decide (gr_PlanMode r = Some PlanGrantChanged)).
Definition redeemed_fk (F : gift_refs) (s : cards) (r : redemption_row) : bool :=
  existsb (λ c, (gc_ID c =? gr_CodeID r)%N) (g_codes s) && known_template (gr_TemplateID r) s && rf_user F (gr_UserID r) &&
  opt_ok (rf_txn F) (gr_LedgerTxnID r) && opt_ok (rf_plan F) (gr_PlanID r) && opt_ok (rf_sub F) (gr_SubscriptionID r).
Definition InsertRedemption (F : gift_refs) (mk : uuid → redemption_row) : GM () := λ s,
  let r := mk (g_next s) in
  if negb (checkMoney [gr_Balance r; gr_Refund r]) then (Err GMoney, s)
  else if negb (redemption_fits r) then (Err (GDB DBOther), s)
  else if negb (redeemed_check r) then (Err (GDB DBCheck), s)
  else if existsb (λ x, (gr_CodeID x =? gr_CodeID r)%N) (g_redemptions s) then (Err (GDB DBUnique), s)
  else if negb (redeemed_fk F s r) then (Err (GDB DBForeignKey), s)
  else (Ok (), bump_card (set_redeemed (λ l, l ++ [r])%list s)).
Definition of_user (userID templateID : uuid) (r : redemption_row) : bool :=
  (gr_UserID r =? userID)%N && (gr_TemplateID r =? templateID)%N.
Definition UserTemplateUsage (userID templateID : uuid) : GM Z := gets (λ s, hits (of_user userID templateID) (g_redemptions s)).

(** [Stats]: templates not archived; codes, used, unused; traffic and balance
    given out; and what the codes of general templates are worth. *)
Record Stats := mkStats {
  gs_Templates : Z; gs_CodesTotal : Z; gs_CodesUsed : Z; gs_CodesUnused : Z; gs_TrafficOut : Z; gs_BalanceOut : dec; gs_BalanceIssued : dec }.
Definition sum_dec {A} (f : A → option dec) (l : list A) : dec := foldr (λ x acc, match f x with Some d => dec_add d acc | None => acc end) dec_zero l.
Definition issued (s : cards) (c : code_row) : option dec :=
  t ← List.find (λ t, (tr_ID t =? gc_TemplateID c)%N && String.eqb (tr_Type t) TypeGeneral) (g_templates s); tr_Balance t.
Definition StatsRow (s : cards) : Stats :=
  mkStats (hits (λ t, negb (String.eqb (tr_Status t) TemplateArchived)) (g_templates s)) (Z.of_nat (length (g_codes s)))
    (hits (λ c, String.eqb (gc_Status c) CodeUsed) (g_codes s)) (hits (λ c, String.eqb (gc_Status c) CodeUnused) (g_codes s))
    (foldr (λ r acc, default 0 (gr_Traffic r) + acc) 0 (g_redemptions s)) (sum_dec gr_Balance (g_redemptions s))
    (sum_dec (issued s) (g_codes s)).

(** [RedemptionMismatchRows] (repo/integrity.go), before the sample limit: codes used without a
    redemption, and redemptions of codes not used or used by someone else. *)
Definition mismatch (s : cards) (c : code_row) : bool :=
  (negb (is_none (gc_UsedBy c)) && negb (existsb (λ r, (gr_CodeID r =? gc_ID c)%N) (g_redemptions s))) ||
  existsb (λ r, (gr_CodeID r =? gc_ID c)%N &&
                (negb (String.eqb (gc_Status c) CodeUsed) || negb (bool_decide (gc_UsedBy c = Some (gr_UserID r))))) (g_redemptions s).
Definition RedemptionMismatchRows (s : cards) : list uuid := map gc_ID (List.filter (mismatch s) (g_codes s)).
End GiftStore.
