(* ===== verification/GiftFlow.v ===== *)
(** The gift-card service (panel/internal/module/giftcard/service): templates
    (templates.go), batches of codes and their one export (batches.go), codes
    (codes.go) and redemption with what it grants (redeem.go, grant.go).  A
    redemption writes the gift-card tables, the ledger, the subscriptions and
    the idempotency keys in one transaction. *)
From Stdlib Require Import ZArith QArith Lia.
From stdpp Require Import base tactics list gmap strings sorting.
From S2P Require Import Prelude Safety Decimal GoString Money GoTime LedgerTypes Ledger Promo Period OrderAmounts Proration SubTypes SubStore.
From S2P Require Import Subscription OrderStore OrderFlow PayStore PayFlow Idem Gift GiftStore.
#[local] Open Scope string_scope.
#[local] Open Scope Z_scope.

Definition AudiencePublic := "public".
Definition CatActive := "active".
Definition maxCollisionRounds : nat := 5.
Definition codeTransitions (from : string) : list string :=
  if String.eqb from CodeUnused then [CodeUsed; CodeDisabled; CodeExpired]
  else if String.eqb from CodeDisabled then [CodeUnused] else [].
Definition CanTransition (from to : string) : bool := existsb (String.eqb to) (codeTransitions from).

Section GiftFlow.
Context `{DL : DecimalLib}.

(** * Surroundings *)

Record gworld := mkGWorld { gw_cards : cards; gw_ledger : ledger; gw_subs : store; gw_idem : idem }.
Definition put_cards (c : cards) (w : gworld) : gworld := mkGWorld c (gw_ledger w) (gw_subs w) (gw_idem w).
Definition put_gledger (l : ledger) (w : gworld) : gworld := mkGWorld (gw_cards w) l (gw_subs w) (gw_idem w).
Definition put_gsubs (s : store) (w : gworld) : gworld := mkGWorld (gw_cards w) (gw_ledger w) s (gw_idem w).
Definition put_idem (i : idem) (w : gworld) : gworld := mkGWorld (gw_cards w) (gw_ledger w) (gw_subs w) i.

(** A price of the catalogue. *)
Record CatPrice := mkCatPrice {
  kp_PlanID : uuid; kp_Status : string; kp_BillingInterval : string; kp_IntervalCount : Z; kp_ValidityDays : option Z }.
(** The sentences of a receipt. *)
Inductive Line :=
| LBalance (d : dec) | LSkippedDays (n : Z) | LExtended (n : Z) (until : Time) (rescued : bool) | LReset | LSkippedTraffic (n : Z)
| LTraffic (n : Z) | LDone | LOpened (plan : string) (until : Time) | LRenewed (plan : string) (until : Time)
| LStacked (plan : string) (until : Time) | LChanged (plan : string) (until : Time) | LRefund (d : dec).
Record granted := mkGranted {
  gn_prizeLabel : string; gn_balance : dec; gn_ledgerTxn : option uuid; gn_traffic : Z; gn_days : Z; gn_reset : bool;
  gn_planID : option uuid; gn_planMode : string; gn_subID : option uuid; gn_refund : dec; gn_skippedDays : Z; gn_skippedTraffic : Z;
  gn_summary : list Line }.
Record RedeemResult := mkRedeemResult {
  rs_TemplateName : string; rs_Type : string; rs_PrizeLabel : string; rs_Balance : dec; rs_TrafficBytes : Z; rs_ExpireDays : Z;
  rs_QuotaReset : bool; rs_PlanGranted : string; rs_Summary : list Line }.

(** What the module reads elsewhere: the subscription module's surroundings (with
    the catalogue's plans), the plans foreign keys point at, the catalogue's
    prices, identity, the keyed hash and the sealer, and, when they are wired,
    the value of what is left of a subscription and the record of payments; and
    the outlet for plugins. *)
Record GiftEnv := mkGiftEnv {
  ge_sub : Env; ge_plans : gset uuid;
  PricesByIDs : list uuid → result gerr (gmap uuid CatPrice);
  IsDeleted : uuid → result gerr bool;
  Emails : list uuid → result gerr (gmap uuid string);
  hashCode : string → list Z;
  SealCodes : list Z → list Z → option (list Z);
  OpenCodes : list Z → list Z → option (list Z);
  RemainingValue : option (uuid → Time → result gerr (dec * Z));
  HasPaidOrder : option (uuid → result gerr bool);
  EmitRedeemed : uuid → uuid → Template → granted → result gerr () }.
(** What a call reads that the tables do not determine: the clocks of this
    module ([gk_now]), of the subscription module where it reads and where it
    writes, of [IsPermanent] and of the database; the random values; and the
    claim its context carries. *)
Record GCall := mkGCall {
  gk_now : Time; gk_db : Time; gk_read : Time; gk_wall : Time; gk_extend : Time; gk_reset : Time; gk_bonus : Time; gk_bonus2 : Time;
  gk_plan : Time; gk_proxy : uuid; gk_token : list Z; gk_reads : list (list Z); gk_rand : Z → option Z; gk_claim : option claim }.

Abbreviation WM := (M gworld gerr).
Definition on_cards {A} (m : M cards gerr A) : WM A := zoom gw_cards put_cards id m.
Definition on_gledger {A} (m : M ledger lerr A) : WM A := zoom gw_ledger put_gledger GLedger m.
Definition on_gsubs {A} (m : M store serr A) : WM A := zoom gw_subs put_gsubs GSub m.
Definition on_idem {A} (m : M idem ierr A) : WM A := zoom gw_idem put_idem GIdem m.
Definition gift_refs_of (W : GiftEnv) (w : gworld) : gift_refs :=
  mkGiftRefs (λ u, bool_decide (u ∈ users (gw_ledger w))) (λ p, bool_decide (p ∈ ge_plans W))
    (λ p, bool_decide (p ∈ env_prices (ge_sub W))) (has_txn (gw_ledger w))
    (λ id, negb (is_none (find_sub id (subs (gw_subs w))))).
(** A statement that checks foreign keys, with the module's own errors. *)
Definition fk_cards_err {A} (W : GiftEnv) (h : gerr → gerr) (f : gift_refs → M cards gerr A) : WM A := λ w,
  on_cards (map_err h (f (gift_refs_of W w))) w.
Definition fk_cards {A} (W : GiftEnv) (f : gift_refs → M cards gerr A) : WM A := fk_cards_err W gcErr f.
(** [tx.Do]; the ledger's trigger and the codes' deferred key are checked at the
    commit. *)
Definition gift_tx {A} (inTx : bool) (m : WM A) : WM A :=
  Do inTx (λ w, match assert_ledger_balanced (gw_ledger w) with
                | Ok _ => if batches_exist (gw_cards w) then Ok () else Err (GDB DBForeignKey)
                | Err e => Err (GLedger e)
                end) m.
(** A step whose error the caller looks at; its writes stay. *)
Definition gift_outcome {A} (m : WM A) : WM (result gerr A) := λ w, let '(r, w') := m w in (Ok r, w').
Definition sub_result {A} (r : result serr A) : result gerr A := match r with Ok a => Ok a | Err e => Err (GSub e) end.

(** * Who calls (service.go) *)

Definition gift_principal (who : option Principal) : result gerr Principal :=
  match who with
  | None => Err GUnauthorized
  | Some p => if (pr_UserID p =? uuid_Nil)%N then Err GUnauthorized else Ok p
  end.
Definition gift_admin (who : option Principal) : result gerr Principal :=
  p ← gift_principal who;
  if negb (String.eqb (pr_Audience p) AudienceAdmin) then Err GForbidden else Ok p.
Definition portalUser (who : option Principal) : result gerr uuid :=
  p ← gift_principal who;
  if negb (String.eqb (pr_Audience p) AudiencePublic) then Err GForbidden else Ok (pr_UserID p).

(** * Idempotency (batches.go) *)

Definition completeIdem (k : GCall) (build : result gerr Response) (res : option Resource) : WM () :=
  match gk_claim k with
  | None => mret ()
  | Some c =>
      match build with
      | Err _ => fail GInternal
      | Ok resp => match res with
                   | Some r => on_idem (CompleteBound (gk_db k) (Some c) resp r)
                   | None => on_idem (Complete (gk_db k) (Some c) resp)
                   end
      end
  end.

(** * Templates (templates.go) *)

Definition decPtr (d : dec) : option dec := if IsPositive d then Some d else None.
Definition intPtr (n : Z) : option Z := if n <=? 0 then None else Some n.
Definition templateModel (i : TemplateInput) (id : uuid) (by_ : option uuid) (at_ : Time) : template_row :=
  let r := ti_Rewards i in
  mkTemplateRow id (ti_Name i) (ti_Type i) (ti_Status i) (decPtr (rw_Balance r)) (intPtr (rw_TrafficBytes r)) (intPtr (rw_ExpireDays r))
    (rw_ResetQuota r) (rw_PlanID r) (rw_PriceID r) (cd_NewUserOnly (ti_Conditions i)) (cd_PaidUserOnly (ti_Conditions i))
    (ti_MaxUsePerUser i) by_ at_.
Fixpoint prizeModels (i : Z) (pool : list Prize) : list prize_row :=
  match pool with
  | [] => []
  | p :: pool' => mkPrizeRow uuid_Nil i (pz_Label p) (pz_Weight p) (decPtr (pz_Balance p)) (intPtr (pz_TrafficBytes p))
                    (intPtr (pz_ExpireDays p)) :: prizeModels (i + 1) pool'
  end.
Definition prizeOf (p : prize_row) : Prize :=
  mkPrize (zr_Label p) (zr_Weight p) (default dec_zero (zr_Balance p)) (default 0 (zr_Traffic p)) (default 0 (zr_Days p)).
Definition templateOf (m : template_row) (prizes : list prize_row) : Template :=
  mkTemplate (tr_ID m) (tr_Name m) (tr_Type m) (tr_Status m)
    (mkRewards (default dec_zero (tr_Balance m)) (default 0 (tr_Traffic m)) (default 0 (tr_Days m)) (tr_Reset m) (tr_PlanID m) (tr_PriceID m)
       (map prizeOf prizes))
    (mkConditions (tr_NewUserOnly m) (tr_PaidUserOnly m)) (tr_MaxUsePerUser m) false 0 0 (tr_CreatedAt m).
Definition with_counts (archived : bool) (n : Z * Z) (t : Template) : Template :=
  mkTemplate (te_ID t) (te_Name t) (te_Type t) (te_Status t) (te_Rewards t) (te_Conditions t) (te_MaxUsePerUser t) archived n.1 n.2
    (te_CreatedAt t).
(** Is the price a plan card points at still sold? *)
Definition price_archived (prices : gmap uuid CatPrice) (id : uuid) : bool :=
  match prices !! id with None => true | Some p => negb (String.eqb (kp_Status p) CatActive) end.
Definition archivedPrice (W : GiftEnv) (m : template_row) : result gerr bool :=
  match tr_PriceID m with
  | None => Ok false
  | Some id => if String.eqb (tr_Type m) TypePlan
               then prices ← PricesByIDs W (dedupeIDs [id]); Ok (price_archived prices id) else Ok false
  end.
Definition loadTemplate (W : GiftEnv) (id : uuid) (withCounts : bool) : WM Template :=
  m ← on_cards (map_err gcErr (TemplateByID id));
  match m with
  | None => fail GNotFound
  | Some m =>
      prizes ← on_cards (map_err gcErr (PrizesByTemplate (tr_ID m)));
      let t := templateOf m prizes in
      if withCounts then
        n ← on_cards (map_err gcErr (CodeCounts (tr_ID m)));
        archived ← lift (archivedPrice W m);
        mret (with_counts archived n t)
      else mret t
  end.
Definition checkCatalogRefs (W : GiftEnv) (i : TemplateInput) : result gerr () :=
  if negb (String.eqb (ti_Type i) TypePlan) then Ok ()
  else match rw_PlanID (ti_Rewards i), rw_PriceID (ti_Rewards i) with
  | Some planID, Some priceID =>
      plans ← sub_result (PlansByIDs (ge_sub W) [planID]);
      if is_none (plans !! planID) then Err (GInvalid ["rewards"])
      else
        prices ← PricesByIDs W [priceID];
        match prices !! priceID with
        | Some p => if negb (kp_PlanID p =? planID)%N || negb (String.eqb (kp_Status p) CatActive) then Err (GInvalid ["rewards"]) else Ok ()
        | None => Err (GInvalid ["rewards"])
        end
  | _, _ => Err GInternal
  end.
(** A name already taken is the one conflict reported as such. *)
Definition name_taken (e : gerr) : gerr := match e with GDB DBUnique => GNameTaken | e => gcErr e end.
Definition ActionTemplateCreated := "gift_card_template.created".
Definition ActionTemplateUpdated := "gift_card_template.updated".
Definition SaveTemplate (W : GiftEnv) (inTx : bool) (who : option Principal) (k : GCall) (in0 : TemplateInput) : WM Template :=
  p ← lift (gift_admin who);
  match normalizeTemplate in0 with
  | inr fields => fail (GInvalid fields)
  | inl i =>
      _ ← lift (checkCatalogRefs W i);
      gift_tx inTx (
        aid ← match ti_ID i with
              | None =>
                  id ← on_cards new_card_id;
                  _ ← fk_cards_err W name_taken (λ F, CreateTemplate F (templateModel i id (Some (pr_UserID p)) (gk_db k))
                                                     (prizeModels 0 (rw_Pool (ti_Rewards i))));
                  mret (ActionTemplateCreated, id)
              | Some id =>
                  old ← on_cards (map_err gcErr (TemplateByID id));
                  match old with
                  | None => fail GNotFound
                  | Some old =>
                      if negb (String.eqb (tr_Type old) (ti_Type i)) then fail GTypeFixed
                      else
                        ok ← fk_cards_err W name_taken (λ F, UpdateTemplate F (templateModel i (tr_ID old) None zeroTime)
                                                            (prizeModels 0 (rw_Pool (ti_Rewards i))));
                        if negb ok then fail GNotFound else mret (ActionTemplateUpdated, tr_ID old)
                  end
              end;
        t ← loadTemplate W aid.2 true;
        _ ← on_cards (card_audit aid.1 (Some aid.2));
        mret t)
  end.

(** * Batches (batches.go) *)

(** The loop that draws [need] codes not seen before; every code takes at least
    one read, so [fuel] beyond their number is enough. *)
Fixpoint draw_codes (fuel : nat) (prefix : string) (need : nat) (seen : gset string) (reads : list (list Z)) (codes : list string)
    : option (list string * gset string * list (list Z)) :=
  if Nat.ltb (length codes) need then
    match fuel with
    | O => None
    | S fuel' =>
        match newCode prefix reads with
        | None => None
        | Some (c, reads') =>
            if bool_decide (c ∈ seen) then draw_codes fuel' prefix need seen reads' codes
            else draw_codes fuel' prefix need ({[c]} ∪ seen) reads' (codes ++ [c])%list
        end
    end
  else Some (codes, seen, reads).
Fixpoint code_rows (W : GiftEnv) (templateID batchID : uuid) (expires : option Time) (at_ : Time) (codes : list string)
    : M cards gerr (list code_row) :=
  match codes with
  | [] => mret []
  | c :: codes' =>
      id ← new_card_id;
      rows ← code_rows W templateID batchID expires at_ codes';
      mret (mkCodeRow id templateID batchID (hashCode W c) (MaskCode c) CodeUnused expires None None at_ :: rows)
  end.
Definition kept_codes (inserted : uuid → bool) (rows : list code_row) (codes : list string) : list string :=
  omap (λ rc : code_row * string, if inserted (gc_ID rc.1) then Some rc.2 else None) (combine rows codes).
Fixpoint insert_rounds (W : GiftEnv) (k : GCall) (templateID batchID : uuid) (prefix : string) (count : nat) (expires : option Time)
    (rounds : nat) (plain : list string) (seen : gset string) (reads : list (list Z)) : WM (list string) :=
  if Nat.ltb (length plain) count then
    match rounds with
    | O => fail GCollisions
    | S rounds' =>
        match draw_codes (S (length reads)) prefix (count - length plain) seen reads [] with
        | None => fail GInternal
        | Some (codes, seen', reads') =>
            rows ← on_cards (code_rows W templateID batchID expires (gk_db k) codes);
            inserted ← fk_cards W (λ F, InsertCodes F rows);
            insert_rounds W k templateID batchID prefix count expires rounds' (plain ++ kept_codes inserted rows codes)%list seen' reads'
        end
    end
  else mret plain.
Definition insertCodes (W : GiftEnv) (k : GCall) (templateID batchID : uuid) (prefix : string) (count : nat) (expires : option Time)
    : WM (list string) :=
  insert_rounds W k templateID batchID prefix count expires maxCollisionRounds [] ∅ (gk_reads k).

(** The view of a batch: its row, the template's name, the codes used and
    disabled, and the addresses of who made and exported it. *)
Record Batch := mkBatch { ba_Row : BatchRow; ba_CreatedByEmail : option string; ba_ExportedByEmail : option string }.
Definition emails (W : GiftEnv) (ids : list uuid) : result gerr (gmap uuid string) :=
  match dedupeIDs ids with [] => Ok ∅ | l => Emails W l end.
Definition emailPtr (m : gmap uuid string) (id : option uuid) : option string := id ≫= λ i, m !! i.
Definition option_ids (l : list (option uuid)) : list uuid := omap id l.
Definition batchView (W : GiftEnv) (id : uuid) : WM Batch :=
  row ← on_cards (map_err gcErr (BatchView id));
  match row with
  | None => fail GNotFound
  | Some v =>
      let b := bv_Batch v in
      m ← lift (emails W (option_ids [bt_CreatedBy b; bt_ExportedBy b]));
      mret (mkBatch v (emailPtr m (bt_CreatedBy b)) (emailPtr m (bt_ExportedBy b)))
  end.

Record Generated := mkGenerated { gd_BatchID : uuid; gd_Count : Z; gd_Sample : list string; gd_Batch : Batch }.
Record GenerateInput := mkGenerateInput {
  gi_TemplateID : uuid; gi_Count : Z; gi_Prefix : string; gi_ExpiresAt : option Time; gi_Reply : option (Generated → result gerr Response) }.
Definition ActionCodesGenerated := "gift_card.codes_generated".
Definition ResourceBatch := "gift_card_batch".
Definition generate_problems (now : Time) (i : GenerateInput) : list string :=
  ((if (gi_Count i <? 1) || (maxGenerateCount <? gi_Count i) then ["count"] else []) ++
   (match normalizePrefix (gi_Prefix i) with None => ["prefix"] | Some _ => [] end) ++
   (match gi_ExpiresAt i with Some e => if negb (After (Truncate e Microsecond) now) then ["expires_at"] else [] | None => [] end))%list.
Definition GenerateCodes (W : GiftEnv) (inTx : bool) (who : option Principal) (k : GCall) (i : GenerateInput) : WM Generated :=
  p ← lift (gift_admin who);
  let prefix := default "" (normalizePrefix (gi_Prefix i)) in
  let expires := (λ e, Truncate e Microsecond) <$> gi_ExpiresAt i in
  match generate_problems (gk_now k) i with
  | _ :: _ as fields => fail (GInvalid fields)
  | [] =>
      gift_tx inTx (
        t ← on_cards (map_err gcErr (TemplateByID (gi_TemplateID i)));
        match t with
        | None => fail GNotFound
        | Some t =>
            if String.eqb (tr_Status t) TemplateArchived then fail GArchived
            else
              batchID ← on_cards new_card_id;
              plain ← insertCodes W k (tr_ID t) batchID prefix (Z.to_nat (gi_Count i)) expires;
              match SealCodes W (encodeCodes plain) (batchAAD batchID) with
              | None => fail GInternal
              | Some sealed =>
                  _ ← fk_cards W (λ F, CreateBatch F (mkBatchRow batchID (tr_ID t) prefix (gi_Count i) expires (Some sealed)
                                                        (Some (pr_UserID p)) (gk_db k) None None));
                  b ← batchView W batchID;
                  let out := mkGenerated batchID (gi_Count i) (take generateSampleSize plain) b in
                  _ ← on_cards (card_audit ActionCodesGenerated (Some (tr_ID t)));
                  match gi_Reply i with
                  | None => mret out
                  | Some reply =>
                      _ ← completeIdem k (reply out) (Some (Idem.mkResource ResourceBatch batchID));
                      mret out
                  end
              end
        end)
  end.

Record ExportRow := mkExportRow { xr_Code : string; xr_Status : string; xr_ExpiresAt : option Time; xr_TemplateName : string }.
Definition ActionBatchExported := "gift_card.batch_exported".
(** The last row of a hash, as a map filled in this order has it. *)
Definition by_hash (states : list code_row) (h : list Z) : option code_row :=
  List.find (λ c, bool_decide (gc_CodeHash c = h)) (rev states).
Fixpoint export_rows (W : GiftEnv) (states : list code_row) (name : string) (plain : list string) : result gerr (list ExportRow) :=
  match plain with
  | [] => Ok []
  | c :: plain' =>
      match by_hash states (hashCode W c) with
      | None => Err GSealedMismatch
      | Some st => rows ← export_rows W states name plain'; Ok (mkExportRow c (gc_Status st) (gc_ExpiresAt st) name :: rows)
      end
  end.
Definition ExportBatch (W : GiftEnv) (inTx : bool) (who : option Principal) (k : GCall) (batchID : uuid) : WM (Batch * list ExportRow) :=
  p ← lift (gift_admin who);
  gift_tx inTx (
    b ← on_cards (map_err gcErr (BatchByID batchID));
    match b with
    | None => fail GNotFound
    | Some b =>
        let sealed := default [] (bt_CodesSealed b) in
        if negb (is_none (bt_ExportedAt b)) || Nat.eqb (length sealed) 0 then fail GErrBatchAlreadyExported
        else match OpenCodes W sealed (batchAAD (bt_ID b)) with
        | None => fail GInternal
        | Some raw =>
            let plain := decodeCodes raw in
            states ← on_cards (map_err gcErr (CodeStatesByBatch (bt_ID b)));
            ok ← fk_cards W (λ F, MarkBatchExported F (bt_ID b) (pr_UserID p) (gk_now k));
            if negb ok then fail GErrBatchAlreadyExported
            else
              view ← batchView W (bt_ID b);
              rows ← lift (export_rows W states (bv_TemplateName (ba_Row view)) plain);
              _ ← on_cards (card_audit ActionBatchExported (Some (bt_ID b)));
              match gk_claim k with
              | Some c => _ ← on_idem (CompleteUnreplayable (gk_db k) (Some c) 200); mret (view, rows)
              | None => mret (view, rows)
              end
        end
    end).

(** * Codes (codes.go) *)

Definition ActionCodeToggled := "gift_card.code_toggled".
Definition ToggleCode (W : GiftEnv) (inTx : bool) (who : option Principal) (codeID : uuid) (disabled : bool) : WM () :=
  _ ← lift (gift_admin who);
  let '(from, to) := if disabled then (CodeUnused, CodeDisabled) else (CodeDisabled, CodeUnused) in
  gift_tx inTx (
    c ← on_cards (map_err gcErr (CodeByID codeID));
    match c with
    | None => fail GNotFound
    | Some c =>
        if String.eqb (gc_Status c) CodeUsed then fail GCodeUsed
        else if String.eqb (gc_Status c) CodeExpired then fail GCodeExpired
        else if negb (String.eqb (gc_Status c) from) || negb (CanTransition from to) then fail GNotNeeded
        else
          ok ← fk_cards W (λ F, UpdateCodeStatus F (gc_ID c) from to None None);
          if negb ok then fail GErrStateChanged else on_cards (card_audit ActionCodeToggled (Some (gc_ID c)))
    end).
End GiftFlow.
