(* ===== verification/GiftRedeem.v ===== *)
(** Redemption of a gift card (panel/internal/module/giftcard/service: redeem.go,
    grant.go, plugin_events.go): the checks, the subscription the card is used
    on, the change of the code's state, and what is granted. *)
From Stdlib Require Import ZArith QArith Lia.
From stdpp Require Import base tactics list gmap strings sorting.
From S2P Require Import Prelude Safety Decimal GoString Money GoTime LedgerTypes Ledger Promo Period OrderAmounts Proration SubTypes SubStore.
From S2P Require Import Subscription OrderStore OrderFlow PayStore PayFlow Idem Gift GiftStore GiftFlow.
#[local] Open Scope string_scope.
#[local] Open Scope Z_scope.

Section GiftRedeem.
Context `{DL : DecimalLib}.
Abbreviation WM := (M gworld gerr).
Abbreviation KindOneTime := SubTypes.KindOneTime.
Abbreviation KindNew := Gift.KindNew.
Abbreviation KindStack := Gift.KindStack.

(** * The user's subscriptions (subscription/service/read.go) *)

(** What gift cards read of a summary.  The rest of it (usage, prices, the count
    of paid resets) writes nothing and decides nothing here; rows may come in any
    order, as every list of options is sorted. *)
Record SubSummary := mkSubSummary { su_Row : sub_row; su_State : State; su_PlanName : string; su_Quotas : list quota_row }.
Definition ByUser (S : Env) (now : Time) (userID : uuid) : M store serr (list SubSummary) :=
  rows ← map_err subErr (SubscriptionsByUsers [userID]);
  qs ← map_err subErr (QuotasBySubscriptions (map s_ID rows));
  plans ← lift (PlansByIDs S (elements (list_to_set (map s_PlanID rows) : gset uuid)));
  let current m := match plans !! s_PlanID m with
                   | Some p => if String.eqb (pl_Kind p) KindSubscription then option_list (pl_CurrentVersionID p) else []
                   | None => []
                   end in
  _ ← lift (VersionsByIDs S (elements (list_to_set (map s_PlanVersionID rows ++ concat (map current rows)) : gset uuid)));
  mret (map (λ m, mkSubSummary m (state_of m now) (match plans !! s_PlanID m with Some p => pl_Name p | None => "" end)
                    (merge_sort quota_order (List.filter (λ q, (q_SubscriptionID q =? s_ID m)%N) qs))) rows).

(** The limited traffic rows of a candidate: used and available. *)
Definition traffic_limit (q : quota_row) : option Z :=
  if negb (String.eqb (q_Metric q) MetricTraffic) || negb (String.eqb (q_Period q) PeriodCycle || String.eqb (q_Period q) PeriodTotal)
  then None else q_LimitValue q.
Definition traffic_of (qs : list quota_row) : bool * Z * Z :=
  foldl (λ acc q, match traffic_limit q with
                  | None => acc
                  | Some l => (false, wrap64 (acc.1.2 + q_Consumed q), wrap64 (acc.2 + l))
                  end) (true, 0, 0) qs.
Definition candidateOf (wall : Time) (s : SubSummary) : candidate :=
  let m := su_Row s in
  let '(unlimited, used, cap) := traffic_of (su_Quotas s) in
  mkCandidate (s_ID m) (s_PlanID m) (su_PlanName s) (default "" (s_Label m)) (candidateState (su_State s)) (s_PeriodEnd m)
    (IsPermanent wall (s_PeriodEnd m)) unlimited used cap.
Definition candidatesOf (wall : Time) (us : list SubSummary) : list candidate := map (candidateOf wall) us.

(** * Conditions and limits (redeem.go) *)

Definition checkConditions (W : GiftEnv) (user : uuid) (t : Template) : result gerr () :=
  let c := te_Conditions t in
  if cd_NewUserOnly c || cd_PaidUserOnly c then
    match HasPaidOrder W with
    | None => Err GErrConditionUnavailable
    | Some has =>
        paid ← has user;
        if cd_NewUserOnly c && paid then Err GNewUsersOnly
        else if cd_PaidUserOnly c && negb paid then Err GPaidUsersOnly else Ok ()
    end
  else Ok ().
(** [LockUserTemplate] takes an advisory lock; it writes nothing. *)
Definition checkLimits (user : uuid) (t : Template) : WM () :=
  used ← on_cards (map_err gcErr (UserTemplateUsage user (te_ID t)));
  if (0 <? te_MaxUsePerUser t) && (te_MaxUsePerUser t <=? used) then fail (GLimitReached (te_MaxUsePerUser t)) else mret ().

(** * Plan cards, before the code is used (grant.go) *)

Definition cardPlan (W : GiftEnv) (t : Template) : result gerr Plan :=
  match rw_PlanID (te_Rewards t) with
  | None => Err GPlanUnavailable
  | Some planID =>
      plans ← sub_result (PlansByIDs (ge_sub W) [planID]);
      match plans !! planID with None => Err GPlanUnavailable | Some p => Ok p end
  end.
Definition planFor (plan : Plan) : result gerr Plan :=
  if negb (String.eqb (pl_Status plan) CatActive) || is_none (pl_CurrentVersionID plan) then Err GPlanUnavailable else Ok plan.
(** A card's price snapshot; its amount is always zero. *)
Definition giftPrice (W : GiftEnv) (priceID : option uuid) : result gerr Price :=
  match priceID with
  | None => Err GPlanUnavailable
  | Some id =>
      prices ← PricesByIDs W [id];
      match prices !! id with
      | Some p => if negb (String.eqb (kp_Status p) CatActive) then Err GPriceArchived
                  else Ok (mkPriceSnap (Some id) dec_zero (mkPrice (kp_BillingInterval p) (kp_IntervalCount p) (kp_ValidityDays p)))
      | None => Err GPriceArchived
      end
  end.
Record planPrep := mkPlanPrep { pp_plan : Plan; pp_sub : option sub_row; pp_value : dec }.
Definition preparePlanTarget (W : GiftEnv) (user : uuid) (t : Template) (plan : Plan) (opt : POption) (now : Time) : WM planPrep :=
  match rw_PlanID (te_Rewards t) with
  | None => fail GErrNoPlacement
  | Some planID =>
      if String.eqb (op_Kind opt) KindNew then p ← lift (planFor plan); mret (mkPlanPrep p None dec_zero)
      else if String.eqb (op_Kind opt) KindRenew then
        match op_SubscriptionID opt with
        | None => fail GErrChoiceStale
        | Some id =>
            sub ← on_gsubs (lockOwned id (Some user));
            if negb (s_PlanID sub =? planID)%N then fail GErrChoiceStale
            else if negb (String.eqb (pl_Kind plan) KindSubscription) then fail GErrChoiceStale
            else if String.eqb (pl_Status plan) PlanArchived then fail GErrRenewArchived
            else mret (mkPlanPrep plan (Some sub) dec_zero)
        end
      else if String.eqb (op_Kind opt) KindStack then
        match op_SubscriptionID opt with
        | None => fail GErrChoiceStale
        | Some id =>
            sub ← on_gsubs (lockOwned id (Some user));
            if negb (s_PlanID sub =? planID)%N || negb (String.eqb (pl_Kind plan) KindOneTime) then fail GErrChoiceStale
            else p ← lift (planFor plan); mret (mkPlanPrep p (Some sub) dec_zero)
        end
      else if String.eqb (op_Kind opt) KindChange then
        match RemainingValue W, op_SubscriptionID opt with
        | Some remaining, Some id =>
            sub ← on_gsubs (lockOwned id (Some user));
            if (s_PlanID sub =? planID)%N then fail GErrChoiceStale
            else
              v ← lift (remaining (s_ID sub) now);
              let value := if IsNegative v.1 then dec_zero else v.1 in
              if negb (money_ok value) then fail GInternal
              else p ← lift (planFor plan); mret (mkPlanPrep p (Some sub) value)
        | _, _ => fail GErrChoiceStale
        end
      else fail GErrChoiceStale
  end.
Definition preparePlan (W : GiftEnv) (user : uuid) (t : Template) (plan : Plan) (opt : POption) (now : Time) : WM (planPrep * Price) :=
  prep ← preparePlanTarget W user t plan opt now;
  price ← lift (giftPrice W (rw_PriceID (te_Rewards t)));
  mret (prep, price).

(** * What is granted (grant.go) *)

Record grantInput := mkGrantInput {
  gt_user : uuid; gt_codeID : uuid; gt_t : Template; gt_opt : option POption; gt_permanent : bool; gt_prep : option (planPrep * Price);
  gt_now : Time }.
Definition gift_memo (t : Template) : string := "礼品卡兑换：" ++ te_Name t.
Definition refund_memo : string := "套餐卡换套餐，原套餐剩余价值退回".
Definition gift_legs (user : uuid) (amount : dec) : list Leg :=
  [mkLeg (PlatformAccount PlatformPromoExpense RefGift) Debit amount; mkLeg (UserAccount UserBalance user) Credit amount].
Definition gift_posting (i : grantInput) (amount : dec) : Posting :=
  mkPosting KindGiftCardBalance SourceGiftCardCode (gt_codeID i) (gift_memo (gt_t i)) (gift_legs (gt_user i) amount).
Definition change_refund (i : grantInput) (value : dec) : Posting :=
  mkPosting KindPlanChangeRefund SourceGiftCardCode (gt_codeID i) refund_memo
    [mkLeg (PlatformAccount PlatformRevenue RefMain) Debit value; mkLeg (UserAccount UserBalance (gt_user i)) Credit value].
Definition gift_actor (user : uuid) : Actor := mkActor ActorUser (Some user).

(** Which parts of a granted reward are set. *)
Definition set_balance (d : dec) (txn : uuid) (g : granted) : granted :=
  mkGranted (gn_prizeLabel g) d (Some txn) (gn_traffic g) (gn_days g) (gn_reset g) (gn_planID g) (gn_planMode g) (gn_subID g) (gn_refund g)
    (gn_skippedDays g) (gn_skippedTraffic g) (gn_summary g ++ [LBalance d]).
Definition set_days (n : Z) (sub : uuid) (l : Line) (g : granted) : granted :=
  mkGranted (gn_prizeLabel g) (gn_balance g) (gn_ledgerTxn g) (gn_traffic g) n (gn_reset g) (gn_planID g) (gn_planMode g) (Some sub)
    (gn_refund g) (gn_skippedDays g) (gn_skippedTraffic g) (gn_summary g ++ [l]).
Definition skip_days (n : Z) (sub : uuid) (g : granted) : granted :=
  mkGranted (gn_prizeLabel g) (gn_balance g) (gn_ledgerTxn g) (gn_traffic g) (gn_days g) (gn_reset g) (gn_planID g) (gn_planMode g) (Some sub)
    (gn_refund g) n (gn_skippedTraffic g) (gn_summary g ++ [LSkippedDays n]).
Definition set_reset (sub : uuid) (g : granted) : granted :=
  mkGranted (gn_prizeLabel g) (gn_balance g) (gn_ledgerTxn g) (gn_traffic g) (gn_days g) true (gn_planID g) (gn_planMode g) (Some sub)
    (gn_refund g) (gn_skippedDays g) (gn_skippedTraffic g) (gn_summary g ++ [LReset]).
Definition set_traffic (n : Z) (sub : uuid) (g : granted) : granted :=
  mkGranted (gn_prizeLabel g) (gn_balance g) (gn_ledgerTxn g) n (gn_days g) (gn_reset g) (gn_planID g) (gn_planMode g) (Some sub)
    (gn_refund g) (gn_skippedDays g) (gn_skippedTraffic g) (gn_summary g ++ [LTraffic n]).
Definition skip_traffic (n : Z) (sub : uuid) (g : granted) : granted :=
  mkGranted (gn_prizeLabel g) (gn_balance g) (gn_ledgerTxn g) (gn_traffic g) (gn_days g) (gn_reset g) (gn_planID g) (gn_planMode g) (Some sub)
    (gn_refund g) (gn_skippedDays g) n (gn_summary g ++ [LSkippedTraffic n]).
Definition set_mode (mode : string) (sub : uuid) (l : Line) (g : granted) : granted :=
  mkGranted (gn_prizeLabel g) (gn_balance g) (gn_ledgerTxn g) (gn_traffic g) (gn_days g) (gn_reset g) (gn_planID g) mode (Some sub)
    (gn_refund g) (gn_skippedDays g) (gn_skippedTraffic g) (gn_summary g ++ [l]).
Definition set_refund (d : dec) (g : granted) : granted :=
  mkGranted (gn_prizeLabel g) (gn_balance g) (gn_ledgerTxn g) (gn_traffic g) (gn_days g) (gn_reset g) (gn_planID g) (gn_planMode g) (gn_subID g)
    d (gn_skippedDays g) (gn_skippedTraffic g) (gn_summary g ++ [LRefund d]).
Definition add_line (l : Line) (g : granted) : granted :=
  mkGranted (gn_prizeLabel g) (gn_balance g) (gn_ledgerTxn g) (gn_traffic g) (gn_days g) (gn_reset g) (gn_planID g) (gn_planMode g) (gn_subID g)
    (gn_refund g) (gn_skippedDays g) (gn_skippedTraffic g) (gn_summary g ++ [l]).
Definition new_granted (label : string) (planID : option uuid) : granted :=
  mkGranted label dec_zero None 0 0 false planID "" None dec_zero 0 0 [].

(** The reward of a card that is not a plan card, whether it resets traffic, and
    the prize's name. *)
Definition reward_of (k : GCall) (t : Template) : result gerr (Prize * bool * string) :=
  let r := te_Rewards t in
  if String.eqb (te_Type t) TypeMystery then
    match drawPrize (gk_rand k) (rw_Pool r) with
    | None => Err GExternal
    | Some p => Ok (p, false, pz_Label p)
    end
  else Ok (mkPrize "" 0 (rw_Balance r) (rw_TrafficBytes r) (rw_ExpireDays r), rw_ResetQuota r, "").

Definition grant_balance (who : option Principal) (i : grantInput) (amount : dec) (g : granted) : WM granted :=
  if IsPositive amount then
    txn ← on_gledger (Post (joined who) (gift_posting i amount));
    mret (set_balance amount txn g)
  else mret g.
Definition grant_days (W : GiftEnv) (k : GCall) (i : grantInput) (sub : uuid) (days : Z) (g : granted) : WM granted :=
  if 0 <? days then
    if gt_permanent i then mret (skip_days days sub g)
    else
      res ← on_gsubs (Extend (ge_sub W) true (gk_extend k)
              (mkExtension sub (Some (gt_user i)) days (gift_actor (gt_user i)) ExtendSourceGiftCard ""));
      mret (set_days days sub (LExtended days (er_PeriodEnd res) (er_Rescued res)) g)
  else mret g.
Definition grant_reset (W : GiftEnv) (k : GCall) (i : grantInput) (sub : uuid) (reset : bool) (g : granted) : WM granted :=
  if reset then
    _ ← on_gsubs (ResetTraffic (ge_sub W) true (gk_reset k)
          (mkTrafficReset sub (Some (gt_user i)) ResetGiftCard None (te_Name (gt_t i)) zeroTime));
    mret (set_reset sub g)
  else mret g.
(** A prize that an unlimited subscription cannot take is skipped. *)
Definition grant_traffic (W : GiftEnv) (k : GCall) (i : grantInput) (sub : uuid) (bytes : Z) (g : granted) : WM granted :=
  if 0 <? bytes then
    r ← gift_outcome (on_gsubs (GrantBonus (ge_sub W) true (gk_bonus k) (gk_bonus2 k)
          (mkBonus sub (Some (gt_user i)) bytes BonusGiftCard None (te_Name (gt_t i)))));
    match r with
    | Ok _ => mret (set_traffic bytes sub g)
    | Err e => if (match e with GSub ErrUnlimited => true | _ => false end) && String.eqb (te_Type (gt_t i)) TypeMystery
               then mret (skip_traffic bytes sub g) else fail e
    end
  else mret g.
Definition grantReward (W : GiftEnv) (who : option Principal) (k : GCall) (i : grantInput) : WM granted :=
  rw ← lift (reward_of k (gt_t i));
  let '(p, reset, label) := rw in
  let subID := gt_opt i ≫= op_SubscriptionID in
  let needsSub := (0 <? pz_ExpireDays p) || reset || (0 <? pz_TrafficBytes p) in
  if needsSub && is_none subID then fail GErrNoPlacement
  else
    let sub := default uuid_Nil subID in
    g1 ← grant_balance who i (pz_Balance p) (new_granted label None);
    g2 ← grant_days W k i sub (pz_ExpireDays p) g1;
    g3 ← grant_reset W k i sub reset g2;
    g4 ← grant_traffic W k i sub (pz_TrafficBytes p) g3;
    mret (match gn_summary g4 with [] => add_line LDone g4 | _ => g4 end).

Definition grantPlanChange (W : GiftEnv) (who : option Principal) (k : GCall) (i : grantInput) (planID : uuid) (prep : planPrep) (price : Price)
    (g : granted) : WM granted :=
  let plan := pp_plan prep in
  res ← on_gsubs (ChangePlan (ge_sub W) true (gk_plan k)
          (mkPlanChange (default uuid_Nil (s_ID <$> pp_sub prep)) (gt_user i) planID (default uuid_Nil (pl_CurrentVersionID plan)) price None
             (Some (gt_codeID i)) (gift_actor (gt_user i))));
  let g' := set_mode PlanGrantChanged (pr_SubscriptionID res) (LChanged (pl_Name plan) (pr_PeriodEnd res)) g in
  if IsPositive (pp_value prep) then
    _ ← on_gledger (Post (joined who) (change_refund i (pp_value prep)));
    mret (set_refund (pp_value prep) g')
  else mret g'.
Definition redeemSourceGiftCard := "gift_card".
Definition grantPlan (W : GiftEnv) (who : option Principal) (k : GCall) (i : grantInput) : WM granted :=
  match rw_PlanID (te_Rewards (gt_t i)), gt_opt i, gt_prep i with
  | Some planID, Some opt, Some (prep, price) =>
      let plan := pp_plan prep in
      let sub := default uuid_Nil (s_ID <$> pp_sub prep) in
      let version := default uuid_Nil (pl_CurrentVersionID plan) in
      let g := new_granted "" (Some planID) in
      if String.eqb (op_Kind opt) KindNew then
        created ← on_gsubs (Provision (ge_sub W) true (gk_plan k) (gk_proxy k) (gk_token k)
                    (mkProvision (gt_user i) planID version price None "" (gift_actor (gt_user i))));
        mret (set_mode PlanGrantNew (s_ID created) (LOpened (pl_Name plan) (s_PeriodEnd created)) g)
      else if String.eqb (op_Kind opt) KindRenew then
        res ← on_gsubs (Renew (ge_sub W) true (gk_plan k)
                (mkRenewal sub (gt_user i) price (gt_now i) None None (gift_actor (gt_user i)) redeemSourceGiftCard));
        mret (set_mode PlanGrantRenewed (rr_SubscriptionID res) (LRenewed (pl_Name plan) (rr_PeriodEnd res)) g)
      else if String.eqb (op_Kind opt) KindStack then
        res ← on_gsubs (Stack (ge_sub W) true (gk_wall k) (gk_plan k)
                (mkStacking sub (gt_user i) version price (gt_now i) None (Some (gt_codeID i)) (gift_actor (gt_user i)) redeemSourceGiftCard));
        mret (set_mode PlanGrantStacked (rr_SubscriptionID res) (LStacked (pl_Name plan) (rr_PeriodEnd res)) g)
      else if String.eqb (op_Kind opt) KindChange then grantPlanChange W who k i planID prep price g
      else fail GErrChoiceStale
  | _, _, _ => fail GErrNoPlacement
  end.
Definition grant (W : GiftEnv) (who : option Principal) (k : GCall) (i : grantInput) : WM granted :=
  if String.eqb (te_Type (gt_t i)) TypePlan then grantPlan W who k i else grantReward W who k i.

(** * Redemption (redeem.go) *)

Definition grant_result (t : Template) (g : granted) : RedeemResult :=
  mkRedeemResult (te_Name t) (te_Type t) (gn_prizeLabel g) (gn_balance g) (gn_traffic g) (gn_days g) (gn_reset g)
    (if String.eqb (gn_planMode g) "" then "" else te_Name t) (gn_summary g).
Definition redemptionModel (c : code_row) (t : Template) (user : uuid) (g : granted) (at_ : Time) (id : uuid) : redemption_row :=
  mkRedemptionRow id (gc_ID c) (te_ID t) user (if String.eqb (gn_prizeLabel g) "" then None else Some (gn_prizeLabel g))
    (decPtr (gn_balance g)) (gn_ledgerTxn g) (intPtr (gn_traffic g)) (intPtr (gn_days g)) (gn_reset g) (gn_planID g)
    (if String.eqb (gn_planMode g) "" then None else Some (gn_planMode g)) (gn_subID g) (decPtr (gn_refund g)) at_.
(** [pluginGranted] (plugin_events.go) can only fail on an amount. *)
Definition pluginGranted (g : granted) : result gerr () :=
  let cents d := if IsPositive d then match ToCents d with Ok _ => Ok () | Err _ => Err GMoney end else Ok () in
  _ ← cents (gn_balance g);
  cents (gn_refund g).

Definition is_expired (now : Time) (c : code_row) : bool := match gc_ExpiresAt c with Some e => negb (After e now) | None => false end.
(** The plan of a plan card, the option chosen (if the card needs one), whether it
    is a permanent subscription, and what was prepared. *)
Definition place_card (W : GiftEnv) (user : uuid) (k : GCall) (now : Time) (t : Template) (choice : option Choice)
    : WM (option POption * bool * option (planPrep * Price)) :=
  plan ← lift (if String.eqb (te_Type t) TypePlan then p ← cardPlan W t; Ok (Some p) else Ok None);
  let o := offerOf t (match plan with Some p => pl_Kind p | None => "" end) in
  if bool_decide (of_Kind o = offerNone) then mret (None, false, None)
  else
    us ← on_gsubs (ByUser (ge_sub W) (gk_read k) user);
    let cands := candidatesOf (gk_wall k) us in
    let opts := (placementOptions o cands (negb (is_none (RemainingValue W)))).1 in
    match resolveChoice choice opts with
    | inr stale => fail (if stale : bool then GErrChoiceStale else GErrChoiceRequired)
    | inl None => fail (if noTrafficTarget o then GErrNoTrafficTarget else GErrNoPlacement)
    | inl (Some opt) =>
        let permanent := match op_SubscriptionID opt with Some id => permanentIn cands id | None => false end in
        match plan with
        | Some p => prep ← preparePlan W user t p opt now; mret (Some opt, permanent, Some prep)
        | None => mret (Some opt, permanent, None)
        end
    end.
Record RedeemInput := mkRedeemInput { ri_Code : string; ri_Choice : option Choice; ri_Reply : option (RedeemResult → result gerr Response) }.
Definition ActionRedeemed := "gift_card.redeemed".
(** What happens once the code is usable: [None] when it turned out expired. *)
Definition redeem_body (W : GiftEnv) (who : option Principal) (k : GCall) (user : uuid) (hash : list Z) (i : RedeemInput)
    : WM (option RedeemResult) :=
  deleted ← lift (IsDeleted W user);
  if deleted : bool then fail GErrAccountDeleted
  else
    c ← on_cards (map_err gcErr (CodeByHash hash));
    match c with
    | None => fail GErrCodeUnusable
    | Some c =>
        if negb (String.eqb (gc_Status c) CodeUnused) then fail GErrCodeUnusable
        else
          let now := gk_now k in
          if is_expired now c then
            _ ← fk_cards W (λ F, UpdateCodeStatus F (gc_ID c) CodeUnused CodeExpired None None);
            mret None
          else
            t ← loadTemplate W (gc_TemplateID c) false;
            if negb (String.eqb (te_Status t) TemplateActive) then fail GErrTemplateInactive
            else
              _ ← lift (checkConditions W user t);
              _ ← (if 0 <? te_MaxUsePerUser t then checkLimits user t else mret ());
              placed ← place_card W user k now t (ri_Choice i);
              let '(opt, permanent, prep) := placed in
              moved ← fk_cards W (λ F, UpdateCodeStatus F (gc_ID c) CodeUnused CodeUsed (Some user) (Some now));
              if negb moved then fail GErrCodeUnusable
              else
                g ← grant W who k (mkGrantInput user (gc_ID c) t opt permanent prep now);
                _ ← fk_cards W (λ F, InsertRedemption F (redemptionModel c t user g now));
                _ ← on_cards (card_audit ActionRedeemed (Some (gc_ID c)));
                _ ← lift (pluginGranted g);
                _ ← lift (EmitRedeemed W (gc_ID c) user t g);
                let out := grant_result t g in
                match ri_Reply i with
                | None => mret (Some out)
                | Some reply => _ ← completeIdem k (reply out) None; mret (Some out)
                end
    end.
Definition Redeem (W : GiftEnv) (inTx : bool) (who : option Principal) (k : GCall) (i : RedeemInput) : WM RedeemResult :=
  user ← lift (portalUser who);
  match normalizeCode (ri_Code i) with
  | None => fail GErrCodeUnusable
  | Some code =>
      out ← gift_tx inTx (redeem_body W who k user (hashCode W code) i);
      match out with None => fail GErrCodeUnusable | Some r => mret r end
  end.
End GiftRedeem.
