(* ===== verification/GiftInv.v ===== *)
(** The invariant of the gift-card tables and the life of their rows: a code
    keeps its terms and moves along the transition table, a used or expired one
    never changes again; a batch is exported at most once; redemptions are only
    appended.

    The invariant of the world a gift card touches, and the operations that
    redeem nothing: templates, batches, exports and the switching of codes. *)
From Stdlib Require Import ZArith QArith Lqa Lia.
From stdpp Require Import base tactics list gmap strings sorting relations.
From S2P Require Import Prelude Safety Decimal GoString Money LedgerTypes LedgerFacts Ledger LedgerInv LedgerOps LedgerSettle GoTime Promo Period.
From S2P Require Import OrderAmounts Proration SubTypes SubStore SubFacts OrderStore OrderFlow PayStore PayFlow Idem Gift GiftStore GiftFlow.
#[local] Open Scope string_scope.
#[local] Open Scope Z_scope.

Section GiftInv.
Context `{DL : DecimalLib}.

(** * Life of the rows *)

Definition code_terms (c : code_row) :=
  (gc_ID c, gc_TemplateID c, gc_BatchID c, gc_CodeHash c, gc_CodeMask c, gc_ExpiresAt c, gc_CreatedAt c).
Definition code_move (a b : string) : Prop := CanTransition a b = true.
Definition code_final (c : code_row) : Prop := gc_Status c = CodeUsed ∨ gc_Status c = CodeExpired.
Definition code_life (c c' : code_row) : Prop :=
  code_terms c' = code_terms c ∧ rtc code_move (gc_Status c) (gc_Status c') ∧ (code_final c → c' = c).
#[global] Instance code_life_preorder : PreOrder code_life.
Proof.
  split; [by intros c|]. intros a b c (T1 & M1 & F1) (T2 & M2 & F2). split_and!; [congruence|by etrans|].
  intros Hf. rewrite (F1 Hf) in *. by apply F2.
Qed.
Lemma final_stays a b : CanTransition a b = true → a ≠ CodeUsed ∧ a ≠ CodeExpired.
Proof.
  unfold CanTransition, codeTransitions. destruct (String.eqb_spec a CodeUnused) as [->|_]; [done|].
  by destruct (String.eqb_spec a CodeDisabled) as [->|_].
Qed.

Definition batch_terms (b : batch_row) :=
  (bt_ID b, bt_TemplateID b, bt_Prefix b, bt_Count b, bt_ExpiresAt b, bt_CreatedBy b, bt_CreatedAt b).
Definition batch_life (b b' : batch_row) : Prop :=
  batch_terms b' = batch_terms b ∧ (b' = b ∨ (bt_ExportedAt b = None ∧ is_Some (bt_ExportedAt b') ∧ bt_CodesSealed b' = None)).
#[global] Instance batch_life_preorder : PreOrder batch_life.
Proof.
  split; [intros b; split; [done|by left]|]. intros a b c [T1 H1] [T2 H2]. split; [congruence|].
  destruct H1 as [->|(E1 & [t E2] & E3)], H2 as [->|(E4 & E5 & E6)]; [by left|by right|right; eauto|congruence].
Qed.

Record cards_life (s s' : cards) : Prop := {
  cl_codes : rows_life code_life (g_codes s) (g_codes s');
  cl_batches : rows_life batch_life (g_batches s) (g_batches s');
  cl_redeemed : g_redemptions s `prefix_of` g_redemptions s';
  cl_next : (g_next s ≤ g_next s')%N;
}.
#[global] Instance cards_life_preorder : PreOrder cards_life.
Proof. split; [intros s; by split|]. intros a b c [H1 H2 H3 H4] [G1 G2 G3 G4]. split; [by etrans..|lia]. Qed.

(** * The tables *)

Record cards_ok (s : cards) : Prop := {
  ck_templates : NoDup (map tr_ID (g_templates s)) ∧ NoDup (map tr_Name (g_templates s)) ∧ (∀ t, t ∈ g_templates s → template_check t = true);
  ck_batches : NoDup (map bt_ID (g_batches s)) ∧ (∀ b, b ∈ g_batches s → batch_check b = true);
  ck_codes : NoDup (map gc_ID (g_codes s)) ∧ NoDup (map gc_CodeHash (g_codes s)) ∧ (∀ c, c ∈ g_codes s → code_check c = true);
  ck_fresh : ∀ c, c ∈ g_codes s → (gc_ID c < g_next s)%N;
  ck_redeemed : NoDup (map gr_CodeID (g_redemptions s)) ∧ (∀ r, r ∈ g_redemptions s → redeemed_check r = true);
}.
(** A change that redeems nothing. *)
Definition tame (s s' : cards) : Prop :=
  cards_life s s' ∧ g_redemptions s' = g_redemptions s ∧ ∀ c, c ∈ g_codes s' → gc_Status c = CodeUsed → c ∈ g_codes s.
#[global] Instance tame_preorder : PreOrder tame.
Proof. split; [by intros s|]. intros a b c (L1 & R1 & C1) (L2 & R2 & C2). split_and!; [by etrans|congruence|auto]. Qed.
Lemma tame_same s s' : cards_life s s' → g_redemptions s' = g_redemptions s → g_codes s' = g_codes s → tame s s'.
Proof. intros L R C. split_and!; [done..|]. by rewrite C. Qed.
Abbreviation safe := (keeps (E := gerr) cards_ok tame).
Ltac tamed := split; [split; try done|apply tame_same; [split; try done|done|done]]; simpl.

Lemma NoDup_snoc {A B} (f : A → B) l x : NoDup (map f l) → f x ∉ map f l → NoDup (map f (l ++ [x])).
Proof.
  intros Hl Hx. rewrite map_app. apply NoDup_app. split_and!; [done| |apply NoDup_singleton].
  intros y Hy ->%list_elem_of_singleton. done.
Qed.
Lemma not_there {A B} (f : A → B) (p : A → bool) l v : existsb p l = false → (∀ x, x ∈ l → f x = v → p x = true) → v ∉ map f l.
Proof. rewrite existsb_false. intros H Hp (x & -> & Hx)%list_elem_of_fmap. specialize (H _ Hx). by rewrite Hp in H. Qed.
Lemma upd_map {A B} (g : A → B) hit f l : (∀ x, g (f x) = g x) → map g (upd hit f l) = map g l.
Proof. intros H. unfold upd. rewrite List.map_map. apply List.map_ext. intros x. by destruct (hit x). Qed.

Lemma card_audit_safe a id : safe (card_audit a id).
Proof. apply keeps_modify. intros c []. tamed. Qed.
Lemma bump_ok s : cards_ok s → cards_ok (bump_card s) ∧ tame s (bump_card s).
Proof. intros [H1 H2 H3 H4 H5]. tamed; [|lia]. intros c Hc. specialize (H4 _ Hc). lia. Qed.
Lemma new_card_id_safe : safe new_card_id.
Proof. intros s id s' Hs [= _ <-]. by apply bump_ok. Qed.

(** ** Templates *)

Lemma write_template_ok F rest t u : write_template F rest t = Ok u →
  template_check t = true ∧ tr_ID t ∉ map tr_ID rest ∧ tr_Name t ∉ map tr_Name rest.
Proof.
  unfold write_template. destruct (template_fits t); simpl; [|done]. destruct (template_check t) eqn:Ec; simpl; [|done].
  destruct (existsb _ rest) eqn:Ee; [done|]. intros _. split_and!; [done|..]; (eapply not_there; [exact Ee|]); intros x _ Ex; simpl.
  - rewrite (proj2 (N.eqb_eq _ _) Ex). apply orb_true_r.
  - by rewrite (proj2 (String.eqb_eq _ _) Ex).
Qed.
Lemma set_prizes_ok f s : cards_ok s → cards_ok (set_prizes f s) ∧ tame s (set_prizes f s).
Proof. intros []. tamed. Qed.
Lemma insert_prizes_safe id prizes : safe (insert_prizes id prizes).
Proof. intros s u s' Hs H. unfold insert_prizes in H. cbv zeta in H. repeat case_match; simplify_eq. by apply set_prizes_ok. Qed.
Lemma CreateTemplate_safe F t prizes : safe (CreateTemplate F t prizes).
Proof.
  unfold CreateTemplate. destruct (negb _); [apply keeps_fail, _|]. apply keeps_bind; [apply _| |intros; apply insert_prizes_safe].
  intros s u s' Hs H. destruct (write_template F (g_templates s) t) as [v|] eqn:E; [|done]. injection H as _ <-.
  apply write_template_ok in E as (E1 & E2 & E3). destruct Hs as [(H1 & H2 & H3) ? ? ? ?]. tamed.
  split_and!; [by apply NoDup_snoc..|]. intros x [Hx| ->%list_elem_of_singleton]%elem_of_app; auto.
Qed.
Lemma upd_kept {A B} (f : A → B) (hit : A → bool) (g : A → A) (x : A) l v :
  NoDup (map f l) → (∀ y, hit y = true → f (g y) = v) → v ∉ map f (List.filter (λ y, negb (hit y)) l) →
  (∀ y z, y ∈ l → z ∈ l → hit y = true → hit z = true → y = z) → NoDup l → NoDup (map f (upd hit g l)).
Proof.
  intros Hn Hg. induction l as [|y l IH]; intros Hv Hu Hl; [constructor|]. unfold upd in *. simpl in *.
  apply NoDup_cons in Hn as [Hy Hn]. apply NoDup_cons in Hl as [Hyl Hl]. destruct (hit y) eqn:Ey; simpl in Hv.
  - apply NoDup_cons. split.
    + rewrite (Hg _ Ey). intros (z & Ez & (t & -> & Ht)%list_elem_of_fmap)%list_elem_of_fmap.
      destruct (hit t) eqn:Et; [by rewrite (Hu y t) in Hyl by (done || by constructor)|].
      apply Hv. rewrite Ez. apply list_elem_of_fmap_2, elem_of_filter_bool. by rewrite Et.
    + apply IH; [done|done| |done]. intros a b Ha Hb. apply Hu; by constructor.
  - apply not_elem_of_cons in Hv as [Hv1 Hv2]. apply NoDup_cons. split.
    + intros (z & Ez & (t & -> & Ht)%list_elem_of_fmap)%list_elem_of_fmap. destruct (hit t) eqn:Et; [by rewrite Hg in Ez|].
      apply Hy. rewrite Ez. by apply list_elem_of_fmap_2.
    + apply IH; [done|done| |done]. intros a b Ha Hb. apply Hu; by constructor.
Qed.
Lemma UpdateTemplate_safe F t prizes : safe (UpdateTemplate F t prizes).
Proof.
  unfold UpdateTemplate. destruct (negb _); [apply keeps_fail, _|]. apply keeps_bind; [apply _| |].
  - intros s b s' Hs H. destruct (List.find _ _) as [x|] eqn:Ex; [|by injection H as _ <-].
    destruct (write_template F _ _) as [v|] eqn:E; [|done]. injection H as _ <-.
    apply write_template_ok in E as (E1 & _ & E3). destruct Hs as [(H1 & H2 & H3) ? ? ? ?]. tamed.
    split_and!.
    + by rewrite (upd_map tr_ID).
    + apply (upd_kept tr_Name (λ y, (tr_ID y =? tr_ID t)%N) (with_template t) x _ (tr_Name t)); try done.
      * intros y z Hy Hz Ey%N.eqb_eq Ez%N.eqb_eq. eapply (NoDup_map_inj tr_ID); [done..|congruence].
      * by eapply NoDup_fmap_1.
    + intros y (z & Hz & ->)%upd_in. destruct (N.eqb_spec (tr_ID z) (tr_ID t)) as [Ez|Ez]; [|by apply H3].
      apply List.find_some in Ex as [Hx Ex%N.eqb_eq]. apply list_elem_of_In in Hx.
      assert (z = x) as ->; [|done]. eapply (NoDup_map_inj tr_ID); [done..|congruence].
  - intros b. destruct (negb b); [apply keeps_ret, _|]. keeps_walk; [apply keeps_modify; intros; by apply set_prizes_ok|apply insert_prizes_safe].
Qed.

(** ** Batches *)

Lemma CreateBatch_safe F b : safe (CreateBatch F b).
Proof.
  intros s u s' Hs H. unfold CreateBatch in H. destruct (batch_fits b); simpl in H; [|done].
  destruct (batch_check b) eqn:Ec; simpl in H; [|done]. destruct (existsb _ _) eqn:Ee; [done|]. destruct (batch_fk F s b); simpl in H; [|done].
  injection H as _ <-. destruct Hs as [? [H1 H2] ? ? ?]. tamed.
  - split; [apply NoDup_snoc; [done|]|].
    + eapply not_there; [exact Ee|]. intros x _ E. by apply N.eqb_eq.
    + intros x [Hx| ->%list_elem_of_singleton]%elem_of_app; auto.
  - apply rows_life_app, _.
Qed.
Lemma MarkBatchExported_safe F id by_ at_ : safe (MarkBatchExported F id by_ at_).
Proof.
  intros s u s' Hs H. unfold MarkBatchExported in H. destruct (_ && _); [done|]. injection H as _ <-.
  destruct Hs as [? [H1 H2] ? ? ?]. tamed.
  - rewrite (upd_map bt_ID) by done. split; [done|]. intros b (y & Hy & ->)%upd_in. destruct (unexported id y); [|by apply H2].
    specialize (H2 _ Hy). unfold batch_check in *. rewrite !andb_true_iff in *. simpl. naive_solver.
  - apply rows_life_upd; [apply _|]. intros b _ Hh. split; [done|right]. unfold unexported in Hh.
    apply andb_true_iff in Hh as [_ Hh]. simpl. split_and!; [by destruct (bt_ExportedAt b)|done|done].
Qed.

(** ** Codes *)

Lemma insert_codes_step F c s u s' :
  (if negb (pg_text (gc_CodeMask c)) then (Err (GDB DBOther), s)
   else if negb (code_check c) then (Err (GDB DBCheck), s)
   else if existsb (λ x, bool_decide (gc_CodeHash x = gc_CodeHash c)) (g_codes s) then (Ok (), s)
   else if existsb (λ x, (gc_ID x =? gc_ID c)%N) (g_codes s) then (Err (GDB DBUnique), s)
   else if negb (code_fk F s c) then (Err (GDB DBForeignKey), s)
   else (Ok (), set_codes (λ l, l ++ [c])%list s)) = (Ok u, s') →
  (gc_CodeHash c ∈ map gc_CodeHash (g_codes s) ∧ s' = s) ∨
  (gc_CodeHash c ∉ map gc_CodeHash (g_codes s) ∧ gc_ID c ∉ map gc_ID (g_codes s) ∧ code_check c = true ∧ s' = set_codes (λ l, l ++ [c])%list s).
Proof.
  destruct (pg_text _); simpl; [|done]. destruct (code_check c) eqn:Ec; simpl; [|done].
  destruct (existsb (λ x, bool_decide _) _) eqn:Eh.
  - intros [= _ <-]. left. split; [|done]. apply existsb_true in Eh as (x & Hx & E%bool_decide_eq_true). rewrite <- E.
    by apply list_elem_of_fmap_2.
  - destruct (existsb (λ x, (gc_ID x =? _)%N) _) eqn:Ei; [done|]. destruct (code_fk F s c); simpl; [|done]. intros [= _ <-]. right. split_and!; [| |done|done].
    + eapply not_there; [exact Eh|]. intros x _ E. by apply bool_decide_eq_true.
    + eapply not_there; [exact Ei|]. intros x _ E. by apply N.eqb_eq.
Qed.
Definition fresh_rows (n : uuid) (rows : list code_row) : Prop := ∀ c, c ∈ rows → (gc_ID c < n)%N.
Lemma insert_codes_Ok F rows : ∀ s u s', cards_ok s → fresh_rows (g_next s) rows → (∀ c, c ∈ rows → gc_Status c = CodeUnused) →
  insert_codes F rows s = (Ok u, s') → cards_ok s' ∧ tame s s'.
Proof.
  induction rows as [|c rows IH]; intros s u s' Hs Hf Hun H; simpl in H; [by injection H as _ <-|].
  apply bind_Ok in H as (v & s1 & [[_ ->]|(E1 & E2 & E3 & ->)]%insert_codes_step & H).
  - eapply IH; [done|intros x Hx; apply Hf; by constructor|intros x Hx; apply Hun; by constructor|exact H].
  - apply IH in H as [Hs' Hl]; [split; [done|]| | |].
    + etrans; [|exact Hl]. split_and!; [split; try done; simpl; apply rows_life_app, _|done|]. simpl.
      intros x [Hx| ->%list_elem_of_singleton]%elem_of_app Ex; [done|]. by rewrite Hun in Ex by constructor.
    + destruct Hs as [? ? (H1 & H2 & H3) H4 ?]. split; try done; simpl.
      * split_and!; [by apply NoDup_snoc..|]. intros x [Hx| ->%list_elem_of_singleton]%elem_of_app; auto.
      * intros x [Hx| ->%list_elem_of_singleton]%elem_of_app; [by apply H4|]. apply Hf. constructor.
    + intros x Hx. apply Hf. by constructor.
    + intros x Hx. apply Hun. by constructor.
Qed.
Lemma UpdateCodeStatus_Ok F id from to by_ at_ s b s' : UpdateCodeStatus F id from to by_ at_ s = (Ok b, s') →
  b = (hits (code_at id from) (g_codes s) =? 1) ∧ s' = set_codes (upd (code_at id from) (with_status to by_ at_)) s ∧
  ∀ c, c ∈ g_codes s → code_at id from c = true → code_check (with_status to by_ at_ c) = true.
Proof.
  unfold UpdateCodeStatus. destruct (forallb (λ c, _ || code_check _) _) eqn:Ec; simpl; [|done]. destruct (forallb (λ c, _ || opt_ok _ _) _); simpl; [|done].
  intros [= <- <-]. split_and!; [done..|]. intros c Hc Hh. rewrite forallb_forall in Ec. specialize (Ec c (proj1 (list_elem_of_In _ _) Hc)).
  by rewrite Hh in Ec.
Qed.
Lemma code_at_true id from c : code_at id from c = true ↔ gc_ID c = id ∧ gc_Status c = from.
Proof. unfold code_at. by rewrite andb_true_iff, N.eqb_eq, String.eqb_eq. Qed.
Lemma UpdateCodeStatus_life F id from to by_ at_ s b s' : CanTransition from to = true → cards_ok s →
  UpdateCodeStatus F id from to by_ at_ s = (Ok b, s') → cards_ok s' ∧ cards_life s s'.
Proof.
  intros Ht Hs (-> & -> & Hc)%UpdateCodeStatus_Ok. destruct Hs as [? ? (H1 & H2 & H3) H4 ?]. split; [split; try done|split; try done]; simpl.
  - rewrite !(upd_map _ (code_at id from)) by done. split_and!; [done..|]. intros c (y & Hy & ->)%upd_in. destruct (code_at id from y) eqn:E; auto.
  - intros c (y & Hy & ->)%upd_in. destruct (code_at id from y); exact (H4 y Hy).
  - apply rows_life_upd; [apply _|]. intros c Hx [_ Es]%code_at_true. split_and!; [done| |].
    + simpl. rewrite Es. by apply rtc_once.
    + apply final_stays in Ht as [N1 N2]. rewrite <- Es in *. by intros [].
Qed.
Lemma UpdateCodeStatus_safe F id from to by_ at_ : CanTransition from to = true → to ≠ CodeUsed → safe (UpdateCodeStatus F id from to by_ at_).
Proof.
  intros Ht Hto s b s' Hs H. destruct (UpdateCodeStatus_life _ _ _ _ _ _ _ _ _ Ht Hs H) as [Hs' Hl]. split; [done|].
  apply UpdateCodeStatus_Ok in H as (_ & -> & _). split_and!; [done..|]. simpl. intros c (y & Hy & ->)%upd_in.
  by destruct (code_at id from y).
Qed.

(** ** Redemptions *)

Lemma redemption_inserted F mk s u s' : InsertRedemption F mk s = (Ok u, s') →
  s' = bump_card (set_redeemed (λ l, l ++ [mk (g_next s)])%list s) ∧ redeemed_check (mk (g_next s)) = true ∧
  gr_CodeID (mk (g_next s)) ∉ map gr_CodeID (g_redemptions s) ∧ redeemed_fk F s (mk (g_next s)) = true.
Proof.
  unfold InsertRedemption. cbv zeta. destruct (checkMoney _); simpl; [|done]. destruct (redemption_fits _); simpl; [|done].
  destruct (redeemed_check _) eqn:Ec; simpl; [|done]. destruct (existsb _ _) eqn:Ee; [done|]. destruct (redeemed_fk _ _ _) eqn:Ef; simpl; [|done].
  intros [= _ <-]. split_and!; try done. eapply not_there; [exact Ee|]. intros x _ E. by apply N.eqb_eq.
Qed.
Lemma InsertRedemption_life F mk s u s' : cards_ok s → InsertRedemption F mk s = (Ok u, s') → cards_ok s' ∧ cards_life s s'.
Proof.
  intros Hs (-> & Hc & Hn & _)%redemption_inserted. destruct Hs as [? ? ? H4 [H5 H6]]. split; [split; try done|split; try done]; simpl.
  - intros c Hx. specialize (H4 _ Hx). lia.
  - split; [by apply NoDup_snoc|]. intros r [Hr| ->%list_elem_of_singleton]%elem_of_app; auto.
  - by eexists.
  - lia.
Qed.
End GiftInv.

Section GiftSteps.
Context `{DL : DecimalLib}.
Abbreviation WM := (M gworld gerr).

(** * The invariant *)

(** The platform's expense for gift cards. *)
Definition gift_ref : AccountRef := PlatformAccount PlatformPromoExpense RefGift.
Definition gift_key : AccountKey := keyOf gift_ref.
Definition matches (c : code_row) (r : redemption_row) : Prop :=
  gr_CodeID r = gc_ID c ∧ gc_Status c = CodeUsed ∧ gc_UsedBy c = Some (gr_UserID r) ∧ gc_UsedAt c = Some (gr_RedeemedAt r) ∧
  gr_TemplateID r = gc_TemplateID c.
Definition linked (s : cards) : Prop :=
  (∀ r, r ∈ g_redemptions s → ∃ c, c ∈ g_codes s ∧ matches c r) ∧
  (∀ c, c ∈ g_codes s → gc_Status c = CodeUsed → ∃ r, r ∈ g_redemptions s ∧ gr_CodeID r = gc_ID c).
Definition gift_txn (l : ledger) (codeID txn : uuid) : Prop :=
  ∃ t, t ∈ txns l ∧ t_id t = txn ∧ t_kind t = KindGiftCardBalance ∧ t_source_type t = Some SourceGiftCardCode ∧ t_source_id t = Some codeID.
Definition paid_by (l : ledger) (r : redemption_row) : Prop :=
  ∀ b, gr_Balance r = Some b → ∃ txn, gr_LedgerTxnID r = Some txn ∧ gift_txn l (gr_CodeID r) txn.
Definition amount_of (o : option dec) : Q := match o with Some d => val d | None => 0 end.
Definition given (r : redemption_row) : Q := amount_of (gr_Balance r).

Record gift_ok (S : Env) (w : gworld) : Prop := {
  go_ledger : good (gw_ledger w);
  go_subs : store_ok S (gw_subs w);
  go_cards : cards_ok (gw_cards w);
  go_batches : batches_exist (gw_cards w) = true;
  go_linked : linked (gw_cards w);
  go_expense : (bal (gw_ledger w) gift_key == over given (g_redemptions (gw_cards w)))%Q;
  go_paid : ∀ r, r ∈ g_redemptions (gw_cards w) → paid_by (gw_ledger w) r;
}.
Record gift_to (w w' : gworld) : Prop := {
  gt_cards : cards_life (gw_cards w) (gw_cards w');
  gt_ledger : extends (gw_ledger w) (gw_ledger w');
  gt_subs : evolves (gw_subs w) (gw_subs w');
}.
#[global] Instance gift_to_preorder : PreOrder gift_to.
Proof. split; [intros w; by split|]. intros a b c [H1 H2 H3] [G1 G2 G3]. split; by etrans. Qed.

Lemma rows_in {A} (R : relation A) l l' x : rows_life R l l' → x ∈ l → ∃ y, y ∈ l' ∧ R x y.
Proof. intros H (n & Hn)%list_elem_of_lookup. destruct (H _ _ Hn) as (y & Hy & Hr). exists y. split; [by eapply list_elem_of_lookup_2|done]. Qed.
Lemma used_stays s s' c : cards_life s s' → c ∈ g_codes s → code_final c → c ∈ g_codes s'.
Proof. intros Hl Hc Hf. destruct (rows_in _ _ _ _ (cl_codes _ _ Hl) Hc) as (y & Hy & _ & _ & Hfin). by rewrite <- (Hfin Hf). Qed.
Lemma linked_tame s s' : linked s → tame s s' → linked s'.
Proof.
  intros [H1 H2] (Hl & Hr & Hc). unfold linked. rewrite Hr. split.
  - intros r Hx. destruct (H1 _ Hx) as (c & Hcc & Hm). exists c. split; [|done]. eapply used_stays; [done..|]. left. apply Hm.
  - intros c Hx Hu. apply H2; auto.
Qed.
Lemma paid_extends l l' r : extends l l' → paid_by l r → paid_by l' r.
Proof.
  intros He Hp b Hb. destruct (Hp b Hb) as (txn & E & t & Ht & Hrest). exists txn. split; [done|]. exists t. split; [|done].
  destruct (ex_txns _ _ He) as [k ->]. apply elem_of_app. by left.
Qed.

(** * Steps that redeem nothing *)

Definition tame_world (w w' : gworld) : Prop := tame (gw_cards w) (gw_cards w') ∧ gw_ledger w' = gw_ledger w ∧ gw_subs w' = gw_subs w.
#[global] Instance tame_world_preorder : PreOrder tame_world.
Proof. split; [by intros w|]. intros a b c (H1 & H2 & H3) (G1 & G2 & G3). split_and!; [by etrans|congruence..]. Qed.
Abbreviation calm := (keeps (E := gerr) (λ w, cards_ok (gw_cards w)) tame_world).

Lemma on_cards_calm {A} (m : M cards gerr A) : keeps (E := gerr) cards_ok tame m → calm (on_cards m).
Proof. intros Hm w a w' Hw (s & H & ->)%zoom_Ok. destruct (Hm _ _ _ Hw H) as [Hs Ht]. done. Qed.
Lemma fk_cards_err_calm {A} W h (f : gift_refs → M cards gerr A) : (∀ F, keeps (E := gerr) cards_ok tame (f F)) → calm (fk_cards_err W h f).
Proof. intros Hf w a w' Hw H. eapply on_cards_calm in H; [exact H|apply keeps_map_err, Hf|done]. Qed.
Lemma fk_cards_calm {A} W (f : gift_refs → M cards gerr A) : (∀ F, keeps (E := gerr) cards_ok tame (f F)) → calm (fk_cards W f).
Proof. apply fk_cards_err_calm. Qed.
Lemma on_idem_calm {A} (m : M idem ierr A) : calm (on_idem m).
Proof. intros w a w' Hw (i & H & ->)%zoom_Ok. done. Qed.
Lemma read_calm {A} (f : cards → A) : calm (on_cards (map_err gcErr (gets f))).
Proof. apply on_cards_calm, keeps_map_err, keeps_gets, _. Qed.
Lemma completeIdem_calm k b res : calm (completeIdem k b res).
Proof.
  unfold completeIdem. destruct (gk_claim k); [|apply keeps_ret, _]. destruct b; [|apply keeps_fail, _]. destruct res; apply on_idem_calm.
Qed.
Lemma loadTemplate_calm W id b : calm (loadTemplate W id b).
Proof. unfold loadTemplate. keeps_walk; apply read_calm. Qed.
Lemma batchView_calm W id : calm (batchView W id).
Proof. unfold batchView. keeps_walk. apply read_calm. Qed.
Ltac calm_walk :=
  repeat first
    [ progress keeps_walk | apply read_calm | apply loadTemplate_calm | apply batchView_calm | apply completeIdem_calm | apply on_idem_calm
    | apply on_cards_calm; first [apply new_card_id_safe | apply card_audit_safe]
    | apply fk_cards_calm; intros; first [apply CreateBatch_safe | apply MarkBatchExported_safe | by apply UpdateCodeStatus_safe]
    | apply fk_cards_err_calm; intros; first [apply CreateTemplate_safe | apply UpdateTemplate_safe] ].

(** A committed step that redeems nothing. *)
Lemma tame_keeps S w w' : gift_ok S w → cards_ok (gw_cards w') → tame_world w w' → batches_exist (gw_cards w') = true →
  gift_ok S w' ∧ gift_to w w'.
Proof.
  intros [H1 H2 H3 H4 H5 H6 H7] Hc (Ht & El & Es) Eb. split.
  - split; rewrite ?El, ?Es; try done; [by eapply linked_tame| |]; destruct Ht as (_ & -> & _); done.
  - split; rewrite ?El, ?Es; try done. apply Ht.
Qed.
Lemma gift_tx_Ok {A} (m : WM A) w a w' : gift_tx false m w = (Ok a, w') → m w = (Ok a, w') ∧ batches_exist (gw_cards w') = true.
Proof.
  unfold gift_tx, Do. destruct (m w) as [[x|e] w1] eqn:E; [|done]. destruct (assert_ledger_balanced _); [|done].
  destruct (batches_exist _) eqn:Eb; [|done]. by intros [= -> ->].
Qed.
Lemma gift_tx_Err {A} (m : WM A) w e w' : gift_tx false m w = (Err e, w') → w' = w.
Proof. apply Do_Err. Qed.
Lemma gift_commit {A} S (m : WM A) w r w' : calm m → gift_ok S w → gift_tx false m w = (r, w') → gift_ok S w' ∧ gift_to w w'.
Proof.
  intros Hm Hw H. destruct r as [a|e]; [|by apply gift_tx_Err in H as ->]. apply gift_tx_Ok in H as [E Eb].
  destruct (Hm _ _ _ (go_cards _ _ Hw) E) as [Hc Ht]. by apply tame_keeps.
Qed.
(** The same after reading the request. *)
Definition commits {A} (m : WM A) : Prop := ∀ S w r w', gift_ok S w → m w = (r, w') → gift_ok S w' ∧ gift_to w w'.
Lemma gift_tx_commits {A} (m : WM A) : calm m → commits (gift_tx false m).
Proof. intros Hm S w r w' Hw H. by eapply gift_commit. Qed.
Lemma gift_commits_pure {A} (r : result gerr A) : commits (lift r).
Proof. intros S w x w' Hw [= _ <-]. done. Qed.
Lemma gift_commits_bind {A B} (m : WM A) (f : A → WM B) : commits m → (∀ a, commits (f a)) → commits (m ≫= f).
Proof.
  intros Hm Hf S w r w' Hw H. unfold mbind, M_bind in H. destruct (m w) as [[a|e] w1] eqn:E.
  - destruct (Hm _ _ _ _ Hw E) as [Hw1 H1]. destruct (Hf _ _ _ _ _ Hw1 H) as [Hw2 H2]. split; [done|by etrans].
  - injection H as _ <-. by eapply Hm.
Qed.

(** * Templates, exports, switching *)

Lemma SaveTemplate_commits W who k i : commits (SaveTemplate W false who k i).
Proof.
  unfold SaveTemplate. apply gift_commits_bind; [apply gift_commits_pure|]. intros p. destruct (normalizeTemplate i); [|exact (gift_commits_pure (Err _))].
  apply gift_commits_bind; [apply gift_commits_pure|]. intros _. apply gift_tx_commits. calm_walk.
Qed.
Lemma ToggleCode_commits W who id b : commits (ToggleCode W false who id b).
Proof. unfold ToggleCode. apply gift_commits_bind; [apply gift_commits_pure|]. intros p. destruct b; apply gift_tx_commits; calm_walk. Qed.
Lemma ExportBatch_commits W who k id : commits (ExportBatch W false who k id).
Proof. unfold ExportBatch. apply gift_commits_bind; [apply gift_commits_pure|]. intros p. apply gift_tx_commits. calm_walk. Qed.

(** * Generating codes *)

(** The rows made for [codes]. *)
Definition rows_for (W : GiftEnv) (tid bid : uuid) (expires : option Time) (at_ : Time) (n : uuid) (codes : list string) : list code_row :=
  imap (λ j c, mkCodeRow (n + N.of_nat j)%N tid bid (hashCode W c) (MaskCode c) CodeUnused expires None None at_) codes.
Definition bump_by (n : nat) (s : cards) : cards :=
  mkCards (g_templates s) (g_prizes s) (g_batches s) (g_codes s) (g_redemptions s) (g_audits s) (g_next s + N.of_nat n)%N.
Lemma code_rows_eq W tid bid expires at_ codes : ∀ s,
  code_rows W tid bid expires at_ codes s = (Ok (rows_for W tid bid expires at_ (g_next s) codes), bump_by (length codes) s).
Proof.
  induction codes as [|c codes IH]; intros s; simpl.
  - unfold mret, M_ret, rows_for, bump_by. simpl. rewrite N.add_0_r. by destruct s.
  - unfold mbind, M_bind, new_card_id. rewrite IH. unfold mret, M_ret. unfold rows_for. simpl. rewrite N.add_0_r. f_equal.
    + do 2 f_equal. apply imap_ext. intros j x _. simpl. f_equal. lia.
    + unfold bump_by, bump_card. simpl. f_equal. lia.
Qed.
Lemma rows_for_in W tid bid expires at_ n codes r : r ∈ rows_for W tid bid expires at_ n codes →
  (n ≤ gc_ID r < n + N.of_nat (length codes))%N ∧ gc_Status r = CodeUnused ∧
  ∃ c, c ∈ codes ∧ gc_CodeHash r = hashCode W c ∧ gc_BatchID r = bid ∧ gc_TemplateID r = tid ∧ gc_ExpiresAt r = expires ∧ gc_CodeMask r = MaskCode c.
Proof.
  intros (j & Hj)%list_elem_of_lookup. unfold rows_for in Hj. rewrite list_lookup_imap in Hj.
  destruct (codes !! j) as [c|] eqn:E; [|done]. injection Hj as <-. simpl. apply lookup_lt_Some in E as Hlt.
  split_and!; [lia|lia|done|]. exists c. split_and!; try done. by eapply list_elem_of_lookup_2.
Qed.
Lemma bump_by_ok n s : cards_ok s → cards_ok (bump_by n s) ∧ tame s (bump_by n s).
Proof.
  intros [H1 H2 H3 H4 H5]. split; [split; try done|apply tame_same; [split; try done|done|done]]; simpl; [|lia].
  intros c Hc. specialize (H4 _ Hc). lia.
Qed.
Lemma insert_rows_calm W k tid bid expires codes :
  calm (rows ← on_cards (code_rows W tid bid expires (gk_db k) codes); inserted ← fk_cards W (λ F, InsertCodes F rows); mret (rows, inserted)).
Proof.
  intros w a w' Hw H. apply bind_Ok in H as (rows & w1 & (s1 & H1 & ->)%zoom_Ok & H). rewrite code_rows_eq in H1. injection H1 as <- <-.
  apply bind_Ok in H as (ins & w2 & (s2 & H2%map_err_Ok & ->)%zoom_Ok & [= _ <-]). unfold InsertCodes in H2.
  apply bind_Ok in H2 as (u & s3 & H2 & [_ ->]%gets_Ok). simpl in H2.
  destruct (bump_by_ok (length codes) _ Hw) as [Hb Hbl].
  apply insert_codes_Ok in H2 as [Hc Ht]; [|done| |].
  - split; [done|]. split_and!; try done. simpl. by etrans.
  - intros r (? & _ & _)%rows_for_in. simpl. lia.
  - by intros r (_ & ? & _)%rows_for_in.
Qed.
(** The loop as one step per round. *)
Lemma insert_rounds_calm W k tid bid prefix count expires rounds : ∀ plain seen reads,
  calm (insert_rounds W k tid bid prefix count expires rounds plain seen reads).
Proof.
  induction rounds as [|n IH]; intros plain seen reads; cbn [insert_rounds]; destruct (Nat.ltb _ _); try (apply keeps_fail, _ || apply keeps_ret, _).
  destruct (draw_codes _ _ _ _ _ _) as [[[codes seen'] reads']|]; [|apply keeps_fail, _].
  intros w a w' Hw H. apply bind_Ok in H as (rows & w1 & H1 & H). apply bind_Ok in H as (ins & w2 & H2 & H).
  destruct (insert_rows_calm W k tid bid expires codes w (rows, ins) w2 Hw) as [Hw2 Ht].
  { unfold mbind, M_bind. by rewrite H1, H2. }
  destruct (IH _ _ _ _ _ _ Hw2 H) as [Hw' Ht']. split; [done|by etrans].
Qed.
Lemma GenerateCodes_commits W who k i : commits (GenerateCodes W false who k i).
Proof.
  unfold GenerateCodes. apply gift_commits_bind; [apply gift_commits_pure|]. intros p. destruct (generate_problems _ _); [|exact (gift_commits_pure (Err _))].
  apply gift_tx_commits. unfold insertCodes. calm_walk; apply insert_rounds_calm.
Qed.
End GiftSteps.
