(* ===== verification/GiftHistory.v ===== *)
(** What a redemption does to the ledger and the subscriptions: the platform pays
    exactly the balance the card gives, the user gets it, and nothing else of the
    gift-card tables moves.

    A redemption as a whole, and histories: what a successful redemption has
    checked and done, that it keeps the invariant, and every sequence of calls
    of this module with the ledger and the subscriptions changing between them. *)
From Stdlib Require Import ZArith QArith Lqa Lia.
From stdpp Require Import base tactics list gmap strings sorting relations.
From S2P Require Import Prelude Safety Decimal GoString Money LedgerTypes LedgerFacts Ledger LedgerInv LedgerOps LedgerSettle GoTime Promo Period.
From S2P Require Import OrderAmounts Proration SubTypes SubStore SubFacts Subscription SubHistory OrderStore OrderFlow OrderInv Frame PayStore PayFlow.
From S2P Require Import Idem Gift GiftStore GiftFlow GiftRedeem GiftInv.
#[local] Open Scope string_scope.
#[local] Open Scope Z_scope.

Section GiftPaid.
Context `{DL : DecimalLib}.
Abbreviation WM := (M gworld gerr).

(** * The ledger *)

Record gift_paid (code user : uuid) (amt refund : option dec) (txn : option uuid) (l l' : ledger) : Prop := {
  gp_good : good l';
  gp_ext : extends l l';
  gp_users : users l' = users l;
  gp_expense : (bal l' gift_key == bal l gift_key + amount_of amt)%Q;
  gp_balance : ∀ u, (bal l' (balance_key u) == bal l (balance_key u) + (if (u =? user)%N then amount_of amt + amount_of refund else 0))%Q;
  gp_txn : ∀ d, amt = Some d → ∃ id, txn = Some id ∧ gift_txn l' code id;
}.
Lemma unpaid code user txn l : good l → gift_paid code user None None txn l l.
Proof. intros Hl. split; try done; [simpl; lra|]. intros u. simpl. destruct (u =? user)%N; lra. Qed.

Lemma Post_facts c p l id l' : Forall (λ x, ref_Type (leg_Account x) ≠ UserBalanceHold) (p_Legs p) → good l → Post c p l = (Ok id, l') →
  good l' ∧ posted (in_tx c) p l l' id ∧ extends l l' ∧ (p_SourceType p ≠ "" → p_SourceID p ≠ LedgerTypes.uuid_Nil).
Proof.
  intros Hh Hg H. destruct (Post_quiet _ _ _ _ _ Hh Hg H) as [Hg' _]. destruct Hg as [Hok _].
  unfold Post in H. destruct (Dedicated _); [done|]. unfold DoL in H. step_ok H.
  pose proof H as HP. apply postChecked_spec in HP; [|done]. split_and!; [done|done|by eapply appends_postChecked|].
  unfold postChecked in H. apply bind_Ok in H as (u & s1 & [Hv _]%lift_Ok & _). unfold validatePosting in Hv.
  apply result_bind_ok in Hv as (? & _ & Hv). apply result_bind_ok in Hv as (? & Hv%reject_ok & _). intros Hst Hid.
  rewrite (proj2 (String.eqb_neq _ _) Hst), (proj2 (N.eqb_eq _ _) Hid) in Hv. done.
Qed.
Lemma gift_delta user amt : (delta_on (refOf gift_key) (gift_legs user amt) == val amt)%Q.
Proof.
  change (refOf gift_key) with gift_ref. unfold gift_legs. rewrite !delta_on_cons, delta_on_nil, (on_ref_false gift_ref (mkLeg (UserAccount _ _) _ _)) by done.
  change (on_ref gift_ref _) with true. unfold leg_delta. simpl. change (signedDelta _ _ amt) with amt. lra.
Qed.
Lemma balance_delta from user amt u : ref_Type from ≠ UserBalance →
  (delta_on (refOf (balance_key u)) [mkLeg from Debit amt; mkLeg (UserAccount UserBalance user) Credit amt] ==
   if (u =? user)%N then val amt else 0)%Q.
Proof.
  intros Hf. change (refOf (balance_key u)) with (UserAccount UserBalance u). rewrite !delta_on_cons, delta_on_nil, on_ref_false by (simpl; by intros ->).
  destruct (N.eqb_spec u user) as [->|Hu].
  - unfold on_ref. rewrite bool_decide_eq_true_2 by done. unfold leg_delta. simpl. change (signedDelta _ _ amt) with amt. lra.
  - rewrite on_ref_false by (simpl; by intros [=]). lra.
Qed.
Lemma gift_posting_paid who i amt l txn l' : good l → Post (joined who) (gift_posting i amt) l = (Ok txn, l') →
  gift_paid (gt_codeID i) (gt_user i) (Some amt) None (Some txn) l l'.
Proof.
  intros Hl H. destruct (Post_facts (joined who) (gift_posting i amt) l txn l') as (Hg & HP & He & Hs); [repeat constructor; discriminate|done..|]. split; [done|done|apply HP| | |].
  - rewrite (po_bal _ _ _ _ _ HP) by done. change (p_Legs _) with (gift_legs (gt_user i) amt). by rewrite gift_delta.
  - intros u. rewrite (po_bal _ _ _ _ _ HP) by apply balance_key_check. unfold gift_posting, gift_legs. cbn [p_Legs].
    rewrite balance_delta by done. simpl. destruct (u =? gt_user i)%N; lra.
  - intros d [= <-]. exists txn. split; [done|]. unfold gift_txn. rewrite (po_txns _ _ _ _ _ HP). eexists. split; [apply elem_of_app; right; constructor|].
    unfold txn_of. simpl. destruct (actorOf _). simpl. change (gt_codeID i) with (p_SourceID (gift_posting i amt)) at 1. by rewrite (proj2 (N.eqb_neq _ _) (Hs ltac:(done))).
Qed.
Lemma change_refund_paid who i value l txn l' : good l → Post (joined who) (change_refund i value) l = (Ok txn, l') →
  gift_paid (gt_codeID i) (gt_user i) None (Some value) None l l'.
Proof.
  intros Hl H. destruct (Post_facts (joined who) (change_refund i value) l txn l') as (Hg & HP & He & Hs); [repeat constructor; discriminate|done..|]. split; [done|done|apply HP| | |done].
  - rewrite (po_bal _ _ _ _ _ HP), delta_on_none; [simpl; lra| |done]. set_solver.
  - intros u. rewrite (po_bal _ _ _ _ _ HP) by apply balance_key_check. unfold change_refund. cbn [p_Legs].
    rewrite balance_delta by done. simpl. destruct (u =? gt_user i)%N; lra.
Qed.

(** * The subscriptions *)

Record subs_only (S : Env) (w w' : gworld) : Prop := {
  sb_cards : gw_cards w' = gw_cards w;
  sb_ledger : gw_ledger w' = gw_ledger w;
  sb_ok : store_ok S (gw_subs w');
  sb_evolves : evolves (gw_subs w) (gw_subs w');
}.
Lemma subs_trans S a b c : subs_only S a b → subs_only S b c → subs_only S a c.
Proof. intros [] []. split; try congruence. by etrans. Qed.
Lemma on_gsubs_only {A} S (m : M store serr A) w r w' : SubFacts.safe S m → store_ok S (gw_subs w) → on_gsubs m w = (r, w') → subs_only S w w'.
Proof.
  intros Hm Hw H. unfold on_gsubs, zoom in H. destruct (m (gw_subs w)) as [[a|e] s] eqn:E; injection H as _ <-;
    destruct (Hm _ _ _ Hw E); by split.
Qed.
Definition same_money (g g' : granted) : Prop :=
  gn_balance g' = gn_balance g ∧ gn_ledgerTxn g' = gn_ledgerTxn g ∧ gn_refund g' = gn_refund g.

Section Grant.
Context (W : GiftEnv) (k : GCall) (i : grantInput).
Lemma grant_days_Ok sub d g w g' w' : store_ok (ge_sub W) (gw_subs w) → grant_days W k i sub d g w = (Ok g', w') →
  subs_only (ge_sub W) w w' ∧ same_money g g'.
Proof.
  intros Hw H. unfold grant_days in H. destruct (0 <? d); [|by injection H as <- <-]. destruct (gt_permanent i); [by injection H as <- <-|].
  apply bind_Ok in H as (res & w1 & H1 & [= <- <-]). split; [|done]. eapply on_gsubs_only; [apply Extend_safe|done|exact H1].
Qed.
Lemma grant_reset_Ok sub b g w g' w' : store_ok (ge_sub W) (gw_subs w) → grant_reset W k i sub b g w = (Ok g', w') →
  subs_only (ge_sub W) w w' ∧ same_money g g'.
Proof.
  intros Hw H. unfold grant_reset in H. destruct b; [|by injection H as <- <-].
  apply bind_Ok in H as (res & w1 & H1 & [= <- <-]). split; [|done]. eapply on_gsubs_only; [apply ResetTraffic_safe|done|exact H1].
Qed.
Lemma grant_traffic_Ok sub n g w g' w' : store_ok (ge_sub W) (gw_subs w) → grant_traffic W k i sub n g w = (Ok g', w') →
  subs_only (ge_sub W) w w' ∧ same_money g g'.
Proof.
  intros Hw H. unfold grant_traffic in H. destruct (0 <? n); [|by injection H as <- <-].
  apply bind_Ok in H as (res & w1 & H1 & H). unfold gift_outcome in H1. destruct (on_gsubs _ w) as [r1 w2] eqn:E. injection H1 as <- <-.
  assert (Hs : subs_only (ge_sub W) w w2) by (eapply on_gsubs_only; [apply GrantBonus_safe|done|exact E]).
  destruct r1; [by injection H as <- <-|]. destruct (_ && _); [by injection H as <- <-|done].
Qed.

(** What was granted and paid for it. *)
Record grant_done (w w' : gworld) (g : granted) : Prop := {
  gd_cards : gw_cards w' = gw_cards w;
  gd_money : gift_paid (gt_codeID i) (gt_user i) (decPtr (gn_balance g)) (decPtr (gn_refund g)) (gn_ledgerTxn g) (gw_ledger w) (gw_ledger w');
  gd_subs : store_ok (ge_sub W) (gw_subs w') ∧ evolves (gw_subs w) (gw_subs w');
}.
Lemma decPtr_zero : decPtr dec_zero = None.
Proof. unfold decPtr. destruct (IsPositive_spec dec_zero) as [H|]; [|done]. rewrite dec_zero_val in H. lra. Qed.
Lemma decPtr_pos d : IsPositive d = true → decPtr d = Some d.
Proof. unfold decPtr. by intros ->. Qed.

Definition rewarded (g : granted) : Prop :=
  ∃ p reset label, reward_of k (gt_t i) = Ok (p, reset, label) ∧ decPtr (gn_balance g) = decPtr (pz_Balance p) ∧ decPtr (gn_refund g) = None.
Lemma grantReward_Ok who w g w' : good (gw_ledger w) → store_ok (ge_sub W) (gw_subs w) → grantReward W who k i w = (Ok g, w') →
  grant_done w w' g ∧ rewarded g.
Proof.
  intros Hl Hs H. unfold grantReward in H. apply bind_Ok in H as ([[p reset] label] & w0 & [Hr ->]%lift_Ok & H). cbv zeta in H.
  destruct (_ && _); [done|]. apply bind_Ok in H as (g1 & w1 & H1 & H). apply bind_Ok in H as (g2 & w2 & H2 & H).
  apply bind_Ok in H as (g3 & w3 & H3 & H). apply bind_Ok in H as (g4 & w4 & H4 & [= <- <-]).
  assert (Hbal : gw_cards w1 = gw_cards w ∧ gw_subs w1 = gw_subs w ∧ decPtr (gn_balance g1) = decPtr (pz_Balance p) ∧ decPtr (gn_refund g1) = None ∧
            gift_paid (gt_codeID i) (gt_user i) (decPtr (gn_balance g1)) None (gn_ledgerTxn g1) (gw_ledger w) (gw_ledger w1)).
  { unfold grant_balance in H1. destruct (IsPositive (pz_Balance p)) eqn:Ep.
    - apply bind_Ok in H1 as (txn & w1' & (l & HP & ->)%zoom_Ok & [= <- <-]). simpl. rewrite decPtr_zero, decPtr_pos by done. split_and!; try done.
      by eapply gift_posting_paid.
    - injection H1 as <- <-. simpl. rewrite decPtr_zero. unfold decPtr. rewrite Ep. split_and!; try done. by apply unpaid. }
  destruct Hbal as (Ec & Es & Eb & Er & Hp).
  apply grant_days_Ok in H2 as [S2 (B2 & T2 & R2)]; [|by rewrite Es]. apply grant_reset_Ok in H3 as [S3 (B3 & T3 & R3)]; [|apply S2].
  apply grant_traffic_Ok in H4 as [S4 (B4 & T4 & R4)]; [|apply S3]. pose proof (subs_trans _ _ _ _ (subs_trans _ _ _ _ S2 S3) S4) as [Fc Fl Fo Fe].
  assert (Hg : ∀ g', same_money g4 g' → grant_done w w4 g' ∧ rewarded g').
  { intros g' (B5 & T5 & R5). unfold rewarded. rewrite B5, R5, R4, R3, R2, B4, B3, B2. split.
    - split; [congruence| |rewrite Es in Fe; by split]. rewrite B5, T5, R5, T4, T3, T2, R4, R3, R2, B4, B3, B2, Fl, Er. done.
    - exists p, reset, label. done. }
  destruct (gn_summary g4); by apply Hg.
Qed.
Lemma grantPlan_Ok who w g w' : good (gw_ledger w) → store_ok (ge_sub W) (gw_subs w) → grantPlan W who k i w = (Ok g, w') → grant_done w w' g.
Proof.
  intros Hl Hs H. unfold grantPlan in H. destruct (rw_PlanID _) as [planID|]; [|done]. destruct (gt_opt i) as [opt|]; [|done].
  destruct (gt_prep i) as [[prep price]|]; [|done]. cbv zeta in H.
  assert (Hsub : ∀ w1 g', subs_only (ge_sub W) w w1 → gn_balance g' = dec_zero → gn_refund g' = dec_zero → grant_done w w1 g').
  { intros w1 g' [E1 E2 E3 E4] Eb Er. split; [done| |done]. rewrite Eb, Er, decPtr_zero, E2. by apply unpaid. }
  repeat case_match; try done.
  - apply bind_Ok in H as (x & w1 & Hx & [= <- <-]). apply Hsub; [|done|done]. eapply on_gsubs_only; [apply Provision_safe|done|exact Hx].
  - apply bind_Ok in H as (x & w1 & Hx & [= <- <-]). apply Hsub; [|done|done]. eapply on_gsubs_only; [apply Renew_safe|done|exact Hx].
  - apply bind_Ok in H as (x & w1 & Hx & [= <- <-]). apply Hsub; [|done|done]. eapply on_gsubs_only; [apply Stack_safe|done|exact Hx].
  - unfold grantPlanChange in H. apply bind_Ok in H as (x & w1 & Hx & H). cbv zeta in H.
    assert (S1 : subs_only (ge_sub W) w w1) by (eapply on_gsubs_only; [apply ChangePlan_safe|done|exact Hx]).
    destruct (IsPositive (pp_value prep)) eqn:Ep; [|injection H as <- <-; by apply Hsub].
    apply bind_Ok in H as (txn & w2 & (l & HP & ->)%zoom_Ok & [= <- <-]). destruct S1 as [E1 E2 E3 E4]. split; [done| |done]. simpl.
    rewrite decPtr_zero, decPtr_pos, <- E2 by done. eapply change_refund_paid; [by rewrite E2|exact HP].
Qed.
Lemma grant_Ok who w g w' : good (gw_ledger w) → store_ok (ge_sub W) (gw_subs w) → grant W who k i w = (Ok g, w') →
  grant_done w w' g ∧ (te_Type (gt_t i) ≠ TypePlan → rewarded g).
Proof.
  intros Hl Hs H. unfold grant in H. destruct (String.eqb_spec (te_Type (gt_t i)) TypePlan) as [E|E].
  - split; [by eapply grantPlan_Ok|done].
  - destruct (grantReward_Ok _ _ _ _ Hl Hs H). done.
Qed.
End Grant.
End GiftPaid.

Section GiftHistory.
Context `{DL : DecimalLib}.
Abbreviation WM := (M gworld gerr).

(** * Placing a card writes nothing *)

Abbreviation reads := (keeps (E := gerr) (λ _ : gworld, True) eq).
Lemma on_gsubs_reads {A} (m : M store serr A) : keeps (E := serr) (λ _, True) eq m → reads (on_gsubs m).
Proof. intros Hm w a w' _ (s & H & ->)%zoom_Ok. destruct (Hm _ _ _ I H) as [_ <-]. split; [done|]. by destruct w. Qed.
Lemma on_cards_reads {A} (m : M cards gerr A) : keeps (E := gerr) (λ _, True) eq m → reads (on_cards m).
Proof. intros Hm w a w' _ (s & H & ->)%zoom_Ok. destruct (Hm _ _ _ I H) as [_ <-]. split; [done|]. by destruct w. Qed.
Lemma lockOwned_reads id u : reads (on_gsubs (lockOwned id u)).
Proof. apply on_gsubs_reads. unfold lockOwned, loadSub. keeps_walk. Qed.
Lemma preparePlanTarget_reads W user t plan opt now : reads (preparePlanTarget W user t plan opt now).
Proof. unfold preparePlanTarget. keeps_walk; apply lockOwned_reads. Qed.
Lemma place_card_reads W user k now t choice : reads (place_card W user k now t choice).
Proof.
  unfold place_card. keeps_walk; first [apply preparePlanTarget_reads | apply on_gsubs_reads; unfold ByUser; keeps_walk].
Qed.
Lemma checkLimits_Ok user t w u w' : checkLimits user t w = (Ok u, w') → w' = w ∧
  (0 < te_MaxUsePerUser t → hits (of_user user (te_ID t)) (g_redemptions (gw_cards w)) < te_MaxUsePerUser t).
Proof.
  unfold checkLimits. intros (used & w1 & (s & [-> ->]%map_err_Ok%gets_Ok & ->)%zoom_Ok & H)%bind_Ok.
  destruct (_ && _) eqn:E; [done|]. injection H as _ <-. split; [by destruct w|]. intros Hm. apply Z.ltb_lt in Hm as Hb.
  rewrite Hb in E. simpl in E. apply Z.leb_gt in E. lia.
Qed.
Lemma loadTemplate_Ok W id w t w' : loadTemplate W id false w = (Ok t, w') → w' = w ∧ te_ID t = id.
Proof.
  unfold loadTemplate. intros (m & w1 & (s & [-> ->]%map_err_Ok%gets_Ok & ->)%zoom_Ok & H)%bind_Ok.
  destruct (List.find _ _) as [m|] eqn:E; [|done]. apply List.find_some in E as [_ E%N.eqb_eq].
  apply bind_Ok in H as (ps & w2 & (s2 & [-> ->]%map_err_Ok%gets_Ok & ->)%zoom_Ok & [= <- <-]). split; [by destruct w|done].
Qed.

(** * A successful redemption *)

Section Redeemed.
Context (W : GiftEnv) (k : GCall) (user : uuid).

Record redeemed_as (c : code_row) (t : Template) (g : granted) (w w' : gworld) : Prop := {
  rd_deleted : IsDeleted W user = Ok false;
  rd_code : c ∈ g_codes (gw_cards w) ∧ gc_Status c = CodeUnused ∧ is_expired (gk_now k) c = false;
  rd_template : loadTemplate W (gc_TemplateID c) false w = (Ok t, w) ∧ te_ID t = gc_TemplateID c ∧ te_Status t = TemplateActive;
  rd_conditions : checkConditions W user t = Ok ();
  rd_limit : 0 < te_MaxUsePerUser t → hits (of_user user (te_ID t)) (g_redemptions (gw_cards w)) < te_MaxUsePerUser t;
  rd_codes : g_codes (gw_cards w') =
    upd (code_at (gc_ID c) CodeUnused) (with_status CodeUsed (Some user) (Some (gk_now k))) (g_codes (gw_cards w));
  rd_redeemed : ∃ id, g_redemptions (gw_cards w') = (g_redemptions (gw_cards w) ++ [redemptionModel c t user g (gk_now k) id])%list;
  rd_money : gift_paid (gc_ID c) user (decPtr (gn_balance g)) (decPtr (gn_refund g)) (gn_ledgerTxn g) (gw_ledger w) (gw_ledger w');
  rd_subs : store_ok (ge_sub W) (gw_subs w') ∧ evolves (gw_subs w) (gw_subs w');
  rd_cards : cards_ok (gw_cards w') ∧ cards_life (gw_cards w) (gw_cards w');
  rd_reward : te_Type t ≠ TypePlan → ∃ p reset label, reward_of k t = Ok (p, reset, label) ∧
    decPtr (gn_balance g) = decPtr (pz_Balance p) ∧ decPtr (gn_refund g) = None;
}.
Definition same_elsewhere (w w' : gworld) : Prop :=
  gw_cards w' = gw_cards w ∧ gw_ledger w' = gw_ledger w ∧ gw_subs w' = gw_subs w.
Lemma completeIdem_elsewhere b res w u w' : completeIdem k b res w = (Ok u, w') → same_elsewhere w w'.
Proof.
  unfold completeIdem. destruct (gk_claim k); [|by intros [= _ <-]]. destruct b; [|done].
  by destruct res; intros (i & _ & ->)%zoom_Ok.
Qed.

Definition expired_mark (w w' : gworld) : Prop :=
  ∃ c F b s, c ∈ g_codes (gw_cards w) ∧ is_expired (gk_now k) c = true ∧ gc_Status c = CodeUnused ∧
    UpdateCodeStatus F (gc_ID c) CodeUnused CodeExpired None None (gw_cards w) = (Ok b, s) ∧ w' = put_cards s w.
(** What follows the change of the code's state. *)
Lemma redeem_tail who c t opt permanent prep i w w' out :
  good (gw_ledger w) → store_ok (ge_sub W) (gw_subs w) → cards_ok (gw_cards w) →
  (g ← grant W who k (mkGrantInput user (gc_ID c) t opt permanent prep (gk_now k));
   _ ← fk_cards W (λ F, InsertRedemption F (redemptionModel c t user g (gk_now k)));
   _ ← on_cards (card_audit ActionRedeemed (Some (gc_ID c)));
   _ ← lift (pluginGranted g);
   _ ← lift (EmitRedeemed W (gc_ID c) user t g);
   let out := grant_result t g in
   match ri_Reply i with
   | None => mret (Some out)
   | Some reply => _ ← completeIdem k (reply out) None; mret (Some out)
   end) w = (Ok out, w') →
  ∃ g, out = Some (grant_result t g) ∧
    gift_paid (gc_ID c) user (decPtr (gn_balance g)) (decPtr (gn_refund g)) (gn_ledgerTxn g) (gw_ledger w) (gw_ledger w') ∧
    (store_ok (ge_sub W) (gw_subs w') ∧ evolves (gw_subs w) (gw_subs w')) ∧
    (cards_ok (gw_cards w') ∧ cards_life (gw_cards w) (gw_cards w')) ∧
    g_codes (gw_cards w') = g_codes (gw_cards w) ∧
    (∃ id, g_redemptions (gw_cards w') = (g_redemptions (gw_cards w) ++ [redemptionModel c t user g (gk_now k) id])%list) ∧
    (te_Type t ≠ TypePlan → rewarded k (mkGrantInput user (gc_ID c) t opt permanent prep (gk_now k)) g).
Proof.
  intros Hl Hs Hc H. apply bind_Ok in H as (g & w1 & Hg & H). destruct (grant_Ok _ _ _ _ _ _ _ Hl Hs Hg) as [[E1 Hm Hsub] Hr].
  apply bind_Ok in H as (u & w2 & (s2 & Hi%map_err_Ok & ->)%zoom_Ok & H). rewrite E1 in Hi.
  destruct (InsertRedemption_life _ _ _ _ _ Hc Hi) as [Hc2 Hl2]. apply redemption_inserted in Hi as (-> & _).
  apply bind_Ok in H as (u2 & w3 & (s3 & [= _ <-] & ->)%zoom_Ok & H).
  apply bind_Ok in H as (u3 & w4 & [_ ->]%lift_Ok & H). apply bind_Ok in H as (u4 & w5 & [_ ->]%lift_Ok & H). cbv zeta in H.
  match type of H with _ ?w0 = _ => assert (Hend : out = Some (grant_result t g) ∧ same_elsewhere w0 w') end.
  { destruct (ri_Reply i); [|by injection H as <- <-]. by apply bind_Ok in H as (u5 & w6 & Hx%completeIdem_elsewhere & [= <- <-]). }
  destruct Hend as (-> & F1 & F2 & F3). exists g.
  rewrite F1, F2, F3. destruct Hc2, Hl2. split_and!; try done; try apply Hsub; [by split..|by eexists].
Qed.
Lemma found_code hash s c : List.find (λ c, bool_decide (gc_CodeHash c = hash)) (g_codes s) = Some c → c ∈ g_codes s ∧ gc_CodeHash c = hash.
Proof. intros [H1%list_elem_of_In H2%bool_decide_eq_true]%List.find_some. done. Qed.
Lemma redeem_body_Ok who hash i w out w' : gift_ok (ge_sub W) w → redeem_body W who k user hash i w = (Ok out, w') →
  match out with
  | None => expired_mark w w'
  | Some r => ∃ c t g, gc_CodeHash c = hash ∧ redeemed_as c t g w w' ∧ r = grant_result t g
  end.
Proof.
  intros [Hl Hs Hc _ _ _ _] H. unfold redeem_body in H. apply bind_Ok in H as (del & w0 & [Hdel ->]%lift_Ok & H). destruct del; [done|].
  apply bind_Ok in H as (oc & w1 & (s1 & [-> ->]%map_err_Ok%gets_Ok & ->)%zoom_Ok & H). replace (put_cards _ w) with w in H by (by destruct w).
  destruct (List.find _ _) as [c|] eqn:Ec; [|done]. apply found_code in Ec as [Hin Hhash].
  destruct (String.eqb_spec (gc_Status c) CodeUnused) as [Hst|]; [|done]. cbv zeta in H. simpl in H.
  destruct (is_expired _ c) eqn:Ex.
  - apply bind_Ok in H as (b & w2 & (s2 & H2%map_err_Ok & ->)%zoom_Ok & [= <- <-]). by exists c, (gift_refs_of W w), b, s2.
  - apply bind_Ok in H as (t & w2 & Hload & H). destruct (loadTemplate_Ok _ _ _ _ _ Hload) as [-> Ht]. destruct (String.eqb_spec (te_Status t) TemplateActive) as [Hact|]; [|done]. simpl in H.
    apply bind_Ok in H as ([] & w3 & [Hcond ->]%lift_Ok & H). apply bind_Ok in H as ([] & w4 & Hlim & H).
    assert (w4 = w ∧ (0 < te_MaxUsePerUser t → hits (of_user user (te_ID t)) (g_redemptions (gw_cards w)) < te_MaxUsePerUser t)) as [-> Hmax].
    { destruct (Z.ltb_spec 0 (te_MaxUsePerUser t)); [by apply checkLimits_Ok in Hlim|]. injection Hlim as <-. split; [done|lia]. }
    apply bind_Ok in H as ([[opt permanent] prep] & w5 & Hp & H). apply place_card_reads in Hp as [_ <-]; [|done].
    apply bind_Ok in H as (moved & w6 & (s6 & H6%map_err_Ok & ->)%zoom_Ok & H). destruct moved; [|done]. simpl in H.
    destruct (UpdateCodeStatus_life _ _ CodeUnused CodeUsed _ _ _ _ _ eq_refl Hc H6) as [Hc6 Hl6]. apply UpdateCodeStatus_Ok in H6 as (_ & -> & _).
    apply redeem_tail in H as (g & -> & Hm & Hsub & [Hc7 Hl7] & Hcodes & Hred & Hrew); [|done..].
    exists c, t, g. split_and!; [done| |done]. split; try done. split; [done|by etrans].
Qed.

(** It keeps the invariant. *)
Lemma redeemed_linked c t g w w' : redeemed_as c t g w w' → linked (gw_cards w) → linked (gw_cards w').
Proof.
  intros [_ (Hin & Hst & _) (_ & Ht & _) _ _ Hcodes [id Hred] _ _ [_ Hlife] _] [H1 H2]. unfold linked. rewrite Hred. split.
  - intros r [Hr| ->%list_elem_of_singleton]%elem_of_app.
    + destruct (H1 _ Hr) as (x & Hx & Hm). exists x. split; [|done]. eapply used_stays; [done..|]. left. apply Hm.
    + exists (with_status CodeUsed (Some user) (Some (gk_now k)) c). rewrite Hcodes. split; [|done].
      unfold upd. apply list_elem_of_fmap. exists c. split; [|done]. by rewrite (proj2 (code_at_true _ _ _)).
  - intros x Hx Hu. rewrite Hcodes in Hx. apply upd_in in Hx as (y & Hy & ->). destruct (code_at _ _ y) eqn:E.
    + apply code_at_true in E as [E _]. eexists. split; [apply elem_of_app; right; constructor|]. simpl. by symmetry.
    + destruct (H2 _ Hy Hu) as (r & Hr & Hid). exists r. split; [apply elem_of_app; by left|done].
Qed.
Lemma redeemed_keeps c t g w w' : gift_ok (ge_sub W) w → redeemed_as c t g w w' → batches_exist (gw_cards w') = true →
  gift_ok (ge_sub W) w' ∧ gift_to w w'.
Proof.
  intros [G1 G2 G3 G4 G5 G6 G7] HR Hb. pose proof (redeemed_linked _ _ _ _ _ HR G5) as Hlink.
  destruct HR as [_ _ _ _ _ _ [id Hred] [M1 M2 M3 M4 M5 M6] [S1 S2] [C1 C2] _]. split; [|by split].
  split; try done; rewrite Hred.
  - rewrite M4, over_add, G6. done.
  - intros r [Hr| ->%list_elem_of_singleton]%elem_of_app; [by eapply paid_extends; [|apply G7]|].
    intros b Hbal. simpl in *. destruct (M6 _ Hbal) as (txn & -> & Ht). by exists txn.
Qed.
Lemma mark_keeps w w' : gift_ok (ge_sub W) w → expired_mark w w' → batches_exist (gw_cards w') = true → gift_ok (ge_sub W) w' ∧ gift_to w w'.
Proof.
  intros Hw (c & F & b & s & Hc & _ & _ & H & ->) Hb. apply (UpdateCodeStatus_safe F _ CodeUnused CodeExpired) in H as [Hs Ht]; [|done|done|apply Hw].
  by apply tame_keeps.
Qed.
End Redeemed.

(** * The module's calls *)

Lemma Redeem_Ok W who k i w r w' : Redeem W false who k i w = (Ok r, w') → ∃ user code,
  portalUser who = Ok user ∧ normalizeCode (ri_Code i) = Some code ∧
  redeem_body W who k user (hashCode W code) i w = (Ok (Some r), w') ∧ batches_exist (gw_cards w') = true.
Proof.
  unfold Redeem. intros (user & w0 & [Hu ->]%lift_Ok & H)%bind_Ok. destruct (normalizeCode _) as [code|]; [|done].
  apply bind_Ok in H as (out & w1 & [H1 Hb]%gift_tx_Ok & H). destruct out as [x|]; [|done]. injection H as -> ->. eauto 6.
Qed.
(** A redemption that fails changes nothing, or marks the code as expired. *)
Lemma Redeem_Err W who k i w e w' : Redeem W false who k i w = (Err e, w') → w' = w ∨
  ∃ user code, normalizeCode (ri_Code i) = Some code ∧ e = GErrCodeUnusable ∧
    redeem_body W who k user (hashCode W code) i w = (Ok None, w') ∧ batches_exist (gw_cards w') = true.
Proof.
  unfold Redeem, mbind, M_bind, lift. destruct (portalUser who) as [user|]; [|intros [= _ <-]; by left].
  destruct (normalizeCode _) as [code|]; [|intros [= _ <-]; by left]. destruct (gift_tx _ _ w) as [[[x|]|x] w1] eqn:E; [done| |].
  - intros [= <- <-]. right. apply gift_tx_Ok in E as [E1 E2]. eauto 6.
  - intros [= _ <-]. left. by eapply gift_tx_Err.
Qed.
Lemma Redeem_keeps W who k i w r w' : gift_ok (ge_sub W) w → Redeem W false who k i w = (r, w') → gift_ok (ge_sub W) w' ∧ gift_to w w'.
Proof.
  intros Hw H. destruct r as [r|e].
  - apply Redeem_Ok in H as (user & code & _ & _ & H & Hb). apply redeem_body_Ok in H as (c & t & g & _ & HR & _); [|done]. by eapply redeemed_keeps.
  - apply Redeem_Err in H as [->|(user & code & _ & _ & H & Hb)]; [done|]. apply redeem_body_Ok in H; [|done]. by eapply mark_keeps.
Qed.

(** * Entries of other modules *)

Section Histories.
Context (audit_Write : audit_event → result lerr ()) (isDeleted : uuid → result lerr bool).

(** No other module books on the gift cards' expense. *)
Definition spares_gift (o : op) : Prop :=
  match o with OpPost _ p => gift_ref ∉ map leg_Account (p_Legs p) | _ => True end.
Definition undone {A} (m : M ledger lerr A) : Prop := ∀ l e l', m l = (Err e, l') → l' = l.
Lemma undone_lift {A B} (r : result lerr A) (f : A → M ledger lerr B) : (∀ a, undone (f a)) → undone (lift r ≫= f).
Proof. intros Hf l e l'. unfold mbind, M_bind, lift. destruct r; [apply Hf|by intros [= _ <-]]. Qed.
Lemma undone_tx {A} who (f : ctx → M ledger lerr A) : undone (DoL (mkCtx false who) f).
Proof. intros l e l'. apply Do_Err. Qed.
Lemma undone_fail {A} e : undone (fail e : M ledger lerr A).
Proof. by intros l e' l' [= _ <-]. Qed.
#[local] Instance promo_aside : Aside (λ t, t = PlatformPromoExpense).
Proof. intros t ->. by repeat constructor. Qed.
Lemma run_gift o l : good l → leaves_holds o → spares_gift o → (bal (run audit_Write isDeleted o l) gift_key == bal l gift_key)%Q.
Proof.
  assert (Hany : ∀ A (m : M ledger lerr A), undone m → (∀ a l', m l = (Ok a, l') → steady (λ t, t = PlatformPromoExpense) l l') →
            (bal (m l).2 gift_key == bal l gift_key)%Q).
  { intros A m Hm Hs. destruct (m l) as [[a|e] l'] eqn:E; [by apply (Hs _ _ eq_refl)|]. by rewrite (Hm _ _ _ E). }
  intros Hl Hh Ho. destruct o as [who p|who i|who o memo|who i|who p|who a]; simpl.
  - destruct (Post (mkCtx false who) p l) as [[id|e] l'] eqn:E; simpl.
    + destruct (Post_facts _ _ _ _ _ Hh Hl E) as (_ & HP & _). rewrite (po_bal _ _ _ _ _ HP), delta_on_none by done. lra.
    + unfold Post in E. destruct (Dedicated _); [by injection E as _ <-|]. by apply undone_tx in E as ->.
  - apply Hany; [apply undone_lift; intros; apply undone_tx|]. intros; by eapply HoldForOrder_steady; [apply _| |].
  - apply Hany; [apply undone_tx|]. intros; by eapply ReleaseOrderHold_steady; [apply _| |].
  - apply Hany; [apply undone_lift; intros; apply undone_tx|]. intros; by eapply CaptureFromBalance_steady; [apply _| |].
  - apply Hany; [apply undone_lift; intros; apply undone_tx|]. intros; by eapply PostOrderPaid_steady; [apply _| |].
  - apply Hany; [|intros; eapply AdjustBalance_steady; [apply _|apply Hl|done]]. apply undone_lift. intros pr. destruct (negb _); [apply undone_fail|].
    destruct (_ =? _)%N; [apply undone_fail|]. apply undone_lift. intros; apply undone_tx.
Qed.

(** * Histories *)

Context (S : Env).
Inductive gift_step (w : gworld) : gworld → Prop :=
| gs_save W who k i : gift_step w (SaveTemplate W false who k i w).2
| gs_generate W who k i : gift_step w (GenerateCodes W false who k i w).2
| gs_export W who k id : gift_step w (ExportBatch W false who k id w).2
| gs_toggle W who id disabled : gift_step w (ToggleCode W false who id disabled w).2
| gs_redeem W who k i : ge_sub W = S → gift_step w (Redeem W false who k i w).2
| gs_ledger o : leaves_holds o → spares_gift o → gift_step w (put_gledger (run audit_Write isDeleted o (gw_ledger w)) w)
| gs_users us : users (gw_ledger w) ⊆ us → gift_step w (put_gledger (with_users us (gw_ledger w)) w)
| gs_subs s : sub_step S (gw_subs w) s → gift_step w (put_gsubs s w)
| gs_idem x : gift_step w (put_idem x w).
Definition gift_start (us : gset uuid) (n : uuid) (x : idem) : gworld := mkGWorld empty_cards (mkLedger ∅ [] [] ∅ [] us n) empty_store x.
Definition gift_reach (w : gworld) : Prop := ∃ us n x, rtc gift_step (gift_start us n x) w.

Lemma gift_start_ok us n x : gift_ok S (gift_start us n x).
Proof.
  split; simpl; try done; [apply reachable_good with audit_Write isDeleted; constructor|apply empty_store_ok|..|set_solver].
  - split; simpl; try set_solver; split_and?; try constructor; set_solver.
  - split; set_solver.
Qed.
Lemma calls {A} (m : WM A) w : commits m → gift_ok S w → gift_ok S (m w).2 ∧ gift_to w (m w).2.
Proof. intros Hm Hw. destruct (m w) as [r w'] eqn:E. by eapply Hm. Qed.
Lemma gift_step_keeps w w' : gift_ok S w → gift_step w w' → gift_ok S w' ∧ gift_to w w'.
Proof.
  intros Hw H. destruct H as [W who k i|W who k i|W who k id|W who id d|W who k i E|o Hh Ho|us Hus|s Hs|x].
  - apply calls; [apply SaveTemplate_commits|done].
  - apply calls; [apply GenerateCodes_commits|done].
  - apply calls; [apply ExportBatch_commits|done].
  - apply calls; [apply ToggleCode_commits|done].
  - destruct (Redeem W false who k i w) as [r w'] eqn:Er. subst S. by eapply Redeem_keeps.
  - destruct Hw as [G1 G2 G3 G4 G5 G6 G7]. pose proof (run_extends audit_Write isDeleted o _ (proj1 G1)) as He. split; [split; try done; simpl|by split].
    + by apply run_good.
    + by rewrite run_gift.
    + intros r Hr. eapply paid_extends; [done|by apply G7].
  - destruct Hw as [[Hok Hho] G2 G3 G4 G5 G6 G7]. split; split; try done; simpl.
    + split; [destruct Hok|destruct Hho]; by split.
    + split; try done. intros o h Hx. by exists h.
  - destruct (sub_step_safe _ _ _ (go_subs _ _ Hw) Hs) as [Hs' He]. destruct Hw. split; by split.
  - destruct Hw. split; by split.
Qed.
Lemma gift_history w w' : gift_ok S w → rtc gift_step w w' → gift_ok S w' ∧ gift_to w w'.
Proof. apply (history_keeps (gift_ok S) gift_to). intros. by apply gift_step_keeps. Qed.
Lemma gift_reach_ok w : gift_reach w → gift_ok S w.
Proof. intros (us & n & x & H). by eapply gift_history; [apply gift_start_ok|]. Qed.
End Histories.
End GiftHistory.
