(* ===== verification/GiftThms.v ===== *)
(** What generating a batch stores and what exporting it returns.

    What gift cards promise: codes and redemptions agree at every moment, the
    money given out is the ledger's, a redemption does exactly what its card
    says and only once, a batch's codes can be typed and are exported once, and
    prizes are drawn by their weights. *)
From Stdlib Require Import ZArith QArith Lqa Lia.
From stdpp Require Import base tactics list gmap strings sorting relations.
From S2P Require Import Prelude Safety Decimal GoString Money LedgerTypes LedgerFacts Ledger LedgerInv LedgerOps LedgerSettle GoTime Promo Period.
From S2P Require Import OrderAmounts Proration SubTypes SubStore SubFacts Subscription SubHistory OrderStore OrderFlow OrderInv PayStore PayFlow Idem.
From S2P Require Import Gift GiftCodes GiftStore GiftFlow GiftRedeem GiftInv GiftHistory.
#[local] Open Scope string_scope.
#[local] Open Scope Z_scope.

Section GiftBatch.
Context `{DL : DecimalLib}.
Abbreviation WM := (M gworld gerr).

(** * Drawing codes *)

Definition proper_code (c : string) : Prop := clean c ∧ minCodeLen ≤ blen c ≤ maxCodeLen.
(** Codes drawn on top of [codes]: fresh, all different, remembered. *)
Record drawn (need : nat) (seen : gset string) (codes : list string) (seen' : gset string) : Prop := {
  dr_length : length codes = need;
  dr_nodup : NoDup codes;
  dr_new : ∀ c, c ∈ codes → c ∉ seen;
  dr_seen : seen' = list_to_set codes ∪ seen;
  dr_proper : Forall proper_code codes;
}.
(** The fuel of the loop is enough: every code takes a read, so beyond their
    number more of it changes nothing. *)
Lemma random_part_le reads : ∀ out r reads', random_part reads out = Some (r, reads') → (length reads' ≤ length reads)%nat.
Proof.
  induction reads as [|buf reads IH]; intros out r reads' H; cbn [random_part] in H; destruct (Nat.ltb _ _); try done; try by injection H as _ <-.
  apply IH in H. simpl. lia.
Qed.
Lemma newCode_reads prefix reads c reads' : newCode prefix reads = Some (c, reads') → (length reads' < length reads)%nat.
Proof.
  unfold newCode. destruct reads as [|buf reads]; [done|]. change (random_part (buf :: reads) []) with (random_part reads (take_chars buf [])).
  destruct (random_part reads _) as [[r reads1]|] eqn:E; [|done]. intros [= _ <-]. apply random_part_le in E. simpl. lia.
Qed.
Lemma draw_codes_fuel prefix need fuel : ∀ fuel' seen reads codes, (length reads < fuel)%nat → (length reads < fuel')%nat →
  draw_codes fuel prefix need seen reads codes = draw_codes fuel' prefix need seen reads codes.
Proof.
  induction fuel as [|fuel IH]; intros [|fuel'] seen reads codes H1 H2; [lia..|]. cbn [draw_codes]. destruct (Nat.ltb _ _); [|done].
  destruct (newCode prefix reads) as [[c reads1]|] eqn:E; [|done]. apply newCode_reads in E. destruct (bool_decide _); apply IH; lia.
Qed.
Lemma draw_codes_Ok prefix need seen0 : clean prefix → blen prefix ≤ maxPrefixLen → ∀ fuel seen reads codes r seen' reads',
  (length codes ≤ need)%nat → drawn (length codes) seen0 codes seen → draw_codes fuel prefix need seen reads codes = Some (r, seen', reads') →
  drawn need seen0 r seen'.
Proof.
  intros Hp Hpl fuel. induction fuel as [|fuel IH]; intros seen reads codes r seen' reads' Hl Hd; cbn [draw_codes];
    destruct (Nat.ltb_spec (length codes) need) as [Hlt|Hge]; try done.
  - intros [= <- <- <-]. by replace need with (length codes) by lia.
  - destruct (newCode prefix reads) as [[c reads1]|] eqn:En; [|done]. destruct (newCode_clean _ _ _ _ Hp Hpl En) as (Hc & _ & Hcl).
    destruct (bool_decide_reflect (c ∈ seen)) as [Hin|Hout]; [by apply IH|]. apply IH; rewrite ?length_app; simpl; [lia|].
    destruct Hd as [_ H1 H2 -> H4]. split; [by rewrite length_app| | |set_solver|by apply Forall_app_2; [|constructor]].
    + apply NoDup_app. split_and!; [done| |apply NoDup_singleton]. set_solver.
    + set_solver.
  - intros [= <- <- <-]. by replace need with (length codes) by lia.
Qed.

(** * Rows in the table *)

Lemma insert_codes_from F rows : ∀ s u s', insert_codes F rows s = (Ok u, s') → ∀ x, x ∈ g_codes s' → x ∈ g_codes s ∨ x ∈ rows.
Proof.
  induction rows as [|c rows IH]; intros s u s' H x Hx; simpl in H; [injection H as _ <-; by left|].
  apply bind_Ok in H as (v & s1 & [[_ ->]|(_ & _ & _ & ->)]%insert_codes_step & H).
  - destruct (IH _ _ _ H x Hx); [by left|right; by constructor].
  - destruct (IH _ _ _ H x Hx) as [Hy|Hy]; [|right; by constructor]. simpl in Hy. apply elem_of_app in Hy as [Hy|Hy]; [by left|].
    apply list_elem_of_singleton in Hy as ->. right. constructor.
Qed.
Lemma kept_sublist ins rows : ∀ codes, kept_codes ins rows codes `sublist_of` codes.
Proof.
  induction rows as [|r rows IH]; intros [|c codes]; unfold kept_codes; simpl; try apply sublist_nil_l.
  destruct (ins (gc_ID r)); [by apply sublist_skip, IH|by apply sublist_cons, IH].
Qed.
Lemma combine_lookup {A B} (l : list A) : ∀ (m : list B) j x y, combine l m !! j = Some (x, y) → l !! j = Some x ∧ m !! j = Some y.
Proof. induction l as [|a l IH]; intros [|b m] [|j] x y Hj; simpl in *; try done; [by injection Hj as -> ->|by apply IH]. Qed.
Lemma kept_in ins rows codes c : c ∈ kept_codes ins rows codes → ∃ j r, rows !! j = Some r ∧ codes !! j = Some c ∧ ins (gc_ID r) = true.
Proof.
  intros ((r & d) & Hin & E)%list_elem_of_omap. simpl in E. destruct (ins (gc_ID r)) eqn:Ei; [|done]. injection E as ->.
  apply list_elem_of_lookup in Hin as (j & [H1 H2]%combine_lookup). eauto.
Qed.
(** Code [c] of the batch is in the table. *)
Definition has_code (W : GiftEnv) (tid bid : uuid) (expires : option Time) (s : cards) (c : string) : Prop :=
  ∃ r, r ∈ g_codes s ∧ gc_CodeHash r = hashCode W c ∧ gc_BatchID r = bid ∧ gc_TemplateID r = tid ∧ gc_ExpiresAt r = expires ∧ gc_CodeMask r = MaskCode c.
Lemma has_code_life W tid bid expires s s' c : cards_life s s' → has_code W tid bid expires s c → has_code W tid bid expires s' c.
Proof.
  intros Hl (r & Hr & H). destruct (rows_in _ _ _ _ (cl_codes _ _ Hl) Hr) as (y & Hy & Ht & _). exists y. split; [done|].
  unfold code_terms in Ht. injection Ht as _ E2 E3 E4 E5 E6 _. by rewrite E2, E3, E4, E5, E6.
Qed.

Section Rounds.
Context (W : GiftEnv) (k : GCall) (tid bid : uuid) (prefix : string) (count : nat) (expires : option Time).
Context (Hprefix : clean prefix) (Hlen : blen prefix ≤ maxPrefixLen).
Record kept_so_far (w : gworld) (plain : list string) (seen : gset string) : Prop := {
  ks_nodup : NoDup plain;
  ks_seen : ∀ c, c ∈ plain → c ∈ seen;
  ks_proper : Forall proper_code plain;
  ks_rows : ∀ c, c ∈ plain → has_code W tid bid expires (gw_cards w) c;
}.
Lemma insert_rows_kept codes w rows w1 ins w2 : cards_ok (gw_cards w) →
  on_cards (code_rows W tid bid expires (gk_db k) codes) w = (Ok rows, w1) → fk_cards W (λ F, InsertCodes F rows) w1 = (Ok ins, w2) →
  ∀ c, c ∈ kept_codes ins rows codes → has_code W tid bid expires (gw_cards w2) c.
Proof.
  intros Hw (s1 & H1 & ->)%zoom_Ok (s2 & H2%map_err_Ok & ->)%zoom_Ok c (j & r & Hj & Hc & Hi)%kept_in. rewrite code_rows_eq in H1. injection H1 as <- <-.
  unfold InsertCodes in H2. apply bind_Ok in H2 as (u & s3 & H2 & [-> ->]%gets_Ok). simpl in H2. apply andb_true_iff in Hi as [_ Hi].
  apply existsb_true in Hi as (x & Hx & Ex%N.eqb_eq). unfold rows_for in Hj. rewrite list_lookup_imap, Hc in Hj. injection Hj as <-. simpl in Ex.
  exists x. split; [done|]. destruct (insert_codes_from _ _ _ _ _ H2 x Hx) as [Hold|Hnew].
  - apply (ck_fresh _ Hw) in Hold. lia.
  - apply list_elem_of_lookup in Hnew as (m & Hm). unfold rows_for in Hm. rewrite list_lookup_imap in Hm.
    destruct (codes !! m) as [d|] eqn:Ed; [|done]. injection Hm as <-. simpl in *. assert (m = j) as -> by lia. by simplify_eq.
Qed.
Lemma insert_rounds_Ok rounds : ∀ plain seen reads w r w', cards_ok (gw_cards w) → (length plain ≤ count)%nat → kept_so_far w plain seen →
  insert_rounds W k tid bid prefix count expires rounds plain seen reads w = (Ok r, w') →
  length r = count ∧ ∃ seen', kept_so_far w' r seen'.
Proof.
  induction rounds as [|n IH]; intros plain seen reads w r w' Hw Hl Hk; cbn [insert_rounds];
    destruct (Nat.ltb_spec (length plain) count) as [Hlt|Hge]; try done.
  - intros [= <- <-]. split; [lia|by exists seen].
  - destruct (draw_codes _ _ _ _ _ _) as [[[codes seen1] reads1]|] eqn:Ed; [|done].
    apply (draw_codes_Ok _ _ seen) in Ed as [D1 D2 D3 -> D5]; [|done|done|simpl; lia|split; simpl; [done|constructor|set_solver|set_solver|constructor]].
    intros H. apply bind_Ok in H as (rows & w1 & H1 & H). apply bind_Ok in H as (ins & w2 & H2 & H).
    pose proof (insert_rows_kept _ _ _ _ _ _ Hw H1 H2) as Hkept. pose proof (kept_sublist ins rows codes) as Hsub.
    destruct (insert_rows_calm W k tid bid expires codes w (rows, ins) w2 Hw) as [Hw2 Ht].
    { unfold mbind, M_bind. by rewrite H1, H2. }
    eapply IH; [exact Hw2| | |exact H].
    + rewrite length_app. apply sublist_length in Hsub. lia.
    + assert (Hin : ∀ c, c ∈ kept_codes ins rows codes → c ∈ codes) by (intros; by eapply elem_of_sublist).
      destruct Hk as [K1 K2 K3 K4]. split.
      * apply NoDup_app. split_and!; [done|set_solver|by eapply sublist_NoDup].
      * set_solver.
      * apply Forall_app_2; [done|]. apply Forall_forall. intros c Hc. eapply Forall_forall; [exact D5|auto].
      * intros c [Hc|Hc]%elem_of_app; [|auto]. eapply has_code_life; [|by apply K4]. apply Ht.
  - intros [= <- <-]. split; [lia|by exists seen].
Qed.
End Rounds.

(** * Generating *)

Lemma batchView_reads W id w v w' : batchView W id w = (Ok v, w') → w' = w.
Proof.
  intros H. assert (Hr : keeps (E := gerr) (λ _ : gworld, True) eq (batchView W id)).
  { unfold batchView. keeps_walk. apply on_cards_reads, keeps_map_err, keeps_gets, _. }
  by destruct (Hr _ _ _ I H) as [_ <-].
Qed.
Lemma CreateBatch_Ok F b s u s' : CreateBatch F b s = (Ok u, s') → s' = set_batches (λ l, l ++ [b])%list s.
Proof. unfold CreateBatch. repeat case_match; try done. by intros [= _ <-]. Qed.
(** What a batch just made looks like. *)
Record made (W : GiftEnv) (i : GenerateInput) (out : Generated) (w : gworld) (plain : list string) : Prop := {
  md_length : Z.of_nat (length plain) = gi_Count i ∧ gd_Count out = gi_Count i;
  md_nodup : NoDup plain;
  md_proper : Forall proper_code plain;
  md_sample : gd_Sample out = take generateSampleSize plain;
  md_rows : ∀ c, c ∈ plain → has_code W (gi_TemplateID i) (gd_BatchID out) ((λ e, Truncate e Microsecond) <$> gi_ExpiresAt i) (gw_cards w) c;
  md_batch : ∃ b sealed, b ∈ g_batches (gw_cards w) ∧ bt_ID b = gd_BatchID out ∧ bt_ExportedAt b = None ∧ bt_CodesSealed b = Some sealed ∧
    SealCodes W (encodeCodes plain) (batchAAD (bt_ID b)) = Some sealed;
}.
Lemma generate_fine now i : generate_problems now i = [] → 1 ≤ gi_Count i ≤ maxGenerateCount ∧
  ∃ q, normalizePrefix (gi_Prefix i) = Some q ∧ clean q ∧ blen q ≤ maxPrefixLen.
Proof.
  unfold generate_problems. destruct (_ || _) eqn:E; [done|]. apply orb_false_iff in E as [?%Z.ltb_ge ?%Z.ltb_ge]. split; [lia|].
  destruct (normalizePrefix _) as [q|] eqn:Ep; [|done]. exists q. split; [done|]. by eapply normalizePrefix_clean.
Qed.
Lemma GenerateCodes_Ok W who k i S w out w' : gift_ok S w → GenerateCodes W false who k i w = (Ok out, w') → ∃ plain, made W i out w' plain.
Proof.
  intros Hw H. unfold GenerateCodes in H. apply bind_Ok in H as (p & w0 & [_ ->]%lift_Ok & H).
  destruct (generate_problems _ _) eqn:Ep; [|done]. apply generate_fine in Ep as [Hn (q & Hq & Hqc & Hql)]. rewrite Hq in H. cbn [default] in H.
  apply gift_tx_Ok in H as [H _]. apply bind_Ok in H as (ot & w1 & (s1 & [-> ->]%map_err_Ok%gets_Ok & ->)%zoom_Ok & H).
  replace (put_cards (gw_cards w) w) with w in H by (by destruct w). destruct (List.find _ _) as [t|] eqn:Et; [|done].
  apply List.find_some in Et as [_ Et%N.eqb_eq]. destruct (String.eqb _ _); [done|].
  apply bind_Ok in H as (bid & w2 & (s2 & [= <- <-] & ->)%zoom_Ok & H).
  apply bind_Ok in H as (plain & w3 & H3 & H). destruct (bump_ok _ (go_cards _ _ Hw)) as [Hb _].
  unfold insertCodes in H3. apply insert_rounds_Ok in H3 as [Hl (seen & [K1 K2 K3 K4])]; [|done|done|done|cbn [length]; lia|split; [constructor|set_solver|constructor|set_solver]].
  destruct (SealCodes _ _ _) as [sealed|] eqn:Es; [|done].
  apply bind_Ok in H as (u & w4 & (s4 & ->%map_err_Ok%CreateBatch_Ok & ->)%zoom_Ok & H).
  apply bind_Ok in H as (v & w5 & ->%batchView_reads & H). cbv zeta in H.
  apply bind_Ok in H as (u2 & w6 & (s6 & [= _ <-] & ->)%zoom_Ok & H).
  match type of H with _ ?w0 = _ => assert (Hend : out = mkGenerated (g_next (gw_cards w)) (gi_Count i) (take generateSampleSize plain) v ∧ same_elsewhere w0 w') end.
  { destruct (gi_Reply i); [|by injection H as <- <-]. by apply bind_Ok in H as (u5 & w7 & Hx%completeIdem_elsewhere & [= <- <-]). }
  destruct Hend as (-> & F1 & _). exists plain. split; try done.
  - simpl. rewrite Hl. split; [lia|done].
  - intros c Hc. rewrite F1, <- Et. exact (K4 c Hc).
  - rewrite F1. eexists _, sealed. simpl. split; [apply elem_of_app; right; constructor|]. done.
Qed.

(** * Exporting *)

Lemma export_rows_Ok W states name plain rows : export_rows W states name plain = Ok rows → map xr_Code rows = plain ∧
  ∀ r, r ∈ rows → ∃ c, c ∈ states ∧ gc_CodeHash c = hashCode W (xr_Code r) ∧ gc_Status c = xr_Status r ∧ gc_ExpiresAt c = xr_ExpiresAt r.
Proof.
  revert rows. induction plain as [|c plain IH]; intros rows H; simpl in H; [by injection H as <-; set_solver|].
  destruct (by_hash states _) as [st|] eqn:Eb; [|done]. apply result_bind_ok in H as (rest & Hr & [= <-]). destruct (IH _ Hr) as [E1 E2].
  split; [simpl; by rewrite E1|]. intros r [->|Hin]%elem_of_cons; [|by apply E2]. exists st. unfold by_hash in Eb.
  apply List.find_some in Eb as [Hst%in_rev%list_elem_of_In Hh%bool_decide_eq_true]. done.
Qed.
Lemma ExportBatch_Ok W who k id w view rows w' : ExportBatch W false who k id w = (Ok (view, rows), w') → ∃ b sealed raw by_,
  b ∈ g_batches (gw_cards w) ∧ bt_ID b = id ∧ bt_ExportedAt b = None ∧ bt_CodesSealed b = Some sealed ∧
  OpenCodes W sealed (batchAAD id) = Some raw ∧ map xr_Code rows = decodeCodes raw ∧
  (∀ r, r ∈ rows → ∃ c, c ∈ g_codes (gw_cards w) ∧ gc_BatchID c = id ∧ gc_CodeHash c = hashCode W (xr_Code r) ∧
     gc_Status c = xr_Status r ∧ gc_ExpiresAt c = xr_ExpiresAt r) ∧
  g_batches (gw_cards w') = upd (unexported id) (exported_by by_ (gk_now k)) (g_batches (gw_cards w)).
Proof.
  intros H. unfold ExportBatch in H. apply bind_Ok in H as (p & w0 & [_ ->]%lift_Ok & H). apply gift_tx_Ok in H as [H _].
  apply bind_Ok in H as (ob & w1 & (s1 & [-> ->]%map_err_Ok%gets_Ok & ->)%zoom_Ok & H). replace (put_cards (gw_cards w) w) with w in H by (by destruct w).
  destruct (List.find _ _) as [b|] eqn:Eb; [|done]. apply List.find_some in Eb as [Hb%list_elem_of_In Eb%N.eqb_eq]. subst id. cbv zeta in H.
  destruct (bt_ExportedAt b) eqn:Ee; [done|]. simpl in H. destruct (bt_CodesSealed b) as [sealed|] eqn:Es; [|done]. simpl in H.
  destruct (Nat.eqb _ 0); [done|]. destruct (OpenCodes _ _ _) as [raw|] eqn:Eo; [|done].
  apply bind_Ok in H as (states & w2 & (s2 & [-> ->]%map_err_Ok%gets_Ok & ->)%zoom_Ok & H). replace (put_cards (gw_cards w) w) with w in H by (by destruct w).
  apply bind_Ok in H as (ok & w3 & (s3 & H3%map_err_Ok & ->)%zoom_Ok & H). unfold MarkBatchExported in H3. destruct (_ && _); [done|]. injection H3 as <- <-.
  destruct (negb _); [done|]. apply bind_Ok in H as (v & w4 & ->%batchView_reads & H). apply bind_Ok in H as (rs & w5 & [Hr ->]%lift_Ok & H).
  apply bind_Ok in H as (u2 & w6 & (s6 & [= _ <-] & ->)%zoom_Ok & H).
  match type of H with _ ?w0 = _ => assert (Hend : rows = rs ∧ gw_cards w' = gw_cards w0) end.
  { destruct (gk_claim k); [|by injection H as _ <- <-]. by apply bind_Ok in H as (u5 & w7 & (x & _ & ->)%zoom_Ok & [= _ <- <-]). }
  destruct Hend as [-> F1]. apply export_rows_Ok in Hr as [E1 E2]. exists b, sealed, raw, (pr_UserID p). split_and!; try done.
  - intros r Hin. destruct (E2 _ Hin) as (c & Hc & Hrest). exists c. rewrite merge_sort_Permutation in Hc.
    apply elem_of_filter_bool in Hc as [Hi%N.eqb_eq Hc]. split_and!; try done; apply Hrest.
  - by rewrite F1.
Qed.
End GiftBatch.

Lemma hits_single {A} (hit : A → bool) l : (∃ x, x ∈ l ∧ hit x = true) →
  (∀ i j x y, l !! i = Some x → l !! j = Some y → hit x = true → hit y = true → i = j) → hits hit l = 1.
Proof.
  unfold hits. intros (x & Hx & Hh) Hu. apply list_elem_of_split in Hx as (a & b & ->). rewrite List.filter_app. simpl. rewrite Hh, length_app. simpl.
  assert (Hone : ∀ i y, (a ++ x :: b)%list !! i = Some y → hit y = true → i = length a).
  { intros i y Hi Hy. apply (Hu i (length a) y x); [done| |done|done]. by rewrite lookup_app_r, Nat.sub_diag. }
  assert (Ea : List.filter hit a = []).
  { destruct (List.filter hit a) as [|y l] eqn:E; [done|]. assert (Hy : y ∈ List.filter hit a) by (rewrite E; constructor).
    apply elem_of_filter_bool in Hy as [Hy (i & Hi)%list_elem_of_lookup]. apply lookup_lt_Some in Hi as Hlt.
    assert (i = length a); [|lia]. apply (Hone i y); [by rewrite lookup_app_l|done]. }
  assert (Eb : List.filter hit b = []).
  { destruct (List.filter hit b) as [|y l] eqn:E; [done|]. assert (Hy : y ∈ List.filter hit b) by (rewrite E; constructor).
    apply elem_of_filter_bool in Hy as [Hy (i & Hi)%list_elem_of_lookup].
    assert ((length a + S i)%nat = length a); [|lia]. apply (Hone _ y); [|done]. rewrite lookup_app_r by lia. by replace (length a + S i - length a)%nat with (S i) by lia. }
  rewrite Ea, Eb. done.
Qed.
Lemma hits_key {A} (f : A → uuid) l id : NoDup (map f l) → (∃ x, x ∈ l ∧ f x = id) → hits (λ x, (f x =? id)%N) l = 1.
Proof.
  intros Hn (x & Hx & E). apply hits_single; [exists x; by rewrite N.eqb_eq|]. intros i j y z Hi Hj Hy%N.eqb_eq Hz%N.eqb_eq.
  eapply (NoDup_lookup _ _ _ id Hn); rewrite list_lookup_fmap, ?Hi, ?Hj; simpl; by f_equal.
Qed.
Lemma hits_none {A} (hit : A → bool) l : (∀ x, x ∈ l → hit x = false) → hits hit l = 0.
Proof.
  unfold hits. intros H. destruct (List.filter hit l) as [|y r] eqn:E; [done|]. assert (Hy : y ∈ List.filter hit l) by (rewrite E; constructor).
  apply elem_of_filter_bool in Hy as [Hy Hin]. by rewrite H in Hy.
Qed.

Section GiftThms.
Context `{DL : DecimalLib}.
Context (audit_Write : audit_event → result lerr ()) (isDeleted : uuid → result lerr bool) (S : Env).
Abbreviation step := (gift_step audit_Write isDeleted S).
Abbreviation reach := (gift_reach audit_Write isDeleted S).

(** * Codes and redemptions *)

Lemma code_used_check c : code_check c = true → String.eqb (gc_Status c) CodeUsed = negb (is_none (gc_UsedBy c)).
Proof. unfold code_check, code_shape. rewrite !andb_true_iff, !eqb_true_iff. tauto. Qed.
Lemma no_mismatch s : cards_ok s → linked s → RedemptionMismatchRows s = [].
Proof.
  intros Hs [H1 H2]. unfold RedemptionMismatchRows. destruct (List.filter (mismatch s) (g_codes s)) as [|c l] eqn:E; [done|]. exfalso.
  assert (Hc : c ∈ List.filter (mismatch s) (g_codes s)) by (rewrite E; constructor). apply elem_of_filter_bool in Hc as [Hm Hc].
  unfold mismatch in Hm. apply orb_true_iff in Hm as [Hm|Hm].
  - apply andb_true_iff in Hm as [Hu Hn%negb_true_iff]. rewrite <- code_used_check in Hu by (by apply (ck_codes _ Hs)). apply String.eqb_eq in Hu.
    destruct (H2 _ Hc Hu) as (r & Hr & Er). rewrite existsb_false in Hn. specialize (Hn _ Hr). by rewrite Er, N.eqb_refl in Hn.
  - apply existsb_true in Hm as (r & Hr & [Er%N.eqb_eq Hb]%andb_true_iff). destruct (H1 _ Hr) as (x & Hx & Ex & Est & Eby & _).
    assert (x = c) as ->. { eapply (NoDup_map_inj gc_ID); [apply (ck_codes _ Hs)|done..|congruence]. }
    rewrite Est, Eby, bool_decide_eq_true_2 in Hb by done. by rewrite String.eqb_refl in Hb.
Qed.

(** C21: codes follow their life.  Over every history of the module's calls, with
    the ledger, the subscriptions and the idempotency keys changing between them,
    the integrity check of codes against redemptions finds nothing; a code has
    one redemption if it is used and none otherwise; redemptions are only added;
    a code keeps its place, template, batch, hash, mask and expiry, its status
    moves only along the transition table, and used or expired codes never
    change again. *)
Theorem codes_follow_life w w' : reach w → rtc step w w' →
  RedemptionMismatchRows (gw_cards w') = [] ∧
  (∀ c, c ∈ g_codes (gw_cards w') →
     hits (λ r, (gr_CodeID r =? gc_ID c)%N) (g_redemptions (gw_cards w')) = if String.eqb (gc_Status c) CodeUsed then 1 else 0) ∧
  g_redemptions (gw_cards w) `prefix_of` g_redemptions (gw_cards w') ∧
  (∀ n c, g_codes (gw_cards w) !! n = Some c → ∃ c', g_codes (gw_cards w') !! n = Some c' ∧ code_terms c' = code_terms c ∧
     rtc (λ a b, CanTransition a b = true) (gc_Status c) (gc_Status c') ∧ (gc_Status c = CodeUsed ∨ gc_Status c = CodeExpired → c' = c)).
Proof.
  intros Hw Hs. apply gift_reach_ok in Hw. destruct (gift_history _ _ _ _ _ Hw Hs) as [Hw' [[L1 _ L3 _] _ _]]. split_and!; [|..|done|done].
  - apply no_mismatch; apply Hw'.
  - destruct (go_linked _ _ Hw') as [H1 H2]. pose proof (go_cards _ _ Hw') as Hc'. intros c Hc. destruct (String.eqb_spec (gc_Status c) CodeUsed) as [E|E].
    + apply hits_key; [apply (ck_redeemed _ Hc')|by apply H2].
    + apply hits_none. intros r Hr. apply N.eqb_neq. intros Er. destruct (H1 _ Hr) as (x & Hx & Ex & Est & _).
      assert (x = c) as ->; [|done]. eapply (NoDup_map_inj gc_ID); [apply (ck_codes _ Hc')|done..|congruence].
Qed.

(** * Money *)

Lemma sum_dec_val {A} (f : A → option dec) l : (val (sum_dec f l) == over (λ x, amount_of (f x)) l)%Q.
Proof.
  unfold over. induction l as [|x l IH]; simpl; [apply dec_zero_val|]. destruct (f x) as [d|]; simpl.
  - rewrite dec_add_val, IH. done.
  - rewrite IH. lra.
Qed.
(** C22: the money gift cards give is the ledger's.  In every reachable state the
    total the statistics report as given out is exactly the balance of the
    platform's gift expense account; a redemption with a balance has a positive
    one, names the transaction that paid it, and the ledger has exactly one
    transaction of that kind for its code, so no card pays twice. *)
Theorem gift_money_accounted w : reach w →
  (val (gs_BalanceOut (StatsRow (gw_cards w))) == bal (gw_ledger w) gift_key)%Q ∧
  ∀ r b, r ∈ g_redemptions (gw_cards w) → gr_Balance r = Some b →
    (0 < val b)%Q ∧ hits (same_source KindGiftCardBalance SourceGiftCardCode (gr_CodeID r)) (txns (gw_ledger w)) = 1 ∧
    ∃ t, t ∈ txns (gw_ledger w) ∧ gr_LedgerTxnID r = Some (t_id t) ∧ same_source KindGiftCardBalance SourceGiftCardCode (gr_CodeID r) t = true.
Proof.
  intros Hw%gift_reach_ok. split; [rewrite (go_expense _ _ Hw); apply sum_dec_val|]. intros r b Hr Hb.
  destruct (go_paid _ _ Hw _ Hr _ Hb) as (txn & Et & t & Ht & Hid & Hk & Hst & Hsid).
  assert (Hsame : same_source KindGiftCardBalance SourceGiftCardCode (gr_CodeID r) t = true).
  { unfold same_source. rewrite Hk, Hst, Hsid, !bool_decide_eq_true_2 by done. done. }
  split_and!; [| |exists t; split_and!; [done|congruence|done]].
  - pose proof (proj2 (ck_redeemed _ (go_cards _ _ Hw)) _ Hr) as Hc. unfold redeemed_check, pos_dec in Hc. rewrite Hb in Hc.
    rewrite !andb_true_iff in Hc. assert (Hp : IsPositive b = true) by (simpl in Hc; tauto). by destruct (IsPositive_spec b).
  - apply hits_single; [by exists t|]. unfold same_source. intros i j x y Hi Hj Hx Hy.
    rewrite !andb_true_iff, !bool_decide_eq_true, !String.eqb_eq in Hx, Hy. destruct Hx as [[X1 X2] X3], Hy as [[Y1 Y2] Y3].
    destruct (go_ledger _ _ Hw) as [Hok _]. eapply (ok_once _ Hok); [done..|]. exists SourceGiftCardCode, (gr_CodeID r). rewrite X1. by split_and!.
Qed.

(** * Redemption *)

(** What a redemption that succeeds has done, seen from outside. *)
Record redemption_effect (W : GiftEnv) (who : option Principal) (k : GCall) (i : RedeemInput) (w w' : gworld) (res : RedeemResult)
    (user : uuid) (code : string) (c : code_row) (t : Template) (x : redemption_row) : Prop := {
  re_who : portalUser who = Ok user ∧ IsDeleted W user = Ok false;
  re_code : normalizeCode (ri_Code i) = Some code ∧ c ∈ g_codes (gw_cards w) ∧ gc_CodeHash c = hashCode W code ∧
    gc_Status c = CodeUnused ∧ is_expired (gk_now k) c = false;
  re_template : loadTemplate W (gc_TemplateID c) false w = (Ok t, w) ∧ te_Status t = TemplateActive ∧ checkConditions W user t = Ok ();
  re_limit : 0 < te_MaxUsePerUser t → hits (of_user user (te_ID t)) (g_redemptions (gw_cards w')) ≤ te_MaxUsePerUser t;
  re_used : g_codes (gw_cards w') =
    upd (λ y, (gc_ID y =? gc_ID c)%N) (with_status CodeUsed (Some user) (Some (gk_now k))) (g_codes (gw_cards w));
  re_row : g_redemptions (gw_cards w') = (g_redemptions (gw_cards w) ++ [x])%list ∧ gr_CodeID x = gc_ID c ∧ gr_UserID x = user ∧
    gr_TemplateID x = gc_TemplateID c ∧ gr_RedeemedAt x = gk_now k ∧ gr_Balance x = decPtr (rs_Balance res);
  re_reward : te_Type t ≠ TypePlan → ∃ p reset label, reward_of k t = Ok (p, reset, label) ∧
    gr_Balance x = decPtr (pz_Balance p) ∧ gr_Refund x = None;
  re_balance : ∀ u, (bal (gw_ledger w') (balance_key u) ==
    bal (gw_ledger w) (balance_key u) + (if (u =? user)%N then amount_of (gr_Balance x) + amount_of (gr_Refund x) else 0))%Q;
}.
Lemma hits_snoc {A} (hit : A → bool) l x : hits hit (l ++ [x]) = hits hit l + (if hit x then 1 else 0).
Proof. unfold hits. rewrite List.filter_app, length_app. simpl. destruct (hit x); simpl; lia. Qed.
Lemma code_at_one s c : cards_ok s → c ∈ g_codes s → gc_Status c = CodeUnused → ∀ y, y ∈ g_codes s →
  code_at (gc_ID c) CodeUnused y = (gc_ID y =? gc_ID c)%N.
Proof.
  intros Hs Hc Hst y Hy. unfold code_at. destruct (N.eqb_spec (gc_ID y) (gc_ID c)) as [E|E]; [|done].
  assert (y = c) as ->; [eapply (NoDup_map_inj gc_ID); [apply (ck_codes _ Hs)|done..]|]. by rewrite Hst.
Qed.
Lemma upd_ext {A} (h h' : A → bool) f l : (∀ y, y ∈ l → h y = h' y) → upd h f l = upd h' f l.
Proof. intros H. apply List.map_ext_in. intros y Hy%list_elem_of_In. by rewrite (H y Hy). Qed.
Lemma redeem_effect W who k i w res w' user code : gift_ok (ge_sub W) w → portalUser who = Ok user → normalizeCode (ri_Code i) = Some code →
  redeem_body W who k user (hashCode W code) i w = (Ok (Some res), w') → ∃ c t x, redemption_effect W who k i w w' res user code c t x.
Proof.
  intros Hw Hu Hn H. apply redeem_body_Ok in H as (c & t & g & Hh & HR & ->); [|done].
  destruct HR as [R1 (R2 & R3 & R4) (R5 & R6 & R7) R8 R9 R10 [id R11] R12 _ _ R14].
  exists c, t, (redemptionModel c t user g (gk_now k) id). split; try done.
  - intros Hm. rewrite R11, hits_snoc. specialize (R9 Hm). destruct (of_user _ _ _); lia.
  - rewrite R10. apply upd_ext. apply code_at_one; [apply Hw|done..].
  - intros u. rewrite (gp_balance _ _ _ _ _ _ _ R12). done.
Qed.

(** C23: a redemption does exactly what its card says or nothing.  If it
    succeeds, the user was logged in and not deleted, the typed text was a code
    of the table that was unused and not expired, its template was active and
    the user met its conditions and, this redemption included, its limit; that
    code and no other became used by this user now, one redemption of it was
    recorded, the balance a card or the drawn prize has was credited to the user
    (for a plan card, the rest of the plan it replaces), and nobody else's
    balance changed.  If it fails, nothing changed, except that an expired code
    may have been marked as such. *)
Theorem redeem_decided W who k i w r w' : ge_sub W = S → reach w → Redeem W false who k i w = (r, w') →
  match r with
  | Ok res => ∃ user code c t x, redemption_effect W who k i w w' res user code c t x
  | Err e => w' = w ∨ (e = GErrCodeUnusable ∧ ∃ c, c ∈ g_codes (gw_cards w) ∧ gc_Status c = CodeUnused ∧ is_expired (gk_now k) c = true ∧
      w' = put_cards (set_codes (upd (λ y, (gc_ID y =? gc_ID c)%N) (with_status CodeExpired None None)) (gw_cards w)) w)
  end.
Proof.
  intros HS Hw%gift_reach_ok H. rewrite <- HS in Hw. destruct r as [res|e].
  - apply Redeem_Ok in H as (user & code & Hu & Hn & H & _). exists user, code. by apply redeem_effect.
  - apply Redeem_Err in H as [->|(user & code & _ & -> & H & _)]; [by left|right]. split; [done|].
    apply redeem_body_Ok in H as (c & F & b & s & Hc & He & Hst & Hs & ->); [|done]. exists c. split_and!; try done.
    apply UpdateCodeStatus_Ok in Hs as (_ & -> & _). f_equal. unfold set_codes. by rewrite (upd_ext _ _ _ _ (code_at_one _ _ (go_cards _ _ Hw) Hc Hst)).
Qed.

Lemma find_the_one {A} (p : A → bool) l x : x ∈ l → p x = true → (∀ y, y ∈ l → p y = true → y = x) → List.find p l = Some x.
Proof.
  intros Hx Hp Hu. destruct (List.find p l) as [y|] eqn:E.
  - apply List.find_some in E as [Hy%list_elem_of_In Ey]. by rewrite (Hu y).
  - apply list_elem_of_In in Hx. by rewrite (List.find_none _ _ E _ Hx) in Hp.
Qed.
Lemma redeem_used W who k i w code c : cards_ok (gw_cards w) → normalizeCode (ri_Code i) = Some code → c ∈ g_codes (gw_cards w) →
  gc_CodeHash c = hashCode W code → gc_Status c = CodeUsed →
  ∃ e, Redeem W false who k i w = (Err e, w) ∧ (∀ u, portalUser who = Ok u → IsDeleted W u = Ok false → e = GErrCodeUnusable).
Proof.
  intros Hc Hn Hin Hh Hst. unfold Redeem, mbind, M_bind, lift. destruct (portalUser who) as [u|e] eqn:Eu; [|by exists e]. rewrite Hn.
  assert (Hb : ∃ e w1, redeem_body W who k u (hashCode W code) i w = (Err e, w1) ∧ (IsDeleted W u = Ok false → e = GErrCodeUnusable)).
  { unfold redeem_body, mbind, M_bind, lift. destruct (IsDeleted W u) as [[]|e] eqn:Ed; [by eexists _, _|..|by eexists _, _].
    unfold on_cards, zoom, map_err, CodeByHash, gets. rewrite (find_the_one (λ c, bool_decide (gc_CodeHash c = hashCode W code)) _ c); [|done| |].
    - rewrite Hst. simpl. by eexists _, _.
    - by apply bool_decide_eq_true.
    - intros y Hy Ey%bool_decide_eq_true. eapply (NoDup_map_inj gc_CodeHash); [apply (ck_codes _ Hc)|done..|congruence]. }
  destruct Hb as (e & w1 & Hb & He). unfold gift_tx, Do. rewrite Hb. exists e. split; [done|]. intros u' [= <-]. done.
Qed.
(** C24: a code is redeemed once.  After a redemption, and whatever happens since,
    anybody who types the same code in any form fails and changes nothing, and a
    user who is logged in and not deleted is told that the code is not usable. *)
Theorem redeemed_once W who k i w res w1 w2 W' who' k' i' : ge_sub W = S → reach w → Redeem W false who k i w = (Ok res, w1) → rtc step w1 w2 →
  normalizeCode (ri_Code i') = normalizeCode (ri_Code i) → (∀ code, hashCode W' code = hashCode W code) →
  ∃ e, Redeem W' false who' k' i' w2 = (Err e, w2) ∧ (∀ u, portalUser who' = Ok u → IsDeleted W' u = Ok false → e = GErrCodeUnusable).
Proof.
  intros HS Hw%gift_reach_ok H Hs Hn Hh. rewrite <- HS in Hw. destruct (Redeem_keeps _ _ _ _ _ _ _ Hw H) as [Hw1 _]. rewrite HS in Hw1.
  apply Redeem_Ok in H as (user & code & Hu & Hc & H & _). destruct (redeem_effect _ _ _ _ _ _ _ _ _ Hw Hu Hc H) as (c & t & x & E).
  destruct (gift_history _ _ _ _ _ Hw1 Hs) as [Hw2 [L _ _]].
  eapply redeem_used with (code := code) (c := with_status CodeUsed (Some user) (Some (gk_now k)) c); [apply Hw2|congruence| | |done].
  - eapply used_stays; [exact L| |by left]. rewrite (re_used _ _ _ _ _ _ _ _ _ _ _ _ E). unfold upd. apply list_elem_of_fmap. exists c.
    split; [by rewrite N.eqb_refl|apply E].
  - rewrite Hh. apply E.
Qed.

(** * Batches *)

Lemma export_again W who p k id w b t : cards_ok (gw_cards w) → gift_admin who = Ok p → b ∈ g_batches (gw_cards w) → bt_ID b = id →
  bt_ExportedAt b = Some t → ExportBatch W false who k id w = (Err GErrBatchAlreadyExported, w).
Proof.
  intros Hc Hp Hb Hid Ht. unfold ExportBatch, mbind at 1, M_bind at 1, lift at 1. rewrite Hp.
  assert (Hf : List.find (λ x, (bt_ID x =? id)%N) (g_batches (gw_cards w)) = Some b).
  { apply find_the_one; [done|by apply N.eqb_eq|]. intros y Hy Ey%N.eqb_eq. eapply (NoDup_map_inj bt_ID); [apply (ck_batches _ Hc)|done..|congruence]. }
  unfold gift_tx, Do, mbind at 1, M_bind at 1, on_cards at 1, zoom at 1, map_err at 1, BatchByID, gets at 1. rewrite Hf, Ht. done.
Qed.
Lemma exported_stays w w' b t : cards_life (gw_cards w) (gw_cards w') → b ∈ g_batches (gw_cards w) → bt_ExportedAt b = Some t →
  ∃ b', b' ∈ g_batches (gw_cards w') ∧ bt_ID b' = bt_ID b ∧ bt_ExportedAt b' = Some t.
Proof.
  intros L Hb Ht. destruct (rows_in _ _ _ _ (cl_batches _ _ L) Hb) as (y & Hy & _ & [->|(E & _)]); [by exists b|congruence].
Qed.
Lemma export_made W i out w1 w2 plain who k view rows w3 :
  (∀ raw aad sealed, SealCodes W raw aad = Some sealed → OpenCodes W sealed aad = Some raw) →
  cards_ok (gw_cards w2) → made W i out w1 plain → cards_life (gw_cards w1) (gw_cards w2) →
  ExportBatch W false who k (gd_BatchID out) w2 = (Ok (view, rows), w3) → map xr_Code rows = plain.
Proof.
  intros Hlaw Hc2 [M1 M2 M3 M4 M5 (b & sealed & B1 & B2 & B3 & B4 & B5)] L H.
  destruct (ExportBatch_Ok _ _ _ _ _ _ _ _ H) as (b2 & sealed2 & raw & by_ & X1 & X2 & X3 & X4 & X5 & X6 & _).
  destruct (rows_in _ _ _ _ (cl_batches _ _ L) B1) as (y & Hy & Hterms & Hlife).
  assert (b2 = y) as ->.
  { eapply (NoDup_map_inj bt_ID); [apply (ck_batches _ Hc2)|done..|]. unfold batch_terms in Hterms. injection Hterms as E1 _ _ _ _ _ _. congruence. }
  destruct Hlife as [->|(_ & [t Et] & _)]; [|congruence]. rewrite X6. rewrite B2 in B5. assert (sealed2 = sealed) as -> by congruence.
  rewrite (Hlaw _ _ _ B5) in X5. injection X5 as <-. apply decode_encoded. eapply Forall_impl; [exact M3|].
  intros c [Hc Hl]. split; [by apply clean_line|]. intros ->. unfold blen, minCodeLen in Hl. simpl in Hl. lia.
Qed.
(** C25: a batch hands out its codes once.  When sealing can be undone by opening,
    the first export of a generated batch, whatever happened to its codes since,
    returns exactly the number of codes asked for, all different, beginning with
    the sample shown when they were generated; each is in the table under its
    hash with the status reported and the expiry of the batch, and typing it
    finds it again.  Every later export is refused and changes nothing. *)
Theorem batch_exported_once W who k i w out w1 w2 who2 k2 view rows w3 :
  (∀ raw aad sealed, SealCodes W raw aad = Some sealed → OpenCodes W sealed aad = Some raw) →
  reach w → GenerateCodes W false who k i w = (Ok out, w1) → rtc step w1 w2 →
  ExportBatch W false who2 k2 (gd_BatchID out) w2 = (Ok (view, rows), w3) →
  Z.of_nat (length rows) = gi_Count i ∧ NoDup (map xr_Code rows) ∧ take generateSampleSize (map xr_Code rows) = gd_Sample out ∧
  (∀ r, r ∈ rows → (∀ s, typed_as (xr_Code r) s → normalizeCode s = Some (xr_Code r)) ∧
     ∃ c, c ∈ g_codes (gw_cards w2) ∧ gc_CodeHash c = hashCode W (xr_Code r) ∧ gc_BatchID c = gd_BatchID out ∧
          gc_TemplateID c = gi_TemplateID i ∧ gc_Status c = xr_Status r ∧
          xr_ExpiresAt r = (λ e, Truncate e Microsecond) <$> gi_ExpiresAt i) ∧
  (∀ w4 who4 k4 p, rtc step w3 w4 → gift_admin who4 = Ok p →
     ExportBatch W false who4 k4 (gd_BatchID out) w4 = (Err GErrBatchAlreadyExported, w4)).
Proof.
  intros Hlaw Hw%gift_reach_ok HG Hs HE. destruct (GenerateCodes_Ok _ _ _ _ _ _ _ _ Hw HG) as [plain HM].
  destruct (GenerateCodes_commits _ _ _ _ _ _ _ _ Hw HG) as [Hw1 _]. destruct (gift_history _ _ _ _ _ Hw1 Hs) as [Hw2 [L _ _]].
  pose proof (go_cards _ _ Hw2) as Hc2. pose proof (export_made _ _ _ _ _ _ _ _ _ _ _ Hlaw Hc2 HM L HE) as Hplain.
  destruct (ExportBatch_commits _ _ _ _ _ _ _ _ Hw2 HE) as [Hw3 _].
  destruct (ExportBatch_Ok _ _ _ _ _ _ _ _ HE) as (b & sealed & raw & by_ & X1 & X2 & X3 & _ & _ & _ & X7 & X8).
  destruct HM as [[M1 _] M2 M3 M4 M5 _]. rewrite Hplain. split_and!; [by rewrite <- M1, <- Hplain, length_map|done|done|..].
  - intros r Hr. assert (Hin : xr_Code r ∈ plain) by (rewrite <- Hplain; by apply list_elem_of_fmap_2).
    destruct (proj1 (Forall_forall _ _) M3 _ Hin) as [_ Hlen]. split; [intros s Ht; by apply normalizeCode_typed|].
    destruct (X7 _ Hr) as (c & Hc & Hcb & Hch & Hcs & Hce). destruct (has_code_life _ _ _ _ _ _ _ L (M5 _ Hin)) as (c' & Hc' & Hh' & Hb' & Ht' & He' & _).
    assert (c' = c) as ->; [eapply (NoDup_map_inj gc_CodeHash); [apply (ck_codes _ Hc2)|done..|congruence]|].
    exists c. split_and!; try done. congruence.
  - intros w4 who4 k4 p Hs4 Hp. destruct (gift_history _ _ _ _ _ Hw3 Hs4) as [Hw4 [L4 _ _]].
    destruct (exported_stays _ _ (exported_by by_ (gk_now k2) b) (gk_now k2) L4) as (b' & Hb' & Hid & Ht); [|done|].
    + rewrite X8. unfold upd. apply list_elem_of_fmap. exists b. split; [|done]. unfold unexported. by rewrite X2, N.eqb_refl, X3.
    + eapply export_again; [apply Hw4|done|exact Hb'|by rewrite Hid|exact Ht].
Qed.
End GiftThms.

(** * Codes and prizes *)

(** C26: a code can be read off a card.  A new code is the batch's prefix and
    twelve letters of an alphabet without look-alikes, each letter drawn from
    equally many random bytes; typed in any mixture of cases and with blanks
    around it, it is understood as itself; its mask shows the prefix and four
    letters and hides the other eight. *)
Theorem new_code_typed p prefix reads c reads' : normalizePrefix p = Some prefix → newCode prefix reads = Some (c, reads') →
  (∃ r, c = prefix ++ string_of r ∧ length r = codeRandomLen ∧ Forall (λ b, b ∈ bytes_of codeAlphabet) r) ∧
  (∀ a, a ∈ bytes_of codeAlphabet → hits (λ b, (b <? codeLimit) && (code_char b =? a)) (map Z.of_nat (seq 0 256)) = 8) ∧
  (∀ s, typed_as c s → normalizeCode s = Some c) ∧
  MaskCode c = string_of (take (Z.to_nat (blen prefix + 4)) (bytes_of c) ++ repeat_bullet maskedTail).
Proof.
  intros [Hc Hl]%normalizePrefix_clean H. destruct (newCode_clean _ _ _ _ Hc Hl H) as (Hcc & Hlen & Hb).
  destruct (newCode_shape _ _ _ _ H) as (r & Er & _ & Hr & Hrl). split_and!.
  - by exists r.
  - intros a Ha%list_elem_of_In. pose proof code_char_uniform as Hu. rewrite forallb_forall in Hu. by apply Z.eqb_eq, Hu.
  - intros s Hs. by apply normalizeCode_typed.
  - rewrite MaskCode_clean; [|done|unfold blen in *; lia]. by replace (blen c - 8) with (blen prefix + 4) by lia.
Qed.

(** C27: prizes are drawn by their weights.  For a pool that a template may have,
    the sum of the weights does not overflow, and a random number below it picks
    the prize in whose stretch of the line it falls, each stretch being as long
    as the prize's weight: a prize is drawn for exactly that many numbers, and
    the draw never falls through to the last prize. *)
Theorem prize_draw_exact `{DL : DecimalLib} r rand pick : validateRewards TypeMystery r = None → 0 ≤ pick < weights (rw_Pool r) →
  rand (weights (rw_Pool r)) = Some pick →
  weight_sum (rw_Pool r) = weights (rw_Pool r) ∧ weights (rw_Pool r) ≤ maxPrizes * maxPrizeWeight ∧
  ∃ i p, rw_Pool r !! i = Some p ∧ drawPrize rand (rw_Pool r) = Some p ∧
    weights (take i (rw_Pool r)) ≤ pick < weights (take i (rw_Pool r)) + pz_Weight p.
Proof.
  intros Hv Hp Hr. unfold validateRewards in Hv. simpl in Hv. destruct (_ <? minPrizes) eqn:E1; [done|]. destruct (maxPrizes <? _) eqn:E2; [done|].
  apply pool_fair in Hv as Hf. apply Z.ltb_ge in E2. pose proof (weights_bound _ Hf) as Hb.
  assert (Hm : weights (rw_Pool r) ≤ maxPrizes * maxPrizeWeight) by (unfold maxPrizes, maxPrizeWeight in *; nia).
  assert (Hs : weight_sum (rw_Pool r) = weights (rw_Pool r)) by (unfold weight_sum; rewrite sum_from; [done|lia|done|unfold MaxInt64, maxPrizes, maxPrizeWeight in *; lia]).
  split_and!; [done..|]. destruct (some_part _ _ Hf Hp) as (i & p & Hi & Hpk). exists i, p. split_and!; [done| |lia..].
  unfold drawPrize. cbv zeta. rewrite Hs, Hr. rewrite (proj2 (Z.leb_gt _ 0)) by lia.
  rewrite (pick_at _ 0 pick i p); [done|lia|done|unfold MaxInt64, maxPrizes, maxPrizeWeight in *; lia|done|lia].
Qed.
