(* ===== verification/GiftWitness.v ===== *)
(** A gift-card story, concretely: an administrator makes a general template and
    a mystery box, generates two codes of the first, a user redeems one, and the
    batch is exported. *)
From Stdlib Require Import ZArith QArith Lqa Lia.
From stdpp Require Import base tactics list gmap strings sorting relations.
From S2P Require Import Prelude Safety Decimal GoString Money GoTime LedgerTypes LedgerFacts Ledger LedgerInv LedgerOps LedgerProgress Promo Period.
From S2P Require Import OrderAmounts Proration SubTypes SubStore SubFacts SubHistory OrderStore OrderFlow OrderHistory OrderThms PayStore PayFlow Idem.
From S2P Require Import Gift GiftCodes GiftStore GiftFlow GiftRedeem GiftInv GiftHistory GiftThms.
#[local] Open Scope string_scope.
#[local] Open Scope Z_scope.
#[local] Existing Instance scaled_decimal.

(** Stand-ins for the keyed hash and the sealer. *)
Definition pad32 (c : string) : list Z := take 32 (bytes_of c ++ repeat 0 32).
Definition seal (raw _ : list Z) : option (list Z) := Some (1 :: raw).
Definition unseal (sealed _ : list Z) : option (list Z) := match sealed with _ :: raw => Some raw | [] => None end.
Lemma unseal_seal raw aad sealed : seal raw aad = Some sealed → unseal sealed aad = Some raw.
Proof. by intros [= <-]. Qed.
Definition cards_env : GiftEnv :=
  mkGiftEnv shop_subs {[50%N]} (λ _, Ok ∅) (λ _, Ok false) (λ _, Ok ∅) pad32 seal unseal None None (λ _ _ _ _, Ok ()).
Definition gcall (t : Time) (reads : list (list Z)) : GCall := mkGCall t t t t t t t t t 900 [] reads (λ _, Some 0) None.
Definition boss : option Principal := Some (mkPrincipal 3 AudienceAdmin).
Definition fan : option Principal := Some (mkPrincipal 7 AudiencePublic).
Definition ten_yuan : TemplateInput :=
  mkTemplateInput None " Ten yuan " TypeGeneral "" (mkRewards (1000, -2) 0 0 false None None []) (mkConditions false false) 1.
Definition two_codes : GenerateInput := mkGenerateInput 1 2 "gc" None None.
Definition buffers : list (list Z) := [map Z.of_nat (seq 0 24); map Z.of_nat (seq 240 16); map Z.of_nat (seq 40 24)].

Definition g0 : gworld := gift_start {[7%N; 9%N; 3%N]} 100 empty_idem.
Definition g1 : gworld := (SaveTemplate cards_env false boss (gcall 1000 []) ten_yuan g0).2.
Abbreviation make := (GenerateCodes cards_env false boss (gcall 2000 buffers) two_codes).
Definition g2 : gworld := (make g1).2.
Definition typed : RedeemInput := mkRedeemInput " gcabcdefghjkmn " None None.
Abbreviation redeem := (Redeem cards_env false fan (gcall 3000 []) typed).
Definition g3 : gworld := (redeem g2).2.
(** The batch as it was made, and what its export returns after one code was used. *)
Definition batch_as (sealed : option (list Z)) (exported : option Time) (by_ : option uuid) (used : Z) : Batch :=
  mkBatch (mkBatchView (mkBatchRow 2 1 "GC" 2 None sealed (Some 3%N) 2000 exported by_) "Ten yuan" used 0) None None.
Definition the_batch : Generated :=
  mkGenerated 2 2 ["GCABCDEFGHJKMN"; "GC23456789KMNP"]
    (batch_as (seal (encodeCodes ["GCABCDEFGHJKMN"; "GC23456789KMNP"]) []) None None 0).
Definition the_view : Batch := batch_as None (Some 4000) (Some 3%N) 1.
Definition the_rows : list ExportRow :=
  [mkExportRow "GCABCDEFGHJKMN" CodeUsed None "Ten yuan"; mkExportRow "GC23456789KMNP" CodeUnused None "Ten yuan"].
Abbreviation export := (ExportBatch cards_env false boss (gcall 4000 []) (gd_BatchID the_batch)).
Definition g4 : gworld := (export g3).2.
Abbreviation gstep := (gift_step audit_ok none_deleted shop_subs).
Abbreviation greach := (gift_reach audit_ok none_deleted shop_subs).

Lemma to_g2 : rtc gstep g0 g2.
Proof.
  apply (rtc_l _ _ g1); [exact (gs_save audit_ok none_deleted shop_subs g0 cards_env boss (gcall 1000 []) ten_yuan)|].
  apply rtc_once. exact (gs_generate audit_ok none_deleted shop_subs g1 cards_env boss (gcall 2000 buffers) two_codes).
Qed.
Lemma g2_g3 : rtc gstep g2 g3.
Proof. apply rtc_once. by apply (gs_redeem audit_ok none_deleted shop_subs g2 cards_env fan (gcall 3000 []) typed). Qed.
Lemma g3_g4 : rtc gstep g3 g4.
Proof. apply rtc_once. exact (gs_export audit_ok none_deleted shop_subs g3 cards_env boss (gcall 4000 []) (gd_BatchID the_batch)). Qed.
Lemma rtc_trans {A} (R : relation A) x y z : rtc R x y → rtc R y z → rtc R x z.
Proof. apply transitivity. Qed.
Lemma at_g1 : greach g1.
Proof. exists {[7%N; 9%N; 3%N]}, 100%N, empty_idem. apply rtc_once. exact (gs_save audit_ok none_deleted shop_subs g0 cards_env boss (gcall 1000 []) ten_yuan). Qed.
Lemma at_g2 : greach g2.
Proof. exists {[7%N; 9%N; 3%N]}, 100%N, empty_idem. exact to_g2. Qed.
Lemma at_g3 : greach g3.
Proof. exists {[7%N; 9%N; 3%N]}, 100%N, empty_idem. etrans; [exact to_g2|exact g2_g3]. Qed.
Abbreviation ok_of := (λ r, match r with Ok a => Some a | Err _ => None end).
Lemma answered {A} (m : M gworld gerr A) w a : ok_of (m w).1 = Some a → m w = (Ok a, (m w).2).
Proof. destruct (m w) as [[x|e] w']; simpl; [by intros [= ->]|done]. Qed.

Lemma codes_follow_life_witness :
  map gc_Status (g_codes (gw_cards g2)) = [CodeUnused; CodeUnused] ∧ map gc_Status (g_codes (gw_cards g4)) = [CodeUsed; CodeUnused] ∧
  RedemptionMismatchRows (gw_cards g4) = [] ∧ g_redemptions (gw_cards g2) `prefix_of` g_redemptions (gw_cards g4).
Proof.
  destruct (codes_follow_life audit_ok none_deleted shop_subs g2 g4 at_g2 (rtc_trans _ _ _ _ g2_g3 g3_g4)) as (H1 & _ & H3 & _).
  split; [ev|]. split; [ev|]. by split.
Defined.
Lemma gift_money_accounted_witness :
  map gr_Balance (g_redemptions (gw_cards g3)) = [Some (1000, -2)] ∧ (val (gs_BalanceOut (StatsRow (gw_cards g3))) == bal (gw_ledger g3) gift_key)%Q.
Proof. destruct (gift_money_accounted audit_ok none_deleted shop_subs g3 at_g3) as [H _]. split; [ev|exact H]. Defined.
Definition the_receipt : RedeemResult := mkRedeemResult "Ten yuan" TypeGeneral "" (1000, -2) 0 0 false "" [LBalance (1000, -2)].
Lemma redeemed_g2 : redeem g2 = (Ok the_receipt, g3).
Proof. apply (answered redeem g2). ev. Qed.
Lemma redeem_decided_witness :
  ∃ user code c t x, redemption_effect cards_env fan (gcall 3000 []) typed g2 g3 the_receipt user code c t x.
Proof. exact (redeem_decided audit_ok none_deleted shop_subs cards_env fan (gcall 3000 []) typed g2 (Ok the_receipt) g3 eq_refl at_g2 redeemed_g2). Defined.
Definition typed_again : RedeemInput := mkRedeemInput "GcAbCdEfGhJkMn" None None.
Definition other_fan : option Principal := Some (mkPrincipal 9 AudiencePublic).
Lemma redeemed_once_witness :
  normalizeCode (ri_Code typed_again) = normalizeCode (ri_Code typed) ∧
  ∃ e, Redeem cards_env false other_fan (gcall 5000 []) typed_again g4 = (Err e, g4) ∧
       (∀ u, portalUser other_fan = Ok u → IsDeleted cards_env u = Ok false → e = GErrCodeUnusable).
Proof.
  assert (Hn : normalizeCode (ri_Code typed_again) = normalizeCode (ri_Code typed)) by ev. split; [exact Hn|].
  exact (redeemed_once audit_ok none_deleted shop_subs cards_env fan (gcall 3000 []) typed g2 the_receipt g3 g4 cards_env other_fan (gcall 5000 [])
           typed_again eq_refl at_g2 redeemed_g2 g3_g4 Hn (λ _, eq_refl)).
Defined.

Lemma made_g1 : make g1 = (Ok the_batch, g2).
Proof. apply (answered make g1). ev. Qed.
Lemma exported_g3 : export g3 = (Ok (the_view, the_rows), g4).
Proof. apply (answered export g3). ev. Qed.
Lemma batch_exported_once_witness :
  map xr_Code the_rows = ["GCABCDEFGHJKMN"; "GC23456789KMNP"] ∧ map xr_Status the_rows = [CodeUsed; CodeUnused] ∧
  take generateSampleSize (map xr_Code the_rows) = gd_Sample the_batch ∧
  ExportBatch cards_env false boss (gcall 6000 []) (gd_BatchID the_batch) g4 = (Err GErrBatchAlreadyExported, g4).
Proof.
  destruct (batch_exported_once audit_ok none_deleted shop_subs cards_env boss (gcall 2000 buffers) two_codes g1 the_batch g2 g3 boss
              (gcall 4000 []) the_view the_rows g4 unseal_seal at_g1 made_g1 g2_g3 exported_g3) as (_ & _ & H3 & _ & H5).
  split; [reflexivity|]. split; [reflexivity|]. split; [exact H3|].
  exact (H5 g4 boss (gcall 6000 []) (mkPrincipal 3 AudienceAdmin) (rtc_refl _ _) eq_refl).
Defined.

Lemma new_code_typed_witness :
  newCode "GC" buffers = Some ("GCABCDEFGHJKMN", [map Z.of_nat (seq 240 16); map Z.of_nat (seq 40 24)]) ∧
  normalizeCode "GCABCDEFGHJKMN" = Some "GCABCDEFGHJKMN" ∧
  MaskCode "GCABCDEFGHJKMN" = string_of (take (Z.to_nat (blen "GC" + 4)) (bytes_of "GCABCDEFGHJKMN") ++ repeat_bullet maskedTail).
Proof.
  assert (Hc : newCode "GC" buffers = Some ("GCABCDEFGHJKMN", [map Z.of_nat (seq 240 16); map Z.of_nat (seq 40 24)])) by ev.
  assert (Hp : normalizePrefix " gc" = Some "GC") by ev.
  destruct (new_code_typed " gc" "GC" buffers "GCABCDEFGHJKMN" _ Hp Hc) as (_ & _ & H3 & H4). split; [exact Hc|]. split; [|exact H4].
  apply H3. by apply typed_self.
Defined.
Definition box : Rewards :=
  mkRewards dec_zero 0 0 false None None [mkPrize "small" 3 (100, -2) 0 0; mkPrize "big" 1 (10000, -2) 0 0].
Lemma prize_draw_exact_witness :
  validateRewards TypeMystery box = None ∧
  ∃ i p, rw_Pool box !! i = Some p ∧ drawPrize (λ _, Some 3) (rw_Pool box) = Some p ∧
    weights (take i (rw_Pool box)) ≤ 3 < weights (take i (rw_Pool box)) + pz_Weight p.
Proof.
  assert (Hv : validateRewards TypeMystery box = None) by ev. split; [exact Hv|].
  apply (prize_draw_exact box (λ _, Some 3) 3 Hv); [unfold weights; simpl; lia|done].
Defined.
